(* ===== verification/_CoqProject ===== *)
-Q . S2P
Prelude.v
GoStrings.v
Utf8.v
Types.v
Sha256.v
Key.v
Backend.v
BTree.v
MinHeap.v
Memory.v
MemoryFacts.v
MemoryRefinement.v
MemoryRange.v
MemoryBackend.v
Ring.v
ManagedConn.v
Resumable.v
ResumableFacts.v
ResumableSafety.v
State.v
Scopes.v
Policy.v
Identity.v
Regexp.v
Traits.v
Groups.v
GroupsFacts.v
LoginAudit.v
Transport.v
Service.v
Users.v
Modules.v
Web.v
Callback.v
CallbackFacts.v
Scenario.v
Roles.v
RoleLimits.v
RoleAccess.v
CheckAccess.v
DecisionFacts.v
RoleRules.v
RuleFacts.v
RoleGrants.v
Checker.v
CheckerFacts.v
HostUsers.v
RoleMap.v
Moderation.v
TermManager.v
SessionTracker.v
Session.v
SessionSafety.v
Autoupdate.v
Rollout.v
RolloutFacts.v
RolloutTransitions.v
RolloutManual.v
RolloutReconciler.v
RolloutSteps.v
AccessRequest.v
AccessReview.v
ReviewFacts.v
DynamicAccess.v
RequestValidator.v
ValidatorFacts.v
RequestStore.v
AccessScenario.v
RolloutScenario.v
PolicyClaims.v
GroupsClaims.v
LoginClaims.v
RuntimeClaims.v
ScopeClaims.v
MemoryClaims.v
ResumptionClaims.v
AccessClaims.v
ModerationClaims.v
RolloutClaims.v
AccessRequestClaims.v
