(* ===== verification/Prelude.v ===== *)
(** * Psiphon Access: a verification library

    Psiphon Access is a build of the Teleport access platform with its own
    Google Workspace login.  This library models, in Rocq, the parts of it
    that decide things and keep state, and proves what makes them right.  The
    definitions follow the Go sources under [src/] function by function and
    branch by branch, and run: every claim with a hypothesis has a witness
    that applies it to a concrete run.

    ** The parts, and where they are

    - The login through Google ([lib/googleoidc]).  [Policy] holds the
      connector policy of [policy/connector.go], [policy/claimvalue.go] and
      [policy/groups.go]; [State] the single-use store of [state.go];
      [Service] the start of a login ([service.go], [request.go]); [Users] and
      [Callback] the callback ([callback.go]); [Groups] the group lookup
      ([groups.go]); [LoginAudit] the audit record ([audit.go]); [Transport]
      the restricted HTTP client ([transport.go]); [Modules] the plugin, the
      feature wrapper and the activation ([modules.go], [plugin.go],
      [activate.go], [lib/plugin/registry.go]); [Web] the browser routes
      ([webhandlers.go], parts of [lib/web/apiserver.go]).  A login starts in
      [Service.createAuthRequest], which stores a nonce ([State]) and the
      request ([Identity]) in the backend; it ends in
      [Callback.ValidateOIDCAuthCallback], which spends the state, redeems the
      code, checks the identity ([Users]), looks up groups ([Groups]), maps
      traits to roles ([Traits], [Regexp]) and writes the user.
    - What the login shares with the platform.  [Types] the resources
      ([api/types]); [Identity] connectors and stored requests
      ([api/types/oidc.go], [lib/services/local/users.go]); [Traits] and
      [Regexp] the mapping of traits to roles ([lib/services/traits.go],
      [lib/utils/replace.go]); [Key] and [Backend] keys and the interface of
      a backend ([lib/backend]).
    - The memory backend ([lib/backend/memory], [lib/backend/atomicwrite.go]).
      [MinHeap] is the expiry heap with Go's [container/heap], [BTree] the
      interface of the B-tree package with a reference instance, [Memory] the
      operations over cells that the tree and the heap share.
    - Connection resumption ([lib/resumption]).  [Ring] is the ring buffer and
      [ManagedConn] the connection over two of them with its deadlines
      ([managedconn.go]); [Resumable] is the protocol of [resumable.go] as a
      step relation of two endpoints over transports that fail at any byte.
    - Scopes ([lib/scopes/scopes.go]).  [Scopes].
    - Role based access control ([lib/services/role.go],
      [access_checker.go], [trustedcluster.go]).  [Roles] has the role
      resource of [api/types/role.go]; [RoleLimits] the limits and
      permissions of a set of roles; [RoleAccess] labels and matchers;
      [CheckAccess] the access decision [RoleSet.checkAccess]; [RoleRules]
      rules on kinds and verbs; [RoleGrants] what a certificate is filled
      with; [Checker] the access checker of an identity with its resource
      restrictions ([resource_constraints.go]) and delegation session;
      [HostUsers] host users, desktop groups and sudoers; [RoleMap] the roles
      of users of other clusters.  A checker takes its roles from an identity
      ([RoleMap], [Checker.NewAccessChecker]), wraps the matchers of a request
      in the constraints of the restriction, and leaves the decision to the
      set of roles.
    - Moderated sessions ([lib/auth/moderation], [lib/srv/sess.go]).
      [Moderation] is the evaluator of join and require policies;
      [TermManager] the terminal that copies and holds back
      ([lib/srv/termmanager.go]); [SessionTracker] the tracker of a session
      with the service it reports to ([lib/srv/sessiontracker.go],
      [api/types/session_tracker.go]); [Session] the session itself: parties
      that join and leave, its start, pause, resumption and end, and file
      transfers, as a step relation whose steps are the handlers under the
      session's lock.
    - Automatic updates ([lib/autoupdate/rollout], [api/types/autoupdate]).
      [Autoupdate] has the resources and their validation; [Rollout] the two
      strategies that move groups of agents along; [RolloutTransitions] what
      an administrator can do to a group, and the estimate of a schedule
      ([transitions.go], [lib/auth/autoupdate/autoupdatev1/service.go]);
      [RolloutReconciler] the reconciler and the retries of the service, over
      the class [RolloutStore] of the cluster's resources with the laws
      [RolloutStoreLaws]; [RolloutScenario] has an instance with other servers
      that act between any two calls.
    - Access requests ([api/types/access_request.go],
      [lib/services/access_request.go],
      [lib/services/local/dynamic_access.go]).  [AccessRequest] is the
      request resource with its validation; [AccessReview] the permission to
      review a request and what a review does to it ([ApplyAccessReview],
      [calculateReviewBasedResolution], the matchers of
      [lib/utils/parse/parse.go]); [DynamicAccess] the service that stores
      requests, over the class [RequestBackend] with its laws, which
      [RequestStore] proves of the memory backend with other servers that act
      between any two calls.  [RequestValidator] is the validator of new
      requests: what the roles of a user let be requested ([push]), the checks
      and the expansion of a request ([validate]), the roles that are needed
      for resources ([pruneResourceRequestRoles], with the Kubernetes resources
      of [api/types/role.go] and their matcher), and the request whose roles a
      user takes on ([Server.getValidatedAccessRequest] of
      [lib/auth/auth.go]).  What the validator returns is what the service
      creates; its thresholds and mapping are what reviews are counted by.

    [GoStrings], [Utf8] and [Sha256] model what the sources use of Go's
    standard library.  Errors, the result and state monads, and the tactics
    are in this file.

    ** What the theorems show

    - [PolicyClaims], [GroupsClaims], [LoginClaims] and [RuntimeClaims] are
      about the login: what an accepted connector is, that a callback with
      credentials comes from a spent state, a redeemed code and a verified
      identity, that a replay that does not
      stall is refused, that groups and roles come from what
      was verified, that the client stays on its allow-list.
      Their lemmas are in [GroupsFacts], [Users] and [CallbackFacts];
      [Scenario] is the world their witnesses run in, on the memory backend.
    - [MemoryClaims] is about the backend: it refines a map of live items
      ([MemoryRefinement] has the specification and the simulation), its tree,
      heap and cells stay consistent ([MemoryFacts]), pages are the range
      ([MemoryRange]), and atomic writes are atomic.  [MemoryBackend] shows
      that it is an instance of the interface the login is proved against.
    - [ResumptionClaims] is about resumption: the stream arrives, once and in
      order, whatever transports do; its end is not early; memory is bounded;
      nothing panics or gets stuck.  [ResumableFacts] and [ResumableSafety]
      have the invariant, that every step keeps it and the progress argument,
      [ManagedConn] the deadlines, and the claims file runs
      that evaluate.
    - [ScopeClaims] is about scopes and keys, with lemmas in [Scopes].
    - [AccessClaims] is about access: the decision as a specification over the
      roles ([DecisionFacts]), what a granted access tells of the roles and the
      restrictions ([CheckerFacts]), preconditions, the implicit role, rules
      and conditions of list queries ([RuleFacts]).
      The same file is about limits and key policies ([RoleLimits]), principals
      and logins ([RoleGrants]), host users ([HostUsers]) and role maps
      ([RoleMap]).  The order a Go map is walked in and the order
      [sort.Slice] leaves equal elements in are classes of [GoStrings]; the
      claims hold for every such order.  [AccessScenario] is the cluster of
      the witnesses.
    - [ModerationClaims] is about sessions: when one may run and who may join;
      that data flows only while the policies are fulfilled, as long as the
      tracker service accepts removals, nothing stops the session and no
      goroutine has still to check ([Moderation], [SessionSafety]: an invariant
      of the reachable states);
      who can be in a session and what a file transfer needs
      (also [SessionSafety]).  The claims file has a run for each.
    - [RolloutClaims] is about updates: when a group starts, what a pass
      changes ([RolloutFacts]), what manual transitions do
      ([RolloutManual]), that many servers can reconcile at once, each success
      being one atomic change ([RolloutSteps]), and that
      the estimate of a schedule within 32 bits is the length of the shortest
      one ([RolloutTransitions]), but for waits of less than a day at one hour.  [RolloutScenario] has a week of them.
    - [AccessRequestClaims] is about access requests: what the reviews of a
      request resolve to, that a verdict has the votes it needs and is final,
      who may review ([ReviewFacts]: an invariant of the reviewed requests);
      that reviews, updates and creations are atomic though other servers
      write, and that pages give every request once ([DynamicAccess]).  Of a
      validated request it shows that its roles are permitted, that its
      approval meets the thresholds of every directive for its roles, how long
      it can be granted, its annotations, and what holds when its roles are
      taken on ([ValidatorFacts]: a validator as the list of the directives it
      collected, and a validated request as what they say of it).

    ** Bounds and fuel

    Go integers that can wrap are kept at their width: the positions of the
    ring buffer and of the protocol are taken modulo 2^64.  The claims about
    them assume less than 2^62 bytes in a stream.  Loops with no structural
    measure take fuel that the code's own limits bound: the sift loops of the
    heap take its size, the expiry loop one round per item, a page loop one
    round per page, a group search its ten pages, redirects their limit of
    ten, the growth of a buffer 65 doublings, and an encoded integer ten
    bytes; the claims say that it is enough.  The pages of update reports have
    no limit in the code: their fuel is an argument, and running out of it an
    error no claim takes for success; the three tries of a reconciliation and
    the seven attempts at an access request are measures.  The pages of access
    requests, of at most 16000, are asked for once more than there are
    requests; their reviews are counted in 32 bits, and the claims assume
    fewer than 2^32 of them.  The counts of policies and agents, the hours of
    a schedule and durations wrap at their width; differences of times
    saturate, as in Go, and a validator collects at most 4096 thresholds.

    ** What is left out

    Network and disk I/O, the protobuf and JSON codecs, the regular
    expression engine, the URL parser, the B-tree package and the Cloud
    Identity client are parameters with the laws the code relies on, each with
    an instance.  Log output is left out, and so is the passing of contexts.
    Of resumption, the dialing, the key exchange and the handover between
    processes are not modelled.  Of access control, label expressions, where
    clauses, impersonation matchers and network prefixes are parameters, since
    the parsers they are built on are not part of the repository; the
    expansion of templates in roles is a parameter of the constructor of a
    checker; the matcher of Kubernetes resources for a session and the
    validation of a role are not modelled.  Of a session, the start of the program, recording, audit
    events and SSH requests are left out; of the updates, metrics and the
    controller's timer, and semantic versions are a parameter.  Of access
    requests, promotions by access lists, plugin data and the suggestions for
    the web interface are left out; review predicates, threshold filters,
    matcher expressions and trait templates, the listing of resources and the
    kinds of the Kubernetes libraries are parameters.
    Scoped access, pinning and joining, the generic resource service, the auth
    server, the protocol services and the external backends are not modelled. *)

From stdpp Require Export base gmap strings list sorting.
From Stdlib Require Export ZArith Lia.

#[global] Open Scope Z_scope.

(** ** Errors: [github.com/gravitational/trace]

    A trace error is a class together with its message.  The message keeps the
    format string of the source and its arguments apart, so that two errors
    with one message are equal values, which is how [trace] compares them. *)

Inductive errclass :=
| KBadParameter
| KAccessDenied
| KNotFound
| KAlreadyExists
| KCompareFailed
| KNotImplemented
| KOther.

#[export] Instance errclass_eq_dec : EqDecision errclass.
Proof. solve_decision. Defined.

Record error := Error {
  e_class : errclass;
  e_fmt : string;
  e_args : list string;
  (* the text [trace.WithUserMessage] and the extra arguments of [trace.Wrap]
     attach; it never changes the class *)
  e_user : list string;
}.

#[export] Instance error_eq_dec : EqDecision error.
Proof. solve_decision. Defined.

Definition BadParameter (fmt : string) (args : list string) : error :=
  Error KBadParameter fmt args [].
Definition AccessDenied (fmt : string) (args : list string) : error :=
  Error KAccessDenied fmt args [].
Definition NotFound (fmt : string) (args : list string) : error :=
  Error KNotFound fmt args [].
Definition AlreadyExists (fmt : string) (args : list string) : error :=
  Error KAlreadyExists fmt args [].

Definition WithUserMessage (e : error) (msg : string) : error :=
  Error (e_class e) (e_fmt e) (e_args e) (msg :: e_user e).

Definition IsNotFound (e : error) : bool := bool_decide (e_class e = KNotFound).
Definition IsAlreadyExists (e : error) : bool :=
  bool_decide (e_class e = KAlreadyExists).

(** ** Fallible results *)

Inductive result (A : Type) :=
| Ok (a : A)
| Err (e : error).
Arguments Ok {A} _.
Arguments Err {A} _.

Definition rbind {A B} (m : result A) (k : A -> result B) : result B :=
  match m with Ok a => k a | Err e => Err e end.

(** [if err != nil { return f(err) }] *)
Definition rmap_err {A} (f : error -> error) (m : result A) : result A :=
  match m with Ok a => Ok a | Err e => Err (f e) end.

Definition is_ok {A} (m : result A) : bool :=
  match m with Ok _ => true | Err _ => false end.

Declare Scope go_scope.
Delimit Scope go_scope with go.
Notation "'let?' x := m 'in' k" := (rbind m (fun x => k))
  (at level 10, x pattern, m at level 100, k at level 200) : go_scope.
Notation "'check' m ; k" := (rbind m (fun _ => k))
  (at level 10, m at level 100, k at level 200) : go_scope.
(** [if c { return err }] *)
Notation "'fail_if' c 'with' e ; k" := (if c then Err e else k)
  (at level 10, c at level 100, e at level 100, k at level 200) : go_scope.
#[global] Open Scope go_scope.

Create HintDb go discriminated.
Create Rewrite HintDb go_simpl.

Lemma rbind_ok {A B} (m : result A) (k : A -> result B) b :
  rbind m k = Ok b <-> exists a, m = Ok a /\ k a = Ok b.
Proof. destruct m; simpl; naive_solver. Qed.

Lemma rbind_assoc {A B C} (m : result A) (k : A -> result B) (h : B -> result C) :
  rbind (rbind m k) h = rbind m (fun a => rbind (k a) h).
Proof. by destruct m. Qed.

Lemma rmap_err_ok {A} f (m : result A) a : rmap_err f m = Ok a <-> m = Ok a.
Proof. destruct m; simpl; naive_solver. Qed.

Lemma is_ok_true {A} (m : result A) : is_ok m = true <-> exists a, m = Ok a.
Proof. destruct m; simpl; naive_solver. Qed.

Lemma fail_if_ok {A} (c : bool) e (k : result A) a :
  (if c then Err e else k) = Ok a <-> c = false /\ k = Ok a.
Proof. destruct c; naive_solver. Qed.

(** ** Automation *)

(** Invert a hypothesis that says a chain of fallible steps succeeded. *)
Ltac inv_ok :=
  repeat match goal with
  | H : rbind _ _ = Ok _ |- _ => apply rbind_ok in H as (? & ? & H)
  | H : rmap_err _ _ = Ok _ |- _ => apply rmap_err_ok in H
  | H : (if _ then Err _ else _) = Ok _ |- _ => apply fail_if_ok in H as [? H]
  | H : Err _ = Ok _ |- _ => discriminate H
  | H : Ok _ = Err _ |- _ => discriminate H
  | H : Ok _ = Ok _ |- _ => injection H as H; subst
  end.

(** Case analysis on every test of the goal and the hypotheses. *)
Ltac go_cases := repeat (case_match; simplify_eq/=); try done.

(** Boolean reflection of the tests the code writes. *)
Ltac bool_to_prop :=
  repeat match goal with
  | H : andb _ _ = true |- _ => apply andb_true_iff in H as [? H]
  | H : orb _ _ = false |- _ => apply orb_false_iff in H as [? H]
  | H : negb _ = true |- _ => apply negb_true_iff in H
  | H : negb _ = false |- _ => apply negb_false_iff in H
  | H : bool_decide _ = true |- _ => apply bool_decide_eq_true in H
  | H : bool_decide _ = false |- _ => apply bool_decide_eq_false in H
  | H : (_ <=? _)%Z = true |- _ => apply Z.leb_le in H
  | H : (_ <=? _)%Z = false |- _ => apply Z.leb_gt in H
  | H : (_ <? _)%Z = true |- _ => apply Z.ltb_lt in H
  | H : (_ <? _)%Z = false |- _ => apply Z.ltb_ge in H
  | H : (_ =? _)%Z = true |- _ => apply Z.eqb_eq in H
  | H : (_ =? _)%Z = false |- _ => apply Z.eqb_neq in H
  end.

#[export] Hint Rewrite @rbind_assoc : go_simpl.
#[export] Hint Resolve Forall_nil Forall_cons : go.

(** ** Lists *)

(** [slices.Contains] and [slices.ContainsFunc] *)
Definition slices_Contains {A} `{EqDecision A} (l : list A) (x : A) : bool :=
  bool_decide (x ∈ l).

Lemma slices_Contains_true {A} `{EqDecision A} (l : list A) x :
  slices_Contains l x = true <-> x ∈ l.
Proof. apply bool_decide_eq_true. Qed.

Lemma slices_Contains_false {A} `{EqDecision A} (l : list A) x :
  slices_Contains l x = false <-> x ∉ l.
Proof. apply bool_decide_eq_false. Qed.

Lemma exists_cons {A} (P : A -> Prop) x l :
  (exists y, y ∈ x :: l /\ P y) <-> P x \/ exists y, y ∈ l /\ P y.
Proof.
  setoid_rewrite elem_of_cons. split; [intros (y & [->|?] & ?)|intros [?|(y & ? & ?)]]; eauto.
Qed.

Lemma forall_cons {A} (P : A -> Prop) x l :
  (forall y, y ∈ x :: l -> P y) <-> P x /\ forall y, y ∈ l -> P y.
Proof. setoid_rewrite elem_of_cons. split; [auto|]. intros [? Hl] y [->|?]; auto. Qed.

Lemma existsb_elem {A} (f : A -> bool) l :
  existsb f l = true <-> exists x, x ∈ l /\ f x = true.
Proof.
  rewrite existsb_exists. setoid_rewrite list_elem_of_In. done.
Qed.

Lemma existsb_elem_false {A} (f : A -> bool) l :
  existsb f l = false <-> forall x, x ∈ l -> f x = false.
Proof.
  split.
  - intros H x Hx. destruct (f x) eqn:E; [|done].
    assert (existsb f l = true) by (apply existsb_elem; eauto). congruence.
  - intros H. destruct (existsb f l) eqn:E; [|done].
    apply existsb_elem in E as (x & Hx & E). rewrite H in E; done.
Qed.

Lemma forallb_elem {A} (f : A -> bool) l :
  forallb f l = true <-> forall x, x ∈ l -> f x = true.
Proof.
  rewrite forallb_forall. setoid_rewrite list_elem_of_In. done.
Qed.

Lemma existsb_perm {A} (f : A -> bool) l l' : l ≡ₚ l' -> existsb f l = existsb f l'.
Proof.
  intros Hp. destruct (existsb f l') eqn:E.
  - apply existsb_elem in E as (x & Hx & Hf). apply existsb_elem. exists x. by rewrite Hp.
  - apply existsb_elem_false. intros x Hx. rewrite existsb_elem_false in E. apply E. by rewrite <- Hp.
Qed.

Lemma forallb_perm {A} (f : A -> bool) l l' : l ≡ₚ l' -> forallb f l = forallb f l'.
Proof.
  intros Hp. apply eq_bool_prop_intro. rewrite !Is_true_true, !forallb_elem. by setoid_rewrite Hp.
Qed.

Lemma filter_none {A} (P : A -> Prop) `{!forall x, Decision (P x)} (l : list A) :
  (forall x, x ∈ l -> ~ P x) -> filter P l = [].
Proof.
  induction l as [|x l IH]; intros Hl; [done|]. rewrite filter_cons_False by (apply Hl; by left).
  apply IH. intros y Hy. apply Hl. by right.
Qed.

Lemma filter_all {A} (P : A -> Prop) `{!forall x, Decision (P x)} (l : list A) :
  (forall x, x ∈ l -> P x) -> filter P l = l.
Proof.
  induction l as [|x l IH]; intros Hl; [done|]. rewrite filter_cons_True by (apply Hl; by left).
  f_equal. apply IH. intros y Hy. apply Hl. by right.
Qed.

Lemma filter_rev {A} (P : A -> Prop) `{!forall x, Decision (P x)} (l : list A) : filter P (rev l) = rev (filter P l).
Proof.
  induction l as [|x l IH]; [done|]. simpl. rewrite filter_app, IH, (filter_cons _ x l). case_decide; simpl.
  - by rewrite filter_cons_True.
  - by rewrite filter_cons_False, app_nil_r.
Qed.

Lemma StronglySorted_filter {A} (R : A -> A -> Prop) (P : A -> Prop) `{!forall x, Decision (P x)} (l : list A) :
  StronglySorted R l -> StronglySorted R (filter P l).
Proof.
  induction 1 as [|x l Hs IH Hl]; [constructor|]. rewrite filter_cons. case_decide; [|done].
  constructor; [done|]. rewrite Forall_forall in *. intros y [_ Hy]%list_elem_of_filter. by apply Hl.
Qed.

Lemma StronglySorted_rev {A} (R : A -> A -> Prop) l : StronglySorted R l -> StronglySorted (flip R) (rev l).
Proof.
  induction 1 as [|x l Hs IH Hl]; simpl; [constructor|].
  apply StronglySorted_app_2; [|done|repeat constructor]. intros y z Hy Hz.
  apply list_elem_of_In, in_rev, list_elem_of_In in Hy. apply list_elem_of_singleton in Hz as ->.
  rewrite Forall_forall in Hl. by apply Hl.
Qed.

#[export] Hint Rewrite @slices_Contains_true @slices_Contains_false : go_simpl.

(** ** Steps over a state

    [M S A] is a Go function that reads and writes the state [S] and may fail;
    what it did to the state stays done when it fails. *)

Definition M (S A : Type) : Type := S -> S * result A.

Definition mret {S A} (a : A) : M S A := fun s => (s, Ok a).
Definition mfail {S A} (e : error) : M S A := fun s => (s, Err e).
Definition mlift {S A} (r : result A) : M S A := fun s => (s, r).
Definition mget {S A} (f : S -> A) : M S A := fun s => (s, Ok (f s)).
Definition mmodify {S} (f : S -> S) : M S unit := fun s => (f s, Ok tt).
Definition mthen {S A B} (m : M S A) (k : A -> M S B) : M S B :=
  fun s => match m s with (s', Ok a) => k a s' | (s', Err e) => (s', Err e) end.
(** [if err != nil { ... return f(err) }]: on failure the state changes by
    [g] and the error by [f]. *)
Definition mcatch {S A} (g : S -> S) (f : error -> error) (m : M S A) : M S A :=
  fun s => match m s with (s', Ok a) => (s', Ok a) | (s', Err e) => (g s', Err (f e)) end.
(** The outcome of a call the code inspects itself. *)
Definition mtry {S A} (m : M S A) : M S (result A) :=
  fun s => let '(s', r) := m s in (s', Ok r).

Notation "'let*' x := m 'in' k" := (mthen m (fun x => k))
  (at level 10, x pattern, m at level 100, k at level 200) : go_scope.
Notation "'do*' m ; k" := (mthen m (fun _ => k))
  (at level 10, m at level 100, k at level 200) : go_scope.
Notation "'deny_if' c 'with' e ; k" := (if c then mfail e else k)
  (at level 10, c at level 100, e at level 100, k at level 200) : go_scope.

Lemma mthen_ok {S A B} (m : M S A) (k : A -> M S B) s s' b :
  mthen m k s = (s', Ok b) <-> exists s1 a, m s = (s1, Ok a) /\ k a s1 = (s', Ok b).
Proof. unfold mthen. destruct (m s) as [s1 [a|e]]; naive_solver. Qed.

Lemma mcatch_ok {S A} g f (m : M S A) s s' a :
  mcatch g f m s = (s', Ok a) <-> m s = (s', Ok a).
Proof. unfold mcatch. destruct (m s) as [s1 [a1|e]]; naive_solver. Qed.

Lemma mlift_ok {S A} (r : result A) (s s' : S) a :
  mlift r s = (s', Ok a) <-> s' = s /\ r = Ok a.
Proof. unfold mlift. naive_solver. Qed.

Lemma deny_if_ok {S A} (c : bool) e (k : M S A) s s' a :
  (if c then mfail e else k) s = (s', Ok a) <-> c = false /\ k s = (s', Ok a).
Proof. destruct c; unfold mfail; naive_solver. Qed.

(** What every run of a step does to the state, whatever its outcome. *)
Definition step_in {S A} (R : S -> S -> Prop) (m : M S A) : Prop :=
  forall s s' r, m s = (s', r) -> R s s'.

Section StepIn.
Context {S : Type} (R : S -> S -> Prop) `{!PreOrder R}.

Lemma step_in_mret {A} (a : A) : step_in R (mret a).
Proof. intros s s' r [= <- <-]. done. Qed.

Lemma step_in_mfail {A} e : step_in R (mfail (A:=A) e).
Proof. intros s s' r [= <- <-]. done. Qed.

Lemma step_in_mlift {A} (x : result A) : step_in R (mlift x).
Proof. intros s s' r [= <- <-]. done. Qed.

Lemma step_in_mget {A} (f : S -> A) : step_in R (mget f).
Proof. intros s s' r [= <- <-]. done. Qed.

Lemma step_in_mthen {A B} (m : M S A) (k : A -> M S B) :
  step_in R m -> (forall a, step_in R (k a)) -> step_in R (mthen m k).
Proof.
  intros Hm Hk s s' r. unfold mthen. destruct (m s) as [s1 [a|e]] eqn:E.
  - intros E'. transitivity s1; [by eapply Hm|by eapply Hk].
  - intros [= <- <-]. by eapply Hm.
Qed.

Lemma step_in_mtry {A} (m : M S A) : step_in R m -> step_in R (mtry m).
Proof.
  intros Hm s s' r. unfold mtry. destruct (m s) as [s1 r1] eqn:E. intros [= <- <-]. by eapply Hm.
Qed.

Lemma step_in_mcatch {A} g f (m : M S A) :
  step_in R m -> (forall s, R s (g s)) -> step_in R (mcatch g f m).
Proof.
  intros Hm Hg s s' r. unfold mcatch. destruct (m s) as [s1 [a|e]] eqn:E; intros [= <- <-].
  - by eapply Hm.
  - transitivity s1; [by eapply Hm|done].
Qed.

Lemma step_in_if {A} (c : bool) (m1 m2 : M S A) :
  step_in R m1 -> step_in R m2 -> step_in R (if c then m1 else m2).
Proof. by destruct c. Qed.
End StepIn.

Lemma step_in_mono {S A} (R R' : S -> S -> Prop) (m : M S A) :
  (forall s s', R s s' -> R' s s') -> step_in R m -> step_in R' m.
Proof. intros HR Hm s s' r E. by eapply HR, Hm. Qed.

(** Follow the text of a step; what is left are its calls. *)
Ltac step_in_one :=
  lazymatch goal with
  | |- PreOrder _ => apply _
  | |- step_in _ (mret _) => apply step_in_mret
  | |- step_in _ (mfail _) => apply step_in_mfail
  | |- step_in _ (mlift _) => apply step_in_mlift
  | |- step_in _ (mget _) => apply step_in_mget
  | |- step_in _ (mtry _) => apply step_in_mtry
  | |- step_in _ (mthen _ _) => apply step_in_mthen
  | |- step_in _ (mcatch _ _ _) => apply step_in_mcatch
  | |- step_in _ (if _ then _ else _) => apply step_in_if
  | |- step_in _ (match ?x with Ok _ => _ | Err _ => _ end) => destruct x
  | |- step_in _ (match ?x with Some _ => _ | None => _ end) => destruct x
  | |- step_in _ (let '(_, _) := ?x in _) => destruct x
  | |- forall _, _ => intros ?
  end.
Ltac step_in_auto := repeat step_in_one; try done; eauto with go.

(** Invert a hypothesis that says a chain of stateful steps succeeded. *)
Ltac inv_mok :=
  repeat match goal with
  | H : mthen _ _ _ = (_, Ok _) |- _ => apply mthen_ok in H as (? & ? & ? & H)
  | H : mcatch _ _ _ _ = (_, Ok _) |- _ => apply mcatch_ok in H
  | H : mlift _ _ = (_, Ok _) |- _ => apply mlift_ok in H as [-> H]
  | H : (if _ then mfail _ else _) _ = (_, Ok _) |- _ => apply deny_if_ok in H as [? H]
  | H : mget _ _ = (_, Ok _) |- _ => injection H; clear H; intros; subst
  | H : mret _ _ = (_, Ok _) |- _ => injection H; clear H; intros; subst
  | H : mmodify _ _ = (_, Ok _) |- _ => injection H; clear H; intros; subst
  | H : mfail _ _ = (_, Ok _) |- _ => discriminate H
  | u : unit |- _ => destruct u
  end.
