(* ===== verification/GoStrings.v ===== *)
(** * Go strings

    A Go string is a sequence of bytes, modelled by [string] (a list of 8-bit
    [ascii]).  This file holds the part of the packages [strings],
    [unicode/utf8] and [net] that the program uses, with the lemmas the
    components share.  The character tables of package [unicode] beyond ASCII
    are the class [UnicodeTables]. *)

From Stdlib Require Import Ascii.
From S2P Require Import Prelude.

(** ** Machine integers *)

(** [int] and [time.Duration], [uint64], [int32] *)
Definition int64 (z : Z) : Z := (z + 2 ^ 63) mod 2 ^ 64 - 2 ^ 63.
Definition uint64 (z : Z) : Z := z mod 2 ^ 64.
Definition int32 (z : Z) : Z := (z + 2 ^ 31) mod 2 ^ 32 - 2 ^ 31.

Lemma int32_small z : - 2 ^ 31 <= z < 2 ^ 31 -> int32 z = z.
Proof. intros Hz. unfold int32. rewrite Z.mod_small; lia. Qed.

(** Innermost first: no sum overflows. *)
Ltac int32_lia :=
  repeat match goal with
  | |- context [int32 ?x] =>
      lazymatch x with context [int32 _] => fail | _ => rewrite (int32_small x) by lia end
  end; lia.

Abbreviation byte := ascii.
Definition rune := Z.

Definition code (a : byte) : Z := Z.of_N (N_of_ascii a).
Definition chr (z : Z) : byte := ascii_of_N (Z.to_N z).
Definition len (s : string) : Z := Z.of_nat (String.length s).

Definition bytes_of (s : string) : list byte := String.list_ascii_of_string s.
Definition of_bytes (l : list byte) : string := String.string_of_list_ascii l.

Lemma of_bytes_of s : of_bytes (bytes_of s) = s.
Proof. apply String.string_of_list_ascii_of_string. Qed.

Lemma bytes_of_of l : bytes_of (of_bytes l) = l.
Proof. apply String.list_ascii_of_string_of_list_ascii. Qed.

Lemma str_app_cons a s t : String a s +:+ t = String a (s +:+ t).
Proof. done. Qed.

Lemma str_app_nil_l s : "" +:+ s = s.
Proof. done. Qed.

(** [+:+] does not reduce under [simpl]; these two equations drive it. *)
Ltac str_simpl := rewrite ?str_app_cons, ?str_app_nil_l in *; simplify_eq/=.

Lemma bytes_of_app s t : bytes_of (s +:+ t) = (bytes_of s ++ bytes_of t)%list.
Proof.
  unfold bytes_of. induction s as [|a s IH]; [done|].
  rewrite str_app_cons. simpl. by rewrite IH.
Qed.

Lemma of_bytes_app l k : of_bytes (l ++ k)%list = of_bytes l +:+ of_bytes k.
Proof. unfold of_bytes. induction l as [|a l IH]; simpl; [done|by rewrite IH, str_app_cons]. Qed.

Lemma bytes_of_inj s t : bytes_of s = bytes_of t -> s = t.
Proof. intros H. by rewrite <- (of_bytes_of s), <- (of_bytes_of t), H. Qed.

Lemma str_app_nil_r s : s +:+ "" = s.
Proof. induction s as [|a s IH]; [done|]. by rewrite !str_app_cons, IH. Qed.

Lemma str_app_assoc s t u : (s +:+ t) +:+ u = s +:+ (t +:+ u).
Proof. induction s as [|a s IH]; [done|]. by rewrite !str_app_cons, IH. Qed.

Lemma str_length_app s t :
  String.length (s +:+ t) = (String.length s + String.length t)%nat.
Proof. induction s as [|a s IH]; [done|]. rewrite str_app_cons. simpl. lia. Qed.

Lemma len_nonneg s : 0 <= len s.
Proof. unfold len. lia. Qed.

Lemma len_app s t : len (s +:+ t) = len s + len t.
Proof. unfold len. rewrite str_length_app. lia. Qed.

Lemma code_range a : 0 <= code a < 256.
Proof. unfold code. pose proof (N_ascii_bounded a). lia. Qed.

Lemma chr_code a : chr (code a) = a.
Proof. unfold chr, code. by rewrite N2Z.id, ascii_N_embedding. Qed.

Lemma code_chr z : 0 <= z < 256 -> code (chr z) = z.
Proof. intros H. unfold chr, code. rewrite N_ascii_embedding; lia. Qed.

Lemma code_inj a b : code a = code b -> a = b.
Proof. intros H. by rewrite <- (chr_code a), <- (chr_code b), H. Qed.

#[export] Hint Resolve len_nonneg code_range : go.
#[export] Hint Rewrite of_bytes_of bytes_of_of bytes_of_app of_bytes_app
  str_app_nil_r str_app_nil_l str_app_cons len_app : go_simpl.

(** ** Byte-level operations of package [strings] *)

(** [strings.CutPrefix]: the rest of [s] after [p]. *)
Fixpoint CutPrefix (s p : string) {struct p} : option string :=
  match p, s with
  | EmptyString, _ => Some s
  | String a p', String b s' => if Ascii.eqb a b then CutPrefix s' p' else None
  | String _ _, EmptyString => None
  end.

Definition HasPrefix (s p : string) : bool :=
  match CutPrefix s p with Some _ => true | None => false end.

Definition TrimPrefix (s p : string) : string := default s (CutPrefix s p).

Definition reverse_string (s : string) : string := of_bytes (reverse (bytes_of s)).

Definition CutSuffix (s p : string) : option string :=
  reverse_string <$> CutPrefix (reverse_string s) (reverse_string p).

Definition HasSuffix (s p : string) : bool :=
  match CutSuffix s p with Some _ => true | None => false end.

Definition TrimSuffix (s p : string) : string := default s (CutSuffix s p).

(** [strings.Contains] *)
Fixpoint Contains (s sub : string) : bool :=
  HasPrefix s sub || match s with EmptyString => false | String _ s' => Contains s' sub end.

(** [strings.ContainsRune] and [strings.IndexByte] for a one-byte character *)
Definition ContainsByte (s : string) (c : byte) : bool := existsb (Ascii.eqb c) (bytes_of s).

(** [strings.ContainsAny] for a set of one-byte characters *)
Definition ContainsAny (s chars : string) : bool :=
  existsb (fun c => ContainsByte chars c) (bytes_of s).

(** [strings.Count] of a one-byte substring *)
Definition Count (s : string) (c : byte) : Z :=
  Z.of_nat (length (filter (fun b => b = c) (bytes_of s))).

(** [strings.Cut] around the first occurrence of a one-byte separator *)
Fixpoint Cut (s : string) (c : byte) : option (string * string) :=
  match s with
  | EmptyString => None
  | String a s' =>
      if Ascii.eqb a c then Some ("", s')
      else match Cut s' c with
           | Some (b, t) => Some (String a b, t)
           | None => None
           end
  end.

(** [before, after, _ := strings.Cut(s, sep)] *)
Definition cut_pair (s : string) (c : byte) : string * string :=
  default (s, "") (Cut s c).

(** [strings.Split] around a one-byte separator *)
Fixpoint Split (s : string) (c : byte) : list string :=
  match s with
  | EmptyString => [""]
  | String a s' =>
      if Ascii.eqb a c then "" :: Split s' c
      else match Split s' c with
           | [] => [String a ""]
           | h :: t => String a h :: t
           end
  end.

(** [strings.Join] *)
Fixpoint Join (l : list string) (sep : string) : string :=
  match l with
  | [] => ""
  | [s] => s
  | s :: l' => s +:+ sep +:+ Join l' sep
  end.

(** [path.Clean]: the elements of a path without empty ones and dots, each
    [..] with the element before it removed *)
Definition clean_element (rooted : bool) (out : list string) (element : string) : list string :=
  if bool_decide (element = "") || bool_decide (element = ".") then out
  else if bool_decide (element = "..") then
    match out with
    | [] => if rooted then [] else [element]
    | last :: out' => if bool_decide (last = "..") then element :: out else out'
    end
  else element :: out.

Definition path_Clean (path : string) : string :=
  let rooted := match path with String a _ => Ascii.eqb a "/" | EmptyString => false end in
  let elements := Join (rev (foldl (clean_element rooted) [] (Split path "/"))) "/" in
  if rooted then "/" +:+ elements else if bool_decide (elements = "") then "." else elements.

(** [path.Join] *)
Definition path_Join (elem : list string) : string :=
  match filter (fun e => e <> "") elem with
  | [] => ""
  | l => path_Clean (Join l "/")
  end.

(** [strings.LastIndexByte], -1 when the byte does not occur *)
Fixpoint LastIndexByte (s : string) (c : byte) : Z :=
  match s with
  | EmptyString => -1
  | String a s' =>
      let i := LastIndexByte s' c in
      if 0 <=? i then i + 1 else if Ascii.eqb a c then 0 else -1
  end.

(** [s[n:]] and [s[:n]] for an index within the string *)
Fixpoint str_drop (n : nat) (s : string) : string :=
  match n, s with
  | O, _ => s
  | S n', String _ s' => str_drop n' s'
  | S _, EmptyString => ""
  end.

Fixpoint str_take (n : nat) (s : string) : string :=
  match n, s with
  | S n', String a s' => String a (str_take n' s')
  | _, _ => ""
  end.

(** [strings.Compare]: bytewise lexicographic order *)
Fixpoint str_compare (s t : string) : comparison :=
  match s, t with
  | EmptyString, EmptyString => Eq
  | EmptyString, String _ _ => Lt
  | String _ _, EmptyString => Gt
  | String a s', String b t' =>
      match Z.compare (code a) (code b) with
      | Eq => str_compare s' t'
      | c => c
      end
  end.

(** *** Specifications *)

Lemma CutPrefix_Some s p r : CutPrefix s p = Some r <-> s = p +:+ r.
Proof.
  revert s. induction p as [|a p IH]; intros s; simpl.
  - rewrite str_app_nil_l. split; congruence.
  - rewrite str_app_cons. destruct s as [|b s]; [naive_solver|].
    destruct (Ascii.eqb_spec a b) as [->|Hne]; [|naive_solver].
    rewrite IH. naive_solver.
Qed.

Lemma CutPrefix_app p r : CutPrefix (p +:+ r) p = Some r.
Proof. by apply CutPrefix_Some. Qed.

Lemma HasPrefix_true s p : HasPrefix s p = true <-> exists r, s = p +:+ r.
Proof.
  unfold HasPrefix. setoid_rewrite <- CutPrefix_Some.
  destruct (CutPrefix s p); naive_solver.
Qed.

Lemma reverse_string_app s t :
  reverse_string (s +:+ t) = reverse_string t +:+ reverse_string s.
Proof. unfold reverse_string. by rewrite bytes_of_app, reverse_app, of_bytes_app. Qed.

Lemma reverse_string_involutive s : reverse_string (reverse_string s) = s.
Proof. unfold reverse_string. by rewrite bytes_of_of, reverse_involutive, of_bytes_of. Qed.

Lemma CutSuffix_Some s p r : CutSuffix s p = Some r <-> s = r +:+ p.
Proof.
  unfold CutSuffix. rewrite fmap_Some. setoid_rewrite CutPrefix_Some. split.
  - intros (x & H & ->). apply (f_equal reverse_string) in H.
    by rewrite reverse_string_app, !reverse_string_involutive in H.
  - intros ->. exists (reverse_string r).
    by rewrite reverse_string_app, reverse_string_involutive.
Qed.

Lemma CutSuffix_app r p : CutSuffix (r +:+ p) p = Some r.
Proof. by apply CutSuffix_Some. Qed.

Lemma HasSuffix_true s p : HasSuffix s p = true <-> exists r, s = r +:+ p.
Proof.
  unfold HasSuffix. setoid_rewrite <- CutSuffix_Some.
  destruct (CutSuffix s p); naive_solver.
Qed.

Lemma TrimPrefix_app p r : TrimPrefix (p +:+ r) p = r.
Proof. unfold TrimPrefix. by rewrite CutPrefix_app. Qed.

Lemma TrimSuffix_app r p : TrimSuffix (r +:+ p) p = r.
Proof. unfold TrimSuffix. by rewrite CutSuffix_app. Qed.

Lemma ContainsByte_true s c : ContainsByte s c = true <-> c ∈ bytes_of s.
Proof.
  unfold ContainsByte. rewrite existsb_elem. split.
  - intros (x & Hx & E). apply Ascii.eqb_eq in E. by subst.
  - intros H. exists c. by rewrite Ascii.eqb_refl.
Qed.

Lemma ContainsAny_false s chars :
  ContainsAny s chars = false <-> forall c, c ∈ bytes_of s -> c ∉ bytes_of chars.
Proof.
  unfold ContainsAny. rewrite existsb_elem_false.
  setoid_rewrite <- not_true_iff_false. by setoid_rewrite ContainsByte_true.
Qed.

Lemma Cut_Some s c b t :
  Cut s c = Some (b, t) <-> s = b +:+ String c t /\ c ∉ bytes_of b.
Proof.
  revert b t. induction s as [|a s IH]; intros b t; simpl.
  - split; [done|]. intros [H _]. by destruct b.
  - destruct (Ascii.eqb_spec a c) as [->|Hne].
    + split.
      * intros [= <- <-]. split; [done|apply not_elem_of_nil].
      * intros [H Hn]. destruct b as [|a' b]; str_simpl; [done|].
        exfalso. apply Hn. apply list_elem_of_here.
    + destruct (Cut s c) as [[b' t']|].
      * split.
        -- intros [= <- <-]. destruct (proj1 (IH b' t') eq_refl) as [-> Hn].
           split; [done|]. change (c ∉ a :: bytes_of b'). set_solver.
        -- intros [H Hn]. destruct b as [|a' b]; str_simpl.
           change (c ∉ a' :: bytes_of b) in Hn.
           assert (Hb : c ∉ bytes_of b) by set_solver.
           by pose proof (proj2 (IH b t) (conj eq_refl Hb)) as [= -> ->].
      * split; [done|]. intros [H Hn].
        destruct b as [|a' b]; str_simpl.
        change (c ∉ a' :: bytes_of b) in Hn.
        assert (Hb : c ∉ bytes_of b) by set_solver.
        by pose proof (proj2 (IH b t) (conj eq_refl Hb)).
Qed.

Lemma Cut_None s c : Cut s c = None <-> c ∉ bytes_of s.
Proof.
  split.
  - intros H Hin. apply list_elem_of_split in Hin as (l1 & l2 & Hl).
    assert (exists l1 l2, bytes_of s = (l1 ++ c :: l2)%list /\ c ∉ l1)
      as (k1 & k2 & Hk & Hn).
    { apply list_elem_of_split_l. rewrite Hl. set_solver. }
    assert (Cut s c = Some (of_bytes k1, of_bytes k2)); [|congruence].
    apply Cut_Some. rewrite bytes_of_of. split; [|done].
    by rewrite <- (of_bytes_of s), Hk, of_bytes_app.
  - intros H. destruct (Cut s c) as [[b t]|] eqn:E; [|done].
    apply Cut_Some in E as [-> _]. rewrite bytes_of_app in H.
    exfalso. apply H. apply elem_of_app. right. apply list_elem_of_here.
Qed.

Lemma Count_app s t c : Count (s +:+ t) c = Count s c + Count t c.
Proof. unfold Count. rewrite bytes_of_app, filter_app, length_app. lia. Qed.

Lemma Count_cons a s c : Count (String a s) c = (if decide (a = c) then 1 else 0) + Count s c.
Proof.
  unfold Count. change (bytes_of (String a s)) with (a :: bytes_of s).
  rewrite filter_cons. case_decide; simpl; lia.
Qed.

Lemma Count_nonneg s c : 0 <= Count s c.
Proof. unfold Count. lia. Qed.

Lemma Count_0 s c : Count s c = 0 <-> c ∉ bytes_of s.
Proof.
  unfold Count. split.
  - intros H Hin.
    assert (c ∈ filter (fun b => b = c) (bytes_of s)) as H' by (by apply list_elem_of_filter).
    destruct (filter _ _); [by apply not_elem_of_nil in H'|simpl in H; lia].
  - intros H. destruct (filter (fun b => b = c) (bytes_of s)) as [|x l] eqn:E; [done|].
    assert (x ∈ filter (fun b => b = c) (bytes_of s)) as H' by (rewrite E; set_solver).
    apply list_elem_of_filter in H' as [-> ?]. done.
Qed.

(** A string with exactly one separator is cut into two parts without it. *)
Lemma Count_1_Cut s c :
  Count s c = 1 ->
  exists b t, Cut s c = Some (b, t) /\ s = b +:+ String c t /\
    c ∉ bytes_of b /\ c ∉ bytes_of t.
Proof.
  intros H. destruct (Cut s c) as [[b t]|] eqn:E.
  - apply Cut_Some in E as [-> Hn]. exists b, t. split; [done|]. split; [done|].
    split; [done|]. apply Count_0. apply Count_0 in Hn.
    rewrite Count_app, Count_cons, decide_True in H by done. lia.
  - apply Cut_None in E. apply Count_0 in E. lia.
Qed.

Lemma LastIndexByte_range s c : -1 <= LastIndexByte s c < Z.max 0 (len s).
Proof.
  unfold len. induction s as [|a s IH]; simpl; [lia|].
  case_match; bool_to_prop; [lia|]. destruct (Ascii.eqb a c); lia.
Qed.

Lemma str_drop_app n s t : n = String.length s -> str_drop n (s +:+ t) = t.
Proof. intros ->. induction s as [|a s IH]; [done|]. by rewrite str_app_cons. Qed.

(** [i := strings.LastIndex(s, c)] splits [s] around the last [c]. *)
Lemma LastIndexByte_split s c i :
  LastIndexByte s c = i -> 0 <= i ->
  exists b t, s = b +:+ String c t /\ c ∉ bytes_of t /\ i = len b /\
    str_drop (Z.to_nat (i + 1)) s = t.
Proof.
  revert i. induction s as [|a s IH]; intros i; simpl; [lia|].
  destruct (Z.leb_spec 0 (LastIndexByte s c)) as [Hle|Hlt].
  - intros <- _. destruct (IH _ eq_refl Hle) as (b & t & -> & Hn & Hi & Hd).
    exists (String a b), t. split; [done|]. split; [done|].
    split; [unfold len in *; simpl; lia|].
    replace (Z.to_nat (LastIndexByte (b +:+ String c t) c + 1 + 1))
      with (S (Z.to_nat (LastIndexByte (b +:+ String c t) c + 1))) by lia.
    done.
  - destruct (Ascii.eqb_spec a c) as [->|Hne]; [|lia].
    intros <- _. exists "", s. split; [done|]. split; [|done].
    intros Hin. clear IH. apply Count_0 in Hin; [done|]. clear Hin.
    induction s as [|b s IHs]; [done|]. simpl in Hlt.
    destruct (Z.leb_spec 0 (LastIndexByte s c)); [lia|].
    destruct (Ascii.eqb_spec b c) as [->|Hb]; [lia|].
    rewrite Count_cons, decide_False by done. by rewrite IHs.
Qed.

(** *** Splitting *)

Lemma Split_nonnil s c : Split s c <> [].
Proof. destruct s as [|a s]; simpl; [done|]. repeat case_match; done. Qed.

Lemma Split_Join s c : Join (Split s c) (String c "") = s.
Proof.
  induction s as [|a s IH]; [done|]. simpl. pose proof (Split_nonnil s c).
  destruct (Ascii.eqb_spec a c) as [->|]; destruct (Split s c) as [|h t] eqn:E; try done.
  - change (Join ("" :: h :: t) (String c "")) with ("" +:+ String c "" +:+ Join (h :: t) (String c "")).
    rewrite IH. done.
  - destruct t; simpl in *; rewrite ?str_app_cons in *; congruence.
Qed.

Lemma Split_no_sep s c p : p ∈ Split s c -> c ∉ bytes_of p.
Proof.
  revert p. induction s as [|a s IH]; intros p; simpl.
  - intros ->%list_elem_of_singleton. apply not_elem_of_nil.
  - destruct (Ascii.eqb_spec a c) as [->|Hne].
    + intros [->|Hp]%elem_of_cons; [apply not_elem_of_nil|auto].
    + destruct (Split s c) as [|h t] eqn:E.
      * intros ->%list_elem_of_singleton. change (c ∉ [a]). set_solver.
      * intros [->|Hp]%elem_of_cons; [|apply IH; set_solver].
        change (c ∉ a :: bytes_of h). specialize (IH h ltac:(set_solver)). set_solver.
Qed.

(** Every byte of a string is the separator or belongs to a part. *)
Lemma Split_elem s c a : a ∈ bytes_of s -> a = c \/ exists p, p ∈ Split s c /\ a ∈ bytes_of p.
Proof.
  induction s as [|b s IH]; simpl; [by intros ?%elem_of_nil|].
  intros [->|Hin]%elem_of_cons.
  - destruct (Ascii.eqb_spec b c) as [->|Hne]; [auto|]. right.
    destruct (Split s c) as [|h t].
    + exists (String b ""). split; [set_solver|]. apply list_elem_of_here.
    + exists (String b h). split; [set_solver|]. apply list_elem_of_here.
  - destruct (IH Hin) as [->|(p & Hp & Ha)]; [auto|]. right.
    destruct (Ascii.eqb_spec b c) as [->|Hne]; [exists p; set_solver|].
    destruct (Split s c) as [|h t]; [set_solver|].
    apply elem_of_cons in Hp as [->|Hp].
    + exists (String b h). split; [set_solver|]. change (a ∈ b :: bytes_of h). set_solver.
    + exists p. set_solver.
Qed.

Lemma Split_elem_inv s c p a : p ∈ Split s c -> a ∈ bytes_of p -> a ∈ bytes_of s.
Proof.
  revert p. induction s as [|b s IH]; intros p; simpl.
  - intros ->%list_elem_of_singleton. done.
  - destruct (Ascii.eqb_spec b c) as [->|Hne].
    + intros [->|Hp]%elem_of_cons Ha; [set_solver|]. set_solver.
    + destruct (Split s c) as [|h t].
      * intros ->%list_elem_of_singleton. change (a ∈ [b] -> a ∈ b :: bytes_of s). set_solver.
      * intros [->|Hp]%elem_of_cons Ha.
        -- change (a ∈ b :: bytes_of h) in Ha. specialize (IH h ltac:(set_solver)). set_solver.
        -- specialize (IH p ltac:(set_solver)). set_solver.
Qed.

Lemma HasPrefix_one s c : HasPrefix s (String c "") = match s with String a _ => Ascii.eqb c a | _ => false end.
Proof. destruct s as [|a s]; [done|]. unfold HasPrefix. simpl. by destruct (Ascii.eqb c a). Qed.

Lemma HasSuffix_one a s c :
  HasSuffix (String a s) (String c "") =
  if bool_decide (s = "") then Ascii.eqb a c else HasSuffix s (String c "").
Proof.
  apply Bool.eq_iff_eq_true. rewrite HasSuffix_true. case_bool_decide as Hs.
  - subst. rewrite Ascii.eqb_eq. split; [|intros ->; by exists ""].
    intros [[|b r] E]; str_simpl; [done|]. by destruct r.
  - rewrite HasSuffix_true. split.
    + intros [[|b r] E]; str_simpl; try done; eauto.
    + intros [r ->]. by exists (String a r).
Qed.

(** A scan that refuses an empty part; [after_sep] says that a part begins. *)
Fixpoint parts_scan (after_sep : bool) (s : string) (c : byte) : bool :=
  match s with
  | EmptyString => negb after_sep
  | String a s' => if Ascii.eqb a c then negb after_sep && parts_scan true s' c
                   else parts_scan false s' c
  end.

Lemma parts_scan_Split s c :
  (parts_scan true s c = true <-> forall p, p ∈ Split s c -> p <> "") /\
  (parts_scan false s c = true <-> forall p, p ∈ tail (Split s c) -> p <> "").
Proof.
  induction s as [|a s [IHt IHf]]; simpl.
  - split; [|set_solver]. split; [done|]. intros H. exfalso. by apply (H "" ltac:(set_solver)).
  - pose proof (Split_nonnil s c) as Hn. destruct (Ascii.eqb_spec a c) as [->|Hne]; simpl.
    + split; [|done]. split; [done|]. intros H. exfalso. by apply (H "" ltac:(set_solver)).
    + destruct (Split s c) as [|h t]; [done|]. simpl in *. split; [|done].
      rewrite IHf. split; intros H p Hp; [|apply H; set_solver].
      apply elem_of_cons in Hp as [->|Hp]; [done|auto].
Qed.

Lemma parts_scan_dots s c :
  parts_scan false s c =
  negb (HasSuffix s (String c "") || Contains s (String c (String c ""))).
Proof.
  induction s as [|a s IH]; [done|]. cbn [parts_scan].
  rewrite HasSuffix_one. cbn [Contains].
  assert (HasPrefix (String a s) (String c (String c "")) =
    Ascii.eqb a c && HasPrefix s (String c "")) as ->.
  { unfold HasPrefix. simpl. rewrite (Ascii.eqb_sym c a).
    by destruct (Ascii.eqb a c); [destruct s as [|b s]|]; simpl. }
  rewrite HasPrefix_one, IH. destruct (Ascii.eqb_spec a c) as [->|Hne].
  - simpl. destruct s as [|b s]; [done|]. simpl parts_scan. rewrite (Ascii.eqb_sym c b).
    rewrite bool_decide_false by done. destruct (Ascii.eqb_spec b c) as [->|Hb]; simpl.
    + by rewrite orb_true_r.
    + cbn [parts_scan] in IH. destruct (Ascii.eqb_spec b c); [done|]. exact IH.
  - simpl. case_bool_decide as Hs; [|done]. by subst.
Qed.

(** No leading, trailing or doubled separator means no empty part. *)
Lemma Split_no_empty s c :
  s <> "" ->
  HasPrefix s (String c "") || HasSuffix s (String c "") || Contains s (String c (String c "")) = false <->
  (forall p, p ∈ Split s c -> p <> "").
Proof.
  intros Hne. rewrite <- (proj1 (parts_scan_Split s c)).
  rewrite <- orb_assoc. rewrite orb_false_iff.
  assert (HasSuffix s (String c "") || Contains s (String c (String c "")) = negb (parts_scan false s c)) as ->
    by (by rewrite parts_scan_dots, negb_involutive).
  destruct s as [|a s]; [done|]. rewrite HasPrefix_one, negb_false_iff. simpl.
  rewrite (Ascii.eqb_sym c a). destruct (Ascii.eqb a c); simpl; naive_solver.
Qed.

(** ** The order of strings *)

Lemma str_compare_refl s : str_compare s s = Eq.
Proof. induction s as [|a s IH]; [done|]. simpl. by rewrite Z.compare_refl. Qed.

Lemma str_compare_eq s t : str_compare s t = Eq <-> s = t.
Proof.
  split; [|intros ->; apply str_compare_refl].
  revert t. induction s as [|a s IH]; intros [|b t]; simpl; try done.
  destruct (Z.compare_spec (code a) (code b)) as [E|E|E]; try done.
  intros Ht. apply code_inj in E as ->. f_equal. by apply IH.
Qed.

Lemma str_compare_opp s t : str_compare t s = CompOpp (str_compare s t).
Proof.
  revert t. induction s as [|a s IH]; intros [|b t]; simpl; try done.
  rewrite (Z.compare_antisym (code a) (code b)). destruct (code a ?= code b); simpl; auto.
Qed.

Lemma str_compare_trans s t u :
  str_compare s t = Lt -> str_compare t u = Lt -> str_compare s u = Lt.
Proof.
  revert t u. induction s as [|a s IH]; intros [|b t] [|c u]; simpl; try done.
  destruct (Z.compare_spec (code a) (code b)) as [E1|E1|E1], (Z.compare_spec (code b) (code c)) as [E2|E2|E2];
    try done; intros H1 H2; destruct (Z.compare_spec (code a) (code c)); try lia; try done; eauto.
Qed.

Definition at_most (s t : string) : Prop := str_compare s t <> Gt.
Definition before (s t : string) : Prop := str_compare s t = Lt.

#[export] Instance at_most_dec s t : Decision (at_most s t).
Proof. unfold at_most. apply _. Defined.
#[export] Instance before_dec s t : Decision (before s t).
Proof. unfold before. apply _. Defined.

Lemma before_irrefl s : ~ before s s.
Proof. unfold before. by rewrite str_compare_refl. Qed.

#[export] Instance before_trans : Transitive before.
Proof. intros s t u. apply str_compare_trans. Qed.

Lemma before_total s t : before s t \/ s = t \/ before t s.
Proof.
  unfold before. rewrite (str_compare_opp s t). destruct (str_compare s t) eqn:E; simpl; auto.
  right. left. by apply str_compare_eq.
Qed.

Lemma at_most_not_before s t : at_most s t <-> ~ before t s.
Proof. unfold at_most, before. rewrite (str_compare_opp s t). destruct (str_compare s t); simpl; naive_solver. Qed.

Lemma at_most_cases s t : at_most s t <-> s = t \/ before s t.
Proof.
  unfold at_most, before. rewrite <- str_compare_eq. destruct (str_compare s t); naive_solver.
Qed.

#[export] Instance at_most_total : Total at_most.
Proof.
  intros s t. unfold at_most. rewrite (str_compare_opp t s). destruct (str_compare t s); simpl; [left|right|left]; done.
Qed.

#[export] Instance at_most_trans : Transitive at_most.
Proof.
  intros s t u. rewrite !at_most_cases. intros [->|Hs] [->|Ht]; auto. right. unfold before in *. by eapply str_compare_trans.
Qed.

#[export] Instance at_most_antisymm : AntiSymm (=) at_most.
Proof.
  intros s t. rewrite !at_most_cases. intros [->|Hs] [Ht|Ht]; auto. exfalso. unfold before in *.
  rewrite str_compare_opp, Hs in Ht. done.
Qed.

(** ** What Go leaves open: the order of a map and of equal elements

    The iteration order of a map is not specified, and [sort.Slice] keeps no
    order among equal elements.  Both are classes with the laws the language
    and its library document; what is proved holds for every such order.
    The instances at the end are one order each. *)

(** [for k, v := range m] *)
Class MapOrder (V : Type) := range : gmap string V -> list (string * V).
Class MapOrderLaws (V : Type) `{MapOrder V} : Prop :=
  range_permutation m : range m ≡ₚ map_to_list m.

(** [sort.Slice(l, func(i, j int) bool { return key(l[i]) < key(l[j]) })] *)
Class SortSlice (A : Type) := sort_by : (A -> Z) -> list A -> list A.
Class SortSliceLaws (A : Type) `{SortSlice A} : Prop := {
  sort_by_permutation key l : sort_by key l ≡ₚ l;
  sort_by_sorted key l : StronglySorted (fun a b => key a <= key b) (sort_by key l);
}.

(** [slices.SortFunc] with [strings.Compare] of the names, which keeps no order
    among equal names either *)
Class SortByName (A : Type) := sort_by_name : (A -> string) -> list A -> list A.
Class SortByNameLaws (A : Type) `{SortByName A} : Prop :=
  sort_by_name_permutation name l : sort_by_name name l ≡ₚ l.

Section Map.
Context {V : Type} `{MapOrderLaws V}.

Lemma elem_of_range m k v : (k, v) ∈ range m <-> m !! k = Some v.
Proof. by rewrite range_permutation, elem_of_map_to_list. Qed.

Lemma range_nil m : range m = [] <-> m = ∅.
Proof.
  split; intros E.
  - apply map_to_list_empty_iff, Permutation_nil. by rewrite <- range_permutation, E.
  - subst. apply Permutation_nil. by rewrite range_permutation, map_to_list_empty.
Qed.
End Map.

(** ** Insertion sort, which [sort.Slice] runs on short slices *)

Section Insertion.
Context {A : Type} (key : A -> Z).

Fixpoint insert_by (x : A) (l : list A) : list A :=
  match l with
  | [] => [x]
  | y :: l' => if key x <? key y then x :: y :: l' else y :: insert_by x l'
  end.

Definition insertion_sort (l : list A) : list A := foldl (fun acc x => insert_by x acc) [] l.

Lemma insert_by_permutation x l : insert_by x l ≡ₚ x :: l.
Proof.
  induction l as [|y l IH]; simpl; [done|]. destruct (key x <? key y); [done|].
  by rewrite IH, Permutation_swap.
Qed.

Lemma insert_by_sorted x l :
  StronglySorted (fun a b => key a <= key b) l ->
  StronglySorted (fun a b => key a <= key b) (insert_by x l).
Proof.
  induction 1 as [|y l Hl IH Hy]; simpl; [by repeat constructor|].
  destruct (key x <? key y) eqn:E; bool_to_prop.
  - constructor; [by constructor|]. constructor; [lia|].
    eapply Forall_impl; [exact Hy|]. simpl. lia.
  - constructor; [done|]. rewrite (insert_by_permutation x l). by constructor.
Qed.

Lemma insertion_sort_acc acc l :
  StronglySorted (fun a b => key a <= key b) acc ->
  StronglySorted (fun a b => key a <= key b) (foldl (fun acc x => insert_by x acc) acc l) /\
  foldl (fun acc x => insert_by x acc) acc l ≡ₚ acc ++ l.
Proof.
  revert acc. induction l as [|x l IH]; intros acc Ha; simpl; [by rewrite app_nil_r|].
  destruct (IH (insert_by x acc)) as [? E]; [by apply insert_by_sorted|]. split; [done|].
  rewrite E, insert_by_permutation. apply Permutation_middle.
Qed.
End Insertion.

(** ** The instances *)

#[export] Instance insertion_order A : SortSlice A | 100 := insertion_sort.
#[export] Instance insertion_order_laws A : SortSliceLaws A.
Proof.
  split; intros key l; apply (insertion_sort_acc key [] l); constructor.
Qed.

#[export] Instance list_order V : MapOrder V | 100 := map_to_list.
#[export] Instance list_order_laws V : MapOrderLaws V.
Proof. intros m. reflexivity. Qed.

#[export] Instance merge_order A : SortByName A | 100 :=
  fun name l => merge_sort (fun a b => at_most (name a) (name b)) l.
#[export] Instance merge_order_laws A : SortByNameLaws A.
Proof. intros name l. apply merge_sort_Permutation. Qed.
