(* ===== verification/Utf8.v ===== *)
(** * UTF-8, letter case and host-port strings

    [range s] of the language, [utf8.ValidString], [utf8.AppendRune], the
    rune-wise functions [strings.ToLower], [strings.TrimSpace],
    [strings.EqualFold], and [net.SplitHostPort].  The case tables of package
    [unicode] above ASCII are the class [UnicodeTables]: data the Go
    distribution ships, which the theorems quantify over. *)

From S2P Require Import Prelude GoStrings.
From Stdlib Require Import Ascii.

Definition RuneError : rune := 0xFFFD.
Definition MaxRune : rune := 0x10FFFF.
Definition RuneSelf : rune := 0x80.

Definition between (lo hi z : Z) : bool := (lo <=? z) && (z <=? hi).
Definition is_cont (b : byte) : bool := between 0x80 0xBF (code b).

(** The second byte of a three- or four-byte sequence has a range of its own
    for the leads that would otherwise start an overlong form, a surrogate or
    a rune beyond [MaxRune]. *)
Definition second3_ok (c : Z) (b : byte) : bool :=
  if c =? 0xE0 then between 0xA0 0xBF (code b)
  else if c =? 0xED then between 0x80 0x9F (code b)
  else between 0xE1 0xEF c && is_cont b.

Definition second4_ok (c : Z) (b : byte) : bool :=
  if c =? 0xF0 then between 0x90 0xBF (code b)
  else if c =? 0xF4 then between 0x80 0x8F (code b)
  else between 0xF1 0xF3 c && is_cont b.

Definition rune2 (a b : byte) : rune := (code a mod 32) * 64 + code b mod 64.
Definition rune3 (a b c : byte) : rune :=
  ((code a mod 16) * 64 + code b mod 64) * 64 + code c mod 64.
Definition rune4 (a b c d : byte) : rune :=
  (((code a mod 8) * 64 + code b mod 64) * 64 + code c mod 64) * 64 + code d mod 64.

(** [for _, r := range s]: each rune with the bytes it was decoded from.  An
    invalid byte yields [RuneError] and is one byte wide. *)
Fixpoint range_string (s : string) : list (rune * string) :=
  match s with
  | EmptyString => []
  | String a s1 =>
      let bad (_ : unit) := (RuneError, String a "") :: range_string s1 in
      if code a <? RuneSelf then (code a, String a "") :: range_string s1
      else match s1 with
      | EmptyString => bad tt
      | String b s2 =>
          if between 0xC2 0xDF (code a) && is_cont b
          then (rune2 a b, String a (String b "")) :: range_string s2
          else match s2 with
          | EmptyString => bad tt
          | String c s3 =>
              if second3_ok (code a) b && is_cont c
              then (rune3 a b c, String a (String b (String c ""))) :: range_string s3
              else match s3 with
              | EmptyString => bad tt
              | String d s4 =>
                  if second4_ok (code a) b && is_cont c && is_cont d
                  then (rune4 a b c d, String a (String b (String c (String d ""))))
                         :: range_string s4
                  else bad tt
              end
          end
      end
  end.

Definition runes (s : string) : list rune := (range_string s).*1.

(** A decoding step is an error when it produced [RuneError] from one byte. *)
Definition chunk_valid (p : rune * string) : bool :=
  negb ((p.1 =? RuneError) && (len p.2 =? 1)).

(** [utf8.ValidString] *)
Definition ValidString (s : string) : bool := forallb chunk_valid (range_string s).

(** [utf8.AppendRune] *)
Definition encode_rune (r : rune) : string :=
  if between 0 0x7F r then String (chr r) ""
  else if between 0x80 0x7FF r then
    String (chr (0xC0 + r / 64)) (String (chr (0x80 + r mod 64)) "")
  else if between 0x800 0xD7FF r || between 0xE000 0xFFFF r then
    String (chr (0xE0 + r / 4096)) (String (chr (0x80 + (r / 64) mod 64))
      (String (chr (0x80 + r mod 64)) ""))
  else if between 0x10000 MaxRune r then
    String (chr (0xF0 + r / 262144)) (String (chr (0x80 + (r / 4096) mod 64))
      (String (chr (0x80 + (r / 64) mod 64)) (String (chr (0x80 + r mod 64)) "")))
  else String (chr 0xEF) (String (chr 0xBF) (String (chr 0xBD) "")).

Fixpoint concat_strings (l : list string) : string :=
  match l with [] => "" | s :: l' => s +:+ concat_strings l' end.

(** ** Letter case and white space *)

Class UnicodeTables := {
  u_ToLower : rune -> rune;
  u_SimpleFold : rune -> rune;
  u_IsUpper : rune -> bool;
}.

Section Case.
Context `{UnicodeTables}.

(** [unicode.ToLower] *)
Definition rune_ToLower (r : rune) : rune :=
  if r <? RuneSelf then (if between 65 90 r then r + 32 else r) else u_ToLower r.

(** [unicode.IsUpper] *)
Definition rune_IsUpper (r : rune) : bool :=
  if r <? RuneSelf then between 65 90 r else u_IsUpper r.

(** [strings.ToLower]; on an ASCII string the two branches agree *)
Definition ToLower (s : string) : string :=
  concat_strings ((fun r => encode_rune (rune_ToLower r)) <$> runes s).

(** The inner loop of [strings.EqualFold]:
    [for r != sr && r < tr { r = unicode.SimpleFold(r) }].  The orbit of a
    rune under [SimpleFold] has at most four members, so four rounds reach
    [sr] again. *)
Fixpoint fold_search (fuel : nat) (r sr tr : rune) : rune :=
  match fuel with
  | O => r
  | S n => if negb (r =? sr) && (r <? tr) then fold_search n (u_SimpleFold r) sr tr else r
  end.

Definition rune_EqualFold (sr tr : rune) : bool :=
  if tr =? sr then true
  else
    let lo := Z.min sr tr in
    let hi := Z.max sr tr in
    if hi <? RuneSelf then between 65 90 lo && (hi =? lo + 32)
    else fold_search 4 (u_SimpleFold lo) lo hi =? hi.

Fixpoint EqualFold_runes (l k : list rune) : bool :=
  match l, k with
  | [], [] => true
  | a :: l', b :: k' => rune_EqualFold a b && EqualFold_runes l' k'
  | _, _ => false
  end.

(** [strings.EqualFold] *)
Definition EqualFold (s t : string) : bool := EqualFold_runes (runes s) (runes t).
End Case.

(** [unicode.IsSpace] *)
Definition rune_IsSpace (r : rune) : bool :=
  between 9 13 r || (r =? 32) || (r =? 0x85) || (r =? 0xA0) || (r =? 0x1680)
  || between 0x2000 0x200A r || (r =? 0x2028) || (r =? 0x2029) || (r =? 0x202F)
  || (r =? 0x205F) || (r =? 0x3000).

Fixpoint drop_spaces (l : list (rune * string)) : list (rune * string) :=
  match l with
  | p :: l' => if rune_IsSpace p.1 then drop_spaces l' else l
  | [] => []
  end.

(** [strings.TrimSpace] *)
Definition TrimSpace (s : string) : string :=
  concat_strings ((reverse (drop_spaces (reverse (drop_spaces (range_string s))))).*2).

(** ** [net.SplitHostPort] *)

Definition IndexByte (s : string) (c : byte) : Z :=
  match Cut s c with Some (b, _) => len b | None => -1 end.

Definition addrErr (addr why : string) : error := Error KOther "address %s: %s" [addr; why] [].
Definition missingPort := "missing port in address".
Definition tooManyColons := "too many colons in address".

Definition SplitHostPort (hostport : string) : result (string * string) :=
  let i := LastIndexByte hostport ":"%char in
  if i <? 0 then Err (addrErr hostport missingPort)
  else
    let finish (host : string) (j k : Z) :=
      if 0 <=? IndexByte (str_drop (Z.to_nat j) hostport) "["%char
      then Err (addrErr hostport "unexpected '[' in address")
      else if 0 <=? IndexByte (str_drop (Z.to_nat k) hostport) "]"%char
      then Err (addrErr hostport "unexpected ']' in address")
      else Ok (host, str_drop (Z.to_nat (i + 1)) hostport) in
    if HasPrefix hostport "[" then
      let en := IndexByte hostport "]"%char in
      if en <? 0 then Err (addrErr hostport "missing ']' in address")
      else if en + 1 =? len hostport then Err (addrErr hostport missingPort)
      else if negb (en + 1 =? i) then
        if HasPrefix (str_drop (Z.to_nat (en + 1)) hostport) ":"
        then Err (addrErr hostport tooManyColons)
        else Err (addrErr hostport missingPort)
      else finish (str_take (Z.to_nat (en - 1)) (str_drop 1 hostport)) 1 (en + 1)
    else
      let host := str_take (Z.to_nat i) hostport in
      if 0 <=? IndexByte host ":"%char then Err (addrErr hostport tooManyColons)
      else finish host 0 0.

(** ** Decoding lemmas *)

(** The shapes a decoding step can have. *)
Inductive chunk_shape : rune -> string -> Prop :=
| shape_ascii a : code a < RuneSelf -> chunk_shape (code a) (String a "")
| shape_bad a : RuneSelf <= code a -> chunk_shape RuneError (String a "")
| shape_two a b : between 0xC2 0xDF (code a) = true -> is_cont b = true ->
    chunk_shape (rune2 a b) (String a (String b ""))
| shape_three a b c : second3_ok (code a) b = true -> is_cont c = true ->
    chunk_shape (rune3 a b c) (String a (String b (String c "")))
| shape_four a b c d : second4_ok (code a) b = true -> is_cont c = true -> is_cont d = true ->
    chunk_shape (rune4 a b c d) (String a (String b (String c (String d "")))).

Lemma range_string_step a s :
  exists r ch rest, String a s = ch +:+ rest /\
    range_string (String a s) = (r, ch) :: range_string rest /\ chunk_shape r ch.
Proof.
  assert (Hbad : RuneSelf <= code a -> exists r ch rest, String a s = ch +:+ rest /\
    (RuneError, String a "") :: range_string s = (r, ch) :: range_string rest /\
    chunk_shape r ch).
  { intros H. exists RuneError, (String a ""), s. by repeat constructor. }
  simpl. destruct (Z.ltb_spec (code a) RuneSelf) as [Ha|Ha].
  { exists (code a), (String a ""), s. by repeat constructor. }
  specialize (Hbad Ha).
  destruct s as [|b s]; [done|]. case_match eqn:E2.
  { apply andb_true_iff in E2 as [??].
    exists (rune2 a b), (String a (String b "")), s. by repeat constructor. }
  destruct s as [|c s]; [done|]. case_match eqn:E3.
  { apply andb_true_iff in E3 as [??].
    exists (rune3 a b c), (String a (String b (String c ""))), s. by repeat constructor. }
  destruct s as [|d s]; [done|]. case_match eqn:E4; [|done].
  apply andb_true_iff in E4 as [[??]%andb_true_iff ?].
  exists (rune4 a b c d), (String a (String b (String c (String d "")))), s.
  by repeat constructor.
Qed.

(** Induction over the decoding steps of a string. *)
Lemma range_string_ind (P : string -> Prop) :
  P "" ->
  (forall r ch rest, range_string (ch +:+ rest) = (r, ch) :: range_string rest ->
     chunk_shape r ch -> P rest -> P (ch +:+ rest)) ->
  forall s, P s.
Proof.
  intros H0 Hs s. induction s as [s IH] using (well_founded_ind (Wf_nat.well_founded_ltof _ String.length)).
  destruct s as [|a s]; [done|].
  destruct (range_string_step a s) as (r & ch & rest & E & Hr & Hsh).
  rewrite E in *. eapply Hs; [done|done|]. apply IH.
  unfold Wf_nat.ltof. rewrite str_length_app. inversion Hsh; simpl; lia.
Qed.

Lemma range_string_concat s : concat_strings (range_string s).*2 = s.
Proof.
  induction s as [|r ch rest E _ IH] using range_string_ind; [done|].
  rewrite E, fmap_cons. simpl. by rewrite IH.
Qed.

Lemma chunk_shape_high r ch :
  chunk_shape r ch ->
  (exists a, ch = String a "" /\ r = code a /\ code a < RuneSelf) \/
  (RuneSelf <= r /\ exists a ch', ch = String a ch' /\ RuneSelf <= code a).
Proof.
  unfold RuneSelf.
  destruct 1 as [a|a|a b Ha Hb|a b c Hs Hc|a b c d Hs Hc Hd]; [left; eauto|right..].
  - split; [unfold RuneError; lia|eauto].
  - unfold is_cont, between, rune2 in *. bool_to_prop. split; [|eauto with lia].
    pose proof (code_range b). Z.div_mod_to_equations. lia.
  - assert (0xE0 <= code a <= 0xEF /\ (code a = 0xE0 -> 0xA0 <= code b <= 0xBF)).
    { unfold second3_ok, between in Hs. case_match; [bool_to_prop; lia|].
      case_match; bool_to_prop; lia. }
    split; [|eauto with lia]. unfold rune3. pose proof (code_range b).
    Z.div_mod_to_equations. lia.
  - assert (0xF0 <= code a <= 0xF4 /\ (code a = 0xF0 -> 0x90 <= code b <= 0xBF)).
    { unfold second4_ok, between in Hs. case_match; [bool_to_prop; lia|].
      case_match; bool_to_prop; lia. }
    split; [|eauto with lia]. unfold rune4. pose proof (code_range b).
    Z.div_mod_to_equations. lia.
Qed.

(** A test that only ASCII runes pass can be run on the bytes. *)
Lemma forallb_runes_bytes (f : rune -> bool) s :
  (forall r, f r = true -> r < RuneSelf) ->
  forallb f (runes s) = forallb (fun a => f (code a)) (bytes_of s).
Proof.
  intros Hf. assert (Hhi : forall r, RuneSelf <= r -> f r = false).
  { intros r Hr. destruct (f r) eqn:E; [|done]. apply Hf in E. lia. }
  unfold runes. induction s as [|r ch rest E Hsh IH] using range_string_ind; [done|].
  rewrite E, fmap_cons, bytes_of_app, forallb_app. simpl.
  destruct (chunk_shape_high _ _ Hsh) as [(a & -> & -> & Ha)|(Hr & a & ch' & -> & Ha)].
  - simpl. by rewrite IH, andb_true_r.
  - simpl. by rewrite !Hhi.
Qed.

Lemma runes_ascii s :
  forallb (fun a => code a <? RuneSelf) (bytes_of s) = true ->
  range_string s = (fun a => (code a, String a "")) <$> bytes_of s.
Proof.
  induction s as [|r ch rest E Hsh IH] using range_string_ind; [done|].
  rewrite E, bytes_of_app, forallb_app. intros H. bool_to_prop.
  destruct (chunk_shape_high _ _ Hsh) as [(a & -> & -> & Ha)|(Hr & a & ch' & -> & Ha)].
  - simpl. by rewrite IH.
  - exfalso. simpl in *. bool_to_prop. lia.
Qed.

(** A valid decoding step is undone by [utf8.AppendRune]. *)
Lemma encode_rune_chunk r ch :
  chunk_shape r ch -> chunk_valid (r, ch) = true -> encode_rune r = ch.
Proof.
  unfold chunk_valid, encode_rune, len; simpl.
  destruct 1 as [a Ha|a Ha|a b Ha Hb|a b c Hs Hc|a b c d Hs Hc Hd]; simpl; intros Hv.
  - unfold between, RuneSelf in *. pose proof (code_range a).
    rewrite (proj2 (Z.leb_le 0 (code a))), (proj2 (Z.leb_le (code a) 127)) by lia.
    simpl. by rewrite chr_code.
  - done.
  - unfold is_cont, between, rune2 in *. bool_to_prop.
    assert (E : code a mod 32 = code a - 0xC0 /\ code b mod 64 = code b - 0x80)
      by (Z.div_mod_to_equations; lia). destruct E as [-> ->].
    set (r := (code a - 0xC0) * 64 + (code b - 0x80)).
    assert (E : r / 64 = code a - 0xC0 /\ r mod 64 = code b - 0x80)
      by (unfold r; Z.div_mod_to_equations; lia). destruct E as [E1 E2].
    rewrite E1, E2, (proj2 (Z.leb_gt r 127)), (proj2 (Z.leb_le 128 r)),
      (proj2 (Z.leb_le r 2047)) by (unfold r; lia).
    rewrite andb_false_r. simpl. repeat f_equal; rewrite <- chr_code; f_equal; lia.
  - assert (E : 0xE0 <= code a <= 0xEF /\ 0x80 <= code b <= 0xBF /\
      (code a = 0xE0 -> 0xA0 <= code b) /\ (code a = 0xED -> code b <= 0x9F)).
    { unfold second3_ok, is_cont, between in Hs.
      case_match; [bool_to_prop; lia|]. case_match; bool_to_prop; lia. }
    unfold is_cont, between, rune3 in *. bool_to_prop.
    assert (E' : code a mod 16 = code a - 0xE0 /\ code b mod 64 = code b - 0x80 /\
      code c mod 64 = code c - 0x80) by (Z.div_mod_to_equations; lia).
    destruct E' as (-> & -> & ->).
    set (r := ((code a - 0xE0) * 64 + (code b - 0x80)) * 64 + (code c - 0x80)).
    assert (E' : r / 4096 = code a - 0xE0 /\ (r / 64) mod 64 = code b - 0x80 /\
      r mod 64 = code c - 0x80) by (unfold r; Z.div_mod_to_equations; lia).
    destruct E' as (E1 & E2 & E3).
    rewrite (proj2 (Z.leb_gt r 127)), (proj2 (Z.leb_gt r 2047)) by (unfold r; lia).
    rewrite !andb_false_r, E1, E2, E3.
    assert (((2048 <=? r) && (r <=? 55295)) || ((57344 <=? r) && (r <=? 65535)) = true) as ->.
    { apply orb_true_iff. rewrite !andb_true_iff, !Z.leb_le.
      destruct (Z.le_gt_cases r 55295); unfold r in *; lia. }
    repeat f_equal; rewrite <- chr_code; f_equal; lia.
  - assert (E : 0xF0 <= code a <= 0xF4 /\ 0x80 <= code b <= 0xBF /\
      (code a = 0xF0 -> 0x90 <= code b) /\ (code a = 0xF4 -> code b <= 0x8F)).
    { unfold second4_ok, is_cont, between in Hs.
      case_match; [bool_to_prop; lia|]. case_match; bool_to_prop; lia. }
    unfold is_cont, between, rune4, MaxRune in *. bool_to_prop.
    assert (E' : code a mod 8 = code a - 0xF0 /\ code b mod 64 = code b - 0x80 /\
      code c mod 64 = code c - 0x80 /\ code d mod 64 = code d - 0x80)
      by (Z.div_mod_to_equations; lia).
    destruct E' as (-> & -> & -> & ->).
    set (r := (((code a - 0xF0) * 64 + (code b - 0x80)) * 64 + (code c - 0x80)) * 64
              + (code d - 0x80)).
    assert (E' : r / 262144 = code a - 0xF0 /\ (r / 4096) mod 64 = code b - 0x80 /\
      (r / 64) mod 64 = code c - 0x80 /\ r mod 64 = code d - 0x80)
      by (unfold r; Z.div_mod_to_equations; lia).
    destruct E' as (E1 & E2 & E3 & E4).
    rewrite (proj2 (Z.leb_gt r 127)), (proj2 (Z.leb_gt r 2047)), (proj2 (Z.leb_gt r 55295)),
      (proj2 (Z.leb_gt r 65535)), (proj2 (Z.leb_le 65536 r)),
      (proj2 (Z.leb_le r 1114111)) by (unfold r; lia).
    rewrite !andb_false_r, E1, E2, E3, E4. simpl.
    repeat f_equal; rewrite <- chr_code; f_equal; lia.
Qed.
