(* ===== verification/Types.v ===== *)
(** * Resources of [api/types]

    The OIDC connector, the OIDC auth request and the user, with the accessors
    the login runtime calls. *)

From S2P Require Import Prelude GoStrings.

(** A Go map lookup of a string map: a missing key reads as the empty string. *)
Definition map_get (m : gmap string string) (k : string) : string := default "" (m !! k).

(** Durations and instants are nanosecond counts. *)
Definition duration := Z.
Definition time := Z.
Definition Second : duration := 1000000000.

(** ** Connector *)

Record ClaimMapping := {
  cm_Claim : string;
  cm_Value : string;
  cm_Roles : list string;
}.

Record TraitMapping := {
  tm_Trait : string;
  tm_Value : string;
  tm_Roles : list string;
}.

Record MFASettings := {
  mfa_Enabled : bool;
  mfa_MaxAge : duration;
}.

Record OIDCConnectorSpec := {
  s_IssuerURL : string;
  s_ClientID : string;
  s_ClientSecret : string;
  s_ACR : string;
  s_Provider : string;
  s_Scope : list string;
  s_Prompt : string;
  s_ClaimsToRoles : list ClaimMapping;
  s_GoogleServiceAccountURI : string;
  s_GoogleServiceAccount : string;
  s_GoogleAdminEmail : string;
  s_RedirectURLs : list string;
  s_AllowUnverifiedEmail : bool;
  s_UsernameClaim : string;
  s_MaxAge : option duration;
  s_ClientRedirectSettings : option (list string);
  s_MFASettings : option MFASettings;
  s_PKCEMode : string;
  s_RequestObjectMode : string;
}.

Record OIDCConnector := {
  c_Name : string;
  c_Labels : gmap string string;
  c_Spec : OIDCConnectorSpec;
}.

Definition OIDCPromptSelectAccount := "select_account".
Definition OIDCPromptNone := "none".
Definition OIDCPKCEModeEnabled := "enabled".
Definition OIDCRequestObjectModeUnknown := "".
Definition OIDCRequestObjectModeNone := "none".

Definition GetPrompt (c : OIDCConnector) : string :=
  if bool_decide (s_Prompt (c_Spec c) = "") then OIDCPromptSelectAccount
  else if bool_decide (s_Prompt (c_Spec c) = OIDCPromptNone) then ""
  else s_Prompt (c_Spec c).

Definition GetMaxAge (c : OIDCConnector) : duration * bool :=
  match s_MaxAge (c_Spec c) with
  | None => (0, false)
  | Some d => (d, true)
  end.

Definition IsMFAEnabled (c : OIDCConnector) : bool :=
  match s_MFASettings (c_Spec c) with Some mfa => mfa_Enabled mfa | None => false end.

Definition GetTraitMappings (c : OIDCConnector) : list TraitMapping :=
  (fun m => {| tm_Trait := cm_Claim m; tm_Value := cm_Value m; tm_Roles := cm_Roles m |})
    <$> s_ClaimsToRoles (c_Spec c).

(** ** Auth request *)

Record OIDCAuthRequest := {
  r_ConnectorID : string;
  r_StateToken : string;
  r_CSRFToken : string;
  r_RedirectURL : string;
  r_CertTTL : duration;
  r_CreateWebSession : bool;
  r_ClientRedirectURL : string;
  r_Compatibility : string;
  r_RouteToCluster : string;
  r_KubernetesCluster : string;
  r_SSOTestFlow : bool;
  r_ConnectorSpec : option OIDCConnectorSpec;
  r_ProxyAddress : string;
  r_ClientLoginIP : string;
  r_ClientUserAgent : string;
  r_SshPublicKey : string;
  r_TlsPublicKey : string;
  r_SshAttestationStatement : string;
  r_TlsAttestationStatement : string;
  r_PkceVerifier : string;
  r_LoginHint : string;
  r_Scope : string;
}.

(** ** User *)

Record ExternalIdentity := {
  ei_ConnectorID : string;
  ei_Username : string;
  ei_UserID : string;
}.

Record ConnectorRef := {
  cr_Type : string;
  cr_ID : string;
  cr_Identity : string;
}.

Definition traits := gmap string (list string).

Record User := {
  u_Name : string;
  u_Expires : option time;
  u_Revision : string;
  u_Roles : list string;
  u_Traits : traits;
  u_OIDCIdentities : list ExternalIdentity;
  u_CreatedBy : string;
  u_CreatedAt : time;
  u_Connector : option ConnectorRef;
}.

(** [ConnectorRef.IsSameProvider] *)
Definition IsSameProvider (r : ConnectorRef) (other : option ConnectorRef) : bool :=
  match other with
  | None => false
  | Some o => bool_decide (cr_Type o = cr_Type r) && bool_decide (cr_ID o = cr_ID r)
  end.

(** [utils.MinTTL]: the smaller of two durations, where zero means unset. *)
Definition MinTTL (a b : duration) : duration :=
  if a =? 0 then b else if b =? 0 then a else if a <? b then a else b.

(** [apiutils.Deduplicate]: the first occurrences, in order.  [seen] is the
    map the loop fills. *)
Fixpoint dedup_loop (seen : list string) (l : list string) : list string :=
  match l with
  | [] => []
  | v :: l' =>
      if slices_Contains seen v then dedup_loop seen l'
      else v :: dedup_loop (v :: seen) l'
  end.

Definition Deduplicate (l : list string) : list string :=
  match l with
  | [] | [_] => l
  | _ => dedup_loop [] l
  end.

(** ** Lemmas *)

Lemma dedup_loop_spec seen l x :
  x ∈ dedup_loop seen l <-> x ∈ l /\ x ∉ seen.
Proof.
  revert seen. induction l as [|v l IH]; intros seen; simpl; [set_solver|].
  destruct (slices_Contains seen v) eqn:E; autorewrite with go_simpl in E.
  - rewrite IH. set_solver.
  - rewrite !elem_of_cons, IH. destruct (decide (x = v)) as [->|]; set_solver.
Qed.

Lemma dedup_loop_NoDup seen l : NoDup (dedup_loop seen l).
Proof.
  revert seen. induction l as [|v l IH]; intros seen; simpl; [constructor|].
  case_match; [done|]. constructor; [|done]. rewrite dedup_loop_spec. set_solver.
Qed.

Lemma elem_of_Deduplicate l x : x ∈ Deduplicate l <-> x ∈ l.
Proof. unfold Deduplicate. repeat case_match; rewrite ?dedup_loop_spec; set_solver. Qed.

Lemma NoDup_Deduplicate l : NoDup (Deduplicate l).
Proof.
  unfold Deduplicate. repeat case_match; subst; [constructor|apply NoDup_singleton|].
  apply dedup_loop_NoDup.
Qed.

#[export] Hint Resolve NoDup_Deduplicate dedup_loop_NoDup : go.
#[export] Hint Rewrite elem_of_Deduplicate dedup_loop_spec : go_simpl.
