(* ===== verification/Sha256.v ===== *)
(** * Digests: [crypto/sha256] and [encoding/hex]

    The runtime keys its single-use markers by the digest of the state token.
    This is FIPS 180-4 on 32-bit words, and the lower-case hexadecimal text of
    a byte string. *)

From S2P Require Import Prelude GoStrings.
From Stdlib Require Import Ascii.

Definition word_mask : Z := 0xffffffff.
Definition w32 (z : Z) : Z := Z.land z word_mask.
Definition add32 (a b : Z) : Z := w32 (a + b).
Definition rotr (n x : Z) : Z := w32 (Z.lor (Z.shiftr x n) (Z.shiftl x (32 - n))).
Definition not32 (x : Z) : Z := Z.lxor x word_mask.

Definition Ch (x y z : Z) : Z := Z.lxor (Z.land x y) (Z.land (not32 x) z).
Definition Maj (x y z : Z) : Z := Z.lxor (Z.land x y) (Z.lxor (Z.land x z) (Z.land y z)).
Definition bigSigma0 (x : Z) : Z := Z.lxor (rotr 2 x) (Z.lxor (rotr 13 x) (rotr 22 x)).
Definition bigSigma1 (x : Z) : Z := Z.lxor (rotr 6 x) (Z.lxor (rotr 11 x) (rotr 25 x)).
Definition smallSigma0 (x : Z) : Z := Z.lxor (rotr 7 x) (Z.lxor (rotr 18 x) (Z.shiftr x 3)).
Definition smallSigma1 (x : Z) : Z := Z.lxor (rotr 17 x) (Z.lxor (rotr 19 x) (Z.shiftr x 10)).

(** The constants are the first 32 bits of the fractional parts of roots of the
    first primes: cube roots for the rounds, square roots for the initial
    value.  [root k n x] is the integer [k]-th root of [x] below [2 ^ n], found
    bit by bit. *)
Fixpoint root_from (k : Z) (n : nat) (x r : Z) : Z :=
  match n with
  | O => r
  | S i =>
      let higher := r + 2 ^ Z.of_nat i in
      root_from k i x (if higher ^ k <=? x then higher else r)
  end.
Definition root (k : Z) (n : nat) (x : Z) : Z := root_from k n x 0.

Definition is_prime (n : nat) : bool :=
  forallb (fun d => negb (Nat.eqb (Nat.modulo n d) 0)) (seq 2 (n - 2)).
Definition primes (count : nat) : list Z := Z.of_nat <$> take count (filter is_prime (seq 2 310)).

Definition root_fraction (k p : Z) : Z := w32 (root k 40 (p * 2 ^ (32 * k))).
Definition round_constants : list Z := Eval vm_compute in root_fraction 3 <$> primes 64.
Definition initial_hash : list Z := Eval vm_compute in root_fraction 2 <$> primes 8.

(** The message schedule, newest word first. *)
Fixpoint schedule (n : nat) (w : list Z) : list Z :=
  match n with
  | O => w
  | S n' =>
      let nth i := nth i w 0 in
      schedule n' (add32 (add32 (smallSigma1 (nth 1%nat)) (nth 6%nat))
                     (add32 (smallSigma0 (nth 14%nat)) (nth 15%nat)) :: w)
  end.

Definition sha_round (st : list Z) (kw : Z * Z) : list Z :=
  match st with
  | [a; b; c; d; e; f; g; h] =>
      let t1 := add32 (add32 h (bigSigma1 e)) (add32 (Ch e f g) (add32 kw.1 kw.2)) in
      let t2 := add32 (bigSigma0 a) (Maj a b c) in
      [add32 t1 t2; a; b; c; add32 d t1; e; f; g]
  | _ => st
  end.

Definition sha_block (st : list Z) (block : list Z) : list Z :=
  let w := rev (schedule 48 (rev block)) in
  zip_with add32 st (foldl sha_round st (zip round_constants w)).

(** Padding, and the split into words and blocks. *)
Definition be_bytes (n : nat) (z : Z) : list Z :=
  (fun i => Z.land (Z.shiftr z (8 * Z.of_nat i)) 255) <$> rev (seq 0 n).

Definition pad (msg : list Z) : list Z :=
  let l := Z.of_nat (length msg) in
  (msg ++ 128 :: replicate (Z.to_nat ((55 - l) mod 64)) 0 ++ be_bytes 8 (8 * l))%list.

Fixpoint words (l : list Z) : list Z :=
  match l with
  | a :: b :: c :: d :: l' => (((a * 256 + b) * 256 + c) * 256 + d) :: words l'
  | _ => []
  end.

Fixpoint blocks (n : nat) (l : list Z) : list (list Z) :=
  match n with
  | O => []
  | S n' => take 16 l :: blocks n' (drop 16 l)
  end.

Definition sha256 (msg : list Z) : list Z :=
  let w := words (pad msg) in
  mbind (be_bytes 4) (foldl sha_block initial_hash (blocks (length w / 16) w)).

(** [hex.EncodeToString] *)
Definition hex_digits : string := "0123456789abcdef".
Definition hex_digit (z : Z) : ascii := default "0"%char (bytes_of hex_digits !! Z.to_nat z).
Definition hex_byte (z : Z) : list ascii := [hex_digit (z / 16); hex_digit (z mod 16)].
Definition hex_encode (l : list Z) : string := of_bytes (mbind hex_byte l).

Definition sha256_hex (s : string) : string := hex_encode (sha256 (code <$> bytes_of s)).

(** The digests of the published test vectors. *)
Example sha256_abc :
  sha256_hex "abc" = "ba7816bf8f01cfea414140de5dae2223b00361a396177a9cb410ff61f20015ad".
Proof. vm_compute. reflexivity. Qed.

Example sha256_two_blocks :
  sha256_hex "abcdbcdecdefdefgefghfghighijhijkijkljklmklmnlmnomnopnopq" =
  "248d6a61d20638b8e5c026930c3e6039a33ce45964ff2167f6ecedd419db06c1".
Proof. vm_compute. reflexivity. Qed.

(** A digest is hexadecimal text. *)
Lemma hex_digit_in z : hex_digit z ∈ bytes_of hex_digits.
Proof.
  unfold hex_digit. destruct (bytes_of hex_digits !! Z.to_nat z) eqn:E; simpl.
  - by apply list_elem_of_lookup_2 in E.
  - compute. set_solver.
Qed.

Lemma hex_encode_chars l a : a ∈ bytes_of (hex_encode l) -> a ∈ bytes_of hex_digits.
Proof.
  unfold hex_encode. rewrite bytes_of_of, list_elem_of_bind.
  intros (z & Ha & _). unfold hex_byte in Ha.
  repeat (apply elem_of_cons in Ha as [->|Ha]; [apply hex_digit_in|]). by apply elem_of_nil in Ha.
Qed.

Lemma sha256_hex_no c s : c ∉ bytes_of hex_digits -> c ∉ bytes_of (sha256_hex s).
Proof. intros Hc Hs. by apply Hc, (hex_encode_chars _ _ Hs). Qed.
