(* ===== verification/Key.v ===== *)
(** * Backend keys: [lib/backend/key.go]

    A key is a textual path together with its components.  The main fact is
    that a range over an exact key reaches the children of that path and
    nothing else. *)

From S2P Require Import Prelude GoStrings.
From Stdlib Require Import Ascii.

Record Key := {
  k_s : string;
  k_components : list string;
  k_exactKey : bool;
  k_noEnd : bool;
}.

#[export] Instance Key_eq_dec : EqDecision Key.
Proof. solve_decision. Defined.

Definition Separator : byte := "/"%char.
Definition SeparatorString : string := "/".
Definition noEnd : string := String "000" "".
Definition zeroKey : Key :=
  {| k_s := ""; k_components := []; k_exactKey := false; k_noEnd := false |}.

(** [s != "" && s[len(s)-1] == Separator] *)
Definition endsWithSeparator (s : string) : bool := HasSuffix s SeparatorString.

Definition NewKey (components : list string) : Key :=
  match components with
  | [] => zeroKey
  | _ =>
      let s := SeparatorString +:+ Join components SeparatorString in
      {| k_s := s; k_components := components; k_exactKey := endsWithSeparator s; k_noEnd := false |}
  end.

Definition ExactKey (components : list string) : Key :=
  let components := (components ++ [""])%list in
  {| k_s := SeparatorString +:+ Join components SeparatorString; k_components := components;
     k_exactKey := true; k_noEnd := false |}.

Definition KeyFromString (s : string) : Key :=
  let components := Split s Separator in
  let components :=
    match components with
    | c0 :: (_ :: _) as rest => if bool_decide (c0 = "") then rest else components
    | _ => components
    end in
  {| k_s := s; k_components := components;
     k_exactKey := bool_decide (s = SeparatorString) || (negb (bool_decide (s = "")) && endsWithSeparator s);
     k_noEnd := bool_decide (s = noEnd) |}.

Definition IsZero (k : Key) : bool :=
  (length (k_components k) =? 0)%nat && bool_decide (k_s k = "").

(** The method [ExactKey] of a key. *)
Definition toExactKey (k : Key) : Key :=
  if k_exactKey k then k else ExactKey (k_components k).

Definition KeyString (k : Key) : string := if k_noEnd k then noEnd else k_s k.

Definition KeyHasPrefix (k prefix : Key) : bool := HasPrefix (k_s k) (k_s prefix).

Definition KeyTrimPrefix (k prefix : Key) : Key :=
  let key := TrimPrefix (k_s k) (k_s prefix) in
  if bool_decide (key = "") then zeroKey else KeyFromString key.

Definition KeyCutPrefix (k prefix : Key) : Key * bool :=
  match CutPrefix (k_s k) (k_s prefix) with
  | None => (k, false)
  | Some key => if bool_decide (key = "") then (zeroKey, true) else (KeyFromString key, true)
  end.

Definition joinKey (first : Key) (components : list string) : Key :=
  let s :=
    if HasPrefix (k_s first) SeparatorString
    then SeparatorString +:+ Join components SeparatorString
    else Join components SeparatorString in
  {| k_s := s; k_components := components; k_exactKey := false; k_noEnd := false |}.

Definition PrependKey (k p : Key) : Key :=
  if IsZero p then k else joinKey p (k_components p ++ k_components k).

Definition AppendKey (k p : Key) : Key :=
  if IsZero k then p else joinKey k (k_components k ++ k_components p).

Definition KeyHasSuffix (k suffix : Key) : bool := HasSuffix (k_s k) (k_s suffix).

Definition KeyTrimSuffix (k suffix : Key) : Key :=
  let key := TrimSuffix (k_s k) (k_s suffix) in
  if bool_decide (key = "") then zeroKey else KeyFromString key.

Definition Components (k : Key) : list string := k_components k.

Definition KeyCompare (k o : Key) : comparison := str_compare (k_s k) (k_s o).

(** ** Properties *)

(** A component that cannot be confused with a path. *)
Definition plain (c : string) : Prop := Separator ∉ bytes_of c.

Lemma Join_cons s l sep : l <> [] -> Join (s :: l) sep = s +:+ sep +:+ Join l sep.
Proof. by destruct l. Qed.

Lemma Split_plain c : plain c -> Split c Separator = [c].
Proof.
  unfold plain. induction c as [|a c IH]; [done|]. intros Hn.
  change (bytes_of (String a c)) with (a :: bytes_of c) in Hn. simpl.
  destruct (Ascii.eqb_spec a Separator) as [->|]; [set_solver|].
  by rewrite IH by set_solver.
Qed.

Lemma Split_app c t : plain c -> Split (c +:+ String Separator t) Separator = c :: Split t Separator.
Proof.
  unfold plain. induction c as [|a c IH]; intros Hn; [done|].
  change (bytes_of (String a c)) with (a :: bytes_of c) in Hn. rewrite str_app_cons. simpl.
  destruct (Ascii.eqb_spec a Separator) as [->|]; [set_solver|].
  by rewrite IH by set_solver.
Qed.

Lemma Split_Join_plain cs :
  cs <> [] -> Forall plain cs -> Split (Join cs SeparatorString) Separator = cs.
Proof.
  intros Hne Hp. induction Hp as [|c cs Hc Hp IH]; [done|].
  destruct cs as [|c' cs]; [by apply Split_plain|].
  rewrite Join_cons by done. change (SeparatorString +:+ Join (c' :: cs) SeparatorString)
    with (String Separator (Join (c' :: cs) SeparatorString)).
  rewrite Split_app by done. by rewrite IH.
Qed.

Lemma Join_inj cs ds :
  Forall plain cs -> Forall plain ds -> cs <> [] -> ds <> [] ->
  Join cs SeparatorString = Join ds SeparatorString -> cs = ds.
Proof.
  intros Hc Hd Hcn Hdn E. by rewrite <- (Split_Join_plain cs), <- (Split_Join_plain ds), E.
Qed.

Lemma Join_app cs ds :
  cs <> [] -> ds <> [] ->
  Join (cs ++ ds) SeparatorString = Join cs SeparatorString +:+ SeparatorString +:+ Join ds SeparatorString.
Proof.
  intros Hc Hd. induction cs as [|c cs IH]; [done|].
  destruct cs as [|c' cs]; simpl app.
  - by rewrite Join_cons by done.
  - rewrite (Join_cons c (c' :: cs)), (Join_cons c (c' :: cs ++ ds)) by done.
    change (c' :: cs ++ ds)%list with ((c' :: cs) ++ ds)%list.
    rewrite IH by done. by rewrite !str_app_assoc.
Qed.

(** Reading the text of a key back gives the key. *)
Lemma KeyFromString_NewKey cs :
  cs <> [] -> Forall plain cs -> KeyFromString (KeyString (NewKey cs)) = NewKey cs.
Proof.
  intros Hne Hp. destruct cs as [|c cs]; [done|].
  unfold KeyString, NewKey. simpl k_noEnd. cbv iota.
  set (j := Join (c :: cs) SeparatorString). simpl k_s.
  unfold KeyFromString. change (SeparatorString +:+ j) with (String Separator j).
  assert (Split (String Separator j) Separator = "" :: c :: cs) as ->.
  { change (String Separator j) with ("" +:+ String Separator j).
    rewrite Split_app by (by intros ?%elem_of_nil). f_equal. by apply Split_Join_plain. }
  rewrite bool_decide_true by done. f_equal.
  case_bool_decide as Hs; [|done]. by rewrite Hs.
Qed.

(** The keys a range over [ExactKey ps] reaches are the proper children of
    the path [ps]. *)
Lemma ExactKey_children ps cs :
  ps <> [] -> cs <> [] -> Forall plain ps -> Forall plain cs ->
  KeyHasPrefix (NewKey cs) (ExactKey ps) = true <-> exists rest, rest <> [] /\ cs = (ps ++ rest)%list.
Proof.
  intros Hpn Hcn Hp Hc. unfold KeyHasPrefix, ExactKey. simpl k_s.
  assert (k_s (NewKey cs) = SeparatorString +:+ Join cs SeparatorString) as -> by (by destruct cs).
  rewrite Join_app by done. simpl Join. rewrite str_app_nil_r, HasPrefix_true. split.
  - intros [r E]. rewrite !str_app_assoc in E. apply (inj (String.append SeparatorString)) in E.
    exists (Split r Separator). split; [apply Split_nonnil|].
    rewrite <- (Split_Join_plain cs Hcn Hc), E. clear E Hcn Hc cs.
    induction Hp as [|p ps Hp' Hp IH]; [done|].
    destruct ps as [|p' ps].
    + change (SeparatorString +:+ r) with (String Separator r). simpl Join. by apply Split_app.
    + rewrite Join_cons, !str_app_assoc by done.
      change (SeparatorString +:+ Join (p' :: ps) SeparatorString +:+ SeparatorString +:+ r)
        with (String Separator (Join (p' :: ps) SeparatorString +:+ SeparatorString +:+ r)).
      rewrite Split_app by done. simpl app. f_equal. by apply IH.
  - intros (rest & Hrn & ->). exists (Join rest SeparatorString).
    rewrite Join_app by done. by rewrite !str_app_assoc.
Qed.

Lemma NewKey_inj cs ds :
  Forall plain cs -> Forall plain ds -> cs <> [] -> ds <> [] ->
  k_s (NewKey cs) = k_s (NewKey ds) -> cs = ds.
Proof.
  intros Hc Hd Hcn Hdn E. apply Join_inj; [done..|].
  destruct cs, ds; [done..|]. by apply (inj (String.append SeparatorString)) in E.
Qed.

Lemma NewKey_not_zero cs : cs <> [] -> IsZero (NewKey cs) = false.
Proof. by destruct cs. Qed.

Lemma AppendKey_NewKey cs ds :
  cs <> [] -> ds <> [] -> k_s (AppendKey (NewKey cs) (NewKey ds)) = k_s (NewKey (cs ++ ds)).
Proof. intros Hc Hd. destruct cs as [|c cs], ds as [|d ds]; done. Qed.
