(* ===== verification/Backend.v ===== *)
(** * The cluster backend: [lib/backend/backend.go]

    The runtime stores its state with [Create] and reads it with [Get].  The
    class [Backend] is the part of the Go interface it uses, [BackendSpec] the
    contract the proofs rely on.  [MemoryBackend] shows that the memory backend
    of the repository keeps it. *)

From S2P Require Import Prelude GoStrings Types Key.
From Stdlib Require Import Ascii.

Record Item := {
  i_Key : Key;
  i_Value : string;
  i_Expires : option time;   (* [None] is the zero time: no expiry *)
  i_Revision : string;
}.

(** ** Ranges: [RangeEnd]

    The bytes from the end are passed over while they are 0xff. *)

Fixpoint range_end_rev (rev_bytes : list byte) : option (list byte) :=
  match rev_bytes with
  | [] => None
  | b :: rest => if code b <? 255 then Some (chr (code b + 1) :: rest) else range_end_rev rest
  end.

Definition RangeEnd (key : Key) : Key :=
  match range_end_rev (rev (bytes_of (k_s key))) with
  | Some r => KeyFromString (of_bytes (rev r))
  | None => {| k_s := ""; k_components := []; k_exactKey := false; k_noEnd := true |}
  end.

(** [Expiry] *)
Definition Expiry (now : time) (ttl : duration) : option time :=
  if ttl =? 0 then None else Some (now + ttl).

(** ** The interface *)

Class Clock (W : Type) := Now : W -> time.

Class Backend (W : Type) := {
  bk_Create : Item -> M W string;
  bk_Get : Key -> M W Item;
}.

Definition unexpired (t : time) (i : Item) : Prop :=
  match i_Expires i with None => True | Some e => t < e end.

#[export] Instance unexpired_dec t i : Decision (unexpired t i).
Proof. unfold unexpired. destruct (i_Expires i); apply _. Defined.

(** [live w k] is the item a [Get] of the key text [k] may return at [w]. *)
Class LiveView (W : Type) := live : W -> string -> option Item.

(** How long past its expiry an item may still be returned. *)
Class Grace (W : Type) := grace : duration.
Arguments grace W {_}.

Section Kept.
Context {W : Type} `{Clock W} `{LiveView W}.

(** What may happen to the items under the keys [K] between two moments when
    nobody writes those keys: time passes, and items expire. *)
Definition kept (K : string -> Prop) (w w' : W) : Prop :=
  Now w <= Now w' /\
  forall k i, K k ->
    (live w k = Some i -> unexpired (Now w') i -> live w' k = Some i) /\
    (live w' k = Some i -> live w k = Some i).

(** Between two moments with writes to new keys allowed: no item is lost
    before it expires. *)
Definition grown (w w' : W) : Prop :=
  Now w <= Now w' /\
  forall k i, live w k = Some i -> unexpired (Now w') i -> live w' k = Some i.

Lemma unexpired_mono t t' i : t <= t' -> unexpired t' i -> unexpired t i.
Proof. unfold unexpired. destruct (i_Expires i); [lia|done]. Qed.

#[export] Instance kept_preorder K : PreOrder (kept K).
Proof.
  split; [split; [lia|auto]|].
  intros w1 w2 w3 [Ht1 H1] [Ht2 H2]. split; [lia|]. intros k i Hk.
  destruct (H1 k i Hk) as [H1a H1b], (H2 k i Hk) as [H2a H2b]. split; [|auto].
  intros Hl Hu. apply H2a; [|done]. apply H1a; [done|]. by eapply unexpired_mono.
Qed.

#[export] Instance grown_preorder : PreOrder grown.
Proof.
  split; [split; [lia|auto]|].
  intros w1 w2 w3 [Ht1 H1] [Ht2 H2]. split; [lia|]. intros k i Hl Hu.
  apply H2; [|done]. apply H1; [done|]. by eapply unexpired_mono.
Qed.

Lemma kept_weaken (K K' : string -> Prop) w w' :
  (forall k, K' k -> K k) -> kept K w w' -> kept K' w w'.
Proof. intros HK [Ht Hk]. split; [done|]. intros k i Hk'. by apply Hk, HK. Qed.
End Kept.

(** The behaviour of a backend the runtime relies on.  A call may also fail
    for a reason of its own, and then nothing is said about its key. *)
Class BackendSpec (W : Type) `{Clock W} `{Backend W} `{LiveView W} `{Grace W} : Prop := {
  (* an item that expired longer ago than the grace is never returned *)
  live_unexpired w k i : live w k = Some i -> unexpired (Now w - grace W) i;
  (* a live key is never created again *)
  create_ok i w w' r : bk_Create i w = (w', Ok r) ->
    live w (k_s (i_Key i)) = None /\
    (unexpired (Now w') i -> exists i', live w' (k_s (i_Key i)) = Some i' /\
       i_Value i' = i_Value i /\ i_Expires i' = i_Expires i);
  (* what a successful create of a fresh key wrote is what was asked *)
  create_written i w w' r i' : bk_Create i w = (w', r) ->
    live w' (k_s (i_Key i)) = Some i' -> live w (k_s (i_Key i)) = Some i' \/
      (i_Value i' = i_Value i /\ i_Expires i' = i_Expires i);
  create_exists i w w' e : bk_Create i w = (w', Err e) -> IsAlreadyExists e = true ->
    exists i', live w (k_s (i_Key i)) = Some i';
  create_frame i w w' r : bk_Create i w = (w', r) ->
    grown w w' /\ kept (fun k => k <> k_s (i_Key i)) w w';
  get_ok k w w' i : bk_Get k w = (w', Ok i) -> live w (k_s k) = Some i;
  get_missing k w w' e : bk_Get k w = (w', Err e) -> IsNotFound e = true ->
    live w' (k_s k) = None;
  get_frame k w w' r : bk_Get k w = (w', r) -> kept (fun _ => True) w w';
}.

(** ** The end of a range *)

Lemma range_end_rev_some l r :
  range_end_rev l = Some r ->
  exists high b rest, l = (high ++ b :: rest)%list /\ (forall c, c ∈ high -> code c = 255) /\
    code b < 255 /\ r = chr (code b + 1) :: rest.
Proof.
  induction l as [|b l IH]; simpl; [done|].
  destruct (Z.ltb_spec (code b) 255).
  - intros [= <-]. exists [], b, l. split; [done|]. split; [set_solver|done].
  - intros (high & b' & rest & -> & Hh & ? & ->)%IH. exists (b :: high), b', rest.
    split; [done|]. split; [|done]. intros c [->|Hc]%elem_of_cons; [|auto].
    pose proof (code_range b). lia.
Qed.

Lemma str_compare_same c s t : str_compare (c +:+ s) (c +:+ t) = str_compare s t.
Proof.
  induction c as [|a c IH]; [done|]. rewrite !str_app_cons. simpl. by rewrite Z.compare_refl.
Qed.

Lemma at_most_high f k :
  (forall c, c ∈ bytes_of f -> code c = 255) -> at_most f k <-> HasPrefix k f = true.
Proof.
  rewrite HasPrefix_true. unfold at_most. revert k. induction f as [|a f IH]; intros k Hf.
  - split; [intros _; by exists k|]. by destruct k.
  - change (bytes_of (String a f)) with (a :: bytes_of f) in Hf.
    assert (Ha : code a = 255) by (apply Hf; set_solver).
    destruct k as [|b k]; simpl.
    + split; [done|]. intros [r Hr]. by rewrite str_app_cons in Hr.
    + rewrite Ha. pose proof (code_range b).
      destruct (Z.compare_spec 255 (code b)) as [E|E|E]; [|lia|].
      * rewrite IH by set_solver. assert (a = b) as -> by (apply code_inj; lia).
        setoid_rewrite str_app_cons. naive_solver.
      * split; [done|]. intros [r Hr]. rewrite str_app_cons in Hr. simplify_eq. lia.
Qed.

Lemma range_of_prefix c b f k :
  (forall x, x ∈ bytes_of f -> code x = 255) -> code b < 255 ->
  at_most (c +:+ String b f) k /\ before k (c +:+ String (chr (code b + 1)) "") <->
  HasPrefix k (c +:+ String b f) = true.
Proof.
  intros Hf Hb. pose proof (code_range b). rewrite HasPrefix_true.
  unfold at_most, before. revert k. induction c as [|a c IH]; intros k.
  - rewrite !str_app_nil_l. destruct k as [|x k]; simpl.
    + split; [naive_solver|]. intros [r Hr]. by rewrite str_app_cons in Hr.
    + rewrite code_chr by lia. setoid_rewrite str_app_cons.
      destruct (Z.compare_spec (code b) (code x)) as [E|E|E].
      * apply code_inj in E as ->.
        destruct (Z.compare_spec (code x) (code x + 1)); try lia.
        pose proof (at_most_high f k Hf) as Hk. rewrite HasPrefix_true in Hk.
        unfold at_most in Hk. rewrite Hk. naive_solver.
      * destruct (Z.compare_spec (code x) (code b + 1)); try lia.
        -- split; [|naive_solver lia]. intros [_ Hl]. by destruct k.
        -- naive_solver lia.
      * naive_solver lia.
  - destruct k as [|x k].
    + rewrite !str_app_cons. simpl. split; [naive_solver|].
      intros [r Hr]. by rewrite !str_app_cons in Hr.
    + assert (Hx : (exists r, String x k = (String a c +:+ String b f) +:+ r) <->
        x = a /\ exists r, k = (c +:+ String b f) +:+ r).
      { split.
        - intros [r Hr]. rewrite !str_app_cons in Hr. injection Hr as -> ->. eauto.
        - intros [-> [r ->]]. by exists r. }
      rewrite Hx, <- IH, !str_app_cons. cbn [str_compare].
      destruct (Z.compare_spec (code a) (code x)) as [E|E|E].
      * apply code_inj in E as ->. rewrite Z.compare_refl. naive_solver.
      * destruct (Z.compare_spec (code x) (code a)); naive_solver lia.
      * naive_solver lia.
Qed.

(** The keys from [p] up to, but not including, the range end of [p] are those
    that have [p] as a prefix. *)
Lemma RangeEnd_prefix key k :
  k_noEnd (RangeEnd key) = false -> k_s (RangeEnd key) <> noEnd ->
  at_most (k_s key) k /\ before k (k_s (RangeEnd key)) <-> HasPrefix k (k_s key) = true.
Proof.
  unfold RangeEnd. destruct (range_end_rev _) as [r|] eqn:Er; [|done]. intros _ _.
  apply range_end_rev_some in Er as (high & b & rest & Ek & Hh & Hb & ->). simpl k_s.
  assert (k_s key = of_bytes (rev rest) +:+ String b (of_bytes (rev high))) as ->.
  { apply bytes_of_inj. rewrite bytes_of_app, bytes_of_of.
    change (bytes_of (String b (of_bytes (rev high)))) with (b :: bytes_of (of_bytes (rev high))).
    rewrite bytes_of_of, <- (rev_involutive (bytes_of _)), Ek, rev_app_distr.
    simpl. by rewrite <- app_assoc. }
  simpl. rewrite of_bytes_app. apply range_of_prefix; [|done].
  intros x. rewrite bytes_of_of, list_elem_of_In, <- in_rev, <- list_elem_of_In. apply Hh.
Qed.
