(* ===== verification/BTree.v ===== *)
(** * Ordered trees: [github.com/google/btree]

    The memory backend and the sort cache keep their keys in a B-tree, which is
    a library.  [BTree] is the part of [BTreeG] they call, over the key an
    entry is ordered by, [BTreeSpec] its documented behaviour, and sorted
    association lists an instance. *)

From S2P Require Import Prelude GoStrings.

Class BTree (V T : Type) := {
  bt_New : T;
  bt_Get : T -> string -> option V;
  bt_ReplaceOrInsert : T -> string -> V -> T;
  bt_Delete : T -> string -> T;
  (* the whole tree in order; the iterations take from it *)
  bt_entries : T -> list (string * V);
}.

Class BTreeSpec (V T : Type) `{BTree V T} : Prop := {
  bt_sorted (t : T) : StronglySorted (fun a b => before a.1 b.1) (bt_entries t);
  bt_get_entries (t : T) k (p : V) : bt_Get t k = Some p <-> (k, p) ∈ bt_entries t;
  bt_get_new k : bt_Get (bt_New : T) k = None;
  bt_get_insert (t : T) k (p : V) k' : bt_Get (bt_ReplaceOrInsert t k p) k' = if decide (k' = k) then Some p else bt_Get t k';
  bt_get_delete (t : T) k k' : bt_Get (bt_Delete t k) k' = if decide (k' = k) then None else bt_Get t k';
}.

Section Iteration.
Context {V T : Type} `{BTree V T}.

(** [AscendGreaterOrEqual] and the like: what the callback is offered until it
    stops. *)
Definition bt_Ascend (t : T) : list (string * V) := bt_entries t.
Definition bt_AscendGreaterOrEqual (t : T) (k : string) : list (string * V) :=
  filter (fun e => at_most k e.1) (bt_entries t).
Definition bt_AscendLessThan (t : T) (k : string) : list (string * V) :=
  filter (fun e => before e.1 k) (bt_entries t).
Definition bt_AscendRange (t : T) (k stop : string) : list (string * V) :=
  filter (fun e => at_most k e.1 /\ before e.1 stop) (bt_entries t).
Definition bt_Descend (t : T) : list (string * V) := rev (bt_entries t).
Definition bt_DescendLessOrEqual (t : T) (k : string) : list (string * V) :=
  rev (filter (fun e => at_most e.1 k) (bt_entries t)).
Definition bt_DescendGreaterThan (t : T) (k : string) : list (string * V) :=
  rev (filter (fun e => before k e.1) (bt_entries t)).
Definition bt_DescendRange (t : T) (k stop : string) : list (string * V) :=
  rev (filter (fun e => at_most e.1 k /\ before stop e.1) (bt_entries t)).
End Iteration.

(** ** Sorted association lists *)

Section Sorted.
Context {V : Type}.

Fixpoint list_Get (l : list (string * V)) (k : string) : option V :=
  match l with
  | [] => None
  | (k', v) :: l' =>
      match str_compare k k' with Lt => None | Eq => Some v | Gt => list_Get l' k end
  end.

Fixpoint list_Insert (l : list (string * V)) (k : string) (v : V) : list (string * V) :=
  match l with
  | [] => [(k, v)]
  | (k', v') :: l' =>
      match str_compare k k' with
      | Lt => (k, v) :: l
      | Eq => (k, v) :: l'
      | Gt => (k', v') :: list_Insert l' k v
      end
  end.

Fixpoint list_Delete (l : list (string * V)) (k : string) : list (string * V) :=
  match l with
  | [] => []
  | (k', v) :: l' =>
      match str_compare k k' with Lt => l | Eq => l' | Gt => (k', v) :: list_Delete l' k end
  end.

Definition sorted (l : list (string * V)) : Prop := StronglySorted (fun a b => before a.1 b.1) l.

Lemma sorted_inv k v l : sorted ((k, v) :: l) -> sorted l /\ forall k' v', (k', v') ∈ l -> before k k'.
Proof.
  intros [Hs Hl]%StronglySorted_inv. split; [done|]. intros k' v' Hin.
  rewrite Forall_forall in Hl. by apply (Hl (k', v')).
Qed.

Lemma list_Get_entries l k v : sorted l -> list_Get l k = Some v <-> (k, v) ∈ l.
Proof.
  induction l as [|[k' v'] l IH]; intros Hs; simpl.
  { split; [done|]. by intros ?%elem_of_nil. }
  apply sorted_inv in Hs as [Hs Hl]. rewrite elem_of_cons. destruct (str_compare k k') eqn:E.
  - apply str_compare_eq in E as ->. split; [intros [= ->]; by left|]. intros [[= ->]|Hin]; [done|].
    by apply Hl, before_irrefl in Hin.
  - split; [done|]. intros [[= -> ->]|Hin]; [by rewrite str_compare_refl in E|].
    apply Hl in Hin. exfalso. apply (before_irrefl k). by transitivity k'.
  - rewrite IH by done. split; [by right|]. intros [[= -> ->]|]; [by rewrite str_compare_refl in E|done].
Qed.

Lemma list_Insert_elem l k v e : sorted l -> e ∈ list_Insert l k v <-> e = (k, v) \/ (e ∈ l /\ e.1 <> k).
Proof.
  induction l as [|[k' v'] l IH]; intros Hs; simpl.
  { rewrite list_elem_of_singleton, elem_of_nil. tauto. }
  pose proof Hs as Hs0. apply sorted_inv in Hs as [Hs Hl]. destruct e as [k0 v0].
  destruct (str_compare k k') eqn:E; rewrite !elem_of_cons.
  - apply str_compare_eq in E as ->. split; [|naive_solver]. intros [->|Hin]; [by left|].
    right. split; [by right|]. intros E. simpl in E. subst. by apply Hl, before_irrefl in Hin.
  - split; [|naive_solver]. intros [->|Hin]; [by left|]. right. split; [done|]. simpl. intros ->.
    destruct Hin as [[= -> ->]|Hin]; [by rewrite str_compare_refl in E|].
    apply Hl in Hin. apply (before_irrefl k). by transitivity k'.
  - rewrite IH by done. split.
    + intros [[= -> ->]|[->|[Hin Hne]]]; [right; split; [by left|]|by left|right; split; [by right|done]].
      simpl. intros ->. by rewrite str_compare_refl in E.
    + naive_solver.
Qed.

Lemma list_Insert_sorted l k v : sorted l -> sorted (list_Insert l k v).
Proof.
  induction l as [|[k' v'] l IH]; intros Hs; simpl; [repeat constructor|].
  pose proof Hs as Hs0. apply sorted_inv in Hs as [Hs Hl]. destruct (str_compare k k') eqn:E.
  - apply str_compare_eq in E as ->. constructor; [done|]. apply Forall_forall. intros [k0 v0] Hin. by eapply Hl.
  - constructor; [done|]. apply Forall_forall. intros [k0 v0] Hin. simpl.
    apply elem_of_cons in Hin as [[= -> ->]|Hin]; [done|]. apply Hl in Hin. by transitivity k'.
  - constructor; [by apply IH|]. apply Forall_forall. intros [k0 v0]. rewrite list_Insert_elem by done.
    intros [[= -> ->]|[Hin _]]; [|by eapply Hl]. simpl. unfold before. by rewrite str_compare_opp, E.
Qed.

Lemma list_Delete_elem l k e : sorted l -> e ∈ list_Delete l k <-> e ∈ l /\ e.1 <> k.
Proof.
  induction l as [|[k' v'] l IH]; intros Hs; simpl; [rewrite elem_of_nil; tauto|].
  apply sorted_inv in Hs as [Hs Hl]. destruct e as [k0 v0]. destruct (str_compare k k') eqn:E; rewrite !elem_of_cons.
  - apply str_compare_eq in E as ->. split; [|naive_solver]. intros Hin. split; [by right|]. simpl. intros ->.
    by apply Hl, before_irrefl in Hin.
  - split; [|naive_solver]. intros Hin. split; [done|]. simpl. intros ->.
    destruct Hin as [[= -> ->]|Hin]; [by rewrite str_compare_refl in E|].
    apply Hl in Hin. apply (before_irrefl k). by transitivity k'.
  - rewrite IH by done. split; [|naive_solver]. intros [[= -> ->]|[Hin Hne]]; [|naive_solver].
    split; [by left|]. simpl. intros ->. by rewrite str_compare_refl in E.
Qed.

Lemma list_Delete_sorted l k : sorted l -> sorted (list_Delete l k).
Proof.
  induction l as [|[k' v'] l IH]; intros Hs; simpl; [done|].
  pose proof Hs as Hs0. apply sorted_inv in Hs as [Hs Hl]. destruct (str_compare k k'); [done|done|].
  constructor; [by apply IH|]. apply Forall_forall. intros [k0 v0]. rewrite list_Delete_elem by done.
  intros [Hin _]. by eapply Hl.
Qed.

(** The tree: a list with the proof of its order. *)
Record tree := Tree { tree_list : list (string * V); tree_sorted : sorted tree_list }.

#[export] Instance list_tree : BTree V tree := {|
  bt_New := Tree [] (SSorted_nil _);
  bt_Get := fun t => list_Get (tree_list t);
  bt_ReplaceOrInsert := fun t k v => Tree (list_Insert (tree_list t) k v) (list_Insert_sorted _ k v (tree_sorted t));
  bt_Delete := fun t k => Tree (list_Delete (tree_list t) k) (list_Delete_sorted _ k (tree_sorted t));
  bt_entries := tree_list;
|}.

Lemma option_ext {A} (x y : option A) : (forall a, x = Some a <-> y = Some a) -> x = y.
Proof. intros E. destruct x as [a|]; [symmetry; by apply E|]. destruct y as [a|]; [by apply E|done]. Qed.

#[export] Instance list_tree_spec : BTreeSpec V tree.
Proof.
  split; simpl; try done.
  - intros [l Hs]. exact Hs.
  - intros [l Hs] k p. by apply list_Get_entries.
  - intros [l Hs] k p k'. simpl. apply option_ext. intros a.
    rewrite list_Get_entries by (by apply list_Insert_sorted). rewrite list_Insert_elem by done.
    rewrite <- (list_Get_entries l k') by done. case_decide; naive_solver.
  - intros [l Hs] k k'. simpl. apply option_ext. intros a.
    rewrite list_Get_entries by (by apply list_Delete_sorted). rewrite list_Delete_elem by done.
    rewrite <- (list_Get_entries l k') by done. case_decide; naive_solver.
Qed.
End Sorted.
Arguments tree : clear implicits.
