(* ===== verification/MinHeap.v ===== *)
(** * The expiry heap: [lib/backend/memory/minheap.go] and [item.go]

    The heap is a slice of pointers to items that the tree holds too; an item
    keeps its position in the slice.  [heap_Push], [heap_Pop] and [heap_Remove]
    are those of [container/heap].  An index out of range is the error
    [index_panic], so that a theorem about a success is also one about the
    absence of a panic. *)

From S2P Require Import Prelude GoStrings Types Key Backend.

(** A [*btreeItem], and what it points to. *)
Abbreviation ptr := positive.

Record btreeItem := {
  bi_Item : Item;
  bi_index : Z;
}.

(** [time.Time.Unix]; the zero time is that of year 1. *)
Definition Unix (t : option time) : Z :=
  match t with Some t => t / Second | None => -62135596800 end.

Record minHeap := {
  mh_arr : list ptr;
  mh_mem : gmap ptr btreeItem;   (* the items in memory, in the heap or not *)
}.

Definition index_panic : error := Error KOther "index out of range" [] [].

(** Slice and pointer reads. *)
Definition load {S A} (o : S -> option A) : M S A := fun s =>
  match o s with Some a => (s, Ok a) | None => (s, Err index_panic) end.

Definition mh_at (i : nat) : M minHeap ptr := load (fun h => mh_arr h !! i).
Definition deref (p : ptr) : M minHeap btreeItem := load (fun h => mh_mem h !! p).

Definition with_index (x : btreeItem) (i : Z) : btreeItem := {| bi_Item := bi_Item x; bi_index := i |}.

(** [mh[i].index = j] *)
Definition set_index (p : ptr) (i : Z) : M minHeap unit :=
  let* x := deref p in
  mmodify (fun h => {| mh_arr := mh_arr h; mh_mem := <[p := with_index x i]> (mh_mem h) |}).

Definition set_arr (f : list ptr -> list ptr) : M minHeap unit :=
  mmodify (fun h => {| mh_arr := f (mh_arr h); mh_mem := mh_mem h |}).

(** ** [heap.Interface] *)

Definition mh_Len (h : minHeap) : nat := length (mh_arr h).

Definition mh_Less (i j : nat) : M minHeap bool :=
  let* p := mh_at i in let* q := mh_at j in
  let* x := deref p in let* y := deref q in
  mret (Unix (i_Expires (bi_Item x)) <? Unix (i_Expires (bi_Item y))).

Definition mh_Swap (i j : nat) : M minHeap unit :=
  let* p := mh_at i in let* q := mh_at j in
  do* set_arr (fun arr => <[j := p]> (<[i := q]> arr));
  do* set_index q (Z.of_nat i);
  set_index p (Z.of_nat j).

Definition mh_Push (p : ptr) : M minHeap unit :=
  let* n := mget mh_Len in
  do* set_index p (Z.of_nat n);
  set_arr (fun arr => arr ++ [p])%list.

Definition mh_Pop : M minHeap ptr :=
  let* n := mget mh_Len in
  let* p := mh_at (n - 1) in
  do* set_index p (-1);
  do* set_arr (take (n - 1));
  mret p.

(** ** [container/heap] *)

Definition parent (i : nat) : nat := (i - 1) / 2.

(** Each round moves to the parent, so [j] rounds reach the root. *)
Fixpoint heap_up (fuel : nat) (j : nat) : M minHeap unit :=
  match fuel with
  | O => mret tt
  | S fuel' =>
      let i := parent j in
      let* less := if (i =? j)%nat then mret false else mh_Less j i in
      if negb less then mret tt
      else do* mh_Swap i j; heap_up fuel' i
  end.

(** The smaller child of [i], whose first child [j1] is below [n]. *)
Definition heap_child (j1 n : nat) : M minHeap nat :=
  let j2 := (j1 + 1)%nat in
  let* less := if (j2 <? n)%nat then mh_Less j2 j1 else mret false in
  mret (if less then j2 else j1).

(** Each round moves to a child, so [n] rounds reach a leaf. *)
Fixpoint heap_down (fuel : nat) (i n : nat) : M minHeap nat :=
  match fuel with
  | O => mret i
  | S fuel' =>
      let j1 := (2 * i + 1)%nat in
      if (n <=? j1)%nat then mret i
      else
        let* j := heap_child j1 n in
        let* less := mh_Less j i in
        if negb less then mret i
        else do* mh_Swap i j; heap_down fuel' j n
  end.

Definition heap_Push (p : ptr) : M minHeap unit :=
  do* mh_Push p;
  let* n := mget mh_Len in
  heap_up n (n - 1).

Definition heap_Pop : M minHeap ptr :=
  let* n := mget (fun h => (mh_Len h - 1)%nat) in
  do* mh_Swap 0 n;
  do* heap_down n 0 n;
  mh_Pop.

Definition heap_Remove (i : nat) : M minHeap ptr :=
  let* n := mget (fun h => (mh_Len h - 1)%nat) in
  do* if (n =? i)%nat then mret tt
      else
        do* mh_Swap i n;
        let* i' := heap_down n i n in
        if (i <? i')%nat then mret tt else heap_up (S i) i;
  mh_Pop.

(** ** [minheap.go] *)

Definition PushEl (el : ptr) : M minHeap unit := heap_Push el.
Definition PopEl : M minHeap ptr := heap_Pop.
Definition PeekEl : M minHeap ptr := mh_at 0.
Definition RemoveEl (el : ptr) : M minHeap ptr :=
  let* x := deref el in
  deny_if bi_index x <? 0 with index_panic;
  heap_Remove (Z.to_nat (bi_index x)).
Definition newMinHeap : list ptr := [].

(** ** Properties

    [items] is what the memory holds, apart from the positions.  [linked] says
    that positions and slice agree, and [prio] is what the heap is ordered by. *)

Definition items (h : minHeap) : gmap ptr Item := bi_Item <$> mh_mem h.
Definition heap_size (h : minHeap) : nat := length (mh_arr h).

Definition prio (h : minHeap) (i : nat) : option Z :=
  p ← mh_arr h !! i; (fun it => Unix (i_Expires it)) <$> items h !! p.

Record linked (h : minHeap) : Prop := {
  linked_mem i p : mh_arr h !! i = Some p ->
    exists x, mh_mem h !! p = Some x /\ bi_index x = Z.of_nat i;
  linked_arr p x : mh_mem h !! p = Some x -> 0 <= bi_index x ->
    mh_arr h !! Z.to_nat (bi_index x) = Some p;
}.

(** What moving items around keeps: the items, which are in the heap, and the
    positions from [n] on. *)
Record shuffled (n : nat) (h h' : minHeap) : Prop := {
  shuffled_linked : linked h -> linked h';
  shuffled_items : items h' = items h;
  shuffled_size : heap_size h' = heap_size h;
  shuffled_elem p : p ∈ mh_arr h' <-> p ∈ mh_arr h;
  shuffled_from k : (n <= k)%nat -> mh_arr h' !! k = mh_arr h !! k;
}.

#[export] Instance shuffled_preorder n : PreOrder (shuffled n).
Proof.
  split; [by intros h; split|]. intros h1 h2 h3 H1 H2. split.
  - intros H. by apply H2, H1.
  - by rewrite (shuffled_items _ _ _ H2), (shuffled_items _ _ _ H1).
  - by rewrite (shuffled_size _ _ _ H2), (shuffled_size _ _ _ H1).
  - intros p. by rewrite (shuffled_elem _ _ _ H2), (shuffled_elem _ _ _ H1).
  - intros k Hk. by rewrite (shuffled_from _ _ _ H2), (shuffled_from _ _ _ H1).
Qed.

Definition hle (h : minHeap) (i k : nat) : Prop :=
  forall a b, prio h i = Some a -> prio h k = Some b -> a <= b.

(** The first [n] positions are ordered, but for those in [except]. *)
Definition ordered (n : nat) (except : nat -> Prop) (h : minHeap) : Prop :=
  forall k, (0 < k < n)%nat -> ~ except k -> hle h (parent k) k.

(** The parent of [i] is ordered before the children of [i]. *)
Definition bridged (n : nat) (i : nat) (h : minHeap) : Prop :=
  forall k, (0 < i)%nat -> (0 < k < n)%nat -> parent k = i -> hle h (parent i) k.

Lemma linked_inj h i j p :
  linked h -> mh_arr h !! i = Some p -> mh_arr h !! j = Some p -> i = j.
Proof.
  intros H Hi Hj. apply (linked_mem _ H) in Hi as (x & Hx & Ei), Hj as (y & Hy & Ej).
  simplify_eq. lia.
Qed.

Lemma linked_at h i : linked h -> (i < heap_size h)%nat ->
  exists p x, mh_arr h !! i = Some p /\ mh_mem h !! p = Some x /\ bi_index x = Z.of_nat i.
Proof.
  intros H [p Hp]%lookup_lt_is_Some_2. destruct (linked_mem _ H _ _ Hp) as (x & ? & ?). eauto.
Qed.

Lemma prio_at h i p x :
  mh_arr h !! i = Some p -> mh_mem h !! p = Some x -> prio h i = Some (Unix (i_Expires (bi_Item x))).
Proof. intros Hp Hx. unfold prio, items. rewrite Hp. simpl. by rewrite lookup_fmap, Hx. Qed.

Lemma set_index_eq p x i h : mh_mem h !! p = Some x ->
  set_index p i h = ({| mh_arr := mh_arr h; mh_mem := <[p := with_index x i]> (mh_mem h) |}, Ok tt).
Proof. intros E. unfold set_index, mthen, deref, load. by rewrite E. Qed.

Lemma items_set h p x i arr : mh_mem h !! p = Some x ->
  items {| mh_arr := arr; mh_mem := <[p := with_index x i]> (mh_mem h) |} = items h.
Proof.
  intros E. unfold items. simpl. rewrite fmap_insert. apply insert_id. by rewrite lookup_fmap, E.
Qed.

(** Both tests below never fail in bounds. *)
Lemma mh_Less_spec h i j : linked h -> (i < heap_size h)%nat -> (j < heap_size h)%nat ->
  exists b, mh_Less i j h = (h, Ok b) /\ (b = true -> hle h i j) /\ (b = false -> hle h j i).
Proof.
  intros H Hi Hj. destruct (linked_at h i) as (p & x & Hp & Hx & _), (linked_at h j) as (q & y & Hq & Hy & _);
    [done..|].
  eexists. split.
  - unfold mh_Less, mthen, mh_at, deref, load. by rewrite Hp, Hq, Hx, Hy.
  - unfold hle. rewrite (prio_at _ _ _ _ Hp Hx), (prio_at _ _ _ _ Hq Hy). split; intros Hb a b [= <-] [= <-].
    + apply Z.ltb_lt in Hb. lia.
    + apply Z.ltb_ge in Hb. lia.
Qed.

(** A swap exchanges the two positions and what they are ordered by. *)
Lemma mh_Swap_spec h i j : linked h -> (i < heap_size h)%nat -> (j < heap_size h)%nat ->
  exists h', mh_Swap i j h = (h', Ok tt) /\ linked h' /\ items h' = items h /\
    heap_size h' = heap_size h /\ (forall p, p ∈ mh_arr h' <-> p ∈ mh_arr h) /\
    mh_arr h' !! j = mh_arr h !! i /\ mh_arr h' !! i = mh_arr h !! j /\
    (forall k, k <> i -> k <> j -> mh_arr h' !! k = mh_arr h !! k).
Proof.
  intros H Hi Hj. destruct (linked_at h i) as (p & x & Hp & Hx & Ix), (linked_at h j) as (q & y & Hq & Hy & Iy);
    [done..|].
  set (arr := <[j:=p]> (<[i:=q]> (mh_arr h))).
  assert (Hlook : arr !! j = Some p /\ arr !! i = Some q /\ forall k, k <> i -> k <> j -> arr !! k = mh_arr h !! k).
  { unfold arr, heap_size in *. split; [apply list_lookup_insert_eq; rewrite length_insert; lia|]. split.
    - destruct (decide (i = j)) as [->|]; [|rewrite list_lookup_insert_ne by done; by apply list_lookup_insert_eq].
      rewrite list_lookup_insert_eq by (rewrite length_insert; lia). congruence.
    - intros k Hki Hkj. by rewrite !list_lookup_insert_ne. }
  destruct Hlook as (Lj & Li & Lk).
  set (h1 := {| mh_arr := arr; mh_mem := <[q := with_index y (Z.of_nat i)]> (mh_mem h) |}).
  assert (exists x', mh_mem h1 !! p = Some x' /\ bi_Item x' = bi_Item x) as (x' & Hx' & Ex').
  { simpl. destruct (decide (p = q)) as [->|]; [rewrite lookup_insert_eq; simplify_eq; eauto|].
    rewrite lookup_insert_ne by done. eauto. }
  exists {| mh_arr := arr; mh_mem := <[p := with_index x' (Z.of_nat j)]> (mh_mem h1) |}.
  split; [|split; [|split; [|split; [|split; [|rewrite Hp, Hq; by split_and!]]]]].
  - unfold mh_Swap, mthen, mh_at, load. rewrite Hp, Hq. unfold set_arr, mmodify.
    rewrite (set_index_eq q y) by done. by rewrite (set_index_eq p x').
  - split; simpl.
    + intros k r Hk. destruct (decide (r = p)) as [->|Hrp].
      * rewrite lookup_insert_eq. eexists. split; [done|]. simpl.
        destruct (decide (k = j)) as [->|]; [done|]. destruct (decide (k = i)) as [->|].
        -- assert (p = q) as -> by congruence. assert (i = j) by by eapply linked_inj. lia.
        -- rewrite Lk in Hk by done. assert (k = i) by by eapply linked_inj. done.
      * rewrite lookup_insert_ne by done. destruct (decide (r = q)) as [->|Hrq].
        -- rewrite lookup_insert_eq. eexists. split; [done|]. simpl.
           destruct (decide (k = i)) as [->|]; [done|]. destruct (decide (k = j)) as [->|]; [congruence|].
           rewrite Lk in Hk by done. assert (k = j) by by eapply linked_inj. done.
        -- rewrite lookup_insert_ne by done. apply (linked_mem _ H).
           rewrite <- Lk; [done|congruence..].
    + intros r z. destruct (decide (r = p)) as [->|Hrp].
      * rewrite lookup_insert_eq. intros [= <-] _. simpl. by rewrite Nat2Z.id.
      * rewrite lookup_insert_ne by done. destruct (decide (r = q)) as [->|Hrq].
        -- rewrite lookup_insert_eq. intros [= <-] _. simpl. by rewrite Nat2Z.id.
        -- rewrite lookup_insert_ne by done. intros Hz Hpos. pose proof (linked_arr _ H _ _ Hz Hpos).
           rewrite Lk; [done|congruence..].
  - erewrite items_set by exact Hx'. by apply items_set.
  - unfold heap_size. simpl. unfold arr. by rewrite !length_insert.
  - intros r. simpl. rewrite !list_elem_of_lookup. split; intros [k Hk].
    + destruct (decide (k = j)) as [->|]; [exists i; congruence|].
      destruct (decide (k = i)) as [->|]; [exists j; congruence|]. exists k. by rewrite <- Lk.
    + destruct (decide (k = j)) as [->|]; [exists i; congruence|].
      destruct (decide (k = i)) as [->|]; [exists j; congruence|]. exists k. by rewrite Lk.
Qed.

Lemma mh_Swap_shuffled n h i j : linked h -> (n <= heap_size h)%nat -> (i < n)%nat -> (j < n)%nat ->
  exists h', mh_Swap i j h = (h', Ok tt) /\ shuffled n h h' /\
    prio h' i = prio h j /\ prio h' j = prio h i /\
    (forall k, k <> i -> k <> j -> prio h' k = prio h k).
Proof.
  intros H Hn Hi Hj. destruct (mh_Swap_spec h i j H) as (h' & E & Hl & Hit & Hs & Hin & Lj & Li & Lk); [lia..|].
  exists h'. split; [done|]. split; [split; auto; intros k Hk; apply Lk; lia|].
  unfold prio. rewrite Hit, Lj, Li. split_and!; [done..|]. intros k Hki Hkj. by rewrite Lk.
Qed.

Lemma parent_cases k : (0 < k)%nat -> k = (2 * parent k + 1)%nat \/ k = (2 * parent k + 2)%nat.
Proof.
  intros Hk. unfold parent. pose proof (Nat.div_mod_eq (k - 1) 2). pose proof (Nat.mod_upper_bound (k - 1) 2). lia.
Qed.

Lemma parent_children i k : (0 < k)%nat -> parent k = i <-> k = (2 * i + 1)%nat \/ k = (2 * i + 2)%nat.
Proof. intros Hk. pose proof (parent_cases k Hk). lia. Qed.

Lemma parent_zero : parent 0 = 0%nat.
Proof. done. Qed.

Lemma hle_trans h i j k : (exists a, prio h j = Some a) -> hle h i j -> hle h j k -> hle h i k.
Proof. intros [b Hb] H1 H2 a c Ha Hc. specialize (H1 _ _ Ha Hb). specialize (H2 _ _ Hb Hc). lia. Qed.

Lemma prio_some h i : linked h -> (i < heap_size h)%nat -> exists a, prio h i = Some a.
Proof. intros H Hi. destruct (linked_at h i H Hi) as (p & x & Hp & Hx & _). by erewrite prio_at by done; eauto. Qed.

(** Sifting up repairs the one position that may be smaller than its parent. *)
Lemma heap_up_spec n fuel : forall j h, linked h -> (n <= heap_size h)%nat -> (j < n)%nat -> (j <= fuel)%nat ->
  ordered n (fun k => k = j) h -> bridged n j h ->
  exists h', heap_up fuel j h = (h', Ok tt) /\ shuffled n h h' /\ ordered n (fun _ => False) h'.
Proof.
  induction fuel as [|fuel IH]; intros j h H Hn Hj Hf Ho Hb.
  - exists h. split; [done|]. split; [done|]. intros k Hk _. apply Ho; lia.
  - simpl. destruct (Nat.eqb_spec (parent j) j) as [Ej|Ej].
    { exists h. split; [done|]. split; [done|]. intros k Hk _. apply Ho; [done|].
      intros ->. pose proof (parent_cases j). lia. }
    assert (0 < j)%nat as Hj0 by (destruct j; [done|lia]).
    pose proof (parent_cases j Hj0) as Hpj.
    destruct (mh_Less_spec h j (parent j)) as (b & El & Ht & Hf'); [done|lia..|].
    unfold mthen. rewrite El. destruct b; simpl.
    2: { exists h. split; [done|]. split; [done|]. intros k Hk _.
         destruct (decide (k = j)) as [->|]; [auto|by apply Ho]. }
    specialize (Ht eq_refl).
    destruct (mh_Swap_shuffled n h (parent j) j) as (h1 & Es & Hsh & Pi & Pj & Pk); [done|lia..|].
    rewrite Es. destruct (IH (parent j) h1) as (h' & E' & Hsh' & Ho').
    + by apply (shuffled_linked _ _ _ Hsh).
    + rewrite (shuffled_size _ _ _ Hsh). lia.
    + lia.
    + lia.
    + intros k Hk Hkj. unfold hle. destruct (decide (k = j)) as [->|Hne].
      { rewrite Pi, Pj. exact Ht. }
      destruct (decide (k = parent j)) as [->|Hkp]; [done|]. rewrite (Pk k) by done.
      destruct (decide (parent k = j)) as [Hpk|Hpk].
      { rewrite Hpk, Pj. apply Hb; [lia..|done]. }
      destruct (decide (parent k = parent j)) as [Hpk'|Hpk'].
      { rewrite Hpk', Pi. eapply hle_trans; [|exact Ht|rewrite <- Hpk'; by apply Ho].
        apply prio_some; [done|lia]. }
      rewrite Pk by done. by apply Ho.
    + intros k Hp0 Hk Hpk. unfold hle.
      pose proof (parent_cases (parent j) Hp0) as Hpp.
      assert (Hgp : hle h (parent (parent j)) (parent j)) by (apply Ho; lia).
      rewrite (Pk (parent (parent j))) by lia. destruct (decide (k = j)) as [->|Hne].
      { rewrite Pj. exact Hgp. }
      pose proof (parent_cases k). rewrite (Pk k) by lia.
      eapply hle_trans; [|exact Hgp|].
      * apply prio_some; [done|lia].
      * rewrite <- Hpk. apply Ho; lia.
    + exists h'. split; [done|]. split; [by transitivity h1|done].
Qed.

(** The chosen child is one of the two, and no larger than either. *)
Lemma heap_child_spec h i n : linked h -> (n <= heap_size h)%nat -> (2 * i + 1 < n)%nat ->
  exists j, heap_child (2 * i + 1) n h = (h, Ok j) /\ (0 < j < n)%nat /\ parent j = i /\
    (forall k, (0 < k < n)%nat -> parent k = i -> hle h j k).
Proof.
  intros H Hn Hi. unfold heap_child, mthen.
  assert (Hrefl : forall j, hle h j j) by (intros j a b; naive_solver lia).
  destruct (Nat.ltb_spec (2 * i + 1 + 1) n) as [Hlt|Hge].
  - destruct (mh_Less_spec h (2 * i + 1 + 1) (2 * i + 1)) as (b & -> & Ht & Hf); [done|lia..|].
    unfold mret. destruct b; eexists; (split; [done|]); (split; [lia|]);
      (split; [apply parent_children; lia|]); intros k Hk Hpk; apply parent_children in Hpk as [->| ->];
      try lia; auto; replace (2 * i + 2)%nat with (2 * i + 1 + 1)%nat by lia; auto.
  - unfold mret. exists (2 * i + 1)%nat. split; [done|]. split; [lia|]. split; [apply parent_children; lia|].
    intros k Hk Hpk. apply parent_children in Hpk as [->| ->]; [auto|lia|lia].
Qed.

(** Sifting down repairs the one position that may be larger than its
    children; the position is the result, and is [i] itself when nothing moved. *)
Lemma heap_down_spec n fuel : forall i h, linked h -> (n <= heap_size h)%nat -> (i < n)%nat -> (n <= i + fuel)%nat ->
  ordered n (fun k => k = i \/ parent k = i) h -> bridged n i h ->
  exists h' i', heap_down fuel i n h = (h', Ok i') /\ shuffled n h h' /\ (i <= i' < n)%nat /\
    ordered n (fun k => k = i /\ i' = i) h' /\ (i' = i -> h' = h).
Proof.
  induction fuel as [|fuel IH]; intros i h H Hn Hi Hf Ho Hb; [lia|].
  simpl heap_down. fold (2 * i)%nat. destruct (Nat.leb_spec n (2 * i + 1)) as [Hle|Hgt].
  { exists h, i. split; [done|]. split; [done|]. split; [lia|]. split; [|done].
    intros k Hk Hne. apply Ho; [done|]. intros [->|Hpk]; [naive_solver|].
    apply parent_children in Hpk; lia. }
  unfold mthen. destruct (heap_child_spec h i n) as (j & -> & Hj & Hpj & Hmin); [done..|].
  apply parent_children in Hpj as Hji; [|lia].
  destruct (mh_Less_spec h j i) as (b & -> & Ht & Hf'); [done|lia..|]. destruct b; cbn [negb]; cbv beta iota.
  2: { exists h, i. split; [done|]. split; [done|]. split; [lia|]. split; [|done].
       intros k Hk Hne. destruct (decide (parent k = i)) as [Hpk|Hpk].
       - rewrite Hpk. eapply hle_trans; [|by apply Hf'|by apply Hmin]. apply prio_some; [done|lia].
       - apply Ho; naive_solver. }
  specialize (Ht eq_refl).
  destruct (mh_Swap_shuffled n h i j) as (h1 & -> & Hsh & Pi & Pj & Pk); [done|lia..|].
  assert (Hoi : (0 < i)%nat -> hle h1 (parent i) i).
  { intros Hi0. pose proof (parent_cases i Hi0). unfold hle. rewrite Pi, Pk by lia. apply Hb; [done|lia|done]. }
  destruct (IH j h1) as (h' & i' & -> & Hsh' & Hi' & Ho' & Hsame).
  - by apply (shuffled_linked _ _ _ Hsh).
  - rewrite (shuffled_size _ _ _ Hsh). lia.
  - lia.
  - lia.
  - intros k Hk Hne. destruct (decide (k = i)) as [->|Hki]; [apply Hoi; lia|].
    assert (k <> j) by naive_solver. assert (parent k <> j) by naive_solver.
    unfold hle. rewrite (Pk k) by done. destruct (decide (parent k = i)) as [Hpk|Hpk].
    + rewrite Hpk, Pi. by apply Hmin.
    + rewrite Pk by done. apply Ho; naive_solver.
  - intros k _ Hk Hpk. rewrite Hpj. pose proof (parent_cases k). unfold hle.
    rewrite Pi, (Pk k) by lia. rewrite <- Hpk. apply Ho; lia.
  - exists h', i'. split; [done|]. split; [by transitivity h1|]. split; [lia|]. split.
    + intros k Hk Hne. destruct (decide (k = j /\ i' = j)) as [[-> ->]|Hkj]; [|by apply Ho'].
      rewrite Hsame by done. unfold hle. rewrite Hpj, Pi, Pj. exact Ht.
    + lia.
Qed.

(** ** The operations *)

Definition heap_wf (h : minHeap) : Prop := linked h /\ ordered (heap_size h) (fun _ => False) h.

Lemma prio_ext h h' i : items h' = items h -> mh_arr h' !! i = mh_arr h !! i -> prio h' i = prio h i.
Proof. intros Hi Ha. unfold prio. by rewrite Hi, Ha. Qed.

Lemma ordered_ext n P h h' :
  items h' = items h -> (forall i, (i < n)%nat -> mh_arr h' !! i = mh_arr h !! i) ->
  ordered n P h -> ordered n P h'.
Proof.
  intros Hi Ha Ho k Hk Hne. pose proof (parent_cases k). unfold hle.
  rewrite !(prio_ext h h') by (try done; apply Ha; lia). by apply Ho.
Qed.

(** The last position is given up. *)
Lemma mh_Pop_spec h n p : linked h -> heap_size h = S n -> ordered n (fun _ => False) h -> mh_arr h !! n = Some p ->
  exists h', mh_Pop h = (h', Ok p) /\ heap_wf h' /\ items h' = items h /\ heap_size h' = n /\
    (forall q, q ∈ mh_arr h' <-> q ∈ mh_arr h /\ q <> p).
Proof.
  intros H Hs Ho Hp. destruct (linked_mem _ H _ _ Hp) as (x & Hx & Ix).
  exists {| mh_arr := take n (mh_arr h); mh_mem := <[p := with_index x (-1)]> (mh_mem h) |}.
  assert (Hlen : mh_Len h = S n) by exact Hs.
  assert (Hit : items {| mh_arr := take n (mh_arr h); mh_mem := <[p := with_index x (-1)]> (mh_mem h) |} = items h)
    by (by apply items_set).
  assert (Htake : forall i, (i < n)%nat -> take n (mh_arr h) !! i = mh_arr h !! i)
    by (intros i Hi; by apply lookup_take_lt).
  assert (Hsz : length (take n (mh_arr h)) = n) by (unfold heap_size in *; rewrite length_take; lia).
  split; [|split; [split|split; [done|split; [exact Hsz|]]]].
  - unfold mh_Pop, mthen, mget, mh_at, load. rewrite Hlen. replace (S n - 1)%nat with n by lia.
    rewrite Hp. by rewrite (set_index_eq p x).
  - split; simpl.
    + intros k r Hk. apply lookup_take_Some in Hk as [Hk Hlt].
      rewrite lookup_insert_ne; [by apply (linked_mem _ H)|]. intros ->.
      assert (n = k) by by eapply linked_inj. lia.
    + intros r z. destruct (decide (p = r)) as [->|Hne].
      * rewrite lookup_insert_eq. intros [= <-]. simpl. lia.
      * rewrite lookup_insert_ne by done. intros Hz Hpos. pose proof (linked_arr _ H _ _ Hz Hpos) as Hr.
        rewrite lookup_take_lt; [done|]. apply lookup_lt_Some in Hr as Hlt. unfold heap_size in Hs.
        assert (Z.to_nat (bi_index z) <> n); [|lia]. intros E. rewrite E in Hr. congruence.
  - unfold heap_size. simpl. rewrite Hsz.
    apply (ordered_ext n _ h); [done|exact Htake|exact Ho].
  - intros q. simpl. rewrite !list_elem_of_lookup. split.
    + intros [k Hk]. apply lookup_take_Some in Hk as [Hk Hlt]. split; [eauto|]. intros ->.
      assert (n = k) by by eapply linked_inj. lia.
    + intros [[k Hk] Hne]. exists k. rewrite lookup_take_lt; [done|].
      apply lookup_lt_Some in Hk as Hlt. unfold heap_size in Hs. assert (k <> n); [congruence|lia].
Qed.

Lemma size_pos h i p : mh_arr h !! i = Some p -> (i < heap_size h)%nat.
Proof. apply lookup_lt_Some. Qed.

(** The root is replaced by the last element. *)
Lemma heap_Pop_spec h p : heap_wf h -> mh_arr h !! 0%nat = Some p ->
  exists h', heap_Pop h = (h', Ok p) /\ heap_wf h' /\ items h' = items h /\ S (heap_size h') = heap_size h /\
    (forall q, q ∈ mh_arr h' <-> q ∈ mh_arr h /\ q <> p).
Proof.
  intros [H Ho] Hp. pose proof (size_pos _ _ _ Hp) as Hpos. set (n := (heap_size h - 1)%nat).
  destruct (mh_Swap_spec h 0 n H) as (h1 & Es & H1 & Hi1 & Hs1 & Hin1 & Ln & L0 & Lk); [lia..|].
  assert (Ho1 : ordered n (fun k => k = 0%nat \/ parent k = 0%nat) h1).
  { intros k Hk Hne. pose proof (parent_cases k). unfold hle.
    rewrite !(prio_ext h h1) by (try done; apply Lk; lia). apply Ho; [lia|naive_solver]. }
  assert (exists h2 i', heap_down n 0 n h1 = (h2, Ok i') /\ shuffled n h1 h2 /\ ordered n (fun _ => False) h2)
    as (h2 & i' & Ed & Hsh & Ho2).
  { destruct (decide (n = 0%nat)) as [En|En].
    - rewrite En. exists h1, 0%nat. split; [done|]. split; [done|]. intros k Hk. lia.
    - destruct (heap_down_spec n n 0 h1) as (h2 & i' & ? & ? & ? & Ho' & _); [done|lia..|done| |].
      + intros k Hk. lia.
      + exists h2, i'. split_and!; [done..|]. intros k Hk _. apply Ho'; [done|lia]. }
  destruct (mh_Pop_spec h2 n p) as (h3 & Ep & Hwf & Hi3 & Hs3 & Hin3).
  - by apply (shuffled_linked _ _ _ Hsh).
  - rewrite (shuffled_size _ _ _ Hsh), Hs1. lia.
  - done.
  - rewrite (shuffled_from _ _ _ Hsh), Ln by lia. done.
  - exists h3. split; [|split; [done|split; [|split; [lia|]]]].
    + unfold heap_Pop, mthen, mget. fold (heap_size h). change (mh_Len h) with (heap_size h). fold n.
      by rewrite Es, Ed.
    + by rewrite Hi3, (shuffled_items _ _ _ Hsh).
    + intros q. by rewrite Hin3, (shuffled_elem _ _ _ Hsh), Hin1.
Qed.

Lemma ordered_bridged n i h : linked h -> (n <= heap_size h)%nat -> ordered n (fun _ => False) h -> bridged n i h.
Proof.
  intros H Hn Ho k Hi Hk Hpk. pose proof (parent_cases k). eapply hle_trans.
  - apply (prio_some h i); [done|lia].
  - apply Ho; [lia|tauto].
  - rewrite <- Hpk. apply Ho; [lia|tauto].
Qed.

(** After the hole at [i] was filled with the last element, one of the two
    sifts repairs the order. *)
Lemma heap_fix_spec n i h : linked h -> (n <= heap_size h)%nat -> (i < n)%nat ->
  ordered n (fun k => k = i \/ parent k = i) h -> bridged n i h ->
  exists h' , (let* i' := heap_down n i n in if (i <? i')%nat then mret tt else heap_up (S i) i) h = (h', Ok tt) /\
    shuffled n h h' /\ ordered n (fun _ => False) h'.
Proof.
  intros H Hn Hi Ho Hb. unfold mthen.
  destruct (heap_down_spec n n i h) as (h2 & i' & -> & Hsh & Hi' & Ho2 & Hsame); [done|lia..|done|done|].
  destruct (Nat.ltb_spec i i') as [Hlt|Hge].
  - exists h2. split; [done|]. split; [done|]. intros k Hk _. apply Ho2; [done|lia].
  - assert (i' = i) as -> by lia. rewrite Hsame in * by done.
    destruct (heap_up_spec n (S i) i h) as (h3 & E & Hsh3 & Ho3); [done|lia..| |done|eauto].
    intros k Hk Hne. apply Ho2; naive_solver.
Qed.

Lemma heap_Remove_spec h i p : heap_wf h -> mh_arr h !! i = Some p ->
  exists h', heap_Remove i h = (h', Ok p) /\ heap_wf h' /\ items h' = items h /\
    (forall q, q ∈ mh_arr h' <-> q ∈ mh_arr h /\ q <> p).
Proof.
  intros [H Ho] Hp. pose proof (size_pos _ _ _ Hp) as Hpos. set (n := (heap_size h - 1)%nat).
  assert (Hlow : ordered n (fun _ => False) h) by (intros k Hk; apply Ho; lia).
  assert (exists h2, (if (n =? i)%nat then mret tt else
      do* mh_Swap i n; let* i' := heap_down n i n in if (i <? i')%nat then mret tt else heap_up (S i) i) h
      = (h2, Ok tt) /\ linked h2 /\ items h2 = items h /\ heap_size h2 = heap_size h /\
      (forall q, q ∈ mh_arr h2 <-> q ∈ mh_arr h) /\ mh_arr h2 !! n = Some p /\ ordered n (fun _ => False) h2)
    as (h2 & E & H2 & Hi2 & Hs2 & Hin2 & Ln2 & Ho2).
  { destruct (Nat.eqb_spec n i) as [En|En].
    { exists h. split_and!; [done..|congruence|done]. }
    destruct (mh_Swap_spec h i n H) as (h1 & Es & H1 & Hi1 & Hs1 & Hin1 & Ln & Li & Lk); [lia..|].
    destruct (heap_fix_spec n i h1) as (h2 & Ef & Hsh & Ho2); [done|lia..| | |].
    - intros k Hk Hne. pose proof (parent_cases k). unfold hle.
      rewrite !(prio_ext h h1) by (try done; apply Lk; lia || naive_solver). apply (Hlow k); [lia|tauto].
    - intros k Hi0 Hk Hpk. pose proof (parent_cases k). pose proof (parent_cases i Hi0). unfold hle.
      rewrite !(prio_ext h h1) by (try done; apply Lk; lia). apply (ordered_bridged n i h); [done|lia|done|lia..|done].
    - exists h2. unfold mthen at 1. rewrite Es. split; [exact Ef|]. split; [by apply (shuffled_linked _ _ _ Hsh)|].
      split; [by rewrite (shuffled_items _ _ _ Hsh)|]. split; [by rewrite (shuffled_size _ _ _ Hsh)|].
      split; [intros q; by rewrite (shuffled_elem _ _ _ Hsh)|]. split; [|done].
      by rewrite (shuffled_from _ _ _ Hsh), Ln by lia. }
  destruct (mh_Pop_spec h2 n p) as (h3 & Ep & Hwf & Hi3 & _ & Hin3); [done|lia|done|done|].
  exists h3. split; [|split; [done|split; [congruence|intros q; by rewrite Hin3, Hin2]]].
  unfold heap_Remove. unfold mthen at 1, mget. change (mh_Len h - 1)%nat with n. unfold mthen at 1. by rewrite E.
Qed.

Lemma RemoveEl_spec h p x : heap_wf h -> mh_mem h !! p = Some x -> 0 <= bi_index x ->
  exists h', RemoveEl p h = (h', Ok p) /\ heap_wf h' /\ items h' = items h /\
    (forall q, q ∈ mh_arr h' <-> q ∈ mh_arr h /\ q <> p).
Proof.
  intros Hwf Hx Hpos. destruct (heap_Remove_spec h (Z.to_nat (bi_index x)) p) as (h' & E & ?); [done| |].
  - by apply (linked_arr _ (proj1 Hwf)).
  - exists h'. split; [|done]. unfold RemoveEl, mthen, deref, load. rewrite Hx.
    by destruct (Z.ltb_spec (bi_index x) 0); [lia|].
Qed.

Lemma PushEl_spec h p x : heap_wf h -> mh_mem h !! p = Some x -> bi_index x < 0 ->
  exists h', PushEl p h = (h', Ok tt) /\ heap_wf h' /\ items h' = items h /\
    (forall q, q ∈ mh_arr h' <-> q ∈ mh_arr h \/ q = p).
Proof.
  intros [H Ho] Hx Hneg. set (n := heap_size h).
  set (h1 := {| mh_arr := (mh_arr h ++ [p])%list; mh_mem := <[p := with_index x (Z.of_nat n)]> (mh_mem h) |}).
  assert (Hnew : p ∉ mh_arr h).
  { intros [i Hi]%list_elem_of_lookup. apply (linked_mem _ H) in Hi as (y & Hy & Iy). simplify_eq. lia. }
  assert (Hlast : mh_arr h1 !! n = Some p) by (simpl; rewrite lookup_app_r by done; unfold n, heap_size; by rewrite Nat.sub_diag).
  assert (Hold : forall i, (i < n)%nat -> mh_arr h1 !! i = mh_arr h !! i) by (intros i Hi; simpl; by rewrite lookup_app_l).
  assert (Hi1 : items h1 = items h) by (by apply items_set).
  assert (Hs1 : heap_size h1 = S n) by (unfold heap_size; simpl; rewrite length_app; simpl; unfold n, heap_size; lia).
  assert (H1 : linked h1).
  { split.
    - intros k r Hk. destruct (decide (k = n)) as [->|Hkn].
      + simplify_eq. simpl. rewrite lookup_insert_eq. eauto.
      + apply size_pos in Hk as Hlt. rewrite Hold in Hk by lia. simpl.
        rewrite lookup_insert_ne; [by apply (linked_mem _ H)|]. intros ->. exact (Hnew (list_elem_of_lookup_2 _ _ _ Hk)).
    - intros r z. simpl. destruct (decide (p = r)) as [->|Hne].
      + rewrite lookup_insert_eq. intros [= <-] _. simpl. by rewrite Nat2Z.id.
      + rewrite lookup_insert_ne by done. intros Hz Hpos. pose proof (linked_arr _ H _ _ Hz Hpos) as Hr.
        rewrite lookup_app_l; [done|]. by apply lookup_lt_Some in Hr. }
  destruct (heap_up_spec (S n) (S n) n h1) as (h2 & E & Hsh & Ho2); [done|lia..| | |].
  - intros k Hk Hkn. apply (ordered_ext n (fun _ => False) h h1); [done|done|done|lia|tauto].
  - intros k Hn0 Hk Hpk. pose proof (parent_cases k). lia.
  - exists h2. split; [|split; [split|split]].
    + unfold PushEl, heap_Push, mh_Push, mthen, mget. rewrite (set_index_eq p x) by done.
      unfold set_arr, mmodify. cbn [mh_arr mh_mem]. change (mh_Len h) with n. fold h1.
      change (mh_Len h1) with (heap_size h1). rewrite Hs1. by replace (S n - 1)%nat with n by lia.
    + by apply (shuffled_linked _ _ _ Hsh).
    + by rewrite (shuffled_size _ _ _ Hsh), Hs1.
    + by rewrite (shuffled_items _ _ _ Hsh).
    + intros q. rewrite (shuffled_elem _ _ _ Hsh). simpl. rewrite elem_of_app, list_elem_of_singleton. done.
Qed.

(** The root is a minimum. *)
Lemma root_min h : heap_wf h -> forall i a b, prio h 0 = Some a -> prio h i = Some b -> a <= b.
Proof.
  intros [H Ho] i. induction (lt_wf i) as [i _ IH]. intros a b Ha Hb. destruct (decide (i = 0%nat)) as [->|Hi].
  { simplify_eq. lia. }
  pose proof (parent_cases i). assert (i < heap_size h)%nat.
  { unfold prio in Hb. destruct (mh_arr h !! i) eqn:E; [by eapply size_pos|done]. }
  destruct (prio_some h (parent i)) as [c Hc]; [done|lia|].
  assert (a <= c) by (eapply (IH (parent i)); [lia|done..]).
  assert (c <= b) by (eapply Ho; [|tauto|done..]; lia). lia.
Qed.
