(* ===== verification/Memory.v ===== *)
(** * The memory backend: [lib/backend/memory] and [lib/backend/atomicwrite.go]

    Items live in memory cells that a B-tree orders by key and a heap by
    expiry.  Every operation first drops what has expired, and hands each
    change to the event buffer.  The B-tree is the interface [BTree]; the
    event buffer is the list of the events it was given. *)

From stdpp Require Import pretty.
From S2P Require Import Prelude GoStrings Types Key Backend MinHeap BTree.
#[local] Open Scope Z_scope.

(** [uuid.NewString], the [n]th of a process. *)
Class Revisions := CreateRevision : nat -> string.

(** ** Events *)

Inductive OpType := OpPut | OpDelete.

Record Event := {
  ev_Type : OpType;
  ev_Item : Item;
}.

Definition keyItem (key : Key) : Item :=
  {| i_Key := key; i_Value := ""; i_Expires := None; i_Revision := "" |}.
Definition with_rev (rev : string) (i : Item) : Item :=
  {| i_Key := i_Key i; i_Value := i_Value i; i_Expires := i_Expires i; i_Revision := rev |}.
Definition with_key (key : Key) (i : Item) : Item :=
  {| i_Key := key; i_Value := i_Value i; i_Expires := i_Expires i; i_Revision := i_Revision i |}.
Definition with_expires (t : option time) (i : Item) : Item :=
  {| i_Key := i_Key i; i_Value := i_Value i; i_Expires := t; i_Revision := i_Revision i |}.

Definition putEvent (i : Item) : Event := {| ev_Type := OpPut; ev_Item := i |}.
Definition deleteEvent (i : Item) : Event := {| ev_Type := OpDelete; ev_Item := i |}.

Record Lease := {
  ls_Key : Key;
  ls_Revision : string;
}.
Definition NewLease (i : Item) : Lease := {| ls_Key := i_Key i; ls_Revision := i_Revision i |}.

(** ** Conditional actions: [atomicwrite.go]

    The kinds are numbers, and 0 is no kind. *)

Definition KindWhatever : Z := 1.
Definition KindExists : Z := 2.
Definition KindNotExists : Z := 3.
Definition KindRevision : Z := 4.

Definition KindNop : Z := 1.
Definition KindPut : Z := 2.
Definition KindDelete : Z := 3.

Record Condition := {
  cond_Kind : Z;
  cond_Revision : string;
}.
Record Action := {
  act_Kind : Z;
  act_Item : Item;
}.
Record ConditionalAction := {
  ca_Key : Key;
  ca_Condition : Condition;
  ca_Action : Action;
}.

Definition ErrConditionFailed : error := Error KCompareFailed
  "condition failed, one or more resources were concurrently created|modified|deleted; please reload the current state and try again" [] [].
Definition ErrIncorrectRevision : error := Error KCompareFailed
  "resource revision does not match, it may have been concurrently created|modified|deleted; please work from the latest state, or use --force to overwrite" [] [].
Definition CompareFailed (fmt : string) (args : list string) : error := Error KCompareFailed fmt args [].

Definition in_kinds (lo hi x : Z) : bool := (lo <=? x) && (x <=? hi).

Definition condition_Check (c : Condition) : result unit :=
  fail_if negb (in_kinds KindWhatever KindRevision (cond_Kind c))
    with BadParameter "unexpected condition kind %v" [pretty (cond_Kind c)];
  Ok tt.

Definition action_Check (a : Action) : result unit :=
  if (act_Kind a =? KindNop) || (act_Kind a =? KindDelete) then Ok tt
  else if act_Kind a =? KindPut then
    fail_if len (i_Value (act_Item a)) =? 0
      with BadParameter "missing required put parameter Item.Value" [];
    Ok tt
  else Err (BadParameter "unexpected action kind %v" [pretty (act_Kind a)]).

Definition action_IsWrite (a : Action) : bool := (act_Kind a =? KindPut) || (act_Kind a =? KindDelete).

Definition conditionalAction_Check (c : ConditionalAction) : result unit :=
  let key := KeyString (ca_Key c) in
  fail_if len (k_s (ca_Key c)) =? 0
    with BadParameter "conditional action missing required parameter 'Key'" [];
  fail_if cond_Kind (ca_Condition c) =? 0
    with BadParameter "conditional action for %q missing required parameter 'Condition'" [key];
  fail_if act_Kind (ca_Action c) =? 0
    with BadParameter "conditional action for %q missing required parameter 'Action'" [key];
  check rmap_err (fun e => BadParameter "conditional action for key %q contains malformed condition: %v"
                             (key :: e_fmt e :: e_args e)) (condition_Check (ca_Condition c));
  check rmap_err (fun e => BadParameter "conditional action for key %q contains malformed action: %v"
                             (key :: e_fmt e :: e_args e)) (action_Check (ca_Action c));
  fail_if (cond_Kind (ca_Condition c) =? KindWhatever) && (act_Kind (ca_Action c) =? KindNop)
    with BadParameter "conditional action for %q is ineffectual (Condition=Whatever,Action=Nop)" [key];
  Ok tt.

Definition MaxAtomicWriteSize : Z := 64.

Fixpoint validate_loop (keys : gset string) (containsWrite : bool) (condacts : list ConditionalAction)
    : result bool :=
  match condacts with
  | [] => Ok containsWrite
  | ca :: condacts' =>
      check (conditionalAction_Check ca);
      let key := KeyString (ca_Key ca) in
      fail_if bool_decide (key ∈ keys) with BadParameter "multiple conditional actions target key %q" [key];
      validate_loop ({[key]} ∪ keys) (containsWrite || action_IsWrite (ca_Action ca)) condacts'
  end.

Definition ValidateAtomicWrite (condacts : list ConditionalAction) : result unit :=
  let n := Z.of_nat (length condacts) in
  fail_if MaxAtomicWriteSize <? n
    with BadParameter "too many conditional actions for atomic application (len=%d, max=%d)"
           [pretty n; pretty MaxAtomicWriteSize];
  fail_if n =? 0 with BadParameter "empty conditional action list" [];
  let? containsWrite := validate_loop ∅ false condacts in
  fail_if negb containsWrite with BadParameter "no conditional actions contain writes" [];
  Ok tt.

(** ** The backend: [memory.go] *)

Record Memory (T : Type) := mkMemory {
  m_tree : T;
  m_heap : minHeap;
  m_next : ptr;          (* the next free cell *)
  m_now : time;
  m_Mirror : bool;
  m_EventsOff : bool;
  m_revisions : nat;     (* how many revisions were made *)
  m_buf : list Event;
}.
Arguments mkMemory {T} _ _ _ _ _ _ _ _.
Arguments m_tree {T} _.
Arguments m_heap {T} _.
Arguments m_next {T} _.
Arguments m_now {T} _.
Arguments m_Mirror {T} _.
Arguments m_EventsOff {T} _.
Arguments m_revisions {T} _.
Arguments m_buf {T} _.

Definition zeroTime : time := -62135596800 * Second.
(** [now.Before(t)] *)
Definition Before (now : time) (t : option time) : bool := now <? default zeroTime t.

Section Memory.
Context {T : Type} `{BTree ptr T} `{Revisions}.
#[local] Abbreviation MM := (M (Memory T)).

Definition set_tree (f : T -> T) (m : Memory T) : Memory T :=
  mkMemory (f (m_tree m)) (m_heap m) (m_next m) (m_now m) (m_Mirror m) (m_EventsOff m) (m_revisions m) (m_buf m).
Definition set_heap (h : minHeap) (m : Memory T) : Memory T :=
  mkMemory (m_tree m) h (m_next m) (m_now m) (m_Mirror m) (m_EventsOff m) (m_revisions m) (m_buf m).

Definition onHeap {A} (f : M minHeap A) : MM A := fun m =>
  let '(h, r) := f (m_heap m) in (set_heap h m, r).

(** A new cell. *)
Definition alloc (x : btreeItem) : MM ptr := fun m =>
  let p := m_next m in
  (mkMemory (m_tree m) {| mh_arr := mh_arr (m_heap m); mh_mem := <[p := x]> (mh_mem (m_heap m)) |}
     (Pos.succ p) (m_now m) (m_Mirror m) (m_EventsOff m) (m_revisions m) (m_buf m), Ok p).

Definition createRevision : MM string := fun m =>
  (mkMemory (m_tree m) (m_heap m) (m_next m) (m_now m) (m_Mirror m) (m_EventsOff m) (S (m_revisions m)) (m_buf m),
   Ok (CreateRevision (m_revisions m))).

(** [if !m.EventsOff { m.buf.Emit(event) }] *)
Definition emit (e : Event) : MM unit :=
  mmodify (fun m => if m_EventsOff m then m
    else mkMemory (m_tree m) (m_heap m) (m_next m) (m_now m) (m_Mirror m) (m_EventsOff m) (m_revisions m)
           (m_buf m ++ [e])%list).

Definition tree_Get (key : Key) : MM (option ptr) := mget (fun m => bt_Get (m_tree m) (k_s key)).
Definition tree_Has (key : Key) : MM bool := mget (fun m => bool_decide (is_Some (bt_Get (m_tree m) (k_s key)))).

(** ** Expiry *)

Fixpoint removeExpired_loop (fuel : nat) (now : time) (removed : Z) : MM Z :=
  match fuel with
  | O => mret removed
  | S fuel' =>
      let* n := mget (fun m => mh_Len (m_heap m)) in
      if (n =? 0)%nat then mret removed
      else
        let* p := onHeap PeekEl in
        let* x := onHeap (deref p) in
        let item := bi_Item x in
        if Before now (i_Expires item) then mret removed
        else
          do* onHeap PopEl;
          do* mmodify (set_tree (fun t => bt_Delete t (k_s (i_Key item))));
          do* emit (deleteEvent (keyItem (i_Key item)));
          removeExpired_loop fuel' now (removed + 1)
  end.

(** One round per item of the heap is enough. *)
Definition removeExpired : MM Z :=
  let* mirror := mget m_Mirror in
  if mirror then mret 0
  else
    let* now := mget m_now in
    let* n := mget (fun m => mh_Len (m_heap m)) in
    removeExpired_loop n now 0.

(** ** [processEvent] *)

Definition processPut (i : Item) : MM unit :=
  let* item := alloc {| bi_Item := i; bi_index := -1 |} in
  let* existing := tree_Get (i_Key i) in
  do* match existing with
      | Some p =>
          let* x := onHeap (deref p) in
          if 0 <=? bi_index x then let* _ := onHeap (RemoveEl p) in mret tt else mret tt
      | None => mret tt
      end;
  do* match i_Expires i with Some _ => onHeap (PushEl item) | None => mret tt end;
  mmodify (set_tree (fun t => bt_ReplaceOrInsert t (k_s (i_Key i)) item)).

Definition processDelete (i : Item) : MM unit :=
  let* found := tree_Get (i_Key i) in
  match found with
  | None => mret tt
  | Some p =>
      do* mmodify (set_tree (fun t => bt_Delete t (k_s (i_Key i))));
      let* x := onHeap (deref p) in
      if 0 <=? bi_index x then let* _ := onHeap (RemoveEl p) in mret tt else mret tt
  end.

Definition processEvent (event : Event) : MM unit :=
  match ev_Type event with
  | OpPut => processPut (ev_Item event)
  | OpDelete => processDelete (ev_Item event)
  end.

Definition publish (event : Event) : MM unit := do* processEvent event; emit event.

(** [if !m.Mirror { i.Revision = backend.CreateRevision() }] *)
Definition freshRevision (i : Item) : MM Item :=
  let* mirror := mget m_Mirror in
  if mirror then mret i else let* rev := createRevision in mret (with_rev rev i).

(** ** Operations *)

Definition missingKey : error := BadParameter "missing parameter key" [].
Definition notFound (key : Key) : error := NotFound "key %q is not found" [KeyString key].

Definition Create (i : Item) : MM Lease :=
  deny_if IsZero (i_Key i) with missingKey;
  do* removeExpired;
  let* has := tree_Has (i_Key i) in
  deny_if has with AlreadyExists "key %q already exists" [KeyString (i_Key i)];
  let* rev := createRevision in
  let i := with_rev rev i in
  do* publish (putEvent i);
  mret (NewLease i).

Definition Get (key : Key) : MM Item :=
  deny_if IsZero key with missingKey;
  do* removeExpired;
  let* found := tree_Get key in
  match found with
  | None => mfail (notFound key)
  | Some p => let* x := onHeap (deref p) in mret (bi_Item x)
  end.

Definition Update (i : Item) : MM Lease :=
  deny_if IsZero (i_Key i) with missingKey;
  do* removeExpired;
  let* has := tree_Has (i_Key i) in
  deny_if negb has with notFound (i_Key i);
  let* i := freshRevision i in
  do* publish (putEvent i);
  mret (NewLease i).

Definition Put (i : Item) : MM Lease :=
  deny_if IsZero (i_Key i) with missingKey;
  do* removeExpired;
  let* i := freshRevision i in
  do* publish (putEvent i);
  mret (NewLease i).

Definition Delete (key : Key) : MM unit :=
  deny_if IsZero key with missingKey;
  do* removeExpired;
  let* has := tree_Has key in
  deny_if negb has with notFound key;
  publish (deleteEvent (keyItem key)).

(** What the iteration callback of [DeleteRange] takes. *)
Definition upTo (endKey : string) : list (string * ptr) -> list (string * ptr) :=
  fix go l := match l with
  | [] => []
  | e :: l' => if bool_decide (before endKey e.1) then [] else e :: go l'
  end.

Fixpoint deref_all (l : list (string * ptr)) : MM (list Item) :=
  match l with
  | [] => mret []
  | (_, p) :: l' => let* x := onHeap (deref p) in let* rest := deref_all l' in mret (bi_Item x :: rest)
  end.

Fixpoint publish_all (l : list Event) : MM unit :=
  match l with
  | [] => mret tt
  | e :: l' => do* publish e; publish_all l'
  end.

Definition DeleteRange (startKey endKey : Key) : MM unit :=
  deny_if IsZero startKey with BadParameter "missing parameter startKey" [];
  deny_if IsZero endKey with BadParameter "missing parameter endKey" [];
  do* removeExpired;
  let* found := mget (fun m => upTo (k_s endKey) (bt_AscendGreaterOrEqual (m_tree m) (k_s startKey))) in
  let* items := deref_all found in
  publish_all (deleteEvent <$> items).

Definition KeepAlive (lease : Lease) (expires : option time) : MM unit :=
  deny_if IsZero (ls_Key lease) with missingKey;
  do* removeExpired;
  let* found := tree_Get (ls_Key lease) in
  match found with
  | None => mfail (notFound (ls_Key lease))
  | Some p =>
      let* x := onHeap (deref p) in
      let* item := freshRevision (with_expires expires (bi_Item x)) in
      publish (putEvent item)
  end.

Definition CompareAndSwap (expected replaceWith : Item) : MM Lease :=
  deny_if IsZero (i_Key expected) with BadParameter "missing parameter Key" [];
  deny_if IsZero (i_Key replaceWith) with BadParameter "missing parameter Key" [];
  deny_if negb (bool_decide (KeyCompare (i_Key expected) (i_Key replaceWith) = Eq))
    with BadParameter "expected and replaceWith keys should match" [];
  do* removeExpired;
  let* found := tree_Get (i_Key expected) in
  match found with
  | None => mfail (CompareFailed "key %q is not found" [KeyString (i_Key expected)])
  | Some p =>
      let* x := onHeap (deref p) in
      deny_if negb (bool_decide (i_Value (bi_Item x) = i_Value expected))
        with CompareFailed "current value does not match expected for %v" [KeyString (i_Key expected)];
      let* replaceWith := freshRevision replaceWith in
      do* publish (putEvent replaceWith);
      mret (NewLease replaceWith)
  end.

(** The item at a key, if it has this revision. *)
Definition revision_matches (key : Key) (rev : string) : MM bool :=
  let* found := tree_Get key in
  match found with
  | None => mret false
  | Some p => let* x := onHeap (deref p) in mret (bool_decide (i_Revision (bi_Item x) = rev))
  end.

Definition ConditionalDelete (key : Key) (rev : string) : MM unit :=
  let* mirror := mget m_Mirror in
  deny_if IsZero key || (bool_decide (rev = "") && negb mirror) with ErrIncorrectRevision;
  do* removeExpired;
  let* matches := revision_matches key rev in
  deny_if negb matches with ErrIncorrectRevision;
  publish (deleteEvent (keyItem key)).

Definition ConditionalUpdate (i : Item) : MM Lease :=
  let* mirror := mget m_Mirror in
  deny_if IsZero (i_Key i) || (bool_decide (i_Revision i = "") && negb mirror) with ErrIncorrectRevision;
  do* removeExpired;
  let* matches := revision_matches (i_Key i) (i_Revision i) in
  deny_if negb matches with ErrIncorrectRevision;
  let* i := freshRevision i in
  do* publish (putEvent i);
  mret (NewLease i).

(** ** [atomicwrite.go] of the memory backend *)

Definition condition_holds (ca : ConditionalAction) : MM bool :=
  let kind := cond_Kind (ca_Condition ca) in
  if kind =? KindWhatever then mret true
  else if kind =? KindExists then tree_Has (ca_Key ca)
  else if kind =? KindNotExists then let* has := tree_Has (ca_Key ca) in mret (negb has)
  else if kind =? KindRevision then revision_matches (ca_Key ca) (cond_Revision (ca_Condition ca))
  else mfail (BadParameter "unexpected condition kind %v in conditional action against key %q"
                [pretty kind; KeyString (ca_Key ca)]).

(** The events of an action, and whether it is a put. *)
Definition action_events (revision : string) (ca : ConditionalAction) : MM (list Event * bool) :=
  let kind := act_Kind (ca_Action ca) in
  if kind =? KindNop then mret ([], false)
  else if kind =? KindPut then
    mret ([putEvent (with_rev revision (with_key (ca_Key ca) (act_Item (ca_Action ca))))], true)
  else if kind =? KindDelete then
    let* has := tree_Has (ca_Key ca) in
    mret (if has then [deleteEvent (keyItem (ca_Key ca))] else [], false)
  else mfail (BadParameter "unexpected action kind %v in conditional action against key %q"
                [pretty kind; KeyString (ca_Key ca)]).

Fixpoint collect_events (revision : string) (condacts : list ConditionalAction) : MM (list Event * bool) :=
  match condacts with
  | [] => mret ([], false)
  | ca :: condacts' =>
      let* holds := condition_holds ca in
      deny_if negb holds with ErrConditionFailed;
      let* here := action_events revision ca in
      let* rest := collect_events revision condacts' in
      mret ((here.1 ++ rest.1)%list, here.2 || rest.2)
  end.

Definition AtomicWrite (condacts : list ConditionalAction) : MM string :=
  do* mlift (ValidateAtomicWrite condacts);
  do* removeExpired;
  let* revision := createRevision in
  let* collected := collect_events revision condacts in
  do* publish_all collected.1;
  mret (if collected.2 then revision else "").

(** ** Iteration

    A page is read under the lock; between two pages the lock is free, and
    [between] is what happens to the backend then. *)

Definition NoLimit : Z := 0.
Definition DefaultRangeLimit : Z := 2000000.
Definition defaultPageSize : Z := 1000.

Record ItemsParams := {
  ip_StartKey : Key;
  ip_EndKey : Key;
  ip_Descending : bool;
  ip_Limit : Z;
}.

(** The iteration of one page: what it takes, and the key it stops at. *)
Fixpoint page_loop (descending : bool) (endKey startKey : string) (excludedStart : bool) (pageLimit : Z)
    (taken : list (string * ptr)) (l : list (string * ptr)) : list (string * ptr) * option string :=
  match l with
  | [] => (taken, None)
  | item :: l' =>
      if (if descending then bool_decide (before item.1 endKey) else bool_decide (before endKey item.1)) then (taken, None)
      else if excludedStart && bool_decide (at_most item.1 startKey)
      then page_loop descending endKey startKey false pageLimit taken l'
      else
        let taken := (taken ++ [item])%list in
        if pageLimit <=? Z.of_nat (length taken) then (taken, Some item.1)
        else page_loop descending endKey startKey false pageLimit taken l'
  end.

Definition read_page (descending : bool) (startKey endKey : string) (excludedStart : bool) (pageLimit : Z)
    : MM (list Item * option string) :=
  do* removeExpired;
  let* found := mget (fun m =>
    page_loop descending endKey startKey excludedStart pageLimit []
      (if descending then bt_DescendLessOrEqual (m_tree m) startKey
       else bt_AscendGreaterOrEqual (m_tree m) startKey)) in
  let* items := deref_all found.1 in
  mret (items, found.2).

(** The items handed to a consumer that takes them all. *)
Fixpoint items_loop (fuel : nat) (between : Memory T -> Memory T) (descending : bool) (limit totalCount : Z)
    (startKey endKey : string) (excludedStart : bool) : MM (list Item) :=
  match fuel with
  | O => mret []
  | S fuel' =>
      let pageLimit := Z.min (limit - totalCount) defaultPageSize in
      let* page := read_page descending startKey endKey excludedStart pageLimit in
      let items := page.1 in
      let totalCount := totalCount + Z.of_nat (length items) in
      if negb (limit =? NoLimit) && (limit <=? totalCount) then mret items
      else if Z.of_nat (length items) <? pageLimit then mret items
      else
        do* mmodify between;
        let* rest := items_loop fuel' between descending limit totalCount
                       (default startKey page.2) endKey (bool_decide (is_Some page.2)) in
        mret (items ++ rest)%list
  end.

Definition Items (fuel : nat) (between : Memory T -> Memory T) (params : ItemsParams) : MM (list Item) :=
  deny_if IsZero (ip_StartKey params) with BadParameter "missing parameter startKey" [];
  deny_if IsZero (ip_EndKey params) with BadParameter "missing parameter endKey" [];
  let limit := if ip_Limit params <=? 0 then DefaultRangeLimit else ip_Limit params in
  let first := k_s (ip_StartKey params) in
  let last := k_s (ip_EndKey params) in
  if ip_Descending params then items_loop fuel between true limit 0 last first false
  else items_loop fuel between false limit 0 first last false.

Definition GetRange (fuel : nat) (between : Memory T -> Memory T) (startKey endKey : Key) (limit : Z)
    : MM (list Item) :=
  Items fuel between {| ip_StartKey := startKey; ip_EndKey := endKey; ip_Descending := false; ip_Limit := limit |}.

(** [New] *)
Definition New (now : time) (Mirror EventsOff : bool) : Memory T :=
  mkMemory bt_New {| mh_arr := newMinHeap; mh_mem := ∅ |} 1%positive now Mirror EventsOff 0 [].
End Memory.
