(* ===== verification/MemoryFacts.v ===== *)
(** * Properties of the memory backend

    The invariant that ties tree, heap and cells together, the contents a
    state stands for, and what each step of the backend does to them. *)

From stdpp Require Import pretty.
From S2P Require Import Prelude GoStrings Types Key Backend BTree MinHeap Memory.
#[local] Open Scope Z_scope.

Section Facts.
Context {T : Type} `{BTreeSpec ptr T} `{Revisions}.
#[local] Abbreviation Mem := (Memory T).

(** ** The invariant *)

Record wf (m : Mem) : Prop := {
  wf_heap : heap_wf (m_heap m);
  (* a key leads to a cell of that key, which is in the heap if it expires *)
  wf_tree k p : bt_Get (m_tree m) k = Some p -> exists i, items (m_heap m) !! p = Some i /\
    k_s (i_Key i) = k /\ (p ∈ mh_arr (m_heap m) <-> is_Some (i_Expires i));
  (* and nothing else is in the heap *)
  wf_arr p : p ∈ mh_arr (m_heap m) -> exists i, items (m_heap m) !! p = Some i /\
    bt_Get (m_tree m) (k_s (i_Key i)) = Some p;
  wf_next p : is_Some (items (m_heap m) !! p) -> (p < m_next m)%positive;
}.

(** What a state holds. *)
Definition contents (m : Mem) : gmap string Item :=
  omap (fun p => items (m_heap m) !! p) (list_to_map (bt_entries (m_tree m))).

Lemma entries_NoDup (t : T) : NoDup (bt_entries t).*1.
Proof.
  pose proof (bt_sorted t) as Hs. induction Hs as [|[k v] l Hs IH Hl]; simpl; constructor; [|done].
  intros ([k' v'] & -> & Hin)%list_elem_of_fmap. rewrite Forall_forall in Hl.
  by apply (Hl _) , before_irrefl in Hin.
Qed.

Lemma lookup_contents m k :
  contents m !! k = p ← bt_Get (m_tree m) k; items (m_heap m) !! p.
Proof.
  unfold contents. rewrite lookup_omap. f_equal. apply option_ext. intros p.
  rewrite bt_get_entries. symmetry. apply elem_of_list_to_map, entries_NoDup.
Qed.

Lemma wf_contents m k p : wf m -> bt_Get (m_tree m) k = Some p ->
  exists i, contents m !! k = Some i /\ items (m_heap m) !! p = Some i /\ k_s (i_Key i) = k.
Proof.
  intros Hwf Hg. destruct (wf_tree _ Hwf _ _ Hg) as (i & Hi & Hk & _). exists i.
  split; [|done]. rewrite lookup_contents, Hg. done.
Qed.

Lemma contents_none m k : wf m -> contents m !! k = None <-> bt_Get (m_tree m) k = None.
Proof.
  intros Hwf. rewrite lookup_contents. destruct (bt_Get (m_tree m) k) as [p|] eqn:E; [|done].
  destruct (wf_tree _ Hwf _ _ E) as (i & Hi & _). simpl. rewrite Hi. done.
Qed.

Lemma contents_key m k i : wf m -> contents m !! k = Some i -> k_s (i_Key i) = k.
Proof.
  intros Hwf. rewrite lookup_contents. destruct (bt_Get (m_tree m) k) as [p|] eqn:E; [|done].
  destruct (wf_tree _ Hwf _ _ E) as (j & Hj & Hk & _). simpl. rewrite Hj. congruence.
Qed.

(** The cells: reading one, and the heap position of one. *)
Lemma items_deref h p i : items h !! p = Some i -> exists x, mh_mem h !! p = Some x /\ bi_Item x = i.
Proof. unfold items. rewrite lookup_fmap. destruct (mh_mem h !! p); simpl; naive_solver. Qed.

Lemma index_in_heap h p x : linked h -> mh_mem h !! p = Some x -> 0 <= bi_index x <-> p ∈ mh_arr h.
Proof.
  intros Hl Hx. split.
  - intros Hpos. by eapply list_elem_of_lookup_2, (linked_arr _ Hl).
  - intros [i Hi]%list_elem_of_lookup. apply (linked_mem _ Hl) in Hi as (y & Hy & Iy). simplify_eq. lia.
Qed.

(** ** Steps that keep everything but the contents *)

Record frame (m m' : Mem) : Prop := {
  fr_now : m_now m' = m_now m;
  fr_Mirror : m_Mirror m' = m_Mirror m;
  fr_EventsOff : m_EventsOff m' = m_EventsOff m;
}.

#[export] Instance frame_preorder : PreOrder frame.
Proof. split; [by intros m; split|]. intros m1 m2 m3 [] []. split; congruence. Qed.

(** The contents are what the events make of them, and the buffer gets the
    events. *)
Definition apply_event (kv : gmap string Item) (e : Event) : gmap string Item :=
  match ev_Type e with
  | OpPut => <[k_s (i_Key (ev_Item e)) := ev_Item e]> kv
  | OpDelete => delete (k_s (i_Key (ev_Item e))) kv
  end.
Definition replay (es : list Event) (kv : gmap string Item) : gmap string Item := foldl apply_event kv es.

Lemma replay_app es1 es2 kv : replay (es1 ++ es2) kv = replay es2 (replay es1 kv).
Proof. apply foldl_app. Qed.

Record stepped (es : list Event) (m m' : Mem) : Prop := {
  sp_wf : wf m';
  sp_frame : frame m m';
  sp_contents : contents m' = replay es (contents m);
  sp_buf : m_buf m' = (m_buf m ++ if m_EventsOff m then [] else es)%list;
}.

Lemma stepped_refl m : wf m -> stepped [] m m.
Proof. intros Hwf. split; [done..|]. destruct (m_EventsOff m); by rewrite app_nil_r. Qed.

Lemma stepped_trans es1 es2 m1 m2 m3 :
  stepped es1 m1 m2 -> stepped es2 m2 m3 -> stepped (es1 ++ es2) m1 m3.
Proof.
  intros Ha Hb. split.
  - apply Hb.
  - etransitivity; [apply Ha|apply Hb].
  - by rewrite replay_app, (sp_contents _ _ _ Hb), (sp_contents _ _ _ Ha).
  - rewrite (sp_buf _ _ _ Hb), (sp_buf _ _ _ Ha), (fr_EventsOff _ _ (sp_frame _ _ _ Ha)).
    destruct (m_EventsOff m1); by rewrite <- app_assoc.
Qed.

(** [m'] is [m] with another heap and tree. *)
Definition same_rest (m m' : Mem) : Prop :=
  frame m m' /\ m_buf m' = m_buf m /\ m_revisions m' = m_revisions m.

Lemma set_heap_rest h (m : Mem) : same_rest m (set_heap h m).
Proof. by split_and!. Qed.

(** ** Taking a cell out of the heap *)

Lemma drop_cell (m : Mem) p x : heap_wf (m_heap m) -> mh_mem (m_heap m) !! p = Some x ->
  exists h', (let* x := onHeap (deref p) in
      if 0 <=? bi_index x then let* _ := onHeap (RemoveEl p) in mret tt else mret tt) m = (set_heap h' m, Ok tt) /\
    heap_wf h' /\ items h' = items (m_heap m) /\
    (forall q, q ∈ mh_arr h' <-> q ∈ mh_arr (m_heap m) /\ q <> p).
Proof.
  intros Hwf Hx. unfold mthen at 1, onHeap at 1, deref, load. rewrite Hx.
  assert (Esame : set_heap (m_heap m) m = m) by (by destruct m). rewrite Esame.
  pose proof (index_in_heap _ _ _ (proj1 Hwf) Hx) as Hin.
  destruct (Z.leb_spec 0 (bi_index x)) as [Hpos|Hneg].
  - destruct (RemoveEl_spec (m_heap m) p x) as (h' & E & ?); [done..|].
    exists h'. split; [|done]. unfold mthen, onHeap. by rewrite E.
  - exists (m_heap m). rewrite Esame. split; [done|]. split; [done|]. split; [done|].
    intros q. split; [|tauto]. intros Hq. split; [done|]. intros ->. apply Hin in Hq. lia.
Qed.

(** ** [processEvent] *)

Lemma alloc_wf h p x : heap_wf h -> mh_mem h !! p = None -> bi_index x = -1 ->
  heap_wf {| mh_arr := mh_arr h; mh_mem := <[p := x]> (mh_mem h) |}.
Proof.
  intros [Hl Ho] Hp Hx.
  assert (Hne : forall i q, mh_arr h !! i = Some q -> q <> p).
  { intros i q Hq ->. destruct (linked_mem _ Hl _ _ Hq) as (y & Hy & _). congruence. }
  split; [split|]; simpl.
  - intros i q Hq. rewrite lookup_insert_ne by (intros ->; by eapply Hne). by apply (linked_mem _ Hl).
  - intros q y. destruct (decide (p = q)) as [->|Hpq].
    + rewrite lookup_insert_eq. intros [= <-]. lia.
    + rewrite lookup_insert_ne by done. apply (linked_arr _ Hl).
  - assert (Hprio : forall i, prio {| mh_arr := mh_arr h; mh_mem := <[p := x]> (mh_mem h) |} i = prio h i).
    { intros i. unfold prio, items. simpl. destruct (mh_arr h !! i) as [q|] eqn:E; [|done]. simpl.
      rewrite fmap_insert, lookup_insert_ne; [done|]. intros ->. by eapply Hne. }
    intros k Hk Hf. unfold hle. rewrite !Hprio. by apply Ho.
Qed.

Lemma alloc_items h p i : items {| mh_arr := mh_arr h; mh_mem := <[p := {| bi_Item := i; bi_index := -1 |}]> (mh_mem h) |}
  = <[p := i]> (items h).
Proof. unfold items. simpl. by rewrite fmap_insert. Qed.

Lemma fresh_cell (m : Mem) : wf m -> mh_mem (m_heap m) !! m_next m = None.
Proof.
  intros Hwf. destruct (mh_mem (m_heap m) !! m_next m) as [x|] eqn:E; [|done].
  assert (m_next m < m_next m)%positive; [|lia]. apply (wf_next _ Hwf). unfold items. rewrite lookup_fmap, E. eauto.
Qed.

(** Pushing a cell that is not in the heap. *)
Lemma push_cell (m : Mem) p i : heap_wf (m_heap m) -> items (m_heap m) !! p = Some i -> p ∉ mh_arr (m_heap m) ->
  exists h', match i_Expires i with Some _ => onHeap (PushEl p) | None => mret tt end m = (set_heap h' m, Ok tt) /\
    heap_wf h' /\ items h' = items (m_heap m) /\
    (forall q, q ∈ mh_arr h' <-> q ∈ mh_arr (m_heap m) \/ (q = p /\ is_Some (i_Expires i))).
Proof.
  intros Hwf Hi Hp. destruct (i_Expires i) as [e|].
  - apply items_deref in Hi as (x & Hx & Ei). pose proof (index_in_heap _ _ _ (proj1 Hwf) Hx) as Hin.
    destruct (PushEl_spec (m_heap m) p x) as (h' & E & Hwf' & Hit & Hq); [done|done| |].
    { destruct (Z.lt_ge_cases (bi_index x) 0); [done|]. exfalso. by apply Hp, Hin. }
    exists h'. unfold onHeap. rewrite E. split_and!; [done..|]. intros q. rewrite Hq. naive_solver.
  - exists (m_heap m). split; [by destruct m|]. split_and!; [done..|].
    intros q. split; [tauto|]. intros [?|[_ [? ?]]]; done.
Qed.

Lemma processPut_spec (m : Mem) i : wf m -> exists m', processPut i m = (m', Ok tt) /\
  wf m' /\ contents m' = <[k_s (i_Key i) := i]> (contents m) /\ same_rest m m'.
Proof.
  intros Hwf. set (p := m_next m). set (k := k_s (i_Key i)).
  pose proof (fresh_cell m Hwf) as Hfresh.
  set (h1 := {| mh_arr := mh_arr (m_heap m); mh_mem := <[p := {| bi_Item := i; bi_index := -1 |}]> (mh_mem (m_heap m)) |}).
  assert (Hh1 : heap_wf h1) by (apply alloc_wf; [apply Hwf|exact Hfresh|done]).
  assert (Hi1 : items h1 = <[p := i]> (items (m_heap m))) by apply alloc_items.
  assert (Hpa : p ∉ mh_arr (m_heap m)).
  { intros Hin. destruct (wf_arr _ Hwf _ Hin) as (j & Hj & _). apply items_deref in Hj as (x & Hx & _).
    unfold p in Hx. congruence. }
  set (m1 := mkMemory (m_tree m) h1 (Pos.succ p) (m_now m) (m_Mirror m) (m_EventsOff m) (m_revisions m) (m_buf m)).
  assert (exists h2, match bt_Get (m_tree m) k with
      | Some p => let* x := onHeap (deref p) in
          if 0 <=? bi_index x then let* _ := onHeap (RemoveEl p) in mret tt else mret tt
      | None => mret tt end m1 = (set_heap h2 m1, Ok tt) /\ heap_wf h2 /\ items h2 = items h1 /\
      (forall q, q ∈ mh_arr h2 <-> q ∈ mh_arr (m_heap m) /\ bt_Get (m_tree m) k <> Some q))
    as (h2 & E2 & Hh2 & Hi2 & Ha2).
  { destruct (bt_Get (m_tree m) k) as [p0|] eqn:Eg.
    - destruct (wf_tree _ Hwf _ _ Eg) as (j & Hj & _).
      destruct (items_deref h1 p0 j) as (x & Hx & _).
      { rewrite Hi1, lookup_insert_ne; [done|]. intros <-. apply items_deref in Hj as (y & Hy & _). unfold p in *. congruence. }
      destruct (drop_cell m1 p0 x) as (h2 & E2 & ? & ? & Hq); [done..|]. exists h2. rewrite E2.
      split_and!; [done..|]. intros q. rewrite Hq. simpl. naive_solver.
    - exists h1. split_and!; [done..|]. naive_solver. }
  destruct (push_cell (set_heap h2 m1) p i) as (h3 & E3 & Hh3 & Hi3 & Ha3); simpl; [done| | |].
  { rewrite Hi2, Hi1. by rewrite lookup_insert_eq. }
  { intros Hin. apply Ha2 in Hin as [Hin _]. done. }
  simpl in Hi3, Ha3.
  set (m3 := set_tree (fun t => bt_ReplaceOrInsert t k p) (set_heap h3 m1)).
  assert (Hit : items h3 = <[p := i]> (items (m_heap m))) by congruence.
  assert (Hother : forall k' q, k' <> k -> bt_Get (m_tree m) k' = Some q -> q <> p /\ items h3 !! q = items (m_heap m) !! q).
  { intros k' q Hne Hq. destruct (wf_tree _ Hwf _ _ Hq) as (j & Hj & _).
    assert (q <> p) as Hqp. { intros ->. apply items_deref in Hj as (y & Hy & _). unfold p in *. congruence. }
    split; [done|]. by rewrite Hit, lookup_insert_ne. }
  exists m3. split; [|split; [split|split; [|by split_and!]]].
  - unfold processPut. unfold mthen at 1, alloc. fold p h1 m1. unfold mthen at 1, tree_Get, mget.
    change (m_tree m1) with (m_tree m). fold k. unfold mthen at 1. rewrite E2. unfold mthen at 1. rewrite E3. done.
  - done.
  - simpl. intros k' q. rewrite bt_get_insert. case_decide as Ek; [intros [= <-]|intros Hq].
    + subst k'. exists i. rewrite Hit, lookup_insert_eq. split_and!; [done..|]. rewrite Ha3. split; [|by right].
      intros [Hin|[_ ?]]; [|done]. apply Ha2 in Hin as [? _]. done.
    + destruct (Hother k' q Ek Hq) as [Hqp Hl]. destruct (wf_tree _ Hwf _ _ Hq) as (j & Hj & Hk & Hin).
      exists j. rewrite Hl. split_and!; [done..|]. rewrite Ha3, Ha2, <- Hin. split; [naive_solver|].
      intros Hqa. left. split; [done|]. intros Hk'. destruct (wf_tree _ Hwf _ _ Hk') as (j' & Hj' & Ej' & _). congruence.
  - simpl. intros q Hq. apply Ha3 in Hq as [Hq|[-> _]].
    + apply Ha2 in Hq as [Hq Hne]. destruct (wf_arr _ Hwf _ Hq) as (j & Hj & Hg).
      exists j. assert (k_s (i_Key j) <> k) as Hjk by congruence.
      destruct (Hother _ _ Hjk Hg) as [_ ->]. split; [done|]. rewrite bt_get_insert. by case_decide.
    + exists i. rewrite Hit, lookup_insert_eq. split; [done|]. rewrite bt_get_insert. by case_decide.
  - simpl. intros q. rewrite Hit. destruct (decide (q = p)) as [->|Hne]; [intros _; lia|].
    rewrite lookup_insert_ne by done. intros Hq%(wf_next _ Hwf). unfold p. lia.
  - apply map_eq. intros k'. rewrite lookup_contents. simpl. rewrite bt_get_insert.
    destruct (decide (k' = k)) as [->|Hne].
    + rewrite lookup_insert_eq. simpl. by rewrite Hit, lookup_insert_eq.
    + rewrite lookup_insert_ne by done. rewrite lookup_contents.
      destruct (bt_Get (m_tree m) k') as [q|] eqn:Eq; [|done]. simpl. by apply (Hother k' q).
Qed.

Lemma processDelete_spec (m : Mem) i : wf m -> exists m', processDelete i m = (m', Ok tt) /\
  wf m' /\ contents m' = delete (k_s (i_Key i)) (contents m) /\ same_rest m m'.
Proof.
  intros Hwf. set (k := k_s (i_Key i)). unfold processDelete. unfold mthen at 1, tree_Get, mget. fold k.
  destruct (bt_Get (m_tree m) k) as [p|] eqn:Eg.
  2: { exists m. split; [done|]. split; [done|]. split; [|by split_and!].
       symmetry. apply delete_id. by apply contents_none. }
  destruct (wf_tree _ Hwf _ _ Eg) as (j & Hj & Ek & _). apply items_deref in Hj as Hx. destruct Hx as (x & Hx & Ex).
  set (m1 := set_tree (fun t => bt_Delete t k) m).
  destruct (drop_cell m1 p x) as (h2 & E2 & Hh2 & Hi2 & Ha2); [apply Hwf|done|].
  change (m_heap m1) with (m_heap m) in *.
  exists (set_heap h2 m1). split; [|split; [split|split; [|by split_and!]]].
  - unfold mthen at 1, mmodify. fold k m1. exact E2.
  - done.
  - simpl. intros k' q. rewrite bt_get_delete. case_decide as Ek'; [done|]. intros Hq.
    destruct (wf_tree _ Hwf _ _ Hq) as (j' & Hj' & Hk' & Hin). exists j'. rewrite Hi2. split_and!; [done..|].
    rewrite Ha2, <- Hin. split; [tauto|]. intros Hqa. split; [done|]. intros ->. congruence.
  - simpl. intros q Hq. apply Ha2 in Hq as [Hq Hne]. destruct (wf_arr _ Hwf _ Hq) as (j' & Hj' & Hg).
    exists j'. rewrite Hi2. split; [done|]. rewrite bt_get_delete. case_decide; [congruence|done].
  - simpl. intros q. rewrite Hi2. apply (wf_next _ Hwf).
  - apply map_eq. intros k'. rewrite lookup_contents. simpl. rewrite bt_get_delete, Hi2.
    destruct (decide (k' = k)) as [->|Hne]; [by rewrite lookup_delete_eq|].
    by rewrite lookup_delete_ne, lookup_contents.
Qed.

(** An event is applied and published. *)
Lemma emit_eq e (m : Mem) : emit e m = (mkMemory (m_tree m) (m_heap m) (m_next m) (m_now m) (m_Mirror m)
  (m_EventsOff m) (m_revisions m) (m_buf m ++ if m_EventsOff m then [] else [e])%list, Ok tt).
Proof. unfold emit, mmodify. destruct m as [t h n w mi []]; simpl; [by rewrite app_nil_r|done]. Qed.

Lemma buf_wf (m : Mem) m' : wf m -> m_tree m' = m_tree m -> m_heap m' = m_heap m -> m_next m' = m_next m -> wf m'.
Proof. intros [] Et Eh En. split; intros; rewrite ?Et, ?Eh, ?En in *; eauto. Qed.

Lemma publish_spec (m : Mem) e : wf m -> exists m', publish e m = (m', Ok tt) /\ stepped [e] m m'.
Proof.
  intros Hwf. assert (exists m1, processEvent e m = (m1, Ok tt) /\ wf m1 /\ contents m1 = apply_event (contents m) e /\
    same_rest m m1) as (m1 & E & Hwf1 & Hc & Hf & Hb & Hr).
  { unfold processEvent, apply_event. destruct (ev_Type e); [apply processPut_spec|apply processDelete_spec]; done. }
  unfold publish, mthen. rewrite E, emit_eq. eexists. split; [done|]. split; simpl.
  - by eapply buf_wf.
  - etransitivity; [exact Hf|]. by split.
  - exact Hc.
  - by rewrite Hb, (fr_EventsOff _ _ Hf).
Qed.

Lemma publish_all_spec es : forall m : Mem, wf m -> exists m', publish_all es m = (m', Ok tt) /\ stepped es m m'.
Proof.
  induction es as [|e es IH]; intros m Hwf; simpl.
  - exists m. split; [done|by apply stepped_refl].
  - destruct (publish_spec m e Hwf) as (m1 & E1 & H1'). destruct (IH m1) as (m2 & E2 & H2'); [apply H1'|].
    exists m2. unfold mthen. rewrite E1. split; [done|]. by apply (stepped_trans [e] es m m1).
Qed.

(** ** Expiry

    The heap is ordered by whole seconds, so what a sweep leaves may have
    expired in the current second, and no longer ago. *)

Definition expired (now : time) (i : Item) : Prop := exists e, i_Expires i = Some e /\ e <= now.
Definition graced (now : time) (i : Item) : Prop :=
  forall e, i_Expires i = Some e -> now / Second <= e / Second.

Record swept (now : time) (kv kv' : gmap string Item) : Prop := {
  sw_old : kv' ⊆ kv;
  sw_kept k i : kv !! k = Some i -> ~ expired now i -> kv' !! k = Some i;
  sw_graced k i : kv' !! k = Some i -> graced now i;
}.

Lemma heap_item (m : Mem) k i : wf m -> contents m !! k = Some i -> is_Some (i_Expires i) ->
  exists p j, mh_arr (m_heap m) !! j = Some p /\ items (m_heap m) !! p = Some i.
Proof.
  intros Hwf Hc He. rewrite lookup_contents in Hc. destruct (bt_Get (m_tree m) k) as [p|] eqn:Eg; [|done].
  destruct (wf_tree _ Hwf _ _ Eg) as (i' & Hi' & _ & Hin). simpl in Hc. simplify_eq.
  apply Hin, list_elem_of_lookup in He as [j Hj]. eauto.
Qed.

Lemma root_graced (m : Mem) now p i e : wf m -> mh_arr (m_heap m) !! 0%nat = Some p ->
  items (m_heap m) !! p = Some i -> i_Expires i = Some e -> now < e ->
  forall k j, contents m !! k = Some j -> graced now j.
Proof.
  intros Hwf Hp Hi He Hlt k j Hj e' He'. destruct (heap_item m k j Hwf Hj) as (q & n & Hq & Hqj); [eauto|].
  assert (e / Second <= e' / Second).
  { eapply (root_min (m_heap m) (wf_heap _ Hwf) n); unfold prio.
    - rewrite Hp. simpl. rewrite Hi. simpl. by rewrite He.
    - rewrite Hq. simpl. rewrite Hqj. simpl. by rewrite He'. }
  assert (now / Second <= e / Second) by (apply Z.div_le_mono; [done|lia]). lia.
Qed.

(** Nothing is left for a sweep to do. *)
Definition settled (now : time) (m : Mem) : Prop :=
  heap_size (m_heap m) = 0%nat \/ exists p i e, mh_arr (m_heap m) !! 0%nat = Some p /\
    items (m_heap m) !! p = Some i /\ i_Expires i = Some e /\ now < e.

Lemma removeExpired_loop_settled now fuel (m : Mem) removed :
  settled now m -> removeExpired_loop fuel now removed m = (m, Ok removed).
Proof.
  intros Hs. destruct fuel as [|fuel]; [done|]. simpl. unfold mthen at 1, mget.
  change (mh_Len (m_heap m)) with (heap_size (m_heap m)).
  destruct Hs as [->|(p & i & e & Hp & Hi & He & Hlt)]; [done|]. pose proof (size_pos _ _ _ Hp).
  destruct (Nat.eqb_spec (heap_size (m_heap m)) 0) as [E|_]; [lia|].
  assert (Esame : set_heap (m_heap m) m = m) by (by destruct m).
  apply items_deref in Hi as (x & Hx & <-).
  unfold mthen at 1, onHeap at 1, PeekEl, mh_at, load. rewrite Hp, Esame.
  unfold mthen at 1, onHeap at 1, deref, load. rewrite Hx, Esame.
  unfold Before. rewrite He. change (default zeroTime (Some e)) with e.
  by destruct (Z.ltb_spec now e); [|lia].
Qed.

(** The root of a heap that is not empty. *)
Lemma root_cell (m : Mem) : wf m -> heap_size (m_heap m) <> 0%nat ->
  exists p x e, mh_arr (m_heap m) !! 0%nat = Some p /\ mh_mem (m_heap m) !! p = Some x /\
    contents m !! k_s (i_Key (bi_Item x)) = Some (bi_Item x) /\ i_Expires (bi_Item x) = Some e.
Proof.
  intros Hwf Hs. destruct (lookup_lt_is_Some_2 (mh_arr (m_heap m)) 0) as [p Hp]; [unfold heap_size in Hs; lia|].
  pose proof (list_elem_of_lookup_2 _ _ _ Hp) as Hin.
  destruct (wf_arr _ Hwf p Hin) as (i & Hi & Hg). apply items_deref in Hi as Hx. destruct Hx as (x & Hx & <-).
  destruct (wf_tree _ Hwf _ _ Hg) as (i' & Hi' & _ & Hin'). simplify_eq.
  destruct (proj1 Hin' Hin) as [e He]. exists p, x, e. split_and!; [done..| |done]. by rewrite lookup_contents, Hg.
Qed.

(** What one round of the sweep does to the root. *)
Definition drop_root (item : Item) : M Mem unit :=
  do* onHeap PopEl;
  do* mmodify (set_tree (fun t => bt_Delete t (k_s (i_Key item))));
  emit (deleteEvent (keyItem (i_Key item))).

Lemma drop_root_spec (m : Mem) p x : wf m -> mh_arr (m_heap m) !! 0%nat = Some p -> mh_mem (m_heap m) !! p = Some x ->
  exists m', drop_root (bi_Item x) m = (m', Ok tt) /\ stepped [deleteEvent (keyItem (i_Key (bi_Item x)))] m m' /\
    (heap_size (m_heap m') < heap_size (m_heap m))%nat /\ m_revisions m' = m_revisions m.
Proof.
  intros Hwf Hp Hx. destruct (wf_arr _ Hwf p) as (i & Hi & Hg); [by eapply list_elem_of_lookup_2|].
  assert (i = bi_Item x) as -> by (apply items_deref in Hi as (y & Hy & <-); congruence).
  destruct (heap_Pop_spec (m_heap m) p) as (h' & Ep & Hh' & Hit & Hs' & Hin); [apply Hwf|done|].
  set (k := k_s (i_Key (bi_Item x))) in *.
  set (m1 := set_tree (fun t => bt_Delete t k) (set_heap h' m)).
  assert (Hwf1 : wf m1).
  { split; simpl.
    - done.
    - intros k' q. rewrite bt_get_delete. case_decide as Ek; [done|]. intros Hq.
      destruct (wf_tree _ Hwf _ _ Hq) as (j & Hj & Hk' & Hinq). exists j. rewrite Hit. split_and!; [done..|].
      rewrite Hin, <- Hinq. split; [tauto|]. intros ?. split; [done|]. intros ->. unfold k in Ek. congruence.
    - intros q [Hq Hne]%Hin. destruct (wf_arr _ Hwf _ Hq) as (j & Hj & Hgj). exists j. rewrite Hit. split; [done|].
      rewrite bt_get_delete. case_decide; [congruence|done].
    - intros q. rewrite Hit. apply (wf_next _ Hwf). }
  assert (Hc1 : contents m1 = delete k (contents m)).
  { apply map_eq. intros k'. rewrite lookup_contents. simpl. rewrite bt_get_delete, Hit.
    destruct (decide (k' = k)) as [->|Hne]; [by rewrite lookup_delete_eq|]. by rewrite lookup_delete_ne, lookup_contents. }
  eexists. split; [|split; [split|]].
  - unfold drop_root. unfold mthen at 1, onHeap at 1, PopEl. rewrite Ep. unfold mthen, mmodify. fold k m1. by rewrite emit_eq.
  - by eapply (buf_wf m1).
  - by split.
  - exact Hc1.
  - done.
  - split; [|done]. change (heap_size h' < heap_size (m_heap m))%nat. lia.
Qed.

(** A round of the loop. *)
Lemma removeExpired_round now fuel (m : Mem) removed p x e :
  mh_arr (m_heap m) !! 0%nat = Some p -> mh_mem (m_heap m) !! p = Some x -> i_Expires (bi_Item x) = Some e ->
  removeExpired_loop (S fuel) now removed m =
  if decide (now < e) then (m, Ok removed)
  else (do* drop_root (bi_Item x); removeExpired_loop fuel now (removed + 1)) m.
Proof.
  intros Hp Hx He. simpl. unfold mthen at 1, mget. change (mh_Len (m_heap m)) with (heap_size (m_heap m)).
  pose proof (size_pos _ _ _ Hp). destruct (Nat.eqb_spec (heap_size (m_heap m)) 0); [lia|].
  assert (Esame : set_heap (m_heap m) m = m) by (by destruct m).
  unfold mthen at 1, onHeap at 1, PeekEl, mh_at, load. rewrite Hp, Esame.
  unfold mthen at 1, onHeap at 1, deref, load. rewrite Hx, Esame.
  unfold Before. rewrite He. change (default zeroTime (Some e)) with e.
  destruct (Z.ltb_spec now e); case_decide; try lia; [done|].
  unfold drop_root, mthen. destruct (onHeap PopEl m) as [m1 [u|er]]; [|done].
  destruct (mmodify _ m1) as [m2 [u2|er]]; done.
Qed.

Lemma removeExpired_loop_spec now fuel : forall (m : Mem) removed, wf m -> (heap_size (m_heap m) <= fuel)%nat ->
  exists m' n es, removeExpired_loop fuel now removed m = (m', Ok n) /\ stepped es m m' /\
    swept now (contents m) (contents m') /\ m_revisions m' = m_revisions m /\ settled now m'.
Proof.
  assert (Hdone : forall (m : Mem) removed, wf m -> settled now m -> (forall k j, contents m !! k = Some j -> graced now j) ->
    exists m' n es, (m, Ok removed : result Z) = (m', Ok n) /\ stepped es m m' /\
      swept now (contents m) (contents m') /\ m_revisions m' = m_revisions m /\ settled now m').
  { intros m removed Hwf Hse Hg. exists m, removed, []. split; [done|]. split; [by apply stepped_refl|].
    split; [split; auto|done]. }
  assert (Hempty : forall m : Mem, wf m -> heap_size (m_heap m) = 0%nat ->
    forall k j, contents m !! k = Some j -> graced now j).
  { intros m Hwf Hs k j Hj e He. destruct (heap_item m k j Hwf Hj) as (p & n & Hn & _); [eauto|].
    apply size_pos in Hn. lia. }
  induction fuel as [|fuel IH]; intros m removed Hwf Hf.
  { apply Hdone; [done|left; lia|]. apply Hempty; [done|lia]. }
  destruct (decide (heap_size (m_heap m) = 0%nat)) as [E0|E0].
  { rewrite removeExpired_loop_settled by by left. apply Hdone; [done|by left|by apply Hempty]. }
  destruct (root_cell m Hwf E0) as (p & x & e & Hp & Hx & Hc & He).
  rewrite (removeExpired_round _ _ _ _ _ _ _ Hp Hx He). case_decide as Hlt.
  { assert (Hi : items (m_heap m) !! p = Some (bi_Item x)) by (unfold items; by rewrite lookup_fmap, Hx).
    apply Hdone; [done|right; by eauto 10|]. by eapply root_graced. }
  destruct (drop_root_spec m p x Hwf Hp Hx) as (m1 & E1 & Hst & Hsize & Hrev1). unfold mthen. rewrite E1.
  destruct (IH m1 (removed + 1)) as (m2 & n & es & E & Hst2 & Hsw & Hrev & Hse); [apply Hst|lia|].
  exists m2, n. eexists. split; [exact E|]. split; [by eapply stepped_trans|]. split; [|split; [congruence|done]].
  rewrite (sp_contents _ _ _ Hst) in Hsw. simpl in Hsw. split.
  - etransitivity; [apply Hsw|apply delete_subseteq].
  - intros k' j Hj Hne. apply (sw_kept _ _ _ Hsw); [|done]. unfold apply_event. simpl.
    rewrite lookup_delete_ne; [done|]. intros <-. apply Hne. simplify_eq. exists e. split; [done|lia].
  - apply Hsw.
Qed.

(** A later sweep leaves less. *)
Lemma removeExpired_loop_later now now' fuel : now <= now' ->
  forall (m : Mem) removed, wf m -> (heap_size (m_heap m) <= fuel)%nat ->
  contents (fst (removeExpired_loop fuel now' removed m)) ⊆ contents (fst (removeExpired_loop fuel now removed m)).
Proof.
  intros Hnow. induction fuel as [|fuel IH]; intros m removed Hwf Hf; [done|].
  destruct (decide (heap_size (m_heap m) = 0%nat)) as [E0|E0].
  { by rewrite !removeExpired_loop_settled by by left. }
  destruct (root_cell m Hwf E0) as (p & x & e & Hp & Hx & Hc & He).
  rewrite (removeExpired_round now _ _ _ _ _ _ Hp Hx He). case_decide as Hlt.
  { destruct (removeExpired_loop_spec now' (S fuel) m removed Hwf Hf) as (m' & n & es & -> & _ & Hsw & _). apply Hsw. }
  rewrite (removeExpired_round now' _ _ _ _ _ _ Hp Hx He), decide_False by lia.
  destruct (drop_root_spec m p x Hwf Hp Hx) as (m1 & E1 & Hst & Hsize & _). unfold mthen. rewrite E1.
  apply IH; [apply Hst|lia].
Qed.

(** A sweep of a state: nothing in mirror mode. *)
Definition swept_by (m : Mem) (kv : gmap string Item) : Prop :=
  if m_Mirror m then kv = contents m else swept (m_now m) (contents m) kv.

Lemma removeExpired_spec (m : Mem) : wf m ->
  exists m' n es, removeExpired m = (m', Ok n) /\ stepped es m m' /\ swept_by m (contents m') /\
    m_revisions m' = m_revisions m /\ removeExpired m' = (m', Ok 0).
Proof.
  intros Hwf. unfold removeExpired, swept_by. unfold mthen at 1, mget. destruct (m_Mirror m) eqn:Em.
  - exists m, 0, []. split; [done|]. split; [by apply stepped_refl|]. split_and!; [done..|].
    unfold mthen at 1. by rewrite Em.
  - unfold mthen at 1, mget. unfold mthen at 1.
    destruct (removeExpired_loop_spec (m_now m) (mh_Len (m_heap m)) m 0 Hwf)
      as (m' & n & es & E & Hst & Hsw & Hr & Hse); [done|].
    exists m', n, es. rewrite E. split_and!; [done..|]. destruct (sp_frame _ _ _ Hst) as [Hnow Hmi _].
    unfold mthen at 1. rewrite Hmi, Em. unfold mthen at 1. unfold mthen at 1. rewrite Hnow.
    by apply removeExpired_loop_settled.
Qed.
End Facts.
