(* ===== verification/MemoryRefinement.v ===== *)
(** * What the memory backend implements

    The specification of a backend over a plain map, and the theorem that each
    operation of the memory backend is that specification after a sweep. *)

From stdpp Require Import pretty.
From S2P Require Import Prelude GoStrings Types Key Backend BTree MinHeap Memory MemoryFacts.
#[local] Open Scope Z_scope.

Abbreviation KV := (gmap string Item).

Inductive op :=
| DoCreate (i : Item)
| DoGet (key : Key)
| DoUpdate (i : Item)
| DoPut (i : Item)
| DoDelete (key : Key)
| DoDeleteRange (startKey endKey : Key)
| DoKeepAlive (lease : Lease) (expires : option time)
| DoCompareAndSwap (expected replaceWith : Item)
| DoConditionalDelete (key : Key) (rev : string)
| DoConditionalUpdate (i : Item)
| DoAtomicWrite (condacts : list ConditionalAction).

Inductive output :=
| OutUnit
| OutLease (l : Lease)
| OutItem (i : Item)
| OutRevision (rev : string).

(** ** The specification *)

(** The calls that are refused without a look at the store. *)
Definition guard (mirror : bool) (o : op) : option error :=
  match o with
  | DoCreate i | DoUpdate i | DoPut i => if IsZero (i_Key i) then Some missingKey else None
  | DoGet key | DoDelete key => if IsZero key then Some missingKey else None
  | DoDeleteRange a b =>
      if IsZero a then Some (BadParameter "missing parameter startKey" [])
      else if IsZero b then Some (BadParameter "missing parameter endKey" []) else None
  | DoKeepAlive lease _ => if IsZero (ls_Key lease) then Some missingKey else None
  | DoCompareAndSwap e r =>
      if IsZero (i_Key e) || IsZero (i_Key r) then Some (BadParameter "missing parameter Key" [])
      else if bool_decide (KeyCompare (i_Key e) (i_Key r) = Eq) then None
      else Some (BadParameter "expected and replaceWith keys should match" [])
  | DoConditionalDelete key rev =>
      if IsZero key || (bool_decide (rev = "") && negb mirror) then Some ErrIncorrectRevision else None
  | DoConditionalUpdate i =>
      if IsZero (i_Key i) || (bool_decide (i_Revision i = "") && negb mirror)
      then Some ErrIncorrectRevision else None
  | DoAtomicWrite condacts => match ValidateAtomicWrite condacts with Ok _ => None | Err e => Some e end
  end.

Definition revised (mirror : bool) (rev : string) (i : Item) : Item := if mirror then i else with_rev rev i.

Definition put_item (i : Item) (kv : KV) : KV := <[k_s (i_Key i) := i]> kv.

Definition holds (kv : KV) (ca : ConditionalAction) : bool :=
  let at_key := kv !! k_s (ca_Key ca) in
  let kind := cond_Kind (ca_Condition ca) in
  if kind =? KindWhatever then true
  else if kind =? KindExists then bool_decide (is_Some at_key)
  else if kind =? KindNotExists then negb (bool_decide (is_Some at_key))
  else match at_key with Some i => bool_decide (i_Revision i = cond_Revision (ca_Condition ca)) | None => false end.

Definition is_put (ca : ConditionalAction) : bool := act_Kind (ca_Action ca) =? KindPut.

Definition action_effect (rev : string) (kv : KV) (ca : ConditionalAction) : list Event :=
  let kind := act_Kind (ca_Action ca) in
  if kind =? KindNop then []
  else if kind =? KindPut then [putEvent (with_rev rev (with_key (ca_Key ca) (act_Item (ca_Action ca))))]
  else if bool_decide (is_Some (kv !! k_s (ca_Key ca))) then [deleteEvent (keyItem (ca_Key ca))] else [].

(** What a call does to the map and returns, once it is not refused.  [rev] is
    the revision the call makes up. *)
Definition exec (mirror : bool) (rev : string) (o : op) (kv : KV) : KV * result output :=
  let write i := (put_item i kv, Ok (OutLease (NewLease i))) in
  match o with
  | DoCreate i =>
      match kv !! k_s (i_Key i) with
      | Some _ => (kv, Err (AlreadyExists "key %q already exists" [KeyString (i_Key i)]))
      | None => write (with_rev rev i)
      end
  | DoGet key =>
      (kv, match kv !! k_s key with Some i => Ok (OutItem i) | None => Err (notFound key) end)
  | DoUpdate i =>
      match kv !! k_s (i_Key i) with
      | Some _ => write (revised mirror rev i)
      | None => (kv, Err (notFound (i_Key i)))
      end
  | DoPut i => write (revised mirror rev i)
  | DoDelete key =>
      match kv !! k_s key with
      | Some _ => (delete (k_s key) kv, Ok OutUnit)
      | None => (kv, Err (notFound key))
      end
  | DoDeleteRange a b =>
      (filter (fun e => ~ (at_most (k_s a) e.1 /\ at_most e.1 (k_s b))) kv, Ok OutUnit)
  | DoKeepAlive lease expires =>
      match kv !! k_s (ls_Key lease) with
      | Some i => (put_item (revised mirror rev (with_expires expires i)) kv, Ok OutUnit)
      | None => (kv, Err (notFound (ls_Key lease)))
      end
  | DoCompareAndSwap e r =>
      match kv !! k_s (i_Key e) with
      | None => (kv, Err (CompareFailed "key %q is not found" [KeyString (i_Key e)]))
      | Some i =>
          if bool_decide (i_Value i = i_Value e) then write (revised mirror rev r)
          else (kv, Err (CompareFailed "current value does not match expected for %v" [KeyString (i_Key e)]))
      end
  | DoConditionalDelete key r =>
      match kv !! k_s key with
      | Some i => if bool_decide (i_Revision i = r) then (delete (k_s key) kv, Ok OutUnit)
                  else (kv, Err ErrIncorrectRevision)
      | None => (kv, Err ErrIncorrectRevision)
      end
  | DoConditionalUpdate i =>
      match kv !! k_s (i_Key i) with
      | Some old => if bool_decide (i_Revision old = i_Revision i) then write (revised mirror rev i)
                    else (kv, Err ErrIncorrectRevision)
      | None => (kv, Err ErrIncorrectRevision)
      end
  | DoAtomicWrite condacts =>
      if forallb (holds kv) condacts
      then (replay (condacts ≫= action_effect rev kv) kv,
            Ok (OutRevision (if existsb is_put condacts then rev else "")))
      else (kv, Err ErrConditionFailed)
  end.

(** ** The operations *)

Section Refinement.
Context {T : Type} `{BTreeSpec ptr T} `{Revisions}.
#[local] Abbreviation Mem := (Memory T).

Definition returning {A} (f : A -> output) (c : M Mem A) : M Mem output := let* a := c in mret (f a).

Definition run (o : op) : M Mem output :=
  match o with
  | DoCreate i => returning OutLease (Create i)
  | DoGet key => returning OutItem (Get key)
  | DoUpdate i => returning OutLease (Update i)
  | DoPut i => returning OutLease (Put i)
  | DoDelete key => returning (fun _ => OutUnit) (Delete key)
  | DoDeleteRange a b => returning (fun _ => OutUnit) (DeleteRange a b)
  | DoKeepAlive lease expires => returning (fun _ => OutUnit) (KeepAlive lease expires)
  | DoCompareAndSwap e r => returning OutLease (CompareAndSwap e r)
  | DoConditionalDelete key rev => returning (fun _ => OutUnit) (ConditionalDelete key rev)
  | DoConditionalUpdate i => returning OutLease (ConditionalUpdate i)
  | DoAtomicWrite condacts => returning OutRevision (AtomicWrite condacts)
  end.

(** ** The steps of an operation *)

Lemma createRevision_spec (m : Mem) : wf m -> exists m',
  createRevision m = (m', Ok (CreateRevision (m_revisions m))) /\ stepped [] m m'.
Proof.
  intros Hwf. eexists. split; [done|]. split; simpl.
  - by eapply buf_wf.
  - by split.
  - done.
  - destruct (m_EventsOff m); by rewrite app_nil_r.
Qed.

Lemma freshRevision_spec (m : Mem) i : wf m -> exists m',
  freshRevision i m = (m', Ok (revised (m_Mirror m) (CreateRevision (m_revisions m)) i)) /\ stepped [] m m'.
Proof.
  intros Hwf. unfold freshRevision, revised. unfold mthen at 1, mget. destruct (m_Mirror m).
  - exists m. split; [done|by apply stepped_refl].
  - destruct (createRevision_spec m Hwf) as (m' & E & Hs). exists m'. unfold mthen. by rewrite E.
Qed.

(** A new revision, and the put of an item that carries it. *)
Lemma put_spec (m : Mem) i : wf m -> exists m',
  publish (putEvent i) m = (m', Ok tt) /\ stepped [putEvent i] m m' /\ contents m' = put_item i (contents m).
Proof. intros Hwf. destruct (publish_spec m (putEvent i) Hwf) as (m' & E & Hs). exists m'. split_and!; [done..|]. apply Hs. Qed.

Lemma delete_spec (m : Mem) i : wf m -> exists m',
  publish (deleteEvent i) m = (m', Ok tt) /\ stepped [deleteEvent i] m m' /\
  contents m' = delete (k_s (i_Key i)) (contents m).
Proof. intros Hwf. destruct (publish_spec m (deleteEvent i) Hwf) as (m' & E & Hs). exists m'. split_and!; [done..|]. apply Hs. Qed.

Lemma write_spec (m : Mem) i : wf m -> exists m', let i' := revised (m_Mirror m) (CreateRevision (m_revisions m)) i in
  (let* i := freshRevision i in do* publish (putEvent i); mret (NewLease i)) m = (m', Ok (NewLease i')) /\
  (exists es, stepped es m m') /\ contents m' = put_item i' (contents m).
Proof.
  intros Hwf. destruct (freshRevision_spec m i Hwf) as (m1 & E1 & H1s).
  destruct (put_spec m1 (revised (m_Mirror m) (CreateRevision (m_revisions m)) i)) as (m2 & E2 & H2s & Hc); [apply H1s|].
  exists m2. cbn zeta. split; [unfold mthen; by rewrite E1, E2|]. split.
  - eexists. by eapply stepped_trans.
  - by rewrite Hc, (sp_contents _ _ _ H1s).
Qed.

(** A lookup in the tree is one in the contents. *)
Lemma find_cell (m : Mem) key : wf m ->
  (bt_Get (m_tree m) (k_s key) = None /\ contents m !! k_s key = None) \/
  (exists p x, bt_Get (m_tree m) (k_s key) = Some p /\ mh_mem (m_heap m) !! p = Some x /\
     contents m !! k_s key = Some (bi_Item x)).
Proof.
  intros Hwf. destruct (bt_Get (m_tree m) (k_s key)) as [p|] eqn:E.
  - right. destruct (wf_contents _ _ _ Hwf E) as (i & Hc & Hi & _).
    apply items_deref in Hi as (x & Hx & <-). eauto.
  - left. split; [done|]. by apply contents_none.
Qed.

Lemma deref_eq (m : Mem) p x : mh_mem (m_heap m) !! p = Some x -> onHeap (deref p) m = (m, Ok x).
Proof. intros E. unfold onHeap, deref, load. rewrite E. by destruct m. Qed.

Lemma has_contents (m : Mem) key : wf m ->
  bool_decide (is_Some (bt_Get (m_tree m) (k_s key))) = bool_decide (is_Some (contents m !! k_s key)).
Proof. intros Hwf. destruct (find_cell m key Hwf) as [[-> ->]|(p & x & -> & _ & ->)]; done. Qed.

Lemma revision_matches_spec (m : Mem) key rev : wf m -> revision_matches key rev m =
  (m, Ok (match contents m !! k_s key with Some i => bool_decide (i_Revision i = rev) | None => false end)).
Proof.
  intros Hwf. unfold revision_matches, mthen, tree_Get, mget.
  destruct (find_cell m key Hwf) as [[-> ->]|(p & x & -> & Hx & ->)]; [done|]. by rewrite (deref_eq _ _ _ Hx).
Qed.

(** ** Ranges *)

Lemma deref_all_spec (m : Mem) l : wf m -> (forall e, e ∈ l -> bt_Get (m_tree m) e.1 = Some e.2) ->
  exists is_, deref_all l m = (m, Ok is_) /\ map (fun i => Some i) is_ = (fun e => contents m !! e.1) <$> l /\
    map (fun i => k_s (i_Key i)) is_ = l.*1.
Proof.
  intros Hwf. induction l as [|[k p] l IH]; intros Hl.
  { exists []. by split_and!. }
  destruct IH as (is_ & E & Hm & Hk); [intros e He; apply Hl; by right|].
  assert (Hg : bt_Get (m_tree m) k = Some p) by (apply (Hl (k, p)); by left).
  destruct (wf_contents _ _ _ Hwf Hg) as (i & Hc & Hi & Hki). apply items_deref in Hi as (x & Hx & Ex).
  exists (bi_Item x :: is_). simpl. unfold mthen at 1. rewrite (deref_eq _ _ _ Hx).
  unfold mthen. rewrite E. split_and!; [done| |].
  - by rewrite Hm, Hc, Ex.
  - by rewrite Hk, Ex, Hki.
Qed.

Lemma upTo_filter endKey (l : list (string * ptr)) : StronglySorted (fun a b => before a.1 b.1) l ->
  upTo endKey l = filter (fun e => at_most e.1 endKey) l.
Proof.
  induction 1 as [|e l Hs IH Hl]; simpl; [done|]. rewrite Forall_forall in Hl. case_bool_decide as Hb.
  - symmetry. apply filter_none. intros x Hx. rewrite at_most_not_before. intros Hn. apply Hn.
    apply elem_of_cons in Hx as [->|Hx]; [done|]. transitivity e.1; [done|by apply Hl].
  - rewrite filter_cons_True by (by apply at_most_not_before). by rewrite IH.
Qed.

(** Deleting the items of a list deletes their keys. *)
Lemma replay_deletes (l : list Item) : forall (kv : KV) k,
  replay (deleteEvent <$> l) kv !! k = if decide (k ∈ map (fun i => k_s (i_Key i)) l) then None else kv !! k.
Proof.
  induction l as [|i l IH]; intros kv k.
  { by rewrite decide_False by apply not_elem_of_nil. }
  change (replay (deleteEvent <$> i :: l) kv) with (replay (deleteEvent <$> l) (delete (k_s (i_Key i)) kv)).
  rewrite IH. cbn [map]. destruct (decide (k = k_s (i_Key i))) as [->|Hne].
  - rewrite lookup_delete_eq, (decide_True (P := _ ∈ _ :: _)) by (by left). by destruct (decide _).
  - rewrite lookup_delete_ne by done. destruct (decide (k ∈ map _ l)) as [Hin|Hin].
    + by rewrite decide_True by (by right).
    + by rewrite decide_False by set_solver.
Qed.

Lemma DeleteRange_spec (m : Mem) (a b : Key) : wf m ->
  exists m', (let* found := mget (fun m => upTo (k_s b) (bt_AscendGreaterOrEqual (m_tree m) (k_s a))) in
      let* items := deref_all found in publish_all (deleteEvent <$> items)) m = (m', Ok tt) /\
    (exists es, stepped es m m') /\
    contents m' = filter (fun e => ~ (at_most (k_s a) e.1 /\ at_most e.1 (k_s b))) (contents m).
Proof.
  intros Hwf. set (found := upTo (k_s b) (bt_AscendGreaterOrEqual (m_tree m) (k_s a))).
  assert (Hfound : found = filter (fun e => at_most e.1 (k_s b)) (filter (fun e => at_most (k_s a) e.1) (bt_entries (m_tree m)))).
  { apply upTo_filter, StronglySorted_filter, bt_sorted. }
  assert (Hin : forall k p, (k, p) ∈ found <-> (at_most (k_s a) k /\ at_most k (k_s b)) /\ bt_Get (m_tree m) k = Some p).
  { intros k p. rewrite Hfound, !list_elem_of_filter, bt_get_entries. simpl. tauto. }
  destruct (deref_all_spec m found Hwf) as (is_ & E & _ & Hk).
  { intros [k p] He. by apply Hin in He as [_ ?]. }
  destruct (publish_all_spec (deleteEvent <$> is_) m Hwf) as (m' & E' & Hst).
  exists m'. split; [unfold mthen at 1, mget; fold found; unfold mthen; by rewrite E|]. split; [eauto|].
  apply map_eq. intros k. rewrite (sp_contents _ _ _ Hst), replay_deletes, Hk.
  assert (Hkin : k ∈ found.*1 <-> (at_most (k_s a) k /\ at_most k (k_s b)) /\ is_Some (bt_Get (m_tree m) k)).
  { rewrite list_elem_of_fmap. split.
    - intros ([k' p] & -> & [? ?]%Hin). eauto.
    - intros [? [p Hp]]. exists (k, p). split; [done|]. by apply Hin. }
  pose proof (contents_none m k Hwf) as Hnone.
  apply option_ext. intros i. rewrite map_lookup_filter_Some. simpl. case_decide as Hd.
  - apply Hkin in Hd as [? [p Hp]]. naive_solver.
  - split; [|naive_solver]. intros Hi. split; [done|]. intros Hr. apply Hd, Hkin. split; [done|].
    destruct (bt_Get (m_tree m) k); [eauto|]. destruct Hnone as [_ Hn]. rewrite Hn in Hi by done. done.
Qed.

(** ** Atomic writes *)

Definition kinds_ok (ca : ConditionalAction) : Prop :=
  1 <= cond_Kind (ca_Condition ca) <= 4 /\ 1 <= act_Kind (ca_Action ca) <= 3.

Lemma conditionalAction_kinds ca : conditionalAction_Check ca = Ok tt -> kinds_ok ca.
Proof.
  unfold conditionalAction_Check, condition_Check, action_Check, in_kinds, kinds_ok, KindWhatever, KindRevision,
    KindNop, KindDelete, KindPut. intros E. inv_ok.
  assert (Hc : 1 <= cond_Kind (ca_Condition ca) <= 4) by (repeat (bool_to_prop; inv_ok); lia).
  split; [done|].
  destruct (Z.eqb_spec (act_Kind (ca_Action ca)) 1); simpl in *; [lia|].
  destruct (Z.eqb_spec (act_Kind (ca_Action ca)) 3); simpl in *; [lia|].
  destruct (Z.eqb_spec (act_Kind (ca_Action ca)) 2); simpl in *; [lia|]. inv_ok.
Qed.

Lemma validate_loop_kinds condacts : forall keys w w', validate_loop keys w condacts = Ok w' -> Forall kinds_ok condacts.
Proof.
  induction condacts as [|ca condacts IH]; intros keys w w' E; simpl in E; [constructor|]. inv_ok.
  constructor; [|by eapply IH]. apply conditionalAction_kinds.
  match goal with E : conditionalAction_Check ca = Ok ?u |- _ => by destruct u end.
Qed.

Lemma ValidateAtomicWrite_kinds condacts : ValidateAtomicWrite condacts = Ok tt -> Forall kinds_ok condacts.
Proof. unfold ValidateAtomicWrite. intros E. inv_ok. by eapply validate_loop_kinds. Qed.

Lemma condition_holds_spec (m : Mem) ca : wf m -> kinds_ok ca ->
  condition_holds ca m = (m, Ok (holds (contents m) ca)).
Proof.
  intros Hwf [Hc _]. unfold condition_holds, holds, tree_Has.
  destruct (Z.eqb_spec (cond_Kind (ca_Condition ca)) KindWhatever); [done|].
  destruct (Z.eqb_spec (cond_Kind (ca_Condition ca)) KindExists); [unfold mget; by rewrite has_contents|].
  destruct (Z.eqb_spec (cond_Kind (ca_Condition ca)) KindNotExists).
  { unfold mthen, mget. by rewrite has_contents. }
  unfold KindWhatever, KindExists, KindNotExists, KindRevision in *.
  destruct (Z.eqb_spec (cond_Kind (ca_Condition ca)) 4); [|lia]. by apply revision_matches_spec.
Qed.

Lemma action_events_spec (m : Mem) rev ca : wf m -> kinds_ok ca ->
  action_events rev ca m = (m, Ok (action_effect rev (contents m) ca, is_put ca)).
Proof.
  intros Hwf [_ Hk]. unfold action_events, action_effect, is_put, tree_Has, KindNop, KindPut, KindDelete in *.
  destruct (Z.eqb_spec (act_Kind (ca_Action ca)) 1), (Z.eqb_spec (act_Kind (ca_Action ca)) 2),
    (Z.eqb_spec (act_Kind (ca_Action ca)) 3); try lia; try done.
  unfold mthen, mget, mret. by rewrite has_contents.
Qed.

(** Either every condition holds, and the events are those of the actions, or
    nothing was done. *)
Lemma collect_events_spec (m : Mem) rev condacts : wf m -> Forall kinds_ok condacts ->
  collect_events rev condacts m =
  (m, if forallb (holds (contents m)) condacts
      then Ok (condacts ≫= action_effect rev (contents m), existsb is_put condacts)
      else Err ErrConditionFailed).
Proof.
  intros Hwf. induction 1 as [|ca condacts Hk _ IH]; simpl; [done|].
  unfold mthen at 1. rewrite (condition_holds_spec m ca Hwf Hk).
  destruct (holds (contents m) ca); simpl; [|done].
  unfold mthen at 1. rewrite (action_events_spec m rev ca Hwf Hk). unfold mthen. rewrite IH.
  by destruct (forallb (holds (contents m)) condacts).
Qed.

(** ** Refinement *)

(** What the sweep that opens an operation leaves. *)
Definition after_expiry (m : Mem) : KV := contents (fst (removeExpired m)).

Lemma after_expiry_swept (m : Mem) : wf m -> swept_by m (after_expiry m).
Proof. intros Hwf. unfold after_expiry. by destruct (removeExpired_spec m Hwf) as (m' & n & es & -> & _ & ? & _). Qed.

(** A run of [o] from [m] to [m'] with outcome [r] is one of the specification. *)
Definition refines (m : Mem) (o : op) (m' : Mem) (r : result output) : Prop :=
  match guard (m_Mirror m) o with
  | Some e => m' = m /\ r = Err e
  | None => exec (m_Mirror m) (CreateRevision (m_revisions m)) o (after_expiry m) = (contents m', r)
  end.

(** What is left to show of an operation after its sweep. *)
Lemma after_sweep (m : Mem) o (rest : M Mem output) :
  wf m -> guard (m_Mirror m) o = None ->
  (forall m1, wf m1 -> m_Mirror m1 = m_Mirror m -> m_revisions m1 = m_revisions m ->
    exists m' r, rest m1 = (m', r) /\ (exists es, stepped es m1 m') /\
      exec (m_Mirror m) (CreateRevision (m_revisions m)) o (contents m1) = (contents m', r)) ->
  exists m' r, (do* removeExpired; rest) m = (m', r) /\ (exists es, stepped es m m') /\ refines m o m' r.
Proof.
  intros Hwf Hg Hrest. destruct (removeExpired_spec m Hwf) as (m1 & n & es & E & Hst & Hsw & Hr & _).
  destruct (Hrest m1) as (m' & r & E' & (es' & Hst') & Hx); [apply Hst|apply (sp_frame _ _ _ Hst)|done|].
  exists m', r. split; [unfold mthen at 1; by rewrite E|]. split; [eexists; by eapply stepped_trans|].
  unfold refines, after_expiry. by rewrite Hg, E.
Qed.

Lemma returning_sweep {A} (f : A -> output) (k : M Mem A) m :
  returning f (do* removeExpired; k) m = (do* removeExpired; returning f k) m.
Proof. unfold returning, mthen. by destruct (removeExpired m) as [m1 [n|e]]. Qed.

(** A refused call changes nothing. *)
Lemma refused (m : Mem) o e : wf m -> guard (m_Mirror m) o = Some e ->
  exists m' r, (m, Err e : result output) = (m', r) /\ (exists es, stepped es m m') /\ refines m o m' r.
Proof.
  intros Hwf Hg. exists m, (Err e). split; [done|]. split; [eexists; by apply stepped_refl|]. unfold refines. by rewrite Hg.
Qed.

(** How an operation ends after its sweep: in an error that left the state as
    it was, or in one event. *)
Definition ends (mirror : bool) (rev : string) (o : op) (kv : KV) (m : Mem) (out : Mem * result output) : Prop :=
  exists m' r, out = (m', r) /\ (exists es, stepped es m m') /\ exec mirror rev o kv = (contents m', r).

Lemma ends_same mirror rev o kv (m : Mem) r : wf m -> exec mirror rev o kv = (contents m, r) -> ends mirror rev o kv m (m, r).
Proof. intros Hwf Hx. exists m, r. split; [done|]. split; [|done]. eexists. by apply stepped_refl. Qed.

Lemma ends_step mirror rev o kv (m m1 : Mem) out es : stepped es m m1 -> ends mirror rev o kv m1 out -> ends mirror rev o kv m out.
Proof. intros Hs (m' & r & E & [es' Hs'] & Hx). exists m', r. split; [done|]. split; [|done]. eexists. by eapply stepped_trans. Qed.

(** A step of [c] with a known outcome. *)
Lemma returning_step {A B} (f : B -> output) (c : M Mem A) (k : A -> M Mem B) m m1 a :
  c m = (m1, Ok a) -> returning f (mthen c k) m = returning f (k a) m1.
Proof. intros E. unfold returning, mthen. by rewrite E. Qed.

Lemma ends_publish mirror rev o kv (m : Mem) e f : wf m ->
  exec mirror rev o kv = (apply_event (contents m) e, Ok (f tt)) ->
  ends mirror rev o kv m (returning f (publish e) m).
Proof.
  intros Hwf Hx. destruct (publish_spec m e Hwf) as (m' & E & Hs).
  exists m', (Ok (f tt)). split; [unfold returning, mthen; by rewrite E|]. split; [eauto|].
  by rewrite Hx, (sp_contents _ _ _ Hs).
Qed.

Lemma ends_write mirror rev o kv (m : Mem) i : wf m ->
  exec mirror rev o kv = (put_item i (contents m), Ok (OutLease (NewLease i))) ->
  ends mirror rev o kv m (returning OutLease (do* publish (putEvent i); mret (NewLease i)) m).
Proof.
  intros Hwf Hx. destruct (put_spec m i Hwf) as (m' & E & Hs & Hc).
  eexists m', _. split; [unfold returning, mthen; by rewrite E|]. split; [eauto|]. by rewrite Hx, Hc.
Qed.

Lemma ends_fresh {A} mirror rev o kv (m : Mem) i (f : A -> output) (k : Item -> M Mem A) : wf m ->
  m_Mirror m = mirror -> CreateRevision (m_revisions m) = rev ->
  (forall m1, wf m1 -> contents m1 = contents m -> ends mirror rev o kv m1 (returning f (k (revised mirror rev i)) m1)) ->
  ends mirror rev o kv m (returning f (let* i := freshRevision i in k i) m).
Proof.
  intros Hwf Hm Hr Hk. destruct (freshRevision_spec m i Hwf) as (m1 & E & Hs). rewrite Hm, Hr in E.
  rewrite (returning_step _ _ _ _ _ _ E). eapply ends_step; [exact Hs|]. apply Hk; apply Hs.
Qed.

(** After the guard of [o], its sweep. *)
Lemma refines_by {A} (m : Mem) o (f : A -> output) (rest : M Mem A) : wf m -> guard (m_Mirror m) o = None ->
  (forall m1, wf m1 -> m_Mirror m1 = m_Mirror m -> CreateRevision (m_revisions m1) = CreateRevision (m_revisions m) ->
    ends (m_Mirror m) (CreateRevision (m_revisions m)) o (contents m1) m1 (returning f rest m1)) ->
  exists m' r, returning f (do* removeExpired; rest) m = (m', r) /\ (exists es, stepped es m m') /\ refines m o m' r.
Proof.
  intros Hwf Hg Hr. rewrite returning_sweep. apply after_sweep; [done..|].
  intros m1 Hwf1 Hm1 Hr1. apply Hr; congruence.
Qed.

(** The cases of a lookup, in the tree and in the specification. *)
Ltac find key :=
  match goal with Hwf : wf ?m1 |- ends _ _ _ _ ?m1 _ =>
    let p := fresh "p" in let x := fresh "x" in let Hg := fresh "Hg" in let Hx := fresh "Hx" in let Hc := fresh "Hc" in
    destruct (find_cell m1 key Hwf) as [[Hg Hc]|(p & x & Hg & Hx & Hc)];
    erewrite returning_step by reflexivity; rewrite ?Hg; cbv iota;
    [|rewrite ?(returning_step _ _ _ _ _ _ (deref_eq _ _ _ Hx))]
  end.

Ltac has key :=
  match goal with Hwf : wf ?m1 |- ends _ _ _ _ ?m1 _ =>
    let Hc := fresh "Hc" in
    erewrite returning_step by reflexivity; rewrite has_contents by done;
    destruct (contents m1 !! k_s key) eqn:Hc;
    [change (bool_decide (is_Some (Some _))) with true|change (bool_decide (is_Some None)) with false];
    cbn [negb]; cbv iota
  end.

Ltac use_tests :=
  simpl; repeat match goal with
  | H : ?c = true |- context [?c] => rewrite H
  | H : ?c = false |- context [?c] => rewrite H
  | H : ?c = Ok _ |- context [?c] => rewrite H
  | H : ?c = Err _ |- context [?c] => rewrite H
  end; rewrite ?orb_true_r; done.
Ltac refused_by := apply refused; [done|use_tests].
Ltac guarded c := destruct c eqn:?; [refused_by|].
Ltac sweeps := apply refines_by; [done|use_tests|]; intros m1 Hwf1 Hm Hr.
Ltac same Hc := apply ends_same; [done|simpl; rewrite ?Hc; try done].
Ltac fresh_put Hc := apply ends_fresh; [done..|]; intros m2 Hwf2 Hc2; apply ends_write; [done|]; simpl; rewrite ?Hc, ?Hc2; try done.

Lemma revision_cases (m : Mem) key rev :
  match contents m !! k_s key with Some i => bool_decide (i_Revision i = rev) | None => false end = true ->
  exists i, contents m !! k_s key = Some i /\ i_Revision i = rev.
Proof. destruct (contents m !! k_s key) as [i|]; [|done]. intros Hb. bool_to_prop. eauto. Qed.

(** The operations by which the runtime and its neighbours write. *)
Lemma run_refines_write (m : Mem) o : wf m ->
  match o with DoCreate _ | DoUpdate _ | DoPut _ | DoKeepAlive _ _ | DoCompareAndSwap _ _ => True | _ => False end ->
  exists m' r, run o m = (m', r) /\ (exists es, stepped es m m') /\ refines m o m' r.
Proof.
  intros Hwf Ho. destruct o as [i| |i|i| | |lease expires|e r| | |]; try done; unfold run.
  - unfold Create. guarded (IsZero (i_Key i)). sweeps. has (i_Key i); [same Hc|].
    destruct (createRevision_spec m1 Hwf1) as (m2 & E2 & Hs2). rewrite (returning_step _ _ _ _ _ _ E2).
    eapply ends_step; [exact Hs2|]. apply ends_write; [apply Hs2|]. simpl. rewrite Hc, Hr.
    by rewrite (sp_contents _ _ _ Hs2).
  - unfold Update. guarded (IsZero (i_Key i)). sweeps. has (i_Key i); [|same Hc]. fresh_put Hc.
  - unfold Put. guarded (IsZero (i_Key i)). sweeps. fresh_put Hwf.
  - unfold KeepAlive. guarded (IsZero (ls_Key lease)). sweeps. find (ls_Key lease); [same Hc|].
    apply ends_fresh; [done..|]. intros m2 Hwf2 Hc2.
    apply (ends_publish _ _ _ _ _ (putEvent _) (fun _ => OutUnit)); [done|]. simpl. rewrite Hc. by rewrite <- Hc2.
  - unfold CompareAndSwap. guarded (IsZero (i_Key e)). guarded (IsZero (i_Key r)).
    destruct (bool_decide (KeyCompare (i_Key e) (i_Key r) = Eq)) eqn:?; cbn [negb]; [|refused_by].
    sweeps. find (i_Key e); [same Hc|].
    destruct (bool_decide (i_Value (bi_Item x) = i_Value e)) eqn:Hv; cbn [negb]; cbv iota.
    + fresh_put Hc. by rewrite Hv.
    + same Hc. by rewrite Hv.
Qed.

Lemma run_refines (m : Mem) o : wf m ->
  exists m' r, run o m = (m', r) /\ (exists es, stepped es m m') /\ refines m o m' r.
Proof.
  intros Hwf. destruct o as [i|key|i|i|key|a b|lease expires|e r|key rev|i|condacts];
    try (by apply run_refines_write); unfold run.
  - unfold Get. guarded (IsZero key). sweeps. find key; same Hc.
  - unfold Delete. guarded (IsZero key). sweeps. has key; [|same Hc].
    apply (ends_publish _ _ _ _ _ (deleteEvent _) (fun _ => OutUnit)); [done|]. simpl. by rewrite Hc.
  - unfold DeleteRange. guarded (IsZero a). guarded (IsZero b). sweeps.
    destruct (DeleteRange_spec m1 a b Hwf1) as (m2 & E & Hs & Hc).
    exists m2. eexists. split; [unfold returning; unfold mthen at 1; rewrite E; reflexivity|]. split; [done|]. by rewrite Hc.
  - unfold ConditionalDelete. erewrite returning_step by reflexivity.
    guarded (IsZero key || bool_decide (rev = "") && negb (m_Mirror m)). sweeps.
    rewrite (returning_step _ _ _ _ _ _ (revision_matches_spec m1 key rev Hwf1)).
    destruct (contents m1 !! k_s key) as [j|] eqn:Hc; [destruct (bool_decide (i_Revision j = rev)) eqn:Hv|];
      cbn [negb]; cbv iota; [|same Hc; by rewrite Hv|same Hc].
    apply (ends_publish _ _ _ _ _ (deleteEvent _) (fun _ => OutUnit)); [done|]. simpl. by rewrite Hc, Hv.
  - unfold ConditionalUpdate. erewrite returning_step by reflexivity.
    guarded (IsZero (i_Key i) || bool_decide (i_Revision i = "") && negb (m_Mirror m)). sweeps.
    rewrite (returning_step _ _ _ _ _ _ (revision_matches_spec m1 (i_Key i) (i_Revision i) Hwf1)).
    destruct (contents m1 !! k_s (i_Key i)) as [j|] eqn:Hc; [destruct (bool_decide (i_Revision j = i_Revision i)) eqn:Hv|];
      cbn [negb]; cbv iota; [|same Hc; by rewrite Hv|same Hc].
    fresh_put Hc. by rewrite Hv.
  - unfold AtomicWrite. destruct (ValidateAtomicWrite condacts) as [[]|e] eqn:Ev.
    2: { change (returning OutRevision _ m) with (m, Err e : result output). apply refused; [done|]. simpl. by rewrite Ev. }
    rewrite (returning_step _ (mlift (Ok tt)) _ m m tt) by done. sweeps.
    destruct (createRevision_spec m1 Hwf1) as (m2 & E2 & Hs2). rewrite (returning_step _ _ _ _ _ _ E2), Hr.
    eapply ends_step; [exact Hs2|]. pose proof (sp_contents _ _ _ Hs2) as Hc. simpl in Hc. rewrite <- Hc.
    pose proof (collect_events_spec m2 (CreateRevision (m_revisions m)) condacts (sp_wf _ _ _ Hs2)
      (ValidateAtomicWrite_kinds _ Ev)) as Ec.
    destruct (forallb (holds (contents m2)) condacts) eqn:Eh.
    + rewrite (returning_step _ _ _ _ _ _ Ec). cbn [fst snd].
      destruct (publish_all_spec (condacts ≫= action_effect (CreateRevision (m_revisions m)) (contents m2)) m2)
        as (m3 & E3 & Hs3); [apply Hs2|].
      exists m3. eexists. split; [unfold returning, mthen; rewrite E3; reflexivity|]. split; [eauto|].
      simpl. by rewrite Eh, (sp_contents _ _ _ Hs3).
    + exists m2, (Err ErrConditionFailed). split; [unfold returning, mthen; by rewrite Ec|].
      split; [eexists; by apply stepped_refl, Hs2|]. simpl. by rewrite Eh.
Qed.

(** The empty backend. *)
Lemma New_wf now mirror off : wf (New now mirror off : Mem) /\ contents (New now mirror off : Mem) = ∅.
Proof.
  assert (Hget : forall k, bt_Get (m_tree (New now mirror off : Mem)) k = None) by (intros k; apply bt_get_new).
  split; [split|].
  - split; [split|]; simpl; try done.
  - intros k p. by rewrite Hget.
  - intros p Hp. by apply elem_of_nil in Hp.
  - intros p [i Hi]. unfold items in Hi. simpl in Hi. by rewrite fmap_empty, lookup_empty in Hi.
  - apply map_eq. intros k. by rewrite lookup_contents, Hget.
Qed.
End Refinement.
