(* ===== verification/MemoryRange.v ===== *)
(** * Ranges of the memory backend

    A range is read in pages, the lock released between two of them.  When
    nothing happens in between, the pages together are the range. *)

From S2P Require Import Prelude GoStrings Types Key Backend BTree MinHeap Memory MemoryFacts.
From S2P Require Import MemoryRefinement.
#[local] Open Scope Z_scope.

Section Range.
Context {T : Type} `{BTreeSpec ptr T} `{Revisions}.
#[local] Abbreviation Mem := (Memory T).

(** ** The entries of a range, in the direction it is read *)

Definition precedes (descending : bool) (s t : string) : Prop := if descending then before t s else before s t.
#[local] Instance precedes_dec d s t : Decision (precedes d s t).
Proof. destruct d; apply _. Defined.

Definition directed (descending : bool) (t : T) : list (string * ptr) :=
  if descending then rev (bt_entries t) else bt_entries t.

Definition in_order (descending : bool) (l : list (string * ptr)) : Prop :=
  StronglySorted (fun a b => precedes descending a.1 b.1) l.

(** The one-shot read: every entry from [first] to [last]. *)
Definition range_of (descending : bool) (first last : string) (l : list (string * ptr)) : list (string * ptr) :=
  filter (fun e => ~ precedes descending e.1 first /\ ~ precedes descending last e.1) l.

Lemma precedes_irrefl d s : ~ precedes d s s.
Proof. destruct d; apply before_irrefl. Qed.
Lemma precedes_trans d s t u : precedes d s t -> precedes d t u -> precedes d s u.
Proof. destruct d; simpl; intros ??; by transitivity t. Qed.

Lemma directed_in_order d t : in_order d (directed d t).
Proof. destruct d; [apply (StronglySorted_rev _ _ (bt_sorted t))|apply bt_sorted]. Qed.

(** ** One page *)

(** What is in reach of [last]. *)
Definition reach (d : bool) (last : string) (l : list (string * ptr)) : list (string * ptr) :=
  filter (fun e => ~ precedes d last e.1) l.

Lemma in_order_cons d e l : in_order d (e :: l) -> in_order d l /\ forall x, x ∈ l -> precedes d e.1 x.1.
Proof. intros [Hs Hl]%StronglySorted_inv. rewrite Forall_forall in Hl. auto. Qed.

Lemma reach_stop d last (e : string * ptr) l : in_order d (e :: l) -> precedes d last e.1 -> reach d last (e :: l) = [].
Proof.
  intros [_ Hl]%in_order_cons Hp. apply filter_none. intros x Hx Hn. apply Hn.
  apply elem_of_cons in Hx as [->|Hx]; [done|]. by eapply precedes_trans, Hl.
Qed.

Lemma stop_test (d : bool) (last e : string) : (if d then bool_decide (before e last) else bool_decide (before last e)) =
  bool_decide (precedes d last e).
Proof. by destruct d. Qed.

Lemma page_loop_spec d last start n l : forall taken, in_order d l -> Z.of_nat (length taken) < n ->
  let r := reach d last l in let k := Z.to_nat (n - Z.of_nat (length taken)) in
  page_loop d last start false n taken l =
    ((taken ++ take k r)%list, if (k <=? length r)%nat then fst <$> (r !! (k - 1)%nat) else None).
Proof.
  induction l as [|e l IH]; intros taken Hs Hn; cbn zeta; simpl.
  { change (reach d last []) with (@nil (string * ptr)). rewrite take_nil. simpl. replace (_ <=? 0)%nat with false by (symmetry; apply Nat.leb_gt; lia). by rewrite app_nil_r. }
  rewrite stop_test. case_bool_decide as Hp.
  { rewrite (reach_stop d last e l Hs Hp). rewrite take_nil. simpl.
    replace (_ <=? 0)%nat with false by (symmetry; apply Nat.leb_gt; lia). by rewrite app_nil_r. }
  assert (Hr : reach d last (e :: l) = e :: reach d last l) by (by apply filter_cons_True).
  rewrite Hr. rewrite length_app. simpl. apply in_order_cons in Hs as [Hs _].
  destruct (Z.leb_spec n (Z.of_nat (length taken + 1))) as [Hle|Hgt].
  - replace (Z.to_nat (n - Z.of_nat (length taken))) with 1%nat by lia. done.
  - rewrite IH by (try done; rewrite length_app; simpl; lia). cbn zeta. rewrite length_app. simpl.
    set (k := Z.to_nat (n - Z.of_nat (length taken + 1))).
    replace (Z.to_nat (n - Z.of_nat (length taken))) with (S k) by lia. simpl. rewrite <- app_assoc.
    assert (1 <= k)%nat by lia. destruct (Nat.leb_spec k (length (reach d last l))); [|done].
    replace (k - 0)%nat with (S (k - 1)) by lia. done.
Qed.

(** The entries a page starts from, for a start that is in the tree or is the
    start of the range. *)
Definition from (d : bool) (t : T) (start : string) : list (string * ptr) :=
  if d then bt_DescendLessOrEqual t start else bt_AscendGreaterOrEqual t start.

Lemma from_spec d t start : from d t start = filter (fun e => ~ precedes d e.1 start) (directed d t).
Proof.
  unfold from, directed, bt_DescendLessOrEqual, bt_AscendGreaterOrEqual. destruct d; [rewrite filter_rev; f_equal|];
    apply list_filter_iff; intros [k p]; simpl; apply at_most_not_before.
Qed.

(** Both tests split an ordered list in two. *)
Lemma from_suffix d s (l : list (string * ptr)) : in_order d l -> exists pre, l = (pre ++ filter (fun e => ~ precedes d e.1 s) l)%list.
Proof.
  induction l as [|e l IH]; intros Hs; [by exists []|].
  destruct (in_order_cons _ _ _ Hs) as [Hs' Hl]. rewrite filter_cons. case_decide as Hp.
  - exists []. simpl. f_equal. symmetry. apply filter_all. intros x Hx Hn. apply Hp.
    by eapply precedes_trans; [apply Hl|].
  - destruct (IH Hs') as [pre E]. exists (e :: pre). simpl. by rewrite <- E.
Qed.

Lemma reach_prefix d last (l : list (string * ptr)) : in_order d l -> exists rest, l = (reach d last l ++ rest)%list /\ reach d last rest = [].
Proof.
  induction l as [|e l IH]; intros Hs; [by exists []|].
  destruct (decide (precedes d last e.1)) as [Hp|Hp].
  - exists (e :: l). by rewrite (reach_stop d last e l).
  - destruct (in_order_cons _ _ _ Hs) as [Hs' _]. destruct (IH Hs') as (rest & E & Er). exists rest.
    split; [|done]. assert (reach d last (e :: l) = e :: reach d last l) as -> by (by apply filter_cons_True).
    simpl. by rewrite <- E.
Qed.

(** The start of the next page is the last entry of this one. *)
Lemma from_next d t pre (c : string * ptr) post : directed d t = (pre ++ c :: post)%list -> from d t c.1 = c :: post.
Proof.
  intros E. rewrite from_spec, E. pose proof (directed_in_order d t) as Hs. rewrite E in Hs.
  apply StronglySorted_app in Hs as (Hpre & _ & Hs).
  rewrite filter_app, filter_none; simpl.
  - apply filter_all. intros x Hx Hn. apply elem_of_cons in Hx as [->|Hx]; [by eapply precedes_irrefl|].
    apply in_order_cons in Hs as [_ Hl]. apply (precedes_irrefl d c.1). by eapply precedes_trans; [apply Hl|].
  - intros x Hx Hn. apply Hn. apply Hpre; [done|by left].
Qed.

(** ** The pages together *)

Definition values (m : Mem) (l : list (string * ptr)) : list Item := omap (fun e => contents m !! e.1) l.

Lemma deref_values (m : Mem) l : wf m -> (forall e, e ∈ l -> bt_Get (m_tree m) e.1 = Some e.2) ->
  deref_all l m = (m, Ok (values m l)) /\ length (values m l) = length l.
Proof.
  intros Hwf Hl. destruct (deref_all_spec m l Hwf Hl) as (is_ & E & Hm & Hk).
  assert (is_ = values m l) as ->; [|split; [done|by rewrite <- (length_map (fun i => k_s (i_Key i))), Hk, length_fmap]].
  clear E Hk Hl. revert is_ Hm. induction l as [|e l IH]; intros [|i is_] Hm; try done.
  cbn in Hm. injection Hm as Hi Hm. unfold values. simpl. rewrite <- Hi. f_equal. by apply IH.
Qed.

(** The rest [l] of the entries that a page with this start is to read from. *)
Definition at_rest (d : bool) (t : T) (start : string) (ex : bool) (l : list (string * ptr)) : Prop :=
  if ex then exists c, start = c.1 /\ from d t start = c :: l else from d t start = l.

Lemma at_rest_suffix d t start ex l : at_rest d t start ex l -> exists pre, directed d t = (pre ++ l)%list.
Proof.
  intros Hr. destruct (from_suffix d start _ (directed_in_order d t)) as [pre E]. rewrite <- from_spec in E.
  destruct ex; simpl in Hr.
  - destruct Hr as (c & -> & Ef). exists (pre ++ [c])%list. rewrite E, Ef. by rewrite <- app_assoc.
  - exists pre. by rewrite E, Hr.
Qed.

Lemma in_order_suffix d t pre l : directed d t = (pre ++ l)%list -> in_order d l.
Proof. intros E. pose proof (directed_in_order d t) as Hs. rewrite E in Hs. by apply StronglySorted_app in Hs as (_ & _ & ?). Qed.

Lemma skip_test d (c : string * ptr) start l last n taken : start = c.1 -> ~ precedes d last c.1 ->
  page_loop d last start true n taken (c :: l) = page_loop d last start false n taken l.
Proof.
  intros -> Hp. simpl. rewrite stop_test, (bool_decide_eq_false_2 _ Hp).
  rewrite bool_decide_eq_true_2; [done|]. apply at_most_cases. by left.
Qed.

(** One page of a settled state. *)
Lemma read_page_spec d (m : Mem) start ex last n l : wf m -> removeExpired m = (m, Ok 0) -> 1 <= n ->
  at_rest d (m_tree m) start ex l -> (ex = true -> ~ precedes d last start) ->
  let r := reach d last l in
  read_page d start last ex n m =
    (m, Ok (values m (take (Z.to_nat n) r),
            if (Z.to_nat n <=? length r)%nat then fst <$> (r !! (Z.to_nat n - 1)%nat) else None)) /\
  length (values m (take (Z.to_nat n) r)) = length (take (Z.to_nat n) r).
Proof.
  intros Hwf Hrm Hn Hrest Hex. cbn zeta. destruct (at_rest_suffix _ _ _ _ _ Hrest) as [pre Epre].
  pose proof (in_order_suffix _ _ _ _ Epre) as Hord.
  assert (Hpage : page_loop d last start ex n [] (from d (m_tree m) start) = page_loop d last start false n [] l).
  { destruct ex; simpl in Hrest; [|by rewrite Hrest]. destruct Hrest as (c & -> & ->). apply skip_test; [done|by apply Hex]. }
  assert (Hin : forall e, e ∈ take (Z.to_nat n) (reach d last l) -> bt_Get (m_tree m) e.1 = Some e.2).
  { intros e He. assert (He' : e ∈ directed d (m_tree m)).
    { rewrite Epre. apply elem_of_app. right. apply elem_of_take in He as (i & He & _).
      apply list_elem_of_lookup_2 in He. by apply list_elem_of_filter in He as [_ ?]. }
    apply bt_get_entries. destruct e as [k p]. simpl. unfold directed in He'. destruct d; [|done].
    by apply list_elem_of_In, in_rev, list_elem_of_In in He'. }
  destruct (deref_values m _ Hwf Hin) as [Ed El]. split; [|exact El].
  unfold read_page. unfold mthen at 1. rewrite Hrm. unfold mthen at 1, mget.
  fold (from d (m_tree m) start). rewrite Hpage, (page_loop_spec d last start n l []) by (try done; simpl; lia).
  cbn zeta. simpl. rewrite Z.sub_0_r. unfold mthen. by rewrite Ed.
Qed.

(** The rest after a full page. *)
Lemma next_page d t start ex last n l : at_rest d t start ex l -> (1 <= n)%nat -> (n <= length (reach d last l))%nat ->
  exists c l', reach d last l !! (n - 1)%nat = Some c /\ at_rest d t c.1 true l' /\
    reach d last l' = drop n (reach d last l) /\ ~ precedes d last c.1 /\ (length l' < length l)%nat.
Proof.
  intros Hrest Hn Hlen. destruct (at_rest_suffix _ _ _ _ _ Hrest) as [pre Epre].
  pose proof (in_order_suffix _ _ _ _ Epre) as Hord.
  destruct (reach_prefix d last l Hord) as (beyond & El & Eb). set (r := reach d last l) in *.
  destruct (lookup_lt_is_Some_2 r (n - 1)) as [c Hc]; [lia|].
  exists c, (drop n r ++ beyond)%list. split; [done|].
  pose proof (take_drop_middle r (n - 1) c Hc) as Er. replace (S (n - 1)) with n in Er by lia.
  assert (Ed : directed d t = ((pre ++ take (n - 1) r) ++ c :: (drop n r ++ beyond))%list).
  { rewrite Epre. rewrite El at 1. rewrite <- Er at 1. by rewrite <- !app_assoc. }
  split; [exists c; split; [done|by eapply from_next]|]. split.
  - unfold reach. rewrite filter_app. fold (reach d last beyond). rewrite Eb, app_nil_r.
    apply filter_all. intros x Hx. assert (x ∈ r) as Hxr by (rewrite <- (take_drop n r); set_solver).
    by apply list_elem_of_filter in Hxr as [? _].
  - split; [by apply list_elem_of_lookup_2, list_elem_of_filter in Hc as [? _]|].
    rewrite El, !length_app, length_drop. fold r. lia.
Qed.

Lemma items_loop_spec fuel d limit last : forall (m : Mem) total start ex l, wf m -> removeExpired m = (m, Ok 0) ->
  at_rest d (m_tree m) start ex l -> (ex = true -> ~ precedes d last start) -> total < limit -> (length l < fuel)%nat ->
  0 <= total ->
  items_loop fuel id d limit total start last ex m = (m, Ok (values m (take (Z.to_nat (limit - total)) (reach d last l)))).
Proof.
  induction fuel as [|fuel IH]; intros m total start ex l Hwf Hrm Hrest Hex Hlim Hf Htot; [lia|]. simpl.
  set (n := Z.min (limit - total) defaultPageSize). assert (Hn : 1 <= n <= limit - total) by (unfold n, defaultPageSize; lia).
  destruct (read_page_spec d m start ex last n l Hwf Hrm) as [Ep El]; [lia|done..|].
  set (r := reach d last l) in *. unfold mthen at 1. rewrite Ep. cbn [fst snd]. rewrite El, length_take.
  unfold NoLimit. destruct (Z.eqb_spec limit 0); [lia|]. simpl negb. rewrite andb_true_l.
  destruct (Z.leb_spec limit (total + Z.of_nat (Z.to_nat n `min` length r))) as [Hfull|Hmore].
  { replace (Z.to_nat (limit - total)) with (Z.to_nat n) by lia. done. }
  destruct (Z.ltb_spec (Z.of_nat (Z.to_nat n `min` length r)) n) as [Hshort|Hpage].
  { rewrite !take_ge by lia. done. }
  destruct (next_page d (m_tree m) start ex last (Z.to_nat n) l) as (c & l' & Hc & Hrest' & Er & Hreach & Hlen); [done|lia|fold r; lia|].
  fold r in Hc, Er. replace (Z.to_nat n <=? length r)%nat with true by (symmetry; apply Nat.leb_le; lia).
  rewrite Hc. simpl fmap. simpl default. rewrite bool_decide_eq_true_2 by eauto.
  unfold mthen at 1, mmodify, id. unfold mthen at 1.
  rewrite (IH m _ c.1 true l') by (done || lia || (intros _; done)). rewrite Er.
  unfold mret. do 2 f_equal. unfold values. rewrite <- omap_app. f_equal.
  replace (Z.to_nat (limit - total)) with (Z.to_nat n + Z.to_nat (limit - (total + Z.of_nat (Z.to_nat n `min` length r))))%nat by lia.
  by rewrite take_take_drop.
Qed.

(** ** The claim's reference *)

(** The items of the range, in direction, up to the limit. *)
Definition reference_range (m : Mem) (params : ItemsParams) : list Item :=
  let limit := if ip_Limit params <=? 0 then DefaultRangeLimit else ip_Limit params in
  let d := ip_Descending params in
  let first := if d then k_s (ip_EndKey params) else k_s (ip_StartKey params) in
  let last := if d then k_s (ip_StartKey params) else k_s (ip_EndKey params) in
  take (Z.to_nat limit) (values m (range_of d first last (directed d (m_tree m)))).

Lemma values_take (m : Mem) n l : wf m -> (forall e, e ∈ l -> is_Some (contents m !! e.1)) ->
  values m (take n l) = take n (values m l).
Proof.
  intros Hwf. revert n. induction l as [|e l IH]; intros [|n] Hl; try done.
  destruct (Hl e) as [i Hi]; [by left|]. unfold values. simpl. rewrite Hi. simpl. f_equal. apply IH.
  intros x Hx. apply Hl. by right.
Qed.

Lemma directed_contents (m : Mem) d e : wf m -> e ∈ directed d (m_tree m) -> is_Some (contents m !! e.1).
Proof.
  intros Hwf He. assert (bt_Get (m_tree m) e.1 = Some e.2) as Hg.
  { apply bt_get_entries. destruct e as [k p]. simpl. unfold directed in He. destruct d; [|done].
    by apply list_elem_of_In, in_rev, list_elem_of_In in He. }
  destruct (wf_contents _ _ _ Hwf Hg) as (i & Hi & _). eauto.
Qed.

Lemma size_contents (m : Mem) : wf m -> size (contents m) = length (bt_entries (m_tree m)).
Proof.
  intros Hwf. rewrite <- (map_size_list_to_map (M := gmap string) (bt_entries (m_tree m))) by apply entries_NoDup.
  rewrite <- !size_dom. f_equal. apply set_eq. intros k. rewrite !elem_of_dom, lookup_contents.
  assert (Hg : bt_Get (m_tree m) k = (list_to_map (bt_entries (m_tree m)) : gmap string ptr) !! k).
  { apply option_ext. intros p. rewrite bt_get_entries. apply elem_of_list_to_map, entries_NoDup. }
  rewrite <- Hg. destruct (bt_Get (m_tree m) k) as [p|] eqn:E; [|split; by intros [? ?]].
  destruct (wf_tree _ Hwf _ _ E) as (i & Hi & _). simpl. rewrite Hi. split; eauto.
Qed.

Lemma swept_by_subset (m : Mem) kv : swept_by m kv -> kv ⊆ contents m.
Proof. unfold swept_by. destruct (m_Mirror m); [by intros ->|apply sw_old]. Qed.

Lemma items_loop_swept fuel between d limit total start last ex (m m1 : Mem) n :
  removeExpired m = (m1, Ok n) -> removeExpired m1 = (m1, Ok 0) ->
  items_loop (S fuel) between d limit total start last ex m = items_loop (S fuel) between d limit total start last ex m1.
Proof.
  intros E E1. cbn [items_loop]. unfold mthen.
  assert (Hp : forall n, read_page d start last ex n m = read_page d start last ex n m1)
    by (intros n'; unfold read_page; unfold mthen at 1; rewrite E; unfold mthen; by rewrite E1).
  by rewrite Hp.
Qed.

(** The pages of a range, read with nothing in between, are the range. *)
Lemma Items_spec fuel (m : Mem) params : wf m -> IsZero (ip_StartKey params) = false -> IsZero (ip_EndKey params) = false ->
  (size (contents m) < fuel)%nat ->
  exists m1, (exists n es, removeExpired m = (m1, Ok n) /\ stepped es m m1) /\ swept_by m (contents m1) /\
    Items fuel id params m = (m1, Ok (reference_range m1 params)).
Proof.
  intros Hwf Hs He Hf. destruct (removeExpired_spec m Hwf) as (m1 & n & es & E & Hst & Hsw & _ & E1).
  exists m1. split; [eauto|]. split; [done|]. pose proof (sp_wf _ _ _ Hst) as Hwf1.
  pose proof (map_subseteq_size _ _ (swept_by_subset _ _ Hsw)) as Hsz. rewrite (size_contents m1 Hwf1) in Hsz.
  unfold Items. rewrite Hs, He. set (limit := if ip_Limit params <=? 0 then DefaultRangeLimit else ip_Limit params).
  assert (0 < limit) by (unfold limit, DefaultRangeLimit; destruct (Z.leb_spec (ip_Limit params) 0); lia).
  assert (Hrun : forall d first last,
    items_loop fuel id d limit 0 first last false m =
      (m1, Ok (take (Z.to_nat limit) (values m1 (range_of d first last (directed d (m_tree m1))))))).
  { intros d first last. destruct fuel as [|fuel]; [lia|].
    rewrite (items_loop_swept fuel id d limit 0 first last false m m1 n E E1).
    rewrite (items_loop_spec (S fuel) d limit last m1 0 first false (from d (m_tree m1) first)); try done; try lia.
    - rewrite Z.sub_0_r, values_take.
      + do 3 f_equal. unfold range_of, reach. rewrite from_spec, list_filter_filter.
        f_equal. apply list_filter_iff. intros x. tauto.
      + done.
      + intros x Hx. apply list_elem_of_filter in Hx as [_ Hx]. rewrite from_spec in Hx.
        apply list_elem_of_filter in Hx as [_ Hx]. by eapply directed_contents.
    - rewrite from_spec. pose proof (length_filter (fun e : string * ptr => ~ precedes d e.1 first) (directed d (m_tree m1))).
      assert (length (directed d (m_tree m1)) = length (bt_entries (m_tree m1))) by (destruct d; simpl; [apply length_rev|done]). lia. }
  unfold reference_range. fold limit. destruct (ip_Descending params); apply Hrun.
Qed.

(** What the reference is: the items of the range, each once, in order. *)
Lemma values_range (m : Mem) d l : wf m -> in_order d l -> (forall e, e ∈ l -> e ∈ directed d (m_tree m)) ->
  StronglySorted (fun i j => precedes d (k_s (i_Key i)) (k_s (i_Key j))) (values m l) /\
  forall i, i ∈ values m l <-> contents m !! k_s (i_Key i) = Some i /\ exists e, e ∈ l /\ e.1 = k_s (i_Key i).
Proof.
  intros Hwf. induction l as [|e l IH]; intros Hord Hin.
  { split; [constructor|]. unfold values. simpl. intros i. set_solver. }
  apply in_order_cons in Hord as [Hord He].
  destruct (IH Hord) as [Hs Hv]; [intros x Hx; apply Hin; by right|].
  destruct (directed_contents m d e Hwf) as [i Hi]; [apply Hin; by left|].
  pose proof (contents_key m _ _ Hwf Hi) as Hk. unfold values. simpl. rewrite Hi. simpl. fold (values m l). split.
  - constructor; [done|]. apply Forall_forall. intros j Hj. apply Hv in Hj as (_ & x & Hx & Ex).
    rewrite Hk, <- Ex. by apply He.
  - intros j. rewrite elem_of_cons, Hv. split.
    + intros [->|(Hc & x & Hx & Ex)]; [|split; [done|]; exists x; set_solver].
      split; [by rewrite Hk|]. exists e. set_solver.
    + intros (Hc & x & [->|Hx]%elem_of_cons & Ex); [left; congruence|right; eauto].
Qed.

Lemma reference_range_values (m : Mem) params : wf m ->
  let d := ip_Descending params in
  exists l, reference_range m params = take (Z.to_nat (if ip_Limit params <=? 0 then DefaultRangeLimit else ip_Limit params)) l /\
    StronglySorted (fun i j => precedes d (k_s (i_Key i)) (k_s (i_Key j))) l /\
    forall i, i ∈ l <-> contents m !! k_s (i_Key i) = Some i /\
      at_most (k_s (ip_StartKey params)) (k_s (i_Key i)) /\ at_most (k_s (i_Key i)) (k_s (ip_EndKey params)).
Proof.
  intros Hwf d. unfold reference_range. fold d.
  set (first := if d then _ else _). set (last := if d then _ else _).
  destruct (values_range m d (range_of d first last (directed d (m_tree m))) Hwf) as [Hs Hv].
  { unfold range_of. apply StronglySorted_filter, directed_in_order. }
  { intros e He. by apply list_elem_of_filter in He as [_ He]. }
  eexists. split; [reflexivity|]. split; [exact Hs|]. intros i. rewrite Hv.
  split.
  - intros (Hc & e & He & Ek). split; [done|]. apply list_elem_of_filter in He as [He _]. rewrite Ek in He.
    unfold precedes in He. rewrite !at_most_not_before. unfold first, last in He. destruct d; tauto.
  - intros (Hc & Ha & Hb). split; [done|]. rewrite lookup_contents in Hc.
    destruct (bt_Get (m_tree m) (k_s (i_Key i))) as [p|] eqn:Eg; [|done].
    exists (k_s (i_Key i), p). split; [|done]. apply list_elem_of_filter. split.
    + simpl. unfold precedes, first, last. rewrite at_most_not_before in Ha, Hb. destruct d; tauto.
    + apply bt_get_entries in Eg. unfold directed. destruct d; [|done].
      apply list_elem_of_In. rewrite <- in_rev. by apply list_elem_of_In.
Qed.
End Range.
