(* ===== verification/MemoryBackend.v ===== *)
(** * The memory backend keeps the contract of a backend

    The states of a cluster's memory backend as a type, the interface
    [Backend] over it, and the laws of [BackendSpec]: what the login runtime
    assumes of its backend is what this one does, with one second of grace. *)

From S2P Require Import Prelude GoStrings Types Key Backend BTree MinHeap Memory MemoryFacts.
From S2P Require Import MemoryRefinement.
#[local] Open Scope Z_scope.

Section Contract.
Context {T : Type} `{BTreeSpec ptr T} `{Revisions}.
#[local] Abbreviation Mem := (Memory T).

(** A backend that is not the mirror of another one. *)
Definition cluster_state (m : Mem) : Prop := wf m /\ m_Mirror m = false.
Definition MemoryStore : Type := { m : Mem | cluster_state m }.

Lemma run_cluster_state o (m : Mem) : cluster_state m -> cluster_state (fst (run o m)).
Proof.
  intros [Hwf Hm]. destruct (run_refines m o Hwf) as (m' & r & -> & (es & Hs) & _).
  split; [apply Hs|]. simpl. by rewrite (fr_Mirror _ _ (sp_frame _ _ _ Hs)).
Qed.

(** A call of the interface. *)
Definition call (o : op) : M MemoryStore output := fun s =>
  let out := run o (proj1_sig s) in
  (exist _ (fst out) (run_cluster_state o _ (proj2_sig s)), snd out).

Definition as_revision (out : output) : M MemoryStore string :=
  match out with OutLease l => mret (ls_Revision l) | _ => mfail missingKey end.
Definition as_item (out : output) : M MemoryStore Item :=
  match out with OutItem i => mret i | _ => mfail missingKey end.

#[export] Instance memory_clock : Clock MemoryStore := fun s => m_now (proj1_sig s).
#[export] Instance memory_backend : Backend MemoryStore := {|
  bk_Create := fun i => let* out := call (DoCreate i) in as_revision out;
  bk_Get := fun k => let* out := call (DoGet k) in as_item out |}.

(** What a lookup returns is what the sweep that opens it leaves. *)
#[export] Instance memory_view : LiveView MemoryStore := fun s k => after_expiry (proj1_sig s) !! k.

(** The heap compares whole seconds. *)
#[export] Instance memory_grace : Grace MemoryStore := Second.

(** ** What a call does to the view *)

Lemma store_swept (s : MemoryStore) : swept (Now s) (contents (proj1_sig s)) (after_expiry (proj1_sig s)).
Proof.
  destruct s as [m [Hwf Hm]]. pose proof (after_expiry_swept m Hwf) as Hsw. unfold swept_by in Hsw. by rewrite Hm in Hsw.
Qed.

Lemma graced_unexpired now i : graced now i -> unexpired (now - Second) i.
Proof.
  unfold graced, unexpired. destruct (i_Expires i) as [e|]; [|done]. intros Hg. specialize (Hg e eq_refl).
  pose proof (Z.div_mod now Second ltac:(done)). pose proof (Z.mod_pos_bound now Second ltac:(done)).
  pose proof (Z.mul_div_le e Second ltac:(done)). assert (Second * (now / Second) <= Second * (e / Second)); [|lia].
  by apply Z.mul_le_mono_nonneg_l.
Qed.

Lemma not_expired now i : unexpired now i -> ~ expired now i.
Proof. unfold unexpired, expired. intros Hu (e & He & Hle). rewrite He in Hu. lia. Qed.

(** ** A call against its specification *)

Lemma call_spec o (s s' : MemoryStore) r : call o s = (s', r) ->
  Now s' = Now s /\
  match guard false o with
  | Some e => proj1_sig s' = proj1_sig s /\ r = Err e
  | None => exec false (CreateRevision (m_revisions (proj1_sig s))) o (after_expiry (proj1_sig s)) =
            (contents (proj1_sig s'), r)
  end.
Proof.
  unfold call. intros [= <- <-]. destruct s as [m [Hwf Hm]]. simpl.
  destruct (run_refines m o Hwf) as (m' & r & E & (es & Hs) & Hr). unfold Now, memory_clock. simpl. rewrite E. simpl.
  split; [apply (sp_frame _ _ _ Hs)|]. unfold refines in Hr. rewrite Hm in Hr. exact Hr.
Qed.

(** The view after a call that left [kv]. *)
Lemma view_of (s : MemoryStore) k i : live s k = Some i -> contents (proj1_sig s) !! k = Some i.
Proof. intros Hl. eapply lookup_weaken; [exact Hl|apply (sw_old _ _ _ (store_swept s))]. Qed.

Lemma view_keeps (s : MemoryStore) k i :
  contents (proj1_sig s) !! k = Some i -> unexpired (Now s) i -> live s k = Some i.
Proof. intros Hc Hu. by apply (sw_kept _ _ _ (store_swept s)), not_expired. Qed.

Lemma view_kept (K : string -> Prop) (s s' : MemoryStore) : Now s' = Now s ->
  (forall k, K k -> contents (proj1_sig s') !! k = live s k) -> kept K s s'.
Proof.
  intros Ht Hc. split; [lia|]. intros k i Hk. split.
  - intros Hl Hu. apply view_keeps; [by rewrite Hc|done].
  - intros Hl%view_of. by rewrite <- Hc.
Qed.

Lemma same_kept (s s' : MemoryStore) K : proj1_sig s' = proj1_sig s -> kept K s s'.
Proof. intros E. unfold kept, live, Now, memory_view, memory_clock. rewrite E. split; [lia|]. tauto. Qed.

Lemma kept_grown (s s' : MemoryStore) : kept (fun _ => True) s s' -> grown s s'.
Proof. intros [Ht Hk]. split; [done|]. intros k i. by apply Hk. Qed.

(** ** The laws *)

Inductive created (i : Item) (s s' : MemoryStore) : result string -> Prop :=
| created_new rev :
    live s (k_s (i_Key i)) = None ->
    contents (proj1_sig s') = put_item (with_rev rev i) (after_expiry (proj1_sig s)) ->
    created i s s' (Ok rev)
| created_exists old : live s (k_s (i_Key i)) = Some old ->
    contents (proj1_sig s') = after_expiry (proj1_sig s) ->
    created i s s' (Err (AlreadyExists "key %q already exists" [KeyString (i_Key i)]))
| created_refused : proj1_sig s' = proj1_sig s -> created i s s' (Err missingKey).

Lemma bk_Create_spec i (s s' : MemoryStore) r : bk_Create i s = (s', r) -> Now s' = Now s /\ created i s s' r.
Proof.
  cbn [bk_Create memory_backend]. unfold mthen. destruct (call (DoCreate i) s) as [s1 o] eqn:E.
  apply call_spec in E as [Ht Hx]. simpl in Hx. destruct (IsZero (i_Key i)).
  - destruct Hx as [Es ->]. intros [= <- <-]. split; [done|]. by constructor 3.
  - destruct (after_expiry (proj1_sig s) !! k_s (i_Key i)) as [old|] eqn:El; injection Hx as Hc <-;
      intros [= <- <-]; (split; [done|]).
    + by apply (created_exists i s s1 old).
    + by constructor 1.
Qed.

Lemma bk_Get_spec k (s s' : MemoryStore) r : bk_Get k s = (s', r) ->
  kept (fun _ => True) s s' /\
  match r with
  | Ok i => live s (k_s k) = Some i
  | Err e => IsNotFound e = true -> live s (k_s k) = None
  end.
Proof.
  cbn [bk_Get memory_backend]. unfold mthen. destruct (call (DoGet k) s) as [s1 o] eqn:E.
  apply call_spec in E as [Ht Hx]. simpl in Hx. destruct (IsZero k).
  - destruct Hx as [Es ->]. intros [= <- <-]. split; [by apply same_kept|done].
  - injection Hx as Hc <-. unfold live, memory_view.
    assert (kept (fun _ => True) s s1) by (apply view_kept; [done|]; intros k' _; by rewrite <- Hc).
    destruct (after_expiry (proj1_sig s) !! k_s k) as [i|] eqn:El; intros [= <- <-]; done.
Qed.

Lemma created_kept i (s s' : MemoryStore) r : Now s' = Now s -> created i s s' r ->
  kept (fun k => k <> k_s (i_Key i)) s s' /\ grown s s'.
Proof.
  intros Ht [rev Hn Hc|old Hl Hc|E].
  - split.
    + apply view_kept; [done|]. intros k Hk. rewrite Hc. unfold put_item. simpl. rewrite lookup_insert_ne; [done|congruence].
    + split; [lia|]. intros k j Hl Hu. apply view_keeps; [|done]. rewrite Hc. unfold put_item. simpl.
      rewrite lookup_insert_ne; [exact Hl|]. intros <-. congruence.
  - assert (kept (fun _ => True) s s') by (apply view_kept; [done|]; intros k _; by rewrite Hc).
    split; [eapply kept_weaken; [|eassumption]; done|by apply kept_grown].
  - split; [by apply same_kept|by apply kept_grown, same_kept].
Qed.

Lemma same_view (s s' : MemoryStore) k : proj1_sig s' = proj1_sig s -> live s' k = live s k.
Proof. unfold live, memory_view. by intros ->. Qed.

#[export] Instance memory_spec : BackendSpec MemoryStore.
Proof.
  split.
  - intros s k i Hl. apply graced_unexpired. exact (sw_graced _ _ _ (store_swept s) k i Hl).
  - intros i s s' r [Ht Hc]%bk_Create_spec. inversion Hc as [rev Hn E| |]; subst. split; [done|]. intros Hu.
    exists (with_rev r i). split; [|done]. apply view_keeps; [|done]. rewrite E. apply lookup_insert_eq.
  - intros i s s' r i' [Ht Hc]%bk_Create_spec Hl. destruct Hc as [rev Hn E|old Ho E|E].
    + apply view_of in Hl. rewrite E in Hl. unfold put_item in Hl. simpl in Hl. rewrite lookup_insert_eq in Hl.
      injection Hl as <-. by right.
    + left. apply view_of in Hl. by rewrite E in Hl.
    + left. by rewrite <- (same_view s s').
  - intros i s s' e [Ht Hc]%bk_Create_spec He. inversion Hc; subst; [eauto|done].
  - intros i s s' r [Ht Hc]%bk_Create_spec. apply and_comm. by eapply created_kept.
  - intros k s s' i [_ Hg]%bk_Get_spec. exact Hg.
  - intros k s s' e [[_ Hk] Hg]%bk_Get_spec He. destruct (live s' (k_s k)) as [i|] eqn:Hl; [|done].
    apply (proj2 (Hk _ i I)) in Hl. by rewrite (Hg He) in Hl.
  - intros k s s' r [Hk _]%bk_Get_spec. exact Hk.
Qed.

(** ** Time passes *)

Definition set_now (t : time) (m : Mem) : Mem :=
  mkMemory (m_tree m) (m_heap m) (m_next m) t (m_Mirror m) (m_EventsOff m) (m_revisions m) (m_buf m).

Lemma set_now_cluster t (m : Mem) : cluster_state m -> cluster_state (set_now t m).
Proof. intros [Hwf Hm]. split; [by eapply buf_wf|done]. Qed.

Definition tick (d : duration) (s : MemoryStore) : MemoryStore :=
  exist _ (set_now (Now s + Z.max 0 d) (proj1_sig s)) (set_now_cluster _ _ (proj2_sig s)).

Lemma drop_root_clock t i (m : Mem) :
  drop_root i (set_now t m) = let '(m', r) := drop_root i m in (set_now t m', r).
Proof.
  unfold drop_root, mthen, onHeap, mmodify. simpl. destruct (PopEl (m_heap m)) as [h [p|e]]; [|done].
  rewrite !emit_eq. done.
Qed.

(** The sweep reads the clock once. *)
Lemma sweep_clock t now fuel : forall (m : Mem) removed, wf m ->
  removeExpired_loop fuel now removed (set_now t m) =
  let '(m', r) := removeExpired_loop fuel now removed m in (set_now t m', r).
Proof.
  induction fuel as [|fuel IH]; intros m removed Hwf; [done|].
  destruct (decide (heap_size (m_heap m) = 0%nat)) as [E0|E0].
  { rewrite !removeExpired_loop_settled by (by left). done. }
  destruct (root_cell m Hwf E0) as (p & x & e & Hp & Hx & _ & He).
  rewrite (removeExpired_round _ _ m _ _ _ _ Hp Hx He), (removeExpired_round _ _ (set_now t m) _ _ _ _ Hp Hx He).
  case_decide; [done|]. destruct (drop_root_spec m p x Hwf Hp Hx) as (m1 & E1 & Hst & _).
  unfold mthen. rewrite drop_root_clock, E1. apply IH, Hst.
Qed.

Lemma after_expiry_later (m : Mem) t : cluster_state m -> m_now m <= t -> after_expiry (set_now t m) ⊆ after_expiry m.
Proof.
  intros [Hwf Hm] Ht. unfold after_expiry, removeExpired, mthen, mget. simpl. rewrite Hm. simpl.
  rewrite (sweep_clock t t _ m 0 Hwf).
  pose proof (removeExpired_loop_later (m_now m) t (mh_Len (m_heap m)) Ht m 0 Hwf) as Hl.
  destruct (removeExpired_loop _ t 0 m) as [m' r]. by apply Hl.
Qed.

Lemma tick_kept K d s : kept K s (tick d s).
Proof.
  split; [unfold tick, Now, memory_clock; simpl; lia|]. intros k i Hk. split.
  - intros Hl Hu. apply view_keeps; [|done]. by apply view_of in Hl.
  - intros Hl. destruct s as [m Hm]. eapply lookup_weaken; [exact Hl|].
    apply (after_expiry_later m); [done|]. unfold Now, memory_clock. simpl. lia.
Qed.
End Contract.
