(* ===== verification/Ring.v ===== *)
(** * The ring buffer of a resumable connection: [lib/resumption/managedconn.go]

    A [buffer] is the part of a byte stream between two absolute positions,
    kept in an array that is indexed modulo its length.  Positions are 64 bit
    words.  A panic of the code is an error of the model. *)

From stdpp Require Import list.
From S2P Require Import Prelude GoStrings.
#[local] Open Scope Z_scope.

Definition u64 (x : Z) : Z := x mod 2 ^ 64.
Definition len64 (s : list byte) : Z := Z.of_nat (length s).

Definition divide_panic : error := Error KOther "integer divide by zero" [] [].
Definition endless_loop : error := Error KOther "the loop does not end" [] [].

Definition initialBufferSize : Z := 4096.

Record buffer := mkBuffer {
  b_data : list byte;
  b_start : Z;
  b_end : Z;
}.
Definition emptyBuffer : buffer := mkBuffer [] 0 0.

(** A slice of an array: where it starts and how many bytes it has. *)
Record view := mkView {
  v_off : nat;
  v_len : nat;
}.
Definition noView : view := mkView 0 0.
Definition view_bytes (data : list byte) (v : view) : list byte := take (v_len v) (drop (v_off v) data).

(** [data[from:]], [data[:to]] and [data[from:to]] *)
Definition slice_from (data : list byte) (from : Z) : view := mkView (Z.to_nat from) (length data - Z.to_nat from).
Definition slice_to (to : Z) : view := mkView 0 (Z.to_nat to).
Definition slice (from to : Z) : view := mkView (Z.to_nat from) (Z.to_nat to - Z.to_nat from).

(** [copy(data[v], src)] *)
Definition copy_in (data : list byte) (v : view) (src : list byte) : list byte * nat :=
  let n := Nat.min (v_len v) (length src) in
  ((take (v_off v) data ++ take n src ++ drop (v_off v + n) data)%list, n).

(** ** The operations *)

Definition bounds (w : buffer) : result (Z * Z) :=
  fail_if len64 (b_data w) =? 0 with divide_panic;
  Ok (b_start w mod len64 (b_data w), b_end w mod len64 (b_data w)).

Definition blen (w : buffer) : Z := u64 (b_end w - b_start w).

Definition buffered (w : buffer) : result (view * view) :=
  if blen w =? 0 then Ok (noView, noView)
  else
    let? b := bounds w in
    let '(l, r) := b in
    if r <=? l then Ok (slice_from (b_data w) l, slice_to r)
    else Ok (slice l r, noView).

Definition free (w : buffer) : result (view * view) :=
  if blen w =? 0 then
    let? b := bounds w in
    let '(l, _) := b in Ok (slice_from (b_data w) l, slice_to l)
  else
    let? b := bounds w in
    let '(l, r) := b in
    if r <=? l then Ok (slice r l, noView)
    else Ok (slice_from (b_data w) r, slice_to l).

(** [for n > newCapacity { newCapacity *= 2 }]: after 64 doublings the word is
    0 for good. *)
Fixpoint grow (fuel : nat) (n newCapacity : Z) : result Z :=
  match fuel with
  | O => Err endless_loop
  | S fuel' => if newCapacity <? n then grow fuel' n (u64 (newCapacity * 2)) else Ok newCapacity
  end.

(** [reserve] calls [append], which calls [reserve] again, this time with
    enough space. *)
Definition reserve_by (append : buffer -> list byte -> result buffer) (w : buffer) (n : Z) : result buffer :=
  let n := u64 (n + blen w) in
  if n <=? len64 (b_data w) then Ok w
  else
    let? newCapacity := grow 65 n (Z.max (u64 (len64 (b_data w) * 2)) initialBufferSize) in
    let? d := buffered w in
    let d1 := view_bytes (b_data w) d.1 in
    let d2 := view_bytes (b_data w) d.2 in
    let w := mkBuffer (replicate (Z.to_nat newCapacity) (chr 0)) (b_start w) (b_start w) in
    let? w := append w d1 in
    append w d2.

Fixpoint append_by (depth : nat) (w : buffer) (b : list byte) : result buffer :=
  match depth with
  | O => Err endless_loop
  | S depth' =>
      let? w := reserve_by (append_by depth') w (len64 b) in
      let? f := free w in
      let '(data, n) := copy_in (b_data w) f.1 b in
      let '(data, _) := copy_in data f.2 (drop n b) in
      Ok (mkBuffer data (b_start w) (u64 (b_end w + len64 b)))
  end.

Definition append (w : buffer) (b : list byte) : result buffer := append_by 2 w b.
Definition reserve (w : buffer) (n : Z) : result buffer := reserve_by (append_by 1) w n.

Definition write (w : buffer) (b : list byte) (max : Z) : result (buffer * Z) :=
  if max <=? blen w then Ok (w, 0)
  else
    let s := Z.min (u64 (max - blen w)) (len64 b) in
    let? w := append w (take (Z.to_nat s) b) in
    Ok (w, s).

Definition advance (w : buffer) (n : Z) : buffer :=
  let start := u64 (b_start w + n) in
  mkBuffer (b_data w) start (if b_end w <? start then start else b_end w).

(** [read] into a slice of [size] bytes: what it puts there. *)
Definition read (w : buffer) (size : nat) : result (buffer * list byte) :=
  let? d := buffered w in
  let c1 := take size (view_bytes (b_data w) d.1) in
  let c2 := take (size - length c1) (view_bytes (b_data w) d.2) in
  Ok (advance w (len64 (c1 ++ c2)), (c1 ++ c2)%list).

(** ** The invariant *)

Definition held (w : buffer) : Z := b_end w - b_start w.

Record valid (w : buffer) : Prop := {
  vl_start : 0 <= b_start w <= b_end w;
  vl_end : b_end w < 2 ^ 64;
  vl_held : held w <= len64 (b_data w);
  vl_size : b_data w = [] \/ exists k, len64 (b_data w) = 2 ^ k /\ 0 <= k <= 62;
}.

(** The bytes between the two positions. *)
Definition content (w : buffer) : list byte := take (Z.to_nat (held w)) (rotate (Z.to_nat (b_start w)) (b_data w)).
(** And the unused ones, in the order they will be used. *)
Definition unused (w : buffer) : list byte := drop (Z.to_nat (held w)) (rotate (Z.to_nat (b_start w)) (b_data w)).

Lemma u64_small x : 0 <= x < 2 ^ 64 -> u64 x = x.
Proof. apply Z.mod_small. Qed.

Lemma blen_held w : valid w -> blen w = held w.
Proof. intros [? ? ? ?]. unfold blen, held. apply u64_small. lia. Qed.

Lemma empty_valid : valid emptyBuffer.
Proof. split; [simpl; lia|simpl; lia|by vm_compute|by left]. Qed.

(** ** How the content lies in the array

    Either it stops before the end of the array, or it goes on at its front. *)

Inductive layout (w : buffer) (A B C : list byte) : Prop :=
| layout_flat :   (* unused A, content B, unused C *)
    b_data w = (A ++ B ++ C)%list -> C <> [] ->
    b_start w mod len64 (b_data w) = len64 A -> b_end w mod len64 (b_data w) = len64 (A ++ B) ->
    content w = B -> unused w = (C ++ A)%list -> layout w A B C
| layout_wrapped :   (* content A, unused B, content C *)
    b_data w = (A ++ B ++ C)%list -> C <> [] ->
    b_end w mod len64 (b_data w) = len64 A -> b_start w mod len64 (b_data w) = len64 (A ++ B) ->
    content w = (C ++ A)%list -> unused w = B -> layout w A B C.

Lemma mod_shift a n c : 0 < c -> 0 <= a mod c + n < c -> (a + n) mod c = a mod c + n.
Proof. intros Hc Hn. rewrite <- Z.add_mod_idemp_l by lia. by apply Z.mod_small. Qed.

Lemma mod_wrap a n c : 0 < c -> c <= a mod c + n < 2 * c -> (a + n) mod c = a mod c + n - c.
Proof.
  intros Hc Hn. rewrite <- Z.add_mod_idemp_l by lia.
  replace (a mod c + n) with (a mod c + n - c + 1 * c) at 1 by lia. rewrite Z_mod_plus_full. apply Z.mod_small. lia.
Qed.

Lemma rotate_split (data : list byte) (s : Z) : data <> [] -> 0 <= s ->
  rotate (Z.to_nat s) data = (drop (Z.to_nat (s mod len64 data)) data ++ take (Z.to_nat (s mod len64 data)) data)%list.
Proof.
  intros Hd Hs. unfold rotate, len64.
  replace (Z.to_nat s mod length data)%nat with (Z.to_nat (s mod Z.of_nat (length data))); [done|].
  rewrite <- (Z2Nat.id s) at 1 by done. rewrite <- Nat2Z.inj_mod. by rewrite Nat2Z.id.
Qed.

Lemma cut (D : list byte) (l h : nat) : (l < length D)%nat -> (h <= length D)%nat ->
  exists A B C, D = (A ++ B ++ C)%list /\ C <> [] /\
    ((length A = l /\ length B = h) \/ (length A + length D = l + h /\ length (A ++ B) = l)%nat).
Proof.
  intros Hl Hh. destruct (Nat.lt_ge_cases (l + h) (length D)) as [Hf|Hw].
  - exists (take l D), (take h (drop l D)), (drop (l + h) D).
    rewrite <- drop_drop, !take_drop. split; [done|]. rewrite drop_drop. split.
    + intros E%(f_equal length). rewrite length_drop in E. simpl in E. lia.
    + left. rewrite !length_take, length_drop. lia.
  - set (a := (l + h - length D)%nat).
    exists (take a D), (take (l - a) (drop a D)), (drop l D). split; [|split].
    + replace (drop l D) with (drop (l - a) (drop a D)) by (rewrite drop_drop; f_equal; lia). by rewrite !take_drop.
    + intros E%(f_equal length). rewrite length_drop in E. simpl in E. lia.
    + right. rewrite length_app, !length_take, length_drop. lia.
Qed.

Lemma layout_ex w : valid w -> b_data w <> [] -> exists A B C, layout w A B C.
Proof.
  intros [Hs He Hh _] Hd. pose proof (rotate_split (b_data w) (b_start w) Hd (proj1 Hs)) as Er.
  assert (Hc : 0 < len64 (b_data w)) by (unfold len64; destruct (b_data w); [done|cbn [length]; lia]).
  pose proof (Z.mod_pos_bound (b_start w) _ Hc) as Hm.
  assert (Eend : b_end w = b_start w + held w) by (unfold held; lia).
  assert (Hh0 : 0 <= held w) by (unfold held; lia).
  destruct (cut (b_data w) (Z.to_nat (b_start w mod len64 (b_data w))) (Z.to_nat (held w)))
    as (A & B & C & ED & HC & Hcase); [unfold len64 in *; lia..|].
  exists A, B, C. assert (0 < len64 C) by (unfold len64; destruct C; [done|cbn [length]; lia]).
  assert (Elen : len64 (b_data w) = len64 A + len64 B + len64 C) by (unfold len64; rewrite ED, !length_app; lia).
  destruct Hcase as [[HA HB]|[HA HB]].
  - assert (El : b_start w mod len64 (b_data w) = len64 A) by (unfold len64 in *; lia).
    assert (Eh : held w = len64 B) by (unfold len64; lia).
    rewrite El in Er. unfold len64 in Er at 1 2. rewrite Nat2Z.id, ED, drop_app_length, take_app_length in Er.
    assert (EL : rotate (Z.to_nat (b_start w)) (b_data w) = (B ++ C ++ A)%list) by (rewrite ED, Er, <- app_assoc; done).
    apply layout_flat; [done|done|done| | |].
    + rewrite Eend, mod_shift by (rewrite ?El; unfold len64 in *; lia). rewrite El, Eh. unfold len64. rewrite length_app. lia.
    + unfold content. rewrite EL. apply take_app_length'. unfold len64 in Eh. lia.
    + unfold unused. rewrite EL. apply drop_app_length'. unfold len64 in Eh. lia.
  - assert (El : b_start w mod len64 (b_data w) = len64 (A ++ B)) by (unfold len64 in *; lia).
    assert (Eh : held w = len64 C + len64 A) by (unfold len64 in *; rewrite length_app in *; lia).
    rewrite El in Er. unfold len64 in Er at 1 2. rewrite Nat2Z.id, ED, app_assoc, drop_app_length, take_app_length in Er.
    assert (EL : rotate (Z.to_nat (b_start w)) (b_data w) = ((C ++ A) ++ B)%list) by (rewrite ED, app_assoc, Er, <- app_assoc; done).
    assert (length C + length A = Z.to_nat (held w))%nat by (unfold len64 in *; lia).
    apply layout_wrapped; [done|done| |done| |].
    + rewrite Eend, mod_wrap by (rewrite ?El; unfold len64 in *; rewrite ?length_app; lia).
      rewrite El, Eh. unfold len64 in *. rewrite length_app. lia.
    + unfold content. rewrite EL. apply take_app_length'. rewrite length_app. lia.
    + unfold unused. rewrite EL. apply drop_app_length'. rewrite length_app. lia.
Qed.

(** ** Copies *)

(** [R] is the part of the array that is written. *)
Definition overwritten (R src : list byte) : list byte := (take (length R) src ++ drop (length src) R)%list.

Lemma copy_in_region P R Q src :
  copy_in (P ++ R ++ Q) (mkView (length P) (length R)) src =
  ((P ++ overwritten R src ++ Q)%list, Nat.min (length R) (length src)).
Proof.
  unfold copy_in, overwritten. simpl. rewrite take_app_length. f_equal. f_equal. rewrite <- app_assoc. f_equal.
  - destruct (Nat.le_ge_cases (length R) (length src)).
    + by rewrite Nat.min_l.
    + rewrite Nat.min_r by done. by rewrite !take_ge.
  - rewrite drop_app_add. destruct (Nat.le_ge_cases (length R) (length src)).
    + rewrite Nat.min_l, drop_app_length, (drop_ge R) by done. done.
    + rewrite Nat.min_r by done. by rewrite drop_app_le.
Qed.

Lemma overwritten_length R src : length (overwritten R src) = length R.
Proof. unfold overwritten. rewrite length_app, length_take, length_drop. lia. Qed.

Lemma overwritten_all R src : (length src <= length R)%nat -> overwritten R src = (src ++ drop (length src) R)%list.
Proof. intros Hs. unfold overwritten. by rewrite take_ge. Qed.

(** Two copies, the second of what the first left over. *)
Lemma overwritten_two C A src : (length src <= length C + length A)%nat ->
  (overwritten C src ++ overwritten A (drop (Nat.min (length C) (length src)) src))%list = (src ++ drop (length src) (C ++ A))%list.
Proof.
  intros Hs. destruct (Nat.le_ge_cases (length src) (length C)) as [Hc|Hc].
  - rewrite Nat.min_r, drop_all, overwritten_all by done. unfold overwritten. rewrite take_nil. simpl.
    rewrite drop_0, drop_app_le by done. by rewrite app_assoc.
  - rewrite Nat.min_l by done. unfold overwritten. rewrite (drop_ge C) by done. rewrite app_nil_r, length_drop.
    rewrite (take_ge (drop _ src)) by (rewrite length_drop; lia). rewrite app_assoc, take_drop.
    rewrite drop_app_ge by done. done.
Qed.

Lemma copy_noView data src : copy_in data noView src = (data, 0%nat).
Proof. unfold copy_in. simpl. by rewrite drop_0. Qed.

(** ** What the views are *)

Lemma held_content w : valid w -> held w = len64 (content w).
Proof.
  intros [? ? Hh _]. unfold content, len64 in *. rewrite length_take, length_rotate. unfold held in *. lia.
Qed.

Lemma bounds_eq w : b_data w <> [] -> bounds w = Ok (b_start w mod len64 (b_data w), b_end w mod len64 (b_data w)).
Proof.
  intros Hd. unfold bounds. destruct (Z.eqb_spec (len64 (b_data w)) 0) as [E|]; [|done].
  unfold len64 in E. by destruct (b_data w).
Qed.

(** The cases of [buffered] and [free]. *)
Lemma views_flat w A B C : valid w -> b_data w = (A ++ B ++ C)%list -> C <> [] ->
  b_start w mod len64 (b_data w) = len64 A -> b_end w mod len64 (b_data w) = len64 (A ++ B) -> content w = B ->
  buffered w = Ok (if decide (B = []) then (noView, noView) else (mkView (length A) (length B), noView)) /\
  free w = Ok (mkView (length (A ++ B)) (length C), mkView 0 (length A)).
Proof.
  intros Hv ED HC El Er Ec. assert (Hd : b_data w <> []) by (rewrite ED; by destruct A, B).
  pose proof (held_content w Hv) as Hh. rewrite Ec in Hh.
  assert (Elen : length (b_data w) = (length A + length B + length C)%nat) by (rewrite ED, !length_app; lia).
  unfold buffered, free. rewrite (blen_held w Hv), (bounds_eq w Hd), Hh, El, Er. unfold rbind, slice_from, slice, slice_to.
  destruct (Z.eqb_spec (len64 B) 0) as [E0|E0].
  - assert (B = []) as -> by (destruct B; [done|unfold len64 in E0; cbn [length] in E0; lia]).
    rewrite decide_True, app_nil_r by done. split; [done|]. unfold len64. rewrite Nat2Z.id, Elen. simpl.
    do 3 f_equal. lia.
  - assert (B <> []) by (intros ->; by apply E0). rewrite decide_False by done.
    destruct (Z.leb_spec (len64 (A ++ B)) (len64 A)) as [Hle|_].
    { unfold len64 in *. rewrite length_app in Hle. lia. }
    unfold len64. rewrite !Nat2Z.id, Elen, length_app. split; do 3 f_equal; lia.
Qed.

Lemma views_wrapped w A B C : valid w -> b_data w = (A ++ B ++ C)%list -> C <> [] ->
  b_end w mod len64 (b_data w) = len64 A -> b_start w mod len64 (b_data w) = len64 (A ++ B) -> content w = (C ++ A)%list ->
  buffered w = Ok (mkView (length (A ++ B)) (length C), mkView 0 (length A)) /\
  free w = Ok (mkView (length A) (length B), noView).
Proof.
  intros Hv ED HC Er El Ec. assert (Hd : b_data w <> []) by (rewrite ED; by destruct A, B).
  pose proof (held_content w Hv) as Hh. rewrite Ec in Hh.
  assert (Elen : length (b_data w) = (length A + length B + length C)%nat) by (rewrite ED, !length_app; lia).
  unfold buffered, free. rewrite (blen_held w Hv), (bounds_eq w Hd), Hh, El, Er. unfold rbind, slice_from, slice, slice_to.
  destruct (Z.eqb_spec (len64 (C ++ A)) 0) as [E0|E0].
  { unfold len64 in E0. rewrite length_app in E0. destruct C; [done|cbn [length] in E0; lia]. }
  destruct (Z.leb_spec (len64 A) (len64 (A ++ B))) as [_|Hlt].
  2: { unfold len64 in *. rewrite length_app in Hlt. lia. }
  unfold len64. rewrite !Nat2Z.id, Elen, length_app. split; do 3 f_equal; lia.
Qed.

Lemma content_nil w : b_data w = [] -> content w = [].
Proof. unfold content, rotate. intros ->. rewrite drop_nil, take_nil. simpl. by rewrite take_nil. Qed.

Lemma buffered_spec w : valid w -> exists d1 d2, buffered w = Ok (d1, d2) /\
  (view_bytes (b_data w) d1 ++ view_bytes (b_data w) d2)%list = content w /\
  (view_bytes (b_data w) d1 = [] -> view_bytes (b_data w) d2 = []).
Proof.
  intros Hv. destruct (decide (b_data w = [])) as [Hd|Hd].
  { pose proof (held_content w Hv) as Hh. pose proof (content_nil w Hd) as Ec.
    exists noView, noView. unfold buffered. rewrite (blen_held w Hv), Hh, Ec. done. }
  destruct (layout_ex w Hv Hd) as (A & B & C & [ED HC El Er Ec _|ED HC Er El Ec _]).
  - destruct (views_flat w A B C) as [E _]; [done..|]. rewrite E. case_decide as HB.
    + exists noView, noView. by rewrite Ec, HB.
    + exists (mkView (length A) (length B)), noView. split; [done|]. unfold view_bytes. simpl.
      rewrite ED, drop_app_length, take_app_length, app_nil_r. done.
  - destruct (views_wrapped w A B C) as [E _]; [done..|]. rewrite E.
    eexists _, _. split; [done|]. unfold view_bytes. simpl.
    rewrite ED, app_assoc, drop_app_length, take_ge by done. rewrite drop_0, <- app_assoc, take_app_length. done.
Qed.

(** ** Appending where there is room *)

(** What [append] does once there is room. *)
(** The first of the two free views has room when there is some. *)
Lemma free_spec w : valid w -> b_data w <> [] -> exists f1 f2, free w = Ok (f1, f2) /\
  Z.of_nat (v_len f1) <= len64 (b_data w) - held w /\ (held w < len64 (b_data w) -> (0 < v_len f1)%nat).
Proof.
  intros Hv Hd. pose proof (held_content w Hv) as Hh.
  destruct (layout_ex w Hv Hd) as (A & B & C & [ED HC El Er Ec _|ED HC Er El Ec _]).
  - destruct (views_flat w A B C) as [_ ->]; [done..|]. eexists _, _. split; [done|]. cbn [v_len].
    rewrite Hh, Ec, ED. unfold len64. rewrite !length_app. split; [lia|]. destruct C; [done|cbn [length]; lia].
  - destruct (views_wrapped w A B C) as [_ ->]; [done..|]. eexists _, _. split; [done|]. cbn [v_len].
    rewrite Hh, Ec, ED. unfold len64. rewrite !length_app. split; lia.
Qed.

Definition fill (w : buffer) (b : list byte) : result buffer :=
  let? f := free w in
  let '(data, n) := copy_in (b_data w) f.1 b in
  let '(data, _) := copy_in data f.2 (drop n b) in
  Ok (mkBuffer data (b_start w) (u64 (b_end w + len64 b))).

(** [w'] is [w] with [b] at its end. *)
Record extends (w w' : buffer) (b : list byte) : Prop := {
  ex_valid : valid w';
  ex_start : b_start w' = b_start w;
  ex_end : b_end w' = b_end w + len64 b;
  ex_content : content w' = (content w ++ b)%list;
}.

Lemma extends_intro w data b : valid w -> length data = length (b_data w) ->
  held w + len64 b <= len64 (b_data w) -> b_end w + len64 b < 2 ^ 64 ->
  take (length (content w) + length b) (rotate (Z.to_nat (b_start w)) data) = (content w ++ b)%list ->
  extends w (mkBuffer data (b_start w) (u64 (b_end w + len64 b))) b.
Proof.
  intros Hv Hlen Hroom Hend Hc. pose proof (held_content w Hv) as Hh. destruct Hv as [Hs He Hheld Hsize].
  assert (0 <= len64 b) by (unfold len64; lia).
  rewrite u64_small by lia. split; simpl.
  - split; simpl; [lia|lia|unfold held in *; simpl; unfold len64 in *; rewrite Hlen; lia|].
    destruct Hsize as [Hn|Hk]; [left|right].
    + rewrite Hn in Hlen. by destruct data.
    + unfold len64 in *. by rewrite Hlen.
  - done.
  - done.
  - rewrite <- Hc. unfold content at 1. unfold held. simpl. f_equal. unfold held, len64 in *. lia.
Qed.

Lemma rotate_app (X Y : list byte) s : (X ++ Y)%list <> [] -> 0 <= s -> s mod len64 (X ++ Y) = len64 X ->
  rotate (Z.to_nat s) (X ++ Y) = (Y ++ X)%list.
Proof.
  intros Hd Hs Hm. rewrite rotate_split, Hm by done. unfold len64.
  by rewrite Nat2Z.id, drop_app_length, take_app_length.
Qed.

Lemma fill_spec w b : valid w -> b_data w <> [] -> held w + len64 b <= len64 (b_data w) -> b_end w + len64 b < 2 ^ 64 ->
  exists w', fill w b = Ok w' /\ extends w w' b /\ length (b_data w') = length (b_data w).
Proof.
  intros Hv Hd Hroom Hend. pose proof (held_content w Hv) as Hh. unfold fill.
  destruct (layout_ex w Hv Hd) as (A & B & C & [ED HC El Er Ec _|ED HC Er El Ec _]).
  - destruct (views_flat w A B C) as [_ ->]; [done..|]. unfold rbind. cbn [fst snd].
    assert (Hb : (length b <= length C + length A)%nat).
    { unfold len64 in *. rewrite Hh, Ec, ED, !length_app in Hroom. lia. }
    rewrite ED. replace (A ++ B ++ C)%list with ((A ++ B) ++ C ++ [])%list by (by rewrite app_nil_r, <- app_assoc).
    rewrite copy_in_region, app_nil_r.
    replace ((A ++ B) ++ overwritten C b)%list with ([] ++ A ++ (B ++ overwritten C b))%list by (by rewrite <- app_assoc).
    change 0%nat with (length (@nil byte)) at 1. rewrite copy_in_region. simpl app.
    eexists. split; [done|]. split.
    + apply extends_intro; [done| |done|done|].
      * rewrite ED, !length_app, !overwritten_length. lia.
      * rewrite (rotate_app (overwritten A _) (B ++ overwritten C b)).
        -- rewrite <- app_assoc, overwritten_two, Ec by done. rewrite app_assoc. apply take_app_length'. by rewrite length_app.
        -- intros E%(f_equal length). rewrite !length_app, !overwritten_length in E. destruct C; [done|simpl in E; lia].
        -- apply (vl_start w Hv).
        -- unfold len64 in *. rewrite !length_app, !overwritten_length. rewrite ED, !length_app in El. exact El.
    + simpl. rewrite !length_app, !overwritten_length. simpl. lia.
  - destruct (views_wrapped w A B C) as [_ ->]; [done..|]. unfold rbind. cbn [fst snd].
    assert (Hb : (length b <= length B)%nat).
    { unfold len64 in *. rewrite Hh, Ec, ED, !length_app in Hroom. lia. }
    rewrite ED, copy_in_region, copy_noView. eexists. split; [done|]. split.
    + apply extends_intro; [done| |done|done|].
      * rewrite ED, !length_app, !overwritten_length. lia.
      * rewrite app_assoc, (rotate_app (A ++ overwritten B b) C).
        -- rewrite overwritten_all, Ec by done.
           replace (C ++ A ++ b ++ drop (length b) B)%list with (((C ++ A) ++ b) ++ drop (length b) B)%list
             by (by rewrite <- !app_assoc).
           apply take_app_length'. by rewrite (length_app (C ++ A)).
        -- by intros [_ ?]%app_nil.
        -- apply (vl_start w Hv).
        -- unfold len64 in *. rewrite !length_app, !overwritten_length. rewrite ED, !length_app, Nat.add_assoc in El. exact El.
    + simpl. rewrite !length_app, !overwritten_length. simpl. lia.
Qed.

(** ** [reserve] and [append] *)

Lemma grow_spec fuel n k : 0 < n <= 2 ^ 62 -> 0 <= k <= 62 -> (Z.to_nat (62 - k) < fuel)%nat ->
  exists k', grow fuel n (2 ^ k) = Ok (2 ^ k') /\ n <= 2 ^ k' /\ k <= k' <= 62 /\ (k = k' \/ 2 ^ k' < 2 * n).
Proof.
  intros Hn. revert k. induction fuel as [|fuel IH]; intros k Hk Hf; [lia|]. simpl.
  destruct (Z.ltb_spec (2 ^ k) n) as [Hlt|Hge]; [|exists k; split_and!; [done|lia|lia|lia|by left]].
  assert (k < 62) by (apply (Z.pow_lt_mono_r_iff 2); lia).
  assert (E : 2 ^ k * 2 = 2 ^ (k + 1)) by (rewrite Z.pow_add_r by lia; lia).
  rewrite E, u64_small. 2: { split; [lia|]. apply Z.pow_lt_mono_r; lia. }
  destruct (IH (k + 1)) as (k' & Eg & Hge & Hk' & Hlast); [lia|lia|]. exists k'. rewrite Eg.
  split_and!; [done..|lia|lia|]. right. destruct Hlast as [<-|?]; [|done]. rewrite <- E. lia.
Qed.

Lemma room w n : valid w -> 0 <= n -> held w + n <= 2 ^ 62 -> u64 (n + blen w) = held w + n.
Proof.
  intros Hv Hn Hb. rewrite (blen_held w Hv). destruct Hv as [Hs He _ _]. unfold held in *.
  rewrite u64_small; [lia|]. split; [lia|]. assert (2 ^ 62 < 2 ^ 64) by done. lia.
Qed.

(** With enough room nothing changes. *)
Lemma reserve_room app w n : valid w -> 0 <= n -> held w + n <= len64 (b_data w) -> held w + n <= 2 ^ 62 ->
  reserve_by app w n = Ok w.
Proof.
  intros Hv Hn Hroom Hb. unfold reserve_by. rewrite room by done.
  by destruct (Z.leb_spec (held w + n) (len64 (b_data w))); [|lia].
Qed.

Lemma append_fill depth w b : valid w -> held w + len64 b <= len64 (b_data w) -> held w + len64 b <= 2 ^ 62 ->
  append_by (S depth) w b = fill w b.
Proof. intros Hv Hroom Hb. simpl. rewrite reserve_room; [done|done|unfold len64; lia|done|done]. Qed.

(** The array of [w'] is no larger than the least power of two, 4096 or more,
    that holds [n] bytes and the array of [w]. *)
Definition within (w w' : buffer) (n : Z) : Prop :=
  forall m, 12 <= m <= 62 -> len64 (b_data w) <= 2 ^ m -> n <= 2 ^ m -> len64 (b_data w') <= 2 ^ m.

(** The buffer [w] in another array. *)
Record reserved (w w' : buffer) (n : Z) : Prop := {
  rs_valid : valid w';
  rs_start : b_start w' = b_start w;
  rs_end : b_end w' = b_end w;
  rs_content : content w' = content w;
  rs_room : held w + n <= len64 (b_data w');
  rs_bound : within w w' (held w + n);
}.

Lemma size_pow w : valid w -> exists k, 0 <= k <= 62 /\
  Z.max (u64 (len64 (b_data w) * 2)) initialBufferSize = 2 ^ k \/ len64 (b_data w) = 2 ^ 62.
Proof.
  intros [_ _ _ [->|(k & -> & Hk)]].
  - exists 12. left. by vm_compute.
  - destruct (decide (k = 62)) as [->|Hne]; [exists 0; by right|]. exists (Z.max (k + 1) 12). left. split; [lia|].
    replace (2 ^ k * 2) with (2 ^ (k + 1)) by (rewrite Z.pow_add_r by lia; lia).
    rewrite u64_small. 2: { split; [lia|]. apply Z.pow_lt_mono_r; lia. }
    change initialBufferSize with (2 ^ 12). destruct (Z.max_spec (k + 1) 12) as [[? ->]|[? ->]].
    + apply Z.max_r, Z.pow_le_mono_r; lia.
    + apply Z.max_l, Z.pow_le_mono_r; lia.
Qed.

Lemma reserve_spec depth w n : valid w -> 0 <= n -> held w + n <= 2 ^ 62 ->
  exists w', reserve_by (append_by (S depth)) w n = Ok w' /\ reserved w w' n.
Proof.
  intros Hv Hn Hb. unfold reserve_by. rewrite room by done. pose proof (held_content w Hv) as Hh.
  assert (0 <= len64 (b_data w)) by (unfold len64; lia).
  destruct (Z.leb_spec (held w + n) (len64 (b_data w))) as [Hroom|Hsmall].
  { exists w. split; [done|]. split; try done. by intros m. }
  destruct (size_pow w Hv) as (k & [[Hk Ek]|Ek]); [|lia].
  assert (0 < held w + n) by (unfold len64 in Hsmall; lia).
  destruct (grow_spec 65 (held w + n) k) as (k' & Eg & Hge & Hk' & Hlast); [lia|lia|lia|].
  rewrite Ek, Eg. unfold rbind at 1.
  destruct (buffered_spec w Hv) as (d1 & d2 & -> & Hd & _). unfold rbind at 1. cbn [fst snd].
  set (w0 := mkBuffer (replicate (Z.to_nat (2 ^ k')) (chr 0)) (b_start w) (b_start w)).
  destruct Hv as [Hs He Hheld Hsize].
  assert (Hpos : 0 < 2 ^ k') by lia.
  assert (Hlen0 : len64 (b_data w0) = 2 ^ k') by (unfold len64, w0; cbn [b_data]; rewrite length_replicate; apply Z2Nat.id; lia).
  assert (Hv0 : valid w0).
  { split; [simpl; lia|simpl; lia|rewrite Hlen0; unfold held, w0; simpl; lia|right; exists k'; split; [exact Hlen0|lia]]. }
  assert (Hh0 : held w0 = 0) by (unfold held, w0; simpl; lia).
  assert (Hc0 : content w0 = []) by (unfold content; by rewrite Hh0).
  assert (Hne0 : b_data w0 <> []) by (intros E; unfold len64 in Hlen0; rewrite E in Hlen0; simpl in Hlen0; lia).
  assert (Hsum : len64 (view_bytes (b_data w) d1) + len64 (view_bytes (b_data w) d2) = held w).
  { rewrite Hh, <- Hd. unfold len64. rewrite length_app. lia. }
  assert (0 <= len64 (view_bytes (b_data w) d1) /\ 0 <= len64 (view_bytes (b_data w) d2)) as [Hp1 Hp2] by (unfold len64; lia).
  assert (Hstart : b_start w0 = b_start w /\ b_end w0 = b_start w) by done. destruct Hstart as [Hst0 Hen0].
  assert (Hend : b_end w = b_start w + held w) by (unfold held; lia).
  assert (2 ^ 62 < 2 ^ 64) by done.
  destruct (fill_spec w0 (view_bytes (b_data w) d1)) as (w1 & E1 & [Hv1 Hst1 Hen1 Hc1] & Hl1); [done|done|lia|lia|].
  assert (Hlen1 : len64 (b_data w1) = 2 ^ k') by (unfold len64 in *; congruence).
  assert (Hh1 : held w1 = len64 (view_bytes (b_data w) d1)) by (unfold held; rewrite Hst1, Hen1, Hst0, Hen0; lia).
  rewrite append_fill, E1 by (done || lia). unfold rbind.
  destruct (fill_spec w1 (view_bytes (b_data w) d2)) as (w2 & E2 & [Hv2 Hst2 Hen2 Hc2] & Hl2); [done| |lia|lia|].
  { intros E. unfold len64 in Hlen1. rewrite E in Hlen1. simpl in Hlen1. lia. }
  rewrite append_fill, E2 by (done || lia). exists w2. split; [done|].
  assert (Hlen2 : len64 (b_data w2) = 2 ^ k') by (unfold len64 in *; congruence).
  split; [done|congruence|lia| |lia|].
  - by rewrite Hc2, Hc1, Hc0.
  - intros m Hm Hcap Hneed. rewrite Hlen2. destruct Hlast as [<-|Hlast].
    + assert (2 * len64 (b_data w) <= 2 ^ m).
      { destruct Hsize as [E|(j & Ej & Hj)]; [rewrite E; unfold len64; simpl; lia|].
        assert (j < m) by (apply (Z.pow_lt_mono_r_iff 2); lia).
        rewrite Ej. replace (2 * 2 ^ j) with (2 ^ (j + 1)) by (rewrite Z.pow_add_r by lia; lia).
        apply Z.pow_le_mono_r; lia. }
      assert (u64 (len64 (b_data w) * 2) <= len64 (b_data w) * 2) by (apply Z.mod_le; lia).
      assert (initialBufferSize <= 2 ^ m) by (change initialBufferSize with (2 ^ 12); apply Z.pow_le_mono_r; lia). lia.
    + apply Z.pow_le_mono_r; [lia|]. assert (k' < m + 1); [|lia].
      apply (Z.pow_lt_mono_r_iff 2); [lia|lia|]. rewrite (Z.pow_add_r 2 m 1) by lia. lia.
Qed.

Lemma append_by_S depth w b :
  append_by (S depth) w b = let? w := reserve_by (append_by depth) w (len64 b) in fill w b.
Proof. done. Qed.

(** An append extends the content, in an array that is at most twice as large
    as it has to be. *)
Lemma append_spec w b : valid w -> b_data w <> [] \/ b <> [] -> held w + len64 b <= 2 ^ 62 -> b_end w + len64 b < 2 ^ 64 ->
  exists w', append w b = Ok w' /\ extends w w' b /\
    within w w' (held w + len64 b).
Proof.
  intros Hv Hne Hb Hend. assert (0 <= len64 b) by (unfold len64; lia).
  destruct (reserve_spec 0 w (len64 b)) as (w1 & E1 & [Hv1 Hs1 He1 Hc1 Hr1 Hbd1]); [done..|].
  assert (Hh1 : held w1 = held w) by (unfold held; congruence).
  assert (Hn1 : b_data w1 <> []).
  { intros E. unfold len64 in Hr1. rewrite E in Hr1. pose proof (held_content w Hv) as Hh. unfold len64 in *. simpl in Hr1.
    pose proof (vl_held w1 Hv1) as Hh1'. rewrite E, Hh1 in Hh1'. unfold len64 in Hh1'. simpl in Hh1'.
    destruct Hne as [Hne|Hne]; [|destruct b; [done|cbn [length] in Hr1; lia]].
    unfold reserve_by in E1. rewrite room in E1 by done.
    destruct (Z.leb_spec (held w + Z.of_nat (length b)) (len64 (b_data w))) as [_|Hlt];
      [injection E1 as ->; done|]. unfold len64 in Hlt. lia. }
  destruct (fill_spec w1 b) as (w2 & E2 & [Hv2 Hs2 He2 Hc2] & Hl2); [done..|rewrite Hh1; lia|lia|].
  exists w2. unfold append. rewrite append_by_S, E1. split; [exact E2|].
  split; [split; [done|congruence|lia|congruence]|].
  intros m Hm Hcap Hneed. unfold len64. rewrite Hl2. by apply (Hbd1 m).
Qed.

Lemma buffer_write_spec w b max : valid w -> b_data w <> [] \/ b <> [] -> 0 <= max <= 2 ^ 62 -> b_end w + len64 b < 2 ^ 64 ->
  exists w' s, write w b max = Ok (w', s) /\ s = Z.min (Z.max 0 (max - held w)) (len64 b) /\
    extends w w' (take (Z.to_nat s) b) /\
    within w w' max.
Proof.
  intros Hv Hne Hm Hend. unfold write. rewrite (blen_held w Hv). pose proof (vl_start w Hv) as Hst.
  assert (0 <= held w) by (unfold held; lia). assert (0 <= len64 b) by (unfold len64; lia).
  assert (0 <= len64 (b_data w)) by (unfold len64; lia). assert (2 ^ 62 < 2 ^ 64) by done.
  destruct (Z.leb_spec max (held w)) as [Hfull|Hroom].
  - exists w, 0. split; [done|]. split; [lia|]. split; [|by intros m].
    simpl. split; [done|done|unfold len64; simpl; lia|by rewrite app_nil_r].
  - rewrite u64_small by lia. set (s := Z.min (max - held w) (len64 b)).
    assert (Hs : 0 <= s <= max - held w /\ s <= len64 b) by (unfold s; lia).
    assert (Hl : len64 (take (Z.to_nat s) b) = s) by (unfold len64 in *; rewrite length_take; lia).
    destruct (append_spec w (take (Z.to_nat s) b)) as (w' & E & Hx & Hbd); [done| |lia|lia|].
    { destruct Hne as [?|Hne]; [by left|right]. intros E. rewrite E in Hl. unfold len64 in Hl at 1. simpl in Hl.
      assert (0 < len64 b) by (unfold len64; destruct b; [done|cbn [length]; lia]). lia. }
    exists w', s. rewrite E. unfold rbind. split; [done|]. split; [unfold s; lia|]. split; [done|].
    intros m Hmm Hcap Hmax. apply (Hbd m); [done|done|lia].
Qed.

Lemma advance_spec w n : valid w -> 0 <= n -> b_start w + n < 2 ^ 64 ->
  valid (advance w n) /\ b_start (advance w n) = b_start w + n /\
  b_end (advance w n) = Z.max (b_end w) (b_start w + n) /\ content (advance w n) = drop (Z.to_nat n) (content w) /\
  b_data (advance w n) = b_data w.
Proof.
  intros Hv Hn Hb. pose proof (held_content w Hv) as Hh. destruct (vl_start w Hv) as [Hs0 Hs1].
  unfold advance. rewrite u64_small by lia.
  assert (Hend : (if b_end w <? b_start w + n then b_start w + n else b_end w) = Z.max (b_end w) (b_start w + n))
    by (destruct (Z.ltb_spec (b_end w) (b_start w + n)); lia).
  rewrite Hend. assert (Hval : valid (mkBuffer (b_data w) (b_start w + n) (Z.max (b_end w) (b_start w + n)))).
  { destruct Hv as [? ? Hheld ?]. split; simpl; [lia|lia|unfold held in *; simpl; unfold len64 in *; lia|done]. }
  split; [done|]. split; [done|]. split; [done|]. split; [|done].
  destruct (decide (b_data w = [])) as [Hd|Hd].
  { rewrite !content_nil by done. by rewrite drop_nil. }
  destruct (Z.le_gt_cases (b_end w) (b_start w + n)) as [Hall|Hpart].
  { unfold content. simpl. unfold held. simpl. rewrite Z.max_r, Z.sub_diag by done. simpl.
    change (take (Z.to_nat (b_end w - b_start w)) (rotate (Z.to_nat (b_start w)) (b_data w))) with (content w).
    symmetry. apply drop_ge. unfold len64, held in Hh. lia. }
  unfold content, held. simpl. rewrite Z.max_l by lia.
  replace (Z.to_nat (b_end w - b_start w)) with (Z.to_nat n + Z.to_nat (b_end w - (b_start w + n)))%nat by lia.
  rewrite Z2Nat.inj_add by lia. apply list_eq. intros i.
  pose proof (vl_held w Hv) as Hheld. unfold held, len64 in Hheld.
  destruct (decide (i < Z.to_nat (b_end w - (b_start w + n)))%nat) as [Hi|Hi].
  - rewrite lookup_take_lt, lookup_drop, lookup_take_lt, !lookup_rotate_r by lia. f_equal. unfold rotate_nat_add. do 2 f_equal. lia.
  - rewrite lookup_take_ge, lookup_drop, lookup_take_ge by lia. done.
Qed.

Lemma read_spec w size : valid w ->
  exists w', read w size = Ok (w', take size (content w)) /\ valid w' /\
    content w' = drop size (content w) /\ b_end w' = b_end w /\ b_data w' = b_data w /\
    b_start w' = b_start w + len64 (take size (content w)).
Proof.
  intros Hv. unfold read. destruct (buffered_spec w Hv) as (d1 & d2 & -> & Hd & _). unfold rbind. cbn [fst snd].
  set (x1 := view_bytes (b_data w) d1) in *. set (x2 := view_bytes (b_data w) d2) in *.
  assert (Ec : (take size x1 ++ take (size - length (take size x1)) x2)%list = take size (content w)).
  { rewrite <- Hd, take_app. f_equal. f_equal. rewrite length_take. lia. }
  rewrite Ec. pose proof (held_content w Hv) as Hh. pose proof (vl_start w Hv) as Hs. pose proof (vl_end w Hv) as He.
  assert (Hn : 0 <= len64 (take size (content w)) <= held w).
  { rewrite Hh. unfold len64. rewrite length_take. lia. }
  destruct (advance_spec w (len64 (take size (content w)))) as (Hv' & Hs' & He' & Hc' & Hd'); [done|lia|unfold held in Hn; lia|].
  eexists. split; [done|]. split; [done|]. split_and!; [|rewrite He'; unfold held in Hn; lia|done|done].
  rewrite Hc'. unfold len64. rewrite Nat2Z.id, length_take.
  destruct (Nat.le_ge_cases size (length (content w))).
  - by rewrite Nat.min_l.
  - by rewrite Nat.min_r, drop_all, drop_ge.
Qed.

(** ** The buffer is a bounded queue

    What it promises its users, on a list of bytes: [write] takes what fits
    below a limit and says how much, [read] takes from the front, and
    [reserve] and [append] change nothing or add at the end. *)

Inductive operation :=
| OpWrite (b : list byte) (max : Z)
| OpAppend (b : list byte)
| OpReserve (n : Z)
| OpRead (size : nat).

(** What an operation hands back. *)
Inductive output :=
| Wrote (n : Z)
| Done
| Took (b : list byte).

Definition exec_op (o : operation) (w : buffer) : result (buffer * output) :=
  match o with
  | OpWrite b max => let? r := write w b max in Ok (r.1, Wrote r.2)
  | OpAppend b => let? w := append w b in Ok (w, Done)
  | OpReserve n => let? w := reserve w n in Ok (w, Done)
  | OpRead size => let? r := read w size in Ok (r.1, Took r.2)
  end.

Definition queue_op (o : operation) (q : list byte) : list byte * output :=
  match o with
  | OpWrite b max =>
      let n := Z.min (Z.max 0 (max - len64 q)) (len64 b) in
      ((q ++ take (Z.to_nat n) b)%list, Wrote n)
  | OpAppend b => ((q ++ b)%list, Done)
  | OpReserve _ => (q, Done)
  | OpRead size => (drop size q, Took (take size q))
  end.

Fixpoint exec_ops (l : list operation) (w : buffer) : result (buffer * list output) :=
  match l with
  | [] => Ok (w, [])
  | o :: l => let? r := exec_op o w in let? rs := exec_ops l r.1 in Ok (rs.1, r.2 :: rs.2)
  end.

Fixpoint queue_ops (l : list operation) (q : list byte) : list byte * list output :=
  match l with
  | [] => (q, [])
  | o :: l => let '(q, x) := queue_op o q in let '(q, xs) := queue_ops l q in (q, x :: xs)
  end.

(** What an operation may ask for: [append] and [write] have something to add,
    and the positions stay far from where they would wrap around. *)
Definition demand (o : operation) : Z :=
  match o with OpWrite b _ | OpAppend b => len64 b | OpReserve n => n | OpRead _ => 0 end.
Definition allowed (o : operation) : Prop :=
  match o with
  | OpWrite b max => b <> [] /\ 0 <= max <= 2 ^ 62
  | OpAppend b => b <> []
  | OpReserve n => 0 <= n
  | OpRead _ => True
  end.
Definition demands (l : list operation) : Z := foldr (fun o n => demand o + n) 0 l.

Lemma demand_nonneg o : allowed o -> 0 <= demand o.
Proof. destruct o; simpl; unfold len64; lia. Qed.
Lemma demands_nonneg l : Forall allowed l -> 0 <= demands l.
Proof. induction 1 as [|o l Ho _ IH]; simpl; [lia|]. pose proof (demand_nonneg o Ho). lia. Qed.

Lemma exec_op_spec o w : valid w -> allowed o -> b_end w + demand o < 2 ^ 62 ->
  exists w' x, exec_op o w = Ok (w', x) /\ queue_op o (content w) = (content w', x) /\
    valid w' /\ b_end w' <= b_end w + demand o.
Proof.
  intros Hv Ha Hd. pose proof (vl_start w Hv) as Hs. pose proof (held_content w Hv) as Hh.
  assert (H64 : 2 ^ 62 < 2 ^ 64) by done. assert (Hheld : 0 <= held w <= b_end w) by (unfold held; lia).
  destruct o as [b max|b|n|size]; simpl in Ha, Hd |- *.
  - destruct (buffer_write_spec w b max) as (w' & s & -> & Es & [Hv' _ He Hc] & _); [done|by right; apply Ha|apply Ha|lia|].
    exists w', (Wrote s). simpl. rewrite Hh in Es. rewrite <- Es, Hc. split_and!; try done. rewrite He.
    unfold len64. rewrite length_take. lia.
  - destruct (append_spec w b) as (w' & -> & [Hv' _ He Hc] & _); [done|by right|lia|lia|].
    exists w', Done. rewrite Hc. split_and!; try done. lia.
  - destruct (reserve_spec 0 w n) as (w' & E & [Hv' _ He Hc _ _]); [done|done|lia|]. unfold reserve. rewrite E.
    exists w', Done. rewrite Hc. split_and!; try done. lia.
  - destruct (read_spec w size Hv) as (w' & -> & Hv' & Hc & He & _). exists w', (Took (take size (content w))).
    simpl. rewrite Hc. split_and!; try done. lia.
Qed.

Lemma exec_ops_spec l : forall w, valid w -> Forall allowed l -> b_end w + demands l < 2 ^ 62 ->
  exists w' xs, exec_ops l w = Ok (w', xs) /\ queue_ops l (content w) = (content w', xs) /\ valid w'.
Proof.
  induction l as [|o l IH]; intros w Hv Ha Hd; [by exists w, []|].
  apply Forall_cons in Ha as [Ho Hl]. simpl in Hd |- *. pose proof (demand_nonneg o Ho). pose proof (demands_nonneg l Hl).
  destruct (exec_op_spec o w Hv Ho) as (w1 & x & -> & -> & Hv1 & He1); [lia|]. simpl.
  destruct (IH w1 Hv1 Hl) as (w2 & xs & -> & -> & Hv2); [lia|]. by exists w2, (x :: xs).
Qed.
