(* ===== verification/ManagedConn.v ===== *)
(** * A connection that is managed from outside: [lib/resumption/managedconn.go]

    A [managedConn] is two ring buffers behind the interface of a network
    connection.  A call runs under the connection's lock and may have to wait;
    the model runs it from one wait to the next. *)

From stdpp Require Import list.
From S2P Require Import Prelude GoStrings Types Ring.

#[local] Open Scope Z_scope.

Definition receiveBufferSize : Z := 128 * 1024.
Definition sendBufferSize : Z := 2 * 1024 * 1024.

Definition ErrClosed : error := Error KOther "use of closed network connection" [] [].
Definition errBrokenPipe : error := Error KOther "broken pipe" [] [].
Definition ErrDeadlineExceeded : error := Error KOther "i/o timeout" [] [].
Definition EOF : error := Error KOther "EOF" [] [].

(** ** Deadlines

    The timer of a deadline is never set, pending until a time, fired with its
    function not yet run, or stopped. *)

Inductive timer :=
| NoTimer
| Pending (at_ : time)
| Fired
| Stopped.

Record deadline := mkDeadline {
  dl_timer : timer;
  dl_timeout : bool;
  dl_stopped : bool;
}.
Definition noDeadline : deadline := mkDeadline NoTimer false false.

(** [setDeadlineLocked] from one wait to the next: [None] is a wait.  [t] is
    [None] for the zero time. *)
Definition setDeadlineLocked (now : time) (t : option time) (d : deadline) : deadline * option unit :=
  let set d :=
    match t with
    | None => mkDeadline (dl_timer d) false (dl_stopped d)
    | Some t =>
        if t - now <=? 0 then mkDeadline (dl_timer d) true (dl_stopped d)
        else mkDeadline (Pending t) false
               (match dl_timer d with NoTimer => dl_stopped d | _ => false end)
    end in
  match dl_timer d with
  | NoTimer => (set d, Some tt)
  | timer =>
      if dl_stopped d then (set d, Some tt)
      else match timer with
           | Pending _ => (set (mkDeadline Stopped (dl_timeout d) true), Some tt)
           | _ => (d, None)
           end
  end.

(** The timer's time has come, and then its function runs. *)
Definition fire (now : time) (d : deadline) : deadline :=
  match dl_timer d with
  | Pending t => if t <=? now then mkDeadline Fired (dl_timeout d) (dl_stopped d) else d
  | _ => d
  end.
Definition runTimer (d : deadline) : deadline :=
  match dl_timer d with
  | Fired => mkDeadline Stopped true true
  | _ => d
  end.

(** ** The connection *)

Record managedConn := mkConn {
  c_readDeadline : deadline;
  c_writeDeadline : deadline;
  c_receiveBuffer : buffer;
  c_sendBuffer : buffer;
  c_localClosed : bool;
  c_remoteClosed : bool;
}.
Definition newManagedConn : managedConn :=
  mkConn noDeadline noDeadline emptyBuffer emptyBuffer false false.

Definition with_receive (w : buffer) (c : managedConn) : managedConn :=
  mkConn (c_readDeadline c) (c_writeDeadline c) w (c_sendBuffer c) (c_localClosed c) (c_remoteClosed c).
Definition with_send (w : buffer) (c : managedConn) : managedConn :=
  mkConn (c_readDeadline c) (c_writeDeadline c) (c_receiveBuffer c) w (c_localClosed c) (c_remoteClosed c).
Definition with_remoteClosed (c : managedConn) : managedConn :=
  mkConn (c_readDeadline c) (c_writeDeadline c) (c_receiveBuffer c) (c_sendBuffer c) (c_localClosed c) true.
Definition with_deadlines (r w : deadline) (c : managedConn) : managedConn :=
  mkConn r w (c_receiveBuffer c) (c_sendBuffer c) (c_localClosed c) (c_remoteClosed c).

(** What a call did by the time it waits or returns: [Return] what it hands
    back, or [Wait] with what is left to do. *)
Inductive progress (A B : Type) :=
| Return (a : A) (err : option error)
| Wait (b : B).
Arguments Return {A B} _ _.
Arguments Wait {A B} _.

Definition stopTimer (d : deadline) : deadline :=
  match dl_timer d with
  | Pending _ => mkDeadline Stopped (dl_timeout d) (dl_stopped d)
  | _ => d
  end.

Definition Close (c : managedConn) : managedConn * option error :=
  if c_localClosed c then (c, Some ErrClosed)
  else (mkConn (stopTimer (c_readDeadline c)) (stopTimer (c_writeDeadline c)) (c_receiveBuffer c) (c_sendBuffer c)
          true (c_remoteClosed c), None).

(** [SetReadDeadline] and [SetWriteDeadline] *)
Definition SetReadDeadline (now : time) (t : option time) (c : managedConn) : managedConn * progress unit unit :=
  if c_localClosed c then (c, Return tt (Some ErrClosed))
  else
    let '(d, r) := setDeadlineLocked now t (c_readDeadline c) in
    (with_deadlines d (c_writeDeadline c) c, match r with Some _ => Return tt None | None => Wait tt end).
Definition SetWriteDeadline (now : time) (t : option time) (c : managedConn) : managedConn * progress unit unit :=
  if c_localClosed c then (c, Return tt (Some ErrClosed))
  else
    let '(d, r) := setDeadlineLocked now t (c_writeDeadline c) in
    (with_deadlines (c_readDeadline c) d c, match r with Some _ => Return tt None | None => Wait tt end).

(** [SetDeadline] sets the two deadlines, and may wait in either; it goes on
    from there. *)
Inductive deadline_wait :=
| ForRead
| ForWrite.
Definition SetDeadline_write (now : time) (t : option time) (c : managedConn) : managedConn * progress unit deadline_wait :=
  let '(d, r) := setDeadlineLocked now t (c_writeDeadline c) in
  (with_deadlines (c_readDeadline c) d c, match r with Some _ => Return tt None | None => Wait ForWrite end).
Definition SetDeadline_wake (w : deadline_wait) (now : time) (t : option time) (c : managedConn)
    : managedConn * progress unit deadline_wait :=
  match w with
  | ForRead =>
      let '(d, r) := setDeadlineLocked now t (c_readDeadline c) in
      let c := with_deadlines d (c_writeDeadline c) c in
      match r with Some _ => SetDeadline_write now t c | None => (c, Wait ForRead) end
  | ForWrite => SetDeadline_write now t c
  end.
Definition SetDeadline (now : time) (t : option time) (c : managedConn) : managedConn * progress unit deadline_wait :=
  if c_localClosed c then (c, Return tt (Some ErrClosed)) else SetDeadline_wake ForRead now t c.

(** ** [Read] *)

(** One round of the loop of [Read]. *)
Definition Read_round (size : nat) (c : managedConn) : result (managedConn * progress (list byte) unit) :=
  if dl_timeout (c_readDeadline c) then Ok (c, Return [] (Some ErrDeadlineExceeded))
  else
    let? out := read (c_receiveBuffer c) size in
    let '(w, bytes) := out in
    let c := with_receive w c in
    Ok (c, if (0 <? length bytes)%nat then Return bytes None
           else if c_remoteClosed c then Return [] (Some EOF)
           else Wait tt).

Definition Read (size : nat) (c : managedConn) : result (managedConn * progress (list byte) unit) :=
  if c_localClosed c then Ok (c, Return [] (Some ErrClosed))
  else if (size =? 0)%nat then Ok (c, Return [] None)
  else Read_round size c.

(** After [cond.Wait()] returns. *)
Definition Read_wake (size : nat) (c : managedConn) : result (managedConn * progress (list byte) unit) :=
  if c_localClosed c then Ok (c, Return [] (Some ErrClosed)) else Read_round size c.

(** ** [Write] *)

(** One round, with [n] bytes written before and [b] left. *)
Definition Write_round (n : Z) (b : list byte) (c : managedConn) : result (managedConn * progress Z (Z * list byte)) :=
  let? out := write (c_sendBuffer c) b sendBufferSize in
  let '(w, s) := out in
  let c := with_send w c in
  if 0 <? s then
    let b := drop (Z.to_nat s) b in
    let n := n + s in
    Ok (c, if (length b =? 0)%nat then Return n None else Wait (n, b))
  else Ok (c, Wait (n, b)).

Definition Write (b : list byte) (c : managedConn) : result (managedConn * progress Z (Z * list byte)) :=
  if c_localClosed c then Ok (c, Return 0 (Some ErrClosed))
  else if dl_timeout (c_writeDeadline c) then Ok (c, Return 0 (Some ErrDeadlineExceeded))
  else if c_remoteClosed c then Ok (c, Return 0 (Some errBrokenPipe))
  else if (length b =? 0)%nat then Ok (c, Return 0 None)
  else Write_round 0 b c.

Definition Write_wake (n : Z) (b : list byte) (c : managedConn) : result (managedConn * progress Z (Z * list byte)) :=
  if c_localClosed c then Ok (c, Return n (Some ErrClosed))
  else if dl_timeout (c_writeDeadline c) then Ok (c, Return n (Some ErrDeadlineExceeded))
  else if c_remoteClosed c then Ok (c, Return n (Some errBrokenPipe))
  else Write_round n b c.

(** ** The deadlines of a managed connection

    What happens to one deadline while the connection is open: it is set, time
    goes by, its timer fires and the timer's function gets to run, in any
    order.  The model of the timer keeps the one race there is, between the
    function that was started and a call that sets the deadline anew. *)

#[local] Open Scope Z_scope.

Inductive event :=
| Elapse (dt : Z)
| SetTo (t : option time)
| TimerFires
| TimerRuns.

(** [w_deadline] is the deadline the last call that returned has set. *)
Record watched := mkWatched {
  w_now : time;
  w_deadline : option time;
  w_state : deadline;
}.

Definition happen (e : event) (w : watched) : watched :=
  match e with
  | Elapse dt => mkWatched (w_now w + Z.max 0 dt) (w_deadline w) (w_state w)
  | SetTo t =>
      match setDeadlineLocked (w_now w) t (w_state w) with
      | (d, Some _) => mkWatched (w_now w) t d
      | (d, None) => mkWatched (w_now w) (w_deadline w) d
      end
  | TimerFires => mkWatched (w_now w) (w_deadline w) (fire (w_now w) (w_state w))
  | TimerRuns => mkWatched (w_now w) (w_deadline w) (runTimer (w_state w))
  end.

Fixpoint happen_all (l : list event) (w : watched) : watched :=
  match l with [] => w | e :: l => happen_all l (happen e w) end.

Definition unwatched (now : time) : watched := mkWatched now None noDeadline.

(** The deadline has passed. *)
Definition due (w : watched) : Prop := exists t, w_deadline w = Some t /\ t <= w_now w.

Definition sound (w : watched) : Prop :=
  let d := w_state w in
  match dl_timer d with
  | NoTimer => dl_stopped d = false /\ (w_deadline w = None /\ dl_timeout d = false \/ due w /\ dl_timeout d = true)
  | Pending t => w_deadline w = Some t /\ dl_timeout d = false /\ dl_stopped d = false
  | Fired => due w /\ dl_timeout d = false /\ dl_stopped d = false
  | Stopped => dl_stopped d = true /\ (w_deadline w = None /\ dl_timeout d = false \/ due w /\ dl_timeout d = true)
  end.

Lemma unwatched_sound now : sound (unwatched now).
Proof. split; [done|by left]. Qed.

Lemma due_later w dt : due w -> due (mkWatched (w_now w + Z.max 0 dt) (w_deadline w) (w_state w)).
Proof. intros (t & E & Hle). exists t. simpl. split; [done|lia]. Qed.

(** Setting a deadline ends in a state that is sound for it. *)
Lemma set_sound w t d' : sound w -> setDeadlineLocked (w_now w) t (w_state w) = (d', Some tt) ->
  sound (mkWatched (w_now w) t d').
Proof.
  destruct w as [now p [timer timeout stopped]]. unfold setDeadlineLocked, sound, due. simpl. intros Hs E.
  destruct timer as [|at_| |], stopped, t as [t|]; simpl in E; try (destruct (Z.leb_spec (t - now) 0)); simplify_eq/=;
    destruct_and?; try done; split; try done; try (by left); right; (split; [|done]); exists t; (split; [done|lia]).
Qed.

Lemma set_waits w t d' : sound w -> setDeadlineLocked (w_now w) t (w_state w) = (d', None) ->
  d' = w_state w /\ dl_timer d' = Fired.
Proof.
  destruct w as [now p [timer timeout stopped]]. unfold setDeadlineLocked, sound. simpl. intros Hs E.
  destruct timer as [|at_| |], stopped, t as [t|]; simpl in E; try (destruct (Z.leb_spec (t - now) 0)); simplify_eq/=;
    destruct_and?; done.
Qed.

Lemma happen_sound e w : sound w -> sound (happen e w).
Proof.
  intros Hs. destruct e as [dt|t| |]; simpl.
  - destruct w as [now p [timer timeout stopped]]. unfold sound, due in *. simpl in *.
    destruct timer; naive_solver lia.
  - destruct (setDeadlineLocked (w_now w) t (w_state w)) as [d' [[]|]] eqn:E; [by apply set_sound|].
    destruct (set_waits w t d' Hs E) as [-> _]. by destruct w.
  - destruct w as [now p [timer timeout stopped]]. unfold sound, due, fire in *. simpl in *.
    destruct timer as [|at_| |]; simpl; try done. destruct (Z.leb_spec at_ now); simpl; [|done]. naive_solver.
  - destruct w as [now p [timer timeout stopped]]. unfold sound, due, runTimer in *. simpl in *.
    destruct timer; simpl; try done. naive_solver.
Qed.

Lemma happen_all_sound l w : sound w -> sound (happen_all l w).
Proof. revert w. induction l as [|e l IH]; simpl; [done|]. intros w Hs. by apply IH, happen_sound. Qed.

(** What the invariant says of a call: it fails only when the deadline has
    passed, and does so once the timer's function has run. *)
Lemma sound_timeout w : sound w -> dl_timeout (w_state w) = true -> due w.
Proof.
  intros Hs Ht. unfold sound in Hs. destruct (dl_timer (w_state w)); naive_solver congruence.
Qed.

Lemma sound_due w : sound w -> due w -> dl_timeout (runTimer (fire (w_now w) (w_state w))) = true.
Proof.
  intros Hs (t & Et & Hle). destruct w as [now p [timer timeout stopped]]. unfold sound, due, fire, runTimer in *. simpl in *.
  destruct timer as [|at_| |]; simpl; try naive_solver. destruct Hs as (Ep & _). assert (at_ = t) as -> by congruence.
  destruct (Z.leb_spec t now); [done|lia].
Qed.

(** A call that sets the deadline waits for a timer's function only, and no
    longer than that takes to run. *)
Lemma sound_set w t d' : sound w -> setDeadlineLocked (w_now w) t (w_state w) = (d', None) ->
  dl_timer (w_state w) = Fired /\ exists d2, setDeadlineLocked (w_now w) t (runTimer (w_state w)) = (d2, Some tt).
Proof.
  intros Hs E. destruct (set_waits w t d' Hs E) as [-> Hf]. split; [done|]. unfold runTimer. rewrite Hf. by eexists.
Qed.
