(* ===== verification/Resumable.v ===== *)
(** * The resumption protocol: [lib/resumption/resumable.go]

    Two endpoints of one resumable connection exchange frames over a transport
    that may fail at any byte and be replaced by another one.  Each endpoint
    runs, per transport, a handshake, a read loop and a write loop; the model
    runs each from one point where it can be interrupted to the next, and lets
    them interleave freely.  A transport delivers a prefix of what was written
    to it. *)

From stdpp Require Import list.
From S2P Require Import Prelude GoStrings Types Ring ManagedConn.
#[local] Open Scope Z_scope.

(** ** Variable length integers: [encoding/binary] *)

Fixpoint AppendUvarint_fuel (fuel : nat) (buf : list byte) (x : Z) : list byte :=
  match fuel with
  | O => buf
  | S fuel' =>
      if 128 <=? x then AppendUvarint_fuel fuel' (buf ++ [chr (Z.lor (x mod 256) 128)]) (Z.shiftr x 7)
      else (buf ++ [chr (x mod 256)])%list
  end.
(** Ten bytes hold 64 bits. *)
Definition AppendUvarint (buf : list byte) (x : Z) : list byte := AppendUvarint_fuel 10 buf x.

Inductive uvarint :=
| UvValue (x : Z) (rest : list byte)
| UvMore        (* the bytes end within the integer *)
| UvOverflow.

Fixpoint ReadUvarint_loop (fuel : nat) (x s : Z) (l : list byte) : uvarint :=
  match fuel with
  | O => UvOverflow
  | S fuel' =>
      match l with
      | [] => UvMore
      | b :: l' =>
          if code b <? 128 then
            if ((fuel' =? 0)%nat && (1 <? code b)) then UvOverflow
            else UvValue (Z.lor x (u64 (Z.shiftl (code b) s))) l'
          else ReadUvarint_loop fuel' (Z.lor x (u64 (Z.shiftl (Z.land (code b) 127) s))) (s + 7) l'
      end
  end.
Definition ReadUvarint (l : list byte) : uvarint := ReadUvarint_loop 10 0 0 l.

(** [errorTag] closes a connection or refuses a handshake. *)
Definition errorTag : Z := 2 ^ 64 - 1.
Definition maxFrameSize : Z := 128 * 1024.

(** ** An attached transport *)

(** Where the read loop is: before the handshake, before an acknowledgement,
    before a size, with some bytes of a frame to come, reading [want] of them
    into the buffer, discarding them, or at its end. *)
Inductive rphase :=
| RdHandshake
| RdAck
| RdSize
| RdData (remaining : Z)
| RdFill (remaining want : Z)
| RdDiscard (remaining : Z)
| RdDone.

(** Where the write loop is: writing the handshake, waiting for the handshake
    to be read, looking for something to send, writing a frame that
    acknowledges [ack] bytes and carries [size], or at its end.  [out] is what
    it has still to put on the transport. *)
Inductive wphase :=
| WrHandshake (out : list byte)
| WrReady
| WrLoop
| WrFrame (out : list byte) (ack size : Z)
| WrLast (out : list byte)
| WrDone.

Record attachment := mkAttachment {
  at_id : nat;                (* the transport *)
  at_localPosition : Z;
  at_peerPosition : Z;
  at_stopRequested : bool;
  at_reader : rphase;
  at_writer : wphase;
}.

(** The endpoint: [requestDetachLocked] is not nil while something is
    attached. *)
Record Conn := mkConn' {
  cn_conn : managedConn;
  cn_attached : option attachment;
}.

Definition with_conn (f : managedConn -> managedConn) (r : Conn) : Conn := mkConn' (f (cn_conn r)) (cn_attached r).
Definition with_attachment (a : attachment) (r : Conn) : Conn := mkConn' (cn_conn r) (Some a).
(** A loop that ends asks the other one to stop. *)
Definition set_reader (p : rphase) (a : attachment) : attachment :=
  mkAttachment (at_id a) (at_localPosition a) (at_peerPosition a)
    (match p with RdDone => true | _ => at_stopRequested a end) p (at_writer a).
Definition set_writer (p : wphase) (a : attachment) : attachment :=
  mkAttachment (at_id a) (at_localPosition a) (at_peerPosition a)
    (match p with WrDone => true | _ => at_stopRequested a end) (at_reader a) p.
Definition set_positions (l p : Z) (a : attachment) : attachment :=
  mkAttachment (at_id a) l p (at_stopRequested a) (at_reader a) (at_writer a).
Definition request_stop (a : attachment) : attachment :=
  mkAttachment (at_id a) (at_localPosition a) (at_peerPosition a) true (at_reader a) (at_writer a).

(** ** [runResumeV1Unlocking] *)

(** The first transport: the handshake is skipped. *)
Definition attach_first (id : nat) (r : Conn) : option Conn :=
  let c := cn_conn r in
  match cn_attached r with
  | Some _ => None
  | None =>
      if c_remoteClosed c || c_localClosed c || (0 <? b_end (c_receiveBuffer c)) || (0 <? b_start (c_sendBuffer c)) then None
      else Some (with_attachment (mkAttachment id (b_end (c_receiveBuffer c)) 0 false RdAck WrLoop) r)
  end.

(** Another one: the round of the loop that waits for the last one to go. *)
Inductive attaching :=
| AttachClosed                (* the peer is gone *)
| AttachWait (r : Conn)       (* asked the last one to detach *)
| AttachDone (r : Conn).

Definition attach_next (id : nat) (r : Conn) : attaching :=
  let c := cn_conn r in
  if c_remoteClosed c then AttachClosed
  else
    match cn_attached r with
    | Some a => AttachWait (with_attachment (request_stop a) r)
    | None =>
        let localPosition := b_end (c_receiveBuffer c) in
        AttachDone (with_attachment (mkAttachment id localPosition 0 false RdHandshake
          (WrHandshake (AppendUvarint [] localPosition))) r)
    end.

(** The function ends once both loops have. *)
Definition detach (r : Conn) : option Conn :=
  match cn_attached r with
  | Some a => match at_reader a, at_writer a with
      | RdDone, WrDone => Some (mkConn' (cn_conn r) None)
      | _, _ => None
      end
  | None => None
  end.

(** ** [resumeV1Handshake]

    The integer is read while the local one is written, and acted on when both
    are done. *)

Definition handshake (peerPosition : Z) (a : attachment) (c : managedConn) : managedConn * attachment :=
  let minPos := b_start (c_sendBuffer c) in
  let maxPos := b_end (c_sendBuffer c) in
  if (peerPosition <? minPos) || (maxPos <? peerPosition) then
    (with_remoteClosed c, set_reader RdDone (set_writer (WrLast (AppendUvarint [] errorTag)) a))
  else
    let c := if minPos =? peerPosition then c
             else with_send (advance (c_sendBuffer c) (peerPosition - minPos)) c in
    (c, set_reader RdAck (set_writer WrLoop (set_positions (at_localPosition a) peerPosition a))).

(** ** [runResumeV1Read] *)

(** What the read loop does with the bytes at hand, from one point where it
    waits, for the lock, the transport or room in the buffer, to the next.
    [None]: it waits. *)
Definition read_step (r : Conn) (a : attachment) (wire : list byte) : result (option (Conn * list byte)) :=
  let c := cn_conn r in
  let go c p wire := Ok (Some (mkConn' c (Some (set_reader p a)), wire)) in
  match at_reader a with
  | RdHandshake =>
      match ReadUvarint wire with
      | UvValue peerPosition wire =>
          match at_writer a with
          | WrReady =>
              let '(c, a) := handshake peerPosition a c in
              Ok (Some (mkConn' c (Some a), wire))
          | WrDone => go c RdDone wire
          | _ => Ok None
          end
      | UvMore => Ok None
      | UvOverflow => go c RdDone wire
      end
  | RdAck =>
      match ReadUvarint wire with
      | UvValue ack wire =>
          if 0 <? ack then
            if ack =? errorTag then go (with_remoteClosed c) RdDone wire
            else if blen (c_sendBuffer c) <? ack then go c RdDone wire
            else go (with_send (advance (c_sendBuffer c) ack) c) RdSize wire
          else go c RdSize wire
      | UvMore => Ok None
      | UvOverflow => go c RdDone wire
      end
  | RdSize =>
      match ReadUvarint wire with
      | UvValue size wire => if maxFrameSize <? size then go c RdDone wire else go c (RdData size) wire
      | UvMore => Ok None
      | UvOverflow => go c RdDone wire
      end
  | RdData remaining =>
      if remaining <=? 0 then go c RdAck wire
      else
        let w := c_receiveBuffer c in
        if (receiveBufferSize <=? blen w) && negb (c_localClosed c) && negb (at_stopRequested a) then Ok None
        else if at_stopRequested a then go c RdDone wire
        else if c_localClosed c then go c (RdDiscard remaining) wire
        else
          let? w := reserve w (Z.min (receiveBufferSize - blen w) remaining) in
          let? f := free w in
          let tail := Z.of_nat (v_len f.1) in
          go (with_receive w c) (RdFill remaining (if remaining <? tail then remaining else tail)) wire
  | RdFill remaining want =>
      if len64 wire <? want then Ok None
      else
        let? w := append (c_receiveBuffer c) (take (Z.to_nat want) wire) in
        go (with_receive w c) (RdData (remaining - want)) (drop (Z.to_nat want) wire)
  | RdDiscard remaining =>
      if len64 wire <? remaining then Ok None
      else
        let w := c_receiveBuffer c in
        let position := u64 (b_end w + remaining) in
        go (with_receive (mkBuffer (b_data w) position position) c) RdAck (drop (Z.to_nat remaining) wire)
  | RdDone => Ok None
  end.

(** The transport fails after [k] bytes: what was read of the data counts. *)
Definition read_error (k : nat) (r : Conn) (a : attachment) (wire : list byte) : result (Conn * list byte) :=
  let c := cn_conn r in
  let fail c wire := Ok (mkConn' c (Some (set_reader RdDone a)), wire) in
  match at_reader a with
  | RdFill remaining want =>
      let got := take (Nat.min k (Z.to_nat (want - 1))) wire in
      if (length got =? 0)%nat then fail c wire
      else
        let? w := append (c_receiveBuffer c) got in
        fail (with_receive w c) (drop (length got) wire)
  | RdDiscard remaining =>
      let got := take (Nat.min k (Z.to_nat (remaining - 1))) wire in
      let w := c_receiveBuffer c in
      let position := u64 (b_end w + len64 got) in
      fail (with_receive (mkBuffer (b_data w) position position) c) (drop (length got) wire)
  | _ => fail c wire
  end.

(** ** [runResumeV1Write] *)

Definition slice_panic : error := Error KOther "slice bounds out of range" [] [].

(** The frame to send: how much it acknowledges, and its data. *)
Definition next_frame (c : managedConn) (a : attachment) : result (Z * list byte) :=
  let w := c_sendBuffer c in
  let frameAck := u64 (b_end (c_receiveBuffer c) - at_localPosition a) in
  if at_peerPosition a <? b_end w then
    let skip := u64 (at_peerPosition a - b_start w) in
    let? d := buffered w in
    let d1 := view_bytes (b_data w) d.1 in
    let d2 := view_bytes (b_data w) d.2 in
    fail_if len64 d1 + len64 d2 <? skip with slice_panic;
    let frameData := if len64 d1 <=? skip then drop (Z.to_nat (skip - len64 d1)) d2 else drop (Z.to_nat skip) d1 in
    Ok (frameAck, take (Z.to_nat maxFrameSize) frameData)
  else Ok (frameAck, []).

(** The loop from one write to the next: [None] is a wait. *)
Definition write_step (c : managedConn) (a : attachment) : result (option wphase) :=
  match at_writer a with
  | WrHandshake [] => Ok (Some WrReady)
  | WrReady => Ok (match at_reader a with RdDone => Some WrDone | _ => None end)
  | WrLoop =>
      let? frame := next_frame c a in
      let '(frameAck, frameData) := frame in
      if (0 <? frameAck) || (0 <? length frameData)%nat then
        let frameHeader := AppendUvarint (AppendUvarint [] frameAck) (len64 frameData) in
        Ok (Some (WrFrame (frameHeader ++ frameData) frameAck (len64 frameData)))
      else if at_stopRequested a then Ok (Some WrDone)
      else if c_remoteClosed c then Ok (Some WrDone)
      else if c_localClosed c then Ok (Some (WrLast (AppendUvarint [] errorTag)))
      else Ok None
  | WrLast [] => Ok (Some WrDone)
  | _ => Ok None
  end.

(** What is on its way, and the write of its first [n] bytes. *)
Definition outgoing (a : attachment) : list byte :=
  match at_writer a with
  | WrHandshake out | WrFrame out _ _ | WrLast out => out
  | _ => []
  end.

Definition transmit (n : nat) (a : attachment) : attachment * list byte :=
  let out := outgoing a in
  let rest := drop n out in
  (match at_writer a with
   | WrHandshake _ => set_writer (WrHandshake rest) a
   | WrFrame _ ack size =>
       if (length rest =? 0)%nat
       then set_writer WrLoop (set_positions (u64 (at_localPosition a + ack)) (u64 (at_peerPosition a + size)) a)
       else set_writer (WrFrame rest ack size) a
   | WrLast _ => set_writer (WrLast rest) a
   | _ => a
   end, take n out).

(** ** The two endpoints

    [n_wire id s] is what [s] wrote to the transport [id] and the other side
    has not read; [n_used s] are the transports [s] was attached to, each
    once.  [n_sent] and [n_got] are what the programs at the two ends have
    written and read; [n_refused] tells that a handshake was refused. *)

Inductive side := Client | Server.
#[export] Instance side_eq_dec : EqDecision side.
Proof. solve_decision. Defined.
Definition other (s : side) : side := match s with Client => Server | Server => Client end.

Record net := mkNet {
  n_end : side -> Conn;
  n_wire : nat -> side -> list byte;
  n_used : side -> list nat;
  n_sent : side -> list byte;
  n_got : side -> list byte;
  n_refused : bool;
}.

Definition upd {A B} `{EqDecision A} (f : A -> B) (x : A) (v : B) : A -> B := fun y => if decide (y = x) then v else f y.

Definition newConn : Conn := mkConn' newManagedConn None.
Definition net0 : net := mkNet (fun _ => newConn) (fun _ _ => []) (fun _ => []) (fun _ => []) (fun _ => []) false.

Definition set_end (s : side) (r : Conn) (t : net) : net :=
  mkNet (upd (n_end t) s r) (n_wire t) (n_used t) (n_sent t) (n_got t) (n_refused t).
Definition set_wire (id : nat) (s : side) (w : list byte) (t : net) : net :=
  mkNet (n_end t) (upd (n_wire t) id (upd (n_wire t id) s w)) (n_used t) (n_sent t) (n_got t) (n_refused t).
Definition use (s : side) (id : nat) (t : net) : net :=
  mkNet (n_end t) (n_wire t) (upd (n_used t) s (id :: n_used t s)) (n_sent t) (n_got t) (n_refused t).
Definition sends (s : side) (b : list byte) (t : net) : net :=
  mkNet (n_end t) (n_wire t) (n_used t) (upd (n_sent t) s (n_sent t s ++ b)%list) (n_got t) (n_refused t).
Definition gets (s : side) (b : list byte) (t : net) : net :=
  mkNet (n_end t) (n_wire t) (n_used t) (n_sent t) (upd (n_got t) s (n_got t s ++ b)%list) (n_refused t).
Definition refuse_if (b : bool) (t : net) : net :=
  mkNet (n_end t) (n_wire t) (n_used t) (n_sent t) (n_got t) (n_refused t || b).

Definition conn_of (t : net) (s : side) : managedConn := cn_conn (n_end t s).

(** How many bytes of [b] a round of [Write] took. *)
Definition accepted (b : list byte) (p : progress Z (Z * list byte)) (n : Z) : list byte :=
  match p with Return n' _ => take (Z.to_nat (n' - n)) b | Wait (n', _) => take (Z.to_nat (n' - n)) b end.

Definition refuses (a : attachment) (a' : option attachment) : bool :=
  match at_reader a, a' with
  | RdHandshake, Some a' => match at_writer a' with WrLast _ => true | _ => false end
  | _, _ => false
  end.

(** The transport 0 is the first. *)
Inductive step (t : net) : net -> Prop :=
(* the programs *)
| step_write s n b c p : 0 <= n ->
    Z.of_nat (length (n_sent t s)) + len64 b < 2 ^ 62 ->
    (Write b (conn_of t s) = Ok (c, p) /\ n = 0 \/ Write_wake n b (conn_of t s) = Ok (c, p) /\ b <> []) ->
    step t (sends s (accepted b p n) (set_end s (with_conn (fun _ => c) (n_end t s)) t))
| step_read s size c p :
    (Read size (conn_of t s) = Ok (c, p) \/ Read_wake size (conn_of t s) = Ok (c, p)) ->
    step t (gets s (match p with Return b _ => b | Wait _ => [] end)
              (set_end s (with_conn (fun _ => c) (n_end t s)) t))
| step_close s : step t (set_end s (with_conn (fun c => fst (Close c)) (n_end t s)) t)
| step_deadlines s r w :
    step t (set_end s (with_conn (with_deadlines r w) (n_end t s)) t)
(* a new transport *)
| step_attach_first s r : 0%nat ∉ n_used t s -> attach_first 0 (n_end t s) = Some r -> step t (use s 0 (set_end s r t))
| step_attach_wait s id r : attach_next id (n_end t s) = AttachWait r -> step t (set_end s r t)
| step_attach_next s id r : id <> 0%nat -> id ∉ n_used t s -> 0%nat ∈ n_used t s ->
    attach_next id (n_end t s) = AttachDone r -> step t (use s id (set_end s r t))
| step_detach s r : detach (n_end t s) = Some r -> step t (set_end s r t)
(* the read loop *)
| step_receive s a r wire : cn_attached (n_end t s) = Some a ->
    read_step (n_end t s) a (n_wire t (at_id a) (other s)) = Ok (Some (r, wire)) ->
    step t (refuse_if (refuses a (cn_attached r)) (set_wire (at_id a) (other s) wire (set_end s r t)))
| step_read_error s a k r wire : cn_attached (n_end t s) = Some a -> at_reader a <> RdDone ->
    read_error k (n_end t s) a (n_wire t (at_id a) (other s)) = Ok (r, wire) ->
    step t (set_wire (at_id a) (other s) wire (set_end s r t))
(* the write loop *)
| step_send s a p : cn_attached (n_end t s) = Some a -> write_step (conn_of t s) a = Ok (Some p) ->
    step t (set_end s (with_attachment (set_writer p a) (n_end t s)) t)
| step_transmit s a n : cn_attached (n_end t s) = Some a -> (0 < n <= length (outgoing a))%nat ->
    let '(a', b) := transmit n a in
    step t (set_wire (at_id a) s (n_wire t (at_id a) s ++ b)%list (set_end s (with_attachment a' (n_end t s)) t))
| step_write_error s a : cn_attached (n_end t s) = Some a -> outgoing a <> [] ->
    step t (set_end s (with_attachment (set_writer WrDone a) (n_end t s)) t).

Inductive reachable : net -> Prop :=
| reach_start : reachable net0
| reach_step t t' : reachable t -> step t t' -> reachable t'.
