(* ===== verification/ResumableFacts.v ===== *)
(** * Properties of the resumption protocol

    The integers of a frame are read back, and the invariant of the two
    endpoints: what is on its way between them, whatever transports failed
    before. *)

From stdpp Require Import list.
From S2P Require Import Prelude GoStrings Types Ring ManagedConn Resumable.
#[local] Open Scope Z_scope.

(** ** Variable length integers *)

Lemma low_bits x : 0 <= x -> Z.lor (x mod 256) 128 = Z.lor (x mod 128) 128 /\ 128 <= Z.lor (x mod 256) 128 < 256 /\
  Z.land (Z.lor (x mod 256) 128) 127 = x mod 128.
Proof.
  intros Hx. change 256 with (2 ^ 8). change 128 with (2 ^ 7).
  assert (E : Z.lor (x mod 2 ^ 8) (2 ^ 7) = Z.lor (x mod 2 ^ 7) (2 ^ 7)).
  { apply Z.bits_inj'. intros n Hn. rewrite !Z.lor_spec. destruct (decide (n < 7)).
    - by rewrite !Z.mod_pow2_bits_low by lia.
    - rewrite (Z.mod_pow2_bits_high x 7) by lia. destruct (decide (n = 7)) as [->|].
      + by rewrite Z.pow2_bits_true, orb_true_r by lia.
      + rewrite Z.mod_pow2_bits_high by lia. done. }
  assert (Es : Z.lor (x mod 2 ^ 7) (2 ^ 7) = x mod 2 ^ 7 + 2 ^ 7).
  { rewrite Z.add_nocarry_lxor, Z.lxor_lor; [done| |]; apply Z.bits_inj'; intros n Hn; rewrite Z.land_spec, Z.bits_0;
      (destruct (decide (n < 7)); [rewrite Z.pow2_bits_false by lia; apply andb_false_r|by rewrite Z.mod_pow2_bits_high by lia]). }
  pose proof (Z.mod_pos_bound x (2 ^ 7) ltac:(done)). rewrite E. split; [done|]. split; [lia|].
  rewrite Es. change 127 with (Z.ones 7). rewrite Z.land_ones by lia.
  rewrite <- (Z.mul_1_l (2 ^ 7)) at 2. rewrite Z_mod_plus_full. by rewrite Z.mod_mod.
Qed.

Lemma split_low x s : 0 <= x -> 0 <= s ->
  Z.lor (Z.shiftl (x mod 128) s) (Z.shiftl (Z.shiftr x 7) (s + 7)) = Z.shiftl x s.
Proof.
  intros Hx Hs. rewrite Z.add_comm, <- Z.shiftl_shiftl, <- Z.shiftl_lor by lia. f_equal.
  change 128 with (2 ^ 7). apply Z.bits_inj'. intros n Hn. rewrite Z.lor_spec. destruct (decide (n < 7)).
  - rewrite Z.mod_pow2_bits_low, Z.shiftl_spec_low, orb_false_r by lia. done.
  - rewrite Z.mod_pow2_bits_high, Z.shiftl_spec, Z.shiftr_spec by lia. simpl. f_equal. lia.
Qed.

Fixpoint uv_fuel (fuel : nat) (x : Z) : list byte :=
  match fuel with
  | O => []
  | S fuel' => if 128 <=? x then chr (Z.lor (x mod 256) 128) :: uv_fuel fuel' (Z.shiftr x 7) else [chr (x mod 256)]
  end.
Definition uv (x : Z) : list byte := uv_fuel 10 x.

Lemma uv_length x : (1 <= length (uv x) <= 10)%nat.
Proof.
  unfold uv. assert (H : forall fuel y, (0 < fuel)%nat -> (1 <= length (uv_fuel fuel y) <= fuel)%nat).
  { induction fuel as [|fuel IH]; intros y Hf; [lia|]. simpl. destruct (128 <=? y); simpl; [|lia].
    destruct (decide (fuel = 0%nat)) as [->|Hne]; [simpl; lia|]. specialize (IH (Z.shiftr y 7) ltac:(lia)). lia. }
  apply H. lia.
Qed.

Lemma AppendUvarint_uv buf x : AppendUvarint buf x = (buf ++ uv x)%list.
Proof.
  unfold AppendUvarint, uv. revert buf x. generalize 10%nat as fuel.
  induction fuel as [|fuel IH]; intros buf x; simpl; [by rewrite app_nil_r|].
  destruct (128 <=? x); [|done]. rewrite IH. by rewrite <- app_assoc.
Qed.

Lemma u64_shiftl a s : 0 <= a -> 0 <= s -> a * 2 ^ s < 2 ^ 64 -> u64 (Z.shiftl a s) = Z.shiftl a s.
Proof. intros Ha Hs Hb. apply u64_small. rewrite Z.shiftl_mul_pow2 by done. nia. Qed.

Lemma ReadUvarint_loop_uv fuel : forall x acc s rest, (0 < fuel <= 10)%nat -> s = 7 * (10 - Z.of_nat fuel) ->
  0 <= x -> x * 2 ^ s < 2 ^ 64 ->
  ReadUvarint_loop fuel acc s (uv_fuel fuel x ++ rest) = UvValue (Z.lor acc (Z.shiftl x s)) rest.
Proof.
  induction fuel as [|fuel IH]; intros x acc s rest Hf Hs Hx Hb; [lia|].
  assert (Hs0 : 0 <= s) by lia. simpl. destruct (Z.leb_spec 128 x) as [Hbig|Hsmall].
  - destruct (low_bits x Hx) as (_ & Hr & Hl). simpl. rewrite code_chr by lia.
    destruct (Z.ltb_spec (Z.lor (x mod 256) 128) 128); [lia|]. rewrite Hl.
    pose proof (Z.mod_pos_bound x 128 ltac:(done)) as Hm. pose proof (Z.mod_le x 128 Hx ltac:(done)) as Hle.
    assert (0 < 2 ^ s) by (apply Z.pow_pos_nonneg; lia).
    rewrite u64_shiftl by nia.
    assert (Hf' : (0 < fuel)%nat).
    { destruct fuel; [|lia]. replace s with 63 in Hb by lia. change (2 ^ 64) with (2 * 2 ^ 63) in Hb. lia. }
    rewrite IH; [|lia|lia|by apply Z.shiftr_nonneg|].
    + rewrite <- Z.lor_assoc. f_equal. f_equal. apply split_low; lia.
    + rewrite Z.shiftr_div_pow2 by lia. rewrite Z.pow_add_r by lia. change (2 ^ 7) with 128.
      pose proof (Z.mul_div_le x 128 ltac:(done)). nia.
  - rewrite Z.mod_small by lia. simpl. rewrite code_chr by lia.
    destruct (Z.ltb_spec x 128); [|lia]. rewrite u64_shiftl by lia.
    destruct (Nat.eqb_spec fuel 0) as [->|]; [|done]. simpl.
    destruct (Z.ltb_spec 1 x) as [H1|]; [|done]. replace s with 63 in Hb by lia.
    change (2 ^ 64) with (2 * 2 ^ 63) in Hb. lia.
Qed.

(** What is appended is read back, and what follows is left. *)
Lemma ReadUvarint_uv x rest : 0 <= x < 2 ^ 64 -> ReadUvarint (uv x ++ rest) = UvValue x rest.
Proof.
  intros Hx. unfold ReadUvarint, uv. rewrite ReadUvarint_loop_uv; [|lia|done|lia|].
  - by rewrite Z.lor_0_l, Z.shiftl_0_r.
  - simpl Z.mul. rewrite Z.pow_0_r. lia.
Qed.

(** More bytes do not change what was read. *)
Lemma ReadUvarint_loop_more fuel : forall x s l tail v rest, ReadUvarint_loop fuel x s l = UvValue v rest ->
  ReadUvarint_loop fuel x s (l ++ tail) = UvValue v (rest ++ tail).
Proof.
  induction fuel as [|fuel IH]; intros x s l tail v rest E; [done|]. simpl in E |- *.
  destruct l as [|b l]; [done|]. simpl. destruct (code b <? 128); [|by apply IH].
  destruct ((fuel =? 0)%nat && (1 <? code b)); [done|]. by injection E as -> ->.
Qed.

Lemma read_integer wire rest v tail x wire' : 0 <= v < 2 ^ 64 -> (wire ++ rest)%list = (uv v ++ tail)%list ->
  ReadUvarint wire = UvValue x wire' -> x = v /\ (wire' ++ rest)%list = tail.
Proof.
  intros Hv E Hr. apply (ReadUvarint_loop_more _ _ _ _ rest) in Hr. fold (ReadUvarint (wire ++ rest)) in Hr.
  rewrite E, (ReadUvarint_uv v tail Hv) in Hr. by injection Hr.
Qed.

Lemma read_nothing wire rest x wire' : (wire ++ rest)%list = [] -> ReadUvarint wire <> UvValue x wire'.
Proof. intros [-> _]%app_nil. done. Qed.

(** ** What is on its way *)

(** The frames a write loop sends, as what they acknowledge and carry. *)
Definition frame : Type := Z * list byte.
Definition enc_frame (f : frame) : list byte := (uv f.1 ++ uv (len64 f.2) ++ f.2)%list.
Definition frames_bytes (fs : list frame) : list byte := fs ≫= enc_frame.
Definition frames_data (fs : list frame) : list byte := fs ≫= snd.
Definition frames_acks (fs : list frame) : Z := foldr (fun f n => f.1 + n) 0 fs.
Definition ending (closing : bool) : list byte := if closing then uv errorTag else [].

(** The bytes a read loop in phase [ph] has to come: [p] is the position of a
    handshake, [d0] what is left of the frame it is in. *)
Definition follows (ph : rphase) (p : Z) (d0 : list byte) (fs : list frame) (closing : bool) : list byte :=
  (match ph with
   | RdHandshake => uv p
   | RdSize => uv (len64 d0) ++ d0
   | RdData _ | RdFill _ _ | RdDiscard _ => d0
   | RdAck | RdDone => []
   end ++ frames_bytes fs ++ ending closing)%list.

Definition shape (ph : rphase) (d0 : list byte) : Prop :=
  match ph with
  | RdData r | RdFill r _ | RdDiscard r => len64 d0 = r
  | RdSize => True
  | RdHandshake | RdAck => d0 = []
  | RdDone => False
  end.

Definition small_frame (f : frame) : Prop := 0 <= f.1 < 2 ^ 62 /\ len64 f.2 <= maxFrameSize.

Lemma frames_app fs f : frames_bytes (fs ++ [f]) = (frames_bytes fs ++ enc_frame f)%list /\
  frames_data (fs ++ [f]) = (frames_data fs ++ f.2)%list /\ frames_acks (fs ++ [f]) = frames_acks fs + f.1.
Proof.
  unfold frames_bytes, frames_data, frames_acks. rewrite !bind_app, foldr_app. simpl. rewrite !app_nil_r.
  split_and!; [done..|]. induction fs as [|g fs IH]; simpl; [lia|]. rewrite IH. lia.
Qed.

Lemma frames_acks_nonneg fs : Forall small_frame fs -> 0 <= frames_acks fs.
Proof. induction 1 as [|f fs [Hf _] _ IH]; simpl; lia. Qed.

(** ** The view of one transport *)

Definition attached (t : net) (s : side) (id : nat) : option attachment :=
  match cn_attached (n_end t s) with Some a => if decide (at_id a = id) then Some a else None | None => None end.

Definition receive_end (t : net) (s : side) : Z := b_end (c_receiveBuffer (conn_of t s)).
Definition send_start (t : net) (s : side) : Z := b_start (c_sendBuffer (conn_of t s)).

Definition first_phase (id : nat) : rphase := if decide (id = 0%nat) then RdAck else RdHandshake.

(** The phase of the read loop, of one that is to come too; none once it is
    over. *)
Definition phase (t : net) (s : side) (id : nat) : option rphase :=
  match attached t s id with
  | Some a => match at_reader a with RdDone => None | ph => Some ph end
  | None => if decide (id ∈ n_used t s) then None else Some (first_phase id)
  end.

Definition running (a : attachment) : Prop :=
  match at_writer a with WrLoop | WrFrame _ _ _ => True | _ => False end.

(** Its handshake is not over. *)
Definition waiting (a : attachment) : Prop :=
  at_reader a = RdHandshake \/ match at_writer a with WrHandshake _ | WrReady => True | _ => False end.

(** The positions a write loop will have once its frame is out. *)
Definition acked (a : attachment) : Z :=
  at_localPosition a + match at_writer a with WrFrame _ ack _ => ack | _ => 0 end.
Definition sent_to (a : attachment) : Z :=
  at_peerPosition a + match at_writer a with WrFrame _ _ size => size | _ => 0 end.

(** From where the acknowledgements on their way to [s] count. *)
Definition ack_base (t : net) (s : side) (ph : rphase) (p : Z) : Z :=
  match ph with RdHandshake => p | _ => send_start t s end.

(** What [s] wrote to the transport [id], as the read loop of the other side
    will see it: [rest] is what is not written yet, and will never be when
    the write loop of [s] is over. *)
Record stream (t : net) (s : side) (id : nat) (ph : rphase)
    (p : Z) (d0 : list byte) (fs : list frame) (closing : bool) (rest : list byte) : Prop := {
  st_bytes : (n_wire t id s ++ rest)%list = follows ph p d0 fs closing;
  st_shape : shape ph d0;
  st_small : Forall small_frame fs /\ len64 d0 <= maxFrameSize /\ 0 <= p < 2 ^ 62;
  (* the data is the next part of the sender's stream *)
  st_data : (d0 ++ frames_data fs)%list `prefix_of` drop (Z.to_nat (receive_end t (other s))) (n_sent t s);
  (* the acknowledgements are of bytes received *)
  st_acks : ack_base t (other s) ph p + frames_acks fs <= receive_end t s;
  st_handshake : ph = RdHandshake -> frames_acks fs = 0 /\
    (forall a, attached t s id = Some a -> p = receive_end t s);
  st_unborn : id ∉ n_used t (other s) -> id <> 0%nat -> fs = [] /\ closing = false;
  st_alive a : attached t s id = Some a -> at_writer a <> WrDone ->
    rest = outgoing a /\ acked a = ack_base t (other s) ph p + frames_acks fs;
  st_running a : attached t s id = Some a -> running a ->
    closing = false /\ sent_to a = receive_end t (other s) + len64 (d0 ++ frames_data fs);
  st_waiting a : attached t s id = Some a -> waiting a -> d0 = [] /\ fs = [] /\ closing = false;
  (* acknowledgements do not pass what the other side has sent *)
  st_room a : attached t (other s) id = Some a -> running a -> ack_base t (other s) ph p + frames_acks fs <= sent_to a;
  st_closing : closing = true -> n_refused t = false ->
    c_localClosed (conn_of t s) = true /\
    receive_end t (other s) + len64 (d0 ++ frames_data fs) = len64 (n_sent t s);
}.

Definition flow (t : net) (s : side) (id : nat) : Prop :=
  forall ph, phase t (other s) id = Some ph ->
    if decide (id ∈ n_used t s)
    then exists p d0 fs closing rest, stream t s id ph p d0 fs closing rest
    else n_wire t id s = [] /\ ph = first_phase id.

(** ** One endpoint *)

Record buffers_ok (t : net) (s : side) : Prop := {
  bo_send : valid (c_sendBuffer (conn_of t s));
  bo_receive : valid (c_receiveBuffer (conn_of t s));
  bo_sent : b_end (c_sendBuffer (conn_of t s)) = len64 (n_sent t s);
  bo_sent_small : len64 (n_sent t s) < 2 ^ 62;
  bo_unacked : content (c_sendBuffer (conn_of t s)) = drop (Z.to_nat (send_start t s)) (n_sent t s);
  bo_received : receive_end t s <= len64 (n_sent t (other s));
  bo_got : n_got t s `prefix_of` n_sent t (other s);
  bo_stream : c_localClosed (conn_of t s) = false ->
    (n_got t s ++ content (c_receiveBuffer (conn_of t s)))%list = take (Z.to_nat (receive_end t s)) (n_sent t (other s));
  bo_acked : send_start t s <= receive_end t (other s);
  (* the memory of the two buffers *)
  bo_send_memory : len64 (b_data (c_sendBuffer (conn_of t s))) <= sendBufferSize;
  bo_receive_memory : len64 (b_data (c_receiveBuffer (conn_of t s))) <= receiveBufferSize;
  bo_closed : c_remoteClosed (conn_of t s) = true -> n_refused t = false ->
    c_localClosed (conn_of t (other s)) = true /\ receive_end t s = len64 (n_sent t (other s));
}.

(** There is room for what is being read; data is discarded after [Close]. *)
Definition filling (c : managedConn) (ph : rphase) : Prop :=
  match ph with
  | RdFill r want => 0 < want <= r /\ held (c_receiveBuffer c) + want <= len64 (b_data (c_receiveBuffer c))
  | RdData r => 0 <= r
  | RdDiscard r => 0 <= r /\ c_localClosed c = true
  | _ => True
  end.

Record attachment_ok (t : net) (s : side) (a : attachment) : Prop := {
  ao_used : at_id a ∈ n_used t s;
  ao_first : at_id a = 0%nat -> at_reader a <> RdHandshake /\
    match at_writer a with WrHandshake _ | WrReady => False | _ => True end;
  ao_writer : match at_writer a with
    | WrHandshake _ | WrReady => at_reader a = RdHandshake \/ at_reader a = RdDone
    | WrLoop | WrFrame _ _ _ => at_reader a <> RdHandshake /\
        0 <= at_localPosition a <= acked a /\ acked a <= receive_end t s /\
        0 <= at_peerPosition a <= sent_to a /\ send_start t s <= sent_to a <= len64 (n_sent t s)
    | WrLast _ => at_reader a <> RdHandshake
    | WrDone => True
    end;
  ao_handshake : at_reader a = RdHandshake -> at_localPosition a = receive_end t s;
  ao_other : match at_writer a with WrHandshake _ | WrReady | WrDone => True | _ => at_id a <> 0%nat -> at_id a ∈ n_used t (other s) end;
  ao_fill : filling (conn_of t s) (at_reader a);
}.

Record good (t : net) : Prop := {
  gd_buffers s : buffers_ok t s;
  gd_attached s a : cn_attached (n_end t s) = Some a -> attachment_ok t s a;
  gd_flow s id : flow t s id;
  (* an endpoint begins with the first transport *)
  gd_used s : 0%nat ∉ n_used t s -> n_used t s = [] /\ cn_attached (n_end t s) = None /\
    receive_end t s = 0 /\ receive_end t (other s) = 0;
  gd_first s a : cn_attached (n_end t s) = Some a -> at_id a = 0%nat -> n_used t s = [0%nat];
  (* who writes to the transport an endpoint reads from is not behind it *)
  gd_pair s a b : cn_attached (n_end t s) = Some a -> cn_attached (n_end t (other s)) = Some b -> at_id b = at_id a ->
    running b -> receive_end t s <= sent_to b;
}.

(** ** The programs *)

(** A call of [Write] appends what it accepts to the send buffer, or changes
    nothing. *)
Record wrote (c c' : managedConn) (b : list byte) : Prop := {
  wr_rest : c' = with_send (c_sendBuffer c') c;
  wr_buffer : extends (c_sendBuffer c) (c_sendBuffer c') b;
  wr_within : within (c_sendBuffer c) (c_sendBuffer c') sendBufferSize;
  wr_closed : c_localClosed c = true -> b = [];
}.

Lemma extends_nothing w : valid w -> extends w w [].
Proof. intros Hv. split; [done|done|unfold len64; simpl; lia|by rewrite app_nil_r]. Qed.

Lemma wrote_nothing c : valid (c_sendBuffer c) -> wrote c c [].
Proof. intros Hv. split; [by destruct c|by apply extends_nothing|by intros m|done]. Qed.

Lemma Write_round_spec n b c c' p : valid (c_sendBuffer c) -> b <> [] -> 0 <= n -> c_localClosed c = false ->
  b_end (c_sendBuffer c) + len64 b < 2 ^ 64 -> Write_round n b c = Ok (c', p) ->
  wrote c c' (accepted b p n).
Proof.
  intros Hv Hb Hn Hl Hend. unfold Write_round.
  destruct (buffer_write_spec (c_sendBuffer c) b sendBufferSize) as (w & s & -> & Hs & Hx & Hw); [done|by right|unfold sendBufferSize; lia|done|].
  unfold rbind. assert (Hwr : forall p, accepted b p n = take (Z.to_nat s) b -> wrote c (with_send w c) (accepted b p n)).
  { intros q ->. split; [done|done|done|]. by rewrite Hl. }
  destruct (Z.ltb_spec 0 s) as [Hpos|Hz].
  - intros [= <- <-]. apply Hwr. destruct (length _ =? 0)%nat; simpl; do 2 f_equal; lia.
  - intros [= <- <-]. apply Hwr. simpl. f_equal. lia.
Qed.

Lemma Write_spec n b c c' p : valid (c_sendBuffer c) -> 0 <= n -> b_end (c_sendBuffer c) + len64 b < 2 ^ 64 ->
  (Write b c = Ok (c', p) /\ n = 0 \/ Write_wake n b c = Ok (c', p) /\ b <> []) ->
  wrote c c' (accepted b p n).
Proof.
  intros Hv Hn Hend.
  assert (Hnone : forall e, Ok (c, Return n e : progress Z (Z * list byte)) = Ok (c', p) -> wrote c c' (accepted b p n)).
  { intros e [= <- <-]. simpl. rewrite Z.sub_diag. by apply wrote_nothing. }
  intros [[E ->]|[E Hb]].
  - unfold Write in E. destruct (c_localClosed c) eqn:Hl; [by eapply Hnone|].
    destruct (dl_timeout _); [by eapply Hnone|].
    destruct (c_remoteClosed c); [by eapply Hnone|].
    destruct (Nat.eqb_spec (length b) 0) as [E0|E0]; [by eapply Hnone|].
    eapply Write_round_spec; try done. by intros ->.
  - unfold Write_wake in E. destruct (c_localClosed c) eqn:Hl; [by eapply Hnone|].
    destruct (dl_timeout _); [by eapply Hnone|].
    destruct (c_remoteClosed c); [by eapply Hnone|]. by eapply Write_round_spec.
Qed.

(** A call of [Read] takes what it returns from the receive buffer. *)
Record took (c c' : managedConn) (b : list byte) : Prop := {
  tk_rest : c' = with_receive (c_receiveBuffer c') c;
  tk_valid : valid (c_receiveBuffer c');
  tk_content : content (c_receiveBuffer c) = (b ++ content (c_receiveBuffer c'))%list;
  tk_end : b_end (c_receiveBuffer c') = b_end (c_receiveBuffer c);
  tk_data : b_data (c_receiveBuffer c') = b_data (c_receiveBuffer c);
  tk_closed : c_localClosed c = true -> b = [];
}.

Lemma took_nothing c : valid (c_receiveBuffer c) -> took c c [].
Proof. intros Hv. by split; [by destruct c|..]. Qed.

Lemma Read_round_spec size c c' p : valid (c_receiveBuffer c) -> c_localClosed c = false -> Read_round size c = Ok (c', p) ->
  took c c' (match p with Return b _ => b | Wait _ => [] end).
Proof.
  intros Hv Hl. unfold Read_round. destruct (dl_timeout _); [intros [= <- <-]; by apply took_nothing|].
  destruct (read_spec (c_receiveBuffer c) size Hv) as (w & -> & Hv' & Hc & He & Hd & _). unfold rbind.
  set (b := take size _) in *. intros [= <- <-].
  assert (Ht : forall x, x = b -> took c (with_receive w c) x).
  { intros x ->. split; simpl; try done; [|by rewrite Hl]. unfold b. by rewrite Hc, take_drop. }
  apply Ht. destruct (Nat.ltb_spec 0 (length b)); [done|].
  assert (b = []) as -> by (apply length_zero_iff_nil; lia). by destruct (c_remoteClosed _).
Qed.

Lemma Read_spec size c c' p : valid (c_receiveBuffer c) ->
  (Read size c = Ok (c', p) \/ Read_wake size c = Ok (c', p)) ->
  took c c' (match p with Return b _ => b | Wait _ => [] end).
Proof.
  intros Hv [E|E]; unfold Read, Read_wake in E; destruct (c_localClosed c) eqn:Hl;
    try (injection E as <- <-; by apply took_nothing).
  - destruct (size =? 0)%nat; [injection E as <- <-; by apply took_nothing|]. by eapply Read_round_spec.
  - by eapply Read_round_spec.
Qed.

(** ** Steps that leave the transports alone *)

Lemma other_other s : other (other s) = s.
Proof. by destruct s. Qed.
Lemma other_ne s : other s <> s.
Proof. by destruct s. Qed.
Lemma side_cases s x : x = s \/ x = other s.
Proof. destruct s, x; auto. Qed.

Lemma upd_eq {A B} `{EqDecision A} (f : A -> B) x v : upd f x v x = v.
Proof. unfold upd. by rewrite decide_True. Qed.
Lemma upd_ne {A B} `{EqDecision A} (f : A -> B) x v y : y <> x -> upd f x v y = f y.
Proof. intros Hn. unfold upd. by rewrite decide_False. Qed.

Record calm (t t' : net) : Prop := {
  cm_attached s : cn_attached (n_end t' s) = cn_attached (n_end t s);
  cm_wire : n_wire t' = n_wire t;
  cm_used : n_used t' = n_used t;
  cm_refused : n_refused t' = n_refused t;
  cm_receive s : receive_end t' s = receive_end t s;
  cm_send s : send_start t' s = send_start t s;
  cm_sent s : n_sent t s `prefix_of` n_sent t' s;
  cm_closed s : c_localClosed (conn_of t s) = true -> c_localClosed (conn_of t' s) = true /\ n_sent t' s = n_sent t s;
  cm_held s : held (c_receiveBuffer (conn_of t' s)) <= held (c_receiveBuffer (conn_of t s)) /\
    b_data (c_receiveBuffer (conn_of t' s)) = b_data (c_receiveBuffer (conn_of t s));
}.

Lemma prefix_drop {A} n (l k : list A) : l `prefix_of` k -> drop n l `prefix_of` drop n k.
Proof. intros [r ->]. rewrite drop_app. apply prefix_app_r. done. Qed.

Lemma prefix_len64 (l k : list byte) : l `prefix_of` k -> len64 l <= len64 k.
Proof. intros Hp%prefix_length. unfold len64. lia. Qed.

Section Calm.
Context (t t' : net) (Hc : calm t t').

Lemma calm_att s id : attached t' s id = attached t s id.
Proof. unfold attached. by rewrite (cm_attached _ _ Hc). Qed.

Lemma calm_phase s id : phase t' s id = phase t s id.
Proof. unfold phase. by rewrite calm_att, (cm_used _ _ Hc). Qed.

Lemma calm_base s ph p : ack_base t' s ph p = ack_base t s ph p.
Proof. unfold ack_base. by rewrite (cm_send _ _ Hc). Qed.

Lemma calm_stream s id ph p d0 fs closing rest : stream t s id ph p d0 fs closing rest -> stream t' s id ph p d0 fs closing rest.
Proof.
  intros []. split; rewrite ?(cm_wire _ _ Hc), ?(cm_used _ _ Hc), ?(cm_receive _ _ Hc), ?calm_base, ?(cm_refused _ _ Hc); try done.
  - etransitivity; [done|]. apply prefix_drop, (cm_sent _ _ Hc).
  - intros ->. split; [by apply st_handshake0|]. intros a. rewrite calm_att. by apply st_handshake0.
  - intros a. rewrite calm_att. eauto.
  - intros a. rewrite calm_att. eauto.
  - intros a. rewrite calm_att. eauto.
  - intros a. rewrite calm_att. eauto.
  - intros Hcl Hr. destruct (st_closing0 Hcl Hr) as [Hl Hd]. destruct (cm_closed _ _ Hc s Hl) as [? ->]. done.
Qed.

Lemma calm_flow s id : flow t s id -> flow t' s id.
Proof.
  intros Hf ph. rewrite calm_phase. intros Hph. specialize (Hf ph Hph). rewrite (cm_used _ _ Hc). case_decide.
  - destruct Hf as (p & d0 & fs & closing & rest & Hst). exists p, d0, fs, closing, rest. by apply calm_stream.
  - by rewrite (cm_wire _ _ Hc).
Qed.

Lemma calm_attachment s a : attachment_ok t s a -> attachment_ok t' s a.
Proof.
  intros []. split; rewrite ?(cm_used _ _ Hc), ?(cm_receive _ _ Hc); try done.
  - destruct (at_writer a); try done; rewrite ?(cm_receive _ _ Hc), ?(cm_send _ _ Hc);
      pose proof (prefix_len64 _ _ (cm_sent _ _ Hc s)); intuition lia.
  - unfold filling in *. destruct (at_reader a); try done.
    + destruct (cm_held _ _ Hc s) as [? ->]. lia.
    + destruct ao_fill0 as [? Hl]. destruct (cm_closed _ _ Hc s Hl). done.
Qed.

Lemma calm_good : good t -> (forall s, buffers_ok t' s) -> good t'.
Proof.
  intros [] Hb. split.
  - done.
  - intros s a. rewrite (cm_attached _ _ Hc). intros Ha. by apply calm_attachment, gd_attached0.
  - intros s id. by apply calm_flow.
  - intros s. rewrite (cm_used _ _ Hc), (cm_attached _ _ Hc), !(cm_receive _ _ Hc). apply gd_used0.
  - intros s a. rewrite (cm_attached _ _ Hc), (cm_used _ _ Hc). apply gd_first0.
  - intros s a b. rewrite !(cm_attached _ _ Hc), (cm_receive _ _ Hc). apply gd_pair0.
Qed.
End Calm.

(** Reading what [set_end] and its like do. *)
Ltac net_simpl :=
  unfold conn_of, receive_end, send_start, attached, sends, gets, use, set_end, set_wire, refuse_if, with_attachment, with_conn in *;
  cbn [n_end n_wire n_used n_sent n_got n_refused cn_conn cn_attached] in *.

(** A goal for every side [x]: for [s], and for the other one. *)
Ltac by_side s x := destruct (side_cases s x) as [->| ->]; rewrite ?upd_eq, ?other_other, ?(upd_ne _ s _ (other s)), ?upd_eq by apply other_ne.

Lemma write_good t s c b : good t -> wrote (conn_of t s) c b -> len64 (n_sent t s) + len64 b < 2 ^ 62 ->
  good (sends s b (set_end s (with_conn (fun _ => c) (n_end t s)) t)).
Proof.
  intros Hg [Ec [Hv Hs He Hx] Hw Hl] Hsmall. set (t' := sends s b _).
  assert (Eend : forall x, conn_of t' x = if decide (x = s) then c else conn_of t x).
  { intros x. unfold t'. net_simpl. unfold upd. by case_decide. }
  assert (Esent : forall x, n_sent t' x = if decide (x = s) then (n_sent t s ++ b)%list else n_sent t x) by done.
  assert (Hr : forall x, c_receiveBuffer (conn_of t' x) = c_receiveBuffer (conn_of t x) /\
    c_localClosed (conn_of t' x) = c_localClosed (conn_of t x) /\ c_remoteClosed (conn_of t' x) = c_remoteClosed (conn_of t x)).
  { intros x. rewrite Eend. case_decide as E; [rewrite E, Ec; done|done]. }
  assert (Hpre : forall x, n_sent t x `prefix_of` n_sent t' x).
  { intros x. rewrite Esent. case_decide as E; [rewrite E; by apply prefix_app_r|done]. }
  assert (Hcl : forall x, c_localClosed (conn_of t x) = true -> n_sent t' x = n_sent t x).
  { intros x Hx'. rewrite Esent. case_decide as E; [|done]. subst x. rewrite (Hl Hx'). by rewrite app_nil_r. }
  assert (Hcalm : calm t t').
  { split; try done.
    - intros x. unfold t'. net_simpl. unfold upd. by case_decide; [subst x|].
    - intros x. unfold receive_end. by destruct (Hr x) as [-> _].
    - intros x. unfold send_start. rewrite Eend. case_decide as E; [subst x; exact Hs|done].
    - intros x Hx'. destruct (Hr x) as (_ & -> & _). auto.
    - intros x. destruct (Hr x) as [-> _]. done. }
  apply (calm_good t t' Hcalm Hg). intros x. destruct (gd_buffers t Hg x). pose proof (Hr x) as (Hr1 & Hr2 & Hr3).
  assert (Hlen : len64 (n_sent t (other x)) <= len64 (n_sent t' (other x))) by apply prefix_len64, Hpre.
  assert (Hsend : valid (c_sendBuffer (conn_of t' x)) /\ b_end (c_sendBuffer (conn_of t' x)) = len64 (n_sent t' x) /\
    len64 (n_sent t' x) < 2 ^ 62 /\ content (c_sendBuffer (conn_of t' x)) = drop (Z.to_nat (send_start t x)) (n_sent t' x) /\
    len64 (b_data (c_sendBuffer (conn_of t' x))) <= sendBufferSize).
  { rewrite Eend, Esent. case_decide as E; [subst x|done]. split_and!.
    - done.
    - rewrite He, bo_sent0. unfold len64. rewrite length_app. lia.
    - unfold len64 in *. rewrite length_app. lia.
    - rewrite Hx, bo_unacked0. rewrite drop_app_le; [done|]. unfold send_start, len64 in *.
      pose proof (vl_start _ bo_send0). lia.
    - apply (Hw 21); [lia| |by vm_compute]. exact bo_send_memory0. }
  destruct Hsend as (? & ? & ? & ? & ?).
  split; rewrite ?(cm_receive _ _ Hcalm), ?(cm_send _ _ Hcalm), ?Hr1, ?Hr2, ?Hr3; try done; try lia.
  - etransitivity; [done|apply Hpre].
  - intros Hx'. change (n_got t' x) with (n_got t x). rewrite (bo_stream0 Hx'). destruct (Hpre (other x)) as [r ->].
    unfold receive_end, len64 in *. rewrite take_app_le; [done|]. lia.
  - intros Hx' Hf. destruct (bo_closed0 Hx' Hf) as [Ho Hd]. destruct (Hr (other x)) as (_ & -> & _). by rewrite (Hcl _ Ho).
Qed.

Lemma read_good t s c b : good t -> took (conn_of t s) c b ->
  good (gets s b (set_end s (with_conn (fun _ => c) (n_end t s)) t)).
Proof.
  intros Hg [Ec Hv Hx He Hd Hl]. set (t' := gets s b _).
  assert (Eend : forall x, conn_of t' x = if decide (x = s) then c else conn_of t x).
  { intros x. unfold t'. net_simpl. unfold upd. by case_decide. }
  assert (Hr : forall x, c_sendBuffer (conn_of t' x) = c_sendBuffer (conn_of t x) /\
    c_localClosed (conn_of t' x) = c_localClosed (conn_of t x) /\ c_remoteClosed (conn_of t' x) = c_remoteClosed (conn_of t x) /\
    b_end (c_receiveBuffer (conn_of t' x)) = b_end (c_receiveBuffer (conn_of t x)) /\
    b_data (c_receiveBuffer (conn_of t' x)) = b_data (c_receiveBuffer (conn_of t x)) /\ valid (c_receiveBuffer (conn_of t' x))).
  { intros x. rewrite Eend. case_decide as E; [|split_and!; [done..|apply (gd_buffers t Hg x)]].
    subst x. split_and!; [by rewrite Ec..|done|done|done]. }
  assert (Hcontent : forall x, c_localClosed (conn_of t x) = false ->
    (n_got t' x ++ content (c_receiveBuffer (conn_of t' x)))%list = (n_got t x ++ content (c_receiveBuffer (conn_of t x)))%list).
  { intros x Hx'. rewrite Eend. change (n_got t' x) with (upd (n_got t) s (n_got t s ++ b)%list x). unfold upd.
    case_decide as E; [|done]. subst x. by rewrite Hx, <- app_assoc. }
  assert (Hgot : forall x, c_localClosed (conn_of t x) = true -> n_got t' x = n_got t x).
  { intros x Hx'. change (n_got t' x) with (upd (n_got t) s (n_got t s ++ b)%list x). unfold upd.
    case_decide as E; [|done]. subst x. by rewrite (Hl Hx'), app_nil_r. }
  assert (Hcalm : calm t t').
  { split; try done.
    - intros x. unfold t'. net_simpl. unfold upd. by case_decide; [subst x|].
    - intros x. unfold receive_end. apply Hr.
    - intros x. unfold send_start. by destruct (Hr x) as [-> _].
    - intros x Hx'. by destruct (Hr x) as (_ & -> & _).
    - intros x. destruct (Hr x) as (_ & _ & _ & He' & Hd' & Hv'). split; [|done].
      rewrite (held_content _ Hv'), (held_content _ (bo_receive _ _ (gd_buffers t Hg x))), Eend. case_decide as E; [|done].
      subst x. rewrite Hx. unfold len64. rewrite length_app. lia. }
  apply (calm_good t t' Hcalm Hg). intros x. destruct (gd_buffers t Hg x).
  destruct (Hr x) as (Hr1 & Hr2 & Hr3 & Hr4 & Hr5 & Hr6). destruct (Hr (other x)) as (_ & Ho & _).
  assert (Hopen : c_localClosed (conn_of t x) = false ->
    (n_got t' x ++ content (c_receiveBuffer (conn_of t' x)))%list = take (Z.to_nat (receive_end t x)) (n_sent t (other x))).
  { intros Hx'. by rewrite Hcontent, bo_stream0. }
  split; rewrite ?(cm_receive _ _ Hcalm), ?(cm_send _ _ Hcalm), ?Hr1, ?Hr2, ?Hr3, ?Hr5, ?Ho; try done.
  destruct (c_localClosed (conn_of t x)) eqn:Hx'; [by rewrite Hgot|].
  apply (prefix_app_l _ _ (content (c_receiveBuffer (conn_of t' x)))). rewrite Hopen by done. apply prefix_take.
Qed.

(** The other calls change flags and timers only. *)
Lemma flags_good t s f : good t -> (forall c, c_receiveBuffer (f c) = c_receiveBuffer c /\ c_sendBuffer (f c) = c_sendBuffer c /\
    c_remoteClosed (f c) = c_remoteClosed c /\ (c_localClosed c = true -> c_localClosed (f c) = true)) ->
  good (set_end s (with_conn f (n_end t s)) t).
Proof.
  intros Hg Hf. set (t' := set_end s _ t).
  assert (Hr : forall x, c_receiveBuffer (conn_of t' x) = c_receiveBuffer (conn_of t x) /\
    c_sendBuffer (conn_of t' x) = c_sendBuffer (conn_of t x) /\ c_remoteClosed (conn_of t' x) = c_remoteClosed (conn_of t x) /\
    (c_localClosed (conn_of t x) = true -> c_localClosed (conn_of t' x) = true)).
  { intros x. unfold t'. net_simpl. unfold upd. case_decide as E; [subst x; apply Hf|done]. }
  assert (Hcalm : calm t t').
  { split; try done.
    - intros x. unfold t'. net_simpl. unfold upd. by case_decide; [subst x|].
    - intros x. unfold receive_end. by destruct (Hr x) as [-> _].
    - intros x. unfold send_start. by destruct (Hr x) as (_ & -> & _).
    - intros x Hx. split; [by apply Hr|done].
    - intros x. by destruct (Hr x) as [-> _]. }
  apply (calm_good t t' Hcalm Hg). intros x. destruct (gd_buffers t Hg x). destruct (Hr x) as (Hr1 & Hr2 & Hr3 & Hr4).
  destruct (Hr (other x)) as (_ & _ & _ & Ho).
  split; rewrite ?(cm_receive _ _ Hcalm), ?(cm_send _ _ Hcalm), ?Hr1, ?Hr2, ?Hr3; try done.
  - intros Hx. apply bo_stream0. destruct (c_localClosed (conn_of t x)); [|done]. by rewrite Hr4 in Hx.
  - intros Hx Hn. destruct (bo_closed0 Hx Hn) as [Hc Hd]. auto.
Qed.

(** ** Steps that leave the programs alone *)

(** What the buffers, the programs and the flags of a net are. *)
Record same_programs (t t' : net) : Prop := {
  sm_conn x : conn_of t' x = conn_of t x;
  sm_sent : n_sent t' = n_sent t;
  sm_got : n_got t' = n_got t;
  sm_refused : n_refused t' = n_refused t;
}.

Lemma same_receive t t' x : same_programs t t' -> receive_end t' x = receive_end t x.
Proof. intros []. unfold receive_end. by rewrite sm_conn0. Qed.
Lemma same_send t t' x : same_programs t t' -> send_start t' x = send_start t x.
Proof. intros []. unfold send_start. by rewrite sm_conn0. Qed.
Lemma same_base t t' x ph p : same_programs t t' -> ack_base t' x ph p = ack_base t x ph p.
Proof. intros Hs. unfold ack_base. by rewrite (same_send t t'). Qed.

Lemma same_buffers t t' x : same_programs t t' -> buffers_ok t x -> buffers_ok t' x.
Proof.
  intros Hs []. pose proof Hs as []. 
  split; rewrite ?(same_receive t t' _ Hs), ?(same_send t t' _ Hs), ?sm_conn0, ?sm_sent0, ?sm_got0, ?sm_refused0; done.
Qed.

Ltac same Hs := rewrite ?(same_receive _ _ _ Hs), ?(same_send _ _ _ Hs), ?(same_base _ _ _ _ _ Hs),
  ?(sm_conn _ _ Hs), ?(sm_sent _ _ Hs), ?(sm_got _ _ Hs), ?(sm_refused _ _ Hs).

(** A transport that nothing happened to. *)
Lemma still_flow t t' s id : same_programs t t' -> (forall x, attached t' x id = attached t x id) ->
  n_wire t' id s = n_wire t id s -> (forall x, id ∈ n_used t' x <-> id ∈ n_used t x) ->
  flow t s id -> flow t' s id.
Proof.
  intros Hs Ha Hw Hu Hf ph. unfold phase. rewrite Ha.
  assert (Hd : forall A (u v : A) x, (if decide (id ∈ n_used t' x) then u else v) = (if decide (id ∈ n_used t x) then u else v)).
  { intros A u v x. specialize (Hu x). repeat case_decide; tauto. }
  rewrite Hd. fold (phase t (other s) id). intros Hph. specialize (Hf ph Hph). rewrite Hd. case_decide.
  - destruct Hf as (p & d0 & fs & closing & rest & []). exists p, d0, fs, closing, rest.
    split; same Hs; rewrite ?Hw; try done.
    + intros E. destruct (st_handshake0 E) as [? Hp]. split; [done|]. intros a. rewrite Ha. eauto.
    + intros Hn. apply st_unborn0. by rewrite <- Hu.
    + intros a. rewrite Ha. eauto.
    + intros a. rewrite Ha. eauto.
    + intros a. rewrite Ha. eauto.
    + intros a. rewrite Ha. eauto.
  - by rewrite Hw.
Qed.

(** An attachment that an endpoint did not touch. *)
Lemma same_attachment t t' s a : same_programs t t' -> (forall x id, id ∈ n_used t x -> id ∈ n_used t' x) ->
  attachment_ok t s a -> attachment_ok t' s a.
Proof.
  intros Hs Hu []. split; same Hs; auto.
  - destruct (at_writer a); auto.
Qed.

Lemma attached_id t s id a : attached t s id = Some a -> cn_attached (n_end t s) = Some a /\ at_id a = id.
Proof. unfold attached. destruct (cn_attached _) as [b|]; [|done]. case_decide; [|done]. by intros [= <-]. Qed.

Lemma attached_at t s a : cn_attached (n_end t s) = Some a -> attached t s (at_id a) = Some a.
Proof. unfold attached. intros ->. by rewrite decide_True. Qed.

(** ** The write loop

    A step of the write loop of [s] on the transport of [a], which leaves [a']
    and puts [b] on the wire. *)

Record writer_moved (t t' : net) (s : side) (a a' : attachment) (b : list byte) : Prop := {
  wm_same : same_programs t t';
  wm_used : n_used t' = n_used t;
  wm_old : cn_attached (n_end t s) = Some a;
  wm_new x : cn_attached (n_end t' x) = if decide (x = s) then Some a' else cn_attached (n_end t x);
  wm_wire x id : n_wire t' id x = if decide (x = s /\ id = at_id a) then (n_wire t id x ++ b)%list else n_wire t id x;
  wm_id : at_id a' = at_id a;
  wm_reader : at_reader a' = at_reader a;
  wm_running : running a' -> running a /\ sent_to a <= sent_to a';
}.

Lemma moved_attached t t' s a a' b x id : writer_moved t t' s a a' b ->
  attached t' x id = if decide (x = s /\ id = at_id a) then Some a' else attached t x id.
Proof.
  intros []. unfold attached. rewrite wm_new0. destruct (decide (x = s)) as [->|Hx].
  - rewrite wm_old0, wm_id0. repeat case_decide; naive_solver.
  - rewrite (decide_False (P := x = s /\ _)) by tauto. done.
Qed.

(** The stream that goes on from one that [s] moved. *)
Definition moves_on (t t' : net) (s : side) (id : nat) : Prop :=
  forall ph p d0 fs closing rest, phase t (other s) id = Some ph -> stream t s id ph p d0 fs closing rest ->
  exists fs' closing' rest', stream t' s id ph p d0 fs' closing' rest'.

Lemma writer_moved_flow t t' s a a' b x id : good t -> writer_moved t t' s a a' b -> moves_on t t' s (at_id a) ->
  flow t' x id.
Proof.
  intros Hg Hm Hown. pose proof (fun x id => moved_attached t t' s a a' b x id Hm) as Hatt.
  destruct Hm as [Hs Hu Ha Hnew Hw Hid Hrd Hrun]. pose proof (gd_flow t Hg x id) as Hf. specialize (Hw x id).
  destruct (decide (id = at_id a)) as [->|Hne].
  2: { apply (still_flow t t'); try done; [|by rewrite Hw, decide_False by tauto|by rewrite Hu].
       intros y. rewrite Hatt, decide_False by tauto. done. }
  assert (Hphase : forall y, phase t' y (at_id a) = phase t y (at_id a)).
  { intros y. unfold phase. rewrite Hatt, Hu.
    destruct (decide (y = s /\ at_id a = at_id a)) as [[-> _]|]; [|done].
    rewrite (attached_at _ _ _ Ha). by rewrite Hrd. }
  intros ph. rewrite Hphase. intros Hph. specialize (Hf ph Hph).
  destruct (side_cases s x) as [->| ->].
  - rewrite Hu, decide_True by apply (gd_attached t Hg s a Ha).
    rewrite decide_True in Hf by apply (gd_attached t Hg s a Ha).
    destruct Hf as (p & d0 & fs & closing & rest & Hst). destruct (Hown _ _ _ _ _ _ Hph Hst) as (fs' & cl' & rest' & ?). eauto 10.
  - rewrite other_other in *. rewrite Hu.
    rewrite (decide_False (P := other s = s /\ _)) in Hw by (intros [E _]; by apply (other_ne s)).
    case_decide; [|by rewrite Hw].
    destruct Hf as (p & d0 & fs & closing & rest & []). exists p, d0, fs, closing, rest.
    rewrite other_other in *.
    assert (Ho : attached t' (other s) (at_id a) = attached t (other s) (at_id a)).
    { rewrite Hatt, decide_False; [done|]. intros [E _]. by apply (other_ne s). }
    split; rewrite ?other_other; same Hs; rewrite ?Hw, ?Ho, ?Hu; try done.
    + intros a0. rewrite Hatt, decide_True by done. intros [= <-] Hr'. destruct (Hrun Hr') as [Hr Hle].
      etransitivity; [|exact Hle]. apply st_room0; [by apply attached_at|done].
Qed.

Lemma writer_moved_good t t' s a a' b : good t -> writer_moved t t' s a a' b -> moves_on t t' s (at_id a) ->
  (attachment_ok t s a -> attachment_ok t s a') -> good t'.
Proof.
  intros Hg Hm Hown Hok. pose proof Hm as [Hs Hu Ha Hnew Hw Hid Hrd Hrun]. split.
  - intros x. apply (same_buffers t); [done|apply Hg].
  - intros x a0. rewrite Hnew. intros Ha0. apply (same_attachment t); [done|by rewrite Hu|].
    case_decide as Ex; [subst x; injection Ha0 as <-; by apply Hok, gd_attached|by apply Hg].
  - intros x id. by eapply writer_moved_flow.
  - intros x. rewrite Hu, Hnew, !(same_receive _ _ _ Hs). intros H0.
    destruct (gd_used t Hg x H0) as (Hu0 & Hn & ? & ?). case_decide; [subst x; congruence|done].
  - intros x a0. rewrite Hu, Hnew. case_decide as Ex; [|by apply gd_first].
    subst x. intros [= <-] H0. apply (gd_first t Hg s a Ha). congruence.
  - intros x a0 b0. rewrite !Hnew, (same_receive _ _ _ Hs). intros Ha0 Hb0 Hib Hrb.
    destruct (side_cases s x) as [-> | ->]; rewrite ?other_other in *.
    + rewrite decide_True in Ha0 by done. rewrite decide_False in Hb0 by apply other_ne. injection Ha0 as <-.
      apply (gd_pair t Hg s a b0); congruence.
    + rewrite decide_False in Ha0 by apply other_ne. rewrite decide_True in Hb0 by done. injection Hb0 as <-.
      destruct (Hrun Hrb) as [Hra Hle]. etransitivity; [|exact Hle].
      apply (gd_pair t Hg (other s) a0 a); rewrite ?other_other; congruence.
Qed.

(** The net after [transmit], and after a step that puts nothing on the wire. *)
Lemma transmit_moved t s a a' b : cn_attached (n_end t s) = Some a -> at_id a' = at_id a -> at_reader a' = at_reader a ->
  (running a' -> running a /\ sent_to a <= sent_to a') ->
  writer_moved t (set_wire (at_id a) s (n_wire t (at_id a) s ++ b)%list (set_end s (with_attachment a' (n_end t s)) t)) s a a' b.
Proof.
  intros Ha Hid Hrd Hrun. split; try done.
  - split; try done. intros x. net_simpl. unfold upd. case_decide; [by subst x|done].
  - intros x. net_simpl. unfold upd. by case_decide.
  - intros x id. net_simpl. unfold upd. destruct (decide (id = at_id a)) as [->|]; [|by rewrite decide_False by tauto].
    destruct (decide (x = s)) as [->|]; [by rewrite decide_True by tauto|by rewrite decide_False by tauto].
Qed.

Lemma quiet_moved t s a a' : cn_attached (n_end t s) = Some a -> at_id a' = at_id a -> at_reader a' = at_reader a ->
  (running a' -> running a /\ sent_to a <= sent_to a') ->
  writer_moved t (set_end s (with_attachment a' (n_end t s)) t) s a a' [].
Proof.
  intros Ha Hid Hrd Hrun. split; try done.
  - split; try done. intros x. net_simpl. unfold upd. case_decide; [by subst x|done].
  - intros x. net_simpl. unfold upd. by case_decide.
  - intros x id. net_simpl. case_decide; [|done]. by rewrite app_nil_r.
Qed.

(** Streams and writers that stop: nothing more is said of them. *)
Lemma stops_on t t' s a a' : writer_moved t t' s a a' [] -> at_writer a' = WrDone -> moves_on t t' s (at_id a).
Proof.
  intros Hm Hd ph p d0 fs closing rest _ []. exists fs, closing, rest.
  pose proof (fun x => moved_attached t t' s a a' [] x (at_id a) Hm) as Hatt.
  assert (Ho : attached t' (other s) (at_id a) = attached t (other s) (at_id a)).
  { rewrite Hatt, decide_False; [done|]. intros [E _]. by apply (other_ne s). }
  assert (Ha' : forall a0, attached t' s (at_id a) = Some a0 -> a0 = a') by (intros a0; rewrite Hatt, decide_True by done; congruence).
  destruct Hm as [Hs Hu Ha Hnew Hw Hid Hrd Hrun]. specialize (Hw s (at_id a)). rewrite decide_True, app_nil_r in Hw by done.
  split; same Hs; rewrite ?Hw, ?Hu, ?Ho; try done.
  - intros E. destruct (st_handshake0 E) as [? Hp]. split; [done|]. intros a0 _. apply (Hp a). by apply attached_at.
  - intros a0 ->%Ha' Hn. done.
  - intros a0 ->%Ha'. unfold running. by rewrite Hd.
  - intros a0 ->%Ha'. unfold waiting in *. rewrite Hd. intros [E|[]]. apply (st_waiting0 a); [by apply attached_at|]. left. congruence.
Qed.

(** ** A frame *)

Lemma next_frame_spec t s a : good t -> attachment_ok t s a -> at_writer a = WrLoop ->
  exists ack data, next_frame (conn_of t s) a = Ok (ack, data) /\
    ack = receive_end t s - at_localPosition a /\ 0 <= ack < 2 ^ 62 /\
    data `prefix_of` drop (Z.to_nat (at_peerPosition a)) (n_sent t s) /\ len64 data <= maxFrameSize /\
    (data = [] -> at_peerPosition a = len64 (n_sent t s)).
Proof.
  intros Hg [_ _ Hw _ _ _] Ew. rewrite Ew in Hw. unfold acked, sent_to in Hw. rewrite Ew in Hw.
  destruct Hw as (_ & Hl & Hal & Hp & Hst & Hle). rewrite Z.add_0_r in *.
  destruct (gd_buffers t Hg s). pose proof (bo_sent_small t (other s) (gd_buffers t Hg (other s))) as Hsmall.
  assert (H62 : 2 ^ 62 < 2 ^ 64) by done.
  assert (Hack : u64 (b_end (c_receiveBuffer (conn_of t s)) - at_localPosition a) = receive_end t s - at_localPosition a).
  { apply u64_small. unfold receive_end in *. lia. }
  unfold next_frame. rewrite Hack, bo_sent0. set (c := conn_of t s) in *.
  destruct (Z.ltb_spec (at_peerPosition a) (len64 (n_sent t s))) as [Hlt|Hge].
  2: { eexists _, []. split; [done|]. split; [done|]. split; [lia|]. split; [apply prefix_nil|]. split; [done|]. lia. }
  destruct (buffered_spec (c_sendBuffer c) bo_send0) as (d1 & d2 & -> & Hd & Hd0). unfold rbind. cbn [fst snd].
  set (x1 := view_bytes _ d1) in *. set (x2 := view_bytes _ d2) in *.
  pose proof (vl_start _ bo_send0) as Hstart. unfold send_start in *. fold c in Hst, bo_unacked0.
  rewrite u64_small by lia. set (skip := at_peerPosition a - b_start (c_sendBuffer c)) in *.
  assert (Hlen : len64 x1 + len64 x2 = len64 (n_sent t s) - b_start (c_sendBuffer c)).
  { assert (E : len64 (x1 ++ x2) = len64 (drop (Z.to_nat (b_start (c_sendBuffer c))) (n_sent t s))) by (by rewrite Hd, bo_unacked0).
    unfold len64 in *. rewrite length_app, length_drop in E. lia. }
  destruct (Z.ltb_spec (len64 x1 + len64 x2) skip); [lia|].
  assert (Edrop : drop (Z.to_nat skip) (x1 ++ x2) = drop (Z.to_nat (at_peerPosition a)) (n_sent t s)).
  { rewrite Hd, bo_unacked0, drop_drop. f_equal. lia. }
  match goal with |- context [take _ ?l] => set (data := l) end.
  assert (Hdata : data `prefix_of` drop (Z.to_nat (at_peerPosition a)) (n_sent t s) /\ 0 < len64 data).
  { unfold data. rewrite <- Edrop. destruct (Z.leb_spec (len64 x1) skip) as [Hx|Hx].
    - rewrite drop_app_ge by (unfold len64 in *; lia).
      replace (Z.to_nat skip - length x1)%nat with (Z.to_nat (skip - len64 x1)) by (unfold len64; lia).
      split; [done|]. unfold len64 in *. rewrite length_drop. lia.
    - rewrite drop_app_le by (unfold len64 in *; lia). split; [by apply prefix_app_r|].
      unfold len64 in *. rewrite length_drop. lia. }
  destruct Hdata as [Hpre Hpos]. eexists _, _. split; [done|]. split; [done|]. split; [lia|].
  split; [etransitivity; [apply prefix_take|done]|]. assert (0 < maxFrameSize) by done. split.
  - unfold len64. rewrite length_take. lia.
  - intros E%(f_equal length). rewrite length_take in E. unfold len64 in Hpos. cbn [length] in E. lia.
Qed.

Lemma follows_frame ph p d0 fs f : follows ph p d0 (fs ++ [f]) false = (follows ph p d0 fs false ++ enc_frame f)%list.
Proof.
  unfold follows. destruct (frames_app fs f) as [-> _]. simpl. rewrite !app_nil_r. by rewrite app_assoc.
Qed.

Lemma follows_closing ph p d0 fs : follows ph p d0 fs true = (follows ph p d0 fs false ++ uv errorTag)%list.
Proof. unfold follows. simpl. rewrite app_nil_r. by rewrite <- !app_assoc. Qed.

(** A frame is added to the stream. *)
Lemma frame_moves t t' s a ack data : good t ->
  let header := AppendUvarint (AppendUvarint [] ack) (len64 data) in
  let a' := set_writer (WrFrame (header ++ data) ack (len64 data)) a in
  writer_moved t t' s a a' [] -> at_writer a = WrLoop ->
  ack = receive_end t s - at_localPosition a -> 0 <= ack < 2 ^ 62 ->
  data `prefix_of` drop (Z.to_nat (at_peerPosition a)) (n_sent t s) -> len64 data <= maxFrameSize ->
  moves_on t t' s (at_id a).
Proof.
  intros Hg header a' Hm Ew Hack Hsmall Hpre Hmax ph p d0 fs closing rest Hph Hst.
  pose proof (fun x => moved_attached t t' s a a' [] x (at_id a) Hm) as Hatt.
  assert (Ho : attached t' (other s) (at_id a) = attached t (other s) (at_id a)).
  { rewrite Hatt, decide_False; [done|]. intros [E _]. by apply (other_ne s). }
  assert (Ha' : forall a0, attached t' s (at_id a) = Some a0 -> a0 = a') by (intros a0; rewrite Hatt, decide_True by done; congruence).
  destruct Hm as [Hs Hu Ha Hnew Hw Hid Hrd Hrun]. specialize (Hw s (at_id a)). rewrite decide_True, app_nil_r in Hw by done.
  pose proof (attached_at _ _ _ Ha) as Hat. pose proof (gd_attached t Hg s a Ha) as [_ Hfirst Hwr _ Hother _].
  rewrite Ew in Hwr, Hother. destruct Hwr as (Hnh & Hl & Hal & Hp & Hss & Hse).
  assert (Hrunning : running a) by (unfold running; by rewrite Ew).
  pose proof Hst as []. destruct (st_running0 a Hat Hrunning) as [-> Hpos]. destruct (st_alive0 a Hat) as [Hrest Hacked]; [by rewrite Ew|].
  unfold outgoing in Hrest. unfold acked, sent_to in Hacked, Hpos. rewrite Ew in Hrest, Hacked, Hpos. subst rest.
  rewrite Z.add_0_r in Hacked, Hpos. rewrite app_nil_r in st_bytes0.
  set (f := (ack, data) : frame). destruct (frames_app fs f) as (Eb & Ed & Ea). change f.1 with ack in Ea. change f.2 with data in Ed.
  assert (Eheader : (header ++ data)%list = enc_frame f).
  { unfold header, enc_frame, f. rewrite !AppendUvarint_uv. simpl. by rewrite <- app_assoc. }
  exists (fs ++ [f])%list, false, (header ++ data)%list.
  split; same Hs; rewrite ?Hw, ?Hu, ?Ho, ?Ea, ?Ed; try done.
  - by rewrite follows_frame, <- st_bytes0, Eheader.
  - destruct st_small0 as (Hf & ? & ?). split; [|done]. apply Forall_app. split; [done|]. constructor; [by split|constructor].
  - (* the data goes on where the stream was *)
    rewrite app_assoc. destruct st_data0 as [tail Et]. rewrite Et.
    assert (Etail : tail = drop (Z.to_nat (at_peerPosition a)) (n_sent t s)).
    { apply (f_equal (drop (length (d0 ++ frames_data fs)))) in Et. rewrite drop_drop, drop_app_length in Et. rewrite <- Et.
      f_equal. unfold len64, receive_end in *. pose proof (vl_start _ (bo_receive t _ (gd_buffers t Hg (other s)))). lia. }
    rewrite Etail. by apply prefix_app.
  - assert (Hb : ack_base t (other s) ph p + frames_acks fs + ack = receive_end t s) by lia. lia.
  - intros ->. destruct (st_handshake0 eq_refl) as [H0 Hpa]. pose proof (Hpa a Hat) as Hpp.
    simpl in Hacked. split; [simpl; lia|]. intros a0 _. exact Hpp.
  - intros Hn H0. destruct (Hn (Hother H0)).
  - intros a0 ->%Ha' _. split; [done|]. unfold acked. simpl. lia.
  - intros a0 ->%Ha' _. split; [done|]. unfold sent_to. simpl. unfold len64 in *. rewrite !length_app in *. lia.
  - intros a0 ->%Ha' [E|[]]. by destruct Hnh.
  - intros a0 Ha0 Hr0. simpl. apply attached_id in Ha0 as [Ha0 Hid0].
    pose proof (gd_pair t Hg s a a0 Ha Ha0 Hid0 Hr0). lia.
Qed.

(** Bytes that were to be written are on the wire. *)
Lemma transfer_moves t t' s a a' b : writer_moved t t' s a a' b -> at_writer a <> WrDone ->
  outgoing a = (b ++ outgoing a')%list -> acked a' = acked a -> (running a' -> running a /\ sent_to a' = sent_to a) ->
  (waiting a' -> waiting a) ->
  moves_on t t' s (at_id a).
Proof.
  intros Hm Hnd Hout Hack Hrun' Hwait ph p d0 fs closing rest _ [].
  pose proof (fun x => moved_attached t t' s a a' b x (at_id a) Hm) as Hatt.
  assert (Ho : attached t' (other s) (at_id a) = attached t (other s) (at_id a)).
  { rewrite Hatt, decide_False; [done|]. intros [E _]. by apply (other_ne s). }
  assert (Ha' : forall a0, attached t' s (at_id a) = Some a0 -> a0 = a') by (intros a0; rewrite Hatt, decide_True by done; congruence).
  destruct Hm as [Hs Hu Ha Hnew Hw Hid Hrd Hrun]. specialize (Hw s (at_id a)). rewrite decide_True in Hw by done.
  pose proof (attached_at _ _ _ Ha) as Hat. destruct (st_alive0 a Hat Hnd) as [-> Hacked].
  exists fs, closing, (outgoing a').
  split; same Hs; rewrite ?Hw, ?Hu, ?Ho; try done.
  - by rewrite <- app_assoc, <- Hout.
  - intros E. destruct (st_handshake0 E) as [? Hp]. split; [done|]. intros a0 _. by apply (Hp a).
  - intros a0 ->%Ha' _. split; [done|]. congruence.
  - intros a0 ->%Ha' Hr. destruct (Hrun' Hr) as [Hra ->]. by apply st_running0.
  - intros a0 ->%Ha' Hx. by apply (st_waiting0 a), Hwait.
Qed.

(** The end is announced, or a handshake refused. *)
Lemma closing_moves t t' s a : good t ->
  let a' := set_writer (WrLast (AppendUvarint [] errorTag)) a in
  writer_moved t t' s a a' [] -> at_writer a = WrLoop \/ at_writer a = WrReady ->
  at_reader a <> RdHandshake -> (at_id a <> 0%nat -> at_id a ∈ n_used t (other s)) ->
  (n_refused t = false -> at_writer a = WrLoop /\ c_localClosed (conn_of t s) = true /\ at_peerPosition a = len64 (n_sent t s)) ->
  moves_on t t' s (at_id a).
Proof.
  intros Hg a' Hm Ew Hnh Hother Hp ph p d0 fs closing rest _ [].
  pose proof (fun x => moved_attached t t' s a a' [] x (at_id a) Hm) as Hatt.
  assert (Ho : attached t' (other s) (at_id a) = attached t (other s) (at_id a)).
  { rewrite Hatt, decide_False; [done|]. intros [E _]. by apply (other_ne s). }
  assert (Ha' : forall a0, attached t' s (at_id a) = Some a0 -> a0 = a') by (intros a0; rewrite Hatt, decide_True by done; congruence).
  destruct Hm as [Hs Hu Ha Hnew Hw Hid Hrd Hrun]. specialize (Hw s (at_id a)). rewrite decide_True, app_nil_r in Hw by done.
  pose proof (attached_at _ _ _ Ha) as Hat.
  assert (Hc : closing = false /\ rest = [] /\ acked a = ack_base t (other s) ph p + frames_acks fs).
  { destruct (st_alive0 a Hat) as [-> Hacked]; [by destruct Ew as [-> | ->]|]. unfold running, waiting, outgoing in *.
    destruct Ew as [Ew|Ew]; specialize (st_running0 a Hat); specialize (st_waiting0 a Hat); rewrite Ew in *; naive_solver. }
  destruct Hc as (-> & -> & Hacked). rewrite app_nil_r in st_bytes0. exists fs, true, (uv errorTag).
  assert (Hack' : acked a' = acked a) by (unfold acked; by destruct Ew as [-> | ->]).
  split; same Hs; rewrite ?Hw, ?Hu, ?Ho; try done.
  - by rewrite follows_closing, <- st_bytes0.
  - intros E. destruct (st_handshake0 E) as [? Hpa]. split; [done|]. intros a0 _. by apply (Hpa a).
  - intros Hn H0. destruct (Hn (Hother H0)).
  - intros a0 ->%Ha' _. split; [|congruence]. change (uv errorTag = AppendUvarint [] errorTag). by rewrite AppendUvarint_uv.
  - intros a0 ->%Ha' [].
  - intros a0 ->%Ha' [E|[]]. by destruct Hnh.
  - intros _ Hn. destruct (Hp Hn) as (Ew' & Hl & Epos). split; [done|].
    destruct (st_running0 a Hat) as [_ E]; [unfold running; by rewrite Ew'|]. unfold sent_to in E. rewrite Ew' in E. lia.
Qed.

(** ** The steps of the write loop *)

Lemma transmit_spec t s a n a' b : good t -> attachment_ok t s a -> (0 < n <= length (outgoing a))%nat ->
  transmit n a = (a', b) ->
  at_id a' = at_id a /\ at_reader a' = at_reader a /\ outgoing a = (b ++ outgoing a')%list /\
  acked a' = acked a /\ at_writer a <> WrDone /\ (running a' -> running a /\ sent_to a' = sent_to a) /\
  (waiting a' -> waiting a) /\ attachment_ok t s a'.
Proof.
  intros Hg Hok Hn. pose proof Hok as [Hu Hfirst Hw Hh Ho Hf].
  pose proof (bo_sent_small t s (gd_buffers t Hg s)) as Hs1.
  pose proof (bo_sent_small t _ (gd_buffers t Hg (other s))) as Hs2.
  pose proof (bo_received t s (gd_buffers t Hg s)) as Hrec. assert (H62 : 2 ^ 62 < 2 ^ 64) by done.
  unfold transmit. destruct (at_writer a) as [out| | |out ack size|out|] eqn:Ew; unfold outgoing in Hn |- *; rewrite Ew in Hn |- *;
    try (simpl in Hn; lia).
  - intros [= <- <-]. unfold acked, running, waiting, sent_to. rewrite Ew. simpl. rewrite take_drop. split_and!; try done.
  - unfold acked, sent_to, running, waiting in *. rewrite Ew in *. destruct Hw as (Hnh & Hl & Hal & Hp & Hss & Hse).
    destruct (Nat.eqb_spec (length (drop n out)) 0) as [E0|E0]; intros [= <- <-]; simpl; rewrite ?Z.add_0_r.
    + apply length_zero_iff_nil in E0. rewrite !u64_small by lia. rewrite app_nil_r.
      split_and!; try done; [rewrite <- (take_drop n out) at 1; by rewrite E0, app_nil_r|].
      split; simpl; try done. unfold acked, sent_to. simpl. rewrite !Z.add_0_r. split_and!; lia || done.
    + rewrite take_drop. split_and!; try done.
  - intros [= <- <-]. unfold acked, running, waiting, sent_to. rewrite Ew. simpl. rewrite take_drop. split_and!; try done.
Qed.

Lemma transmit_good t s a n : good t -> cn_attached (n_end t s) = Some a -> (0 < n <= length (outgoing a))%nat ->
  let '(a', b) := transmit n a in
  good (set_wire (at_id a) s (n_wire t (at_id a) s ++ b)%list (set_end s (with_attachment a' (n_end t s)) t)).
Proof.
  intros Hg Ha Hn. destruct (transmit n a) as [a' b] eqn:E.
  destruct (transmit_spec t s a n a' b Hg (gd_attached t Hg s a Ha) Hn E) as (Hid & Hrd & Hout & Hack & Hnd & Hrun & Hwt & Hok).
  assert (Hm : writer_moved t (set_wire (at_id a) s (n_wire t (at_id a) s ++ b)%list
      (set_end s (with_attachment a' (n_end t s)) t)) s a a' b).
  { apply transmit_moved; [done..|]. intros Hr. destruct (Hrun Hr) as [? ->]. done. }
  eapply writer_moved_good; [done|exact Hm| |done]. by eapply transfer_moves.
Qed.

Lemma stop_good t s a : good t -> cn_attached (n_end t s) = Some a ->
  good (set_end s (with_attachment (set_writer WrDone a) (n_end t s)) t).
Proof.
  intros Hg Ha.
  assert (Hm : writer_moved t (set_end s (with_attachment (set_writer WrDone a) (n_end t s)) t) s a (set_writer WrDone a) []).
  { by apply quiet_moved. }
  eapply writer_moved_good; [done|exact Hm|by eapply stops_on|]. intros []. split; simpl; try done.
  intros E. split; [by apply ao_first0|done].
Qed.

Lemma send_good t s a p : good t -> cn_attached (n_end t s) = Some a -> write_step (conn_of t s) a = Ok (Some p) ->
  good (set_end s (with_attachment (set_writer p a) (n_end t s)) t).
Proof.
  intros Hg Ha E. pose proof (gd_attached t Hg s a Ha) as Hok. unfold write_step in E.
  destruct (at_writer a) as [[|]| | | |[|]|] eqn:Ew; simplify_eq.
  - (* the handshake is written *)
    assert (Hm : writer_moved t (set_end s (with_attachment (set_writer WrReady a) (n_end t s)) t) s a (set_writer WrReady a) []).
    { by apply quiet_moved. }
    eapply writer_moved_good; [done|exact Hm| |].
    + eapply transfer_moves; [exact Hm|by rewrite Ew| | |by intros []|by unfold waiting; rewrite Ew; right].
      * unfold outgoing. by rewrite Ew.
      * unfold acked. by rewrite Ew.
    + intros []. rewrite Ew in *. by split.
  - destruct (at_reader a); simplify_eq. by apply stop_good.
  - (* the loop *)
    destruct (next_frame_spec t s a Hg Hok Ew) as (ack & data & E' & Hack & Hsmall & Hpre & Hmax & Hlast).
    rewrite E' in E. unfold rbind in E.
    destruct ((0 <? ack) || (0 <? length data)%nat) eqn:Eany.
    + injection E as <-. set (a' := set_writer _ a).
      assert (Hpos : 0 <= len64 data /\ at_peerPosition a + len64 data <= len64 (n_sent t s)).
      { destruct Hpre as [r Hr]. apply (f_equal length) in Hr. pose proof (ao_writer _ _ _ Hok) as Hw. rewrite Ew in Hw.
        unfold sent_to in Hw. rewrite Ew in Hw. rewrite length_drop, length_app in Hr. unfold len64 in *. lia. }
      assert (Hm : writer_moved t (set_end s (with_attachment a' (n_end t s)) t) s a a' []).
      { apply quiet_moved; [done..|]. intros _. unfold running, sent_to. rewrite Ew. simpl. split; [done|lia]. }
      eapply writer_moved_good; [done|exact Hm| |].
      * by apply (frame_moves t _ s a ack data Hg Hm Ew Hack Hsmall Hpre Hmax).
      * intros []. rewrite Ew in *. unfold acked, sent_to in ao_writer0. rewrite Ew in ao_writer0.
        split; simpl; try done. unfold acked, sent_to. simpl. split_and!; try tauto; try lia.
    + destruct (at_stopRequested a); [injection E as <-; by apply stop_good|].
      destruct (c_remoteClosed (conn_of t s)); [injection E as <-; by apply stop_good|].
      destruct (c_localClosed (conn_of t s)) eqn:Hl; [|done]. injection E as <-.
      apply orb_false_iff in Eany as [_ Elen]. apply Nat.ltb_ge in Elen.
      assert (data = []) as -> by (apply length_zero_iff_nil; lia).
      set (a' := set_writer _ a).
      assert (Hm : writer_moved t (set_end s (with_attachment a' (n_end t s)) t) s a a' []).
      { apply quiet_moved; [done..|]. by intros []. }
      eapply writer_moved_good; [done|exact Hm| |].
      * pose proof (ao_writer _ _ _ Hok) as Hy. rewrite Ew in Hy. apply (closing_moves t _ s a Hg Hm); [by left|tauto| |by rewrite Hlast]. pose proof (ao_other _ _ _ Hok) as Hx. by rewrite Ew in Hx.
      * intros []. rewrite Ew in *. split; simpl; try done. tauto.
  - by apply stop_good.
Qed.

(** ** Transports come and go *)

Lemma attach_wait_good t s id r : good t -> attach_next id (n_end t s) = AttachWait r -> good (set_end s r t).
Proof.
  intros Hg. unfold attach_next. destruct (c_remoteClosed _); [done|].
  destruct (cn_attached (n_end t s)) as [a|] eqn:Ha; [|done]. intros [= <-].
  assert (Hm : writer_moved t (set_end s (with_attachment (request_stop a) (n_end t s)) t) s a (request_stop a) []).
  { by apply quiet_moved. }
  eapply writer_moved_good; [done|exact Hm| |].
  - destruct (at_writer a) eqn:Ew; try (eapply transfer_moves; [exact Hm|by rewrite Ew|done|done|done|done]). by eapply stops_on.
  - intros []. by split.
Qed.

Lemma detach_good t s r : good t -> detach (n_end t s) = Some r -> good (set_end s r t).
Proof.
  intros Hg. unfold detach. destruct (cn_attached (n_end t s)) as [a|] eqn:Ha; [|done].
  destruct (at_reader a) eqn:Er; try done. destruct (at_writer a) eqn:Ew; try done. intros [= <-].
  set (t' := set_end s _ t). assert (Hs : same_programs t t').
  { split; try done. intros x. unfold t'. net_simpl. unfold upd. case_decide; [by subst x|done]. }
  assert (Hnew : forall x, cn_attached (n_end t' x) = if decide (x = s) then None else cn_attached (n_end t x)).
  { intros x. unfold t'. net_simpl. unfold upd. by case_decide. }
  assert (Hatt : forall x id, attached t' x id = if decide (x = s) then None else attached t x id).
  { intros x id. unfold attached. rewrite Hnew. by case_decide. }
  pose proof (gd_attached t Hg s a Ha) as Hok. split.
  - intros x. apply (same_buffers t); [done|apply Hg].
  - intros x b. rewrite Hnew. case_decide; [done|]. intros Hb. apply (same_attachment t); [done|done|by apply Hg].
  - intros x id. destruct (decide (id = at_id a)) as [->|Hne].
    2: { apply (still_flow t); try done; [|apply Hg]. intros y. rewrite Hatt. case_decide; [|done]. subst y.
         unfold attached. rewrite Ha. by rewrite decide_False. }
    intros ph. destruct (side_cases s x) as [-> | ->].
    + unfold phase. rewrite Hatt, decide_False by apply other_ne. fold (phase t (other s) (at_id a)). intros Hph.
      pose proof (gd_flow t Hg s (at_id a) ph Hph) as Hf. change (n_used t') with (n_used t).
      rewrite decide_True in Hf |- * by apply Hok. destruct Hf as (p & d0 & fs & closing & rest & []).
      assert (Hn : attached t' s (at_id a) = None) by (rewrite Hatt; by rewrite decide_True).
      assert (Ho : attached t' (other s) (at_id a) = attached t (other s) (at_id a)).
      { rewrite Hatt, decide_False; [done|]. apply other_ne. }
      exists p, d0, fs, closing, rest. split; same Hs; rewrite ?Hn, ?Ho; try done.
      intros E. split; [by apply st_handshake0|done].
    + rewrite other_other. unfold phase. rewrite Hatt, decide_True by done. change (n_used t') with (n_used t).
      by rewrite decide_True by apply Hok.
  - intros x. rewrite Hnew, !(same_receive _ _ _ Hs). intros H0. destruct (gd_used t Hg x H0) as (? & ? & ? & ?).
    by case_decide.
  - intros x b. rewrite Hnew. case_decide; [done|]. apply Hg.
  - intros x b c. rewrite !Hnew, (same_receive _ _ _ Hs). repeat case_decide; try done. apply Hg.
Qed.

(** The attachments that endpoints begin with. *)
Definition begins (t : net) (s : side) (id : nat) (a : attachment) : Prop :=
  at_id a = id /\ at_localPosition a = receive_end t s /\ at_peerPosition a = 0 /\ at_reader a = first_phase id /\
  at_writer a = if decide (id = 0%nat) then WrLoop else WrHandshake (AppendUvarint [] (receive_end t s)).

Lemma attach_good t s id a : good t -> id ∉ n_used t s -> cn_attached (n_end t s) = None ->
  (id <> 0%nat -> 0%nat ∈ n_used t s) -> begins t s id a ->
  good (use s id (set_end s (with_attachment a (n_end t s)) t)).
Proof.
  intros Hg Hid Hnone Hfirst (Ei & El & Ep & Er & Ew). set (t' := use s id _). assert (Hs : same_programs t t').
  { split; try done. intros x. unfold t'. net_simpl. unfold upd. destruct (decide (x = s)); [by subst x|done]. }
  assert (Hnew : forall x, cn_attached (n_end t' x) = if decide (x = s) then Some a else cn_attached (n_end t x)).
  { intros x. unfold t'. net_simpl. unfold upd. by destruct (decide (x = s)). }
  assert (Hatt : forall x id', attached t' x id' = if decide (x = s /\ id' = id) then Some a else attached t x id').
  { intros x id'. unfold attached. rewrite Hnew. destruct (decide (x = s)) as [->|Hx].
    - rewrite Hnone, Ei. destruct (decide (id = id')), (decide (s = s /\ id' = id)); naive_solver.
    - by rewrite (decide_False (P := x = s /\ _)) by tauto. }
  assert (Hused : forall x id', id' ∈ n_used t' x <-> id' ∈ n_used t x \/ (x = s /\ id' = id)).
  { intros x id'. unfold t'. net_simpl. unfold upd. destruct (decide (x = s)); [subst x|naive_solver]. rewrite elem_of_cons. naive_solver. }
  pose proof (gd_buffers t Hg s) as Hb. pose proof (gd_buffers t Hg (other s)) as Hbo.
  assert (Hends : 0 <= receive_end t s /\ 0 <= send_start t (other s) /\ 0 <= send_start t s).
  { pose proof (vl_start _ (bo_receive _ _ Hb)). pose proof (vl_start _ (bo_send _ _ Hbo)). pose proof (vl_start _ (bo_send _ _ Hb)).
    unfold receive_end, send_start. lia. }
  assert (Hzero : id = 0%nat -> n_used t s = [] /\ receive_end t s = 0 /\ receive_end t (other s) = 0 /\
    send_start t (other s) = 0 /\ send_start t s = 0).
  { intros ->. destruct (gd_used t Hg s Hid) as (? & _ & ? & ?). pose proof (bo_acked _ _ Hb). pose proof (bo_acked _ _ Hbo) as Ha.
    rewrite other_other in Ha. split_and!; lia || done. }
  (* the other side does not run on a transport it has not heard of *)
  assert (Hnot : forall b, cn_attached (n_end t (other s)) = Some b -> at_id b = id -> running b -> id = 0%nat).
  { intros b Hb' Eb Hr. destruct (decide (id = 0%nat)) as [|Hne]; [done|]. exfalso.
    pose proof (ao_other _ _ _ (gd_attached t Hg _ b Hb')) as Ho. unfold running in Hr. rewrite other_other, Eb in Ho.
    destruct (at_writer b); try done; by apply Hid, Ho. }
  assert (Hstart : at_peerPosition a = 0 /\ (running a <-> id = 0%nat) /\ acked a = receive_end t s /\ (running a -> sent_to a = 0)).
  { unfold running, acked, sent_to. rewrite Ew, El, Ep. destruct (decide (id = 0%nat)); split_and!; naive_solver lia. }
  destruct Hstart as (_ & Hrun0 & Hacked & Hsent0).
  split.
  - intros x. apply (same_buffers t); [done|apply Hg].
  - intros x b. rewrite Hnew. destruct (decide (x = s)) as [->|Hx].
    2: { intros Hb'. apply (same_attachment t); [done|intros; apply Hused; by left|by apply Hg]. }
    intros [= <-]. split; same Hs; rewrite ?Ei, ?Er, ?Ew, ?El, ?Ep; unfold first_phase.
    + apply Hused. by right.
    + intros ->. by rewrite !decide_True.
    + destruct (decide (id = 0%nat)) as [E0|]; [|by left]. destruct (Hzero E0) as (_ & ? & _ & _ & ?).
      rewrite Hacked, Hsent0 by (by apply Hrun0). unfold len64. split_and!; lia || done.
    + done.
    + by destruct (decide (id = 0%nat)).
    + by destruct (decide (id = 0%nat)).
  - intros x id'. destruct (decide (id' = id)) as [->|Hne].
    2: { apply (still_flow t); try done; [|intros; rewrite Hused; naive_solver|apply Hg].
         intros y. rewrite Hatt, decide_False by tauto. done. }
    assert (Ho : attached t' (other s) id = attached t (other s) id).
    { rewrite Hatt, decide_False; [done|]. intros [E _]. by apply (other_ne s). }
    assert (Hme : attached t' s id = Some a) by (rewrite Hatt; by rewrite decide_True).
    assert (Hwas : attached t s id = None) by (unfold attached; by rewrite Hnone).
    assert (Hu1 : id ∈ n_used t' s) by (apply Hused; by right).
    assert (Hu2 : id ∈ n_used t' (other s) <-> id ∈ n_used t (other s)).
    { rewrite Hused. split; [|by left]. intros [?|[E _]]; [done|]. by destruct (other_ne s). }
    destruct (side_cases s x) as [-> | ->].
    + (* what [s] will write *)
      intros ph Hph. rewrite decide_True by done.
      assert (Hph' : phase t (other s) id = Some ph).
      { rewrite <- Hph. unfold phase. rewrite Ho. destruct (attached t (other s) id); [done|].
        destruct (decide (id ∈ n_used t (other s))), (decide (id ∈ n_used t' (other s))); tauto || done. }
      pose proof (gd_flow t Hg s id ph Hph') as Hf. rewrite decide_False in Hf by done. destruct Hf as [Hwire ->].
      exists (receive_end t s), [], [], false, (outgoing a).
      assert (Hbase : ack_base t (other s) (first_phase id) (receive_end t s) = receive_end t s).
      { unfold first_phase, ack_base. destruct (decide (id = 0%nat)) as [E0|]; [|done]. destruct (Hzero E0) as (_ & -> & _ & -> & _). done. }
      pose proof (bo_received _ _ Hb). pose proof (bo_sent_small _ _ Hbo).
      split; same Hs; rewrite ?Hbase, ?Hme, ?Ho; simpl; try done.
      * change (n_wire t' id s) with (n_wire t id s). rewrite Hwire. unfold outgoing, follows, first_phase. rewrite Ew.
        destruct (decide (id = 0%nat)); simpl; [done|]. by rewrite AppendUvarint_uv, app_nil_r.
      * unfold first_phase. by destruct (decide (id = 0%nat)).
      * split; [constructor|]. split; [done|lia].
      * apply prefix_nil.
      * lia.
      * intros a0 [= <-] _. split; [done|]. lia.
      * intros a0 [= <-] Hr. split; [done|]. rewrite Hsent0 by done. destruct (Hzero (proj1 Hrun0 Hr)) as (_ & _ & -> & _). done.
      * intros b Hb' Hr. apply attached_id in Hb' as [Hb' Eb]. destruct (Hzero (Hnot b Hb' Eb Hr)) as (_ & -> & _).
        pose proof (ao_writer _ _ _ (gd_attached t Hg _ b Hb')) as Hw.
        unfold running in Hr. destruct (at_writer b); try done; lia.
    + (* what [s] will read *)
      intros ph. rewrite other_other. unfold phase. rewrite Hme, Er. intros Hph.
      assert (ph = first_phase id) as -> by (unfold first_phase in *; destruct (decide (id = 0%nat)); congruence).
      assert (Hph' : phase t s id = Some (first_phase id)).
      { unfold phase. by rewrite Hwas, decide_False. }
      pose proof (gd_flow t Hg (other s) id) as Hf. unfold flow in Hf. rewrite other_other in Hf. specialize (Hf _ Hph').
      destruct (decide (id ∈ n_used t' (other s))) as [Hin|Hin]; [rewrite decide_True in Hf by tauto|by rewrite decide_False in Hf by tauto].
      destruct Hf as (p & d0 & fs & closing & rest & []). exists p, d0, fs, closing, rest. rewrite other_other in *.
      split; rewrite ?other_other; same Hs; rewrite ?Hme, ?Ho; try done.
      intros a0 [= <-] Hr. rewrite Hsent0 by done. destruct (Hzero (proj1 Hrun0 Hr)) as (_ & _ & E & _). lia.
  - intros x. rewrite Hused, Hnew, !(same_receive _ _ _ Hs). intros Hn.
    destruct (gd_used t Hg x) as (Hu0 & ? & ? & ?); [tauto|]. destruct (decide (x = s)) as [->|Hx].
    + exfalso. apply Hn. destruct (decide (id = 0%nat)) as [->|Hne]; [by right|left; auto].
    + split_and!; try done. unfold t'. net_simpl. unfold upd. by rewrite decide_False.
  - intros x b. rewrite Hnew. destruct (decide (x = s)) as [->|Hx].
    + intros [= <-]. rewrite Ei. intros H0. destruct (Hzero H0) as [Hu0 _]. unfold t'. net_simpl. unfold upd.
      by rewrite decide_True, Hu0, H0.
    + intros Hb' H0. unfold t'. net_simpl. unfold upd. rewrite decide_False by done. by apply (gd_first t Hg x b).
  - intros x b c. rewrite !Hnew, (same_receive _ _ _ Hs). destruct (side_cases s x) as [-> | ->]; rewrite ?other_other.
    + rewrite decide_True, decide_False by (done || apply other_ne). intros [= <-] Hc Eid Hr. rewrite Ei in Eid.
      destruct (Hzero (Hnot c Hc Eid Hr)) as (_ & -> & _). pose proof (ao_writer _ _ _ (gd_attached t Hg _ c Hc)) as Hw.
      unfold running in Hr. destruct (at_writer c); try done; lia.
    + rewrite decide_False, decide_True by (done || apply other_ne). intros Hb' [= <-] Eid Hr. rewrite Hsent0 by done.
      apply Hrun0 in Hr as Hr0. destruct (Hzero Hr0) as (_ & _ & -> & _). lia.
Qed.

(** ** The read loop

    A step of the read loop of [s], which leaves [a'] in a later phase. *)

Record moved_in (t t' : net) (s : side) (a a' : attachment) : Prop := {
  rv_used : n_used t' = n_used t;
  rv_sent : n_sent t' = n_sent t;
  rv_got : n_got t' = n_got t;
  rv_refused : n_refused t' = n_refused t;
  rv_old : cn_attached (n_end t s) = Some a;
  rv_new x : cn_attached (n_end t' x) = if decide (x = s) then Some a' else cn_attached (n_end t x);
  rv_id : at_id a' = at_id a;
  rv_conn : conn_of t' (other s) = conn_of t (other s);
  rv_wire x id : ~ (x = other s /\ id = at_id a) -> n_wire t' id x = n_wire t id x;
  rv_closed : c_localClosed (conn_of t' s) = c_localClosed (conn_of t s);
  rv_reader : at_reader a' <> RdHandshake;
  (* it received what the other side has running *)
  rv_receive : receive_end t s <= receive_end t' s /\
    (receive_end t' s = receive_end t s \/
     at_id a ∈ n_used t (other s) /\ phase t (other s) (at_id a) <> Some RdHandshake /\
     forall b, attached t (other s) (at_id a) = Some b -> running b -> receive_end t' s <= sent_to b);
}.

(** The handshake apart, the loop changes its own phase only. *)
Definition received (t t' : net) (s : side) (a : attachment) (ph' : rphase) : Prop :=
  moved_in t t' s a (set_reader ph' a).

Section Received.
Context (t t' : net) (s : side) (a a' : attachment) (Hg : good t) (Hr : moved_in t t' s a a').

Lemma received_attached x id : attached t' x id = if decide (x = s /\ id = at_id a) then Some a' else attached t x id.
Proof.
  destruct Hr. unfold attached. rewrite rv_new0. destruct (decide (x = s)) as [->|Hx].
  - rewrite rv_old0, rv_id0.
    destruct (decide (at_id a = id)), (decide (s = s /\ id = at_id a)); naive_solver.
  - by rewrite (decide_False (P := x = s /\ _)) by tauto.
Qed.

Lemma received_other : receive_end t' (other s) = receive_end t (other s) /\ send_start t' (other s) = send_start t (other s).
Proof. unfold receive_end, send_start. by rewrite (rv_conn _ _ _ _ _ Hr). Qed.

Lemma received_phase id : phase t' (other s) id = phase t (other s) id.
Proof.
  unfold phase. rewrite received_attached, decide_False, (rv_used _ _ _ _ _ Hr); [done|]. intros [E _]. by apply (other_ne s).
Qed.

(** What [s] writes itself, to another transport or with the same writer. *)
Definition same_writer : Prop :=
  at_writer a' = at_writer a /\ at_localPosition a' = at_localPosition a /\ at_peerPosition a' = at_peerPosition a.

Lemma received_own id : (id = at_id a -> same_writer) -> flow t' s id.
Proof.
  intros Hsame.  intros ph. rewrite received_phase. intros Hph. pose proof (gd_flow t Hg s id ph Hph) as Hf.
  destruct received_other as [Eo Es]. pose proof Hr as [Hu Hse _ Href Hold _ _ _ Hw Hcl Hrd1 [Hle Hdata]].
  assert (Hwire : n_wire t' id s = n_wire t id s) by (apply Hw; intros [E _]; by apply (other_ne s)).
  rewrite Hu. destruct (decide (id ∈ n_used t s)); [|by rewrite Hwire].
  destruct Hf as (p & d0 & fs & closing & rest & []). exists p, d0, fs, closing, rest.
  assert (Ho : attached t' (other s) id = attached t (other s) id).
  { rewrite received_attached, decide_False; [done|]. intros [E _]. by apply (other_ne s). }
  assert (Hme : forall b, attached t' s id = Some b -> exists b0, attached t s id = Some b0 /\ at_writer b = at_writer b0 /\
    acked b = acked b0 /\ sent_to b = sent_to b0 /\ outgoing b = outgoing b0 /\ (running b <-> running b0) /\
    (waiting b -> waiting b0)).
  { intros b. rewrite received_attached. destruct (decide (s = s /\ id = at_id a)) as [[_ ->]|].
    - intros [= <-]. exists a. split; [by apply attached_at|]. destruct (Hsame eq_refl) as (E1 & E2 & E3).
      unfold acked, sent_to, outgoing, running, waiting. rewrite E1, E2, E3. split_and!; try done. intros [E|E]; [done|by right].
    - intros Hb. by exists b. }
  assert (Hb : forall ph p, ack_base t' (other s) ph p = ack_base t (other s) ph p) by (intros; unfold ack_base; by rewrite Es).
  split; rewrite ?Hwire, ?Hu, ?Hse, ?Href, ?Ho, ?Eo, ?Hb, ?Hcl; try done.
  - lia.
  - intros ->. destruct (st_handshake0 eq_refl) as [H0 Hp]. split; [done|]. intros b Hb0.
    destruct (Hme b Hb0) as (b0 & Hb1 & _). rewrite (Hp b0 Hb1). destruct Hdata as [->|(_ & Hn & _)]; [done|].
    exfalso. apply Hn. apply attached_id in Hb1 as [Hb1 <-]. rewrite Hold in Hb1. by injection Hb1 as <-.
  - intros b Hb0 Hd. destruct (Hme b Hb0) as (b0 & Hb1 & Ew & -> & _ & -> & _). apply st_alive0; [done|congruence].
  - intros b Hb0 Hd. destruct (Hme b Hb0) as (b0 & Hb1 & _ & _ & -> & _ & Hrb & _). apply st_running0; [done|tauto].
  - intros b Hb0 Hd. destruct (Hme b Hb0) as (b0 & Hb1 & _ & _ & _ & _ & _ & Hrb). by apply (st_waiting0 b0), Hrb.
Qed.

(** The transports it does not read from. *)
Lemma received_elsewhere id : id <> at_id a -> flow t' (other s) id.
Proof.
  intros Hne ph. rewrite other_other. destruct received_other as [Eo Es].
  pose proof Hr as [Hu Hse _ Href Hold _ _ Hcn Hw Hcl _ [Hle _]].
  assert (Hatt : forall x, attached t' x id = attached t x id).
  { intros x. rewrite received_attached, decide_False; [done|tauto]. }
  assert (Hnone : attached t s id = None).
  { unfold attached. rewrite Hold. by rewrite decide_False. }
  assert (H0 : 0%nat ∈ n_used t s).
  { destruct (decide (0%nat ∈ n_used t s)) as [|Hn]; [done|]. destruct (gd_used t Hg s Hn) as (_ & E & _). congruence. }
  unfold phase. rewrite Hatt, Hnone, Hu. destruct (decide (id ∈ n_used t s)) as [|Hunborn]; [done|].
  assert (Hid : id <> 0%nat) by (intros ->; done). unfold first_phase. rewrite decide_False by done. intros [= <-].
  assert (Hph : phase t s id = Some RdHandshake).
  { unfold phase. rewrite Hnone, decide_False by done. unfold first_phase. by rewrite decide_False. }
  pose proof (gd_flow t Hg (other s) id) as Hf. unfold flow in Hf. rewrite other_other in Hf. specialize (Hf _ Hph).
  assert (Hwire : n_wire t' id (other s) = n_wire t id (other s)) by (apply Hw; tauto).
  destruct (decide (id ∈ n_used t (other s))); [|unfold first_phase in *; rewrite decide_False in Hf by done; by rewrite Hwire].
  destruct Hf as (p & d0 & fs & closing & rest & []). rewrite other_other in *.
  destruct (st_unborn0 Hunborn Hid) as [-> ->]. simpl in st_shape0. subst d0.
  exists p, [], [], false, rest.
  split; rewrite ?other_other, ?Hwire, ?Hse, ?Eo, ?Hatt, ?Hu; try done.
  - apply prefix_nil.
  - intros b Hb Hrun. exfalso. apply attached_id in Hb as [Hb Eb].
    pose proof (ao_other _ _ _ (gd_attached t Hg _ b Hb)) as Hao. rewrite other_other, Eb in Hao. unfold running in Hrun.
    destruct (at_writer b); try done; by apply Hunborn, Hao.
Qed.

Lemma moved_in_good : buffers_ok t' s -> attachment_ok t' s a' -> flow t' (other s) (at_id a) ->
  flow t' s (at_id a) ->
  (forall b, attached t (other s) (at_id a) = Some b -> running a' -> receive_end t (other s) <= sent_to a') -> good t'.
Proof.
  intros Hb Ha Hf Hfo Hpair. destruct received_other as [Eo Es].
  pose proof Hr as [Hu Hse Hgot Href Hold Hnew Hid Hcn Hw Hcl Hrd1 [Hle Hdata]]. split.
  - intros x. destruct (side_cases s x) as [-> | ->]; [done|]. destruct (gd_buffers t Hg (other s)).
    rewrite other_other in *.
    split; rewrite ?other_other, ?Hcn, ?Hse, ?Hgot, ?Href, ?Eo, ?Es, ?Hcl; try done. lia.
  - intros x b. rewrite Hnew. destruct (side_cases s x) as [-> | ->].
    + rewrite decide_True by done. by intros [= <-].
    + rewrite decide_False by apply other_ne. intros Hb'. destruct (gd_attached t Hg _ b Hb').
      split; rewrite ?Hu, ?Eo, ?Es, ?Hse, ?Hcn; done.
  - intros x id. destruct (side_cases s x) as [-> | ->].
    { destruct (decide (id = at_id a)) as [->|Hne]; [done|by apply received_own]. }
    destruct (decide (id = at_id a)) as [->|]; [done|by apply received_elsewhere].
  - intros x. rewrite Hu, Hnew. intros H0. destruct (gd_used t Hg x H0) as (Hu0 & Hn & Hr1 & Hr2).
    destruct (side_cases s x) as [-> | ->]; [congruence|]. rewrite decide_False by apply other_ne. rewrite other_other in *.
    split; [done|]. split; [done|]. rewrite Eo. split; [done|]. destruct Hdata as [->|(Hin & _)]; [done|].
    rewrite Hu0 in Hin. by apply elem_of_nil in Hin.
  - intros x b. rewrite Hnew, Hu. destruct (side_cases s x) as [-> | ->].
    + rewrite decide_True by done. intros [= <-]. rewrite Hid. apply (gd_first t Hg s a Hold).
    + rewrite decide_False by apply other_ne. apply Hg.
  - intros x b c. rewrite !Hnew. destruct (side_cases s x) as [-> | ->]; rewrite ?other_other.
    + rewrite decide_True, decide_False by (done || apply other_ne). intros [= <-] Hc Eid Hrun.
      rewrite Hid in Eid. destruct Hdata as [->|(_ & _ & Hp)]; [by apply (gd_pair t Hg s a c)|].
      apply Hp; [|done]. rewrite <- Eid. by apply attached_at.
    + rewrite decide_False, decide_True by (done || apply other_ne). intros Hb' [= <-] Eid Hrun. rewrite Eo.
      apply (Hpair b); [|done]. rewrite <- Hid, Eid. by apply attached_at.
Qed.
End Received.

Lemma received_good t t' s a ph' : good t -> received t t' s a ph' ->
  buffers_ok t' s -> attachment_ok t' s (set_reader ph' a) -> flow t' (other s) (at_id a) -> good t'.
Proof.
  intros Hg Hr Hb Ha Hf. apply (moved_in_good t t' s a _ Hg Hr Hb Ha Hf).
  - by apply (received_own t t' s a _ Hg Hr).
  - intros b [Hb' Eid]%attached_id Hrun. apply (gd_pair t Hg (other s) b a); rewrite ?other_other; [done|apply Hr|done|done].
Qed.

(** The net after a step of the read loop. *)
Definition receive_net (t : net) (s : side) (a : attachment) (c : managedConn) (a' : attachment) (wire : list byte) : net :=
  set_wire (at_id a) (other s) wire (set_end s (mkConn' c (Some a')) t).
Definition read_net (t : net) (s : side) (a : attachment) (c : managedConn) (ph : rphase) (wire : list byte) : net :=
  receive_net t s a c (set_reader ph a) wire.

Lemma refuse_if_false t : refuse_if false t = t.
Proof. destruct t. unfold refuse_if. simpl. by rewrite orb_false_r. Qed.

Lemma receive_net_conn t s a c a' wire : conn_of (receive_net t s a c a' wire) s = c.
Proof. unfold receive_net. net_simpl. by rewrite upd_eq. Qed.

Lemma receive_net_wire t s a c a' wire : n_wire (receive_net t s a c a' wire) (at_id a) (other s) = wire.
Proof. unfold receive_net. net_simpl. by rewrite !upd_eq. Qed.

Lemma read_net_conn t s a c ph wire : conn_of (read_net t s a c ph wire) s = c.
Proof. apply receive_net_conn. Qed.

Section ReadNet.
Context (t : net) (s : side) (a : attachment) (Hg : good t) (Ha : cn_attached (n_end t s) = Some a).
Context (c : managedConn) (a' : attachment) (wire' : list byte).
Let t' := receive_net t s a c a' wire'.
#[local] Abbreviation ph' := (at_reader a').

Lemma receive_net_moved : at_id a' = at_id a -> c_localClosed c = c_localClosed (conn_of t s) -> ph' <> RdHandshake ->
  receive_end t s <= b_end (c_receiveBuffer c) ->
  (b_end (c_receiveBuffer c) = receive_end t s \/
     at_id a ∈ n_used t (other s) /\ phase t (other s) (at_id a) <> Some RdHandshake /\
     forall b, attached t (other s) (at_id a) = Some b -> running b -> b_end (c_receiveBuffer c) <= sent_to b) ->
  moved_in t t' s a a'.
Proof.
  intros Hid Hcl Hp1 Hle Hdata. pose proof (receive_net_conn t s a c a' wire') as Ec. fold t' in Ec.
  split; try done.
  - intros x. unfold t', receive_net. net_simpl. unfold upd. by destruct (decide (x = s)).
  - unfold t', receive_net. net_simpl. rewrite upd_ne; [done|apply other_ne].
  - intros x id Hn. unfold t', receive_net. net_simpl. unfold upd.
    destruct (decide (id = at_id a)) as [->|]; [|done]. rewrite decide_False; [done|tauto].
  - by rewrite Ec.
  - unfold receive_end at 2 3 5. rewrite Ec. done.
Qed.

(** The stream goes on, less what was read of it. *)
Lemma moved_in_flow ph p d0 fs closing rest d0' fs' x :
  moved_in t t' s a a' -> at_reader a = ph -> at_id a ∈ n_used t (other s) ->
  stream t (other s) (at_id a) ph p d0 fs closing rest ->
  (wire' ++ rest)%list = follows ph' p d0' fs' closing -> shape ph' d0' -> Forall small_frame fs' -> len64 d0' <= maxFrameSize ->
  (d0 ++ frames_data fs)%list = (x ++ d0' ++ frames_data fs')%list ->
  b_end (c_receiveBuffer c) = receive_end t s + len64 x ->
  ack_base t s ph p + frames_acks fs = b_start (c_sendBuffer c) + frames_acks fs' ->
  (d0 = [] -> fs = [] -> d0' = [] /\ fs' = []) ->
  (running a' -> ack_base t s ph p + frames_acks fs <= sent_to a') ->
  flow t' (other s) (at_id a).
Proof.
  intros Hr Eph Hu1 Hst Hbytes Hshape Hsmall Hmax Hdata Hend Hacks Hnone Hroom q. rewrite other_other.
  unfold phase. rewrite (received_attached t t' s a a' Hr), decide_True by done.
  pose proof (receive_net_conn t s a c a' wire') as Ec. pose proof (receive_net_wire t s a c a' wire') as Ew. fold t' in Ec, Ew.
  pose proof Hr as [Hu Hse _ Href Hold _ _ Hcn _ Hcl Hrd1 _].
  destruct (received_other t t' s a a' Hr) as [Eo Es].
  intros Hq. assert (Eq : q = ph') by (destruct ph'; congruence). subst q.
  destruct Hst. rewrite other_other in *. rewrite Hu, decide_True by done.
  exists p, d0', fs', closing, rest.
  assert (Ho : attached t' (other s) (at_id a) = attached t (other s) (at_id a)).
  { rewrite (received_attached t t' s a a' Hr), decide_False; [done|]. intros [E _]. by apply (other_ne s). }
  assert (Hbase : ack_base t' s ph' p + frames_acks fs' = ack_base t s ph p + frames_acks fs).
  { assert (ack_base t' s ph' p = send_start t' s) as -> by (unfold ack_base; by destruct ph').
    unfold send_start at 1. rewrite Ec. lia. }
  assert (Hrec : receive_end t' s = receive_end t s + len64 x) by (unfold receive_end at 1; by rewrite Ec).
  assert (Hlen : len64 (d0 ++ frames_data fs) = len64 x + len64 (d0' ++ frames_data fs')).
  { rewrite Hdata. unfold len64. rewrite !length_app. lia. }
  assert (Hx0 : 0 <= receive_end t s /\ 0 <= len64 x).
  { pose proof (vl_start _ (bo_receive t s (gd_buffers t Hg s))). unfold receive_end, len64. lia. }
  split; rewrite ?other_other, ?Ew, ?Hse, ?Eo, ?Ho, ?Hu, ?Href, ?Hcn, ?Hbase, ?Hrec; try done.
  - split; [done|]. split; [done|apply st_small0].
  - rewrite Z2Nat.inj_add by lia. rewrite <- drop_drop. unfold len64. rewrite Nat2Z.id.
    rewrite Hdata in st_data0. apply (prefix_drop (length x)) in st_data0. by rewrite drop_app_length in st_data0.
  - intros Hn. destruct (Hn (ao_used _ _ _ (gd_attached t Hg s a Ha))).
  - intros b Hb Hrun. destruct (st_running0 b Hb Hrun) as [? ->]. split; [done|]. lia.
  - intros b Hb Hw. destruct (st_waiting0 b Hb Hw) as (E1 & E2 & ?). by destruct (Hnone E1 E2).
  - intros b. rewrite (received_attached t t' s a a' Hr), decide_True by done. by intros [= <-].
  - intros E1 E2. destruct (st_closing0 E1 E2) as [? <-]. split; [done|]. lia.
Qed.
End ReadNet.

Lemma read_net_received t s a (Ha : cn_attached (n_end t s) = Some a) c ph' wire' :
  c_localClosed c = c_localClosed (conn_of t s) -> ph' <> RdHandshake ->
  receive_end t s <= b_end (c_receiveBuffer c) ->
  (b_end (c_receiveBuffer c) = receive_end t s \/
     at_id a ∈ n_used t (other s) /\ phase t (other s) (at_id a) <> Some RdHandshake /\
     forall b, attached t (other s) (at_id a) = Some b -> running b -> b_end (c_receiveBuffer c) <= sent_to b) ->
  received t (read_net t s a c ph' wire') s a ph'.
Proof. intros. by apply receive_net_moved. Qed.

Lemma reader_flow t s a (Hg : good t) (Ha : cn_attached (n_end t s) = Some a) c ph' wire' ph p d0 fs closing rest d0' fs' x :
  let t' := read_net t s a c ph' wire' in
  received t t' s a ph' -> at_reader a = ph -> at_id a ∈ n_used t (other s) ->
  stream t (other s) (at_id a) ph p d0 fs closing rest ->
  (wire' ++ rest)%list = follows ph' p d0' fs' closing -> shape ph' d0' -> Forall small_frame fs' -> len64 d0' <= maxFrameSize ->
  (d0 ++ frames_data fs)%list = (x ++ d0' ++ frames_data fs')%list ->
  b_end (c_receiveBuffer c) = receive_end t s + len64 x ->
  ack_base t s ph p + frames_acks fs = b_start (c_sendBuffer c) + frames_acks fs' ->
  (d0 = [] -> fs = [] -> d0' = [] /\ fs' = []) ->
  flow t' (other s) (at_id a).
Proof.
  intros t' Hr Eph Hu Hst Hb Hs Hf Hl Hd He Hacks Hnone.
  apply (moved_in_flow t s a Hg Ha c (set_reader ph' a) wire' ph p d0 fs closing rest d0' fs' x); try done.
  intros Hrun. pose proof (st_room _ _ _ _ _ _ _ _ _ Hst a) as Hx. rewrite other_other in Hx.
  apply Hx; [by apply attached_at|done].
Qed.

Lemma reader_stream t s a : good t -> cn_attached (n_end t s) = Some a -> at_reader a <> RdDone ->
  (at_id a ∈ n_used t (other s) /\
   exists p d0 fs closing rest, stream t (other s) (at_id a) (at_reader a) p d0 fs closing rest) \/
  (n_wire t (at_id a) (other s) = [] /\ at_reader a = first_phase (at_id a)).
Proof.
  intros Hg Ha Hn. pose proof (gd_flow t Hg (other s) (at_id a)) as Hf. unfold flow in Hf. rewrite other_other in Hf.
  specialize (Hf (at_reader a)). destruct (decide (at_id a ∈ n_used t (other s))); [left|right; apply Hf];
    [split; [done|apply Hf]|]; unfold phase; rewrite (attached_at _ _ _ Ha); by destruct (at_reader a).
Qed.
