(* ===== verification/ResumableSafety.v ===== *)
(** * The read loop keeps the invariant

    The steps of the read loop, the handshake among them, and the theorem that
    every state two endpoints can reach is good. *)

From stdpp Require Import list.
From S2P Require Import Prelude GoStrings Types Ring ManagedConn Resumable ResumableFacts.

#[local] Open Scope Z_scope.

Section ReadSteps.
Context (t : net) (s : side) (a : attachment) (Hg : good t) (Ha : cn_attached (n_end t s) = Some a).
#[local] Abbreviation c0 := (conn_of t s).

Lemma read_net_same ph wire : same_programs t (read_net t s a c0 ph wire).
Proof. split; try done. intros x. unfold read_net, receive_net. net_simpl. unfold upd. by destruct (decide (x = s)) as [->|]. Qed.

(** What a step of the read loop may do to the connection. *)
Lemma receive_buffers w ph wire : let t' := read_net t s a (with_receive w c0) ph wire in
  valid w -> receive_end t s <= b_end w -> b_end w <= len64 (n_sent t (other s)) ->
  (c_localClosed c0 = false -> (n_got t s ++ content w)%list = take (Z.to_nat (b_end w)) (n_sent t (other s))) ->
  len64 (b_data w) <= receiveBufferSize -> buffers_ok t' s.
Proof.
  intros t' Hv Hle Hmax Hc Hmem. pose proof (read_net_conn t s a (with_receive w c0) ph wire) as Ec. fold t' in Ec.
  assert (Eo : conn_of t' (other s) = conn_of t (other s)).
  { unfold t', read_net, receive_net. net_simpl. rewrite upd_ne; [done|apply other_ne]. }
  destruct (gd_buffers t Hg s). unfold receive_end, send_start in *.
  split; unfold receive_end, send_start; rewrite ?Ec, ?Eo; try done.
  intros H1 H2. destruct (bo_closed H1 H2) as [? E]. split; [done|]. simpl. lia.
Qed.

Lemma send_buffers n ph wire : let t' := read_net t s a (with_send (advance (c_sendBuffer c0) n) c0) ph wire in
  0 <= n -> send_start t s + n <= receive_end t (other s) -> buffers_ok t' s /\ send_start t' s = send_start t s + n.
Proof.
  intros t' Hn Hmax. pose proof (read_net_conn t s a (with_send (advance (c_sendBuffer c0) n) c0) ph wire) as Ec. fold t' in Ec.
  assert (Eo : conn_of t' (other s) = conn_of t (other s)).
  { unfold t', read_net, receive_net. net_simpl. rewrite upd_ne; [done|apply other_ne]. }
  pose proof (bo_received _ _ (gd_buffers t Hg (other s))) as Hrec. rewrite other_other in Hrec. destruct (gd_buffers t Hg s).
  assert (H62 : 2 ^ 62 < 2 ^ 64) by done.
  destruct (advance_spec (c_sendBuffer c0) n) as (Hv & Hs & He & Hc & Hd); [done|done|unfold send_start in *; lia|].
  unfold t' in *. set (w := advance (c_sendBuffer c0) n) in *. clearbody w.
  pose proof (vl_start _ bo_send) as Hst. unfold receive_end, send_start in *.
  split; [|rewrite Ec; exact Hs].
  split; unfold receive_end, send_start; rewrite ?Ec, ?Eo; simpl; rewrite ?Hd; try done; try lia.
  - rewrite Hc, Hs, bo_unacked, drop_drop. f_equal. lia.
Qed.

Lemma closed_buffers ph wire : let t' := read_net t s a (with_remoteClosed c0) ph wire in
  (n_refused t = false -> c_localClosed (conn_of t (other s)) = true /\ receive_end t s = len64 (n_sent t (other s))) ->
  buffers_ok t' s.
Proof.
  intros t' Hcl. pose proof (read_net_conn t s a (with_remoteClosed c0) ph wire) as Ec. fold t' in Ec.
  assert (Eo : conn_of t' (other s) = conn_of t (other s)).
  { unfold t', read_net, receive_net. net_simpl. rewrite upd_ne; [done|apply other_ne]. }
  destruct (gd_buffers t Hg s). unfold receive_end, send_start in *.
  split; unfold receive_end, send_start; rewrite ?Ec, ?Eo; try done.
Qed.

(** The attachment with another phase of its read loop. *)
Lemma reader_attachment c ph wire : let t' := read_net t s a c ph wire in
  ph <> RdHandshake -> (at_reader a <> RdHandshake /\ at_reader a <> RdDone \/ ph = RdDone) ->
  receive_end t s <= b_end (c_receiveBuffer c) -> (running a -> b_start (c_sendBuffer c) <= sent_to a) ->
  filling c ph -> attachment_ok t' s (set_reader ph a).
Proof.
  intros t' Hp1 Hp2 Hle Hst Hfill. pose proof (read_net_conn t s a c ph wire) as Ec. fold t' in Ec.
  destruct (gd_attached t Hg s a Ha). unfold receive_end, send_start, running in *.
  split; unfold receive_end, send_start; rewrite ?Ec; try done.
  - intros E. split; [done|]. by apply ao_first.
  - unfold acked, sent_to in *. simpl. destruct (at_writer a); try done; try tauto.
    + split_and!; try tauto; try lia.
    + split_and!; try tauto; try lia.
Qed.

(** ** The loop ends *)

Lemma done_flow c wire : received t (read_net t s a c RdDone wire) s a RdDone -> flow (read_net t s a c RdDone wire) (other s) (at_id a).
Proof.
  intros Hr ph. rewrite other_other. unfold phase. rewrite (received_attached _ _ _ _ _ Hr), decide_True by done. done.
Qed.

Lemma same_received ph wire : ph <> RdHandshake -> received t (read_net t s a c0 ph wire) s a ph.
Proof. intros Hp. apply read_net_received; [done..| |]; [done|by left]. Qed.

Lemma same_read_buffers ph wire : buffers_ok (read_net t s a c0 ph wire) s.
Proof. apply (same_buffers t); [apply read_net_same|apply Hg]. Qed.

Lemma running_room : running a -> send_start t s <= sent_to a.
Proof.
  intros Hr. pose proof (ao_writer _ _ _ (gd_attached t Hg s a Ha)) as Hw. unfold running in Hr.
  destruct (at_writer a); try done; tauto.
Qed.

Lemma stop_reading_good wire : good (read_net t s a c0 RdDone wire).
Proof.
  pose proof (same_received RdDone wire ltac:(done)) as Hr. eapply received_good; [exact Hg|exact Hr| | |].
  - apply same_read_buffers.
  - apply reader_attachment; [done|by right|done|apply running_room|done].
  - by apply done_flow.
Qed.

(** Only the phase moves on. *)
Lemma phase_good ph wire : ph <> RdHandshake -> at_reader a <> RdHandshake -> at_reader a <> RdDone ->
  filling c0 ph -> flow (read_net t s a c0 ph wire) (other s) (at_id a) -> good (read_net t s a c0 ph wire).
Proof.
  intros Hp1 Hp2 Hp3 Hfill Hf. pose proof (same_received ph wire Hp1) as Hr. eapply received_good; [exact Hg|exact Hr| | |done].
  - apply same_read_buffers.
  - apply reader_attachment; [done|by left|done|apply running_room|done].
Qed.

(** ** Integers *)

Abbreviation wire := (n_wire t (at_id a) (other s)).

Lemma first_phase_cases id : first_phase id = RdAck \/ first_phase id = RdHandshake.
Proof. unfold first_phase. destruct (decide _); auto. Qed.

Lemma len64_small (l : list byte) : len64 l <= maxFrameSize -> 0 <= len64 l < 2 ^ 64.
Proof. unfold len64, maxFrameSize. lia. Qed.

Lemma read_size_good size wire' : at_reader a = RdSize -> ReadUvarint wire = UvValue size wire' ->
  good (read_net t s a c0 (RdData size) wire').
Proof.
  intros Er Ew. assert (Hn : at_reader a <> RdDone) by congruence.
  destruct (reader_stream t s a Hg Ha Hn) as [(Hu & p & d0 & fs & closing & rest & Hst)|[_ E]].
  2: { destruct (first_phase_cases (at_id a)); congruence. }
  rewrite Er in Hst. pose proof (st_bytes _ _ _ _ _ _ _ _ _ Hst) as Hb. destruct (st_small _ _ _ _ _ _ _ _ _ Hst) as (Hf & Hd & _).
  unfold follows in Hb. rewrite <- !app_assoc in Hb.
  destruct (read_integer _ _ _ _ _ _ (len64_small d0 Hd) Hb Ew) as [-> Hrest].
  pose proof (same_received (RdData (len64 d0)) wire' ltac:(done)) as Hr.
  apply phase_good; [done|congruence|done|simpl; unfold len64; lia|].
  eapply (reader_flow t s a Hg Ha c0 (RdData (len64 d0)) wire' RdSize p d0 fs closing rest d0 fs []); try done.
  unfold len64. simpl. unfold receive_end. lia.
Qed.

(** An acknowledgement drops what it acknowledges from the send buffer. *)
Lemma read_ack_cases ack wire' : at_reader a = RdAck -> ReadUvarint wire = UvValue ack wire' ->
  at_id a ∈ n_used t (other s) /\ exists p fs closing rest,
    stream t (other s) (at_id a) RdAck p [] fs closing rest /\
    ((ack = errorTag /\ fs = [] /\ closing = true) \/
     exists data fs', fs = (ack, data) :: fs' /\ 0 <= ack < 2 ^ 62 /\ len64 data <= maxFrameSize /\
       (wire' ++ rest)%list = follows RdSize p data fs' closing).
Proof.
  intros Er Ew. assert (Hn : at_reader a <> RdDone) by congruence.
  destruct (reader_stream t s a Hg Ha Hn) as [(Hu & p & d0 & fs & closing & rest & Hst)|[E _]]; [|by rewrite E in Ew].
  rewrite Er in Hst. split; [done|]. pose proof (st_shape _ _ _ _ _ _ _ _ _ Hst) as Hs. simpl in Hs. subst d0.
  exists p, fs, closing, rest. split; [done|].
  pose proof (st_bytes _ _ _ _ _ _ _ _ _ Hst) as Hb. destruct (st_small _ _ _ _ _ _ _ _ _ Hst) as (Hf & _).
  unfold follows in Hb. simpl in Hb. destruct fs as [|[ack' data] fs].
  - left. simpl in Hb. destruct closing; [|by destruct (read_nothing _ _ _ _ Hb Ew)].
    unfold ending in Hb. rewrite <- (app_nil_r (uv errorTag)) in Hb.
    destruct (read_integer _ _ errorTag _ _ _ ltac:(unfold errorTag; lia) Hb Ew) as [-> _]. done.
  - right. apply Forall_cons in Hf as [[Ha' Hd] _]. simpl in Ha', Hd.
    change (frames_bytes ((ack', data) :: fs)) with (enc_frame (ack', data) ++ frames_bytes fs)%list in Hb.
    unfold enc_frame in Hb. simpl in Hb. rewrite <- !app_assoc in Hb.
    destruct (read_integer _ _ ack' _ _ _ ltac:(lia) Hb Ew) as [-> Hrest].
    exists data, fs. split; [done|]. split; [done|]. split; [done|]. rewrite Hrest. unfold follows. by rewrite <- !app_assoc.
Qed.

Lemma read_end_good wire' : at_reader a = RdAck -> ReadUvarint wire = UvValue errorTag wire' ->
  good (read_net t s a (with_remoteClosed c0) RdDone wire').
Proof.
  intros Er Ew. destruct (read_ack_cases errorTag wire' Er Ew) as (Hu & p & fs & closing & rest & Hst & [(_ & -> & ->)|(d & fs' & _ & Hbad & _)]).
  2: { unfold errorTag in Hbad. lia. }
  assert (Hr : received t (read_net t s a (with_remoteClosed c0) RdDone wire') s a RdDone).
  { apply read_net_received; try done. by left. }
  eapply received_good; [exact Hg|exact Hr| | |].
  - apply closed_buffers. intros Href. destruct (st_closing _ _ _ _ _ _ _ _ _ Hst eq_refl Href) as [Hl He].
    rewrite other_other in He. simpl in He. unfold len64 at 1 in He. simpl in He. split; [done|lia].
  - apply reader_attachment; [done|by right|done|apply running_room|done].
  - by apply done_flow.
Qed.

Lemma read_ack_good ack wire' : at_reader a = RdAck -> ReadUvarint wire = UvValue ack wire' -> ack <> errorTag ->
  blen (c_sendBuffer c0) = held (c_sendBuffer c0) /\ 0 <= ack <= held (c_sendBuffer c0) /\
  good (read_net t s a (if 0 <? ack then with_send (advance (c_sendBuffer c0) ack) c0 else c0) RdSize wire').
Proof.
  intros Er Ew Hne. destruct (read_ack_cases ack wire' Er Ew) as (Hu & p & fs & closing & rest & Hst & [(-> & _)|(d & fs' & -> & Hack & Hd & Hrest)]); [done|].
  split; [apply blen_held, (gd_buffers t Hg s)|].
  pose proof (st_acks _ _ _ _ _ _ _ _ _ Hst) as Hacks. rewrite other_other in Hacks. simpl in Hacks.
  destruct (st_small _ _ _ _ _ _ _ _ _ Hst) as (Hf & _). apply Forall_cons in Hf as [_ Hf]. pose proof (frames_acks_nonneg _ Hf).
  pose proof (bo_received _ _ (gd_buffers t Hg (other s))) as Hrec. rewrite other_other in Hrec.
  pose proof (bo_sent _ _ (gd_buffers t Hg s)) as Hsent.
  split; [unfold held, send_start in *; lia|].
  assert (Hroom : running a -> send_start t s + ack <= sent_to a).
  { intros Hr. pose proof (st_room _ _ _ _ _ _ _ _ _ Hst a) as Hx. rewrite other_other in Hx.
    specialize (Hx (attached_at _ _ _ Ha) Hr). simpl in Hx. lia. }
  set (c := if 0 <? ack then _ else _).
  assert (Hc : c_localClosed c = c_localClosed c0 /\ c_receiveBuffer c = c_receiveBuffer c0 /\
    b_start (c_sendBuffer c) = send_start t s + ack /\ buffers_ok (read_net t s a c RdSize wire') s).
  { unfold c. destruct (Z.ltb_spec 0 ack) as [Hpos|Hz].
    - destruct (send_buffers ack RdSize wire') as [Hb Hs]; [lia|lia|]. split_and!; try done.
      unfold send_start in Hs at 1. by rewrite read_net_conn in Hs.
    - split_and!; try done; [unfold send_start; lia|]. apply same_read_buffers. }
  destruct Hc as (Hcl & Hrc & Hstart & Hb).
  assert (Hr : received t (read_net t s a c RdSize wire') s a RdSize).
  { apply read_net_received; rewrite ?Hrc; try done. by left. }
  eapply received_good; [exact Hg|exact Hr|done| |].
  - apply reader_attachment; [done|left; split; congruence|by rewrite Hrc| |done]. rewrite Hstart. done.
  - eapply (reader_flow t s a Hg Ha c RdSize wire' RdAck p [] _ closing rest d fs' []); try done.
    + rewrite Hrc. unfold len64, receive_end. simpl. lia.
    + simpl. lia.
Qed.

(** ** Data *)

(** The bytes a frame still has for the read loop. *)
Definition to_come (ph : rphase) : option Z :=
  match ph with RdData r | RdFill r _ | RdDiscard r => Some r | _ => None end.

Lemma data_stream r : to_come (at_reader a) = Some r ->
  at_reader a <> RdDone /\ at_reader a <> RdHandshake /\ at_id a ∈ n_used t (other s) /\
  exists p d0 fs closing rest, stream t (other s) (at_id a) (at_reader a) p d0 fs closing rest /\ len64 d0 = r /\
    (wire ++ rest)%list = (d0 ++ frames_bytes fs ++ ending closing)%list.
Proof.
  intros E. assert (Hn : at_reader a <> RdDone /\ at_reader a <> RdHandshake) by (by destruct (at_reader a)).
  destruct (reader_stream t s a Hg Ha (proj1 Hn)) as [(Hu & p & d0 & fs & closing & rest & Hst)|[_ Ef]].
  2: { rewrite Ef in E. by destruct (first_phase_cases (at_id a)) as [E'|E']; rewrite E' in E. }
  split; [tauto|]. split; [tauto|]. split; [done|]. exists p, d0, fs, closing, rest. split; [done|].
  pose proof (st_shape _ _ _ _ _ _ _ _ _ Hst) as Hs. pose proof (st_bytes _ _ _ _ _ _ _ _ _ Hst) as Hb.
  unfold follows in Hb. destruct (at_reader a); simpl in E; try done; injection E as <-; done.
Qed.

(** The data to come is the next of the other side's stream. *)
Lemma data_next r d0 p fs closing rest : stream t (other s) (at_id a) (at_reader a) p d0 fs closing rest -> len64 d0 = r ->
  d0 `prefix_of` drop (Z.to_nat (receive_end t s)) (n_sent t (other s)) /\ receive_end t s + r <= len64 (n_sent t (other s)).
Proof.
  intros Hst <-. pose proof (st_data _ _ _ _ _ _ _ _ _ Hst) as Hd. rewrite other_other in Hd.
  assert (Hp : d0 `prefix_of` drop (Z.to_nat (receive_end t s)) (n_sent t (other s))).
  { etransitivity; [|exact Hd]. by apply prefix_app_r. }
  split; [done|]. pose proof (prefix_length _ _ Hp) as Hl. rewrite length_drop in Hl.
  pose proof (bo_received _ _ (gd_buffers t Hg s)). pose proof (vl_start _ (bo_receive _ _ (gd_buffers t Hg s))).
  unfold receive_end, len64 in *. lia.
Qed.

(** What the loop read of the frame is at its front. *)
Lemma chunk_front (d0 tail w rest : list byte) n : (w ++ rest)%list = (d0 ++ tail)%list ->
  (n <= length d0)%nat -> (n <= length w)%nat ->
  take n w = take n d0 /\ (drop n w ++ rest)%list = (drop n d0 ++ tail)%list.
Proof.
  intros E H1 H2. split.
  - apply (f_equal (take n)) in E. by rewrite !take_app_le in E.
  - apply (f_equal (drop n)) in E. by rewrite !drop_app_le in E.
Qed.

(** The loop takes [n] bytes of the frame, and changes the receive buffer only. *)
Lemma chunk_good r w ph n : to_come (at_reader a) = Some r -> 0 <= n <= r -> n <= len64 wire ->
  b_end w = receive_end t s + n -> filling (with_receive w c0) ph ->
  match ph with RdData _ | RdFill _ _ | RdDiscard _ => to_come ph = Some (r - n) | RdAck => n = r | RdDone => True | _ => False end ->
  buffers_ok (read_net t s a (with_receive w c0) ph (drop (Z.to_nat n) wire)) s ->
  good (read_net t s a (with_receive w c0) ph (drop (Z.to_nat n) wire)).
Proof.
  intros E Hn Hw He Hfill Hph Hb.
  destruct (data_stream r E) as (Hd1 & Hd2 & Hu & p & d0 & fs & closing & rest & Hst & Hl & Hbytes).
  assert (Hp1 : ph <> RdHandshake) by (by destruct ph).
  assert (Hr : received t (read_net t s a (with_receive w c0) ph (drop (Z.to_nat n) wire)) s a ph).
  { apply read_net_received; [done..|simpl; lia|]. simpl. destruct (decide (n = 0)) as [->|Hpos]; [left; lia|right].
    assert (Hne : d0 <> []) by (intros ->; unfold len64 in Hl; simpl in Hl; lia).
    split; [done|]. split.
    - unfold phase. destruct (attached t (other s) (at_id a)) as [b|] eqn:Hb'; [|by rewrite decide_True].
      intros Hh. assert (at_reader b = RdHandshake) by (destruct (at_reader b); congruence).
      destruct (st_waiting _ _ _ _ _ _ _ _ _ Hst b Hb') as [-> _]; [by left|done].
    - intros b Hb' Hrun. destruct (st_running _ _ _ _ _ _ _ _ _ Hst b Hb' Hrun) as [_ ->]. rewrite other_other.
      unfold len64 in *. rewrite length_app. lia. }
  eapply received_good; [exact Hg|exact Hr|done| |].
  - apply reader_attachment; [done|by left|simpl; lia|apply running_room|done].
  - assert (Hp2 : ph = RdDone \/ ph <> RdDone) by (destruct ph; auto). destruct Hp2 as [->|Hp2]; [by apply done_flow|].
    destruct (chunk_front _ _ _ _ (Z.to_nat n) Hbytes) as [_ Hrest]; [unfold len64 in *; lia|unfold len64 in *; lia|].
    destruct (st_small _ _ _ _ _ _ _ _ _ Hst) as (Hf & Hmax & _).
    assert (Hdl : len64 (drop (Z.to_nat n) d0) = r - n) by (unfold len64 in *; rewrite length_drop; lia).
    eapply (reader_flow t s a Hg Ha _ ph _ (at_reader a) p d0 fs closing rest (drop (Z.to_nat n) d0) fs (take (Z.to_nat n) d0)); try done.
    + rewrite Hrest. unfold follows. destruct ph; try done.
      replace (drop (Z.to_nat n) d0) with ([] : list byte); [done|]. symmetry. apply length_zero_iff_nil. unfold len64 in Hdl. lia.
    + destruct ph; simpl in Hph |- *; try done; try congruence. apply length_zero_iff_nil. unfold len64 in Hdl. lia.
    + lia.
    + by rewrite app_assoc, take_drop.
    + simpl. rewrite He. unfold len64 in *. rewrite length_take. lia.
    + simpl. unfold ack_base. by destruct (at_reader a).
    + intros -> ->. by rewrite drop_nil.
Qed.

(** A read into the buffer, of all that was wanted or of what came before the
    transport failed. *)
Lemma fill_good r want n : at_reader a = RdFill r want -> 0 <= n <= want -> n <= len64 wire ->
  exists w, append (c_receiveBuffer c0) (take (Z.to_nat n) wire) = Ok w /\
    forall ph, ph = RdDone \/ ph = RdData (r - n) -> good (read_net t s a (with_receive w c0) ph (drop (Z.to_nat n) wire)).
Proof.
  intros Er Hn Hw. pose proof (gd_buffers t Hg s) as Hbuf. pose proof (ao_fill _ _ _ (gd_attached t Hg s a Ha)) as Hfill.
  rewrite Er in Hfill. simpl in Hfill. destruct Hfill as [Hwant Hroom].
  assert (Hto : to_come (at_reader a) = Some r) by (by rewrite Er).
  destruct (data_stream r Hto) as (_ & _ & _ & p & d0 & fs & closing & rest & Hst & Hl & Hbytes).
  destruct (data_next r d0 p fs closing rest Hst Hl) as [Hpre Hmax].
  destruct (chunk_front _ _ _ _ (Z.to_nat n) Hbytes) as [Hchunk _]; [unfold len64 in *; lia|unfold len64 in *; lia|].
  pose proof (bo_receive _ _ Hbuf) as Hv. pose proof (bo_receive_memory _ _ Hbuf) as Hmem.
  pose proof (bo_sent_small _ _ (gd_buffers t Hg (other s))) as H62.
  assert (Hlen : len64 (take (Z.to_nat n) wire) = n) by (unfold len64 in *; rewrite length_take; lia).
  assert (Hbig : receiveBufferSize < 2 ^ 62 < 2 ^ 64) by done.
  pose proof (vl_start _ Hv) as Hvs. assert (Hh : 0 <= held (c_receiveBuffer c0)) by (unfold held; lia).
  destruct (append_spec (c_receiveBuffer c0) (take (Z.to_nat n) wire) Hv) as (w & E & [Hwv Hws He Hc] & Hbd).
  { left. intros E. rewrite E in Hroom. unfold len64 in Hroom. simpl in Hroom. lia. }
  { lia. }
  { rewrite Hlen. unfold receive_end in Hmax. lia. }
  exists w. split; [done|]. intros ph Hph. rewrite Hlen in He, Hbd.
  apply (chunk_good r); [done|lia|done|done|by destruct Hph as [-> | ->]; simpl; lia|by destruct Hph as [-> | ->]|].
  apply receive_buffers; [done|unfold receive_end; lia|rewrite He; unfold receive_end in Hmax; lia| |].
  - intros Hcl. rewrite Hc, app_assoc, (bo_stream _ _ Hbuf Hcl), He, Hchunk. unfold receive_end in *.
    rewrite Z2Nat.inj_add by lia. rewrite <- take_take_drop. f_equal. destruct Hpre as [x ->].
    rewrite take_app_le; [done|]. unfold len64 in *. lia.
  - change receiveBufferSize with (2 ^ 17) in *. apply (Hbd 17); lia.
Qed.

(** Data that came after [Close] is dropped. *)
Lemma discard_good r n : at_reader a = RdDiscard r -> 0 <= n <= r -> n <= len64 wire ->
  let position := u64 (b_end (c_receiveBuffer c0) + n) in
  forall ph, ph = RdDone \/ ph = RdAck /\ n = r ->
    good (read_net t s a (with_receive (mkBuffer (b_data (c_receiveBuffer c0)) position position) c0) ph (drop (Z.to_nat n) wire)).
Proof.
  intros Er Hn Hw position ph Hph. pose proof (gd_buffers t Hg s) as Hbuf.
  pose proof (ao_fill _ _ _ (gd_attached t Hg s a Ha)) as Hfill. rewrite Er in Hfill. destruct Hfill as [_ Hcl].
  assert (Hto : to_come (at_reader a) = Some r) by (by rewrite Er).
  destruct (data_stream r Hto) as (_ & _ & _ & p & d0 & fs & closing & rest & Hst & Hl & _).
  destruct (data_next r d0 p fs closing rest Hst Hl) as [_ Hmax].
  pose proof (bo_receive _ _ Hbuf) as Hv. pose proof (vl_start _ Hv). pose proof (bo_sent_small _ _ (gd_buffers t Hg (other s))) as H62.
  assert (2 ^ 62 < 2 ^ 64) by done. unfold receive_end in Hmax.
  assert (Ep : position = receive_end t s + n) by (apply u64_small; unfold receive_end; lia).
  assert (Ep' : 0 <= position < 2 ^ 62) by (rewrite Ep; unfold receive_end; lia).
  apply (chunk_good r); [done|done|done|done|by destruct Hph as [-> | [-> _]]|by destruct Hph as [-> | [-> ->]]|].
  apply receive_buffers; simpl; [|rewrite Ep; lia|rewrite Ep; unfold receive_end; lia|congruence|apply Hbuf].
  destruct Hv as [_ _ _ Hsz]. split; simpl; try done; [lia|lia|]. unfold held, len64. simpl. lia.
Qed.

(** Room is made for data. *)
Lemma reserve_good r : at_reader a = RdData r -> 0 < r -> blen (c_receiveBuffer c0) < receiveBufferSize ->
  exists w f1 f2, reserve (c_receiveBuffer c0) (Z.min (receiveBufferSize - blen (c_receiveBuffer c0)) r) = Ok w /\
    free w = Ok (f1, f2) /\
    let tail := Z.of_nat (v_len f1) in
    good (read_net t s a (with_receive w c0) (RdFill r (if r <? tail then r else tail)) wire).
Proof.
  intros Er Hr Hroom. pose proof (gd_buffers t Hg s) as Hbuf. pose proof (bo_receive _ _ Hbuf) as Hv.
  rewrite (blen_held _ Hv) in *. pose proof (vl_start _ Hv) as Hvs. pose proof (bo_receive_memory _ _ Hbuf) as Hmem.
  assert (Hh : 0 <= held (c_receiveBuffer c0)) by (unfold held; lia).
  assert (Hbig : receiveBufferSize < 2 ^ 62) by done. set (k := Z.min _ _). assert (Hk : 0 < k <= r /\ held (c_receiveBuffer c0) + k <= receiveBufferSize) by lia.
  destruct (reserve_spec 0 (c_receiveBuffer c0) k Hv) as (w & E & [Hwv Hws Hwe Hwc Hwr Hbd]); [lia|lia|].
  assert (Hheld : held w = held (c_receiveBuffer c0)) by (unfold held; congruence).
  destruct (free_spec w Hwv) as (f1 & f2 & Ef & Hf1 & Hf2).
  { intros Ed. rewrite Ed in Hwr. unfold len64 in Hwr. simpl in Hwr. lia. }
  exists w, f1, f2. split; [exact E|]. split; [done|]. intros tail.
  assert (Htail : 0 < tail <= len64 (b_data w) - held w) by (unfold tail; specialize (Hf2 ltac:(lia)); lia).
  assert (Hto : to_come (at_reader a) = Some r) by (by rewrite Er).
  apply (chunk_good r _ _ 0); [done|lia|unfold len64; lia|rewrite Hwe; unfold receive_end; lia| |simpl; by rewrite Z.sub_0_r|].
  - simpl. destruct (Z.ltb_spec r tail); lia.
  - apply receive_buffers; [done|rewrite Hwe; unfold receive_end; lia|rewrite Hwe; apply Hbuf| |].
    + intros Hcl. rewrite Hwc, Hwe. by apply Hbuf.
    + change receiveBufferSize with (2 ^ 17) in *. apply (Hbd 17); lia.
Qed.
End ReadSteps.

(** ** The handshake *)

(** A refusal weakens what the invariant says of the end of a connection. *)
Lemma refuse_good b t : good t -> good (refuse_if b t).
Proof.
  intros []. split; try done.
  - intros x. destruct (gd_buffers x). split; try done. simpl. intros ? [? _]%orb_false_iff. auto.
  - intros x a Ha. by destruct (gd_attached x a Ha).
  - intros x id ph Hph. specialize (gd_flow x id ph Hph). change (n_used (refuse_if b t)) with (n_used t).
    destruct (decide _); [|done]. destruct gd_flow as (p & d0 & fs & closing & rest & []). exists p, d0, fs, closing, rest.
    split; try done. simpl. intros ? [? _]%orb_false_iff. auto.
Qed.

Section Handshake.
Context (t : net) (s : side) (a : attachment) (Hg : good t) (Ha : cn_attached (n_end t s) = Some a).
Context (Er : at_reader a = RdHandshake) (Ew : at_writer a = WrReady).
Context (peer : Z) (wire' : list byte) (Ev : ReadUvarint (n_wire t (at_id a) (other s)) = UvValue peer wire').
#[local] Abbreviation c0 := (conn_of t s).

(** The position read is the one the other side has, and nothing follows it
    that acknowledges more. *)
Lemma handshake_stream : at_id a ∈ n_used t (other s) /\ at_id a <> 0%nat /\ exists fs closing rest,
  stream t (other s) (at_id a) RdHandshake peer [] fs closing rest /\ frames_acks fs = 0 /\
  0 <= peer <= receive_end t (other s) /\
  (wire' ++ rest)%list = (frames_bytes fs ++ ending closing)%list.
Proof.
  assert (Hid : at_id a <> 0%nat).
  { intros E0. pose proof (ao_first _ _ _ (gd_attached t Hg s a Ha) E0) as [? _]. done. }
  destruct (reader_stream t s a Hg Ha) as [(Hu & p & d0 & fs & closing & rest & Hst)|[E _]]; [congruence| |by rewrite E in Ev].
  rewrite Er in Hst. pose proof (st_shape _ _ _ _ _ _ _ _ _ Hst) as Hs. simpl in Hs. subst d0.
  destruct (st_small _ _ _ _ _ _ _ _ _ Hst) as (_ & _ & Hp). pose proof (st_bytes _ _ _ _ _ _ _ _ _ Hst) as Hb.
  unfold follows in Hb. destruct (read_integer _ _ p _ _ _ ltac:(lia) Hb Ev) as [-> Hrest].
  destruct (st_handshake _ _ _ _ _ _ _ _ _ Hst eq_refl) as [H0 _].
  pose proof (st_acks _ _ _ _ _ _ _ _ _ Hst) as Hacks. rewrite other_other in Hacks. simpl in Hacks.
  split; [done|]. split; [done|]. exists fs, closing, rest. split_and!; try done; lia.
Qed.

(** What the position is, while the other side still reads. *)
Lemma handshake_peer ph : phase t (other s) (at_id a) = Some ph -> peer = receive_end t (other s).
Proof.
  intros Hph. destruct handshake_stream as (Hu & _ & fs & closing & rest & Hst & _).
  destruct (st_handshake _ _ _ _ _ _ _ _ _ Hst eq_refl) as [_ Hp]. unfold phase in Hph.
  destruct (attached t (other s) (at_id a)) as [b|] eqn:Hb; [by apply (Hp b)|by rewrite decide_True in Hph].
Qed.

(** What [s] wrote on the transport is its own handshake: an end may follow. *)
Lemma handshake_own c a' closing : let t' := receive_net t s a c a' wire' in
  moved_in t t' s a a' -> c_receiveBuffer c = c_receiveBuffer c0 ->
  outgoing a' = ending closing -> acked a' = at_localPosition a -> ~ waiting a' ->
  (running a' -> closing = false /\ sent_to a' = peer) -> (closing = true -> n_refused t = true) -> flow t' s (at_id a).
Proof.
  intros t' Hm Hrc Hout Hack Hnw Hrun Hcl ph. destruct handshake_stream as (Hu & Hid & _).
  pose proof (received_other t t' s a a' Hm) as [Eo Es].
  unfold phase. rewrite (received_attached t t' s a a' Hm), decide_False by (intros [E _]; by apply (other_ne s)).
  fold (phase t (other s) (at_id a)). intros Hph. pose proof (handshake_peer ph Hph) as Hpeer.
  change (n_used t') with (n_used t). pose proof (gd_attached t Hg s a Ha) as Hok.
  pose proof (gd_flow t Hg s (at_id a) ph Hph) as Hf. rewrite decide_True in Hf |- * by apply Hok.
  destruct Hf as (p & d0 & fs & cl & rest & Hst). pose proof (attached_at _ _ _ Ha) as Hat. pose proof Hst as [].
  destruct (st_waiting a Hat) as (-> & -> & ->); [by left|]. destruct (st_alive a Hat) as [-> Hacked]; [by rewrite Ew|].
  exists p, [], [], closing, (outgoing a').
  assert (Hout0 : outgoing a = []) by (unfold outgoing; by rewrite Ew).
  assert (Hnew : forall b, attached t' s (at_id a) = Some b -> b = a').
  { intros b. rewrite (received_attached t t' s a a' Hm), decide_True by done. congruence. }
  assert (Ho : attached t' (other s) (at_id a) = attached t (other s) (at_id a)).
  { rewrite (received_attached t t' s a a' Hm), decide_False; [done|]. intros [E _]. by apply (other_ne s). }
  assert (Hwire : n_wire t' (at_id a) s = n_wire t (at_id a) s).
  { unfold t', receive_net. net_simpl. rewrite upd_eq, upd_ne; [done|]. intros E. by apply (other_ne s). }
  assert (Hrec : receive_end t' s = receive_end t s) by (unfold receive_end, t'; by rewrite receive_net_conn, Hrc).
  assert (Hb : forall q, ack_base t' (other s) q p = ack_base t (other s) q p) by (intros q; unfold ack_base; by rewrite Es).
  split; rewrite ?Ho, ?Eo, ?Hb, ?Hwire, ?Hrec; try done.
  - rewrite Hout0, app_nil_r in st_bytes. rewrite st_bytes, Hout. unfold follows. simpl. by rewrite app_nil_r.
  - intros E. destruct (st_handshake E) as [? Hp]. split; [done|]. intros b _. by apply (Hp a).
  - intros b ->%Hnew _. split; [done|]. rewrite <- Hacked, Hack. unfold acked. rewrite Ew. lia.
  - intros b ->%Hnew Hr. destruct (Hrun Hr) as [? ->]. split; [done|]. unfold len64. simpl. lia.
  - by intros b ->%Hnew.
  - intros E. change (n_refused t') with (n_refused t). rewrite (Hcl E). done.
Qed.

Section Accepted.
Context (Hin : send_start t s <= peer <= b_end (c_sendBuffer c0)).
Let c := if send_start t s =? peer then c0 else with_send (advance (c_sendBuffer c0) (peer - send_start t s)) c0.
Let a' := set_reader RdAck (set_writer WrLoop (set_positions (at_localPosition a) peer a)).
Let t' := receive_net t s a c a' wire'.

Lemma accept_conn : c_localClosed c = c_localClosed c0 /\ c_receiveBuffer c = c_receiveBuffer c0 /\
  b_start (c_sendBuffer c) = peer /\ buffers_ok t' s.
Proof.
  destruct handshake_stream as (_ & _ & _ & _ & _ & _ & _ & Hp & _).
  assert (Hs : same_programs (read_net t s a c RdAck wire') t').
  { split; try done. intros x. unfold t', read_net, receive_net. net_simpl. unfold upd. by destruct (decide (x = s)). }
  enough (He : c_localClosed c = c_localClosed c0 /\ c_receiveBuffer c = c_receiveBuffer c0 /\
    b_start (c_sendBuffer c) = peer /\ buffers_ok (read_net t s a c RdAck wire') s).
  { split_and!; try apply He. apply (same_buffers _ _ _ Hs), He. }
  unfold c. clear Hs. destruct (Z.eqb_spec (send_start t s) peer) as [<-|Hne].
  - split_and!; try done. by apply same_read_buffers.
  - destruct (send_buffers t s a Hg (peer - send_start t s) RdAck wire') as [Hb Hs]; [lia|lia|]. split_and!; try done.
    unfold send_start in Hs at 1. rewrite read_net_conn in Hs. rewrite Hs. lia.
Qed.

Lemma accept_good : good t'.
Proof.
  destruct accept_conn as (Hcl & Hrc & Hst & Hb).
  destruct handshake_stream as (Hu & Hid & fs & closing & rest & Hstr & H0 & Hp & Hrest).
  assert (Hm : moved_in t t' s a a').
  { apply receive_net_moved; try done; rewrite Hrc; [done|by left]. }
  apply (moved_in_good t t' s a a' Hg Hm Hb).
  - pose proof (gd_attached t Hg s a Ha) as []. pose proof (bo_sent _ _ (gd_buffers t Hg s)) as Hsent.
    pose proof (vl_start _ (bo_receive _ _ (gd_buffers t Hg s))). specialize (ao_handshake Er).
    split; try done; unfold receive_end, send_start, t'; rewrite ?receive_net_conn.
    + unfold acked, sent_to. simpl. rewrite Hrc, Hst. unfold receive_end in *. split_and!; try done; lia.
    + by intros _.
  - eapply (moved_in_flow t s a Hg Ha c a' wire' RdHandshake peer [] fs closing rest [] fs []); try done.
    + apply (st_small _ _ _ _ _ _ _ _ _ Hstr).
    + rewrite Hrc. unfold len64, receive_end. simpl. lia.
    + simpl. by rewrite Hst.
    + intros _. unfold sent_to. simpl. lia.
  - apply (handshake_own c a' false); try done; [unfold acked; simpl; lia|by intros [E|E]|].
    intros _. split; [done|]. unfold sent_to. simpl. lia.
  - intros b Hb' _. destruct (st_handshake _ _ _ _ _ _ _ _ _ Hstr eq_refl) as [_ Hx].
    specialize (Hx b Hb'). unfold sent_to. simpl. lia.
Qed.
End Accepted.

(** A position out of range ends the connection. *)
Lemma refused_good (Href : n_refused t = true) : good (receive_net t s a (with_remoteClosed c0)
  (set_reader RdDone (set_writer (WrLast (AppendUvarint [] errorTag)) a)) wire').
Proof.
  set (a' := set_reader RdDone _). destruct handshake_stream as (Hu & Hid & _).
  assert (Hm : moved_in t (receive_net t s a (with_remoteClosed c0) a' wire') s a a').
  { apply receive_net_moved; try done. by left. }
  apply (moved_in_good t _ s a a' Hg Hm).
  - assert (Hs : same_programs (read_net t s a (with_remoteClosed c0) RdDone wire') (receive_net t s a (with_remoteClosed c0) a' wire')).
    { split; try done. intros x. unfold read_net, receive_net. net_simpl. unfold upd. by destruct (decide (x = s)). }
    apply (same_buffers _ _ _ Hs), closed_buffers; [done|]. congruence.
  - destruct (gd_attached t Hg s a Ha). split; try done. by intros _.
  - intros ph. rewrite other_other. unfold phase. rewrite (received_attached _ _ _ _ _ Hm), decide_True by done. done.
  - apply (handshake_own (with_remoteClosed c0) a' true); try done.
    + unfold acked. simpl. lia.
    + by intros [E|E].
  - intros b _ [].
Qed.
End Handshake.

(** ** Every step *)

(** The loop goes on without reading. *)
Lemma phase_only_good t s a ph r : good t -> cn_attached (n_end t s) = Some a -> to_come (at_reader a) = Some r ->
  match ph with RdDiscard _ => to_come ph = Some r | RdAck => r = 0 | _ => False end -> filling (conn_of t s) ph ->
  good (read_net t s a (conn_of t s) ph (n_wire t (at_id a) (other s))).
Proof.
  intros Hg Ha Er Hph Hfill. assert (Hr : 0 <= r).
  { pose proof (ao_fill _ _ _ (gd_attached t Hg s a Ha)) as Hf. destruct (at_reader a); simplify_eq/=; lia. }
  pose proof (chunk_good t s a Hg Ha r (c_receiveBuffer (conn_of t s)) ph 0 Er) as Hgood.
  replace (with_receive (c_receiveBuffer (conn_of t s)) (conn_of t s)) with (conn_of t s) in Hgood by (by destruct (conn_of t s)).
  apply Hgood; try done; [unfold len64; lia|unfold receive_end; lia| |by apply same_read_buffers].
  destruct ph; try done. by rewrite Z.sub_0_r.
Qed.

Lemma handshake_good t s a peer wire' : good t -> cn_attached (n_end t s) = Some a ->
  at_reader a = RdHandshake -> at_writer a = WrReady -> ReadUvarint (n_wire t (at_id a) (other s)) = UvValue peer wire' ->
  let '(c, a') := handshake peer a (conn_of t s) in
  good (refuse_if (refuses a (Some a')) (receive_net t s a c a' wire')).
Proof.
  intros Hg Ha Er Ew Ev. unfold handshake, refuses. rewrite Er. fold (send_start t s).
  destruct ((peer <? send_start t s) || (b_end (c_sendBuffer (conn_of t s)) <? peer)) eqn:Erange.
  - apply (refused_good (refuse_if true t) s a (refuse_good true t Hg) Ha Er Ew peer wire' Ev). simpl. by rewrite orb_true_r.
  - apply orb_false_iff in Erange as [H1%Z.ltb_ge H2%Z.ltb_ge]. rewrite refuse_if_false.
    by apply (accept_good t s a Hg Ha Er Ew peer wire' Ev).
Qed.

Lemma read_step_good t s a r wire : good t -> cn_attached (n_end t s) = Some a ->
  read_step (n_end t s) a (n_wire t (at_id a) (other s)) = Ok (Some (r, wire)) ->
  good (refuse_if (refuses a (cn_attached r)) (set_wire (at_id a) (other s) wire (set_end s r t))).
Proof.
  intros Hg Ha. unfold read_step. fold (conn_of t s). set (w := n_wire t (at_id a) (other s)).
  assert (Hdone : forall w', good (read_net t s a (conn_of t s) RdDone w')) by (intros; by apply stop_reading_good).
  pose proof (gd_attached t Hg s a Ha) as Hok.
  destruct (at_reader a) as [| | |remaining|remaining want|remaining|] eqn:Er;
    [|unfold refuses; rewrite Er, refuse_if_false..].
  - (* the handshake *)
    destruct (ReadUvarint w) as [peer w'| |] eqn:Ev; [|done|].
    + destruct (at_writer a) eqn:Ew; try done.
      * pose proof (handshake_good t s a peer w' Hg Ha Er Ew Ev) as Hh.
        destruct (handshake peer a (conn_of t s)) as [c a']. intros [= <- <-]. exact Hh.
      * intros [= <- <-]. unfold refuses. simpl. rewrite Er, Ew, refuse_if_false. apply Hdone.
    + intros [= <- <-]. unfold refuses. simpl. rewrite Er. pose proof (ao_writer _ _ _ Hok) as Hw.
      destruct (at_writer a); try (rewrite refuse_if_false; apply Hdone). congruence.
  - (* an acknowledgement *)
    destruct (ReadUvarint w) as [ack w'| |] eqn:Ev; [|done|intros [= <- <-]; apply Hdone].
    destruct (decide (ack = errorTag)) as [->|Hne].
    { simpl. intros [= <- <-]. by apply read_end_good. }
    destruct (read_ack_good t s a Hg Ha ack w' Er Ev Hne) as (-> & Hack & Hgood).
    destruct (Z.ltb_spec 0 ack); [|intros [= <- <-]; exact Hgood].
    destruct (Z.eqb_spec ack errorTag); [done|]. destruct (Z.ltb_spec (held (c_sendBuffer (conn_of t s))) ack); [lia|].
    intros [= <- <-]. exact Hgood.
  - (* the size of a frame *)
    destruct (ReadUvarint w) as [size w'| |] eqn:Ev; [|done|intros [= <- <-]; apply Hdone].
    destruct (maxFrameSize <? size); intros [= <- <-]; [apply Hdone|]. by apply read_size_good.
  - (* its data *)
    pose proof (ao_fill _ _ _ Hok) as Hfill. rewrite Er in Hfill. simpl in Hfill.
    destruct (Z.leb_spec remaining 0) as [Hz|Hpos].
    { intros [= <- <-]. apply (phase_only_good t s a RdAck remaining); try done; [by rewrite Er|lia]. }
    destruct (_ && _) eqn:Ewait; [done|]. destruct (at_stopRequested a) eqn:Estop; [intros [= <- <-]; apply Hdone|].
    destruct (c_localClosed (conn_of t s)) eqn:Hl.
    { intros [= <- <-]. apply (phase_only_good t s a (RdDiscard remaining) remaining); try done. by rewrite Er. }
    rewrite !andb_true_r in Ewait. apply Z.leb_gt in Ewait.
    destruct (reserve_good t s a Hg Ha remaining Er Hpos Ewait) as (v & f1 & f2 & Ev & Ef & Hgood).
    rewrite Ev. unfold rbind at 1. rewrite Ef. unfold rbind. intros [= <- <-]. exact Hgood.
  - destruct (Z.ltb_spec (len64 w) want) as [|Hlen]; [done|]. pose proof (ao_fill _ _ _ Hok) as Hfill. rewrite Er in Hfill.
    simpl in Hfill. destruct (fill_good t s a Hg Ha remaining want want Er) as (v & Ev & Hgood); [lia|done|].
    fold w in Ev. rewrite Ev. unfold rbind. intros [= <- <-]. apply Hgood. by right.
  - destruct (Z.ltb_spec (len64 w) remaining) as [|Hlen]; [done|]. intros [= <- <-].
    pose proof (ao_fill _ _ _ Hok) as Hfill. rewrite Er in Hfill. destruct Hfill.
    apply (discard_good t s a Hg Ha remaining remaining Er); [lia|done|]. by right.
  - done.
Qed.

(** What comes before the transport fails. *)
Lemma error_chunk k want (w : list byte) : 0 <= want -> exists n,
  take (Nat.min k (Z.to_nat (want - 1))) w = take (Z.to_nat n) w /\ 0 <= n <= want /\ n <= len64 w.
Proof.
  intros Hw. exists (Z.of_nat (Nat.min (Nat.min k (Z.to_nat (want - 1))) (length w))). set (m := Nat.min k _). rewrite Nat2Z.id.
  split; [|unfold len64; lia]. destruct (Nat.le_ge_cases m (length w)); [by rewrite Nat.min_l|by rewrite Nat.min_r, !take_ge].
Qed.

Lemma read_error_good t s a k r wire : good t -> cn_attached (n_end t s) = Some a ->
  read_error k (n_end t s) a (n_wire t (at_id a) (other s)) = Ok (r, wire) ->
  good (set_wire (at_id a) (other s) wire (set_end s r t)).
Proof.
  intros Hg Ha. unfold read_error. fold (conn_of t s). set (w := n_wire t (at_id a) (other s)).
  assert (Hdone : forall w', good (read_net t s a (conn_of t s) RdDone w')) by (intros; by apply stop_reading_good).
  pose proof (ao_fill _ _ _ (gd_attached t Hg s a Ha)) as Hfill.
  destruct (at_reader a) as [| | | |remaining want|remaining|] eqn:Er; try (intros [= <- <-]; apply Hdone); simpl in Hfill.
  - destruct (error_chunk k want w ltac:(lia)) as (n & -> & Hn1 & Hn2).
    assert (En : length (take (Z.to_nat n) w) = Z.to_nat n) by (unfold len64 in Hn2; rewrite length_take; lia). rewrite En.
    destruct (_ =? 0)%nat; [intros [= <- <-]; apply Hdone|].
    destruct (fill_good t s a Hg Ha remaining want n Er) as (v & Ev & Hgood); [done|done|].
    fold w in Ev. rewrite Ev. unfold rbind. intros [= <- <-]. apply Hgood. by left.
  - destruct Hfill as [Hrem _]. set (n := length (take _ w)). assert (Hn : Z.of_nat n <= len64 w /\ 0 <= Z.of_nat n <= remaining).
    { unfold n, len64. rewrite length_take. lia. }
    pose proof (discard_good t s a Hg Ha remaining (Z.of_nat n) Er) as Hgood. rewrite Nat2Z.id in Hgood.
    intros [= <- <-]. apply Hgood; [apply Hn|apply Hn|by left].
Qed.

(** Every step keeps the invariant. *)
Theorem step_good t t' : good t -> step t t' -> good t'.
Proof.
  intros Hg. destruct 1 as [s n b c p Hn Hsmall Hw|s size c p Hr|s|s r w|s r H0 E|s id r E|s id r Hid Hu H0 E|s r E
    |s a r wire Ha E|s a k r wire Ha Hnd E|s a p Ha E|s a n Ha Hn|s a Ha Hout].
  - pose proof (gd_buffers t Hg s) as Hb. assert (2 ^ 62 < 2 ^ 64) by done.
    pose proof (Write_spec n b _ c p (bo_send _ _ Hb) Hn) as Hwr. rewrite (bo_sent _ _ Hb) in Hwr.
    apply write_good; [done|apply Hwr; [unfold len64 in *; lia|done]|].
    assert (len64 (accepted b p n) <= len64 b).
    { unfold len64, accepted. destruct p as [? ?|[? ?]]; rewrite length_take; lia. }
    unfold len64 in *. lia.
  - apply read_good; [done|]. apply (Read_spec size _ c p); [apply (gd_buffers t Hg s)|done].
  - apply flags_good; [done|]. intros c. unfold Close. destruct (c_localClosed c) eqn:El; [|done]. simpl. rewrite El. done.
  - by apply flags_good.
  - unfold attach_first in E. destruct (cn_attached (n_end t s)) eqn:Hnone; [done|].
    destruct (_ || _); [done|]. injection E as <-. apply (attach_good t s 0); try done.
  - by apply (attach_wait_good t s id).
  - unfold attach_next in E. destruct (c_remoteClosed _); [done|].
    destruct (cn_attached (n_end t s)) eqn:Hnone; [done|]. injection E as <-. apply (attach_good t s id); try done.
    unfold begins, first_phase. by rewrite !decide_False.
  - by apply detach_good.
  - by apply read_step_good.
  - by apply (read_error_good t s a k).
  - by apply send_good.
  - by apply transmit_good.
  - by apply stop_good.
Qed.

Lemma net0_good : good net0.
Proof.
  split; try done.
  - intros s. split; try done; try apply empty_valid; by vm_compute.
  - intros s id ph. unfold phase, attached. simpl.
    assert (Hn : id ∉ ([] : list nat)) by apply not_elem_of_nil. destruct (decide (id ∈ [])) as [E|_]; [by destruct Hn|].
    by intros [= <-].
Qed.

Theorem reachable_good t : reachable t -> good t.
Proof. induction 1; [apply net0_good|by eapply step_good]. Qed.

(** ** What the programs see *)

(** [Read] returns the end of the stream with the buffer empty. *)
Lemma Read_end size c' c : valid (c_receiveBuffer c) ->
  Read size c = Ok (c', Return [] (Some EOF)) \/ (0 < size)%nat /\ Read_wake size c = Ok (c', Return [] (Some EOF)) ->
  c_localClosed c = false /\ c_remoteClosed c = true /\ content (c_receiveBuffer c) = [].
Proof.
  intros Hv HR. assert (Hround : Read_round size c = Ok (c', Return [] (Some EOF)) -> (0 < size)%nat ->
    c_remoteClosed c = true /\ content (c_receiveBuffer c) = []).
  { unfold Read_round. destruct (dl_timeout _); [done|].
    destruct (read_spec (c_receiveBuffer c) size Hv) as (w & -> & _). unfold rbind.
    destruct (Nat.ltb_spec 0 (length (take size (content (c_receiveBuffer c))))) as [|Hz]; [done|].
    destruct (c_remoteClosed _) eqn:Erc; [|done]. intros _ Hsize. split; [done|].
    rewrite length_take in Hz. apply length_zero_iff_nil. lia. }
  destruct HR as [E|[Hsize E]]; unfold Read, Read_wake in E; destruct (c_localClosed c); try done.
  - destruct (Nat.eqb_spec size 0); [done|]. split; [done|]. apply Hround; [done|lia].
  - split; [done|]. by apply Hround.
Qed.

(** Nothing the loops and the programs do panics. *)
Lemma read_step_ok t s a : good t -> cn_attached (n_end t s) = Some a ->
  exists x, read_step (n_end t s) a (n_wire t (at_id a) (other s)) = Ok x.
Proof.
  intros Hg Ha. unfold read_step. fold (conn_of t s). set (w := n_wire t (at_id a) (other s)).
  pose proof (ao_fill _ _ _ (gd_attached t Hg s a Ha)) as Hfill.
  destruct (at_reader a) as [| | |remaining|remaining want|remaining|] eqn:Er; try by eexists.
  - destruct (ReadUvarint w); [destruct (at_writer a); try by eexists|by eexists..].
    destruct (handshake _ _ _). by eexists.
  - destruct (ReadUvarint w) as [x rest| |]; [|by eexists..]. destruct (0 <? x); [|by eexists].
    destruct (x =? errorTag); [by eexists|]. destruct (_ <? x); by eexists.
  - destruct (ReadUvarint w); [|by eexists..]. destruct (_ <? _); by eexists.
  - destruct (Z.leb_spec remaining 0); [by eexists|]. destruct (_ && _) eqn:Ewait; [by eexists|].
    destruct (at_stopRequested a); [by eexists|]. destruct (c_localClosed (conn_of t s)); [by eexists|].
    rewrite !andb_true_r in Ewait. apply Z.leb_gt in Ewait.
    destruct (reserve_good t s a Hg Ha remaining Er) as (v & f1 & f2 & -> & Ef & _); [lia|done|].
    unfold rbind at 1. rewrite Ef. by eexists.
  - destruct (Z.ltb_spec (len64 w) want) as [|Hlen]; [by eexists|]. simpl in Hfill.
    destruct (fill_good t s a Hg Ha remaining want want Er) as (v & Ev & _); [lia|done|]. fold w in Ev. rewrite Ev. by eexists.
  - destruct (_ <? _); by eexists.
Qed.

Lemma read_error_ok t s a k : good t -> cn_attached (n_end t s) = Some a ->
  exists x, read_error k (n_end t s) a (n_wire t (at_id a) (other s)) = Ok x.
Proof.
  intros Hg Ha. unfold read_error. fold (conn_of t s). set (w := n_wire t (at_id a) (other s)).
  pose proof (ao_fill _ _ _ (gd_attached t Hg s a Ha)) as Hfill.
  destruct (at_reader a) as [| | | |remaining want| |] eqn:Er; try by eexists. simpl in Hfill.
  destruct (error_chunk k want w ltac:(lia)) as (n & -> & Hn1 & Hn2). destruct (_ =? 0)%nat; [by eexists|].
  destruct (fill_good t s a Hg Ha remaining want n Er) as (v & Ev & _); [done|done|]. fold w in Ev. rewrite Ev. by eexists.
Qed.

Lemma write_step_ok t s a : good t -> cn_attached (n_end t s) = Some a -> exists x, write_step (conn_of t s) a = Ok x.
Proof.
  intros Hg Ha. unfold write_step. destruct (at_writer a) as [[|]| | | |[|]|] eqn:Ew; try by eexists.
  destruct (next_frame_spec t s a Hg (gd_attached t Hg s a Ha) Ew) as (ack & data & -> & _). unfold rbind.
  destruct (_ || _); [by eexists|]. destruct (at_stopRequested a); [by eexists|].
  destruct (c_remoteClosed (conn_of t s)); [by eexists|]. destruct (c_localClosed (conn_of t s)); by eexists.
Qed.

Lemma Read_ok size c : valid (c_receiveBuffer c) -> (exists x, Read size c = Ok x) /\ exists x, Read_wake size c = Ok x.
Proof.
  intros Hv. assert (Hround : exists x, Read_round size c = Ok x).
  { unfold Read_round. destruct (dl_timeout _); [by eexists|].
    destruct (read_spec (c_receiveBuffer c) size Hv) as (w & -> & _). by eexists. }
  unfold Read, Read_wake. destruct (c_localClosed c), (size =? 0)%nat; split; first [exact Hround|by eexists].
Qed.

Lemma Write_ok n b c : valid (c_sendBuffer c) -> b_end (c_sendBuffer c) + len64 b < 2 ^ 64 ->
  (exists x, Write b c = Ok x) /\ (b <> [] -> exists x, Write_wake n b c = Ok x).
Proof.
  intros Hv Hend. assert (Hround : forall n, b <> [] -> exists x, Write_round n b c = Ok x).
  { intros m Hb. unfold Write_round.
    destruct (buffer_write_spec (c_sendBuffer c) b sendBufferSize Hv) as (w & s & -> & _); [by right|by vm_compute|done|].
    unfold rbind. destruct (0 <? s); by eexists. }
  unfold Write, Write_wake. destruct (c_localClosed c), (dl_timeout (c_writeDeadline c)), (c_remoteClosed c); split; try by eexists.
  - destruct (Nat.eqb_spec (length b) 0) as [|Hb]; [by eexists|]. apply Hround. by intros ->.
  - apply Hround.
Qed.

(** ** The resumption protocol does not get stuck

    While neither side lets go of the transport they share, data that was
    written and not received always has a next step: something to put on the
    transport, or something there to read. *)

#[local] Open Scope Z_scope.

(** The steps of the loops: no transport fails, and no program does anything. *)
Inductive moves (t : net) : net -> Prop :=
| moves_receive s a r wire : cn_attached (n_end t s) = Some a ->
    read_step (n_end t s) a (n_wire t (at_id a) (other s)) = Ok (Some (r, wire)) ->
    moves t (refuse_if (refuses a (cn_attached r)) (set_wire (at_id a) (other s) wire (set_end s r t)))
| moves_send s a p : cn_attached (n_end t s) = Some a -> write_step (conn_of t s) a = Ok (Some p) ->
    moves t (set_end s (with_attachment (set_writer p a) (n_end t s)) t)
| moves_transmit s a n : cn_attached (n_end t s) = Some a -> (0 < n <= length (outgoing a))%nat ->
    let '(a', b) := transmit n a in
    moves t (set_wire (at_id a) s (n_wire t (at_id a) s ++ b)%list (set_end s (with_attachment a' (n_end t s)) t)).

Lemma moves_step t t' : moves t t' -> step t t'.
Proof. destruct 1; [by apply step_receive|by apply step_send|by apply step_transmit]. Qed.

(** ** A frame that is being written has bytes left *)

Definition unfinished (a : attachment) : Prop :=
  match at_writer a with WrFrame [] _ _ => False | _ => True end.

Lemma read_step_writer r0 a wire0 r wire : unfinished a -> read_step r0 a wire0 = Ok (Some (r, wire)) ->
  exists a', cn_attached r = Some a' /\ unfinished a'.
Proof.
  intros Hu. unfold read_step.
  assert (Hgo : forall c p w, Ok (Some (mkConn' c (Some (set_reader p a)), w)) = Ok (Some (r, wire)) ->
    exists a', cn_attached r = Some a' /\ unfinished a') by (intros c p w [= <- _]; by eexists).
  destruct (at_reader a) as [| | |remaining|remaining want|remaining|]; try done.
  - destruct (ReadUvarint wire0) as [p w| |]; [|done|apply Hgo]. destruct (at_writer a) eqn:Ew; try done; [|apply Hgo].
    unfold handshake. destruct (_ || _); intros [= <- _]; by eexists.
  - destruct (ReadUvarint wire0) as [x w| |]; [|done|apply Hgo]. destruct (0 <? x); [|apply Hgo].
    destruct (x =? errorTag); [apply Hgo|]. destruct (_ <? x); apply Hgo.
  - destruct (ReadUvarint wire0) as [x w| |]; [|done|apply Hgo]. destruct (_ <? x); apply Hgo.
  - destruct (remaining <=? 0); [apply Hgo|]. destruct (_ && _); [done|]. destruct (at_stopRequested a); [apply Hgo|].
    destruct (c_localClosed _); [apply Hgo|]. destruct (reserve _ _) as [w|]; [|done]. unfold rbind at 1.
    destruct (free w); [|done]. apply Hgo.
  - destruct (_ <? want); [done|]. destruct (append _ _); [|done]. apply Hgo.
  - destruct (_ <? remaining); [done|]. apply Hgo.
Qed.

Definition all_unfinished (t : net) : Prop := forall s a, cn_attached (n_end t s) = Some a -> unfinished a.

(** A step changes the attachment of one side. *)
Lemma unfinished_upd t s r : all_unfinished t -> (forall a, cn_attached r = Some a -> unfinished a) ->
  forall x a, cn_attached (upd (n_end t) s r x) = Some a -> unfinished a.
Proof. intros Ht Hr x a. unfold upd. destruct (decide (x = s)); [apply Hr|apply Ht]. Qed.

Lemma step_unfinished t t' : all_unfinished t -> step t t' -> all_unfinished t'.
Proof.
  intros Ht. destruct 1 as [s n b c p Hn Hsmall Hw|s size c p Hr|s|s r w|s r H0 E|s id r E|s id r Hid Hu H0 E|s r E
    |s a r wire Ha E|s a k r wire Ha Hnd E|s a p Ha E|s a n Ha Hn|s a Ha Hout];
    intros x; (apply (unfinished_upd t s); [done|]); try (intros b'; simpl; apply Ht).
  - unfold attach_first in E. destruct (cn_attached (n_end t s)); [done|]. destruct (_ || _); [done|].
    injection E as <-. by intros b [= <-].
  - unfold attach_next in E. destruct (c_remoteClosed _); [done|].
    destruct (cn_attached (n_end t s)) as [a|] eqn:Ha; [|done]. injection E as <-. intros b [= <-]. by apply (Ht s a).
  - unfold attach_next in E. destruct (c_remoteClosed _); [done|].
    destruct (cn_attached (n_end t s)) as [a|] eqn:Ha; [done|]. injection E as <-. by intros b [= <-].
  - unfold detach in E. destruct (cn_attached (n_end t s)) as [a|]; [|done].
    destruct (at_reader a), (at_writer a); try done. injection E as <-. done.
  - destruct (read_step_writer _ _ _ _ _ (Ht s a Ha) E) as (a' & -> & Hu). by intros b [= <-].
  - unfold read_error in E. assert (Hu : forall p, unfinished (set_reader p a)) by (intros; apply (Ht s a Ha)).
    destruct (at_reader a); try (injection E as <- _; by intros b [= <-]).
    destruct (_ =? 0)%nat; [injection E as <- _; by intros b [= <-]|].
    destruct (append _ _); [|done]. injection E as <- _. by intros b [= <-].
  - unfold write_step in E. intros b [= <-]. destruct (at_writer a) as [[|]| | | |[|]|] eqn:Ew; simplify_eq; try done.
    + by destruct (at_reader a); simplify_eq.
    + destruct (next_frame _ _) as [[ack data]|]; [|done]. unfold rbind in E. destruct (_ || _).
      * injection E as <-. unfold unfinished. simpl. rewrite !AppendUvarint_uv. simpl.
        pose proof (uv_length ack). destruct (uv ack); [simpl in *; lia|done].
      * repeat (destruct (_ : bool) in E; simplify_eq; try done).
  - simpl. intros b [= <-]. pose proof (Ht s a Ha) as Hu. unfold unfinished in *. destruct (at_writer a) as [| | |out ack size| |] eqn:Ew; try done.
    + by rewrite Ew.
    + by rewrite Ew.
    + destruct (Nat.eqb_spec (length (drop n (outgoing a))) 0) as [|Hne]; simpl; [done|]. by destruct (drop n (outgoing a)).
    + by rewrite Ew.
  - by intros b [= <-].
Qed.

Lemma reachable_unfinished t : reachable t -> all_unfinished t.
Proof. induction 1; [done|by eapply step_unfinished]. Qed.

(** ** Something to do *)

Lemma decide_rdh ph : ph = RdHandshake \/ ph <> RdHandshake.
Proof. destruct ph; auto. Qed.

Definition alive (a : attachment) : Prop := at_reader a <> RdDone /\ at_writer a <> WrDone.

Section Progress.
Context (t : net) (s : side) (a b : attachment) (Hr : reachable t).
Context (Ha : cn_attached (n_end t s) = Some a) (Hb : cn_attached (n_end t (other s)) = Some b).
Context (Eid : at_id b = at_id a) (Hla : alive a) (Hlb : alive b).
Let Hg : good t := reachable_good t Hr.
#[local] Abbreviation wire := (n_wire t (at_id a) (other s)).

(** A write loop with bytes to put on the transport does that. *)
Lemma transmit_moves x c : cn_attached (n_end t x) = Some c -> outgoing c <> [] -> exists t', moves t t'.
Proof.
  intros Hc Hout. assert (Hn : (0 < 1 <= length (outgoing c))%nat) by (destruct (outgoing c); [done|simpl; lia]).
  pose proof (moves_transmit t x c 1 Hc Hn) as Hm. destruct (transmit 1 c). by eexists.
Qed.

Lemma receive_moves x c r w : cn_attached (n_end t x) = Some c ->
  read_step (n_end t x) c (n_wire t (at_id c) (other x)) = Ok (Some (r, w)) -> exists t', moves t t'.
Proof. intros Hc E. eexists. by eapply moves_receive. Qed.

Lemma write_moves x c p : cn_attached (n_end t x) = Some c -> write_step (conn_of t x) c = Ok (Some p) -> exists t', moves t t'.
Proof. intros Hc E. eexists. by eapply moves_send. Qed.

(** What the other side wrote, when it has nothing more on its way. *)
Lemma wire_of x c d : cn_attached (n_end t x) = Some c -> cn_attached (n_end t (other x)) = Some d -> at_id d = at_id c ->
  at_reader c <> RdDone -> at_writer d <> WrDone -> outgoing d = [] ->
  exists p d0 fs closing, stream t (other x) (at_id c) (at_reader c) p d0 fs closing [] /\
    n_wire t (at_id c) (other x) = follows (at_reader c) p d0 fs closing.
Proof.
  intros Hc Hd Ei Hn Hw Hout. pose proof (gd_flow t Hg (other x) (at_id c)) as Hf. unfold flow in Hf. rewrite other_other in Hf.
  assert (Hph : phase t x (at_id c) = Some (at_reader c)).
  { unfold phase. rewrite (attached_at _ _ _ Hc). by destruct (at_reader c). }
  specialize (Hf _ Hph). rewrite decide_True in Hf by (rewrite <- Ei; apply (gd_attached t Hg _ d Hd)).
  destruct Hf as (p & d0 & fs & closing & rest & Hst).
  exists p, d0, fs, closing. destruct (st_alive _ _ _ _ _ _ _ _ _ Hst d) as [Erest _]; [rewrite <- Ei; by apply attached_at|done|].
  rewrite Hout in Erest. subst rest. split; [done|]. pose proof (st_bytes _ _ _ _ _ _ _ _ _ Hst) as Hbytes.
  by rewrite app_nil_r in Hbytes.
Qed.

(** A handshake is read once it is written. *)
Lemma handshake_moves x c d : cn_attached (n_end t x) = Some c -> cn_attached (n_end t (other x)) = Some d ->
  at_id d = at_id c -> at_reader c = RdHandshake -> at_writer c <> WrDone -> outgoing d = [] -> at_writer d <> WrDone ->
  exists t', moves t t'.
Proof.
  intros Hc Hd Ei Er Hw Hout Hwd. destruct (wire_of x c d Hc Hd Ei) as (p & d0 & fs & closing & Hst & Ew); [congruence|done|done|].
  rewrite Er in Hst, Ew. pose proof (ao_writer _ _ _ (gd_attached t Hg x c Hc)) as Hcw.
  destruct (st_small _ _ _ _ _ _ _ _ _ Hst) as (_ & _ & Hp).
  destruct (at_writer c) as [out| | | | |] eqn:Ecw; try done; try (destruct Hcw; congruence).
  - destruct out as [|y out]; [|apply (transmit_moves x c Hc); unfold outgoing; by rewrite Ecw].
    apply (write_moves x c WrReady Hc). unfold write_step. by rewrite Ecw.
  - assert (Ev : ReadUvarint (n_wire t (at_id c) (other x)) = UvValue p (frames_bytes fs ++ ending closing)).
    { rewrite Ew. unfold follows. apply ReadUvarint_uv. lia. }
    destruct (handshake p c (conn_of t x)) as [c' a'] eqn:Eh.
    eapply (receive_moves x c _ _ Hc). unfold read_step. rewrite Er, Ev, Ecw. fold (conn_of t x). by rewrite Eh.
Qed.

(** A read loop with all of the next frame to come goes on, if there is room. *)
Lemma read_moves p d0 fs closing : stream t (other s) (at_id a) (at_reader a) p d0 fs closing [] ->
  wire = follows (at_reader a) p d0 fs closing -> at_reader a <> RdHandshake ->
  (d0 ++ frames_data fs)%list <> [] -> blen (c_receiveBuffer (conn_of t s)) < receiveBufferSize -> exists t', moves t t'.
Proof.
  intros Hst Ew Hnh Hne Hroom. destruct Hla as [Hnd _]. destruct (read_step_ok t s a Hg Ha) as [x Ex].
  enough (Hx : exists y, x = Some y) by (destruct Hx as [[r w] ->]; by apply (receive_moves s a r w Ha)).
  destruct (st_small _ _ _ _ _ _ _ _ _ Hst) as (Hf & Hd & _). pose proof (st_shape _ _ _ _ _ _ _ _ _ Hst) as Hs.
  unfold read_step in Ex. fold (conn_of t s) in Ex. unfold follows in Ew.
  destruct (at_reader a) as [| | |r|r want|r|] eqn:Er; try done; simpl in Hs.
  - subst d0. destruct fs as [|[ack data] fs]; [done|]. apply Forall_cons in Hf as [[Hack _] _].
    change (frames_bytes ((ack, data) :: fs)) with (enc_frame (ack, data) ++ frames_bytes fs)%list in Ew.
    unfold enc_frame in Ew. simpl in Ew, Hack. rewrite <- !app_assoc in Ew. rewrite Ew, ReadUvarint_uv in Ex by lia.
    destruct (0 <? ack); [|injection Ex as <-; by eexists]. destruct (ack =? errorTag); [injection Ex as <-; by eexists|].
    destruct (_ <? ack); injection Ex as <-; by eexists.
  - rewrite <- !app_assoc in Ew. rewrite Ew, ReadUvarint_uv in Ex by (by apply len64_small).
    destruct (_ <? len64 d0); injection Ex as <-; by eexists.
  - destruct (r <=? 0); [injection Ex as <-; by eexists|]. destruct (Z.leb_spec receiveBufferSize (blen (c_receiveBuffer (conn_of t s)))); [lia|].
    simpl in Ex. destruct (at_stopRequested a); [injection Ex as <-; by eexists|].
    destruct (c_localClosed (conn_of t s)); [injection Ex as <-; by eexists|].
    destruct (reserve _ _) as [v|]; [|done]. unfold rbind at 1 in Ex. destruct (free v); [|done]. injection Ex as <-. by eexists.
  - pose proof (ao_fill _ _ _ (gd_attached t Hg s a Ha)) as Hfill. rewrite Er in Hfill. simpl in Hfill.
    destruct (Z.ltb_spec (len64 wire) want) as [Hlt|_].
    { exfalso. rewrite Ew in Hlt. unfold len64 in *. rewrite length_app in Hlt. lia. }
    destruct (append _ _); [|done]. injection Ex as <-. by eexists.
  - destruct (Z.ltb_spec (len64 wire) r) as [Hlt|_]; [|injection Ex as <-; by eexists].
    exfalso. rewrite Ew in Hlt. unfold len64 in *. rewrite length_app in Hlt. lia.
Qed.

(** Data under way has a next step. *)
Lemma data_moves : receive_end t s < len64 (n_sent t (other s)) ->
  blen (c_receiveBuffer (conn_of t s)) < receiveBufferSize -> exists t', moves t t'.
Proof.
  intros Hdata Hroom. destruct Hla as [Hra Hwa], Hlb as [Hrb Hwb]. pose proof (gd_attached t Hg _ b Hb) as Hok.
  destruct (decide (outgoing b = [])) as [Hout|Hout]; [|by apply (transmit_moves _ b Hb)].
  pose proof (ao_writer _ _ _ Hok) as Hw. destruct (at_writer b) as [out| | |out k z|out|] eqn:Ewb; try done.
  - apply (write_moves _ b WrReady Hb). unfold write_step, outgoing in *. rewrite Ewb in *. by subst out.
  - destruct Hw as [Hh|]; [|done].
    destruct (decide (outgoing a = [])) as [Ho|Ho]; [|by apply (transmit_moves _ a Ha)].
    apply (handshake_moves (other s) b a); rewrite ?other_other; try done. congruence.
  - destruct (next_frame_spec t (other s) b Hg Hok Ewb) as (ack & data & En & _ & _ & _ & _ & Hlast).
    destruct (decide (data = [])) as [->|Hd].
    + destruct (wire_of s a b Ha Hb Eid Hra) as (p & d0 & fs & closing & Hst & Ew); [by rewrite Ewb|done|].
      destruct (decide_rdh (at_reader a)) as [Erh|Hnh].
      { apply (handshake_moves s a b); try done. by rewrite Ewb. }
      apply (read_moves p d0 fs closing); try done. intros E0.
      assert (Hrun : running b) by (unfold running; by rewrite Ewb).
      destruct (st_running _ _ _ _ _ _ _ _ _ Hst b) as [_ Hpos]; [rewrite <- Eid; by apply attached_at|done|].
      rewrite other_other, E0 in Hpos. unfold sent_to in Hpos. rewrite Ewb in Hpos. unfold len64 at 1 in Hpos. simpl in Hpos.
      specialize (Hlast eq_refl). lia.
    + eapply (write_moves _ b _ Hb). unfold write_step. rewrite Ewb, En. unfold rbind.
      assert (El : (0 <? length data)%nat = true) by (apply Nat.ltb_lt; destruct data; [done|simpl; lia]).
      by rewrite El, orb_true_r.
  - unfold outgoing in Hout. rewrite Ewb in Hout. subst out. pose proof (reachable_unfinished t Hr _ b Hb) as Hu.
    unfold unfinished in Hu. by rewrite Ewb in Hu.
  - apply (write_moves _ b WrDone Hb). unfold write_step, outgoing in *. rewrite Ewb in *. by subst out.
Qed.
End Progress.
