(* ===== verification/State.v ===== *)
(** * Single-use state: [lib/googleoidc/state.go]

    The marker a callback writes when it spends a state token, and the nonce
    that belongs to the token. *)

From S2P Require Import Prelude GoStrings Types Sha256 Key Backend.
From Stdlib Require Import Ascii.

Definition forkKeyspace : string := "fork_google_oidc".

Definition ErrStateAlreadyUsed : error := AccessDenied "OIDC callback state was already used" [].

(** [errors.Is(err, ErrStateAlreadyUsed)]: [trace.AccessDeniedError] compares
    by message. *)
Definition isStateAlreadyUsed (e : error) : bool :=
  bool_decide (e_class e = e_class ErrStateAlreadyUsed)
  && bool_decide (e_fmt e = e_fmt ErrStateAlreadyUsed)
  && bool_decide (e_args e = e_args ErrStateAlreadyUsed).

(** The store itself: whether a backend and a clock are given, and the TTL. *)
Record StateStore := {
  ss_ttl : duration;
}.

Definition NewStateStore (bk_present : bool) (ttl : duration) : result StateStore :=
  fail_if negb bk_present with BadParameter "missing backend" [];
  fail_if ttl <=? 0 with BadParameter "state marker TTL must be positive" [];
  Ok {| ss_ttl := ttl |}.

Definition stateKey (kind stateToken : string) : Key :=
  NewKey [forkKeyspace; kind; sha256_hex stateToken].

Section State.
Context {W : Type} `{Clock W} `{Backend W}.

Definition stateItem (s : StateStore) (kind stateToken value : string) (now : time) : Item :=
  {| i_Key := stateKey kind stateToken; i_Value := value; i_Expires := Some (now + ss_ttl s);
     i_Revision := "" |}.

Definition PutNonce (s : StateStore) (stateToken nonce : string) : M W unit :=
  deny_if bool_decide (stateToken = "") || bool_decide (nonce = "")
    with BadParameter "missing OIDC state token or nonce" [];
  let* now := mget Now in
  do* bk_Create (stateItem s "nonce" stateToken nonce now);
  mret tt.

Definition Nonce (s : StateStore) (stateToken : string) : M W string :=
  deny_if bool_decide (stateToken = "") with BadParameter "missing OIDC state token" [];
  let* item := bk_Get (stateKey "nonce" stateToken) in
  deny_if len (i_Value item) =? 0
    with NotFound "OIDC nonce is not stored for this state token" [];
  mret (i_Value item).

Definition Claim (s : StateStore) (stateToken : string) : M W unit :=
  deny_if bool_decide (stateToken = "") with BadParameter "missing OIDC state token" [];
  let* now := mget Now in
  let* created := mtry (bk_Create (stateItem s "used" stateToken "used" now)) in
  match created with
  | Ok _ => mret tt
  | Err e => mfail (if IsAlreadyExists e then ErrStateAlreadyUsed else e)
  end.
End State.

#[global] Arguments stateKey : simpl never.

(** ** Properties *)

Definition used_key (t : string) : string := k_s (stateKey "used" t).
Definition nonce_key (t : string) : string := k_s (stateKey "nonce" t).

Lemma hex_plain s : plain (sha256_hex s).
Proof. apply sha256_hex_no. compute. set_solver. Qed.

Lemma state_components_plain kind t :
  plain kind -> Forall plain [forkKeyspace; kind; sha256_hex t].
Proof.
  intros Hk. repeat constructor; [compute; set_solver|done|apply hex_plain].
Qed.

(** One marker key never is another's: a key gives back its kind and digest. *)
Lemma stateKey_inj kind kind' t t' :
  plain kind -> plain kind' -> k_s (stateKey kind t) = k_s (stateKey kind' t') ->
  kind = kind' /\ sha256_hex t = sha256_hex t'.
Proof.
  unfold stateKey. intros Hk Hk' E.
  apply NewKey_inj in E; [naive_solver|by apply state_components_plain..|done|done].
Qed.

Lemma used_nonce_ne t t' : used_key t <> nonce_key t'.
Proof.
  intros E. apply stateKey_inj in E as [E _]; [done|compute; set_solver..].
Qed.

Section Properties.
Context {W : Type} `{BackendSpec W}.

Definition token_keys (t k : string) : Prop := k = used_key t \/ k = nonce_key t.

Lemma Claim_ok s t w w' :
  Claim s t w = (w', Ok tt) ->
  t <> "" /\ live w (used_key t) = None /\ Now w <= Now w' /\
  (Now w' < Now w + ss_ttl s -> exists i, live w' (used_key t) = Some i /\
    i_Expires i = Some (Now w + ss_ttl s)).
Proof.
  unfold Claim. case_bool_decide; [done|]. unfold mthen, mget, mtry, mret, mfail.
  destruct (bk_Create _ w) as [w1 [r1|e1]] eqn:Ec; [|done]. intros [= <-].
  pose proof (create_ok _ _ _ _ Ec) as [Hn Hl]. pose proof (create_frame _ _ _ _ Ec) as [[Ht _] _].
  split; [done|]. split; [done|]. split; [done|]. intros Hlt.
  destruct Hl as (i & Hi & _ & He); [done|]. eauto.
Qed.

(** A spent token stays spent: while the marker lives, no claim succeeds. *)
Lemma Claim_twice s t w1 w2 w3 w4 :
  Claim s t w1 = (w2, Ok tt) -> kept (fun k => k = used_key t) w2 w3 ->
  Now w3 < Now w1 + ss_ttl s -> Claim s t w3 <> (w4, Ok tt).
Proof.
  intros Hc1 [Ht Hk] Hlt Hc2. apply Claim_ok in Hc1 as (_ & _ & Hle & Hl).
  apply Claim_ok in Hc2 as (_ & Hn & _). destruct Hl as (i & Hi & He); [lia|].
  destruct (Hk _ i eq_refl) as [Hk' _]. rewrite Hk' in Hn; [done..|].
  unfold unexpired. rewrite He. lia.
Qed.

(** The error of a claim says "already used" exactly for a live marker. *)
Lemma Claim_replayed s t w w' e :
  Claim s t w = (w', Err e) -> isStateAlreadyUsed e = true ->
  (exists i, live w (used_key t) = Some i) \/
  bk_Create (stateItem s "used" t "used" (Now w)) w = (w', Err e).
Proof.
  unfold Claim. case_bool_decide; [by intros [= <- <-]|].
  unfold mthen, mget, mtry, mret, mfail.
  destruct (bk_Create _ w) as [w1 [r|e1]] eqn:Ec; [done|].
  intros [= <- <-] Hu. destruct (IsAlreadyExists e1) eqn:Ea; [|by right].
  left. apply create_exists in Ec as [i Hi]; eauto.
Qed.

Lemma Claim_step s t : step_in grown (Claim s t).
Proof.
  unfold Claim. step_in_auto.
  intros w w' r E. by apply create_frame in E as [? _].
Qed.

(** A stored nonce is what the callback reads. *)
Lemma PutNonce_Nonce s t n w1 w2 w3 w4 r :
  PutNonce s t n w1 = (w2, Ok tt) -> kept (fun k => k = nonce_key t) w2 w3 ->
  Now w3 < Now w1 + ss_ttl s -> Nonce s t w3 = (w4, Ok r) -> r = n.
Proof.
  unfold PutNonce, Nonce. intros E1 [Ht Hk] Hlt E2. inv_mok. bool_to_prop.
  match goal with E : bk_Create _ _ = _ |- _ => apply create_ok in E as [_ Hl] end.
  match goal with E : bk_Get _ _ = _ |- _ => apply get_ok in E as Hg end.
  destruct Hl as (i & Hi & Hv & He); [unfold unexpired; simpl; lia|].
  destruct (Hk _ i eq_refl) as [Hk' _]. specialize (Hk' Hi).
  assert (live w3 (k_s (stateKey "nonce" t)) = Some i) as Hl by (apply Hk'; unfold unexpired; by rewrite He).
  rewrite Hl in Hg. by simplify_eq.
Qed.
End Properties.
