(* ===== verification/Scopes.v ===== *)
(** * Scopes: [lib/scopes/scopes.go]

    A scope is a path of segments.  Policies are placed by the scope they come
    from and the scope they take effect in; the comparison of scopes, the
    globs over them and the order in which policies are evaluated decide who
    may do what. *)

From Stdlib Require Import Ascii.
From S2P Require Import Prelude GoStrings Utf8 Types Key.

Definition separator : string := "/".
Definition exclusiveChildGlobSegment : string := "**".
Definition exclusiveChildGlobSuffix : string := "/**".
Definition maxScopeSize : Z := 64.
Definition maxSegmentSize : Z := 36.
Definition minSegmentSize : Z := 2.
Definition breakingChars : string := "\@(){}" +:+ String "034" "'%*?#$!+=|<>,;~`&[]/".
Definition Root : string := separator.

(** ** Segments *)

Definition trimForSplit (scope : string) : string := TrimSuffix (TrimPrefix scope separator) separator.

Definition DescendingSegments (scope : string) : list string :=
  if bool_decide (scope = "") || bool_decide (scope = separator) then []
  else Split (trimForSplit scope) "/"%char.

(** [scopes.Split] *)
Definition SplitScope (scope : string) : list string :=
  if bool_decide (scope = "") || bool_decide (scope = separator) then []
  else Split (trimForSplit scope) "/"%char.

Definition Depth (scope : string) : Z :=
  if bool_decide (scope = "") || bool_decide (scope = separator) then 0
  else
    let trimmed := trimForSplit scope in
    if bool_decide (trimmed = "") then 0 else Count trimmed "/"%char + 1.

(** [scopes.Join] *)
Definition JoinScope (segments : list string) : string :=
  let scope := separator +:+ Join segments separator in
  match last segments with
  | Some s => if bool_decide (s = "") then scope +:+ separator else scope
  | None => scope
  end.

Definition NormalizeForEquality (scope : string) : string :=
  if bool_decide (scope = "") then "" else JoinScope (DescendingSegments scope).

(** The loop appends one segment after the other and yields each join. *)
Fixpoint descending_loop (segments rest : list string) : list string :=
  match rest with
  | [] => []
  | segment :: rest' =>
      let segments := (segments ++ [segment])%list in
      JoinScope segments :: descending_loop segments rest'
  end.

Definition DescendingScopes (scope : string) : list string :=
  if bool_decide (scope = "") then []
  else separator :: descending_loop [] (DescendingSegments scope).

(** [for i := len(segments); i >= 0; i--] *)
Fixpoint ascending_loop (segments : list string) (i : nat) : list string :=
  JoinScope (take i segments) ::
  match i with O => [] | S i' => ascending_loop segments i' end.

Definition AscendingScopes (scope : string) : list string :=
  if bool_decide (scope = "") then []
  else let segments := DescendingSegments scope in ascending_loop segments (length segments).

(** ** Validation *)

Definition isNonSpacePrintableASCII (b : byte) : bool := negb ((code b <? 33) || (126 <? code b)).

Definition WeakValidateSegment (segment : string) : result unit :=
  fail_if bool_decide (segment = "") with BadParameter "segment is empty" [];
  fail_if existsb (fun b => negb (isNonSpacePrintableASCII b)) (bytes_of segment)
    with BadParameter "segment %q contains invalid character" [segment];
  fail_if ContainsAny segment breakingChars
    with BadParameter "segment %q contains invalid character" [segment];
  Ok tt.

Fixpoint segments_check (check_one : string -> result unit) (fmt scope : string) (segments : list string)
    : result unit :=
  match segments with
  | [] => Ok tt
  | segment :: rest =>
      check (rmap_err (fun e => BadParameter fmt [scope; e_fmt e]) (check_one segment));
      segments_check check_one fmt scope rest
  end.

Definition WeakValidate (scope : string) : result unit :=
  fail_if bool_decide (scope = "") with BadParameter "scope is empty" [];
  segments_check WeakValidateSegment "scope %q is invalid: %v" scope (DescendingSegments scope).

(** [a-z0-9], and the same with the three punctuation characters *)
Definition alnum (b : byte) : bool := between 97 122 (code b) || between 48 57 (code b).
Definition segmentByte (b : byte) : bool :=
  alnum b || (code b =? 45) || (code b =? 95) || (code b =? 46).

(** What follows the first character: any segment characters and one
    alphanumeric. *)
Definition segmentTail (rest : list byte) : bool :=
  match last rest with
  | Some b => alnum b && forallb segmentByte (removelast rest)
  | None => false
  end.

Definition segmentRegexp (s : string) : bool :=
  match bytes_of s with [] => false | a :: rest => alnum a && segmentTail rest end.

Definition nameRegexp (s : string) : bool :=
  match bytes_of s with
  | [] => false
  | a :: rest => alnum a && (bool_decide (rest = []) || segmentTail rest)
  end.

Section Validate.
Context `{UnicodeTables}.

Definition strongValidateFormat (noun value : string) (shape : string -> bool) : result unit :=
  fail_if existsb rune_IsUpper (runes value)
    with BadParameter "%s %q contains uppercase character(s)" [noun; value];
  fail_if negb (shape value) with BadParameter "%s %q is malformed" [noun; value];
  rmap_err (fun e => BadParameter "%s would not pass weak validation: %v" [noun; e_fmt e])
    (WeakValidateSegment value).

Definition StrongValidateSegment (segment : string) : result unit :=
  fail_if bool_decide (segment = "") with BadParameter "segment is empty" [];
  fail_if len segment <? minSegmentSize
    with BadParameter "segment %q is too short (min characters %d)" [segment];
  check (strongValidateFormat "segment" segment segmentRegexp);
  fail_if maxSegmentSize <? len segment
    with BadParameter "segment %q is too long (max characters %d)" [segment];
  Ok tt.

Definition StrongValidateResourceName (name : string) : result unit :=
  fail_if bool_decide (name = "") with BadParameter "name is empty" [];
  strongValidateFormat "name" name nameRegexp.

Definition StrongValidate (scope : string) : result unit :=
  fail_if bool_decide (scope = "") with BadParameter "scope is empty" [];
  fail_if negb (HasPrefix scope separator)
    with BadParameter "scope %q is missing required prefix %q" [scope; separator];
  fail_if negb (bool_decide (scope = separator)) && HasSuffix scope separator
    with BadParameter "scope %q has dangling separator %q" [scope; separator];
  check (segments_check StrongValidateSegment "scope %q is invalid: %v" scope (DescendingSegments scope));
  fail_if maxScopeSize <? len scope
    with BadParameter "scope %q is too long (max characters %d)" [scope];
  rmap_err (fun e => BadParameter "scope would not pass weak validation: %v" [e_fmt e])
    (WeakValidate scope).

Definition WeakValidateGlob (scope : string) : result unit :=
  fail_if bool_decide (scope = "") with BadParameter "scope glob is empty" [];
  segments_check (fun segment =>
      if bool_decide (segment = exclusiveChildGlobSegment) then Ok tt else WeakValidateSegment segment)
    "scope glob %q is invalid: %v" scope (DescendingSegments scope).

Definition StrongValidateGlob (scope : string) : result unit :=
  fail_if bool_decide (scope = "") with BadParameter "scope glob is empty" [];
  if bool_decide (scope = exclusiveChildGlobSuffix) then Ok tt
  else
    check (rmap_err (fun e => BadParameter "scope glob %q is invalid: %v" [scope; e_fmt e])
             (StrongValidate (TrimSuffix scope exclusiveChildGlobSuffix)));
    rmap_err (fun e => BadParameter "scope glob would not pass weak validation: %v" [e_fmt e])
      (WeakValidateGlob scope).
End Validate.

(** ** Comparison *)

Inductive Relationship := Orthogonal | Equivalent | Ancestor | Descendant.

#[export] Instance Relationship_eq_dec : EqDecision Relationship.
Proof. solve_decision. Defined.

Fixpoint compare_loop (l r : list string) : Relationship :=
  match l, r with
  | lVal :: l', rVal :: r' => if bool_decide (lVal = rVal) then compare_loop l' r' else Orthogonal
  | _ :: _, [] => Ancestor
  | [], _ :: _ => Descendant
  | [], [] => Equivalent
  end.

Definition Compare (lhs rhs : string) : Relationship :=
  if bool_decide (lhs = "") || bool_decide (rhs = "") then Orthogonal
  else compare_loop (DescendingSegments lhs) (DescendingSegments rhs).

(** The sign of the result, for the integer the code returns. *)
Fixpoint sort_loop (l r : list string) : comparison :=
  match l, r with
  | lVal :: l', rVal :: r' =>
      match str_compare lVal rVal with Eq => sort_loop l' r' | c => c end
  | _ :: _, [] => Gt
  | [], _ :: _ => Lt
  | [], [] => Eq
  end.

Definition Sort (lhs rhs : string) : comparison :=
  if bool_decide (lhs = rhs) then Eq
  else sort_loop (DescendingSegments lhs) (DescendingSegments rhs).

Definition is_rel (rel : Relationship) (rels : list Relationship) : bool := slices_Contains rels rel.

Definition IsAssignableToScopeOfEffect (s scope : string) : bool :=
  is_rel (Compare s scope) [Equivalent; Descendant].
Definition IsAssignableFromScopeOfOrigin (s scope : string) : bool :=
  is_rel (Compare s scope) [Equivalent; Ancestor].
Definition AppliesToResourceScope (s scope : string) : bool :=
  is_rel (Compare s scope) [Equivalent; Descendant].
Definition IsSubjectToScopeOfEffect (s scope : string) : bool :=
  is_rel (Compare s scope) [Equivalent; Ancestor].
Definition CanDependOnStateFromPolicyResourceAtScope (s scope : string) : bool :=
  is_rel (Compare s scope) [Equivalent; Ancestor].

(** ** Globs *)

Fixpoint match_loop (g s : list string) : bool :=
  match g, s with
  | gVal :: g', sVal :: s' =>
      if bool_decide (gVal = sVal) then match_loop g' s'
      else if bool_decide (gVal = exclusiveChildGlobSegment) then match_loop g' s'
      else false
  | _ :: _, [] => false
  | [], _ :: _ => true
  | [], [] => true
  end.

Definition matchGlob (glob scope : string) : bool :=
  if bool_decide (glob = "") || bool_decide (scope = "") then false
  else match_loop (DescendingSegments glob) (DescendingSegments scope).

Fixpoint subjects_loop (g s : list string) : bool :=
  match g, s with
  | gVal :: g', sVal :: s' => if bool_decide (gVal = sVal) then subjects_loop g' s' else false
  | _ :: _, [] => true
  | [], _ :: _ => false
  | [], [] => true
  end.

Definition globOnlyMatchesSubjectsOfScope (glob scope : string) : bool :=
  if bool_decide (glob = "") || bool_decide (scope = "") then false
  else subjects_loop (DescendingSegments glob) (DescendingSegments scope).

Definition MatchesScopeLiteral (s scope : string) : bool := matchGlob s scope.
Definition OnlyMatchesSubjectsOf (s scope : string) : bool := globOnlyMatchesSubjectsOfScope s scope.
Definition MatchesScopeOfEffectLiteral (s scope : string) : bool := MatchesScopeLiteral s scope.
Definition IsAlwaysAssignableFromScopeOfOrigin (s scope : string) : bool := OnlyMatchesSubjectsOf s scope.

(** ** Enforcement points *)

Record EnforcementPoint := {
  ep_ScopeOfOrigin : string;
  ep_ScopeOfEffect : string;
}.

(** The inner loop, which stops at the first effect that is too ancestral. *)
Fixpoint effects_loop (scopeOfOrigin : string) (effects : list string) : list EnforcementPoint :=
  match effects with
  | [] => []
  | scopeOfEffect :: rest =>
      if negb (IsAssignableToScopeOfEffect scopeOfOrigin scopeOfEffect) then []
      else {| ep_ScopeOfOrigin := scopeOfOrigin; ep_ScopeOfEffect := scopeOfEffect |}
           :: effects_loop scopeOfOrigin rest
  end.

Definition EnforcementPointsForResourceScope (resourceScope : string) : list EnforcementPoint :=
  mbind (fun scopeOfOrigin => effects_loop scopeOfOrigin (AscendingScopes resourceScope))
    (DescendingScopes resourceScope).

(** ** Properties *)

(** *** Splitting and joining *)

Definition segs_ok (l : list string) : Prop := Forall plain l.

Lemma last_nonempty_no_suffix l s :
  segs_ok l -> last l = Some s -> s <> "" -> HasSuffix (Join l separator) separator = false.
Proof.
  intros Hl Hs Hne. destruct (HasSuffix _ _) eqn:E; [exfalso|done].
  apply HasSuffix_true in E as [r E].
  assert (Hnil : l <> []) by (by intros ->).
  pose proof (Split_Join_plain l Hnil Hl) as Hsp. change SeparatorString with separator in Hsp.
  rewrite E in Hsp.
  assert (Hr : Split (r +:+ separator) Separator = (Split r Separator ++ [""])%list).
  { clear. induction r as [|a r IH]; [done|]. rewrite str_app_cons. simpl. rewrite IH.
    destruct (Ascii.eqb a Separator); [done|].
    pose proof (Split_nonnil r Separator). by destruct (Split r Separator). }
  rewrite Hr in Hsp. rewrite <- Hsp, last_snoc in Hs. congruence.
Qed.

Lemma DescendingSegments_JoinScope l : segs_ok l -> DescendingSegments (JoinScope l) = l.
Proof.
  intros Hl. destruct (last l) as [s|] eqn:El; [|by apply last_None in El; subst].
  assert (Hnil : l <> []) by (by intros ->).
  unfold DescendingSegments, JoinScope. rewrite El.
  destruct (decide (s = "")) as [Hs|Hs]; [rewrite (bool_decide_true _ Hs)|rewrite (bool_decide_false _ Hs)].
  - rewrite (bool_decide_false (_ = "")) by discriminate. rewrite bool_decide_false.
    + simpl orb. unfold trimForSplit. rewrite str_app_assoc, TrimPrefix_app, TrimSuffix_app.
      by apply Split_Join_plain.
    + intros E. change separator with (separator +:+ "") in E at 4.
      rewrite str_app_assoc in E. apply (inj (String.append separator)) in E.
      by destruct (Join l separator).
  - pose proof (last_nonempty_no_suffix l s Hl El Hs) as Hsuf.
    rewrite (bool_decide_false (_ = "")) by discriminate. rewrite bool_decide_false.
    + simpl orb. unfold trimForSplit. rewrite TrimPrefix_app. unfold TrimSuffix.
      unfold HasSuffix in Hsuf. destruct (CutSuffix _ _); [done|]. simpl. by apply Split_Join_plain.
    + intros E. change separator with (separator +:+ "") in E at 3.
      apply (inj (String.append separator)) in E.
      assert (Hj : Split (Join l separator) Separator = [""]) by by rewrite E.
      change separator with SeparatorString in Hj. rewrite (Split_Join_plain l Hnil Hl) in Hj.
      subst l. naive_solver.
Qed.

Lemma DescendingSegments_ok scope : segs_ok (DescendingSegments scope).
Proof.
  unfold DescendingSegments. destruct (_ || _); [constructor|].
  apply Forall_forall. intros p. apply Split_no_sep.
Qed.

Lemma JoinScope_nonempty l : JoinScope l <> "".
Proof.
  unfold JoinScope. destruct (last l); [case_bool_decide|]; discriminate.
Qed.

Lemma segments_Normalize scope :
  scope <> "" -> DescendingSegments (NormalizeForEquality scope) = DescendingSegments scope.
Proof.
  intros Hs. unfold NormalizeForEquality. rewrite bool_decide_false by done.
  apply DescendingSegments_JoinScope, DescendingSegments_ok.
Qed.

(** *** Comparison *)

Definition flip_rel (r : Relationship) : Relationship :=
  match r with Ancestor => Descendant | Descendant => Ancestor | r => r end.

Lemma compare_loop_flip l r : compare_loop r l = flip_rel (compare_loop l r).
Proof.
  revert r. induction l as [|x l IH]; intros [|y r]; try done. simpl.
  destruct (decide (x = y)) as [->|Hn].
  - by rewrite !bool_decide_true.
  - by rewrite !bool_decide_false.
Qed.

Lemma compare_loop_spec l r :
  match compare_loop l r with
  | Equivalent => l = r
  | Descendant => exists k, k <> [] /\ r = (l ++ k)%list
  | Ancestor => exists k, k <> [] /\ l = (r ++ k)%list
  | Orthogonal => ~ (exists k, r = (l ++ k)%list) /\ ~ (exists k, l = (r ++ k)%list)
  end.
Proof.
  revert r. induction l as [|x l IH]; intros [|y r]; simpl; [done|by exists (y :: r)|by exists (x :: l)|].
  case_bool_decide as Hn; [subst y|naive_solver]. specialize (IH r).
  destruct (compare_loop l r); naive_solver.
Qed.

Lemma compare_loop_below l r :
  is_rel (compare_loop l r) [Equivalent; Descendant] = true <-> exists k, r = (l ++ k)%list.
Proof.
  unfold is_rel. rewrite slices_Contains_true. pose proof (compare_loop_spec l r) as Hc.
  destruct (compare_loop l r).
  - split; [set_solver|]. intros He. by destruct Hc.
  - subst. split; [|set_solver]. exists []. by rewrite app_nil_r.
  - split; [set_solver|]. intros [k Hk]. exfalso. destruct Hc as (k' & Hne & ->).
    rewrite <- app_assoc in Hk. apply (f_equal length) in Hk. rewrite !length_app in Hk.
    destruct k'; [done|]. simpl in Hk. lia.
  - split; [|set_solver]. destruct Hc as (k & _ & ->). eauto.
Qed.

(** *** Globs *)

(** A glob matches a scope that begins with the glob's segments, where the
    wildcard stands for any one segment. *)
Definition glob_segment (g s : string) : Prop := g = s \/ g = exclusiveChildGlobSegment.

Lemma match_loop_spec g s :
  match_loop g s = true <-> exists s1 s2, s = (s1 ++ s2)%list /\ Forall2 glob_segment g s1.
Proof.
  unfold glob_segment. revert s. induction g as [|x g IH]; intros s.
  - split; [|by destruct s]. intros _. exists [], s. by split; [|constructor].
  - destruct s as [|y s]; simpl.
    + split; [done|]. intros (s1 & s2 & E & Hf). inversion Hf; subst. done.
    + assert (Hstep : match_loop g s = true -> (x = y \/ x = exclusiveChildGlobSegment) ->
        exists s1 s2, y :: s = (s1 ++ s2)%list /\ Forall2 glob_segment (x :: g) s1).
      { intros (s1 & s2 & -> & Hf)%IH Hx. exists (y :: s1), s2. split; [done|]. by constructor. }
      unfold glob_segment in Hstep. split.
      * case_bool_decide; [auto|]. case_bool_decide; [auto|done].
      * intros (s1 & s2 & E & Hf). inversion Hf as [|? y' ? s1' Hx Hf']; subst.
        simpl in E. injection E as -> ->.
        assert (Hm : match_loop g (s1' ++ s2) = true) by (apply IH; eauto).
        case_bool_decide; [done|]. case_bool_decide; [done|]. by destruct Hx.
Qed.

Lemma subjects_loop_spec g s : subjects_loop g s = true <-> exists k, g = (s ++ k)%list.
Proof.
  revert s. induction g as [|x g IH]; intros [|y s]; simpl.
  - split; [by exists []|done].
  - split; [done|by intros [k [=]]].
  - split; [by exists (x :: g)|done].
  - case_bool_decide as Hn; [subst; rewrite IH|]; naive_solver.
Qed.

(** Every scope such a glob matches lies below the scope, when the scope has
    no wildcard segment. *)
Lemma subjects_loop_sound g s t :
  exclusiveChildGlobSegment ∉ s -> subjects_loop g s = true -> match_loop g t = true ->
  exists k, t = (s ++ k)%list.
Proof.
  intros Hw (k & ->)%subjects_loop_spec (t1 & t2 & -> & Hf)%match_loop_spec.
  apply Forall2_app_inv_l in Hf as (u1 & u2 & Hf1 & _ & ->).
  exists (u2 ++ t2)%list. rewrite <- app_assoc. f_equal.
  clear -Hw Hf1. induction Hf1 as [|x y s u Hxy Hf IH]; [done|].
  f_equal; [|apply IH; set_solver]. destruct Hxy as [->|Hx]; [done|]. set_solver.
Qed.

(** And a glob that is not such a one matches a scope outside. *)
Lemma subjects_loop_complete g s :
  subjects_loop g s = false -> exists t, match_loop g t = true /\ ~ exists k, t = (s ++ k)%list.
Proof.
  revert s. induction g as [|x g IH]; intros [|y s]; simpl; try done.
  - intros _. exists []. split; [done|]. by intros [k [=]].
  - case_bool_decide as Hn.
    + subst y. intros (t & Ht & Hk)%IH. exists (x :: t). rewrite bool_decide_true by done.
      split; [done|]. intros [k [= Ek]]. apply Hk. eauto.
    + intros _. exists (x :: g). rewrite bool_decide_true by done. split.
      * clear. induction g as [|z g IH]; [done|]. simpl. by rewrite bool_decide_true.
      * intros [k [= Ek _]]. done.
Qed.

(** ** Properties of scopes

    The scope order, the canonical form of a valid scope, and the list of
    enforcement points of a resource. *)

(** ** Order *)

Lemma sort_loop_opp l r : sort_loop r l = CompOpp (sort_loop l r).
Proof.
  revert r. induction l as [|x l IH]; intros [|y r]; simpl; try done.
  rewrite (str_compare_opp x y). destruct (str_compare x y); simpl; auto.
Qed.

Lemma sort_loop_eq l r : sort_loop l r = Eq <-> l = r.
Proof.
  revert r. induction l as [|x l IH]; intros [|y r]; simpl; try done.
  destruct (str_compare x y) eqn:E.
  - apply str_compare_eq in E as ->. rewrite IH. naive_solver.
  - split; [done|]. intros [= -> ->]. by rewrite str_compare_refl in E.
  - split; [done|]. intros [= -> ->]. by rewrite str_compare_refl in E.
Qed.

Lemma sort_loop_trans l r k : sort_loop l r = Lt -> sort_loop r k = Lt -> sort_loop l k = Lt.
Proof.
  revert r k. induction l as [|x l IH]; intros [|y r] [|z k]; simpl; try done.
  destruct (str_compare x y) eqn:E1, (str_compare y z) eqn:E2; try done; intros H1 H2.
  - apply str_compare_eq in E1 as ->. rewrite E2. eauto.
  - apply str_compare_eq in E1 as ->. by rewrite E2.
  - apply str_compare_eq in E2 as ->. by rewrite E1.
  - by rewrite (str_compare_trans _ _ _ E1 E2).
Qed.

Lemma sort_loop_prefix l k : k <> [] -> sort_loop l (l ++ k) = Lt.
Proof.
  intros Hk. induction l as [|x l IH]; simpl; [by destruct k|]. by rewrite str_compare_refl.
Qed.

Lemma Sort_segments x y : Sort x y = sort_loop (DescendingSegments x) (DescendingSegments y).
Proof.
  unfold Sort. case_bool_decide as Hxy; [|done]. subst. symmetry. by apply sort_loop_eq.
Qed.

(** ** Canonical scopes *)

Lemma segments_check_ok f fmt scope l :
  segments_check f fmt scope l = Ok tt -> forall s, s ∈ l -> f s = Ok tt.
Proof.
  induction l as [|x l IH]; simpl; [set_solver|]. intros E. inv_ok.
  intros s [->|Hs]%elem_of_cons; [|auto].
  match goal with E : f x = Ok ?u |- _ => by destruct u end.
Qed.

Lemma StrongValidate_canonical `{UnicodeTables} scope :
  StrongValidate scope = Ok tt ->
  NormalizeForEquality scope = scope /\ len scope <= maxScopeSize /\
  forall s, s ∈ DescendingSegments scope ->
    segmentRegexp s = true /\ minSegmentSize <= len s <= maxSegmentSize.
Proof.
  unfold StrongValidate. intros E. inv_ok. bool_to_prop.
  match goal with E : segments_check _ _ _ _ = Ok ?u |- _ =>
    destruct u; pose proof (segments_check_ok _ _ _ _ E) as Hseg end.
  assert (Hs : forall s, s ∈ DescendingSegments scope ->
    segmentRegexp s = true /\ minSegmentSize <= len s <= maxSegmentSize).
  { intros s Hs. apply Hseg in Hs. unfold StrongValidateSegment, strongValidateFormat in Hs.
    inv_ok. bool_to_prop. split; [done|lia]. }
  split; [|done]. unfold NormalizeForEquality. rewrite bool_decide_false by done.
  match goal with E : HasPrefix scope separator = true |- _ => apply HasPrefix_true in E as [r ->] end.
  unfold DescendingSegments in *. rewrite (bool_decide_false (_ = "")) in * by discriminate.
  destruct (decide (r = "")) as [->|Hr]; [by rewrite bool_decide_true|].
  assert (Hsep : separator +:+ r <> separator).
  { change separator with (separator +:+ "") at 2. by intros ?%(inj (String.append separator)). }
  rewrite (bool_decide_false _ Hsep) in *. simpl orb in *. cbv iota in *.
  match goal with E : negb false && _ = false |- _ => simpl in E; rename E into Hsuf end.
  assert (Ht : trimForSplit (separator +:+ r) = r).
  { unfold trimForSplit. rewrite TrimPrefix_app. unfold TrimSuffix.
    destruct (CutSuffix r separator) as [t|] eqn:Ec; [|done]. apply CutSuffix_Some in Ec as ->.
    assert (HasSuffix (separator +:+ t +:+ separator) separator = true) as Hc; [|congruence].
    apply HasSuffix_true. exists (separator +:+ t). by rewrite str_app_assoc. }
  rewrite Ht in *. unfold JoinScope.
  assert (Hj : separator +:+ Join (Split r "/"%char) separator = separator +:+ r).
  { f_equal. apply Split_Join. }
  destruct (last (Split r "/"%char)) as [x|] eqn:El; [|done].
  rewrite bool_decide_false; [done|]. intros ->.
  apply last_Some_elem_of in El. apply Hs in El as [? _]. done.
Qed.

(** ** Enforcement points *)

Lemma descending_loop_map pre l :
  descending_loop pre l = (fun i => JoinScope (pre ++ take i l)%list) <$> seq 1 (length l).
Proof.
  revert pre. induction l as [|x l IH]; intros pre; [done|].
  cbn [descending_loop length seq]. rewrite IH, fmap_cons. f_equal.
  rewrite <- (fmap_S_seq 1), <- list_fmap_compose. apply list_fmap_ext. intros i y _. simpl.
  by rewrite <- app_assoc.
Qed.

(** The scope of the first [i] segments. *)
Definition prefix_scope (l : list string) (i : nat) : string := JoinScope (take i l).

Lemma DescendingScopes_map scope :
  scope <> "" ->
  DescendingScopes scope =
  prefix_scope (DescendingSegments scope) <$> seq 0 (S (length (DescendingSegments scope))).
Proof.
  intros Hs. unfold DescendingScopes. rewrite bool_decide_false by done.
  rewrite descending_loop_map. cbn [seq]. by rewrite fmap_cons.
Qed.

Lemma AscendingScopes_map scope :
  scope <> "" ->
  AscendingScopes scope =
  prefix_scope (DescendingSegments scope) <$> rev (seq 0 (S (length (DescendingSegments scope)))).
Proof.
  intros Hs. unfold AscendingScopes. rewrite bool_decide_false by done.
  set (l := DescendingSegments scope). generalize (length l). intros n. induction n as [|n IH]; [done|].
  rewrite seq_S, rev_app_distr. cbn [ascending_loop rev app]. by rewrite fmap_cons, IH.
Qed.

Lemma segs_ok_take l i : segs_ok l -> segs_ok (take i l).
Proof. apply Forall_take. Qed.

Lemma prefix_scope_assignable l i j :
  segs_ok l -> (i <= length l)%nat -> (j <= length l)%nat ->
  IsAssignableToScopeOfEffect (prefix_scope l i) (prefix_scope l j) = bool_decide (i <= j)%nat.
Proof.
  intros Hl Hi Hj. unfold IsAssignableToScopeOfEffect, prefix_scope, Compare.
  rewrite !(bool_decide_false (_ = "")) by apply JoinScope_nonempty. simpl orb. cbv iota.
  rewrite !DescendingSegments_JoinScope by by apply segs_ok_take.
  apply Bool.eq_iff_eq_true. rewrite compare_loop_below, bool_decide_eq_true. split.
  - intros [k Hk]. apply (f_equal length) in Hk. rewrite length_app, !length_take in Hk. lia.
  - intros Hij. exists (drop i (take j l)).
    replace (take i l) with (take i (take j l)); [by rewrite take_drop|].
    rewrite take_take. f_equal. lia.
Qed.

Lemma effects_loop_map l i n :
  segs_ok l -> (i <= length l)%nat -> (n <= length l)%nat ->
  effects_loop (prefix_scope l i) (prefix_scope l <$> rev (seq 0 (S n))) =
  (fun j => {| ep_ScopeOfOrigin := prefix_scope l i; ep_ScopeOfEffect := prefix_scope l j |})
    <$> rev (seq i (S n - i)).
Proof.
  intros Hl Hi. induction n as [|n IH]; intros Hn.
  - simpl. rewrite (prefix_scope_assignable l i 0) by (done || lia). destruct i as [|i]; [done|].
    by rewrite bool_decide_false by lia.
  - rewrite seq_S, rev_app_distr. cbn [rev app]. rewrite fmap_cons. cbn [effects_loop plus].
    rewrite (prefix_scope_assignable l i (S n)) by (done || lia).
    destruct (decide (i <= S n)%nat) as [Hin|Hin].
    + rewrite bool_decide_true by done. simpl negb. cbv iota. rewrite IH by lia.
      replace (S (S n) - i)%nat with (S (S n - i)) by lia.
      rewrite (seq_S (S n - i)), rev_app_distr. cbn [rev app]. rewrite fmap_cons.
      by replace (i + (S n - i))%nat with (S n) by lia.
    + rewrite bool_decide_false by done. by replace (S (S n) - i)%nat with 0%nat by lia.
Qed.

(** The pairs of the resource's own ancestors, origins from the root down,
    effects from the resource up to the origin. *)
Lemma EnforcementPoints_spec scope :
  scope <> "" ->
  let l := DescendingSegments scope in
  let n := length l in
  EnforcementPointsForResourceScope scope =
  mbind (fun i => (fun j => {| ep_ScopeOfOrigin := prefix_scope l i; ep_ScopeOfEffect := prefix_scope l j |})
                    <$> rev (seq i (S n - i))) (seq 0 (S n)).
Proof.
  intros Hs l n. unfold EnforcementPointsForResourceScope.
  rewrite DescendingScopes_map, AscendingScopes_map by done. fold l. fold n.
  assert (Hall : forall idx, (forall i, i ∈ idx -> (i <= length l)%nat) ->
    mbind (fun o => effects_loop o (prefix_scope l <$> rev (seq 0 (S n)))) (prefix_scope l <$> idx) =
    mbind (fun i => (fun j => {| ep_ScopeOfOrigin := prefix_scope l i; ep_ScopeOfEffect := prefix_scope l j |})
                    <$> rev (seq i (S n - i))) idx).
  { intros idx Hin. induction idx as [|i idx IH]; [done|].
    rewrite fmap_cons. cbn [mbind list_bind]. rewrite IH by set_solver. f_equal.
    apply effects_loop_map; [apply DescendingSegments_ok|apply Hin; set_solver|done]. }
  apply Hall. intros i Hi%elem_of_seq. unfold n in Hi. lia.
Qed.
