(* ===== verification/Policy.v ===== *)
(** * Connector policy: [lib/googleoidc/policy]

    What a Google Workspace connector must look like to be stored and used
    ([ValidateConnector]), the Workspace domain allow-list and the checks a
    login makes against it, the group lookup settings, and the grammar of a
    claim mapping value.  [net/url.Parse] is the class [UrlParser]. *)

From S2P Require Import Prelude GoStrings Utf8 Types.
From Stdlib Require Import Ascii.

Record URL := {
  url_Scheme : string;
  url_Host : string;
  url_Hostname : string;      (* Hostname() *)
  url_HasUser : bool;         (* User != nil *)
  url_RawQuery : string;
  url_ForceQuery : bool;
  url_Path : string;
  url_EscapedPath : string;   (* EscapedPath() *)
}.

Class UrlParser := url_Parse : string -> result URL.

Definition GoogleIssuer := "https://accounts.google.com".
Definition WorkspaceDomainsLabel := "fork.teleport.dev/google-workspace-domains".
Definition callbackPath := "/v1/webapi/oidc/callback".
Definition CloudIdentityGroupsReadScope :=
  "https://www.googleapis.com/auth/cloud-identity.groups.readonly".
Definition GroupMembershipLabel := "fork.teleport.dev/google-group-membership".
Definition GroupFallbackLabel := "fork.teleport.dev/google-group-fallback".
Definition GroupsClaim := "groups".

(** ** Claim mapping values ([claimvalue.go]) *)

Section Policy.
Context `{UnicodeTables} `{UrlParser}.

Definition emailClaimValueShapes :=
  "either user@domain or *@domain, where domain is one of the Google Workspace domains of this connector".
Definition groupsClaimValueShapes :=
  "either group@domain or *@domain, where domain is one of the Google Workspace domains of this connector".

(** One rune of [isLiteralLocalPart]. *)
Definition literalLocalRune (r : rune) : bool :=
  between 97 122 r || between 65 90 r || between 48 57 r
  || (r =? 46) || (r =? 45) || (r =? 95) || (r =? 39).

Definition isLiteralLocalPart (local : string) : bool :=
  forallb literalLocalRune (runes local).

Definition validateAddressClaimValue
    (value : string) (workspaceDomains : list string) (shapes : string) : result unit :=
  fail_if bool_decide (value = "")
    with BadParameter "OIDC claim mapping value cannot be empty: write %s" [shapes];
  fail_if HasPrefix value "^"
    with BadParameter "OIDC claim mapping value %q is a raw regular expression, which this fork does not accept: write %s" [value; shapes];
  fail_if negb (Count value "@"%char =? 1)
    with BadParameter "OIDC claim mapping value %q must be %s" [value; shapes];
  let '(local, domain) := cut_pair value "@"%char in
  fail_if bool_decide (local = "")
    with BadParameter "OIDC claim mapping value %q has an empty local part: write %s" [value; shapes];
  fail_if negb (bool_decide (local = "*")) && negb (isLiteralLocalPart local)
    with BadParameter "OIDC claim mapping value %q has a local part that is not a plain address or a single *: write %s" [value; shapes];
  fail_if negb (existsb (fun allowed => EqualFold allowed domain) workspaceDomains)
    with BadParameter "OIDC claim mapping value %q ends in %q, which is not a Google Workspace domain of this connector" [value; domain];
  Ok tt.

Definition validateEmailClaimValue (value : string) (workspaceDomains : list string) : result unit :=
  validateAddressClaimValue value workspaceDomains emailClaimValueShapes.

Definition validateGroupsClaimValue (value : string) (workspaceDomains : list string) : result unit :=
  validateAddressClaimValue value workspaceDomains groupsClaimValueShapes.

Record claimGrammar := {
  cg_claim : string;
  cg_validate : string -> list string -> result unit;
}.

Definition claimGrammars : list claimGrammar :=
  [ {| cg_claim := "email"; cg_validate := validateEmailClaimValue |};
    {| cg_claim := GroupsClaim; cg_validate := validateGroupsClaimValue |} ].

Definition grammarForClaim (claim : string) : option claimGrammar :=
  List.find (fun g => bool_decide (cg_claim g = claim)) claimGrammars.

(** ** Workspace domains ([connector.go]) *)

Definition invalidDomain (domain : string) : bool :=
  ContainsAny domain ("@/ " +:+ String "009" "*?") || negb (Contains domain ".")
  || HasPrefix domain "." || HasSuffix domain ".".

Fixpoint domains_loop (domains : list string) (parts : list string) : result (list string) :=
  match parts with
  | [] => Ok domains
  | part :: parts' =>
      let domain := ToLower (TrimSpace part) in
      if bool_decide (domain = "") then domains_loop domains parts'
      else if invalidDomain domain
      then Err (BadParameter "invalid Google Workspace domain %q in label %q" [part; WorkspaceDomainsLabel])
      else if slices_Contains domains domain then domains_loop domains parts'
      else domains_loop (domains ++ [domain]) parts'
  end.

Definition WorkspaceDomains (conn : OIDCConnector) : result (list string) :=
  let raw := map_get (c_Labels conn) WorkspaceDomainsLabel in
  let? domains := domains_loop [] (Split raw ","%char) in
  fail_if bool_decide (domains = [])
    with BadParameter "this fork requires the Google Workspace domain allow-list in the connector label %q" [WorkspaceDomainsLabel];
  Ok domains.

Definition CheckHostedDomain (hostedDomain : string) (allowed : list string) : result unit :=
  let domain := ToLower (TrimSpace hostedDomain) in
  fail_if bool_decide (domain = "")
    with AccessDenied "OIDC provider did not return a Google Workspace domain" [];
  fail_if negb (slices_Contains allowed domain)
    with AccessDenied "Google Workspace domain is not allowed by this connector" [];
  Ok tt.

Definition CheckEmailDomain (email : string) (allowed : list string) : result unit :=
  let address := ToLower (TrimSpace email) in
  let at_ := LastIndexByte address "@"%char in
  fail_if (at_ <=? 0) || (at_ =? len address - 1)
    with AccessDenied "OIDC provider did not return a usable email address" [];
  fail_if negb (slices_Contains allowed (str_drop (Z.to_nat (at_ + 1)) address))
    with AccessDenied "email domain is not allowed by this connector" [];
  Ok tt.

(** ** Redirect URL *)

Definition RedirectURL (conn : OIDCConnector) : result URL :=
  match s_RedirectURLs (c_Spec conn) with
  | [raw] =>
      let? parsed := rmap_err (fun _ => BadParameter "invalid OIDC redirect URL" []) (url_Parse raw) in
      fail_if negb (bool_decide (url_Scheme parsed = "https"))
        || bool_decide (url_Hostname parsed = "")
        || url_HasUser parsed
        || negb (bool_decide (url_RawQuery parsed = ""))
        || url_ForceQuery parsed
        || Contains raw "#"
        || negb (bool_decide (url_Path parsed = callbackPath))
        || negb (bool_decide (url_EscapedPath parsed = callbackPath))
        with BadParameter "OIDC redirect URL must be an HTTPS URL with the exact callback path and no user info, query, or fragment" [];
      Ok parsed
  | _ => Err (BadParameter "this fork requires exactly one OIDC redirect URL" [])
  end.

Definition withoutHTTPSPort (authority : string) : string :=
  match SplitHostPort authority with
  | Ok (_, port) => if bool_decide (port = "443") then TrimSuffix authority ":443" else authority
  | Err _ => authority
  end.

Definition RedirectURLForProxy (conn : OIDCConnector) (proxyAddress : string) : result string :=
  let? parsed := RedirectURL conn in
  fail_if bool_decide (proxyAddress = "")
    with BadParameter "OIDC auth request is missing the proxy address" [];
  let callbackHost := withoutHTTPSPort (url_Host parsed) in
  let proxyHost := withoutHTTPSPort proxyAddress in
  fail_if negb (EqualFold callbackHost proxyHost)
    with BadParameter "OIDC redirect URL does not match the proxy address" [];
  Ok (default "" (s_RedirectURLs (c_Spec conn) !! 0%nat)).

(** ** Group lookup settings ([groups.go]) *)

Definition MembershipDirect := "direct".
Definition membershipTransitive := "transitive".

Record GroupSettings := {
  gs_Enabled : bool;
  gs_Mode : string;
  gs_WorkspaceDomains : list string;
}.

Definition noGroupSettings : GroupSettings :=
  {| gs_Enabled := false; gs_Mode := ""; gs_WorkspaceDomains := [] |}.

Definition hasGroupsScope (conn : OIDCConnector) : bool :=
  slices_Contains (s_Scope (c_Spec conn)) CloudIdentityGroupsReadScope.

Definition hasGroupsMapping (conn : OIDCConnector) : bool :=
  existsb (fun m => bool_decide (cm_Claim m = GroupsClaim)) (s_ClaimsToRoles (c_Spec conn)).

Definition groupMode (conn : OIDCConnector) (rawMode : string) : result string :=
  if bool_decide (rawMode = MembershipDirect) then Ok MembershipDirect
  else if bool_decide (rawMode = membershipTransitive) then
    Err (BadParameter "the %q Google group membership mode is no longer supported, set the connector label %q to %q; transitive search is refused by a Workspace tenant without the entitlement, and direct membership does not follow nested groups, so a mapped group must not contain another group"
           [membershipTransitive; GroupMembershipLabel; MembershipDirect])
  else if bool_decide (rawMode = "") then
    Err (BadParameter "group lookup requires the connector label %q, set it to %q"
           [GroupMembershipLabel; MembershipDirect])
  else
    Err (BadParameter "unsupported Google group membership mode %q in label %q, use %q"
           [map_get (c_Labels conn) GroupMembershipLabel; GroupMembershipLabel; MembershipDirect]).

Definition GroupLookupSettings (oconn : option OIDCConnector) : result GroupSettings :=
  match oconn with
  | None => Err (BadParameter "missing OIDC connector" [])
  | Some conn =>
      let hasScope := hasGroupsScope conn in
      let labels := c_Labels conn in
      let rawMode := ToLower (TrimSpace (map_get labels GroupMembershipLabel)) in
      let rawFallback := ToLower (TrimSpace (map_get labels GroupFallbackLabel)) in
      fail_if hasGroupsMapping conn && negb hasScope
        with BadParameter "a groups claim mapping requires the OIDC scope %q" [CloudIdentityGroupsReadScope];
      fail_if hasScope && negb (hasGroupsMapping conn)
        with BadParameter "the OIDC scope %q is only accepted together with a groups claim mapping" [CloudIdentityGroupsReadScope];
      if negb hasScope then
        fail_if negb (bool_decide (rawMode = ""))
          with BadParameter "the connector label %q needs the OIDC scope %q" [GroupMembershipLabel; CloudIdentityGroupsReadScope];
        fail_if negb (bool_decide (rawFallback = ""))
          with BadParameter "the connector label %q needs the OIDC scope %q" [GroupFallbackLabel; CloudIdentityGroupsReadScope];
        Ok noGroupSettings
      else
        let? mode := groupMode conn rawMode in
        fail_if negb (bool_decide (rawFallback = ""))
          with BadParameter "the connector label %q is no longer supported, remove it; it selected a fallback from the removed %q membership mode, and %q is now the only mode" [GroupFallbackLabel; membershipTransitive; MembershipDirect];
        let? domains := WorkspaceDomains conn in
        Ok {| gs_Enabled := true; gs_Mode := mode; gs_WorkspaceDomains := domains |}
  end.

(** ** The connector itself *)

(** The scope loop, with the [hasEmailScope] flag it sets. *)
Fixpoint scopes_loop (hasEmailScope : bool) (scopes : list string) : result bool :=
  match scopes with
  | [] => Ok hasEmailScope
  | scope :: scopes' =>
      if bool_decide (scope = "openid") then scopes_loop hasEmailScope scopes'
      else if bool_decide (scope = "email") then scopes_loop true scopes'
      else if bool_decide (scope = CloudIdentityGroupsReadScope) then scopes_loop hasEmailScope scopes'
      else Err (BadParameter "this fork does not support the OIDC scope %q" [scope])
  end.

Fixpoint mappings_loop (workspaceDomains : list string) (mappings : list ClaimMapping) : result unit :=
  match mappings with
  | [] => Ok tt
  | mapping :: mappings' =>
      match grammarForClaim (cm_Claim mapping) with
      | None =>
          Err (BadParameter "this fork only supports email and groups OIDC claim mappings, got %q"
                 [cm_Claim mapping])
      | Some grammar =>
          check (cg_validate grammar (cm_Value mapping) workspaceDomains);
          mappings_loop workspaceDomains mappings'
      end
  end.

Definition ValidateConnector (oconn : option OIDCConnector) : result unit :=
  match oconn with
  | None => Err (BadParameter "missing OIDC connector" [])
  | Some conn =>
      let spec := c_Spec conn in
      fail_if negb (bool_decide (s_GoogleServiceAccount spec = ""))
        || negb (bool_decide (s_GoogleServiceAccountURI spec = ""))
        || negb (bool_decide (s_GoogleAdminEmail spec = ""))
        with BadParameter "this fork does not support Google service-account settings" [];
      fail_if negb (bool_decide (s_IssuerURL spec = GoogleIssuer))
        with BadParameter "this fork only supports the canonical Google OIDC issuer %q" [GoogleIssuer];
      fail_if negb (bool_decide (s_PKCEMode spec = OIDCPKCEModeEnabled))
        with BadParameter "this fork requires PKCE for Google OIDC connectors" [];
      fail_if negb (bool_decide (s_Provider spec = ""))
        with BadParameter "this fork does not support OIDC provider settings" [];
      fail_if negb (bool_decide (s_RequestObjectMode spec = OIDCRequestObjectModeUnknown)
                    || bool_decide (s_RequestObjectMode spec = OIDCRequestObjectModeNone))
        with BadParameter "this fork does not support OIDC request objects" [];
      fail_if IsMFAEnabled conn
        with BadParameter "this fork does not support OIDC SSO MFA" [];
      fail_if s_AllowUnverifiedEmail spec
        with BadParameter "this fork requires verified OIDC email addresses" [];
      fail_if snd (GetMaxAge conn)
        with BadParameter "this fork does not support OIDC max_age" [];
      check (RedirectURL conn);
      let? workspaceDomains := WorkspaceDomains conn in
      let? hasEmailScope := scopes_loop false (s_Scope spec) in
      fail_if negb hasEmailScope
        with BadParameter "this fork requires the email OIDC scope" [];
      check (GroupLookupSettings (Some conn));
      mappings_loop workspaceDomains (s_ClaimsToRoles spec)
  end.

(** Browser, test, and console login requests. *)
Definition ValidateAuthRequestMode (req : OIDCAuthRequest) : result unit :=
  let console := negb (r_CreateWebSession req)
    && (negb (len (r_SshPublicKey req) =? 0) || negb (len (r_TlsPublicKey req) =? 0)) in
  fail_if negb (r_CreateWebSession req) && negb (r_SSOTestFlow req) && negb console
    with AccessDenied "OIDC auth request has no supported login mode" [];
  Ok tt.

End Policy.

#[global] Arguments GroupLookupSettings : simpl never.
#[global] Arguments ValidateConnector : simpl never.
#[global] Arguments WorkspaceDomains : simpl never.
#[global] Arguments RedirectURL : simpl never.

(** ** Properties *)

Section Properties.
Context `{UnicodeTables} `{UrlParser}.

Lemma literalLocalRune_ascii r : literalLocalRune r = true -> r < RuneSelf.
Proof.
  unfold literalLocalRune, between, RuneSelf. rewrite !orb_true_iff, !andb_true_iff, !Z.leb_le, !Z.eqb_eq. lia.
Qed.

Lemma isLiteralLocalPart_bytes local :
  isLiteralLocalPart local = forallb (fun a => literalLocalRune (code a)) (bytes_of local).
Proof. apply forallb_runes_bytes, literalLocalRune_ascii. Qed.

Lemma isLiteralLocalPart_not local c :
  isLiteralLocalPart local = true -> literalLocalRune (code c) = false -> c ∉ bytes_of local.
Proof.
  rewrite isLiteralLocalPart_bytes, forallb_elem. intros Hl Hc Hin.
  apply Hl in Hin. congruence.
Qed.

(** The accepted shapes of a claim mapping value, as a declarative grammar. *)
Definition claim_value_shape (value : string) (workspaceDomains : list string) : Prop :=
  exists local domain allowed,
    value = local +:+ String "@" domain /\
    (local = "*" \/ (local <> "" /\ isLiteralLocalPart local = true)) /\
    "@"%char ∉ bytes_of domain /\
    allowed ∈ workspaceDomains /\ EqualFold allowed domain = true.

Lemma local_part_no_at local :
  local = "*" \/ (local <> "" /\ isLiteralLocalPart local = true) -> "@"%char ∉ bytes_of local.
Proof.
  intros [->|[_ H']]; [compute; set_solver|]. by eapply isLiteralLocalPart_not.
Qed.

Lemma local_part_no_caret local rest :
  local = "*" \/ (local <> "" /\ isLiteralLocalPart local = true) ->
  HasPrefix (local +:+ rest) "^" = false.
Proof.
  intros Hl. destruct (HasPrefix _ _) eqn:E; [exfalso|done].
  apply HasPrefix_true in E as [r E].
  destruct Hl as [->|[Hne Hl]]; [done|].
  destruct local as [|a local]; [done|]. rewrite !str_app_cons in E. simplify_eq.
Qed.

Lemma validateAddressClaimValue_shape value domains shapes :
  validateAddressClaimValue value domains shapes = Ok tt <-> claim_value_shape value domains.
Proof.
  unfold validateAddressClaimValue, claim_value_shape. split.
  - intros Hv. inv_ok. bool_to_prop.
    destruct (Count_1_Cut value "@"%char) as (local & domain & Hc & -> & Hnl & Hnd); [done|].
    unfold cut_pair in Hv. rewrite Hc in Hv. simpl in Hv. inv_ok. bool_to_prop.
    match goal with E : existsb _ _ = true |- _ => apply existsb_elem in E as (al & Hal & Hf) end.
    exists local, domain, al. split; [done|]. split; [|done].
    match goal with E : negb _ && negb _ = false |- _ => apply andb_false_iff in E as [E|E] end;
      bool_to_prop; auto.
  - intros (local & domain & al & -> & Hl & Hd & Hal & Hf).
    pose proof (local_part_no_at _ Hl) as Hnl.
    rewrite bool_decide_false by (by destruct local; rewrite ?str_app_cons).
    rewrite local_part_no_caret by done.
    assert (Count (local +:+ String "@" domain) "@"%char = 1) as ->.
    { rewrite Count_app, Count_cons, decide_True by done.
      apply Count_0 in Hnl, Hd. lia. }
    simpl. unfold cut_pair. rewrite (proj2 (Cut_Some _ _ _ _) (conj eq_refl Hnl)). simpl.
    rewrite bool_decide_false by (intros ->; destruct Hl as [|[]]; done).
    assert (negb (bool_decide (local = "*")) && negb (isLiteralLocalPart local) = false) as ->.
    { destruct Hl as [->|[_ ->]]; [done|apply andb_false_r]. }
    assert (existsb (fun allowed => EqualFold allowed domain) domains = true) as ->; [|done].
    apply existsb_elem. eauto.
Qed.

(** *** Domains *)

Definition normalDomain (part : string) : string := ToLower (TrimSpace part).

Lemma domains_loop_ok acc parts ds :
  domains_loop acc parts = Ok ds ->
  (forall d, d ∈ ds <-> d ∈ acc \/ exists p, p ∈ parts /\ d = normalDomain p /\ d <> "") /\
  (NoDup acc -> NoDup ds) /\
  (forall p, p ∈ parts -> normalDomain p <> "" -> invalidDomain (normalDomain p) = false).
Proof.
  revert acc. induction parts as [|p parts IH]; intros acc; simpl.
  - intros [= ->]. split; [set_solver|]. split; [done|set_solver].
  - unfold normalDomain in *. case_bool_decide as Hb.
    + intros (Hi & Hn & Hv)%IH. split; [|split].
      * intros d. rewrite Hi. setoid_rewrite elem_of_cons. naive_solver.
      * done.
      * intros q [->|Hq]%elem_of_cons; [done|auto].
    + intros H'. inv_ok. case_match eqn:E; autorewrite with go_simpl in E.
      * apply IH in H' as (Hi & Hn & Hv). split; [|split].
        -- intros d. rewrite Hi. setoid_rewrite elem_of_cons. naive_solver.
        -- done.
        -- intros q [->|Hq]%elem_of_cons; auto.
      * apply IH in H' as (Hi & Hn & Hv). split; [|split].
        -- intros d. rewrite Hi, elem_of_app, list_elem_of_singleton.
           setoid_rewrite elem_of_cons. naive_solver.
        -- intros Hacc. apply Hn, NoDup_app. split; [done|]. split; [set_solver|].
           apply NoDup_singleton.
        -- intros q [->|Hq]%elem_of_cons; auto.
Qed.

Lemma domains_loop_total acc parts :
  (forall p, p ∈ parts -> normalDomain p <> "" -> invalidDomain (normalDomain p) = false) ->
  exists ds, domains_loop acc parts = Ok ds.
Proof.
  revert acc. induction parts as [|p parts IH]; intros acc Hv; simpl; [eauto|].
  unfold normalDomain in *. assert (Hp := Hv p ltac:(set_solver)).
  specialize (IH ltac:(auto) ltac:(set_solver)) as IH'. case_bool_decide; [naive_solver|].
  rewrite Hp by done. case_match; apply IH; set_solver.
Qed.

Definition domainParts (conn : OIDCConnector) : list string :=
  Split (map_get (c_Labels conn) WorkspaceDomainsLabel) ","%char.

Lemma WorkspaceDomains_ok conn ds :
  WorkspaceDomains conn = Ok ds ->
  ds <> [] /\ NoDup ds /\
  (forall d, d ∈ ds <-> exists p, p ∈ domainParts conn /\ d = normalDomain p /\ d <> "") /\
  (forall d, d ∈ ds -> invalidDomain d = false).
Proof.
  unfold WorkspaceDomains. intros H'. inv_ok. bool_to_prop.
  match goal with E : domains_loop _ _ = _ |- _ => apply domains_loop_ok in E as (Hi & Hn & Hv) end.
  fold (domainParts conn) in Hi, Hv.
  split; [done|]. split; [apply Hn; constructor|]. split.
  - intros d. rewrite Hi. set_solver.
  - intros d Hd. apply Hi in Hd as [|(p & ? & -> & ?)]; [set_solver|auto].
Qed.

Lemma WorkspaceDomains_total conn :
  (exists ds, WorkspaceDomains conn = Ok ds) <->
  (exists p, p ∈ domainParts conn /\ normalDomain p <> "") /\
  (forall p, p ∈ domainParts conn -> normalDomain p <> "" -> invalidDomain (normalDomain p) = false).
Proof.
  split.
  - intros [ds Hd]. pose proof Hd as Hd'. apply WorkspaceDomains_ok in Hd as (Hne & _ & Hi & Hv).
    split.
    + destruct ds as [|d ds]; [done|].
      destruct (proj1 (Hi d) ltac:(set_solver)) as (p & ? & -> & ?). eauto.
    + intros p Hp Hpe. apply Hv, Hi. eauto.
  - intros [(p & Hp & Hpe) Hv]. destruct (domains_loop_total [] _ Hv) as [ds Hd].
    exists ds. unfold WorkspaceDomains. fold (domainParts conn). rewrite Hd. simpl.
    apply domains_loop_ok in Hd as (Hi & _ & _).
    rewrite bool_decide_false; [done|]. intros ->.
    apply (not_elem_of_nil (normalDomain p)), Hi. eauto.
Qed.

Lemma CheckHostedDomain_ok hd allowed :
  CheckHostedDomain hd allowed = Ok tt <->
  normalDomain hd <> "" /\ normalDomain hd ∈ allowed.
Proof.
  unfold CheckHostedDomain, normalDomain. rewrite !fail_if_ok, negb_false_iff,
    bool_decide_eq_false, slices_Contains_true. naive_solver.
Qed.

Lemma CheckEmailDomain_ok email allowed :
  CheckEmailDomain email allowed = Ok tt <->
  exists local domain, ToLower (TrimSpace email) = local +:+ String "@" domain /\
    local <> "" /\ domain <> "" /\ "@"%char ∉ bytes_of domain /\ domain ∈ allowed.
Proof.
  unfold CheckEmailDomain. set (a := ToLower (TrimSpace email)).
  rewrite !fail_if_ok, orb_false_iff, negb_false_iff, slices_Contains_true, Z.leb_gt, Z.eqb_neq.
  split.
  - intros [[Hpos Hne] [Hin _]].
    destruct (LastIndexByte_split a "@"%char _ eq_refl) as (b & t & E & Hn & Hi & Hd); [lia|].
    exists b, t. rewrite Hd in Hin. rewrite Hi in *.
    split; [done|]. split; [by intros ->|]. split; [|done].
    intros ->. rewrite E, len_app in Hne. unfold len in *. simpl in Hne. lia.
  - intros (b & t & E & Hb & Ht & Hn & Hin). rewrite E.
    assert (Hl : LastIndexByte (b +:+ String "@" t) "@"%char = len b).
    { destruct (Z.lt_ge_cases (LastIndexByte (b +:+ String "@" t) "@"%char) 0) as [Hlt|Hge].
      - exfalso. clear -Hlt. induction b as [|c b IH]; rewrite ?str_app_cons, ?str_app_nil_l in Hlt;
          simpl in Hlt; destruct (Z.leb_spec 0 (LastIndexByte t "@"%char));
          try destruct (Z.leb_spec 0 (LastIndexByte (b +:+ String "@" t) "@"%char)); lia.
      - destruct (LastIndexByte_split _ _ _ eq_refl Hge) as (b' & t' & E' & Hn' & Hi & _).
        rewrite Hi. f_equal. clear -E' Hn Hn'. revert b' E'.
        induction b as [|c b IH]; intros [|c' b'] E'; str_simpl; [done| | |].
        + exfalso. apply Hn. rewrite bytes_of_app. apply elem_of_app. right. apply list_elem_of_here.
        + exfalso. apply Hn'. rewrite bytes_of_app. apply elem_of_app. right. apply list_elem_of_here.
        + f_equal. eauto. }
    rewrite Hl. split; [split|split; [|done]].
    + destruct b; [done|]. unfold len. simpl. lia.
    + rewrite len_app. destruct t; [done|]. unfold len. simpl. lia.
    + replace (Z.to_nat (len b + 1)) with (String.length (b +:+ "@")).
      * change (String "@" t) with ("@" +:+ t). rewrite <- str_app_assoc. by rewrite str_drop_app.
      * rewrite str_length_app. unfold len. simpl. lia.
Qed.

(** *** Group lookup settings *)

Definition labelValue (conn : OIDCConnector) (l : string) : string :=
  normalDomain (map_get (c_Labels conn) l).

(** The combinations of scope, mapping and labels that are consistent, with
    the settings each one means. *)
Inductive group_settings_of (conn : OIDCConnector) : GroupSettings -> Prop :=
| settings_off :
    hasGroupsScope conn = false -> hasGroupsMapping conn = false ->
    labelValue conn GroupMembershipLabel = "" -> labelValue conn GroupFallbackLabel = "" ->
    group_settings_of conn noGroupSettings
| settings_direct ds :
    hasGroupsScope conn = true -> hasGroupsMapping conn = true ->
    labelValue conn GroupMembershipLabel = MembershipDirect ->
    labelValue conn GroupFallbackLabel = "" ->
    WorkspaceDomains conn = Ok ds ->
    group_settings_of conn
      {| gs_Enabled := true; gs_Mode := MembershipDirect; gs_WorkspaceDomains := ds |}.

Lemma groupMode_ok conn rawMode mode :
  groupMode conn rawMode = Ok mode <-> rawMode = MembershipDirect /\ mode = MembershipDirect.
Proof. unfold groupMode. repeat case_bool_decide; naive_solver. Qed.

Lemma GroupLookupSettings_ok conn s :
  GroupLookupSettings (Some conn) = Ok s <-> group_settings_of conn s.
Proof.
  unfold GroupLookupSettings. fold (normalDomain (map_get (c_Labels conn) GroupMembershipLabel)).
  fold (normalDomain (map_get (c_Labels conn) GroupFallbackLabel)).
  fold (labelValue conn GroupMembershipLabel) (labelValue conn GroupFallbackLabel).
  destruct (hasGroupsScope conn) eqn:Hs, (hasGroupsMapping conn) eqn:Hm; simpl.
  - split.
    + intros H'. inv_ok. bool_to_prop.
      match goal with E : groupMode _ _ = _ |- _ => apply groupMode_ok in E as [? ->] end.
      by constructor.
    + inversion 1 as [|ds ? ? Hmode Hfb Hd]; [congruence|].
      rewrite (proj2 (groupMode_ok _ _ _) (conj Hmode eq_refl)), Hfb, Hd. done.
  - split; [done|]. inversion 1; congruence.
  - split; [done|]. inversion 1; congruence.
  - split; [|inversion 1 as [? ? Hmode Hfb|]; [by rewrite Hmode, Hfb|congruence]].
    intros H'. inv_ok. bool_to_prop. by constructor.
Qed.

(** *** Connectors *)

Definition supportedScopes : list string := ["openid"; "email"; CloudIdentityGroupsReadScope].

Lemma scopes_loop_ok b scopes b' :
  scopes_loop b scopes = Ok b' <->
  (forall s, s ∈ scopes -> s ∈ supportedScopes) /\ b' = b || slices_Contains scopes "email".
Proof.
  unfold supportedScopes, slices_Contains.
  revert b. induction scopes as [|s scopes IH]; intros b; simpl.
  - rewrite orb_false_r. split; [|naive_solver]. intros [= ->]. set_solver.
  - assert (Hc : forall x, bool_decide ("email" ∈ x :: scopes) =
      bool_decide (x = "email") || bool_decide ("email" ∈ scopes)).
    { intros x. apply Bool.eq_iff_eq_true.
      rewrite orb_true_iff, !bool_decide_eq_true. set_solver. }
    rewrite Hc. repeat case_bool_decide; subst; simpl; try done; rewrite ?IH, ?orb_true_r; simpl.
    all: try (split; intros [Hs ->]; split; set_solver).
    all: split; [done|]; intros [Hs _]; exfalso; specialize (Hs s); set_solver.
Qed.

Definition mapping_accepted (ds : list string) (m : ClaimMapping) : Prop :=
  (cm_Claim m = "email" \/ cm_Claim m = GroupsClaim) /\ claim_value_shape (cm_Value m) ds.

Lemma mappings_loop_ok ds ms :
  mappings_loop ds ms = Ok tt <-> forall m, m ∈ ms -> mapping_accepted ds m.
Proof.
  unfold mapping_accepted.
  induction ms as [|m ms IH]; simpl; [set_solver|].
  unfold grammarForClaim; simpl. setoid_rewrite elem_of_cons.
  assert (forall v shapes, rbind (validateAddressClaimValue v ds shapes)
    (fun _ => mappings_loop ds ms) = Ok tt <->
    claim_value_shape v ds /\ mappings_loop ds ms = Ok tt) as Hstep.
  { intros v shapes. rewrite <- (validateAddressClaimValue_shape v ds shapes), rbind_ok.
    split; [intros ([] & ? & ?); auto|intros [? ?]; eauto]. }
  repeat case_bool_decide; simpl; rewrite ?Hstep, ?IH; naive_solver.
Qed.

(** What [ValidateConnector] accepts, condition by condition. *)
Record connector_policy (conn : OIDCConnector) : Prop := {
  cp_no_delegation : s_GoogleServiceAccount (c_Spec conn) = "" /\
    s_GoogleServiceAccountURI (c_Spec conn) = "" /\ s_GoogleAdminEmail (c_Spec conn) = "";
  cp_issuer : s_IssuerURL (c_Spec conn) = GoogleIssuer;
  cp_pkce : s_PKCEMode (c_Spec conn) = OIDCPKCEModeEnabled;
  cp_provider : s_Provider (c_Spec conn) = "";
  cp_request_object : s_RequestObjectMode (c_Spec conn) ∈
    [OIDCRequestObjectModeUnknown; OIDCRequestObjectModeNone];
  cp_no_mfa : IsMFAEnabled conn = false;
  cp_verified : s_AllowUnverifiedEmail (c_Spec conn) = false;
  cp_no_max_age : s_MaxAge (c_Spec conn) = None;
  cp_redirect : exists u, RedirectURL conn = Ok u;
  cp_scopes : "email" ∈ s_Scope (c_Spec conn) /\
    forall s, s ∈ s_Scope (c_Spec conn) -> s ∈ supportedScopes;
  cp_groups : exists s, group_settings_of conn s;
  cp_mappings : exists ds, WorkspaceDomains conn = Ok ds /\
    forall m, m ∈ s_ClaimsToRoles (c_Spec conn) -> mapping_accepted ds m;
}.

Lemma ValidateConnector_ok conn :
  ValidateConnector (Some conn) = Ok tt <-> connector_policy conn.
Proof.
  unfold ValidateConnector. split.
  - intros Hv. inv_ok. bool_to_prop.
    repeat match goal with
    | E : negb _ || _ = false |- _ => apply orb_false_iff in E as [E ?]
    | E : scopes_loop _ _ = _ |- _ => apply scopes_loop_ok in E as [? ->]
    | E : GroupLookupSettings _ = _ |- _ => apply GroupLookupSettings_ok in E
    | E : mappings_loop _ _ = _ |- _ => rewrite mappings_loop_ok in E
    end; bool_to_prop.
    split; eauto.
    + match goal with E : _ || _ = true |- _ =>
        apply orb_true_iff in E as [E|E]; bool_to_prop; rewrite E; set_solver
      end.
    + match goal with E : snd (GetMaxAge _) = false |- _ => revert E end.
      unfold GetMaxAge. by destruct (s_MaxAge (c_Spec conn)).
    + split; [|done]. by apply slices_Contains_true.
  - intros [(-> & -> & ->) -> -> -> Hro Hmfa -> Hm [u ->] [He Hs] [s Hgs] (ds & -> & Hms)].
    rewrite Hmfa. unfold GetMaxAge. rewrite Hm. simpl.
    assert (bool_decide (s_RequestObjectMode (c_Spec conn) = OIDCRequestObjectModeUnknown) ||
      bool_decide (s_RequestObjectMode (c_Spec conn) = OIDCRequestObjectModeNone) = true) as ->.
    { rewrite orb_true_iff, !bool_decide_eq_true.
      unfold OIDCRequestObjectModeUnknown, OIDCRequestObjectModeNone in *. set_solver. }
    rewrite (proj2 (scopes_loop_ok false _ true)); simpl.
    + rewrite (proj2 (GroupLookupSettings_ok _ _) Hgs). simpl. by apply mappings_loop_ok.
    + split; [done|]. symmetry. by apply slices_Contains_true.
Qed.

(** *** Redirect URL *)

Lemma EqualFold_refl s : EqualFold s s = true.
Proof.
  unfold EqualFold. induction (runes s) as [|r l IH]; simpl; [done|].
  rewrite IH, andb_true_r. unfold rune_EqualFold. by rewrite Z.eqb_refl.
Qed.

(** A host without a port and without brackets. *)
Definition plain_host (h : string) : Prop :=
  h <> "" /\ ":"%char ∉ bytes_of h /\ "["%char ∉ bytes_of h /\ "]"%char ∉ bytes_of h.

Lemma IndexByte_none s c : c ∉ bytes_of s -> (0 <=? IndexByte s c) = false.
Proof. intros Hn. unfold IndexByte. by rewrite (proj2 (Cut_None s c) Hn). Qed.

Lemma LastIndexByte_none s c : c ∉ bytes_of s -> LastIndexByte s c = -1.
Proof.
  induction s as [|a s IH]; [done|]. intros Hn. simpl.
  change (bytes_of (String a s)) with (a :: bytes_of s) in Hn.
  rewrite IH by set_solver. simpl. destruct (Ascii.eqb_spec a c); [set_solver|done].
Qed.

Lemma LastIndexByte_last h t c :
  c ∉ bytes_of t -> LastIndexByte (h +:+ String c t) c = len h.
Proof.
  intros Hn. induction h as [|a h IH].
  - rewrite str_app_nil_l. simpl. by rewrite LastIndexByte_none, Ascii.eqb_refl.
  - rewrite str_app_cons. simpl. rewrite IH.
    rewrite (proj2 (Z.leb_le _ _)) by (unfold len; lia). unfold len; simpl; lia.
Qed.

Lemma str_take_app h t : str_take (String.length h) (h +:+ t) = h.
Proof. induction h as [|a h IH]; [done|]. rewrite str_app_cons. simpl. by rewrite IH. Qed.

Lemma SplitHostPort_plain h port :
  plain_host h -> ":"%char ∉ bytes_of port -> "["%char ∉ bytes_of port -> "]"%char ∉ bytes_of port ->
  SplitHostPort (h +:+ String ":" port) = Ok (h, port).
Proof.
  intros (Hne & Hc & Ho & Hcl) Hp1 Hp2 Hp3. unfold SplitHostPort.
  rewrite LastIndexByte_last by done.
  rewrite (proj2 (Z.ltb_ge _ _)) by apply len_nonneg.
  assert (HasPrefix (h +:+ String ":" port) "[" = false) as ->.
  { destruct (HasPrefix _ _) eqn:E; [|done]. exfalso. apply HasPrefix_true in E as [r E].
    destruct h as [|a h]; [done|]. rewrite !str_app_cons in E. simplify_eq.
    apply Ho, list_elem_of_here. }
  unfold len. rewrite Nat2Z.id, str_take_app, IndexByte_none by done.
  change (str_drop (Z.to_nat 0) (h +:+ String ":" port)) with (h +:+ String ":" port).
  rewrite !IndexByte_none; [|rewrite bytes_of_app; set_solver..].
  replace (Z.to_nat (Z.of_nat (String.length h) + 1)) with (String.length (h +:+ ":"))
    by (rewrite str_length_app; simpl; lia).
  change (String ":" port) with (":" +:+ port). rewrite <- str_app_assoc. by rewrite str_drop_app.
Qed.

Lemma withoutHTTPSPort_443 h : plain_host h -> withoutHTTPSPort (h +:+ ":443") = h.
Proof.
  intros Hh. unfold withoutHTTPSPort.
  rewrite (SplitHostPort_plain h "443") by (done || (compute; set_solver)).
  rewrite bool_decide_true by done. apply TrimSuffix_app.
Qed.

Lemma withoutHTTPSPort_plain h : plain_host h -> withoutHTTPSPort h = h.
Proof.
  intros (_ & Hc & _). unfold withoutHTTPSPort, SplitHostPort.
  by rewrite LastIndexByte_none.
Qed.

Lemma RedirectURLForProxy_ok conn proxy cb :
  RedirectURLForProxy conn proxy = Ok cb <->
  exists u, RedirectURL conn = Ok u /\ s_RedirectURLs (c_Spec conn) = [cb] /\ proxy <> "" /\
    EqualFold (withoutHTTPSPort (url_Host u)) (withoutHTTPSPort proxy) = true.
Proof.
  unfold RedirectURLForProxy. rewrite rbind_ok. setoid_rewrite fail_if_ok.
  setoid_rewrite fail_if_ok. setoid_rewrite bool_decide_eq_false. setoid_rewrite negb_false_iff.
  split.
  - intros (u & Hu & Hp & Hf & [= <-]). exists u. split; [done|]. split; [|done].
    unfold RedirectURL in Hu. by destruct (s_RedirectURLs (c_Spec conn)) as [|? []].
  - intros (u & Hu & Hl & Hp & Hf). exists u. rewrite Hl. done.
Qed.

End Properties.
