(* ===== verification/Identity.v ===== *)
(** * Connectors and stored login requests

    [types.NewOIDCConnector] with its checks ([api/types/oidc.go]), and the
    two calls of the identity service that store and read a login request
    ([lib/services/local/users.go]) on the cluster backend. *)

From S2P Require Import Prelude GoStrings Types Key Backend Policy.

(** ** [types.NewOIDCConnector] *)

Definition SystemConnectors : list string := ["local"; "passwordless"; "headless"].

Definition maxDuration : duration := 9223372036854775807.

(** [time.Duration.Round], half away from zero, which saturates. *)
Definition Duration_Round (d m : duration) : duration :=
  if m <=? 0 then d
  else
    let r := Z.rem d m in
    if d <? 0 then
      if - r + - r <? m then d - r
      else if d - (m + r) <? - maxDuration - 1 then - maxDuration - 1 else d - (m + r)
    else if r + r <? m then d - r
    else if maxDuration <? d + m - r then maxDuration else d + m - r.

(** [utils.ParseSessionsURI], as far as its scheme *)
Definition ParseSessionsURI_scheme `{UrlParser} (uri : string) : result string :=
  fail_if bool_decide (uri = "") with BadParameter "uri is empty" [];
  let? u := rmap_err (fun e => BadParameter "failed to parse URI %q: %v" [uri; e_fmt e]) (url_Parse uri) in
  Ok (if bool_decide (url_Scheme u = "") then "file" else url_Scheme u).

(** [Metadata.CheckAndSetDefaults] of a resource that has a name only *)
Definition metadata_check (name : string) : result unit :=
  fail_if bool_decide (name = "") with BadParameter "missing parameter Name" [];
  Ok tt.

Section Connector.
Context `{UrlParser}.

Fixpoint redirects_check (urls : list string) : result unit :=
  match urls with
  | [] => Ok tt
  | u :: urls' =>
      check (rmap_err (fun e => BadParameter "bad RedirectURL '%v', err: %v" [u; e_fmt e]) (url_Parse u));
      redirects_check urls'
  end.

(** A duration setting in whole seconds, not negative. *)
Definition max_age_check (fmt_subsecond : string) (maxAge : duration) : result unit :=
  fail_if maxAge <? 0 with BadParameter "max_age cannot be negative" [];
  fail_if negb (Duration_Round maxAge Second =? maxAge) with BadParameter fmt_subsecond [];
  Ok tt.

Definition service_account_check (spec : OIDCConnectorSpec) : result unit :=
  let uri := s_GoogleServiceAccountURI spec in
  let account := s_GoogleServiceAccount spec in
  fail_if negb (bool_decide (uri = "")) && negb (bool_decide (account = ""))
    with BadParameter "one of either google_service_account_uri or google_service_account is supported, not both" [];
  check (if bool_decide (uri = "") then Ok tt
         else
           let? scheme := ParseSessionsURI_scheme uri in
           fail_if negb (bool_decide (scheme = "file"))
             with BadParameter "only file:// scheme is supported for google_service_account_uri" [];
           fail_if bool_decide (s_GoogleAdminEmail spec = "")
             with BadParameter "whenever google_service_account_uri is specified, google_admin_email should be set as well, read https://developers.google.com/identity/protools/OAuth2ServiceAccount#delegatingauthority for more details" [];
           Ok tt);
  fail_if negb (bool_decide (account = "")) && bool_decide (s_GoogleAdminEmail spec = "")
    with BadParameter "whenever google_service_account is specified, google_admin_email should be set as well, read https://developers.google.com/identity/protocols/OAuth2ServiceAccount#delegatingauthority for more details" [];
  Ok tt.

(** [CheckAndSetDefaults] *)
Definition connector_check (c : OIDCConnector) : result unit :=
  let spec := c_Spec c in
  check (metadata_check (c_Name c));
  fail_if slices_Contains SystemConnectors (c_Name c)
    with BadParameter "ID: invalid connector name, %v is a reserved name" [c_Name c];
  fail_if bool_decide (s_ClientID spec = "")
    with BadParameter "OIDC connector is missing required client_id" [];
  fail_if bool_decide (s_ClientSecret spec = "")
    with BadParameter "OIDC connector is missing required client_secret" [];
  fail_if HasPrefix (s_ClientSecret spec) "file://"
    with BadParameter "the client_secret must be a literal value, file:// URLs are not supported" [];
  fail_if existsb (fun m => (length (cm_Roles m) =? 0)%nat) (s_ClaimsToRoles spec)
    with BadParameter "add roles in claims_to_roles" [];
  check (rmap_err (fun e => BadParameter "bad IssuerURL '%v', err: %v" [s_IssuerURL spec; e_fmt e])
           (url_Parse (s_IssuerURL spec)));
  fail_if (length (s_RedirectURLs spec) =? 0)%nat
    with BadParameter "RedirectURL: missing redirect_url" [];
  check (redirects_check (s_RedirectURLs spec));
  check (service_account_check spec);
  check (match s_MaxAge spec with
         | None => Ok tt
         | Some d => max_age_check "max_age %q is invalid, cannot have sub-second units" d
         end);
  check (match s_MFASettings spec with
         | None => Ok tt
         | Some m => max_age_check "max_age %q invalid, cannot have sub-second units" (mfa_MaxAge m)
         end);
  Ok tt.

(** The new connector has a name and a spec.  It has no label. *)
Definition NewOIDCConnector (name : string) (spec : OIDCConnectorSpec) : result OIDCConnector :=
  let c := {| c_Name := name; c_Labels := ∅; c_Spec := spec |} in
  check (connector_check c);
  Ok c.
End Connector.

(** ** Stored login requests *)

(** [ssh.ParseAuthorizedKey]: whether a text is an authorized key. *)
Class SSHKeyParser := ssh_ParseAuthorizedKey : string -> bool.

(** The protobuf JSON form of a request. *)
Class RequestCodec := {
  rc_Marshal : OIDCAuthRequest -> result string;
  rc_Unmarshal : string -> result OIDCAuthRequest;
}.

Definition MaxCertDuration : duration := 30 * 3600 * Second.
Definition MinCertDuration : duration := 60 * Second.

(** [OIDCAuthRequest.Check] *)
Definition request_check `{SSHKeyParser} (r : OIDCAuthRequest) : result unit :=
  fail_if bool_decide (r_ConnectorID r = "") with BadParameter "ConnectorID: missing value" [];
  fail_if bool_decide (r_StateToken r = "") with BadParameter "StateToken: missing value" [];
  fail_if r_SSOTestFlow r && bool_decide (r_ConnectorSpec r = None)
    with BadParameter "ConnectorSpec cannot be nil when SSOTestFlow is true" [];
  fail_if negb (r_SSOTestFlow r) && negb (bool_decide (r_ConnectorSpec r = None))
    with BadParameter "ConnectorSpec must be nil when SSOTestFlow is false" [];
  fail_if (0 <? len (r_SshPublicKey r)) && negb (ssh_ParseAuthorizedKey (r_SshPublicKey r))
    with BadParameter "bad SSH public key: %v" [];
  fail_if (negb (len (r_SshPublicKey r) =? 0) || negb (len (r_TlsPublicKey r) =? 0))
          && ((MaxCertDuration <? r_CertTTL r) || (r_CertTTL r <? MinCertDuration))
    with BadParameter "wrong CertTTL" [];
  Ok tt.

Definition requestKey (stateToken : string) : Key :=
  NewKey ["web"; "connectors"; "oidc"; "requests"; stateToken].

Section Requests.
Context {W : Type} `{Clock W} `{Backend W} `{SSHKeyParser} `{RequestCodec}.

Definition CreateOIDCAuthRequest (req : OIDCAuthRequest) (ttl : duration) : M W unit :=
  do* mlift (request_check req);
  let* value := mlift (rc_Marshal req) in
  let* now := mget Now in
  do* bk_Create {| i_Key := requestKey (r_StateToken req); i_Value := value;
                   i_Expires := Expiry now ttl; i_Revision := "" |};
  mret tt.

Definition GetOIDCAuthRequest (stateToken : string) : M W OIDCAuthRequest :=
  deny_if bool_decide (stateToken = "") with BadParameter "missing parameter stateToken" [];
  let* item := bk_Get (requestKey stateToken) in
  mlift (rc_Unmarshal (i_Value item)).
End Requests.

#[global] Arguments requestKey : simpl never.
#[global] Arguments connector_check : simpl never.

(** ** Properties *)

Definition request_key (t : string) : string := k_s (requestKey t).

Section Properties.
Context {W : Type} `{BackendSpec W} `{SSHKeyParser} `{RequestCodec}.

Lemma NewOIDCConnector_labels `{UrlParser} name spec c :
  NewOIDCConnector name spec = Ok c -> c_Labels c = ∅ /\ c_Name c = name /\ c_Spec c = spec.
Proof. unfold NewOIDCConnector. intros E. inv_ok. done. Qed.

Lemma GetOIDCAuthRequest_step t : step_in (kept (fun _ => True)) (GetOIDCAuthRequest (W:=W) t).
Proof. unfold GetOIDCAuthRequest. step_in_auto. intros w w' r E. by eapply get_frame. Qed.

Lemma GetOIDCAuthRequest_ok t w w' req :
  GetOIDCAuthRequest t w = (w', Ok req) ->
  t <> "" /\ exists i, live w (request_key t) = Some i /\ rc_Unmarshal (i_Value i) = Ok req.
Proof.
  unfold GetOIDCAuthRequest. intros E. inv_mok. bool_to_prop. split; [done|].
  match goal with E : bk_Get _ _ = _ |- _ => apply get_ok in E end. eauto.
Qed.

Lemma CreateOIDCAuthRequest_ok req ttl w w' :
  0 < ttl -> CreateOIDCAuthRequest req ttl w = (w', Ok tt) ->
  exists value, rc_Marshal req = Ok value /\ Now w <= Now w' /\
    live w (request_key (r_StateToken req)) = None /\
    (Now w' < Now w + ttl -> exists i, live w' (request_key (r_StateToken req)) = Some i /\
       i_Value i = value /\ i_Expires i = Some (Now w + ttl)).
Proof.
  intros Httl. unfold CreateOIDCAuthRequest. intros E. inv_mok.
  match goal with E : bk_Create _ _ = _ |- _ =>
    pose proof (create_ok _ _ _ _ E) as [Hn Hl]; pose proof (create_frame _ _ _ _ E) as [[Ht _] _] end.
  eexists. split; [done|]. split; [done|]. split; [done|]. intros Hlt.
  unfold Expiry in Hl. rewrite (proj2 (Z.eqb_neq ttl 0)) in Hl by lia.
  destruct Hl as (i & Hi & Hv & He); [unfold unexpired; simpl; lia|]. eauto.
Qed.
End Properties.
