(* ===== verification/Regexp.v ===== *)
(** * Expressions: [lib/utils/replace.go]

    A mapping value is a glob or a raw regular expression.  The text that is
    compiled for it is modelled here in full.  The regular expression engine
    is the class [RegexpEngine]; [GlobLaws] states what the engine documents
    for the expressions a glob becomes, and [glob_engine] is an engine for
    exactly those. *)

From S2P Require Import Prelude GoStrings Utf8.
From Stdlib Require Import Ascii.

(** [regexp.QuoteMeta] *)
Definition meta_bytes : string := "\.+*?()|[]{}^$".
Definition is_meta (a : byte) : bool := slices_Contains (bytes_of meta_bytes) a.

Fixpoint QuoteMeta (s : string) : string :=
  match s with
  | EmptyString => ""
  | String a s' => if is_meta a then String "\" (String a (QuoteMeta s')) else String a (QuoteMeta s')
  end.

(** [replaceWildcard.ReplaceAllString]: the leftmost matches of a backslash
    and a star become a capturing run of any characters *)
Fixpoint replaceWildcard (s : string) : string :=
  match s with
  | EmptyString => ""
  | String a s' =>
      match s' with
      | String b s'' =>
          if Ascii.eqb a "\" && Ascii.eqb b "*" then "(.*)" +:+ replaceWildcard s''
          else String a (replaceWildcard s')
      | EmptyString => String a ""
      end
  end.

Definition GlobToRegexp (in_ : string) : string := replaceWildcard (QuoteMeta in_).

Definition IsRegexp (expression : string) : bool :=
  HasPrefix expression "^" && HasSuffix expression "$".

Definition expressionToRegexp (expression : string) : string :=
  if IsRegexp expression then expression else "^" +:+ GlobToRegexp expression +:+ "$".

(** [ContainsExpansion]: a dollar sign followed by another character *)
Fixpoint ContainsExpansion (val : string) : bool :=
  match val with
  | String a val' =>
      match val' with
      | String b _ => (Ascii.eqb a "$" && negb (Ascii.eqb b "$")) || ContainsExpansion val'
      | EmptyString => false
      end
  | EmptyString => false
  end.

(** ** The engine *)

Class RegexpEngine := {
  regexp : Type;
  re_Compile : string -> result regexp;
  re_Find : regexp -> string -> bool;           (* FindStringIndex(s) != nil *)
  re_ReplaceAll : regexp -> string -> string -> string; (* input, template *)
}.

(** The contents of the compilation cache. *)
Class RegexpCache `{RegexpEngine} := regexpCache : string * bool -> option regexp.

Definition ErrReplaceRegexNotFound : error := NotFound "no match found" [].

Section Compile.
Context `{RegexpCache}.

Definition compileExpression (expression : string) (ignoreCase : bool) : result regexp :=
  let expression := expressionToRegexp expression in
  let expression := if ignoreCase then "(?i)" +:+ expression else expression in
  rmap_err (fun e => BadParameter "%s" [e_fmt e]) (re_Compile expression).

Definition replaceRegexCached (expression : string) (ignoreCase : bool) : result regexp :=
  match regexpCache (expression, ignoreCase) with
  | Some expr => Ok expr
  | None => compileExpression expression ignoreCase
  end.

Definition RegexpWithConfig (expression : string) (ignoreCase : bool) : result regexp :=
  replaceRegexCached expression ignoreCase.

Definition ReplaceRegexpWith (expr : regexp) (replaceWith input : string) : result string :=
  if re_Find expr input then Ok (re_ReplaceAll expr input replaceWith)
  else Err ErrReplaceRegexNotFound.

Definition ReplaceRegexp (expression replaceWith input : string) : result string :=
  let? expr := RegexpWithConfig expression false in
  ReplaceRegexpWith expr replaceWith input.

(** [MatchString], over the same cache *)
Definition MatchString (input expression : string) : result bool :=
  let? expr := rmap_err (fun e => BadParameter "%s" [e_fmt e]) (replaceRegexCached expression false) in
  Ok (re_Find expr input).
End Compile.

(** What a cache holds is what compiling would give. *)
Class RegexpCacheSound `{RegexpCache} : Prop :=
  cache_sound e i x : regexpCache (e, i) = Some x -> compileExpression e i = Ok x.

Lemma RegexpWithConfig_cached `{RegexpCacheSound} e i :
  RegexpWithConfig e i = compileExpression e i.
Proof.
  unfold RegexpWithConfig, replaceRegexCached. destruct (regexpCache (e, i)) eqn:E; [|done].
  symmetry. by apply cache_sound.
Qed.

(** ** Globs *)

Definition newline : byte := "010"%char.

(** A star stands for any bytes but a newline, every other byte for itself. *)
Fixpoint glob_match (g : list byte) : list byte -> bool :=
  match g with
  | [] => fun s => match s with [] => true | _ => false end
  | a :: g' =>
      if Ascii.eqb a "*" then
        fix star (s : list byte) : bool :=
          glob_match g' s ||
          match s with
          | [] => false
          | c :: s' => negb (Ascii.eqb c newline) && star s'
          end
      else fun s => match s with [] => false | c :: s' => Ascii.eqb a c && glob_match g' s' end
  end.

Definition globMatch (g s : string) : bool := glob_match (bytes_of g) (bytes_of s).

(** The globs the laws speak of: those whose text is valid UTF-8 without the
    replacement character, and that are not written as a raw expression. *)
Definition plain_glob (g : string) : bool :=
  forallb (fun r => negb (r =? 65533)) (runes g) && negb (IsRegexp g).

(** What the engine documents for the text a glob becomes. *)
Class GlobLaws `{RegexpEngine} : Prop := {
  glob_compiles g i : plain_glob g = true ->
    is_ok (re_Compile (if i : bool then "(?i)" +:+ expressionToRegexp g else expressionToRegexp g)) = true;
  glob_finds g x s : plain_glob g = true -> re_Compile (expressionToRegexp g) = Ok x ->
    re_Find x s = globMatch g s;
  glob_finds_ignore_case g x s : plain_glob g = true ->
    re_Compile ("(?i)" +:+ expressionToRegexp g) = Ok x -> globMatch g s = true -> re_Find x s = true;
  (* the match is the whole input, so a template without a dollar sign
     replaces it *)
  glob_replaces g (i : bool) x s t : plain_glob g = true ->
    re_Compile (if i then "(?i)" +:+ expressionToRegexp g else expressionToRegexp g) = Ok x ->
    re_Find x s = true -> ContainsByte t "$"%char = false -> re_ReplaceAll x s t = t;
}.

(** What a matching glob says about the text: its literal pieces, in order,
    with newline-free text for the stars. *)
Inductive glob_spec : list byte -> list byte -> Prop :=
| glob_nil : glob_spec [] []
| glob_lit a g s : a <> "*"%char -> glob_spec g s -> glob_spec (a :: g) (a :: s)
| glob_star g w s : newline ∉ w -> glob_spec g s -> glob_spec ("*"%char :: g) (w ++ s).

Lemma glob_match_spec g s : glob_match g s = true <-> glob_spec g s.
Proof.
  revert s. induction g as [|a g IH]; intros s.
  - split; [destruct s; [constructor|done]|]. by inversion 1.
  - simpl. destruct (Ascii.eqb_spec a "*") as [->|Ha].
    + split.
      * induction s as [|c s IHs]; simpl; rewrite orb_true_iff.
        -- intros [Hm|]; [|done]. apply (glob_star g [] []); [set_solver|by apply IH].
        -- intros [Hm|Hm]; [apply (glob_star g [] (c :: s)); [set_solver|by apply IH]|].
           apply andb_true_iff in Hm as [Hc Hm]. apply IHs in Hm.
           destruct (Ascii.eqb_spec c newline) as [|Hc']; [done|].
           inversion Hm as [| |g' w s' Hw Hs Eg Es]; subst.
           { by match goal with E : "*"%char <> "*"%char |- _ => destruct E end. }
           apply (glob_star g (c :: w) s'); [set_solver|done].
      * inversion 1 as [| |g' w s' Hw Hs Eg Es]; subst; [done|]. clear H.
        apply IH in Hs. induction w as [|c w IHw]; simpl.
        -- by destruct s'; simpl; rewrite Hs.
        -- rewrite IHw by set_solver. destruct (Ascii.eqb_spec c newline); [set_solver|].
           by rewrite orb_true_r.
    + destruct s as [|c s]; [by split; inversion 1|].
      rewrite andb_true_iff, IH. split.
      * intros [->%Ascii.eqb_eq ?]. by constructor.
      * inversion 1; subst; [|done]. by rewrite Ascii.eqb_refl.
Qed.

(** ** An engine for globs *)

Inductive item :=
| Lit (a : byte)
| AnyRun.

Fixpoint parse_items (s : string) : option (list item) :=
  match s with
  | String "$" EmptyString => Some []
  | String "(" (String "." (String "*" (String ")" s'))) => cons AnyRun <$> parse_items s'
  | String "\" (String a s') => cons (Lit a) <$> parse_items s'
  | String a s' => if is_meta a then None else cons (Lit a) <$> parse_items s'
  | EmptyString => None
  end.

Definition fold_byte (a : byte) : Z :=
  if between 65 90 (code a) then code a + 32 else code a.

Fixpoint match_items (eq : byte -> byte -> bool) (l : list item) : list byte -> bool :=
  match l with
  | [] => fun s => match s with [] => true | _ => false end
  | Lit a :: l' => fun s => match s with [] => false | c :: s' => eq a c && match_items eq l' s' end
  | AnyRun :: l' =>
      fix star (s : list byte) : bool :=
        match_items eq l' s ||
        match s with
        | [] => false
        | c :: s' => negb (Ascii.eqb c newline) && star s'
        end
  end.

Definition glob_Compile (s : string) : result (bool * list item) :=
  let '(i, s) := match CutPrefix s "(?i)" with Some s' => (true, s') | None => (false, s) end in
  match CutPrefix s "^" with
  | Some s' =>
      match parse_items s' with
      | Some l => Ok (i, l)
      | None => Err (BadParameter "unsupported expression" [])
      end
  | None => Err (BadParameter "unsupported expression" [])
  end.

Definition glob_Find (x : bool * list item) (s : string) : bool :=
  match_items (if x.1 then (fun a b => fold_byte a =? fold_byte b) else Ascii.eqb) x.2 (bytes_of s).

Definition glob_engine : RegexpEngine := {|
  regexp := bool * list item;
  re_Compile := glob_Compile;
  re_Find := glob_Find;
  re_ReplaceAll := fun x s t => if glob_Find x s then t else s;
|}.

Definition no_cache : @RegexpCache glob_engine := fun _ => None.

Definition items_of (g : string) : list item :=
  (fun a => if Ascii.eqb a "*" then AnyRun else Lit a) <$> bytes_of g.

Lemma QuoteMeta_head s r : QuoteMeta s <> String "*" r.
Proof.
  destruct s as [|a s]; [done|]. simpl. destruct (is_meta a) eqn:E; [done|].
  intros [= ->]. done.
Qed.

Lemma GlobToRegexp_cons a g :
  GlobToRegexp (String a g) =
  if Ascii.eqb a "*" then "(.*)" +:+ GlobToRegexp g
  else if is_meta a then String "\" (String a (GlobToRegexp g)) else String a (GlobToRegexp g).
Proof.
  unfold GlobToRegexp. cbn [QuoteMeta].
  assert (Hskip : forall b, replaceWildcard (String b (QuoteMeta g)) = String b (replaceWildcard (QuoteMeta g))).
  { intros b. destruct (QuoteMeta g) as [|c r] eqn:E; [done|]. cbn [replaceWildcard].
    destruct (Ascii.eqb_spec c "*") as [->|]; [by apply QuoteMeta_head in E|]. by rewrite andb_false_r. }
  destruct (Ascii.eqb_spec a "*") as [->|Ha]; [done|].
  destruct (is_meta a); [|apply Hskip].
  rewrite <- (Hskip a). cbn [replaceWildcard]. rewrite (proj2 (Ascii.eqb_neq a "*") Ha). done.
Qed.

Lemma parse_items_glob g : parse_items (GlobToRegexp g +:+ "$") = Some (items_of g).
Proof.
  induction g as [|a g IH]; [done|]. rewrite GlobToRegexp_cons.
  unfold items_of in *. change (bytes_of (String a g)) with (a :: bytes_of g). rewrite fmap_cons.
  destruct (Ascii.eqb_spec a "*") as [->|Ha].
  - rewrite str_app_assoc.
    change (parse_items ("(.*)" +:+ ?r)) with (cons AnyRun <$> parse_items r). by rewrite IH.
  - destruct (is_meta a) eqn:Em; rewrite !str_app_cons.
    + simpl. by rewrite IH.
    + remember (GlobToRegexp g +:+ "$") as rest.
      assert (parse_items (String a rest) = cons (Lit a) <$> parse_items rest) as ->.
      { clear -Em. destruct a as [[] [] [] [] [] [] [] []]; try done. }
      by rewrite IH.
Qed.

Lemma expressionToRegexp_glob g :
  plain_glob g = true -> expressionToRegexp g = String "^" (GlobToRegexp g +:+ "$").
Proof.
  unfold plain_glob, expressionToRegexp. intros [_ ->%negb_true_iff]%andb_true_iff. done.
Qed.

Lemma glob_Compile_glob g (i : bool) :
  plain_glob g = true ->
  glob_Compile (if i then "(?i)" +:+ expressionToRegexp g else expressionToRegexp g) = Ok (i, items_of g).
Proof.
  intros Hg. rewrite expressionToRegexp_glob by done. unfold glob_Compile. destruct i.
  - change ("(?i)" +:+ ?r) with (String "(" (String "?" (String "i" (String ")" r)))). simpl.
    by rewrite parse_items_glob.
  - simpl. by rewrite parse_items_glob.
Qed.

Lemma match_items_glob g s : match_items Ascii.eqb (items_of g) (bytes_of s) = globMatch g s.
Proof.
  unfold items_of, globMatch. generalize (bytes_of s). induction (bytes_of g) as [|a l IH]; [done|].
  intros t. rewrite fmap_cons. simpl. destruct (Ascii.eqb a "*").
  - induction t as [|c t IHt]; simpl; [by rewrite IH|]. by rewrite IH, IHt.
  - destruct t; simpl; [done|]. by rewrite IH.
Qed.

Lemma match_items_weaken (eq eq' : byte -> byte -> bool) l s :
  (forall a b, eq a b = true -> eq' a b = true) ->
  match_items eq l s = true -> match_items eq' l s = true.
Proof.
  intros He. revert s. induction l as [|[a|] l IH]; intros s; simpl; [done| |].
  - destruct s; [done|]. intros [? ?]%andb_true_iff. apply andb_true_iff. auto.
  - induction s as [|c s IHs]; simpl; rewrite !orb_true_iff; [naive_solver|].
    rewrite !andb_true_iff. naive_solver.
Qed.

#[export] Instance glob_engine_laws : @GlobLaws glob_engine.
Proof.
  split; cbn [re_Compile re_Find re_ReplaceAll glob_engine regexp].
  - intros g i Hg. by rewrite glob_Compile_glob.
  - intros g x s Hg E. pose proof (glob_Compile_glob g false Hg) as E'. cbv iota in E'.
    rewrite E' in E. injection E as <-. apply match_items_glob.
  - intros g x s Hg E Hm. pose proof (glob_Compile_glob g true Hg) as E'. cbv iota in E'.
    rewrite E' in E. injection E as <-. unfold glob_Find. simpl.
    apply (match_items_weaken Ascii.eqb); [|by rewrite match_items_glob].
    intros a b ->%Ascii.eqb_eq. apply Z.eqb_refl.
  - intros g i x s t _ _ -> _. done.
Qed.

#[export] Instance no_cache_sound : @RegexpCacheSound glob_engine no_cache.
Proof. intros e i x [=]. Qed.
