(* ===== verification/Traits.v ===== *)
(** * Traits and roles: [lib/services/traits.go]

    The traits of a login are mapped to roles by the connector's mappings.  A
    Go map is walked in an order of its own, so the walk takes the entries of
    the trait map as a list. *)

From S2P Require Import Prelude GoStrings Utf8 Types Regexp.
From Stdlib Require Import Ascii.

Definition warning : Type := string * list string.

(** What the walk has reported and collected so far; [Stop] is
    [continue TraitMappingLoop]. *)
Record collector := {
  col_warnings : list warning;
  col_roles : list (string * bool);
}.

Inductive flow := Next | Stop.

Definition empty_collector : collector := {| col_warnings := []; col_roles := [] |}.
Definition warn (w : warning) (c : collector) : collector :=
  {| col_warnings := (col_warnings c ++ [w])%list; col_roles := col_roles c |}.
Definition collect (role : string) (expanded : bool) (c : collector) : collector :=
  {| col_warnings := col_warnings c; col_roles := (col_roles c ++ [(role, expanded)])%list |}.

Section Traits.
Context `{RegexpCache}.

(** The roles of one mapping against one trait value. *)
Fixpoint roles_loop (mapping : TraitMapping) (traitValue : string) (roles : list string)
    (c : collector) : collector * flow :=
  match roles with
  | [] => (c, Next)
  | role :: roles' =>
      match RegexpWithConfig (tm_Value mapping) true with
      | Err _ =>
          (warn ("case-insensitive expression %q is not a valid regexp", [tm_Value mapping]) c, Stop)
      | Ok regexpIgnoreCase =>
          match ReplaceRegexpWith regexpIgnoreCase role traitValue with
          | Err _ => (c, Next)
          | Ok outRole =>
              if bool_decide (outRole = "") then roles_loop mapping traitValue roles' c
              else match RegexpWithConfig (tm_Value mapping) false with
              | Err _ =>
                  (warn ("case-sensitive expression %q is not a valid regexp", [tm_Value mapping]) c, Stop)
              | Ok regexp =>
                  match ReplaceRegexpWith regexp role traitValue with
                  | Err _ =>
                      roles_loop mapping traitValue roles'
                        (warn ("trait %q matches value %q case-insensitively and would have yielded %q role",
                               [traitValue; tm_Value mapping; outRole]) c)
                  | Ok _ =>
                      roles_loop mapping traitValue roles'
                        (collect outRole (negb (bool_decide (outRole = role))) c)
                  end
              end
          end
      end
  end.

Fixpoint values_loop (mapping : TraitMapping) (traitValues : list string) (c : collector)
    : collector * flow :=
  match traitValues with
  | [] => (c, Next)
  | traitValue :: rest =>
      match roles_loop mapping traitValue (tm_Roles mapping) c with
      | (c, Stop) => (c, Stop)
      | (c, Next) => values_loop mapping rest c
      end
  end.

Fixpoint traits_loop (mapping : TraitMapping) (entries : list (string * list string))
    (c : collector) : collector :=
  match entries with
  | [] => c
  | (traitName, traitValues) :: rest =>
      if negb (bool_decide (traitName = tm_Trait mapping)) then traits_loop mapping rest c
      else match values_loop mapping traitValues c with
      | (c, Stop) => c
      | (c, Next) => traits_loop mapping rest c
      end
  end.

Fixpoint traitsToRoles (ms : list TraitMapping) (entries : list (string * list string))
    (c : collector) : collector :=
  match ms with
  | [] => c
  | mapping :: ms' => traitsToRoles ms' entries (traits_loop mapping entries c)
  end.

Definition TraitsToRoles (ms : list TraitMapping) (entries : list (string * list string))
    : list warning * list string :=
  let c := traitsToRoles ms entries empty_collector in
  (col_warnings c, Deduplicate (fst <$> col_roles c)).
End Traits.

(** ** Properties *)

Section Properties.
Context `{RegexpCache}.

(** A walk in which a trait name occurs once reads the values of the trait. *)
Lemma traits_loop_lookup mapping entries c :
  NoDup entries.*1 ->
  traits_loop mapping entries c =
  match list_to_map (M:=gmap string (list string)) entries !! tm_Trait mapping with
  | Some vs => fst (values_loop mapping vs c)
  | None => c
  end.
Proof.
  revert c. induction entries as [|[n vs] entries IH]; intros c; [done|]. rewrite fmap_cons. simpl.
  intros [Hn Hd]%NoDup_cons. case_bool_decide as Hb; simpl.
  - subst. rewrite lookup_insert_eq. destruct (values_loop mapping vs c) as [c' []]; [|done].
    rewrite IH by done. by rewrite (not_elem_of_list_to_map_1 (M:=gmap string)).
  - rewrite lookup_insert_ne by done. by apply IH.
Qed.

Lemma traitsToRoles_order ms entries entries' c :
  NoDup entries.*1 -> entries ≡ₚ entries' ->
  traitsToRoles ms entries c = traitsToRoles ms entries' c.
Proof.
  intros Hd Hp. revert c. induction ms as [|m ms IH]; intros c; simpl; [done|].
  rewrite IH. f_equal. rewrite !traits_loop_lookup; [|by rewrite <- Hp|done].
  by rewrite (list_to_map_proper (M:=gmap string) entries entries') by done.
Qed.

(** How a collected role came about. *)
Definition granted_by (m : TraitMapping) (v : string) (r : string * bool) : Prop :=
  exists role rei re, role ∈ tm_Roles m /\
    RegexpWithConfig (tm_Value m) true = Ok rei /\ RegexpWithConfig (tm_Value m) false = Ok re /\
    re_Find rei v = true /\ re_Find re v = true /\
    r = (re_ReplaceAll rei v role, negb (bool_decide (re_ReplaceAll rei v role = role))) /\ r.1 <> "".

Lemma ReplaceRegexpWith_ok x t s out :
  ReplaceRegexpWith x t s = Ok out <-> re_Find x s = true /\ out = re_ReplaceAll x s t.
Proof. unfold ReplaceRegexpWith. destruct (re_Find x s); naive_solver. Qed.

Lemma roles_loop_sound m v roles c r :
  (forall role, role ∈ roles -> role ∈ tm_Roles m) ->
  r ∈ col_roles (fst (roles_loop m v roles c)) -> r ∈ col_roles c \/ granted_by m v r.
Proof.
  revert c. induction roles as [|role roles IH]; intros c Hin; simpl; [auto|].
  destruct (RegexpWithConfig (tm_Value m) true) as [rei|] eqn:Ei; [|auto].
  destruct (ReplaceRegexpWith rei role v) as [out|] eqn:Ri; [|auto].
  assert (Hin' : forall r0, r0 ∈ roles -> r0 ∈ tm_Roles m) by set_solver.
  case_bool_decide as Ho; [by apply IH|].
  destruct (RegexpWithConfig (tm_Value m) false) as [re|] eqn:Es; [|auto].
  destruct (ReplaceRegexpWith re role v) as [out'|] eqn:Rs; intros Hr;
    (apply IH in Hr as [Hr|Hr]; [|by right|done]); [|by left].
  simpl in Hr. apply elem_of_app in Hr as [Hr|Hr%list_elem_of_singleton]; [by left|].
  apply ReplaceRegexpWith_ok in Ri as [? ->]. apply ReplaceRegexpWith_ok in Rs as [? _].
  right. exists role, rei, re. subst r. split; [apply Hin, list_elem_of_here|done].
Qed.

Lemma values_loop_sound m vs c r :
  r ∈ col_roles (fst (values_loop m vs c)) ->
  r ∈ col_roles c \/ exists v, v ∈ vs /\ granted_by m v r.
Proof.
  revert c. induction vs as [|v vs IH]; intros c; simpl; [auto|].
  pose proof (roles_loop_sound m v (tm_Roles m) c r ltac:(auto)) as Hs.
  destruct (roles_loop m v (tm_Roles m) c) as [c' []]; simpl in *; intros Hr.
  - apply IH in Hr as [Hr|(v' & ? & ?)]; [|right; exists v'; set_solver].
    destruct (Hs Hr); [by left|]. right. exists v. set_solver.
  - destruct (Hs Hr); [by left|]. right. exists v. set_solver.
Qed.

Lemma traitsToRoles_sound ms entries c r :
  r ∈ col_roles (traitsToRoles ms entries c) ->
  r ∈ col_roles c \/ exists m vs v, m ∈ ms /\ (tm_Trait m, vs) ∈ entries /\ v ∈ vs /\ granted_by m v r.
Proof.
  revert c. induction ms as [|m ms IH]; intros c; simpl; [auto|].
  intros Hr. apply IH in Hr as [Hr|(m' & vs & v & ? & ?)];
    [|right; exists m', vs, v; split; [by apply list_elem_of_further|done]].
  cut (r ∈ col_roles c \/ exists vs v, (tm_Trait m, vs) ∈ entries /\ v ∈ vs /\ granted_by m v r).
  { intros [?|(vs & v & ?)]; [by left|]. right. exists m, vs, v. split; [apply list_elem_of_here|done]. }
  clear IH. revert c Hr. induction entries as [|[n vs] entries IH]; intros c Hr; simpl in *; [auto|].
  assert (Hw : forall P : Prop, P \/ (exists vs0 v, (tm_Trait m, vs0) ∈ entries /\ v ∈ vs0 /\ granted_by m v r) ->
    P \/ exists vs0 v, (tm_Trait m, vs0) ∈ (n, vs) :: entries /\ v ∈ vs0 /\ granted_by m v r).
  { intros P [?|(vs0 & v & ? & ?)]; [by left|]. right. exists vs0, v.
    split; [by apply list_elem_of_further|done]. }
  case_bool_decide as Hn; simpl in Hr; [|apply Hw; by apply IH].
  pose proof (values_loop_sound m vs c r) as Hs.
  destruct (values_loop m vs c) as [c' []]; simpl in *.
  - destruct (IH _ Hr) as [Hr'|Hr']; [|by apply Hw; right].
    destruct (Hs Hr') as [|(v & ? & ?)]; [by left|]. right. exists vs, v. subst. set_solver.
  - destruct (Hs Hr) as [|(v & ? & ?)]; [by left|]. right. exists vs, v. subst. set_solver.
Qed.

(** *** Each mapping collects on its own *)

Definition adds (ws : list warning) (rs : list (string * bool)) (c : collector) : collector :=
  {| col_warnings := (col_warnings c ++ ws)%list; col_roles := (col_roles c ++ rs)%list |}.

Lemma adds_nil c : adds [] [] c = c.
Proof. destruct c. unfold adds. simpl. by rewrite !app_nil_r. Qed.

Lemma adds_adds ws rs ws' rs' c : adds ws' rs' (adds ws rs c) = adds (ws ++ ws') (rs ++ rs') c.
Proof. unfold adds. simpl. by rewrite !app_assoc. Qed.

Lemma warn_adds w c : warn w c = adds [w] [] c.
Proof. unfold warn, adds. by rewrite app_nil_r. Qed.

Lemma collect_adds r b c : collect r b c = adds [] [(r, b)] c.
Proof. unfold collect, adds. by rewrite app_nil_r. Qed.

Lemma roles_loop_adds m v roles : exists ws rs fl, forall c, roles_loop m v roles c = (adds ws rs c, fl).
Proof.
  induction roles as [|role roles (ws & rs & fl & IH)]; simpl.
  { exists [], [], Next. intros c. by rewrite adds_nil. }
  assert (Hnil : exists ws rs fl, forall c, (c, Next) = (adds ws rs c, fl))
    by (exists [], [], Next; intros; by rewrite adds_nil).
  assert (Hwarn : forall w, exists ws rs fl, forall c, (warn w c, Stop) = (adds ws rs c, fl))
    by (intros w; exists [w], [], Stop; intros; by rewrite warn_adds).
  destruct (RegexpWithConfig (tm_Value m) true) as [rei|]; [|apply Hwarn].
  destruct (ReplaceRegexpWith rei role v) as [out|]; [|done].
  case_bool_decide; [eauto|].
  destruct (RegexpWithConfig (tm_Value m) false) as [re|]; [|apply Hwarn].
  destruct (ReplaceRegexpWith re role v); do 3 eexists; intros c; rewrite IH.
  - by rewrite collect_adds, adds_adds.
  - by rewrite warn_adds, adds_adds.
Qed.

Lemma values_loop_adds m vs : exists ws rs fl, forall c, values_loop m vs c = (adds ws rs c, fl).
Proof.
  induction vs as [|v vs (ws' & rs' & fl' & IH)]; simpl.
  { exists [], [], Next. intros c. by rewrite adds_nil. }
  destruct (roles_loop_adds m v (tm_Roles m)) as (ws & rs & [] & Hr).
  - exists (ws ++ ws')%list, (rs ++ rs')%list, fl'. intros c. by rewrite Hr, IH, adds_adds.
  - exists ws, rs, Stop. intros c. by rewrite Hr.
Qed.

(** The roles one mapping collects from a trait map. *)
Definition collected (m : TraitMapping) (ts : traits) : list (string * bool) :=
  match ts !! tm_Trait m with
  | Some vs => col_roles (fst (values_loop m vs empty_collector))
  | None => []
  end.

Lemma traitsToRoles_collected ms entries c :
  NoDup entries.*1 ->
  col_roles (traitsToRoles ms entries c) =
  (col_roles c ++ mbind (fun m => collected m (list_to_map entries)) ms)%list.
Proof.
  intros Hd. revert c. induction ms as [|m ms IH]; intros c; simpl; [by rewrite app_nil_r|].
  rewrite IH, traits_loop_lookup, app_assoc by done. f_equal. unfold collected.
  destruct (list_to_map entries !! tm_Trait m) as [vs|]; [|by rewrite app_nil_r].
  destruct (values_loop_adds m vs) as (ws & rs & fl & Hv). by rewrite !Hv.
Qed.

Lemma TraitsToRoles_collected ms ts :
  snd (TraitsToRoles ms (map_to_list ts)) = Deduplicate (fst <$> mbind (fun m => collected m ts) ms).
Proof.
  unfold TraitsToRoles. cbn [snd]. rewrite traitsToRoles_collected by apply NoDup_fst_map_to_list.
  by rewrite (list_to_map_to_list (M:=gmap string) ts).
Qed.

(** *** Mappings that are globs *)

Section Globs.
Context `{!RegexpCacheSound, !GlobLaws}.

Lemma glob_config g (i : bool) :
  plain_glob g = true -> exists x, RegexpWithConfig g i = Ok x /\
    re_Compile (if i then "(?i)" +:+ expressionToRegexp g else expressionToRegexp g) = Ok x.
Proof.
  intros Hg. pose proof (glob_compiles g i Hg) as [x Hx]%is_ok_true.
  exists x. split; [|done]. rewrite RegexpWithConfig_cached. unfold compileExpression.
  by rewrite Hx.
Qed.

Lemma granted_by_glob m v r :
  plain_glob (tm_Value m) = true -> granted_by m v r -> globMatch (tm_Value m) v = true.
Proof.
  intros Hg (role & rei & re & _ & _ & Hre & _ & Hf & _).
  destruct (glob_config (tm_Value m) false Hg) as (x & Hx & Hc).
  rewrite Hx in Hre. injection Hre as <-. by rewrite <- (glob_finds _ _ _ Hg Hc).
Qed.

(** A role name the template language leaves alone. *)
Definition plain_role (r : string) : Prop := r <> "" /\ ContainsByte r "$"%char = false.

Definition plain_mapping (m : TraitMapping) : Prop :=
  plain_glob (tm_Value m) = true /\ forall r, r ∈ tm_Roles m -> plain_role r.

Lemma roles_loop_glob m v roles c :
  plain_mapping m -> (forall r, r ∈ roles -> plain_role r) ->
  exists ws, roles_loop m v roles c =
    ({| col_warnings := (col_warnings c ++ ws)%list;
        col_roles := (col_roles c ++
          if globMatch (tm_Value m) v then (fun r => (r, false)) <$> roles else [])%list |}, Next).
Proof.
  intros [Hg _]. destruct (glob_config _ true Hg) as (rei & Hi & Hci).
  destruct (glob_config _ false Hg) as (re & Hs & Hcs).
  pose proof (glob_finds _ _ v Hg Hcs) as Hf.
  revert c. induction roles as [|role roles IH]; intros c Hr; simpl.
  - exists []. rewrite app_nil_r. destruct (globMatch _ _); rewrite app_nil_r; by destruct c.
  - rewrite Hi, Hs. unfold ReplaceRegexpWith. rewrite Hf.
    assert (plain_role role) as [Hne Hd] by (apply Hr, list_elem_of_here).
    destruct (re_Find rei v) eqn:Efi.
    + rewrite (glob_replaces _ true _ _ _ Hg Hci Efi Hd), (bool_decide_false _ Hne).
      destruct (globMatch (tm_Value m) v).
      * edestruct IH as [ws IH']; [set_solver|]. rewrite IH'. exists ws.
        rewrite bool_decide_true by done. simpl. by rewrite <- app_assoc.
      * edestruct IH as [ws IH']; [set_solver|]. rewrite IH'. simpl. rewrite <- app_assoc. eauto.
    + destruct (globMatch (tm_Value m) v) eqn:Em.
      { by rewrite (glob_finds_ignore_case _ _ _ Hg Hci Em) in Efi. }
      exists []. rewrite !app_nil_r. by destruct c.
Qed.

Definition matched_roles (m : TraitMapping) (vs : list string) : list string :=
  mbind (fun v => if globMatch (tm_Value m) v then tm_Roles m else []) vs.

Lemma values_loop_glob m vs c :
  plain_mapping m -> exists ws, values_loop m vs c =
    ({| col_warnings := (col_warnings c ++ ws)%list;
        col_roles := (col_roles c ++ ((fun r => (r, false)) <$> matched_roles m vs))%list |}, Next).
Proof.
  intros Hm. revert c. induction vs as [|v vs IH]; intros c; simpl.
  - exists []. rewrite !app_nil_r. by destruct c.
  - destruct (roles_loop_glob m v (tm_Roles m) c Hm (proj2 Hm)) as [ws ->].
    match goal with |- context [values_loop m vs ?c'] => destruct (IH c') as [ws' ->] end. simpl.
    exists (ws ++ ws')%list. rewrite <- !app_assoc. unfold matched_roles. simpl.
    rewrite fmap_app. by destruct (globMatch (tm_Value m) v).
Qed.

(** The roles of a set of mappings, read off the trait map. *)
Definition granted_roles (ms : list TraitMapping) (ts : traits) : list string :=
  mbind (fun m => matched_roles m (default [] (ts !! tm_Trait m))) ms.

Lemma TraitsToRoles_globs ms entries :
  NoDup entries.*1 -> (forall m, m ∈ ms -> plain_mapping m) ->
  snd (TraitsToRoles ms entries) = Deduplicate (granted_roles ms (list_to_map entries)).
Proof.
  intros Hd Hms. unfold TraitsToRoles. simpl. f_equal.
  cut (forall c, (col_roles (traitsToRoles ms entries c)).*1 =
    ((col_roles c).*1 ++ granted_roles ms (list_to_map entries))%list); [intros Hc; apply Hc|].
  induction ms as [|m ms IH]; intros c; simpl; [by rewrite app_nil_r|].
  rewrite IH by set_solver. rewrite traits_loop_lookup by done.
  destruct (list_to_map entries !! tm_Trait m) as [vs|]; simpl; [|done].
  destruct (values_loop_glob m vs c) as [ws ->]; [set_solver|]. simpl.
  rewrite fmap_app, <- list_fmap_compose, <- app_assoc. f_equal.
  change (fst ∘ _) with (@id string). by rewrite list_fmap_id.
Qed.

Lemma elem_of_granted_roles ms ts r :
  r ∈ granted_roles ms ts <-> exists m v vs, m ∈ ms /\ ts !! tm_Trait m = Some vs /\ v ∈ vs /\
    globMatch (tm_Value m) v = true /\ r ∈ tm_Roles m.
Proof.
  unfold granted_roles, matched_roles. rewrite list_elem_of_bind.
  setoid_rewrite list_elem_of_bind. split.
  - intros (m & (v & Hr & Hv) & Hm). destruct (globMatch (tm_Value m) v) eqn:E; [|set_solver].
    destruct (ts !! tm_Trait m) as [vs|] eqn:Ev; simpl in Hv; [|set_solver]. eauto 10.
  - intros (m & v & vs & Hm & Hvs & Hv & Hg & Hr). exists m. split; [|done].
    exists v. rewrite Hg, Hvs. done.
Qed.
End Globs.
End Properties.
