(* ===== verification/Groups.v ===== *)
(** * Group lookup: [lib/googleoidc/groups.go]

    The Cloud Identity lookup of one login: the pinned and byte-budgeted HTTP
    transport, the paged search, the gates each relation passes, and the
    classification of a failure.  The generated Cloud Identity client is the
    class [CloudIdentity]. *)

From S2P Require Import Prelude GoStrings Utf8 Types Policy.
From Stdlib Require Import Ascii.

Definition groupLookupPageSize : Z := 1000.
Definition groupLookupMaxPages : nat := 10.
Definition groupLookupMaxRelations : Z := 10000.
Definition groupLookupMaxBytes : Z := 4194304.
Definition cloudIdentityHost := "cloudidentity.googleapis.com".
Definition directGroupsPath := "/v1/groups/-/memberships:searchDirectGroups".
Definition groupsParent := "groups/-".
Definition discussionForumLabel := "cloudidentity.googleapis.com/groups.discussion_forum".

(** ** Result of a lookup *)

Inductive groupOutcome :=
| groupOutcomeSucceeded
| groupOutcomeNoGroupsVisible
| groupOutcomeFiltered
| groupOutcomeNamespaceRejected.

Inductive groupFailure :=
| groupFailureTimeout
| groupFailureCanceled
| groupFailureUnauthenticated
| groupFailureInsufficientScope
| groupFailureUnsupportedEdition
| groupFailureAPINotEnabled
| groupFailurePermissionDenied
| groupFailureRateLimited
| groupFailureUnavailable
| groupFailureInvalidResponse
| groupFailureResponseTooLarge
| groupFailurePageLimitExceeded
| groupFailureRelationLimit
| groupFailureRequestFailed.

#[export] Instance groupOutcome_eq_dec : EqDecision groupOutcome.
Proof. solve_decision. Defined.
#[export] Instance groupFailure_eq_dec : EqDecision groupFailure.
Proof. solve_decision. Defined.

Definition groupOutcome_string (o : groupOutcome) : string :=
  match o with
  | groupOutcomeSucceeded => "group_lookup_succeeded"
  | groupOutcomeNoGroupsVisible => "group_lookup_no_groups_visible"
  | groupOutcomeFiltered => "group_lookup_filtered"
  | groupOutcomeNamespaceRejected => "group_lookup_namespace_rejected"
  end.

Definition groupFailure_string (f : groupFailure) : string :=
  match f with
  | groupFailureTimeout => "group_lookup_timeout"
  | groupFailureCanceled => "group_lookup_canceled"
  | groupFailureUnauthenticated => "group_lookup_unauthenticated"
  | groupFailureInsufficientScope => "group_lookup_insufficient_scope"
  | groupFailureUnsupportedEdition => "group_lookup_unsupported_edition"
  | groupFailureAPINotEnabled => "group_lookup_api_not_enabled"
  | groupFailurePermissionDenied => "group_lookup_permission_denied"
  | groupFailureRateLimited => "group_lookup_rate_limited"
  | groupFailureUnavailable => "group_lookup_unavailable"
  | groupFailureInvalidResponse => "group_lookup_invalid_response"
  | groupFailureResponseTooLarge => "group_lookup_response_too_large"
  | groupFailurePageLimitExceeded => "group_lookup_page_limit_exceeded"
  | groupFailureRelationLimit => "group_lookup_relation_limit_exceeded"
  | groupFailureRequestFailed => "group_lookup_request_failed"
  end.

Record groupRejections := {
  rej_Namespace : Z;
  rej_Label : Z;
  rej_Syntax : Z;
  rej_Domain : Z;
}.

Definition noRejections : groupRejections :=
  {| rej_Namespace := 0; rej_Label := 0; rej_Syntax := 0; rej_Domain := 0 |}.

Definition rej_total (r : groupRejections) : Z :=
  rej_Namespace r + rej_Label r + rej_Syntax r + rej_Domain r.

Record groupLookupResult := {
  gl_Groups : list string;
  gl_Mode : string;
  gl_Outcome : option groupOutcome;
  gl_Failure : option groupFailure;
  gl_Rejected : groupRejections;
  gl_UnclassifiedReasons : list string;
}.

Definition lookup_failed (r : groupLookupResult) : bool :=
  match gl_Failure r with Some _ => true | None => false end.

(** ** Errors of a lookup

    A Go error is its chain of causes, in the order [errors.Is] visits them. *)

(** A decoded JSON value of an error detail, as far as the code looks. *)
Inductive jvalue :=
| JString (s : string)
| JOther.

Inductive detail :=
| DMap (fields : gmap string jvalue)
| DOther.

Record apiError := {
  ae_Code : Z;
  ae_Errors : list string;     (* Errors[i].Reason *)
  ae_Details : list detail;
}.

Inductive cause :=
| errCloudIdentityRequest
| errCloudIdentityRedirect
| errCloudIdentityBody
| errCloudIdentityBudget
| errCloudIdentityPageLimit
| errCloudIdentityRelationLimit
| errDeadlineExceeded
| errCanceled
| errApi (e : apiError)
| errJsonSyntax
| errJsonType
| errEOF
| errUnexpectedEOF
| errOther (msg : string).

Definition gerror := list cause.

Inductive gresult (A : Type) :=
| GOk (a : A)
| GErr (e : gerror).
Arguments GOk {A} _.
Arguments GErr {A} _.

(** The tag of a cause that [errors.Is] can compare with. *)
Definition same_cause (a b : cause) : bool :=
  match a, b with
  | errCloudIdentityRequest, errCloudIdentityRequest
  | errCloudIdentityRedirect, errCloudIdentityRedirect
  | errCloudIdentityBody, errCloudIdentityBody
  | errCloudIdentityBudget, errCloudIdentityBudget
  | errCloudIdentityPageLimit, errCloudIdentityPageLimit
  | errCloudIdentityRelationLimit, errCloudIdentityRelationLimit
  | errDeadlineExceeded, errDeadlineExceeded
  | errCanceled, errCanceled
  | errJsonSyntax, errJsonSyntax
  | errJsonType, errJsonType
  | errEOF, errEOF
  | errUnexpectedEOF, errUnexpectedEOF => true
  | _, _ => false
  end.

Definition errors_Is (err : gerror) (target : cause) : bool := existsb (same_cause target) err.

Fixpoint errors_As_api (err : gerror) : option apiError :=
  match err with
  | [] => None
  | errApi e :: _ => Some e
  | _ :: err' => errors_As_api err'
  end.

(** ** Byte budget and transport *)

Definition budget_left (remaining : Z) : Z := remaining.

(** [consume] returns the new remaining bytes and whether [n] was allowed. *)
Definition budget_consume (remaining n : Z) : Z * bool :=
  if remaining <? n then (0, false) else (remaining - n, true).

Record Request := {
  req_URLnil : bool;
  req_Method : string;
  req_Scheme : string;
  req_URLHost : string;
  req_EscapedPath : string;
  req_HasUser : bool;
  req_Opaque : string;
  req_Host : string;
}.

(** A body yields [body_data]; reading on fails or reports the end. *)
Record Body := {
  body_data : string;
  body_read_fails : bool;
  body_close_fails : bool;
}.

(** [io.ReadAll(io.LimitReader(body, n))] *)
Definition read_limited (b : Body) (n : Z) : option string :=
  if n <=? len (body_data b) then Some (str_take (Z.to_nat n) (body_data b))
  else if body_read_fails b then None else Some (body_data b).

Definition requestRejected (path : string) (req : Request) : bool :=
  req_URLnil req
  || negb (bool_decide (req_Method req = "GET"))
  || negb (bool_decide (req_Scheme req = "https"))
  || negb (bool_decide (req_URLHost req = cloudIdentityHost))
  || negb (bool_decide (req_EscapedPath req = path))
  || req_HasUser req || negb (bool_decide (req_Opaque req = ""))
  || (negb (bool_decide (req_Host req = "")) && negb (bool_decide (req_Host req = cloudIdentityHost))).

(** One round trip over [base], the network hop.  A response is its body;
    [None] stands for a nil response or a nil body.  The budget is passed and
    returned, for the pointer that every attempt shares. *)
Definition RoundTrip (base : option (Request -> gresult (option Body))) (path : string)
    (budget : Z) (req : option Request) : Z * gresult string :=
  match base, req with
  | Some hop, Some r =>
      if requestRejected path r then (budget, GErr [errCloudIdentityRequest])
      else match hop r with
      | GErr e => (budget, GErr e)
      | GOk None => (budget, GErr [errCloudIdentityBody])
      | GOk (Some b) =>
          let allowed := budget_left budget in
          match read_limited b (allowed + 1) with
          | None => (budget, GErr [errCloudIdentityBody])
          | Some body =>
              if body_close_fails b then (budget, GErr [errCloudIdentityBody])
              else
                let '(budget', within) := budget_consume budget (len body) in
                if within then (budget', GOk body)
                else (budget', GErr [errCloudIdentityBudget])
          end
      end
  | _, _ => (budget, GErr [errCloudIdentityRequest])
  end.

(** ** The paged search *)

Record GroupKey := {
  gk_Id : string;
  gk_Namespace : string;
}.

Record Relation := {
  rl_GroupKey : option GroupKey;
  rl_Labels : gmap string string;
}.

Record SearchResponse := {
  sr_Memberships : list (option Relation);
  sr_NextPageToken : string;
}.

Record SearchCall := {
  sc_Parent : string;
  sc_Query : string;
  sc_PageSize : Z;
  sc_PageToken : string;
  sc_Fields : list string;
}.

(** The generated client: building it, and running one call over the
    transport pinned to [path], which draws on the byte budget. *)
Class CloudIdentity := {
  ci_NewService : string -> string -> gresult unit;
  ci_Do : string -> string -> SearchCall -> Z -> Z * gresult (option SearchResponse);
}.

Record groupRelation := {
  g_id : string;
  g_namespace : string;
  g_discussionForum : bool;
}.

Definition hasDiscussionForumLabel (labels : gmap string string) : bool :=
  match labels !! discussionForumLabel with Some _ => true | None => false end.

(** [celString]: a CEL string literal. *)
Definition cel_rune (r : rune) : string :=
  if r =? 92 then "\\"
  else if r =? 39 then "\'"
  else if r =? 13 then "\r"
  else if r =? 10 then "\n"
  else if r =? 9 then "\t"
  else encode_rune r.

Definition celString (value : string) : string :=
  "'" +:+ concat_strings (cel_rune <$> runes value) +:+ "'".

Definition searchFields : list string :=
  ["nextPageToken"; "memberships/groupKey/id"; "memberships/groupKey/namespace"; "memberships/labels"].

(** The relations of one page; a nil relation or key rejects the page. *)
Fixpoint page_relations (ms : list (option Relation)) : gresult (list groupRelation) :=
  match ms with
  | [] => GOk []
  | Some {| rl_GroupKey := Some k; rl_Labels := labels |} :: ms' =>
      match page_relations ms' with
      | GErr e => GErr e
      | GOk l => GOk ({| g_id := gk_Id k; g_namespace := gk_Namespace k;
                         g_discussionForum := hasDiscussionForumLabel labels |} :: l)
      end
  | _ => GErr [errCloudIdentityBody]
  end.

Section Search.
Context `{CloudIdentity}.

(** [for page := range groupLookupMaxPages], with [remaining] pages to go. *)
Fixpoint search_loop (accessToken query : string) (remaining : nat) (pageToken : string)
    (relations : list groupRelation) (budget : Z) : Z * gresult (list groupRelation) :=
  match remaining with
  | O => (budget, GErr [errCloudIdentityPageLimit])
  | S remaining' =>
      let '(budget, response) := ci_Do accessToken directGroupsPath
        {| sc_Parent := groupsParent; sc_Query := query; sc_PageSize := groupLookupPageSize;
           sc_PageToken := pageToken; sc_Fields := searchFields |} budget in
      match response with
      | GErr e => (budget, GErr e)
      | GOk None => (budget, GErr [errCloudIdentityBody])
      | GOk (Some response) =>
          match page_relations (sr_Memberships response) with
          | GErr e => (budget, GErr e)
          | GOk pageRelations =>
              let relations := (relations ++ pageRelations)%list in
              if groupLookupMaxRelations <? Z.of_nat (length relations)
              then (budget, GErr [errCloudIdentityRelationLimit])
              else if bool_decide (sr_NextPageToken response = "") then (budget, GOk relations)
              else match remaining' with
              | O => (budget, GErr [errCloudIdentityPageLimit])
              | _ => search_loop accessToken query remaining' (sr_NextPageToken response)
                       relations budget
              end
          end
      end
  end.

Definition searchGroups (accessToken email : string) (budget : Z) : Z * gresult (list groupRelation) :=
  match ci_NewService accessToken directGroupsPath with
  | GErr e => (budget, GErr e)
  | GOk _ =>
      search_loop accessToken ("member_key_id == " +:+ celString email) groupLookupMaxPages "" [] budget
  end.
End Search.

(** ** The gates *)

Definition atext_specials : string := "!#$%&'*+-/=?^_`{|}~".

Definition isAtext (r : rune) : bool :=
  between 97 122 r || between 65 90 r || between 48 57 r
  || existsb (fun a => code a =? r) (bytes_of atext_specials).

Definition validAddressLocalPart (local : string) : bool :=
  if bool_decide (local = "") || (64 <? len local) then false
  else if HasPrefix local "." || HasSuffix local "." || Contains local ".." then false
  else forallb (fun r => (r =? 46) || isAtext r) (runes local).

Definition domainRune (r : rune) : bool :=
  between 97 122 r || between 65 90 r || between 48 57 r || (r =? 45).

Definition validDomainLabel (label : string) : bool :=
  if bool_decide (label = "") || (63 <? len label) || HasPrefix label "-" || HasSuffix label "-"
  then false else forallb domainRune (runes label).

Definition validAddressDomain (domain : string) : bool :=
  if bool_decide (domain = "") || (253 <? len domain) then false
  else
    let labels := Split domain "."%char in
    if (length labels <? 2)%nat then false else forallb validDomainLabel labels.

Definition validGroupAddress (id : string) : bool :=
  if bool_decide (id = "") || (320 <? len id) then false
  else if negb (Count id "@"%char =? 1) then false
  else
    let '(local, domain) := cut_pair id "@"%char in
    validAddressLocalPart local && validAddressDomain domain.

Record gate_state := {
  gst_rejected : groupRejections;
  gst_groups : list string;
  gst_seen : gset string;
}.

Definition bump_Namespace (r : groupRejections) : groupRejections :=
  {| rej_Namespace := rej_Namespace r + 1; rej_Label := rej_Label r;
     rej_Syntax := rej_Syntax r; rej_Domain := rej_Domain r |}.
Definition bump_Label (r : groupRejections) : groupRejections :=
  {| rej_Namespace := rej_Namespace r; rej_Label := rej_Label r + 1;
     rej_Syntax := rej_Syntax r; rej_Domain := rej_Domain r |}.
Definition bump_Syntax (r : groupRejections) : groupRejections :=
  {| rej_Namespace := rej_Namespace r; rej_Label := rej_Label r;
     rej_Syntax := rej_Syntax r + 1; rej_Domain := rej_Domain r |}.
Definition bump_Domain (r : groupRejections) : groupRejections :=
  {| rej_Namespace := rej_Namespace r; rej_Label := rej_Label r;
     rej_Syntax := rej_Syntax r; rej_Domain := rej_Domain r + 1 |}.

Definition with_rejected (st : gate_state) (f : groupRejections -> groupRejections) : gate_state :=
  {| gst_rejected := f (gst_rejected st); gst_groups := gst_groups st; gst_seen := gst_seen st |}.

Section Gates.
Context `{UnicodeTables}.

(** One iteration of the gate loop. *)
Definition gate_step (domains : list string) (st : gate_state) (relation : groupRelation) : gate_state :=
  if negb (bool_decide (g_namespace relation = "")) then with_rejected st bump_Namespace
  else if negb (g_discussionForum relation) then with_rejected st bump_Label
  else if negb (validGroupAddress (g_id relation)) then with_rejected st bump_Syntax
  else
    let group := ToLower (g_id relation) in
    let '(_, domain) := cut_pair group "@"%char in
    if negb (slices_Contains domains domain) then with_rejected st bump_Domain
    else if bool_decide (group ∈ gst_seen st) then st
    else {| gst_rejected := gst_rejected st; gst_groups := (gst_groups st ++ [group])%list;
            gst_seen := {[group]} ∪ gst_seen st |}.

Definition gateRelations (relations : list groupRelation) (domains : list string)
    : list string * groupOutcome * groupRejections :=
  let st := foldl (gate_step domains)
    {| gst_rejected := noRejections; gst_groups := []; gst_seen := ∅ |} relations in
  let rejected := gst_rejected st in
  let groups := gst_groups st in
  if 0 <? rej_Namespace rejected then (groups, groupOutcomeNamespaceRejected, rejected)
  else if 0 <? rej_total rejected then (groups, groupOutcomeFiltered, rejected)
  else if (length relations =? 0)%nat then (groups, groupOutcomeNoGroupsVisible, rejected)
  else (groups, groupOutcomeSucceeded, rejected).

(** ** Classification of a failure *)

Definition maxReasonTokens : nat := 5.
Definition maxReasonLength : Z := 64.

Definition reasonRune (r : rune) : bool :=
  between 97 122 r || between 65 90 r || between 48 57 r || (r =? 95) || (r =? 45) || (r =? 46).

Fixpoint sanitize_loop (clean : list string) (reasons : list string) : list string :=
  match reasons with
  | [] => clean
  | reason :: reasons' =>
      if (length clean =? maxReasonTokens)%nat then clean
      else
        let reason := TrimSpace reason in
        if bool_decide (reason = "") || (maxReasonLength <? len reason) then sanitize_loop clean reasons'
        else if existsb (fun r => negb (reasonRune r)) (runes reason) then sanitize_loop clean reasons'
        else if slices_Contains clean reason then sanitize_loop clean reasons'
        else sanitize_loop (clean ++ [reason])%list reasons'
  end.

Definition sanitizeReasons (reasons : list string) : list string := sanitize_loop [] reasons.

Definition forbiddenReasons : list (string * groupFailure) :=
  [ ("access_token_scope_insufficient", groupFailureInsufficientScope);
    ("insufficientpermissions", groupFailureInsufficientScope);
    ("insufficientscope", groupFailureInsufficientScope);
    ("customernotlicensed", groupFailureUnsupportedEdition);
    ("customer_not_licensed", groupFailureUnsupportedEdition);
    ("not_licensed_for_feature", groupFailureUnsupportedEdition);
    ("unsupported_edition", groupFailureUnsupportedEdition);
    ("service_disabled", groupFailureAPINotEnabled);
    ("accessnotconfigured", groupFailureAPINotEnabled) ].

Definition forbiddenReason (reason : string) : option groupFailure :=
  snd <$> List.find (fun p => bool_decide (p.1 = reason)) forbiddenReasons.

Definition detail_reason (d : detail) : option string :=
  match d with
  | DMap fields =>
      match fields !! "reason" with Some (JString reason) => Some reason | _ => None end
  | DOther => None
  end.

Definition forbiddenReasonsOf (e : apiError) : list string :=
  (ae_Errors e ++ omap detail_reason (ae_Details e))%list.

Fixpoint classify_reasons (reasons : list string) : groupFailure :=
  match reasons with
  | [] => groupFailurePermissionDenied
  | reason :: reasons' =>
      match forbiddenReason (ToLower (TrimSpace reason)) with
      | Some class => class
      | None => classify_reasons reasons'
      end
  end.

Definition classifyForbidden (e : apiError) : groupFailure :=
  classify_reasons (forbiddenReasonsOf e).

Definition classifyApiError (e : apiError) : groupFailure * list string :=
  if ae_Code e =? 401 then (groupFailureUnauthenticated, [])
  else if ae_Code e =? 403 then
    let class := classifyForbidden e in
    if bool_decide (class = groupFailurePermissionDenied) then (class, forbiddenReasonsOf e)
    else (class, [])
  else if ae_Code e =? 429 then (groupFailureRateLimited, [])
  else if 500 <=? ae_Code e then (groupFailureUnavailable, [])
  else (groupFailureRequestFailed, []).

Definition classifyGroupFailureInner (err : gerror) : groupFailure * list string :=
  if errors_Is err errCloudIdentityBudget then (groupFailureResponseTooLarge, [])
  else if errors_Is err errCloudIdentityPageLimit then (groupFailurePageLimitExceeded, [])
  else if errors_Is err errCloudIdentityRelationLimit then (groupFailureRelationLimit, [])
  else if errors_Is err errCloudIdentityBody then (groupFailureInvalidResponse, [])
  else if errors_Is err errCloudIdentityRedirect || errors_Is err errCloudIdentityRequest
  then (groupFailureRequestFailed, [])
  else if errors_Is err errDeadlineExceeded then (groupFailureTimeout, [])
  else if errors_Is err errCanceled then (groupFailureCanceled, [])
  else match errors_As_api err with
  | Some e => classifyApiError e
  | None =>
      if errors_Is err errJsonSyntax || errors_Is err errJsonType || errors_Is err errEOF
         || errors_Is err errUnexpectedEOF
      then (groupFailureInvalidResponse, [])
      else (groupFailureRequestFailed, [])
  end.

Definition classifyGroupFailure (err : gerror) : groupFailure * list string :=
  let '(class, reasons) := classifyGroupFailureInner err in
  if negb (bool_decide (class = groupFailurePermissionDenied)) then (class, [])
  else (class, sanitizeReasons reasons).

(** ** The lookup *)

Definition emptyLookup (mode : string) (failure : option groupFailure) (reasons : list string)
    : groupLookupResult :=
  {| gl_Groups := []; gl_Mode := mode; gl_Outcome := None; gl_Failure := failure;
     gl_Rejected := noRejections; gl_UnclassifiedReasons := reasons |}.

Definition lookupGroups `{CloudIdentity} (settings : GroupSettings) (accessToken email : string)
    : groupLookupResult :=
  let mode := gs_Mode settings in
  if negb (gs_Enabled settings) then emptyLookup mode (Some groupFailureRequestFailed) []
  else if bool_decide (accessToken = "") || bool_decide (TrimSpace email = "")
          || (length (gs_WorkspaceDomains settings) =? 0)%nat
  then emptyLookup mode (Some groupFailureRequestFailed) []
  else
    let '(_, relations) := searchGroups accessToken email groupLookupMaxBytes in
    match relations with
    | GErr err =>
        let '(class, reasons) := classifyGroupFailure err in
        emptyLookup mode (Some class) reasons
    | GOk relations =>
        let '(groups, outcome, rejected) := gateRelations relations (gs_WorkspaceDomains settings) in
        {| gl_Groups := groups; gl_Mode := mode; gl_Outcome := Some outcome; gl_Failure := None;
           gl_Rejected := rejected; gl_UnclassifiedReasons := [] |}
    end.
End Gates.
