(* ===== verification/GroupsFacts.v ===== *)
(** * Properties of the group lookup

    The lemmas about [Groups]: what the gates let through, the address
    grammar, the CEL literal, the byte budget, the page loop and the failure
    classes. *)

From S2P Require Import Prelude GoStrings Utf8 Types Policy Groups.
From Stdlib Require Import Ascii.

(** ** Gates *)

Section Gates.
Context `{UnicodeTables}.

(** What the gates decide about one relation. *)
Inductive verdict :=
| VNamespace
| VLabel
| VSyntax
| VDomain
| VAccept (group : string).

Definition gate_verdict (domains : list string) (relation : groupRelation) : verdict :=
  if negb (bool_decide (g_namespace relation = "")) then VNamespace
  else if negb (g_discussionForum relation) then VLabel
  else if negb (validGroupAddress (g_id relation)) then VSyntax
  else
    let group := ToLower (g_id relation) in
    if slices_Contains domains (cut_pair group "@"%char).2 then VAccept group else VDomain.

Definition accepted (domains : list string) (relation : groupRelation) : option string :=
  match gate_verdict domains relation with VAccept g => Some g | _ => None end.

Definition rejected_as (v : verdict) (domains : list string) (relation : groupRelation) : bool :=
  match gate_verdict domains relation, v with
  | VNamespace, VNamespace | VLabel, VLabel | VSyntax, VSyntax | VDomain, VDomain => true
  | _, _ => false
  end.

Definition count_as (v : verdict) (domains : list string) (relations : list groupRelation) : Z :=
  Z.of_nat (length (List.filter (rejected_as v domains) relations)).

Lemma count_as_app v ds l k : count_as v ds (l ++ k)%list = count_as v ds l + count_as v ds k.
Proof. unfold count_as. rewrite List.filter_app, length_app. lia. Qed.

Lemma count_as_one v ds r : count_as v ds [r] = if rejected_as v ds r then 1 else 0.
Proof. unfold count_as. simpl. by destruct (rejected_as v ds r). Qed.

Lemma dedup_loop_snoc seen l x :
  dedup_loop seen (l ++ [x])%list =
  (dedup_loop seen l ++ if decide (x ∈ seen \/ x ∈ l) then [] else [x])%list.
Proof.
  revert seen. induction l as [|v l IH]; intros seen; simpl.
  - destruct (slices_Contains seen x) eqn:E; autorewrite with go_simpl in E.
    + by rewrite decide_True by auto.
    + rewrite decide_False by set_solver. done.
  - destruct (slices_Contains seen v) eqn:E; autorewrite with go_simpl in E; rewrite IH; simpl.
    + f_equal. repeat case_decide; set_solver.
    + f_equal. f_equal. repeat case_decide; set_solver.
Qed.

(** The state of the gate loop after a list of relations. *)
Lemma gate_loop_spec domains relations :
  let st := foldl (gate_step domains)
    {| gst_rejected := noRejections; gst_groups := []; gst_seen := ∅ |} relations in
  gst_groups st = dedup_loop [] (omap (accepted domains) relations) /\
  (forall g, g ∈ gst_seen st <-> g ∈ omap (accepted domains) relations) /\
  gst_rejected st = {| rej_Namespace := count_as VNamespace domains relations;
    rej_Label := count_as VLabel domains relations;
    rej_Syntax := count_as VSyntax domains relations;
    rej_Domain := count_as VDomain domains relations |}.
Proof.
  induction relations as [|r l IH] using rev_ind; simpl; [split; [done|split; [set_solver|done]]|].
  rewrite foldl_app. simpl in *.
  destruct (foldl _ _ l) as [rej groups seen]; simpl in IH. destruct IH as (-> & Hs & ->).
  rewrite !count_as_app, !count_as_one, omap_app. unfold gate_step, rejected_as, accepted.
  simpl. unfold accepted, gate_verdict.
  destruct (bool_decide (g_namespace r = "")); simpl;
    [|rewrite !Z.add_0_r, app_nil_r; done].
  destruct (g_discussionForum r); simpl; [|rewrite !Z.add_0_r, app_nil_r; done].
  destruct (validGroupAddress (g_id r)); simpl; [|rewrite !Z.add_0_r, app_nil_r; done].
  destruct (cut_pair (ToLower (g_id r)) "@"%char) as [lc dm] eqn:Ec; simpl.
  destruct (slices_Contains domains dm); simpl; rewrite ?Z.add_0_r, ?app_nil_r; [|done].
  rewrite dedup_loop_snoc. case_bool_decide as Hb; simpl.
  - rewrite decide_True by (right; by apply Hs). rewrite app_nil_r.
    split; [done|]. split; [|done]. set_solver.
  - rewrite decide_False by set_solver.
    split; [done|]. split; [|done]. set_solver.
Qed.

Lemma gateRelations_spec domains relations :
  exists outcome,
  gateRelations relations domains =
    (dedup_loop [] (omap (accepted domains) relations), outcome,
     {| rej_Namespace := count_as VNamespace domains relations;
        rej_Label := count_as VLabel domains relations;
        rej_Syntax := count_as VSyntax domains relations;
        rej_Domain := count_as VDomain domains relations |}).
Proof.
  unfold gateRelations. destruct (gate_loop_spec domains relations) as (Hg & _ & Hr).
  rewrite Hg, Hr. repeat case_match; eauto.
Qed.

Lemma verdict_partition domains relations :
  count_as VNamespace domains relations + count_as VLabel domains relations +
  count_as VSyntax domains relations + count_as VDomain domains relations +
  Z.of_nat (length (omap (accepted domains) relations)) = Z.of_nat (length relations).
Proof.
  induction relations as [|r l IH]; [done|].
  change (r :: l) with ([r] ++ l)%list.
  rewrite !count_as_app, !count_as_one, omap_app, !length_app.
  unfold rejected_as. simpl. unfold accepted in *. destruct (gate_verdict domains r); simpl; lia.
Qed.

Lemma accepted_Some domains r g :
  accepted domains r = Some g <->
  g_namespace r = "" /\ g_discussionForum r = true /\ validGroupAddress (g_id r) = true /\
  g = ToLower (g_id r) /\ (cut_pair g "@"%char).2 ∈ domains.
Proof.
  unfold accepted, gate_verdict. rewrite <- slices_Contains_true.
  case_bool_decide; simpl; [|naive_solver].
  destruct (g_discussionForum r); simpl; [|naive_solver].
  destruct (validGroupAddress (g_id r)); simpl; [|naive_solver].
  destruct (slices_Contains domains _) eqn:E; split; try naive_solver congruence.
Qed.

Lemma omap_length_le {A B} (f : A -> option B) l : (length (omap f l) <= length l)%nat.
Proof. induction l as [|x l IH]; csimpl; [done|]. destruct (f x); csimpl; lia. Qed.

Lemma dedup_loop_nil_iff l : dedup_loop [] l = [] <-> l = [].
Proof. destruct l; simpl; [done|]. naive_solver. Qed.

Lemma count_as_nonneg v ds l : 0 <= count_as v ds l.
Proof. unfold count_as. lia. Qed.

(** ** Addresses *)

Lemma isAtext_ascii r : isAtext r = true -> r < RuneSelf.
Proof.
  unfold isAtext, between, RuneSelf. rewrite !orb_true_iff, !andb_true_iff, !Z.leb_le.
  intros [[[?|?]|?]|Hx]; [lia..|]. apply existsb_elem in Hx as (a & Ha & E%Z.eqb_eq).
  revert Ha E. unfold atext_specials. simpl. rewrite !elem_of_cons.
  intros Ha <-. repeat destruct Ha as [->|Ha]; try done. set_solver.
Qed.

Definition dot_atom (local : string) : Prop :=
  local <> "" /\ len local <= 64 /\
  forall p, p ∈ Split local "."%char -> p <> "" /\ forall a, a ∈ bytes_of p -> isAtext (code a) = true.

Definition host_name (domain : string) : Prop :=
  len domain <= 253 /\ (2 <= length (Split domain "."%char))%nat /\
  forall label, label ∈ Split domain "."%char ->
    label <> "" /\ len label <= 63 /\ HasPrefix label "-" = false /\ HasSuffix label "-" = false /\
    forall a, a ∈ bytes_of label -> domainRune (code a) = true.

Lemma validAddressLocalPart_spec local : validAddressLocalPart local = true <-> dot_atom local.
Proof.
  unfold validAddressLocalPart, dot_atom. case_bool_decide as Hne; simpl; [naive_solver|].
  destruct (Z.ltb_spec 64 (len local)); [split; [done|lia]|].
  destruct (HasPrefix local "." || HasSuffix local "." || Contains local "..") eqn:E.
  { split; [done|]. intros (_ & _ & Hp). apply not_false_iff_true in E. exfalso. apply E.
    apply (Split_no_empty local "."%char Hne). intros p Hin. by apply Hp. }
  pose proof (proj1 (Split_no_empty local "."%char Hne) E) as Hp.
  rewrite forallb_runes_bytes, forallb_elem.
  - split.
    + intros Hb. split; [done|]. split; [done|]. intros p Hin. split; [auto|].
      intros a Ha. pose proof (Split_elem_inv _ _ _ _ Hin Ha) as Ha'. apply Hb in Ha'.
      apply orb_true_iff in Ha' as [E'|?]; [|done]. apply Z.eqb_eq in E'.
      change 46 with (code "."%char) in E'. apply code_inj in E'. subst.
      by apply (Split_no_sep local "."%char p) in Ha.
    + intros (_ & _ & Hq) a Ha. destruct (Split_elem _ "."%char _ Ha) as [->|(p & Hin & Hap)]; [done|].
      apply Hq in Hin as [_ Hin]. by rewrite Hin, orb_true_r.
  - intros r Hr. apply orb_true_iff in Hr as [Hr|Hr]; [|by apply isAtext_ascii].
    bool_to_prop. unfold RuneSelf. lia.
Qed.

Lemma domainRune_ascii r : domainRune r = true -> r < RuneSelf.
Proof. unfold domainRune, between, RuneSelf. rewrite !orb_true_iff, !andb_true_iff, !Z.leb_le, Z.eqb_eq. lia. Qed.

Lemma validDomainLabel_spec label :
  validDomainLabel label = true <->
  label <> "" /\ len label <= 63 /\ HasPrefix label "-" = false /\ HasSuffix label "-" = false /\
  forall a, a ∈ bytes_of label -> domainRune (code a) = true.
Proof.
  unfold validDomainLabel. rewrite (forallb_runes_bytes _ _ domainRune_ascii).
  case_bool_decide; simpl; [naive_solver|].
  destruct (Z.ltb_spec 63 (len label)); simpl; [split; [done|lia]|].
  destruct (HasPrefix label "-"); simpl; [naive_solver|].
  destruct (HasSuffix label "-"); simpl; [naive_solver|].
  rewrite forallb_elem. naive_solver.
Qed.

Lemma validAddressDomain_spec domain : validAddressDomain domain = true <-> host_name domain.
Proof.
  unfold validAddressDomain, host_name. case_bool_decide as Hne; simpl.
  { subst. split; [done|]. simpl. lia. }
  destruct (Z.ltb_spec 253 (len domain)); [split; [done|lia]|].
  destruct (Nat.ltb_spec (length (Split domain "."%char)) 2); [split; [done|lia]|].
  rewrite forallb_elem. setoid_rewrite validDomainLabel_spec. naive_solver.
Qed.

Lemma dot_atom_no_at local : dot_atom local -> "@"%char ∉ bytes_of local.
Proof.
  intros (_ & _ & Hp) Hin. destruct (Split_elem _ "."%char _ Hin) as [?|(p & Hp' & Ha)]; [done|].
  apply Hp in Hp' as [_ Hp']. apply Hp' in Ha. done.
Qed.

Lemma host_name_no_at domain : host_name domain -> "@"%char ∉ bytes_of domain.
Proof.
  intros (_ & _ & Hp) Hin. destruct (Split_elem _ "."%char _ Hin) as [?|(p & Hp' & Ha)]; [done|].
  apply Hp in Hp' as (_ & _ & _ & _ & Hp'). apply Hp' in Ha. done.
Qed.

Lemma validGroupAddress_spec id :
  validGroupAddress id = true <->
  exists local domain, id = local +:+ String "@" domain /\ dot_atom local /\ host_name domain.
Proof.
  unfold validGroupAddress. split.
  - case_match; [done|]. case_match; [done|]. bool_to_prop.
    destruct (Count_1_Cut id "@"%char) as (l & d & Hc & -> & _); [done|].
    unfold cut_pair. rewrite Hc. simpl. intros [Hl Hd]%andb_true_iff.
    apply validAddressLocalPart_spec in Hl. apply validAddressDomain_spec in Hd. eauto.
  - intros (l & d & -> & Hl & Hd).
    pose proof (dot_atom_no_at _ Hl) as Hnl. pose proof (host_name_no_at _ Hd) as Hnd.
    rewrite bool_decide_false by (by destruct l). simpl.
    assert (len (l +:+ String "@" d) <= 320) as Hlen.
    { destruct Hl as (_ & ? & _), Hd as (? & _ & _). rewrite len_app.
      change (String "@" d) with ("@" +:+ d). rewrite len_app. change (len "@") with 1. lia. }
    rewrite (proj2 (Z.ltb_ge _ _) Hlen).
    assert (Count (l +:+ String "@" d) "@"%char = 1) as ->.
    { rewrite Count_app, Count_cons, decide_True by done. apply Count_0 in Hnl, Hnd. lia. }
    simpl. unfold cut_pair. rewrite (proj2 (Cut_Some _ _ _ _) (conj eq_refl Hnl)). simpl.
    apply validAddressLocalPart_spec in Hl. apply validAddressDomain_spec in Hd.
    by rewrite Hl, Hd.
Qed.

(** Every byte of a valid address is printable ASCII and neither a comma nor
    any other separator. *)
Lemma validGroupAddress_bytes id a :
  validGroupAddress id = true -> a ∈ bytes_of id ->
  isAtext (code a) = true \/ a = "."%char \/ a = "@"%char.
Proof.
  intros (l & d & -> & Hl & Hd)%validGroupAddress_spec.
  rewrite bytes_of_app, elem_of_app. change (bytes_of (String "@" d)) with ("@"%char :: bytes_of d).
  rewrite elem_of_cons. intros [Ha|[->|Ha]]; [|auto|].
  - destruct (Split_elem _ "."%char _ Ha) as [->|(p & Hp & Hap)]; [auto|].
    left. by apply Hl in Hp as [_ Hp]; auto.
  - destruct (Split_elem _ "."%char _ Ha) as [->|(p & Hp & Hap)]; [auto|]. left.
    destruct Hd as (_ & _ & Hd). apply Hd in Hp as (_ & _ & _ & _ & Hp). apply Hp in Hap.
    unfold domainRune, isAtext in *. rewrite !orb_true_iff in *.
    destruct Hap as [[[?|?]|?]|Hm]; auto. right. apply Z.eqb_eq in Hm.
    apply existsb_elem. exists "-"%char. split; [compute; set_solver|]. by apply Z.eqb_eq.
Qed.
End Gates.

(** ** The CEL literal *)

(** A reader of CEL string literals in single quotes: the text up to the
    closing quote, with the escapes of the language undone, and what follows
    the literal. *)
Fixpoint cel_scan (s : string) : option (string * string) :=
  match s with
  | EmptyString => None
  | String a s' =>
      if Ascii.eqb a "'" then Some ("", s')
      else if Ascii.eqb a "\" then
        match s' with
        | EmptyString => None
        | String b s'' =>
            let unescaped :=
              if Ascii.eqb b "\" then Some "\"%char
              else if Ascii.eqb b "'" then Some "'"%char
              else if Ascii.eqb b "r" then Some "013"%char
              else if Ascii.eqb b "n" then Some "010"%char
              else if Ascii.eqb b "t" then Some "009"%char
              else None in
            match unescaped, cel_scan s'' with
            | Some c, Some (t, rest) => Some (String c t, rest)
            | _, _ => None
            end
        end
      else if existsb (Ascii.eqb a) ["013"; "010"]%char then None
      else match cel_scan s' with Some (t, rest) => Some (String a t, rest) | None => None end
  end.

Definition cel_literal (s : string) : option (string * string) :=
  match CutPrefix s "'" with Some s' => cel_scan s' | None => None end.

(** Invalid UTF-8 is replaced, as [strings.Builder.WriteRune] does. *)
Definition to_valid (s : string) : string := concat_strings (encode_rune <$> runes s).

Lemma to_valid_id s : ValidString s = true -> to_valid s = s.
Proof.
  unfold ValidString, to_valid, runes.
  induction s as [|r ch rest E Hsh IH] using range_string_ind; [done|].
  rewrite E, !fmap_cons. simpl. intros [Hc Hv]%andb_true_iff.
  rewrite (encode_rune_chunk r ch) by done. by rewrite IH.
Qed.

(** The bytes of an encoded rune outside ASCII have their top bit set. *)
Lemma encode_rune_high r :
  (r < 0 \/ RuneSelf <= r) -> forall a, a ∈ bytes_of (encode_rune r) -> RuneSelf <= code a.
Proof.
  unfold RuneSelf, encode_rune, between. intros Hr a.
  assert ((0 <=? r) && (r <=? 127) = false) as ->.
  { apply andb_false_iff. rewrite !Z.leb_gt. lia. }
  assert (forall z, 128 <= z < 256 -> 128 <= code (chr z)) as Hc.
  { intros z Hz. rewrite code_chr; lia. }
  unfold MaxRune.
  repeat (case_match; bool_to_prop); simpl; rewrite ?elem_of_cons, ?elem_of_nil;
    intros Ha; repeat destruct Ha as [->|Ha]; try done; apply Hc;
    repeat match goal with
    | E : (_ && _) || (_ && _) = true |- _ => apply orb_true_iff in E as [E|E]; bool_to_prop
    end; Z.div_mod_to_equations; lia.
Qed.

Lemma cel_scan_plain s rest t k :
  (forall a, a ∈ bytes_of s -> a ∉ ["'"; "\"; "013"; "010"]%char) ->
  cel_scan rest = Some (t, k) -> cel_scan (s +:+ rest) = Some (s +:+ t, k).
Proof.
  intros Hs Hr. induction s as [|a s IH]; [done|].
  rewrite !str_app_cons. simpl.
  assert (a ∉ ["'"; "\"; "013"; "010"]%char) as Ha by (apply Hs, list_elem_of_here).
  rewrite IH by (intros b Hb; apply Hs; by apply list_elem_of_further).
  destruct (Ascii.eqb_spec a "'"); [set_solver|]. destruct (Ascii.eqb_spec a "\"); [set_solver|].
  destruct (Ascii.eqb_spec a "013"); [set_solver|]. destruct (Ascii.eqb_spec a "010"); [set_solver|].
  done.
Qed.

Lemma cel_scan_escape b c rest t k :
  (b, c) ∈ [("\", "\"); ("'", "'"); ("r", "013"); ("n", "010"); ("t", "009")]%char ->
  cel_scan rest = Some (t, k) ->
  cel_scan (String "\" (String b rest)) = Some (String c t, k).
Proof.
  intros Hin Hr. rewrite !elem_of_cons in Hin.
  repeat destruct Hin as [[= -> ->]|Hin]; try (simpl; by rewrite Hr). by apply elem_of_nil in Hin.
Qed.

Lemma cel_scan_rune r rest t k :
  cel_scan rest = Some (t, k) -> cel_scan (cel_rune r +:+ rest) = Some (encode_rune r +:+ t, k).
Proof.
  intros Hr. unfold cel_rune.
  destruct (Z.eqb_spec r 92) as [->|H1]; [by apply (cel_scan_escape "\" "\"); [set_solver|]|].
  destruct (Z.eqb_spec r 39) as [->|H2]; [by apply (cel_scan_escape "'" "'"); [set_solver|]|].
  destruct (Z.eqb_spec r 13) as [->|H3]; [by apply (cel_scan_escape "r" "013"); [set_solver|]|].
  destruct (Z.eqb_spec r 10) as [->|H4]; [by apply (cel_scan_escape "n" "010"); [set_solver|]|].
  destruct (Z.eqb_spec r 9) as [->|H5]; [by apply (cel_scan_escape "t" "009"); [set_solver|]|].
  apply cel_scan_plain; [|done]. intros a Ha Hin.
  assert (code a < RuneSelf) as Hlow.
  { rewrite !elem_of_cons in Hin. unfold RuneSelf.
    destruct Hin as [->|[->|[->|[->|?]]]]; try done. set_solver. }
  destruct (Z.lt_ge_cases r 0); [by pose proof (encode_rune_high r ltac:(lia) a Ha); lia|].
  destruct (Z.le_gt_cases RuneSelf r); [by pose proof (encode_rune_high r ltac:(lia) a Ha); lia|].
  unfold encode_rune, between, RuneSelf in *.
  rewrite (proj2 (Z.leb_le 0 r)), (proj2 (Z.leb_le r 127)) in Ha by lia. simpl in Ha.
  apply list_elem_of_singleton in Ha as ->.
  assert (code (chr r) = r) as Er by (apply code_chr; lia).
  rewrite !elem_of_cons in Hin.
  destruct Hin as [E|[E|[E|[E|E]]]]; [..|by apply elem_of_nil in E];
    rewrite E in Er; vm_compute in Er; lia.
Qed.

Lemma cel_literal_celString v rest :
  cel_literal (celString v +:+ rest) = Some (to_valid v, rest).
Proof.
  unfold celString, cel_literal, to_valid. rewrite str_app_assoc, CutPrefix_app, str_app_assoc.
  induction (runes v) as [|r l IH]; [done|].
  rewrite !fmap_cons. simpl. rewrite !str_app_assoc. by apply cel_scan_rune.
Qed.

(** ** Transport and byte budget *)

(** The only request the pinned transport lets through. *)
Record pinned (path : string) (r : Request) : Prop := {
  pin_url : req_URLnil r = false;
  pin_method : req_Method r = "GET";
  pin_scheme : req_Scheme r = "https";
  pin_host : req_URLHost r = cloudIdentityHost;
  pin_path : req_EscapedPath r = path;
  pin_user : req_HasUser r = false;
  pin_opaque : req_Opaque r = "";
  pin_header : req_Host r = "" \/ req_Host r = cloudIdentityHost;
}.

Lemma requestRejected_false path r : requestRejected path r = false <-> pinned path r.
Proof.
  unfold requestRejected.
  rewrite !orb_false_iff, andb_false_iff, !negb_false_iff, !bool_decide_eq_true. split.
  - intros [[[[[[[? ?] ?] ?] ?] ?] ?] ?]. by split.
  - intros []. repeat split; done.
Qed.

Lemma str_take_length n s : String.length (str_take n s) = Nat.min n (String.length s).
Proof. revert s. induction n as [|n IH]; intros [|a s]; simpl; [done..|by rewrite IH]. Qed.

Lemma RoundTrip_ok base path b req b' body :
  RoundTrip base path b req = (b', GOk body) ->
  (exists r, req = Some r /\ pinned path r) /\ len body <= b /\ b' = b - len body.
Proof.
  unfold RoundTrip, budget_left, budget_consume. intros Ht.
  destruct base as [hop|], req as [r|]; simplify_eq.
  destruct (requestRejected path r) eqn:Er; simplify_eq. apply requestRejected_false in Er.
  destruct (hop r) as [[bd|]|]; simplify_eq.
  destruct (read_limited bd (b + 1)) as [data|]; simplify_eq.
  destruct (body_close_fails bd); simplify_eq.
  destruct (Z.ltb_spec b (len data)); simplify_eq. eauto.
Qed.

Lemma RoundTrip_budget base path b req b' res :
  0 <= b -> RoundTrip base path b req = (b', res) -> 0 <= b' <= b.
Proof.
  unfold RoundTrip, budget_left, budget_consume. intros Hb Ht.
  destruct base as [hop|], req as [r|]; simplify_eq; try lia.
  destruct (requestRejected path r); simplify_eq; [lia|].
  destruct (hop r) as [[bd|]|]; simplify_eq; try lia.
  destruct (read_limited bd (b + 1)) as [data|]; simplify_eq; [|lia].
  destruct (body_close_fails bd); simplify_eq; [lia|].
  pose proof (len_nonneg data). destruct (Z.ltb_spec b (len data)); simplify_eq; lia.
Qed.

(** A body longer than what is left is refused however long it is, after
    reading at most one byte more than the budget. *)
Lemma RoundTrip_over_budget hop path b r bd :
  0 <= b -> pinned path r -> hop r = GOk (Some bd) -> body_close_fails bd = false ->
  b < len (body_data bd) ->
  RoundTrip (Some hop) path b (Some r) = (0, GErr [errCloudIdentityBudget]).
Proof.
  intros Hb Hp Hh Hc Hl. unfold RoundTrip, budget_left, budget_consume, read_limited.
  rewrite (proj2 (requestRejected_false path r) Hp), Hh, Hc.
  rewrite (proj2 (Z.leb_le _ _)) by lia.
  assert (len (str_take (Z.to_nat (b + 1)) (body_data bd)) = b + 1) as E.
  { unfold len in *. rewrite str_take_length. lia. }
  rewrite E, (proj2 (Z.ltb_lt _ _)) by lia. done.
Qed.

(** The round trips of one lookup share one budget; the network may answer
    each of them differently. *)
Fixpoint run_trips (path : string) (b : Z)
    (trips : list (option (Request -> gresult (option Body)) * option Request))
    : Z * list (gresult string) :=
  match trips with
  | [] => (b, [])
  | (base, req) :: trips' =>
      let '(b1, res) := RoundTrip base path b req in
      let '(b2, rest) := run_trips path b1 trips' in
      (b2, res :: rest)
  end.

Definition delivered (l : list (gresult string)) : Z :=
  foldr (fun r acc => match r with GOk body => len body + acc | GErr _ => acc end) 0 l.

Lemma run_trips_budget path b trips b' l :
  0 <= b -> run_trips path b trips = (b', l) -> 0 <= b' /\ delivered l + b' <= b.
Proof.
  revert b b' l. induction trips as [|[base req] trips IH]; intros b b' l Hb Hr; simpl in Hr.
  - simplify_eq. simpl. lia.
  - destruct (RoundTrip base path b req) as [b1 res] eqn:E1.
    destruct (run_trips path b1 trips) as [b2 rest] eqn:E2. simplify_eq.
    pose proof (RoundTrip_budget _ _ _ _ _ _ Hb E1) as Hb1.
    destruct (IH b1 b' rest ltac:(lia) E2) as [? ?]. split; [done|].
    destruct res as [body|e]; simpl; [|lia].
    apply RoundTrip_ok in E1 as (_ & ? & ->). lia.
Qed.

(** ** The page loop *)

Section Search.
Context `{CloudIdentity}.

Definition fetch (accessToken query token : string) (b : Z) : Z * gresult (option SearchResponse) :=
  ci_Do accessToken directGroupsPath
    {| sc_Parent := groupsParent; sc_Query := query; sc_PageSize := groupLookupPageSize;
       sc_PageToken := token; sc_Fields := searchFields |} b.

(** A chain of pages: each is fetched with the token of the one before it,
    and only the last one has no next token. *)
Fixpoint linked (accessToken query token : string) (b : Z) (pages : list SearchResponse) (b' : Z) : Prop :=
  match pages with
  | [] => False
  | p :: pages' =>
      exists b1, fetch accessToken query token b = (b1, GOk (Some p)) /\
      if bool_decide (sr_NextPageToken p = "") then pages' = [] /\ b' = b1
      else linked accessToken query (sr_NextPageToken p) b1 pages' b'
  end.

Definition all_memberships (pages : list SearchResponse) : list (option Relation) :=
  concat (sr_Memberships <$> pages).

Lemma page_relations_app l k rs :
  page_relations (l ++ k)%list = GOk rs <->
  exists r1 r2, page_relations l = GOk r1 /\ page_relations k = GOk r2 /\ rs = (r1 ++ r2)%list.
Proof.
  revert rs. induction l as [|[[[key|] labels]|] l IH]; intros rs; simpl.
  - split; [eauto|]. by intros (? & ? & [= <-] & ? & ->).
  - destruct (page_relations (l ++ k)) as [rk|e] eqn:E.
    + destruct (proj1 (IH rk) eq_refl) as (r1 & r2 & Hl & Hk & ->). rewrite Hl, Hk. naive_solver.
    + split; [done|]. intros (r1 & r2 & Hl & Hk & ->).
      destruct (page_relations l) as [r1'|] eqn:El; simplify_eq.
      assert (GErr e = GOk (r1' ++ r2)%list) as Hd; [|done].
      apply IH. eauto.
  - naive_solver.
  - naive_solver.
Qed.

Lemma search_loop_ok accessToken query n token acc b b' rels :
  search_loop accessToken query n token acc b = (b', GOk rels) <->
  exists pages rs, linked accessToken query token b pages b' /\ (length pages <= n)%nat /\
    page_relations (all_memberships pages) = GOk rs /\ rels = (acc ++ rs)%list /\
    Z.of_nat (length rels) <= groupLookupMaxRelations.
Proof.
  revert token acc b. induction n as [|n IH]; intros token acc b; simpl.
  { split; [done|]. intros ([|p pages] & rs & Hl & Hn & _); simpl in *; [done|lia]. }
  fold (fetch accessToken query token b).
  assert (Hpages : forall (P : list SearchResponse -> Prop), (exists pages, P pages) <->
    P [] \/ exists p pages, P (p :: pages)).
  { intros P. split; [intros [[|p pages] ?]; eauto|]. intros [?|(p & pages & ?)]; eauto. }
  rewrite Hpages. simpl. clear Hpages.
  destruct (fetch accessToken query token b) as [b1 [[p|]|e]] eqn:Ef; [|naive_solver|naive_solver].
  destruct (page_relations (sr_Memberships p)) as [pr|e] eqn:Ep; cycle 1.
  { split; [done|]. intros [(?&?&?)|(p' & pages & rs & (b2 & [= <- <-] & _) & _ & Hrs & _)]; [done|].
    unfold all_memberships in Hrs. simpl in Hrs.
    apply page_relations_app in Hrs as (? & ? & ? & _). congruence. }
  destruct (Z.ltb_spec groupLookupMaxRelations (Z.of_nat (length (acc ++ pr)))) as [Hbig|Hsmall].
  { split; [done|]. intros [(?&?&?)|(p' & pages & rs & (b2 & [= <- <-] & _) & _ & Hrs & -> & Hle)]; [done|].
    unfold all_memberships in Hrs. simpl in Hrs.
    apply page_relations_app in Hrs as (r1 & r2 & ? & _ & ->).
    assert (r1 = pr) as -> by congruence.
    exfalso. rewrite !length_app in Hbig. rewrite !length_app in Hle. lia. }
  destruct (bool_decide (sr_NextPageToken p = "")) eqn:En.
  - split.
    + intros [= <- <-]. right. exists p, [], pr. rewrite En. unfold all_memberships. simpl.
      rewrite app_nil_r. eauto 10 with lia.
    + intros [(?&?&?)|(p' & pages & rs & (b2 & [= <- <-] & Hl) & _ & Hrs & -> & Hle)]; [done|].
      rewrite En in Hl. destruct Hl as [-> ->]. unfold all_memberships in Hrs. simpl in Hrs.
      rewrite app_nil_r in Hrs. congruence.
  - assert (match n with O => (b1, GErr [errCloudIdentityPageLimit])
      | S _ => search_loop accessToken query n (sr_NextPageToken p) (acc ++ pr) b1 end =
      search_loop accessToken query n (sr_NextPageToken p) (acc ++ pr) b1) as -> by (by destruct n).
    rewrite IH. split.
    + intros (pages & rs & Hl & Hn & Hrs & -> & Hle). right. exists p, pages, (pr ++ rs)%list.
      split; [exists b1; by rewrite En|]. split; [lia|]. split; [|by rewrite app_assoc].
      unfold all_memberships. simpl. apply page_relations_app. eauto.
    + intros [(?&?&?)|(p' & pages & rs & (b2 & [= <- <-] & Hl) & Hn & Hrs & -> & Hle)]; [done|].
      rewrite En in Hl. unfold all_memberships in Hrs. simpl in Hrs.
      apply page_relations_app in Hrs as (r1 & r2 & ? & ? & ->).
      assert (r1 = pr) as -> by congruence.
      exists pages, r2. split; [done|]. split; [lia|]. split; [done|].
      rewrite app_assoc in *. done.
Qed.
End Search.

(** ** Failure classes *)

Section Classify.
Context `{UnicodeTables}.

Lemma reasonRune_ascii r : reasonRune r = true -> r < RuneSelf.
Proof. unfold reasonRune, between, RuneSelf. rewrite !orb_true_iff, !andb_true_iff, !Z.leb_le, !Z.eqb_eq. lia. Qed.

(** A reason token that may reach a log. *)
Definition clean_reason (reason : string) : Prop :=
  reason <> "" /\ len reason <= maxReasonLength /\
  forall a, a ∈ bytes_of reason -> reasonRune (code a) = true.

Lemma existsb_negb_forallb {A} (f : A -> bool) l : existsb (fun x => negb (f x)) l = negb (forallb f l).
Proof. induction l as [|x l IH]; simpl; [done|]. by rewrite IH, negb_andb. Qed.

Lemma sanitize_loop_spec clean reasons :
  NoDup clean -> (length clean <= maxReasonTokens)%nat -> (forall r, r ∈ clean -> clean_reason r) ->
  let out := sanitize_loop clean reasons in
  NoDup out /\ (length out <= maxReasonTokens)%nat /\
  forall r, r ∈ out -> clean_reason r /\ (r ∈ clean \/ exists r0, r0 ∈ reasons /\ r = TrimSpace r0).
Proof.
  revert clean. induction reasons as [|r0 reasons IH]; intros clean Hn Hl Hc; simpl; [naive_solver|].
  assert (Hweak : forall out : list string, (forall r, r ∈ out -> clean_reason r /\
      (r ∈ clean \/ exists r1, r1 ∈ reasons /\ r = TrimSpace r1)) ->
    forall r, r ∈ out -> clean_reason r /\
      (r ∈ clean \/ exists r1, r1 ∈ r0 :: reasons /\ r = TrimSpace r1)).
  { intros out Ho r Hr. destruct (Ho r Hr) as [? [?|(r1 & ? & ?)]]; [auto|].
    split; [done|]. right. exists r1. split; [by apply list_elem_of_further|done]. }
  pose proof (IH clean Hn Hl Hc) as (IHn & IHl & IHo).
  assert (Hskip : let out := sanitize_loop clean reasons in
    NoDup out /\ (length out <= maxReasonTokens)%nat /\
    forall r, r ∈ out -> clean_reason r /\
      (r ∈ clean \/ exists r1, r1 ∈ r0 :: reasons /\ r = TrimSpace r1)).
  { split; [done|]. split; [done|]. by apply Hweak. }
  destruct (Nat.eqb_spec (length clean) maxReasonTokens).
  { split; [done|]. split; [done|]. intros r Hr. split; [auto|by left]. }
  destruct (bool_decide (TrimSpace r0 = "") || _) eqn:E1; [exact Hskip|].
  rewrite existsb_negb_forallb, (forallb_runes_bytes _ _ reasonRune_ascii).
  destruct (forallb _ (bytes_of (TrimSpace r0))) eqn:E2; simpl; [|exact Hskip].
  destruct (slices_Contains clean (TrimSpace r0)) eqn:E3; autorewrite with go_simpl in E3; [exact Hskip|].
  clear Hskip Hweak IHn IHl IHo.
  bool_to_prop. rewrite forallb_elem in E2.
  destruct (IH (clean ++ [TrimSpace r0])%list) as (? & ? & Hout).
  - apply NoDup_app. split; [done|]. split; [set_solver|]. apply NoDup_singleton.
  - rewrite length_app. simpl. unfold maxReasonTokens in *. lia.
  - intros r [?| ->%list_elem_of_singleton]%elem_of_app; [auto|]. by split.
  - split; [done|]. split; [done|]. intros r Hr.
    destruct (Hout r Hr) as [? [[?| ->%list_elem_of_singleton]%elem_of_app|(r1 & ? & ?)]];
      (split; [done|]); [by left| |]; right; eauto using list_elem_of_here, list_elem_of_further.
Qed.

Lemma sanitizeReasons_spec reasons :
  NoDup (sanitizeReasons reasons) /\ (length (sanitizeReasons reasons) <= maxReasonTokens)%nat /\
  forall r, r ∈ sanitizeReasons reasons ->
    clean_reason r /\ exists r0, r0 ∈ reasons /\ r = TrimSpace r0.
Proof.
  destruct (sanitize_loop_spec [] reasons) as (? & ? & Hs); [constructor|simpl; lia|set_solver|].
  split; [done|]. split; [done|]. intros r Hr. apply Hs in Hr as [? [?|?]]; [set_solver|done].
Qed.

Lemma classifyGroupFailure_spec err class reasons :
  classifyGroupFailure err = (class, reasons) ->
  (class <> groupFailurePermissionDenied -> reasons = []) /\
  exists raw, reasons = [] \/ reasons = sanitizeReasons raw.
Proof.
  unfold classifyGroupFailure. destruct (classifyGroupFailureInner err) as [c r].
  case_bool_decide as Hc; simpl; intros [= <- <-]; (split; [done|]).
  - exists r. by right.
  - exists []. by left.
Qed.

Lemma lookupGroups_failed `{CloudIdentity} settings token email :
  lookup_failed (lookupGroups settings token email) = true ->
  gl_Groups (lookupGroups settings token email) = [].
Proof.
  unfold lookupGroups, lookup_failed. repeat (case_match; simplify_eq/=; try done).
Qed.

Lemma lookupGroups_ok `{CloudIdentity} settings token email g :
  g ∈ gl_Groups (lookupGroups settings token email) ->
  exists b rels rel, searchGroups token email groupLookupMaxBytes = (b, GOk rels) /\ rel ∈ rels /\
    accepted (gs_WorkspaceDomains settings) rel = Some g.
Proof.
  unfold lookupGroups.
  destruct (negb (gs_Enabled settings)); [by intros ?%elem_of_nil|].
  destruct (_ || _ || _); [by intros ?%elem_of_nil|].
  destruct (searchGroups token email groupLookupMaxBytes) as [b [rels|err]].
  - destruct (gateRelations_spec (gs_WorkspaceDomains settings) rels) as [o ->]. simpl.
    rewrite dedup_loop_spec, list_elem_of_omap. intros [(rel & Hin & Ha) _]. eauto 10.
  - destruct (classifyGroupFailure err). by intros ?%elem_of_nil.
Qed.
End Classify.
