(* ===== verification/LoginAudit.v ===== *)
(** * The login event: [lib/googleoidc/audit.go]

    What a callback collects for the audit log, and the event it becomes.  A
    failed login is reported by its class; no text of the provider is. *)

From S2P Require Import Prelude GoStrings Utf8 Types Groups.

Inductive failureClass :=
| failureProviderError
| failureInvalidCallback
| failureUnknownState
| failureCallbackReplayed
| failureRequestValidation
| failureConnectorResolution
| failurePKCEVerification
| failureRedirectValidation
| failureProviderConfiguration
| failureTokenExchange
| failureIDTokenValidation
| failureIdentityValidation
| failureHostedDomain
| failureEmailDomain
| failureClaimsProcessing
| failureRoleMapping
| failureUserCreation
| failureLoginHook
| failureUserState
| failureCredentialIssuance
| failureInternal.

#[export] Instance failureClass_eq_dec : EqDecision failureClass.
Proof. solve_decision. Defined.

Definition failureClass_string (c : failureClass) : string :=
  match c with
  | failureProviderError => "provider_error"
  | failureInvalidCallback => "invalid_callback"
  | failureUnknownState => "unknown_state"
  | failureCallbackReplayed => "callback_replayed"
  | failureRequestValidation => "request_validation_failed"
  | failureConnectorResolution => "connector_resolution_failed"
  | failurePKCEVerification => "pkce_verification_failed"
  | failureRedirectValidation => "redirect_validation_failed"
  | failureProviderConfiguration => "provider_configuration_failed"
  | failureTokenExchange => "token_exchange_failed"
  | failureIDTokenValidation => "id_token_validation_failed"
  | failureIdentityValidation => "identity_validation_failed"
  | failureHostedDomain => "hosted_domain_denied"
  | failureEmailDomain => "email_domain_denied"
  | failureClaimsProcessing => "claims_processing_failed"
  | failureRoleMapping => "role_mapping_failed"
  | failureUserCreation => "user_creation_failed"
  | failureLoginHook => "login_hook_failed"
  | failureUserState => "user_state_failed"
  | failureCredentialIssuance => "credential_issuance_failed"
  | failureInternal => "internal_error"
  end.

Definition roleSourceEmail := "email".
Definition roleSourceGroups := "groups".
Definition roleSourceBoth := "both".
Definition roleSourceNone := "none".
Definition auditFailureUserMessage := "OIDC login failed.".
Definition stateFailureUserMessage :=
  "OIDC login session is not valid. Please start the login again.".
Definition maxAuditUserAgentBytes : Z := 512.

Record callbackAudit := {
  a_emit : bool;
  a_request : option OIDCAuthRequest;
  a_connectorID : string;
  a_failureClass : option failureClass;    (* [None] is the empty class *)
  a_roleSource : string;
  a_roleMappingWarnings : Z;
  a_appliedLoginRules : list string;
  a_groupLookup : option groupLookupResult;
  a_groupLookupSet : bool;
}.

Definition newCallbackAudit : callbackAudit := {|
  a_emit := false; a_request := None; a_connectorID := ""; a_failureClass := None;
  a_roleSource := roleSourceNone; a_roleMappingWarnings := 0; a_appliedLoginRules := [];
  a_groupLookup := None; a_groupLookupSet := false;
|}.

Definition setRequest (request : OIDCAuthRequest) (a : callbackAudit) : callbackAudit := {|
  a_emit := true; a_request := Some request; a_connectorID := r_ConnectorID request;
  a_failureClass := a_failureClass a; a_roleSource := a_roleSource a;
  a_roleMappingWarnings := a_roleMappingWarnings a; a_appliedLoginRules := a_appliedLoginRules a;
  a_groupLookup := a_groupLookup a; a_groupLookupSet := a_groupLookupSet a;
|}.

(** [audit.failureClass = class] *)
Definition setFailureClass (class : failureClass) (a : callbackAudit) : callbackAudit := {|
  a_emit := a_emit a; a_request := a_request a; a_connectorID := a_connectorID a;
  a_failureClass := Some class; a_roleSource := a_roleSource a;
  a_roleMappingWarnings := a_roleMappingWarnings a; a_appliedLoginRules := a_appliedLoginRules a;
  a_groupLookup := a_groupLookup a; a_groupLookupSet := a_groupLookupSet a;
|}.

(** [audit.connectorID = name] *)
Definition setConnectorID (name : string) (a : callbackAudit) : callbackAudit := {|
  a_emit := a_emit a; a_request := a_request a; a_connectorID := name;
  a_failureClass := a_failureClass a; a_roleSource := a_roleSource a;
  a_roleMappingWarnings := a_roleMappingWarnings a; a_appliedLoginRules := a_appliedLoginRules a;
  a_groupLookup := a_groupLookup a; a_groupLookupSet := a_groupLookupSet a;
|}.

Definition setGroupLookup (result : groupLookupResult) (a : callbackAudit) : callbackAudit := {|
  a_emit := a_emit a; a_request := a_request a; a_connectorID := a_connectorID a;
  a_failureClass := a_failureClass a; a_roleSource := a_roleSource a;
  a_roleMappingWarnings := a_roleMappingWarnings a; a_appliedLoginRules := a_appliedLoginRules a;
  a_groupLookup := Some result; a_groupLookupSet := true;
|}.

(** How roles were calculated. *)
Record roleMappingAudit := {
  rma_roleSource : string;
  rma_roleMappingWarnings : Z;
  rma_appliedLoginRules : list string;
}.

Definition setRoleMapping (r : roleMappingAudit) (a : callbackAudit) : callbackAudit := {|
  a_emit := a_emit a; a_request := a_request a; a_connectorID := a_connectorID a;
  a_failureClass := a_failureClass a; a_roleSource := rma_roleSource r;
  a_roleMappingWarnings := rma_roleMappingWarnings r;
  a_appliedLoginRules := rma_appliedLoginRules r;
  a_groupLookup := a_groupLookup a; a_groupLookupSet := a_groupLookupSet a;
|}.

(** The provider's own error is dropped. *)
Definition providerError (class : failureClass) (_ : error) : error :=
  WithUserMessage (AccessDenied "OIDC callback failed: %s" [failureClass_string class])
    auditFailureUserMessage.

(** ** The event *)

Inductive attribute :=
| AString (s : string)
| ABool (b : bool)
| AInt (n : Z).

Record UserLogin := {
  ev_Code : string;
  ev_Attributes : gmap string attribute;
  ev_AppliedLoginRules : list string;
  ev_ConnectorID : string;
  ev_Success : bool;
  ev_RemoteAddr : string;
  ev_UserAgent : string;
  ev_User : string;
  ev_Error : string;
  ev_UserMessage : string;
}.

Definition UserSSOLoginCode := "T1001I".
Definition UserSSOLoginFailureCode := "T1001W".
Definition UserSSOTestFlowLoginCode := "T1010I".
Definition UserSSOTestFlowLoginFailureCode := "T1011W".

Definition groupAuditAttributes (a : callbackAudit) : gmap string attribute :=
  match a_groupLookupSet a, a_groupLookup a with
  | true, Some result =>
      let class :=
        match gl_Failure result with
        | Some f => groupFailure_string f
        | None => match gl_Outcome result with Some o => groupOutcome_string o | None => "" end
        end in
      list_to_map [
        ("group_lookup_class", AString class);
        ("group_lookup_mode", AString (gl_Mode result));
        ("group_count", AInt (Z.of_nat (length (gl_Groups result))));
        ("group_lookup_rejected_namespace", AInt (rej_Namespace (gl_Rejected result)));
        ("group_lookup_rejected_label", AInt (rej_Label (gl_Rejected result)));
        ("group_lookup_rejected_syntax", AInt (rej_Syntax (gl_Rejected result)));
        ("group_lookup_rejected_domain", AInt (rej_Domain (gl_Rejected result)))]
  | _, _ => ∅
  end.

Definition eventCode (success testFlow : bool) : string :=
  if success && testFlow then UserSSOTestFlowLoginCode
  else if negb success && testFlow then UserSSOTestFlowLoginFailureCode
  else if negb success then UserSSOLoginFailureCode
  else UserSSOLoginCode.

(** The event of one callback.  [username] is the name of the response, and
    [None] stands for a failed callback. *)
Definition loginEvent (audit : callbackAudit) (username : option string) : UserLogin :=
  let testFlow := match a_request audit with Some r => r_SSOTestFlow r | None => false end in
  let success := match username with Some _ => true | None => false end in
  {| ev_Code := eventCode success testFlow;
     ev_Attributes := groupAuditAttributes audit ∪ list_to_map [
       ("role_source", AString (a_roleSource audit));
       ("sso_test_flow", ABool testFlow);
       ("role_mapping_warnings", AInt (a_roleMappingWarnings audit))];
     ev_AppliedLoginRules := a_appliedLoginRules audit;
     ev_ConnectorID := a_connectorID audit;
     ev_Success := success;
     ev_RemoteAddr := match a_request audit with Some r => r_ClientLoginIP r | None => "" end;
     ev_UserAgent :=
       match a_request audit with
       | Some r =>
           let userAgent := r_ClientUserAgent r in
           if negb (bool_decide (userAgent = "")) && (len userAgent <=? maxAuditUserAgentBytes)
              && ValidString userAgent
           then userAgent else ""
       | None => ""
       end;
     ev_User := default "" username;
     ev_Error :=
       if success then ""
       else failureClass_string (default failureInternal (a_failureClass audit));
     ev_UserMessage := if success then "" else auditFailureUserMessage |}.

(** ** Properties *)

(** The class names are pairwise different, so a log line names one class. *)
Lemma failureClass_string_inj c d : failureClass_string c = failureClass_string d -> c = d.
Proof. by destruct c, d. Qed.

Lemma loginEvent_user_agent audit u :
  len (ev_UserAgent (loginEvent audit u)) <= maxAuditUserAgentBytes /\
  ValidString (ev_UserAgent (loginEvent audit u)) = true.
Proof.
  simpl. destruct (a_request audit) as [r|]; [|done].
  destruct (_ && _) eqn:E; [|done]. by bool_to_prop.
Qed.
