(* ===== verification/Transport.v ===== *)
(** * The provider transport: [lib/googleoidc/transport.go]

    Every request to the provider goes through a round tripper that knows
    three addresses.  [client_Do] is the redirect loop of [net/http]; the
    theorems are about what reaches the network through it. *)

From S2P Require Import Prelude GoStrings Types.

Definition googleDiscoveryEndpoint := "https://accounts.google.com/.well-known/openid-configuration".
Definition googleAuthorizationEndpoint := "https://accounts.google.com/o/oauth2/v2/auth".
Definition googleTokenEndpoint := "https://oauth2.googleapis.com/token".
Definition googleJWKSEndpoint := "https://www.googleapis.com/oauth2/v3/certs".
Definition maxRedirects : Z := 10.

Definition allowedEndpoints : list string :=
  [googleDiscoveryEndpoint; googleTokenEndpoint; googleJWKSEndpoint].

(** A URL by its text; [None] is a nil URL. *)
Definition isAllowedEndpoint (endpoint : option string) : bool :=
  match endpoint with
  | None => false
  | Some target => existsb (fun allowed => bool_decide (target = allowed)) allowedEndpoints
  end.

(** A response ends the exchange or points elsewhere. *)
Inductive Response :=
| Final (body : string)
| Redirect (location : option string).

(** The network keeps the list of the URLs it was asked for. *)
Definition Wire := list (option string).
Definition RoundTripper := option string -> M Wire Response.

Definition allowListRoundTripper (next : RoundTripper) : RoundTripper := fun url =>
  deny_if negb (isAllowedEndpoint url)
    with AccessDenied "OIDC provider endpoint is not allowed" [];
  next url.

(** A client: its transport, and its redirect policy, which sees the new URL
    and the ones before it. *)
Record HTTPClient := {
  hc_Transport : option RoundTripper;
  hc_CheckRedirect : option (option string -> list (option string) -> result unit);
}.

Definition restrictedRedirect (previous : option (option string -> list (option string) -> result unit))
    (url : option string) (via : list (option string)) : result unit :=
  fail_if negb (isAllowedEndpoint url) with AccessDenied "OIDC provider redirect is not allowed" [];
  match previous with
  | Some check_ => check_ url via
  | None =>
      fail_if maxRedirects <=? Z.of_nat (length via)
        with AccessDenied "too many OIDC provider redirects" [];
      Ok tt
  end.

Definition RestrictClientToGoogle (client : option HTTPClient) : result HTTPClient :=
  match client with
  | None => Err (BadParameter "missing http client" [])
  | Some c =>
      match hc_Transport c with
      | None => Err (BadParameter
          "the OIDC http client has no transport to wrap: the response size bound would be lost" [])
      | Some next =>
          Ok {| hc_Transport := Some (allowListRoundTripper next);
                hc_CheckRedirect := Some (restrictedRedirect (hc_CheckRedirect c)) |}
      end
  end.

(** [NewHTTPClient], over the transport of the defaults and the bounded round
    tripper of [lib/oidc]. *)
Definition NewHTTPClient (transport : result RoundTripper) (bounded : RoundTripper -> RoundTripper)
    : result HTTPClient :=
  let? t := transport in
  RestrictClientToGoogle (Some {| hc_Transport := Some (bounded t); hc_CheckRedirect := None |}).

(** [http.Client.Do]: one round trip, then the redirect policy, and so on. *)
Fixpoint client_Do (fuel : nat) (c : HTTPClient) (via : list (option string)) (url : option string)
    : M Wire (option string) :=
  match fuel with
  | O => mret None
  | S fuel' =>
      match hc_Transport c with
      | None => mfail (BadParameter "no transport" [])
      | Some rt =>
          let* resp := rt url in
          match resp with
          | Final body => mret (Some body)
          | Redirect location =>
              let via := (via ++ [url])%list in
              do* mlift (match hc_CheckRedirect c with
                         | Some check_ => check_ location via
                         | None => Ok tt
                         end);
              client_Do fuel' c via location
          end
      end
  end.

(** ** Properties *)

Lemma isAllowedEndpoint_true u :
  isAllowedEndpoint u = true <-> exists t, u = Some t /\ t ∈ allowedEndpoints.
Proof.
  destruct u as [t|]; simpl; [|naive_solver].
  rewrite !orb_true_iff, !bool_decide_eq_true. unfold allowedEndpoints. set_solver.
Qed.

(** What a transport asks of the wire: at most the URL it was given. *)
Definition asks_only (rt : RoundTripper) : Prop :=
  forall url w w' r, rt url w = (w', r) -> w' = w \/ w' = (w ++ [url])%list.

Definition only_allowed (w w' : Wire) : Prop :=
  exists urls, w' = (w ++ urls)%list /\ Forall (fun u => isAllowedEndpoint u = true) urls.

#[export] Instance only_allowed_preorder : PreOrder only_allowed.
Proof.
  split.
  - intros w. exists []. by rewrite app_nil_r.
  - intros w1 w2 w3 (u1 & -> & H1) (u2 & -> & H2). exists (u1 ++ u2)%list.
    rewrite app_assoc. split; [done|]. by apply Forall_app.
Qed.

Lemma allowListRoundTripper_wire next url :
  asks_only next -> step_in only_allowed (allowListRoundTripper next url).
Proof.
  intros Ha w w' r. unfold allowListRoundTripper.
  destruct (isAllowedEndpoint url) eqn:E; simpl; [|by intros [= <- <-]].
  intros Hn. apply Ha in Hn as [->| ->]; [done|].
  exists [url]. split; [done|]. by constructor.
Qed.

(** Nothing but an allowed URL reaches the wire, whatever the responses and
    redirects are. *)
Lemma client_Do_wire fuel c c' via url next :
  hc_Transport c = Some next -> asks_only next -> RestrictClientToGoogle (Some c) = Ok c' ->
  step_in only_allowed (client_Do fuel c' via url).
Proof.
  unfold RestrictClientToGoogle. intros Hn Ha. rewrite Hn. intros [= <-].
  revert via url. induction fuel as [|fuel IH]; intros via url; simpl; [apply step_in_mret; apply _|].
  apply step_in_mthen; [apply _|by apply allowListRoundTripper_wire|]. intros [body|location].
  - apply step_in_mret, _.
  - apply step_in_mthen; [apply _|apply step_in_mlift, _|]. intros _. apply IH.
Qed.

(** A client without a redirect policy of its own comes to an end: a request
    makes at most ten hops after the first. *)
Lemma client_Do_ends fuel c c' via url w w' r next :
  hc_Transport c = Some next -> hc_CheckRedirect c = None -> RestrictClientToGoogle (Some c) = Ok c' ->
  (Z.to_nat maxRedirects < fuel + length via)%nat -> (0 < fuel)%nat ->
  client_Do fuel c' via url w = (w', r) -> r <> Ok None.
Proof.
  unfold RestrictClientToGoogle. intros Hn Hr. rewrite Hn, Hr. intros [= <-].
  revert via url w. induction fuel as [|fuel IH]; intros via url w Hf Hpos; [lia|]. simpl.
  unfold mthen. destruct (allowListRoundTripper next url w) as [w1 [[body|location]|e]].
  - by intros [= <- <-].
  - unfold mlift. destruct (restrictedRedirect None location (via ++ [url])) as [u|e] eqn:E; [|by intros [= <- <-]].
    unfold restrictedRedirect in E. inv_ok. bool_to_prop.
    match goal with E : Z.of_nat _ < maxRedirects |- _ => rewrite length_app in E; simpl in E end.
    unfold maxRedirects in *. apply IH; [rewrite length_app; simpl; lia|lia].
  - by intros [= <- <-].
Qed.

Lemma allowListRoundTripper_denied next url w :
  isAllowedEndpoint url = false ->
  allowListRoundTripper next url w = (w, Err (AccessDenied "OIDC provider endpoint is not allowed" [])).
Proof. unfold allowListRoundTripper. by intros ->. Qed.
