(* ===== verification/Service.v ===== *)
(** * The OIDC service: [lib/googleoidc/service.go] and [request.go]

    The auth server and the provider are the interfaces [AuthServer] and
    [Provider]: one operation per upstream call the runtime makes.  [quiet]
    states what the single-use state relies on, that nothing upstream writes
    the keys of the runtime. *)

From S2P Require Import Prelude GoStrings Utf8 Types Sha256 Key Backend State Policy Identity.
From S2P Require Import Groups LoginAudit Transport.

(** ** Interfaces *)

Record UserState := {
  us_Name : string;
  us_Roles : list string;
  us_Traits : traits;
}.

Record NewWebSessionRequest := {
  nws_User : string;
  nws_Roles : list string;
  nws_Traits : traits;
  nws_SessionTTL : duration;
  nws_LoginTime : time;
  nws_LoginIP : string;
  nws_LoginUserAgent : string;
  nws_AttestWebSession : bool;
  nws_CreateDeviceWebToken : bool;
  nws_Scope : string;
}.

Record SessionCertsRequest := {
  scr_UserState : UserState;
  scr_SessionTTL : duration;
  scr_SSHPubKey : string;
  scr_TLSPubKey : string;
  scr_SSHAttestationStatement : string;
  scr_TLSAttestationStatement : string;
  scr_Compatibility : string;
  scr_RouteToCluster : string;
  scr_KubernetesCluster : string;
  scr_LoginIP : string;
  scr_Scope : string;
}.

(** Web sessions, certificates, authorities and client options stay opaque. *)
Class AuthServer (W : Type) := {
  WebSession : Type;
  Certificate : Type;
  CertAuthority : Type;
  ClientOptions : Type;
  as_GetOIDCConnector : string -> bool -> M W OIDCConnector;
  as_GetUser : string -> M W User;
  as_GetUsers : M W (list User);
  as_CreateUser : User -> M W unit;
  as_UpdateUser : User -> M W unit;
  as_Evaluate : traits -> M W (traits * list string);
  (* the session TTL limits of the roles fetched, zero for none *)
  as_FetchRoles : list string -> traits -> M W (list duration);
  as_CallLoginHooks : User -> M W unit;
  as_GetUserOrLoginState : string -> M W UserState;
  as_CreateWebSessionFromReq : NewWebSessionRequest -> M W WebSession;
  as_CreateSessionCerts : SessionCertsRequest -> M W (Certificate * Certificate);
  as_GetClusterName : M W string;
  as_GetCertAuthority : string -> M W CertAuthority;
  as_ClientOptionsForLogin : UserState -> M W ClientOptions;
  as_EmitAuditEvent : UserLogin -> M W unit;
  (* [sso.ValidateClientRedirect]; the flag is the ceremony type, test or login *)
  sso_ValidateClientRedirect : string -> bool -> option (list string) -> result unit;
}.

Record DiscoveryConfiguration := {
  dc_Issuer : string;
  dc_AuthorizationEndpoint : string;
  dc_TokenEndpoint : string;
  dc_JwksURI : string;
}.

Record OAuth2Config := {
  oc_ClientID : string;
  oc_ClientSecret : string;
  oc_RedirectURL : string;
  oc_Scopes : list string;
  oc_AuthURL : string;
  oc_TokenURL : string;
}.

Inductive AuthCodeOption :=
| SetAuthURLParam (key value : string)
| S256ChallengeOption (verifier : string).

(** A decoded JSON value.  A number carries its text: [FormatFloat(v, 'f', -1)]
    for a [float64], the literal for a [json.Number]. *)
Inductive claimValue :=
| CString (s : string)
| CStrings (l : list string)
| CAny (l : list claimValue)
| CBool (b : bool)
| CFloat (text : string)
| CNumber (text : string)
| COther.

Definition OIDCClaims := gmap string claimValue.

Record IDTokenClaims := {
  id_Issuer : string;
  id_Audience : list string;
  id_Nonce : string;
  id_Subject : string;
  id_Name : string;
  id_Email : string;
  id_EmailVerified : bool;
  id_IssuedAt : time;
  id_NotBefore : time;
  id_Expiration : time;
  id_ACR : string;
  id_Claims : OIDCClaims;
}.

(** [None] for an [id_token] that is absent or not a string. *)
Record Token := {
  tk_AccessToken : string;
  tk_IDToken : option string;
}.

Record validatorKey := {
  vk_issuer : string;
  vk_audience : string;
  vk_connector : string;
}.

Class Provider (W : Type) := {
  p_Discover : string -> M W (option DiscoveryConfiguration);
  p_Exchange : OAuth2Config -> string -> string -> M W Token;   (* code, PKCE verifier *)
  p_GetValidator : validatorKey -> M W unit;
  p_ValidateToken : validatorKey -> string -> string -> M W (option IDTokenClaims); (* nonce last *)
  p_claimsToMap : option IDTokenClaims -> result OIDCClaims;
  p_AuthCodeURL : OAuth2Config -> string -> list AuthCodeOption -> string;
  rnd_CryptoRandomHex : Z -> M W string;
  rnd_GenerateVerifier : M W string;
}.

(** ** Requests *)

Definition OIDCAuthRequestTTL : duration := 10 * 60 * Second.
Definition TokenLenBytes : Z := 16.

Definition errMFANotSupported : error :=
  Error KNotImplemented "this fork does not support OIDC SSO MFA" [] [].

(** The fields of the service that are not interfaces. *)
Record Service := {
  sv_state : StateStore;
}.

(** The dependencies of a service: what is given, and what the defaults for
    the rest give. *)
Record ServiceConfig := {
  cfg_AuthServer : bool;
  cfg_Backend : bool;
  cfg_HTTPClient : result unit;      (* given, or the result of [NewHTTPClient] *)
  cfg_validators : result unit;      (* [NewCachingTokenValidator] *)
  cfg_transport : result unit;       (* [defaults.Transport] *)
}.

Definition NewService (cfg : ServiceConfig) : result Service :=
  fail_if negb (cfg_AuthServer cfg) with BadParameter "missing auth server" [];
  fail_if negb (cfg_Backend cfg) with BadParameter "missing backend" [];
  check (cfg_HTTPClient cfg);
  let? state := NewStateStore (cfg_Backend cfg) OIDCAuthRequestTTL in
  check (cfg_validators cfg);
  check (cfg_transport cfg);
  Ok {| sv_state := state |}.

Definition validateDiscoveryConfig (dc : option DiscoveryConfiguration) : result unit :=
  let bad := Err (BadParameter "OIDC discovery document contains an unsupported endpoint" []) in
  match dc with
  | None => bad
  | Some dc =>
      if negb (bool_decide (dc_Issuer dc = GoogleIssuer))
         || negb (bool_decide (dc_AuthorizationEndpoint dc = googleAuthorizationEndpoint))
         || negb (bool_decide (dc_TokenEndpoint dc = googleTokenEndpoint))
         || negb (bool_decide (dc_JwksURI dc = googleJWKSEndpoint))
      then bad else Ok tt
  end.

Definition connectorScopes (conn : OIDCConnector) : list string :=
  "openid" :: List.filter (fun scope => negb (bool_decide (scope = "") || bool_decide (scope = "openid")))
                (s_Scope (c_Spec conn)).

(** The prompt and the ACR only when they are set. *)
Definition nonempty (v : string) (o : AuthCodeOption) : list AuthCodeOption :=
  if bool_decide (v = "") then [] else [o].

Definition authCodeOptions (conn : OIDCConnector) (req : OIDCAuthRequest) (nonce : string)
    (domains : list string) : list AuthCodeOption :=
  ([ SetAuthURLParam "nonce" nonce;
     S256ChallengeOption (r_PkceVerifier req);
     SetAuthURLParam "hd" (Join domains ",") ]
   ++ nonempty (r_LoginHint req) (SetAuthURLParam "login_hint" (r_LoginHint req))
   ++ nonempty (GetPrompt conn) (SetAuthURLParam "prompt" (GetPrompt conn))
   ++ nonempty (s_ACR (c_Spec conn)) (SetAuthURLParam "acr_values" (s_ACR (c_Spec conn))))%list.

(** [newRequestSecrets]'s result *)
Record requestSecrets := {
  rs_state : string;
  rs_nonce : string;
  rs_verifier : string;
}.

(** The request with the two fields set that the secrets fill. *)
Definition with_secrets (s : requestSecrets) (r : OIDCAuthRequest) : OIDCAuthRequest := {|
  r_ConnectorID := r_ConnectorID r; r_StateToken := rs_state s; r_CSRFToken := r_CSRFToken r;
  r_RedirectURL := r_RedirectURL r; r_CertTTL := r_CertTTL r;
  r_CreateWebSession := r_CreateWebSession r; r_ClientRedirectURL := r_ClientRedirectURL r;
  r_Compatibility := r_Compatibility r; r_RouteToCluster := r_RouteToCluster r;
  r_KubernetesCluster := r_KubernetesCluster r; r_SSOTestFlow := r_SSOTestFlow r;
  r_ConnectorSpec := r_ConnectorSpec r; r_ProxyAddress := r_ProxyAddress r;
  r_ClientLoginIP := r_ClientLoginIP r; r_ClientUserAgent := r_ClientUserAgent r;
  r_SshPublicKey := r_SshPublicKey r; r_TlsPublicKey := r_TlsPublicKey r;
  r_SshAttestationStatement := r_SshAttestationStatement r;
  r_TlsAttestationStatement := r_TlsAttestationStatement r;
  r_PkceVerifier := rs_verifier s; r_LoginHint := r_LoginHint r; r_Scope := r_Scope r;
|}.

Definition with_RedirectURL (url : string) (r : OIDCAuthRequest) : OIDCAuthRequest := {|
  r_ConnectorID := r_ConnectorID r; r_StateToken := r_StateToken r; r_CSRFToken := r_CSRFToken r;
  r_RedirectURL := url; r_CertTTL := r_CertTTL r;
  r_CreateWebSession := r_CreateWebSession r; r_ClientRedirectURL := r_ClientRedirectURL r;
  r_Compatibility := r_Compatibility r; r_RouteToCluster := r_RouteToCluster r;
  r_KubernetesCluster := r_KubernetesCluster r; r_SSOTestFlow := r_SSOTestFlow r;
  r_ConnectorSpec := r_ConnectorSpec r; r_ProxyAddress := r_ProxyAddress r;
  r_ClientLoginIP := r_ClientLoginIP r; r_ClientUserAgent := r_ClientUserAgent r;
  r_SshPublicKey := r_SshPublicKey r; r_TlsPublicKey := r_TlsPublicKey r;
  r_SshAttestationStatement := r_SshAttestationStatement r;
  r_TlsAttestationStatement := r_TlsAttestationStatement r;
  r_PkceVerifier := r_PkceVerifier r; r_LoginHint := r_LoginHint r; r_Scope := r_Scope r;
|}.

Definition with_ClientUserAgent (ua : string) (r : OIDCAuthRequest) : OIDCAuthRequest := {|
  r_ConnectorID := r_ConnectorID r; r_StateToken := r_StateToken r; r_CSRFToken := r_CSRFToken r;
  r_RedirectURL := r_RedirectURL r; r_CertTTL := r_CertTTL r;
  r_CreateWebSession := r_CreateWebSession r; r_ClientRedirectURL := r_ClientRedirectURL r;
  r_Compatibility := r_Compatibility r; r_RouteToCluster := r_RouteToCluster r;
  r_KubernetesCluster := r_KubernetesCluster r; r_SSOTestFlow := r_SSOTestFlow r;
  r_ConnectorSpec := r_ConnectorSpec r; r_ProxyAddress := r_ProxyAddress r;
  r_ClientLoginIP := r_ClientLoginIP r; r_ClientUserAgent := ua;
  r_SshPublicKey := r_SshPublicKey r; r_TlsPublicKey := r_TlsPublicKey r;
  r_SshAttestationStatement := r_SshAttestationStatement r;
  r_TlsAttestationStatement := r_TlsAttestationStatement r;
  r_PkceVerifier := r_PkceVerifier r; r_LoginHint := r_LoginHint r; r_Scope := r_Scope r;
|}.

(** The user agent is dropped when it is too long or not UTF-8. *)
Definition sanitizeUserAgent (req : OIDCAuthRequest) : OIDCAuthRequest :=
  if (maxAuditUserAgentBytes <? len (r_ClientUserAgent req)) || negb (ValidString (r_ClientUserAgent req))
  then with_ClientUserAgent "" req else req.

Definition InvalidClientRedirectErrorMessage := "invalid or disallowed client redirect URL".

Section Service.
Context {W : Type} `{UnicodeTables} `{UrlParser} `{SSHKeyParser} `{RequestCodec}.
Context `{Clock W} `{Backend W} `{AuthServer W} `{Provider W}.

Definition getConnector (request : OIDCAuthRequest) : M W OIDCConnector :=
  if r_SSOTestFlow request then
    match r_ConnectorSpec request with
    | None => mfail (BadParameter "ConnectorSpec cannot be nil when SSOTestFlow is true" [])
    | Some spec =>
        deny_if bool_decide (r_ConnectorID request = "")
          with BadParameter "ConnectorID cannot be empty" [];
        let* conn := mlift (NewOIDCConnector (r_ConnectorID request) spec) in
        do* mlift (ValidateConnector (Some conn));
        mret conn
    end
  else
    let* conn := as_GetOIDCConnector (r_ConnectorID request) true in
    do* mlift (ValidateConnector (Some conn));
    mret conn.

Definition newOAuth2Config (conn : OIDCConnector) (callbackURL : string) : M W OAuth2Config :=
  let* dc := mcatch (fun w => w) (fun e => WithUserMessage e "discovering oidc document")
    (p_Discover (s_IssuerURL (c_Spec conn))) in
  do* mlift (validateDiscoveryConfig dc);
  mret {| oc_ClientID := s_ClientID (c_Spec conn);
          oc_ClientSecret := s_ClientSecret (c_Spec conn);
          oc_RedirectURL := callbackURL;
          oc_Scopes := connectorScopes conn;
          oc_AuthURL := match dc with Some d => dc_AuthorizationEndpoint d | None => "" end;
          oc_TokenURL := match dc with Some d => dc_TokenEndpoint d | None => "" end |}.

Definition newRequestSecrets : M W requestSecrets :=
  let* state := rnd_CryptoRandomHex TokenLenBytes in
  let* nonce := rnd_CryptoRandomHex TokenLenBytes in
  let* verifier := rnd_GenerateVerifier in
  mret {| rs_state := state; rs_nonce := nonce; rs_verifier := verifier |}.

Definition authCodeURL (config : OAuth2Config) (conn : OIDCConnector) (req : OIDCAuthRequest)
    (nonce : string) (domains : list string) : string :=
  p_AuthCodeURL config (r_StateToken req) (authCodeOptions conn req nonce domains).

(** The client redirect of a console or test login. *)
Definition checkClientRedirect (req : OIDCAuthRequest) (conn : OIDCConnector) : result unit :=
  if r_CreateWebSession req then Ok tt
  else rmap_err (fun e => WithUserMessage e InvalidClientRedirectErrorMessage)
    (sso_ValidateClientRedirect (r_ClientRedirectURL req) (r_SSOTestFlow req)
       (s_ClientRedirectSettings (c_Spec conn))).

Definition createAuthRequest (s : Service) (req : OIDCAuthRequest) : M W OIDCAuthRequest :=
  let req := sanitizeUserAgent req in
  do* mlift (ValidateAuthRequestMode req);
  let* conn := getConnector req in
  let* domains := mlift (WorkspaceDomains conn) in
  do* mlift (checkClientRedirect req conn);
  let* secrets := newRequestSecrets in
  let req := with_secrets secrets req in
  let nonce := rs_nonce secrets in
  let* callbackURL := mlift (RedirectURLForProxy conn (r_ProxyAddress req)) in
  let* config := newOAuth2Config conn callbackURL in
  let req := with_RedirectURL (authCodeURL config conn req nonce domains) req in
  do* PutNonce (sv_state s) (r_StateToken req) nonce;
  do* CreateOIDCAuthRequest req OIDCAuthRequestTTL;
  mret req.

Definition startLogin (s : Service) (req : OIDCAuthRequest) : M W OIDCAuthRequest :=
  createAuthRequest s req.

Definition CreateOIDCAuthRequestForMFA (req : OIDCAuthRequest) : M W OIDCAuthRequest :=
  mfail errMFANotSupported.

(** ** The keys of the runtime *)

(** The keys only the runtime writes. *)
Definition owned (k : string) : Prop :=
  exists t, k = used_key t \/ k = nonce_key t \/ k = request_key t.

Definition quiet `{LiveView W} {A} (m : M W A) : Prop := step_in (kept owned) m.

End Service.

(** Nothing upstream, and nothing of the provider, writes them. *)
Class QuietUpstream (W : Type) `{Clock W} `{LiveView W} `{AuthServer W} `{Provider W} : Prop := {
  quiet_GetOIDCConnector n b : quiet (as_GetOIDCConnector n b);
  quiet_GetUser n : quiet (as_GetUser n);
  quiet_GetUsers : quiet as_GetUsers;
  quiet_CreateUser u : quiet (as_CreateUser u);
  quiet_UpdateUser u : quiet (as_UpdateUser u);
  quiet_Evaluate t : quiet (as_Evaluate t);
  quiet_FetchRoles r t : quiet (as_FetchRoles r t);
  quiet_CallLoginHooks u : quiet (as_CallLoginHooks u);
  quiet_GetUserOrLoginState n : quiet (as_GetUserOrLoginState n);
  quiet_CreateWebSessionFromReq r : quiet (as_CreateWebSessionFromReq r);
  quiet_CreateSessionCerts r : quiet (as_CreateSessionCerts r);
  quiet_GetClusterName : quiet as_GetClusterName;
  quiet_GetCertAuthority d : quiet (as_GetCertAuthority d);
  quiet_ClientOptionsForLogin u : quiet (as_ClientOptionsForLogin u);
  quiet_EmitAuditEvent e : quiet (as_EmitAuditEvent e);
  quiet_Discover i : quiet (p_Discover i);
  quiet_Exchange c k v : quiet (p_Exchange c k v);
  quiet_GetValidator k : quiet (p_GetValidator k);
  quiet_ValidateToken k t n : quiet (p_ValidateToken k t n);
  quiet_CryptoRandomHex n : quiet (rnd_CryptoRandomHex n);
  quiet_GenerateVerifier : quiet rnd_GenerateVerifier;
}.

(** Discharge a call by the law of its operation. *)
Ltac quiet_call :=
  lazymatch goal with |- step_in (kept owned) ?m => change (quiet m) | _ => idtac end;
  first [ apply quiet_GetOIDCConnector | apply quiet_GetUser | apply quiet_GetUsers
        | apply quiet_CreateUser | apply quiet_UpdateUser | apply quiet_Evaluate
        | apply quiet_FetchRoles | apply quiet_CallLoginHooks | apply quiet_GetUserOrLoginState
        | apply quiet_CreateWebSessionFromReq | apply quiet_CreateSessionCerts
        | apply quiet_GetClusterName | apply quiet_GetCertAuthority
        | apply quiet_ClientOptionsForLogin | apply quiet_EmitAuditEvent | apply quiet_Discover
        | apply quiet_Exchange | apply quiet_GetValidator | apply quiet_ValidateToken
        | apply quiet_CryptoRandomHex | apply quiet_GenerateVerifier ].
Ltac quiet_auto := step_in_auto; try reflexivity; try quiet_call.

(** What the ID token validator documents: the claims it returns are those of
    a token issued for this audience, by this issuer, with this nonce. *)
Class ValidatorSpec (W : Type) `{Provider W} : Prop :=
  ValidateToken_ok key idToken nonce w w' c :
    p_ValidateToken key idToken nonce w = (w', Ok (Some c)) ->
    id_Nonce c = nonce /\ id_Issuer c = vk_issuer key /\ vk_audience key ∈ id_Audience c.
