(* ===== verification/Users.v ===== *)
(** * Identity, roles and users: [lib/googleoidc/callback.go]

    The checks on the claims of an ID token, the traits and roles they give,
    the user a login creates or updates, and the credentials it issues. *)

From S2P Require Import Prelude GoStrings Utf8 Types Key Backend Policy Regexp Traits Groups.
From S2P Require Import LoginAudit Transport Service.

(** ** Identity claims *)

(** [hostedDomain] of claims that are there *)
Definition hostedDomain (claims : option IDTokenClaims) : string :=
  match claims with
  | None => ""
  | Some c => match id_Claims c !! "hd" with Some (CString value) => value | _ => "" end
  end.

(** The class and the error of the first failed check. *)
Definition checkIdentityClaims `{UnicodeTables} (claims : option IDTokenClaims) (domains : list string)
    (now : time) : option (failureClass * error) :=
  let deny msg := Some (failureIdentityValidation, AccessDenied msg []) in
  match claims with
  | None => deny "OIDC provider did not return claims"
  | Some c =>
      let nowWithOffset := now + Second in
      if nowWithOffset <? id_IssuedAt c then deny "OIDC provider returned a future issued-at time"
      else if nowWithOffset <? id_NotBefore c then deny "OIDC provider returned a future not-before time"
      else if bool_decide (id_Subject c = "") then deny "OIDC provider did not return a subject"
      else if bool_decide (id_Email c = "") then deny "OIDC provider did not return an email"
      else if negb (id_EmailVerified c) then deny "OIDC provider did not verify email"
      else match CheckHostedDomain (hostedDomain claims) domains with
      | Err e => Some (failureHostedDomain, e)
      | Ok _ =>
          match CheckEmailDomain (id_Email c) domains with
          | Err e => Some (failureEmailDomain, e)
          | Ok _ => None
          end
      end
  end.

(** ** Traits *)

Definition usernameFromClaims (conn : OIDCConnector) (claims : OIDCClaims) : result string :=
  let claimName :=
    if bool_decide (s_UsernameClaim (c_Spec conn) = "") then "email" else s_UsernameClaim (c_Spec conn) in
  match claims !! claimName with
  | None => Err (AccessDenied "OIDC provider did not return required username claim %q" [claimName])
  | Some (CString name) =>
      if bool_decide (name = "")
      then Err (AccessDenied "OIDC username claim %q must be a non-empty string" [claimName])
      else Ok name
  | Some _ => Err (AccessDenied "OIDC username claim %q must be a non-empty string" [claimName])
  end.

(** One iteration of the loop of [claimsToTraits]: what it stores, if
    anything. *)
Definition claimToTrait (v : claimValue) : option (list string) :=
  match v with
  | CString s => Some [s]
  | CStrings l => Some l
  | CAny l =>
      match omap (fun vv => match vv with CString s => Some s | _ => None end) l with
      | [] => None
      | ss => Some ss
      end
  | CBool b => Some [if b then "true" else "false"]
  | CFloat text => Some [text]
  | CNumber text => Some [text]
  | COther => None
  end.

Definition claimsToTraits (claims : OIDCClaims) : traits := omap claimToTrait claims.

Section Users.
Context {W : Type} `{UnicodeTables} `{RegexpCache} `{Clock W} `{AuthServer W}.

(** Mapping a trait map, whichever way it is walked. *)
Definition mapTraits (ms : list TraitMapping) (ts : traits) : list warning * list string :=
  TraitsToRoles ms (map_to_list ts).

Definition roleSourceForMappings (mappings : list TraitMapping) (ts : traits) : string :=
  let mappingsFor trait := List.filter (fun m => bool_decide (tm_Trait m = trait)) mappings in
  let emailRoles := snd (mapTraits (mappingsFor "email") ts) in
  let groupRoles := snd (mapTraits (mappingsFor GroupsClaim) ts) in
  let some (l : list string) := (0 <? length l)%nat in
  if some emailRoles && some groupRoles then roleSourceBoth
  else if some emailRoles then roleSourceEmail
  else if some groupRoles then roleSourceGroups
  else roleSourceNone.

Record createUserParams := {
  cup_ConnectorName : string;
  cup_Username : string;
  cup_UserID : string;
  cup_Roles : list string;
  cup_Traits : traits;
  cup_SessionTTL : duration;
}.

Definition MaxSessionDuration : duration := 30 * 3600 * Second.

(** [RoleSet.AdjustSessionTTL] *)
Definition AdjustSessionTTL (limits : list duration) (ttl : duration) : duration :=
  foldl (fun ttl maxSessionTTL =>
           if negb (maxSessionTTL =? 0) && (maxSessionTTL <? ttl) then maxSessionTTL else ttl) ttl limits.

(** The groups trait is reset to the verified groups. *)
Definition resetGroups (verifiedGroups : list string) (ts : traits) : traits :=
  match verifiedGroups with
  | [] => delete GroupsClaim ts
  | _ => <[GroupsClaim := verifiedGroups]> ts
  end.

Definition no_roleAudit : roleMappingAudit :=
  {| rma_roleSource := roleSourceNone; rma_roleMappingWarnings := 0; rma_appliedLoginRules := [] |}.

(** The parameters, or the error, together with the audit of the roles. *)
Definition calculateUser (conn : OIDCConnector) (claims : OIDCClaims) (subject : string)
    (request : OIDCAuthRequest) (verifiedGroups : list string) (w : W)
    : W * roleMappingAudit * result createUserParams :=
  match usernameFromClaims conn claims with
  | Err e => (w, no_roleAudit, Err e)
  | Ok username =>
      let ts := claimsToTraits claims in
      let '(warnings, roles) := mapTraits (GetTraitMappings conn) ts in
      let warned := Z.of_nat (length warnings) in
      if (length roles =? 0)%nat then
        (w, {| rma_roleSource := roleSourceNone; rma_roleMappingWarnings := warned;
               rma_appliedLoginRules := [] |},
         Err (AccessDenied "OIDC claims did not match any configured roles" []))
      else
        let source := roleSourceForMappings (GetTraitMappings conn) ts in
        match as_Evaluate ts w with
        | (w, Err e) =>
            (w, {| rma_roleSource := source; rma_roleMappingWarnings := warned;
                   rma_appliedLoginRules := [] |}, Err e)
        | (w, Ok (ts, appliedRules)) =>
            let roleAudit := {| rma_roleSource := source; rma_roleMappingWarnings := warned;
                                rma_appliedLoginRules := appliedRules |} in
            let ts := resetGroups verifiedGroups ts in
            match as_FetchRoles roles ts w with
            | (w, Err e) => (w, roleAudit, Err e)
            | (w, Ok limits) =>
                (w, roleAudit,
                 Ok {| cup_ConnectorName := c_Name conn;
                       cup_Username := username;
                       cup_UserID := subject;
                       cup_Roles := roles;
                       cup_Traits := ts;
                       cup_SessionTTL := MinTTL (AdjustSessionTTL limits MaxSessionDuration) (r_CertTTL request) |})
            end
        end
  end.

(** ** Users *)

Definition OIDC := "oidc".
Definition UserSystem := "system".

Definition bound_elsewhere (connectorID subject username : string) (user : User) : bool :=
  negb (bool_decide (u_Name user = username))
  && existsb (fun identity => bool_decide (ei_ConnectorID identity = connectorID)
                && negb (bool_decide (ei_UserID identity = ""))
                && bool_decide (ei_UserID identity = subject))
       (u_OIDCIdentities user).

Definition validateSubjectBinding (connectorID subject username : string) : M W unit :=
  let* users := mcatch (fun w => w) (fun _ => AccessDenied "OIDC subject binding could not be verified" [])
    as_GetUsers in
  deny_if existsb (bound_elsewhere connectorID subject username) users
    with AccessDenied "OIDC subject is already bound to a different user" [];
  mret tt.

Fixpoint existing_loop (found : bool) (connectorID subject : string) (l : list ExternalIdentity)
    : result bool :=
  match l with
  | [] => Ok found
  | identity :: l' =>
      if negb (bool_decide (ei_ConnectorID identity = connectorID))
      then existing_loop found connectorID subject l'
      else if bool_decide (ei_UserID identity = "") || negb (bool_decide (ei_UserID identity = subject))
      then Err (AccessDenied "OIDC subject does not match the existing user" [])
      else existing_loop true connectorID subject l'
  end.

Definition validateExistingSubject (user : User) (connectorID subject : string) : result unit :=
  let? found := existing_loop false connectorID subject (u_OIDCIdentities user) in
  fail_if negb found
    with AccessDenied "existing OIDC user has no identity for this connector" [];
  Ok tt.

Definition newUser (p : createUserParams) (now : time) : User := {|
  u_Name := cup_Username p;
  u_Expires := Some (now + cup_SessionTTL p);
  u_Revision := "";
  u_Roles := cup_Roles p;
  u_Traits := cup_Traits p;
  u_OIDCIdentities := [{| ei_ConnectorID := cup_ConnectorName p;
                          ei_Username := cup_Username p; ei_UserID := cup_UserID p |}];
  u_CreatedBy := UserSystem;
  u_CreatedAt := now;
  u_Connector := Some {| cr_Type := OIDC; cr_ID := cup_ConnectorName p; cr_Identity := cup_Username p |};
|}.

Definition with_Revision (rev : string) (u : User) : User := {|
  u_Name := u_Name u; u_Expires := u_Expires u; u_Revision := rev; u_Roles := u_Roles u;
  u_Traits := u_Traits u; u_OIDCIdentities := u_OIDCIdentities u; u_CreatedBy := u_CreatedBy u;
  u_CreatedAt := u_CreatedAt u; u_Connector := u_Connector u;
|}.

(** The user of that name, if there is one. *)
Definition lookupUser (name : string) : M W (option User) :=
  let* r := mtry (as_GetUser name) in
  match r with
  | Ok u => mret (Some u)
  | Err e => if IsNotFound e then mret None else mfail e
  end.

(** What an existing user must be for the login to take it. *)
Definition existing_check (p : createUserParams) (user : User) (existing : User) : result unit :=
  fail_if negb (match u_Connector user with
                | Some ref => IsSameProvider ref (u_Connector existing)
                | None => false
                end)
    with AlreadyExists "local user %q already exists and is not an OIDC user" [u_Name existing];
  validateExistingSubject existing (cup_ConnectorName p) (cup_UserID p).

Definition createUser (p : createUserParams) (dryRun : bool) : M W User :=
  let* now := mget Now in
  let user := newUser p now in
  do* validateSubjectBinding (cup_ConnectorName p) (cup_UserID p) (cup_Username p);
  let* existingUser := lookupUser (cup_Username p) in
  do* mlift (match existingUser with Some e => existing_check p user e | None => Ok tt end);
  if dryRun then mret user
  else match existingUser with
  | Some e =>
      let user := with_Revision (u_Revision e) user in
      do* as_UpdateUser user;
      mret user
  | None =>
      do* as_CreateUser user;
      mret user
  end.

(** ** Credentials *)

Record OIDCIdentity := {
  oi_ID : string;
  oi_Name : string;
  oi_Email : string;
  oi_ExpiresAt : time;
}.

(** The part of the request the client gets back. *)
Record ClientAuthRequest := {
  ar_ConnectorID : string;
  ar_CSRFToken : string;
  ar_SSHPubKey : string;
  ar_TLSPubKey : string;
  ar_CreateWebSession : bool;
  ar_ClientRedirectURL : string;
}.

Definition authRequestFromProto (req : OIDCAuthRequest) : ClientAuthRequest := {|
  ar_ConnectorID := r_ConnectorID req;
  ar_CSRFToken := r_CSRFToken req;
  ar_SSHPubKey := r_SshPublicKey req;
  ar_TLSPubKey := r_TlsPublicKey req;
  ar_CreateWebSession := r_CreateWebSession req;
  ar_ClientRedirectURL := r_ClientRedirectURL req;
|}.

Definition externalIdentity (connectorID username userID : string) : ExternalIdentity :=
  {| ei_ConnectorID := connectorID; ei_Username := username; ei_UserID := userID |}.

Record OIDCAuthResponse := {
  resp_Username : string;
  resp_Identity : ExternalIdentity;
  resp_Session : option WebSession;
  resp_Cert : option Certificate;
  resp_TLSCert : option Certificate;
  resp_Req : ClientAuthRequest;
  resp_HostSigners : list CertAuthority;
  resp_ClientOptions : option ClientOptions;
}.

Definition webSessionRequest (req : OIDCAuthRequest) (userState : UserState) (sessionTTL : duration)
    (now : time) : NewWebSessionRequest := {|
  nws_User := us_Name userState; nws_Roles := us_Roles userState; nws_Traits := us_Traits userState;
  nws_SessionTTL := sessionTTL; nws_LoginTime := now; nws_LoginIP := r_ClientLoginIP req;
  nws_LoginUserAgent := r_ClientUserAgent req; nws_AttestWebSession := true;
  nws_CreateDeviceWebToken := true; nws_Scope := r_Scope req;
|}.

Definition sessionCertsRequest (req : OIDCAuthRequest) (userState : UserState) (sessionTTL : duration)
    : SessionCertsRequest := {|
  scr_UserState := userState; scr_SessionTTL := sessionTTL;
  scr_SSHPubKey := r_SshPublicKey req; scr_TLSPubKey := r_TlsPublicKey req;
  scr_SSHAttestationStatement := r_SshAttestationStatement req;
  scr_TLSAttestationStatement := r_TlsAttestationStatement req;
  scr_Compatibility := r_Compatibility req; scr_RouteToCluster := r_RouteToCluster req;
  scr_KubernetesCluster := r_KubernetesCluster req; scr_LoginIP := r_ClientLoginIP req;
  scr_Scope := r_Scope req;
|}.

Definition wrap {A} (msg : string) (m : M W A) : M W A :=
  mcatch (fun w => w) (fun e => WithUserMessage e msg) m.

Definition issueSession (req : OIDCAuthRequest) (userState : UserState) (sessionTTL : duration)
    : M W (option WebSession) :=
  if r_CreateWebSession req then
    let* now := mget Now in
    let* session := wrap "Failed to create web session."
      (as_CreateWebSessionFromReq (webSessionRequest req userState sessionTTL now)) in
    mret (Some session)
  else mret None.

(** The two certificates and the host authority. *)
Definition issueCerts (req : OIDCAuthRequest) (userState : UserState) (sessionTTL : duration)
    : M W (option (Certificate * Certificate * CertAuthority)) :=
  if negb (len (r_SshPublicKey req) =? 0) || negb (len (r_TlsPublicKey req) =? 0) then
    let* certs := wrap "Failed to create session certificate."
      (as_CreateSessionCerts (sessionCertsRequest req userState sessionTTL)) in
    let* clusterName := wrap "Failed to obtain cluster name." as_GetClusterName in
    let* authority := wrap "Failed to obtain cluster's host CA." (as_GetCertAuthority clusterName) in
    mret (Some (certs.1, certs.2, authority))
  else mret None.

Definition makeAuthResponse (req : OIDCAuthRequest) (userState : UserState) (identity : OIDCIdentity)
    (sessionTTL : duration) : M W OIDCAuthResponse :=
  let* session := issueSession req userState sessionTTL in
  let* certs := issueCerts req userState sessionTTL in
  let* options := mtry (as_ClientOptionsForLogin userState) in
  mret {| resp_Username := us_Name userState;
          resp_Identity := externalIdentity (r_ConnectorID req) (us_Name userState) (oi_ID identity);
          resp_Session := session;
          resp_Cert := (fun c => c.1.1) <$> certs;
          resp_TLSCert := (fun c => c.1.2) <$> certs;
          resp_Req := authRequestFromProto req;
          resp_HostSigners := match certs with Some c => [c.2] | None => [] end;
          resp_ClientOptions := match options with Ok o => Some o | Err _ => None end |}.
End Users.

(** ** Properties of identity, roles and users *)

Section Claims.
Context `{RegexpCache}.

Lemma claimsToTraits_lookup claims k : claimsToTraits claims !! k = claims !! k ≫= claimToTrait.
Proof. apply lookup_omap. Qed.

(** Whichever way the trait map is walked, the result is the same. *)
Lemma mapTraits_order ms (ts : traits) entries :
  entries ≡ₚ map_to_list ts -> TraitsToRoles ms entries = mapTraits ms ts.
Proof.
  intros Hp. unfold mapTraits, TraitsToRoles.
  rewrite (traitsToRoles_order ms entries (map_to_list ts)); [done| |done].
  rewrite Hp. apply NoDup_fst_map_to_list.
Qed.

Lemma Deduplicate_nil l : Deduplicate l = [] <-> l = [].
Proof.
  split; [|by intros ->]. intros E. destruct l as [|x l]; [done|].
  assert (Hx : x ∈ Deduplicate (x :: l)) by (rewrite elem_of_Deduplicate; apply list_elem_of_here).
  rewrite E in Hx. by apply elem_of_nil in Hx.
Qed.

Lemma length_pos {A} (l : list A) : (0 <? length l)%nat = true <-> l <> [].
Proof. destruct l; simpl; naive_solver. Qed.

(** The roles of a claim family. *)
Definition family_roles (trait : string) (ms : list TraitMapping) (ts : traits) : list string :=
  snd (mapTraits (List.filter (fun m => bool_decide (tm_Trait m = trait)) ms) ts).

Lemma family_roles_elem trait ms ts r :
  r ∈ family_roles trait ms ts <->
  exists m b, m ∈ ms /\ tm_Trait m = trait /\ (r, b) ∈ collected m ts.
Proof.
  unfold family_roles, mapTraits. rewrite TraitsToRoles_collected, elem_of_Deduplicate, list_elem_of_fmap.
  setoid_rewrite list_elem_of_bind. split.
  - intros ([r' b] & -> & m & Hr & Hm). apply list_elem_of_In, filter_In in Hm as [Hm Ht%bool_decide_eq_true].
    apply list_elem_of_In in Hm. eauto.
  - intros (m & b & Hm & Ht & Hr). exists (r, b). split; [done|]. exists m. split; [done|].
    apply list_elem_of_In, filter_In. split; [by apply list_elem_of_In|by apply bool_decide_eq_true].
Qed.

Lemma mapTraits_elem ms ts r :
  r ∈ snd (mapTraits ms ts) <-> exists m b, m ∈ ms /\ (r, b) ∈ collected m ts.
Proof.
  unfold mapTraits. rewrite TraitsToRoles_collected, elem_of_Deduplicate, list_elem_of_fmap.
  setoid_rewrite list_elem_of_bind. split.
  - intros ([r' b] & -> & m & ? & ?). eauto.
  - intros (m & b & ? & ?). exists (r, b). eauto.
Qed.

Lemma roleSourceForMappings_spec ms ts :
  roleSourceForMappings ms ts =
  match family_roles "email" ms ts, family_roles GroupsClaim ms ts with
  | [], [] => roleSourceNone
  | _ :: _, [] => roleSourceEmail
  | [], _ :: _ => roleSourceGroups
  | _ :: _, _ :: _ => roleSourceBoth
  end.
Proof.
  unfold roleSourceForMappings. fold (family_roles "email" ms ts) (family_roles GroupsClaim ms ts).
  by destruct (family_roles "email" ms ts), (family_roles GroupsClaim ms ts).
Qed.

(** With email and groups mappings only, a login that has roles has a source. *)
Lemma roleSourceForMappings_some ms ts :
  (forall m, m ∈ ms -> tm_Trait m = "email" \/ tm_Trait m = GroupsClaim) ->
  snd (mapTraits ms ts) <> [] -> roleSourceForMappings ms ts <> roleSourceNone.
Proof.
  intros Hms Hr. rewrite roleSourceForMappings_spec.
  destruct (snd (mapTraits ms ts)) as [|r rs] eqn:E; [done|].
  assert (Hin : r ∈ snd (mapTraits ms ts)) by (rewrite E; apply list_elem_of_here).
  apply mapTraits_elem in Hin as (m & b & Hm & Hc).
  destruct (Hms m Hm) as [Ht|Ht].
  - assert (Hf : r ∈ family_roles "email" ms ts) by (apply family_roles_elem; eauto).
    destruct (family_roles "email" ms ts); [by apply elem_of_nil in Hf|]. by case_match.
  - assert (Hf : r ∈ family_roles GroupsClaim ms ts) by (apply family_roles_elem; eauto).
    destruct (family_roles GroupsClaim ms ts); [by apply elem_of_nil in Hf|]. by case_match.
Qed.
End Claims.

Lemma AdjustSessionTTL_le limits ttl :
  AdjustSessionTTL limits ttl <= ttl /\
  forall l, l ∈ limits -> l <> 0 -> AdjustSessionTTL limits ttl <= l.
Proof.
  unfold AdjustSessionTTL. revert ttl. induction limits as [|x limits IH]; intros ttl; cbn [foldl].
  - split; [lia|set_solver].
  - match goal with |- foldl _ ?e limits <= _ /\ _ => remember e as t eqn:Et end.
    destruct (IH t) as [Ht Hl].
    assert (Hx : t <= ttl /\ (x <> 0 -> t <= x)).
    { subst t. destruct (Z.eqb_spec x 0), (Z.ltb_spec x ttl); simpl; lia. }
    split; [lia|]. intros l [->|Hin]%elem_of_cons Hne; [lia|auto].
Qed.

Lemma MinTTL_le a b : 0 < a -> MinTTL a b <= a /\ (0 < b -> MinTTL a b <= b).
Proof.
  unfold MinTTL. destruct (Z.eqb_spec a 0), (Z.eqb_spec b 0), (Z.ltb_spec a b); lia.
Qed.

(** ** Subjects *)

(** The identities a user has for a connector are all this subject's. *)
Definition bound_to (connectorID subject : string) (user : User) : Prop :=
  (exists i, i ∈ u_OIDCIdentities user /\ ei_ConnectorID i = connectorID) /\
  forall i, i ∈ u_OIDCIdentities user -> ei_ConnectorID i = connectorID ->
    ei_UserID i <> "" /\ ei_UserID i = subject.

Lemma existing_loop_ok found connectorID subject l b :
  existing_loop found connectorID subject l = Ok b <->
  (forall i, i ∈ l -> ei_ConnectorID i = connectorID -> ei_UserID i <> "" /\ ei_UserID i = subject) /\
  b = found || existsb (fun i => bool_decide (ei_ConnectorID i = connectorID)) l.
Proof.
  revert found. induction l as [|i l IH]; intros found; simpl.
  - rewrite orb_false_r. split; [intros [= ->]; split; [set_solver|done]|naive_solver].
  - setoid_rewrite elem_of_cons. case_bool_decide as Hc; simpl.
    + destruct (bool_decide (ei_UserID i = "") || negb (bool_decide (ei_UserID i = subject))) eqn:E.
      * split; [done|]. intros [Hi _]. exfalso. destruct (Hi i) as [? ?]; [by left|done|].
        apply orb_true_iff in E as [E|E]; bool_to_prop; done.
      * bool_to_prop. rewrite IH, orb_true_r. naive_solver.
    + rewrite IH. naive_solver.
Qed.

Lemma validateExistingSubject_ok user connectorID subject :
  validateExistingSubject user connectorID subject = Ok tt <-> bound_to connectorID subject user.
Proof.
  unfold validateExistingSubject, bound_to. rewrite rbind_ok. setoid_rewrite existing_loop_ok.
  setoid_rewrite fail_if_ok. setoid_rewrite negb_false_iff. simpl. split.
  - intros (b & [Hi ->] & He & _). apply existsb_elem in He as (i & ? & ?%bool_decide_eq_true). eauto.
  - intros [(i & Hin & Hc) Hi]. eexists. split; [done|]. split; [|done].
    apply existsb_elem. exists i. split; [done|]. by apply bool_decide_eq_true.
Qed.

(** No other user has the subject. *)
Definition subject_free (connectorID subject username : string) (users : list User) : Prop :=
  forall u i, u ∈ users -> u_Name u <> username -> i ∈ u_OIDCIdentities u ->
    ei_ConnectorID i = connectorID -> ei_UserID i = subject -> subject = "".

Lemma bound_elsewhere_false connectorID subject username users :
  existsb (bound_elsewhere connectorID subject username) users = false <->
  subject_free connectorID subject username users.
Proof.
  rewrite existsb_elem_false. unfold bound_elsewhere, subject_free. split.
  - intros He u i Hu Hn Hi Hc Hs. specialize (He u Hu).
    rewrite bool_decide_false in He by done. simpl in He. rewrite existsb_elem_false in He.
    specialize (He i Hi). rewrite (bool_decide_true _ Hc), (bool_decide_true _ Hs), andb_true_r in He.
    simpl in He. bool_to_prop. congruence.
  - intros Hf u Hu. apply andb_false_iff. destruct (decide (u_Name u = username)) as [Hn|Hn].
    + left. by rewrite bool_decide_true.
    + right. apply existsb_elem_false. intros i Hi.
      destruct (decide (ei_ConnectorID i = connectorID)) as [Hc|]; [|by rewrite bool_decide_false].
      destruct (decide (ei_UserID i = subject)) as [Hs|Hs]; [|by rewrite (bool_decide_false _ Hs), andb_false_r].
      rewrite (Hf u i Hu Hn Hi Hc Hs) in Hs. rewrite (bool_decide_true _ Hs). simpl. by rewrite andb_false_r.
Qed.

(** ** Creating a user *)

Section Create.
Context {W : Type} `{RegexpCache} `{Clock W} `{AuthServer W}.

Lemma validateSubjectBinding_ok c sub n (w w' : W) :
  validateSubjectBinding c sub n w = (w', Ok tt) ->
  exists users, as_GetUsers w = (w', Ok users) /\ subject_free c sub n users.
Proof.
  unfold validateSubjectBinding. intros E. inv_mok.
  match goal with E : existsb _ _ = false |- _ => apply bound_elsewhere_false in E end. eauto.
Qed.

Lemma lookupUser_ok name (w w' : W) u :
  lookupUser name w = (w', Ok u) ->
  match u with
  | Some user => as_GetUser name w = (w', Ok user)
  | None => exists e, as_GetUser name w = (w', Err e) /\ IsNotFound e = true
  end.
Proof.
  unfold lookupUser, mthen, mtry. destruct (as_GetUser name w) as [w1 [user|e]].
  - intros [= <- <-]. done.
  - destruct (IsNotFound e) eqn:En; [|done]. intros [= <- <-]. eauto.
Qed.

(** What a login may take over: a user of this connector with this subject. *)
Definition own_user (p : createUserParams) (existing : User) : Prop :=
  (exists ref, u_Connector existing = Some ref /\ cr_Type ref = OIDC /\ cr_ID ref = cup_ConnectorName p) /\
  bound_to (cup_ConnectorName p) (cup_UserID p) existing.

Lemma existing_check_ok p now existing :
  existing_check p (newUser p now) existing = Ok tt <-> own_user p existing.
Proof.
  unfold existing_check, own_user. rewrite fail_if_ok, validateExistingSubject_ok, negb_false_iff.
  simpl. unfold IsSameProvider. simpl. destruct (u_Connector existing) as [ref|]; [|naive_solver].
  rewrite andb_true_iff, !bool_decide_eq_true. naive_solver.
Qed.

(** The outcomes of a successful [createUser]. *)
Definition user_written (p : createUserParams) (dry : bool) (w w' : W) (user : User) : Prop :=
  exists w1 w2 users existing,
    as_GetUsers w = (w1, Ok users) /\
    subject_free (cup_ConnectorName p) (cup_UserID p) (cup_Username p) users /\
    lookupUser (cup_Username p) w1 = (w2, Ok existing) /\
    match existing with
    | Some e => own_user p e /\
        (if dry then w' = w2 /\ user = newUser p (Now w)
         else user = with_Revision (u_Revision e) (newUser p (Now w)) /\
              as_UpdateUser user w2 = (w', Ok tt))
    | None =>
        user = newUser p (Now w) /\
        if dry then w' = w2 else as_CreateUser user w2 = (w', Ok tt)
    end.

Lemma createUser_ok p dry (w w' : W) user :
  createUser p dry w = (w', Ok user) -> user_written p dry w w' user.
Proof.
  unfold createUser. intros E.
  apply mthen_ok in E as (w0 & now & E0 & E). injection E0 as <- <-.
  apply mthen_ok in E as (w1 & [] & E1 & E). apply validateSubjectBinding_ok in E1 as (users & Hu & Hf).
  apply mthen_ok in E as (w2 & existing & E2 & E).
  apply mthen_ok in E as (w3 & [] & E3 & E). apply mlift_ok in E3 as [-> E3].
  exists w1, w2, users, existing. split; [done|]. split; [done|]. split; [done|].
  destruct existing as [e|].
  - apply existing_check_ok in E3. split; [done|]. destruct dry; inv_mok; done.
  - destruct dry; inv_mok; done.
Qed.

(** ** Calculating a user *)

Lemma calculateUser_ok conn claims subject req groups (w w' : W) ra p :
  calculateUser conn claims subject req groups w = (w', ra, Ok p) ->
  let roles := snd (mapTraits (GetTraitMappings conn) (claimsToTraits claims)) in
  usernameFromClaims conn claims = Ok (cup_Username p) /\ cup_Username p <> "" /\
  cup_ConnectorName p = c_Name conn /\ cup_UserID p = subject /\
  cup_Roles p = roles /\ roles <> [] /\
  cup_Traits p !! GroupsClaim = match groups with [] => None | _ => Some groups end /\
  (exists w1 limits, as_FetchRoles roles (cup_Traits p) w1 = (w', Ok limits) /\
    cup_SessionTTL p = MinTTL (AdjustSessionTTL limits MaxSessionDuration) (r_CertTTL req)) /\
  rma_roleSource ra = roleSourceForMappings (GetTraitMappings conn) (claimsToTraits claims).
Proof.
  unfold calculateUser. destruct (usernameFromClaims conn claims) as [name|] eqn:En; [|done].
  destruct (mapTraits _ _) as [ws rs] eqn:Er.
  destruct (Nat.eqb_spec (length rs) 0) as [|Hl]; [done|].
  destruct (as_Evaluate _ w) as [w1 [[ts rules]|e]]; [|done].
  destruct (as_FetchRoles _ _ w1) as [w2 [limits|e]] eqn:Ef; [|done].
  intros [= <- <- <-]. simpl.
  assert (name <> "").
  { revert En. unfold usernameFromClaims. repeat case_match; try done; intros [= <-]; by bool_to_prop. }
  assert (rs <> []) by (by intros ->).
  assert (resetGroups groups ts !! GroupsClaim = match groups with [] => None | _ => Some groups end).
  { unfold resetGroups. destruct groups; [apply lookup_delete_eq|apply lookup_insert_eq]. }
  repeat (split; [done|]). split; [eauto|done].
Qed.
End Create.
