(* ===== verification/Modules.v ===== *)
(** * Modules and activation: [lib/googleoidc/modules.go], [plugin.go],
    [activate.go]

    The wrapper that opens the OIDC entitlement, over a store of shared maps,
    and the one switch that installs wrapper and plugin together. *)

From S2P Require Import Prelude GoStrings Types.

(** ** Features *)

Record EntitlementInfo := {
  ent_Enabled : bool;
  ent_Limit : Z;
}.

Definition noEntitlement : EntitlementInfo := {| ent_Enabled := false; ent_Limit := 0 |}.

Definition entitlements_OIDC := "OIDC".
Definition entitlements_Policy := "Policy".
Definition PsiphonThemeName := "psiphon".

(** Go maps live in a store, and a struct copy shares them. *)
Definition loc := positive.
Definition Heap := gmap loc (gmap string EntitlementInfo).

Record Features := {
  f_CustomTheme : string;
  f_Entitlements : option loc;     (* [None] is a nil map *)
  f_rest : string;                 (* every other field *)
}.

Definition entitlements_of (h : Heap) (f : Features) : gmap string EntitlementInfo :=
  match f_Entitlements f with Some l => default ∅ (h !! l) | None => ∅ end.

Definition isLegacyPolicyFallbackEntitlement (e : string) : bool :=
  slices_Contains ["AccessGraph"; "ActivityCenter"; "SessionSummaries"] e.

(** What a features value says about one entitlement: its entry, or an
    enabled legacy policy for the three that were split from it. *)
Definition GetEntitlement (h : Heap) (f : Features) (e : string) : EntitlementInfo :=
  let ents := entitlements_of h f in
  match ents !! e with
  | Some al => al
  | None =>
      if isLegacyPolicyFallbackEntitlement e && ent_Enabled (default noEntitlement (ents !! entitlements_Policy))
      then {| ent_Enabled := true; ent_Limit := 0 |}
      else noEntitlement
  end.

(** A modules value: some other implementation, or the wrapper around one. *)
Inductive Modules :=
| OtherModules (features : Features)
| OIDCModules (inner : Modules).

Definition WithOIDC (inner : Modules) : Modules := OIDCModules inner.

(** [Features()]: the wrapper allocates a map of its own. *)
Fixpoint features (m : Modules) (h : Heap) : Heap * Features :=
  match m with
  | OtherModules f => (h, f)
  | OIDCModules inner =>
      let '(h, f) := features inner h in
      let ents := <[entitlements_OIDC := {| ent_Enabled := true; ent_Limit := 0 |}]> (entitlements_of h f) in
      let l := fresh (dom h) in
      (<[l := ents]> h,
       {| f_CustomTheme := PsiphonThemeName; f_Entitlements := Some l; f_rest := f_rest f |})
  end.

(** [Ping] gives the features the auth server captured, or fails. *)
Definition AssertOIDCEntitlement (srv : option (result (gmap string EntitlementInfo))) : result unit :=
  match srv with
  | None => Err (BadParameter "cannot assert the OIDC entitlement without an auth server" [])
  | Some ping =>
      let? ents := rmap_err (fun e => WithUserMessage e "reading auth server features") ping in
      fail_if negb (ent_Enabled (default noEntitlement (ents !! entitlements_OIDC)))
        with BadParameter "the auth server does not report the OIDC entitlement: call modules.SetModules(googleoidc.WithOIDC(...)) before service.NewTeleport" [];
      Ok tt
  end.

(** ** The registry and the plugin *)

Definition PluginName := "google-oidc".

(** The plugins by name, and whether the process hook is set to this
    plugin's. *)
Record Registry := {
  rg_plugins : gset string;
  rg_hook : bool;
}.

Definition NewRegistry : Registry := {| rg_plugins := ∅; rg_hook := false |}.

Definition IsRegistered (r : Registry) (name : string) : bool := bool_decide (name ∈ rg_plugins r).

Definition registry_Add (r : Registry) (name : string) : result Registry :=
  fail_if bool_decide (name = "") with BadParameter "missing plugin name" [];
  fail_if IsRegistered r name with AlreadyExists "plugin %v already exists" [name];
  Ok {| rg_plugins := {[name]} ∪ rg_plugins r; rg_hook := rg_hook r |}.

Definition Install (registry : option Registry) : result Registry :=
  match registry with
  | None => Err (BadParameter "missing plugin registry" [])
  | Some r =>
      let? r := registry_Add r PluginName in
      Ok {| rg_plugins := rg_plugins r; rg_hook := true |}
  end.

(** The process hook.  [process] is [None] when the value has no auth server
    method; its auth server is [None] when nil.  The result is what is
    registered with the auth server. *)
Record AuthProcess := {
  ap_ping : result (gmap string EntitlementInfo);
  ap_service : result unit;          (* [NewService] *)
}.

Definition InitAuthProcess (process : option (option AuthProcess)) : result bool :=
  match process with
  | None => Err (BadParameter "expected a Teleport process with an auth server, got %T" [])
  | Some None => Err (BadParameter "the Teleport process has no auth server" [])
  | Some (Some p) =>
      check (AssertOIDCEntitlement (Some (ap_ping p)));
      check (ap_service p);
      Ok true
  end.

(** ** Activation *)

Definition EnableEnvVar := "TELEPORT_ENABLE_GOOGLE_OIDC".

(** [strconv.ParseBool] *)
Definition ParseBool (str : string) : result bool :=
  if slices_Contains ["1"; "t"; "T"; "true"; "TRUE"; "True"] str then Ok true
  else if slices_Contains ["0"; "f"; "F"; "false"; "FALSE"; "False"] str then Ok false
  else Err (BadParameter "strconv.ParseBool: parsing %q: invalid syntax" [str]).

(** [env] is the value of the variable if it is set; the state is the
    process-wide modules value. *)
Definition Activate (env : option string) : M Modules (option Registry) :=
  match env with
  | None => mret None
  | Some raw =>
      let* enabled := mlift (rmap_err (fun e => Error KOther
        "invalid %s=%q: %w (use true/false, 1/0, t/f, yes/no)" [EnableEnvVar; raw; e_fmt e] [])
        (ParseBool raw)) in
      if negb enabled then mret None
      else
        do* mmodify WithOIDC;
        let* registry := mlift (rmap_err (fun e => Error KOther
          "failed to install the Google OIDC plugin: %w" [e_fmt e] []) (Install (Some NewRegistry))) in
        mret (Some registry)
  end.

(** ** Properties *)

Lemma features_heap m h h' f :
  features m h = (h', f) -> h ⊆ h'.
Proof.
  revert h' f. induction m as [g|inner IH]; intros h' f; simpl; [by intros [= <- <-]|].
  destruct (features inner h) as [h1 f1] eqn:E. intros [= <- <-].
  specialize (IH _ _ eq_refl). etransitivity; [exact IH|].
  apply insert_subseteq. apply not_elem_of_dom, is_fresh.
Qed.

Lemma features_WithOIDC inner h h1 f1 h2 f2 :
  features inner h = (h1, f1) -> features (WithOIDC inner) h = (h2, f2) ->
  h1 ⊆ h2 /\ f_CustomTheme f2 = PsiphonThemeName /\ f_rest f2 = f_rest f1 /\
  (forall l, f_Entitlements f2 = Some l -> h1 !! l = None) /\
  GetEntitlement h2 f2 entitlements_OIDC = {| ent_Enabled := true; ent_Limit := 0 |} /\
  forall kind, kind <> entitlements_OIDC -> GetEntitlement h2 f2 kind = GetEntitlement h1 f1 kind.
Proof.
  simpl. intros E. rewrite E.
  set (ents := <[entitlements_OIDC := _]> (entitlements_of h1 f1)). intros [= <- <-].
  assert (Hf : h1 !! fresh (dom h1) = None) by apply not_elem_of_dom, is_fresh.
  assert (Hl : (<[fresh (dom h1) := ents]> h1 : Heap) !! fresh (dom h1) = Some ents) by apply lookup_insert_eq.
  split; [by apply insert_subseteq|]. split; [done|]. split; [done|].
  split; [by intros l [= <-]|].
  assert (He : entitlements_of (<[fresh (dom h1) := ents]> h1 : Heap)
    {| f_CustomTheme := PsiphonThemeName; f_Entitlements := Some (fresh (dom h1)); f_rest := f_rest f1 |} = ents).
  { unfold entitlements_of at 1. cbn [f_Entitlements]. change (default ∅ ((<[fresh (dom h1) := ents]> h1 : Heap) !! fresh (dom h1)) = ents).
    by rewrite Hl. }
  unfold GetEntitlement. rewrite He. unfold ents. split; [by rewrite lookup_insert_eq|].
  intros kind Hk. by rewrite !lookup_insert_ne by done.
Qed.

Lemma Activate_spec env m m' r :
  Activate env m = (m', r) ->
  (m' = m /\ (r = Ok None \/ is_ok r = false)) \/
  (m' = WithOIDC m /\ exists reg, r = Ok (Some reg) /\ IsRegistered reg PluginName = true /\ rg_hook reg = true).
Proof.
  unfold Activate. destruct env as [raw|]; [|intros [= <- <-]; auto].
  unfold mthen, mlift. destruct (ParseBool raw) as [[]|e]; simpl; [|intros [= <- <-]; auto..].
  intros E. right. vm_compute in E. injection E as <- <-. eauto 10.
Qed.
