(* ===== verification/Web.v ===== *)
(** * The proxy routes: [lib/googleoidc/webhandlers.go]

    The browser and console login routes, and the callback route.  The proxy
    client, the CSRF check, the session cookie and the console response are
    the interface [ProxyWeb]. *)

From S2P Require Import Prelude GoStrings Utf8 Types Transport Service Users.

Definition LoginFailedRedirectURL := "/web/msg/error/login".
Definition LoginFailedBadCallbackRedirectURL := "/web/msg/error/login/callback".
Definition SSOLoginFailureMessage := "Failed to login. Please check Teleport's log for more details.".

(** What the handlers read of a request. *)
Record HTTPRequest := {
  hr_Host : string;
  hr_RemoteAddr : string;
  hr_UserAgent : string;
}.

Record SSORequestParams := {
  sp_ClientRedirectURL : string;
  sp_ConnectorID : string;
  sp_CSRFToken : string;
  sp_Scope : string;
}.

Record SSOLoginConsoleReq := {
  sc_RedirectURL : string;
  sc_ConnectorID : string;
  sc_SSHPubKey : string;
  sc_TLSPubKey : string;
  sc_SSHAttestationStatement : string;
  sc_TLSAttestationStatement : string;
  sc_CertTTL : duration;
  sc_Compatibility : string;
  sc_RouteToCluster : string;
  sc_KubernetesCluster : string;
  sc_Scope : string;
}.

Record DeviceWebToken := {
  dwt_Id : string;
  dwt_Token : string;
}.

Section Web.
Context {W : Type} `{AuthServer W}.

Class ProxyWeb := {
  px_CreateOIDCAuthRequest : OIDCAuthRequest -> M W OIDCAuthRequest;
  px_ValidateOIDCAuthCallback : gmap string (list string) -> M W OIDCAuthResponse;
  px_ParseSSORequestParams : HTTPRequest -> result SSORequestParams;
  px_VerifyCSRFToken : string -> HTTPRequest -> result unit;
  px_SetCookie : string -> WebSession -> M W unit;          (* user name, session *)
  px_OriginLocalRedirectURI : string -> result string;
  px_GetDeviceWebToken : WebSession -> option DeviceWebToken;
  px_ConstructSSHResponse : OIDCAuthResponse (W := W) -> result string;
}.

Definition authRequestForConsoleLogin (r : HTTPRequest) (req : SSOLoginConsoleReq) (remoteAddr : string)
    : OIDCAuthRequest := {|
  r_CreateWebSession := false;
  r_ConnectorID := sc_ConnectorID req;
  r_SshPublicKey := sc_SSHPubKey req;
  r_TlsPublicKey := sc_TLSPubKey req;
  r_SshAttestationStatement := sc_SSHAttestationStatement req;
  r_TlsAttestationStatement := sc_TLSAttestationStatement req;
  r_CertTTL := sc_CertTTL req;
  r_ClientRedirectURL := sc_RedirectURL req;
  r_Compatibility := sc_Compatibility req;
  r_RouteToCluster := sc_RouteToCluster req;
  r_KubernetesCluster := sc_KubernetesCluster req;
  r_ClientLoginIP := remoteAddr;
  r_Scope := sc_Scope req;
  r_ProxyAddress := hr_Host r;
  r_StateToken := ""; r_CSRFToken := ""; r_RedirectURL := ""; r_SSOTestFlow := false;
  r_ConnectorSpec := None; r_ClientUserAgent := ""; r_PkceVerifier := ""; r_LoginHint := "";
|}.

Definition authRequestForLogin (r : HTTPRequest) (params : SSORequestParams) (remoteAddr : string)
    : OIDCAuthRequest := {|
  r_CSRFToken := sp_CSRFToken params;
  r_ConnectorID := sp_ConnectorID params;
  r_CreateWebSession := true;
  r_ClientRedirectURL := sp_ClientRedirectURL params;
  r_ClientLoginIP := remoteAddr;
  r_ClientUserAgent := hr_UserAgent r;
  r_ProxyAddress := hr_Host r;
  r_Scope := sp_Scope params;
  r_StateToken := ""; r_RedirectURL := ""; r_CertTTL := 0; r_Compatibility := "";
  r_RouteToCluster := ""; r_KubernetesCluster := ""; r_SSOTestFlow := false; r_ConnectorSpec := None;
  r_SshPublicKey := ""; r_TlsPublicKey := ""; r_SshAttestationStatement := "";
  r_TlsAttestationStatement := ""; r_PkceVerifier := ""; r_LoginHint := "";
|}.

Context `{ProxyWeb}.

(** The URL a route answers with: a failure becomes a fixed page. *)
Definition or_page (page : string) (m : M W string) : W -> W * string := fun w =>
  match m w with (w', Ok url) => (w', url) | (w', Err _) => (w', page) end.

(** [clt] says whether the handler has a proxy client. *)
Definition loginWeb (clt : bool) (r : HTTPRequest) : W -> W * string :=
  or_page LoginFailedRedirectURL (
    deny_if negb clt with AccessDenied "Proxy client is not available" [];
    let* req := mlift (px_ParseSSORequestParams r) in
    let* remote := mlift (SplitHostPort (hr_RemoteAddr r)) in
    let* response := px_CreateOIDCAuthRequest (authRequestForLogin r req remote.1) in
    mret (r_RedirectURL response)).

(** The body after JSON decoding and its defaults; any failure is the one
    denial. *)
Definition loginConsole (clt : bool) (r : HTTPRequest) (body : result SSOLoginConsoleReq) : M W string :=
  mcatch (fun w => w) (fun _ => AccessDenied "%s" [SSOLoginFailureMessage]) (
    deny_if negb clt with AccessDenied "Proxy client is not available" [];
    let* req := mlift body in
    let* remote := mlift (SplitHostPort (hr_RemoteAddr r)) in
    let* response := px_CreateOIDCAuthRequest (authRequestForConsoleLogin r req remote.1) in
    mret (r_RedirectURL response)).

(** [BuildDeviceWebRedirectPath]: a path in every case. *)
Definition BuildDeviceWebRedirectPath (dwt : DeviceWebToken) (clientRedirectURL : string) : string :=
  if bool_decide (dwt_Id dwt = "") || bool_decide (dwt_Token dwt = "") then "/web"
  else
    let redirectPath := "/web/device/authorize/" +:+ dwt_Id dwt +:+ "/" +:+ dwt_Token dwt in
    if bool_decide (clientRedirectURL = "") then redirectPath
    else redirectPath +:+ "?redirect_uri=" +:+ clientRedirectURL.

(** [SSOSetWebSessionAndRedirectURL]: the redirect URL it leaves behind. *)
Definition setWebSession (r : HTTPRequest) (response : OIDCAuthResponse (W := W)) (session : WebSession)
    (verifyCSRF : bool) : M W string :=
  do* mlift (if verifyCSRF then px_VerifyCSRFToken (ar_CSRFToken (resp_Req response)) r else Ok tt);
  do* px_SetCookie (resp_Username response) session;
  mlift (px_OriginLocalRedirectURI (ar_ClientRedirectURL (resp_Req response))).

Definition finishCallback (r : HTTPRequest) (response : OIDCAuthResponse (W := W)) : M W string :=
  if ar_CreateWebSession (resp_Req response) then
    match resp_Session response with
    | None => mfail (AccessDenied "Browser OIDC response has no web session" [])
    | Some session =>
        let* redirectURL := setWebSession r response session true in
        match px_GetDeviceWebToken session with
        | Some token => mret (BuildDeviceWebRedirectPath token redirectURL)
        | None => mret redirectURL
        end
    end
  else
    deny_if len (ar_SSHPubKey (resp_Req response)) + len (ar_TLSPubKey (resp_Req response)) =? 0
      with AccessDenied "OIDC response is not a browser or console login" [];
    mlift (px_ConstructSSHResponse response).

(** The failures of the callback itself have a page of their own. *)
Definition callback (clt : bool) (r : HTTPRequest) (query : gmap string (list string)) : W -> W * string :=
  fun w =>
    if negb clt then (w, LoginFailedBadCallbackRedirectURL)
    else match px_ValidateOIDCAuthCallback query w with
    | (w', Err _) => (w', LoginFailedBadCallbackRedirectURL)
    | (w', Ok response) => or_page LoginFailedRedirectURL (finishCallback r response) w'
    end.

(** ** Properties *)

(** A browser gets a session only after its CSRF token was verified; when it
    was not, nothing is set and the answer is the failure page. *)
Lemma finishCallback_csrf r response w e :
  ar_CreateWebSession (resp_Req response) = true ->
  px_VerifyCSRFToken (ar_CSRFToken (resp_Req response)) r = Err e ->
  or_page LoginFailedRedirectURL (finishCallback r response) w = (w, LoginFailedRedirectURL).
Proof.
  intros Hw Hv. unfold or_page, finishCallback. rewrite Hw.
  destruct (resp_Session response) as [session|]; [|done].
  unfold setWebSession, mthen, mlift. by rewrite Hv.
Qed.

Lemma callback_failed clt r query w w' e :
  px_ValidateOIDCAuthCallback query w = (w', Err e) ->
  callback clt r query w = (if clt then w' else w, LoginFailedBadCallbackRedirectURL).
Proof. unfold callback. destruct clt; simpl; [|done]. by intros ->. Qed.

Lemma console_modes r req remoteAddr :
  let a := authRequestForConsoleLogin r req remoteAddr in
  r_CreateWebSession a = false /\ r_SSOTestFlow a = false /\ r_ProxyAddress a = hr_Host r /\
  r_PkceVerifier a = "" /\ r_StateToken a = "".
Proof. done. Qed.
End Web.
