(* ===== verification/Callback.v ===== *)
(** * The callback: [lib/googleoidc/callback.go]

    [validateCallback] in its five stages, one definition each, over the world
    [W] and the audit record the stages fill, and the handler around it. *)

From S2P Require Import Prelude GoStrings Utf8 Types Key Backend State Policy Identity Regexp.
From S2P Require Import Traits Groups LoginAudit Transport Service Users.

(** [url.Values.Get] *)
Definition Values := gmap string (list string).
Definition values_Get (q : Values) (key : string) : string :=
  match q !! key with Some (v :: _) => v | _ => "" end.

Definition errStateNotUsable : error := AccessDenied stateFailureUserMessage [].

Section Callback.
Context {W : Type} `{UnicodeTables} `{UrlParser} `{SSHKeyParser} `{RequestCodec} `{RegexpCache}.
Context `{CloudIdentity} `{Clock W} `{Backend W} `{AuthServer W} `{Provider W}.

(** A step that may also write the audit record. *)
Definition CB (A : Type) : Type := M (W * callbackAudit) A.

Definition onWorld {A} (m : M W A) : CB A := fun s =>
  let '(w', r) := m s.1 in ((w', s.2), r).

Definition record (f : callbackAudit -> callbackAudit) : CB unit :=
  mmodify (fun s => (s.1, f s.2)).

(** [if err != nil { audit.failureClass = class; return nil, f(err) }] *)
Definition or_fail {A} (class : failureClass) (f : error -> error) (m : CB A) : CB A :=
  mcatch (fun s => (s.1, setFailureClass class s.2)) f m.

Definition same (e : error) : error := e.
Definition noting (msg : string) (e : error) : error := WithUserMessage e msg.

(** ** Stage 1: the query, and spending the state *)

Definition invalidParameters (msg : string) : error :=
  WithUserMessage (BadParameter msg []) "Invalid parameters received from OIDC provider.".

(** A callback that reports an error or has no code. *)
Definition callbackError (q : Values) : option (failureClass * error) :=
  if negb (bool_decide (values_Get q "error" = "")) then
    Some (failureProviderError,
          WithUserMessage (AccessDenied "OIDC provider rejected authentication" [])
            "OIDC provider rejected authentication.")
  else if bool_decide (values_Get q "code" = "") then
    Some (failureInvalidCallback, invalidParameters "OIDC callback is missing code")
  else None.

Definition spendState (s : Service) (q : Values) : CB OIDCAuthRequest :=
  let stateToken := values_Get q "state" in
  deny_if bool_decide (stateToken = "") with invalidParameters "OIDC callback is missing state";
  match callbackError q with
  | Some (class, callbackErr) =>
      do* record (setFailureClass class);
      let* request := mtry (onWorld (GetOIDCAuthRequest stateToken)) in
      do* match request with Ok r => record (setRequest r) | Err _ => mret tt end;
      mfail callbackErr
  | None =>
      let* req := or_fail failureUnknownState (fun _ => errStateNotUsable)
        (onWorld (GetOIDCAuthRequest stateToken)) in
      do* record (setRequest req);
      let* claimed := mtry (onWorld (Claim (sv_state s) stateToken)) in
      match claimed with
      | Ok _ => mret req
      | Err e =>
          if isStateAlreadyUsed e then
            do* record (setFailureClass failureCallbackReplayed);
            mfail errStateNotUsable
          else
            do* record (setFailureClass failureInternal);
            mfail e
      end
  end.

(** ** Stage 2: the connector and what the login recorded *)

Record Login := {
  lg_connector : OIDCConnector;
  lg_domains : list string;
  lg_groups : GroupSettings;
  lg_nonce : string;
  lg_callbackURL : string;
}.

Definition loadLogin (s : Service) (stateToken : string) (req : OIDCAuthRequest) : CB Login :=
  do* or_fail failureRequestValidation same (mlift (ValidateAuthRequestMode req));
  let* conn := or_fail failureConnectorResolution (noting "Failed to get OIDC connector.")
    (onWorld (getConnector req)) in
  do* record (setConnectorID (c_Name conn));
  let* domains := or_fail failureConnectorResolution same (mlift (WorkspaceDomains conn)) in
  let* groupSettings := or_fail failureConnectorResolution same
    (mlift (GroupLookupSettings (Some conn))) in
  do* or_fail failurePKCEVerification same
    (deny_if bool_decide (r_PkceVerifier req = "")
       with AccessDenied "OIDC authentication request is missing PKCE verification data" [];
     mret tt);
  let* nonce := or_fail failureRequestValidation (noting "Failed to read the OIDC nonce.")
    (onWorld (Nonce (sv_state s) stateToken)) in
  let* callbackURL := or_fail failureRedirectValidation same
    (mlift (RedirectURLForProxy conn (r_ProxyAddress req))) in
  mret {| lg_connector := conn; lg_domains := domains; lg_groups := groupSettings;
          lg_nonce := nonce; lg_callbackURL := callbackURL |}.

(** ** Stage 3: the token exchange and the ID token *)

Definition redeemCode (login : Login) (code verifier : string) : CB (Token * option IDTokenClaims) :=
  let conn := lg_connector login in
  let* config := or_fail failureProviderConfiguration (providerError failureProviderConfiguration)
    (onWorld (newOAuth2Config conn (lg_callbackURL login))) in
  let* token := or_fail failureTokenExchange (providerError failureTokenExchange)
    (onWorld (p_Exchange config code verifier)) in
  let* idToken := or_fail failureIDTokenValidation same
    (mlift (match tk_IDToken token with
            | Some t => if bool_decide (t = "")
                then Err (BadParameter "missing or invalid id_token found in OIDC OAuth2 token" [])
                else Ok t
            | None => Err (BadParameter "missing or invalid id_token found in OIDC OAuth2 token" [])
            end)) in
  let key := {| vk_issuer := s_IssuerURL (c_Spec conn); vk_audience := s_ClientID (c_Spec conn);
                vk_connector := c_Name conn |} in
  do* or_fail failureIDTokenValidation (providerError failureIDTokenValidation)
    (onWorld (p_GetValidator key));
  let* claims := or_fail failureIDTokenValidation (providerError failureIDTokenValidation)
    (onWorld (p_ValidateToken key idToken (lg_nonce login))) in
  mret (token, claims).

(** ** Stage 4: the identity, its claims and its groups *)

(** [claims] after its [nil] check. *)
Definition checkedClaims (claims : option IDTokenClaims) : IDTokenClaims :=
  default {| id_Issuer := ""; id_Audience := []; id_Nonce := ""; id_Subject := ""; id_Name := "";
             id_Email := ""; id_EmailVerified := false; id_IssuedAt := 0; id_NotBefore := 0;
             id_Expiration := 0; id_ACR := ""; id_Claims := ∅ |} claims.

(** The lookup of one login and the claims it leaves. *)
Definition groupClaims (login : Login) (accessToken email : string) (rawClaims : OIDCClaims)
    : CB (OIDCClaims * list string) :=
  if gs_Enabled (lg_groups login) then
    let lookup := lookupGroups (lg_groups login) accessToken email in
    do* record (setGroupLookup lookup);
    let verifiedGroups := gl_Groups lookup in
    mret (match verifiedGroups with
          | [] => rawClaims
          | _ => <[GroupsClaim := CStrings verifiedGroups]> rawClaims
          end, verifiedGroups)
  else mret (rawClaims, []).

Definition verifyIdentity (login : Login) (token : Token) (claims : option IDTokenClaims)
    : CB (OIDCClaims * list string) :=
  let* now := onWorld (mget Now) in
  do* match checkIdentityClaims claims (lg_domains login) now with
      | Some (class, e) => do* record (setFailureClass class); mfail e
      | None => mret tt
      end;
  let* rawClaims := or_fail failureClaimsProcessing (noting "Failed to extract OIDC claims.")
    (mlift (p_claimsToMap claims)) in
  let rawClaims := delete GroupsClaim rawClaims in
  let* grouped := groupClaims login (tk_AccessToken token) (id_Email (checkedClaims claims)) rawClaims in
  let acr := s_ACR (c_Spec (lg_connector login)) in
  do* or_fail failureIdentityValidation same
    (deny_if negb (bool_decide (acr = ""))
             && negb (bool_decide (id_ACR (checkedClaims claims) = acr))
       with AccessDenied "OIDC provider did not return the expected ACR value" [];
     mret tt);
  mret grouped.

(** ** Stage 5: the user and the credentials *)

Definition assignUser (login : Login) (req : OIDCAuthRequest) (claims : IDTokenClaims)
    (rawClaims : OIDCClaims) (verifiedGroups : list string) : CB (createUserParams * User) :=
  let* params := or_fail failureRoleMapping (noting "Failed to calculate user attributes.")
    (fun s =>
       let '(w, roleAudit, r) :=
         calculateUser (lg_connector login) rawClaims (id_Subject claims) req verifiedGroups s.1 in
       ((w, setRoleMapping roleAudit s.2), r)) in
  let* user := or_fail failureUserCreation (noting "Failed to create user from provided parameters.")
    (onWorld (createUser params (r_SSOTestFlow req))) in
  mret (params, user).

Definition testResponse (login : Login) (req : OIDCAuthRequest) (params : createUserParams)
    (user : User) (identity : OIDCIdentity) : OIDCAuthResponse (W := W) := {|
  resp_Username := u_Name user;
  resp_Identity := externalIdentity (c_Name (lg_connector login)) (cup_Username params) (oi_ID identity);
  resp_Session := None; resp_Cert := None; resp_TLSCert := None;
  resp_Req := authRequestFromProto req; resp_HostSigners := []; resp_ClientOptions := None;
|}.

Definition finishLogin (login : Login) (req : OIDCAuthRequest) (params : createUserParams)
    (user : User) (identity : OIDCIdentity) : CB OIDCAuthResponse :=
  if r_SSOTestFlow req then mret (testResponse login req params user identity)
  else
    do* or_fail failureLoginHook same (onWorld (as_CallLoginHooks user));
    let* userState := or_fail failureUserState same (onWorld (as_GetUserOrLoginState (u_Name user))) in
    or_fail failureCredentialIssuance same
      (onWorld (makeAuthResponse req userState identity (cup_SessionTTL params))).

Definition identityOf (claims : IDTokenClaims) : OIDCIdentity := {|
  oi_ID := id_Subject claims; oi_Name := id_Name claims; oi_Email := id_Email claims;
  oi_ExpiresAt := id_Expiration claims;
|}.

(** ** The callback *)

Definition validateCallback (s : Service) (q : Values) : CB OIDCAuthResponse :=
  let* req := spendState s q in
  let* login := loadLogin s (values_Get q "state") req in
  let* redeemed := redeemCode login (values_Get q "code") (r_PkceVerifier req) in
  let* grouped := verifyIdentity login redeemed.1 redeemed.2 in
  let claims := checkedClaims redeemed.2 in
  let* assigned := assignUser login req claims grouped.1 grouped.2 in
  finishLogin login req assigned.1 assigned.2 (identityOf claims).

(** [ValidateOIDCAuthCallback]: the event is emitted once a request is known,
    and a failure to emit it is logged only. *)
Definition ValidateOIDCAuthCallback (s : Service) (q : Values) : M W OIDCAuthResponse := fun w =>
  let '((w, audit), r) := validateCallback s q (w, newCallbackAudit) in
  let w :=
    if a_emit audit then
      fst (as_EmitAuditEvent
        (loginEvent audit (match r with Ok response => Some (resp_Username response) | Err _ => None end)) w)
    else w in
  (w, r).
End Callback.
