(* ===== verification/CallbackFacts.v ===== *)
(** * Properties of the login runtime

    What a successful stage means, what each stage does to the keys of the
    runtime, and how the audit class follows the failure. *)

From S2P Require Import Prelude GoStrings Utf8 Types Sha256 Key Backend State Policy Identity.
From S2P Require Import Regexp Traits Groups GroupsFacts LoginAudit Transport Service Users.
From S2P Require Import Callback.

(** ** Starting a login *)

Section Start.
Context {W : Type} `{UnicodeTables} `{UrlParser} `{SSHKeyParser} `{RequestCodec}.
Context `{BackendSpec W} `{AuthServer W} `{Provider W}.

Lemma getConnector_ok req w w' conn :
  getConnector req w = (w', Ok conn) ->
  as_GetOIDCConnector (r_ConnectorID req) true w = (w', Ok conn) /\
  connector_policy conn /\ r_SSOTestFlow req = false.
Proof.
  unfold getConnector. destruct (r_SSOTestFlow req).
  - intros E. exfalso. destruct (r_ConnectorSpec req) as [spec|]; [|done]. inv_mok.
    match goal with E : NewOIDCConnector _ _ = _ |- _ =>
      apply NewOIDCConnector_labels in E as (Hl & _) end.
    match goal with E : ValidateConnector _ = _ |- _ =>
      apply ValidateConnector_ok in E; destruct (cp_mappings _ E) as (ds & Hds & _) end.
    unfold WorkspaceDomains in Hds. rewrite Hl in Hds. done.
  - intros E. inv_mok. split; [done|]. split; [|done]. apply ValidateConnector_ok.
    done.
Qed.

(** What a started login has stored and what it has checked. *)
Lemma createAuthRequest_ok s req0 w w' req :
  createAuthRequest s req0 w = (w', Ok req) ->
  exists conn domains nonce w1 w2,
    ValidateAuthRequestMode req0 = Ok tt /\ connector_policy conn /\ r_SSOTestFlow req0 = false /\
    WorkspaceDomains conn = Ok domains /\
    RedirectURLForProxy conn (r_ProxyAddress req0) = Ok (default "" (s_RedirectURLs (c_Spec conn) !! 0%nat)) /\
    r_ConnectorID req = r_ConnectorID req0 /\
    PutNonce (sv_state s) (r_StateToken req) nonce w1 = (w2, Ok tt) /\
    CreateOIDCAuthRequest req OIDCAuthRequestTTL w2 = (w', Ok tt).
Proof.
  unfold createAuthRequest. intros E. inv_mok.
  assert (Hs : forall r, ValidateAuthRequestMode (sanitizeUserAgent r) = ValidateAuthRequestMode r /\
    r_SSOTestFlow (sanitizeUserAgent r) = r_SSOTestFlow r /\
    r_ProxyAddress (sanitizeUserAgent r) = r_ProxyAddress r /\
    r_ConnectorID (sanitizeUserAgent r) = r_ConnectorID r).
  { intros r. unfold sanitizeUserAgent. by destruct (_ || _). }
  destruct (Hs req0) as (Hmode & Hflow & Hproxy & Hid).
  match goal with E : getConnector _ _ = _ |- _ => apply getConnector_ok in E as (_ & Hp & Ht) end.
  match goal with E : RedirectURLForProxy _ _ = Ok _ |- _ => pose proof E as Hr end.
  apply RedirectURLForProxy_ok in Hr as (u & _ & Hl & _).
  do 5 eexists. rewrite <- Hmode, <- Hflow, <- Hproxy, <- Hid.
  split; [done|]. split; [done|]. split; [done|]. split; [done|].
  split; [rewrite Hl; done|]. split; [done|]. split; [done|]. done.
Qed.
End Start.

(** ** The stages leave the runtime's keys alone *)

Section Quiet.
Context {W : Type} `{UnicodeTables} `{UrlParser} `{SSHKeyParser} `{RequestCodec} `{RegexpCache}.
Context `{CloudIdentity} `{Clock W} `{Backend W} `{LiveView W} `{Grace W} `{!BackendSpec W}.
Context `{AuthServer W} `{Provider W} `{!QuietUpstream W}.

Definition onFst {A} (R : W -> W -> Prop) (s s' : W * A) : Prop := R s.1 s'.1.

#[export] Instance onFst_preorder {A} R `{!PreOrder R} : PreOrder (onFst (A:=A) R).
Proof.
  split; [intros s; unfold onFst; reflexivity|].
  intros s1 s2 s3. unfold onFst. intros ? ?. by etransitivity.
Qed.

Lemma onWorld_step {A} R (m : M W A) : step_in R m -> step_in (onFst R) (onWorld m).
Proof.
  intros Hm [w a] [w' a'] r. unfold onWorld, onFst. simpl.
  destruct (m w) as [w1 r1] eqn:E. intros [= <- <- <-]. by eapply Hm.
Qed.

Lemma record_step R `{!PreOrder R} f : step_in (onFst R) (record f).
Proof. intros [w a] s' r [= <- <-]. unfold onFst. simpl. reflexivity. Qed.

Definition quietly {A} (m : CB (W := W) A) : Prop := step_in (onFst (kept owned)) m.

Lemma or_fail_quietly {A} class f (m : CB (W := W) A) : quietly m -> quietly (or_fail class f m).
Proof. intros Hm. apply step_in_mcatch; [apply _|done|]. intros s. unfold onFst. simpl. reflexivity. Qed.

Lemma kept_everything w w' : kept (fun _ => True) w w' -> kept owned w w'.
Proof. by apply kept_weaken. Qed.

Lemma bk_Get_quiet k : quiet (bk_Get k).
Proof. intros w w' r E. apply kept_everything. by eapply get_frame. Qed.

Lemma GetOIDCAuthRequest_quiet t : quiet (GetOIDCAuthRequest t).
Proof. intros w w' r E. apply kept_everything. by eapply GetOIDCAuthRequest_step. Qed.

Lemma getConnector_quiet req : quiet (getConnector req).
Proof. unfold quiet, getConnector. quiet_auto. Qed.

Lemma Nonce_quiet s t : quiet (Nonce s t).
Proof. unfold quiet, Nonce. quiet_auto. apply bk_Get_quiet. Qed.

Lemma newOAuth2Config_quiet conn cb : quiet (newOAuth2Config conn cb).
Proof. unfold quiet, newOAuth2Config. quiet_auto. Qed.

Lemma createUser_quiet p dry : quiet (createUser p dry).
Proof.
  unfold quiet, createUser, validateSubjectBinding, lookupUser. quiet_auto.
Qed.

Lemma makeAuthResponse_quiet req us identity ttl : quiet (makeAuthResponse req us identity ttl).
Proof.
  unfold quiet, makeAuthResponse, issueSession, issueCerts, wrap. quiet_auto.
Qed.

Lemma calculateUser_quiet conn claims subject req groups w w' ra r :
  calculateUser conn claims subject req groups w = (w', ra, r) -> kept owned w w'.
Proof.
  unfold calculateUser. destruct (usernameFromClaims conn claims); [|by intros [= <- _ _]].
  destruct (mapTraits _ _) as [ws rs]. destruct (_ =? 0)%nat; [by intros [= <- _ _]|].
  destruct (as_Evaluate _ w) as [w1 [[ts rules]|e]] eqn:E1; apply quiet_Evaluate in E1;
    [|by intros [= <- _ _]].
  destruct (as_FetchRoles _ _ w1) as [w2 [limits|e]] eqn:E2; apply quiet_FetchRoles in E2;
    intros [= <- _ _]; by etransitivity.
Qed.

Ltac quietly_auto :=
  repeat first [ apply or_fail_quietly | apply record_step; apply _ | apply onWorld_step | step_in_one
               | progress (unfold quietly) ];
  try done; try quiet_call.

Lemma loadLogin_quietly s t req : quietly (loadLogin s t req).
Proof.
  unfold loadLogin. quietly_auto; [apply getConnector_quiet|apply Nonce_quiet].
Qed.

Lemma redeemCode_quietly login code verifier : quietly (redeemCode login code verifier).
Proof. unfold redeemCode. quietly_auto. apply newOAuth2Config_quiet. Qed.

Lemma verifyIdentity_quietly login token claims : quietly (verifyIdentity login token claims).
Proof. unfold verifyIdentity, groupClaims. quietly_auto. Qed.

Lemma assignUser_quietly login req claims raw groups : quietly (assignUser login req claims raw groups).
Proof.
  unfold assignUser. quietly_auto.
  - intros [w a] s' r. simpl. destruct (calculateUser _ _ _ _ _ w) as [[w1 ra] r1] eqn:E.
    intros [= <- <-]. unfold onFst. simpl. by eapply calculateUser_quiet.
  - apply createUser_quiet.
Qed.

Lemma finishLogin_quietly login req params user identity :
  quietly (finishLogin login req params user identity).
Proof. unfold finishLogin. quietly_auto. apply makeAuthResponse_quiet. Qed.

(** What follows the spent state. *)
Definition afterSpend (s : Service) (q : Values) (req : OIDCAuthRequest) : CB (W := W) OIDCAuthResponse :=
  let* login := loadLogin s (values_Get q "state") req in
  let* redeemed := redeemCode login (values_Get q "code") (r_PkceVerifier req) in
  let* grouped := verifyIdentity login redeemed.1 redeemed.2 in
  let claims := checkedClaims redeemed.2 in
  let* assigned := assignUser login req claims grouped.1 grouped.2 in
  finishLogin login req assigned.1 assigned.2 (identityOf claims).

Lemma afterSpend_quietly s q req : quietly (afterSpend s q req).
Proof.
  unfold afterSpend.
  apply step_in_mthen; [apply _|apply loadLogin_quietly|intros login].
  apply step_in_mthen; [apply _|apply redeemCode_quietly|intros redeemed].
  apply step_in_mthen; [apply _|apply verifyIdentity_quietly|intros grouped].
  apply step_in_mthen; [apply _|apply assignUser_quietly|intros assigned].
  apply finishLogin_quietly.
Qed.
End Quiet.

(** ** What success means *)

Section Success.
Context {W : Type} `{UnicodeTables} `{UrlParser} `{SSHKeyParser} `{RequestCodec} `{RegexpCache}.
Context `{CloudIdentity} `{Clock W} `{Backend W} `{LiveView W} `{Grace W} `{!BackendSpec W}.
Context `{AuthServer W} `{Provider W}.

Lemma onWorld_ok {A} (m : M W A) s s' a :
  onWorld m s = (s', Ok a) <-> m s.1 = (s'.1, Ok a) /\ s'.2 = s.2.
Proof.
  unfold onWorld. destruct (m s.1) as [w r]. destruct s' as [w' au]. simpl. naive_solver.
Qed.

Lemma spendState_ok (s : Service) q x x' req :
  spendState s q x = (x', Ok req) ->
  callbackError q = None /\ x'.2 = setRequest req x.2 /\
  exists w0, GetOIDCAuthRequest (values_Get q "state") x.1 = (w0, Ok req) /\
    Claim (sv_state s) (values_Get q "state") w0 = (x'.1, Ok tt).
Proof.
  unfold spendState. intros [_ E]%deny_if_ok.
  destruct (callbackError q) as [[class e]|]; [exfalso; inv_mok|].
  apply mthen_ok in E as (x1 & req1 & E1 & E). apply mcatch_ok, onWorld_ok in E1 as [Eg Ea1].
  apply mthen_ok in E as (x2 & [] & E2 & E). injection E2; clear E2; intros; subst x2.
  apply mthen_ok in E as (x3 & r3 & E3 & E). unfold mtry in E3.
  destruct (onWorld (Claim _ _) _) as [x4 r4] eqn:Ec. injection E3; clear E3; intros; subst x4 r3.
  destruct r4 as [[]|e]; [|exfalso; destruct (isStateAlreadyUsed e); inv_mok].
  injection E; clear E; intros; subst. apply onWorld_ok in Ec as [Ec Ea]. simpl in *.
  split; [done|]. split; [by rewrite Ea, Ea1|]. eauto.
Qed.

(** What loading the login of a request has checked. *)
Record login_loaded (req : OIDCAuthRequest) (login : Login) : Prop := {
  ll_mode : ValidateAuthRequestMode req = Ok tt;
  ll_stored : r_SSOTestFlow req = false;
  ll_policy : connector_policy (lg_connector login);
  ll_domains : WorkspaceDomains (lg_connector login) = Ok (lg_domains login);
  ll_groups : group_settings_of (lg_connector login) (lg_groups login);
  ll_pkce : r_PkceVerifier req <> "";
  ll_callback : RedirectURLForProxy (lg_connector login) (r_ProxyAddress req) = Ok (lg_callbackURL login);
}.

Lemma or_fail_ok {A} class f (m : CB (W := W) A) x x' a :
  or_fail class f m x = (x', Ok a) <-> m x = (x', Ok a).
Proof. apply mcatch_ok. Qed.

(** The two calls that load a login, one after the other. *)
Lemma loadLogin_ok s t req x x' login :
  loadLogin s t req x = (x', Ok login) ->
  login_loaded req login /\
  exists w1, as_GetOIDCConnector (r_ConnectorID req) true x.1 = (w1, Ok (lg_connector login)) /\
    Nonce (sv_state s) t w1 = (x'.1, Ok (lg_nonce login)).
Proof.
  unfold loadLogin. intros E.
  apply mthen_ok in E as (x1 & [] & E1 & E). apply or_fail_ok, mlift_ok in E1 as [-> Hmode].
  apply mthen_ok in E as (x2 & conn & E2 & E). apply or_fail_ok, onWorld_ok in E2 as [E2 _].
  apply mthen_ok in E as (x3 & [] & E3 & E). injection E3; clear E3; intros; subst x3.
  apply mthen_ok in E as (x4 & ds & E4 & E). apply or_fail_ok, mlift_ok in E4 as [-> Hds].
  apply mthen_ok in E as (x5 & gs & E5 & E). apply or_fail_ok, mlift_ok in E5 as [-> Hgs].
  apply mthen_ok in E as (x6 & [] & E6 & E). apply or_fail_ok, deny_if_ok in E6 as [Hv E6].
  injection E6; clear E6; intros; subst x6.
  apply mthen_ok in E as (x7 & n & E7 & E). apply or_fail_ok, onWorld_ok in E7 as [E7 _].
  apply mthen_ok in E as (x8 & cb & E8 & E). apply or_fail_ok, mlift_ok in E8 as [-> Hcb].
  injection E; clear E; intros; subst login x7. simpl in *.
  apply getConnector_ok in E2 as (Hc & Hp & Ht).
  split; [split; simpl; try done|by exists x2.1].
  - by apply GroupLookupSettings_ok.
  - by bool_to_prop.
Qed.

Definition validator_key (conn : OIDCConnector) : validatorKey := {|
  vk_issuer := s_IssuerURL (c_Spec conn); vk_audience := s_ClientID (c_Spec conn); vk_connector := c_Name conn |}.

Lemma newOAuth2Config_ok conn callbackURL w w' config :
  newOAuth2Config conn callbackURL w = (w', Ok config) ->
  oc_AuthURL config = googleAuthorizationEndpoint /\ oc_TokenURL config = googleTokenEndpoint /\
  oc_RedirectURL config = callbackURL.
Proof.
  unfold newOAuth2Config. intros E. inv_mok.
  match goal with E : validateDiscoveryConfig ?d = Ok tt |- _ => destruct d as [dc|]; [|done]; rename E into Hdc end.
  unfold validateDiscoveryConfig in Hdc. destruct (_ || _) eqn:Eb; [done|]. bool_to_prop. done.
Qed.

(** The calls that redeem the code, one after the other, and what they have
    checked. *)
Lemma redeemCode_ok login code verifier x x' token claims :
  redeemCode login code verifier x = (x', Ok (token, claims)) ->
  exists config idToken w1 w2 w3,
    oc_AuthURL config = googleAuthorizationEndpoint /\ oc_TokenURL config = googleTokenEndpoint /\
    oc_RedirectURL config = lg_callbackURL login /\
    newOAuth2Config (lg_connector login) (lg_callbackURL login) x.1 = (w1, Ok config) /\
    p_Exchange config code verifier w1 = (w2, Ok token) /\
    tk_IDToken token = Some idToken /\
    p_GetValidator (validator_key (lg_connector login)) w2 = (w3, Ok tt) /\
    p_ValidateToken (validator_key (lg_connector login)) idToken (lg_nonce login) w3 = (x'.1, Ok claims).
Proof.
  unfold redeemCode. intros E.
  apply mthen_ok in E as (x1 & config & E1 & E). apply or_fail_ok, onWorld_ok in E1 as [E1 _].
  apply mthen_ok in E as (x2 & tok & E2 & E). apply or_fail_ok, onWorld_ok in E2 as [E2 _].
  apply mthen_ok in E as (x3 & idt & E3 & E). apply or_fail_ok, mlift_ok in E3 as [-> Hid].
  apply mthen_ok in E as (x4 & [] & E4 & E). apply or_fail_ok, onWorld_ok in E4 as [E4 _].
  apply mthen_ok in E as (x5 & cl & E5 & E). apply or_fail_ok, onWorld_ok in E5 as [E5 _].
  injection E; clear E; intros; subst.
  destruct (tk_IDToken token) as [i|] eqn:Ei; [|done]. destruct (bool_decide (i = "")); [done|].
  injection Hid as ->.
  destruct (newOAuth2Config_ok _ _ _ _ _ E1) as (? & ? & ?).
  exists config, idt, x1.1, x2.1, x4.1. done.
Qed.

(** What verifying the identity has checked, and the groups it confirmed. *)
Record identity_verified (login : Login) (token : Token) (claims : option IDTokenClaims) (now : time)
    (raw : OIDCClaims) (groups : list string) : Prop := {
  iv_claims : exists c, claims = Some c /\ id_Subject c <> "" /\ id_Email c <> "" /\
    id_EmailVerified c = true /\ id_IssuedAt c <= now + Second /\ id_NotBefore c <= now + Second /\
    CheckHostedDomain (hostedDomain claims) (lg_domains login) = Ok tt /\
    CheckEmailDomain (id_Email c) (lg_domains login) = Ok tt /\
    (s_ACR (c_Spec (lg_connector login)) <> "" -> id_ACR c = s_ACR (c_Spec (lg_connector login))) /\
    groups = (if gs_Enabled (lg_groups login)
      then gl_Groups (lookupGroups (lg_groups login) (tk_AccessToken token) (id_Email c)) else []);
  iv_raw : exists raw0, p_claimsToMap claims = Ok raw0 /\
    raw = match groups with [] => delete GroupsClaim raw0
          | _ => <[GroupsClaim := CStrings groups]> (delete GroupsClaim raw0) end;
}.

Lemma checkIdentityClaims_none claims ds now :
  checkIdentityClaims claims ds now = None ->
  exists c, claims = Some c /\ id_Subject c <> "" /\ id_Email c <> "" /\ id_EmailVerified c = true /\
    id_IssuedAt c <= now + Second /\ id_NotBefore c <= now + Second /\
    CheckHostedDomain (hostedDomain claims) ds = Ok tt /\ CheckEmailDomain (id_Email c) ds = Ok tt.
Proof.
  unfold checkIdentityClaims. destruct claims as [c|]; [|done].
  repeat (case_match; try done); intros _; bool_to_prop. exists c.
  repeat match goal with u : unit |- _ => destruct u end. by repeat split.
Qed.

Lemma groupClaims_ok login accessToken email raw x x' raw' groups :
  groupClaims (W := W) login accessToken email raw x = (x', Ok (raw', groups)) ->
  x'.1 = x.1 /\
  groups = (if gs_Enabled (lg_groups login)
            then gl_Groups (lookupGroups (lg_groups login) accessToken email) else []) /\
  raw' = match groups with [] => raw | _ => <[GroupsClaim := CStrings groups]> raw end.
Proof.
  unfold groupClaims, record. destruct (gs_Enabled _); intros E; inv_mok; done.
Qed.

#[local] Opaque lookupGroups groupClaims.

(** Verifying the identity reads the clock and leaves the world alone. *)
Lemma verifyIdentity_ok login token claims x x' raw groups :
  verifyIdentity login token claims x = (x', Ok (raw, groups)) ->
  x'.1 = x.1 /\ identity_verified login token claims (Now x.1) raw groups.
Proof.
  unfold verifyIdentity. intros E.
  apply mthen_ok in E as (x1 & now & E1 & E). apply onWorld_ok in E1 as [E1 _].
  injection E1; clear E1; intros Hx1 Hw1; subst now.
  apply mthen_ok in E as (x2 & [] & E2 & E).
  destruct (checkIdentityClaims _ _ _) as [[class e]|] eqn:Ec; [exfalso; inv_mok|].
  injection E2; clear E2; intros; subst x2.
  apply mthen_ok in E as (x3 & raw0 & E3 & E). apply or_fail_ok, mlift_ok in E3 as [-> Hraw].
  apply mthen_ok in E as (x4 & [raw1 g1] & E4 & E).
  apply (groupClaims_ok login (tk_AccessToken token) (id_Email (checkedClaims claims))) in E4 as (Hx4 & Hg1 & Hr1).
  apply mthen_ok in E as (x5 & [] & E5 & E). apply or_fail_ok, deny_if_ok in E5 as [Hacr E5].
  injection E5; clear E5; intros; subst x5. injection E as <- <- <-.
  split; [by rewrite Hx4|].
  apply checkIdentityClaims_none in Ec as (c & -> & ? & ? & ? & ? & ? & ? & ?). simpl in *.
  split; [|eauto]. exists c. split; [done|]. do 7 (split; [done|]). split; [|done].
  intros Hne. apply andb_false_iff in Hacr as [Ha|Ha]; bool_to_prop; done.
Qed.

Lemma assignUser_ok login req claims raw groups x x' params user :
  assignUser login req claims raw groups x = (x', Ok (params, user)) ->
  exists w1 ra, calculateUser (lg_connector login) raw (id_Subject claims) req groups x.1 = (w1, ra, Ok params) /\
    createUser params (r_SSOTestFlow req) w1 = (x'.1, Ok user) /\ x'.2 = setRoleMapping ra x.2.
Proof.
  unfold assignUser. intros E.
  apply mthen_ok in E as (x1 & p & E1 & E). apply or_fail_ok in E1.
  apply mthen_ok in E as (x2 & u & E2 & E). apply or_fail_ok, onWorld_ok in E2 as [E2 Ea].
  injection E as <- <- <-.
  destruct (calculateUser _ _ _ _ _ x.1) as [[w1 ra] r] eqn:Ec. injection E1 as <- ->.
  exists w1, ra. done.
Qed.

Lemma finishLogin_ok login req params user identity x x' resp :
  finishLogin login req params user identity x = (x', Ok resp) -> r_SSOTestFlow req = false ->
  exists w1 w2 userState, as_CallLoginHooks user x.1 = (w1, Ok tt) /\
    as_GetUserOrLoginState (u_Name user) w1 = (w2, Ok userState) /\
    makeAuthResponse req userState identity (cup_SessionTTL params) w2 = (x'.1, Ok resp).
Proof.
  intros E Hs. unfold finishLogin in E. rewrite Hs in E.
  apply mthen_ok in E as (x1 & [] & E1 & E). apply or_fail_ok, onWorld_ok in E1 as [E1 _].
  apply mthen_ok in E as (x2 & us & E2 & E). apply or_fail_ok, onWorld_ok in E2 as [E2 _].
  apply or_fail_ok, onWorld_ok in E as [E _]. by exists x1.1, x2.1, us.
Qed.

(** What one callback has read, received and computed. *)
Record CallbackRun := {
  run_request : OIDCAuthRequest;
  run_login : Login;
  run_config : OAuth2Config;
  run_token : Token;
  run_idToken : string;
  run_claims : IDTokenClaims;
  run_now : time;                  (* the clock when the identity was checked *)
  run_rawClaims : OIDCClaims;
  run_groups : list string;
  run_params : createUserParams;
  run_calculated : W;              (* the world the parameters were calculated in *)
  run_user : User;
  run_written : W;                 (* the world the user was written in *)
  run_userState : UserState;
}.

(** The calls of a callback that answers [resp], in their order, from the
    world [w] it starts in to the world [w'] it ends in: each call is made in
    the world the call before it left.  Every call is a function of its
    arguments and its world, so that the run is the only one. *)
Inductive callback_run (s : Service) (q : Values) (w : W) (run : CallbackRun) (w' : W)
    (resp : OIDCAuthResponse) : Prop :=
| callback_ran w0 w1 w2 w3 w4 w5 w6 w7 w8 w9 ra :
    let req := run_request run in
    let conn := lg_connector (run_login run) in
    let nonce := lg_nonce (run_login run) in
    GetOIDCAuthRequest (values_Get q "state") w = (w0, Ok req) ->
    Claim (sv_state s) (values_Get q "state") w0 = (w1, Ok tt) ->
    as_GetOIDCConnector (r_ConnectorID req) true w1 = (w2, Ok conn) ->
    Nonce (sv_state s) (values_Get q "state") w2 = (w3, Ok nonce) ->
    newOAuth2Config conn (lg_callbackURL (run_login run)) w3 = (w4, Ok (run_config run)) ->
    p_Exchange (run_config run) (values_Get q "code") (r_PkceVerifier req) w4 = (w5, Ok (run_token run)) ->
    tk_IDToken (run_token run) = Some (run_idToken run) ->
    p_GetValidator (validator_key conn) w5 = (w6, Ok tt) ->
    p_ValidateToken (validator_key conn) (run_idToken run) nonce w6 = (w7, Ok (Some (run_claims run))) ->
    run_now run = Now w7 ->
    calculateUser conn (run_rawClaims run) (id_Subject (run_claims run)) req (run_groups run) w7 =
      (run_calculated run, ra, Ok (run_params run)) ->
    createUser (run_params run) false (run_calculated run) = (run_written run, Ok (run_user run)) ->
    as_CallLoginHooks (run_user run) (run_written run) = (w8, Ok tt) ->
    as_GetUserOrLoginState (u_Name (run_user run)) w8 = (w9, Ok (run_userState run)) ->
    makeAuthResponse req (run_userState run) (identityOf (run_claims run)) (cup_SessionTTL (run_params run)) w9 =
      (w', Ok resp) ->
    callback_run s q w run w' resp.

(** What the stages have checked of the values of a run. *)
Record callback_checked (q : Values) (run : CallbackRun) : Prop := {
  cc_query : callbackError q = None;
  cc_login : login_loaded (run_request run) (run_login run);
  cc_token_endpoint : oc_TokenURL (run_config run) = googleTokenEndpoint;
  cc_redirect : oc_RedirectURL (run_config run) = lg_callbackURL (run_login run);
  cc_identity : identity_verified (run_login run) (run_token run) (Some (run_claims run)) (run_now run)
    (run_rawClaims run) (run_groups run);
}.

Lemma validateCallback_ok s q x x' resp :
  validateCallback s q x = (x', Ok resp) ->
  exists run, callback_run s q x.1 run x'.1 resp /\ callback_checked q run.
Proof.
  unfold validateCallback. intros E.
  apply mthen_ok in E as (x1 & req & E1 & E). apply spendState_ok in E1 as (Hq & _ & w0 & Hg & Hc).
  apply mthen_ok in E as (x2 & login & E2 & E). apply loadLogin_ok in E2 as (Hl & w2 & Hgc & Hn).
  apply mthen_ok in E as (x3 & [token claims] & E3 & E).
  apply redeemCode_ok in E3 as (config & idt & w4 & w5 & w6 & _ & Ht & Hr & Ho & Hx & Hi & Hgv & Hv).
  apply mthen_ok in E as (x4 & [raw groups] & E4 & E). apply verifyIdentity_ok in E4 as [Hw4 Hiv].
  destruct (iv_claims _ _ _ _ _ _ Hiv) as (c & Hcl & _). simpl in Hcl, Hiv. subst claims.
  apply mthen_ok in E as (x5 & [params user] & E5 & E).
  apply assignUser_ok in E5 as (w8 & ra & Hcu & Huw & _).
  pose proof (ll_stored _ _ Hl) as Hs. rewrite Hs in Huw.
  apply finishLogin_ok in E as (w10 & w11 & us & Hh & Hus & Hm); [|done].
  simpl in *. rewrite Hw4 in Hcu.
  exists {| run_request := req; run_login := login; run_config := config; run_token := token;
    run_idToken := idt; run_claims := c; run_now := Now x3.1; run_rawClaims := raw; run_groups := groups;
    run_params := params;
    run_calculated := w8; run_user := user; run_written := x5.1; run_userState := us |}.
  split; [|split; done].
  eapply callback_ran; simpl; [exact Hg|exact Hc|exact Hgc|exact Hn|exact Ho|exact Hx|exact Hi|exact Hgv
    |exact Hv|reflexivity|exact Hcu|exact Huw|exact Hh|exact Hus|exact Hm].
Qed.

(** No two runs belong to one callback. *)
Lemma callback_run_unique s q w run1 run2 w1 w2 resp1 resp2 :
  callback_run s q w run1 w1 resp1 -> callback_checked q run1 ->
  callback_run s q w run2 w2 resp2 -> callback_checked q run2 ->
  run1 = run2 /\ w1 = w2 /\ resp1 = resp2.
Proof.
  destruct run1 as [r1 [c1 d1 g1 n1 u1] ? ? ? ? ? ? ? ? ? ? ? ?], run2 as [r2 [c2 d2 g2 n2 u2] ? ? ? ? ? ? ? ? ? ? ? ?].
  intros [] [_ [] _ _ [(? & [= <-] & Hi1) (? & Hm1 & Hr1)]] [] [_ [] _ _ [(? & [= <-] & Hi2) (? & Hm2 & Hr2)]].
  repeat match goal with x := _ |- _ => subst x end. simpl in *. destruct_and! Hi1. destruct_and! Hi2.
  repeat match goal with Hg : group_settings_of _ _ |- _ => apply GroupLookupSettings_ok in Hg end.
  repeat match goal with E1 : ?m = _, E2 : ?m = _ |- _ => rewrite E1 in E2; injection E2 as; subst end. done.
Qed.

(** The credentials of a run are those of its user, and the identity they name
    is the subject of its ID token. *)
Lemma callback_run_response s q w run w' resp :
  callback_run s q w run w' resp ->
  resp_Username resp = us_Name (run_userState run) /\
  resp_Identity resp = externalIdentity (r_ConnectorID (run_request run)) (us_Name (run_userState run))
    (id_Subject (run_claims run)).
Proof.
  intros []. match goal with E : makeAuthResponse _ _ _ _ _ = _ |- _ => unfold makeAuthResponse in E end.
  inv_mok. done.
Qed.

(** The user a run writes is the one its parameters name. *)
Lemma callback_run_user s q w run w' resp :
  callback_run s q w run w' resp ->
  usernameFromClaims (lg_connector (run_login run)) (run_rawClaims run) = Ok (u_Name (run_user run)) /\
  u_OIDCIdentities (run_user run) = [externalIdentity (c_Name (lg_connector (run_login run)))
    (u_Name (run_user run)) (id_Subject (run_claims run))] /\
  u_Roles (run_user run) = cup_Roles (run_params run) /\ u_Traits (run_user run) = cup_Traits (run_params run).
Proof.
  intros []. subst conn. match goal with E : calculateUser _ _ _ _ _ _ = _ |- _ =>
    apply calculateUser_ok in E as (Hn & _ & Hc & Hs & _) end.
  match goal with E : createUser _ _ _ = _ |- _ => apply createUser_ok in E as (? & ? & ? & ex & _ & _ & _ & E) end.
  rewrite <- Hs, <- Hc. destruct ex as [e|].
  - match goal with E : own_user _ _ /\ _ |- _ => destruct E as (_ & -> & _) end. done.
  - match goal with E : _ = newUser _ _ /\ _ |- _ => destruct E as (-> & _) end. done.
Qed.
End Success.

(** ** One login, one callback *)

Definition login_keys (t k : string) : Prop := k = used_key t \/ k = nonce_key t \/ k = request_key t.

Lemma login_keys_owned t k : login_keys t k -> owned k.
Proof. intros Hk. by exists t. Qed.

Lemma request_used_ne t t' : request_key t <> used_key t'.
Proof.
  intros E. assert (HasPrefix (request_key t) "/w" = HasPrefix (used_key t') "/w") as Hc by by rewrite E.
  discriminate Hc.
Qed.

Lemma request_nonce_ne t t' : request_key t <> nonce_key t'.
Proof.
  intros E. assert (HasPrefix (request_key t) "/w" = HasPrefix (nonce_key t') "/w") as Hc by by rewrite E.
  discriminate Hc.
Qed.

Lemma NewService_ttl cfg s : NewService cfg = Ok s -> ss_ttl (sv_state s) = OIDCAuthRequestTTL.
Proof. unfold NewService, NewStateStore. intros E. inv_ok. done. Qed.

Section SingleUse.
Context {W : Type} `{UnicodeTables} `{UrlParser} `{SSHKeyParser} `{RequestCodec} `{RegexpCache}.
Context `{CloudIdentity} `{Clock W} `{Backend W} `{LiveView W} `{Grace W} `{!BackendSpec W}.
Context `{AuthServer W} `{Provider W}.

Lemma Claim_kept s t w w' r k :
  Claim s t w = (w', r) -> k <> used_key t -> kept (fun k' => k' = k) w w'.
Proof.
  intros E Hk. revert w w' r E. change (step_in (kept (fun k' => k' = k)) (Claim (W:=W) s t)).
  unfold Claim. step_in_auto. intros w w' r E. apply create_frame in E as [_ Hf].
  eapply kept_weaken; [|exact Hf]. by intros ? ->.
Qed.

(** After a claim of a login that was started at [tc], a second callback gets
    past the state check only when it stalls: when, between reading the
    request and claiming the state, it takes longer than passed from the start
    of the login to the first callback, less the grace of the backend. *)
Lemma no_second_claim s t tc w w0 req w1 w2 w3 req' w4 :
  (forall i, live w (request_key t) = Some i -> exists e, i_Expires i = Some e /\ e <= tc + ss_ttl s) ->
  GetOIDCAuthRequest t w = (w0, Ok req) -> Claim s t w0 = (w1, Ok tt) ->
  kept (login_keys t) w1 w2 ->
  GetOIDCAuthRequest t w2 = (w3, Ok req') -> Now w3 - Now w2 + grace W <= Now w - tc ->
  Claim s t w3 <> (w4, Ok tt).
Proof.
  intros Hexp Hg1 Hc1 Hk Hg2 Htime Hc2.
  pose proof (GetOIDCAuthRequest_step t _ _ _ Hg1) as Hk01.
  pose proof (GetOIDCAuthRequest_step t _ _ _ Hg2) as Hk23.
  pose proof (Claim_kept s t _ _ _ (request_key t) Hc1 (request_used_ne t t)) as Hkc.
  apply GetOIDCAuthRequest_ok in Hg2 as (_ & i & Hi & _).
  assert (Hi0 : live w (request_key t) = Some i).
  { apply (proj2 (proj2 Hk01 _ i I)), (proj2 (proj2 Hkc _ i eq_refl)),
      (proj2 (proj2 Hk _ i (or_intror (or_intror eq_refl)))), Hi. }
  destruct (Hexp i Hi0) as (e & He & Hle).
  pose proof (live_unexpired _ _ _ Hi) as Hu. unfold unexpired in Hu. rewrite He in Hu.
  destruct Hk01 as [Ht01 _].
  apply (Claim_twice s t w0 w1 w3 w4); [done| |lia|done].
  transitivity w2.
  - eapply kept_weaken; [|exact Hk]. intros k ->. by left.
  - eapply kept_weaken; [|exact Hk23]. done.
Qed.

(** The request a started login has stored expires with the login. *)
Lemma started_expiry s req0 wa wb req w i :
  createAuthRequest s req0 wa = (wb, Ok req) -> kept (login_keys (r_StateToken req)) wb w ->
  live w (request_key (r_StateToken req)) = Some i ->
  exists e, i_Expires i = Some e /\ e <= Now wb + OIDCAuthRequestTTL.
Proof.
  intros E Hk Hl. apply createAuthRequest_ok in E as (conn & ds & n & w1 & w2 & _ & _ & _ & _ & _ & _ & _ & Hc).
  apply (proj2 (proj2 Hk _ i (or_intror (or_intror eq_refl)))) in Hl.
  unfold CreateOIDCAuthRequest in Hc. inv_mok.
  match goal with E : bk_Create _ _ = _ |- _ => rename E into Hb end.
  pose proof (create_ok _ _ _ _ Hb) as [Hnone _]. pose proof (create_frame _ _ _ _ Hb) as [[Ht _] _].
  pose proof (create_written _ _ _ _ i Hb Hl) as [Hold|[_ He]].
  - simpl in Hold, Hnone. congruence.
  - unfold Expiry in He. simpl in He. eexists. split; [exact He|]. lia.
Qed.

Lemma step_in_pair {A} (m : CB (W := W) A) x x' r :
  quietly m -> m x = (x', r) -> kept owned x.1 x'.1.
Proof. intros Hm E. apply (Hm _ _ _ E). Qed.

Lemma validateCallback_split s q x :
  validateCallback s q x =
  match spendState s q x with
  | (x1, Ok req) => afterSpend s q req x1
  | (x1, Err e) => (x1, Err e)
  end.
Proof. unfold validateCallback, mthen at 1. by destruct (spendState s q x) as [x1 [req|e]]. Qed.

Lemma second_callback_denied `{!QuietUpstream W} cfg s req0 wa wb req q q' w1 a1 xs req1 x2 r1 w3 a3 x4 r2 :
  NewService cfg = Ok s ->
  createAuthRequest s req0 wa = (wb, Ok req) -> kept (login_keys (r_StateToken req)) wb w1 ->
  values_Get q "state" = r_StateToken req -> values_Get q' "state" = r_StateToken req ->
  spendState s q (w1, a1) = (xs, Ok req1) -> validateCallback s q (w1, a1) = (x2, r1) ->
  kept (login_keys (r_StateToken req)) x2.1 w3 ->
  validateCallback s q' (w3, a3) = (x4, r2) -> Now x4.1 - Now w3 + grace W <= Now w1 - Now wb ->
  forall resp, r2 <> Ok resp.
Proof.
  intros Hs Hstart Hk1 Hq Hq' Hsp Hv1 Hk3 Hv2 Htime resp ->.
  rewrite validateCallback_split, Hsp in Hv1. apply step_in_pair in Hv1; [|apply afterSpend_quietly].
  rewrite validateCallback_split in Hv2.
  destruct (spendState s q' (w3, a3)) as [y [req2|e]] eqn:Hsp2; [|done].
  apply step_in_pair in Hv2; [|apply afterSpend_quietly].
  apply spendState_ok in Hsp as (_ & _ & w0 & Hg1 & Hc1). rewrite Hq in *.
  apply spendState_ok in Hsp2 as (_ & _ & w4 & Hg2 & Hc2). rewrite Hq' in *. simpl in *.
  eapply (no_second_claim (sv_state s) (r_StateToken req) (Now wb)); [|exact Hg1|exact Hc1| |exact Hg2| |exact Hc2].
  - intros i Hi. rewrite (NewService_ttl _ _ Hs). by eapply started_expiry.
  - transitivity x2.1; [|done]. eapply kept_weaken; [|exact Hv1]. apply login_keys_owned.
  - destruct Hv2 as [Ht2 _]. apply Claim_ok in Hc2 as (_ & _ & Ht & _). lia.
Qed.
End SingleUse.

(** ** Refused states *)

Section Refused.
Context {W : Type} `{UnicodeTables} `{UrlParser} `{SSHKeyParser} `{RequestCodec} `{RegexpCache}.
Context `{CloudIdentity} `{Clock W} `{Backend W} `{AuthServer W} `{Provider W}.

Lemma unknown_state s q w a w0 e :
  values_Get q "state" <> "" -> callbackError q = None ->
  GetOIDCAuthRequest (values_Get q "state") w = (w0, Err e) ->
  validateCallback s q (w, a) = ((w0, setFailureClass failureUnknownState a), Err errStateNotUsable).
Proof.
  intros Hs Hq Hg. unfold validateCallback, spendState.
  rewrite (bool_decide_false _ Hs), Hq. unfold mthen at 1 2, or_fail, mcatch, onWorld. simpl. by rewrite Hg.
Qed.

Lemma replayed_state s q w a w0 req w1 e :
  values_Get q "state" <> "" -> callbackError q = None ->
  GetOIDCAuthRequest (values_Get q "state") w = (w0, Ok req) ->
  Claim (sv_state s) (values_Get q "state") w0 = (w1, Err e) -> isStateAlreadyUsed e = true ->
  validateCallback s q (w, a) =
    ((w1, setFailureClass failureCallbackReplayed (setRequest req a)), Err errStateNotUsable).
Proof.
  intros Hs Hq Hg Hc Hu. unfold validateCallback, spendState.
  rewrite (bool_decide_false _ Hs), Hq.
  unfold mthen, or_fail, mcatch, onWorld, record, mmodify, mtry. simpl. rewrite Hg. simpl.
  rewrite Hc, Hu. done.
Qed.

(** The errors of the provider stage, whatever the provider says. *)
Definition provider_stage_errors : list error :=
  [ providerError failureProviderConfiguration errStateNotUsable;
    providerError failureTokenExchange errStateNotUsable;
    providerError failureIDTokenValidation errStateNotUsable;
    BadParameter "missing or invalid id_token found in OIDC OAuth2 token" [] ].

Lemma redeemCode_errors login code verifier x x' e :
  redeemCode login code verifier x = (x', Err e) -> e ∈ provider_stage_errors.
Proof.
  unfold redeemCode, provider_stage_errors.
  unfold mthen, or_fail, mcatch, onWorld, mlift, mret.
  destruct (newOAuth2Config _ _ x.1) as [w1 [config|e1]]; simpl; [|intros [= <- <-]; set_solver].
  destruct (p_Exchange _ _ _ w1) as [w2 [token|e2]]; simpl; [|intros [= <- <-]; set_solver].
  destruct (tk_IDToken token) as [i|]; simpl; [|intros [= <- <-]; set_solver].
  case_bool_decide; simpl; [intros [= <- <-]; set_solver|].
  destruct (p_GetValidator _ w2) as [w3 [?|e3]]; simpl; [|intros [= <- <-]; set_solver].
  destruct (p_ValidateToken _ _ _ w3) as [w4 [?|e4]]; simpl; [done|intros [= <- <-]; set_solver].
Qed.
End Refused.

(** ** From the start of a login to its callback *)

Section Resumed.
Context {W : Type} `{UnicodeTables} `{UrlParser} `{SSHKeyParser} `{RequestCodec}.
Context `{BackendSpec W} `{AuthServer W} `{Provider W}.

(** The URL a started login sends the browser to, and the order of the two
    writes: the nonce is stored before the request that makes it usable. *)
Lemma createAuthRequest_published s req0 w w' req :
  createAuthRequest s req0 w = (w', Ok req) ->
  exists conn domains config nonce w1 w2,
    connector_policy conn /\ WorkspaceDomains conn = Ok domains /\
    oc_AuthURL config = googleAuthorizationEndpoint /\ oc_TokenURL config = googleTokenEndpoint /\
    s_RedirectURLs (c_Spec conn) = [oc_RedirectURL config] /\
    r_RedirectURL req =
      p_AuthCodeURL config (r_StateToken req) (authCodeOptions conn req nonce domains) /\
    PutNonce (sv_state s) (r_StateToken req) nonce w1 = (w2, Ok tt) /\
    CreateOIDCAuthRequest req OIDCAuthRequestTTL w2 = (w', Ok tt).
Proof.
  unfold createAuthRequest. intros E. inv_mok.
  match goal with E : getConnector _ _ = _ |- _ => apply getConnector_ok in E as (_ & Hp & _) end.
  match goal with E : RedirectURLForProxy _ _ = Ok _ |- _ =>
    apply RedirectURLForProxy_ok in E as (u & _ & Hl & _) end.
  match goal with E : newOAuth2Config _ _ _ = _ |- _ => unfold newOAuth2Config in E end. inv_mok.
  match goal with E : validateDiscoveryConfig ?d = Ok tt |- _ =>
    destruct d as [dc|]; [|done]; unfold validateDiscoveryConfig in E; destruct (_ || _) eqn:Eb; [done|] end.
  bool_to_prop.
  match goal with Hl : s_RedirectURLs _ = [?cb], Hc : connector_policy ?conn, Hd : WorkspaceDomains ?conn = Ok ?ds |- _ =>
    exists conn, ds, {| oc_ClientID := s_ClientID (c_Spec conn); oc_ClientSecret := s_ClientSecret (c_Spec conn);
      oc_RedirectURL := cb; oc_Scopes := connectorScopes conn;
      oc_AuthURL := dc_AuthorizationEndpoint dc; oc_TokenURL := dc_TokenEndpoint dc |} end.
  do 3 eexists. repeat (split; [done|]). done.
Qed.

(** What the callback reads back is what the start has stored. *)
Lemma started_nonce s req0 wa wb req :
  createAuthRequest s req0 wa = (wb, Ok req) ->
  exists conn domains config nonce,
    r_RedirectURL req = p_AuthCodeURL config (r_StateToken req) (authCodeOptions conn req nonce domains) /\
    oc_AuthURL config = googleAuthorizationEndpoint /\
    forall w w' n, kept (fun k => k = nonce_key (r_StateToken req)) wb w ->
      Nonce (sv_state s) (r_StateToken req) w = (w', Ok n) -> n = nonce.
Proof.
  intros E. apply createAuthRequest_published in E as
    (conn & ds & config & nonce & w1 & w2 & _ & _ & Ha & _ & _ & Hu & Hput & Hc).
  exists conn, ds, config, nonce. split; [done|]. split; [done|].
  intros w w' n Hk Hn. unfold PutNonce in Hput. unfold Nonce in Hn. unfold CreateOIDCAuthRequest in Hc. inv_mok.
  match goal with E : bk_Get _ _ = _ |- _ => apply get_ok in E as Hl end.
  apply (proj2 (proj2 Hk _ _ eq_refl)) in Hl.
  match goal with E : bk_Create _ _ = (wb, _) |- _ => pose proof (create_frame _ _ _ _ E) as [_ Hf] end.
  apply (proj2 (proj2 Hf _ _ (fun E => request_nonce_ne _ _ (eq_sym E)))) in Hl.
  match goal with E : bk_Create (stateItem _ _ _ _ _) _ = _ |- _ =>
    pose proof (create_ok _ _ _ _ E) as [Hnone _];
    pose proof (create_written _ _ _ _ _ E Hl) as [Hold|[Hv _]] end; [|done].
  simpl in Hnone, Hold. congruence.
Qed.

Lemma started_request_read s req0 wa wb req w w0 req' :
  createAuthRequest s req0 wa = (wb, Ok req) -> kept (login_keys (r_StateToken req)) wb w ->
  GetOIDCAuthRequest (r_StateToken req) w = (w0, Ok req') ->
  exists text, rc_Marshal req = Ok text /\ rc_Unmarshal text = Ok req'.
Proof.
  intros E Hk Hg. apply createAuthRequest_ok in E as (conn & ds & n & w1 & w2 & _ & _ & _ & _ & _ & _ & _ & Hc).
  apply GetOIDCAuthRequest_ok in Hg as (_ & i & Hi & Hu).
  apply (proj2 (proj2 Hk _ i (or_intror (or_intror eq_refl)))) in Hi.
  unfold CreateOIDCAuthRequest in Hc. inv_mok.
  match goal with E : bk_Create _ _ = _ |- _ =>
    pose proof (create_ok _ _ _ _ E) as [Hnone _];
    pose proof (create_written _ _ _ _ i E Hi) as [Hold|[Hv _]] end; [simpl in Hnone, Hold; congruence|].
  simpl in Hv. rewrite Hv in Hu. eauto.
Qed.
End Resumed.

(** ** What reaches the audit log *)

Section Audited.
Context {W : Type} `{UnicodeTables} `{UrlParser} `{SSHKeyParser} `{RequestCodec} `{RegexpCache}.
Context `{CloudIdentity} `{Clock W} `{Backend W} `{AuthServer W} `{Provider W}.

(** A step that fails has named the class of its failure, and no step takes
    the request back. *)
Definition classified {A} (m : CB (W := W) A) : Prop :=
  forall x x' r, m x = (x', r) ->
    (a_emit x.2 = true -> a_emit x'.2 = true) /\
    (forall e, r = Err e -> a_failureClass x'.2 <> None).

Lemma classified_then {A B} (m : CB (W := W) A) (f : A -> CB B) :
  classified m -> (forall a, classified (f a)) -> classified (mthen m f).
Proof.
  intros Hm Hf x x' r. unfold mthen. destruct (m x) as [x1 [a|e]] eqn:E; apply Hm in E as [He Hc].
  - intros Ef. apply Hf in Ef as [? ?]. auto.
  - intros [= <- <-]. naive_solver.
Qed.

Lemma classified_ret {A} (a : A) : classified (mret a).
Proof. by intros x x' r [= <- <-]. Qed.

Lemma classified_record f :
  (forall a, a_emit a = true -> a_emit (f a) = true) -> classified (record f).
Proof. by intros Hf x x' r [= <- <-]; split; [apply Hf|]. Qed.

Lemma classified_or_fail {A} class f (m : CB (W := W) A) :
  (forall x x' r, m x = (x', r) -> a_emit x.2 = true -> a_emit x'.2 = true) ->
  classified (or_fail class f m).
Proof.
  intros Hm x x' r. unfold or_fail, mcatch. destruct (m x) as [x1 [a|e]] eqn:E; intros [= <- <-]; simpl;
    (split; [eauto|]); [done|]. done.
Qed.

Lemma onWorld_emit {A} (m : M W A) x x' r :
  onWorld m x = (x', r) -> a_emit x.2 = true -> a_emit x'.2 = true.
Proof. unfold onWorld. destruct (m x.1). by intros [= <- <-]. Qed.

Lemma mlift_emit {A} (r0 : result A) (x x' : W * callbackAudit) r :
  mlift r0 x = (x', r) -> a_emit x.2 = true -> a_emit x'.2 = true.
Proof. by intros [= <- <-]. Qed.

Lemma deny_emit (b : bool) e (x x' : W * callbackAudit) r :
  (deny_if b with e; mret tt) x = (x', r) -> a_emit x.2 = true -> a_emit x'.2 = true.
Proof. destruct b; by intros [= <- <-]. Qed.
End Audited.

(** A stage built of classified steps. *)
Ltac classify :=
  repeat first
    [ apply classified_then; [|intros ?]
    | apply classified_ret
    | apply classified_record; done
    | apply classified_or_fail;
        first [ apply onWorld_emit | apply mlift_emit | apply deny_emit | intros ??? ]
    | case_match ].

Section Stages.
Context {W : Type} `{UnicodeTables} `{UrlParser} `{SSHKeyParser} `{RequestCodec} `{RegexpCache}.
Context `{CloudIdentity} `{Clock W} `{Backend W} `{AuthServer W} `{Provider W}.

Lemma loadLogin_classified s t req : classified (loadLogin (W := W) s t req).
Proof. unfold loadLogin. classify. Qed.

Lemma redeemCode_classified login code verifier : classified (redeemCode (W := W) login code verifier).
Proof. unfold redeemCode. classify. Qed.

Lemma verifyIdentity_classified login token claims : classified (verifyIdentity (W := W) login token claims).
Proof.
  unfold verifyIdentity. apply classified_then; [|intros now].
  { intros x x' r E. split; [by eapply onWorld_emit|]. intros e ->. by injection E. }
  apply classified_then; [|intros _].
  { destruct (checkIdentityClaims _ _ _) as [[class e]|]; [|apply classified_ret].
    by intros x x' r [= <- <-]. }
  unfold groupClaims. classify.
Qed.

Lemma assignUser_classified login req claims raw groups :
  classified (assignUser (W := W) login req claims raw groups).
Proof.
  unfold assignUser. classify.
  by intros [= <- <-].
Qed.

Lemma finishLogin_classified login req params user identity :
  classified (finishLogin (W := W) login req params user identity).
Proof. unfold finishLogin. classify. Qed.

Lemma spendState_classified s q x x' r :
  spendState (W := W) s q x = (x', r) ->
  (forall req, r = Ok req -> a_emit x'.2 = true) /\
  (forall e, r = Err e -> values_Get q "state" <> "" -> a_failureClass x'.2 <> None).
Proof.
  unfold spendState. case_bool_decide; [intros [= <- <-]; naive_solver|].
  destruct (callbackError q) as [[class e]|].
  - unfold mthen, mtry, record, mmodify, onWorld, mfail. simpl.
    destruct (GetOIDCAuthRequest _ _) as [w1 [req|e1]]; simpl; by intros [= <- <-].
  - unfold mthen, mtry, or_fail, mcatch, record, mmodify, onWorld, mret, mfail. simpl.
    destruct (GetOIDCAuthRequest _ _) as [w1 [req|e1]]; simpl; [|by intros [= <- <-]].
    destruct (Claim _ _ _) as [w2 [[]|e2]]; simpl; [by intros [= <- <-]|].
    destruct (isStateAlreadyUsed e2); simpl; by intros [= <- <-].
Qed.

(** A failed callback with a state has a class, a successful one is audited. *)
Lemma validateCallback_classified s q x x' r :
  validateCallback (W := W) s q x = (x', r) ->
  (forall resp, r = Ok resp -> a_emit x'.2 = true) /\
  (forall e, r = Err e -> values_Get q "state" <> "" -> a_failureClass x'.2 <> None).
Proof.
  unfold validateCallback, mthen at 1. destruct (spendState s q x) as [x1 [req|e1]] eqn:E.
  - apply spendState_classified in E as [He _]. intros Er.
    eapply classified_then in Er as [Hm Hc]; [|apply loadLogin_classified|].
    + split; [intros; apply Hm; eauto|]. intros e -> _. eauto.
    + intros login. apply classified_then; [apply redeemCode_classified|intros redeemed].
      apply classified_then; [apply verifyIdentity_classified|intros grouped].
      apply classified_then; [apply assignUser_classified|intros assigned]. apply finishLogin_classified.
  - intros [= <- <-]. apply spendState_classified in E as [_ Hc]. naive_solver.
Qed.
End Stages.
