(* ===== verification/Scenario.v ===== *)
(** * A concrete deployment

    One Workspace connector, one cluster on the memory backend and one well-behaved provider, as
    instances of every interface of the development.  The examples run whole
    logins in it, and the theorems are applied to it. *)

From S2P Require Import Prelude GoStrings Utf8 Types Sha256 Key Backend State Policy Identity BTree.
From S2P Require Import MinHeap Memory MemoryFacts MemoryRefinement MemoryBackend Regexp Traits.
From S2P Require Import Groups LoginAudit Transport Service Users Callback.
From Stdlib Require Import Ascii.

#[export] Instance ascii_tables : UnicodeTables :=
  {| u_ToLower := fun r => r; u_SimpleFold := fun r => r; u_IsUpper := fun _ => false |}.

Definition demo_callback_url := "https://access.example.com/v1/webapi/oidc/callback".

(** URLs of the shape [https://host/v1/webapi/oidc/callback] *)
Definition demo_parse (raw : string) : result URL :=
  match CutPrefix raw "https://" with
  | None => Err (BadParameter "missing protocol scheme" [])
  | Some rest =>
      let '(host, path) := cut_pair rest "/"%char in
      Ok {| url_Scheme := "https"; url_Host := host; url_Hostname := host; url_HasUser := false;
            url_RawQuery := ""; url_ForceQuery := false; url_Path := "/" +:+ path;
            url_EscapedPath := "/" +:+ path |}
  end.
#[export] Instance demo_urls : UrlParser := demo_parse.
#[export] Instance demo_ssh : SSHKeyParser := fun _ => true.
#[export] Existing Instance glob_engine.
#[export] Existing Instance no_cache.

(** ** The connector *)

Definition demo_spec : OIDCConnectorSpec := {|
  s_IssuerURL := GoogleIssuer; s_ClientID := "client"; s_ClientSecret := "secret"; s_ACR := "";
  s_Provider := ""; s_Scope := ["openid"; "email"; CloudIdentityGroupsReadScope]; s_Prompt := "";
  s_ClaimsToRoles := [
    {| cm_Claim := "email"; cm_Value := "*@example.com"; cm_Roles := ["access"] |};
    {| cm_Claim := "groups"; cm_Value := "admins@example.com"; cm_Roles := ["editor"] |}];
  s_GoogleServiceAccountURI := ""; s_GoogleServiceAccount := ""; s_GoogleAdminEmail := "";
  s_RedirectURLs := [demo_callback_url]; s_AllowUnverifiedEmail := false; s_UsernameClaim := "";
  s_MaxAge := None; s_ClientRedirectSettings := None; s_MFASettings := None;
  s_PKCEMode := OIDCPKCEModeEnabled; s_RequestObjectMode := "";
|}.

Definition demo_connector : OIDCConnector := {|
  c_Name := "google";
  c_Labels := list_to_map [(WorkspaceDomainsLabel, "example.com, Example.org"); (GroupMembershipLabel, "direct")];
  c_Spec := demo_spec;
|}.

Example demo_connector_valid : ValidateConnector (Some demo_connector) = Ok tt.
Proof. vm_compute. reflexivity. Qed.

(** ** The login request *)

Definition demo_request (state verifier url : string) : OIDCAuthRequest := {|
  r_ConnectorID := "google"; r_StateToken := state; r_CSRFToken := "csrf"; r_RedirectURL := url;
  r_CertTTL := 0; r_CreateWebSession := true; r_ClientRedirectURL := "/web"; r_Compatibility := "";
  r_RouteToCluster := ""; r_KubernetesCluster := ""; r_SSOTestFlow := false; r_ConnectorSpec := None;
  r_ProxyAddress := "access.example.com:443"; r_ClientLoginIP := "192.0.2.7"; r_ClientUserAgent := "browser";
  r_SshPublicKey := ""; r_TlsPublicKey := ""; r_SshAttestationStatement := "";
  r_TlsAttestationStatement := ""; r_PkceVerifier := verifier; r_LoginHint := ""; r_Scope := "";
|}.

(** The three fields that differ between the requests of this deployment. *)
#[export] Instance demo_codec : RequestCodec := {|
  rc_Marshal := fun r => Ok (r_StateToken r +:+ "," +:+ r_PkceVerifier r +:+ "," +:+ r_RedirectURL r);
  rc_Unmarshal := fun text =>
    let '(state, rest) := cut_pair text ","%char in
    let '(verifier, url) := cut_pair rest ","%char in Ok (demo_request state verifier url);
|}.

#[export] Instance demo_groups : CloudIdentity := {|
  ci_NewService := fun _ _ => GOk tt;
  ci_Do := fun _ _ _ budget =>
    (budget, GOk (Some {|
      sr_Memberships := [
        Some {| rl_GroupKey := Some {| gk_Id := "Admins@example.com"; gk_Namespace := "" |};
                rl_Labels := {[ discussionForumLabel := "" ]} |};
        Some {| rl_GroupKey := Some {| gk_Id := "partners@other.net"; gk_Namespace := "" |};
                rl_Labels := {[ discussionForumLabel := "" ]} |}];
      sr_NextPageToken := "" |}));
|}.

(** ** The world *)

(** The cluster's memory backend, over the B-tree that is a sorted list. *)
#[export] Instance demo_revisions : Revisions := fun n => "revision-" +:+ hex_encode [Z.of_nat n].
Definition Store : Type := MemoryStore (T := tree ptr).

Lemma new_cluster now : cluster_state (New now false false : Memory (tree ptr)).
Proof. split; [apply New_wf|done]. Qed.
Definition newStore (now : time) : Store := exist _ (New now false false) (new_cluster now).

Record World := {
  wd_store : Store;
  wd_users : gmap string User;
  wd_events : list UserLogin;
  wd_random : nat;
}.

Definition on_store {A} (m : M Store A) : M World A := fun w =>
  let '(s, r) := m (wd_store w) in
  ({| wd_store := s; wd_users := wd_users w; wd_events := wd_events w; wd_random := wd_random w |}, r).

#[export] Instance world_clock : Clock World := fun w => Now (wd_store w).
#[export] Instance world_backend : Backend World :=
  {| bk_Create := fun i => on_store (bk_Create i); bk_Get := fun k => on_store (bk_Get k) |}.
#[export] Instance world_view : LiveView World := fun w => live (wd_store w).

Definition put_user (u : User) : M World unit := fun w =>
  ({| wd_store := wd_store w; wd_users := <[u_Name u := u]> (wd_users w); wd_events := wd_events w;
      wd_random := wd_random w |}, Ok tt).

Definition next_random (prefix : string) : M World string := fun w =>
  ({| wd_store := wd_store w; wd_users := wd_users w; wd_events := wd_events w;
      wd_random := S (wd_random w) |},
   Ok (prefix +:+ hex_encode [Z.of_nat (wd_random w)])).

#[export] Instance world_auth : AuthServer World := {|
  WebSession := string; Certificate := string; CertAuthority := string; ClientOptions := unit;
  as_GetOIDCConnector := fun name _ =>
    if bool_decide (name = "google") then mret demo_connector
    else mfail (NotFound "OIDC connector %q not configured" [name]);
  as_GetUser := fun name w =>
    (w, match wd_users w !! name with
        | Some u => Ok u | None => Err (NotFound "user %q not found" [name]) end);
  as_GetUsers := mget (fun w => snd <$> map_to_list (wd_users w));
  as_CreateUser := put_user;
  as_UpdateUser := put_user;
  as_Evaluate := fun ts => mret (<["groups" := ["invented"]]> ts, ["rule"]);
  as_FetchRoles := fun roles _ => mret ((fun _ => 8 * 3600 * Second) <$> roles);
  as_CallLoginHooks := fun _ => mret tt;
  as_GetUserOrLoginState := fun name w =>
    (w, match wd_users w !! name with
        | Some u => Ok {| us_Name := u_Name u; us_Roles := u_Roles u; us_Traits := u_Traits u |}
        | None => Err (NotFound "user %q not found" [name]) end);
  as_CreateWebSessionFromReq := fun r => mret ("session of " +:+ nws_User r);
  as_CreateSessionCerts := fun _ => mret ("ssh", "tls");
  as_GetClusterName := mret "cluster";
  as_GetCertAuthority := fun d => mret ("CA of " +:+ d);
  as_ClientOptionsForLogin := fun _ => mret tt;
  as_EmitAuditEvent := fun e w =>
    ({| wd_store := wd_store w; wd_users := wd_users w; wd_events := (wd_events w ++ [e])%list;
        wd_random := wd_random w |}, Ok tt);
  sso_ValidateClientRedirect := fun _ _ _ => Ok tt;
|}.

(** The provider vouches for one address, whatever the code. *)
Definition demo_claims (nonce : string) : IDTokenClaims := {|
  id_Issuer := GoogleIssuer; id_Audience := ["client"]; id_Nonce := nonce; id_Subject := "subject-1";
  id_Name := "Ann"; id_Email := "ann@example.com"; id_EmailVerified := true; id_IssuedAt := 0;
  id_NotBefore := 0; id_Expiration := 3600 * Second; id_ACR := "";
  id_Claims := {[ "hd" := CString "example.com" ]};
|}.

#[export] Instance world_provider : Provider World := {|
  p_Discover := fun _ => mret (Some {|
    dc_Issuer := GoogleIssuer; dc_AuthorizationEndpoint := googleAuthorizationEndpoint;
    dc_TokenEndpoint := googleTokenEndpoint; dc_JwksURI := googleJWKSEndpoint |});
  p_Exchange := fun _ code _ =>
    if bool_decide (code = "bad") then mfail (Error KOther "provider text" [] [])
    else mret {| tk_AccessToken := "access"; tk_IDToken := Some "id" |};
  p_GetValidator := fun _ => mret tt;
  p_ValidateToken := fun key _ nonce =>
    if bool_decide (vk_issuer key = GoogleIssuer) && bool_decide (vk_audience key = "client")
    then mret (Some (demo_claims nonce)) else mfail (AccessDenied "wrong audience" []);
  p_claimsToMap := fun c => Ok (match c with
    | Some c => <["email" := CString (id_Email c)]> (<["groups" := CAny [CString "spoofed@example.com"]]> ∅)
    | None => ∅ end);
  p_AuthCodeURL := fun config state _ => oc_AuthURL config +:+ "?state=" +:+ state;
  rnd_CryptoRandomHex := fun _ => next_random "r";
  rnd_GenerateVerifier := next_random "v";
|}.

Definition demo_service : Service := {| sv_state := {| ss_ttl := OIDCAuthRequestTTL |} |}.
Definition world0 : World := {|
  wd_store := newStore (1000 * Second);
  wd_users := ∅; wd_events := []; wd_random := 0;
|}.

#[export] Instance world_grace : Grace World := grace Store.

(** ** The laws hold in it *)

Lemma on_store_inv {A} (m : M Store A) w w' r :
  on_store m w = (w', r) -> m (wd_store w) = (wd_store w', r).
Proof. unfold on_store. destruct (m (wd_store w)). by intros [= <- <-]. Qed.

#[export] Instance world_spec : BackendSpec World.
Proof.
  split; unfold live, Now, world_view, world_clock; cbn [bk_Create bk_Get world_backend].
  - intros w k i. apply (live_unexpired (W := Store)).
  - intros i w w' r E%on_store_inv. exact (create_ok (W := Store) _ _ _ _ E).
  - intros i w w' r i' E%on_store_inv. exact (create_written (W := Store) _ _ _ _ i' E).
  - intros i w w' e E%on_store_inv. exact (create_exists (W := Store) _ _ _ _ E).
  - intros i w w' r E%on_store_inv. exact (create_frame (W := Store) _ _ _ _ E).
  - intros k w w' i E%on_store_inv. exact (get_ok (W := Store) _ _ _ _ E).
  - intros k w w' e E%on_store_inv. exact (get_missing (W := Store) _ _ _ _ E).
  - intros k w w' r E%on_store_inv. exact (get_frame (W := Store) _ _ _ _ E).
Qed.

Lemma quiet_same_store {A} (m : M World A) :
  (forall w, wd_store (fst (m w)) = wd_store w) -> quiet m.
Proof.
  intros Hm w w' r E. specialize (Hm w). rewrite E in Hm. simpl in Hm.
  unfold kept, Now, live, world_clock, world_view. rewrite Hm. split; [lia|auto].
Qed.

#[export] Instance world_quiet : QuietUpstream World.
Proof.
  split; intros; apply quiet_same_store; intros w;
    cbn [as_GetOIDCConnector as_GetUser as_GetUsers as_CreateUser as_UpdateUser as_Evaluate as_FetchRoles
      as_CallLoginHooks as_GetUserOrLoginState as_CreateWebSessionFromReq as_CreateSessionCerts
      as_GetClusterName as_GetCertAuthority as_ClientOptionsForLogin as_EmitAuditEvent world_auth
      p_Discover p_Exchange p_GetValidator p_ValidateToken rnd_CryptoRandomHex rnd_GenerateVerifier
      world_provider]; try done; by repeat case_match.
Qed.

#[export] Instance world_validator : ValidatorSpec World.
Proof.
  intros key idToken nonce w w' c. cbn [p_ValidateToken world_provider].
  destruct (bool_decide (vk_issuer key = GoogleIssuer)) eqn:E1; [|done].
  destruct (bool_decide (vk_audience key = "client")) eqn:E2; [|done].
  bool_to_prop. simpl. intros [= _ <-]. rewrite E1, E2. simpl. split; [done|]. split; [done|set_solver].
Qed.

(** Time passes and nothing else happens. *)
Definition wait (d : duration) (w : World) : World :=
  {| wd_store := tick d (wd_store w); wd_users := wd_users w; wd_events := wd_events w; wd_random := wd_random w |}.

Lemma wait_kept K d w : kept K w (wait d w).
Proof. exact (tick_kept K d (wd_store w)). Qed.

(** ** A login *)

Definition started : World * result OIDCAuthRequest :=
  createAuthRequest demo_service (demo_request "" "" "") world0.

Definition started_request : OIDCAuthRequest :=
  match snd started with Ok r => r | Err _ => demo_request "" "" "" end.

Lemma started_ok : started = (fst started, Ok started_request).
Proof.
  assert (E : snd started = Ok started_request) by (vm_compute; reflexivity).
  rewrite <- E. by destruct started.
Qed.

Example stored_request_reads_back :
  snd (GetOIDCAuthRequest "r00" (fst started)) = Ok started_request.
Proof. vm_compute. reflexivity. Qed.

Definition callback_query (state code : string) : Values :=
  list_to_map [("state", [state]); ("code", [code])].

Definition finished : World * result OIDCAuthResponse :=
  ValidateOIDCAuthCallback demo_service (callback_query "r00" "ok") (fst started).

(** Checks of a login, as one boolean each. *)
Definition login_checks : bool :=
  match finished with
  | (w, Ok resp) =>
      bool_decide (resp_Username resp = "ann@example.com") &&
      bool_decide ((u_Roles <$> wd_users w !! "ann@example.com") = Some ["access"; "editor"]) &&
      bool_decide ((u_Traits <$> wd_users w !! "ann@example.com") ≫= (.!! "groups") = Some ["admins@example.com"]) &&
      bool_decide ((ev_Success <$> wd_events w) = [true]) &&
      (* a second callback with the same state *)
      match snd (ValidateOIDCAuthCallback demo_service (callback_query "r00" "ok") w) with
      | Err e => bool_decide (e = errStateNotUsable)
      | Ok _ => false
      end
  | _ => false
  end.

Example login_succeeds : login_checks = true.
Proof. vm_compute. reflexivity. Qed.

(** A failed exchange burns the login and shows no provider text. *)
Definition bad_code_checks : bool :=
  let '(w, r) := ValidateOIDCAuthCallback demo_service (callback_query "r00" "bad") (fst started) in
  match r, snd (ValidateOIDCAuthCallback demo_service (callback_query "r00" "ok") w) with
  | Err e1, Err e2 =>
      bool_decide (e1 = providerError failureTokenExchange errStateNotUsable) &&
      bool_decide (e2 = errStateNotUsable)
  | _, _ => false
  end.

Example bad_code : bad_code_checks = true.
Proof. vm_compute. reflexivity. Qed.
