(* ===== verification/Roles.v ===== *)
(** * Roles: [api/types/role.go]

    The role resource and the accessors that access control reads.  A role has
    its options and two groups of conditions, those that allow and those that
    deny; [RoleConditionType] picks one.  Of the message types, the records
    hold the fields the modelled code reads. *)

From S2P Require Import Prelude GoStrings Types.

(** ** Constants *)

Definition Wildcard := "*".
Definition DefaultNamespace := "default".
Definition DefaultImplicitRole := "default-implicit-role".

Definition V1 := "v1".
Definition V2 := "v2".
Definition V3 := "v3".
Definition V4 := "v4".
Definition V5 := "v5".
Definition V6 := "v6".
Definition V7 := "v7".
Definition V8 := "v8".
Definition V9 := "v9".

Definition KindRole := "role".
Definition KindSession := "session".
Definition KindNode := "node".
Definition KindApp := "app".
Definition KindAppServer := "app_server".
Definition KindDatabase := "db".
Definition KindDatabaseServer := "db_server".
Definition KindDatabaseService := "db_service".
Definition KindKubernetesCluster := "kube_cluster".
Definition KindKubeServer := "kube_server".
Definition KindRemoteCluster := "remote_cluster".
Definition KindWindowsDesktop := "windows_desktop".
Definition KindDynamicWindowsDesktop := "dynamic_windows_desktop".
Definition KindWindowsDesktopService := "windows_desktop_service".
Definition KindLinuxDesktop := "linux_desktop".
Definition KindSAMLIdPServiceProvider := "saml_idp_service_provider".
Definition KindUserGroup := "user_group".
Definition KindGitServer := "git_server".
Definition KindWorkloadIdentity := "workload_identity".
Definition KindBeam := "beam".
Definition KindIdentityCenterAccount := "aws_ic_account".
Definition KindIdentityCenterAccountAssignment := "aws_ic_account_assignment".

Definition VerbList := "list".
Definition VerbRead := "read".
Definition VerbReadNoSecrets := "readnosecrets".

Definition GitHubOrgLabel := "teleport.internal/github-org".

(** ** Data *)

(** [RoleConditionType]: an allow condition or a deny condition. *)
Inductive RoleConditionType := Allow | Deny.

#[export] Instance RoleConditionType_eq_dec : EqDecision RoleConditionType.
Proof. solve_decision. Defined.

#[global] Abbreviation Labels := (gmap string (list string)).

Record LabelMatchers := {
  lm_Labels : Labels;
  lm_Expression : string;
}.

(** [LabelMatchers.Empty] *)
Definition LabelMatchers_Empty (l : LabelMatchers) : bool :=
  bool_decide (size (lm_Labels l) = 0%nat) && bool_decide (lm_Expression l = "").

Record Rule := {
  rule_Resources : list string;
  rule_Verbs : list string;
  rule_Where : string;
  rule_Actions : list string;
}.

Record ImpersonateConditions := {
  imp_Users : list string;
  imp_Roles : list string;
  imp_Where : string;
}.

Definition no_impersonation : ImpersonateConditions :=
  {| imp_Users := []; imp_Roles := []; imp_Where := "" |}.

(** Who has to be in a session, and which sessions may be joined.  The count is
    an [int32]. *)
Record SessionRequirePolicy := {
  rp_Name : string;
  rp_Filter : string;
  rp_Kinds : list string;
  rp_Count : Z;   (* int32 *)
  rp_Modes : list string;
  rp_OnLeave : string;
}.

Record SessionJoinPolicy := {
  jp_Name : string;
  jp_Roles : list string;
  jp_Kinds : list string;
  jp_Modes : list string;
}.

(** [SessionTrackerPolicySet]: the policies of one role of the host user. *)
Record SessionTrackerPolicySet := {
  ps_Name : string;
  ps_Version : string;
  ps_RequireSessionJoin : list SessionRequirePolicy;
}.

Record SPIFFERoleCondition := {
  sp_Path : string;
  sp_DNSSANs : list string;
  sp_IPSANs : list string;
}.

(** ** Access requests and reviews *)

Record AccessReviewThreshold := {
  th_Name : string;
  th_Filter : string;
  th_Approve : Z;   (* uint32 *)
  th_Deny : Z;      (* uint32 *)
}.

#[export] Instance AccessReviewThreshold_eq_dec : EqDecision AccessReviewThreshold.
Proof. solve_decision. Defined.

Record RequestKubernetesResource := {
  rkr_Kind : string;
  rkr_APIGroup : string;
}.

#[export] Instance RequestKubernetesResource_eq_dec : EqDecision RequestKubernetesResource.
Proof. solve_decision. Defined.

Record KubernetesResource := {
  kr_Kind : string;
  kr_Namespace : string;
  kr_Name : string;
  kr_Verbs : list string;
  kr_APIGroup : string;
}.

Record AccessRequestConditionsReason := {
  rr_Mode : string;
  rr_Prompt : string;
}.

Record AccessRequestConditions := {
  arc_Roles : list string;
  arc_ClaimsToRoles : list ClaimMapping;
  arc_Annotations : traits;
  arc_Thresholds : list AccessReviewThreshold;
  arc_SuggestedReviewers : list string;
  arc_SearchAsRoles : list string;
  arc_MaxDuration : duration;
  arc_KubernetesResources : list RequestKubernetesResource;
  arc_Reason : option AccessRequestConditionsReason;
}.

Record AccessReviewConditions := {
  avc_Roles : list string;
  avc_ClaimsToRoles : list ClaimMapping;
  avc_Where : string;
  avc_PreviewAsRoles : list string;
  avc_SubmitForUsers : list string;
}.

(** The zero values. *)
Definition no_request_conditions : AccessRequestConditions := {|
  arc_Roles := []; arc_ClaimsToRoles := []; arc_Annotations := ∅; arc_Thresholds := [];
  arc_SuggestedReviewers := []; arc_SearchAsRoles := []; arc_MaxDuration := 0;
  arc_KubernetesResources := []; arc_Reason := None |}.

Definition no_review_conditions : AccessReviewConditions := {|
  avc_Roles := []; avc_ClaimsToRoles := []; avc_Where := ""; avc_PreviewAsRoles := [];
  avc_SubmitForUsers := [] |}.

(** Enumerations are numbers on the wire, and may carry a number that has no
    name. *)
Definition RequireMFAType := Z.
Definition RequireMFAType_OFF : RequireMFAType := 0.
Definition RequireMFAType_SESSION : RequireMFAType := 1.
Definition RequireMFAType_SESSION_AND_HARDWARE_KEY : RequireMFAType := 2.
Definition RequireMFAType_HARDWARE_KEY_TOUCH : RequireMFAType := 3.
Definition RequireMFAType_HARDWARE_KEY_PIN : RequireMFAType := 4.
Definition RequireMFAType_HARDWARE_KEY_TOUCH_AND_PIN : RequireMFAType := 5.

Definition IsSessionMFARequired (r : RequireMFAType) : bool := negb (r =? RequireMFAType_OFF).

Definition CreateDatabaseUserMode := Z.
Definition DB_USER_MODE_UNSPECIFIED : CreateDatabaseUserMode := 0.
Definition DB_USER_MODE_OFF : CreateDatabaseUserMode := 1.
Definition DB_USER_MODE_KEEP : CreateDatabaseUserMode := 2.
Definition DB_USER_MODE_BEST_EFFORT_DROP : CreateDatabaseUserMode := 3.

Definition CreateHostUserMode := Z.
Definition HOST_USER_MODE_UNSPECIFIED : CreateHostUserMode := 0.
Definition HOST_USER_MODE_OFF : CreateHostUserMode := 1.
Definition HOST_USER_MODE_KEEP : CreateHostUserMode := 3.
Definition HOST_USER_MODE_INSECURE_DROP : CreateHostUserMode := 4.

Definition WebTerminalClipboardMode := Z.
Definition CLIPBOARD_MODE_UNSPECIFIED : WebTerminalClipboardMode := 0.
Definition CLIPBOARD_MODE_UNRESTRICTED : WebTerminalClipboardMode := 1.
Definition CLIPBOARD_MODE_NO_COPY : WebTerminalClipboardMode := 2.

(** [*BoolOption]; [BoolDefaultTrue] reads an unset option as true. *)
Definition BoolOption := option bool.
Definition BoolDefaultTrue (v : BoolOption) : bool := match v with None => true | Some b => b end.

Record RecordSession := {
  rec_Desktop : BoolOption;
  rec_Default : string;
  rec_SSH : string;
}.

(** [SSHPortForwarding]: whether the local and the remote side say anything. *)
Record SSHPortForwarding := {
  pf_Local : option BoolOption;
  pf_Remote : option BoolOption;
}.

Record RoleOptions := {
  ro_ForwardAgent : bool;
  ro_MaxSessionTTL : duration;
  ro_PortForwarding : BoolOption;
  ro_CertificateFormat : string;
  ro_ClientIdleTimeout : duration;
  ro_DisconnectExpiredCert : bool;
  ro_BPF : list string;
  ro_PermitX11Forwarding : bool;
  ro_MaxConnections : Z;
  ro_MaxSessions : Z;
  ro_Lock : string;
  ro_RecordSession : option RecordSession;
  ro_DesktopClipboard : BoolOption;
  ro_MaxKubernetesConnections : Z;
  ro_DesktopDirectorySharing : BoolOption;
  ro_CreateHostUser : BoolOption;
  ro_PinSourceIP : bool;
  ro_SSHFileCopy : BoolOption;
  ro_RequireMFAType : RequireMFAType;
  ro_DeviceTrustMode : string;
  (* IDP.SAML.Enabled, when the three pointers are set *)
  ro_IDP : BoolOption;
  ro_CreateDesktopUser : BoolOption;
  ro_CreateDatabaseUser : BoolOption;
  ro_CreateHostUserMode : CreateHostUserMode;
  ro_CreateDatabaseUserMode : CreateDatabaseUserMode;
  ro_MFAVerificationInterval : duration;
  ro_CreateHostUserDefaultShell : string;
  ro_SSHPortForwarding : option SSHPortForwarding;
  ro_WebTerminalClipboardMode : WebTerminalClipboardMode;
  ro_RequestAccess : string;
  ro_RequestPrompt : string;
}.

Record RoleConditions := {
  rc_Logins : list string;
  rc_Namespaces : list string;
  rc_NodeLabels : Labels;
  rc_Rules : list Rule;
  rc_KubeGroups : list string;
  rc_KubeUsers : list string;
  rc_AppLabels : Labels;
  rc_ClusterLabels : Labels;
  rc_KubernetesLabels : Labels;
  rc_DatabaseLabels : Labels;
  rc_DatabaseNames : list string;
  rc_DatabaseUsers : list string;
  rc_Impersonate : option ImpersonateConditions;
  rc_AWSRoleARNs : list string;
  rc_WindowsDesktopLogins : list string;
  rc_WindowsDesktopLabels : Labels;
  rc_RequireSessionJoin : list SessionRequirePolicy;
  rc_JoinSessions : list SessionJoinPolicy;
  rc_HostGroups : list string;
  rc_HostSudoers : list string;
  rc_AzureIdentities : list string;
  rc_GCPServiceAccounts : list string;
  rc_DatabaseServiceLabels : Labels;
  rc_GroupLabels : Labels;
  rc_DesktopGroups : list string;
  rc_DatabaseRoles : list string;
  rc_NodeLabelsExpression : string;
  rc_AppLabelsExpression : string;
  rc_ClusterLabelsExpression : string;
  rc_KubernetesLabelsExpression : string;
  rc_DatabaseLabelsExpression : string;
  rc_DatabaseServiceLabelsExpression : string;
  rc_WindowsDesktopLabelsExpression : string;
  rc_GroupLabelsExpression : string;
  rc_SPIFFE : list SPIFFERoleCondition;
  (* account and permission set *)
  rc_AccountAssignments : list (string * string);
  (* the organizations of each GitHub permission *)
  rc_GitHubPermissions : list (list string);
  rc_WorkloadIdentityLabels : Labels;
  rc_WorkloadIdentityLabelsExpression : string;
  (* MCP.Tools *)
  rc_MCP : option (list string);
  rc_LinuxDesktopLogins : list string;
  rc_LinuxDesktopLabels : Labels;
  rc_LinuxDesktopLabelsExpression : string;
  rc_BeamLabels : Labels;
  rc_BeamLabelsExpression : string;
  rc_KubernetesResources : list KubernetesResource;
  rc_Request : option AccessRequestConditions;
  rc_ReviewRequests : option AccessReviewConditions;
}.

Record RoleV6 := {
  role_Kind : string;
  role_Version : string;
  role_Name : string;
  role_Options : RoleOptions;
  role_Allow : RoleConditions;
  role_Deny : RoleConditions;
}.

Definition RoleSet := list RoleV6.

(** The zero values. *)
Definition no_options : RoleOptions := {|
  ro_ForwardAgent := false; ro_MaxSessionTTL := 0; ro_PortForwarding := None;
  ro_CertificateFormat := ""; ro_ClientIdleTimeout := 0; ro_DisconnectExpiredCert := false;
  ro_BPF := []; ro_PermitX11Forwarding := false; ro_MaxConnections := 0; ro_MaxSessions := 0;
  ro_Lock := ""; ro_RecordSession := None; ro_DesktopClipboard := None;
  ro_MaxKubernetesConnections := 0; ro_DesktopDirectorySharing := None;
  ro_CreateHostUser := None; ro_PinSourceIP := false; ro_SSHFileCopy := None;
  ro_RequireMFAType := RequireMFAType_OFF; ro_DeviceTrustMode := ""; ro_IDP := None;
  ro_CreateDesktopUser := None; ro_CreateDatabaseUser := None;
  ro_CreateHostUserMode := HOST_USER_MODE_UNSPECIFIED;
  ro_CreateDatabaseUserMode := DB_USER_MODE_UNSPECIFIED; ro_MFAVerificationInterval := 0;
  ro_CreateHostUserDefaultShell := ""; ro_SSHPortForwarding := None;
  ro_WebTerminalClipboardMode := CLIPBOARD_MODE_UNSPECIFIED;
  ro_RequestAccess := ""; ro_RequestPrompt := "" |}.

Definition no_conditions : RoleConditions := {|
  rc_Logins := []; rc_Namespaces := []; rc_NodeLabels := ∅; rc_Rules := []; rc_KubeGroups := [];
  rc_KubeUsers := []; rc_AppLabels := ∅; rc_ClusterLabels := ∅; rc_KubernetesLabels := ∅;
  rc_DatabaseLabels := ∅; rc_DatabaseNames := []; rc_DatabaseUsers := []; rc_Impersonate := None;
  rc_AWSRoleARNs := []; rc_WindowsDesktopLogins := []; rc_WindowsDesktopLabels := ∅;
  rc_RequireSessionJoin := []; rc_JoinSessions := []; rc_HostGroups := []; rc_HostSudoers := []; rc_AzureIdentities := [];
  rc_GCPServiceAccounts := []; rc_DatabaseServiceLabels := ∅; rc_GroupLabels := ∅;
  rc_DesktopGroups := []; rc_DatabaseRoles := []; rc_NodeLabelsExpression := "";
  rc_AppLabelsExpression := ""; rc_ClusterLabelsExpression := "";
  rc_KubernetesLabelsExpression := ""; rc_DatabaseLabelsExpression := "";
  rc_DatabaseServiceLabelsExpression := ""; rc_WindowsDesktopLabelsExpression := "";
  rc_GroupLabelsExpression := ""; rc_SPIFFE := []; rc_AccountAssignments := []; rc_GitHubPermissions := [];
  rc_WorkloadIdentityLabels := ∅; rc_WorkloadIdentityLabelsExpression := ""; rc_MCP := None;
  rc_LinuxDesktopLogins := []; rc_LinuxDesktopLabels := ∅; rc_LinuxDesktopLabelsExpression := "";
  rc_BeamLabels := ∅; rc_BeamLabelsExpression := ""; rc_KubernetesResources := []; rc_Request := None;
  rc_ReviewRequests := None |}.

(** ** Accessors *)

(** [GetRoleConditions], the pick every accessor below makes *)
Definition GetRoleConditions (rct : RoleConditionType) (r : RoleV6) : RoleConditions :=
  match rct with Allow => role_Allow r | Deny => role_Deny r end.

Definition GetName (r : RoleV6) : string := role_Name r.
Definition GetOptions (r : RoleV6) : RoleOptions := role_Options r.

Section Accessors.
Variable rct : RoleConditionType.
Variable r : RoleV6.

Definition GetLogins := rc_Logins (GetRoleConditions rct r).
Definition GetNamespaces := rc_Namespaces (GetRoleConditions rct r).
Definition GetRules := rc_Rules (GetRoleConditions rct r).
Definition GetKubeGroups := rc_KubeGroups (GetRoleConditions rct r).
Definition GetKubeUsers := rc_KubeUsers (GetRoleConditions rct r).
Definition GetDatabaseNames := rc_DatabaseNames (GetRoleConditions rct r).
Definition GetDatabaseUsers := rc_DatabaseUsers (GetRoleConditions rct r).
Definition GetDatabaseRoles := rc_DatabaseRoles (GetRoleConditions rct r).
Definition GetAWSRoleARNs := rc_AWSRoleARNs (GetRoleConditions rct r).
Definition GetAzureIdentities := rc_AzureIdentities (GetRoleConditions rct r).
Definition GetGCPServiceAccounts := rc_GCPServiceAccounts (GetRoleConditions rct r).
Definition GetWindowsLogins := rc_WindowsDesktopLogins (GetRoleConditions rct r).
Definition GetLinuxDesktopLogins := rc_LinuxDesktopLogins (GetRoleConditions rct r).
Definition GetHostGroups := rc_HostGroups (GetRoleConditions rct r).
Definition GetHostSudoers := rc_HostSudoers (GetRoleConditions rct r).
Definition GetDesktopGroups := rc_DesktopGroups (GetRoleConditions rct r).
Definition GetSPIFFEConditions := rc_SPIFFE (GetRoleConditions rct r).
Definition GetIdentityCenterAccountAssignments := rc_AccountAssignments (GetRoleConditions rct r).
Definition GetMCPPermissions := rc_MCP (GetRoleConditions rct r).

Definition GetImpersonateConditions : ImpersonateConditions :=
  default no_impersonation (rc_Impersonate (GetRoleConditions rct r)).

Definition GetAccessRequestConditions : AccessRequestConditions :=
  default no_request_conditions (rc_Request (GetRoleConditions rct r)).
Definition GetAccessReviewConditions : AccessReviewConditions :=
  default no_review_conditions (rc_ReviewRequests (GetRoleConditions rct r)).

Definition GetSearchAsRoles : list string :=
  match rc_Request (GetRoleConditions rct r) with
  | None => []
  | Some request => arc_SearchAsRoles request
  end.
Definition GetPreviewAsRoles : list string :=
  match rc_ReviewRequests (GetRoleConditions rct r) with
  | None => []
  | Some review => avc_PreviewAsRoles review
  end.
Definition GetSubmitForUsers : list string :=
  match rc_ReviewRequests (GetRoleConditions rct r) with
  | None => []
  | Some review => avc_SubmitForUsers review
  end.
End Accessors.

Definition GetSessionJoinPolicies (r : RoleV6) : list SessionJoinPolicy := rc_JoinSessions (role_Allow r).
Definition GetSessionRequirePolicies (r : RoleV6) : list SessionRequirePolicy :=
  rc_RequireSessionJoin (role_Allow r).
Definition GetSessionPolicySet (r : RoleV6) : SessionTrackerPolicySet :=
  {| ps_Name := role_Name r; ps_Version := role_Version r; ps_RequireSessionJoin := rc_RequireSessionJoin (role_Allow r) |}.

Definition GetCreateDatabaseUserMode (r : RoleV6) : CreateDatabaseUserMode :=
  if negb (ro_CreateDatabaseUserMode (role_Options r) =? DB_USER_MODE_UNSPECIFIED) then
    ro_CreateDatabaseUserMode (role_Options r)
  else match ro_CreateDatabaseUser (role_Options r) with
  | Some true => DB_USER_MODE_KEEP
  | _ => DB_USER_MODE_OFF
  end.

(** [CreateDatabaseUserMode.IsEnabled] *)
Definition CreateDatabaseUserMode_IsEnabled (m : CreateDatabaseUserMode) : bool :=
  negb (m =? DB_USER_MODE_UNSPECIFIED) && negb (m =? DB_USER_MODE_OFF).

(** [ImpersonateConditions.IsEmpty] *)
Definition ImpersonateConditions_IsEmpty (i : ImpersonateConditions) : bool :=
  bool_decide (imp_Users i = []) || bool_decide (imp_Roles i = []).

Definition IsLegacySAMLRBAC (roleVersion : string) : bool :=
  slices_Contains [V7; V6; V5; V4; V3; V2; V1] roleVersion.

Definition ProcessNamespace (namespace : string) : string :=
  if bool_decide (namespace = "") then DefaultNamespace else namespace.

(** ** Rules *)

Definition NewRule (resource : string) (verbs : list string) : Rule :=
  {| rule_Resources := [resource]; rule_Verbs := verbs; rule_Where := ""; rule_Actions := [] |}.

(** [Rule.HasResource] *)
Definition HasResource (r : Rule) (resource : string) : bool :=
  existsb (fun x => bool_decide (x = resource)) (rule_Resources r).

(** [Rule.HasVerb]: reading without secrets is satisfied by reading *)
Definition HasVerb (r : Rule) (verb : string) : bool :=
  existsb (fun v =>
    if bool_decide (verb = VerbReadNoSecrets) then
      bool_decide (v = VerbReadNoSecrets) || bool_decide (v = VerbRead)
    else bool_decide (v = verb)) (rule_Verbs r).

(** ** Label matchers *)

Definition makeGitServerLabelMatchers (cond : RoleConditions) : LabelMatchers :=
  {| lm_Labels := {[ GitHubOrgLabel := concat (rc_GitHubPermissions cond) ]}; lm_Expression := "" |}.

Definition GetLabelMatchers (rct : RoleConditionType) (kind : string) (r : RoleV6)
  : result LabelMatchers :=
  let cond := GetRoleConditions rct r in
  let pair l e := Ok {| lm_Labels := l cond; lm_Expression := e cond |} in
  if bool_decide (kind = KindRemoteCluster) then pair rc_ClusterLabels rc_ClusterLabelsExpression
  else if bool_decide (kind = KindNode) then pair rc_NodeLabels rc_NodeLabelsExpression
  else if bool_decide (kind = KindKubernetesCluster) then
    pair rc_KubernetesLabels rc_KubernetesLabelsExpression
  else if bool_decide (kind = KindApp) || bool_decide (kind = KindSAMLIdPServiceProvider) then
    pair rc_AppLabels rc_AppLabelsExpression
  else if bool_decide (kind = KindDatabase) then pair rc_DatabaseLabels rc_DatabaseLabelsExpression
  else if bool_decide (kind = KindDatabaseService) then
    pair rc_DatabaseServiceLabels rc_DatabaseServiceLabelsExpression
  else if bool_decide (kind = KindWindowsDesktop) then
    pair rc_WindowsDesktopLabels rc_WindowsDesktopLabelsExpression
  else if bool_decide (kind = KindDynamicWindowsDesktop) then
    pair rc_WindowsDesktopLabels rc_WindowsDesktopLabelsExpression
  else if bool_decide (kind = KindWindowsDesktopService) then
    pair rc_WindowsDesktopLabels rc_WindowsDesktopLabelsExpression
  else if bool_decide (kind = KindLinuxDesktop) then
    pair rc_LinuxDesktopLabels rc_LinuxDesktopLabelsExpression
  else if bool_decide (kind = KindUserGroup) then pair rc_GroupLabels rc_GroupLabelsExpression
  else if bool_decide (kind = KindGitServer) then Ok (makeGitServerLabelMatchers cond)
  else if bool_decide (kind = KindWorkloadIdentity) then
    pair rc_WorkloadIdentityLabels rc_WorkloadIdentityLabelsExpression
  else if bool_decide (kind = KindBeam) then pair rc_BeamLabels rc_BeamLabelsExpression
  else Err (BadParameter "can't get label matchers for resource kind %q" [kind]).

(** [labelMatchersUnset] of [lib/services/presets.go] *)
Definition labelMatchersUnset (role : RoleV6) (kind : string) : result bool :=
  let? allow := GetLabelMatchers Allow kind role in
  if negb (LabelMatchers_Empty allow) then Ok false else
  let? deny := GetLabelMatchers Deny kind role in
  if negb (LabelMatchers_Empty deny) then Ok false else Ok true.
