(* ===== verification/RoleLimits.v ===== *)
(** * What a set of roles limits and permits: [lib/services/role.go]

    The options of the roles of a user are combined into one setting: a limit
    is the lowest any role sets, a permission is given when one role gives it
    or withheld when one role withholds it.  The facts here say which. *)

From S2P Require Import Prelude GoStrings Types Roles.

(** ** Names *)

Definition RoleNames (set : RoleSet) : list string :=
  omap (fun r => if bool_decide (GetName r = DefaultImplicitRole) then None else Some (GetName r)) set.

Definition HasRole (role : string) (set : RoleSet) : bool :=
  existsb (fun r => bool_decide (GetName r = role)) set.

Definition WithoutImplicit (set : RoleSet) : RoleSet :=
  filter (fun r => GetName r <> DefaultImplicitRole) set.

(** ** Limits *)

Definition AdjustSessionTTL (ttl : duration) (set : RoleSet) : duration :=
  foldl (fun ttl role =>
    let maxSessionTTL := ro_MaxSessionTTL (GetOptions role) in
    if negb (maxSessionTTL =? 0) && (maxSessionTTL <? ttl) then maxSessionTTL else ttl) ttl set.

Definition AdjustMFAVerificationInterval (ttl : duration) (enforce : bool) (set : RoleSet) : duration :=
  foldl (fun ttl role =>
    let mfaVerificationInterval := ro_MFAVerificationInterval (GetOptions role) in
    if (ro_RequireMFAType (GetOptions role) =? RequireMFAType_OFF) && negb enforce then ttl
    else if negb (mfaVerificationInterval =? 0) && (mfaVerificationInterval <? ttl) then
      mfaVerificationInterval
    else ttl) ttl set.

(** One round of the loop that [MaxConnections], [MaxSessions] and
    [MaxKubernetesConnections] share: zero is no limit. *)
Definition lower_limit (limit : RoleOptions -> Z) (mcs : Z) (role : RoleV6) : Z :=
  let m := limit (GetOptions role) in
  if negb (m =? 0) && ((m <? mcs) || (mcs =? 0)) then m else mcs.

Definition lowest_limit (limit : RoleOptions -> Z) (set : RoleSet) : Z := foldl (lower_limit limit) 0 set.

Definition MaxConnections := lowest_limit ro_MaxConnections.
Definition MaxSessions := lowest_limit ro_MaxSessions.
Definition MaxKubernetesConnections := lowest_limit ro_MaxKubernetesConnections.

Definition AdjustClientIdleTimeout (timeout : duration) (set : RoleSet) : duration :=
  let timeout := if timeout <? 0 then 0 else timeout in
  foldl (fun timeout role =>
    let roleTimeout := ro_ClientIdleTimeout (GetOptions role) in
    if roleTimeout <=? 0 then timeout
    else if timeout =? 0 then roleTimeout
    else if roleTimeout <? timeout then roleTimeout
    else timeout) timeout set.

Definition AdjustDisconnectExpiredCert (disconnect : bool) (set : RoleSet) : bool :=
  foldl (fun disconnect role =>
    if ro_DisconnectExpiredCert (GetOptions role) then true else disconnect) disconnect set.

(** ** Permissions *)

Section Permissions.
Variable set : RoleSet.

Definition PinSourceIP : bool := existsb (fun role => ro_PinSourceIP (GetOptions role)) set.
Definition CanForwardAgents : bool := existsb (fun role => ro_ForwardAgent (GetOptions role)) set.
Definition PermitX11Forwarding : bool :=
  existsb (fun role => ro_PermitX11Forwarding (GetOptions role)) set.
Definition CanJoinSessions : bool :=
  existsb (fun role => negb (bool_decide (GetSessionJoinPolicies role = []))) set.

Definition RecordDesktopSession : bool :=
  existsb (fun role =>
    let bo := match ro_RecordSession (GetOptions role) with
              | Some rec => rec_Desktop rec
              | None => None
              end in
    BoolDefaultTrue bo) set.

Definition DesktopClipboard : bool :=
  forallb (fun role => BoolDefaultTrue (ro_DesktopClipboard (GetOptions role))) set.
Definition DesktopDirectorySharing : bool :=
  forallb (fun role => BoolDefaultTrue (ro_DesktopDirectorySharing (GetOptions role))) set.
Definition CanCopyFiles : bool :=
  forallb (fun role => BoolDefaultTrue (ro_SSHFileCopy (GetOptions role))) set.

(** [CheckAgentForward] *)
Definition CheckAgentForward (login : string) : result unit :=
  if existsb (fun role =>
       existsb (fun l => ro_ForwardAgent (GetOptions role) && bool_decide (l = login))
         (GetLogins Allow role)) set
  then Ok tt
  else Err (AccessDenied "%v can not forward agent for %v" (map GetName set ++ [login])).

Definition CanImpersonateSomeone : bool :=
  existsb (fun role => negb (ImpersonateConditions_IsEmpty (GetImpersonateConditions Allow role))) set.

(** [RoleSet.GetCreateDatabaseUserMode]: the highest mode *)
Definition RoleSet_GetCreateDatabaseUserMode : CreateDatabaseUserMode :=
  foldl (fun mode r =>
    if mode <? GetCreateDatabaseUserMode r then GetCreateDatabaseUserMode r else mode)
    DB_USER_MODE_UNSPECIFIED set.
End Permissions.

Fixpoint GetWebTerminalClipboardMode_loop (mode : WebTerminalClipboardMode) (set : RoleSet)
  : WebTerminalClipboardMode :=
  match set with
  | [] => mode
  | r :: set' =>
      let m := ro_WebTerminalClipboardMode (GetOptions r) in
      if m =? CLIPBOARD_MODE_NO_COPY then CLIPBOARD_MODE_NO_COPY
      else if m =? CLIPBOARD_MODE_UNRESTRICTED then
        GetWebTerminalClipboardMode_loop CLIPBOARD_MODE_UNRESTRICTED set'
      else GetWebTerminalClipboardMode_loop mode set'
  end.

Definition GetWebTerminalClipboardMode := GetWebTerminalClipboardMode_loop CLIPBOARD_MODE_UNSPECIFIED.

Definition LockingModeStrict := "strict".
Definition LockingModeBestEffort := "best_effort".

Fixpoint LockingMode (mode : string) (set : RoleSet) : string :=
  match set with
  | [] => mode
  | role :: set' =>
      let lock := ro_Lock (GetOptions role) in
      if bool_decide (lock = LockingModeStrict) then LockingModeStrict
      else if negb (bool_decide (lock = "")) then LockingMode lock set'
      else LockingMode mode set'
  end.

(** ** Port forwarding *)

Inductive SSHPortForwardMode := MODE_OFF | MODE_ON | MODE_LOCAL | MODE_REMOTE.

#[export] Instance SSHPortForwardMode_eq_dec : EqDecision SSHPortForwardMode.
Proof. solve_decision. Defined.

(** The four flags of the loop. *)
Record forwarding := {
  denyRemote : bool;
  denyLocal : bool;
  legacyDeny : bool;
  legacyCanDeny : bool;
}.

(** One side of a configuration: what it adds to that side's denial, and
    whether it says anything. *)
Definition side (o : option BoolOption) : bool * bool :=
  match o with
  | Some (Some b) => (negb b, true)
  | _ => (false, false)
  end.

(** [None] is the early return of [MODE_ON]. *)
Fixpoint SSHPortForwardMode_loop (f : forwarding) (set : RoleSet) : option forwarding :=
  match set with
  | [] => Some f
  | role :: set' =>
      match ro_SSHPortForwarding (GetOptions role) with
      | None =>
          match ro_PortForwarding (GetOptions role) with
          | Some true => None
          | Some false =>
              SSHPortForwardMode_loop
                {| denyRemote := denyRemote f; denyLocal := denyLocal f;
                   legacyDeny := true; legacyCanDeny := legacyCanDeny f |} set'
          | None => SSHPortForwardMode_loop f set'
          end
      | Some config =>
          let '(remote, remoteSet) := side (pf_Remote config) in
          let '(local, localSet) := side (pf_Local config) in
          SSHPortForwardMode_loop
            {| denyRemote := denyRemote f || remote;
               denyLocal := denyLocal f || local;
               legacyDeny := legacyDeny f;
               legacyCanDeny := legacyCanDeny f && negb remoteSet && negb localSet |} set'
      end
  end.

Definition GetSSHPortForwardMode (set : RoleSet) : SSHPortForwardMode :=
  match SSHPortForwardMode_loop
          {| denyRemote := false; denyLocal := false; legacyDeny := false; legacyCanDeny := true |} set with
  | None => MODE_ON
  | Some f =>
      if denyRemote f && denyLocal f then MODE_OFF
      else if legacyDeny f && legacyCanDeny f then MODE_OFF
      else if denyRemote f then MODE_LOCAL
      else if denyLocal f then MODE_REMOTE
      else MODE_ON
  end.

Definition CanPortForward (set : RoleSet) : bool := bool_decide (GetSSHPortForwardMode set = MODE_ON).

(** ** Session recording *)

Definition SessionRecordingModeStrict := "strict".
Definition SessionRecordingModeBestEffort := "best_effort".

(** The one named service, and any other number. *)
Inductive SessionRecordingService := ServiceSSH | ServiceOther.

(** [None] is the panic of the code on a role without recording options. *)
Fixpoint SessionRecordingMode_loop (service : SessionRecordingService) (defaultValue : string)
    (useDefault : bool) (set : RoleSet) : option string :=
  match set with
  | [] => Some (if useDefault then defaultValue else SessionRecordingModeBestEffort)
  | role :: set' =>
      match ro_RecordSession (GetOptions role) with
      | None => None
      | Some recordSession =>
          let defaultValue :=
            if bool_decide (rec_Default recordSession = SessionRecordingModeStrict)
            then SessionRecordingModeStrict else defaultValue in
          let roleMode := match service with ServiceSSH => rec_SSH recordSession | ServiceOther => "" end in
          if bool_decide (roleMode = SessionRecordingModeStrict) then Some SessionRecordingModeStrict
          else if bool_decide (roleMode = SessionRecordingModeBestEffort) then
            SessionRecordingMode_loop service defaultValue false set'
          else SessionRecordingMode_loop service defaultValue useDefault set'
      end
  end.

Definition SessionRecordingMode (service : SessionRecordingService) (set : RoleSet) : option string :=
  SessionRecordingMode_loop service SessionRecordingModeBestEffort true set.

(** ** Certificates *)

Definition CertificateFormatOldSSH := "oldssh".
Definition CertificateFormatStandard := "standard".

Definition certificatePriority (s : string) : Z :=
  if bool_decide (s = CertificateFormatOldSSH) then 0
  else if bool_decide (s = CertificateFormatStandard) then 1
  else 2.

Definition EnhancedRecordingSet (set : RoleSet) : gset string :=
  list_to_set (set ≫= fun role => ro_BPF (GetOptions role)).

(** ** Multi-factor authentication *)

Definition MFARequired := string.
Definition MFARequiredNever : MFARequired := "never".
Definition MFARequiredAlways : MFARequired := "always".
Definition MFARequiredPerRole : MFARequired := "per-role".

Definition role_mfa (role : RoleV6) : bool :=
  IsSessionMFARequired (ro_RequireMFAType (GetOptions role)).

Definition getMFARequired (clusterRequireMFAType : RequireMFAType) (set : RoleSet) : MFARequired :=
  if IsSessionMFARequired clusterRequireMFAType then MFARequiredAlways
  else match set with
  | [] => MFARequiredNever
  | first :: rest =>
      if existsb (fun role => negb (Bool.eqb (role_mfa role) (role_mfa first))) rest
      then MFARequiredPerRole
      else if role_mfa first then MFARequiredAlways else MFARequiredNever
  end.

(** ** Private keys: [api/utils/keys/policy.go] *)

Definition PrivateKeyPolicyNone := "none".
Definition PrivateKeyPolicyHardwareKey := "hardware_key".
Definition PrivateKeyPolicyHardwareKeyTouch := "hardware_key_touch".
Definition PrivateKeyPolicyHardwareKeyPIN := "hardware_key_pin".
Definition PrivateKeyPolicyHardwareKeyTouchAndPIN := "hardware_key_touch_and_pin".
Definition PrivateKeyPolicyWebSession := "web_session".

Definition isHardwareKeyTouchVerified (p : string) : bool :=
  slices_Contains [PrivateKeyPolicyHardwareKeyTouch; PrivateKeyPolicyHardwareKeyTouchAndPIN] p.
Definition isHardwareKeyPINVerified (p : string) : bool :=
  slices_Contains [PrivateKeyPolicyHardwareKeyPIN; PrivateKeyPolicyHardwareKeyTouchAndPIN] p.
Definition IsHardwareKeyPolicy (p : string) : bool :=
  slices_Contains [PrivateKeyPolicyHardwareKey; PrivateKeyPolicyHardwareKeyTouch;
                   PrivateKeyPolicyHardwareKeyPIN; PrivateKeyPolicyHardwareKeyTouchAndPIN] p.

(** [PrivateKeyPolicy.MFAVerified] *)
Definition MFAVerified (p : string) : bool :=
  isHardwareKeyTouchVerified p || isHardwareKeyPINVerified p.

Definition IsSatisfiedBy (requiredPolicy keyPolicy : string) : bool :=
  if bool_decide (keyPolicy = PrivateKeyPolicyWebSession) then true
  else if bool_decide (requiredPolicy = PrivateKeyPolicyNone) then true
  else if bool_decide (requiredPolicy = PrivateKeyPolicyHardwareKey) then IsHardwareKeyPolicy keyPolicy
  else if bool_decide (requiredPolicy = PrivateKeyPolicyHardwareKeyTouch) then
    isHardwareKeyTouchVerified keyPolicy
  else if bool_decide (requiredPolicy = PrivateKeyPolicyHardwareKeyPIN) then
    isHardwareKeyPINVerified keyPolicy
  else if bool_decide (requiredPolicy = PrivateKeyPolicyHardwareKeyTouchAndPIN) then
    isHardwareKeyTouchVerified keyPolicy && isHardwareKeyPINVerified keyPolicy
  else false.

Fixpoint PolicyThatSatisfiesSet_loop (setPolicy : string) (policies : list string) : result string :=
  match policies with
  | [] => Ok setPolicy
  | policy :: policies' =>
      if IsSatisfiedBy policy setPolicy then PolicyThatSatisfiesSet_loop setPolicy policies'
      else if IsSatisfiedBy setPolicy policy then PolicyThatSatisfiesSet_loop policy policies'
      else if IsSatisfiedBy policy PrivateKeyPolicyHardwareKeyTouchAndPIN
           && IsSatisfiedBy setPolicy PrivateKeyPolicyHardwareKeyTouchAndPIN then
        PolicyThatSatisfiesSet_loop PrivateKeyPolicyHardwareKeyTouchAndPIN policies'
      else Err (BadParameter ("private key policy requirements %q and %q are incompatible, " +:+
                              "please contact the cluster administrator") [policy; setPolicy])
  end.

Definition PolicyThatSatisfiesSet (policies : list string) : result string :=
  PolicyThatSatisfiesSet_loop PrivateKeyPolicyNone policies.

(** [RoleV6.GetPrivateKeyPolicy] *)
Definition GetPrivateKeyPolicy (r : RoleV6) : string :=
  let t := ro_RequireMFAType (role_Options r) in
  if t =? RequireMFAType_SESSION_AND_HARDWARE_KEY then PrivateKeyPolicyHardwareKey
  else if t =? RequireMFAType_HARDWARE_KEY_TOUCH then PrivateKeyPolicyHardwareKeyTouch
  else if t =? RequireMFAType_HARDWARE_KEY_PIN then PrivateKeyPolicyHardwareKeyPIN
  else if t =? RequireMFAType_HARDWARE_KEY_TOUCH_AND_PIN then PrivateKeyPolicyHardwareKeyTouchAndPIN
  else PrivateKeyPolicyNone.

Definition PrivateKeyPolicy (authPreferencePolicy : string) (set : RoleSet) : result string :=
  PolicyThatSatisfiesSet (authPreferencePolicy :: map GetPrivateKeyPolicy set).

(** ** Facts about limits and permissions over a set of roles

    A limit is the least that any role sets, whatever the order of the roles;
    the key policy of a set is satisfied by the keys that satisfy every role;
    port forwarding is a formula over the roles. *)

(** ** Least values *)

(** [v] is the least of the values of a list, and [top] when there is none. *)
Definition least_of (top : Z) (vs : list Z) (v : Z) : Prop :=
  (v = top \/ v ∈ vs) /\ forall w, w ∈ vs -> v <= w.

Lemma least_of_unique top vs v w :
  (forall x, x ∈ vs -> x <= top) -> least_of top vs v -> least_of top vs w -> v <= top -> w <= top -> v = w.
Proof.
  intros Ht [Hv Hv'] [Hw Hw'] ? ?.
  destruct Hv as [->|Hv], Hw as [->|Hw]; [done| | |].
  - specialize (Hv' _ Hw). lia.
  - specialize (Hw' _ Hv). lia.
  - specialize (Hv' _ Hw). specialize (Hw' _ Hv). lia.
Qed.

(** The limits the roles of a set state: zero states none. *)
Definition stated (limit : RoleV6 -> Z) (set : RoleSet) : list Z :=
  filter (fun v => v <> 0) (limit <$> set).

Lemma elem_of_stated limit set v : v ∈ stated limit set <-> v <> 0 /\ exists role, role ∈ set /\ limit role = v.
Proof. unfold stated. rewrite list_elem_of_filter, list_elem_of_fmap. naive_solver. Qed.

Lemma stated_cons limit role set :
  stated limit (role :: set) = if decide (limit role = 0) then stated limit set else limit role :: stated limit set.
Proof.
  unfold stated. rewrite fmap_cons, filter_cons. destruct (decide (limit role = 0)), (decide (limit role <> 0)); tauto.
Qed.

(** A loop that keeps the lower of two values, over the roles [counts] picks. *)
Lemma lower_loop (counts : RoleV6 -> bool) (limit : RoleV6 -> Z) set top :
  let v := foldl (fun ttl role =>
    if counts role then (if negb (limit role =? 0) && (limit role <? ttl) then limit role else ttl) else ttl)
    top set in
  v <= top /\ least_of top (stated limit (filter (fun role => counts role = true) set)) v.
Proof.
  revert top. induction set as [|role set IH]; intros top; simpl.
  { split; [lia|]. split; [by left|]. by intros w ?%elem_of_nil. }
  rewrite filter_cons. destruct (counts role) eqn:Ec; simpl; [|by apply IH]. rewrite stated_cons.
  destruct (limit role =? 0) eqn:E0; bool_to_prop; simpl.
  { rewrite decide_True by done. apply IH. }
  rewrite decide_False by done. destruct (limit role <? top) eqn:El; bool_to_prop.
  - destruct (IH (limit role)) as (Hle & Hv & Hl). split; [lia|]. split.
    + right. destruct Hv as [Hv|Hv]; [rewrite Hv; left|by right].
    + intros w [->|Hw]%elem_of_cons; [done|by apply Hl].
  - destruct (IH top) as (Hle & Hv & Hl). split; [done|]. split.
    + destruct Hv as [Hv|Hv]; [by left|right; by right].
    + intros w [->|Hw]%elem_of_cons; [lia|by apply Hl].
Qed.

Lemma AdjustSessionTTL_least ttl set :
  AdjustSessionTTL ttl set <= ttl /\
  least_of ttl (stated (fun role => ro_MaxSessionTTL (GetOptions role)) set) (AdjustSessionTTL ttl set).
Proof.
  pose proof (lower_loop (fun _ => true) (fun role => ro_MaxSessionTTL (GetOptions role)) set ttl) as Hl.
  simpl in Hl. by rewrite (filter_all _ set) in Hl by done.
Qed.

(** A role takes part in the interval when it asks for multi-factor
    authentication, or the cluster does. *)
Definition asks_mfa (enforce : bool) (role : RoleV6) : bool :=
  negb (ro_RequireMFAType (GetOptions role) =? RequireMFAType_OFF) || enforce.

Lemma foldl_ext_all {A B} (f g : A -> B -> A) l a : (forall a b, f a b = g a b) -> foldl f a l = foldl g a l.
Proof. intros Hf. revert a. induction l as [|b l IH]; intros a; simpl; [done|]. by rewrite Hf. Qed.

Lemma AdjustMFAVerificationInterval_least ttl enforce set :
  AdjustMFAVerificationInterval ttl enforce set <= ttl /\
  least_of ttl
    (stated (fun role => ro_MFAVerificationInterval (GetOptions role))
       (filter (fun role => asks_mfa enforce role = true) set))
    (AdjustMFAVerificationInterval ttl enforce set).
Proof.
  pose proof (lower_loop (asks_mfa enforce)
    (fun role => ro_MFAVerificationInterval (GetOptions role)) set ttl) as Hl. cbv zeta in Hl.
  unfold AdjustMFAVerificationInterval. rewrite (foldl_ext_all _ (fun ttl role =>
    if asks_mfa enforce role then
      (if negb (ro_MFAVerificationInterval (GetOptions role) =? 0)
          && (ro_MFAVerificationInterval (GetOptions role) <? ttl)
       then ro_MFAVerificationInterval (GetOptions role) else ttl) else ttl)); [done|].
  intros t role. unfold asks_mfa. by destruct (_ =? RequireMFAType_OFF), enforce.
Qed.

(** A limit over the set: zero when no role states one, otherwise the least. *)
Definition limit_of (vs : list Z) (v : Z) : Prop :=
  (vs = [] /\ v = 0) \/ (v ∈ vs /\ forall w, w ∈ vs -> v <= w).

Lemma lowest_limit_acc limit set mcs :
  mcs <> 0 ->
  foldl (lower_limit limit) mcs set <= mcs /\
  least_of mcs (stated (fun role => limit (GetOptions role)) set) (foldl (lower_limit limit) mcs set).
Proof.
  revert mcs. induction set as [|role set IH]; intros mcs Hm; cbn [foldl].
  { split; [lia|]. split; [by left|]. by intros w ?%elem_of_nil. }
  rewrite stated_cons. unfold lower_limit at 2 4.
  destruct (limit (GetOptions role) =? 0) eqn:E0; bool_to_prop; cbn [negb andb].
  { rewrite decide_True by done. by apply IH. }
  rewrite decide_False by done.
  assert ((mcs =? 0) = false) as E1 by lia. rewrite E1, orb_false_r.
  destruct (limit (GetOptions role) <? mcs) eqn:El; bool_to_prop.
  - destruct (IH (limit (GetOptions role)) E0) as (Hle & Hv & Hl). split; [lia|]. split.
    + right. destruct Hv as [Hv|Hv]; [rewrite Hv; left|by right].
    + intros w [->|Hw]%elem_of_cons; [done|by apply Hl].
  - destruct (IH mcs Hm) as (Hle & Hv & Hl). split; [done|]. split.
    + destruct Hv as [Hv|Hv]; [by left|right; by right].
    + intros w [->|Hw]%elem_of_cons; [lia|by apply Hl].
Qed.

Lemma lowest_limit_spec limit set :
  limit_of (stated (fun role => limit (GetOptions role)) set) (lowest_limit limit set).
Proof.
  unfold lowest_limit. induction set as [|role set IH]; [by left|]. cbn [foldl]. rewrite stated_cons.
  unfold lower_limit at 2. destruct (limit (GetOptions role) =? 0) eqn:E0; bool_to_prop; cbn [negb andb].
  { rewrite decide_True by done. exact IH. }
  rewrite decide_False, orb_true_r by done. right.
  destruct (lowest_limit_acc limit set (limit (GetOptions role)) E0) as (Hle & Hv & Hl). split.
  - destruct Hv as [Hv|Hv]; [rewrite Hv; left|by right].
  - intros w [->|Hw]%elem_of_cons; [done|by apply Hl].
Qed.

(** The idle timeouts: only those above zero count. *)
Definition positive (vs : list Z) : list Z := filter (fun v => 0 < v) vs.

Lemma AdjustClientIdleTimeout_acc set timeout :
  0 <= timeout ->
  limit_of (positive (timeout :: ((fun role => ro_ClientIdleTimeout (GetOptions role)) <$> set)))
    (AdjustClientIdleTimeout timeout set).
Proof.
  unfold AdjustClientIdleTimeout. intros Ht. rewrite (proj2 (Z.ltb_ge _ _)) by lia. revert timeout Ht.
  induction set as [|role set IH]; intros timeout Ht; simpl.
  { unfold positive. rewrite filter_cons. case_decide; simpl; [|left; split; [done|lia]].
    right. split; [left|]. intros w ->%list_elem_of_singleton. lia. }
  unfold positive in *. rewrite !filter_cons. setoid_rewrite filter_cons in IH.
  destruct (ro_ClientIdleTimeout (GetOptions role) <=? 0) eqn:E; bool_to_prop.
  { rewrite (decide_False (P := 0 < ro_ClientIdleTimeout _)) by lia. by apply IH. }
  rewrite (decide_True (P := 0 < ro_ClientIdleTimeout _)) by lia.
  assert (Hpos : forall t, 0 < t ->
    limit_of (filter (fun v => 0 < v) (t :: ((fun role => ro_ClientIdleTimeout (GetOptions role)) <$> set)))
      (foldl (fun timeout role =>
        if ro_ClientIdleTimeout (GetOptions role) <=? 0 then timeout
        else if timeout =? 0 then ro_ClientIdleTimeout (GetOptions role)
        else if ro_ClientIdleTimeout (GetOptions role) <? timeout then ro_ClientIdleTimeout (GetOptions role)
        else timeout) t set)).
  { intros t Hp. rewrite filter_cons. apply IH. lia. }
  setoid_rewrite filter_cons in Hpos.
  destruct (timeout =? 0) eqn:E1; bool_to_prop.
  { subst timeout. rewrite (decide_False (P := 0 < 0)) by lia.
    specialize (Hpos _ E). by rewrite decide_True in Hpos by lia. }
  rewrite (decide_True (P := 0 < timeout)) by lia.
  destruct (ro_ClientIdleTimeout (GetOptions role) <? timeout) eqn:E2; bool_to_prop.
  - specialize (Hpos _ E). rewrite decide_True in Hpos by lia.
    destruct Hpos as [[[=] _]|[Hv Hl]]. right. split; [by right|].
    intros w [->|Hw]%elem_of_cons; [|by apply Hl]. specialize (Hl (ro_ClientIdleTimeout (GetOptions role)) ltac:(left)). lia.
  - specialize (Hpos timeout ltac:(lia)). rewrite decide_True in Hpos by lia.
    destruct Hpos as [[[=] _]|[Hv Hl]]. right. split.
    + apply elem_of_cons in Hv as [->|Hv]; [left|do 2 right; done].
    + intros w [->|[->|Hw]%elem_of_cons]%elem_of_cons; [apply Hl; left| |apply Hl; by right].
      specialize (Hl timeout ltac:(left)). lia.
Qed.

(** ** Key policies *)

(** The policies a role or the cluster can ask for. *)
Definition RequirementPolicies : list string :=
  [ PrivateKeyPolicyNone; PrivateKeyPolicyHardwareKey; PrivateKeyPolicyHardwareKeyTouch;
    PrivateKeyPolicyHardwareKeyPIN; PrivateKeyPolicyHardwareKeyTouchAndPIN ].

Definition meets (keyPolicy requiredPolicy : string) : bool := IsSatisfiedBy requiredPolicy keyPolicy.

Lemma GetPrivateKeyPolicy_requirement role : GetPrivateKeyPolicy role ∈ RequirementPolicies.
Proof. unfold GetPrivateKeyPolicy, RequirementPolicies. repeat case_match; set_solver. Qed.

(** Every key is one of the keys the tests tell apart. *)
Lemma key_cases (P : string -> Prop) :
  (forall k, k ∈ PrivateKeyPolicyWebSession :: RequirementPolicies -> P k) ->
  (forall k, k ∉ PrivateKeyPolicyWebSession :: RequirementPolicies -> P k) ->
  forall k, P k.
Proof. intros H1 H2 k. destruct (decide (k ∈ PrivateKeyPolicyWebSession :: RequirementPolicies)); auto. Qed.

Lemma IsSatisfiedBy_other p k :
  k ∉ PrivateKeyPolicyWebSession :: RequirementPolicies -> p ∈ RequirementPolicies ->
  IsSatisfiedBy p k = bool_decide (p = PrivateKeyPolicyNone).
Proof.
  unfold RequirementPolicies. intros Hk Hp. rewrite !not_elem_of_cons in Hk.
  destruct Hk as (Hw & Hn & Hh & Ht & Hi & Hb & _). unfold IsSatisfiedBy.
  rewrite (bool_decide_eq_false_2 (k = PrivateKeyPolicyWebSession)) by done.
  case_bool_decide as E; [done|].
  assert (IsHardwareKeyPolicy k = false) as -> by (apply slices_Contains_false; set_solver).
  assert (isHardwareKeyTouchVerified k = false) as -> by (apply slices_Contains_false; set_solver).
  assert (isHardwareKeyPINVerified k = false) as -> by (apply slices_Contains_false; set_solver).
  by repeat case_bool_decide.
Qed.

(** What the loop makes of two policies. *)
Definition join (setPolicy policy : string) : string :=
  if IsSatisfiedBy policy setPolicy then setPolicy
  else if IsSatisfiedBy setPolicy policy then policy
  else PrivateKeyPolicyHardwareKeyTouchAndPIN.

Lemma join_requirement p q :
  p ∈ RequirementPolicies -> q ∈ RequirementPolicies -> join p q ∈ RequirementPolicies.
Proof. unfold join. intros Hp Hq. repeat case_match; [done..|]. unfold RequirementPolicies. set_solver. Qed.

Lemma join_step p q policies :
  p ∈ RequirementPolicies -> q ∈ RequirementPolicies ->
  PolicyThatSatisfiesSet_loop p (q :: policies) = PolicyThatSatisfiesSet_loop (join p q) policies.
Proof.
  unfold join. intros Hp Hq. simpl. destruct (IsSatisfiedBy q p); [done|].
  destruct (IsSatisfiedBy p q); [done|].
  assert (Ht : forall x, x ∈ RequirementPolicies -> IsSatisfiedBy x PrivateKeyPolicyHardwareKeyTouchAndPIN = true).
  { intros x Hx. unfold RequirementPolicies in Hx.
    repeat (apply elem_of_cons in Hx as [->|Hx]; [done|]). by apply elem_of_nil in Hx. }
  by rewrite !Ht.
Qed.

(** The joined policy asks for what either asks. *)
Lemma join_meets k p q :
  p ∈ RequirementPolicies -> q ∈ RequirementPolicies -> meets k (join p q) = meets k p && meets k q.
Proof.
  intros Hp Hq. revert k. apply (key_cases (fun k => meets k (join p q) = meets k p && meets k q)).
  - intros k Hk. revert Hp Hq Hk. unfold RequirementPolicies. intros Hp Hq Hk.
    repeat (apply elem_of_cons in Hp as [->|Hp]; [|]); [..|by apply elem_of_nil in Hp];
      (repeat (apply elem_of_cons in Hq as [->|Hq]; [|]); [..|by apply elem_of_nil in Hq];
        (repeat (apply elem_of_cons in Hk as [->|Hk]; [reflexivity|]); by apply elem_of_nil in Hk)).
  - intros k Hk. pose proof (join_requirement p q Hp Hq) as Hj. unfold meets.
    rewrite !IsSatisfiedBy_other by done. revert Hp Hq. clear. unfold RequirementPolicies. intros Hp Hq.
    repeat (apply elem_of_cons in Hp as [->|Hp]; [|]); [..|by apply elem_of_nil in Hp];
      (repeat (apply elem_of_cons in Hq as [->|Hq]; [reflexivity|]); by apply elem_of_nil in Hq).
Qed.

Lemma PolicyThatSatisfiesSet_loop_spec p policies :
  p ∈ RequirementPolicies -> (forall q, q ∈ policies -> q ∈ RequirementPolicies) ->
  exists policy, PolicyThatSatisfiesSet_loop p policies = Ok policy /\ policy ∈ RequirementPolicies /\
    forall k, meets k policy = meets k p && forallb (meets k) policies.
Proof.
  revert p. induction policies as [|q policies IH]; intros p Hp Hq.
  { exists p. split; [done|]. split; [done|]. intros k. simpl. by rewrite andb_true_r. }
  rewrite join_step by (try done; apply Hq; left).
  destruct (IH (join p q)) as (policy & -> & Hpol & Hm).
  { apply join_requirement; [done|]. apply Hq. left. }
  { intros x Hx. apply Hq. by right. }
  exists policy. split; [done|]. split; [done|]. intros k.
  rewrite Hm, join_meets by (try done; apply Hq; left). simpl. by rewrite andb_assoc.
Qed.

Lemma PrivateKeyPolicy_spec authPreferencePolicy set :
  authPreferencePolicy ∈ RequirementPolicies ->
  exists policy, PrivateKeyPolicy authPreferencePolicy set = Ok policy /\ policy ∈ RequirementPolicies /\
    forall k, meets k policy =
      meets k authPreferencePolicy && forallb (fun role => meets k (GetPrivateKeyPolicy role)) set.
Proof.
  intros Ha. unfold PrivateKeyPolicy, PolicyThatSatisfiesSet.
  destruct (PolicyThatSatisfiesSet_loop_spec PrivateKeyPolicyNone
              (authPreferencePolicy :: map GetPrivateKeyPolicy set)) as (policy & E & Hp & Hm).
  - left.
  - intros q [->|Hq]%elem_of_cons; [done|].
    apply list_elem_of_fmap in Hq as (role & -> & _). apply GetPrivateKeyPolicy_requirement.
  - exists policy. split; [done|]. split; [done|]. intros k. rewrite Hm. simpl.
    assert (meets k PrivateKeyPolicyNone = true) as ->
      by (unfold meets, IsSatisfiedBy; by case_bool_decide). simpl. f_equal.
    clear. induction set as [|role set IHs]; [done|]. simpl. by rewrite IHs.
Qed.

(** ** Port forwarding *)

(** The older option of a role that has no newer one. *)
Definition legacy (b : bool) (role : RoleV6) : bool :=
  match ro_SSHPortForwarding (GetOptions role), ro_PortForwarding (GetOptions role) with
  | None, Some b' => Bool.eqb b b'
  | _, _ => false
  end.
(** A side the role denies, and whether it says anything of either side. *)
Definition denies_side (get : SSHPortForwarding -> option BoolOption) (role : RoleV6) : bool :=
  match ro_SSHPortForwarding (GetOptions role) with
  | Some config => fst (side (get config))
  | None => false
  end.
Definition speaks (role : RoleV6) : bool :=
  match ro_SSHPortForwarding (GetOptions role) with
  | Some config => snd (side (pf_Remote config)) || snd (side (pf_Local config))
  | None => false
  end.

Definition port_forward_mode (set : RoleSet) : SSHPortForwardMode :=
  if existsb (legacy true) set then MODE_ON
  else
    match existsb (denies_side pf_Remote) set, existsb (denies_side pf_Local) set with
    | true, true => MODE_OFF
    | remote, local =>
        if existsb (legacy false) set && negb (existsb speaks set) then MODE_OFF
        else if remote then MODE_LOCAL else if local then MODE_REMOTE else MODE_ON
    end.

Lemma SSHPortForwardMode_loop_spec f set :
  SSHPortForwardMode_loop f set =
  if existsb (legacy true) set then None
  else Some {| denyRemote := denyRemote f || existsb (denies_side pf_Remote) set;
               denyLocal := denyLocal f || existsb (denies_side pf_Local) set;
               legacyDeny := legacyDeny f || existsb (legacy false) set;
               legacyCanDeny := legacyCanDeny f && negb (existsb speaks set) |}.
Proof.
  revert f. induction set as [|role set IH]; intros f; simpl.
  { destruct f; simpl. by rewrite !orb_false_r, andb_true_r. }
  unfold legacy, denies_side, speaks at 1.
  destruct (ro_SSHPortForwarding (GetOptions role)) as [config|].
  - destruct (side (pf_Remote config)) as [remote remoteSet], (side (pf_Local config)) as [local localSet].
    rewrite IH. simpl. fold legacy. destruct (existsb _ set); [done|]. f_equal. f_equal; simpl.
    + by rewrite orb_assoc.
    + by rewrite orb_assoc.
    + by rewrite !negb_orb, <- !andb_assoc.
  - destruct (ro_PortForwarding (GetOptions role)) as [[]|]; simpl; [done| |by rewrite IH].
    rewrite IH. simpl. destruct (existsb _ set); [done|]. by rewrite orb_true_r.
Qed.

Lemma GetSSHPortForwardMode_spec set : GetSSHPortForwardMode set = port_forward_mode set.
Proof.
  unfold GetSSHPortForwardMode, port_forward_mode. rewrite SSHPortForwardMode_loop_spec. simpl.
  destruct (existsb (legacy true) set); [done|].
  by destruct (existsb (denies_side pf_Remote) set), (existsb (denies_side pf_Local) set),
    (existsb (legacy false) set), (existsb speaks set).
Qed.

Lemma GetSSHPortForwardMode_order set set' : set ≡ₚ set' -> GetSSHPortForwardMode set = GetSSHPortForwardMode set'.
Proof.
  intros Hp. rewrite !GetSSHPortForwardMode_spec. unfold port_forward_mode.
  by rewrite !(existsb_perm _ _ _ Hp).
Qed.
