(* ===== verification/RoleAccess.v ===== *)
(** * Access to a resource: [RoleSet.checkAccess] of [lib/services/role.go]

    A role is matched against a resource by namespace, by labels and by the
    matchers the caller adds (a login, a database user, an account).  Deny
    conditions are looked at first and any match refuses; an allow condition
    has to match in full, and the roles that match add the requirements of
    their options: multi-factor authentication and a trusted device.

    What is logged at trace level, the debug messages of the matchers
    included, is left out. *)

From S2P Require Import Prelude GoStrings Utf8 Types Regexp Roles RoleLimits.

(** ** Selectors *)

Definition MatchNamespace (selectors : list string) (namespace : string) : bool :=
  existsb (fun n => bool_decide (n = namespace) || bool_decide (n = Wildcard)) selectors.

Definition MatchAWSRoleARN (selectors : list string) (roleARN : string) : bool :=
  slices_Contains selectors roleARN.

Definition MatchGCPServiceAccount (selectors : list string) (account : string) (matchWildcard : bool) : bool :=
  existsb (fun l => bool_decide (l = account) || (matchWildcard && bool_decide (l = Wildcard))) selectors.

Definition MatchDatabaseName (selectors : list string) (name : string) : bool :=
  existsb (fun n => bool_decide (n = name) || bool_decide (n = Wildcard)) selectors.

Section FoldedSelectors.
Context `{UnicodeTables}.

Definition MatchAzureIdentity (selectors : list string) (identity : string) (matchWildcard : bool) : bool :=
  let identity := ToLower identity in
  existsb (fun l =>
    bool_decide (ToLower l = identity) || (matchWildcard && bool_decide (l = Wildcard))) selectors.

Definition MatchDatabaseUser (selectors : list string) (user : string) (matchWildcard caseFold : bool) : bool :=
  existsb (fun u =>
    (if caseFold then EqualFold u user else bool_decide (u = user)) ||
    (matchWildcard && bool_decide (u = Wildcard))) selectors.
End FoldedSelectors.

(** ** Labels *)

(** [label.LabelGetter] of [lib/services/label]: what a resource says of its
    labels; the label expressions may read all of them. *)
Record LabelGetter := {
  GetLabel : string -> option string;
  GetAllLabels : gmap string string;
}.

Definition MapLabelGetter (m : gmap string string) : LabelGetter :=
  {| GetLabel := fun key => m !! key; GetAllLabels := m |}.

(** The subset of a resource that the checks read. *)
Record AccessCheckable := {
  res_Kind : string;
  res_SubKind : string;
  res_Name : string;
  res_Namespace : string;
  res_Labels : LabelGetter;
  (* the account of an Identity Center resource, and the permission set of an
     assignment *)
  res_IdentityCenter : option (string * option string);
  (* the answer of [IsAWSConsole], of a resource that has the method *)
  res_IsAWSConsole : option bool;
}.

(** Label expressions: the parser generator they are built on is not part of
    the repository, so parsing and evaluating one is a parameter. *)
Class LabelExpressions :=
  evaluateLabelExpression : string -> LabelGetter -> string -> traits -> result bool.

Section Labels.
Context `{RegexpCache} `{MapOrder (list string)} `{LabelExpressions}.

Fixpoint SliceMatchesRegex (input : string) (expressions : list string) : result bool :=
  match expressions with
  | [] => Ok false
  | expression :: expressions' =>
      match MatchString input expression with
      | Ok false => SliceMatchesRegex input expressions'
      | r => r
      end
  end.

(** The full match of [MatchLabelGetter], over the entries in the order the
    map is walked. *)
Fixpoint match_entries (labelGetter : LabelGetter) (entries : list (string * list string)) : result bool :=
  match entries with
  | [] => Ok true
  | (key, selectorValues) :: entries' =>
      match GetLabel labelGetter key with
      | None => Ok false
      | Some targetVal =>
          if slices_Contains selectorValues Wildcard then match_entries labelGetter entries'
          else
            let? result := SliceMatchesRegex targetVal selectorValues in
            if negb result then Ok false else match_entries labelGetter entries'
      end
  end.

Definition MatchLabelGetter (selector : Labels) (labelGetter : LabelGetter) : result bool :=
  if bool_decide (size selector = 0%nat) then Ok false
  else if bool_decide (default [] (selector !! Wildcard) = [Wildcard]) then Ok true
  else match_entries labelGetter (range selector).

Definition MatchLabels (selector : Labels) (target : gmap string string) : result bool :=
  MatchLabelGetter selector (MapLabelGetter target).

Definition CheckLabelsMatch (condition : RoleConditionType) (labelMatchers : LabelMatchers)
    (username : string) (userTraits : traits) (resource : LabelGetter) : result bool :=
  if LabelMatchers_Empty labelMatchers then Ok false
  else
    let? labelsUnsetOrMatch :=
      if negb (bool_decide (size (lm_Labels labelMatchers) = 0%nat))
      then let? match_ := MatchLabelGetter (lm_Labels labelMatchers) resource in Ok (Some match_)
      else Ok None in
    if bool_decide (condition = Deny) && bool_decide (labelsUnsetOrMatch = Some true) then Ok true
    else
      let? expressionUnsetOrMatch :=
        if negb (bool_decide (lm_Expression labelMatchers = ""))
        then let? match_ := evaluateLabelExpression (lm_Expression labelMatchers) resource username userTraits in
             Ok (Some match_)
        else Ok None in
      match condition with
      | Deny => Ok (default false expressionUnsetOrMatch)
      | Allow => Ok (default true labelsUnsetOrMatch && default true expressionUnsetOrMatch)
      end.

Definition checkRoleLabelsMatch (condition : RoleConditionType) (role : RoleV6) (username : string)
    (userTraits : traits) (resource : AccessCheckable) : result bool :=
  let? labelMatchers := GetLabelMatchers condition (res_Kind resource) role in
  CheckLabelsMatch condition labelMatchers username userTraits (res_Labels resource).
End Labels.

(** ** Matchers *)

(** The matchers of the package, by the data they carry; [RoleMatcherFunc] is
    a matcher made of a function. *)
Inductive RoleMatcher :=
| loginMatcher (login : string)
| windowsLoginMatcher (login : string)
| linuxDesktopLoginMatcher (login : string)
| awsAppLoginMatcher (awsRole : string)
| AWSRoleARNMatcher (RoleARN : string)
| AzureIdentityMatcher (Identity : string)
| GCPServiceAccountMatcher (ServiceAccount : string)
| DatabaseNameMatcher (Name : string)
| databaseUserMatcher (user : string) (alternativeNames : list string) (caseInsensitive : bool)
| kubernetesClusterLabelMatcher (clusterLabels : gmap string string) (username : string) (userTraits : traits)
| IdentityCenterAccountMatcher (accountID : string)
| IdentityCenterAccountAssignmentMatcher (accountID permissionSetARN : string)
| MCPToolMatcher (Name : string)
| RoleMatcherFunc (f : RoleV6 -> RoleConditionType -> result bool).

Section Matchers.
Context `{UnicodeTables} `{RegexpCache} `{MapOrder (list string)} `{LabelExpressions}.

(** [getKubeLabelMatchers]: a deny condition without labels denies every
    cluster *)
Definition getKubeLabelMatchers (role : RoleV6) (typ : RoleConditionType) : result LabelMatchers :=
  let? labelMatchers := GetLabelMatchers typ KindKubernetesCluster role in
  if LabelMatchers_Empty labelMatchers && bool_decide (typ = Deny) then
    Ok {| lm_Labels := {[ Wildcard := [Wildcard] ]}; lm_Expression := lm_Expression labelMatchers |}
  else Ok labelMatchers.

(** [matchExpression] of [lib/services/identitycenter.go] *)
Definition matchExpression (target expression : string) : result bool :=
  if bool_decide (expression = Wildcard) then Ok true else MatchString target expression.

Fixpoint match_accounts (accountID : string) (permissionSetARN : option string)
    (assignments : list (string * string)) : result bool :=
  match assignments with
  | [] => Ok false
  | (account, permissionSet) :: assignments' =>
      let? accountMatches := matchExpression accountID account in
      if negb accountMatches then match_accounts accountID permissionSetARN assignments'
      else match permissionSetARN with
      | None => Ok true
      | Some arn =>
          let? permissionSetMatches := matchExpression arn permissionSet in
          if permissionSetMatches then Ok true
          else match_accounts accountID permissionSetARN assignments'
      end
  end.

(** ** [Match] of each matcher *)

Definition loginMatcher_Match (login : string) (role : RoleV6) (typ : RoleConditionType) : bool :=
  slices_Contains (GetLogins typ role) login.
Definition windowsLoginMatcher_Match (login : string) (role : RoleV6) (typ : RoleConditionType) : bool :=
  slices_Contains (GetWindowsLogins typ role) login.
Definition linuxDesktopLoginMatcher_Match (login : string) (role : RoleV6) (typ : RoleConditionType) : bool :=
  slices_Contains (GetLinuxDesktopLogins typ role) login.
Definition awsAppLoginMatcher_Match (awsRole : string) (role : RoleV6) (typ : RoleConditionType) : bool :=
  slices_Contains (GetAWSRoleARNs typ role) awsRole.

Definition AWSRoleARNMatcher_Match (RoleARN : string) (role : RoleV6) (condition : RoleConditionType) : bool :=
  MatchAWSRoleARN (GetAWSRoleARNs condition role) RoleARN.
Definition AzureIdentityMatcher_Match (Identity : string) (role : RoleV6) (condition : RoleConditionType) : bool :=
  MatchAzureIdentity (GetAzureIdentities condition role) Identity (bool_decide (condition = Deny)).
Definition GCPServiceAccountMatcher_Match (ServiceAccount : string) (role : RoleV6)
    (condition : RoleConditionType) : bool :=
  MatchGCPServiceAccount (GetGCPServiceAccounts condition role) ServiceAccount (bool_decide (condition = Deny)).

Definition DatabaseNameMatcher_Match (Name : string) (role : RoleV6) (condition : RoleConditionType) : bool :=
  MatchDatabaseName (GetDatabaseNames condition role) Name.
Definition databaseUserMatcher_Match (user : string) (alternativeNames : list string) (caseInsensitive : bool)
    (role : RoleV6) (condition : RoleConditionType) : bool :=
  let selectors := GetDatabaseUsers condition role in
  MatchDatabaseUser selectors user true caseInsensitive ||
  existsb (fun altName => MatchDatabaseUser selectors altName false caseInsensitive) alternativeNames.

Definition kubernetesClusterLabelMatcher_Match (clusterLabels : gmap string string) (username : string)
    (userTraits : traits) (role : RoleV6) (typ : RoleConditionType) : result bool :=
  let? labelMatchers := getKubeLabelMatchers role typ in
  CheckLabelsMatch typ labelMatchers username userTraits (MapLabelGetter clusterLabels).

Definition MCPToolMatcher_Match (Name : string) (role : RoleV6) (condition : RoleConditionType) : result bool :=
  match GetMCPPermissions condition role with
  | None => Ok false
  | Some tools => SliceMatchesRegex Name tools
  end.

(** [RoleMatcher.Match], by the matcher *)
Definition Match (m : RoleMatcher) (role : RoleV6) (condition : RoleConditionType) : result bool :=
  match m with
  | loginMatcher login => Ok (loginMatcher_Match login role condition)
  | windowsLoginMatcher login => Ok (windowsLoginMatcher_Match login role condition)
  | linuxDesktopLoginMatcher login => Ok (linuxDesktopLoginMatcher_Match login role condition)
  | awsAppLoginMatcher awsRole => Ok (awsAppLoginMatcher_Match awsRole role condition)
  | AWSRoleARNMatcher RoleARN => Ok (AWSRoleARNMatcher_Match RoleARN role condition)
  | AzureIdentityMatcher Identity => Ok (AzureIdentityMatcher_Match Identity role condition)
  | GCPServiceAccountMatcher ServiceAccount => Ok (GCPServiceAccountMatcher_Match ServiceAccount role condition)
  | DatabaseNameMatcher Name => Ok (DatabaseNameMatcher_Match Name role condition)
  | databaseUserMatcher user alternativeNames caseInsensitive =>
      Ok (databaseUserMatcher_Match user alternativeNames caseInsensitive role condition)
  | kubernetesClusterLabelMatcher clusterLabels username userTraits =>
      kubernetesClusterLabelMatcher_Match clusterLabels username userTraits role condition
  | IdentityCenterAccountMatcher accountID =>
      match_accounts accountID None (GetIdentityCenterAccountAssignments condition role)
  | IdentityCenterAccountAssignmentMatcher accountID permissionSetARN =>
      match_accounts accountID (Some permissionSetARN) (GetIdentityCenterAccountAssignments condition role)
  | MCPToolMatcher Name => MCPToolMatcher_Match Name role condition
  | RoleMatcherFunc f => f role condition
  end.

(** [RoleMatchers.MatchAll] *)
Fixpoint MatchAll (m : list RoleMatcher) (role : RoleV6) (condition : RoleConditionType) : result bool :=
  match m with
  | [] => Ok true
  | matcher :: m' =>
      let? match_ := Match matcher role condition in
      if negb match_ then Ok false else MatchAll m' role condition
  end.

(** [RoleMatchers.MatchAny], with the matcher that matched *)
Fixpoint MatchAny (m : list RoleMatcher) (role : RoleV6) (condition : RoleConditionType)
  : result (option RoleMatcher) :=
  match m with
  | [] => Ok None
  | matcher :: m' =>
      let? match_ := Match matcher role condition in
      if match_ : bool then Ok (Some matcher) else MatchAny m' role condition
  end.

(** [RoleMatchers.AnyOf] *)
Definition AnyOf (m : list RoleMatcher) : RoleMatcher :=
  RoleMatcherFunc (fun r cond => let? matched := MatchAny m r cond in Ok (bool_decide (is_Some matched))).
End Matchers.
