(* ===== verification/CheckAccess.v ===== *)
(** * The access decision: [RoleSet.checkAccess] and the SAML variant

    The decision over a set of roles, the state of the attempt (is
    multi-factor authentication required, was it done, is the device
    trusted) and the implicit role every set carries. *)

From S2P Require Import Prelude GoStrings Utf8 Types Regexp Roles RoleLimits RoleAccess.

(** ** The implicit role *)

(** [RO] and [ReadNoSecrets] *)
Definition RO : list string := [VerbList; VerbRead].
Definition ReadNoSecrets : list string := [VerbList; VerbReadNoSecrets].

Definition DefaultImplicitRules : list Rule :=
  [ NewRule KindNode RO; NewRule "proxy" RO; NewRule "auth_server" RO; NewRule "tunnel" RO;
    NewRule "cert_authority" ReadNoSecrets; NewRule "cluster_auth_preference" RO;
    NewRule "cluster_name" RO; NewRule "ssh_session" RO; NewRule KindAppServer RO;
    NewRule KindRemoteCluster RO; NewRule KindKubeServer RO; NewRule KindDatabaseServer RO;
    NewRule KindDatabase RO; NewRule KindApp RO; NewRule KindWindowsDesktopService RO;
    NewRule KindWindowsDesktop RO; NewRule KindDynamicWindowsDesktop RO; NewRule KindLinuxDesktop RO;
    NewRule KindKubernetesCluster RO; NewRule "usage_event" ["create"]; NewRule "vnet_config" RO;
    NewRule "spiffe_federation" RO; NewRule KindSAMLIdPServiceProvider RO;
    NewRule "aws_identity_center" RO; NewRule KindGitServer RO ].

Definition MaxDuration : duration := 2 ^ 63 - 1.

Definition implicit_options : RoleOptions := {|
  ro_ForwardAgent := false; ro_MaxSessionTTL := MaxDuration; ro_PortForwarding := None;
  ro_CertificateFormat := ""; ro_ClientIdleTimeout := 0; ro_DisconnectExpiredCert := false;
  ro_BPF := []; ro_PermitX11Forwarding := false; ro_MaxConnections := 0; ro_MaxSessions := 0;
  ro_Lock := "";
  ro_RecordSession := Some {| rec_Desktop := Some false; rec_Default := ""; rec_SSH := "" |};
  ro_DesktopClipboard := None; ro_MaxKubernetesConnections := 0; ro_DesktopDirectorySharing := None;
  ro_CreateHostUser := None; ro_PinSourceIP := false; ro_SSHFileCopy := None;
  ro_RequireMFAType := RequireMFAType_OFF; ro_DeviceTrustMode := ""; ro_IDP := None;
  ro_CreateDesktopUser := None; ro_CreateDatabaseUser := None;
  ro_CreateHostUserMode := HOST_USER_MODE_UNSPECIFIED;
  ro_CreateDatabaseUserMode := DB_USER_MODE_UNSPECIFIED; ro_MFAVerificationInterval := 0;
  ro_CreateHostUserDefaultShell := ""; ro_SSHPortForwarding := None;
  ro_WebTerminalClipboardMode := CLIPBOARD_MODE_UNSPECIFIED;
  ro_RequestAccess := ""; ro_RequestPrompt := "" |}.

(** The allow conditions of the implicit role: the default namespace and the
    rules, and nothing else. *)
Definition implicit_conditions (rules : list Rule) : RoleConditions := {|
  rc_Logins := []; rc_Namespaces := [DefaultNamespace]; rc_NodeLabels := ∅; rc_Rules := rules;
  rc_KubeGroups := []; rc_KubeUsers := []; rc_AppLabels := ∅; rc_ClusterLabels := ∅;
  rc_KubernetesLabels := ∅; rc_DatabaseLabels := ∅; rc_DatabaseNames := [];
  rc_DatabaseUsers := []; rc_Impersonate := None; rc_AWSRoleARNs := [];
  rc_WindowsDesktopLogins := []; rc_WindowsDesktopLabels := ∅; rc_RequireSessionJoin := []; rc_JoinSessions := [];
  rc_HostGroups := []; rc_HostSudoers := []; rc_AzureIdentities := [];
  rc_GCPServiceAccounts := []; rc_DatabaseServiceLabels := ∅; rc_GroupLabels := ∅;
  rc_DesktopGroups := []; rc_DatabaseRoles := []; rc_NodeLabelsExpression := "";
  rc_AppLabelsExpression := ""; rc_ClusterLabelsExpression := "";
  rc_KubernetesLabelsExpression := ""; rc_DatabaseLabelsExpression := "";
  rc_DatabaseServiceLabelsExpression := ""; rc_WindowsDesktopLabelsExpression := "";
  rc_GroupLabelsExpression := ""; rc_SPIFFE := []; rc_AccountAssignments := [];
  rc_GitHubPermissions := []; rc_WorkloadIdentityLabels := ∅;
  rc_WorkloadIdentityLabelsExpression := ""; rc_MCP := None; rc_LinuxDesktopLogins := [];
  rc_LinuxDesktopLabels := ∅; rc_LinuxDesktopLabelsExpression := ""; rc_BeamLabels := ∅;
  rc_BeamLabelsExpression := ""; rc_KubernetesResources := []; rc_Request := None; rc_ReviewRequests := None |}.

Definition newImplicitRole (rules : list Rule) : RoleV6 :=
  {| role_Kind := KindRole; role_Version := V3; role_Name := DefaultImplicitRole;
     role_Options := implicit_options; role_Allow := implicit_conditions rules;
     role_Deny := no_conditions |}.

Definition NewImplicitRole : RoleV6 := newImplicitRole DefaultImplicitRules.

Definition RoleNop := "Nop".

Definition NewRoleSet (roles : list RoleV6) : RoleSet :=
  match roles with
  | [r] => if bool_decide (GetName r = RoleNop) then roles else (roles ++ [NewImplicitRole])%list
  | _ => (roles ++ [NewImplicitRole])%list
  end.

(** ** Trusted devices: [lib/devicetrust/authz] *)

Definition DeviceTrustModeOff := "off".
Definition DeviceTrustModeOptional := "optional".
Definition DeviceTrustModeRequired := "required".
Definition DeviceTrustModeRequiredForHumans := "required-for-humans".

Definition ErrTrustedDeviceRequired : error :=
  AccessDenied "access to resource requires a trusted device" [].

Definition VerifyTrustedDeviceMode (enforcementMode : string) (isTrustedDevice isBot allowEmptyMode : bool)
  : result unit :=
  if bool_decide (enforcementMode = "") && allowEmptyMode then Ok tt
  else
    let? required :=
      if bool_decide (enforcementMode = DeviceTrustModeOff)
         || bool_decide (enforcementMode = DeviceTrustModeOptional) then Ok false
      else if bool_decide (enforcementMode = DeviceTrustModeRequiredForHumans) then Ok (negb isBot)
      else if bool_decide (enforcementMode = DeviceTrustModeRequired) then Ok true
      else Err ErrTrustedDeviceRequired in
    fail_if required && negb isTrustedDevice with ErrTrustedDeviceRequired;
    Ok tt.

(** [IsTLSDeviceVerified], on the three device extensions *)
Definition IsTLSDeviceVerified (ext : option (string * string * string)) : bool :=
  match ext with
  | None => false
  | Some (deviceID, assetTag, credentialID) =>
      negb (bool_decide (deviceID = "")) && negb (bool_decide (assetTag = ""))
      && negb (bool_decide (credentialID = ""))
  end.

(** ** The state of an attempt *)

Record AccessState := {
  as_MFARequired : MFARequired;
  as_MFAVerified : bool;
  as_EnableDeviceVerification : bool;
  as_DeviceVerified : bool;
  as_IsBot : bool;
  as_ReturnPreconditions : bool;
}.

(** [RoleSet.GetAccessState] *)
Definition GetAccessState (clusterRequireMFAType : RequireMFAType) (set : RoleSet) : AccessState :=
  {| as_MFARequired := getMFARequired clusterRequireMFAType set; as_MFAVerified := false;
     as_EnableDeviceVerification := false; as_DeviceVerified := false; as_IsBot := false;
     as_ReturnPreconditions := false |}.

(** [AccessState{MFAVerified: true}] *)
Definition mfa_verified_state : AccessState :=
  {| as_MFARequired := ""; as_MFAVerified := true; as_EnableDeviceVerification := false;
     as_DeviceVerified := false; as_IsBot := false; as_ReturnPreconditions := false |}.

(** [AccessStateFromTLSIdentity], on what it reads of the identity *)
Definition AccessStateFromTLSIdentity (mfaVerified privateKeyPolicy : string)
    (deviceExtensions : option (string * string * string)) (isBot : bool)
    (clusterRequireMFAType : RequireMFAType) (set : RoleSet) : AccessState :=
  {| as_MFARequired := getMFARequired clusterRequireMFAType set;
     as_MFAVerified := negb (bool_decide (mfaVerified = "")) || MFAVerified privateKeyPolicy;
     as_EnableDeviceVerification := true;
     as_DeviceVerified := IsTLSDeviceVerified deviceExtensions;
     as_IsBot := isBot;
     as_ReturnPreconditions := false |}.

(** The two fields the callers set. *)
Definition set_ReturnPreconditions (b : bool) (s : AccessState) : AccessState :=
  {| as_MFARequired := as_MFARequired s; as_MFAVerified := as_MFAVerified s;
     as_EnableDeviceVerification := as_EnableDeviceVerification s;
     as_DeviceVerified := as_DeviceVerified s; as_IsBot := as_IsBot s; as_ReturnPreconditions := b |}.
Definition set_MFAVerified (b : bool) (s : AccessState) : AccessState :=
  {| as_MFARequired := as_MFARequired s; as_MFAVerified := b;
     as_EnableDeviceVerification := as_EnableDeviceVerification s;
     as_DeviceVerified := as_DeviceVerified s; as_IsBot := as_IsBot s;
     as_ReturnPreconditions := as_ReturnPreconditions s |}.

Definition ErrSessionMFARequired : error := AccessDenied "access to resource requires MFA" [].

(** ** The decision *)

(** A precondition is its kind; the code makes one kind. *)
Definition Precondition := Z.
Definition PRECONDITION_KIND_IN_BAND_MFA : Precondition := 1.

(** [os.Getenv], read by the checks for one variable *)
Class Environment := Getenv : string -> string.
Definition EnvVarUnstableForceInBandMFA := "TELEPORT_UNSTABLE_FORCE_IN_BAND_MFA".
Definition forceInBandMFA `{Environment} : bool :=
  bool_decide (Getenv EnvVarUnstableForceInBandMFA = "yes").

(** [slices.CompactFunc] by kind: drop what repeats its predecessor *)
Fixpoint compact (l : list Precondition) : list Precondition :=
  match l with
  | [] => []
  | x :: l' =>
      match l' with
      | y :: _ => if x =? y then compact l' else x :: compact l'
      | [] => [x]
      end
  end.

Definition deduplicateAndSortPreconditions (preconds : list Precondition) : list Precondition :=
  merge_sort Z.le (compact preconds).

Definition resourceRequiresLabelMatching (r : AccessCheckable) : bool :=
  if bool_decide (res_Kind r = KindIdentityCenterAccount)
     || bool_decide (res_Kind r = KindIdentityCenterAccountAssignment) then false
  else if bool_decide (res_Kind r = KindApp) || bool_decide (res_Kind r = KindAppServer) then
    negb (bool_decide (res_SubKind r = KindIdentityCenterAccount))
  else true.

Definition additionalDeniedMessage (kind : string) : string :=
  if bool_decide (kind = KindDatabase) then "Confirm database user and name."
  else if bool_decide (kind = KindNode) then "Confirm SSH login."
  else if bool_decide (kind = KindKubernetesCluster) then "Confirm Kubernetes user or group."
  else if bool_decide (kind = KindWindowsDesktop) then "Confirm Windows user."
  else if bool_decide (kind = KindSAMLIdPServiceProvider) then "Confirm app_labels."
  else "".

Definition resourceDenied (r : AccessCheckable) : error :=
  AccessDenied "access to %v denied. User does not have permissions. %v"
    [res_Kind r; additionalDeniedMessage (res_Kind r)].

Section CheckAccess.
Context `{UnicodeTables} `{RegexpCache} `{MapOrder (list string)} `{LabelExpressions} `{Environment}.
Variable r : AccessCheckable.
Variable username : string.
Variable userTraits : traits.
Variable state : AccessState.
Variable matchers : list RoleMatcher.

Definition namespace_of : string := ProcessNamespace (res_Namespace r).

(** The label part of a condition; a resource that needs no labels skips it,
    which refuses nothing and grants nothing. *)
Definition labels_match (condition : RoleConditionType) (role : RoleV6) : result bool :=
  if resourceRequiresLabelMatching r then checkRoleLabelsMatch condition role username userTraits r
  else Ok (bool_decide (condition = Allow)).

Fixpoint deny_rules (set : RoleSet) : result unit :=
  match set with
  | [] => Ok tt
  | role :: set' =>
      if negb (MatchNamespace (GetNamespaces Deny role) namespace_of) then deny_rules set'
      else
        let? matchLabels := labels_match Deny role in
        fail_if matchLabels with resourceDenied r;
        let? matchMatchers := MatchAny matchers role Deny in
        fail_if bool_decide (is_Some matchMatchers) with resourceDenied r;
        deny_rules set'
  end.

Definition bypassMFAChecks : bool :=
  bool_decide (as_MFARequired state = MFARequiredNever)
  || (as_MFAVerified state && (negb forceInBandMFA || negb (as_ReturnPreconditions state))).

Definition deviceTrusted : bool :=
  negb (as_EnableDeviceVerification state) || as_DeviceVerified state.

Fixpoint allow_rules (preconds : list Precondition) (allowed : bool) (set : RoleSet)
  : result (list Precondition) :=
  match set with
  | [] =>
      if allowed then Ok (deduplicateAndSortPreconditions preconds) else Err (resourceDenied r)
  | role :: set' =>
      if negb (MatchNamespace (GetNamespaces Allow role) namespace_of) then
        allow_rules preconds allowed set'
      else
        let? matchLabels := labels_match Allow role in
        if negb matchLabels then allow_rules preconds allowed set' else
        let? matchMatchers := MatchAll matchers role Allow in
        if negb matchMatchers then allow_rules preconds allowed set'
        else if bypassMFAChecks && deviceTrusted then Ok (deduplicateAndSortPreconditions preconds)
        else
          let? preconds :=
            if negb bypassMFAChecks && role_mfa role then
              if negb (as_ReturnPreconditions state) then Err ErrSessionMFARequired
              else Ok (preconds ++ [PRECONDITION_KIND_IN_BAND_MFA])%list
            else Ok preconds in
          check VerifyTrustedDeviceMode (ro_DeviceTrustMode (GetOptions role)) deviceTrusted
                  (as_IsBot state) true;
          allow_rules preconds true set'
  end.

Definition checkAccess (set : RoleSet) : result (list Precondition) :=
  let mfaRequired :=
    bool_decide (as_MFARequired state = MFARequiredAlways)
    && (forceInBandMFA || negb (as_MFAVerified state)) in
  fail_if mfaRequired && negb (as_ReturnPreconditions state) with ErrSessionMFARequired;
  let preconds := if mfaRequired then [PRECONDITION_KIND_IN_BAND_MFA] else [] in
  check deny_rules set;
  allow_rules preconds false set.
End CheckAccess.

Section Decisions.
Context `{UnicodeTables} `{RegexpCache} `{MapOrder (list string)} `{LabelExpressions} `{Environment}.

Definition RoleGrantsResource (role : RoleV6) (r : AccessCheckable) (username : string)
    (userTraits : traits) : bool :=
  is_ok (checkAccess r username userTraits mfa_verified_state [] (NewRoleSet [role])).

Definition checkAccessToSAMLIdPLegacy (state : AccessState) (role : RoleV6) : result unit :=
  fail_if bool_decide (as_MFARequired state = MFARequiredAlways) && negb (as_MFAVerified state)
    with ErrSessionMFARequired;
  let mfaAllowed := as_MFAVerified state || bool_decide (as_MFARequired state = MFARequiredNever) in
  match ro_IDP (GetOptions role) with
  | None => Ok tt
  | Some enabled =>
      fail_if negb enabled
        with AccessDenied "user has been denied access to the SAML IdP by role %s" [GetName role];
      fail_if negb mfaAllowed && role_mfa role with ErrSessionMFARequired;
      Ok tt
  end.

(** The loop over the roles: the legacy ones are checked, the others kept. *)
Fixpoint saml_roles (state : AccessState) (set : RoleSet) : result RoleSet :=
  match set with
  | [] => Ok []
  | role :: set' =>
      if negb (IsLegacySAMLRBAC (role_Version role)) then
        let? v8RoleSet := saml_roles state set' in Ok (role :: v8RoleSet)
      else
        check checkAccessToSAMLIdPLegacy state role;
        saml_roles state set'
  end.

(** [authPref] is whether the cluster enables the SAML IdP, when there is a
    preference. *)
Definition CheckAccessToSAMLIdP (r : AccessCheckable) (username : string) (userTraits : traits)
    (authPref : option bool) (state : AccessState) (matchers : list RoleMatcher) (set : RoleSet)
  : result unit :=
  fail_if bool_decide (authPref = Some false)
    with AccessDenied "SAML IdP is disabled at the cluster level" [];
  fail_if bool_decide (set = [])
    with AccessDenied "access to %v denied. User does not have permissions. %v"
           [res_Kind r; "No roles assigned to user"];
  let? v8RoleSet := saml_roles state set in
  match v8RoleSet with
  | [] => Ok tt
  | _ => check checkAccess r username userTraits state matchers v8RoleSet; Ok tt
  end.
End Decisions.

(** ** Facts about the access decision

    Labels: what a selector matches, whatever the order its map is walked in.
    The decision: an executable specification, a conjunction over the roles,
    that [checkAccess] computes by its two loops. *)

(** The answer of a check that may fail: a failure is not a yes. *)
Definition yes (x : result bool) : bool := match x with Ok b => b | Err _ => false end.

Lemma yes_true x : yes x = true <-> x = Ok true.
Proof. destruct x as [[]|]; naive_solver. Qed.

Lemma is_ok_yes x : is_ok x = true -> x = Ok (yes x).
Proof. by destruct x. Qed.

#[export] Hint Rewrite yes_true : go_simpl.

Lemma labels_size (l : Labels) : size l = 0%nat <-> l = ∅.
Proof. apply map_size_empty_iff. Qed.

(** ** Labels *)

Section Labels.
Context `{RegexpCache} `{MapOrderLaws (list string)} `{LabelExpressions}.

Lemma SliceMatchesRegex_true input expressions :
  SliceMatchesRegex input expressions = Ok true ->
  exists e, e ∈ expressions /\ MatchString input e = Ok true.
Proof.
  induction expressions as [|e l IH]; simpl; [done|].
  destruct (MatchString input e) as [[]|] eqn:E; [|set_solver..].
  intros _. exists e. split; [left|done].
Qed.

Lemma SliceMatchesRegex_spec input expressions :
  (forall e, e ∈ expressions -> is_ok (MatchString input e) = true) ->
  SliceMatchesRegex input expressions = Ok (existsb (fun e => yes (MatchString input e)) expressions).
Proof.
  induction expressions as [|e l IH]; simpl; intros He; [done|].
  destruct (MatchString input e) as [[]|] eqn:E; simpl; [done| |].
  - apply IH. intros e' ?. apply He. by right.
  - specialize (He e ltac:(left)). by rewrite E in He.
Qed.

(** One entry of a selector against the labels of a resource. *)
Definition entry_matches (labelGetter : LabelGetter) (entry : string * list string) : result bool :=
  match GetLabel labelGetter entry.1 with
  | None => Ok false
  | Some targetVal =>
      if slices_Contains entry.2 Wildcard then Ok true else SliceMatchesRegex targetVal entry.2
  end.

Lemma match_entries_cons g entry entries :
  match_entries g (entry :: entries) =
  let? b := entry_matches g entry in if b : bool then match_entries g entries else Ok false.
Proof.
  destruct entry as [k vs]. unfold entry_matches. simpl. destruct (GetLabel g k); [|done].
  destruct (slices_Contains vs Wildcard); simpl; [done|].
  by destruct (SliceMatchesRegex _ vs) as [[]|].
Qed.

Lemma match_entries_true g entries :
  match_entries g entries = Ok true <-> forall entry, entry ∈ entries -> entry_matches g entry = Ok true.
Proof.
  induction entries as [|entry entries IH]; [set_solver|].
  rewrite match_entries_cons. split.
  - destruct (entry_matches g entry) as [[]|] eqn:E; simpl; [|done..].
    rewrite IH. intros He entry' [->|?]%elem_of_cons; auto.
  - intros He. rewrite (He entry) by left. simpl. apply IH. intros ? ?. apply He. by right.
Qed.

Lemma match_entries_spec g entries :
  (forall entry, entry ∈ entries -> is_ok (entry_matches g entry) = true) ->
  match_entries g entries = Ok (forallb (fun entry => yes (entry_matches g entry)) entries).
Proof.
  induction entries as [|entry entries IH]; intros He; [done|]. rewrite match_entries_cons.
  simpl. rewrite (is_ok_yes (entry_matches g entry)) at 1 by (apply He; left). simpl.
  destruct (yes (entry_matches g entry)); simpl; [|done]. apply IH. intros ? ?. apply He. by right.
Qed.

Definition is_wildcard (selector : Labels) : bool :=
  bool_decide (default [] (selector !! Wildcard) = [Wildcard]).

(** A selector matches exactly when it is not empty and is the wildcard, or
    every entry matches; the order the map is walked in plays no part. *)
Lemma MatchLabelGetter_true selector g :
  MatchLabelGetter selector g = Ok true <->
  selector <> ∅ /\ (is_wildcard selector = true \/
    forall k vs, selector !! k = Some vs -> entry_matches g (k, vs) = Ok true).
Proof.
  unfold MatchLabelGetter, is_wildcard. case_bool_decide as Es.
  { apply labels_size in Es. naive_solver. }
  rewrite labels_size in Es. case_bool_decide as Ew; [naive_solver|].
  rewrite match_entries_true. split.
  - intros He. split; [done|]. right. intros k vs E. apply He. by rewrite elem_of_range.
  - intros [_ [|He]]; [done|]. intros [k vs] ?%elem_of_range. by apply He.
Qed.

(** Without expressions that do not compile, a selector always answers. *)
Definition selector_compiles (selector : Labels) (g : LabelGetter) : Prop :=
  forall k vs, selector !! k = Some vs -> is_ok (entry_matches g (k, vs)) = true.

Lemma MatchLabelGetter_ok selector g :
  selector_compiles selector g -> is_ok (MatchLabelGetter selector g) = true.
Proof.
  intros Hc. unfold MatchLabelGetter. case_bool_decide; [done|]. case_bool_decide; [done|].
  rewrite match_entries_spec; [done|]. intros [k vs] ?%elem_of_range. by apply Hc.
Qed.

(** ** Labels and the expression together *)

Lemma LabelMatchers_Empty_true l :
  LabelMatchers_Empty l = true <-> lm_Labels l = ∅ /\ lm_Expression l = "".
Proof.
  unfold LabelMatchers_Empty. rewrite andb_true_iff, !bool_decide_eq_true.
  by rewrite labels_size.
Qed.

Lemma CheckLabelsMatch_empty condition username ts g l :
  LabelMatchers_Empty l = true -> CheckLabelsMatch condition l username ts g = Ok false.
Proof. unfold CheckLabelsMatch. by intros ->. Qed.

(** An allow condition matches when what it sets, labels or expression or
    both, matches in full. *)
Lemma CheckLabelsMatch_allow username ts g l :
  CheckLabelsMatch Allow l username ts g = Ok true <->
  LabelMatchers_Empty l = false /\
  (lm_Labels l = ∅ \/ MatchLabelGetter (lm_Labels l) g = Ok true) /\
  (lm_Expression l = "" \/ evaluateLabelExpression (lm_Expression l) g username ts = Ok true).
Proof.
  unfold CheckLabelsMatch. destruct (LabelMatchers_Empty l) eqn:Ee; [naive_solver|]. simpl.
  case_bool_decide as Es; rewrite labels_size in Es; simpl.
  - case_bool_decide as Ex; simpl.
    + assert (LabelMatchers_Empty l = true) by by rewrite LabelMatchers_Empty_true. congruence.
    + destruct (evaluateLabelExpression _ g username ts) as [[]|]; naive_solver.
  - destruct (MatchLabelGetter (lm_Labels l) g) as [b|]; simpl; [|naive_solver].
    case_bool_decide as Ex; simpl; [destruct b; naive_solver|].
    destruct (evaluateLabelExpression _ g username ts) as [[]|], b; naive_solver.
Qed.

(** A deny condition matches when either does. *)
Lemma CheckLabelsMatch_deny username ts g l :
  is_ok (CheckLabelsMatch Deny l username ts g) = true ->
  CheckLabelsMatch Deny l username ts g = Ok true <->
  MatchLabelGetter (lm_Labels l) g = Ok true \/
  (lm_Expression l <> "" /\ evaluateLabelExpression (lm_Expression l) g username ts = Ok true).
Proof.
  unfold CheckLabelsMatch. destruct (LabelMatchers_Empty l) eqn:Ee.
  { apply LabelMatchers_Empty_true in Ee as [El Ex]. intros _. split; [done|].
    rewrite El, Ex. intros [Hm|[]]; [|done]. by rewrite MatchLabelGetter_true in Hm; destruct Hm. }
  simpl. case_bool_decide as Es; rewrite labels_size in Es; simpl.
  - rewrite Es. replace (MatchLabelGetter ∅ g) with (Ok false : result bool) by done.
    case_bool_decide as Ex; simpl.
    + assert (LabelMatchers_Empty l = true) by by rewrite LabelMatchers_Empty_true. congruence.
    + destruct (evaluateLabelExpression _ g username ts) as [[]|]; naive_solver.
  - destruct (MatchLabelGetter (lm_Labels l) g) as [b|]; simpl; [|done].
    destruct b; simpl; [naive_solver|]. case_bool_decide as Ex; simpl; [naive_solver|].
    destruct (evaluateLabelExpression _ g username ts) as [[]|]; naive_solver.
Qed.
End Labels.
