(* ===== verification/DecisionFacts.v ===== *)
(** * The access decision as a specification

    Whether a role denies, grants and has its requirements met are three
    executable predicates; the decision over a set of roles is the
    conjunction [decision].  [checkAccess] is shown to compute it, and what it
    returns is shown to be what is missing. *)

From S2P Require Import Prelude GoStrings Utf8 Types Regexp Roles RoleLimits RoleAccess CheckAccess.

(** ** Preconditions *)

Definition only_mfa : list Precondition -> Prop := Forall (.= PRECONDITION_KIND_IN_BAND_MFA).

Lemma dedup_only_mfa l :
  only_mfa l ->
  deduplicateAndSortPreconditions l = if decide (l = []) then [] else [PRECONDITION_KIND_IN_BAND_MFA].
Proof.
  intros Hl. unfold deduplicateAndSortPreconditions.
  assert (compact l = if decide (l = []) then [] else [PRECONDITION_KIND_IN_BAND_MFA]) as ->.
  { induction Hl as [|x l -> Hl IH]; [done|]. cbn [compact]. destruct l as [|y l]; [done|].
    apply Forall_inv in Hl as ->. rewrite Z.eqb_refl. exact IH. }
  by destruct (decide (l = [])).
Qed.

Section Matchers.
Context `{UnicodeTables} `{RegexpCache} `{MapOrder (list string)} `{LabelExpressions}.

Lemma MatchAll_true m role c :
  MatchAll m role c = Ok true <-> forall x, x ∈ m -> Match x role c = Ok true.
Proof.
  induction m as [|x m IH]; simpl; [set_solver|]. split.
  - destruct (Match x role c) as [[]|] eqn:E; simpl; [|done..]. rewrite IH.
    intros Hm y [->|?]%elem_of_cons; auto.
  - intros Hm. rewrite (Hm x) by left. simpl. apply IH. intros y ?. apply Hm. by right.
Qed.

Lemma MatchAny_none m role c :
  MatchAny m role c = Ok None <-> forall x, x ∈ m -> Match x role c = Ok false.
Proof.
  induction m as [|x m IH]; simpl; [set_solver|]. split.
  - destruct (Match x role c) as [[]|] eqn:E; simpl; [done| |done]. rewrite IH.
    intros Hm y [->|?]%elem_of_cons; auto.
  - intros Hm. rewrite (Hm x) by left. simpl. apply IH. intros y ?. apply Hm. by right.
Qed.

Lemma MatchAll_spec m role c :
  (forall x, x ∈ m -> is_ok (Match x role c) = true) ->
  MatchAll m role c = Ok (forallb (fun x => yes (Match x role c)) m).
Proof.
  induction m as [|x m IH]; simpl; intros Hm; [done|].
  destruct (Match x role c) as [b|e] eqn:E; [|by specialize (Hm x ltac:(left)); rewrite E in Hm].
  simpl. destruct b; simpl; [|done]. apply IH. intros ? ?. apply Hm. by right.
Qed.

Lemma MatchAny_spec m role c :
  (forall x, x ∈ m -> is_ok (Match x role c) = true) ->
  exists o, MatchAny m role c = Ok o /\
    bool_decide (is_Some o) = existsb (fun x => yes (Match x role c)) m.
Proof.
  induction m as [|x m IH]; simpl; intros Hm; [by exists None|].
  destruct (Match x role c) as [b|e] eqn:E; [|by specialize (Hm x ltac:(left)); rewrite E in Hm].
  simpl. destruct b; simpl; [by exists (Some x)|]. apply IH. intros ? ?. apply Hm. by right.
Qed.
End Matchers.

Section Decision.
Context `{UnicodeTables} `{RegexpCache} `{MapOrder (list string)} `{LabelExpressions} `{Environment}.
Variable r : AccessCheckable.
Variable username : string.
Variable userTraits : traits.
Variable state : AccessState.
Variable matchers : list RoleMatcher.

#[local] Abbreviation labels := (labels_match r username userTraits).
#[local] Abbreviation deny := (deny_rules r username userTraits matchers).
#[local] Abbreviation allow := (allow_rules r username userTraits state matchers).
#[local] Abbreviation check_access := (checkAccess r username userTraits state matchers).
#[local] Abbreviation bypass := (bypassMFAChecks state).
#[local] Abbreviation trusted := (deviceTrusted state).

Definition denies (role : RoleV6) : bool :=
  MatchNamespace (GetNamespaces Deny role) (namespace_of r) &&
  (yes (labels Deny role) || existsb (fun m => yes (Match m role Deny)) matchers).

Definition grants (role : RoleV6) : bool :=
  MatchNamespace (GetNamespaces Allow role) (namespace_of r) &&
  yes (labels Allow role) && forallb (fun m => yes (Match m role Allow)) matchers.

Definition device_allowed (role : RoleV6) : bool :=
  is_ok (VerifyTrustedDeviceMode (ro_DeviceTrustMode (GetOptions role)) trusted (as_IsBot state) true).

(** Multi-factor authentication is missing for a role that requires it;
    asking for preconditions turns that into an answer. *)
Definition mfa_missing (role : RoleV6) : bool := negb bypass && role_mfa role.

Definition requirements_met (role : RoleV6) : bool :=
  (negb (mfa_missing role) || as_ReturnPreconditions state) && device_allowed role.

Definition cluster_mfa_missing : bool :=
  bool_decide (as_MFARequired state = MFARequiredAlways) && (forceInBandMFA || negb (as_MFAVerified state)).

Definition decision (set : RoleSet) : bool :=
  (negb cluster_mfa_missing || as_ReturnPreconditions state)
  && negb (existsb denies set)
  && existsb grants set
  && ((bypass && trusted) || forallb (fun role => negb (grants role) || requirements_met role) set).

(** Nothing that is asked of a role fails: its selectors compile, its
    expressions evaluate. *)
Definition evaluates (role : RoleV6) : Prop :=
  forall c, is_ok (labels c role) = true /\ forall m, m ∈ matchers -> is_ok (Match m role c) = true.

(** ** The deny loop *)

(** One role passes the deny loop. *)
Definition passes_deny (role : RoleV6) : Prop :=
  MatchNamespace (GetNamespaces Deny role) (namespace_of r) = true ->
  labels Deny role = Ok false /\ MatchAny matchers role Deny = Ok None.

Lemma deny_rules_ok set : deny set = Ok tt <-> Forall passes_deny set.
Proof.
  unfold passes_deny. induction set as [|role set IH]; simpl; [by split|].
  rewrite Forall_cons, <- IH.
  destruct (MatchNamespace (GetNamespaces Deny role) _); simpl; [|intuition discriminate].
  destruct (labels Deny role) as [[]|]; simpl; [intuition discriminate| |intuition discriminate].
  destruct (MatchAny matchers role Deny) as [[]|]; simpl; intuition discriminate.
Qed.

Lemma passes_deny_denies role : passes_deny role -> denies role = false.
Proof.
  unfold passes_deny, denies. destruct (MatchNamespace _ _); [|done]. intros [El Em]; [done|].
  rewrite El. simpl. apply existsb_elem_false. intros m Hm.
  rewrite (proj1 (MatchAny_none _ _ _) Em m Hm). done.
Qed.

Lemma denies_passes_deny role : evaluates role -> denies role = false -> passes_deny role.
Proof.
  intros He Hd Hn. unfold denies in Hd. rewrite Hn in Hd. simpl in Hd.
  apply orb_false_iff in Hd as [Hl Hm]. destruct (He Deny) as [Hol Hom]. split.
  - by rewrite (is_ok_yes (labels Deny role)), Hl.
  - apply MatchAny_none. intros m Hin. rewrite existsb_elem_false in Hm.
    by rewrite (is_ok_yes (Match m role Deny)), Hm by auto.
Qed.

Lemma deny_rules_unit set u : deny set = Ok u -> deny set = Ok tt.
Proof. by destruct u. Qed.

(** ** The allow loop *)

(** Whether a role takes part in the allow loop. *)
Definition allow_match (role : RoleV6) : result bool :=
  if negb (MatchNamespace (GetNamespaces Allow role) (namespace_of r)) then Ok false
  else
    let? matchLabels := labels Allow role in
    if negb matchLabels then Ok false else MatchAll matchers role Allow.

Lemma allow_match_true role : allow_match role = Ok true <-> grants role = true.
Proof.
  unfold allow_match, grants. destruct (MatchNamespace (GetNamespaces Allow role) _); simpl; [|done].
  destruct (labels Allow role) as [[]|]; simpl; [|done..]. rewrite MatchAll_true, forallb_elem.
  setoid_rewrite yes_true. done.
Qed.

Lemma allow_match_ok role : evaluates role -> allow_match role = Ok (grants role).
Proof.
  intros He. destruct (He Allow) as [Hl Hm]. unfold allow_match, grants.
  destruct (MatchNamespace (GetNamespaces Allow role) _); simpl; [|done].
  destruct (labels Allow role) as [[]|]; simpl; [|done..]. by apply MatchAll_spec.
Qed.

(** One round of the loop, in terms of the two predicates. *)
Lemma allow_rules_cons preconds allowed role set :
  allow preconds allowed (role :: set) =
  let? b := allow_match role in
  if negb b then allow preconds allowed set
  else if bypass && trusted then Ok (deduplicateAndSortPreconditions preconds)
  else if mfa_missing role && negb (as_ReturnPreconditions state) then Err ErrSessionMFARequired
  else check VerifyTrustedDeviceMode (ro_DeviceTrustMode (GetOptions role)) trusted (as_IsBot state) true;
    allow (if mfa_missing role then preconds ++ [PRECONDITION_KIND_IN_BAND_MFA] else preconds)%list true set.
Proof.
  unfold allow_match, mfa_missing. cbn [allow_rules].
  destruct (MatchNamespace (GetNamespaces Allow role) _); simpl; [|done].
  destruct (labels Allow role) as [[]|]; simpl; [|done..].
  destruct (MatchAll matchers role Allow) as [[]|]; simpl; [|done..].
  destruct (bypass && trusted); simpl; [done|].
  destruct (negb bypass && role_mfa role); simpl; [|done].
  by destruct (as_ReturnPreconditions state).
Qed.

Lemma allow_rules_bypass preconds allowed set :
  bypass && trusted = true -> (forall role, role ∈ set -> evaluates role) ->
  is_ok (allow preconds allowed set) = allowed || existsb grants set.
Proof.
  intros Hb. revert preconds allowed. induction set as [|role set IH]; intros preconds allowed He.
  - simpl. by destruct allowed.
  - rewrite allow_rules_cons, allow_match_ok by (apply He; left). simpl.
    destruct (grants role); simpl.
    + rewrite Hb. by rewrite orb_true_r.
    + apply IH. intros ? ?. apply He. by right.
Qed.

Lemma allow_rules_all preconds allowed set :
  bypass && trusted = false -> (forall role, role ∈ set -> evaluates role) ->
  is_ok (allow preconds allowed set) =
  (allowed || existsb grants set) && forallb (fun role => negb (grants role) || requirements_met role) set.
Proof.
  intros Hb. revert preconds allowed. induction set as [|role set IH]; intros preconds allowed He.
  - simpl. by destruct allowed.
  - rewrite allow_rules_cons, allow_match_ok by (apply He; left). simpl.
    assert (He' : forall role, role ∈ set -> evaluates role) by (intros ? ?; apply He; by right).
    destruct (grants role); simpl; [|by apply IH].
    rewrite Hb, orb_true_r. simpl.
    assert (requirements_met role = (negb (mfa_missing role) || as_ReturnPreconditions state) &&
      is_ok (VerifyTrustedDeviceMode (ro_DeviceTrustMode (GetOptions role)) trusted (as_IsBot state) true))
      as -> by done.
    destruct (mfa_missing role), (as_ReturnPreconditions state) eqn:Er; simpl; try done;
      (destruct (VerifyTrustedDeviceMode _ _ _ _); simpl; [by rewrite IH|done]).
Qed.

(** ** The decision *)

Lemma checkAccess_unfold set :
  check_access set =
  if cluster_mfa_missing && negb (as_ReturnPreconditions state) then Err ErrSessionMFARequired
  else check deny set; allow (if cluster_mfa_missing then [PRECONDITION_KIND_IN_BAND_MFA] else []) false set.
Proof. done. Qed.

Lemma deny_rules_decides set :
  (forall role, role ∈ set -> evaluates role) -> is_ok (deny set) = negb (existsb denies set).
Proof.
  intros He. destruct (existsb denies set) eqn:E; simpl.
  - apply existsb_elem in E as (role & Hin & Hd). destruct (deny set) as [u|] eqn:Ed; [|done].
    apply deny_rules_unit, deny_rules_ok in Ed. rewrite Forall_forall in Ed.
    rewrite (passes_deny_denies role) in Hd; [done|by apply Ed].
  - apply is_ok_true. exists tt. apply deny_rules_ok, Forall_forall. intros role Hin.
    apply denies_passes_deny; [by apply He|]. rewrite existsb_elem_false in E. by apply E.
Qed.

Lemma checkAccess_decision set :
  (forall role, role ∈ set -> evaluates role) -> is_ok (check_access set) = decision set.
Proof.
  intros He. rewrite checkAccess_unfold. unfold decision.
  replace (negb cluster_mfa_missing || as_ReturnPreconditions state)
    with (negb (cluster_mfa_missing && negb (as_ReturnPreconditions state)))
    by (by destruct cluster_mfa_missing, (as_ReturnPreconditions state)).
  destruct (cluster_mfa_missing && negb (as_ReturnPreconditions state)); simpl; [done|].
  rewrite <- deny_rules_decides by done. destruct (deny set); simpl; [|done].
  destruct (bypass && trusted) eqn:Hb; simpl.
  - rewrite allow_rules_bypass by done. simpl. by rewrite andb_true_r.
  - by rewrite allow_rules_all by done.
Qed.

Lemma decision_order set set' : set ≡ₚ set' -> decision set' = decision set.
Proof.
  intros Hp. unfold decision.
  by rewrite (existsb_perm denies _ _ Hp), (existsb_perm grants _ _ Hp), (forallb_perm _ _ _ Hp).
Qed.

(** Without any assumption: what an access that was given tells. *)
Lemma allow_rules_sound preconds allowed set pc :
  allow preconds allowed set = Ok pc ->
  (allowed = true \/ exists role, role ∈ set /\ grants role = true) /\
  (bypass && trusted = false -> forall role, role ∈ set -> grants role = true -> requirements_met role = true).
Proof.
  revert preconds allowed. induction set as [|role set IH]; intros preconds allowed.
  { simpl. destruct allowed; [|done]. set_solver. }
  rewrite allow_rules_cons. intros E. apply rbind_ok in E as (b & Em & E). destruct b; simpl in E.
  - apply allow_match_true in Em. split; [right; exists role; split; [left|done]|].
    intros Hb. rewrite Hb in E. apply fail_if_ok in E as [Hm E]. apply rbind_ok in E as (u & Ev & E).
    apply IH in E as [_ E]. intros role' [->|Hin]%elem_of_cons Hg; [|by apply E].
    unfold requirements_met, device_allowed. rewrite Ev. simpl.
    by destruct (mfa_missing role), (as_ReturnPreconditions state).
  - apply IH in E as [Ha E]. split.
    + destruct Ha as [|(role' & ? & ?)]; [by left|]. right. exists role'. split; [by right|done].
    + intros Hb role' [->|Hin]%elem_of_cons Hg; [|by apply E].
      apply allow_match_true in Hg. congruence.
Qed.

Lemma checkAccess_sound set pc :
  check_access set = Ok pc ->
  (forall role, role ∈ set -> denies role = false) /\
  (exists role, role ∈ set /\ grants role = true) /\
  (bypass && trusted = false -> forall role, role ∈ set -> grants role = true -> requirements_met role = true).
Proof.
  rewrite checkAccess_unfold. intros E. apply fail_if_ok in E as [_ E]. apply rbind_ok in E as (u & Ed & E).
  apply deny_rules_unit, deny_rules_ok in Ed. rewrite Forall_forall in Ed.
  apply allow_rules_sound in E as [[|Hg] Hr]; [done|]. split; [|done].
  intros role Hin. by apply passes_deny_denies, Ed.
Qed.

(** The one kind of precondition. *)
Lemma allow_rules_preconds preconds allowed set pc :
  only_mfa preconds -> allow preconds allowed set = Ok pc ->
  pc = [] \/ pc = [PRECONDITION_KIND_IN_BAND_MFA].
Proof.
  revert preconds allowed. induction set as [|role set IH]; intros preconds allowed Hp.
  { simpl. destruct allowed; [|done]. rewrite dedup_only_mfa by done. case_decide; naive_solver. }
  rewrite allow_rules_cons. intros E. apply rbind_ok in E as ([] & _ & E); simpl in E; [|by eapply IH].
  destruct (bypass && trusted).
  { rewrite dedup_only_mfa in E by done. destruct (decide (preconds = [])); naive_solver. }
  apply fail_if_ok in E as [_ E]. apply rbind_ok in E as (u & _ & E). eapply IH, E.
  destruct (mfa_missing role); [|done]. apply Forall_app. split; [done|]. by repeat constructor.
Qed.
End Decision.

(** ** Asking for preconditions

    The same attempt with preconditions asked for, without, and once
    multi-factor authentication was done. *)

Section Conditional.
Context `{UnicodeTables} `{RegexpCache} `{MapOrder (list string)} `{LabelExpressions} `{Environment}.
Variable r : AccessCheckable.
Variable username : string.
Variable userTraits : traits.
Variable state : AccessState.
Variable matchers : list RoleMatcher.

#[local] Abbreviation asking := (set_ReturnPreconditions true state).
#[local] Abbreviation plain := (set_ReturnPreconditions false state).
#[local] Abbreviation verified := (set_ReturnPreconditions false (set_MFAVerified true state)).
#[local] Abbreviation allow := (fun s => allow_rules r username userTraits s matchers).

Lemma allow_rules_verified preconds preconds' allowed set pc :
  allow asking preconds allowed set = Ok pc ->
  allow verified preconds' allowed set = Ok (deduplicateAndSortPreconditions preconds').
Proof.
  revert preconds allowed. induction set as [|role set IH]; intros preconds allowed.
  { simpl. by destruct allowed. }
  rewrite !allow_rules_cons. intros E. apply rbind_ok in E as (b & Em & E). rewrite Em. simpl.
  destruct b; simpl in *; [|by eapply IH].
  assert (bypassMFAChecks verified = true) as Hv
    by (unfold bypassMFAChecks; simpl; by rewrite !orb_true_r).
  unfold mfa_missing in E |- *. rewrite Hv. simpl. change (deviceTrusted verified) with (deviceTrusted asking).
  destruct (deviceTrusted asking) eqn:Ht; [done|]. rewrite andb_false_r in E.
  apply fail_if_ok in E as [_ E]. apply rbind_ok in E as (u & Ev & E). rewrite Ev. simpl. eapply IH, E.
Qed.

Lemma allow_rules_keeps preconds allowed set pc :
  only_mfa preconds -> preconds <> [] -> allow asking preconds allowed set = Ok pc -> pc <> [].
Proof.
  revert preconds allowed. induction set as [|role set IH]; intros preconds allowed Hp Hn.
  { simpl. destruct allowed; [|done]. rewrite dedup_only_mfa, decide_False by done. naive_solver. }
  rewrite allow_rules_cons. intros E. apply rbind_ok in E as ([] & _ & E); simpl in E; [|by eapply IH].
  destruct (bypassMFAChecks asking && deviceTrusted asking).
  { rewrite dedup_only_mfa, decide_False in E by done. naive_solver. }
  apply fail_if_ok in E as [_ E]. apply rbind_ok in E as (u & _ & E). eapply IH; [| |exact E].
  - destruct (mfa_missing asking role); [|done]. apply Forall_app. split; [done|]. by repeat constructor.
  - destruct (mfa_missing asking role); [|done]. by destruct preconds.
Qed.

Hypothesis not_forced : forceInBandMFA = false.

Lemma bypass_plain : bypassMFAChecks plain = bypassMFAChecks asking.
Proof. unfold bypassMFAChecks. simpl. by rewrite not_forced. Qed.

Lemma allow_rules_plain allowed set pc :
  allow asking [] allowed set = Ok pc ->
  allow plain [] allowed set = if decide (pc = []) then Ok [] else Err ErrSessionMFARequired.
Proof.
  revert allowed. induction set as [|role set IH]; intros allowed.
  { simpl. destruct allowed; [|done]. intros [= <-]. by rewrite dedup_only_mfa by constructor. }
  rewrite !allow_rules_cons. intros E. apply rbind_ok in E as (b & Em & E). rewrite Em. simpl.
  destruct b; simpl in *; [|by apply IH].
  unfold mfa_missing in E |- *. rewrite bypass_plain. change (deviceTrusted plain) with (deviceTrusted asking).
  change (as_IsBot plain) with (as_IsBot asking).
  destruct (bypassMFAChecks asking && deviceTrusted asking).
  { by injection E as <-. }
  apply fail_if_ok in E as [_ E]. apply rbind_ok in E as (u & Ev & E). rewrite Ev.
  destruct (negb (bypassMFAChecks asking) && role_mfa role); simpl; [|by apply IH].
  rewrite decide_False; [done|]. eapply allow_rules_keeps; [| |exact E]; [by repeat constructor|done].
Qed.

Lemma checkAccess_conditional set pc :
  checkAccess r username userTraits asking matchers set = Ok pc ->
  (pc = [] \/ pc = [PRECONDITION_KIND_IN_BAND_MFA]) /\
  checkAccess r username userTraits plain matchers set =
    (if decide (pc = []) then Ok [] else Err ErrSessionMFARequired) /\
  checkAccess r username userTraits verified matchers set = Ok [].
Proof.
  rewrite !checkAccess_unfold. unfold cluster_mfa_missing.
  change (as_ReturnPreconditions asking) with true. change (as_ReturnPreconditions plain) with false.
  change (as_ReturnPreconditions verified) with false. change (as_MFAVerified verified) with true.
  change (as_MFARequired plain) with (as_MFARequired asking).
  change (as_MFAVerified plain) with (as_MFAVerified asking).
  rewrite not_forced. simpl. rewrite andb_false_r. simpl.
  intros E. apply rbind_ok in E as (u & Ed & E). rewrite Ed. simpl.
  rewrite andb_true_r. split; [|split].
  - eapply allow_rules_preconds, E. destruct (_ && _); by repeat constructor.
  - destruct (bool_decide _ && _); [|by apply allow_rules_plain].
    rewrite decide_False; [done|]. eapply allow_rules_keeps; [| |exact E]; [by repeat constructor|done].
  - rewrite andb_false_r. simpl. eapply (allow_rules_verified _ []), E.
Qed.
End Conditional.

(** ** The implicit role *)

Section Implicit.
Context `{UnicodeTables} `{RegexpCache} `{MapOrderLaws (list string)} `{LabelExpressions} `{Environment}.
Variable r : AccessCheckable.
Variable username : string.
Variable userTraits : traits.
Variable state : AccessState.
Variable matchers : list RoleMatcher.

(** A selector with no values for its key matches nothing. *)
Lemma no_values k g : k <> Wildcard -> MatchLabelGetter {[k := []]} g = Ok false.
Proof.
  intros Hk. unfold MatchLabelGetter. rewrite map_size_singleton, lookup_singleton_ne by done. simpl.
  assert (He : forall entry, entry ∈ range {[k := []]} -> entry_matches g entry = Ok false).
  { intros [k' vs] Hin. apply elem_of_range, lookup_singleton_Some in Hin as [<- <-].
    unfold entry_matches. simpl. by destruct (GetLabel g k). }
  rewrite match_entries_spec by (intros entry Hin; by rewrite He).
  destruct (forallb _ _) eqn:E; [|done]. rewrite forallb_elem in E. specialize (E (k, [])).
  rewrite elem_of_range, lookup_singleton_eq in E.
  rewrite He in E by (by rewrite elem_of_range, lookup_singleton_eq). by specialize (E eq_refl).
Qed.

Lemma implicit_no_labels :
  resourceRequiresLabelMatching r = true ->
  is_ok (GetLabelMatchers Allow (res_Kind r) NewImplicitRole) = true ->
  labels_match r username userTraits Allow NewImplicitRole = Ok false.
Proof.
  intros Hr Hk. unfold labels_match. rewrite Hr. unfold checkRoleLabelsMatch.
  unfold GetLabelMatchers in *. repeat (case_match; [done|]).
  destruct (bool_decide (res_Kind r = KindGitServer)); [|by repeat (case_match; [done|])].
  change (makeGitServerLabelMatchers _) with {| lm_Labels := {[GitHubOrgLabel := []]}; lm_Expression := "" |}.
  simpl rbind. unfold CheckLabelsMatch. cbn [lm_Labels lm_Expression]. by rewrite no_values.
Qed.

Lemma allow_rules_skip preconds allowed set role :
  allow_match r username userTraits matchers role = Ok false ->
  allow_rules r username userTraits state matchers preconds allowed (set ++ [role])%list =
  allow_rules r username userTraits state matchers preconds allowed set.
Proof.
  intros Hr. revert preconds allowed. induction set as [|role' set IH]; intros preconds allowed.
  - simpl app. rewrite allow_rules_cons, Hr. done.
  - simpl app. rewrite !allow_rules_cons.
    destruct (allow_match _ _ _ _ role') as [[]|]; simpl; by rewrite ?IH.
Qed.

Lemma deny_rules_app set set' :
  deny_rules r username userTraits matchers (set ++ set')%list =
  check deny_rules r username userTraits matchers set; deny_rules r username userTraits matchers set'.
Proof.
  induction set as [|role set IH]; [done|]. simpl.
  destruct (negb _); [done|]. destruct (labels_match _ _ _ Deny role) as [[]|]; simpl; [done| |done].
  destruct (MatchAny matchers role Deny) as [o|]; simpl; [|done]. by destruct (bool_decide _).
Qed.

Lemma checkAccess_implicit set :
  resourceRequiresLabelMatching r = true ->
  is_ok (GetLabelMatchers Allow (res_Kind r) NewImplicitRole) = true ->
  checkAccess r username userTraits state matchers (set ++ [NewImplicitRole])%list =
  checkAccess r username userTraits state matchers set.
Proof.
  intros Hr Hk. rewrite !checkAccess_unfold, deny_rules_app. case_match; [done|].
  destruct (deny_rules r username userTraits matchers set) as [[]|]; simpl; [|done].
  rewrite allow_rules_skip; [done|]. unfold allow_match. rewrite implicit_no_labels by done. simpl.
  by case_match.
Qed.
End Implicit.
