(* ===== verification/RoleRules.v ===== *)
(** * Rules: what verbs a set of roles allows on a kind of resource

    The rules of a role are sorted into a set by resource, the most specific
    first; a rule applies when it names the resource or the wildcard, has the
    verb, and its where clause holds.  A single deny rule that applies
    refuses; one allow rule that applies grants.

    The predicate language of where clauses and actions is a third-party
    parser over a context of the caller: a parameter. *)

From S2P Require Import Prelude GoStrings Types Roles RoleLimits RoleAccess.

(** ** Specificity *)

Definition ruleScore (r : Rule) : Z :=
  let score := if slices_Contains (rule_Resources r) Wildcard then -4
               else if bool_decide (length (rule_Resources r) = 1%nat) then 2 else 0 in
  let score := if slices_Contains (rule_Verbs r) Wildcard then score - 2 else score in
  let score := if negb (bool_decide (rule_Where r = "")) then score + 8 else score in
  if negb (bool_decide (rule_Actions r = [])) then score + 8 else score.

Definition CompareRuleScore (r o : Rule) : bool := ruleScore o <? ruleScore r.

(** ** Rule sets *)

(** [RuleSet] *)
#[global] Abbreviation RuleSet := (gmap string (list Rule)).

Definition add_rule (set : RuleSet) (rule : Rule) : RuleSet :=
  foldl (fun set resource => <[resource := (default [] (set !! resource) ++ [rule])%list]> set)
    set (rule_Resources rule).

Section Sets.
Context `{SortSlice Rule}.

(** [sort.Slice] by [CompareRuleScore]: the highest score first *)
Definition MakeRuleSet (rules : list Rule) : RuleSet :=
  sort_by (fun r => - ruleScore r) <$> foldl add_rule (∅ : RuleSet) rules.

(** A parser gives a predicate, or something that is not one. *)
Definition Parser := string -> result (option bool).

Definition matchesWhere (r : Rule) (parser : Parser) : result bool :=
  if bool_decide (rule_Where r = "") then Ok true
  else
    let? ifn := parser (rule_Where r) in
    match ifn with
    | None => Err (BadParameter "invalid predicate type for where expression: %v" [rule_Where r])
    | Some fn => Ok fn
    end.

Fixpoint run_actions (actions : list string) (parser : Parser) : result unit :=
  match actions with
  | [] => Ok tt
  | action :: actions' =>
      let? ifn := parser action in
      match ifn with
      | None => Err (BadParameter "invalid predicate type for action expression: %v" [action])
      | Some _ => run_actions actions' parser
      end
  end.

Definition processActions (r : Rule) (parser : Parser) : result unit :=
  run_actions (rule_Actions r) parser.

(** One of the two loops of [Match]: the rule that applies first, its actions
    run. *)
Fixpoint match_rules (whereParser actionsParser : Parser) (verb : string) (rules : list Rule)
  : result (option Rule) :=
  match rules with
  | [] => Ok None
  | rule :: rules' =>
      let? match_ := matchesWhere rule whereParser in
      if match_ && (HasVerb rule Wildcard || HasVerb rule verb) then
        check processActions rule actionsParser;
        Ok (Some rule)
      else match_rules whereParser actionsParser verb rules'
  end.

(** [RuleSet.Match]; the callers look at the error before the answer, so the
    answer an error of the actions comes with is left out. *)
Definition RuleSet_Match (set : RuleSet) (whereParser actionsParser : Parser) (resource verb : string)
  : result (option Rule) :=
  if bool_decide (size set = 0%nat) then Ok None
  else
    let? o := match_rules whereParser actionsParser verb (default [] (set !! resource)) in
    match o with
    | Some rule => Ok (Some rule)
    | None => match_rules whereParser actionsParser verb (default [] (set !! Wildcard))
    end.

(** ** Access to a rule *)

(** What a [RuleContext] gives: the where parser, with or without the
    [can_view] function, and the actions parser. *)
Record RuleContext := {
  NewWhereParser : bool -> result Parser;
  NewActionsParser : result Parser;
}.

(** A refusal: an error, wrapped by [AccessExplicitlyDenied] or not. *)
Record denial := {
  IsAccessExplicitlyDenied : bool;
  denial_error : error;
}.

Definition ruleDenied (verb resource : string) : error :=
  AccessDenied "access denied to perform action %q on %q" [verb; resource].

(** One of the two loops over the roles: the first role with a rule that
    matches, if any. *)
Fixpoint roles_match (condition : RoleConditionType) (whereParser actionsParser : Parser)
    (namespace resource verb : string) (set : RoleSet) : result (option (RoleV6 * Rule)) :=
  match set with
  | [] => Ok None
  | role :: set' =>
      if MatchNamespace (GetNamespaces condition role) (ProcessNamespace namespace) then
        let? matched := RuleSet_Match (MakeRuleSet (GetRules condition role)) whereParser actionsParser
                          resource verb in
        match matched with
        | Some rule => Ok (Some (role, rule))
        | None => roles_match condition whereParser actionsParser namespace resource verb set'
        end
      else roles_match condition whereParser actionsParser namespace resource verb set'
  end.

(** [None] is access granted. *)
Definition checkAccessToRuleImpl (ctx : RuleContext) (namespace resource verb : string)
    (allowWhere denyWhere : Parser) (set : RoleSet) : option denial :=
  let explicit e := Some {| IsAccessExplicitlyDenied := true; denial_error := e |} in
  match NewActionsParser ctx with
  | Err e => explicit e
  | Ok actionsParser =>
      match roles_match Deny denyWhere actionsParser namespace resource verb set with
      | Err e => explicit e
      | Ok (Some _) => explicit (ruleDenied verb resource)
      | Ok None =>
          match roles_match Allow allowWhere actionsParser namespace resource verb set with
          | Err e => explicit e
          | Ok (Some _) => None
          | Ok None => Some {| IsAccessExplicitlyDenied := false; denial_error := ruleDenied verb resource |}
          end
      end
  end.

(** [boolParser] *)
Definition boolParser (p : bool) : Parser := fun _ => Ok (Some p).

Definition GuessIfAccessIsPossible (ctx : RuleContext) (namespace resource verb : string) (set : RoleSet)
  : option denial :=
  checkAccessToRuleImpl ctx namespace resource verb (boolParser true) (boolParser false) set.

Definition CheckAccessToRule (ctx : RuleContext) (namespace resource verb : string) (set : RoleSet)
  : option denial :=
  match NewWhereParser ctx (bool_decide (resource = KindSession)) with
  | Err e => Some {| IsAccessExplicitlyDenied := false; denial_error := e |}
  | Ok whereParser => checkAccessToRuleImpl ctx namespace resource verb whereParser whereParser set
  end.

(** ** Conditions for a list query *)

(** [WhereExpr], as far as the extraction looks: a boolean literal, a negation
    and the two connectives; any other expression is kept by its text, and
    [Nil] is a side that was never set. *)
Inductive WhereExpr :=
| Literal (b : bool)
| Other (text : string)
| Not (e : WhereExpr)
| And (l r : WhereExpr)
| Or (l r : WhereExpr)
| Nil.

Section Extract.
(** the parser of the subconditions on an identifier; [None] is a value of
    another type *)
Variable parser : string -> result (option WhereExpr).
Variables namespace resource verb : string.

Definition parseWhere (rule : Rule) : result WhereExpr :=
  if bool_decide (rule_Where rule = "") then Ok (Literal true)
  else
    let? out := parser (rule_Where rule) in
    match out with
    | None => Err (BadParameter "invalid type %T when extracting identifier subcondition from %q" [rule_Where rule])
    | Some expr => Ok expr
    end.

(** The rules both loops walk. *)
Definition rules_for (condition : RoleConditionType) (set : RoleSet) : list Rule :=
  set ≫= fun role =>
    if MatchNamespace (GetNamespaces condition role) (ProcessNamespace namespace) then
      filter (fun rule => HasVerb rule verb || HasVerb rule Wildcard)
        (default [] (MakeRuleSet (GetRules condition role) !! resource))
    else [].

(** The deny loop over those rules. *)
Fixpoint deny_conditions (denyCond : option WhereExpr) (rules : list Rule) : result (option WhereExpr) :=
  match rules with
  | [] => Ok denyCond
  | rule :: rules' =>
      let? expr := parseWhere rule in
      match expr with
      | Literal true => Err (ruleDenied verb resource)
      | Literal false => deny_conditions denyCond rules'
      | _ =>
          let negated := Not expr in
          deny_conditions
            (match denyCond with
             | None => Some negated
             | Some c => Some (And c negated)
             end) rules'
      end
  end.

(** The allow loop; [inl] is the early return on a rule that always holds. *)
Fixpoint allow_conditions (allowCond : option WhereExpr) (rules : list Rule)
  : result (unit + option WhereExpr) :=
  match rules with
  | [] => Ok (inr allowCond)
  | rule :: rules' =>
      let? expr := parseWhere rule in
      match expr with
      | Literal true => Ok (inl tt)
      | Literal false => allow_conditions allowCond rules'
      | _ =>
          allow_conditions
            (match allowCond with
             | None => Some expr
             | Some c => Some (Or c expr)
             end) rules'
      end
  end.

Definition ExtractCondition (set : RoleSet) : result (option WhereExpr) :=
  let? denyCond := deny_conditions None (rules_for Deny set) in
  let? allowed := allow_conditions None (rules_for Allow set) in
  match allowed with
  | inl _ => Ok denyCond
  | inr allowCond =>
      match denyCond with
      | None => match allowCond with
                | None => Err (ruleDenied verb resource)
                | Some c => Ok (Some c)
                end
      | Some denied => Ok (Some (And denied (default Nil allowCond)))
      end
  end.
End Extract.

(** [newParser] is [newParserForIdentifierSubcondition] of the context. *)
Definition ExtractConditionForIdentifier (newParser : result (string -> result (option WhereExpr)))
    (namespace resource verb : string) (set : RoleSet) : result (option WhereExpr) :=
  let? parser := newParser in
  ExtractCondition parser namespace resource verb set.
End Sets.
