(* ===== verification/RuleFacts.v ===== *)
(** * Facts about rules

    What a rule set holds for a resource, which rule a match finds, and the
    two decisions over the roles as conjunctions. *)

From S2P Require Import Prelude GoStrings Types Roles RoleLimits RoleAccess CheckAccess RoleRules.

(** ** Rule sets *)

Definition bucket (set : RuleSet) (resource : string) : list Rule := default [] (set !! resource).

Lemma bucket_insert set resource resource' (rules : list Rule) :
  bucket (<[resource := rules]> set) resource' =
  if decide (resource' = resource) then rules else bucket set resource'.
Proof.
  unfold bucket. destruct (decide (resource' = resource)) as [->|].
  - by rewrite lookup_insert_eq.
  - by rewrite lookup_insert_ne by done.
Qed.

Lemma elem_of_add_resources resources set resource rule x :
  x ∈ bucket (foldl (fun set res => <[res := (default [] (set !! res) ++ [rule])%list]> set) set resources) resource
  <-> x ∈ bucket set resource \/ (x = rule /\ resource ∈ resources).
Proof.
  revert set. induction resources as [|res resources IH]; intros set; simpl; [set_solver|].
  rewrite IH, bucket_insert. destruct (decide (resource = res)) as [->|]; [|set_solver].
  fold (bucket set res). rewrite elem_of_app, list_elem_of_singleton. set_solver.
Qed.

Lemma elem_of_add_rules rules set resource x :
  x ∈ bucket (foldl add_rule set rules) resource <->
  x ∈ bucket set resource \/ (x ∈ rules /\ resource ∈ rule_Resources x).
Proof.
  revert set. induction rules as [|rule rules IH]; intros set; simpl; [set_solver|].
  rewrite IH. unfold add_rule. rewrite elem_of_add_resources. set_solver.
Qed.

Section Sets.
Context `{SortSliceLaws Rule}.

Lemma bucket_MakeRuleSet rules resource :
  bucket (MakeRuleSet rules) resource ≡ₚ bucket (foldl add_rule ∅ rules) resource.
Proof.
  unfold bucket, MakeRuleSet. rewrite lookup_fmap. destruct (_ !! resource); simpl; [|done].
  apply sort_by_permutation.
Qed.

(** The rules of a resource are those that name it. *)
Lemma elem_of_MakeRuleSet rules resource x :
  x ∈ bucket (MakeRuleSet rules) resource <-> x ∈ rules /\ resource ∈ rule_Resources x.
Proof.
  rewrite bucket_MakeRuleSet, elem_of_add_rules. unfold bucket. rewrite lookup_empty. set_solver.
Qed.

(** They come in the order of their scores. *)
Lemma MakeRuleSet_sorted rules resource :
  StronglySorted (fun a b => ruleScore b <= ruleScore a) (bucket (MakeRuleSet rules) resource).
Proof.
  unfold bucket, MakeRuleSet. rewrite lookup_fmap. destruct (_ !! resource) as [l|]; simpl; [|constructor].
  pose proof (sort_by_sorted (fun r => - ruleScore r) l) as Hs. revert Hs. generalize (sort_by (fun r => - ruleScore r) l).
  intros l' Hs. induction Hs as [|a l' Hs IH Ha]; [constructor|]. constructor; [done|].
  eapply Forall_impl; [exact Ha|]. simpl. lia.
Qed.

Lemma MakeRuleSet_empty rules resource :
  MakeRuleSet rules = ∅ -> bucket (MakeRuleSet rules) resource = [].
Proof. intros ->. unfold bucket. by rewrite lookup_empty. Qed.

(** ** One match *)

Section Match.
Variables whereParser actionsParser : Parser.
Variable verb : string.

(** A rule applies: its where clause holds and it has the verb. *)
Definition applies (rule : Rule) : bool :=
  yes (matchesWhere rule whereParser) && (HasVerb rule Wildcard || HasVerb rule verb).

(** Nothing of a rule fails to parse. *)
Definition parses (rule : Rule) : Prop :=
  is_ok (matchesWhere rule whereParser) = true /\ is_ok (processActions rule actionsParser) = true.

Lemma match_rules_ok rules o :
  match_rules whereParser actionsParser verb rules = Ok o ->
  match o with
  | Some rule => exists before after, rules = (before ++ rule :: after)%list /\ applies rule = true /\
                   (forall x, x ∈ before -> applies x = false)
  | None => forall x, x ∈ rules -> applies x = false
  end.
Proof.
  induction rules as [|rule rules IH]; simpl; [intros [= <-]; set_solver|].
  destruct (matchesWhere rule whereParser) as [b|] eqn:Ew; simpl; [|done].
  assert (applies rule = b && (HasVerb rule Wildcard || HasVerb rule verb)) as Ea
    by (unfold applies; by rewrite Ew).
  rewrite <- Ea. destruct (applies rule) eqn:E.
  - intros Ho. apply rbind_ok in Ho as (? & _ & [= <-]). exists [], rules. set_solver.
  - intros Ho. apply IH in Ho. destruct o as [x|].
    + destruct Ho as (before & after & -> & Hx & Hb). exists (rule :: before), after. set_solver.
    + set_solver.
Qed.

Lemma match_rules_spec rules :
  (forall rule, rule ∈ rules -> parses rule) ->
  exists o, match_rules whereParser actionsParser verb rules = Ok o /\
    bool_decide (is_Some o) = existsb applies rules.
Proof.
  induction rules as [|rule rules IH]; intros Hp; simpl; [by exists None|].
  destruct (Hp rule ltac:(left)) as [Hw Ha]. unfold applies at 1.
  destruct (matchesWhere rule whereParser) as [b|]; [|done]. simpl.
  destruct (b && _); simpl.
  - destruct (processActions rule actionsParser); [|done]. by exists (Some rule).
  - apply IH. intros ? ?. apply Hp. by right.
Qed.

(** A rule names a resource when it lists it or the wildcard. *)
Definition names (resource : string) (rule : Rule) : bool :=
  HasResource rule resource || HasResource rule Wildcard.

Lemma HasResource_true rule resource : HasResource rule resource = true <-> resource ∈ rule_Resources rule.
Proof.
  unfold HasResource. rewrite existsb_elem. setoid_rewrite bool_decide_eq_true. naive_solver.
Qed.

Lemma RuleSet_Match_spec rules resource :
  (forall rule, rule ∈ rules -> parses rule) ->
  exists o, RuleSet_Match (MakeRuleSet rules) whereParser actionsParser resource verb = Ok o /\
    bool_decide (is_Some o) = existsb (fun rule => names resource rule && applies rule) rules.
Proof.
  intros Hp.
  assert (Hb : forall res, exists o,
    match_rules whereParser actionsParser verb (bucket (MakeRuleSet rules) res) = Ok o /\
    bool_decide (is_Some o) = existsb (fun rule => HasResource rule res && applies rule) rules).
  { intros res. destruct (match_rules_spec (bucket (MakeRuleSet rules) res)) as (o & Eo & Es).
    { intros rule [Hin _]%elem_of_MakeRuleSet. by apply Hp. }
    exists o. split; [done|]. rewrite Es. apply eq_bool_prop_intro. rewrite !Is_true_true, !existsb_elem.
    split.
    - intros (x & [Hin Hr]%elem_of_MakeRuleSet & Ha). exists x. split; [done|].
      by rewrite (proj2 (HasResource_true x res)).
    - intros (x & Hin & [Hr%HasResource_true Ha]%andb_true_iff). exists x.
      by rewrite elem_of_MakeRuleSet. }
  destruct (Hb resource) as (o1 & E1 & B1). destruct (Hb Wildcard) as (o2 & E2 & B2).
  unfold RuleSet_Match. fold (bucket (MakeRuleSet rules) resource) (bucket (MakeRuleSet rules) Wildcard).
  assert (existsb (fun rule => names resource rule && applies rule) rules =
          bool_decide (is_Some o1) || bool_decide (is_Some o2)) as ->.
  { rewrite B1, B2. unfold names. clear. induction rules as [|rule rules IH]; simpl; [done|]. rewrite IH.
    destruct (HasResource rule resource), (HasResource rule Wildcard), (applies rule); simpl; try done;
      by rewrite ?orb_true_r. }
  destruct (bool_decide (size (MakeRuleSet rules) = 0%nat)) eqn:Esz.
  - apply bool_decide_eq_true, map_size_empty_iff in Esz. rewrite MakeRuleSet_empty in E1, E2 by done.
    injection E1 as <-. injection E2 as <-. by exists None.
  - rewrite E1. simpl. destruct o1 as [rule|]; [by exists (Some rule)|]. by exists o2.
Qed.

(** The rule that is found is among the most specific of those that apply. *)
Lemma RuleSet_Match_most_specific rules resource rule :
  RuleSet_Match (MakeRuleSet rules) whereParser actionsParser resource verb = Ok (Some rule) ->
  rule ∈ rules /\ names resource rule = true /\ applies rule = true /\
  forall x, x ∈ rules -> applies x = true ->
    HasResource x resource = true ->
    HasResource rule resource = true /\ ruleScore x <= ruleScore rule.
Proof.
  unfold RuleSet_Match. fold (bucket (MakeRuleSet rules) resource) (bucket (MakeRuleSet rules) Wildcard).
  case_bool_decide; [done|]. intros E. apply rbind_ok in E as (o & E1 & E).
  apply match_rules_ok in E1. unfold names. destruct o as [x|].
  - injection E as ->. destruct E1 as (before & after & Eb & Ha & Hb).
    assert (rule ∈ bucket (MakeRuleSet rules) resource) as Hin by (rewrite Eb; set_solver).
    apply elem_of_MakeRuleSet in Hin as [Hin Hr]. rewrite (proj2 (HasResource_true rule resource)) by done.
    split_and!; [done..|]. intros x Hx Hax Hrx. split; [done|].
    assert (x ∈ bucket (MakeRuleSet rules) resource) as Hxb
      by (apply elem_of_MakeRuleSet; split; [done|by apply HasResource_true]).
    rewrite Eb in Hxb. pose proof (MakeRuleSet_sorted rules resource) as Hs. rewrite Eb in Hs.
    apply StronglySorted_app_1_r in Hs as Hs'. apply elem_of_app in Hxb as [Hx'|Hx'].
    { rewrite Hb in Hax by done. done. }
    apply elem_of_cons in Hx' as [->|Hx']; [lia|]. inversion Hs' as [|? ? _ Hf]; subst.
    rewrite Forall_forall in Hf. by apply Hf.
  - apply match_rules_ok in E. destruct E as (before & after & Eb & Ha & Hb).
    assert (rule ∈ bucket (MakeRuleSet rules) Wildcard) as Hin by (rewrite Eb; set_solver).
    apply elem_of_MakeRuleSet in Hin as [Hin Hr]. rewrite (proj2 (HasResource_true rule Wildcard)) by done.
    rewrite orb_true_r. split_and!; [done..|]. intros x Hx Hax Hrx. exfalso.
    rewrite E1 in Hax; [done|]. apply elem_of_MakeRuleSet. split; [done|by apply HasResource_true].
Qed.
End Match.

(** ** The loop over the roles *)

Section Roles.
Variable condition : RoleConditionType.
Variables whereParser actionsParser : Parser.
Variables namespace resource verb : string.

(** A role has a rule that applies. *)
Definition role_has_rule (role : RoleV6) : bool :=
  MatchNamespace (GetNamespaces condition role) (ProcessNamespace namespace) &&
  existsb (fun rule => names resource rule && applies whereParser verb rule) (GetRules condition role).

Definition role_parses (role : RoleV6) : Prop :=
  forall rule, rule ∈ GetRules condition role -> parses whereParser actionsParser rule.

Lemma roles_match_spec set :
  (forall role, role ∈ set -> role_parses role) ->
  exists o, roles_match condition whereParser actionsParser namespace resource verb set = Ok o /\
    bool_decide (is_Some o) = existsb role_has_rule set.
Proof.
  induction set as [|role set IH]; intros Hp; simpl; [by exists None|].
  destruct IH as (o & Eo & Es); [intros ? ?; apply Hp; by right|]. unfold role_has_rule at 1.
  destruct (MatchNamespace _ _); simpl; [|by exists o].
  destruct (RuleSet_Match_spec whereParser actionsParser verb (GetRules condition role) resource)
    as (m & Em & Bm); [apply Hp; by left|].
  rewrite Em, <- Bm. simpl. destruct m as [rule|]; simpl; [by exists (Some (role, rule))|by exists o].
Qed.

(** Without any assumption: the role and the rule that were found. *)
Lemma roles_match_found set role rule :
  roles_match condition whereParser actionsParser namespace resource verb set = Ok (Some (role, rule)) ->
  role ∈ set /\ MatchNamespace (GetNamespaces condition role) (ProcessNamespace namespace) = true /\
  rule ∈ GetRules condition role /\ names resource rule = true /\ applies whereParser verb rule = true.
Proof.
  induction set as [|role' set IH]; simpl; [done|].
  destruct (MatchNamespace (GetNamespaces condition role') _) eqn:En;
    [|intros E; apply IH in E; set_solver].
  intros E. apply rbind_ok in E as ([rule'|] & Em & E); [|apply IH in E; set_solver].
  injection E as -> ->. apply RuleSet_Match_most_specific in Em as (? & ? & ? & _). set_solver.
Qed.

Lemma roles_match_none set :
  roles_match condition whereParser actionsParser namespace resource verb set = Ok None ->
  forall role, role ∈ set -> role_has_rule role = false.
Proof.
  unfold role_has_rule. induction set as [|role' set IH]; simpl; [set_solver|].
  destruct (MatchNamespace (GetNamespaces condition role') _) eqn:En.
  - intros E. apply rbind_ok in E as ([rule'|] & Em & E); [done|].
    intros role [->|Hin]%elem_of_cons; [|by apply IH]. rewrite En. simpl.
    apply existsb_elem_false. intros rule Hr. unfold RuleSet_Match in Em.
    fold (bucket (MakeRuleSet (GetRules condition role')) resource)
         (bucket (MakeRuleSet (GetRules condition role')) Wildcard) in Em.
    destruct (names resource rule) eqn:Hn; [simpl|done]. unfold names in Hn.
    assert (Hb : forall res, HasResource rule res = true ->
      rule ∈ bucket (MakeRuleSet (GetRules condition role')) res).
    { intros res Hres. apply elem_of_MakeRuleSet. split; [done|by apply HasResource_true]. }
    destruct (bool_decide (size (MakeRuleSet _) = 0%nat)) eqn:Esz.
    + exfalso. apply bool_decide_eq_true, map_size_empty_iff in Esz.
      apply orb_true_iff in Hn as [Hn|Hn]; apply Hb in Hn; rewrite MakeRuleSet_empty in Hn by done;
        by apply elem_of_nil in Hn.
    + apply rbind_ok in Em as ([x|] & E1 & E2); [done|].
      apply match_rules_ok in E1, E2. apply orb_true_iff in Hn as [Hn|Hn]; auto.
  - intros E role [->|Hin]%elem_of_cons; [by rewrite En|by apply IH].
Qed.
End Roles.

(** ** The decision *)

(** Access to a rule: no deny rule applies and an allow rule does. *)
Definition rule_decision (whereParser : Parser) (namespace resource verb : string) (set : RoleSet) : bool :=
  negb (existsb (role_has_rule Deny whereParser namespace resource verb) set) &&
  existsb (role_has_rule Allow whereParser namespace resource verb) set.

Definition set_parses (whereParser actionsParser : Parser) (set : RoleSet) : Prop :=
  forall c role, role ∈ set -> role_parses c whereParser actionsParser role.

Lemma checkAccessToRuleImpl_spec ctx actionsParser namespace resource verb p set :
  NewActionsParser ctx = Ok actionsParser -> set_parses p actionsParser set ->
  checkAccessToRuleImpl ctx namespace resource verb p p set =
  if rule_decision p namespace resource verb set then None
  else Some {| IsAccessExplicitlyDenied := existsb (role_has_rule Deny p namespace resource verb) set;
               denial_error := ruleDenied verb resource |}.
Proof.
  intros Ea Hp. unfold checkAccessToRuleImpl, rule_decision. rewrite Ea.
  destruct (roles_match_spec Deny p actionsParser namespace resource verb set) as (d & Ed & Bd);
    [by apply Hp|].
  destruct (roles_match_spec Allow p actionsParser namespace resource verb set) as (a & Eal & Ba);
    [by apply Hp|].
  rewrite Ed, Eal, <- Bd, <- Ba. by destruct d, a.
Qed.

(** What a granted access tells, without any assumption. *)
Lemma checkAccessToRuleImpl_granted ctx namespace resource verb allowWhere denyWhere set :
  checkAccessToRuleImpl ctx namespace resource verb allowWhere denyWhere set = None ->
  (forall role, role ∈ set -> role_has_rule Deny denyWhere namespace resource verb role = false) /\
  exists role, role ∈ set /\ role_has_rule Allow allowWhere namespace resource verb role = true.
Proof.
  unfold checkAccessToRuleImpl. destruct (NewActionsParser ctx) as [p|]; [|done].
  destruct (roles_match Deny _ _ _ _ _ _) as [[|]|] eqn:Ed; [done| |done].
  destruct (roles_match Allow _ _ _ _ _ _) as [[[role rule]|]|] eqn:Ea; [|done..]. intros _.
  split; [by eapply roles_match_none|].
  apply roles_match_found in Ea as (Hin & Hn & Hr & Hname & Hap).
  exists role. split; [done|]. unfold role_has_rule. rewrite Hn. simpl. apply existsb_elem.
  exists rule. split; [done|]. by rewrite Hname.
Qed.
End Sets.

(** ** What the extracted condition of a list query means

    An expression has a value once the text of its other expressions has one;
    [Nil] has none.  The condition that is extracted admits exactly what the
    rules that name the resource admit. *)

(** ** Values of expressions *)

Fixpoint eval (ρ : string -> bool) (e : WhereExpr) : option bool :=
  match e with
  | Literal b => Some b
  | Other text => Some (ρ text)
  | Not e => match eval ρ e with Some b => Some (negb b) | None => None end
  | And l r => match eval ρ l, eval ρ r with Some a, Some b => Some (a && b) | _, _ => None end
  | Or l r => match eval ρ l, eval ρ r with Some a, Some b => Some (a || b) | _, _ => None end
  | Nil => None
  end.

(** An expression without a missing side. *)
Fixpoint complete (e : WhereExpr) : bool :=
  match e with
  | Literal _ | Other _ => true
  | Not e => complete e
  | And l r | Or l r => complete l && complete r
  | Nil => false
  end.

Lemma complete_eval ρ e : complete e = true -> exists b, eval ρ e = Some b.
Proof.
  induction e as [b|t|e IH|l IHl r IHr|l IHl r IHr|]; simpl; intros Hc; eauto; [|..|done].
  - destruct (IH Hc) as [b ->]. eauto.
  - apply andb_true_iff in Hc as [Hl Hr]. destruct (IHl Hl) as [a ->], (IHr Hr) as [b ->]. eauto.
  - apply andb_true_iff in Hc as [Hl Hr]. destruct (IHl Hl) as [a ->], (IHr Hr) as [b ->]. eauto.
Qed.

Definition true_under (ρ : string -> bool) (e : WhereExpr) : bool := bool_decide (eval ρ e = Some true).

Lemma true_under_not ρ e : complete e = true -> true_under ρ (Not e) = negb (true_under ρ e).
Proof. intros [b Eb]%(complete_eval ρ). unfold true_under. simpl. rewrite Eb. by destruct b. Qed.

Lemma true_under_and ρ l r : true_under ρ (And l r) = true_under ρ l && true_under ρ r.
Proof.
  unfold true_under. simpl. destruct (eval ρ l) as [[]|], (eval ρ r) as [[]|]; done.
Qed.

Lemma true_under_or ρ l r :
  complete l = true -> complete r = true -> true_under ρ (Or l r) = true_under ρ l || true_under ρ r.
Proof.
  intros [a Ea]%(complete_eval ρ) [b Eb]%(complete_eval ρ). unfold true_under. simpl. rewrite Ea, Eb.
  by destruct a, b.
Qed.

(** What a list query with a condition admits; no condition admits all. *)
Definition admits (ρ : string -> bool) (cond : option WhereExpr) : bool :=
  match cond with None => true | Some c => true_under ρ c end.

Section Extract.
Context `{SortSliceLaws Rule}.
Variable parser : string -> result (option WhereExpr).
Variables namespace resource verb : string.
Hypothesis parser_complete : forall w e, parser w = Ok (Some e) -> complete e = true.

(** The where clause of a rule holds of an event. *)
Definition holds (ρ : string -> bool) (rule : Rule) : bool :=
  match parseWhere parser rule with Ok e => true_under ρ e | Err _ => false end.

Lemma parseWhere_complete rule e : parseWhere parser rule = Ok e -> complete e = true.
Proof.
  unfold parseWhere. case_bool_decide; [by intros [= <-]|].
  intros E. apply rbind_ok in E as ([x|] & Ex & E); [|done]. injection E as <-. by eapply parser_complete.
Qed.

Definition complete_option (o : option WhereExpr) : Prop := forall c, o = Some c -> complete c = true.

Lemma deny_conditions_spec ρ rules cond cond' :
  complete_option cond -> deny_conditions parser resource verb cond rules = Ok cond' ->
  complete_option cond' /\ admits ρ cond' = admits ρ cond && negb (existsb (holds ρ) rules).
Proof.
  revert cond. induction rules as [|rule rules IH]; intros cond Hc; simpl.
  { intros [= <-]. by rewrite andb_true_r. }
  intros E. apply rbind_ok in E as (e & Ee & E). pose proof (parseWhere_complete _ _ Ee) as Hce.
  assert (Hh : holds ρ rule = true_under ρ e) by (unfold holds; by rewrite Ee).
  assert (deny_conditions parser resource verb
    (match cond with None => Some (Not e) | Some c => Some (And c (Not e)) end) rules = Ok cond' ->
    complete_option cond' /\ admits ρ cond' = admits ρ cond && negb (holds ρ rule || existsb (holds ρ) rules)).
  { intros E'. apply IH in E' as [? ->].
    - split; [done|]. rewrite Hh, negb_orb, andb_assoc. f_equal. destruct cond as [c|]; simpl.
      + by rewrite true_under_and, true_under_not.
      + by rewrite true_under_not.
    - destruct cond as [c|]; intros c' [= <-]; simpl; [|done]. by rewrite Hc, Hce. }
  destruct e as [[]| | | | |]; try done; try by apply H1.
  apply IH in E as [? ->]; [|done]. split; [done|]. rewrite Hh. done.
Qed.

Lemma allow_conditions_spec ρ rules cond out :
  complete_option cond -> allow_conditions parser cond rules = Ok out ->
  match out with
  | inl _ => existsb (holds ρ) rules = true
  | inr None => cond = None /\ existsb (holds ρ) rules = false
  | inr (Some c) => complete c = true /\
      true_under ρ c = match cond with None => false | Some c => true_under ρ c end || existsb (holds ρ) rules
  end.
Proof.
  revert cond. induction rules as [|rule rules IH]; intros cond Hc; simpl.
  { intros [= <-]. destruct cond as [c|]; [|done]. split; [by apply Hc|]. by rewrite orb_false_r. }
  intros E. apply rbind_ok in E as (e & Ee & E). pose proof (parseWhere_complete _ _ Ee) as Hce.
  assert (Hh : holds ρ rule = true_under ρ e) by (unfold holds; by rewrite Ee).
  assert (allow_conditions parser
    (match cond with None => Some e | Some c => Some (Or c e) end) rules = Ok out ->
    match out with
    | inl _ => holds ρ rule || existsb (holds ρ) rules = true
    | inr None => cond = None /\ holds ρ rule || existsb (holds ρ) rules = false
    | inr (Some c) => complete c = true /\
        true_under ρ c =
        match cond with None => false | Some c => true_under ρ c end || (holds ρ rule || existsb (holds ρ) rules)
    end).
  { intros E'. apply IH in E'.
    - destruct out as [|[c|]].
      + by rewrite E', orb_true_r.
      + destruct E' as [? ->]. split; [done|]. rewrite Hh, orb_assoc. f_equal.
        destruct cond as [c'|]; simpl; [|done]. rewrite true_under_or; auto.
      + by destruct cond, E'.
    - destruct cond as [c|]; intros c' [= <-]; simpl; [|done]. by rewrite Hc, Hce. }
  destruct e as [[]| | | | |]; try by apply H1.
  - injection E as <-. by rewrite Hh.
  - apply IH in E; [|done]. rewrite Hh. exact E.
Qed.

(** The condition admits an event exactly when no deny rule for the resource
    holds of it and an allow rule does. *)
Lemma ExtractCondition_admits ρ set cond :
  ExtractCondition parser namespace resource verb set = Ok cond ->
  admits ρ cond =
  negb (existsb (holds ρ) (rules_for namespace resource verb Deny set)) &&
  existsb (holds ρ) (rules_for namespace resource verb Allow set).
Proof.
  unfold ExtractCondition. intros E. apply rbind_ok in E as (d & Ed & E).
  apply rbind_ok in E as (a & Ea & E).
  apply (deny_conditions_spec ρ) in Ed as [Hd Hda]; [|by intros c [=]]. simpl in Hda.
  apply (allow_conditions_spec ρ) in Ea; [|by intros c [=]]. rewrite <- Hda.
  destruct a as [[]|[c|]].
  - injection E as <-. by rewrite Ea, andb_true_r.
  - destruct Ea as [Hc Ea]. simpl in Ea. rewrite <- Ea.
    destruct d as [d|]; injection E as <-; [|done]. simpl. apply true_under_and.
  - destruct Ea as [_ ->], d as [d|]; [|done]. injection E as <-. simpl. rewrite true_under_and.
    unfold true_under at 2. simpl. done.
Qed.

(** When nothing fails to parse, a refusal means that nothing is admitted. *)
Lemma ExtractCondition_refuses ρ set e :
  (forall c rule, rule ∈ rules_for namespace resource verb c set -> is_ok (parseWhere parser rule) = true) ->
  ExtractCondition parser namespace resource verb set = Err e ->
  e = ruleDenied verb resource /\
  negb (existsb (holds ρ) (rules_for namespace resource verb Deny set)) &&
  existsb (holds ρ) (rules_for namespace resource verb Allow set) = false.
Proof.
  intros Hp. unfold ExtractCondition.
  destruct (deny_conditions parser resource verb None _) as [d|e'] eqn:Ed; simpl.
  - destruct (allow_conditions parser None _) as [a|e'] eqn:Ea; simpl.
    + apply (allow_conditions_spec ρ) in Ea; [|by intros c [=]].
      destruct a as [|[c|]], d as [d|]; try done. destruct Ea as [_ ->]. intros [= <-].
      by rewrite andb_false_r.
    + exfalso. specialize (Hp Allow). revert Ea Hp. generalize (@None WhereExpr).
      induction (rules_for namespace resource verb Allow set) as [|rule rules IH]; intros cond Ea Hp; [done|].
      simpl in Ea. pose proof (Hp rule ltac:(left)) as Hr. destruct (parseWhere parser rule) as [x|]; [|done].
      simpl in Ea. assert (Hp' : forall rule, rule ∈ rules -> is_ok (parseWhere parser rule) = true)
        by (intros ? ?; apply Hp; by right).
      destruct x as [[]| | | | |]; try done; eapply IH; eauto.
  - intros [= <-]. specialize (Hp Deny). revert Ed Hp. generalize (@None WhereExpr).
    induction (rules_for namespace resource verb Deny set) as [|rule rules IH]; intros cond Ed Hp; [done|].
    simpl in Ed. unfold holds at 1. pose proof (Hp rule ltac:(left)) as Hr.
    simpl. destruct (parseWhere parser rule) as [x|] eqn:Ex; [|done].
    simpl in Ed. assert (Hp' : forall rule, rule ∈ rules -> is_ok (parseWhere parser rule) = true)
      by (intros ? ?; apply Hp; by right).
    assert (Hk : forall cond, deny_conditions parser resource verb cond rules = Err e' ->
      e' = ruleDenied verb resource /\
      negb (true_under ρ x || existsb (holds ρ) rules) &&
      existsb (holds ρ) (rules_for namespace resource verb Allow set) = false).
    { intros cond' E'. destruct (IH cond' E' Hp') as [-> Hf]. split; [done|].
      destruct (true_under ρ x); simpl; [done|exact Hf]. }
    destruct x as [[]| | | | |]; try by eapply Hk. injection Ed as <-. done.
Qed.
End Extract.

(** ** A guess never refuses what a check grants *)

Section Guess.
Context `{SortSliceLaws Rule}.

Lemma applies_weaken p q verb rule :
  (forall b, p (rule_Where rule) = Ok (Some b) -> b = true -> q (rule_Where rule) = Ok (Some true)) ->
  applies p verb rule = true -> applies q verb rule = true.
Proof.
  unfold applies, matchesWhere. intros Hpq. case_bool_decide; [done|].
  rewrite !andb_true_iff, !yes_true. intros [Hw ?]. split; [|done].
  destruct (p (rule_Where rule)) as [[b|]|] eqn:E; simpl in Hw; try done. injection Hw as ->.
  by rewrite (Hpq true).
Qed.

Lemma role_has_rule_weaken c p q namespace resource verb role :
  (forall w, p w = Ok (Some true) -> q w = Ok (Some true)) ->
  role_has_rule c p namespace resource verb role = true -> role_has_rule c q namespace resource verb role = true.
Proof.
  intros Hpq. unfold role_has_rule. rewrite !andb_true_iff. intros [? He]. split; [done|].
  apply existsb_elem in He as (rule & Hin & [? Ha]%andb_true_iff). apply existsb_elem.
  exists rule. split; [done|]. apply andb_true_iff. split; [done|].
  eapply applies_weaken; [|exact Ha]. intros b Hb ->. by apply Hpq.
Qed.

Lemma boolParser_parses b actionsParser set :
  (forall c role rule, role ∈ set -> rule ∈ GetRules c role -> is_ok (processActions rule actionsParser) = true) ->
  set_parses (boolParser b) actionsParser set.
Proof.
  intros Ha c role Hin rule Hr. split; [|by eapply Ha]. unfold matchesWhere. by case_bool_decide.
Qed.

Lemma Guess_of_granted ctx actionsParser namespace resource verb set :
  NewActionsParser ctx = Ok actionsParser ->
  (forall c role rule, role ∈ set -> rule ∈ GetRules c role -> is_ok (processActions rule actionsParser) = true) ->
  CheckAccessToRule ctx namespace resource verb set = None ->
  GuessIfAccessIsPossible ctx namespace resource verb set = None.
Proof.
  intros Ep Ha. unfold CheckAccessToRule. destruct (NewWhereParser ctx _) as [p|]; [|done].
  intros (Hd & role & Hin & Hal)%checkAccessToRuleImpl_granted.
  unfold GuessIfAccessIsPossible, checkAccessToRuleImpl. rewrite Ep.
  destruct (roles_match_spec Deny (boolParser false) actionsParser namespace resource verb set) as (d & -> & Bd).
  { intros r Hr. by eapply (boolParser_parses false actionsParser set Ha Deny). }
  assert (existsb (role_has_rule Deny (boolParser false) namespace resource verb) set = false) as Ed.
  { apply existsb_elem_false. intros r Hr. destruct (role_has_rule Deny (boolParser false) _ _ _ r) eqn:E; [|done].
    eapply role_has_rule_weaken in E; [by rewrite Hd in E|]. intros w [=]. }
  rewrite Ed in Bd. destruct d as [x|]; [done|].
  destruct (roles_match_spec Allow (boolParser true) actionsParser namespace resource verb set) as (o & -> & Bo).
  { intros r Hr. by eapply (boolParser_parses true actionsParser set Ha Allow). }
  assert (existsb (role_has_rule Allow (boolParser true) namespace resource verb) set = true) as Ea.
  { apply existsb_elem. exists role. split; [done|]. by eapply role_has_rule_weaken. }
  rewrite Ea in Bo. by destruct o.
Qed.
End Guess.
