(* ===== verification/RoleGrants.v ===== *)
(** * What a set of roles grants: logins, groups, accounts, impersonation

    The lists a certificate is filled with: what the roles within the
    requested lifetime allow, less what the roles deny.  A set of the code is
    a [gset]; the order of its elements is not specified. *)

From stdpp Require Import pretty.
From S2P Require Import Prelude GoStrings Utf8 Types Regexp Roles RoleLimits RoleAccess CheckAccess.
From S2P Require Import DecisionFacts.

(** ** Lifetimes *)

(** [overrideTTL || (ttl <= maxSessionTTL && maxSessionTTL != 0)] *)
Definition within_ttl (ttl : duration) (overrideTTL : bool) (role : RoleV6) : bool :=
  overrideTTL ||
  ((ttl <=? ro_MaxSessionTTL (GetOptions role)) && negb (ro_MaxSessionTTL (GetOptions role) =? 0)).

(** The allow loop: what is added, and whether a role matched the lifetime. *)
Definition allow_role (ttl : duration) (overrideTTL : bool) (get : RoleV6 -> list string)
    (st : gset string * bool) (role : RoleV6) : gset string * bool :=
  if within_ttl ttl overrideTTL role then (fst st ∪ list_to_set (get role), true) else st.

Definition allow_loop (ttl : duration) (overrideTTL : bool) (get : RoleV6 -> list string) (set : RoleSet)
  : gset string * bool :=
  foldl (allow_role ttl overrideTTL get) (∅, false) set.

(** The deny loop. *)
Definition deny_loop (get : RoleV6 -> list string) (acc : gset string) (set : RoleSet) : gset string :=
  foldl (fun acc role => acc ∖ list_to_set (get role)) acc set.

(** ** Logins *)

(** One round of the loop over the roles. *)
Definition add_logins (ttl : duration) (st : list string * bool) (role : RoleV6) : list string * bool :=
  if within_ttl ttl false role then ((fst st ++ GetLogins Allow role)%list, true) else st.

Definition GetLoginsForTTL (ttl : duration) (set : RoleSet) : list string * bool :=
  let '(logins, matchedTTL) := foldl (add_logins ttl) ([], false) set in
  (Deduplicate logins, matchedTTL).

Definition GetAllLogins (set : RoleSet) : list string := (GetLoginsForTTL 0 set).1.

Definition hasPossibleLogins (set : RoleSet) : bool :=
  existsb (fun role =>
    negb (bool_decide (GetName role = DefaultImplicitRole)) &&
    negb (bool_decide (GetLogins Allow role = []))) set.

Definition NoLoginPrefix := "-teleport-nologin-".

(** [newUUID] is the text of [uuid.New]. *)
Definition CheckLoginDuration (newUUID : string) (ttl : duration) (set : RoleSet) : result (list string) :=
  let '(logins, matchedTTL) := GetLoginsForTTL ttl set in
  fail_if negb matchedTTL with AccessDenied "this user cannot request a certificate for %v" [pretty ttl];
  let logins :=
    if bool_decide (logins = []) && negb (hasPossibleLogins set) then [NoLoginPrefix +:+ newUUID]
    else logins in
  fail_if bool_decide (logins = [])
    with AccessDenied "this user cannot create SSH sessions, has no allowed logins" [];
  Ok logins.

(** ** Databases and cloud accounts *)

Definition CheckDatabaseNamesAndUsers (ttl : duration) (overrideTTL : bool) (set : RoleSet)
  : result (gset string * gset string) :=
  let '(names, matchedTTL) := allow_loop ttl overrideTTL (GetDatabaseNames Allow) set in
  let '(users, _) := allow_loop ttl overrideTTL (GetDatabaseUsers Allow) set in
  let names := deny_loop (GetDatabaseNames Deny) names set in
  let users := deny_loop (GetDatabaseUsers Deny) users set in
  fail_if negb matchedTTL with AccessDenied "this user cannot request database access for %v" [pretty ttl];
  fail_if bool_decide (names = ∅) && bool_decide (users = ∅)
    with NotFound "this user cannot request database access, has no assigned database names or users" [];
  Ok (names, users).

Definition CheckAWSRoleARNs (ttl : duration) (overrideTTL : bool) (set : RoleSet) : result (gset string) :=
  let '(arns, matchedTTL) := allow_loop ttl overrideTTL (GetAWSRoleARNs Allow) set in
  let arns := deny_loop (GetAWSRoleARNs Deny) arns set in
  fail_if negb matchedTTL
    with AccessDenied "this user cannot request AWS management console access for %v" [pretty ttl];
  fail_if bool_decide (arns = ∅)
    with NotFound "this user cannot request AWS management console, has no assigned role ARNs" [];
  Ok arns.

Section Folded.
Context `{UnicodeTables}.

(** One denied account: the wildcard clears the accounts before it is removed
    itself. *)
Definition deny_account (accounts : gset string) (account : string) : gset string :=
  (if bool_decide (account = Wildcard) then ∅ else accounts) ∖ {[ToLower account]}.

Definition CheckGCPServiceAccounts (ttl : duration) (overrideTTL : bool) (set : RoleSet)
  : result (gset string) :=
  let '(accounts, matchedTTL) :=
    allow_loop ttl overrideTTL (fun role => map ToLower (GetGCPServiceAccounts Allow role)) set in
  let accounts := foldl (fun accounts role => foldl deny_account accounts (GetGCPServiceAccounts Deny role))
                    accounts set in
  fail_if negb matchedTTL with AccessDenied "this user cannot request GCP API access for %v" [pretty ttl];
  fail_if bool_decide (accounts = ∅)
    with NotFound "this user cannot request GCP API access, has no assigned service accounts" [];
  Ok accounts.

(** The identities of Azure keep their case: a map from the lower case. *)
Definition add_identity (identities : gmap string string) (identity : string) : gmap string string :=
  <[ToLower identity := identity]> identities.
Definition deny_identity (identities : gmap string string) (identity : string) : gmap string string :=
  delete (ToLower identity) (if bool_decide (identity = Wildcard) then ∅ else identities).

Definition CheckAzureIdentities (ttl : duration) (overrideTTL : bool) (set : RoleSet)
  : result (list string) :=
  let '(identities, matchedTTL) :=
    foldl (fun '(identities, matchedTTL) role =>
      if within_ttl ttl overrideTTL role
      then (foldl add_identity identities (GetAzureIdentities Allow role), true)
      else (identities, matchedTTL)) ((∅ : gmap string string), false) set in
  let identities := foldl (fun identities role => foldl deny_identity identities (GetAzureIdentities Deny role))
                      identities set in
  fail_if negb matchedTTL with AccessDenied "this user cannot access Azure API for %v" [pretty ttl];
  fail_if bool_decide (identities = ∅)
    with NotFound "this user cannot access Azure API, has no assigned identities" [];
  Ok (merge_sort at_most (map_to_list identities).*2).
End Folded.

(** ** Kubernetes *)

Section Kube.
Context `{UnicodeTables} `{RegexpCache} `{MapOrder (list string)} `{LabelExpressions}.

Fixpoint kube_allow (ttl : duration) (overrideTTL : bool) (matchers : list RoleMatcher)
    (groups users : gset string) (matchedTTL : bool) (set : RoleSet)
  : result (gset string * gset string * bool) :=
  match set with
  | [] => Ok (groups, users, matchedTTL)
  | role :: set' =>
      let? ok := MatchAll matchers role Allow in
      if ok && within_ttl ttl overrideTTL role then
        kube_allow ttl overrideTTL matchers (groups ∪ list_to_set (GetKubeGroups Allow role))
          (users ∪ list_to_set (GetKubeUsers Allow role)) true set'
      else kube_allow ttl overrideTTL matchers groups users matchedTTL set'
  end.

Fixpoint kube_deny (matchers : list RoleMatcher) (groups users : gset string) (set : RoleSet)
  : result (gset string * gset string) :=
  match set with
  | [] => Ok (groups, users)
  | role :: set' =>
      let? matched := MatchAny matchers role Deny in
      if bool_decide (is_Some matched) then
        kube_deny matchers (groups ∖ list_to_set (GetKubeGroups Deny role))
          (users ∖ list_to_set (GetKubeUsers Deny role)) set'
      else kube_deny matchers groups users set'
  end.

(** The groups, then the users. *)
Definition CheckKubeGroupsAndUsers (ttl : duration) (overrideTTL : bool) (matchers : list RoleMatcher)
    (set : RoleSet) : result (gset string * gset string) :=
  let? (groups, users, matchedTTL) := kube_allow ttl overrideTTL matchers ∅ ∅ false set in
  let? (groups, users) := kube_deny matchers groups users set in
  fail_if negb matchedTTL with AccessDenied "this user cannot request kubernetes access for %v" [pretty ttl];
  fail_if bool_decide (groups = ∅) && bool_decide (users = ∅)
    with NotFound "this user cannot request kubernetes access, has no assigned groups or users" [];
  Ok (groups, users).

(** What [authorizeRemoteUser] of [lib/authz/permissions.go] puts into the
    Kubernetes groups and users of the identity it maps; an error other than
    not found ends it. *)
Definition remote_kube_principals (ttl : duration) (set : RoleSet) : result (gset string * gset string) :=
  let? (kubeUsers, kubeGroups) :=
    match CheckKubeGroupsAndUsers ttl false [] set with
    | Err e => if IsNotFound e then Ok (∅, ∅) else Err e
    | Ok principals => Ok principals
    end in
  Ok (kubeGroups, kubeUsers).
End Kube.

(** ** Roles to search as *)

Definition allowed_roles (get : RoleConditionType -> RoleV6 -> list string) (keep : RoleV6 -> bool)
    (set : RoleSet) : list string :=
  let denied : gset string := list_to_set (set ≫= get Deny) in
  Deduplicate (set ≫= fun role =>
    if keep role then filter (.∉ denied) (get Allow role) else []).

Definition GetAllowedSearchAsRoles (allowFilters : list (RoleV6 -> bool)) (set : RoleSet) : list string :=
  allowed_roles GetSearchAsRoles
    (fun role => negb (existsb (fun filter => negb (filter role)) allowFilters)) set.

Definition GetAllowedPreviewAsRoles (set : RoleSet) : list string :=
  allowed_roles GetPreviewAsRoles (fun _ => true) set.

(** ** Impersonation *)

(** [parse.NewAnyMatcher] reads the matcher expressions of a list, with a
    third-party parser. *)
Class AnyMatchers := NewAnyMatcher : list string -> result (string -> bool).

(** The where parser over a context whose impersonated role is set. *)
Definition ImpersonateParser := option string -> string -> result (option bool).

Section Impersonation.
Context `{AnyMatchers}.

Definition matchesImpersonateWhere (cond : ImpersonateConditions) (impersonateRole : string)
    (parser : ImpersonateParser) : result bool :=
  if bool_decide (imp_Where cond = "") then Ok true
  else
    let? ifn := parser (Some impersonateRole) (imp_Where cond) in
    match ifn with
    | None => Err (BadParameter "invalid predicate type for where expression: %v" [imp_Where cond])
    | Some fn => Ok fn
    end.

(** The loop both allow conditions end in: every role is matched and passes
    the where clause. *)
Fixpoint match_impersonate_roles (cond : ImpersonateConditions) (anyRole : string -> bool)
    (parser : ImpersonateParser) (impersonateRoles : list string) : result bool :=
  match impersonateRoles with
  | [] => Ok true
  | impersonateRole :: impersonateRoles' =>
      if negb (anyRole impersonateRole) then Ok false
      else
        let? match_ := matchesImpersonateWhere cond impersonateRole parser in
        if negb match_ then Ok false else match_impersonate_roles cond anyRole parser impersonateRoles'
  end.

Definition matchAllowImpersonateCondition (parser : ImpersonateParser) (cond : ImpersonateConditions)
    (impersonateUser : string) (impersonateRoles : list string) : result bool :=
  if ImpersonateConditions_IsEmpty cond then Ok false
  else
    let? anyUser := NewAnyMatcher (imp_Users cond) in
    if negb (anyUser impersonateUser) then Ok false
    else
      let? anyRole := NewAnyMatcher (imp_Roles cond) in
      match_impersonate_roles cond anyRole parser impersonateRoles.

Definition matchDenyImpersonateCondition (cond : ImpersonateConditions) (impersonateUser : string)
    (impersonateRoles : list string) : result bool :=
  if ImpersonateConditions_IsEmpty cond then Ok false
  else
    let? anyUser := NewAnyMatcher (imp_Users cond) in
    if (anyUser impersonateUser : bool) then Ok true
    else
      let? anyRole := NewAnyMatcher (imp_Roles cond) in
      Ok (existsb anyRole impersonateRoles).

Definition matchAllowRoleImpersonateCondition (parser : ImpersonateParser) (role : RoleV6)
    (impersonateRoles : list string) : result bool :=
  let cond := GetImpersonateConditions Allow role in
  if bool_decide (imp_Users cond = []) && bool_decide (imp_Roles cond = []) then Ok false
  else if negb (bool_decide (imp_Users cond = [])) then Ok false
  else
    let? anyRole := NewAnyMatcher (imp_Roles cond) in
    match_impersonate_roles cond anyRole parser impersonateRoles.

Definition matchDenyRoleImpersonateCondition (role : RoleV6) (impersonateRoles : list string) : result bool :=
  let cond := GetImpersonateConditions Deny role in
  if bool_decide (imp_Users cond = []) && bool_decide (imp_Roles cond = []) then Ok false
  else if negb (bool_decide (imp_Users cond = [])) then Ok true
  else
    let? anyRole := NewAnyMatcher (imp_Roles cond) in
    Ok (existsb anyRole impersonateRoles).

(** The two loops every check of this kind makes: a role whose deny condition
    matches refuses, then a role whose allow condition matches grants. *)
Fixpoint deny_then {A} (matches : A -> result bool) (denied : error) (l : list A) : result unit :=
  match l with
  | [] => Ok tt
  | x :: l' =>
      let? matched := matches x in
      fail_if matched with denied;
      deny_then matches denied l'
  end.

Fixpoint allow_one {A} (matches : A -> result bool) (denied : error) (l : list A) : result unit :=
  match l with
  | [] => Err denied
  | x :: l' =>
      let? matched := matches x in
      if matched : bool then Ok tt else allow_one matches denied l'
  end.

Section CheckImpersonate.
(** [newImpersonateWhereParser] *)
Variable newParser : result ImpersonateParser.

Definition CheckImpersonate (currentUser impersonateUser : string) (impersonateRoles : list string)
    (set : RoleSet) : result unit :=
  let denied := AccessDenied "access denied to '%s' to impersonate user '%s' and roles '%s'"
                  (currentUser :: impersonateUser :: impersonateRoles) in
  let? parser := newParser in
  check deny_then (fun role => matchDenyImpersonateCondition (GetImpersonateConditions Deny role)
                                 impersonateUser impersonateRoles) denied set;
  allow_one (fun role => matchAllowImpersonateCondition parser (GetImpersonateConditions Allow role)
                           impersonateUser impersonateRoles) denied set.

Definition CheckImpersonateRoles (currentUser : string) (impersonateRoles : list string) (set : RoleSet)
  : result unit :=
  let denied := AccessDenied "access denied to '%s' to impersonate roles '%s'"
                  (currentUser :: impersonateRoles) in
  let? parser := newParser in
  check deny_then (fun role => matchDenyRoleImpersonateCondition role impersonateRoles) denied set;
  allow_one (fun role => matchAllowRoleImpersonateCondition parser role impersonateRoles) denied set.
End CheckImpersonate.

Definition CheckSubmitForUser (currentUser submitForUser : string) (set : RoleSet) : result unit :=
  let denied := AccessDenied "access denied for '%s' to submit for user '%s'" [currentUser; submitForUser] in
  let submits c role := let? anyUser := NewAnyMatcher (GetSubmitForUsers c role) in Ok (anyUser submitForUser) in
  check deny_then (submits Deny) denied set;
  allow_one (submits Allow) denied set.
End Impersonation.

(** ** SPIFFE *)

Fixpoint contains {E} (f : E -> result bool) (s : list E) : result bool :=
  match s with
  | [] => Ok false
  | x :: s' =>
      let? match_ := f x in
      if match_ : bool then Ok true else contains f s'
  end.

(** [net.ParseCIDR] with the [Contains] of the network, on addresses. *)
Class Networks := {
  IP : Type;
  ParseCIDR : string -> result (IP -> bool);
}.

Section SPIFFE.
Context `{RegexpCache} `{Networks}.

Definition cidr_contains (matcher : string) (ip : IP) : result bool :=
  let? cidr := ParseCIDR matcher in Ok (cidr ip).

(** A list of matchers of a deny condition: no matchers is a match, otherwise
    some matcher has to match some requested name. *)
Fixpoint any_requested {E} (f : string -> E -> result bool) (requested : list E) (isMatch : bool)
    (matchers : list string) : result bool :=
  match matchers with
  | [] => Ok isMatch
  | matcher :: matchers' =>
      let? isMatch := contains (f matcher) requested in
      if isMatch : bool then Ok true else any_requested f requested isMatch matchers'
  end.

Definition matchSPIFFESVIDDenyConditions (conds : list SPIFFERoleCondition) (spiffeIDPath : string)
    (dnsSANs : list string) (ipSANs : list IP) : result bool :=
  contains (fun cond =>
    let? isPathMatch := MatchString spiffeIDPath (sp_Path cond) in
    if negb isPathMatch then Ok false
    else
      let? isDNSMatch := any_requested (fun m s => MatchString s m) dnsSANs true (sp_DNSSANs cond) in
      if negb isDNSMatch then Ok false
      else any_requested cidr_contains ipSANs true (sp_IPSANs cond)) conds.

(** Every requested name has a matcher of an allow condition. *)
Fixpoint all_requested {E} (f : string -> E -> result bool) (matchers : list string) (requested : list E)
  : result bool :=
  match requested with
  | [] => Ok true
  | x :: requested' =>
      let? match_ := contains (fun m => f m x) matchers in
      if negb match_ then Ok false else all_requested f matchers requested'
  end.

Definition matchSPIFFESVIDAllowConditions (conds : list SPIFFERoleCondition) (spiffeIDPath : string)
    (dnsSANs : list string) (ipSANs : list IP) : result bool :=
  contains (fun cond =>
    let? match_ := MatchString spiffeIDPath (sp_Path cond) in
    if negb match_ then Ok false
    else
      let? match_ := all_requested (fun m s => MatchString s m) (sp_DNSSANs cond) dnsSANs in
      if negb match_ then Ok false
      else all_requested cidr_contains (sp_IPSANs cond) ipSANs) conds.

Definition CheckSPIFFESVID (spiffeIDPath : string) (dnsSANs : list string) (ipSANs : list IP) (set : RoleSet)
  : result unit :=
  let accessDenied := AccessDenied "access denied to generate SVID %q" [spiffeIDPath] in
  check deny_then (fun role => matchSPIFFESVIDDenyConditions (GetSPIFFEConditions Deny role)
                                 spiffeIDPath dnsSANs ipSANs) accessDenied set;
  allow_one (fun role => matchSPIFFESVIDAllowConditions (GetSPIFFEConditions Allow role)
                           spiffeIDPath dnsSANs ipSANs) accessDenied set.
End SPIFFE.

(** ** Facts about what a set of roles grants

    What is granted is what a role within the lifetime allows, less what any
    role denies; a check over the roles passes when no deny condition matches
    and an allow condition does. *)

(** ** The two loops over lists *)

Lemma allow_loop_acc ttl overrideTTL get set st :
  (forall x, x ∈ fst (foldl (allow_role ttl overrideTTL get) st set) <->
     x ∈ fst st \/ exists role, role ∈ set /\ within_ttl ttl overrideTTL role = true /\ x ∈ get role) /\
  snd (foldl (allow_role ttl overrideTTL get) st set) = snd st || existsb (within_ttl ttl overrideTTL) set.
Proof.
  revert st. induction set as [|role set IH]; intros st; simpl.
  { rewrite orb_false_r. split; [set_solver|done]. }
  destruct (IH (allow_role ttl overrideTTL get st role)) as [Hx Hm].
  assert (Hr : forall x, x ∈ fst (allow_role ttl overrideTTL get st role) <->
    x ∈ fst st \/ (within_ttl ttl overrideTTL role = true /\ x ∈ get role)).
  { intros x. unfold allow_role. destruct (within_ttl ttl overrideTTL role); simpl; [|naive_solver].
    rewrite elem_of_union, elem_of_list_to_set. naive_solver. }
  split.
  - intros x. rewrite Hx, Hr. rewrite exists_cons. clear. tauto.
  - rewrite Hm. unfold allow_role. destruct (within_ttl ttl overrideTTL role); simpl; [|done].
    by rewrite orb_true_r.
Qed.

Lemma allow_loop_elem ttl overrideTTL get set x :
  x ∈ fst (allow_loop ttl overrideTTL get set) <->
  exists role, role ∈ set /\ within_ttl ttl overrideTTL role = true /\ x ∈ get role.
Proof. unfold allow_loop. rewrite (proj1 (allow_loop_acc ttl overrideTTL get set (∅, false))). set_solver. Qed.

Lemma allow_loop_matched ttl overrideTTL get set :
  snd (allow_loop ttl overrideTTL get set) = existsb (within_ttl ttl overrideTTL) set.
Proof. apply (allow_loop_acc ttl overrideTTL get set (∅, false)). Qed.

Lemma deny_loop_elem get acc set x :
  x ∈ deny_loop get acc set <-> x ∈ acc /\ forall role, role ∈ set -> x ∉ get role.
Proof.
  unfold deny_loop. revert acc. induction set as [|role set IH]; intros acc; simpl; [set_solver|].
  rewrite IH, elem_of_difference, elem_of_list_to_set. setoid_rewrite elem_of_cons. naive_solver.
Qed.

(** What is granted of a list that a role may allow and deny. *)
Definition granted (get : RoleConditionType -> RoleV6 -> list string) (ttl : duration) (overrideTTL : bool)
    (set : RoleSet) (x : string) : Prop :=
  (exists role, role ∈ set /\ within_ttl ttl overrideTTL role = true /\ x ∈ get Allow role) /\
  forall role, role ∈ set -> x ∉ get Deny role.

Lemma granted_elem get ttl overrideTTL set x :
  x ∈ deny_loop (get Deny) (fst (allow_loop ttl overrideTTL (get Allow) set)) set <->
  granted get ttl overrideTTL set x.
Proof. unfold granted. by rewrite deny_loop_elem, allow_loop_elem. Qed.

Lemma CheckDatabaseNamesAndUsers_spec ttl overrideTTL set :
  match CheckDatabaseNamesAndUsers ttl overrideTTL set with
  | Ok (names, users) =>
      existsb (within_ttl ttl overrideTTL) set = true /\
      (forall x, x ∈ names <-> granted GetDatabaseNames ttl overrideTTL set x) /\
      (forall x, x ∈ users <-> granted GetDatabaseUsers ttl overrideTTL set x) /\
      (names <> ∅ \/ users <> ∅)
  | Err e =>
      if existsb (within_ttl ttl overrideTTL) set
      then IsNotFound e = true /\ forall x,
        ~ granted GetDatabaseNames ttl overrideTTL set x /\ ~ granted GetDatabaseUsers ttl overrideTTL set x
      else e_class e = KAccessDenied
  end.
Proof.
  unfold CheckDatabaseNamesAndUsers.
  pose proof (granted_elem GetDatabaseNames ttl overrideTTL set) as Hn.
  pose proof (granted_elem GetDatabaseUsers ttl overrideTTL set) as Hu.
  pose proof (allow_loop_matched ttl overrideTTL (GetDatabaseNames Allow) set) as Hm.
  destruct (allow_loop ttl overrideTTL (GetDatabaseNames Allow) set) as [names matched].
  destruct (allow_loop ttl overrideTTL (GetDatabaseUsers Allow) set) as [users matched']. simpl in *.
  rewrite Hm. destruct (existsb _ set) eqn:E; simpl; [|done].
  destruct (bool_decide (deny_loop (GetDatabaseNames Deny) names set = ∅)) eqn:E1; bool_to_prop; simpl.
  - destruct (bool_decide (deny_loop (GetDatabaseUsers Deny) users set = ∅)) eqn:E2; bool_to_prop; simpl.
    + split; [done|]. intros x. rewrite <- Hn, <- Hu, E1, E2. set_solver.
    + by auto 10.
  - by auto 10.
Qed.

(** ** Kubernetes *)

Section Kube.
Context `{UnicodeTables} `{RegexpCache} `{MapOrder (list string)} `{LabelExpressions}.
Variable matchers : list RoleMatcher.

Definition kube_allows (ttl : duration) (overrideTTL : bool) (role : RoleV6) : bool :=
  yes (MatchAll matchers role Allow) && within_ttl ttl overrideTTL role.
Definition kube_denies (role : RoleV6) : bool :=
  match MatchAny matchers role Deny with Ok (Some _) => true | _ => false end.

Lemma kube_allow_elem ttl overrideTTL set groups users matched groups' users' matched' :
  kube_allow ttl overrideTTL matchers groups users matched set = Ok (groups', users', matched') ->
  (forall x, x ∈ groups' <->
     x ∈ groups \/ exists role, role ∈ set /\ kube_allows ttl overrideTTL role = true /\ x ∈ GetKubeGroups Allow role) /\
  (forall x, x ∈ users' <->
     x ∈ users \/ exists role, role ∈ set /\ kube_allows ttl overrideTTL role = true /\ x ∈ GetKubeUsers Allow role).
Proof.
  revert groups users matched. induction set as [|role set IH]; intros groups users matched; simpl.
  { intros [= -> -> ->]. set_solver. }
  intros E. apply rbind_ok in E as (b & Eb & E).
  assert (Hk : kube_allows ttl overrideTTL role = b && within_ttl ttl overrideTTL role)
    by (unfold kube_allows; by rewrite Eb).
  destruct (b && within_ttl ttl overrideTTL role); apply IH in E as [Hg Hu].
  - split; intros x; [rewrite Hg|rewrite Hu]; rewrite elem_of_union, elem_of_list_to_set;
      rewrite exists_cons, Hk; clear; tauto.
  - split; intros x; [rewrite Hg|rewrite Hu]; rewrite exists_cons, Hk; clear; intuition discriminate.
Qed.

Lemma kube_deny_elem set groups users groups' users' :
  kube_deny matchers groups users set = Ok (groups', users') ->
  (forall x, x ∈ groups' <->
     x ∈ groups /\ forall role, role ∈ set -> kube_denies role = true -> x ∉ GetKubeGroups Deny role) /\
  (forall x, x ∈ users' <->
     x ∈ users /\ forall role, role ∈ set -> kube_denies role = true -> x ∉ GetKubeUsers Deny role).
Proof.
  revert groups users. induction set as [|role set IH]; intros groups users; simpl.
  { intros [= -> ->]. set_solver. }
  intros E. apply rbind_ok in E as (o & Eo & E).
  assert (Hk : kube_denies role = bool_decide (is_Some o)).
  { unfold kube_denies. rewrite Eo. by destruct o. }
  destruct (bool_decide (is_Some o)); apply IH in E as [Hg Hu]; split; intros x; [rewrite Hg|rewrite Hu|rewrite Hg|rewrite Hu];
    rewrite ?elem_of_difference, ?elem_of_list_to_set, forall_cons, Hk; clear; intuition discriminate.
Qed.

(** The principals: what a role allows whose matchers all match and that is
    within the lifetime, less what the roles deny of which some matcher
    matches. *)
Definition kube_granted (get : RoleConditionType -> RoleV6 -> list string) (ttl : duration)
    (overrideTTL : bool) (set : RoleSet) (x : string) : Prop :=
  (exists role, role ∈ set /\ kube_allows ttl overrideTTL role = true /\ x ∈ get Allow role) /\
  forall role, role ∈ set -> kube_denies role = true -> x ∉ get Deny role.

(** A matcher that fails ends the check with its error, whichever role and
    condition it fails on. *)
Definition kube_matcher_error (set : RoleSet) (e : error) : Prop :=
  exists role, role ∈ set /\ (MatchAll matchers role Allow = Err e \/ MatchAny matchers role Deny = Err e).
Definition kube_decided (set : RoleSet) : Prop :=
  forall role, role ∈ set -> is_ok (MatchAll matchers role Allow) = true /\ is_ok (MatchAny matchers role Deny) = true.

Lemma kube_allow_outcome ttl overrideTTL set groups users matched :
  match kube_allow ttl overrideTTL matchers groups users matched set with
  | Ok (_, _, matched') =>
      (forall role, role ∈ set -> is_ok (MatchAll matchers role Allow) = true) /\
      matched' = matched || existsb (kube_allows ttl overrideTTL) set
  | Err e => exists role, role ∈ set /\ MatchAll matchers role Allow = Err e
  end.
Proof.
  revert groups users matched. induction set as [|role set IH]; intros groups users matched; simpl.
  { rewrite orb_false_r. split; [set_solver|done]. }
  unfold kube_allows at 1. destruct (MatchAll matchers role Allow) as [b|e] eqn:Eb; simpl;
    [|exists role; split; [left|done]].
  assert (Hstep : forall g u m, m = matched || b && within_ttl ttl overrideTTL role ->
    match kube_allow ttl overrideTTL matchers g u m set with
    | Ok (_, _, matched') =>
        (forall r, r ∈ role :: set -> is_ok (MatchAll matchers r Allow) = true) /\
        matched' = matched || (b && within_ttl ttl overrideTTL role || existsb (kube_allows ttl overrideTTL) set)
    | Err e => exists r, r ∈ role :: set /\ MatchAll matchers r Allow = Err e
    end).
  { intros g u m ->. specialize (IH g u (matched || b && within_ttl ttl overrideTTL role)).
    destruct (kube_allow _ _ _ _ _ _ set) as [[[? ?] ?]|e].
    - destruct IH as [Hd ->]. rewrite forall_cons, Eb, orb_assoc. done.
    - apply exists_cons. by right. }
  destruct (b && within_ttl ttl overrideTTL role) eqn:Ek; apply Hstep; [by rewrite orb_true_r|by rewrite orb_false_r].
Qed.

Lemma kube_deny_outcome groups users set :
  match kube_deny matchers groups users set with
  | Ok _ => forall role, role ∈ set -> is_ok (MatchAny matchers role Deny) = true
  | Err e => exists role, role ∈ set /\ MatchAny matchers role Deny = Err e
  end.
Proof.
  revert groups users. induction set as [|role set IH]; intros groups users; simpl; [set_solver|].
  destruct (MatchAny matchers role Deny) as [o|e] eqn:Eo; simpl; [|exists role; split; [left|done]].
  destruct (bool_decide (is_Some o));
    (match goal with |- match kube_deny _ ?g ?u _ with _ => _ end => specialize (IH g u) end;
     destruct (kube_deny _ _ _ set); [apply forall_cons; by rewrite Eo|apply exists_cons; by right]).
Qed.

Lemma CheckKubeGroupsAndUsers_spec ttl overrideTTL set :
  match CheckKubeGroupsAndUsers ttl overrideTTL matchers set with
  | Ok (groups, users) =>
      kube_decided set /\ existsb (kube_allows ttl overrideTTL) set = true /\
      (forall x, x ∈ groups <-> kube_granted GetKubeGroups ttl overrideTTL set x) /\
      (forall x, x ∈ users <-> kube_granted GetKubeUsers ttl overrideTTL set x) /\
      (groups <> ∅ \/ users <> ∅)
  | Err e =>
      kube_matcher_error set e \/
      kube_decided set /\
        if existsb (kube_allows ttl overrideTTL) set
        then IsNotFound e = true /\ forall x,
          ~ kube_granted GetKubeGroups ttl overrideTTL set x /\ ~ kube_granted GetKubeUsers ttl overrideTTL set x
        else e_class e = KAccessDenied
  end.
Proof.
  unfold CheckKubeGroupsAndUsers. pose proof (kube_allow_outcome ttl overrideTTL set ∅ ∅ false) as Ha.
  destruct (kube_allow _ _ _ _ _ _ set) as [[[groups1 users1] matched]|e] eqn:Ea; simpl;
    [|destruct Ha as (r & ? & ?); left; exists r; auto].
  destruct Ha as [Hda ->]. pose proof (kube_deny_outcome groups1 users1 set) as Hd.
  destruct (kube_deny _ _ _ set) as [[groups2 users2]|e] eqn:Ed; simpl;
    [|destruct Hd as (r & ? & ?); left; exists r; auto].
  assert (Hdec : kube_decided set) by (intros r Hr; auto).
  apply kube_allow_elem in Ea as [Hg Hu]. apply kube_deny_elem in Ed as [Hg2 Hu2].
  assert (Hgs : forall x, x ∈ groups2 <-> kube_granted GetKubeGroups ttl overrideTTL set x)
    by (intros x; unfold kube_granted; rewrite Hg2, Hg; set_solver).
  assert (Hus : forall x, x ∈ users2 <-> kube_granted GetKubeUsers ttl overrideTTL set x)
    by (intros x; unfold kube_granted; rewrite Hu2, Hu; set_solver).
  destruct (existsb _ set) eqn:Em; simpl; [|by right].
  destruct (bool_decide (groups2 = ∅)) eqn:E1; bool_to_prop; simpl; [|by auto 10].
  destruct (bool_decide (users2 = ∅)) eqn:E2; bool_to_prop; simpl; [|by auto 10].
  right. split; [done|]. split; [done|]. intros x. rewrite <- Hgs, <- Hus, E1, E2. set_solver.
Qed.
End Kube.

(** Without matchers no deny condition is looked at. *)
Lemma kube_denies_no_matchers `{UnicodeTables} `{RegexpCache} `{MapOrder (list string)} `{LabelExpressions} role :
  kube_denies [] role = false.
Proof. done. Qed.

(** ** Deny conditions, then allow conditions *)

Section Loops.
Context {A : Type} (denied : error).

Lemma deny_then_ok (matches : A -> result bool) l :
  deny_then matches denied l = Ok tt <-> forall x, x ∈ l -> matches x = Ok false.
Proof.
  induction l as [|x l IH]; simpl; [set_solver|]. setoid_rewrite elem_of_cons.
  destruct (matches x) as [[]|] eqn:E; simpl.
  - split; [done|]. intros Hm. specialize (Hm x ltac:(auto)). congruence.
  - rewrite IH. naive_solver.
  - split; [done|]. intros Hm. specialize (Hm x ltac:(auto)). congruence.
Qed.

Lemma allow_one_ok (matches : A -> result bool) l :
  allow_one matches denied l = Ok tt -> exists x, x ∈ l /\ matches x = Ok true.
Proof.
  induction l as [|x l IH]; simpl; [done|]. destruct (matches x) as [[]|] eqn:E; simpl; [|..|done].
  - intros _. exists x. split; [left|done].
  - intros (y & ? & ?)%IH. exists y. split; [by right|done].
Qed.

Lemma deny_then_decides (deny : A -> result bool) l :
  (forall x, x ∈ l -> is_ok (deny x) = true) ->
  deny_then deny denied l = if existsb (fun x => yes (deny x)) l then Err denied else Ok tt.
Proof.
  induction l as [|x l IH]; simpl; intros Hok; [done|]. pose proof (Hok x ltac:(left)) as Hd.
  revert Hd. destruct (deny x) as [[]|]; simpl; intros Hd; [done| |done]. apply IH. intros y ?. apply Hok. by right.
Qed.

(** When nothing fails the two loops decide. *)
Lemma deny_allow_decides (deny allow : A -> result bool) l :
  (forall x, x ∈ l -> is_ok (deny x) = true /\ is_ok (allow x) = true) ->
  (check deny_then deny denied l; allow_one allow denied l) =
  if existsb (fun x => yes (deny x)) l then Err denied
  else if existsb (fun x => yes (allow x)) l then Ok tt else Err denied.
Proof.
  intros Hok. rewrite deny_then_decides by (intros x Hx; by apply Hok).
  destruct (existsb (fun x => yes (deny x)) l); simpl; [done|].
  induction l as [|x l IH]; simpl; [done|]. destruct (Hok x ltac:(left)) as [_ Ha].
  revert Ha. destruct (allow x) as [[]|]; simpl; intros Ha; [done| |done]. apply IH. intros y ?. apply Hok. by right.
Qed.
End Loops.

(** ** Logins *)

Lemma GetLoginsForTTL_acc ttl set st :
  foldl (add_logins ttl) st set =
  ((fst st ++ (filter (fun role => within_ttl ttl false role = true) set ≫= GetLogins Allow))%list,
   snd st || existsb (within_ttl ttl false) set).
Proof.
  revert st. induction set as [|role set IH]; intros st; cbn [foldl existsb].
  { simpl. rewrite app_nil_r, orb_false_r. by destruct st. }
  rewrite filter_cons, IH. unfold add_logins. destruct (within_ttl ttl false role) eqn:E; cbn; [|done].
  by rewrite <- app_assoc, orb_true_r.
Qed.

Lemma GetLoginsForTTL_spec ttl set :
  NoDup (fst (GetLoginsForTTL ttl set)) /\
  (forall x, x ∈ fst (GetLoginsForTTL ttl set) <->
     exists role, role ∈ set /\ within_ttl ttl false role = true /\ x ∈ GetLogins Allow role) /\
  snd (GetLoginsForTTL ttl set) = existsb (within_ttl ttl false) set.
Proof.
  unfold GetLoginsForTTL. rewrite GetLoginsForTTL_acc. simpl. split; [apply NoDup_Deduplicate|]. split; [|done].
  intros x. rewrite elem_of_Deduplicate, list_elem_of_bind. setoid_rewrite list_elem_of_filter. naive_solver.
Qed.
