(* ===== verification/Checker.v ===== *)
(** * The access checker: [lib/services/access_checker.go]

    The checker of an identity is its set of roles together with what its
    certificate restricts: the resources a granted access request names, with
    constraints on the principals, and the delegation session it runs in.
    The restrictions come before the roles and can only take access away.

    [validateAccessConditions] wraps the matchers in the slice of its caller;
    no caller of the repository uses that slice again, and the list here is
    a value. *)

From S2P Require Import Prelude GoStrings Utf8 Types Regexp Roles RoleLimits RoleAccess CheckAccess.
From S2P Require Import RoleRules.

(** ** Constraints: [resource_constraints.go] *)

(** The details of a set of constraints this build can read. *)
Inductive ConstraintDetails :=
| AwsConsole (RoleArns : list string)
| Ssh (Logins : list string).

Record ResourceConstraints := {
  con_Version : string;
  con_Details : option ConstraintDetails;
}.

Definition ResourceConstraintVersionV1 := V1.

(** [Validate] of the two kinds *)
Definition Validate (d : ConstraintDetails) : result unit :=
  match d with
  | AwsConsole [] => Err (BadParameter "aws_console constraints require role_arns, none provided" [])
  | Ssh [] => Err (BadParameter "ssh constraints require logins, none provided" [])
  | _ => Ok tt
  end.

(** [ResourceConstraints.CheckAndSetDefaults] *)
Definition constraints_CheckAndSetDefaults (rc : ResourceConstraints) : result ResourceConstraints :=
  fail_if negb (bool_decide (con_Version rc = "")) && negb (bool_decide (con_Version rc = ResourceConstraintVersionV1))
    with BadParameter "unsupported Constraints version %q" [con_Version rc];
  match con_Details rc with
  | None => Err (BadParameter "constraints carry no supported content; they are either empty or from a newer Teleport version" [])
  | Some d =>
      check Validate d;
      Ok {| con_Version := ResourceConstraintVersionV1; con_Details := Some d |}
  end.

(** [Unenforceable] *)
Definition Unenforceable (rc : option ResourceConstraints) : bool :=
  match rc with
  | Some rc => match con_Details rc with None => true | Some _ => false end
  | None => false
  end.

Section Constraints.
Context `{UnicodeTables} `{RegexpCache} `{MapOrder (list string)} `{LabelExpressions}.

Definition failing_matcher (e : error) : RoleMatcher := RoleMatcherFunc (fun _ _ => Err e).

Definition buildStringConstraintTransform (validate : result unit) (allowedSet : list string)
    (getPrincipal : RoleMatcher -> string) (m : RoleMatcher) : RoleMatcher :=
  match validate with
  | Err e => failing_matcher e
  | Ok _ =>
      let principal := getPrincipal m in
      if bool_decide (principal = "") then m
      else RoleMatcherFunc (fun role cond =>
             if negb (slices_Contains allowedSet principal) then Ok false else Match m role cond)
  end.

Definition aws_principal (m : RoleMatcher) : string :=
  match m with
  | awsAppLoginMatcher awsRole => awsRole
  | AWSRoleARNMatcher RoleARN => RoleARN
  | _ => ""
  end.

Definition ssh_principal (m : RoleMatcher) : string :=
  match m with loginMatcher login => login | _ => "" end.

Definition WithConstraints (rc : option ResourceConstraints) (m : RoleMatcher) : RoleMatcher :=
  match rc with
  | None => m
  | Some rc =>
      match con_Details rc with
      | Some (AwsConsole arns) =>
          buildStringConstraintTransform (Validate (AwsConsole arns)) arns aws_principal m
      | Some (Ssh logins) =>
          buildStringConstraintTransform (Validate (Ssh logins)) logins ssh_principal m
      | None => failing_matcher (BadParameter "unsupported constraint details type %T" [])
      end
  end.

(** [MatcherFromConstraints] *)
Definition MatcherFromConstraints (rc : option ResourceConstraints) : result (option RoleMatcher) :=
  match rc with
  | None => Ok None
  | Some rc =>
      match con_Details rc with
      | Some (AwsConsole arns) =>
          check Validate (AwsConsole arns);
          Ok (Some (AnyOf (map AWSRoleARNMatcher arns)))
      | Some (Ssh logins) =>
          check Validate (Ssh logins);
          Ok (Some (AnyOf (map loginMatcher logins)))
      | None => Err (BadParameter "unsupported constraint details type %T" [])
      end
  end.
End Constraints.

(** ** The identity *)

Record ResourceID := {
  rid_ClusterName : string;
  rid_Kind : string;
  rid_Name : string;
  rid_SubResourceName : string;
}.

Record ResourceAccessID := {
  GetResourceID : ResourceID;
  GetConstraints : option ResourceConstraints;
}.

Record AccessInfo := {
  ai_ScopePin : bool;
  ai_Roles : list string;
  ai_Traits : traits;
  ai_AllowedResourceAccessIDs : list ResourceAccessID;
  ai_DelegationSessionID : string;
  ai_Username : string;
}.

Record accessChecker := {
  ac_info : AccessInfo;
  ac_localCluster : string;
  ac_RoleSet : RoleSet;
}.

Section Build.
(** [RoleGetter.GetRole], and [ApplyTraitsWithContext] on a user name and
    traits *)
Variable GetRole : string -> result RoleV6.
Variable ApplyTraits : string -> traits -> RoleV6 -> result RoleV6.

Fixpoint FetchRoleListWithContext (roleNames : list string) (username : string) (ts : traits)
  : result (list RoleV6) :=
  match roleNames with
  | [] => Ok []
  | roleName :: roleNames' =>
      let? role := GetRole roleName in
      let? role := ApplyTraits username ts role in
      let? roles := FetchRoleListWithContext roleNames' username ts in
      Ok (role :: roles)
  end.

Definition FetchRolesWithContext (roleNames : list string) (username : string) (ts : traits)
  : result RoleSet :=
  let? roles := FetchRoleListWithContext roleNames username ts in
  Ok (NewRoleSet roles).

Definition newAccessChecker (info : AccessInfo) (localCluster : string) (roleSet : RoleSet) : accessChecker :=
  {| ac_info := info; ac_localCluster := localCluster; ac_RoleSet := roleSet |}.

Definition NewAccessChecker (info : AccessInfo) (localCluster : string) : result accessChecker :=
  fail_if ai_ScopePin info
    with Error KOther "cannot create standard access checker: %w" ["scoped identities not supported"] [];
  let? roleSet := FetchRolesWithContext (ai_Roles info) (ai_Username info) (ai_Traits info) in
  Ok (newAccessChecker info localCluster roleSet).
End Build.

(** ** Allowed resources *)

Definition KubernetesResourcesKinds : list string :=
  [ "pod"; "secret"; "configmap"; "namespace"; "service"; "serviceaccount"; "kube_node";
    "persistentvolume"; "persistentvolumeclaim"; "deployment"; "replicaset"; "statefulset";
    "daemonset"; "clusterrole"; "kube_role"; "clusterrolebinding"; "rolebinding"; "cronjob"; "job";
    "certificatesigningrequest"; "ingress" ].
Definition AccessRequestPrefixKindKube := "kube:".

Definition matchesUCRResource (requestedR : ResourceAccessID) (r : AccessCheckable) : bool :=
  let id := GetResourceID requestedR in
  if negb (bool_decide (rid_Name id = res_Name r)) then false
  else if slices_Contains KubernetesResourcesKinds (rid_Kind id)
       || HasPrefix (rid_Kind id) AccessRequestPrefixKindKube then
    bool_decide (res_Kind r = KindKubernetesCluster)
  else if bool_decide (rid_Kind id = KindIdentityCenterAccount) then
    bool_decide (res_Kind r = KindApp) && bool_decide (res_SubKind r = KindIdentityCenterAccount)
  else bool_decide (rid_Kind id = res_Kind r).

(** The loop over the allowed IDs: an ID that matches the resource and cannot
    be enforced refuses, the first of the others is the match. *)
Fixpoint match_allowed (localCluster : string) (r : AccessCheckable) (match_ : option ResourceAccessID)
    (ids : list ResourceAccessID) : result (option ResourceAccessID) :=
  match ids with
  | [] => Ok match_
  | resourceID :: ids' =>
      if negb (bool_decide (rid_ClusterName (GetResourceID resourceID) = localCluster))
         || negb (matchesUCRResource resourceID r) then match_allowed localCluster r match_ ids'
      else
        fail_if Unenforceable (GetConstraints resourceID)
          with AccessDenied "access to %v %+q denied because it carries constraints this component cannot enforce; they may have been created by a newer Teleport version"
                 [res_Kind r; res_Name r];
        match_allowed localCluster r (match match_ with None => Some resourceID | Some _ => match_ end) ids'
  end.

(** The text of the refusal with trace logging differs in its message. *)
Definition checkAllowedResources (a : accessChecker) (r : AccessCheckable)
  : result (option ResourceAccessID) :=
  match ai_AllowedResourceAccessIDs (ac_info a) with
  | [] => Ok None
  | ids =>
      let? match_ := match_allowed (ac_localCluster a) r None ids in
      match match_ with
      | Some _ => Ok match_
      | None => Err (AccessDenied "access to %v denied, not in allowed resource IDs" [res_Kind r])
      end
  end.

(** ** Delegation sessions *)

Definition impliedKinds : list (string * string) :=
  [ (KindApp, KindAppServer); (KindDatabase, KindDatabaseServer);
    (KindKubernetesCluster, KindKubeServer); (KindWindowsDesktop, KindWindowsDesktopService) ].

Definition blockedInDelegationSession (a : accessChecker) (kind verb : string) : bool :=
  if bool_decide (ai_DelegationSessionID (ac_info a) = "")
     || bool_decide (length (ai_AllowedResourceAccessIDs (ac_info a)) = 0%nat) then false
  else
    let allowedKinds := map (fun id => rid_Kind (GetResourceID id)) (ai_AllowedResourceAccessIDs (ac_info a)) in
    let children := omap (fun '(parent, child) =>
                      if slices_Contains allowedKinds parent then Some child else None) impliedKinds in
    negb (slices_Contains (allowedKinds ++ children) kind)
    || negb (slices_Contains [VerbList; VerbRead; VerbReadNoSecrets] verb).

Section Rules.
Context `{SortSlice Rule}.
Variable a : accessChecker.

Definition blocked (verb resource : string) : denial :=
  {| IsAccessExplicitlyDenied := false; denial_error := ruleDenied verb resource |}.

Definition checker_CheckAccessToRule (ctx : RuleContext) (namespace resource verb : string) : option denial :=
  if blockedInDelegationSession a resource verb then Some (blocked verb resource)
  else CheckAccessToRule ctx namespace resource verb (ac_RoleSet a).

Definition checker_GuessIfAccessIsPossible (ctx : RuleContext) (namespace resource verb : string)
  : option denial :=
  if blockedInDelegationSession a resource verb then Some (blocked verb resource)
  else GuessIfAccessIsPossible ctx namespace resource verb (ac_RoleSet a).

Definition checker_ExtractConditionForIdentifier
    (newParser : result (string -> result (option WhereExpr))) (namespace resource verb : string)
  : result (option WhereExpr) :=
  if blockedInDelegationSession a resource verb then Err (ruleDenied verb resource)
  else ExtractConditionForIdentifier newParser namespace resource verb (ac_RoleSet a).
End Rules.

(** ** Access to a resource *)

Section Access.
Context `{UnicodeTables} `{RegexpCache} `{MapOrder (list string)} `{LabelExpressions} `{Environment}.
Variable a : accessChecker.

Definition identity_center_matcher (r : AccessCheckable) : list RoleMatcher :=
  match res_IdentityCenter r with
  | None => []
  | Some (accountID, None) => [IdentityCenterAccountMatcher accountID]
  | Some (accountID, Some arn) => [IdentityCenterAccountAssignmentMatcher accountID arn]
  end.

(** The matchers the decision is made with. *)
Definition guarded (match_ : option ResourceAccessID) (matchers : list RoleMatcher) : list RoleMatcher :=
  match match_ with
  | None => matchers
  | Some id => map (WithConstraints (GetConstraints id)) matchers
  end.

Definition validateAccessConditions (r : AccessCheckable) (state : AccessState) (matchers : list RoleMatcher)
  : result (list Precondition) :=
  let? match_ := checkAllowedResources a r in
  let matchers := (matchers ++ identity_center_matcher r)%list in
  checkAccess r (ai_Username (ac_info a)) (ai_Traits (ac_info a)) state (guarded match_ matchers)
    (ac_RoleSet a).

Definition CheckAccess (r : AccessCheckable) (state : AccessState) (matchers : list RoleMatcher)
  : result unit :=
  check validateAccessConditions r (set_ReturnPreconditions false state) matchers;
  Ok tt.

Definition CheckConditionalAccess (r : AccessCheckable) (state : AccessState) (matchers : list RoleMatcher)
  : result (list Precondition) :=
  validateAccessConditions r (set_ReturnPreconditions true state) matchers.

Definition checker_CheckAccessToSAMLIdP (r : AccessCheckable) (authPref : option bool) (state : AccessState)
    (matchers : list RoleMatcher) : result unit :=
  check checkAllowedResources a r;
  CheckAccessToSAMLIdP r (ai_Username (ac_info a)) (ai_Traits (ac_info a)) authPref state matchers
    (ac_RoleSet a).

(** The labels of a resource against a condition of a role, for this user. *)
Definition role_labels (condition : RoleConditionType) (r : AccessCheckable) (role : RoleV6) : result bool :=
  checkRoleLabelsMatch condition role (ai_Username (ac_info a)) (ai_Traits (ac_info a)) r.

(** ** Remote clusters *)

Fixpoint uses_labels (set : RoleSet) : result bool :=
  match set with
  | [] => Ok false
  | role :: set' =>
      let? unset := labelMatchersUnset role KindRemoteCluster in
      if negb unset then Ok true else uses_labels set'
  end.

(** The roles whose condition matches, in order; the first failure ends it. *)
Fixpoint roles_matching (condition : RoleConditionType) (r : AccessCheckable) (set : RoleSet)
  : result RoleSet :=
  match set with
  | [] => Ok []
  | role :: set' =>
      let? match_ := role_labels condition r role in
      let? rest := roles_matching condition r set' in
      Ok (if match_ : bool then role :: rest else rest)
  end.

(** One of the two loops: whether some role's condition matches. *)
Fixpoint some_role_matches (condition : RoleConditionType) (r : AccessCheckable) (set : RoleSet)
  : result bool :=
  match set with
  | [] => Ok false
  | role :: set' =>
      let? match_ := role_labels condition r role in
      if match_ : bool then Ok true else some_role_matches condition r set'
  end.

Definition CheckAccessToRemoteCluster (rc : AccessCheckable) : result unit :=
  let denied := AccessDenied "access to cluster denied" [] in
  fail_if bool_decide (length (ac_RoleSet a) = 0%nat) with denied;
  let? usesLabels := uses_labels (ac_RoleSet a) in
  if negb usesLabels && bool_decide (size (GetAllLabels (res_Labels rc)) = 0%nat) then Ok tt
  else
    let? matchLabels := some_role_matches Deny rc (ac_RoleSet a) in
    fail_if matchLabels with denied;
    let? matchLabels := some_role_matches Allow rc (ac_RoleSet a) in
    if matchLabels : bool then Ok tt else Err denied.

(** ** Databases *)

(** [None] is no role that creates database users. *)
Definition checkDatabaseRoles (database : AccessCheckable) : result (option (RoleSet * RoleSet)) :=
  let autoCreateRoles :=
    filter (fun role => CreateDatabaseUserMode_IsEnabled (GetCreateDatabaseUserMode role)) (ac_RoleSet a) in
  match autoCreateRoles with
  | [] => Ok None
  | _ =>
      let? allowedRoleSet := roles_matching Allow database autoCreateRoles in
      let? deniedRoleSet := roles_matching Deny database autoCreateRoles in
      Ok (Some (allowedRoleSet, deniedRoleSet))
  end.

(** [createDatabaseUserMode] and [allowedRoles] of the result *)
Definition createDatabaseUserMode (o : option (RoleSet * RoleSet)) : CreateDatabaseUserMode :=
  match o with
  | None => DB_USER_MODE_UNSPECIFIED
  | Some (allowedRoleSet, _) => RoleSet_GetCreateDatabaseUserMode allowedRoleSet
  end.

Definition allowedRoles (o : option (RoleSet * RoleSet)) : gset string :=
  match o with
  | None => ∅
  | Some (allowedRoleSet, deniedRoleSet) =>
      list_to_set (allowedRoleSet ≫= GetDatabaseRoles Allow)
      ∖ list_to_set (deniedRoleSet ≫= GetDatabaseRoles Deny)
  end.

Definition DatabaseAutoUserMode (database : AccessCheckable) : result CreateDatabaseUserMode :=
  let? res := checkDatabaseRoles database in
  Ok (createDatabaseUserMode res).

(** The roles to assign, as a set: those requested, or all that are allowed. *)
Definition CheckDatabaseRoles (database : AccessCheckable) (userRequestedRoles : list string)
  : result (gset string) :=
  let? res := checkDatabaseRoles database in
  if negb (CreateDatabaseUserMode_IsEnabled (createDatabaseUserMode res)) then Ok ∅
  else if negb (bool_decide (userRequestedRoles = [])) then
    match filter (.∉ allowedRoles res) userRequestedRoles with
    | requestedRole :: _ => Err (AccessDenied "access to database role %q denied" [requestedRole])
    | [] => Ok (list_to_set userRequestedRoles)
    end
  else Ok (allowedRoles res).

(** ** Enumerations *)

Record EnumerationResult := {
  allowedDeniedMap : gmap string bool;
  wildcardAllowed : bool;
  wildcardDenied : bool;
}.

Definition NewEnumerationResult : EnumerationResult :=
  {| allowedDeniedMap := ∅; wildcardAllowed := false; wildcardDenied := false |}.

(** [filtered] *)
Definition filtered (res : EnumerationResult) (value : bool) : list string :=
  merge_sort at_most
    (omap (fun '(entity, allow) => if Bool.eqb allow value then Some entity else None)
       (map_to_list (allowedDeniedMap res))).

Definition Denied (res : EnumerationResult) : list string := filtered res false.
Definition Allowed (res : EnumerationResult) : list string :=
  if wildcardDenied res then [] else filtered res true.
Definition WildcardAllowed (res : EnumerationResult) : bool := wildcardAllowed res && negb (wildcardDenied res).

Definition ToEntities (res : EnumerationResult) : list string * list string :=
  if wildcardDenied res then ([], [Wildcard])
  else if wildcardAllowed res then (Wildcard :: Allowed res, Denied res)
  else (Allowed res, []).

(** The loop over the roles: the entities to check, and the wildcards. *)
Fixpoint gather_entities (resource : AccessCheckable) (listFn : RoleV6 -> RoleConditionType -> list string)
    (entities : list string) (res : EnumerationResult) (set : RoleSet) : list string * EnumerationResult :=
  match set with
  | [] => (entities, res)
  | role :: set' =>
      let resourceAllowedByRole :=
        is_ok (checkAccess resource (ai_Username (ac_info a)) (ai_Traits (ac_info a)) mfa_verified_state []
                 (NewRoleSet [role])) in
      let allow := filter (fun e => e <> Wildcard) (listFn role Allow) in
      let deny := filter (fun e => e <> Wildcard) (listFn role Deny) in
      gather_entities resource listFn
        (entities ++ (if resourceAllowedByRole then allow else []) ++ deny)%list
        {| allowedDeniedMap := allowedDeniedMap res;
           wildcardAllowed := wildcardAllowed res ||
             (resourceAllowedByRole && slices_Contains (listFn role Allow) Wildcard);
           wildcardDenied := wildcardDenied res || slices_Contains (listFn role Deny) Wildcard |} set'
  end.

Definition EnumerateEntities (resource : AccessCheckable)
    (listFn : RoleV6 -> RoleConditionType -> list string) (newMatcher : string -> RoleMatcher)
    (extraEntities : list string) : EnumerationResult :=
  let '(entities, res) := gather_entities resource listFn [] NewEnumerationResult (ac_RoleSet a) in
  let entities := Deduplicate (entities ++ extraEntities) in
  {| allowedDeniedMap :=
       foldl (fun m e => <[e := is_ok (CheckAccess resource mfa_verified_state [newMatcher e])]> m)
         (allowedDeniedMap res) entities;
     wildcardAllowed := wildcardAllowed res; wildcardDenied := wildcardDenied res |}.

Definition EnumerateDatabaseNames (database : AccessCheckable) (extraNames : list string) : EnumerationResult :=
  EnumerateEntities database (fun role condition => GetDatabaseNames condition role) DatabaseNameMatcher
    extraNames.

(** ** Logins *)

(** The logins a resource kind reads from a role, and their matcher. *)
Definition login_kind (resource : AccessCheckable)
  : result (option ((RoleConditionType -> RoleV6 -> list string) * (string -> RoleMatcher))) :=
  if bool_decide (res_Kind resource = KindNode) then Ok (Some (GetLogins, loginMatcher))
  else if bool_decide (res_Kind resource = KindWindowsDesktop) then
    Ok (Some (GetWindowsLogins, windowsLoginMatcher))
  else if bool_decide (res_Kind resource = KindLinuxDesktop) then
    Ok (Some (GetLinuxDesktopLogins, linuxDesktopLoginMatcher))
  else if bool_decide (res_Kind resource = KindApp) then
    match res_IsAWSConsole resource with
    | None => Err (BadParameter "received unsupported resource type for Application kind: %T" [])
    | Some false => Ok None
    | Some true => Ok (Some (GetAWSRoleARNs, awsAppLoginMatcher))
    end
  else Err (BadParameter "received unsupported resource kind: %s" [res_Kind resource]).

(** One role: an allowed login is set unless something was said of it, a
    denied one is denied. *)
Definition map_logins (loginGetter : RoleConditionType -> RoleV6 -> list string) (mapped : gmap string bool)
    (role : RoleV6) : gmap string bool :=
  let mapped := foldl (fun mapped login =>
                  match mapped !! login with None => <[login := true]> mapped | Some _ => mapped end)
                  mapped (loginGetter Allow role) in
  foldl (fun mapped login => <[login := false]> mapped) mapped (loginGetter Deny role).

Definition GetAllowedLoginsForResource `{MapOrder bool} (resource : AccessCheckable) : result (list string) :=
  match ac_RoleSet a with
  | [] =>
      (* no role, no login; an application has to be one of the console *)
      match login_kind resource with
      | Ok (Some _) => Ok []
      | Err e =>
          if bool_decide (res_Kind resource = KindApp)
          then Err (BadParameter "received unsupported resource type for Application: %T" []) else Err e
      | Ok None => Err (BadParameter "received unsupported resource type for Application: %T" [])
      end
  | set =>
      let? kind := login_kind resource in
      match kind with
      | None => Ok []
      | Some (loginGetter, newLoginMatcher) =>
          let mapped := foldl (map_logins loginGetter) (∅ : gmap string bool) set in
          let notDenied := omap (fun '(login, isNotDenied) =>
                             if isNotDenied : bool then Some login else None) (range mapped) in
          Ok (filter (fun login =>
                is_ok (CheckAccess resource mfa_verified_state [newLoginMatcher login])) notDenied)
      end
  end.
End Access.
