(* ===== verification/CheckerFacts.v ===== *)
(** * Facts about the access checker

    Matchers that answer alike give one decision; a constraint either answers
    as the matcher it wraps or refuses; so a restricted identity has at most
    the access of its roles, on the resources it names and with the principals
    it names. *)

From S2P Require Import Prelude GoStrings Utf8 Types Regexp Roles RoleLimits RoleAccess CheckAccess.
From S2P Require Import DecisionFacts RoleRules Checker.

(** ** Allowed resources *)

(** An identifier that names the resource in this cluster. *)
Definition identifies (localCluster : string) (r : AccessCheckable) (id : ResourceAccessID) : bool :=
  bool_decide (rid_ClusterName (GetResourceID id) = localCluster) && matchesUCRResource id r.

Lemma match_allowed_spec localCluster r o ids m :
  match_allowed localCluster r o ids = Ok m ->
  (forall id, id ∈ ids -> identifies localCluster r id = true -> Unenforceable (GetConstraints id) = false) /\
  m = match o with Some _ => o | None => list_find (fun id => identifies localCluster r id = true) ids ≫= (fun p => Some p.2) end.
Proof.
  revert o. induction ids as [|id ids IH]; intros o; simpl.
  { intros [= <-]. split; [set_solver|]. by destruct o. }
  assert (E : negb (bool_decide (rid_ClusterName (GetResourceID id) = localCluster))
    || negb (matchesUCRResource id r) = negb (identifies localCluster r id))
    by (unfold identifies; by rewrite negb_andb).
  rewrite E, forall_cons. destruct (identifies localCluster r id); simpl.
  - destruct (Unenforceable (GetConstraints id)) eqn:E3; [done|]. intros [Hu ->]%IH.
    split; [done|]. by destruct o.
  - intros [Hu ->]%IH. split; [done|]. destruct o; [done|]. by destruct (list_find _ ids) as [[]|].
Qed.

Lemma checkAllowedResources_spec a r m :
  checkAllowedResources a r = Ok m ->
  (forall id, id ∈ ai_AllowedResourceAccessIDs (ac_info a) -> identifies (ac_localCluster a) r id = true ->
     Unenforceable (GetConstraints id) = false) /\
  match m with
  | None => ai_AllowedResourceAccessIDs (ac_info a) = []
  | Some id => id ∈ ai_AllowedResourceAccessIDs (ac_info a) /\ identifies (ac_localCluster a) r id = true
  end.
Proof.
  unfold checkAllowedResources. destruct (ai_AllowedResourceAccessIDs (ac_info a)) as [|id0 ids].
  { intros [= <-]. split; [set_solver|done]. }
  intros E. apply rbind_ok in E as (m' & Em & E). apply match_allowed_spec in Em as [Hu ->].
  split; [done|]. destruct (list_find _ (id0 :: ids)) as [[i id]|] eqn:Ef; simpl in E; [|done].
  injection E as <-. apply list_find_Some in Ef as (Hl & Hn & _). split; [|done].
  by eapply list_elem_of_lookup_2.
Qed.

(** ** Matchers that answer alike *)

Section Alike.
Context `{UnicodeTables} `{RegexpCache} `{MapOrder (list string)} `{LabelExpressions}.

Definition alike (m m' : RoleMatcher) : Prop := forall role c, Match m role c = Match m' role c.

#[export] Instance alike_equivalence : Equivalence alike.
Proof.
  split; [by intros m role c|by intros m m' Hm role c|].
  intros m1 m2 m3 H12 H23 role c. by rewrite H12.
Qed.

Lemma MatchAll_alike ms ms' role c : Forall2 alike ms ms' -> MatchAll ms role c = MatchAll ms' role c.
Proof. induction 1 as [|m m' ms ms' Hm _ IH]; simpl; [done|]. by rewrite Hm, IH. Qed.

(** The answers without the matcher that gave them. *)
Lemma MatchAny_alike {B} ms ms' role c (k : bool -> result B) :
  Forall2 alike ms ms' ->
  (let? o := MatchAny ms role c in k (bool_decide (is_Some o))) =
  (let? o := MatchAny ms' role c in k (bool_decide (is_Some o))).
Proof.
  induction 1 as [|m m' ms ms' Hm _ IH]; simpl; [done|]. rewrite Hm.
  by destruct (Match m' role c) as [[]|].
Qed.

Section Decision.
Context `{Environment}.
Variable r : AccessCheckable.
Variable username : string.
Variable userTraits : traits.
Variable state : AccessState.

Lemma deny_rules_alike ms ms' set :
  Forall2 alike ms ms' ->
  deny_rules r username userTraits ms set = deny_rules r username userTraits ms' set.
Proof.
  intros Hm. induction set as [|role set IH]; simpl; [done|]. rewrite IH.
  destruct (negb _); [done|]. destruct (labels_match _ _ _ Deny role) as [[]|]; simpl; [done| |done].
  by apply (MatchAny_alike ms ms' role Deny
    (fun b => if b then Err (resourceDenied r) else deny_rules r username userTraits ms' set)).
Qed.

Lemma allow_rules_alike ms ms' preconds allowed set :
  Forall2 alike ms ms' ->
  allow_rules r username userTraits state ms preconds allowed set =
  allow_rules r username userTraits state ms' preconds allowed set.
Proof.
  intros Hm. revert preconds allowed. induction set as [|role set IH]; intros preconds allowed; [done|].
  rewrite !allow_rules_cons. unfold allow_match. rewrite (MatchAll_alike ms ms') by done.
  match goal with |- (let? _ := ?x in _) = _ => destruct x as [[]|] end; simpl; [|apply IH|done].
  destruct (bypassMFAChecks state && deviceTrusted state); [done|].
  destruct (mfa_missing state role && negb (as_ReturnPreconditions state)); [done|].
  destruct (VerifyTrustedDeviceMode _ _ _ _); simpl; [apply IH|done].
Qed.

Lemma checkAccess_alike ms ms' set :
  Forall2 alike ms ms' ->
  checkAccess r username userTraits state ms set = checkAccess r username userTraits state ms' set.
Proof.
  intros Hm. unfold checkAccess. rewrite (deny_rules_alike ms ms') by done.
  destruct (_ && negb _); [done|]. destruct (deny_rules _ _ _ ms' set); simpl; [|done].
  by apply allow_rules_alike.
Qed.
End Decision.

(** ** Constraints *)

(** The principal a constraint looks at, and the list it has to be in. *)
Definition constrained (rc : option ResourceConstraints) (m : RoleMatcher) : option (string * list string) :=
  match rc with
  | Some rc =>
      match con_Details rc with
      | Some (AwsConsole arns) => Some (aws_principal m, arns)
      | Some (Ssh logins) => Some (ssh_principal m, logins)
      | None => None
      end
  | None => None
  end.

Definition principal_allowed (rc : option ResourceConstraints) (m : RoleMatcher) : Prop :=
  forall principal allowedSet,
    constrained rc m = Some (principal, allowedSet) -> principal <> "" -> principal ∈ allowedSet.

Lemma transform_true validate allowedSet getPrincipal m role c :
  Match (buildStringConstraintTransform validate allowedSet getPrincipal m) role c = Ok true ->
  alike (buildStringConstraintTransform validate allowedSet getPrincipal m) m /\
  (getPrincipal m <> "" -> getPrincipal m ∈ allowedSet).
Proof.
  unfold buildStringConstraintTransform. destruct validate as [u|e]; [|done]. case_bool_decide as Hp.
  { intros _. split; [done|]. done. }
  simpl. destruct (slices_Contains allowedSet (getPrincipal m)) eqn:E; [|done]. simpl. intros _.
  apply slices_Contains_true in E. split; [|done]. by intros role' c'.
Qed.

(** Where a guarded matcher says yes once, it is the matcher, everywhere. *)
Lemma WithConstraints_true rc m role c :
  Match (WithConstraints rc m) role c = Ok true ->
  alike (WithConstraints rc m) m /\ principal_allowed rc m.
Proof.
  unfold WithConstraints, principal_allowed, constrained. destruct rc as [rc|]; [|intros _; by split].
  destruct (con_Details rc) as [[arns|logins]|]; [..|done];
    intros [Ha Hp]%transform_true; (split; [done|]); by intros ? ? [= <- <-].
Qed.
End Alike.

(** ** A restricted identity *)

Section Restricted.
Context `{UnicodeTables} `{RegexpCache} `{MapOrder (list string)} `{LabelExpressions} `{Environment}.
Variable a : accessChecker.

#[local] Abbreviation role_access := (fun r state matchers =>
  checkAccess r (ai_Username (ac_info a)) (ai_Traits (ac_info a)) state
    (matchers ++ identity_center_matcher r) (ac_RoleSet a)).

Lemma validateAccessConditions_sound r state matchers pc :
  validateAccessConditions a r state matchers = Ok pc ->
  role_access r state matchers = Ok pc /\
  (ai_AllowedResourceAccessIDs (ac_info a) = [] \/
   exists id, id ∈ ai_AllowedResourceAccessIDs (ac_info a) /\
     identifies (ac_localCluster a) r id = true /\ Unenforceable (GetConstraints id) = false /\
     forall m, m ∈ matchers -> principal_allowed (GetConstraints id) m).
Proof.
  unfold validateAccessConditions. intros E. apply rbind_ok in E as (o & Ea & E).
  apply checkAllowedResources_spec in Ea as [Hu Ho]. destruct o as [id|].
  2: { split; [exact E|by left]. }
  destruct Ho as [Hin Hn]. simpl in E.
  assert (Hg : forall m, m ∈ matchers ++ identity_center_matcher r ->
    alike (WithConstraints (GetConstraints id) m) m /\ principal_allowed (GetConstraints id) m).
  { pose proof (checkAccess_sound _ _ _ _ _ _ _ E) as (_ & (role & _ & Hg) & _).
    unfold grants in Hg. apply andb_true_iff in Hg as [_ Hg]. rewrite forallb_elem in Hg.
    intros m Hm. apply (WithConstraints_true _ _ role Allow), yes_true, Hg.
    by apply list_elem_of_fmap_2. }
  split.
  - rewrite <- E. symmetry. apply checkAccess_alike.
    clear -Hg. induction (matchers ++ identity_center_matcher r) as [|m ms IH]; [constructor|].
    cbn [map]. constructor; [apply Hg; left|]. apply IH. intros x Hx. apply Hg. by right.
  - right. exists id. split; [done|]. split; [done|]. split; [by apply Hu|].
    intros m Hm. apply Hg. apply elem_of_app. by left.
Qed.

Lemma CheckAccess_sound r state matchers :
  CheckAccess a r state matchers = Ok tt ->
  is_ok (role_access r (set_ReturnPreconditions false state) matchers) = true /\
  (ai_AllowedResourceAccessIDs (ac_info a) = [] \/
   exists id, id ∈ ai_AllowedResourceAccessIDs (ac_info a) /\
     identifies (ac_localCluster a) r id = true /\ Unenforceable (GetConstraints id) = false /\
     forall m, m ∈ matchers -> principal_allowed (GetConstraints id) m).
Proof.
  unfold CheckAccess. intros E. apply rbind_ok in E as (pc & E & _).
  apply validateAccessConditions_sound in E as [E ?]. by rewrite E.
Qed.

(** An identity without restrictions has the access of its roles. *)
Lemma CheckAccess_unrestricted r state matchers :
  ai_AllowedResourceAccessIDs (ac_info a) = [] ->
  is_ok (CheckAccess a r state matchers) = is_ok (role_access r (set_ReturnPreconditions false state) matchers).
Proof.
  intros Hn. unfold CheckAccess, validateAccessConditions, checkAllowedResources. rewrite Hn. simpl.
  by destruct (checkAccess _ _ _ _ _ _).
Qed.

(** ** Delegation sessions *)

Definition session_kinds : list string :=
  let kinds := map (fun id => rid_Kind (GetResourceID id)) (ai_AllowedResourceAccessIDs (ac_info a)) in
  (kinds ++ omap (fun '(parent, child) => if slices_Contains kinds parent then Some child else None) impliedKinds)%list.

Lemma blockedInDelegationSession_spec kind verb :
  blockedInDelegationSession a kind verb = false <->
  ai_DelegationSessionID (ac_info a) = "" \/ ai_AllowedResourceAccessIDs (ac_info a) = [] \/
  (kind ∈ session_kinds /\ verb ∈ [VerbList; VerbRead; VerbReadNoSecrets]).
Proof.
  unfold blockedInDelegationSession.
  destruct (bool_decide (ai_DelegationSessionID (ac_info a) = "")) eqn:E1; bool_to_prop; simpl; [tauto|].
  destruct (bool_decide (length (ai_AllowedResourceAccessIDs (ac_info a)) = 0%nat)) eqn:E2; bool_to_prop.
  { apply nil_length_inv in E2. tauto. }
  fold session_kinds. rewrite orb_false_iff, !negb_false_iff, !slices_Contains_true.
  assert (ai_AllowedResourceAccessIDs (ac_info a) <> []) by (intros E; by rewrite E in E2). tauto.
Qed.
End Restricted.

(** ** Logins *)

Section Logins.
Variable get : RoleConditionType -> RoleV6 -> list string.

Lemma set_if_new (l : list string) (mapped : gmap string bool) x :
  foldl (fun mapped login =>
    match mapped !! login with None => <[login := true]> mapped | Some _ => mapped end) mapped l !! x =
  match mapped !! x with Some b => Some b | None => if decide (x ∈ l) then Some true else None end.
Proof.
  revert mapped. induction l as [|y l IH]; intros mapped; simpl; [by destruct (mapped !! x)|].
  rewrite IH. destruct (decide (y = x)) as [->|Hn].
  - destruct (mapped !! x) as [b|] eqn:E; [by rewrite E|]. rewrite lookup_insert_eq, decide_True; [done|left].
  - assert (match mapped !! y with None => <[y := true]> mapped | Some _ => mapped end !! x = mapped !! x) as ->.
    { destruct (mapped !! y); [done|]. by rewrite lookup_insert_ne. }
    destruct (mapped !! x); [done|]. destruct (decide (x ∈ l)) as [Hi|Hi], (decide (x ∈ y :: l)) as [Hj|Hj]; set_solver.
Qed.

Lemma set_denied (l : list string) (mapped : gmap string bool) x :
  foldl (fun mapped login => <[login := false]> mapped) mapped l !! x =
  if decide (x ∈ l) then Some false else mapped !! x.
Proof.
  revert mapped. induction l as [|y l IH]; intros mapped; simpl; [done|]. rewrite IH.
  destruct (decide (x ∈ l)) as [Hi|Hi].
  - rewrite decide_True; [done|by right].
  - destruct (decide (y = x)) as [->|Hn].
    + rewrite lookup_insert_eq, decide_True; [done|left].
    + rewrite lookup_insert_ne by done. rewrite decide_False; [done|]. set_solver.
Qed.

(** A login is kept when some role allows it and none denies it. *)
Lemma map_logins_lookup set (mapped : gmap string bool) x :
  foldl (map_logins get) mapped set !! x =
  if existsb (fun role => bool_decide (x ∈ get Deny role)) set then Some false
  else match mapped !! x with
       | Some b => Some b
       | None => if existsb (fun role => bool_decide (x ∈ get Allow role)) set then Some true else None
       end.
Proof.
  revert mapped. induction set as [|role set IH]; intros mapped; simpl; [by destruct (mapped !! x)|].
  rewrite IH. unfold map_logins. rewrite set_denied, set_if_new.
  destruct (existsb (fun role => bool_decide (x ∈ get Deny role)) set); [by rewrite orb_true_r|].
  rewrite orb_false_r. destruct (decide (x ∈ get Deny role)) as [Hd|Hd].
  - by rewrite bool_decide_eq_true_2.
  - rewrite (bool_decide_eq_false_2 (x ∈ get Deny role)) by done. destruct (mapped !! x); [done|].
    destruct (decide (x ∈ get Allow role)) as [Ha|Ha].
    + by rewrite bool_decide_eq_true_2.
    + by rewrite bool_decide_eq_false_2.
Qed.
End Logins.

Section AllowedLogins.
Context `{UnicodeTables} `{RegexpCache} `{MapOrder (list string)} `{LabelExpressions} `{Environment}.
Context `{MapOrderLaws bool}.
Variable a : accessChecker.

Lemma GetAllowedLoginsForResource_spec resource get newLoginMatcher :
  login_kind resource = Ok (Some (get, newLoginMatcher)) ->
  exists logins, GetAllowedLoginsForResource a resource = Ok logins /\ forall x, x ∈ logins <->
    (exists role, role ∈ ac_RoleSet a /\ x ∈ get Allow role) /\
    (forall role, role ∈ ac_RoleSet a -> x ∉ get Deny role) /\
    is_ok (CheckAccess a resource mfa_verified_state [newLoginMatcher x]) = true.
Proof.
  intros Hk. unfold GetAllowedLoginsForResource. rewrite Hk.
  assert (Hl : forall x, foldl (map_logins get) ∅ (ac_RoleSet a) !! x = Some true <->
    (exists role, role ∈ ac_RoleSet a /\ x ∈ get Allow role) /\
    (forall role, role ∈ ac_RoleSet a -> x ∉ get Deny role)).
  { intros x. rewrite map_logins_lookup, lookup_empty.
    destruct (existsb (fun role => bool_decide (x ∈ get Deny role)) _) eqn:Ed.
    - apply existsb_elem in Ed as (role & Hr & Hd). bool_to_prop. split; [done|]. intros [_ Hn]. by destruct (Hn role).
    - rewrite existsb_elem_false in Ed. setoid_rewrite bool_decide_eq_false in Ed.
      destruct (existsb (fun role => bool_decide (x ∈ get Allow role)) _) eqn:Ea.
      + apply existsb_elem in Ea as (role & Hr & Ha). bool_to_prop. split; [|done]. intros _. split; [by exists role|done].
      + rewrite existsb_elem_false in Ea. setoid_rewrite bool_decide_eq_false in Ea. split; [done|].
        intros [(role & Hr & Ha) _]. by destruct (Ea role). }
  destruct (ac_RoleSet a) as [|role0 set] eqn:Es.
  { exists []. split; [done|]. intros x. split; [by intros ?%elem_of_nil|].
    intros [(role & Hr & _) _]. by apply elem_of_nil in Hr. }
  eexists. split; [reflexivity|]. intros x. rewrite list_elem_of_filter, list_elem_of_omap.
  transitivity (foldl (map_logins get) ∅ (role0 :: set) !! x = Some true /\
    is_ok (CheckAccess a resource mfa_verified_state [newLoginMatcher x]) = true); [|rewrite Hl; tauto].
  split.
  - intros (Hc & [login b] & Hin & Hb). apply elem_of_range in Hin. destruct b; [|done]. injection Hb as ->.
    split; [done|]. by destruct (is_ok _).
  - intros [Hin Hc]. split; [by rewrite Hc|]. exists (x, true). split; [|done]. by apply elem_of_range.
Qed.
End AllowedLogins.

(** ** Database roles *)

Section DatabaseRoles.
Context `{UnicodeTables} `{RegexpCache} `{MapOrder (list string)} `{LabelExpressions} `{Environment}.
Variable a : accessChecker.

Lemma roles_matching_elem condition r set set' role :
  roles_matching a condition r set = Ok set' ->
  role ∈ set' <-> role ∈ set /\ role_labels a condition r role = Ok true.
Proof.
  revert set'. induction set as [|role0 set IH]; intros set'; simpl; [intros [= <-]; set_solver|].
  intros E. apply rbind_ok in E as (b & Eb & E). apply rbind_ok in E as (rest & Er & E).
  injection E as <-. apply IH in Er. destruct b; rewrite ?elem_of_cons, Er; [naive_solver|].
  split; [tauto|]. intros [[->|?] ?]; [congruence|tauto].
Qed.

(** The database roles of a database: what a matching role that creates users
    allows, less what one denies. *)
Definition database_role_granted (database : AccessCheckable) (x : string) : Prop :=
  let grants c role := role ∈ ac_RoleSet a /\
    CreateDatabaseUserMode_IsEnabled (GetCreateDatabaseUserMode role) = true /\
    role_labels a c database role = Ok true /\ x ∈ GetDatabaseRoles c role in
  (exists role, grants Allow role) /\ ~ exists role, grants Deny role.

Lemma allowedRoles_elem database res x :
  checkDatabaseRoles a database = Ok res -> x ∈ allowedRoles res <-> database_role_granted database x.
Proof.
  unfold checkDatabaseRoles, database_role_granted.
  assert (Hf : forall role, role ∈ filter (fun role =>
      Is_true (CreateDatabaseUserMode_IsEnabled (GetCreateDatabaseUserMode role))) (ac_RoleSet a) <->
    role ∈ ac_RoleSet a /\ CreateDatabaseUserMode_IsEnabled (GetCreateDatabaseUserMode role) = true).
  { intros role. rewrite list_elem_of_filter, Is_true_true. tauto. }
  destruct (filter _ (ac_RoleSet a)) as [|role0 set] eqn:Ef.
  { intros [= <-]. simpl. split; [set_solver|]. intros [(role & Hr & He & _) _].
    exfalso. apply (elem_of_nil role), Hf. done. }
  intros E. apply rbind_ok in E as (al & Ea & E). apply rbind_ok in E as (dn & Ed & E). injection E as <-.
  simpl. rewrite elem_of_difference, !elem_of_list_to_set, !list_elem_of_bind.
  setoid_rewrite (roles_matching_elem _ _ _ _ _ Ea). setoid_rewrite (roles_matching_elem _ _ _ _ _ Ed).
  setoid_rewrite Hf. naive_solver.
Qed.

Lemma CheckDatabaseRoles_sound database requested roles :
  CheckDatabaseRoles a database requested = Ok roles ->
  forall x, x ∈ roles ->
    database_role_granted database x /\ (requested = [] \/ x ∈ requested).
Proof.
  unfold CheckDatabaseRoles. intros E. apply rbind_ok in E as (res & Er & E). intros x Hx.
  pose proof (allowedRoles_elem database res x Er) as Ha.
  destruct (negb (CreateDatabaseUserMode_IsEnabled _)); [injection E as <-; set_solver|].
  destruct (bool_decide (requested = [])) eqn:Eq; bool_to_prop; simpl in E.
  { injection E as <-. split; [by apply Ha|by left]. }
  destruct (filter (.∉ allowedRoles res) requested) as [|y l] eqn:Ef; [|done]. injection E as <-.
  apply elem_of_list_to_set in Hx. split; [|by right]. apply Ha.
  destruct (decide (x ∈ allowedRoles res)) as [|Hn]; [done|].
  assert (x ∈ filter (.∉ allowedRoles res) requested) as Hf by (by apply list_elem_of_filter).
  rewrite Ef in Hf. by apply elem_of_nil in Hf.
Qed.
End DatabaseRoles.
