(* ===== verification/HostUsers.v ===== *)
(** * What a login creates on a host: [HostUsers], [DesktopGroups] and
    [HostSudoers] of [lib/services/access_checker.go]

    The roles whose labels match a server say whether a host user is created,
    with which groups, shell and sudoers. *)

From S2P Require Import Prelude GoStrings Utf8 Types Regexp Roles RoleLimits RoleAccess CheckAccess.
From S2P Require Import RoleRules Checker.

Definition TraitHostUserUID := "host_user_uid".
Definition TraitHostUserGID := "host_user_gid".

(** The mode of the decision. *)
Inductive HostUserMode := MODE_UNSPECIFIED | MODE_KEEP | MODE_DROP.

Definition convertHostUserMode (mode : CreateHostUserMode) : HostUserMode :=
  if mode =? HOST_USER_MODE_KEEP then MODE_KEEP
  else if mode =? HOST_USER_MODE_INSECURE_DROP then MODE_DROP
  else MODE_UNSPECIFIED.

Record HostUsersInfo := {
  hu_Groups : gset string;
  hu_Mode : HostUserMode;
  hu_Uid : string;
  hu_Gid : string;
  hu_Shell : string;
}.

(** Determinants are the kind and the name of a role. *)
Record HostUsersDecision := {
  Info : option HostUsersInfo;
  AllowedBy : list (string * string);
  DeniedBy : list (string * string);
}.

Section HostUsers.
Context `{RegexpCache} `{MapOrder (list string)} `{LabelExpressions}.
Variable a : accessChecker.

(** The deny loop of the two functions: the groups that a matching role
    denies are removed. *)
Fixpoint remove_groups (s : AccessCheckable) (get : RoleV6 -> list string) (groups : gset string)
    (set : RoleSet) : result (gset string) :=
  match set with
  | [] => Ok groups
  | role :: set' =>
      let? match_ := role_labels a Deny s role in
      remove_groups s get (if match_ : bool then groups ∖ list_to_set (get role) else groups) set'
  end.

(** ** Desktops *)

Fixpoint desktop_allow (s : AccessCheckable) (groups : gset string) (set : RoleSet) : result (gset string) :=
  match set with
  | [] => Ok groups
  | role :: set' =>
      let? match_ := role_labels a Allow s role in
      if negb match_ then desktop_allow s groups set'
      else
        fail_if negb (default false (ro_CreateDesktopUser (GetOptions role)))
          with AccessDenied "user is not allowed to create host users" [];
        desktop_allow s (groups ∪ list_to_set (GetDesktopGroups Allow role)) set'
  end.

Definition DesktopGroups (s : AccessCheckable) : result (gset string) :=
  let? groups := desktop_allow s ∅ (ac_RoleSet a) in
  remove_groups s (GetDesktopGroups Deny) groups (ac_RoleSet a).

(** ** Host users *)

(** The mode a role asks for; the older option stands in for an unset one. *)
Definition createHostUserMode (role : RoleV6) : CreateHostUserMode :=
  let mode := ro_CreateHostUserMode (GetOptions role) in
  if mode =? HOST_USER_MODE_UNSPECIFIED then
    match ro_CreateHostUser (GetOptions role) with
    | Some true => HOST_USER_MODE_KEEP
    | _ => HOST_USER_MODE_OFF
    end
  else mode.

(** The variables of the allow loop. *)
Record host_state := {
  hs_groups : gset string;
  hs_shell : string;
  hs_mode : CreateHostUserMode;
  hs_allowed : list (string * string);
  hs_denied : list (string * string);
}.

Definition host_role (st : host_state) (role : RoleV6) : host_state :=
  let determinant := (role_Kind role, GetName role) in
  let roleMode := createHostUserMode role in
  if roleMode =? HOST_USER_MODE_OFF then
    {| hs_groups := hs_groups st; hs_shell := hs_shell st; hs_mode := hs_mode st;
       hs_allowed := hs_allowed st; hs_denied := hs_denied st ++ [determinant] |}
  else
    let mode := if hs_mode st =? HOST_USER_MODE_UNSPECIFIED then roleMode else hs_mode st in
    let mode := if (mode =? HOST_USER_MODE_INSECURE_DROP) && (roleMode =? HOST_USER_MODE_KEEP)
                then HOST_USER_MODE_KEEP else mode in
    {| hs_groups := hs_groups st ∪ list_to_set (GetHostGroups Allow role);
       hs_shell := if bool_decide (hs_shell st = "") then ro_CreateHostUserDefaultShell (GetOptions role)
                   else hs_shell st;
       hs_mode := mode;
       hs_allowed := hs_allowed st ++ [determinant];
       hs_denied := hs_denied st |}.

Fixpoint host_allow (s : AccessCheckable) (st : host_state) (set : RoleSet) : result host_state :=
  match set with
  | [] => Ok st
  | role :: set' =>
      let? match_ := role_labels a Allow s role in
      host_allow s (if match_ : bool then host_role st role else st) set'
  end.

Definition no_host_state : host_state :=
  {| hs_groups := ∅; hs_shell := ""; hs_mode := HOST_USER_MODE_UNSPECIFIED; hs_allowed := []; hs_denied := [] |}.

Definition first_value (name : string) : string :=
  match ai_Traits (ac_info a) !! name with
  | Some (v :: _) => v
  | _ => ""
  end.

(** The warning about shells that differ is left out. *)
Definition HostUsers (s : AccessCheckable) : result HostUsersDecision :=
  let? st := host_allow s no_host_state (ac_RoleSet a) in
  if negb (bool_decide (hs_denied st = [])) then
    Ok {| Info := None; AllowedBy := hs_allowed st; DeniedBy := hs_denied st |}
  else
    let? groups := remove_groups s (GetHostGroups Deny) (hs_groups st) (ac_RoleSet a) in
    Ok {| Info := Some {| hu_Groups := groups; hu_Mode := convertHostUserMode (hs_mode st);
                          hu_Uid := first_value TraitHostUserUID; hu_Gid := first_value TraitHostUserGID;
                          hu_Shell := hs_shell st |};
          AllowedBy := hs_allowed st; DeniedBy := hs_denied st |}.

(** ** Sudoers *)

(** The sudoers in the order they are first met. *)
Fixpoint sudoers_allow (s : AccessCheckable) (sudoers : list string) (set : RoleSet) : result (list string) :=
  match set with
  | [] => Ok sudoers
  | role :: set' =>
      let? match_ := role_labels a Allow s role in
      sudoers_allow s
        (if match_ : bool then
           foldl (fun sudoers sudoer =>
             if slices_Contains sudoers sudoer then sudoers else (sudoers ++ [sudoer])%list)
             sudoers (GetHostSudoers Allow role)
         else sudoers) set'
  end.

(** The loop over the denied entries, for one sudoer; [None] is the break out
    of both loops. *)
Fixpoint denied_loop (sudoer : string) (finalSudoers denied : list string) : option (list string) :=
  match denied with
  | [] => Some finalSudoers
  | deniedSudoer :: denied' =>
      if bool_decide (deniedSudoer = Wildcard) then None
      else denied_loop sudoer
             (if bool_decide (sudoer = deniedSudoer) then finalSudoers else (finalSudoers ++ [sudoer])%list)
             denied'
  end.

(** The loop over the sudoers, for one role. *)
Fixpoint outer_loop (denied : list string) (finalSudoers sudoers : list string) : list string :=
  match sudoers with
  | [] => finalSudoers
  | sudoer :: sudoers' =>
      match denied_loop sudoer finalSudoers denied with
      | None => []
      | Some finalSudoers => outer_loop denied finalSudoers sudoers'
      end
  end.

(** The deny loop; [finalSudoers] keeps its value from one role to the next. *)
Fixpoint sudoers_deny (s : AccessCheckable) (finalSudoers sudoers : list string) (set : RoleSet)
  : result (list string) :=
  match set with
  | [] => Ok sudoers
  | role :: set' =>
      let? match_ := role_labels a Deny s role in
      if negb match_ then sudoers_deny s finalSudoers sudoers set'
      else
        let finalSudoers := outer_loop (GetHostSudoers Deny role) finalSudoers sudoers in
        sudoers_deny s finalSudoers finalSudoers set'
  end.

Definition HostSudoers `{SortByName RoleV6} (s : AccessCheckable) : result (list string) :=
  let roleSet := sort_by_name GetName (ac_RoleSet a) in
  let? sudoers := sudoers_allow s [] roleSet in
  sudoers_deny s [] sudoers roleSet.
End HostUsers.

(** ** Facts about host users and sudoers

    A host user is created only when every role that matches the host wants
    one, with the groups that are allowed and not denied.  A sudoer that is
    granted was allowed by a matching role; what the deny loop takes away is
    less than the deny lists say. *)

Section Facts.
Context `{RegexpCache} `{MapOrder (list string)} `{LabelExpressions}.
Variable a : accessChecker.

(** The labels of a host match a condition of a role. *)
Definition matches (c : RoleConditionType) (s : AccessCheckable) (role : RoleV6) : Prop :=
  role_labels a c s role = Ok true.

Lemma remove_groups_elem s get groups set out :
  remove_groups a s get groups set = Ok out ->
  forall x, x ∈ out <-> x ∈ groups /\ forall role, role ∈ set -> matches Deny s role -> x ∉ get role.
Proof.
  unfold matches. revert groups. induction set as [|role set IH]; intros groups; simpl; [intros [= <-]; set_solver|].
  intros E x. apply rbind_ok in E as (b & Eb & E). rewrite (IH _ E x), forall_cons, Eb.
  destruct b; [rewrite elem_of_difference, elem_of_list_to_set|]; clear; intuition discriminate.
Qed.

(** ** Host users *)

(** The state of the allow loop after some roles. *)
Definition host_invariant (s : AccessCheckable) (seen : list RoleV6) (st : host_state) : Prop :=
  (hs_denied st = [] <-> forall role, role ∈ seen -> matches Allow s role -> createHostUserMode role <> HOST_USER_MODE_OFF) /\
  (forall x, x ∈ hs_groups st <-> exists role, role ∈ seen /\
     matches Allow s role /\ createHostUserMode role <> HOST_USER_MODE_OFF /\ x ∈ GetHostGroups Allow role).

Lemma elem_of_snoc {A} (x y : A) l : x ∈ l ++ [y] <-> x ∈ l \/ x = y.
Proof. by rewrite elem_of_app, list_elem_of_singleton. Qed.

Lemma exists_snoc {A} (P : A -> Prop) x l :
  (exists y, y ∈ l ++ [x] /\ P y) <-> (exists y, y ∈ l /\ P y) \/ P x.
Proof. setoid_rewrite elem_of_snoc. split; [intros (y & [?| ->] & ?)|intros [(y & ? & ?)|?]]; eauto. Qed.

Lemma forall_snoc {A} (P : A -> Prop) x l :
  (forall y, y ∈ l ++ [x] -> P y) <-> (forall y, y ∈ l -> P y) /\ P x.
Proof. setoid_rewrite elem_of_snoc. split; [auto|]. intros [Hl ?] y [?| ->]; auto. Qed.

Lemma host_step s seen st role b :
  host_invariant s seen st -> role_labels a Allow s role = Ok b ->
  host_invariant s (seen ++ [role]) (if b : bool then host_role st role else st).
Proof.
  unfold host_invariant, matches. intros [Hd Hg] Eb. rewrite forall_snoc, <- Hd.
  setoid_rewrite exists_snoc. setoid_rewrite <- Hg. rewrite Eb. clear Hd Hg. destruct b.
  - unfold host_role. destruct (createHostUserMode role =? HOST_USER_MODE_OFF) eqn:E; bool_to_prop; simpl.
    + split; [|intros x; tauto]. split; [by intros [_ ?]%app_eq_nil|]. intros [_ Hr]. by destruct Hr.
    + split; [tauto|]. intros x. rewrite elem_of_union, elem_of_list_to_set. tauto.
  - split; [intuition discriminate|]. intros x. intuition discriminate.
Qed.

Lemma host_allow_invariant s seen st set st' :
  host_invariant s seen st -> host_allow a s st set = Ok st' -> host_invariant s (seen ++ set) st'.
Proof.
  revert seen st. induction set as [|role set IH]; intros seen st Hi; simpl.
  { intros [= <-]. by rewrite app_nil_r. }
  intros E. apply rbind_ok in E as (b & Eb & E).
  rewrite (app_assoc seen [role] set : seen ++ role :: set = _). eapply IH; [|exact E]. by apply host_step.
Qed.

Lemma HostUsers_spec s d :
  HostUsers a s = Ok d ->
  (is_Some (Info d) <->
     forall role, role ∈ ac_RoleSet a -> matches Allow s role -> createHostUserMode role <> HOST_USER_MODE_OFF) /\
  (forall i, Info d = Some i -> forall x, x ∈ hu_Groups i <->
     (exists role, role ∈ ac_RoleSet a /\ matches Allow s role /\ x ∈ GetHostGroups Allow role) /\
     (forall role, role ∈ ac_RoleSet a -> matches Deny s role -> x ∉ GetHostGroups Deny role)).
Proof.
  unfold HostUsers. intros E. apply rbind_ok in E as (st & Ea & E).
  apply (host_allow_invariant s []) in Ea as [Hd Hg].
  2: { split; [|set_solver]. split; [|done]. intros _ role ?%elem_of_nil. done. }
  simpl in Hd, Hg. destruct (bool_decide (hs_denied st = [])) eqn:En; bool_to_prop; simpl in E.
  - apply rbind_ok in E as (groups & Er & E). injection E as <-. simpl. split.
    + split; [|done]. intros _. by apply Hd.
    + intros i [= <-] x. simpl. rewrite (remove_groups_elem _ _ _ _ _ Er x), Hg.
      pose proof (proj1 Hd En) as Hall. split; [naive_solver|]. intros [(role & ? & Hm & ?) ?]. split; [|done].
      exists role. auto.
  - injection E as <-. simpl. split; [|done]. split; [by intros [? [=]]|]. intros Hall. by apply Hd in Hall.
Qed.

(** ** Sudoers *)

Lemma add_sudoers (l acc : list string) x :
  x ∈ foldl (fun sudoers sudoer =>
    if slices_Contains sudoers sudoer then sudoers else (sudoers ++ [sudoer])%list) acc l -> x ∈ acc \/ x ∈ l.
Proof.
  revert acc. induction l as [|y l IH]; intros acc; simpl; [by left|]. intros [Hx|Hx]%IH; [|right; by right].
  destruct (slices_Contains acc y); [by left|]. apply elem_of_snoc in Hx as [?| ->]; [by left|right; left].
Qed.

Lemma sudoers_allow_elem s sudoers set out x :
  sudoers_allow a s sudoers set = Ok out -> x ∈ out ->
  x ∈ sudoers \/ exists role, role ∈ set /\ matches Allow s role /\ x ∈ GetHostSudoers Allow role.
Proof.
  revert sudoers. induction set as [|role set IH]; intros sudoers; simpl; [intros [= <-]; by left|].
  intros E Hx. apply rbind_ok in E as (b & Eb & E). rewrite exists_cons.
  destruct (IH _ E Hx) as [Hi|Hi]; [|auto]. destruct b; [|by left].
  apply add_sudoers in Hi as [?|?]; [by left|]. right. left. by split.
Qed.

Lemma denied_loop_incl sudoer final denied out x :
  denied_loop sudoer final denied = Some out -> x ∈ out -> x ∈ final \/ x = sudoer.
Proof.
  revert final. induction denied as [|d denied IH]; intros final; simpl; [intros [= <-]; by left|].
  case_bool_decide; [done|]. intros E Hx. destruct (IH _ E Hx) as [Hi| ->]; [|by right].
  case_bool_decide; [by left|]. by apply elem_of_snoc.
Qed.

Lemma outer_loop_incl denied final sudoers x :
  x ∈ outer_loop denied final sudoers -> x ∈ final \/ x ∈ sudoers.
Proof.
  revert final. induction sudoers as [|y sudoers IH]; intros final; simpl; [by left|].
  destruct (denied_loop y final denied) as [final'|] eqn:E; [|by intros ?%elem_of_nil].
  intros [Hx|Hx]%IH; [|right; by right].
  destruct (denied_loop_incl _ _ _ _ _ E Hx) as [?| ->]; [by left|right; left].
Qed.

Lemma sudoers_deny_incl s final sudoers set out x :
  sudoers_deny a s final sudoers set = Ok out -> x ∈ out -> x ∈ final \/ x ∈ sudoers.
Proof.
  revert final sudoers. induction set as [|role set IH]; intros final sudoers; simpl; [intros [= <-]; by right|].
  intros E Hx. apply rbind_ok in E as (b & Eb & E). destruct b; simpl in E; [|by eapply IH].
  destruct (IH _ _ E Hx) as [Hi|Hi]; by eapply outer_loop_incl.
Qed.

Lemma HostSudoers_sound `{SortByNameLaws RoleV6} s out x :
  HostSudoers a s = Ok out -> x ∈ out ->
  exists role, role ∈ ac_RoleSet a /\ matches Allow s role /\ x ∈ GetHostSudoers Allow role.
Proof.
  unfold HostSudoers. intros E Hx. apply rbind_ok in E as (sudoers & Ea & E).
  destruct (sudoers_deny_incl _ _ _ _ _ _ E Hx) as [?%elem_of_nil|Hi]; [done|].
  destruct (sudoers_allow_elem _ _ _ _ _ Ea Hi) as [?%elem_of_nil|(role & Hr & ?)]; [done|].
  exists role. split; [|done]. by rewrite <- (sort_by_name_permutation GetName (ac_RoleSet a)).
Qed.
End Facts.

(** ** What a deny list takes away *)

Lemma denied_loop_keeps sudoer final denied out x :
  denied_loop sudoer final denied = Some out -> x ∈ final -> x ∈ out.
Proof.
  revert final. induction denied as [|d denied IH]; intros final; simpl; [by intros [= <-]|].
  case_bool_decide; [done|]. intros E Hx. apply (IH _ E). case_bool_decide; [done|]. apply elem_of_snoc. by left.
Qed.

Lemma denied_loop_some sudoer final denied :
  Wildcard ∉ denied -> exists out, denied_loop sudoer final denied = Some out.
Proof.
  revert final. induction denied as [|d denied IH]; intros final Hw; simpl; [by eexists|].
  apply not_elem_of_cons in Hw as [? ?]. rewrite bool_decide_eq_false_2 by done. by apply IH.
Qed.

(** A sudoer is appended once for each entry that is not itself. *)
Lemma denied_loop_other sudoer final denied out d :
  denied_loop sudoer final denied = Some out -> d ∈ denied -> d <> sudoer -> sudoer ∈ out.
Proof.
  revert final. induction denied as [|d0 denied IH]; intros final; simpl; [by intros _ ?%elem_of_nil|].
  case_bool_decide; [done|]. intros E [->|Hd]%elem_of_cons Hn; [|by eapply IH].
  rewrite bool_decide_eq_false_2 in E by done. eapply denied_loop_keeps; [exact E|]. apply elem_of_snoc. by right.
Qed.

Lemma outer_loop_keeps denied final sudoers x :
  Wildcard ∉ denied -> x ∈ final -> x ∈ outer_loop denied final sudoers.
Proof.
  intros Hw. revert final. induction sudoers as [|y sudoers IH]; intros final Hx; simpl; [done|].
  destruct (denied_loop_some y final denied Hw) as [out E]. rewrite E. apply IH. by eapply denied_loop_keeps.
Qed.

(** A deny list with two entries takes no sudoer away, not even the two it
    names. *)
Lemma two_denied_entries_deny_nothing denied d d' final sudoers x :
  d ∈ denied -> d' ∈ denied -> d <> d' -> Wildcard ∉ denied ->
  x ∈ sudoers -> x ∈ outer_loop denied final sudoers.
Proof.
  intros Hd Hd' Hn Hw. revert final. induction sudoers as [|y sudoers IH]; intros final; [by intros ?%elem_of_nil|].
  simpl. destruct (denied_loop_some y final denied Hw) as [out E]. rewrite E.
  intros [->|Hx]%elem_of_cons; [|by apply IH]. apply outer_loop_keeps; [done|].
  destruct (decide (d = y)) as [->|Hy].
  - by apply (denied_loop_other _ _ _ _ d' E Hd').
  - by apply (denied_loop_other _ _ _ _ d E Hd).
Qed.

(** What an earlier role left over stays, whatever a later one denies. *)
Lemma later_role_denies_nothing denied final x :
  Wildcard ∉ denied -> x ∈ final -> x ∈ outer_loop denied final final.
Proof. apply outer_loop_keeps. Qed.

(** A role that matches and denies no sudoer takes all of them. *)
Lemma no_denied_entry_denies_all sudoers : outer_loop [] [] sudoers = [].
Proof. by induction sudoers. Qed.
