(* ===== verification/RoleMap.v ===== *)
(** * Roles across trusted clusters: [lib/services/trustedcluster.go]

    A role map turns the roles a user holds in another cluster into roles of
    this one, with expressions that may rewrite the name.  The identities of
    remote users go through it on their way to an access checker. *)

From S2P Require Import Prelude GoStrings Utf8 Types Regexp Roles RoleLimits RoleAccess CheckAccess.
From S2P Require Import RoleRules Checker.

(** [types.RoleMapping] *)
Record RoleMapping := {
  rm_Remote : string;
  rm_Local : list string;
}.

Definition RoleMap := list RoleMapping.

Section RoleMap.
Context `{RegexpCache}.

(** The loop over the local roles of an entry. *)
Fixpoint check_locals (locals : list string) : result unit :=
  match locals with
  | [] => Ok tt
  | local :: locals' =>
      fail_if bool_decide (local = "")
        with BadParameter "missing 'local' property of 'role_map' entry" [];
      fail_if bool_decide (local = Wildcard)
        with BadParameter "wildcard value is not supported for 'local' property of 'role_map' entry" [];
      check_locals locals'
  end.

Fixpoint parse_loop (directMatch : gmap string (list string)) (r : RoleMap)
  : result (gmap string (list string)) :=
  match r with
  | [] => Ok directMatch
  | roleMap :: r' =>
      fail_if bool_decide (rm_Remote roleMap = "")
        with BadParameter "missing 'remote' parameter for role_map" [];
      check match ReplaceRegexp (rm_Remote roleMap) "" "" with
            | Err e =>
                if bool_decide (e_class e = KBadParameter)
                then Err (BadParameter "failed to parse 'remote' parameter for role_map: %v" [e_fmt e])
                else Ok tt
            | Ok _ => Ok tt
            end;
      fail_if bool_decide (rm_Local roleMap = [])
        with BadParameter "missing 'local' parameter for 'role_map'" [];
      check check_locals (rm_Local roleMap);
      fail_if bool_decide (is_Some (directMatch !! rm_Remote roleMap))
        with BadParameter "remote role '%v' match is already specified" [rm_Remote roleMap];
      parse_loop (<[rm_Remote roleMap := rm_Local roleMap]> directMatch) r'
  end.

Definition parseRoleMap (r : RoleMap) : result (gmap string (list string)) := parse_loop ∅ r.

(** From a local role to the remote roles that grant it. *)
#[local] Abbreviation Index := (gmap string (gset string)).

Definition addToIndex (index : Index) (localRole remoteRole : string) : Index :=
  match index !! localRole with
  | None => <[localRole := {[remoteRole]}]> index
  | Some remoteRoles => <[localRole := remoteRoles ∪ {[remoteRole]}]> index
  end.

Fixpoint map_locals (expression remoteRole : string) (index : Index) (locals : list string) : result Index :=
  match locals with
  | [] => Ok index
  | replacementRole :: locals' =>
      match ReplaceRegexp expression replacementRole remoteRole with
      | Ok replacement =>
          map_locals expression remoteRole
            (if bool_decide (replacement = "") then index else addToIndex index replacement remoteRole) locals'
      | Err e =>
          if bool_decide (e = ErrReplaceRegexNotFound) then map_locals expression remoteRole index locals'
          else Err e
      end
  end.

Fixpoint map_remotes (mapping : RoleMapping) (index : Index) (remoteUserRoles : list string) : result Index :=
  match remoteUserRoles with
  | [] => Ok index
  | remoteRole :: remoteUserRoles' =>
      if bool_decide (remoteRole = DefaultImplicitRole) then map_remotes mapping index remoteUserRoles'
      else
        let? index := map_locals (rm_Remote mapping) remoteRole index (rm_Local mapping) in
        map_remotes mapping index remoteUserRoles'
  end.

Fixpoint map_loop (remoteUserRoles : list string) (index : Index) (r : RoleMap) : result Index :=
  match r with
  | [] => Ok index
  | mapping :: r' =>
      let? index := map_remotes mapping index remoteUserRoles in
      map_loop remoteUserRoles index r'
  end.

Definition mapRoles (remoteUserRoles : list string) (r : RoleMap) : result Index :=
  map_loop remoteUserRoles ∅ r.

(** The keys of the index, which the code collects in no particular order. *)
Definition MapRoles (r : RoleMap) (remoteRoles : list string) : result (gset string) :=
  check parseRoleMap r;
  let? index := mapRoles (if bool_decide (remoteRoles = []) then [""] else remoteRoles) r in
  Ok (dom index).

Fixpoint unmap_loop (index : Index) (remoteRoleSet : gset string) (localRoles : list string)
  : result (gset string) :=
  match localRoles with
  | [] => Ok remoteRoleSet
  | localRole :: localRoles' =>
      match index !! localRole with
      | None => Err (BadParameter "not all local roles could be mapped to remote roles" [])
      | Some rr => unmap_loop index (remoteRoleSet ∪ rr) localRoles'
      end
  end.

Definition UnmapRoles (r : RoleMap) (remoteUserRoles localRoles : list string) : result (gset string) :=
  let? index := mapRoles remoteUserRoles r in
  unmap_loop index ∅ localRoles.

(** ** The identities *)

(** [TraitLogins] and the others the cluster writes *)
Definition TraitLogins := "logins".
Definition TraitKubeGroups := "kubernetes_groups".
Definition TraitKubeUsers := "kubernetes_users".
Definition TraitDBNames := "db_names".
Definition TraitDBUsers := "db_users".
Definition TraitAWSRoleARNs := "aws_role_arns".

(** [tlsca.Identity] and [sshca.Identity], as far as they are read here *)
Record RemoteIdentity := {
  id_Username : string;
  id_ScopePin : bool;
  id_Roles : list string;
  id_Principals : list string;
  id_KubernetesGroups : list string;
  id_KubernetesUsers : list string;
  id_DatabaseNames : list string;
  id_DatabaseUsers : list string;
  id_AWSRoleARNs : list string;
  id_Traits : traits;
  id_AllowedResourceAccessIDs : list ResourceAccessID;
  id_DelegationSessionID : string;
  id_TeleportCluster : string;
}.

Definition info_of (identity : RemoteIdentity) (roles : list string) (ts : traits) : AccessInfo :=
  {| ai_ScopePin := false; ai_Roles := roles; ai_Traits := ts;
     ai_AllowedResourceAccessIDs := id_AllowedResourceAccessIDs identity;
     ai_DelegationSessionID := id_DelegationSessionID identity; ai_Username := id_Username identity |}.

Definition AccessInfoFromLocalTLSIdentity (identity : RemoteIdentity) : result AccessInfo :=
  fail_if bool_decide (id_Roles identity = []) && negb (id_ScopePin identity)
    with BadParameter "tls identity %q has no roles or scope pin, this may indicate a malformed certificate or one that was issued by an incompatible teleport version" [id_Username identity];
  Ok {| ai_ScopePin := id_ScopePin identity; ai_Roles := id_Roles identity; ai_Traits := id_Traits identity;
        ai_AllowedResourceAccessIDs := id_AllowedResourceAccessIDs identity;
        ai_DelegationSessionID := id_DelegationSessionID identity; ai_Username := id_Username identity |}.

Definition remote_traits (identity : RemoteIdentity) : gmap string (list string) :=
  list_to_map [ (TraitLogins, id_Principals identity); (TraitKubeGroups, id_KubernetesGroups identity);
                (TraitKubeUsers, id_KubernetesUsers identity); (TraitDBNames, id_DatabaseNames identity);
                (TraitDBUsers, id_DatabaseUsers identity); (TraitAWSRoleARNs, id_AWSRoleARNs identity) ]
  ∪ id_Traits identity.

Definition AccessInfoFromRemoteTLSIdentity (identity : RemoteIdentity) (roleMap : RoleMap)
  : result AccessInfo :=
  fail_if id_ScopePin identity
    with BadParameter "scope pinning is not supported for remote TLS identities" [];
  match MapRoles roleMap (id_Roles identity) with
  | Err e =>
      Err (AccessDenied "failed to map roles for remote user %q from cluster %q with remote roles %v: %v"
             ([id_Username identity; id_TeleportCluster identity] ++ id_Roles identity ++ [e_fmt e]))
  | Ok roles =>
      fail_if bool_decide (roles = ∅)
        with AccessDenied "no roles mapped for remote user %q from cluster %q with remote roles %v"
               ([id_Username identity; id_TeleportCluster identity] ++ id_Roles identity);
      Ok (info_of identity (elements roles) (remote_traits identity))
  end.

Definition AccessInfoFromRemoteSSHIdentity (unmappedIdentity : RemoteIdentity) (roleMap : RoleMap)
  : result AccessInfo :=
  fail_if id_ScopePin unmappedIdentity
    with BadParameter "scope pinning is not supported for remote SSH identities" [];
  let ts := <[TraitLogins := id_Principals unmappedIdentity]> (id_Traits unmappedIdentity) in
  match MapRoles roleMap (id_Roles unmappedIdentity) with
  | Err e =>
      Err (AccessDenied "failed to map roles for user with remote roles %v: %v"
             (id_Roles unmappedIdentity ++ [e_fmt e]))
  | Ok roles =>
      fail_if bool_decide (roles = ∅)
        with AccessDenied "no roles mapped for user with remote roles %v" (id_Roles unmappedIdentity);
      Ok (info_of unmappedIdentity (elements roles) ts)
  end.
End RoleMap.

(** ** Facts about role maps

    A local role is mapped to exactly when an entry rewrites one of the remote
    roles to it; unmapping gives the remote roles it came from, and mapping
    those again gives the same local roles. *)

#[local] Abbreviation Index := (gmap string (gset string)).

(** The remote roles an index gives for a local role. *)
Definition indexed (index : Index) (localRole remoteRole : string) : Prop :=
  exists s, index !! localRole = Some s /\ remoteRole ∈ s.

(** No local role is without a remote one. *)
Definition inhabited (index : Index) : Prop := forall localRole s, index !! localRole = Some s -> exists x, x ∈ s.

Lemma indexed_addToIndex index l r l' r' :
  indexed (addToIndex index l r) l' r' <-> indexed index l' r' \/ (l' = l /\ r' = r).
Proof.
  unfold indexed, addToIndex. destruct (index !! l) as [s|] eqn:E; destruct (decide (l' = l)) as [->|Hn].
  - rewrite lookup_insert_eq, E. split.
    + intros (x & [= <-] & [?| ->%elem_of_singleton]%elem_of_union); [left|right]; eauto.
    + intros [(x & [= <-] & ?)|[_ ->]]; eexists; (split; [done|]); set_solver.
  - rewrite lookup_insert_ne by done. naive_solver.
  - rewrite lookup_insert_eq, E. split.
    + intros (x & [= <-] & ->%elem_of_singleton). by right.
    + intros [(x & [=] & _)|[_ ->]]. eexists. split; [done|]. by apply elem_of_singleton.
  - rewrite lookup_insert_ne by done. naive_solver.
Qed.

Lemma inhabited_addToIndex index l r : inhabited index -> inhabited (addToIndex index l r).
Proof.
  intros Hi l' s. unfold addToIndex. destruct (index !! l) as [s0|];
    (destruct (decide (l' = l)) as [->|]; [rewrite lookup_insert_eq|rewrite lookup_insert_ne by done; apply Hi]);
    intros [= <-]; exists r; set_solver.
Qed.

Section Facts.
Context `{RegexpCache}.

(** An entry rewrites a remote role to a local one. *)
Definition rewrites (mapping : RoleMapping) (remoteRole localRole : string) : Prop :=
  remoteRole <> DefaultImplicitRole /\ localRole <> "" /\
  exists template, template ∈ rm_Local mapping /\
    ReplaceRegexp (rm_Remote mapping) template remoteRole = Ok localRole.

(** Nothing fails but for a missing match. *)
Definition replaceable (mapping : RoleMapping) (remoteRole : string) : Prop :=
  remoteRole <> DefaultImplicitRole -> forall template, template ∈ rm_Local mapping ->
    is_ok (ReplaceRegexp (rm_Remote mapping) template remoteRole) = true \/
    ReplaceRegexp (rm_Remote mapping) template remoteRole = Err ErrReplaceRegexNotFound.

(** What one part of the walk adds to an index. *)
Definition adds (out : result Index) (index : Index) (P : string -> string -> Prop) : Prop :=
  forall index', out = Ok index' ->
    (forall l r, indexed index' l r <-> indexed index l r \/ P l r) /\ (inhabited index -> inhabited index').

Lemma map_locals_adds expression remoteRole index locals :
  adds (map_locals expression remoteRole index locals) index
    (fun l r => r = remoteRole /\ l <> "" /\
       exists template, template ∈ locals /\ ReplaceRegexp expression template remoteRole = Ok l).
Proof.
  revert index. induction locals as [|t locals IH]; intros index index'; simpl.
  { intros [= <-]. split; [set_solver|done]. }
  setoid_rewrite exists_cons. destruct (ReplaceRegexp expression t remoteRole) as [l0|e] eqn:Et.
  - intros [Hi Hh]%IH. split.
    + intros l r. rewrite Hi. case_bool_decide as Hl; [|rewrite indexed_addToIndex]; naive_solver.
    + intros Hn. apply Hh. case_bool_decide; [done|]. by apply inhabited_addToIndex.
  - destruct (bool_decide (e = ErrReplaceRegexNotFound)); [|done]. intros [Hi Hh]%IH. split; [|done].
    intros l r. rewrite Hi. naive_solver.
Qed.

Lemma map_remotes_adds mapping index remotes :
  adds (map_remotes mapping index remotes) index (fun l r => r ∈ remotes /\ rewrites mapping r l).
Proof.
  unfold rewrites. revert index. induction remotes as [|r0 remotes IH]; intros index index'; simpl.
  { intros [= <-]. split; [set_solver|done]. }
  setoid_rewrite elem_of_cons. case_bool_decide as E.
  { intros [Hi Hh]%IH. split; [|done]. intros l r. rewrite Hi. naive_solver. }
  intros Eo. apply rbind_ok in Eo as (index1 & E1 & E2).
  apply map_locals_adds in E1 as [Hi1 Hh1]. apply IH in E2 as [Hi2 Hh2]. split; [|tauto].
  intros l r. rewrite Hi2, Hi1. naive_solver.
Qed.

Lemma map_loop_adds remotes index r :
  adds (map_loop remotes index r) index
    (fun l rem => rem ∈ remotes /\ exists mapping, mapping ∈ r /\ rewrites mapping rem l).
Proof.
  revert index. induction r as [|mapping r IH]; intros index index'; simpl.
  { intros [= <-]. split; [set_solver|done]. }
  setoid_rewrite exists_cons. intros Eo. apply rbind_ok in Eo as (index1 & E1 & E2).
  apply map_remotes_adds in E1 as [Hi1 Hh1]. apply IH in E2 as [Hi2 Hh2]. split; [|tauto].
  intros l rem. rewrite Hi2, Hi1. tauto.
Qed.

Lemma mapRoles_spec remotes r index :
  mapRoles remotes r = Ok index ->
  (forall l rem, indexed index l rem <-> rem ∈ remotes /\ exists mapping, mapping ∈ r /\ rewrites mapping rem l) /\
  inhabited index.
Proof.
  intros [Hi Hh]%map_loop_adds. split; [|apply Hh; by intros ? ? ?%lookup_empty_Some].
  intros l rem. rewrite Hi. split; [|by right]. intros [(s & ?%lookup_empty_Some & _)|?]; done.
Qed.

(** ** Failures *)

Lemma map_locals_ok expression remoteRole index locals :
  is_ok (map_locals expression remoteRole index locals) = true <->
  forall t, t ∈ locals -> is_ok (ReplaceRegexp expression t remoteRole) = true \/
    ReplaceRegexp expression t remoteRole = Err ErrReplaceRegexNotFound.
Proof.
  revert index. induction locals as [|t locals IH]; intros index; simpl; [set_solver|]. rewrite forall_cons.
  destruct (ReplaceRegexp expression t remoteRole) as [l|e] eqn:E; simpl; [rewrite IH; tauto|].
  case_bool_decide as He; [subst; rewrite IH; tauto|]. split; [done|]. intros [[|] _]; congruence.
Qed.

Lemma map_remotes_ok mapping index remotes :
  is_ok (map_remotes mapping index remotes) = true <-> forall rem, rem ∈ remotes -> replaceable mapping rem.
Proof.
  revert index. induction remotes as [|r0 remotes IH]; intros index; simpl; [set_solver|]. rewrite forall_cons.
  unfold replaceable at 1. case_bool_decide as E; [rewrite IH; tauto|].
  pose proof (map_locals_ok (rm_Remote mapping) r0 index (rm_Local mapping)) as Hl.
  destruct (map_locals _ _ _ _) as [index1|e]; simpl in *; [rewrite IH; tauto|].
  split; [done|]. intros [Hr _]. apply Hl. auto.
Qed.

Lemma map_loop_ok remotes index r :
  is_ok (map_loop remotes index r) = true <->
  forall mapping, mapping ∈ r -> forall rem, rem ∈ remotes -> replaceable mapping rem.
Proof.
  revert index. induction r as [|mapping r IH]; intros index; simpl; [set_solver|]. rewrite forall_cons.
  pose proof (map_remotes_ok mapping index remotes) as Hl.
  destruct (map_remotes mapping index remotes) as [index1|e]; simpl in *; [rewrite IH; tauto|].
  split; [done|]. intros [Hr _]. by apply Hl.
Qed.

Lemma mapRoles_mono remotes remotes' r :
  (forall rem, rem ∈ remotes' -> rem ∈ remotes) ->
  is_ok (mapRoles remotes r) = true -> is_ok (mapRoles remotes' r) = true.
Proof. unfold mapRoles. rewrite !map_loop_ok. auto. Qed.

(** ** Mapping and unmapping *)

Lemma MapRoles_spec r remotes locals :
  MapRoles r remotes = Ok locals ->
  forall l, l ∈ locals <->
    exists rem, rem ∈ (if bool_decide (remotes = []) then [""] else remotes) /\
      exists mapping, mapping ∈ r /\ rewrites mapping rem l.
Proof.
  unfold MapRoles. intros E. apply rbind_ok in E as (dm & _ & E). apply rbind_ok in E as (index & Ei & E).
  injection E as <-. apply mapRoles_spec in Ei as [Hi Hh]. intros l. rewrite elem_of_dom. split.
  - intros [s Hs]. destruct (Hh _ _ Hs) as [rem Hr]. exists rem. apply Hi. by exists s.
  - intros (rem & Hr). apply Hi in Hr as (s & -> & _). done.
Qed.

Lemma unmap_loop_ok index acc locals :
  (forall l, l ∈ locals -> is_Some (index !! l)) ->
  exists back, unmap_loop index acc locals = Ok back /\
    forall rem, rem ∈ back <-> rem ∈ acc \/ exists l, l ∈ locals /\ indexed index l rem.
Proof.
  revert acc. induction locals as [|l locals IH]; intros acc; simpl.
  { intros _. exists acc. split; [done|]. set_solver. }
  rewrite forall_cons. intros [[s Hs] Hl]. rewrite Hs. destruct (IH (acc ∪ s) Hl) as (back & -> & Hb).
  exists back. split; [done|]. intros rem. rewrite Hb, exists_cons, elem_of_union. unfold indexed.
  rewrite Hs. naive_solver.
Qed.

Lemma unmap_loop_err index acc locals l :
  l ∈ locals -> index !! l = None -> is_ok (unmap_loop index acc locals) = false.
Proof.
  intros Hl Hn. revert acc. induction locals as [|l' locals IH]; intros acc; [by apply elem_of_nil in Hl|].
  simpl. apply elem_of_cons in Hl as [<-|Hl]; [by rewrite Hn|]. destruct (index !! l'); [by apply IH|done].
Qed.

(** Mapping what unmapping found gives the same roles. *)
Lemma MapRoles_UnmapRoles r remotes locals :
  remotes <> [] -> locals <> ∅ -> MapRoles r remotes = Ok locals ->
  exists back, UnmapRoles r remotes (elements locals) = Ok back /\
    (forall rem, rem ∈ back -> rem ∈ remotes) /\
    MapRoles r (elements back) = Ok locals.
Proof.
  intros Hr Hl E. unfold MapRoles in E. apply rbind_ok in E as (dm & Ep & E).
  apply rbind_ok in E as (index & Ei & E). rewrite bool_decide_eq_false_2 in Ei by done. injection E as <-.
  pose proof (mapRoles_spec _ _ _ Ei) as [Hi Hh]. unfold UnmapRoles. rewrite Ei. simpl.
  destruct (unmap_loop_ok index ∅ (elements (dom index))) as (back & -> & Hb).
  { intros l. by rewrite elem_of_elements, elem_of_dom. }
  assert (Hb' : forall rem, rem ∈ back <-> exists l, indexed index l rem).
  { intros rem. rewrite Hb. split; [intros [?%not_elem_of_empty|(l & _ & ?)]; [done|by exists l]|].
    intros [l Hx]. right. exists l. split; [|done]. destruct Hx as (s & Hs & _).
    rewrite elem_of_elements, elem_of_dom. by exists s. }
  assert (Hin : forall rem, rem ∈ back -> rem ∈ remotes) by (intros rem [l []%Hi]%Hb'; done).
  exists back. split; [done|]. split; [done|]. unfold MapRoles. rewrite Ep. simpl.
  rewrite bool_decide_eq_false_2.
  2: { apply set_choose_L in Hl as [l Hx]. apply elem_of_dom in Hx as [s Hs]. destruct (Hh _ _ Hs) as [rem Hrem].
       intros En%elements_empty_iff. apply (not_elem_of_empty (C:=gset string) rem), En, Hb'. by exists l, s. }
  destruct (mapRoles (elements back) r) as [index2|e] eqn:E2.
  2: { assert (is_ok (mapRoles (elements back) r) = true) as Ho; [|by rewrite E2 in Ho].
       eapply mapRoles_mono; [|by rewrite Ei]. intros rem. rewrite elem_of_elements. auto. }
  simpl. f_equal. apply mapRoles_spec in E2 as [Hi2 Hh2]. apply set_eq. intros l. rewrite !elem_of_dom. split.
  - intros [s Hs]. destruct (Hh2 _ _ Hs) as [rem Hrem].
    assert (indexed index2 l rem) as [Hb2 Hw]%Hi2 by by exists s. rewrite elem_of_elements in Hb2.
    assert (indexed index l rem) as (s' & -> & _) by (apply Hi; auto). done.
  - intros [s Hs]. destruct (Hh _ _ Hs) as [rem Hrem]. assert (indexed index l rem) as Hx by by exists s.
    assert (indexed index2 l rem) as (s' & -> & _); [|done]. apply Hi2. split; [|by apply Hi in Hx as [_ ?]].
    rewrite elem_of_elements. apply Hb'. by exists l.
Qed.
End Facts.

(** The traits the cluster writes come before those of the user. *)
Lemma remote_traits_lookup identity name :
  remote_traits identity !! name =
  if bool_decide (name = TraitLogins) then Some (id_Principals identity)
  else if bool_decide (name = TraitKubeGroups) then Some (id_KubernetesGroups identity)
  else if bool_decide (name = TraitKubeUsers) then Some (id_KubernetesUsers identity)
  else if bool_decide (name = TraitDBNames) then Some (id_DatabaseNames identity)
  else if bool_decide (name = TraitDBUsers) then Some (id_DatabaseUsers identity)
  else if bool_decide (name = TraitAWSRoleARNs) then Some (id_AWSRoleARNs identity)
  else id_Traits identity !! name.
Proof.
  unfold remote_traits, traits.
  rewrite lookup_union. cbn [list_to_map foldr fst snd].
  do 6 (rewrite lookup_insert; case_decide;
    [subst; rewrite bool_decide_eq_true_2 by done; by rewrite union_Some_l|rewrite bool_decide_eq_false_2 by congruence]).
  by rewrite lookup_empty, (left_id_L None (∪)).
Qed.
