(* ===== verification/Moderation.v ===== *)
(** * Moderated sessions: [lib/auth/moderation/session_access.go]

    Who may join a session, and when it may run.  The host user's roles
    require participants, one policy set per role; the roles of a participant
    allow joining.  A filter of a policy is read by the where parser, which is
    built on a third-party package: a parameter. *)

From stdpp Require Import pretty.
From S2P Require Import Prelude GoStrings Types Regexp Roles RoleLimits RoleRules.

(** ** Kinds and modes: [api/types/session_tracker.go], [api/types/role.go] *)

Definition SessionKind := string.
Definition SSHSessionKind : SessionKind := "ssh".
Definition KubernetesSessionKind : SessionKind := "k8s".

Definition SessionParticipantMode := string.
Definition SessionObserverMode : SessionParticipantMode := "observer".
Definition SessionModeratorMode : SessionParticipantMode := "moderator".
Definition SessionPeerMode : SessionParticipantMode := "peer".

Definition OnSessionLeaveTerminate := "terminate".
Definition OnSessionLeavePause := "pause".

(** [RoleSet.SessionPolicySets] *)
Definition SessionPolicySets (set : RoleSet) : list SessionTrackerPolicySet := GetSessionPolicySet <$> set.

(** ** The evaluator *)

Record SessionAccessEvaluator := {
  sa_kind : SessionKind;
  sa_policySets : list SessionTrackerPolicySet;
  sa_isModerated : bool;
  sa_owner : string;
}.

Record SessionAccessContext := {
  sc_Username : string;
  sc_Roles : list RoleV6;
  sc_Mode : SessionParticipantMode;
}.

(** An identifier of a filter is a text or a list of texts. *)
Inductive IdentifierValue :=
| Text (s : string)
| Texts (l : list string).

(** [SessionAccessContext.GetIdentifier]; the fields of an identifier are
    never none *)
Definition participant_GetIdentifier (ctx : SessionAccessContext) (fields : list string)
  : result IdentifierValue :=
  let unknown := NotFound "%v is not defined" [String.concat "." fields] in
  fail_if negb (bool_decide (fields !!! 0%nat = "user")) with unknown;
  fail_if negb (bool_decide (length fields = 2%nat) || bool_decide (length fields = 3%nat)) with unknown;
  let checkedFieldIdx :=
    if bool_decide (length fields = 3%nat) && bool_decide (fields !!! 1%nat = "spec") then 2%nat else 1%nat in
  if bool_decide (fields !!! checkedFieldIdx = "name") then Ok (Text (sc_Username ctx))
  else if bool_decide (fields !!! checkedFieldIdx = "roles") then Ok (Texts (GetName <$> sc_Roles ctx))
  else Err unknown.

(** [services.NewWhereParser] over a participant. *)
Class FilterParser := NewFilterParser : SessionAccessContext -> result Parser.

Definition getAllowPolicies (participant : SessionAccessContext) : list SessionJoinPolicy :=
  sc_Roles participant ≫= GetSessionJoinPolicies.

Definition ContainsSessionKind (s : list string) (e : SessionKind) : bool :=
  existsb (fun a => bool_decide (a = e)) s.

Definition matchesKind (kind : SessionKind) (allow : list string) : bool :=
  ContainsSessionKind allow kind || ContainsSessionKind allow "*".

(** [extractApplicablePolicies] *)
Definition extractApplicablePolicies (kind : SessionKind) (set : SessionTrackerPolicySet)
  : list SessionRequirePolicy :=
  filter (fun require => matchesKind kind (rp_Kinds require) = true) (ps_RequireSessionJoin set).

Definition NewSessionAccessEvaluator (policySets : list SessionTrackerPolicySet) (kind : SessionKind)
    (owner : string) : SessionAccessEvaluator :=
  {| sa_kind := kind; sa_policySets := policySets;
     sa_isModerated := existsb (fun set => negb (bool_decide (extractApplicablePolicies kind set = []))) policySets;
     sa_owner := owner |}.

Definition IsModerated (e : SessionAccessEvaluator) : bool := sa_isModerated e.

(** [regexp.MustCompile] panics on what does not compile. *)
Definition regexp_panic : error := Error KOther "regexp: Compile" [] [].

Definition MustCompile `{RegexpEngine} (expr : string) : result regexp :=
  match re_Compile expr with Ok x => Ok x | Err _ => Err regexp_panic end.

Section Evaluator.
Context `{RegexpEngine} `{FilterParser}.
Variable e : SessionAccessEvaluator.

(** The two loops of [matchesJoin]: over the roles of the policy, and over the
    policy sets of the host. *)
Fixpoint join_roles (roles : list string) : result bool :=
  match roles with
  | [] => Ok false
  | allowRole :: roles' =>
      let? expr := MustCompile ("^" +:+ GlobToRegexp allowRole +:+ "$") in
      if existsb (fun set => re_Find expr (ps_Name set)) (sa_policySets e) then Ok true
      else join_roles roles'
  end.

Definition matchesJoin (allow : SessionJoinPolicy) : result bool :=
  if negb (matchesKind (sa_kind e) (jp_Kinds allow)) then Ok false else join_roles (jp_Roles allow).

Definition matchesPredicate (ctx : SessionAccessContext) (require : SessionRequirePolicy)
    (allow : SessionJoinPolicy) : result bool :=
  if negb (matchesKind (sa_kind e) (jp_Kinds allow)) then Ok false
  else
    let? parser := NewFilterParser ctx in
    let? ifn := parser (rp_Filter require) in
    match ifn with
    | None => Err (BadParameter "unsupported type: %T" [])
    | Some fn => Ok fn
    end.

(** ** Joining *)

Definition RoleSupportsModeratedSessions (roles : list RoleV6) : bool :=
  existsb (fun role => slices_Contains [V5; V6; V7; V8; V9] (role_Version role)) roles.

Definition preAccessControlsModes (kind : SessionKind) : list SessionParticipantMode :=
  if bool_decide (kind = SSHSessionKind) then [SessionPeerMode] else [].

(** The modes of one policy, those not yet there. *)
Definition add_modes (modes : list SessionParticipantMode) (new : list string) : list SessionParticipantMode :=
  foldl (fun modes mode => if slices_Contains modes mode then modes else (modes ++ [mode])%list) modes new.

Fixpoint join_modes (modes : list SessionParticipantMode) (policies : list SessionJoinPolicy)
  : result (list SessionParticipantMode) :=
  match policies with
  | [] => Ok modes
  | allowPolicy :: policies' =>
      let? matched := matchesJoin allowPolicy in
      join_modes (if matched then add_modes modes (jp_Modes allowPolicy) else modes) policies'
  end.

Definition CanJoin (user : SessionAccessContext) : result (list SessionParticipantMode) :=
  if negb (RoleSupportsModeratedSessions (sc_Roles user)) then Ok (preAccessControlsModes (sa_kind e))
  else if bool_decide (sc_Username user = sa_owner e) then
    Ok [SessionPeerMode; SessionModeratorMode; SessionObserverMode]
  else join_modes [] (getAllowPolicies user).

(** ** Running *)

(** One participant against the join policies of its roles: the first that
    matches ends the search. *)
Fixpoint participant_matches (require : SessionRequirePolicy) (participant : SessionAccessContext)
    (policies : list SessionJoinPolicy) : result bool :=
  match policies with
  | [] => Ok false
  | allowPolicy :: policies' =>
      let? predicate := matchesPredicate participant require allowPolicy in
      let? joined := (if predicate then matchesJoin allowPolicy else Ok false) in
      if joined then Ok true else participant_matches require participant policies'
  end.

(** The participants against one policy.  The count is only looked at after a
    participant in one of the policy's modes. *)
Fixpoint policy_fulfilled (require : SessionRequirePolicy) (left : Z) (participants : list SessionAccessContext)
  : result bool :=
  match participants with
  | [] => Ok false
  | participant :: participants' =>
      if negb (slices_Contains (rp_Modes require) (sc_Mode participant)) then
        policy_fulfilled require left participants'
      else
        let? matched := participant_matches require participant (getAllowPolicies participant) in
        let left := if matched then int32 (left - 1) else left in
        if left <=? 0 then Ok true else policy_fulfilled require left participants'
  end.

(** One of the policies of a set. *)
Fixpoint set_fulfilled (policies : list SessionRequirePolicy) (participants : list SessionAccessContext)
  : result bool :=
  match policies with
  | [] => Ok false
  | require :: policies' =>
      let? b := policy_fulfilled require (rp_Count require) participants in
      if b then Ok true else set_fulfilled policies' participants
  end.

(** [PolicyOptions] has one field; the empty text is its zero. *)
Definition PolicyOptions := string.

Definition leave_action (options : PolicyOptions) (policies : list SessionRequirePolicy) : PolicyOptions :=
  if bool_decide (options = OnSessionLeaveTerminate) then options
  else if existsb (fun p => negb (bool_decide (rp_OnLeave p = OnSessionLeavePause))) policies
  then OnSessionLeaveTerminate
  else OnSessionLeavePause.

(** The loop over the policy sets.  The options are returned with an error as
    well. *)
Fixpoint sets_fulfilled (options : PolicyOptions) (sets : list SessionTrackerPolicySet)
    (participants : list SessionAccessContext) : PolicyOptions * result bool :=
  match sets with
  | [] => (options, Ok true)
  | policySet :: sets' =>
      let policies := extractApplicablePolicies (sa_kind e) policySet in
      if bool_decide (policies = []) then sets_fulfilled options sets' participants
      else
        let options := leave_action options policies in
        match set_fulfilled policies participants with
        | Err err => (options, Err err)
        | Ok false => (options, Ok false)
        | Ok true => sets_fulfilled options sets' participants
        end
  end.

Definition FulfilledFor (participants : list SessionAccessContext) : PolicyOptions * result bool :=
  sets_fulfilled "" (sa_policySets e) participants.

(** [PrettyRequirementsList] *)
Definition crlf : string := of_bytes [chr 13; chr 10].

Definition pretty_policy (require : SessionRequirePolicy) : string :=
  crlf +:+ "    - " +:+ pretty (rp_Count require) +:+ "x " +:+ rp_Filter require +:+ " with mode "
  +:+ String.concat " or " (rp_Modes require).

Definition pretty_set (set : SessionTrackerPolicySet) : string :=
  let policies := extractApplicablePolicies (sa_kind e) set in
  if bool_decide (policies = []) then ""
  else crlf +:+ "   one of (" +:+ ps_Name set +:+ "):" +:+ String.concat "" (pretty_policy <$> policies).

Definition PrettyRequirementsList : string :=
  "require all:" +:+ String.concat "" (pretty_set <$> sa_policySets e).
End Evaluator.

(** ** Facts about moderation

    What a decision of the evaluator means: a session may run when every
    policy set that applies has one policy with enough participants, and a
    user may join in the modes of the policies that name the host's roles. *)

Definition says_yes (r : result bool) : bool := match r with Ok b => b | Err _ => false end.

Lemma says_yes_true r : says_yes r = true <-> r = Ok true.
Proof. destruct r as [[]|]; naive_solver. Qed.

Lemma matchesKind_true kind allow :
  matchesKind kind allow = true <-> kind ∈ allow \/ "*" ∈ allow.
Proof.
  unfold matchesKind, ContainsSessionKind. rewrite orb_true_iff, !existsb_elem.
  setoid_rewrite bool_decide_eq_true. naive_solver.
Qed.

Lemma elem_of_getAllowPolicies p allow :
  allow ∈ getAllowPolicies p <-> exists role, role ∈ sc_Roles p /\ allow ∈ GetSessionJoinPolicies role.
Proof. unfold getAllowPolicies. rewrite list_elem_of_bind. naive_solver. Qed.

Section Evaluator.
Context `{RegexpEngine} `{FilterParser}.
Variable e : SessionAccessEvaluator.

(** The participant counts for the policy: one of the join policies of its
    roles lets it into this session, and the filter holds of it. *)
Definition qualifies (require : SessionRequirePolicy) (p : SessionAccessContext) : bool :=
  existsb (fun allow =>
    says_yes (matchesPredicate e p require allow) && says_yes (matchesJoin e allow)) (getAllowPolicies p).

Definition in_mode (require : SessionRequirePolicy) (p : SessionAccessContext) : bool :=
  slices_Contains (rp_Modes require) (sc_Mode p).

(** Those that count, in one of the modes of the policy. *)
Definition counted (require : SessionRequirePolicy) (ps : list SessionAccessContext)
  : list SessionAccessContext :=
  filter (fun p => in_mode require p && qualifies require p = true) ps.

(** Enough of them, and at least one participant in a mode of the policy. *)
Definition enough (require : SessionRequirePolicy) (ps : list SessionAccessContext) : bool :=
  existsb (in_mode require) ps && (rp_Count require <=? Z.of_nat (length (counted require ps))).

Definition fulfilled (ps : list SessionAccessContext) : bool :=
  forallb (fun set =>
    let policies := extractApplicablePolicies (sa_kind e) set in
    bool_decide (policies = []) || existsb (fun require => enough require ps) policies) (sa_policySets e).

Lemma participant_matches_spec require p policies b :
  participant_matches e require p policies = Ok b ->
  b = existsb (fun allow =>
        says_yes (matchesPredicate e p require allow) && says_yes (matchesJoin e allow)) policies.
Proof.
  induction policies as [|allow policies IH]; simpl; [by intros [= <-]|].
  destruct (matchesPredicate e p require allow) as [[]|err]; simpl; [|exact IH|done].
  destruct (matchesJoin e allow) as [[]|err]; simpl; [by intros [= <-]|exact IH|done].
Qed.

Lemma counted_cons require p ps :
  Z.of_nat (length (counted require (p :: ps))) =
  (if in_mode require p && qualifies require p then 1 else 0) + Z.of_nat (length (counted require ps)).
Proof. unfold counted. rewrite filter_cons. destruct (_ && _); simpl; lia. Qed.

Lemma counted_none require ps : existsb (in_mode require) ps = false -> counted require ps = [].
Proof.
  intros Em. apply filter_none. intros x Hx. rewrite existsb_elem_false in Em. by rewrite Em.
Qed.

Lemma policy_fulfilled_spec require ps left b :
  - 2 ^ 31 < left < 2 ^ 31 ->
  policy_fulfilled e require left ps = Ok b ->
  b = existsb (in_mode require) ps && (left <=? Z.of_nat (length (counted require ps))).
Proof.
  revert left. induction ps as [|p ps IH]; intros left Hb; [by intros [= <-]|].
  cbn [policy_fulfilled existsb]. rewrite counted_cons. fold (in_mode require p).
  destruct (in_mode require p); cbn [negb andb orb]; [|by intros ->%IH].
  intros E. apply rbind_ok in E as (m & ->%participant_matches_spec & E). fold (qualifies require p) in E.
  set (d := if qualifies require p then 1 else 0).
  assert (Hd : 0 <= d) by (unfold d; destruct (qualifies require p); lia).
  replace (if qualifies require p then int32 (left - 1) else left) with (left - d) in E
    by (unfold d; destruct (qualifies require p); rewrite ?int32_small; lia).
  cbn zeta in E. destruct (Z.leb_spec (left - d) 0) as [Hl|Hl].
  - injection E as <-. symmetry. apply Z.leb_le. lia.
  - apply IH in E as ->; [|unfold d; destruct (qualifies require p); lia]. destruct (existsb (in_mode require) ps) eqn:Em; cbn [andb].
    + apply eq_bool_prop_intro. rewrite !Is_true_true, !Z.leb_le. lia.
    + rewrite (counted_none _ _ Em). symmetry. apply Z.leb_gt. simpl. lia.
Qed.

Lemma set_fulfilled_spec policies ps b :
  Forall (fun require => - 2 ^ 31 < rp_Count require < 2 ^ 31) policies ->
  set_fulfilled e policies ps = Ok b -> b = existsb (fun require => enough require ps) policies.
Proof.
  induction 1 as [|require policies Hc _ IH]; simpl; [by intros [= <-]|].
  intros E. apply rbind_ok in E as (c & Ec & E). apply policy_fulfilled_spec in Ec; [|done]. fold (enough require ps) in Ec.
  rewrite <- Ec. destruct c; simpl in *; [by injection E as <-|by apply IH].
Qed.

(** The counts of the policies are [int32]; the least one would wrap. *)
Class CountsInRange : Prop := {
  counts_in_range : Forall (fun set =>
    Forall (fun require => - 2 ^ 31 < rp_Count require < 2 ^ 31) (ps_RequireSessionJoin set)) (sa_policySets e);
}.

Lemma sets_fulfilled_spec options sets ps options' b :
  Forall (fun set =>
    Forall (fun require => - 2 ^ 31 < rp_Count require < 2 ^ 31) (ps_RequireSessionJoin set)) sets ->
  sets_fulfilled e options sets ps = (options', Ok b) ->
  b = forallb (fun set =>
    let policies := extractApplicablePolicies (sa_kind e) set in
    bool_decide (policies = []) || existsb (fun require => enough require ps) policies) sets.
Proof.
  intros Hc. revert options. induction Hc as [|set sets Hc _ IH]; intros options; simpl; [by intros [= _ <-]|].
  case_bool_decide; simpl; [apply IH|].
  destruct (set_fulfilled _ _ _) as [c|err] eqn:Es; [|done].
  apply set_fulfilled_spec in Es as <-; 
    [|apply Forall_forall; intros x [_ Hx]%list_elem_of_filter; rewrite Forall_forall in Hc; by apply Hc].
  destruct c; simpl; [apply IH|by intros [= _ <-]].
Qed.

(** A decision that is made is the specification's. *)
Lemma FulfilledFor_fulfilled `{!CountsInRange} ps options b :
  FulfilledFor e ps = (options, Ok b) -> b = fulfilled ps.
Proof. apply sets_fulfilled_spec, counts_in_range. Qed.

(** ** Who is there only matters as a set, and more never hurt *)

Lemma enough_mono require ps ps' : ps ⊆+ ps' -> enough require ps = true -> enough require ps' = true.
Proof.
  intros Hs. unfold enough. rewrite !andb_true_iff, !existsb_elem. intros [(p & Hp & Hm) Hc].
  split; [exists p; split; [by eapply elem_of_submseteq|done]|].
  assert (counted require ps ⊆+ counted require ps') as Hl%submseteq_length; [|lia].
  apply submseteq_Permutation in Hs as [k Hk]. unfold counted. rewrite Hk, filter_app.
  apply submseteq_inserts_r. done.
Qed.

Lemma fulfilled_mono ps ps' : ps ⊆+ ps' -> fulfilled ps = true -> fulfilled ps' = true.
Proof.
  intros Hs. unfold fulfilled. rewrite !forallb_elem. intros Hf set Hset. specialize (Hf set Hset).
  rewrite orb_true_iff, existsb_elem in *. destruct Hf as [Hf|(require & Hr & Hf)]; [by left|right].
  exists require. split; [done|]. by eapply enough_mono.
Qed.

Lemma fulfilled_perm ps ps' : ps ≡ₚ ps' -> fulfilled ps = fulfilled ps'.
Proof.
  intros Hp. apply eq_bool_prop_intro. rewrite !Is_true_true.
  split; apply fulfilled_mono; by rewrite Hp.
Qed.

(** ** Moderated or not *)

Lemma fulfilled_nobody :
  fulfilled [] = forallb (fun set => bool_decide (extractApplicablePolicies (sa_kind e) set = [])) (sa_policySets e).
Proof.
  unfold fulfilled. induction (sa_policySets e) as [|set sets IH]; [done|]. simpl. rewrite IH. f_equal.
  destruct (bool_decide _); [done|]. simpl.
  apply existsb_elem_false. by intros require _.
Qed.

Lemma set_fulfilled_nobody policies : set_fulfilled e policies [] = Ok false.
Proof. induction policies as [|require policies IH]; [done|exact IH]. Qed.

Lemma sets_fulfilled_nobody options sets :
  snd (sets_fulfilled e options sets []) =
  Ok (forallb (fun set => bool_decide (extractApplicablePolicies (sa_kind e) set = [])) sets).
Proof.
  revert options. induction sets as [|set sets IH]; intros options; simpl; [done|].
  case_bool_decide; simpl; [apply IH|]. by rewrite set_fulfilled_nobody.
Qed.

Lemma not_moderated sets :
  forallb (fun set => bool_decide (extractApplicablePolicies (sa_kind e) set = [])) sets =
  negb (existsb (fun set => negb (bool_decide (extractApplicablePolicies (sa_kind e) set = []))) sets).
Proof. induction sets as [|set sets IH]; simpl; [done|]. rewrite IH. by destruct (bool_decide _). Qed.

Lemma sets_fulfilled_unmoderated options sets ps :
  existsb (fun set => negb (bool_decide (extractApplicablePolicies (sa_kind e) set = []))) sets = false ->
  sets_fulfilled e options sets ps = (options, Ok true).
Proof.
  induction sets as [|set sets IH]; simpl; [done|]. rewrite orb_false_iff, negb_false_iff. intros [-> Hs].
  by apply IH.
Qed.

(** ** What happens when participants leave *)

Lemma sets_fulfilled_terminate sets ps :
  (sets_fulfilled e OnSessionLeaveTerminate sets ps).1 = OnSessionLeaveTerminate.
Proof.
  induction sets as [|set sets IH]; simpl; [done|]. case_bool_decide; [apply IH|].
  unfold leave_action. rewrite bool_decide_true by done. destruct (set_fulfilled _ _ _) as [[]|]; try done; apply IH.
Qed.

(** A session that stops for want of participants is paused only when every
    policy of the sets that were looked at says so. *)
Definition pausing (set : SessionTrackerPolicySet) : bool :=
  forallb (fun p => bool_decide (rp_OnLeave p = OnSessionLeavePause)) (extractApplicablePolicies (sa_kind e) set).

Lemma leave_action_pause options policies :
  options <> OnSessionLeaveTerminate ->
  leave_action options policies =
  if forallb (fun p => bool_decide (rp_OnLeave p = OnSessionLeavePause)) policies
  then OnSessionLeavePause else OnSessionLeaveTerminate.
Proof.
  intros Ho. unfold leave_action. rewrite bool_decide_false by done.
  induction policies as [|p policies IH]; simpl; [done|].
  case_bool_decide; simpl; [apply IH|done].
Qed.

(** ** Joining *)

Lemma elem_of_add_modes modes new m : m ∈ add_modes modes new <-> m ∈ modes \/ m ∈ new.
Proof.
  unfold add_modes. revert modes. induction new as [|x new IH]; intros modes; simpl; [set_solver|].
  rewrite IH. destruct (slices_Contains modes x) eqn:E; autorewrite with go_simpl in E; set_solver.
Qed.

Lemma NoDup_add_modes modes new : NoDup modes -> NoDup (add_modes modes new).
Proof.
  unfold add_modes. revert modes. induction new as [|x new IH]; intros modes Hm; simpl; [done|].
  apply IH. destruct (slices_Contains modes x) eqn:E; autorewrite with go_simpl in E; [done|].
  apply NoDup_app. split; [done|]. split; [set_solver|apply NoDup_singleton].
Qed.

Lemma join_modes_spec policies modes modes' m :
  join_modes e modes policies = Ok modes' ->
  m ∈ modes' <-> m ∈ modes \/ exists allow, allow ∈ policies /\ matchesJoin e allow = Ok true /\ m ∈ jp_Modes allow.
Proof.
  revert modes. induction policies as [|allow policies IH]; intros modes; simpl.
  { intros [= <-]. split; [by left|]. by intros [?|(? & ?%not_elem_of_nil & _)]. }
  intros E. apply rbind_ok in E as (b & Eb & E). apply IH in E as ->. rewrite exists_cons.
  rewrite Eb. destruct b; [rewrite elem_of_add_modes; tauto|].
  split; [tauto|]. intros [?|[[? _]|?]]; [tauto|discriminate|tauto].
Qed.

Lemma join_modes_NoDup policies modes modes' :
  NoDup modes -> join_modes e modes policies = Ok modes' -> NoDup modes'.
Proof.
  revert modes. induction policies as [|allow policies IH]; intros modes Hm; simpl; [by intros [= <-]|].
  intros E. apply rbind_ok in E as (b & Eb & E). eapply IH; [|exact E].
  destruct b; [by apply NoDup_add_modes|done].
Qed.
End Evaluator.

(** ** Which sessions a join policy names *)

Section Names.
Context `{GlobLaws} `{FilterParser}.
Variable e : SessionAccessEvaluator.

Lemma join_glob allowRole :
  plain_glob allowRole = true ->
  exists x, MustCompile ("^" +:+ GlobToRegexp allowRole +:+ "$") = Ok x /\
    forall s, re_Find x s = globMatch allowRole s.
Proof.
  intros Hg. assert (Hx : expressionToRegexp allowRole = "^" +:+ GlobToRegexp allowRole +:+ "$").
  { unfold expressionToRegexp, plain_glob in *. destruct (IsRegexp allowRole); [|done].
    by apply andb_true_iff in Hg as [_ Hg]. }
  rewrite <- Hx. pose proof (glob_compiles allowRole false Hg) as Hc. simpl in Hc.
  unfold MustCompile. destruct (re_Compile (expressionToRegexp allowRole)) as [x|] eqn:Ex; [|done].
  exists x. split; [done|]. intros s. by apply glob_finds.
Qed.

(** The policy applies to sessions of the kind, whose host has a role with a
    name that one of the policy's globs matches. *)
Lemma matchesJoin_spec allow :
  (forall role, role ∈ jp_Roles allow -> plain_glob role = true) ->
  matchesJoin e allow = Ok (matchesKind (sa_kind e) (jp_Kinds allow) &&
    existsb (fun role => existsb (fun set => globMatch role (ps_Name set)) (sa_policySets e)) (jp_Roles allow)).
Proof.
  unfold matchesJoin. destruct (matchesKind _ _); simpl; [|done].
  induction (jp_Roles allow) as [|role roles IH]; intros Hp; simpl; [done|].
  destruct (join_glob role) as (x & -> & Hf); [apply Hp; by left|]. simpl.
  rewrite IH by (intros; apply Hp; by right).
  assert (forall sets, existsb (fun set => re_Find x (ps_Name set)) sets =
          existsb (fun set => globMatch role (ps_Name set)) sets) as ->.
  { induction sets as [|set sets IH']; simpl; [done|]. by rewrite Hf, IH'. }
  case_match; [done|]. by rewrite orb_false_l.
Qed.
End Names.
