(* ===== verification/TermManager.v ===== *)
(** * The terminal of a session: [lib/srv/termmanager.go]

    The manager copies what the program prints to the clients and what the
    participants type to the program, and it can be switched off.  A writer is
    the bytes it was given; one whose connection is gone refuses writes, and
    the manager drops it.  Each function under the lock is one step; the two
    goroutines are the steps [Read_take], [Read_fetch] and [reader_*]. *)

From S2P Require Import Prelude GoStrings.

Definition maxHistoryBytes : nat := 1000.
Definition maxPausedHistoryBytes : nat := 10000.
(** Slots of the channel of typed data. *)
Definition incoming_slots : nat := 100.
Definition ctrl_c : byte := chr 3.

Inductive termState := dataFlowOff | dataFlowOn.

#[export] Instance termState_eq_dec : EqDecision termState.
Proof. solve_decision. Defined.

Record Writer := {
  w_data : list byte;
  w_broken : bool;
}.

Record TermManager := {
  tm_countWritten : Z;               (* uint64 *)
  tm_writers : gmap string Writer;
  tm_readerState : gmap string bool;
  tm_buffer : list byte;
  tm_state : termState;
  tm_history : list byte;
  tm_incoming : list (list byte);
  tm_remaining : list byte;
  tm_closed : bool;
  tm_lastWasBroadcast : bool;
  tm_terminateNotifier : bool;
  (* chunks a reader goroutine is about to send, by reader *)
  tm_sending : gmap string (list byte);
}.

Definition NewTermManager : TermManager := {|
  tm_countWritten := 0; tm_writers := ∅; tm_readerState := ∅; tm_buffer := [];
  tm_state := dataFlowOff; tm_history := []; tm_incoming := []; tm_remaining := [];
  tm_closed := false; tm_lastWasBroadcast := false; tm_terminateNotifier := false; tm_sending := ∅ |}.

(** The last [max] bytes. *)
Definition truncateFront (slice : list byte) (max : nat) : list byte :=
  if decide (max < length slice)%nat then drop (length slice - max) slice else slice.

Definition set_state (st : termState) (g : TermManager) : TermManager := {|
  tm_countWritten := tm_countWritten g; tm_writers := tm_writers g; tm_readerState := tm_readerState g;
  tm_buffer := tm_buffer g; tm_state := st; tm_history := tm_history g; tm_incoming := tm_incoming g;
  tm_remaining := tm_remaining g; tm_closed := tm_closed g; tm_lastWasBroadcast := tm_lastWasBroadcast g;
  tm_terminateNotifier := tm_terminateNotifier g; tm_sending := tm_sending g |}.

Definition set_input (incoming : list (list byte)) (remaining : list byte) (sending : gmap string (list byte))
    (g : TermManager) : TermManager := {|
  tm_countWritten := tm_countWritten g; tm_writers := tm_writers g; tm_readerState := tm_readerState g;
  tm_buffer := tm_buffer g; tm_state := tm_state g; tm_history := tm_history g; tm_incoming := incoming;
  tm_remaining := remaining; tm_closed := tm_closed g; tm_lastWasBroadcast := tm_lastWasBroadcast g;
  tm_terminateNotifier := tm_terminateNotifier g; tm_sending := sending |}.

Definition set_flags (closed broadcast notify : bool) (g : TermManager) : TermManager := {|
  tm_countWritten := tm_countWritten g; tm_writers := tm_writers g; tm_readerState := tm_readerState g;
  tm_buffer := tm_buffer g; tm_state := tm_state g; tm_history := tm_history g; tm_incoming := tm_incoming g;
  tm_remaining := tm_remaining g; tm_closed := closed; tm_lastWasBroadcast := broadcast;
  tm_terminateNotifier := notify; tm_sending := tm_sending g |}.

Definition set_buffer (buffer : list byte) (g : TermManager) : TermManager := {|
  tm_countWritten := tm_countWritten g; tm_writers := tm_writers g; tm_readerState := tm_readerState g;
  tm_buffer := buffer; tm_state := tm_state g; tm_history := tm_history g; tm_incoming := tm_incoming g;
  tm_remaining := tm_remaining g; tm_closed := tm_closed g; tm_lastWasBroadcast := tm_lastWasBroadcast g;
  tm_terminateNotifier := tm_terminateNotifier g; tm_sending := tm_sending g |}.

Definition set_ends (writers : gmap string Writer) (readers : gmap string bool) (g : TermManager) : TermManager := {|
  tm_countWritten := tm_countWritten g; tm_writers := writers; tm_readerState := readers;
  tm_buffer := tm_buffer g; tm_state := tm_state g; tm_history := tm_history g; tm_incoming := tm_incoming g;
  tm_remaining := tm_remaining g; tm_closed := tm_closed g; tm_lastWasBroadcast := tm_lastWasBroadcast g;
  tm_terminateNotifier := tm_terminateNotifier g; tm_sending := tm_sending g |}.

(** ** Output *)

(** What one writer does with the bytes: [None] drops it. *)
Definition write_one (p : list byte) (w : Writer) : option Writer :=
  if w_broken w then None else Some {| w_data := (w_data w ++ p)%list; w_broken := false |}.

(** The names that [writeToClients] gives to [OnWriteError] are those of the
    broken writers, in the order of the map. *)
Definition broken_writers (g : TermManager) : gset string :=
  dom (filter (fun kw => w_broken kw.2 = true) (tm_writers g)).

Definition writeToClients (p : list byte) (g : TermManager) : TermManager := {|
  tm_countWritten := (tm_countWritten g + Z.of_nat (length p)) mod 2 ^ 64;
  tm_writers := omap (write_one p) (tm_writers g); tm_readerState := tm_readerState g;
  tm_buffer := tm_buffer g; tm_state := tm_state g;
  tm_history := truncateFront (tm_history g ++ p) maxHistoryBytes; tm_incoming := tm_incoming g;
  tm_remaining := tm_remaining g; tm_closed := tm_closed g; tm_lastWasBroadcast := false;
  tm_terminateNotifier := tm_terminateNotifier g; tm_sending := tm_sending g |}.

Definition EOF : error := Error KOther "EOF" [] [].

(** [TermManager.Write] *)
Definition tm_Write (p : list byte) (g : TermManager) : TermManager * result Z :=
  if tm_closed g then (g, Err EOF)
  else match tm_state g with
  | dataFlowOn => (writeToClients p g, Ok (Z.of_nat (length p)))
  | dataFlowOff =>
      (set_buffer (truncateFront (tm_buffer g ++ p) maxPausedHistoryBytes) g, Ok (Z.of_nat (length p)))
  end.

Definition line_end : list byte := [chr 13; chr 10].

(** A message is written whatever the state.  [writeToClients] clears the mark
    that was just set. *)
Definition BroadcastMessage (message : string) (g : TermManager) : TermManager :=
  let data := (bytes_of "Teleport > " ++ bytes_of message ++ line_end)%list in
  if tm_lastWasBroadcast g then writeToClients (line_end ++ data) g
  else writeToClients data (set_flags (tm_closed g) true (tm_terminateNotifier g) g).

Definition On (g : TermManager) : TermManager :=
  writeToClients (tm_buffer g) (set_state dataFlowOn g).
Definition Off (g : TermManager) : TermManager := set_state dataFlowOff g.

Definition AddWriter (name : string) (w : Writer) (g : TermManager) : TermManager :=
  set_ends (<[name := w]> (tm_writers g)) (tm_readerState g) g.
Definition DeleteWriter (name : string) (g : TermManager) : TermManager :=
  set_ends (delete name (tm_writers g)) (tm_readerState g) g.

Definition GetRecentHistory (g : TermManager) : list byte := tm_history g.
Definition CountWritten (g : TermManager) : Z := tm_countWritten g.

(** Closing again does nothing; the notifier is closed with it. *)
Definition tm_Close (g : TermManager) : TermManager :=
  if tm_closed g then g else set_flags true (tm_lastWasBroadcast g) (tm_terminateNotifier g) g.

(** ** Input *)

(** The first part of [Read]: data, the end, or wait. *)
Definition Read_take (n : nat) (g : TermManager) : option (TermManager * result (list byte)) :=
  if tm_closed g then Some (g, Err EOF)
  else if bool_decide (tm_state g = dataFlowOn) && (0 <? Z.of_nat (length (tm_remaining g))) then
    Some (set_input (tm_incoming g) (drop n (tm_remaining g)) (tm_sending g) g, Ok (take n (tm_remaining g)))
  else None.

(** The second part: a chunk of the channel is appended to what remains. *)
Definition Read_fetch (g : TermManager) : option TermManager :=
  match tm_incoming g with
  | [] => None
  | data :: incoming => Some (set_input incoming (tm_remaining g ++ data) (tm_sending g) g)
  end.

Definition AddReader (name : string) (g : TermManager) : TermManager :=
  set_ends (tm_writers g) (<[name := false]> (tm_readerState g)) g.
Definition DeleteReader (name : string) (g : TermManager) : TermManager :=
  set_ends (tm_writers g) (<[name := true]> (tm_readerState g)) g.

(** A reader has a chunk.  An interrupt typed while the flow is off asks for
    termination. *)
Definition reader_interrupt (buf : list byte) (g : TermManager) : TermManager :=
  if bool_decide (ctrl_c ∈ buf) && bool_decide (tm_state g = dataFlowOff) && negb (tm_closed g)
  then set_flags (tm_closed g) (tm_lastWasBroadcast g) true g
  else g.

(** The chunk is to be sent if the flow is on, and dropped if it is off. *)
Definition reader_accept (name : string) (buf : list byte) (g : TermManager) : TermManager :=
  match tm_state g with
  | dataFlowOn => set_input (tm_incoming g) (tm_remaining g) (<[name := buf]> (tm_sending g)) g
  | dataFlowOff => g
  end.

(** The send blocks while the channel is full; the lock is not held. *)
Definition reader_send (name : string) (g : TermManager) : option TermManager :=
  match tm_sending g !! name with
  | None => None
  | Some buf =>
      if decide (length (tm_incoming g) < incoming_slots)%nat
      then Some (set_input (tm_incoming g ++ [buf]) (tm_remaining g) (delete name (tm_sending g)) g)
      else None
  end.

(** After a chunk: does the goroutine end? *)
Definition reader_done (name : string) (g : TermManager) : bool :=
  tm_closed g || default false (tm_readerState g !! name).

(** ** Facts *)

Lemma truncateFront_length l max : (length (truncateFront l max) <= max)%nat.
Proof. unfold truncateFront. case_decide; rewrite ?length_drop; lia. Qed.

Lemma truncateFront_suffix l max : truncateFront l max `suffix_of` l.
Proof.
  unfold truncateFront. case_decide; [|done]. exists (take (length l - max) l). by rewrite take_drop.
Qed.

Lemma truncateFront_all l max : (length l <= max)%nat -> truncateFront l max = l.
Proof. unfold truncateFront. case_decide; [lia|done]. Qed.

(** What a client has been shown. *)
Definition shown (name : string) (g : TermManager) : option (list byte) := w_data <$> tm_writers g !! name.

Lemma shown_writeToClients p name g :
  shown name (writeToClients p g) =
  match tm_writers g !! name with
  | Some w => if w_broken w then None else Some (w_data w ++ p)%list
  | None => None
  end.
Proof.
  unfold shown. simpl. rewrite lookup_omap. destruct (tm_writers g !! name) as [w|]; simpl; [|done].
  unfold write_one. by destruct (w_broken w).
Qed.

(** Memory stays bounded. *)
Definition bounded (g : TermManager) : Prop :=
  (length (tm_history g) <= maxHistoryBytes)%nat /\ (length (tm_buffer g) <= maxPausedHistoryBytes)%nat.

Lemma bounded_writeToClients p g : bounded g -> bounded (writeToClients p g).
Proof. intros [_ ?]. split; [apply truncateFront_length|done]. Qed.

Lemma bounded_Write p g : bounded g -> bounded (tm_Write p g).1.
Proof.
  intros Hb. unfold tm_Write. destruct (tm_closed g); [done|]. destruct (tm_state g); simpl.
  - split; [apply Hb|apply truncateFront_length].
  - by apply bounded_writeToClients.
Qed.
