(* ===== verification/SessionTracker.v ===== *)
(** * Session trackers: [api/types/session_tracker.go], [lib/srv/sessiontracker.go]

    A tracker is what the cluster knows of a session: its state and who is in
    it.  The server keeps one in memory and sends each change to the service,
    which may fail; the change in memory stays.  [apply_update] is what the
    service makes of a change ([lib/services/local/sessiontracker.go]). *)

From S2P Require Import Prelude GoStrings Types Moderation.

(** The state is a number on the wire. *)
Definition SessionState := Z.
Definition SessionStatePending : SessionState := 0.
Definition SessionStateRunning : SessionState := 1.
Definition SessionStateTerminated : SessionState := 2.

Record Participant := {
  pt_ID : string;
  pt_User : string;
  pt_Mode : string;
  pt_LastActive : time;
  pt_Cluster : string;
}.

Record SessionTrackerV1 := {
  t_SessionID : string;
  t_Kind : SessionKind;
  t_State : SessionState;
  t_Participants : list Participant;
  t_DesktopName : string;
  t_Expiry : time;
}.

Definition set_tracker (state : SessionState) (participants : list Participant) (expiry : time)
    (s : SessionTrackerV1) : SessionTrackerV1 :=
  {| t_SessionID := t_SessionID s; t_Kind := t_Kind s; t_State := state; t_Participants := participants;
     t_DesktopName := t_DesktopName s; t_Expiry := expiry |}.

Definition GetState (s : SessionTrackerV1) : SessionState := t_State s.
Definition GetParticipants (s : SessionTrackerV1) : list Participant := t_Participants s.

Definition SetState (state : SessionState) (s : SessionTrackerV1) : result SessionTrackerV1 :=
  if slices_Contains [SessionStateRunning; SessionStatePending; SessionStateTerminated] state
  then Ok (set_tracker state (t_Participants s) (t_Expiry s) s)
  else Err (BadParameter "invalid session state: %v" []).

Definition AddParticipant (p : Participant) (s : SessionTrackerV1) : SessionTrackerV1 :=
  set_tracker (t_State s) (t_Participants s ++ [p])%list (t_Expiry s) s.

(** The last participant takes the place of the removed one. *)
Definition swap_remove (i : nat) (l : list Participant) : list Participant :=
  match last l with
  | None => l
  | Some final => take (pred (length l)) (<[i := final]> l)
  end.

Definition RemoveParticipant (id : string) (s : SessionTrackerV1) : result SessionTrackerV1 :=
  match list_find (fun p => pt_ID p = id) (t_Participants s) with
  | Some (i, _) => Ok (set_tracker (t_State s) (swap_remove i (t_Participants s)) (t_Expiry s) s)
  | None => Err (NotFound "participant %v not found" [id])
  end.

Definition UpdatePresence (user userCluster : string) (t : time) (s : SessionTrackerV1)
  : result SessionTrackerV1 :=
  match list_find (fun p => pt_User p = user /\ (pt_Cluster p = userCluster \/ pt_Cluster p = "")) (t_Participants s) with
  | Some (i, p) =>
      Ok (set_tracker (t_State s)
            (<[i := {| pt_ID := pt_ID p; pt_User := pt_User p; pt_Mode := pt_Mode p; pt_LastActive := t;
                       pt_Cluster := pt_Cluster p |}]> (t_Participants s)) (t_Expiry s) s)
  | None => Err (NotFound "participant %v not found" [user])
  end.

(** [None] is the zero time. *)
Definition GetLastActive (s : SessionTrackerV1) : option time :=
  foldl (fun last p => match last with
    | None => Some (pt_LastActive p)
    | Some t => if t <? pt_LastActive p then Some (pt_LastActive p) else last
    end) None (t_Participants s).

Record SessionTrackerFilter := {
  tf_Kind : string;
  tf_State : option SessionState;
  tf_DesktopName : string;
}.

(** [SessionTrackerFilter.Match] *)
Definition SessionTrackerFilter_Match (f : SessionTrackerFilter) (s : SessionTrackerV1) : bool :=
  if negb (bool_decide (tf_Kind f = "")) && negb (bool_decide (t_Kind s = tf_Kind f)) then false
  else if match tf_State f with Some st => negb (GetState s =? st) | None => false end then false
  else if negb (bool_decide (tf_DesktopName f = "")) && negb (bool_decide (t_DesktopName s = tf_DesktopName f))
  then false
  else true.

(** ** The service *)

Inductive TrackerUpdate :=
| UpdateState (state : SessionState)
| UpdateAddParticipant (p : Participant)
| UpdateRemoveParticipant (id : string)
| UpdateExpiry (expires : time).

(** [UpdateSessionTracker]: the change to the stored tracker.  A terminated
    session takes no other state. *)
Definition apply_update (update : TrackerUpdate) (s : SessionTrackerV1) : result SessionTrackerV1 :=
  match update with
  | UpdateState state =>
      fail_if GetState s =? SessionStateTerminated
        with BadParameter "session %q is already closed" [t_SessionID s];
      SetState state s
  | UpdateAddParticipant p => Ok (AddParticipant p s)
  | UpdateRemoveParticipant id => RemoveParticipant id s
  | UpdateExpiry expires => Ok (set_tracker (t_State s) (t_Participants s) expires s)
  end.

Definition terminatedTTL : duration := 3 * 60 * Second.

(** How long the backend keeps what was stored. *)
Definition stored_expiry (now : time) (s : SessionTrackerV1) : time :=
  if GetState s =? SessionStateTerminated then now + terminatedTTL else t_Expiry s.

(** ** The tracker of the server

    [svc] is what the service answers: nothing when there is none. *)

Definition tracker_UpdateState (svc : option error) (state : SessionState) : M SessionTrackerV1 unit :=
  fun s =>
    let s := match SetState state s with Ok s' => s' | Err _ => s end in
    (s, match svc with Some err => Err err | None => Ok tt end).

Definition tracker_AddParticipant (svc : option error) (p : Participant) : M SessionTrackerV1 unit :=
  fun s => (AddParticipant p s, match svc with Some err => Err err | None => Ok tt end).

Definition tracker_RemoveParticipant (svc : option error) (id : string) : M SessionTrackerV1 unit :=
  fun s => match RemoveParticipant id s with
  | Err err => (s, Err err)
  | Ok s' => (s', match svc with Some err => Err err | None => Ok tt end)
  end.

Definition tracker_UpdateExpiration (svc : option error) (expiry : time) : M SessionTrackerV1 unit :=
  fun s => (set_tracker (t_State s) (t_Participants s) expiry s,
            match svc with Some err => Err err | None => Ok tt end).

(** ** Facts *)

Lemma swap_remove_perm i l p : l !! i = Some p -> p :: swap_remove i l ≡ₚ l.
Proof.
  intros Hi. unfold swap_remove. destruct l as [|x l _] using rev_ind; [done|].
  rewrite last_snoc, length_app. simpl. rewrite Nat.add_1_r. simpl.
  destruct (decide (i = length l)) as [->|Hn].
  - rewrite list_lookup_middle in Hi by done. injection Hi as ->.
    rewrite list_insert_id by (by rewrite list_lookup_middle). rewrite take_app_length. apply Permutation_cons_append.
  - assert (i < length l)%nat by (apply lookup_lt_Some in Hi; rewrite length_app in Hi; simpl in Hi; lia).
    rewrite lookup_app_l in Hi by done. rewrite insert_app_l by done.
    rewrite take_app_le by (rewrite length_insert; lia). rewrite take_ge by (rewrite length_insert; lia).
    rewrite insert_take_drop by done. rewrite <- (take_drop_middle l i p) at 3 by done.
    rewrite (Permutation_app_comm _ [x]), <- !Permutation_middle. done.
Qed.

(** Exactly the first participant with the identifier goes. *)
Lemma RemoveParticipant_ok id s s' :
  RemoveParticipant id s = Ok s' ->
  t_State s' = t_State s /\
  exists p, pt_ID p = id /\ p :: t_Participants s' ≡ₚ t_Participants s.
Proof.
  unfold RemoveParticipant. destruct (list_find _ _) as [[i p]|] eqn:E; [|done]. intros [= <-].
  apply list_find_Some in E as (Hi & Hp & _). split; [done|]. exists p. split; [done|].
  by apply swap_remove_perm.
Qed.

Lemma apply_update_terminated update s s' :
  t_State s = SessionStateTerminated -> apply_update update s = Ok s' -> t_State s' = SessionStateTerminated.
Proof.
  intros Ht. destruct update; simpl; unfold GetState; rewrite ?Ht; simpl; [done|by intros [= <-]..| |by intros [= <-]].
  intros [? _]%RemoveParticipant_ok. congruence.
Qed.
