(* ===== verification/Session.v ===== *)
(** * A session on a server: [lib/srv/sess.go]

    The parties of a session, when it runs, pauses and ends, and file
    transfers that its parties approve.  A handler runs under the lock of the
    session and is one step; goroutines that will stop the session are in
    [s_pending], the one that waits for an empty session is [s_linger].  The
    answers of the tracker service, the writes to a new party's channel and
    fresh identifiers are arguments.  [session_step] has the steps. *)

From S2P Require Import Prelude GoStrings Types Regexp Roles RoleLimits RoleRules Moderation.
From S2P Require Import TermManager SessionTracker.

(** ** Data *)

Definition SSHSessionJoinPrincipal := "-teleport-internal-join".
Definition sessionRecorderID := "session-recorder".

(** [ServerContext]: the connection of a user.  [ctx_Roles] are the roles of
    the checker for joining, when there is one. *)
Record ServerContext := {
  ctx_ID : string;
  ctx_TeleportUser : string;
  ctx_OriginClusterName : string;
  ctx_Login : string;
  ctx_Roles : option (list RoleV6);
  ctx_RecordAtProxy : bool;
}.

Record party := {
  p_id : string;
  p_login : string;
  p_user : string;
  p_originCluster : string;
  p_mode : SessionParticipantMode;
  p_ctx : ServerContext;
}.

Definition newParty (id : string) (mode : SessionParticipantMode) (ctx : ServerContext) : party :=
  {| p_id := id; p_login := ctx_Login ctx; p_user := ctx_TeleportUser ctx;
     p_originCluster := ctx_OriginClusterName ctx; p_mode := mode; p_ctx := ctx |}.

(** [fileTransferRequestWithApprovers] *)
Record fileTransferRequest := {
  ft_ID : string;
  ft_Requester : string;
  ft_Location : string;
  ft_Download : bool;
  ft_filename : string;
  ft_approvers : gmap string party;
}.

(** What does not change while a session lives. *)
Record SessionConfig := {
  sess_id : string;
  sess_login : string;
  sess_access : SessionAccessEvaluator;
  sess_initiator : string * string;          (* user and cluster *)
  sess_displayParticipantRequirements : bool;
  sess_presenceEnabled : bool;
  sess_recordAtProxy : bool;
  sess_bestEffort : bool;                     (* SessionRecordingModeBestEffort *)
  sess_hostname : string;
}.

(** Goroutines that have been started to end the session. *)
Inductive goroutine :=
| RunStop
| RunForceTerminate
| RunEnd (p : party)
| RunRecordingError.

Record session := {
  s_parties : gmap string party;
  s_participants : gmap string party;
  s_fileTransferReq : option fileTransferRequest;
  s_io : TermManager;
  s_tracker : SessionTrackerV1;
  s_started : bool;
  s_stopped : bool;                           (* stopC is closed *)
  s_pending : list goroutine;
  s_linger : option party;
  s_endingContext : option ServerContext;
  s_contexts : gset string;                   (* contexts with a party here *)
  s_closed : gset string;                     (* parties that closed *)
}.

Definition set_parties (parties participants : gmap string party) (s : session) : session := {|
  s_parties := parties; s_participants := participants; s_fileTransferReq := s_fileTransferReq s;
  s_io := s_io s; s_tracker := s_tracker s; s_started := s_started s; s_stopped := s_stopped s;
  s_pending := s_pending s; s_linger := s_linger s; s_endingContext := s_endingContext s;
  s_contexts := s_contexts s; s_closed := s_closed s |}.
Definition set_transfer (r : option fileTransferRequest) (s : session) : session := {|
  s_parties := s_parties s; s_participants := s_participants s; s_fileTransferReq := r;
  s_io := s_io s; s_tracker := s_tracker s; s_started := s_started s; s_stopped := s_stopped s;
  s_pending := s_pending s; s_linger := s_linger s; s_endingContext := s_endingContext s;
  s_contexts := s_contexts s; s_closed := s_closed s |}.
Definition set_io (io : TermManager) (s : session) : session := {|
  s_parties := s_parties s; s_participants := s_participants s; s_fileTransferReq := s_fileTransferReq s;
  s_io := io; s_tracker := s_tracker s; s_started := s_started s; s_stopped := s_stopped s;
  s_pending := s_pending s; s_linger := s_linger s; s_endingContext := s_endingContext s;
  s_contexts := s_contexts s; s_closed := s_closed s |}.
Definition set_session_tracker (t : SessionTrackerV1) (s : session) : session := {|
  s_parties := s_parties s; s_participants := s_participants s; s_fileTransferReq := s_fileTransferReq s;
  s_io := s_io s; s_tracker := t; s_started := s_started s; s_stopped := s_stopped s;
  s_pending := s_pending s; s_linger := s_linger s; s_endingContext := s_endingContext s;
  s_contexts := s_contexts s; s_closed := s_closed s |}.
Definition set_life (started stopped : bool) (pending : list goroutine) (linger : option party)
    (ending : option ServerContext) (s : session) : session := {|
  s_parties := s_parties s; s_participants := s_participants s; s_fileTransferReq := s_fileTransferReq s;
  s_io := s_io s; s_tracker := s_tracker s; s_started := started; s_stopped := stopped;
  s_pending := pending; s_linger := linger; s_endingContext := ending;
  s_contexts := s_contexts s; s_closed := s_closed s |}.
Definition set_marks (contexts closed : gset string) (s : session) : session := {|
  s_parties := s_parties s; s_participants := s_participants s; s_fileTransferReq := s_fileTransferReq s;
  s_io := s_io s; s_tracker := s_tracker s; s_started := s_started s; s_stopped := s_stopped s;
  s_pending := s_pending s; s_linger := s_linger s; s_endingContext := s_endingContext s;
  s_contexts := contexts; s_closed := closed |}.

(** [go f()] *)
Definition spawn (g : goroutine) (s : session) : session :=
  set_life (s_started s) (s_stopped s) (s_pending s ++ [g])%list (s_linger s) (s_endingContext s) s.
Definition set_linger (p : option party) (s : session) : session :=
  set_life (s_started s) (s_stopped s) (s_pending s) p (s_endingContext s) s.
Definition set_started (s : session) : session :=
  set_life true (s_stopped s) (s_pending s) (s_linger s) (s_endingContext s) s.

(** ** The terminal *)

Section Session.
Context `{RegexpEngine} `{FilterParser} `{MapOrder party}.
Variable cfg : SessionConfig.

(** [onWriteErrorCallback]: a recorder that refuses a write ends the session,
    unless recording is best effort; the goroutine that then only warns the
    parties is left out. *)
Definition onWriteError (broken : gset string) (s : session) : session :=
  if bool_decide (sessionRecorderID ∈ broken) && negb (sess_bestEffort cfg) then spawn RunRecordingError s else s.

(** A call of the manager that writes to the clients. *)
Definition io_write (f : TermManager -> TermManager) (s : session) : session :=
  onWriteError (broken_writers (s_io s)) (set_io (f (s_io s)) s).

Definition session_BroadcastMessage (message : string) (s : session) : session :=
  if IsModerated (sess_access cfg) && negb (sess_recordAtProxy cfg)
  then io_write (BroadcastMessage message) s else s.
Definition BroadcastSystemMessage (message : string) (s : session) : session :=
  io_write (BroadcastMessage message) s.

Definition on_tracker {A} (m : M SessionTrackerV1 A) : M session A := fun s =>
  let '(t, r) := m (s_tracker s) in (set_session_tracker t s, r).

(** [UpdateState] whose failure is only logged. *)
Definition update_state (svc : option error) (state : SessionState) (s : session) : session :=
  (on_tracker (tracker_UpdateState svc state) s).1.

Definition launchUnderLock (svc : option error) (s : session) : session :=
  if s_started s then s
  else
    let s := io_write On (set_started s) in
    let s := session_BroadcastMessage ("Connecting to " +:+ sess_hostname cfg +:+ " over SSH") s in
    update_state svc SessionStateRunning s.

Definition pauseUnderLock (svc : option error) (s : session) : session :=
  let s := set_io (Off (s_io s)) s in
  let s := session_BroadcastMessage "Session paused, Waiting for required participants..." s in
  update_state svc SessionStatePending s.

Definition resumeUnderLock (svc : option error) (s : session) : session :=
  let s := io_write On s in
  let s := session_BroadcastMessage "Resuming session..." s in
  update_state svc SessionStateRunning s.

(** ** Policies *)

Definition is_initiator (user cluster : string) : bool :=
  bool_decide (user = (sess_initiator cfg).1) && bool_decide (cluster = (sess_initiator cfg).2).

Definition access_context (p : party) : SessionAccessContext :=
  {| sc_Username := ctx_TeleportUser (p_ctx p); sc_Roles := default [] (ctx_Roles (p_ctx p)); sc_Mode := p_mode p |}.

(** The participants among some parties: the initiator does not count. *)
Definition participants_of (parties : list party) : list SessionAccessContext :=
  access_context <$>
    filter (fun p => is_initiator (ctx_TeleportUser (p_ctx p)) (ctx_OriginClusterName (p_ctx p)) = false) parties.

Definition checkIfStartUnderLock (s : session) : PolicyOptions * result bool :=
  match FulfilledFor (sess_access cfg) (participants_of (snd <$> range (s_parties s))) with
  | (_, Err err) => ("", Err err)
  | decided => decided
  end.

(** ** Joining and leaving *)

(** [setParty]: a context is party to one session. *)
Definition setParty (p : party) : M session unit := fun s =>
  if bool_decide (ctx_ID (p_ctx p) ∈ s_contexts s) then (s, Err (BadParameter "already party to another session" []))
  else (set_marks (s_contexts s ∪ {[ctx_ID (p_ctx p)]}) (s_closed s) s, Ok tt).

(** The wait of a pending session for its participants. *)
Definition await_participants (s : session) : session :=
  let base := "Waiting for required participants..." in
  session_BroadcastMessage
    (if sess_displayParticipantRequirements cfg
     then base +:+ crlf +:+ PrettyRequirementsList (sess_access cfg) else base) s.

(** The end of [addParty]: a pending session starts once it may. *)
Definition start_pending (svc : option error) : M session unit := fun s =>
  if negb (GetState (s_tracker s) =? SessionStatePending) then (s, Ok tt)
  else match checkIfStartUnderLock s with
  | (_, Err err) => (s, Err err)
  | (_, Ok false) => (await_participants s, Ok tt)
  | (_, Ok true) => (if s_started s then resumeUnderLock svc s else launchUnderLock svc s, Ok tt)
  end.

(** A first party of a session that must wait cannot be recorded at the
    proxy. *)
Definition first_party_check (p : party) : M session unit := fun s =>
  if bool_decide (s_parties s = ∅) then
    match checkIfStartUnderLock s with
    | (_, Err err) => (s, Err err)
    | (_, Ok canStart) =>
        if negb canStart && ctx_RecordAtProxy (p_ctx p)
        then (spawn RunStop s,
              Err (AccessDenied "session requires additional moderation but is in proxy-record mode" []))
        else (s, Ok tt)
    end
  else (s, Ok tt).

(** [written] is the write of the recent history to the new party. *)
Definition addParty (written svc : option error) (p : party) : M session unit :=
  let* s := mget id in
  deny_if negb (bool_decide (sess_login cfg = p_login p)) && negb (bool_decide (p_login p = SSHSessionJoinPrincipal))
    with AccessDenied "can't switch users from %v to %v for session %v" [sess_login cfg; p_login p; sess_id cfg];
  deny_if GetState (s_tracker s) =? SessionStateTerminated
    with AccessDenied "The requested session is not active" [];
  do* first_party_check p;
  do* mmodify (set_linger None);
  do* mmodify (fun s => set_parties (<[p_id p := p]> (s_parties s)) (<[p_id p := p]> (s_participants s)) s);
  let* history := mget (fun s => GetRecentHistory (s_io s)) in
  do* mlift (match written with Some err => Err err | None => Ok tt end);
  do* mmodify (session_BroadcastMessage
    ("User " +:+ p_user p +:+ " joined the session with participant mode: " +:+ p_mode p +:+ "."));
  do* mmodify (fun s => set_io (AddWriter (p_id p) {| w_data := history; w_broken := false |} (s_io s)) s);
  start_pending svc.

(** [startInteractive], up to the first party: [terminal] is the start of the
    terminal.  The party is that of [newSession], a peer. *)
Definition startInteractive (terminal written svc : option error) (p : party) : M session unit :=
  let* s := mget (fun s => s) in
  let* canStart := mlift (checkIfStartUnderLock s).2 in
  if negb canStart && ctx_RecordAtProxy (p_ctx p) then
    do* mmodify (spawn RunStop);
    mfail (AccessDenied "session requires additional moderation but is in proxy-record mode" [])
  else
    do* mmodify (fun s => set_io (AddReader "reader" (s_io s)) s);
    do* mmodify (fun s => set_io (AddWriter sessionRecorderID {| w_data := []; w_broken := false |} (s_io s)) s);
    do* mmodify (session_BroadcastMessage ("Creating session with ID: " +:+ sess_id cfg));
    do* mlift (match terminal with Some err => Err err | None => Ok tt end);
    addParty written svc p.

(** [OpenSession], once [newSession] gave the party. *)
Definition OpenSession (terminal written svc : option error) (p : party) : M session unit :=
  do* setParty p;
  startInteractive terminal written svc p.

(** The check of [join]: [presence] is the request for presence. *)
Definition join_check (presence : option error) (scx : ServerContext) (mode : SessionParticipantMode)
  : result unit :=
  if is_initiator (ctx_TeleportUser scx) (ctx_OriginClusterName scx) then Ok tt
  else
    let? modes := CanJoin (sess_access cfg)
      {| sc_Username := ctx_TeleportUser scx; sc_Roles := default [] (ctx_Roles scx); sc_Mode := "" |} in
    fail_if negb (slices_Contains modes mode)
      with AccessDenied "insufficient permissions to join session %v" [sess_id cfg];
    if sess_presenceEnabled cfg then
      match presence with Some err => Err err | None => Ok tt end
    else Ok tt.

Definition track_participant (svc : option error) (now : time) (p : party) : M session unit :=
  on_tracker (tracker_AddParticipant svc
    {| pt_ID := p_id p; pt_User := p_user p; pt_Mode := p_mode p; pt_LastActive := now;
       pt_Cluster := p_originCluster p |}).

(** What the environment answers while a party joins. *)
Record answers := {
  a_presence : option error;
  a_written : option error;
  a_state : option error;
  a_participant : option error;
}.

(** The part of [join] up to the end of [addParty]. *)
Definition join_party (a : answers) (id : string) (scx : ServerContext) (mode : SessionParticipantMode)
  : M session party :=
  do* mlift (join_check (a_presence a) scx mode);
  let p := newParty id mode scx in
  do* setParty p;
  do* addParty (a_written a) (a_state a) p;
  mret p.

Definition join (a : answers) (now : time) (id : string) (scx : ServerContext) (mode : SessionParticipantMode)
  : M session unit :=
  let* p := join_party a id scx mode in
  track_participant (a_participant a) now p.

(** [SessionRegistry.JoinSession], once the session is found. *)
Definition JoinSession (a : answers) (now : time) (id : string) (scx : ServerContext)
    (mode : SessionParticipantMode) : M session unit :=
  let* s := mget (fun s => s) in
  deny_if s_stopped s with NotFound "session not found or no longer running" [];
  deny_if negb (slices_Contains [SessionModeratorMode; SessionObserverMode; SessionPeerMode] mode)
    with BadParameter "Unrecognized session participant mode: %q" [mode];
  join a now id scx mode.

(** [removed] and [state] are the answers of the service. *)
Definition removePartyUnderLock (removed state : option error) (p : party) : M session unit :=
  do* mmodify (fun s => set_parties (delete (p_id p) (s_parties s)) (s_participants s) s);
  do* mmodify (session_BroadcastMessage ("User " +:+ p_user p +:+ " left the session."));
  do* on_tracker (tracker_RemoveParticipant removed (p_id p));
  do* mmodify (fun s => set_io (DeleteWriter (p_id p) (s_io s)) s);
  let* s := mget (fun s => s) in
  let* canRun := mlift (checkIfStartUnderLock s).2 in
  if negb canRun && bool_decide ((checkIfStartUnderLock s).1 = OnSessionLeaveTerminate) then
    mmodify (spawn RunForceTerminate)
  else
    do* mmodify (fun s => if canRun then s else pauseUnderLock state s);
    mmodify (fun s =>
      if bool_decide (s_parties s = ∅) && negb (s_stopped s) then set_linger (Some p) s else s).

(** [closeOnce]: a party is removed once. *)
Definition closeUnderSessionLock (removed state : option error) (p : party) : M session unit := fun s =>
  if bool_decide (p_id p ∈ s_closed s) then (s, Ok tt)
  else removePartyUnderLock removed state p (set_marks (s_contexts s) (s_closed s ∪ {[p_id p]}) s).

(** ** The end *)

Definition Stop (svc : option error) (s : session) : session :=
  if s_stopped s then s
  else
    let s := set_life (s_started s) true (s_pending s) (s_linger s) (s_endingContext s) s in
    let s := session_BroadcastMessage "Stopping session..." s in
    let s := set_io (tm_Close (s_io s)) s in
    update_state svc SessionStateTerminated s.

Definition ForceTerminate (svc : option error) (s : session) : session :=
  Stop svc (session_BroadcastMessage "Forcefully terminating session..." s).

(** [lingerAndDie] when the period is over; the goroutine goes on to stop. *)
Definition linger_expires (s : session) : session :=
  match s_linger s with
  | None => s
  | Some p => spawn (RunEnd p) (set_linger None s)
  end.

Definition sessionRecordingErrorMessage :=
  "Session terminating due to node error.".

(** What a goroutine does when it runs. *)
Definition run (svc : option error) (g : goroutine) (s : session) : session :=
  match g with
  | RunStop => Stop svc s
  | RunForceTerminate => ForceTerminate svc s
  | RunEnd p =>
      Stop svc (set_life (s_started s) (s_stopped s) (s_pending s) (s_linger s) (Some (p_ctx p)) s)
  | RunRecordingError => Stop svc (BroadcastSystemMessage sessionRecordingErrorMessage s)
  end.

Definition take_goroutine (i : nat) (s : session) : session :=
  set_life (s_started s) (s_stopped s) (delete i (s_pending s)) (s_linger s) (s_endingContext s) s.

(** [Close]: the parties go first, in any order. *)
Definition session_Close (svc : option error) (s : session) : session :=
  let s := session_BroadcastMessage "Closing session..." s in
  let s := foldl (fun s kp => (closeUnderSessionLock svc svc kp.2 s).1) s (range (s_parties s)) in
  Stop svc s.

(** [checkPresence], with the participants the service tells: a moderator that
    has not been active is removed.  [removed] are the answers by party. *)
Definition absent (now : time) (max : duration) (pt : Participant) : bool :=
  negb (bool_decide (pt_User pt = (sess_initiator cfg).1) && bool_decide (pt_Cluster pt = (sess_initiator cfg).2)) &&
  bool_decide (pt_Mode pt = SessionModeratorMode) && (pt_LastActive pt + max <? now).

Definition kick (removed : string -> option error) (state : option error) (now : time) (max : duration)
    (s : session) (pt : Participant) : session :=
  if absent now max pt then
    match s_parties s !! pt_ID pt with
    | Some p => (closeUnderSessionLock (removed (p_id p)) state p s).1
    | None => s
    end
  else s.

Definition checkPresence (participants : result (list Participant)) (removed : string -> option error)
    (state : option error) (now : time) (max : duration) : M session unit := fun s =>
  match participants with
  | Err err => (s, Err err)
  | Ok participants => (foldl (kick removed state now max) s participants, Ok tt)
  end.

(** Output of the program. *)
Definition session_print (p : list byte) (s : session) : session :=
  if negb (tm_closed (s_io s)) && bool_decide (tm_state (s_io s) = dataFlowOn)
  then io_write (fun g => (tm_Write p g).1) s
  else set_io (tm_Write p (s_io s)).1 s.

(** ** File transfers *)

Definition checkIfFileTransferApproved (req : fileTransferRequest) : result bool :=
  (FulfilledFor (sess_access cfg) (participants_of (snd <$> range (ft_approvers req)))).2.

(** The notice fails when the context has no session. *)
Definition notifyFileTransferRequest (scx : ServerContext) (s : session) : result unit :=
  if bool_decide (ctx_ID scx ∈ s_contexts s) then Ok tt else Err (NotFound "no session found in context" []).

Record FileTransferRequestParams := {
  fp_Download : bool;
  fp_Requester : string;
  fp_Location : string;
  fp_Filename : string;
}.

Definition addFileTransferRequest (id : string) (params : FileTransferRequestParams) (scx : ServerContext)
  : M session unit :=
  let* s := mget (fun s => s) in
  deny_if (match s_fileTransferReq s with Some _ => true | None => false end)
    with AlreadyExists "a file transfer request already exists for this session" [];
  deny_if negb (fp_Download params) && bool_decide (fp_Filename params = "")
    with BadParameter "no source file is set for the upload" [];
  deny_if negb (HasPrefix (fp_Location params) "/") with BadParameter "request path must be absolute" [];
  do* mmodify (set_transfer (Some {| ft_ID := id; ft_Requester := fp_Requester params;
    ft_Location := fp_Location params; ft_Download := fp_Download params; ft_filename := fp_Filename params;
    ft_approvers := ∅ |}));
  do* mmodify (session_BroadcastMessage
    ("User " +:+ fp_Requester params +:+
     (if fp_Download params then " would like to download: " else " would like to upload to: ") +:+
     fp_Location params));
  let* s := mget (fun s => s) in
  mlift (notifyFileTransferRequest scx s).

(** The party of the connection: the last of the loop's order that has it. *)
Definition party_of (scx : ServerContext) (s : session) : option party :=
  last (filter (fun p => ctx_ID (p_ctx p) = ctx_ID scx) (snd <$> range (s_parties s))).

Definition add_approver (p : party) (req : fileTransferRequest) : fileTransferRequest :=
  {| ft_ID := ft_ID req; ft_Requester := ft_Requester req; ft_Location := ft_Location req;
     ft_Download := ft_Download req; ft_filename := ft_filename req;
     ft_approvers := <[p_user p := p]> (ft_approvers req) |}.

(** The request the decision is about. *)
Definition find_request (requestID missing : string) (s : session) : result fileTransferRequest :=
  match s_fileTransferReq s with
  | None => Err (NotFound missing [requestID])
  | Some req =>
      fail_if negb (bool_decide (ft_ID req = requestID))
        with BadParameter "current file transfer request is not %s" [requestID];
      Ok req
  end.

Definition approveFileTransferRequest (requestID : string) (scx : ServerContext) : M session unit :=
  let* s := mget (fun s => s) in
  let* req := mlift (find_request requestID "File Transfer Request %s not found" s) in
  match party_of scx s with
  | None => mfail (AccessDenied "cannot approve file transfer requests if not in the current moderated session" [])
  | Some approver =>
      let req := add_approver approver req in
      do* mmodify (set_transfer (Some req));
      do* mmodify (session_BroadcastMessage
        (ctx_TeleportUser scx +:+ " approved file transfer request " +:+ ft_ID req));
      let* _ := mlift (checkIfFileTransferApproved req) in
      let* s := mget (fun s => s) in
      mlift (notifyFileTransferRequest scx s)
  end.

Definition denyFileTransferRequest (requestID : string) (scx : ServerContext) : M session unit :=
  let* s := mget (fun s => s) in
  let* req := mlift (find_request requestID "file transfer request %s not found" s) in
  match party_of scx s with
  | None => mfail (AccessDenied "cannot deny file transfer requests if not in the current moderated session" [])
  | Some _ =>
      do* mmodify (set_transfer None);
      do* mmodify (session_BroadcastMessage
        (ctx_TeleportUser scx +:+ " denied file transfer request " +:+ ft_ID req));
      let* s := mget (fun s => s) in
      mlift (notifyFileTransferRequest scx s)
  end.

(** [isApprovedFileTransfer], once the session is found: the request that the
    new connection may serve. *)
Definition isApprovedFileTransfer (scx : ServerContext) : M session (option fileTransferRequest) := fun s =>
  match s_fileTransferReq s with
  | None => (s, Err (NotFound "Session does not have a pending file transfer request" []))
  | Some req =>
      if negb (bool_decide (ft_Requester req = ctx_TeleportUser scx)) then
        (session_BroadcastMessage
           ("file transfer request " +:+ ft_ID req +:+ " denied due to " +:+ ctx_TeleportUser scx +:+
            " attempting to transfer files") (set_transfer None s),
         Err (AccessDenied "Teleport user does not match original requester" []))
      else match checkIfFileTransferApproved req with
      | Err err => (s, Err err)
      | Ok false => (s, Ok None)
      | Ok true => (set_transfer None s, Ok (Some req))
      end
  end.

(** The decision of [OpenExecSession] to run without a terminal. *)
Definition exec_allowed (approved : bool) (s : session) : result bool :=
  let? canStart := (checkIfStartUnderLock s).2 in
  Ok (canStart || approved).

(** ** Steps *)

(** What the environment does, with the outcome of the handlers that remove. *)
Inductive event :=
| Joins (p : string)
| Tracked (p : string)
| Leaves (p : string) (r : result unit)
| Transfer
| Terminal
| Goroutine.

Inductive session_step : session -> event -> session -> Prop :=
| step_open s terminal written svc id scx s' r :
    s_parties s !! id = None -> id ∉ s_closed s -> s_participants s !! id = None ->
    is_initiator (ctx_TeleportUser scx) (ctx_OriginClusterName scx) = true -> ctx_Login scx = sess_login cfg ->
    OpenSession terminal written svc (newParty id SessionPeerMode scx) s = (s', r) ->
    session_step s (Joins id) s'
| step_join s a id scx mode s' r :
    s_parties s !! id = None -> id ∉ s_closed s -> s_participants s !! id = None ->
    join_party a id scx mode s = (s', r) -> session_step s (Joins id) s'
| step_track s svc now p s' r :
    track_participant svc now p s = (s', r) -> session_step s (Tracked (p_id p)) s'
| step_leave s removed state id p s' r :
    s_participants s !! id = Some p ->
    closeUnderSessionLock removed state p s = (s', r) -> session_step s (Leaves id r) s'
| step_transfer_add s id params scx s' r :
    addFileTransferRequest id params scx s = (s', r) -> session_step s Transfer s'
| step_transfer_approve s id scx s' r :
    approveFileTransferRequest id scx s = (s', r) -> session_step s Transfer s'
| step_transfer_deny s id scx s' r :
    denyFileTransferRequest id scx s = (s', r) -> session_step s Transfer s'
| step_transfer_run s scx s' r :
    isApprovedFileTransfer scx s = (s', r) -> session_step s Transfer s'
| step_print s p : session_step s Terminal (session_print p s)
| step_break s name w :
    tm_writers (s_io s) !! name = Some w ->
    session_step s Terminal
      (set_io (AddWriter name {| w_data := w_data w; w_broken := true |} (s_io s)) s)
| step_type s name buf :
    session_step s Terminal (set_io (reader_accept name buf (reader_interrupt buf (s_io s))) s)
| step_send s name g : reader_send name (s_io s) = Some g -> session_step s Terminal (set_io g s)
| step_read s n g r : Read_take n (s_io s) = Some (g, r) -> session_step s Terminal (set_io g s)
| step_fetch s g : Read_fetch (s_io s) = Some g -> session_step s Terminal (set_io g s)
| step_interrupt s :
    tm_terminateNotifier (s_io s) = true -> session_step s Goroutine (spawn RunForceTerminate s)
| step_linger s : session_step s Goroutine (linger_expires s)
| step_stop s : session_step s Goroutine (spawn RunStop s)
| step_goroutine s i g svc :
    s_pending s !! i = Some g -> session_step s Goroutine (run svc g (take_goroutine i s)).

(** [newSession]: nothing runs, the tracker has the initiator. *)
Definition new_session (tracker : SessionTrackerV1) : session := {|
  s_parties := ∅; s_participants := ∅; s_fileTransferReq := None; s_io := NewTermManager;
  s_tracker := tracker; s_started := false; s_stopped := false; s_pending := []; s_linger := None;
  s_endingContext := None; s_contexts := ∅; s_closed := ∅ |}.

(** The states of the runs whose events are all of a kind. *)
Inductive reached (P : event -> Prop) (s0 : session) : session -> Prop :=
| reached_start : reached P s0 s0
| reached_step s ev s' : reached P s0 s -> P ev -> session_step s ev s' -> reached P s0 s'.
End Session.
