(* ===== verification/SessionSafety.v ===== *)
(** * Every step of a session keeps its invariants *)

From S2P Require Import Prelude GoStrings Types Regexp Roles RoleLimits RoleRules Moderation.
From S2P Require Import TermManager SessionTracker Session.

(** ** Facts about a session

    [keeps] relates states with the same parties and the same data flow;
    most of a handler is such a step.  [supervised] says that data flows only
    while the policies are fulfilled by who is there, and [admitted] who can
    be there; the steps of a session keep both. *)

Section Facts.
Context `{RegexpEngine} `{FilterParser} `{MapOrderLaws party}.
Variable cfg : SessionConfig.
Context `{!CountsInRange (sess_access cfg)}.

(** ** Steps that keep the parties and the flow *)

(** The session is over, or a goroutine will end it. *)
Definition ends (s : session) : Prop := s_stopped s = true \/ s_pending s <> [].

Definition flowing (s : session) : bool := bool_decide (tm_state (s_io s) = dataFlowOn).

Record keeps (s s' : session) : Prop := {
  keeps_parties : s_parties s' = s_parties s;
  keeps_participants : s_participants s' = s_participants s;
  keeps_transfer : s_fileTransferReq s' = s_fileTransferReq s;
  keeps_state : tm_state (s_io s') = tm_state (s_io s);
  keeps_closed : s_closed s' = s_closed s;
  keeps_ends : ends s -> ends s';
}.

#[local] Instance keeps_preorder : PreOrder keeps.
Proof. split; [by split|]. intros s1 s2 s3 [] []. split; try congruence. auto. Qed.

Lemma ends_spawn g s : ends (spawn g s).
Proof. right. simpl. by destruct (s_pending s). Qed.

Lemma keeps_spawn g s : keeps s (spawn g s).
Proof. split; try done. intros _. apply ends_spawn. Qed.

Lemma keeps_onWriteError broken s : keeps s (onWriteError cfg broken s).
Proof. unfold onWriteError. destruct (_ && _); [apply keeps_spawn|done]. Qed.

Lemma keeps_set_io io s : tm_state io = tm_state (s_io s) -> keeps s (set_io io s).
Proof. by split. Qed.

Lemma keeps_io_write f s : (forall g, tm_state (f g) = tm_state g) -> keeps s (io_write cfg f s).
Proof.
  intros Hf. unfold io_write. transitivity (set_io (f (s_io s)) s); [by apply keeps_set_io|].
  apply keeps_onWriteError.
Qed.

Lemma BroadcastMessage_state m g : tm_state (BroadcastMessage m g) = tm_state g.
Proof. unfold BroadcastMessage. by destruct (tm_lastWasBroadcast g). Qed.

Lemma keeps_broadcast m s : keeps s (session_BroadcastMessage cfg m s).
Proof.
  unfold session_BroadcastMessage. destruct (_ && _); [|done]. apply keeps_io_write, BroadcastMessage_state.
Qed.

Lemma keeps_on_tracker {A} (m : M SessionTrackerV1 A) : step_in keeps (on_tracker m).
Proof. intros s s' r. unfold on_tracker. destruct (m (s_tracker s)) as [t r']. by intros [= <- <-]. Qed.

Lemma keeps_update_state svc state s : keeps s (update_state svc state s).
Proof.
  unfold update_state. destruct (on_tracker _ s) as [s' r] eqn:E. by eapply keeps_on_tracker.
Qed.

Lemma keeps_setParty p : step_in keeps (setParty p).
Proof. intros s s' r. unfold setParty. case_bool_decide; by intros [= <- <-]. Qed.

Lemma keeps_mmodify (f : session -> session) : (forall s, keeps s (f s)) -> step_in keeps (mmodify f).
Proof. intros Hf s s' r [= <- <-]. apply Hf. Qed.

Lemma keeps_first_party_check p : step_in keeps (first_party_check cfg p).
Proof.
  intros s s' r. unfold first_party_check. case_bool_decide; [|by intros [= <- <-]].
  destruct (checkIfStartUnderLock _ _) as [o [b|err]]; [|by intros [= <- <-]].
  destruct (_ && _); intros [= <- <-]; [apply keeps_spawn|done].
Qed.

#[local] Hint Resolve keeps_broadcast keeps_first_party_check keeps_setParty keeps_spawn keeps_set_io
  keeps_on_tracker keeps_update_state keeps_io_write : go.

(** ** Data flows only while the policies are fulfilled *)

(** Those who count towards the policies. *)
Definition present (s : session) : list SessionAccessContext := participants_of cfg (snd <$> range (s_parties s)).

Definition supervised (s : session) : Prop :=
  flowing s = true -> ends s \/ fulfilled (sess_access cfg) (present s) = true.

Lemma flowing_true s : flowing s = true <-> tm_state (s_io s) = dataFlowOn.
Proof. apply bool_decide_eq_true. Qed.

Lemma supervised_keeps s s' : keeps s s' -> supervised s -> supervised s'.
Proof.
  intros [Hp _ _ Hs _ He] Hm. unfold supervised, present, flowing in *. rewrite Hp, Hs.
  intros [?|?]%Hm; [left; auto|by right].
Qed.

Lemma checkIfStart_fulfilled s o b :
  checkIfStartUnderLock cfg s = (o, Ok b) -> b = fulfilled (sess_access cfg) (present s).
Proof.
  unfold checkIfStartUnderLock. destruct (FulfilledFor _ _) as [o' [b'|err]] eqn:E; [|done].
  intros [= <- <-]. by apply FulfilledFor_fulfilled in E.
Qed.

Lemma present_insert s p :
  s_parties s !! p_id p = None ->
  present s ⊆+ participants_of cfg (snd <$> range (<[p_id p := p]> (s_parties s))).
Proof.
  intros Hn. unfold present, participants_of.
  rewrite (range_permutation (<[p_id p := p]> (s_parties s))), (range_permutation (s_parties s)).
  rewrite map_to_list_insert by done. cbn [fmap list_fmap snd]. rewrite filter_cons.
  case_decide; simpl; [apply submseteq_cons|]; done.
Qed.

Lemma supervised_insert s p participants :
  s_parties s !! p_id p = None -> supervised s ->
  supervised (set_parties (<[p_id p := p]> (s_parties s)) participants s).
Proof.
  intros Hn Hm Hf. destruct (Hm Hf) as [?|Hful]; [by left|right].
  eapply fulfilled_mono; [|exact Hful]. by apply present_insert.
Qed.

(** Data flows after [On] in a state whose policies are fulfilled. *)
Lemma supervised_on s s' :
  s_parties s' = s_parties s -> fulfilled (sess_access cfg) (present s) = true -> supervised s'.
Proof. intros Hp Hf _. right. unfold present in *. by rewrite Hp. Qed.

Lemma parties_io_write f s : s_parties (io_write cfg f s) = s_parties s.
Proof. unfold io_write. by rewrite (keeps_parties _ _ (keeps_onWriteError _ _)). Qed.

Lemma parties_launch svc s : s_parties (launchUnderLock cfg svc s) = s_parties s.
Proof.
  unfold launchUnderLock. destruct (s_started s); [done|].
  rewrite (keeps_parties _ _ (keeps_update_state _ _ _)), (keeps_parties _ _ (keeps_broadcast _ _)).
  by rewrite parties_io_write.
Qed.

Lemma parties_resume svc s : s_parties (resumeUnderLock cfg svc s) = s_parties s.
Proof.
  unfold resumeUnderLock.
  rewrite (keeps_parties _ _ (keeps_update_state _ _ _)), (keeps_parties _ _ (keeps_broadcast _ _)).
  by rewrite parties_io_write.
Qed.

Lemma pause_off svc s : flowing (pauseUnderLock cfg svc s) = false.
Proof.
  unfold flowing, pauseUnderLock.
  by rewrite (keeps_state _ _ (keeps_update_state _ _ _)), (keeps_state _ _ (keeps_broadcast _ _)).
Qed.

Lemma start_pending_supervised svc s s' r :
  start_pending cfg svc s = (s', r) -> supervised s -> supervised s'.
Proof.
  unfold start_pending. destruct (negb _); [by intros [= <- <-]|].
  destruct (checkIfStartUnderLock cfg s) as [o [[]|err]] eqn:E; intros [= <- <-] Hm; [| |done].
  - apply checkIfStart_fulfilled in E. eapply supervised_on; [|by symmetry].
    destruct (s_started s); [apply parties_resume|apply parties_launch].
  - eapply supervised_keeps; [apply keeps_broadcast|done].
Qed.

(** ** Invariants of monadic steps *)

Definition kept_by {A} (I : session -> Prop) (m : M session A) : Prop :=
  forall s s' r, m s = (s', r) -> I s -> I s'.

Lemma kept_mthen {A B} I (m : M session A) (k : A -> M session B) :
  kept_by I m -> (forall a, kept_by I (k a)) -> kept_by I (mthen m k).
Proof.
  intros Hm Hk s s' r. unfold mthen. destruct (m s) as [s1 [a|err]] eqn:E; [|intros [= <- <-]; by eapply Hm].
  intros E' HI. eapply Hk; [exact E'|]. by eapply Hm.
Qed.

(** Up to the insertion of the party the parties stay. *)
Definition fresh_supervised (p : party) (s : session) : Prop := supervised s /\ s_parties s !! p_id p = None.

Lemma fresh_keeps p s s' : keeps s s' -> fresh_supervised p s -> fresh_supervised p s'.
Proof.
  intros Hk [? ?]. split; [by eapply supervised_keeps|]. by rewrite (keeps_parties _ _ Hk).
Qed.

(** What [addParty] does: nothing but steps that keep, or one insertion. *)
Inductive added (p : party) (svc : option error) (s : session) : session -> Prop :=
| added_not s' : keeps s s' -> added p svc s s'
| added_in s1 s2 s' :
    keeps s s1 ->
    keeps (set_parties (<[p_id p := p]> (s_parties s1)) (<[p_id p := p]> (s_participants s1)) s1) s2 ->
    (s' = s2 \/ exists r, start_pending cfg svc s2 = (s', r)) -> added p svc s s'.

Lemma addParty_added written svc p s s' r :
  addParty cfg written svc p s = (s', r) ->
  added p svc s s' /\
  (s_parties s' = s_parties s \/ sess_login cfg = p_login p \/ p_login p = SSHSessionJoinPrincipal).
Proof.
  unfold addParty, mthen, mget, mmodify, mlift, mfail.
  destruct (negb _ && negb _) eqn:El; [intros [= <- <-]; split; [by apply added_not|by left]|].
  assert (Hl : sess_login cfg = p_login p \/ p_login p = SSHSessionJoinPrincipal).
  { apply andb_false_iff in El as [El|El]; bool_to_prop; auto. }
  destruct (_ =? _); [intros [= <- <-]; split; [by apply added_not|by left]|].
  destruct (first_party_check cfg p s) as [s1 [[]|err]] eqn:E1; [|].
  2:{ apply keeps_first_party_check in E1. intros [= <- <-]. split; [by apply added_not|].
      left. apply keeps_parties, E1. }
  apply keeps_first_party_check in E1. intros E. split; [|by right].
  assert (Hk1 : keeps s (set_linger None s1)) by (transitivity s1; [done|by split]).
  destruct written as [err|]; [injection E as <- <-; by eapply added_in; [exact Hk1|reflexivity|left]|].
  cbn -[start_pending session_BroadcastMessage AddWriter] in E.
  eapply added_in; [exact Hk1| |right; eexists; exact E].
  etransitivity; [apply keeps_broadcast|]. by apply keeps_set_io.
Qed.

Lemma added_supervised p svc s s' :
  added p svc s s' -> s_parties s !! p_id p = None -> supervised s -> supervised s'.
Proof.
  intros [s1 Hk|s1 s2 s3 Hk1 Hk2 Hd] Hn Hm; [by eapply supervised_keeps|].
  assert (Hm1 : supervised s1) by (by eapply supervised_keeps).
  assert (Hm2 : supervised s2).
  { eapply supervised_keeps; [exact Hk2|]. apply supervised_insert; [|done].
    by rewrite (keeps_parties _ _ Hk1). }
  destruct Hd as [->|[r Hd]]; [done|]. by eapply start_pending_supervised.
Qed.
End Facts.

Section Safety.
Context `{RegexpEngine} `{FilterParser} `{MapOrderLaws party}.
Variable cfg : SessionConfig.
Context `{!CountsInRange (sess_access cfg)}.

#[local] Existing Instance keeps_preorder.

(** ** Leaving *)

(** Everything before the policies are looked at. *)
Definition left_party (p : party) (s : session) : session :=
  session_BroadcastMessage cfg ("User " +:+ p_user p +:+ " left the session.")
    (set_parties (delete (p_id p) (s_parties s)) (s_participants s) s).

Lemma left_party_keeps p s :
  keeps (set_parties (delete (p_id p) (s_parties s)) (s_participants s) s) (left_party p s).
Proof. apply keeps_broadcast. Qed.

Lemma removeParty_cases removed state p s s' r :
  removePartyUnderLock cfg removed state p s = (s', r) ->
  exists s1, keeps (left_party p s) s1 /\
    match r with
    | Err _ => s' = s1
    | Ok _ => exists o canRun, checkIfStartUnderLock cfg s1 = (o, Ok canRun) /\
        ((canRun = false /\ s' = spawn RunForceTerminate s1) \/
         exists s2, s2 = (if canRun then s1 else pauseUnderLock cfg state s1) /\
           (s' = s2 \/ s' = set_linger (Some p) s2))
    end.
Proof.
  unfold removePartyUnderLock, mthen, mget, mmodify, mlift. fold (left_party p s).
  destruct (on_tracker _ (left_party p s)) as [s0 [[]|err]] eqn:E; apply keeps_on_tracker in E;
    [|intros [= <- <-]; eauto].
  set (s1 := set_io (DeleteWriter (p_id p) (s_io s0)) s0).
  assert (Hk : keeps (left_party p s) s1) by (transitivity s0; [done|by apply keeps_set_io]).
  destruct (checkIfStartUnderLock cfg s1) as [o [canRun|err]] eqn:Ec; cbn [snd fst]; [|intros [= <- <-]; eauto].
  intros E'. exists s1. split; [done|].
  destruct (negb canRun && _) eqn:Eb.
  - injection E' as <- <-. exists o, canRun. split; [done|]. left. by destruct canRun.
  - injection E' as <- <-. exists o, canRun. split; [done|]. right. eexists. split; [done|].
    case_match; auto.
Qed.

Lemma supervised_linger q s : supervised cfg s -> supervised cfg (set_linger q s).
Proof. apply supervised_keeps. by split. Qed.

(** A removal that succeeds leaves the session supervised, whatever it was. *)
Lemma removeParty_supervised removed state p s s' u :
  removePartyUnderLock cfg removed state p s = (s', Ok u) -> supervised cfg s'.
Proof.
  intros (s1 & _ & o & canRun & Ec & Hd)%removeParty_cases. apply (checkIfStart_fulfilled cfg) in Ec.
  destruct Hd as [[_ ->]|(s2 & Hs2 & Hd)]; [intros _; left; apply ends_spawn|].
  assert (Hm : supervised cfg s2).
  { destruct canRun; subst s2; [intros _; by right|]. intros Hf. by rewrite pause_off in Hf. }
  destruct Hd as [->| ->]; [done|by apply supervised_linger].
Qed.

Lemma close_supervised removed state p s s' u :
  closeUnderSessionLock cfg removed state p s = (s', Ok u) -> supervised cfg s -> supervised cfg s'.
Proof.
  unfold closeUnderSessionLock. case_bool_decide; [by intros [= <- _]|].
  intros Hr _. by eapply removeParty_supervised.
Qed.

(** ** Joining *)

Lemma startInteractive_added terminal written svc p s s' r :
  startInteractive cfg terminal written svc p s = (s', r) ->
  exists s1, keeps s s1 /\ (s' = s1 \/ exists r', addParty cfg written svc p s1 = (s', r')).
Proof.
  unfold startInteractive, mthen, mget, mlift, mmodify, mfail.
  destruct (checkIfStartUnderLock cfg s).2 as [canStart|err]; [|intros [= <- <-]; exists s; split; [done|by left]].
  destruct (_ && _).
  { intros [= <- <-]. exists (spawn RunStop s). split; [apply keeps_spawn|auto]. }
  set (s1 := session_BroadcastMessage _ _ _).
  assert (Hk : keeps s s1) by (etransitivity; [|apply keeps_broadcast]; by split).
  intros E. exists s1. split; [done|]. destruct terminal; [injection E as <- <-; by left|right; by exists r].
Qed.

Lemma OpenSession_added terminal written svc p s s' r :
  OpenSession cfg terminal written svc p s = (s', r) ->
  exists s1, keeps s s1 /\ (s' = s1 \/ exists r', addParty cfg written svc p s1 = (s', r')).
Proof.
  unfold OpenSession, mthen. destruct (setParty p s) as [s0 [[]|err]] eqn:E; apply keeps_setParty in E;
    [|intros [= <- <-]; eauto].
  intros (s1 & Hk & Hd)%startInteractive_added. exists s1. split; [by transitivity s0|done].
Qed.

Lemma join_party_added a id scx mode s s' r :
  join_party cfg a id scx mode s = (s', r) ->
  s' = s \/
  (join_check cfg (a_presence a) scx mode = Ok tt /\
   exists s1, keeps s s1 /\
     (s' = s1 \/ exists r', addParty cfg (a_written a) (a_state a) (newParty id mode scx) s1 = (s', r'))).
Proof.
  unfold join_party, mthen, mlift, mret. destruct (join_check _ _ _ _) as [[]|err]; [|intros [= <- <-]; auto].
  destruct (setParty _ s) as [s0 [[]|err]] eqn:E; apply keeps_setParty in E; [|intros [= <- <-]; eauto 6].
  destruct (addParty _ _ _ _ s0) as [s1 [[]|err]] eqn:Ea; intros [= <- <-]; eauto 8.
Qed.

Lemma added_after_keeps p s s1 s' written svc r :
  keeps s s1 -> addParty cfg written svc p s1 = (s', r) -> s_parties s !! p_id p = None ->
  supervised cfg s -> supervised cfg s'.
Proof.
  intros Hk [Ha _]%addParty_added Hn Hm. eapply (added_supervised cfg); [exact Ha| |by eapply supervised_keeps].
  by rewrite (keeps_parties _ _ Hk).
Qed.

(** ** The other steps *)

Lemma keeps_transfer_only r s : s_parties (set_transfer r s) = s_parties s /\ s_io (set_transfer r s) = s_io s.
Proof. done. Qed.

Lemma supervised_transfer r s : supervised cfg s -> supervised cfg (set_transfer r s).
Proof. done. Qed.

Lemma kept_mmodify I (f : session -> session) : (forall s : session, I s -> I (f s)) -> kept_by I (mmodify f).
Proof. intros Hf s s' r [= <- <-]. apply Hf. Qed.

Lemma kept_mlift {A} I (r : result A) : kept_by I (mlift r).
Proof. by intros s s' r' [= <- <-]. Qed.

Lemma kept_mget {A} I (f : session -> A) : kept_by I (mget f).
Proof. by intros s s' r' [= <- <-]. Qed.

Lemma kept_mfail {A} I e : kept_by I (mfail (A:=A) e).
Proof. by intros s s' r' [= <- <-]. Qed.

Lemma supervised_broadcast m s : supervised cfg s -> supervised cfg (session_BroadcastMessage cfg m s).
Proof. apply supervised_keeps, keeps_broadcast. Qed.

#[local] Hint Resolve supervised_transfer supervised_broadcast : go.

(** Follow the text of a handler. *)
Ltac kept_auto :=
  repeat lazymatch goal with
  | |- kept_by _ (mthen _ _) => apply kept_mthen; [|intros ?]
  | |- kept_by _ (mlift _) => apply kept_mlift
  | |- kept_by _ (mget _) => apply kept_mget
  | |- kept_by _ (mfail _) => apply kept_mfail
  | |- kept_by _ (mmodify _) => apply kept_mmodify; intros ? ?
  | |- kept_by _ (if ?c then _ else _) => destruct c
  | |- kept_by _ (match ?x with Some _ => _ | None => _ end) => destruct x
  end; auto with go.

Lemma add_transfer_supervised id params scx : kept_by (supervised cfg) (addFileTransferRequest cfg id params scx).
Proof. unfold addFileTransferRequest. kept_auto. Qed.

Lemma approve_supervised id scx : kept_by (supervised cfg) (approveFileTransferRequest cfg id scx).
Proof. unfold approveFileTransferRequest. kept_auto. Qed.

Lemma deny_supervised id scx : kept_by (supervised cfg) (denyFileTransferRequest cfg id scx).
Proof. unfold denyFileTransferRequest. kept_auto. Qed.

Lemma approved_supervised scx : kept_by (supervised cfg) (isApprovedFileTransfer cfg scx).
Proof.
  intros s s' r. unfold isApprovedFileTransfer. repeat case_match; intros [= <- <-]; auto with go.
Qed.

Lemma Write_state p g : tm_state (tm_Write p g).1 = tm_state g.
Proof. unfold tm_Write. destruct (tm_closed g); [done|]. by destruct (tm_state g) eqn:E. Qed.

Lemma keeps_print p s : keeps s (session_print cfg p s).
Proof.
  unfold session_print. destruct (_ && _); [apply keeps_io_write; intros g|apply keeps_set_io]; apply Write_state.
Qed.

Lemma reader_state name buf g : tm_state (reader_accept name buf (reader_interrupt buf g)) = tm_state g.
Proof.
  assert (Hi : tm_state (reader_interrupt buf g) = tm_state g) by (unfold reader_interrupt; by case_match).
  unfold reader_accept. by destruct (tm_state (reader_interrupt buf g)) eqn:E; simpl; rewrite ?E.
Qed.

Lemma reader_send_state name g g' : reader_send name g = Some g' -> tm_state g' = tm_state g.
Proof. unfold reader_send. repeat case_match; naive_solver. Qed.

Lemma Read_take_state n g g' r : Read_take n g = Some (g', r) -> tm_state g' = tm_state g.
Proof. unfold Read_take. repeat case_match; naive_solver. Qed.

Lemma Read_fetch_state g g' : Read_fetch g = Some g' -> tm_state g' = tm_state g.
Proof. unfold Read_fetch. repeat case_match; naive_solver. Qed.

Lemma Stop_stopped svc s : s_stopped (Stop cfg svc s) = true.
Proof.
  unfold Stop. destruct (s_stopped s) eqn:E; [done|].
  unfold update_state, on_tracker. destruct (tracker_UpdateState _ _ _) as [t r]. simpl.
  unfold session_BroadcastMessage. case_match; [|done]. unfold io_write, onWriteError. by case_match.
Qed.

Lemma run_stopped svc g s : s_stopped (run cfg svc g s) = true.
Proof. destruct g; apply Stop_stopped. Qed.

(** ** Supervision *)

(** The events of a run in which no removal failed. *)
Definition removals_succeed (ev : event) : Prop :=
  match ev with Leaves _ (Err _) => False | _ => True end.

Lemma session_step_supervised s ev s' :
  session_step cfg s ev s' -> removals_succeed ev -> supervised cfg s -> supervised cfg s'.
Proof.
  intros Hstep Hev Hm. destruct Hstep.
  - match goal with E : OpenSession _ _ _ _ _ _ = _ |- _ =>
      apply OpenSession_added in E as (s1 & Hk & [->|[r' Ha]]) end; [by eapply supervised_keeps|].
    by eapply added_after_keeps.
  - match goal with E : join_party _ _ _ _ _ _ = _ |- _ =>
      apply join_party_added in E as [->|(_ & s1 & Hk & [->|[r' Ha]])] end; [done|by eapply supervised_keeps|].
    by eapply added_after_keeps.
  - eapply supervised_keeps; [|exact Hm]. by eapply keeps_on_tracker.
  - destruct r as [u|]; [|done]. by eapply close_supervised.
  - by eapply add_transfer_supervised.
  - by eapply approve_supervised.
  - by eapply deny_supervised.
  - by eapply approved_supervised.
  - eapply supervised_keeps; [apply keeps_print|done].
  - eapply supervised_keeps; [by apply keeps_set_io|done].
  - eapply supervised_keeps; [apply keeps_set_io, reader_state|done].
  - eapply supervised_keeps; [by eapply keeps_set_io, reader_send_state|done].
  - eapply supervised_keeps; [by eapply keeps_set_io, Read_take_state|done].
  - eapply supervised_keeps; [by eapply keeps_set_io, Read_fetch_state|done].
  - intros _. left. apply ends_spawn.
  - unfold linger_expires. destruct (s_linger s); [intros _; left; apply ends_spawn|done].
  - intros _. left. apply ends_spawn.
  - intros _. left. left. apply run_stopped.
Qed.

Lemma reached_supervised s0 s :
  flowing s0 = false -> reached cfg removals_succeed s0 s -> supervised cfg s.
Proof.
  intros Hf. induction 1 as [|s ev s' _ IH Hev Hs]; [intros Hf'; congruence|].
  by eapply session_step_supervised.
Qed.
End Safety.

(** ** Who is in a session, and who approves its file transfers

    Everybody in a session was let in by [join]: the initiator, or a user
    whose roles allow the mode.  Approvers were members when they approved. *)

Section Members.
Context `{RegexpEngine} `{FilterParser} `{MapOrderLaws party}.
Variable cfg : SessionConfig.

#[local] Existing Instance keeps_preorder.

(** The user of the party may be there, in the mode, and with the login. *)
Definition admitted (p : party) : Prop :=
  (is_initiator cfg (ctx_TeleportUser (p_ctx p)) (ctx_OriginClusterName (p_ctx p)) = true \/
   exists modes, CanJoin (sess_access cfg)
     {| sc_Username := ctx_TeleportUser (p_ctx p); sc_Roles := default [] (ctx_Roles (p_ctx p)); sc_Mode := "" |} = Ok modes /\
     p_mode p ∈ modes) /\
  (p_login p = sess_login cfg \/ p_login p = SSHSessionJoinPrincipal).

Record members (s : session) : Prop := {
  parties_joined id p : s_parties s !! id = Some p -> s_participants s !! id = Some p;
  joined_admitted id p : s_participants s !! id = Some p -> p_id p = id /\ admitted p;
  approver_joined req u p : s_fileTransferReq s = Some req -> ft_approvers req !! u = Some p ->
    p_user p = u /\ s_participants s !! p_id p = Some p;
}.

Lemma members_same s s' :
  s_parties s' = s_parties s -> s_participants s' = s_participants s ->
  s_fileTransferReq s' = s_fileTransferReq s -> members s -> members s'.
Proof. intros Hp Hq Hr [Ha Hb Hc]. split; rewrite ?Hp, ?Hq, ?Hr; auto. Qed.

Lemma members_keeps s s' : keeps s s' -> members s -> members s'.
Proof. intros []. by apply members_same. Qed.

(** Only the parties matter: fewer of them, and the rest as it was. *)
Lemma members_fewer s s' :
  s_parties s' ⊆ s_parties s -> s_participants s' = s_participants s ->
  s_fileTransferReq s' = s_fileTransferReq s -> members s -> members s'.
Proof.
  intros Hp Hq Hr [Ha Hb Hc]. split; rewrite ?Hq, ?Hr; [|auto..].
  intros id p Hi. apply Ha. by eapply lookup_weaken.
Qed.

(** What [start_pending] and the pause change is the terminal, the tracker and
    whether the session started. *)
Definition same_members (s s' : session) : Prop :=
  s_parties s' = s_parties s /\ s_participants s' = s_participants s /\ s_fileTransferReq s' = s_fileTransferReq s.

#[local] Instance same_members_preorder : PreOrder same_members.
Proof. split; [done|]. intros s1 s2 s3 (? & ? & ?) (? & ? & ?). repeat split; congruence. Qed.

Lemma same_keeps s s' : keeps s s' -> same_members s s'.
Proof. by intros []. Qed.

Lemma same_io_write f s : same_members s (io_write cfg f s).
Proof. unfold io_write. transitivity (set_io (f (s_io s)) s); [done|]. apply same_keeps, keeps_onWriteError. Qed.

Lemma same_launch svc s : same_members s (launchUnderLock cfg svc s).
Proof.
  unfold launchUnderLock. destruct (s_started s); [done|].
  transitivity (io_write cfg On (set_started s)); [by etransitivity; [|apply same_io_write]|].
  etransitivity; [apply same_keeps, keeps_broadcast|apply same_keeps, keeps_update_state].
Qed.

Lemma same_resume svc s : same_members s (resumeUnderLock cfg svc s).
Proof.
  unfold resumeUnderLock. etransitivity; [apply same_io_write|].
  etransitivity; [apply same_keeps, keeps_broadcast|apply same_keeps, keeps_update_state].
Qed.

Lemma same_pause svc s : same_members s (pauseUnderLock cfg svc s).
Proof.
  unfold pauseUnderLock. transitivity (set_io (Off (s_io s)) s); [done|].
  etransitivity; [apply same_keeps, keeps_broadcast|apply same_keeps, keeps_update_state].
Qed.

Lemma same_start_pending svc s s' r : start_pending cfg svc s = (s', r) -> same_members s s'.
Proof.
  unfold start_pending. destruct (negb _); [by intros [= <- <-]|].
  destruct (checkIfStartUnderLock cfg s) as [o [[]|err]]; intros [= <- <-]; [|apply same_keeps, keeps_broadcast|done].
  destruct (s_started s); [apply same_resume|apply same_launch].
Qed.

Lemma members_of_same s s' : same_members s s' -> members s -> members s'.
Proof. intros (? & ? & ?). by apply members_same. Qed.

(** ** A new party *)

Lemma members_insert s p :
  s_participants s !! p_id p = None -> admitted p -> members s ->
  members (set_parties (<[p_id p := p]> (s_parties s)) (<[p_id p := p]> (s_participants s)) s).
Proof.
  intros Hn Hadm [Ha Hb Hc]. split; simpl.
  - intros id q. rewrite !lookup_insert. repeat case_decide; auto.
  - intros id q. rewrite lookup_insert. case_decide; [|auto]. intros [= <-]. by subst.
  - intros req u q Hr Hq. destruct (Hc req u q Hr Hq) as [? Hj]. split; [done|].
    rewrite lookup_insert_ne; [done|]. intros E. rewrite E in Hn. congruence.
Qed.

Lemma members_added p svc s s' :
  added cfg p svc s s' -> s_participants s !! p_id p = None -> admitted p -> members s -> members s'.
Proof.
  intros [s1 Hk|s1 s2 s3 Hk1 Hk2 Hd] Hn Hadm Hm; [by eapply members_keeps|].
  assert (Hm2 : members s2).
  { eapply members_keeps; [exact Hk2|]. apply members_insert; [|done|by eapply members_keeps].
    by rewrite (keeps_participants _ _ Hk1). }
  destruct Hd as [->|[r Hd]]; [done|]. eapply members_of_same; [|exact Hm2]. by eapply same_start_pending.
Qed.

Lemma join_check_admitted presence scx mode id :
  join_check cfg presence scx mode = Ok tt ->
  sess_login cfg = ctx_Login scx \/ ctx_Login scx = SSHSessionJoinPrincipal ->
  admitted (newParty id mode scx).
Proof.
  intros Hj Hl. split; [|simpl; naive_solver]. simpl. unfold join_check in Hj.
  destruct (is_initiator cfg _ _); [by left|right].
  apply rbind_ok in Hj as (modes & Hm & Hj). apply fail_if_ok in Hj as [Hc _].
  apply negb_false_iff in Hc. autorewrite with go_simpl in Hc. eauto.
Qed.

(** [addParty] lets in nobody with another login. *)
Lemma addParty_members written svc p s s1 s' r :
  keeps s s1 -> addParty cfg written svc p s1 = (s', r) -> s_participants s !! p_id p = None ->
  (sess_login cfg = p_login p \/ p_login p = SSHSessionJoinPrincipal -> admitted p) -> members s -> members s'.
Proof.
  intros Hk [Ha Hl]%addParty_added Hn Hadm Hm.
  assert (Hm1 : members s1) by (by eapply members_keeps).
  destruct Hl as [Hp|Hl].
  - destruct Ha as [s2 Hk2|s2 s3 s4 Hk2 Hk3 Hd]; [by eapply members_keeps|]. exfalso.
    assert (Hsame : s_parties s4 = <[p_id p := p]> (s_parties s2)).
    { destruct Hd as [->|[r' Hd]]; [apply Hk3|].
      apply same_start_pending in Hd as (-> & _). apply Hk3. }
    rewrite Hp in Hsame. rewrite (keeps_parties _ _ Hk2) in Hsame.
    assert (s_parties s1 !! p_id p = Some p) as Hin by (rewrite Hsame; apply lookup_insert_eq).
    apply (parties_joined _ Hm1) in Hin. rewrite (keeps_participants _ _ Hk), Hn in Hin. done.
  - eapply members_added; [exact Ha| |auto|done]. by rewrite (keeps_participants _ _ Hk).
Qed.

(** ** Leaving and ending *)

Lemma removeParty_members removed state p s s' r :
  removePartyUnderLock cfg removed state p s = (s', r) -> members s -> members s'.
Proof.
  intros (s1 & Hk & Hd)%removeParty_cases Hm.
  assert (Hm1 : members s1).
  { eapply members_keeps; [exact Hk|]. eapply members_keeps; [apply left_party_keeps|].
    eapply members_fewer; [| | |exact Hm]; [apply delete_subseteq|done..]. }
  destruct r as [u|err]; [|by subst].
  destruct Hd as (o & canRun & _ & [[_ ->]|(s2 & -> & Hd)]); [eapply members_keeps; [apply keeps_spawn|done]|].
  assert (Hm2 : members (if canRun then s1 else pauseUnderLock cfg state s1)).
  { destruct canRun; [done|]. eapply members_of_same; [apply same_pause|done]. }
  destruct Hd as [->| ->]; [done|]. eapply members_same; [..|exact Hm2]; done.
Qed.

Lemma same_Stop svc s : same_members s (Stop cfg svc s).
Proof.
  unfold Stop. destruct (s_stopped s); [done|].
  set (s1 := session_BroadcastMessage cfg "Stopping session..." _).
  assert (Hs1 : same_members s s1) by (by etransitivity; [|apply same_keeps, keeps_broadcast]).
  etransitivity; [exact Hs1|]. transitivity (set_io (tm_Close (s_io s1)) s1); [done|].
  apply same_keeps, keeps_update_state.
Qed.

Lemma same_run svc g s : same_members s (run cfg svc g s).
Proof.
  destruct g; simpl; [apply same_Stop|..].
  - etransitivity; [apply same_keeps, keeps_broadcast|apply same_Stop].
  - by etransitivity; [|apply same_Stop].
  - etransitivity; [apply same_io_write|apply same_Stop].
Qed.

(** ** File transfers *)

Lemma members_no_transfer s : members s -> members (set_transfer None s).
Proof. intros [Ha Hb Hc]. by split. Qed.

Lemma members_new_transfer req s : ft_approvers req = ∅ -> members s -> members (set_transfer (Some req) s).
Proof.
  intros He [Ha Hb Hc]. split; [done..|]. simpl. intros req' u p [= <-]. by rewrite He, lookup_empty.
Qed.

Lemma party_of_in scx s p :
  party_of scx s = Some p -> exists id, s_parties s !! id = Some p /\ ctx_ID (p_ctx p) = ctx_ID scx.
Proof.
  unfold party_of. intros [l E]%last_Some.
  assert (Hp : p ∈ filter (fun p => ctx_ID (p_ctx p) = ctx_ID scx) (snd <$> range (s_parties s)))
    by (rewrite E; set_solver).
  apply list_elem_of_filter in Hp as [Hc Hp]. apply list_elem_of_fmap in Hp as ([id q] & -> & Hq).
  exists id. split; [by apply elem_of_range|done].
Qed.

Lemma members_approve req p id s :
  s_fileTransferReq s = Some req -> s_parties s !! id = Some p -> members s ->
  members (set_transfer (Some (add_approver p req)) s).
Proof.
  intros Hr Hp [Ha Hb Hc]. split; [done..|]. simpl. intros req' u q [= <-]. simpl.
  rewrite lookup_insert. case_decide; [|by apply Hc]. intros [= <-]. subst. split; [done|].
  apply Ha in Hp as Hj. destruct (Hb _ _ Hj) as [<- _]. done.
Qed.

Lemma find_request_ok id missing s req :
  find_request id missing s = Ok req -> s_fileTransferReq s = Some req /\ ft_ID req = id.
Proof.
  unfold find_request. destruct (s_fileTransferReq s) as [req'|]; [|done].
  intros [Hc E]%fail_if_ok. injection E as <-. apply negb_false_iff in Hc. by apply bool_decide_eq_true in Hc.
Qed.

Lemma members_broadcast m s : members s -> members (session_BroadcastMessage cfg m s).
Proof. apply members_keeps, keeps_broadcast. Qed.

Lemma addTransfer_members id params scx s s' r :
  addFileTransferRequest cfg id params scx s = (s', r) -> members s -> members s'.
Proof.
  unfold addFileTransferRequest, mthen, mget, mmodify, mlift, mfail. intros E Hm.
  repeat case_match; simplify_eq/=; try done; apply members_broadcast; by apply members_new_transfer.
Qed.

Lemma approve_members id scx s s' r :
  approveFileTransferRequest cfg id scx s = (s', r) -> members s -> members s'.
Proof.
  unfold approveFileTransferRequest, mthen, mget, mmodify, mlift, mfail.
  destruct (find_request _ _ s) as [req|err] eqn:Ef; [|by intros [= <- <-]].
  apply find_request_ok in Ef as [Hr _].
  destruct (party_of scx s) as [p|] eqn:Ep; [|by intros [= <- <-]].
  apply party_of_in in Ep as (pid & Hp & _). intros E Hm.
  assert (Hm' : members (set_transfer (Some (add_approver p req)) s)) by (by eapply members_approve).
  destruct (checkIfFileTransferApproved cfg (add_approver p req)); injection E as <- <-;
    by apply members_broadcast.
Qed.

Lemma deny_members id scx s s' r :
  denyFileTransferRequest cfg id scx s = (s', r) -> members s -> members s'.
Proof.
  unfold denyFileTransferRequest, mthen, mget, mmodify, mlift, mfail. intros E Hm.
  repeat case_match; simplify_eq/=; try done; apply members_broadcast; by apply members_no_transfer.
Qed.

Lemma isApproved_members scx s s' r :
  isApprovedFileTransfer cfg scx s = (s', r) -> members s -> members s'.
Proof.
  unfold isApprovedFileTransfer. intros E Hm. repeat case_match; simplify_eq/=; try done.
  - apply members_broadcast. by apply members_no_transfer.
  - by apply members_no_transfer.
Qed.

(** ** All steps *)

Lemma session_step_members s ev s' : session_step cfg s ev s' -> members s -> members s'.
Proof.
  intros Hstep Hm. destruct Hstep.
  - match goal with E : OpenSession _ _ _ _ _ _ = _ |- _ =>
      apply OpenSession_added in E as (s1 & Hk & [->|[r' Ha]]) end; [by eapply members_keeps|].
    eapply addParty_members; [exact Hk|exact Ha|done| |done]. intros Hl. split; [by left|simpl in *; naive_solver].
  - match goal with E : join_party _ _ _ _ _ _ = _ |- _ =>
      apply join_party_added in E as [->|(Hj & s1 & Hk & [->|[r' Ha]])] end; [done|by eapply members_keeps|].
    eapply addParty_members; [exact Hk|exact Ha|done| |done]. intros Hl. by eapply join_check_admitted.
  - eapply members_keeps; [|exact Hm]. by eapply keeps_on_tracker.
  - match goal with E : closeUnderSessionLock _ _ _ _ _ = _ |- _ => unfold closeUnderSessionLock in E end.
    case_bool_decide; [by simplify_eq/=|].
    eapply removeParty_members; [eassumption|]. by eapply members_same; [..|exact Hm].
  - by eapply addTransfer_members.
  - by eapply approve_members.
  - by eapply deny_members.
  - by eapply isApproved_members.
  - eapply members_keeps; [apply keeps_print|done].
  - by eapply members_same; [..|exact Hm].
  - by eapply members_same; [..|exact Hm].
  - by eapply members_same; [..|exact Hm].
  - by eapply members_same; [..|exact Hm].
  - by eapply members_same; [..|exact Hm].
  - eapply members_keeps; [apply keeps_spawn|done].
  - unfold linger_expires. destruct (s_linger s); [|done]. by eapply members_same; [..|exact Hm].
  - eapply members_keeps; [apply keeps_spawn|done].
  - eapply members_of_same; [apply same_run|]. by eapply members_same; [..|exact Hm].
Qed.

Lemma reached_members P tracker s : reached cfg P (new_session tracker) s -> members s.
Proof.
  induction 1 as [|s ev s' _ IH _ Hs]; [|by eapply session_step_members].
  by split; simpl; intros *; rewrite ?lookup_empty.
Qed.
End Members.
