(* ===== verification/Autoupdate.v ===== *)
(** * Update resources: [api/types/autoupdate], [api/types/maintenance.go]

    The configuration and the version an administrator sets, the rollout the
    cluster derives from them, the reports of the agents, and when each is
    valid.  A message that may be missing is an option; the getters of a
    missing message give zero values.  Semantic versions are parsed by a
    third-party package: a parameter. *)

From stdpp Require Import pretty.
From S2P Require Import Prelude GoStrings Utf8 Types.

(** ** Time *)

Definition Minute : duration := 60 * Second.
Definition Hour : duration := 60 * Minute.
Definition Day : duration := 24 * Hour.

(** ** Weekdays *)

(** [time.Weekday]: Sunday is 0. *)
Definition Weekday := Z.

Definition weekday_names : list (Weekday * string) :=
  [(0, "Sunday"); (1, "Monday"); (2, "Tuesday"); (3, "Wednesday"); (4, "Thursday"); (5, "Friday"); (6, "Saturday")].

Definition weekday_String (w : Weekday) : string :=
  default "" (snd <$> head (filter (fun n => n.1 = w) weekday_names)).

Section Weekdays.
Context `{UnicodeTables}.

Definition ParseWeekday (s : string) : option Weekday :=
  fst <$> head (filter (fun w => EqualFold w.2 s || EqualFold (str_take 3 w.2) s = true) weekday_names).

(** The loop of [ParseWeekdays]. *)
Fixpoint parse_weekdays (seen : gset Weekday) (days : list string) : result (gset Weekday) :=
  match days with
  | [] => Ok seen
  | day :: days' =>
      match ParseWeekday day with
      | None => Err (BadParameter "failed to parse weekday: %v" [day])
      | Some weekday =>
          fail_if bool_decide (weekday ∈ seen) with BadParameter "duplicate weekday: %v" [weekday_String weekday];
          parse_weekdays ({[weekday]} ∪ seen) days'
      end
  end.

Definition ParseWeekdays (days : list string) : result (gset Weekday) :=
  fail_if bool_decide (days = []) with BadParameter "empty weekdays list" [];
  if bool_decide (days = ["*"]) then Ok (list_to_set (fst <$> weekday_names)) else parse_weekdays ∅ days.
End Weekdays.

(** ** Versions *)

Class SemVer := {
  semver : Type;
  semver_NewVersion : string -> result semver;
  semver_Equal : semver -> semver -> bool;
}.

(** ** Names *)

Definition ToolsUpdateModeEnabled := "enabled".
Definition ToolsUpdateModeDisabled := "disabled".
Definition AgentsUpdateModeEnabled := "enabled".
Definition AgentsUpdateModeDisabled := "disabled".
Definition AgentsUpdateModeSuspended := "suspended".
Definition AgentsScheduleRegular := "regular".
Definition AgentsScheduleImmediate := "immediate".
Definition AgentsStrategyHaltOnError := "halt-on-error".
Definition AgentsStrategyTimeBased := "time-based".
Definition MaxCanaryCount : Z := 5.

Definition MetaNameAutoUpdateConfig := "autoupdate-config".
Definition MetaNameAutoUpdateVersion := "autoupdate-version".
Definition MetaNameAutoUpdateAgentRollout := "autoupdate-agent-rollout".

(** ** Messages *)

Record AgentAutoUpdateGroup := {
  ag_Name : string;
  ag_Days : list string;
  ag_StartHour : Z;      (* int32 *)
  ag_WaitHours : Z;      (* int32 *)
  ag_CanaryCount : Z;    (* int32 *)
}.

Record AutoUpdateConfigSpecAgents := {
  ca_Mode : string;
  ca_Strategy : string;
  ca_MaintenanceWindowDuration : option duration;
  ca_Schedules : option (list AgentAutoUpdateGroup);   (* the regular schedule *)
}.

Record AutoUpdateConfigSpec := {
  cs_Tools : option string;                             (* the mode *)
  cs_Agents : option AutoUpdateConfigSpecAgents;
}.

(** Name in the metadata, and the specification. *)
Record AutoUpdateConfig := {
  cfg_Metadata : option string;
  cfg_Spec : option AutoUpdateConfigSpec;
}.

Record AutoUpdateVersionSpecAgents := {
  va_StartVersion : string;
  va_TargetVersion : string;
  va_Schedule : string;
  va_Mode : string;
}.

Record AutoUpdateVersionSpec := {
  vs_Tools : option string;                             (* the target version *)
  vs_Agents : option AutoUpdateVersionSpecAgents;
}.

Record AutoUpdateVersion := {
  ver_Metadata : option string;
  ver_Spec : option AutoUpdateVersionSpec;
}.

(** The states are numbers on the wire. *)
Definition AutoUpdateAgentGroupState := Z.
Definition GROUP_UNSPECIFIED : AutoUpdateAgentGroupState := 0.
Definition GROUP_UNSTARTED : AutoUpdateAgentGroupState := 1.
Definition GROUP_ACTIVE : AutoUpdateAgentGroupState := 2.
Definition GROUP_DONE : AutoUpdateAgentGroupState := 3.
Definition GROUP_ROLLEDBACK : AutoUpdateAgentGroupState := 4.
Definition GROUP_CANARY : AutoUpdateAgentGroupState := 5.

Definition AutoUpdateAgentRolloutState := Z.
Definition ROLLOUT_UNSPECIFIED : AutoUpdateAgentRolloutState := 0.
Definition ROLLOUT_UNSTARTED : AutoUpdateAgentRolloutState := 1.
Definition ROLLOUT_ACTIVE : AutoUpdateAgentRolloutState := 2.
Definition ROLLOUT_DONE : AutoUpdateAgentRolloutState := 3.
Definition ROLLOUT_ROLLEDBACK : AutoUpdateAgentRolloutState := 4.

Record Canary := {
  cn_UpdaterId : string;
  cn_HostId : string;
  cn_Hostname : string;
  cn_Success : bool;
}.

#[export] Instance Canary_eq_dec : EqDecision Canary.
Proof. solve_decision. Defined.

(** Timestamps are instants; [None] is a missing one. *)
Record RolloutGroup := {
  g_Name : string;
  g_StartTime : option time;
  g_State : AutoUpdateAgentGroupState;
  g_LastUpdateTime : option time;
  g_LastUpdateReason : string;
  g_ConfigDays : list string;
  g_ConfigStartHour : Z;     (* int32 *)
  g_ConfigWaitHours : Z;     (* int32 *)
  g_InitialCount : Z;        (* uint64 *)
  g_PresentCount : Z;        (* uint64 *)
  g_UpToDateCount : Z;       (* uint64 *)
  g_CanaryCount : Z;         (* uint64 *)
  g_Canaries : list Canary;
}.

#[export] Instance RolloutGroup_eq_dec : EqDecision RolloutGroup.
Proof. solve_decision. Defined.

Record RolloutSpec := {
  sp_StartVersion : string;
  sp_TargetVersion : string;
  sp_Schedule : string;
  sp_AutoupdateMode : string;
  sp_Strategy : string;
  sp_MaintenanceWindowDuration : option duration;
}.

#[export] Instance RolloutSpec_eq_dec : EqDecision RolloutSpec.
Proof. solve_decision. Defined.

Record RolloutStatus := {
  st_Groups : list RolloutGroup;
  st_State : AutoUpdateAgentRolloutState;
  st_StartTime : option time;
  st_TimeOverride : option time;
}.

#[export] Instance RolloutStatus_eq_dec : EqDecision RolloutStatus.
Proof. solve_decision. Defined.

Record AutoUpdateAgentRollout := {
  ro_Metadata : option string;
  ro_Revision : string;
  ro_Spec : option RolloutSpec;
  ro_Status : option RolloutStatus;
}.

(** Reports: agents by group and by version; a count is an [int32]. *)
Record AutoUpdateAgentReportSpec := {
  rs_Timestamp : option time;
  rs_Groups : gmap string (gmap string Z);
}.

Record AutoUpdateAgentReport := {
  rep_Name : string;
  rep_Spec : option AutoUpdateAgentReportSpec;
}.

(** The getters of a specification that may be missing. *)
Definition rep_Timestamp (v : AutoUpdateAgentReport) : option time := spec ← rep_Spec v; rs_Timestamp spec.
Definition rep_Groups (v : AutoUpdateAgentReport) : gmap string (gmap string Z) :=
  match rep_Spec v with Some spec => rs_Groups spec | None => ∅ end.

(** [Timestamp.AsTime] of what may be missing *)
Definition AsTime (t : option time) : time := default 0 t.

(** ** Validation *)

Section Validation.
Context `{UnicodeTables} `{SemVer}.

Definition checkVersion (version : string) : result unit :=
  fail_if bool_decide (version = "") with BadParameter "version is unset" [];
  match semver_NewVersion version with
  | Ok _ => Ok tt
  | Err _ => Err (BadParameter "version %q is not a valid semantic version" [version])
  end.

Definition checkAgentsMode (mode : string) : result unit :=
  if slices_Contains [AgentsUpdateModeEnabled; AgentsUpdateModeDisabled; AgentsUpdateModeSuspended] mode then Ok tt
  else Err (BadParameter "unsupported agents mode: %q" [mode]).

Definition checkToolsMode (mode : string) : result unit :=
  if slices_Contains [ToolsUpdateModeEnabled; ToolsUpdateModeDisabled] mode then Ok tt
  else Err (BadParameter "unsupported tools mode: %q" [mode]).

Definition checkScheduleName (schedule : string) : result unit :=
  if slices_Contains [AgentsScheduleImmediate; AgentsScheduleRegular] schedule then Ok tt
  else Err (BadParameter "unsupported schedule type: %q" [schedule]).

Definition checkAgentsStrategy (strategy : string) : result unit :=
  if slices_Contains [AgentsStrategyHaltOnError; AgentsStrategyTimeBased] strategy then Ok tt
  else Err (BadParameter "unsupported agents strategy: %q" [strategy]).

(** One group of a schedule; [seen] are the names before it, by index. *)
Definition check_config_group (strategy : string) (i : Z) (seen : gmap string Z) (group : AgentAutoUpdateGroup)
  : result unit :=
  fail_if bool_decide (ag_Name group = "")
    with BadParameter "spec.agents.schedules.regular[%d].name should not be empty" [pretty i];
  check (ParseWeekdays (ag_Days group));
  fail_if ag_WaitHours group <? 0
    with BadParameter "spec.agents.schedules.regular[%d].wait_hours cannot be negative" [pretty i];
  fail_if (23 <? ag_StartHour group) || (ag_StartHour group <? 0)
    with BadParameter "spec.agents.schedules.regular[%d].start_hour must be between 0 and 23" [pretty i];
  fail_if (ag_CanaryCount group <? 0) || (MaxCanaryCount <? ag_CanaryCount group)
    with BadParameter "spec.agents.schedule.regular[%d].canary_count must be between 0 and %d" [pretty i; "5"];
  fail_if bool_decide (strategy = AgentsStrategyTimeBased) && negb (ag_CanaryCount group =? 0)
    with BadParameter "spec.agents.schedules.regular[%d].canary_count is not zero but the strategy %q doesn't support canaries"
           [pretty i; AgentsStrategyTimeBased];
  fail_if bool_decide (strategy = AgentsStrategyTimeBased) && negb (ag_WaitHours group =? 0)
    with BadParameter "spec.agents.schedules.regular[%d].wait_hours must be zero when strategy is %s"
           [pretty i; AgentsStrategyTimeBased];
  fail_if bool_decide (strategy = AgentsStrategyHaltOnError) && (i =? 0) && negb (ag_WaitHours group =? 0)
    with BadParameter "spec.agents.schedules.regular[0].wait_hours must be zero as it's the first group" [];
  match seen !! ag_Name group with
  | Some j => Err (BadParameter "spec.agents.schedules.regular contains groups with the same name %q at indices %d and %d"
                     [ag_Name group; pretty j; pretty i])
  | None => Ok tt
  end.

Fixpoint check_config_groups (strategy : string) (i : Z) (seen : gmap string Z) (groups : list AgentAutoUpdateGroup)
  : result unit :=
  match groups with
  | [] => Ok tt
  | group :: groups' =>
      check (check_config_group strategy i seen group);
      check_config_groups strategy (i + 1) (<[ag_Name group := i]> seen) groups'
  end.

(** [checkAgentSchedules] *)
Definition checkAgentSchedules (agents : AutoUpdateConfigSpecAgents) : result unit :=
  check_config_groups (ca_Strategy agents) 0 ∅ (default [] (ca_Schedules agents)).

Definition check_config_agents (agents : AutoUpdateConfigSpecAgents) : result unit :=
  check (checkAgentsMode (ca_Mode agents));
  check (checkAgentsStrategy (ca_Strategy agents));
  let windowDuration := default 0 (ca_MaintenanceWindowDuration agents) in
  fail_if bool_decide (ca_Strategy agents = AgentsStrategyHaltOnError) && negb (windowDuration =? 0)
    with BadParameter "spec.agents.maintenance_window_duration must be zero when the strategy is %q" [ca_Strategy agents];
  fail_if bool_decide (ca_Strategy agents = AgentsStrategyTimeBased) && (windowDuration <? 10 * Minute)
    with BadParameter "spec.agents.maintenance_window_duration must be greater than 10 minutes when the strategy is %q"
           [ca_Strategy agents];
  checkAgentSchedules agents.

Definition ValidateAutoUpdateConfig (c : option AutoUpdateConfig) : result unit :=
  match c with
  | None => Err (BadParameter "AutoUpdateConfig is nil" [])
  | Some c =>
      match cfg_Metadata c with
      | None => Err (BadParameter "Metadata is nil" [])
      | Some name =>
          fail_if negb (bool_decide (name = MetaNameAutoUpdateConfig)) with BadParameter "Name is not valid" [];
          match cfg_Spec c with
          | None => Err (BadParameter "Spec is nil" [])
          | Some spec =>
              check (match cs_Tools spec with Some mode => checkToolsMode mode | None => Ok tt end);
              match cs_Agents spec with Some agents => check_config_agents agents | None => Ok tt end
          end
      end
  end.

Definition NewAutoUpdateConfig (spec : option AutoUpdateConfigSpec) : result AutoUpdateConfig :=
  let config := {| cfg_Metadata := Some MetaNameAutoUpdateConfig; cfg_Spec := spec |} in
  check (ValidateAutoUpdateConfig (Some config)); Ok config.

Definition ValidateAutoUpdateVersion (v : option AutoUpdateVersion) : result unit :=
  match v with
  | None => Err (BadParameter "AutoUpdateVersion is nil" [])
  | Some v =>
      match ver_Metadata v with
      | None => Err (BadParameter "Metadata is nil" [])
      | Some name =>
          fail_if negb (bool_decide (name = MetaNameAutoUpdateVersion)) with BadParameter "Name is not valid" [];
          match ver_Spec v with
          | None => Err (BadParameter "Spec is nil" [])
          | Some spec =>
              check (match vs_Tools spec with Some version => checkVersion version | None => Ok tt end);
              match vs_Agents spec with
              | None => Ok tt
              | Some agents =>
                  check (checkVersion (va_StartVersion agents));
                  check (checkVersion (va_TargetVersion agents));
                  check (checkAgentsMode (va_Mode agents));
                  checkScheduleName (va_Schedule agents)
              end
          end
      end
  end.

Definition NewAutoUpdateVersion (spec : option AutoUpdateVersionSpec) : result AutoUpdateVersion :=
  let version := {| ver_Metadata := Some MetaNameAutoUpdateVersion; ver_Spec := spec |} in
  check (ValidateAutoUpdateVersion (Some version)); Ok version.

Definition check_rollout_group (strategy : string) (i : Z) (seen : gmap string Z) (group : RolloutGroup)
  : result unit :=
  fail_if bool_decide (g_Name group = "") with BadParameter "status.groups[%d].name is empty" [pretty i];
  check (rmap_err (fun _ => BadParameter "status.groups[%d].config_days is invalid" [pretty i])
           (ParseWeekdays (g_ConfigDays group)));
  fail_if (23 <? g_ConfigStartHour group) || (g_ConfigStartHour group <? 0)
    with BadParameter "spec.agents.schedules.regular[%d].start_hour must be less than or equal to 23" [pretty i];
  fail_if g_ConfigWaitHours group <? 0
    with BadParameter "status.schedules.groups[%d].config_wait_hours cannot be negative" [pretty i];
  fail_if bool_decide (strategy = AgentsStrategyTimeBased) && negb (g_ConfigWaitHours group =? 0)
    with BadParameter "status.schedules.groups[%d].config_wait_hours must be zero when strategy is %s"
           [pretty i; AgentsStrategyTimeBased];
  fail_if bool_decide (strategy = AgentsStrategyHaltOnError) && (i =? 0) && negb (g_ConfigWaitHours group =? 0)
    with BadParameter "status.schedules.groups[0].config_wait_hours must be zero as it's the first group" [];
  fail_if MaxCanaryCount <? g_CanaryCount group
    with BadParameter "status.schedules.groups[%d].canary_count must be less than %d" [pretty i; "5"];
  fail_if MaxCanaryCount <? Z.of_nat (length (g_Canaries group))
    with BadParameter "status.schedules.groups[%d].canaries must be contain less than %d elements" [pretty i; "5"];
  match seen !! g_Name group with
  | Some j => Err (BadParameter "spec.agents.schedules.regular contains groups with the same name %q at indices %d and %d"
                     [g_Name group; pretty j; pretty i])
  | None => Ok tt
  end.

Fixpoint check_rollout_groups (strategy : string) (i : Z) (seen : gmap string Z) (groups : list RolloutGroup)
  : result unit :=
  match groups with
  | [] => Ok tt
  | group :: groups' =>
      check (check_rollout_group strategy i seen group);
      check_rollout_groups strategy (i + 1) (<[g_Name group := i]> seen) groups'
  end.

Definition GetGroups (v : AutoUpdateAgentRollout) : list RolloutGroup :=
  match ro_Status v with Some status => st_Groups status | None => [] end.

Definition ValidateAutoUpdateAgentRollout (v : option AutoUpdateAgentRollout) : result unit :=
  match v with
  | None => Err (BadParameter "AutoUpdateAgentRollout is nil" [])
  | Some v =>
      match ro_Metadata v with
      | None => Err (BadParameter "Metadata is nil" [])
      | Some name =>
          fail_if negb (bool_decide (name = MetaNameAutoUpdateAgentRollout)) with BadParameter "Name is not valid" [];
          match ro_Spec v with
          | None => Err (BadParameter "Spec is nil" [])
          | Some spec =>
              check (checkVersion (sp_StartVersion spec));
              check (checkVersion (sp_TargetVersion spec));
              check (checkAgentsMode (sp_AutoupdateMode spec));
              check (checkScheduleName (sp_Schedule spec));
              check (checkAgentsStrategy (sp_Strategy spec));
              check_rollout_groups (sp_Strategy spec) 0 ∅ (GetGroups v)
          end
      end
  end.

Definition NewAutoUpdateAgentRollout (spec : option RolloutSpec) : result AutoUpdateAgentRollout :=
  let rollout := {| ro_Metadata := Some MetaNameAutoUpdateAgentRollout; ro_Revision := ""; ro_Spec := spec;
                    ro_Status := None |} in
  check (ValidateAutoUpdateAgentRollout (Some rollout)); Ok rollout.

Definition maxGroups : nat := 50.
Definition maxVersions : nat := 20.
Definition autoUpdateReportTTL : duration := Hour.

(** The zero timestamp counts as missing.  Which group with too many versions
    is named depends on the order of the map. *)
Definition ValidateAutoUpdateAgentReport (v : AutoUpdateAgentReport) : result unit :=
  fail_if bool_decide (rep_Name v = "") with BadParameter "Metadata.Name is empty" [];
  fail_if bool_decide (rep_Spec v = None) with BadParameter "Spec is nil" [];
  fail_if AsTime (rep_Timestamp v) =? 0 with BadParameter "Spec.Timestamp is empty or zero" [];
  fail_if negb (bool_decide (size (rep_Groups v) <= maxGroups)%nat)
    with BadParameter "Spec.Groups is too large (%d while the max is %d)" [];
  fail_if negb (bool_decide (map_Forall (fun _ versions => (size versions <= maxVersions)%nat) (rep_Groups v)))
    with BadParameter "group %q has too many versions (%d while the max is %d)" [];
  Ok tt.

(** The report and the time it expires. *)
Definition NewAutoUpdateAgentReport (spec : option AutoUpdateAgentReportSpec) (authName : string)
  : result (AutoUpdateAgentReport * time) :=
  let report := {| rep_Name := authName; rep_Spec := spec |} in
  check (ValidateAutoUpdateAgentReport report);
  Ok (report, AsTime (rep_Timestamp report) + autoUpdateReportTTL).
End Validation.
