(* ===== verification/Rollout.v ===== *)
(** * Update rollouts: [lib/autoupdate/rollout]

    A rollout updates groups of agents one after the other (halt on error) or
    each in its own window (time based).  A pass looks at every group once and
    moves it along: unstarted, canary, active, done.  The counts of agents
    come from the reports of the auth servers, canaries from the inventory.

    An instant of the clock has the offset of the server's zone: the day of
    the week is local, the hours are not. *)

From Stdlib Require Import SpecFloat.
From S2P Require Import Prelude GoStrings Utf8 Types Autoupdate.

(** ** The clock *)

Record gotime := {
  t_Unix : time;          (* nanoseconds *)
  t_Offset : duration;    (* of the zone, east of UTC *)
}.

Definition UTC (t : time) : gotime := {| t_Unix := t; t_Offset := 0 |}.

(** 1970-01-01 was a Thursday. *)
Definition time_Weekday (t : gotime) : Weekday := ((t_Unix t + t_Offset t) / Day + 4) mod 7.

(** [t.Truncate(24 * time.Hour)], which counts from midnight UTC *)
Definition truncate_day (t : time) : time := t - t mod Day.

(** [time.Duration(n) * time.Hour] *)
Definition hours (n : Z) : duration := int64 (n * Hour).

(** ** Floats: [float64(a)/float64(b) >= doneThreshold] *)

Definition float64 (z : Z) : spec_float := binary_normalize 53 1024 z 0 false.
(** The constant 1 - 0.10 is exact until it is rounded. *)
Definition doneThreshold : spec_float := SFdiv 53 1024 (float64 9) (float64 10).
Definition ratio_done (a b : Z) : bool := SFleb doneThreshold (SFdiv 53 1024 (float64 a) (float64 b)).

(** ** Reasons *)

Definition updateReasonCreated := "created".
Definition updateReasonReconcilerError := "reconciler_error".
Definition updateReasonRolloutChanged := "rollout_changed_during_window".
Definition updateReasonCanStart := "can_start".
Definition updateReasonCannotStart := "cannot_start".
Definition updateReasonPreviousGroupsNotDone := "previous_groups_not_done".
Definition updateReasonUpdateComplete := "update_complete".
Definition updateReasonUpdateInProgress := "update_in_progress".
Definition updateReasonCanariesAlive := "canaries_are_alive".
Definition updateReasonWaitingForCanaries := "waiting_for_canaries".
Definition updateReasonInWindow := "in_window".
Definition updateReasonOutsideWindow := "outside_window".
Definition haltOnErrorWindowDuration : duration := Hour.

(** ** Windows: [strategy.go] *)

Section Windows.
Context `{UnicodeTables}.

Fixpoint canUpdateToday (allowedDays : list string) (now : gotime) : result bool :=
  match allowedDays with
  | [] => Ok false
  | allowedDay :: allowedDays' =>
      if bool_decide (allowedDay = "*") then Ok true
      else match ParseWeekday allowedDay with
      | None => Err (BadParameter "failed to parse weekday %q" [allowedDay])
      | Some weekday => if weekday =? time_Weekday now then Ok true else canUpdateToday allowedDays' now
      end
  end.

Definition inWindow (group : RolloutGroup) (now : gotime) (d : duration) : result bool :=
  let? dayOK := canUpdateToday (g_ConfigDays group) now in
  if negb dayOK then Ok false
  else
    let windowStart := truncate_day (t_Unix now) + hours (g_ConfigStartHour group) in
    let windowEnd := windowStart + d in
    Ok ((windowStart <=? t_Unix now) && (t_Unix now <? windowEnd)).

(** The start of the rollout is a UTC time.  [now.Sub] saturates, far beyond
    a day. *)
Definition rolloutChangedInWindow (group : RolloutGroup) (now : gotime) (rolloutStart : time) (d : duration)
  : result bool :=
  if Day <? t_Unix now - rolloutStart then Ok false else inWindow group (UTC rolloutStart) d.
End Windows.

(** ** Changes of a group *)

Definition set_progress (state : AutoUpdateAgentGroupState) (start : option time) (reason : string)
    (updated : option time) (g : RolloutGroup) : RolloutGroup := {|
  g_Name := g_Name g; g_StartTime := start; g_State := state; g_LastUpdateTime := updated;
  g_LastUpdateReason := reason; g_ConfigDays := g_ConfigDays g; g_ConfigStartHour := g_ConfigStartHour g;
  g_ConfigWaitHours := g_ConfigWaitHours g; g_InitialCount := g_InitialCount g;
  g_PresentCount := g_PresentCount g; g_UpToDateCount := g_UpToDateCount g;
  g_CanaryCount := g_CanaryCount g; g_Canaries := g_Canaries g |}.

Definition set_counts (initial present upToDate : Z) (g : RolloutGroup) : RolloutGroup := {|
  g_Name := g_Name g; g_StartTime := g_StartTime g; g_State := g_State g;
  g_LastUpdateTime := g_LastUpdateTime g; g_LastUpdateReason := g_LastUpdateReason g;
  g_ConfigDays := g_ConfigDays g; g_ConfigStartHour := g_ConfigStartHour g;
  g_ConfigWaitHours := g_ConfigWaitHours g; g_InitialCount := initial; g_PresentCount := present;
  g_UpToDateCount := upToDate; g_CanaryCount := g_CanaryCount g; g_Canaries := g_Canaries g |}.

Definition set_canaries (canaries : list Canary) (g : RolloutGroup) : RolloutGroup := {|
  g_Name := g_Name g; g_StartTime := g_StartTime g; g_State := g_State g;
  g_LastUpdateTime := g_LastUpdateTime g; g_LastUpdateReason := g_LastUpdateReason g;
  g_ConfigDays := g_ConfigDays g; g_ConfigStartHour := g_ConfigStartHour g;
  g_ConfigWaitHours := g_ConfigWaitHours g; g_InitialCount := g_InitialCount g;
  g_PresentCount := g_PresentCount g; g_UpToDateCount := g_UpToDateCount g;
  g_CanaryCount := g_CanaryCount g; g_Canaries := canaries |}.

(** The start time is set when the group starts: as active, but not from
    canary, or as canary. *)
Definition setGroupState (newState : AutoUpdateAgentGroupState) (reason : string) (now : gotime) (g : RolloutGroup)
  : RolloutGroup :=
  let previousState := g_State g in
  let moved := negb (previousState =? newState) in
  let start :=
    if moved && (((newState =? GROUP_ACTIVE) && negb (previousState =? GROUP_CANARY)) || (newState =? GROUP_CANARY))
    then Some (t_Unix now) else g_StartTime g in
  let changed := moved || negb (bool_decide (g_LastUpdateReason g = reason)) in
  set_progress newState start reason (if changed then Some (t_Unix now) else g_LastUpdateTime g) g.

(** [setGroupState(group, group.GetState(), ...)]: only the reason *)
Definition set_reason (reason : string) (now : gotime) (g : RolloutGroup) : RolloutGroup :=
  setGroupState (g_State g) reason now g.

Definition count_state (state : AutoUpdateAgentGroupState) (groups : list RolloutGroup) : nat :=
  length (filter (fun g => g_State g = state) groups).

Definition computeRolloutState (groups : list RolloutGroup) : AutoUpdateAgentRolloutState :=
  if bool_decide (groups = []) then ROLLOUT_UNSPECIFIED
  else if existsb (fun g => g_State g =? GROUP_ROLLEDBACK) groups then ROLLOUT_ROLLEDBACK
  else if decide (count_state GROUP_DONE groups = length groups) then ROLLOUT_DONE
  else if decide (count_state GROUP_UNSTARTED groups = length groups) then ROLLOUT_UNSTARTED
  else ROLLOUT_ACTIVE.

(** ** Reports *)

(** The client: a page of reports for a token, a sample of a group, and the
    versions a host says it runs. *)
Class RolloutClient := {
  ListReports : string -> result (list AutoUpdateAgentReport * string);
  SampleAgents : string -> Z -> list string -> result (list Canary);
  LookupAgent : string -> result (list string);
}.

Definition out_of_pages : error := Error KOther "out of fuel" [] [].

Section Reports.
Context `{RolloutClient}.

Fixpoint get_pages (fuel : nat) (reports : list AutoUpdateAgentReport) (pageToken : string)
  : result (list AutoUpdateAgentReport) :=
  match fuel with
  | O => Err out_of_pages
  | S fuel' =>
      let? (page, nextToken) := ListReports pageToken in
      if bool_decide (nextToken = "") then Ok (reports ++ page)%list
      else get_pages fuel' (reports ++ page)%list nextToken
  end.

Definition getAllReports (fuel : nat) : result (list AutoUpdateAgentReport) := get_pages fuel [] "".

Definition AutoUpdateAgentReportPeriod : duration := Minute.

Definition valid_report (now : gotime) (report : AutoUpdateAgentReport) : bool :=
  t_Unix now - AsTime (rep_Timestamp report) <=? AutoUpdateAgentReportPeriod.

(** Reports that are not found are no reports. *)
Definition getAllValidReports (fuel : nat) (now : gotime) : result (list AutoUpdateAgentReport) :=
  match getAllReports fuel with
  | Err e => if IsNotFound e then Ok [] else Err e
  | Ok allReports => Ok (filter (fun r => valid_report now r = true) allReports)
  end.

(** [if err != nil && !trace.IsNotFound(err)] of the strategies *)
Definition reports_or_none (fuel : nat) (now : gotime) : result (list AutoUpdateAgentReport) :=
  match getAllValidReports fuel now with
  | Err e => if IsNotFound e then Ok [] else Err e
  | Ok reports => Ok reports
  end.
End Reports.

(** One version of one group of a report. *)
Record count_entry := {
  ce_Group : string;
  ce_Version : string;
  ce_Count : Z;
}.

Definition report_entries (report : AutoUpdateAgentReport) : list count_entry :=
  map_to_list (rep_Groups report) ≫= fun gv =>
    (fun vc => {| ce_Group := gv.1; ce_Version := vc.1; ce_Count := vc.2 |}) <$> map_to_list gv.2.

Definition add_count (m : gmap string Z) (e : count_entry) : gmap string Z :=
  <[ce_Group e := int64 (default 0 (m !! ce_Group e) + ce_Count e)]> m.

(** The counts by group of all agents, and of those with the version. *)
Definition countUpToDate (reports : list AutoUpdateAgentReport) (targetVersion : string)
  : gmap string Z * gmap string Z :=
  let entries := reports ≫= report_entries in
  (foldl add_count ∅ entries, foldl add_count ∅ (filter (fun e => ce_Version e = targetVersion) entries)).

(** Everything that is not of another group counts for the last one. *)
Definition sum_others (names : list string) (m : gmap string Z) : Z :=
  foldl (fun acc kv => if slices_Contains names kv.1 then acc else int64 (acc + kv.2)) 0 (map_to_list m).

Definition countCatchAll (groups : list RolloutGroup) (counts : gmap string Z * gmap string Z) : Z * Z :=
  match groups with
  | [] => (0, 0)
  | _ =>
      let rolloutGroups := g_Name <$> take (pred (length groups)) groups in
      (sum_others rolloutGroups counts.1, sum_others rolloutGroups counts.2)
  end.

(** The counts of the group at an index of the status. *)
Definition group_counts (groups : list RolloutGroup) (counts : gmap string Z * gmap string Z)
    (i : nat) (group : RolloutGroup) : Z * Z :=
  if decide (S i = length groups) then countCatchAll groups counts
  else (default 0 (counts.1 !! g_Name group), default 0 (counts.2 !! g_Name group)).

(** What both strategies do to a group first. *)
Definition refresh (groups : list RolloutGroup) (counts : gmap string Z * gmap string Z) (i : nat)
    (group : RolloutGroup) : RolloutGroup :=
  let '(agentCount, agentUpToDateCount) := group_counts groups counts i group in
  set_counts (g_InitialCount group) (uint64 agentCount) (uint64 agentUpToDateCount) group.

(** ** Canaries: [strategy_haltonerror.go] *)

(** [int(uint64)] *)
Definition canary_count (g : RolloutGroup) : Z := int64 (g_CanaryCount g).
Definition canaries_len (g : RolloutGroup) : Z := Z.of_nat (length (g_Canaries g)).

Definition shouldUseCanaries (g : RolloutGroup) : bool := 0 <? g_CanaryCount g.

Definition already_sampled (canaries : list Canary) (canary : Canary) : bool :=
  existsb (fun c => bool_decide (cn_UpdaterId c = cn_UpdaterId canary)) canaries.

(** The list of the group grows up to the count it wants. *)
Fixpoint inject_canaries (want : Z) (canaries additional : list Canary) : list Canary :=
  match additional with
  | [] => canaries
  | canary :: additional' =>
      let canaries := if already_sampled canaries canary then canaries else (canaries ++ [canary])%list in
      if Z.of_nat (length canaries) =? want then canaries else inject_canaries want canaries additional'
  end.

Definition injectCanaries (additional : list Canary) (g : RolloutGroup) : RolloutGroup :=
  set_canaries (inject_canaries (canary_count g) (g_Canaries g) additional) g.

Section Strategies.
Context `{UnicodeTables} `{SemVer} `{RolloutClient}.

(** [version.EnsureSemver] *)
Definition EnsureSemver (current : string) : result semver :=
  let current := TrimPrefix (TrimSpace current) "v" in
  match semver_NewVersion current with
  | Ok v => Ok v
  | Err _ => Err (BadParameter "version %s is not following semver" [current])
  end.

Definition sampleCanaries (names : list string) (g : RolloutGroup) : RolloutGroup * result unit :=
  if canaries_len g <? canary_count g then
    match SampleAgents (g_Name g) (canary_count g) names with
    | Err e => (g, Err e)
    | Ok additionalCanaries => (injectCanaries additionalCanaries g, Ok tt)
    end
  else (g, Ok tt).

(** A failure to sample here is only logged. *)
Definition startGroup (names : list string) (now : gotime) (agentCount : Z) (g : RolloutGroup) : RolloutGroup :=
  let g := set_counts (uint64 agentCount) (g_PresentCount g) (g_UpToDateCount g) g in
  if negb (shouldUseCanaries g) then setGroupState GROUP_ACTIVE updateReasonCanStart now g
  else (sampleCanaries names (setGroupState GROUP_CANARY updateReasonCanStart now g)).1.

Definition canaryIsRunningTargetVersion (hellos : list string) (targetVersion : semver) : bool :=
  existsb (fun hello =>
    match EnsureSemver hello with Ok v => semver_Equal targetVersion v | Err _ => false end) hellos.

Definition update_canary (targetVersion : semver) (canary : Canary) : Canary :=
  if cn_Success canary then canary
  else match LookupAgent (cn_HostId canary) with
  | Err _ => canary
  | Ok hellos =>
      if canaryIsRunningTargetVersion hellos targetVersion then
        {| cn_UpdaterId := cn_UpdaterId canary; cn_HostId := cn_HostId canary;
           cn_Hostname := cn_Hostname canary; cn_Success := true |}
      else canary
  end.

(** The successful canaries are counted after the update. *)
Definition updateCanariesStatus (targetVersion : semver) (g : RolloutGroup) : RolloutGroup * Z :=
  let canaries := update_canary targetVersion <$> g_Canaries g in
  (set_canaries canaries g, Z.of_nat (length (filter (fun c => cn_Success c = true) canaries))).

(** ** Halt on error *)

(** The zero [time.Time], in the year 1. *)
Definition zero_time : time := -62135596800 * Second.

Definition canStartHaltOnError (group : RolloutGroup) (previousGroup : option RolloutGroup) (now : gotime)
  : result bool :=
  if negb (g_ConfigWaitHours group =? 0) then
    match previousGroup with
    | None => Err (BadParameter "the first group cannot have non-zero wait hours" [])
    | Some previousGroup =>
        let previousStart := AsTime (g_StartTime previousGroup) in
        fail_if (previousStart =? zero_time) || (previousStart / Second =? 0)
          with BadParameter "the previous group doesn't have a start time, cannot check the 'wait_hours' criterion" [];
        if t_Unix now <? previousStart + hours (g_ConfigWaitHours group) then Ok false
        else inWindow group now haltOnErrorWindowDuration
    end
  else inWindow group now haltOnErrorWindowDuration.

Definition isDoneHaltOnError (group : RolloutGroup) (now : gotime) : bool * string :=
  if g_InitialCount group =? 0 then
    if AsTime (g_StartTime group) + haltOnErrorWindowDuration <? t_Unix now
    then (true, updateReasonUpdateComplete) else (false, updateReasonUpdateInProgress)
  else if ratio_done (g_PresentCount group) (g_InitialCount group) &&
          ratio_done (g_UpToDateCount group) (g_PresentCount group)
  then (true, updateReasonUpdateComplete)
  else (false, updateReasonUpdateInProgress).

Section Pass.
Variable targetVersion : string.
Variable startTime : time.        (* of the rollout *)
Variable names : list string.     (* of all groups *)
Variable now : gotime.

(** The case of an unstarted group.  An error ends the pass. *)
Definition progress_unstarted (agentCount : Z) (prev : option RolloutGroup) (prevDone : bool) (g : RolloutGroup)
  : RolloutGroup * result unit :=
  match canStartHaltOnError g prev now with
  | Err e => (set_reason updateReasonReconcilerError now g, Err e)
  | Ok canStart =>
      match rolloutChangedInWindow g now startTime haltOnErrorWindowDuration with
      | Err e => (set_reason updateReasonReconcilerError now g, Err e)
      | Ok changed =>
          (if negb prevDone then set_reason updateReasonPreviousGroupsNotDone now g
           else if negb canStart then set_reason updateReasonCannotStart now g
           else if changed then set_reason updateReasonRolloutChanged now g
           else startGroup names now agentCount g, Ok tt)
      end
  end.

Definition progress_canary (g : RolloutGroup) : RolloutGroup * result unit :=
  match sampleCanaries names g with
  | (g, Err e) => (g, Err e)
  | (g, Ok _) =>
      match EnsureSemver targetVersion with
      | Err e => (g, Err e)
      | Ok target =>
          let '(g, successful) := updateCanariesStatus target g in
          (if successful =? canary_count g then setGroupState GROUP_ACTIVE updateReasonCanariesAlive now g
           else set_reason updateReasonWaitingForCanaries now g, Ok tt)
      end
  end.

(** One group: the group after, whether the groups up to it are all done, and
    the error that ends the pass. *)
Definition progress_group (agentCount : Z) (prev : option RolloutGroup) (prevDone : bool) (g : RolloutGroup)
  : RolloutGroup * bool * result unit :=
  if g_State g =? GROUP_UNSTARTED then
    let '(g', r) := progress_unstarted agentCount prev prevDone g in (g', false, r)
  else if g_State g =? GROUP_CANARY then
    let '(g', r) := progress_canary g in (g', false, r)
  else if g_State g =? GROUP_ROLLEDBACK then (g, false, Ok tt)
  else if g_State g =? GROUP_DONE then (g, prevDone, Ok tt)
  else if g_State g =? GROUP_ACTIVE then
    let '(done, reason) := isDoneHaltOnError g now in
    if done then (setGroupState GROUP_DONE reason now g, prevDone, Ok tt)
    else (setGroupState GROUP_ACTIVE reason now g, false, Ok tt)
  else (g, prevDone, Err (BadParameter "unknown autoupdate group state: %v" [])).

(** The loop over the groups; the groups behind an error stay as they are. *)
Fixpoint progress_groups (all : list RolloutGroup) (counts : gmap string Z * gmap string Z) (i : nat)
    (prev : option RolloutGroup) (prevDone : bool) (groups : list RolloutGroup)
  : list RolloutGroup * result unit :=
  match groups with
  | [] => ([], Ok tt)
  | g :: groups' =>
      let g := refresh all counts i g in
      match progress_group (group_counts all counts i g).1 prev prevDone g with
      | (g', _, Err e) => (g' :: groups', Err e)
      | (g', prevDone', Ok _) =>
          let '(rest, r) := progress_groups all counts (S i) (Some g') prevDone' groups' in
          (g' :: rest, r)
      end
  end.
End Pass.

(** [progressRollout] of the strategy, with the reports it counts. *)
Definition progress_haltOnError (fuel : nat) (spec : RolloutSpec) (startTime : option time)
    (groups : list RolloutGroup) (now : gotime) : list RolloutGroup * result unit :=
  match reports_or_none fuel now with
  | Err e => (groups, Err e)
  | Ok reports =>
      progress_groups (sp_TargetVersion spec) (AsTime startTime) (g_Name <$> groups) now groups
        (countUpToDate reports (sp_TargetVersion spec)) 0 None true groups
  end.

(** ** Time based: [strategy_timebased.go] *)

(** One group: the group after, the error that is collected, and the error
    that ends the pass. *)
Definition progress_window (startTime : time) (d : duration) (now : gotime) (g : RolloutGroup)
  : RolloutGroup * option error * result unit :=
  if (g_State g =? GROUP_UNSTARTED) || (g_State g =? GROUP_DONE) then
    match inWindow g now d with
    | Err e => (set_reason updateReasonReconcilerError now g, Some e, Ok tt)
    | Ok shouldBeActive =>
        match rolloutChangedInWindow g now startTime d with
        | Err e => (set_reason updateReasonReconcilerError now g, Some e, Ok tt)
        | Ok changed =>
            (if negb shouldBeActive then set_reason updateReasonOutsideWindow now g
             else if changed then set_reason updateReasonRolloutChanged now g
             else setGroupState GROUP_ACTIVE updateReasonInWindow now g, None, Ok tt)
        end
    end
  else if g_State g =? GROUP_ROLLEDBACK then (g, None, Ok tt)
  else if g_State g =? GROUP_ACTIVE then
    match inWindow g now d with
    | Err e => (set_reason updateReasonReconcilerError now g, Some e, Ok tt)
    | Ok shouldBeActive =>
        (if shouldBeActive then setGroupState GROUP_ACTIVE updateReasonInWindow now g
         else setGroupState GROUP_DONE updateReasonOutsideWindow now g, None, Ok tt)
    end
  else (g, None, Err (BadParameter "unknown autoupdate group state: %v" [])).

(** [trace.NewAggregate] *)
Definition aggregate (errs : list error) : result unit :=
  match errs with [] => Ok tt | _ => Err (Error KOther "%v" (e_fmt <$> errs) []) end.

Fixpoint progress_windows (startTime : time) (d : duration) (now : gotime) (all : list RolloutGroup)
    (counts : gmap string Z * gmap string Z) (i : nat) (errs : list error) (groups : list RolloutGroup)
  : list RolloutGroup * result unit :=
  match groups with
  | [] => ([], aggregate errs)
  | g :: groups' =>
      match progress_window startTime d now (refresh all counts i g) with
      | (g', _, Err e) => (g' :: groups', Err e)
      | (g', err, Ok _) =>
          let errs := match err with Some e => (errs ++ [e])%list | None => errs end in
          let '(rest, r) := progress_windows startTime d now all counts (S i) errs groups' in
          (g' :: rest, r)
      end
  end.

Definition window_duration (spec : RolloutSpec) : duration :=
  let d := default 0 (sp_MaintenanceWindowDuration spec) in
  if d =? 0 then haltOnErrorWindowDuration else d.

Definition progress_timeBased (fuel : nat) (spec : RolloutSpec) (startTime : option time)
    (groups : list RolloutGroup) (now : gotime) : list RolloutGroup * result unit :=
  match reports_or_none fuel now with
  | Err e => (groups, Err e)
  | Ok reports =>
      progress_windows (AsTime startTime) (window_duration spec) now groups
        (countUpToDate reports (sp_TargetVersion spec)) 0 [] groups
  end.

(** [reconciler.progressRollout]: the controller has both strategies. *)
Definition progressRollout (fuel : nat) (spec : RolloutSpec) (startTime : option time)
    (groups : list RolloutGroup) (now : gotime) : list RolloutGroup * result unit :=
  if bool_decide (sp_Strategy spec = AgentsStrategyTimeBased) then progress_timeBased fuel spec startTime groups now
  else if bool_decide (sp_Strategy spec = AgentsStrategyHaltOnError) then
    progress_haltOnError fuel spec startTime groups now
  else (groups, Err (Error KNotImplemented "rollout strategy %q not implemented" [sp_Strategy spec] [])).
End Strategies.

Example ratio_nine_tenths : ratio_done 9 10 = true /\ ratio_done 89 100 = false /\ ratio_done 0 0 = false.
Proof. vm_compute. done. Qed.
