(* ===== verification/RolloutFacts.v ===== *)
(** * Facts about a pass over the groups

    What a pass may do to a group ([moves]), when a group starts, and what the
    canaries of a group are. *)

From S2P Require Import Prelude GoStrings Utf8 Types Autoupdate Rollout.

(** ** What never changes in a group *)

Definition same_config (g g' : RolloutGroup) : Prop :=
  g_Name g' = g_Name g /\ g_ConfigDays g' = g_ConfigDays g /\ g_ConfigStartHour g' = g_ConfigStartHour g /\
  g_ConfigWaitHours g' = g_ConfigWaitHours g /\ g_CanaryCount g' = g_CanaryCount g.

#[export] Instance same_config_preorder : PreOrder same_config.
Proof. split; [by repeat split|]. intros a b c (?&?&?&?&?) (?&?&?&?&?). repeat split; congruence. Qed.

Lemma setGroupState_state s reason now g : g_State (setGroupState s reason now g) = s.
Proof. done. Qed.

Lemma setGroupState_config s reason now g : same_config g (setGroupState s reason now g).
Proof. done. Qed.

Lemma set_counts_config a b c g : same_config g (set_counts a b c g).
Proof. done. Qed.

Lemma refresh_config all counts i g : same_config g (refresh all counts i g).
Proof. unfold refresh. by destruct (group_counts all counts i g). Qed.

Lemma refresh_state all counts i g :
  g_State (refresh all counts i g) = g_State g /\ g_StartTime (refresh all counts i g) = g_StartTime g /\
  g_Canaries (refresh all counts i g) = g_Canaries g.
Proof. unfold refresh. by destruct (group_counts all counts i g). Qed.

#[export] Hint Resolve setGroupState_config set_counts_config refresh_config : go.

(** ** Canaries *)

Definition canaries_ok (g : RolloutGroup) : Prop :=
  canaries_len g <= Z.max 0 (canary_count g) /\ NoDup (cn_UpdaterId <$> g_Canaries g).

Lemma inject_canaries_ok want canaries additional :
  Z.of_nat (length canaries) < want -> NoDup (cn_UpdaterId <$> canaries) ->
  Z.of_nat (length (inject_canaries want canaries additional)) <= want /\
  NoDup (cn_UpdaterId <$> inject_canaries want canaries additional).
Proof.
  revert canaries. induction additional as [|c additional IH]; intros canaries Hl Hn; simpl; [split; [lia|done]|].
  set (canaries' := if already_sampled canaries c then canaries else (canaries ++ [c])%list).
  assert (Hl' : Z.of_nat (length canaries') <= want).
  { unfold canaries'. destruct (already_sampled canaries c); rewrite ?length_app; simpl; lia. }
  assert (Hn' : NoDup (cn_UpdaterId <$> canaries')).
  { unfold canaries'. destruct (already_sampled canaries c) eqn:E; [done|].
    rewrite fmap_app. apply NoDup_app. split; [done|]. split; [|apply NoDup_singleton].
    intros x (y & -> & Hy)%list_elem_of_fmap Hx. apply list_elem_of_singleton in Hx.
    unfold already_sampled in E. rewrite existsb_elem_false in E. specialize (E y Hy). by bool_to_prop. }
  destruct (Z.eqb_spec (Z.of_nat (length canaries')) want); [done|]. apply IH; [lia|done].
Qed.

(** The canaries of the group stay, new ones come from the sample. *)
Lemma inject_canaries_from want canaries additional :
  canaries `prefix_of` inject_canaries want canaries additional /\
  forall c, c ∈ inject_canaries want canaries additional -> c ∈ canaries \/ c ∈ additional.
Proof.
  revert canaries. induction additional as [|c additional IH]; intros canaries; simpl; [split; [done|auto]|].
  set (canaries' := if already_sampled canaries c then canaries else (canaries ++ [c])%list).
  assert (Hp : canaries `prefix_of` canaries').
  { unfold canaries'. destruct (already_sampled canaries c); [done|by exists [c]]. }
  assert (Hf : forall x, x ∈ canaries' -> x ∈ canaries \/ x ∈ c :: additional).
  { unfold canaries'. destruct (already_sampled canaries c); intros x; set_solver. }
  destruct (_ =? want); [done|]. destruct (IH canaries') as [Hp' Hf']. split; [by etrans|].
  intros x [?|?]%Hf'; [auto|right; by right].
Qed.

Section Facts.
Context `{UnicodeTables} `{SemVer} `{RolloutClient}.

Lemma sampleCanaries_config names g : same_config g (sampleCanaries names g).1.
Proof. unfold sampleCanaries. destruct (_ <? _); [|done]. by destruct (SampleAgents _ _ _). Qed.

Lemma sampleCanaries_state names g :
  g_State (sampleCanaries names g).1 = g_State g /\ g_StartTime (sampleCanaries names g).1 = g_StartTime g.
Proof. unfold sampleCanaries. destruct (_ <? _); [|done]. by destruct (SampleAgents _ _ _). Qed.

Lemma sampleCanaries_ok names g : canaries_ok g -> canaries_ok (sampleCanaries names g).1.
Proof.
  unfold sampleCanaries, canaries_ok. destruct (Z.ltb_spec (canaries_len g) (canary_count g)); [|done].
  destruct (SampleAgents _ _ _) as [additional|]; [|done]. intros [_ Hn]. simpl.
  destruct (inject_canaries_ok (canary_count g) (g_Canaries g) additional) as [Hl Hn']; [done..|].
  split; [|done]. change (canaries_len (injectCanaries additional g)) with (Z.of_nat (length (inject_canaries (canary_count g) (g_Canaries g) additional))).
  change (canary_count (injectCanaries additional g)) with (canary_count g). lia.
Qed.

Lemma update_canary_id target c : cn_UpdaterId (update_canary target c) = cn_UpdaterId c.
Proof. unfold update_canary. by repeat case_match. Qed.

Lemma updateCanariesStatus_ok target g : canaries_ok g -> canaries_ok (updateCanariesStatus target g).1.
Proof.
  unfold canaries_ok, canaries_len, canary_count. simpl. rewrite length_fmap, <- list_fmap_compose.
  intros [Hl Hn]. split; [done|]. rewrite (list_fmap_ext _ cn_UpdaterId); [done|].
  intros _ c _. apply update_canary_id.
Qed.

(** A canary counts once the host says it runs the version. *)
Definition verified (target : semver) (c : Canary) : Prop :=
  exists hellos hello v, LookupAgent (cn_HostId c) = Ok hellos /\ hello ∈ hellos /\ EnsureSemver hello = Ok v /\
    semver_Equal target v = true.

Lemma update_canary_success target c :
  cn_Success (update_canary target c) = true -> cn_Success c = true \/ verified target c.
Proof.
  unfold update_canary. destruct (cn_Success c) eqn:Es; [auto|].
  destruct (LookupAgent (cn_HostId c)) as [hellos|] eqn:El; [|congruence].
  destruct (canaryIsRunningTargetVersion hellos target) eqn:Ec; [|congruence]. intros _. right.
  unfold canaryIsRunningTargetVersion in Ec. apply existsb_elem in Ec as (hello & Hh & Ec).
  destruct (EnsureSemver hello) as [v|] eqn:Ev; [|done]. unfold verified. eauto 8.
Qed.

Lemma all_successful (l : list Canary) :
  length (filter (fun c => cn_Success c = true) l) = length l -> forall c, c ∈ l -> cn_Success c = true.
Proof.
  induction l as [|x l IH]; intros Hl c Hc; [by apply not_elem_of_nil in Hc|].
  rewrite filter_cons in Hl. case_decide as Hx.
  - injection Hl as Hl. apply elem_of_cons in Hc as [->|Hc]; [done|by apply IH].
  - exfalso. pose proof (length_filter (fun c => cn_Success c = true) l) as Hf. simpl in Hl. rewrite Hl in Hf. lia.
Qed.

(** ** What a pass may do to a group *)

Inductive moves (g g' : RolloutGroup) : Prop :=
| stays : g_State g' = g_State g -> g_StartTime g' = g_StartTime g -> moves g g'
| starts now :
    g_State g = GROUP_UNSTARTED -> g_StartTime g' = Some now ->
    g_State g' = (if shouldUseCanaries g then GROUP_CANARY else GROUP_ACTIVE) -> moves g g'
| canaries_alive :
    g_State g = GROUP_CANARY -> g_State g' = GROUP_ACTIVE -> g_StartTime g' = g_StartTime g ->
    (forall c, c ∈ g_Canaries g' -> cn_Success c = true) -> Z.max 0 (canary_count g) = canaries_len g' ->
    moves g g'
| completes :
    g_State g = GROUP_ACTIVE -> g_State g' = GROUP_DONE -> g_StartTime g' = g_StartTime g -> moves g g'.

Lemma set_reason_stays reason now g g0 :
  g_State g = g_State g0 -> g_StartTime g = g_StartTime g0 -> moves g0 (set_reason reason now g).
Proof.
  intros Hs Ht. apply stays; [done|]. unfold set_reason, setGroupState. simpl. by rewrite Z.eqb_refl.
Qed.

(** A group that starts: the end of [progress_unstarted]. *)
Lemma startGroup_moves names now n g :
  g_State g = GROUP_UNSTARTED ->
  same_config g (startGroup names now n g) /\
  g_State (startGroup names now n g) = (if shouldUseCanaries g then GROUP_CANARY else GROUP_ACTIVE) /\
  g_StartTime (startGroup names now n g) = Some (t_Unix now) /\
  (canaries_ok g -> canaries_ok (startGroup names now n g)).
Proof.
  intros Hs. unfold startGroup.
  set (g1 := set_counts _ _ _ g). replace (shouldUseCanaries g1) with (shouldUseCanaries g) by done.
  destruct (shouldUseCanaries g); cbn [negb].
  - set (g2 := setGroupState GROUP_CANARY updateReasonCanStart now g1).
    destruct (sampleCanaries_state names g2) as [Es Et]. split_and!.
    + transitivity g2; [done|apply sampleCanaries_config].
    + by rewrite Es.
    + rewrite Et. unfold g2, g1, setGroupState. simpl. by rewrite Hs.
    + intros Hc. by apply sampleCanaries_ok.
  - split_and!; [done|done| |done]. unfold g1, setGroupState. simpl. by rewrite Hs.
Qed.

Section Pass.
Variable targetVersion : string.
Variable startTime : time.
Variable names : list string.
Variable now : gotime.

(** When an unstarted group starts. *)
Record may_start (prev : option RolloutGroup) (g : RolloutGroup) : Prop := {
  start_window : inWindow g now haltOnErrorWindowDuration = Ok true;
  start_waited : g_ConfigWaitHours g = 0 \/
    exists p t, prev = Some p /\ g_StartTime p = Some t /\ t + hours (g_ConfigWaitHours g) <= t_Unix now;
  start_unchanged : rolloutChangedInWindow g now startTime haltOnErrorWindowDuration = Ok false;
}.

Lemma canStart_true g prev :
  canStartHaltOnError g prev now = Ok true <->
  inWindow g now haltOnErrorWindowDuration = Ok true /\
  (g_ConfigWaitHours g = 0 \/
   exists p t, prev = Some p /\ g_StartTime p = Some t /\ t <> zero_time /\ t / Second <> 0 /\
     t + hours (g_ConfigWaitHours g) <= t_Unix now).
Proof.
  unfold canStartHaltOnError. destruct (Z.eqb_spec (g_ConfigWaitHours g) 0) as [E|E]; simpl; [tauto|].
  destruct prev as [p|]; [|split; [done|]; intros [_ [?|(? & ? & ? & _)]]; done].
  unfold AsTime. destruct (g_StartTime p) as [t|] eqn:Ep; simpl.
  2:{ split; [done|]. intros [_ [?|(? & t & [= <-] & ? & _)]]; congruence. }
  destruct ((t =? zero_time) || (t / Second =? 0)) eqn:Ez.
  { split; [done|]. intros [_ [?|(? & t' & [= <-] & Ep' & Hz & Hs & _)]]; [done|]. exfalso.
    rewrite Ep in Ep'. injection Ep' as <-. apply orb_true_iff in Ez as [Ez|Ez]; bool_to_prop; done. }
  apply orb_false_iff in Ez as [Ez1 Ez2]. bool_to_prop.
  destruct (Z.ltb_spec (t_Unix now) (t + hours (g_ConfigWaitHours g))).
  - split; [done|]. intros [_ [?|(? & t' & [= <-] & Ep' & _ & _ & ?)]]; [done|]. rewrite Ep in Ep'. simplify_eq. lia.
  - split; [intros ?; split; [done|]; right; eauto 10|tauto].
Qed.

(** A group that the loop finds unstarted. *)
Lemma progress_unstarted_cases n prev prevDone g g' r :
  g_State g = GROUP_UNSTARTED -> progress_unstarted startTime names now n prev prevDone g = (g', r) ->
  same_config g g' /\ moves g g' /\ (canaries_ok g -> canaries_ok g') /\
  (g_State g' <> GROUP_UNSTARTED -> r = Ok tt /\ prevDone = true /\ may_start prev g /\
     g_StartTime g' = Some (t_Unix now)) /\
  (r = Ok tt -> g_State g' = GROUP_UNSTARTED ->
     ~ (prevDone = true /\ canStartHaltOnError g prev now = Ok true /\
        rolloutChangedInWindow g now startTime haltOnErrorWindowDuration = Ok false)).
Proof.
  intros Hs. unfold progress_unstarted.
  assert (Hkeep : forall reason, same_config g (set_reason reason now g) /\ moves g (set_reason reason now g) /\
    (canaries_ok g -> canaries_ok (set_reason reason now g)) /\ g_State (set_reason reason now g) = GROUP_UNSTARTED).
  { intros reason. split; [done|]. split; [by apply set_reason_stays|]. by split. }
  destruct (canStartHaltOnError g prev now) as [canStart|e] eqn:Ec.
  2:{ intros [= <- <-]. destruct (Hkeep updateReasonReconcilerError) as (?&?&?&?). by split_and!. }
  destruct (rolloutChangedInWindow _ _ _ _) as [changed|e] eqn:Er.
  2:{ intros [= <- <-]. destruct (Hkeep updateReasonReconcilerError) as (?&?&?&?). by split_and!. }
  destruct prevDone; cbn [negb]; intros [= <- <-].
  2:{ destruct (Hkeep updateReasonPreviousGroupsNotDone) as (?&?&?&?). split_and!; try done. naive_solver. }
  destruct canStart; cbn [negb].
  2:{ destruct (Hkeep updateReasonCannotStart) as (?&?&?&?). split_and!; try done. naive_solver. }
  destruct changed.
  { destruct (Hkeep updateReasonRolloutChanged) as (?&?&?&?). split_and!; try done. naive_solver. }
  destruct (startGroup_moves names now n g Hs) as (Hc & Hst & Ht & Hok). split_and!; try done.
  - by eapply starts.
  - intros _. split_and!; try done. apply canStart_true in Ec as [Hw Hwait]. split; [done| |done].
    destruct Hwait as [?|(p & t & ? & ? & _ & _ & ?)]; [by left|right]. eauto.
  - intros _ Hu. rewrite Hst in Hu. by destruct (shouldUseCanaries g).
Qed.

Lemma progress_canary_cases g g' r :
  g_State g = GROUP_CANARY -> progress_canary targetVersion names now g = (g', r) -> canaries_ok g ->
  same_config g g' /\ moves g g' /\ canaries_ok g' /\ (g_State g' = GROUP_CANARY \/ g_State g' = GROUP_ACTIVE).
Proof.
  intros Hs. unfold progress_canary.
  destruct (sampleCanaries names g) as [g1 r1] eqn:E1.
  pose proof (sampleCanaries_config names g) as Hc1. pose proof (sampleCanaries_state names g) as [Hs1 Ht1].
  pose proof (sampleCanaries_ok names g) as Hok1. rewrite E1 in *. cbn [fst] in *.
  assert (Hkeep : canaries_ok g -> same_config g g1 /\ moves g g1 /\ canaries_ok g1 /\
    (g_State g1 = GROUP_CANARY \/ g_State g1 = GROUP_ACTIVE)).
  { intros Hok. split; [done|]. split; [by apply stays|]. split; [auto|]. left. congruence. }
  destruct r1 as [u|e]; [|by intros [= <- <-]].
  destruct (EnsureSemver targetVersion) as [target|e]; [|by intros [= <- <-]].
  destruct (updateCanariesStatus target g1) as [g2 n] eqn:E2. intros Hp Hok.
  pose proof (updateCanariesStatus_ok target g1 (Hok1 Hok)) as Hok2. rewrite E2 in Hok2. cbn [fst] in Hok2.
  injection E2 as <- <-. destruct (Z.eqb_spec (Z.of_nat (length (filter (fun c => cn_Success c = true)
    (update_canary target <$> g_Canaries g1)))) (canary_count (set_canaries (update_canary target <$> g_Canaries g1) g1))) as [En|En];
    injection Hp as <- <-.
  - assert (Hcc : canary_count (set_canaries (update_canary target <$> g_Canaries g1) g1) = canary_count g).
    { unfold canary_count. simpl. f_equal. apply Hc1. }
    rewrite Hcc in En. destruct Hok2 as [Hlen Hnd]. rewrite Hcc in Hlen. unfold canaries_len in Hlen. simpl in Hlen.
    pose proof (length_filter (fun c => cn_Success c = true) (update_canary target <$> g_Canaries g1)) as Hlf.
    split; [by transitivity g1|]. split; [|split; [|by right]].
    + apply canaries_alive; [done|done| | |].
      * unfold setGroupState. simpl. rewrite Hs1, Hs. simpl. done.
      * simpl. apply all_successful. lia.
      * unfold canaries_len. simpl. lia.
    + split; [|done]. unfold canaries_len, canary_count in *. simpl. 
      replace (g_CanaryCount g1) with (g_CanaryCount g) by (symmetry; apply Hc1). lia.
  - split; [by transitivity g1|]. split; [by apply set_reason_stays|]. split; [done|]. left. simpl. congruence.
Qed.

(** ** The loop *)

Lemma refresh_canaries all counts i g : canaries_ok g -> canaries_ok (refresh all counts i g).
Proof. unfold refresh. by destruct (group_counts all counts i g). Qed.

Lemma moves_refresh all counts i g g' : moves (refresh all counts i g) g' -> moves g g'.
Proof.
  destruct (refresh_state all counts i g) as (Es & Et & _).
  assert (Ec : g_CanaryCount (refresh all counts i g) = g_CanaryCount g) by apply refresh_config.
  intros [Hs Ht|t Hs Ht Hst|Hs Hs' Ht Hc Hl|Hs Hs' Ht]; rewrite ?Es, ?Et in *.
  - by apply stays.
  - eapply starts; [done|exact Ht|]. rewrite Hst. unfold shouldUseCanaries. by rewrite Ec.
  - apply canaries_alive; try done. unfold canary_count in *. by rewrite Ec in Hl.
  - by apply completes.
Qed.

(** Everything a pass says of one group. *)
Record handled (prev : option RolloutGroup) (prevDone : bool) (g g' : RolloutGroup) (prevDone' : bool)
    (r : result unit) : Prop := {
  h_config : same_config g g';
  h_moves : canaries_ok g -> moves g g' /\ canaries_ok g';
  h_start : g_State g = GROUP_UNSTARTED -> g_State g' <> GROUP_UNSTARTED ->
    r = Ok tt /\ prevDone = true /\ may_start prev g /\ g_StartTime g' = Some (t_Unix now);
  h_fixed : g_State g = GROUP_DONE \/ g_State g = GROUP_ROLLEDBACK -> g' = g;
  h_done : r = Ok tt -> prevDone' = true -> prevDone = true /\ g_State g' = GROUP_DONE;
}.

Lemma progress_group_handled n prev prevDone g g' prevDone' r :
  progress_group targetVersion startTime names now n prev prevDone g = (g', prevDone', r) ->
  handled prev prevDone g g' prevDone' r.
Proof.
  unfold progress_group.
  destruct (Z.eqb_spec (g_State g) GROUP_UNSTARTED) as [Hs|Hu].
  { destruct (progress_unstarted startTime names now n prev prevDone g) as [g1 r1] eqn:E. intros [= <- <- <-].
    apply progress_unstarted_cases in E as (Hc & Hm & Hok & Hst & _); [|done].
    split; [done|auto|intros _; auto|rewrite Hs; naive_solver|done]. }
  destruct (Z.eqb_spec (g_State g) GROUP_CANARY) as [Hs|Hc].
  { destruct (progress_canary targetVersion names now g) as [g1 r1] eqn:E. intros [= <- <- <-]. 
    split; [|intros Hok|rewrite Hs; done|rewrite Hs; naive_solver|done].
    - unfold progress_canary in E. pose proof (sampleCanaries_config names g) as Hsc.
      destruct (sampleCanaries names g) as [g2 [u|e]]; [|by injection E as <- <-].
      destruct (EnsureSemver targetVersion) as [target|e]; [|by injection E as <- <-].
      destruct (updateCanariesStatus target g2) as [g3 k] eqn:E3. injection E3 as <- <-.
      injection E as <- <-. transitivity g2; [done|]. by destruct (_ =? _).
    - apply progress_canary_cases in E as (_ & ? & ? & _); done. }
  destruct (Z.eqb_spec (g_State g) GROUP_ROLLEDBACK) as [Hs|Hr].
  { intros [= <- <- <-]. split; try done. intros ?. split; [by apply stays|done]. }
  destruct (Z.eqb_spec (g_State g) GROUP_DONE) as [Hs|Hd].
  { intros [= <- <- <-]. split; try done. intros ?. split; [by apply stays|done]. }
  destruct (Z.eqb_spec (g_State g) GROUP_ACTIVE) as [Hs|Ha].
  { destruct (isDoneHaltOnError g now) as [[] reason]; intros [= <- <- <-];
      (split; [done| |rewrite Hs; done|rewrite Hs; naive_solver|done]); intros ?; (split; [|done]).
    - apply completes; try done. unfold setGroupState. simpl. by rewrite Hs.
    - apply stays; [by rewrite Hs|]. unfold setGroupState. simpl. by rewrite Hs. }
  intros [= <- <- <-]. split; try done. intros ?. split; [by apply stays|done].
Qed.

(** The loop, group by group: [prev] is the group before, as the pass left
    it. *)
Inductive pass : option RolloutGroup -> bool -> list RolloutGroup -> list RolloutGroup -> result unit -> Prop :=
| pass_nil prev prevDone : pass prev prevDone [] [] (Ok tt)
| pass_error prev prevDone g gr g' prevDone' groups e :
    same_config g gr -> g_State gr = g_State g -> (canaries_ok g -> canaries_ok gr) ->
    (moves gr g' -> moves g g') -> handled prev prevDone gr g' prevDone' (Err e) ->
    pass prev prevDone (g :: groups) (g' :: groups) (Err e)
| pass_next prev prevDone g gr g' prevDone' groups groups' r :
    same_config g gr -> g_State gr = g_State g -> (canaries_ok g -> canaries_ok gr) ->
    (moves gr g' -> moves g g') -> handled prev prevDone gr g' prevDone' (Ok tt) ->
    pass (Some g') prevDone' groups groups' r ->
    pass prev prevDone (g :: groups) (g' :: groups') r.

Lemma progress_groups_pass all counts i prev prevDone groups groups' r :
  progress_groups targetVersion startTime names now all counts i prev prevDone groups = (groups', r) ->
  pass prev prevDone groups groups' r.
Proof.
  revert i prev prevDone groups' r. induction groups as [|g groups IH]; intros i prev prevDone groups' r; simpl.
  { intros [= <- <-]. constructor. }
  destruct (progress_group _ _ _ _ _ _ _ _) as [[g' prevDone'] r'] eqn:E.
  apply progress_group_handled in E. pose proof (refresh_config all counts i g) as Hc.
  destruct (refresh_state all counts i g) as [Hs _].
  destruct r' as [[]|e].
  - destruct (progress_groups _ _ _ _ _ _ _ _ _ groups) as [rest r1] eqn:E1. intros [= <- <-].
    apply IH in E1. by eapply pass_next; eauto using refresh_canaries, moves_refresh.
  - intros [= <- <-]. by eapply pass_error; eauto using refresh_canaries, moves_refresh.
Qed.

(** Group by group, a pass keeps the configuration and makes allowed moves. *)
Lemma pass_moves prev prevDone groups groups' r :
  pass prev prevDone groups groups' r ->
  Forall2 (fun g g' => same_config g g' /\ (canaries_ok g -> moves g g' /\ canaries_ok g') /\
    (g_State g = GROUP_DONE \/ g_State g = GROUP_ROLLEDBACK -> g_State g' = g_State g)) groups groups'.
Proof.
  assert (Hrefl : forall groups, Forall2 (fun g g' => same_config g g' /\ (canaries_ok g -> moves g g' /\ canaries_ok g') /\
    (g_State g = GROUP_DONE \/ g_State g = GROUP_ROLLEDBACK -> g_State g' = g_State g)) groups groups).
  { intros l. induction l; constructor; [|done]. split; [done|]. split; [|done].
    intros ?. split; [by apply stays|done]. }
  induction 1 as [|prev prevDone g gr g' pd' groups e Hc Hs Hok Hm Hh|prev prevDone g gr g' pd' groups groups' r Hc Hs Hok Hm Hh _ IH];
    [constructor| |]; (constructor; [|auto]);
    (split; [transitivity gr; [done|apply Hh]|]); (split; [intros Hg; destruct (h_moves _ _ _ _ _ _ Hh (Hok Hg)); auto|]);
    rewrite <- Hs; intros Hf; by rewrite (h_fixed _ _ _ _ _ _ Hh Hf).
Qed.

(** A group starts only behind groups that are done. *)
Lemma pass_start prev prevDone groups groups' r i g g' :
  pass prev prevDone groups groups' r -> groups !! i = Some g -> groups' !! i = Some g' ->
  g_State g = GROUP_UNSTARTED -> g_State g' <> GROUP_UNSTARTED ->
  prevDone = true /\ (forall j h, (j < i)%nat -> groups' !! j = Some h -> g_State h = GROUP_DONE) /\
  g_StartTime g' = Some (t_Unix now) /\
  exists p, may_start p g /\
    p = match i with O => prev | S j => groups' !! j end.
Proof.
  intros Hp. revert i. induction Hp as [|prev prevDone g0 gr g0' pd' groups e Hc Hs Hok Hm Hh|prev prevDone g0 gr g0' pd' groups groups' r Hc Hs Hok Hm Hh Hp IH];
    intros i Hi Hi' Hu Hn; [done| |].
  - destruct i as [|i]; simpl in *; [|congruence]. simplify_eq. rewrite <- Hs in Hu.
    by destruct (h_start _ _ _ _ _ _ Hh Hu Hn).
  - destruct i as [|i]; simpl in *.
    + simplify_eq. rewrite <- Hs in Hu. destruct (h_start _ _ _ _ _ _ Hh Hu Hn) as (_ & Hd & [Hw Hwait Hr] & Ht).
      split; [done|]. split; [intros j h ?; lia|]. split; [done|]. exists prev. split; [|done].
      destruct Hc as (_ & Hdays & Hhour & Hwh & _).
      unfold inWindow, rolloutChangedInWindow in *. rewrite Hdays, Hhour in Hw. rewrite Hwh in Hwait.
      split; [done|done|]. unfold inWindow, rolloutChangedInWindow in *. by rewrite Hdays, Hhour in Hr.
    + destruct (IH i Hi Hi' Hu Hn) as (Hd & Hj & Ht & p & Hms & Hpe).
      destruct (h_done _ _ _ _ _ _ Hh eq_refl Hd) as [Hpd Hg].
      split; [done|]. split; [|split; [done|]].
      * intros [|j] h Hlt Hl; simpl in Hl; [by simplify_eq|]. apply (Hj j); [lia|done].
      * exists p. split; [done|]. rewrite Hpe. by destruct i.
Qed.
End Pass.
End Facts.

(** ** Time based *)

Section Timed.
Context `{UnicodeTables}.
Variable startTime : time.
Variable d : duration.
Variable now : gotime.

(** The state a group has after a pass of the time-based strategy: active in
    its window, unless the rollout is younger than the window, and done after
    it. *)
Definition timed_state (g : RolloutGroup) : AutoUpdateAgentGroupState :=
  if g_State g =? GROUP_ROLLEDBACK then GROUP_ROLLEDBACK
  else match inWindow g now d with
  | Ok true =>
      if g_State g =? GROUP_ACTIVE then GROUP_ACTIVE
      else match rolloutChangedInWindow g now startTime d with Ok false => GROUP_ACTIVE | _ => g_State g end
  | Ok false => if g_State g =? GROUP_ACTIVE then GROUP_DONE else g_State g
  | Err _ => g_State g
  end.

(** The states the strategy knows. *)
Definition timed_known (g : RolloutGroup) : Prop :=
  g_State g ∈ [GROUP_UNSTARTED; GROUP_ACTIVE; GROUP_DONE; GROUP_ROLLEDBACK].

Lemma progress_window_timed g : timed_known g ->
  exists g' err, progress_window startTime d now g = (g', err, Ok tt) /\ g_State g' = timed_state g /\ same_config g g'.
Proof.
  intros Hk. unfold progress_window, timed_state.
  assert (Hc : g_State g = GROUP_UNSTARTED \/ g_State g = GROUP_ACTIVE \/ g_State g = GROUP_DONE \/ g_State g = GROUP_ROLLEDBACK)
    by (unfold timed_known in Hk; set_solver).
  destruct (inWindow g now d) as [[]|e], (rolloutChangedInWindow g now startTime d) as [[]|e'];
    destruct Hc as [Hs | [Hs | [Hs | Hs]]]; rewrite Hs; simpl; do 2 eexists; (split; [done|]); (split; [|done]);
    unfold set_reason, setGroupState; simpl; by rewrite ?Hs.
Qed.

Lemma timed_refresh all counts i g :
  timed_state (refresh all counts i g) = timed_state g /\ (timed_known g -> timed_known (refresh all counts i g)).
Proof. unfold refresh. by destruct (group_counts all counts i g). Qed.

Lemma progress_windows_timed all counts i errs groups : Forall timed_known groups ->
  Forall2 (fun g g' => same_config g g' /\ g_State g' = timed_state g) groups
    (progress_windows startTime d now all counts i errs groups).1.
Proof.
  intros Hk. revert i errs. induction Hk as [|g groups Hg Hk IH]; intros i errs; simpl; [constructor|].
  destruct (timed_refresh all counts i g) as [Et Hr].
  destruct (progress_window_timed _ (Hr Hg)) as (g' & err & -> & Hs & Hc).
  destruct (progress_windows _ _ _ _ _ _ _ groups) as [rest r] eqn:E. simpl. constructor.
  - split; [by etransitivity; [apply refresh_config|]|congruence].
  - replace rest with (rest, r).1 by done. rewrite <- E. apply IH.
Qed.
End Timed.
