(* ===== verification/RolloutTransitions.v ===== *)
(** * Manual transitions: [lib/autoupdate/rollout/transitions.go], and the rules
    of the server for schedules ([lib/auth/autoupdate/autoupdatev1/service.go])

    An administrator triggers groups, forces them done or rolls them back; the
    set of names is walked in the order of a Go map.  The functions change the
    rollout in place, and the caller stores it when there was no error. *)

From stdpp Require Import pretty.
From S2P Require Import Prelude GoStrings Utf8 Types Autoupdate Rollout.

Definition updateReasonManualTrigger := "manual_trigger".
Definition updateReasonForcedDone := "manual_forced_done".
Definition updateReasonManualRollback := "manual_rollback".

#[global] Abbreviation GroupSet := (gmap string unit).

Definition GroupListToGroupSet (groupList : list string) : GroupSet :=
  foldl (fun set group => <[group := tt]> set) ∅ groupList.

(** [getGroup]: the index stands for the pointer. *)
Definition getGroup (groups : list RolloutGroup) (groupName : string) : result (nat * RolloutGroup) :=
  fail_if bool_decide (groupName = "") with BadParameter "group name cannot be empty" [];
  match list_find (fun g => g_Name g = groupName) groups with
  | Some ig => Ok ig
  | None => Err (NotFound "group %q not found" [groupName])
  end.

Definition checkSchedule (spec : RolloutSpec) : result unit :=
  if bool_decide (sp_Schedule spec = AgentsScheduleImmediate) then
    Err (BadParameter "rollout schedule is immediate, it has no groups and cannot be triggered" [])
  else if bool_decide (sp_Schedule spec = AgentsScheduleRegular) then Ok tt
  else Err (BadParameter "unknown rollout schedule: %v" [sp_Schedule spec]).

Definition strategySupportsManualTransition (spec : RolloutSpec) : result unit :=
  if bool_decide (sp_Strategy spec = AgentsStrategyHaltOnError) then Ok tt
  else Err (Error KNotImplemented "manual group state transition is not supported for rollout strategy %q"
              [sp_Strategy spec] []).

(** The getters of a rollout whose specification or status is missing. *)
Definition no_spec : RolloutSpec :=
  {| sp_StartVersion := ""; sp_TargetVersion := ""; sp_Schedule := ""; sp_AutoupdateMode := "";
     sp_Strategy := ""; sp_MaintenanceWindowDuration := None |}.
Definition GetSpec (rollout : AutoUpdateAgentRollout) : RolloutSpec := default no_spec (ro_Spec rollout).

Definition set_groups (groups : list RolloutGroup) (rollout : AutoUpdateAgentRollout) : AutoUpdateAgentRollout :=
  {| ro_Metadata := ro_Metadata rollout; ro_Revision := ro_Revision rollout; ro_Spec := ro_Spec rollout;
     ro_Status := match ro_Status rollout with
       | Some st => Some {| st_Groups := groups; st_State := st_State st; st_StartTime := st_StartTime st;
                            st_TimeOverride := st_TimeOverride st |}
       | None => None
       end |}.

(** What the three functions check first. *)
Definition transition_checks (rollout : option AutoUpdateAgentRollout) : result AutoUpdateAgentRollout :=
  match rollout with
  | None => Err (BadParameter "rollout cannot be nil" [])
  | Some rollout =>
      check (checkSchedule (GetSpec rollout));
      check (strategySupportsManualTransition (GetSpec rollout));
      Ok rollout
  end.

Definition no_groups : error := BadParameter "rollout has no groups" [].

(** ** Trigger *)

Definition triggerable (groupName : string) (state : AutoUpdateAgentGroupState) : result unit :=
  if slices_Contains [GROUP_UNSPECIFIED; GROUP_UNSTARTED; GROUP_CANARY; GROUP_ROLLEDBACK] state then Ok tt
  else if state =? GROUP_ACTIVE then Err (AlreadyExists "group %q is already active" [groupName])
  else if state =? GROUP_DONE then Err (AlreadyExists "group %q is already done" [groupName])
  else Err (BadParameter "group %q in unexpected state %s" [groupName]).

(** What an unspecified state means for a group. *)
Definition resolve_state (desiredState : AutoUpdateAgentGroupState) (group : RolloutGroup)
  : AutoUpdateAgentGroupState :=
  if desiredState =? GROUP_UNSPECIFIED then (if shouldUseCanaries group then GROUP_CANARY else GROUP_ACTIVE)
  else desiredState.

(** The counts of a group by name. *)
Definition named_counts (groups : list RolloutGroup) (counts : gmap string Z * gmap string Z) (groupName : string)
  : Z * Z :=
  if bool_decide (g_Name <$> last groups = Some groupName) then countCatchAll groups counts
  else (default 0 (counts.1 !! groupName), default 0 (counts.2 !! groupName)).

(** One round of the loop.  The desired state is a variable outside of the
    loop: what it was resolved to for one group is the state for the next. *)
Definition trigger_one (counts : gmap string Z * gmap string Z) (now : gotime)
    (st : result (list RolloutGroup * AutoUpdateAgentGroupState)) (groupName : string)
  : result (list RolloutGroup * AutoUpdateAgentGroupState) :=
  let? (groups, desiredState) := st in
  let? (i, group) := getGroup groups groupName in
  let '(initialCount, upToDateCount) := named_counts groups counts groupName in
  check (triggerable groupName (g_State group));
  let desiredState := resolve_state desiredState group in
  let group := setGroupState desiredState updateReasonManualTrigger now group in
  let group := set_counts (uint64 initialCount) (uint64 initialCount) (uint64 upToDateCount) group in
  Ok (<[i := group]> groups, desiredState).

Section Transitions.
Context `{MapOrder unit}.

Definition TriggerGroups (rollout : option AutoUpdateAgentRollout) (reports : list AutoUpdateAgentReport)
    (groupsToTrigger : GroupSet) (desiredState : AutoUpdateAgentGroupState) (now : gotime)
  : result AutoUpdateAgentRollout :=
  let? rollout := transition_checks rollout in
  let validReports := filter (fun r => valid_report now r = true) reports in
  let counts := countUpToDate validReports (sp_TargetVersion (GetSpec rollout)) in
  let groups := GetGroups rollout in
  fail_if bool_decide (groups = []) with no_groups;
  fail_if negb (slices_Contains [GROUP_UNSPECIFIED; GROUP_CANARY; GROUP_ACTIVE] desiredState)
    with BadParameter "unsupported desired state: %s, supported states are 'unspecified', 'canary' and 'active'" [];
  let? (groups, _) := foldl (trigger_one counts now) (Ok (groups, desiredState)) (fst <$> range groupsToTrigger) in
  Ok (set_groups groups rollout).

(** ** Done and rolled back *)

Definition forceable (groupName : string) (state : AutoUpdateAgentGroupState) : result unit :=
  if slices_Contains [GROUP_UNSPECIFIED; GROUP_UNSTARTED; GROUP_ROLLEDBACK; GROUP_ACTIVE; GROUP_CANARY] state then Ok tt
  else if state =? GROUP_DONE then Err (AlreadyExists "group %q is already done" [groupName])
  else Err (BadParameter "group %q in unexpected state %s" [groupName]).

Definition force_one (now : gotime) (st : result (list RolloutGroup)) (groupName : string)
  : result (list RolloutGroup) :=
  let? groups := st in
  let? (i, group) := getGroup groups groupName in
  check (forceable groupName (g_State group));
  Ok (<[i := setGroupState GROUP_DONE updateReasonForcedDone now group]> groups).

Definition ForceGroupsDone (rollout : option AutoUpdateAgentRollout) (groupsToForce : GroupSet) (now : gotime)
  : result AutoUpdateAgentRollout :=
  let? rollout := transition_checks rollout in
  fail_if bool_decide (GetGroups rollout = []) with no_groups;
  let? groups := foldl (force_one now) (Ok (GetGroups rollout)) (fst <$> range groupsToForce) in
  Ok (set_groups groups rollout).

Definition rollback_one (now : gotime) (st : result (list RolloutGroup)) (groupName : string)
  : result (list RolloutGroup) :=
  let? groups := st in
  let? (i, group) := getGroup groups groupName in
  fail_if g_State group =? GROUP_ROLLEDBACK
    with AlreadyExists "group %q is already in a rolled-back state" [groupName];
  Ok (<[i := setGroupState GROUP_ROLLEDBACK updateReasonManualRollback now group]> groups).

Definition RollbackGroups (rollout : option AutoUpdateAgentRollout) (groupsToRollback : GroupSet) (now : gotime)
  : result AutoUpdateAgentRollout :=
  let? rollout := transition_checks rollout in
  fail_if bool_decide (GetGroups rollout = []) with no_groups;
  let? groups := foldl (rollback_one now) (Ok (GetGroups rollout)) (fst <$> range groupsToRollback) in
  Ok (set_groups groups rollout).

Definition GetStartedGroups (rollout : AutoUpdateAgentRollout) : GroupSet :=
  foldl (fun set g => if slices_Contains [GROUP_ACTIVE; GROUP_CANARY; GROUP_DONE] (g_State g)
                      then <[g_Name g := tt]> set else set) ∅ (GetGroups rollout).
End Transitions.

(** ** How long a schedule takes *)

Definition hourDifference (a b : Z) : Z :=
  let diff := int32 (b - a) in
  if diff <? 0 then int32 (diff + 24) else diff.

(** One round of the loop.  [%] and [/] truncate towards zero. *)
Definition add_group_time (hours : Z) (group : AgentAutoUpdateGroup) : Z :=
  let previousStartHour := Z.rem (int32 (hours - 1)) 24 in
  let previousEndHour := Z.rem hours 24 in
  let diff := hourDifference previousStartHour (ag_StartHour group) in
  let hours :=
    if diff <? Z.rem (ag_WaitHours group) 24
    then int32 (hours + int32 (24 + hourDifference previousEndHour (ag_StartHour group)))
    else int32 (hours + hourDifference previousEndHour (ag_StartHour group)) in
  let waitDays := Z.quot (ag_WaitHours group) 24 in
  let waitDays := if diff =? 0 then Z.max (int32 (waitDays - 1)) 0 else waitDays in
  int32 (int32 (hours + int32 (waitDays * 24)) + 1).

Definition computeMinRolloutTime (groups : list AgentAutoUpdateGroup) : Z :=
  match groups with
  | [] => 0
  | first :: groups' =>
      int32 (foldl add_group_time (int32 (ag_StartHour first + 1)) groups' - ag_StartHour first)
  end.

(** ** The rules of the server *)

Definition maxGroupsTimeBasedStrategy : nat := 20.
Definition maxGroupsHaltOnErrorStrategy : nat := 10.
Definition maxGroupsHaltOnErrorStrategyCloud : nat := 4.
Definition maxRolloutDurationCloudHours : Z := 72.
Definition cloudGroupUpdateDays : list string := ["Mon"; "Tue"; "Wed"; "Thu"].

Section Rules.
Context `{UnicodeTables} `{SemVer}.

Fixpoint check_cloud_days (cloudWeekdays : gset Weekday) (groups : list AgentAutoUpdateGroup) : result unit :=
  match groups with
  | [] => Ok tt
  | group :: groups' =>
      let? weekdays := ParseWeekdays (ag_Days group) in
      fail_if negb (bool_decide (cloudWeekdays = weekdays))
        with BadParameter "weekdays must be set to %v in cloud" cloudGroupUpdateDays;
      check_cloud_days cloudWeekdays groups'
  end.

(** The limit of the strategy. *)
Definition max_groups (isLimitedCloud : bool) (strategy : string) : result nat :=
  if isLimitedCloud && bool_decide (strategy = AgentsStrategyHaltOnError) then Ok maxGroupsHaltOnErrorStrategyCloud
  else if bool_decide (strategy = AgentsStrategyHaltOnError) then Ok maxGroupsHaltOnErrorStrategy
  else if bool_decide (strategy = AgentsStrategyTimeBased) then Ok maxGroupsTimeBasedStrategy
  else Err (BadParameter "unknown max group for strategy %v" [strategy]).

(** [isLimitedCloud]: the cloud feature without unrestricted updates. *)
Definition validateServerSideAgentConfig (config : AutoUpdateConfig) (isLimitedCloud : bool) : result unit :=
  match (match cfg_Spec config with Some spec => cs_Agents spec | None => None end) with
  | None => Ok tt
  | Some agentsSpec =>
      check (ValidateAutoUpdateConfig (Some config));
      let? maxGroups := max_groups isLimitedCloud (ca_Strategy agentsSpec) in
      let groups := default [] (ca_Schedules agentsSpec) in
      fail_if negb (bool_decide (length groups <= maxGroups)%nat)
        with BadParameter "max groups (%d) exceeded for strategy %s, %s schedule contains %d groups"
               [ca_Strategy agentsSpec; AgentsScheduleRegular];
      if negb isLimitedCloud then Ok tt
      else
        let? cloudWeekdays := ParseWeekdays cloudGroupUpdateDays in
        check (check_cloud_days cloudWeekdays groups);
        fail_if maxRolloutDurationCloudHours <? computeMinRolloutTime groups
          with BadParameter "rollout takes more than %d hours to complete: estimated completion time is %d hours"
                 [pretty (computeMinRolloutTime groups)];
        Ok tt
  end.
End Rules.

(** ** The earliest schedule

    Each group starts at its hour of a day, not before the group before it
    took its hour, and no earlier than its wait after that group's start. *)

(** The first time, from [from] on, that is the hour [h] of a day. *)
Definition next_at (from h : Z) : Z := from + (h - from) mod 24.

Definition earliest_start (prevStart : Z) (group : AgentAutoUpdateGroup) : Z :=
  next_at (prevStart + Z.max 1 (ag_WaitHours group)) (ag_StartHour group).

(** The start of the last group, in hours from the midnight before the first
    start. *)
Definition earliest_schedule (first : AgentAutoUpdateGroup) (groups : list AgentAutoUpdateGroup) : Z :=
  foldl earliest_start (ag_StartHour first) groups.

(** It is at the hour, late enough, and the first such time. *)
Lemma earliest_start_least prevStart group :
  let e := earliest_start prevStart group in
  e mod 24 = ag_StartHour group mod 24 /\ prevStart + 1 <= e /\ prevStart + ag_WaitHours group <= e /\
  forall s, s mod 24 = ag_StartHour group mod 24 -> prevStart + 1 <= s -> prevStart + ag_WaitHours group <= s -> e <= s.
Proof.
  intros e. unfold e, earliest_start, next_at.
  set (from := prevStart + Z.max 1 (ag_WaitHours group)). set (h := ag_StartHour group).
  assert (Hf : prevStart + 1 <= from /\ prevStart + ag_WaitHours group <= from) by lia.
  pose proof (Z.mod_pos_bound (h - from) 24 ltac:(lia)).
  split; [|split; [lia|split; [lia|]]].
  - rewrite Zplus_mod_idemp_r. f_equal. lia.
  - intros s Hs H1 H2. assert (Hsf : from <= s) by lia.
    assert (E : (s - from) mod 24 = (h - from) mod 24).
    { rewrite Zminus_mod, Hs, <- Zminus_mod. done. }
    rewrite <- E. pose proof (Z.mod_le (s - from) 24 ltac:(lia) ltac:(lia)). lia.
Qed.

Lemma hourDifference_mod a b : 0 <= a < 24 -> 0 <= b < 24 -> hourDifference a b = (b - a) mod 24.
Proof.
  intros Ha Hb. unfold hourDifference. rewrite int32_small by lia. destruct (Z.ltb_spec (b - a) 0).
  - rewrite int32_small by lia. apply Z.mod_unique with (-1); lia.
  - symmetry. apply Z.mod_small. lia.
Qed.

(** The case in which the estimate is a day too long: the same hour as the
    group before, and a wait of less than a day. *)
Definition same_hour_wait (prevHour : Z) (group : AgentAutoUpdateGroup) : bool :=
  (ag_StartHour group =? prevHour) && (0 <? ag_WaitHours group) && (ag_WaitHours group <? 24).

Fixpoint no_same_hour_wait (prevHour : Z) (groups : list AgentAutoUpdateGroup) : bool :=
  match groups with
  | [] => true
  | group :: groups' => negb (same_hour_wait prevHour group) && no_same_hour_wait (ag_StartHour group) groups'
  end.

Definition hours_ok (group : AgentAutoUpdateGroup) : Prop :=
  0 <= ag_StartHour group < 24 /\ 0 <= ag_WaitHours group.

(** One round of the estimate is one step of the earliest schedule. *)
Lemma add_group_time_step s group :
  0 <= s -> hours_ok group -> same_hour_wait (s mod 24) group = false ->
  s + ag_WaitHours group + 100 < 2 ^ 31 ->
  add_group_time (s + 1) group = earliest_start s group + 1.
Proof.
  intros Hs [Hh Hw] Hcase Hbig. unfold add_group_time.
  replace (s + 1 - 1) with s by lia. rewrite (int32_small s) by lia.
  rewrite !Z.rem_mod_nonneg, Z.quot_div_nonneg by lia.
  set (h := ag_StartHour group) in *. set (w := ag_WaitHours group) in *.
  pose proof (Z.mod_pos_bound s 24 ltac:(lia)). pose proof (Z.mod_pos_bound (s + 1) 24 ltac:(lia)).
  pose proof (Z.mod_pos_bound w 24 ltac:(lia)). pose proof (Z.div_mod w 24 ltac:(lia)) as Hdm.
  assert (0 <= w / 24) by (apply Z.div_pos; lia).
  rewrite !hourDifference_mod by lia.
  assert (E0 : (h - s mod 24) mod 24 = (h - s) mod 24) by apply Zminus_mod_idemp_r.
  assert (E1 : (h - (s + 1) mod 24) mod 24 = (h - (s + 1)) mod 24) by apply Zminus_mod_idemp_r.
  rewrite E0, E1. set (d := (h - s) mod 24).
  assert (Hd : 0 <= d < 24) by (apply Z.mod_pos_bound; lia).
  assert (Ed1 : (h - (s + 1)) mod 24 = if d =? 0 then 23 else d - 1).
  { pose proof (Z.div_mod (h - s) 24 ltac:(lia)). destruct (Z.eqb_spec d 0).
    - symmetry. apply Z.mod_unique with ((h - s) / 24 - 1); lia.
    - symmetry. apply Z.mod_unique with ((h - s) / 24); lia. }
  rewrite Ed1.
  (* the earliest start, by the distance of the hours *)
  assert (Ee : earliest_start s group = s + (if d =? 0 then 24 * Z.max 1 ((w + 23) / 24) else d + 24 * Z.max 0 ((w - d + 23) / 24))).
  { destruct (earliest_start_least s group) as (Em & E1' & E2' & Emin). fold h w in Em, E2', Emin.
    assert (Hsd : forall k, (s + d + 24 * k) mod 24 = h mod 24).
    { intros k. unfold d. pose proof (Z.div_mod (h - s) 24 ltac:(lia)).
      replace (s + (h - s) mod 24 + 24 * k) with (h + (k - (h - s) / 24) * 24) by lia. apply Z.mod_add. lia. }
    assert (Hk : exists k, earliest_start s group = s + d + 24 * k).
    { exists ((earliest_start s group - (s + d)) / 24).
      pose proof (Z.div_mod (earliest_start s group - (s + d)) 24 ltac:(lia)) as Hq.
      assert ((earliest_start s group - (s + d)) mod 24 = 0); [|lia].
      rewrite Zminus_mod, Em. specialize (Hsd 0). rewrite Z.mul_0_r, Z.add_0_r in Hsd. rewrite Hsd, Z.sub_diag. done. }
    destruct Hk as [k Hk]. set (e := earliest_start s group) in *.
    destruct (Z.eqb_spec d 0) as [Hd0|Hd0].
    - set (m := Z.max 1 ((w + 23) / 24)). assert (Hm : w <= 24 * m /\ 24 * m < Z.max 25 (w + 24)).
      { unfold m. pose proof (Z.div_mod (w + 23) 24 ltac:(lia)). pose proof (Z.mod_pos_bound (w + 23) 24 ltac:(lia)). lia. }
      assert (e <= s + d + 24 * m) by (apply Emin; [apply Hsd|unfold m; lia|lia]). lia.
    - set (m := Z.max 0 ((w - d + 23) / 24)). assert (Hm : w <= d + 24 * m /\ 24 * m < Z.max 1 (w - d + 24)).
      { unfold m. pose proof (Z.div_mod (w - d + 23) 24 ltac:(lia)). pose proof (Z.mod_pos_bound (w - d + 23) 24 ltac:(lia)). lia. }
      assert (e <= s + d + 24 * m) by (apply Emin; [apply Hsd|unfold m; lia|lia]). lia. }
  rewrite Ee.
  assert (Hcase' : d = 0 -> w mod 24 = w -> w = 0).
  { intros Hd0 Hw24. unfold same_hour_wait in Hcase. fold h w in Hcase.
    assert (h = s mod 24) as Ehs.
    { unfold d in Hd0. pose proof (Z.div_mod (h - s) 24 ltac:(lia)). pose proof (Z.div_mod s 24 ltac:(lia)).
      apply Z.mod_unique_pos with (- ((h - s) / 24)); lia. }
    apply andb_false_iff in Hcase as [Hcase|Hcase]; [|bool_to_prop; lia].
    apply andb_false_iff in Hcase as [Hcase|Hcase]; bool_to_prop; lia. }
  pose proof (Z.div_mod (w + 23) 24 ltac:(lia)). pose proof (Z.mod_pos_bound (w + 23) 24 ltac:(lia)).
  pose proof (Z.div_mod (w - d + 23) 24 ltac:(lia)). pose proof (Z.mod_pos_bound (w - d + 23) 24 ltac:(lia)).
  set (q := w / 24) in *. set (r := w mod 24) in *.
  destruct (Z.eqb_spec d 0) as [Hd0|Hd0]; destruct (Z.ltb_spec d r); [|int32_lia..].
  assert (1 <= q) by (destruct (decide (q = 0)); [|lia]; assert (w = 0) by (apply Hcase'; lia); lia). int32_lia.
Qed.

(** ** The estimate *)

Lemma earliest_start_grows s group : s < earliest_start s group.
Proof. destruct (earliest_start_least s group) as (_ & ? & _). lia. Qed.

Lemma earliest_fold_grows groups : forall s, s <= foldl earliest_start s groups.
Proof.
  induction groups as [|g groups IH]; intros s; simpl; [lia|].
  pose proof (earliest_start_grows s g). specialize (IH (earliest_start s g)). lia.
Qed.

(** Without the case, the estimate is the least schedule. *)
Lemma add_group_times s groups :
  0 <= s -> Forall hours_ok groups -> no_same_hour_wait (s mod 24) groups = true ->
  (forall group, group ∈ groups -> foldl earliest_start s groups + ag_WaitHours group + 100 < 2 ^ 31) ->
  foldl add_group_time (s + 1) groups = foldl earliest_start s groups + 1.
Proof.
  revert s. induction groups as [|g groups IH]; intros s Hs Hok Hn Hbig; [done|].
  apply Forall_cons in Hok as [Hg Hok]. simpl in *. apply andb_true_iff in Hn as [Hn1 Hn2].
  pose proof (earliest_start_grows s g). pose proof (earliest_fold_grows groups (earliest_start s g)).
  rewrite add_group_time_step; [|done|done|by apply negb_true_iff|].
  2:{ specialize (Hbig g ltac:(set_solver)). lia. }
  apply IH; [lia|done| |intros group Hin; apply Hbig; set_solver].
  destruct (earliest_start_least s g) as [-> _]. destruct Hg as [Hh _]. by rewrite Z.mod_small.
Qed.

(** A schedule: the last group starts at [e] when the one before the first of
    [groups] started at [s]. *)
Inductive schedule : Z -> list AgentAutoUpdateGroup -> Z -> Prop :=
| schedule_nil s : schedule s [] s
| schedule_cons s s' group groups e :
    s' mod 24 = ag_StartHour group mod 24 -> s + 1 <= s' -> s + ag_WaitHours group <= s' ->
    schedule s' groups e -> schedule s (group :: groups) e.

Lemma earliest_start_mono s s' group : s <= s' -> earliest_start s group <= earliest_start s' group.
Proof.
  intros Hs. destruct (earliest_start_least s group) as (_ & _ & _ & Hl).
  destruct (earliest_start_least s' group) as (Hm & H1 & H2 & _). apply Hl; [done|lia|lia].
Qed.

(** The earliest schedule is one, and no other one is earlier. *)
Lemma earliest_is_schedule s groups : schedule s groups (foldl earliest_start s groups).
Proof.
  revert s. induction groups as [|g groups IH]; intros s; simpl; [constructor|].
  destruct (earliest_start_least s g) as (? & ? & ? & _). by econstructor.
Qed.

Lemma earliest_is_least s s0 groups e : schedule s groups e -> s0 <= s -> foldl earliest_start s0 groups <= e.
Proof.
  intros Hs. revert s0. induction Hs as [s|s s' g groups e Hm H1 H2 _ IH]; intros s0 Hle; simpl; [done|].
  apply IH. destruct (earliest_start_least s0 g) as (_ & _ & _ & Hl). apply Hl; [done|lia|lia].
Qed.
