(* ===== verification/RolloutManual.v ===== *)
(** * Facts about the manual transitions

    A transition changes the groups it names and no other one.  A group that
    is rolled back stays so, and no group behind it starts. *)

From S2P Require Import Prelude GoStrings Utf8 Types Autoupdate Rollout RolloutFacts.
From S2P Require Import RolloutTransitions.

(** ** Groups by name *)

Lemma getGroup_ok groups name i g :
  getGroup groups name = Ok (i, g) -> groups !! i = Some g /\ g_Name g = name /\ name <> "".
Proof.
  unfold getGroup. case_bool_decide as Hn; [done|].
  destruct (list_find _ groups) as [[j h]|] eqn:E; [|done]. intros [= <- <-].
  by apply list_find_Some in E as (? & ? & _).
Qed.

Lemma getGroup_found groups name g :
  name <> "" -> g ∈ groups -> g_Name g = name -> exists i h, getGroup groups name = Ok (i, h).
Proof.
  intros Hn Hg Hname. unfold getGroup. rewrite bool_decide_false by done.
  destruct (list_find_elem_of (fun g => g_Name g = name) groups g Hg Hname) as [[i h] E].
  rewrite E. eauto.
Qed.

(** The groups [groups'] come from [groups] by changes [R] of one group for
    each name, in order. *)
Inductive updates (R : RolloutGroup -> RolloutGroup -> Prop) : list string -> list RolloutGroup -> list RolloutGroup -> Prop :=
| updates_nil groups : updates R [] groups groups
| updates_cons name names groups i g g' groups' :
    getGroup groups name = Ok (i, g) -> R g g' -> updates R names (<[i := g']> groups) groups' ->
    updates R (name :: names) groups groups'.

Definition unique_names (groups : list RolloutGroup) : Prop := NoDup (g_Name <$> groups).

Lemma unique_names_insert (groups : list RolloutGroup) (i : nat) g g' :
  groups !! i = Some g -> g_Name g' = g_Name g -> g_Name <$> <[i := g']> groups = g_Name <$> groups.
Proof.
  intros Hi Hn. rewrite list_fmap_insert, Hn. apply list_insert_id. by rewrite list_lookup_fmap, Hi.
Qed.

Lemma name_index (groups : list RolloutGroup) (i j : nat) g h : unique_names groups ->
  groups !! i = Some g -> groups !! j = Some h -> g_Name g = g_Name h -> i = j.
Proof.
  intros Hu Hi Hj E. apply (NoDup_lookup (g_Name <$> groups) i j (g_Name g) Hu);
    rewrite list_lookup_fmap; [by rewrite Hi|]. rewrite Hj, E. done.
Qed.

(** With unique names, exactly the named groups change, each once. *)
Lemma updates_named (R : RolloutGroup -> RolloutGroup -> Prop) names groups groups' :
  (forall g g', R g g' -> g_Name g' = g_Name g) -> NoDup names -> unique_names groups ->
  updates R names groups groups' ->
  Forall (fun name => name <> "" /\ exists g, g ∈ groups /\ g_Name g = name) names /\
  Forall2 (fun g g' => if decide (g_Name g ∈ names) then R g g' else g' = g) groups groups'.
Proof.
  intros HR Hnd Hu Hup. revert Hnd Hu. induction Hup as [groups|name names groups i g g' groups' Hg HRg Hup IH].
  { intros _ _. split; [constructor|]. apply Forall2_same_length_lookup_2; [done|].
    intros i g g' Hg Hg'. rewrite decide_False by apply not_elem_of_nil. congruence. }
  intros Hnd Hu. apply NoDup_cons in Hnd as [Hnot Hnd]. apply getGroup_ok in Hg as (Hi & Hname & Hne).
  assert (En : g_Name <$> <[i := g']> groups = g_Name <$> groups) by (eapply unique_names_insert; eauto).
  destruct IH as [Hall H2]; [done|by unfold unique_names; rewrite En|].
  assert (Hlen : length groups = length groups') by (apply Forall2_length in H2; by rewrite length_insert in H2).
  split.
  - constructor; [split; [done|]; exists g; split; [by eapply list_elem_of_lookup_2|done]|].
    eapply Forall_impl; [exact Hall|]. intros n (Hn0 & h & Hh & Hhn). split; [done|].
    assert (n ∈ g_Name <$> groups) as (h' & -> & Hh')%list_elem_of_fmap.
    { rewrite <- En. subst n. by apply list_elem_of_fmap_2. }
    eauto.
  - apply Forall2_same_length_lookup. split; [done|]. intros j h h' Hj Hj'.
    destruct (decide (i = j)) as [<-|Hij].
    + rewrite Hi in Hj. injection Hj as <-. rewrite decide_True by set_solver.
      assert (Hl : <[i := g']> groups !! i = Some g') by (apply list_lookup_insert_eq; by eapply lookup_lt_Some).
      pose proof (Forall2_lookup_lr _ _ _ _ _ _ H2 Hl Hj') as Hx. cbv beta in Hx.
      rewrite decide_False in Hx; [by subst|]. by rewrite (HR _ _ HRg), Hname.
    + assert (Hl : <[i := g']> groups !! j = Some h) by (by rewrite list_lookup_insert_ne).
      pose proof (Forall2_lookup_lr _ _ _ _ _ _ H2 Hl Hj') as Hx. cbv beta in Hx.
      assert (Hd : g_Name h <> name).
      { intros E. apply Hij. eapply (name_index groups); eauto. congruence. }
      destruct (decide (g_Name h ∈ names)); [rewrite decide_True by set_solver|rewrite decide_False by set_solver]; done.
Qed.

(** The other way around: names that are all there can be updated. *)
Lemma updates_exists (R : RolloutGroup -> RolloutGroup -> Prop) names groups :
  (forall g g', R g g' -> g_Name g' = g_Name g) -> NoDup names -> unique_names groups ->
  (forall name, name ∈ names -> name <> "" /\ exists g g', g ∈ groups /\ g_Name g = name /\ R g g') ->
  exists groups', updates R names groups groups'.
Proof.
  intros HR. revert groups. induction names as [|name names IH]; intros groups Hnd Hu Hall; [eexists; constructor|].
  apply NoDup_cons in Hnd as [Hnot Hnd].
  destruct (Hall name ltac:(set_solver)) as (Hne & g & g' & Hg & Hname & HRg).
  destruct (getGroup_found groups name g Hne Hg Hname) as (i & h & Eg).
  pose proof (getGroup_ok _ _ _ _ Eg) as (Hi & Hh & _).
  assert (h = g) as ->.
  { apply list_elem_of_lookup in Hg as [j Hj]. assert (i = j) as <-; [|congruence].
    eapply (name_index groups); eauto. congruence. }
  assert (En : g_Name <$> <[i := g']> groups = g_Name <$> groups) by (eapply unique_names_insert; eauto).
  destruct (IH (<[i := g']> groups)) as [groups' Hup]; [done|by unfold unique_names; rewrite En| |].
  { intros n Hn. destruct (Hall n ltac:(set_solver)) as (Hn0 & k & k' & Hk & Hkn & HRk). split; [done|].
    exists k, k'. split; [|done]. apply list_elem_of_lookup in Hk as [j Hj]. apply list_elem_of_lookup. exists j.
    rewrite list_lookup_insert_ne; [done|]. intros <-. rewrite Hi in Hj. injection Hj as <-. set_solver. }
  exists groups'. by econstructor.
Qed.

(** ** The loops as updates *)

Lemma foldl_err {A B} (f : result A -> B -> result A) l e :
  (forall e b, f (Err e) b = Err e) -> foldl f (Err e) l = Err e.
Proof. intros Hf. induction l as [|b l IH]; simpl; [done|]. by rewrite Hf. Qed.

(** A loop that gets a group, may refuse it, and replaces it. *)
Lemma foldl_updates (one : result (list RolloutGroup) -> string -> result (list RolloutGroup))
    (R : RolloutGroup -> RolloutGroup -> Prop) names groups groups' :
  (forall e name, one (Err e) name = Err e) ->
  (forall gs name gs', one (Ok gs) name = Ok gs' <->
     exists i g g', getGroup gs name = Ok (i, g) /\ R g g' /\ gs' = <[i := g']> gs) ->
  foldl one (Ok groups) names = Ok groups' <-> updates R names groups groups'.
Proof.
  intros He Ho. revert groups. induction names as [|name names IH]; intros groups; simpl.
  - split; [intros [= <-]; constructor|inversion 1; congruence].
  - split.
    + destruct (one (Ok groups) name) as [gs|e] eqn:E; [|by rewrite foldl_err by done].
      apply Ho in E as (i & g & g' & Hg & HR & ->). intros Hf%IH. by econstructor.
    + inversion 1 as [|? ? ? i g g' ? Hg HR Hup]; subst.
      assert (one (Ok groups) name = Ok (<[i := g']> groups)) as -> by (apply Ho; eauto 7). by apply IH.
Qed.

Definition rolls_back (now : gotime) (g g' : RolloutGroup) : Prop :=
  g_State g <> GROUP_ROLLEDBACK /\ g' = setGroupState GROUP_ROLLEDBACK updateReasonManualRollback now g.

Definition forces_done (now : gotime) (g g' : RolloutGroup) : Prop :=
  g_State g ∈ [GROUP_UNSPECIFIED; GROUP_UNSTARTED; GROUP_ROLLEDBACK; GROUP_ACTIVE; GROUP_CANARY] /\
  g' = setGroupState GROUP_DONE updateReasonForcedDone now g.

Lemma rollback_updates now names groups groups' :
  foldl (rollback_one now) (Ok groups) names = Ok groups' <-> updates (rolls_back now) names groups groups'.
Proof.
  apply foldl_updates; [done|]. intros gs name gs'. unfold rollback_one. simpl.
  destruct (getGroup gs name) as [[i g]|e]; simpl; [|naive_solver]. destruct (Z.eqb_spec (g_State g) GROUP_ROLLEDBACK).
  - split; [done|]. intros (? & ? & ? & [= <- <-] & [? _] & _). done.
  - split; [intros [= <-]; eexists i, g, _; unfold rolls_back; eauto|]. intros (? & ? & ? & [= <- <-] & [_ ->] & ->). done.
Qed.

Lemma force_updates now names groups groups' :
  foldl (force_one now) (Ok groups) names = Ok groups' <-> updates (forces_done now) names groups groups'.
Proof.
  apply foldl_updates; [done|]. intros gs name gs'. unfold force_one, forceable. simpl.
  destruct (getGroup gs name) as [[i g]|e]; simpl; [|naive_solver].
  destruct (slices_Contains _ (g_State g)) eqn:Ec; simpl.
  - apply slices_Contains_true in Ec. split; [intros [= <-]; eexists i, g, _; by unfold forces_done|].
    intros (? & ? & ? & [= <- <-] & [_ ->] & ->). done.
  - split; [by destruct (g_State g =? GROUP_DONE)|]. intros (? & ? & ? & [= <- <-] & [Hin _] & _).
    apply slices_Contains_true in Hin. congruence.
Qed.

(** ** What a transition does *)

Section Manual.
Context `{MapOrder unit} `{!MapOrderLaws unit}.

Lemma range_names (set : GroupSet) : NoDup (fst <$> range set) /\ forall name, name ∈ (fst <$> range set) <-> name ∈ dom set.
Proof.
  assert (Hp : fst <$> range set ≡ₚ fst <$> map_to_list set) by (by rewrite (range_permutation set)).
  split; [rewrite Hp; apply NoDup_fst_map_to_list|]. intros name.
  rewrite Hp, list_elem_of_fmap, elem_of_dom. split.
  - intros ([k v] & -> & Hk%elem_of_map_to_list). by exists v.
  - intros [v Hv]. exists (name, v). by rewrite elem_of_map_to_list.
Qed.

(** The rollouts that can be changed by hand. *)
Record manual (r : AutoUpdateAgentRollout) : Prop := {
  man_schedule : sp_Schedule (GetSpec r) = AgentsScheduleRegular;
  man_strategy : sp_Strategy (GetSpec r) = AgentsStrategyHaltOnError;
  man_groups : GetGroups r <> [];
}.

Lemma transition_checks_ok r r' :
  transition_checks (Some r) = Ok r' <->
  r' = r /\ sp_Schedule (GetSpec r) = AgentsScheduleRegular /\ sp_Strategy (GetSpec r) = AgentsStrategyHaltOnError.
Proof.
  unfold transition_checks, checkSchedule, strategySupportsManualTransition.
  case_bool_decide as H1; [rewrite H1; split; [done|by intros (_ & [=] & _)]|].
  case_bool_decide as H2; [|split; [done|by intros (_ & ? & _)]]. simpl.
  case_bool_decide as H3; simpl; [|split; [done|by intros (_ & _ & ?)]].
  split; [intros [= <-]; done|by intros (-> & _)].
Qed.

(** The groups [set] names are changed by [R], and nothing else. *)
Definition changes (R : RolloutGroup -> RolloutGroup -> Prop) (set : GroupSet) (r r' : AutoUpdateAgentRollout) : Prop :=
  exists groups', r' = set_groups groups' r /\
    Forall2 (fun g g' => if decide (g_Name g ∈ dom set) then R g g' else g' = g) (GetGroups r) groups'.

Definition all_named (set : GroupSet) (r : AutoUpdateAgentRollout) : Prop :=
  forall name, name ∈ dom set -> name <> "" /\ exists g, g ∈ GetGroups r /\ g_Name g = name.

Section Loop.
Variable R : RolloutGroup -> RolloutGroup -> Prop.
Hypothesis R_name : forall g g', R g g' -> g_Name g' = g_Name g.
Variable set : GroupSet.

Lemma updates_set groups groups' : unique_names groups ->
  updates R (fst <$> range set) groups groups' ->
  Forall2 (fun g g' => if decide (g_Name g ∈ dom set) then R g g' else g' = g) groups groups' /\
  forall name, name ∈ dom set -> name <> "" /\ exists g, g ∈ groups /\ g_Name g = name.
Proof.
  destruct (range_names set) as [Hnd Hdom]. intros Hu [Hall H2]%updates_named; [|done..]. split.
  - eapply Forall2_impl; [exact H2|]. intros g g'. cbv beta.
    destruct (decide (g_Name g ∈ _)) as [Hx|Hx]; rewrite Hdom in Hx; [by rewrite decide_True|by rewrite decide_False].
  - intros name Hn%Hdom. rewrite Forall_forall in Hall. by apply Hall.
Qed.

Hypothesis R_fun : forall g a b, R g a -> R g b -> a = b.

Lemma changed_fun groups a b :
  Forall2 (fun g g' => if decide (g_Name g ∈ dom set) then R g g' else g' = g) groups a ->
  Forall2 (fun g g' => if decide (g_Name g ∈ dom set) then R g g' else g' = g) groups b -> a = b.
Proof.
  intros Ha. revert b. induction Ha as [|g x groups a Hx Ha IH]; intros b Hb; inversion Hb as [|? y ? b' Hy Hb']; subst; [done|].
  f_equal; [|by apply IH]. destruct (decide _); [by eapply R_fun|congruence].
Qed.

(** A loop of the named groups, forwards and backwards. *)
Lemma loop_changes (loop : list string -> result (list RolloutGroup)) r r' : unique_names (GetGroups r) ->
  (forall names groups', loop names = Ok groups' <-> updates R names (GetGroups r) groups') ->
  (let? groups := loop (fst <$> range set) in Ok (set_groups groups r)) = Ok r' <-> all_named set r /\ changes R set r r'.
Proof.
  intros Hu Hloop. destruct (range_names set) as [Hnd Hdom]. split.
  - destruct (loop (fst <$> range set)) as [groups'|e] eqn:E; [|done]. intros [= <-].
    apply Hloop, updates_set in E as [H2 Hall]; [|done]. split; [done|]. by exists groups'.
  - intros [Hall (groups' & -> & H2)].
    destruct (updates_exists R (fst <$> range set) (GetGroups r)) as [groups'' Hup]; [done..| |].
    { intros name Hn%Hdom. destruct (Hall name Hn) as (Hne & g & Hg & Hname). split; [done|].
      apply list_elem_of_lookup in Hg as [i Hi]. destruct (Forall2_lookup_l _ _ _ _ _ H2 Hi) as (g' & _ & Hx).
      rewrite decide_True in Hx by (by rewrite Hname). exists g, g'. split; [by eapply list_elem_of_lookup_2|done]. }
    assert (loop (fst <$> range set) = Ok groups'') as -> by (by apply Hloop). simpl. do 2 f_equal.
    apply updates_set in Hup as [H2' _]; [|done]. by eapply changed_fun.
Qed.
End Loop.

(** ** Trigger *)

(** What a trigger does to a named group. *)
Record triggers (desiredState : AutoUpdateAgentGroupState) (now : gotime) (g g' : RolloutGroup) : Prop := {
  tr_from : g_State g ∈ [GROUP_UNSPECIFIED; GROUP_UNSTARTED; GROUP_CANARY; GROUP_ROLLEDBACK];
  tr_to : g_State g' ∈ [GROUP_CANARY; GROUP_ACTIVE];
  tr_desired : desiredState <> GROUP_UNSPECIFIED -> g_State g' = desiredState;
  tr_config : same_config g g';
  tr_canaries : g_Canaries g' = g_Canaries g;
  tr_start : g_StartTime g' = if g_State g =? GROUP_CANARY then g_StartTime g else Some (t_Unix now);
}.

(** The desired state in the loop: the one that was asked, once it was
    resolved for a group. *)
Definition loop_state (desiredState s : AutoUpdateAgentGroupState) : Prop :=
  if desiredState =? GROUP_UNSPECIFIED then s ∈ [GROUP_UNSPECIFIED; GROUP_CANARY; GROUP_ACTIVE] else s = desiredState.

Lemma trigger_updates counts desiredState now names : forall groups s groups' s',
  desiredState ∈ [GROUP_UNSPECIFIED; GROUP_CANARY; GROUP_ACTIVE] -> loop_state desiredState s ->
  foldl (trigger_one counts now) (Ok (groups, s)) names = Ok (groups', s') ->
  updates (triggers desiredState now) names groups groups'.
Proof.
  induction names as [|name names IH]; intros groups s groups' s' Hd Hs; cbn [foldl]; [intros [= <- <-]; constructor|].
  destruct (trigger_one counts now (Ok (groups, s)) name) as [[gs s1]|e] eqn:E; [|by rewrite foldl_err by done].
  unfold trigger_one in E. simpl in E. destruct (getGroup groups name) as [[i g]|e] eqn:Eg; [|done]. simpl in E.
  destruct (named_counts groups counts name) as [n u]. destruct (triggerable name (g_State g)) as [[]|e] eqn:Et; [|done].
  simpl in E. injection E as <- <-. intros Hf.
  assert (Hfrom : g_State g ∈ [GROUP_UNSPECIFIED; GROUP_UNSTARTED; GROUP_CANARY; GROUP_ROLLEDBACK]).
  { unfold triggerable in Et. destruct (slices_Contains _ _) eqn:Ec; [by apply slices_Contains_true in Ec|].
    by destruct (g_State g =? GROUP_ACTIVE), (g_State g =? GROUP_DONE). }
  assert (Hr : resolve_state s g ∈ [GROUP_CANARY; GROUP_ACTIVE] /\
    (desiredState <> GROUP_UNSPECIFIED -> resolve_state s g = desiredState) /\ loop_state desiredState (resolve_state s g)).
  { unfold loop_state, resolve_state in *. destruct (Z.eqb_spec desiredState GROUP_UNSPECIFIED) as [->|Hne].
    - destruct (Z.eqb_spec s GROUP_UNSPECIFIED) as [->|]; [destruct (shouldUseCanaries g)|]; split_and!; set_solver.
    - subst s. destruct (Z.eqb_spec desiredState GROUP_UNSPECIFIED); [done|]. split_and!; set_solver. }
  destruct Hr as (Hto & Hdes & Hl). econstructor; [exact Eg| |by eapply IH].
  constructor; try done. unfold setGroupState, set_counts. simpl.
  assert (Hx : g_State g = GROUP_UNSPECIFIED \/ g_State g = GROUP_UNSTARTED \/ g_State g = GROUP_CANARY \/ g_State g = GROUP_ROLLEDBACK) by set_solver.
  assert (Hy : resolve_state s g = GROUP_CANARY \/ resolve_state s g = GROUP_ACTIVE) by set_solver.
  by destruct Hx as [-> | [-> | [-> | ->]]], Hy as [-> | ->].
Qed.

Lemma trigger_spec r r' reports set desiredState now : unique_names (GetGroups r) ->
  TriggerGroups (Some r) reports set desiredState now = Ok r' ->
  manual r /\ all_named set r /\ changes (triggers desiredState now) set r r'.
Proof.
  intros Hu. unfold TriggerGroups. destruct (transition_checks (Some r)) as [r0|e] eqn:Et; [|done].
  apply transition_checks_ok in Et as (-> & Hs & Hst). simpl. case_bool_decide as Hg; [done|].
  destruct (slices_Contains _ desiredState) eqn:Ed; [|done]. apply slices_Contains_true in Ed. simpl.
  destruct (foldl _ _ _) as [[groups' s']|e] eqn:E; [|done]. intros [= <-].
  apply (trigger_updates _ desiredState) in E; [|done|].
  2:{ unfold loop_state. by destruct (Z.eqb_spec desiredState GROUP_UNSPECIFIED). }
  apply updates_set in E as [H2 Hall]; [|by intros ?? [? ? ? (? & _)]|done].
  split; [done|]. split; [done|]. by exists groups'.
Qed.

(** ** The two transitions to a fixed state *)

Lemma rollback_spec r r' set now : unique_names (GetGroups r) ->
  RollbackGroups (Some r) set now = Ok r' <-> manual r /\ all_named set r /\ changes (rolls_back now) set r r'.
Proof.
  intros Hu. unfold RollbackGroups. destruct (transition_checks (Some r)) as [r0|e] eqn:Et.
  2:{ split; [done|]. intros ([? ? _] & _). assert (transition_checks (Some r) = Ok r) by (by apply transition_checks_ok). congruence. }
  apply transition_checks_ok in Et as (-> & Hs & Hst). simpl. case_bool_decide as Hg; [split; [done|by intros ([] & _)]|].
  rewrite (loop_changes (rolls_back now)); [| | |done|intros names groups'; apply rollback_updates].
  - split; [intros ?; split; [done|done]|tauto].
  - by intros g g' [_ ->].
  - intros g a b [_ ->] [_ ->]. done.
Qed.

Lemma force_spec r r' set now : unique_names (GetGroups r) ->
  ForceGroupsDone (Some r) set now = Ok r' <-> manual r /\ all_named set r /\ changes (forces_done now) set r r'.
Proof.
  intros Hu. unfold ForceGroupsDone. destruct (transition_checks (Some r)) as [r0|e] eqn:Et.
  2:{ split; [done|]. intros ([? ? _] & _). assert (transition_checks (Some r) = Ok r) by (by apply transition_checks_ok). congruence. }
  apply transition_checks_ok in Et as (-> & Hs & Hst). simpl. case_bool_decide as Hg; [split; [done|by intros ([] & _)]|].
  rewrite (loop_changes (forces_done now)); [| | |done|intros names groups'; apply force_updates].
  - split; [intros ?; split; [done|done]|tauto].
  - by intros g g' [_ ->].
  - intros g a b [_ ->] [_ ->]. done.
Qed.
End Manual.

(** ** A rolled back group holds the ones behind it *)

Section Held.
Context `{UnicodeTables} `{SemVer} `{RolloutClient}.

(** One pass of the halt-on-error strategy, with any reports, time and
    specification. *)
Definition halting_pass (groups groups' : list RolloutGroup) : Prop :=
  exists fuel spec startTime now r, progress_haltOnError fuel spec startTime groups now = (groups', r).

(** What a later pass may have done: rolled back groups are, and what is
    unstarted behind one is still unstarted. *)
Definition held (groups groups' : list RolloutGroup) : Prop :=
  length groups = length groups' /\
  (forall i g g', groups !! i = Some g -> groups' !! i = Some g' ->
     same_config g g' /\ (g_State g = GROUP_ROLLEDBACK -> g_State g' = GROUP_ROLLEDBACK)) /\
  (forall i j b g g', (i < j)%nat -> groups !! i = Some b -> g_State b = GROUP_ROLLEDBACK ->
     groups !! j = Some g -> groups' !! j = Some g' -> g_State g = GROUP_UNSTARTED -> g_State g' = GROUP_UNSTARTED).

Lemma held_pass groups groups' : halting_pass groups groups' -> held groups groups'.
Proof.
  intros (fuel & spec & startTime & now & r & Hp). unfold progress_haltOnError in Hp.
  destruct (reports_or_none fuel now) as [reports|e].
  2:{ injection Hp as <- <-. split; [done|]. split; [|congruence]. intros i g g' Hg Hg'. by simplify_eq. }
  apply progress_groups_pass in Hp. pose proof (pass_moves _ _ _ _ _ _ _ Hp) as Hm. split; [by eapply Forall2_length|].
  split.
  - intros i g g' Hg Hg'. destruct (Forall2_lookup_lr _ _ _ _ _ _ Hm Hg Hg') as (Hc & _ & Hf). split; [done|].
    intros Hs. rewrite Hf; auto.
  - intros i j b g g' Hlt Hb Hbs Hg Hg' Hu. destruct (decide (g_State g' = GROUP_UNSTARTED)) as [|Hn]; [done|].
    destruct (pass_start _ _ _ _ _ _ _ _ _ _ Hp Hg Hg' Hu Hn) as (_ & Hd & _).
    destruct (Forall2_lookup_l _ _ _ _ _ Hm Hb) as (b' & Hb' & _ & _ & Hf).
    specialize (Hd i b' Hlt Hb'). rewrite Hf in Hd by auto. rewrite Hbs in Hd. done.
Qed.

Lemma held_trans a b c : held a b -> held b c -> held a c.
Proof.
  intros (L1 & M1 & N1) (L2 & M2 & N2). split; [congruence|].
  assert (Hmid : forall i x z, a !! i = Some x -> c !! i = Some z -> exists y, b !! i = Some y).
  { intros i x z Hx Hz. apply lookup_lt_is_Some. rewrite <- L1. by eapply lookup_lt_Some. }
  split.
  - intros i x z Hx Hz. destruct (Hmid i x z Hx Hz) as [y Hy].
    destruct (M1 i x y Hx Hy) as [C1 R1], (M2 i y z Hy Hz) as [C2 R2]. split; [by transitivity y|auto].
  - intros i j u x z Hlt Hu Hus Hx Hz Hxs. destruct (Hmid j x z Hx Hz) as [y Hy].
    destruct (lookup_lt_is_Some_2 b i) as [v Hv]; [rewrite <- L1; by eapply lookup_lt_Some|].
    eapply (N2 i j v y z Hlt Hv); [|done|done|eapply (N1 i j u x y); eauto].
    by apply (M1 i u v).
Qed.

Lemma held_passes groups groups' : rtc halting_pass groups groups' -> held groups groups'.
Proof.
  induction 1 as [groups|a b c Hab _ IH]; [|by eapply held_trans; [apply held_pass|]].
  split; [done|]. split; [|congruence]. intros i g g' Hg Hg'. by simplify_eq.
Qed.
End Held.
