(* ===== verification/RolloutReconciler.v ===== *)
(** * The reconciler: [lib/autoupdate/rollout/reconciler.go], [controller.go],
    and the manual transitions of the server
    ([lib/auth/autoupdate/autoupdatev1/service.go])

    From the configuration and the version it computes the specification and
    the next status of the rollout, and writes them if they changed.  Several
    servers do so at the same time: a write names the revision it read, and a
    conflict starts over, three times at most.

    [RolloutStore] is the client over a world [W]; [RolloutStoreLaws] is what
    its writes promise, for any interference [others] of the other servers. *)

From S2P Require Import Prelude GoStrings Utf8 Types Memory Autoupdate Rollout RolloutTransitions.

(** ** The client *)

(** [AgentUpgradeWindow] of the maintenance configuration *)
Record AgentUpgradeWindow := {
  uw_UTCStartHour : Z;       (* uint32 *)
  uw_Weekdays : list string;
}.

Record rollout_event := {
  re_Type : string;
  re_Groups : list string;
  re_Success : bool;
}.

(** [ClusterMaintenance] gives the window the configuration has, if any;
    [ContextErr] is the error of a context that is over. *)
Class RolloutStore (W : Type) := {
  GetAutoUpdateConfig : M W AutoUpdateConfig;
  GetAutoUpdateVersion : M W AutoUpdateVersion;
  GetAutoUpdateAgentRollout : M W AutoUpdateAgentRollout;
  CreateAutoUpdateAgentRollout : AutoUpdateAgentRollout -> M W AutoUpdateAgentRollout;
  UpdateAutoUpdateAgentRollout : AutoUpdateAgentRollout -> M W AutoUpdateAgentRollout;
  DeleteAutoUpdateAgentRollout : M W unit;
  GetClusterMaintenance : M W (option AgentUpgradeWindow);
  ClockNow : M W gotime;
  ContextErr : W -> option error;
  EmitAuditEvent : rollout_event -> W -> W;
}.

Definition IsCompareFailed (e : error) : bool := bool_decide (e_class e = KCompareFailed).

(** A missing resource is no error. *)
Definition unless_missing {W A} (m : M W A) : M W (option A) :=
  let* r := mtry m in
  match r with
  | Ok a => mret (Some a)
  | Err e => if IsNotFound e then mret None else mfail e
  end.

(** ** The specification *)

Definition defaultConfigMode := AgentsUpdateModeEnabled.
Definition defaultStrategy := AgentsStrategyHaltOnError.
Definition maxConflictRetry : nat := 3.
Definition defaultGroupName := "default".
Definition defaultCMCGroupName := defaultGroupName +:+ "-cmc".
Definition defaultStartHour : Z := 12.
Definition defaultUpdateDays : list string := ["Mon"; "Tue"; "Wed"; "Thu"].

Definition agentModeCode : gmap string Z :=
  list_to_map [(AgentsUpdateModeDisabled, 1); (AgentsUpdateModeSuspended, 2); (AgentsUpdateModeEnabled, 3)].
Definition codeToAgentMode : gmap Z string :=
  list_to_map [(1, AgentsUpdateModeDisabled); (2, AgentsUpdateModeSuspended); (3, AgentsUpdateModeEnabled)].

Definition getMode (configMode versionMode : string) : result string :=
  let configMode := if bool_decide (configMode = "") then defaultConfigMode else configMode in
  fail_if bool_decide (versionMode = "") with BadParameter "version mode empty" [];
  match agentModeCode !! configMode with
  | None => Err (BadParameter "unsupported agent config mode: %v" [configMode])
  | Some configCode =>
      match agentModeCode !! versionMode with
      | None => Err (BadParameter "unsupported agent version mode: %v" [versionMode])
      | Some versionCode =>
          if configCode <=? versionCode then Ok (default "" (codeToAgentMode !! configCode))
          else Ok (default "" (codeToAgentMode !! versionCode))
      end
  end.

(** The getters of a configuration without a part for agents. *)
Definition no_agents : AutoUpdateConfigSpecAgents :=
  {| ca_Mode := ""; ca_Strategy := ""; ca_MaintenanceWindowDuration := None; ca_Schedules := None |}.

Definition config_agents (config : option AutoUpdateConfig) : AutoUpdateConfigSpecAgents :=
  default no_agents (c ← config; spec ← cfg_Spec c; cs_Agents spec).

Definition version_agents (version : option AutoUpdateVersion) : option AutoUpdateVersionSpecAgents :=
  v ← version; spec ← ver_Spec v; vs_Agents spec.

Definition buildRolloutSpec (config : AutoUpdateConfigSpecAgents) (version : AutoUpdateVersionSpecAgents)
  : result RolloutSpec :=
  let? mode := getMode (ca_Mode config) (va_Mode version) in
  let strategy := if bool_decide (ca_Strategy config = "") then defaultStrategy else ca_Strategy config in
  Ok {| sp_StartVersion := va_StartVersion version; sp_TargetVersion := va_TargetVersion version;
        sp_Schedule := va_Schedule version; sp_AutoupdateMode := mode; sp_Strategy := strategy;
        sp_MaintenanceWindowDuration := ca_MaintenanceWindowDuration config |}.

(** ** The status *)

Definition defaultGroup : AgentAutoUpdateGroup :=
  {| ag_Name := defaultGroupName; ag_Days := defaultUpdateDays; ag_StartHour := defaultStartHour;
     ag_WaitHours := 0; ag_CanaryCount := 0 |}.

(** The group of a configured group. *)
Definition make_group (now : gotime) (group : AgentAutoUpdateGroup) : RolloutGroup :=
  {| g_Name := ag_Name group; g_StartTime := None; g_State := GROUP_UNSTARTED;
     g_LastUpdateTime := Some (t_Unix now); g_LastUpdateReason := updateReasonCreated;
     g_ConfigDays := ag_Days group; g_ConfigStartHour := ag_StartHour group;
     g_ConfigWaitHours := ag_WaitHours group; g_InitialCount := 0; g_PresentCount := 0;
     g_UpToDateCount := 0; g_CanaryCount := uint64 (ag_CanaryCount group); g_Canaries := [] |}.

(** What makes the status start over. *)
Definition shouldResetRollout (existing newSpec : RolloutSpec) : bool :=
  negb (bool_decide (sp_StartVersion existing = sp_StartVersion newSpec)) ||
  negb (bool_decide (sp_TargetVersion existing = sp_TargetVersion newSpec)) ||
  negb (bool_decide (sp_Schedule existing = sp_Schedule newSpec)) ||
  negb (bool_decide (sp_Strategy existing = sp_Strategy newSpec)).

(** The status the computation starts from: a new one, or a copy. *)
Definition base_status (reset : bool) (existing : option RolloutStatus) (now : time) : RolloutStatus :=
  match existing, reset with
  | Some status, false => status
  | _, _ => {| st_Groups := []; st_State := ROLLOUT_UNSPECIFIED; st_StartTime := Some now; st_TimeOverride := None |}
  end.

(** An override that is set replaces the clock: neither zero counts. *)
Definition status_now (status : RolloutStatus) (now : gotime) : gotime :=
  let timeOverride := AsTime (st_TimeOverride status) in
  if negb (timeOverride =? zero_time) && negb (timeOverride / Second =? 0) then UTC timeOverride else now.

Definition with_groups (groups : list RolloutGroup) (status : RolloutStatus) : RolloutStatus :=
  {| st_Groups := groups; st_State := st_State status; st_StartTime := st_StartTime status;
     st_TimeOverride := st_TimeOverride status |}.

Definition with_state (state : AutoUpdateAgentRolloutState) (status : RolloutStatus) : RolloutStatus :=
  {| st_Groups := st_Groups status; st_State := state; st_StartTime := st_StartTime status;
     st_TimeOverride := st_TimeOverride status |}.

Section Reconciler.
Context {W : Type} `{RolloutStore W} `{UnicodeTables} `{SemVer} `{RolloutClient}.

Definition defaultConfigGroup : M W AgentAutoUpdateGroup :=
  let* cmc := unless_missing GetClusterMaintenance in
  match cmc with
  | None | Some None => mret defaultGroup
  | Some (Some upgradeWindow) =>
      let weekdays := if bool_decide (uw_Weekdays upgradeWindow = []) then ["*"] else uw_Weekdays upgradeWindow in
      mret {| ag_Name := defaultCMCGroupName; ag_Days := weekdays;
              ag_StartHour := int32 (uw_UTCStartHour upgradeWindow); ag_WaitHours := 0; ag_CanaryCount := 0 |}
  end.

Definition makeGroupsStatus (schedules : option (list AgentAutoUpdateGroup)) (now : gotime) : M W (list RolloutGroup) :=
  let configGroups := default [] schedules in
  let* configGroups :=
    if bool_decide (configGroups = []) then let* defaultGroup := defaultConfigGroup in mret [defaultGroup]
    else mret configGroups in
  mret (make_group now <$> configGroups).

(** The groups of the status before this pass. *)
Definition status_groups (status : RolloutStatus) (schedules : option (list AgentAutoUpdateGroup)) (now : gotime)
  : M W (list RolloutGroup) :=
  if bool_decide (st_Groups status = []) then makeGroupsStatus schedules now else mret (st_Groups status).

(** The end of [computeStatus]: errors of the pass are only logged. *)
Definition progress_status (fuel : nat) (spec : RolloutSpec) (status : RolloutStatus) (groups : list RolloutGroup)
    (now : gotime) : RolloutStatus :=
  let groups := (progressRollout fuel spec (st_StartTime status) groups now).1 in
  with_state (computeRolloutState groups) (with_groups groups status).

Definition computeStatus (fuel : nat) (existingRollout : option AutoUpdateAgentRollout) (newSpec : RolloutSpec)
    (configSchedules : option (list AgentAutoUpdateGroup)) : M W RolloutStatus :=
  let existingSpec := match existingRollout with Some r => GetSpec r | None => no_spec end in
  let existingStatus := r ← existingRollout; ro_Status r in
  let reset := shouldResetRollout existingSpec newSpec in
  let* start := if reset || bool_decide (existingStatus = None) then ClockNow else mret (UTC 0) in
  let status := base_status reset existingStatus (t_Unix start) in
  if bool_decide (sp_Schedule newSpec = AgentsScheduleImmediate) then mret (with_groups [] status)
  else if bool_decide (sp_Schedule newSpec = AgentsScheduleRegular) then
    let* clock := ClockNow in
    let now := status_now status clock in
    let* groups := status_groups status configSchedules now in
    mret (progress_status fuel newSpec status groups now)
  else mfail (BadParameter "unsupported agent schedule type %q" [sp_Schedule newSpec]).

(** ** One reconciliation *)

Definition nil_pointer : error := Error KOther "runtime error: invalid memory address or nil pointer dereference" [] [].

(** The status of a rollout that is not there panics. *)
Definition new_rollout (newSpec : RolloutSpec) (newStatus : RolloutStatus) : result AutoUpdateAgentRollout :=
  match NewAutoUpdateAgentRollout (Some newSpec) with
  | Err _ => Err nil_pointer
  | Ok r => Ok {| ro_Metadata := ro_Metadata r; ro_Revision := ro_Revision r; ro_Spec := ro_Spec r;
                  ro_Status := Some newStatus |}
  end.

Definition changed_rollout (r : AutoUpdateAgentRollout) (newSpec : RolloutSpec) (newStatus : RolloutStatus)
  : AutoUpdateAgentRollout :=
  {| ro_Metadata := ro_Metadata r; ro_Revision := ro_Revision r; ro_Spec := Some newSpec; ro_Status := Some newStatus |}.

Definition tryReconcile (fuel : nat) : M W unit :=
  let* config := unless_missing GetAutoUpdateConfig in
  let* version := unless_missing GetAutoUpdateVersion in
  let* rollout := unless_missing GetAutoUpdateAgentRollout in
  match version_agents version with
  | None =>
      match rollout with
      | None => mret tt
      | Some _ => DeleteAutoUpdateAgentRollout
      end
  | Some version =>
      let* newSpec := mlift (buildRolloutSpec (config_agents config) version) in
      let* newStatus := computeStatus fuel rollout newSpec (ca_Schedules (config_agents config)) in
      if bool_decide ((r ← rollout; ro_Spec r) = Some newSpec /\ (r ← rollout; ro_Status r) = Some newStatus)
      then mret tt
      else match rollout with
      | None =>
          let* r := mlift (new_rollout newSpec newStatus) in
          do* CreateAutoUpdateAgentRollout r; mret tt
      | Some r =>
          let r := changed_rollout r newSpec newStatus in
          do* mlift (ValidateAutoUpdateAgentRollout (Some r));
          do* UpdateAutoUpdateAgentRollout r; mret tt
      end
  end.

(** The tries that are left. *)
Fixpoint reconcile_tries (fuel tries : nat) : M W unit :=
  match tries with
  | O => mfail (CompareFailed "compare failed, tried %d times, last error: %s" [])
  | S tries' => fun w =>
      match ContextErr w with
      | Some e => (w, Err e)
      | None =>
          match tryReconcile fuel w with
          | (w, Ok _) => (w, Ok tt)
          | (w, Err e) => if IsCompareFailed e || IsNotFound e then reconcile_tries fuel tries' w else (w, Err e)
          end
      end
  end.

Definition reconcile (fuel : nat) : M W unit := reconcile_tries fuel maxConflictRetry.

(** ** The manual transitions of the server *)

Definition maxTries : nat := 3.

(** Get, change, update; a conflict tries again. *)
Fixpoint update_tries (tries : nat) (change : AutoUpdateAgentRollout -> M W AutoUpdateAgentRollout)
  : M W AutoUpdateAgentRollout :=
  match tries with
  | O => mfail (Error KOther "max update tries exceeded" [] [])
  | S tries' =>
      let* existingRollout := GetAutoUpdateAgentRollout in
      let* existingRollout := change existingRollout in
      let* r := mtry (UpdateAutoUpdateAgentRollout existingRollout) in
      match r with
      | Ok newRollout => mret newRollout
      | Err e => if IsCompareFailed e then update_tries tries' change else mfail e
      end
  end.

(** The audit event is emitted at the end, whatever happened. *)
Definition audited {A} (ty : string) (groups : list string) (m : M W A) : M W A := fun w =>
  let '(w, r) := m w in
  (EmitAuditEvent {| re_Type := ty; re_Groups := groups; re_Success := is_ok r |} w, r).

Context `{MapOrder unit}.

(** [authorized] is what the checks of the caller say. *)
Definition TriggerAutoUpdateAgentGroup (authorized : result unit) (fuel : nat) (groups : list string)
    (desiredState : AutoUpdateAgentGroupState) : M W AutoUpdateAgentRollout :=
  do* mlift authorized;
  audited "auto_update_agent_rollout.trigger" groups
    (update_tries maxTries (fun existing =>
       let* reports := mlift (getAllReports fuel) in
       let* now := ClockNow in
       mlift (TriggerGroups (Some existing) reports (GroupListToGroupSet groups) desiredState now))).

Definition ForceAutoUpdateAgentGroup (authorized : result unit) (groups : list string) : M W AutoUpdateAgentRollout :=
  do* mlift authorized;
  audited "auto_update_agent_rollout.force_done" groups
    (update_tries maxTries (fun existing =>
       let* now := ClockNow in mlift (ForceGroupsDone (Some existing) (GroupListToGroupSet groups) now))).

Definition RollbackAutoUpdateAgentGroup (authorized : result unit) (groups : list string) (allStarted : bool)
  : M W AutoUpdateAgentRollout :=
  do* mlift authorized;
  deny_if bool_decide (groups = []) && negb allStarted
    with BadParameter "at least one group must be specified or the all_started_groups flag set" [];
  audited "auto_update_agent_rollout.rollback" groups
    (update_tries maxTries (fun existing =>
       let set := GroupListToGroupSet groups in
       let set := if allStarted then GetStartedGroups existing ∪ set else set in
       deny_if bool_decide (set = ∅) with AlreadyExists "no groups to rollback" [];
       let* now := ClockNow in mlift (RollbackGroups (Some existing) set now))).
End Reconciler.

(** ** What the writes promise *)

(** [stored] is the rollout in the backend, [others] what other servers may do
    between two calls: a revision they leave stands for the same rollout.
    Writes are validated first. *)
Class RolloutStoreLaws (W : Type) `{RolloutStore W} `{UnicodeTables} `{SemVer}
    (stored : W -> option AutoUpdateAgentRollout) (others : W -> W -> Prop) : Prop := {
  others_preorder :: PreOrder others;
  others_revision w w' r r' : others w w' -> stored w = Some r -> stored w' = Some r' ->
    ro_Revision r = ro_Revision r' -> r = r';
  get_config_others : step_in others GetAutoUpdateConfig;
  get_version_others : step_in others GetAutoUpdateVersion;
  get_rollout_others : step_in others GetAutoUpdateAgentRollout;
  get_maintenance_others : step_in others GetClusterMaintenance;
  clock_others : step_in others ClockNow;
  emit_others ev w : others w (EmitAuditEvent ev w);
  emit_stored ev w : stored (EmitAuditEvent ev w) = stored w;
  get_rollout_ok w w' r : GetAutoUpdateAgentRollout w = (w', Ok r) -> stored w' = Some r;
  get_rollout_missing w w' e : GetAutoUpdateAgentRollout w = (w', Err e) -> IsNotFound e = true -> stored w' = None;
  create_rollout_ok w w' r r' : CreateAutoUpdateAgentRollout r w = (w', Ok r') ->
    exists w1, others w w1 /\ stored w1 = None /\ stored w' = Some r' /\
      ro_Spec r' = ro_Spec r /\ ro_Status r' = ro_Status r /\ ValidateAutoUpdateAgentRollout (Some r) = Ok tt;
  create_rollout_err w w' r e : CreateAutoUpdateAgentRollout r w = (w', Err e) -> others w w';
  update_rollout_ok w w' r r' : UpdateAutoUpdateAgentRollout r w = (w', Ok r') ->
    exists w1 r0, others w w1 /\ stored w1 = Some r0 /\ ro_Revision r0 = ro_Revision r /\ stored w' = Some r' /\
      ro_Spec r' = ro_Spec r /\ ro_Status r' = ro_Status r /\ ValidateAutoUpdateAgentRollout (Some r) = Ok tt;
  update_rollout_err w w' r e : UpdateAutoUpdateAgentRollout r w = (w', Err e) -> others w w';
  delete_rollout_ok w w' u : DeleteAutoUpdateAgentRollout w = (w', Ok u) ->
    exists w1 r0, others w w1 /\ stored w1 = Some r0 /\ stored w' = None;
  delete_rollout_err w w' e : DeleteAutoUpdateAgentRollout w = (w', Err e) -> others w w';
}.

#[export] Hint Resolve get_config_others get_version_others get_rollout_others get_maintenance_others clock_others : go.
