(* ===== verification/RolloutSteps.v ===== *)
(** * Reconciliations as atomic steps

    Over any store that keeps its laws, what a reconciliation or a manual
    transition does is one step from the rollout it replaces, whatever the
    other servers did before it; a try that failed wrote nothing. *)

From S2P Require Import Prelude GoStrings Utf8 Types Autoupdate Rollout RolloutFacts.
From S2P Require Import RolloutTransitions RolloutManual RolloutReconciler.

(** Reasons about a step that succeeded: the state before each call. *)
Lemma step_in_ok {S A} (R : S -> S -> Prop) (m : M S A) s s' r : step_in R m -> m s = (s', r) -> R s s'.
Proof. intros Hm. apply Hm. Qed.

Section Steps.
Context {W : Type} {RS : RolloutStore W} {UT : UnicodeTables} {SV : SemVer} {RC : RolloutClient}.
Context (stored : W -> option AutoUpdateAgentRollout) (others : W -> W -> Prop).
Context {LW : RolloutStoreLaws W stored others}.

Lemma unless_missing_others {A} (m : M W A) : step_in others m -> step_in others (unless_missing m).
Proof. intros Hm. unfold unless_missing. step_in_auto. Qed.

Lemma unless_missing_ok {A} (m : M W A) w w' o : unless_missing m w = (w', Ok o) ->
  match o with
  | Some a => m w = (w', Ok a)
  | None => exists e, m w = (w', Err e) /\ IsNotFound e = true
  end.
Proof.
  unfold unless_missing, mthen, mtry. destruct (m w) as [w1 [a|e]]; [by intros [= <- <-]|].
  destruct (IsNotFound e) eqn:E; [|done]. intros [= <- <-]. eauto.
Qed.

Lemma get_rollout_stored w w' o : unless_missing GetAutoUpdateAgentRollout w = (w', Ok o) -> stored w' = o.
Proof.
  intros Ho%unless_missing_ok. destruct o as [r|]; [by eapply get_rollout_ok|].
  destruct Ho as (e & He & Hn). by eapply get_rollout_missing.
Qed.

Lemma computeStatus_others fuel existing newSpec schedules : step_in others (computeStatus fuel existing newSpec schedules).
Proof.
  unfold computeStatus, status_groups, makeGroupsStatus, defaultConfigGroup.
  step_in_auto; try apply clock_others. apply unless_missing_others, get_maintenance_others.
Qed.

(** ** What is computed *)

(** The specification and the status the code wants for the rollout
    [existing], and what it read for them: [readings] leaves the state of the
    other servers aside. *)
Record computed (fuel : nat) (existing : option AutoUpdateAgentRollout) (spec : RolloutSpec) (status : RolloutStatus)
    (config : AutoUpdateConfigSpecAgents) (version : AutoUpdateVersionSpecAgents) : Prop := {
  c_spec : buildRolloutSpec config version = Ok spec;
  c_status : exists wa wb, computeStatus fuel existing spec (ca_Schedules config) wa = (wb, Ok status);
}.

Definition desired (fuel : nat) (existing : option AutoUpdateAgentRollout) (r : AutoUpdateAgentRollout) : Prop :=
  exists spec status config version, computed fuel existing spec status config version /\
    ro_Spec r = Some spec /\ ro_Status r = Some status.

(** The groups of a rollout that was validated. *)
Definition valid_groups (r : AutoUpdateAgentRollout) : Prop :=
  check_rollout_groups (sp_Strategy (GetSpec r)) 0 ∅ (GetGroups r) = Ok tt.

Lemma validate_groups r : ValidateAutoUpdateAgentRollout (Some r) = Ok tt -> valid_groups r.
Proof.
  unfold valid_groups, GetSpec, ValidateAutoUpdateAgentRollout. destruct (ro_Metadata r); [|done].
  destruct (ro_Spec r) as [spec|]; intros Hv; inv_ok; done.
Qed.

Lemma valid_groups_same r r' : ro_Spec r' = ro_Spec r -> ro_Status r' = ro_Status r -> valid_groups r -> valid_groups r'.
Proof. unfold valid_groups, GetSpec, GetGroups. by intros -> ->. Qed.

(** What a manual transition does to a rollout. *)
Context {MO : MapOrder unit}.

Inductive manual_change (r0 r : AutoUpdateAgentRollout) : Prop :=
| manual_trigger reports set desiredState now :
    TriggerGroups (Some r0) reports set desiredState now = Ok r -> manual_change r0 r
| manual_force set now : ForceGroupsDone (Some r0) set now = Ok r -> manual_change r0 r
| manual_rollback set now : RollbackGroups (Some r0) set now = Ok r -> manual_change r0 r.

(** One change of the rollout in the backend, by any server. *)
Inductive rollout_change : option AutoUpdateAgentRollout -> option AutoUpdateAgentRollout -> Prop :=
| change_delete r0 : rollout_change (Some r0) None
| change_create fuel r : desired fuel None r -> valid_groups r -> rollout_change None (Some r)
| change_update fuel r0 r : desired fuel (Some r0) r -> valid_groups r -> rollout_change (Some r0) (Some r)
| change_manual r0 n r : manual_change r0 n -> ro_Spec r = ro_Spec n -> ro_Status r = ro_Status n -> valid_groups r ->
    rollout_change (Some r0) (Some r).

(** Nothing to do for this rollout. *)
Definition settled (fuel : nat) (o : option AutoUpdateAgentRollout) : Prop :=
  match o with Some r => desired fuel (Some r) r | None => True end.

(** A reconciliation that succeeded: after what the others did, at most one
    change, and otherwise the rollout was as it should be. *)
Definition reconciled (fuel : nat) (w w' : W) : Prop :=
  exists w1, others w w1 /\
    ((settled fuel (stored w1) /\ others w1 w') \/ rollout_change (stored w1) (stored w')).

Lemma reconciled_before fuel w w1 w' : others w w1 -> reconciled fuel w1 w' -> reconciled fuel w w'.
Proof. intros Hw (w2 & Ho & Hc). exists w2. split; [by transitivity w1|done]. Qed.

(** The writes at the end of a try. *)
Lemma create_step fuel w wr w' spec status config version r :
  others w wr -> computed fuel None spec status config version ->
  (let* r := mlift (new_rollout spec status) in do* CreateAutoUpdateAgentRollout r; mret tt) wr = (w', r) ->
  match r with Ok _ => reconciled fuel w w' | Err _ => others w w' end.
Proof.
  intros Hw Hc. unfold mthen, mlift, mret.
  destruct (new_rollout spec status) as [n|e] eqn:En; [|by intros [= <- <-]].
  destruct (CreateAutoUpdateAgentRollout n wr) as [w2 [n'|e]] eqn:Ec; intros [= <- <-].
  - apply create_rollout_ok in Ec as (w1 & Ho & Hn & Hs & Es & Est & Hv).
    assert (Hr : ro_Spec n = Some spec /\ ro_Status n = Some status).
    { unfold new_rollout, NewAutoUpdateAgentRollout in En. destruct (ValidateAutoUpdateAgentRollout _); [|done].
      simpl in En. by injection En as <-. }
    exists w1. split; [by transitivity wr|]. right. rewrite Hn, Hs. apply (change_create fuel).
    + exists spec, status, config, version. by rewrite Es, Est.
    + by eapply valid_groups_same, validate_groups.
  - transitivity wr; [done|by eapply create_rollout_err].
Qed.

Lemma update_step fuel w wr w' r0 spec status config version r :
  others w wr -> (forall w1 r1, others wr w1 -> stored w1 = Some r1 -> ro_Revision r1 = ro_Revision r0 -> r1 = r0) ->
  computed fuel (Some r0) spec status config version ->
  (let r := changed_rollout r0 spec status in
   do* mlift (ValidateAutoUpdateAgentRollout (Some r)); do* UpdateAutoUpdateAgentRollout r; mret tt) wr = (w', r) ->
  match r with Ok _ => reconciled fuel w w' | Err _ => others w w' end.
Proof.
  intros Hw Hrev Hc. cbv zeta. unfold mthen, mlift, mret. set (n := changed_rollout r0 spec status).
  destruct (ValidateAutoUpdateAgentRollout (Some n)) as [u|e] eqn:En; [|by intros [= <- <-]].
  destruct (UpdateAutoUpdateAgentRollout n wr) as [w2 [n'|e]] eqn:Eu; intros [= <- <-].
  - apply update_rollout_ok in Eu as (w1 & r1 & Ho & Hs1 & Hr1 & Hs & Es & Est & Hv).
    assert (r1 = r0) as -> by (by eapply Hrev).
    exists w1. split; [by transitivity wr|]. right. rewrite Hs1, Hs. apply (change_update fuel).
    + exists spec, status, config, version. by rewrite Es, Est.
    + by eapply valid_groups_same, validate_groups.
  - transitivity wr; [done|by eapply update_rollout_err].
Qed.

Lemma tryReconcile_step fuel w w' r : tryReconcile fuel w = (w', r) ->
  match r with Ok _ => reconciled fuel w w' | Err _ => others w w' end.
Proof.
  unfold tryReconcile. unfold mthen at 1. destruct (unless_missing GetAutoUpdateConfig w) as [wc [config|e]] eqn:E1;
    pose proof (step_in_ok _ _ _ _ _ (unless_missing_others _ get_config_others) E1) as H1; [|by intros [= <- <-]].
  unfold mthen at 1. destruct (unless_missing GetAutoUpdateVersion wc) as [wv [version|e]] eqn:E2;
    pose proof (step_in_ok _ _ _ _ _ (unless_missing_others _ get_version_others) E2) as H2;
    (assert (Hv : others w wv) by (by transitivity wc)); [|by intros [= <- <-]].
  unfold mthen at 1. destruct (unless_missing GetAutoUpdateAgentRollout wv) as [wr [rollout|e]] eqn:E3;
    pose proof (step_in_ok _ _ _ _ _ (unless_missing_others _ get_rollout_others) E3) as H3;
    (assert (Hr : others w wr) by (by transitivity wv)); [|by intros [= <- <-]].
  apply get_rollout_stored in E3. clear H1 H2 H3 E1 E2 Hv.
  destruct (version_agents version) as [v|].
  2:{ destruct rollout as [r0|]; [|intros [= <- <-]; exists wr; rewrite E3; split; [done|by left]].
      intros Hd. destruct r.
      - apply delete_rollout_ok in Hd as (w1 & r1 & ? & Hs1 & Hs). exists w1. split; [by transitivity wr|].
        right. rewrite Hs1, Hs. constructor.
      - transitivity wr; [done|by eapply delete_rollout_err]. }
  unfold mthen at 1. unfold mlift at 1. destruct (buildRolloutSpec _ v) as [spec|e] eqn:Es; [|by intros [= <- <-]].
  unfold mthen at 1. destruct (computeStatus _ _ _ _ wr) as [ws [status|e]] eqn:Ec;
    pose proof (step_in_ok _ _ _ _ _ (computeStatus_others _ _ _ _) Ec) as Hs;
    (assert (Hw : others w ws) by (by transitivity wr)); [|by intros [= <- <-]].
  assert (Hc : computed fuel rollout spec status (config_agents config) v) by (split; eauto).
  case_bool_decide as Hsame.
  - intros [= <- <-]. destruct rollout as [r0|]; [|by destruct Hsame]. destruct Hsame as [Hs1 Hs2].
    exists wr. split; [done|]. left. split; [|done]. rewrite E3. by exists spec, status, (config_agents config), v.
  - destruct rollout as [r0|]; [|by eapply create_step].
    eapply update_step; [exact Hw| |exact Hc]. intros w1 r1 Ho Hs1 Hr1. symmetry. eapply (others_revision wr w1); [|done..|done].
    by transitivity ws.
Qed.

Lemma reconcile_tries_step fuel tries w w' r : reconcile_tries fuel tries w = (w', r) ->
  match r with Ok _ => reconciled fuel w w' | Err _ => others w w' end.
Proof.
  revert w. induction tries as [|tries IH]; intros w; simpl; [by intros [= <- <-]|].
  destruct (ContextErr w); [by intros [= <- <-]|]. destruct (tryReconcile fuel w) as [w1 r1] eqn:E.
  apply tryReconcile_step in E. destruct r1 as [[]|e]; [by intros [= <- <-]|].
  destruct (_ || _); [|by intros [= <- <-]]. intros Hr%IH. destruct r; [by eapply reconciled_before|by transitivity w1].
Qed.

(** ** Manual transitions *)

Section Tries.
(** [change] does [P] to a rollout, keeps its revision, and leaves other
    servers alone. *)
Variable P : AutoUpdateAgentRollout -> AutoUpdateAgentRollout -> Prop.
Variable change : AutoUpdateAgentRollout -> M W AutoUpdateAgentRollout.
Record pure_change : Prop := {
  pc_others r0 : step_in others (change r0);
  pc_change r0 w w' r : change r0 w = (w', Ok r) -> P r0 r /\ ro_Revision r = ro_Revision r0;
}.

(** After what the others did, one change. *)
Definition changed (w w' : W) (r : AutoUpdateAgentRollout) : Prop :=
  exists w1 r0 n, others w w1 /\ stored w1 = Some r0 /\ stored w' = Some r /\
    P r0 n /\ ro_Spec r = ro_Spec n /\ ro_Status r = ro_Status n /\ valid_groups r.

Hypothesis Hp : pure_change.

Lemma update_tries_step tries w w' r : update_tries tries change w = (w', r) ->
  match r with Ok r => changed w w' r | Err _ => others w w' end.
Proof.
  revert w. induction tries as [|tries IH]; intros w; simpl; [by intros [= <- <-]|].
  unfold mthen at 1. destruct (GetAutoUpdateAgentRollout w) as [wr [r0|e]] eqn:Eg;
    pose proof (step_in_ok _ _ _ _ _ get_rollout_others Eg) as Hr; [|by intros [= <- <-]].
  apply get_rollout_ok in Eg. unfold mthen at 1. destruct (change r0 wr) as [wc [n|e]] eqn:Ec;
    pose proof (step_in_ok _ _ _ _ _ (pc_others Hp r0) Ec) as Hc; (assert (Hw : others w wc) by (by transitivity wr));
    [|by intros [= <- <-]].
  apply (pc_change Hp) in Ec as [Hm Hrev]. unfold mthen, mtry.
  destruct (UpdateAutoUpdateAgentRollout n wc) as [wu [r'|e]] eqn:Eu.
  - intros [= <- <-]. apply update_rollout_ok in Eu as (w1 & r1 & Ho & Hs1 & Hr1 & Hs & Es & Est & Hv).
    assert (r1 = r0) as ->.
    { symmetry. eapply (others_revision wr w1); [by transitivity wc|done|done|congruence]. }
    exists w1, r0, n. split_and!; [by transitivity wc|done..|by eapply valid_groups_same, validate_groups].
  - apply update_rollout_err in Eu. assert (Hu : others w wu) by (by transitivity wc).
    destruct (IsCompareFailed e); [|by intros [= <- <-]]. intros Hx%IH. destruct r as [r'|]; [|by transitivity wu].
    destruct Hx as (w1 & r1 & n1 & Ho & ?). exists w1, r1, n1. split; [by transitivity wu|done].
Qed.
End Tries.

(** The audit event of a call changes nothing else. *)
Lemma audited_step {A} ty groups (m : M W A) w w' r : audited ty groups m w = (w', r) ->
  exists w1, m w = (w1, r) /\ others w1 w' /\ stored w' = stored w1.
Proof.
  unfold audited. destruct (m w) as [w1 r1]. intros [= <- <-]. exists w1.
  split; [done|]. split; [apply emit_others|apply emit_stored].
Qed.

Lemma audited_tries_step P ty groups change w w' r : pure_change P change ->
  audited ty groups (update_tries maxTries change) w = (w', r) ->
  match r with Ok r => changed P w w' r | Err _ => others w w' end.
Proof.
  intros Hp (w1 & Hu & Ho & Hs)%audited_step. apply (update_tries_step _ _ Hp) in Hu. destruct r as [r|]; [|by transitivity w1].
  destruct Hu as (w2 & r0 & n & ? & ? & ? & ?). exists w2, r0, n. by rewrite Hs.
Qed.

Lemma set_groups_revision groups r : ro_Revision (set_groups groups r) = ro_Revision r.
Proof. done. Qed.

(** The end of a call: at the time it reads, a pure function. *)
Lemma timed_change P (f : AutoUpdateAgentRollout -> gotime -> result AutoUpdateAgentRollout) r0 w w' r :
  (forall now r, f r0 now = Ok r -> P r0 r /\ ro_Revision r = ro_Revision r0) ->
  (let* now := ClockNow in mlift (f r0 now)) w = (w', Ok r) -> P r0 r /\ ro_Revision r = ro_Revision r0.
Proof. intros Hf Hm. inv_mok. subst. eauto. Qed.

Lemma timed_others (f : gotime -> result AutoUpdateAgentRollout) :
  step_in others (let* now := ClockNow in mlift (f now)).
Proof. step_in_auto. Qed.

Lemma transition_checks_same r0 r : transition_checks (Some r0) = Ok r -> r = r0.
Proof. intros Ht. unfold transition_checks in Ht. by inv_ok. Qed.

Lemma force_revision r0 set now r : ForceGroupsDone (Some r0) set now = Ok r -> ro_Revision r = ro_Revision r0.
Proof. unfold ForceGroupsDone. intros Hf. inv_ok. by apply transition_checks_same in H as ->. Qed.

Lemma rollback_revision r0 set now r : RollbackGroups (Some r0) set now = Ok r -> ro_Revision r = ro_Revision r0.
Proof. unfold RollbackGroups. intros Hf. inv_ok. by apply transition_checks_same in H as ->. Qed.

Lemma trigger_revision r0 reports set desiredState now r :
  TriggerGroups (Some r0) reports set desiredState now = Ok r -> ro_Revision r = ro_Revision r0.
Proof.
  unfold TriggerGroups. intros Hf. inv_ok. apply transition_checks_same in H as ->. case_match. by inv_ok.
Qed.

(** What each call of the server does. *)
Lemma force_step authorized groups w w' r : ForceAutoUpdateAgentGroup authorized groups w = (w', r) ->
  match r with
  | Ok r => authorized = Ok tt /\
      changed (fun r0 n => exists now, ForceGroupsDone (Some r0) (GroupListToGroupSet groups) now = Ok n) w w' r
  | Err _ => others w w'
  end.
Proof.
  unfold ForceAutoUpdateAgentGroup, mthen at 1, mlift at 1. destruct authorized as [[]|e]; [|by intros [= <- <-]].
  intros Ha%(audited_tries_step (fun r0 n => exists now, ForceGroupsDone (Some r0) (GroupListToGroupSet groups) now = Ok n)).
  - by destruct r.
  - split; intros r0; [apply timed_others|]. intros w0 w1 n. apply (timed_change (fun r0 n =>
      exists now, ForceGroupsDone (Some r0) (GroupListToGroupSet groups) now = Ok n) (fun r0 now => ForceGroupsDone (Some r0) _ now)).
    eauto using force_revision.
Qed.

Lemma rollback_step authorized groups allStarted w w' r :
  RollbackAutoUpdateAgentGroup authorized groups allStarted w = (w', r) ->
  match r with
  | Ok r => authorized = Ok tt /\
      changed (fun r0 n => exists now set, RollbackGroups (Some r0) set now = Ok n /\
        set = (if allStarted then GetStartedGroups r0 else ∅) ∪ GroupListToGroupSet groups /\ set <> ∅) w w' r
  | Err _ => others w w'
  end.
Proof.
  unfold RollbackAutoUpdateAgentGroup, mthen at 1, mlift at 1. destruct authorized as [[]|e]; [|by intros [= <- <-]].
  destruct (_ && _); [by intros [= <- <-]|].
  intros Ha%(audited_tries_step (fun r0 n => exists now set, RollbackGroups (Some r0) set now = Ok n /\
        set = (if allStarted then GetStartedGroups r0 else ∅) ∪ GroupListToGroupSet groups /\ set <> ∅)).
  - by destruct r.
  - assert (Hset : forall r0, (if allStarted then GetStartedGroups r0 ∪ GroupListToGroupSet groups
        else GroupListToGroupSet groups) = (if allStarted then GetStartedGroups r0 else ∅) ∪ GroupListToGroupSet groups).
    { intros r0. destruct allStarted; [done|]. by rewrite (left_id_L ∅ (∪)). }
    split; intros r0; rewrite Hset; clear Hset; case_bool_decide as He; [step_in_auto|apply timed_others|done|].
    intros w0 w1 n Hm. inv_mok. split; [by repeat eexists|by eapply rollback_revision].
Qed.

Lemma trigger_step authorized fuel groups desiredState w w' r :
  TriggerAutoUpdateAgentGroup authorized fuel groups desiredState w = (w', r) ->
  match r with
  | Ok r => authorized = Ok tt /\
      changed (fun r0 n => exists now reports, getAllReports fuel = Ok reports /\
        TriggerGroups (Some r0) reports (GroupListToGroupSet groups) desiredState now = Ok n) w w' r
  | Err _ => others w w'
  end.
Proof.
  unfold TriggerAutoUpdateAgentGroup, mthen at 1, mlift at 1. destruct authorized as [[]|e]; [|by intros [= <- <-]].
  intros Ha%(audited_tries_step (fun r0 n => exists now reports, getAllReports fuel = Ok reports /\
        TriggerGroups (Some r0) reports (GroupListToGroupSet groups) desiredState now = Ok n)).
  - by destruct r.
  - split; intros r0; [step_in_auto|].
    intros w0 w1 n Hm. inv_mok. split; [by repeat eexists|by eapply trigger_revision].
Qed.
End Steps.

(** ** Facts about the status of a rollout

    What [computeStatus] gives, and the invariant of the stored rollout: the
    names of its groups are unique, a group has no more canaries than it asked
    for, and no canary twice. *)

Section Status.
Context {UT : UnicodeTables} {SV : SemVer} {RC : RolloutClient}.

(** ** Validation *)

(** What the validation asks of one group. *)
Record valid_group (strategy : string) (first : bool) (g : RolloutGroup) : Prop := {
  vg_name : g_Name g <> "";
  vg_days : exists days, ParseWeekdays (g_ConfigDays g) = Ok days;
  vg_hour : 0 <= g_ConfigStartHour g <= 23;
  vg_wait : 0 <= g_ConfigWaitHours g;
  vg_timed : strategy = AgentsStrategyTimeBased -> g_ConfigWaitHours g = 0;
  vg_first : strategy = AgentsStrategyHaltOnError -> first = true -> g_ConfigWaitHours g = 0;
  vg_count : g_CanaryCount g <= MaxCanaryCount;
  vg_canaries : Z.of_nat (length (g_Canaries g)) <= MaxCanaryCount;
}.

Lemma check_group_ok strategy i seen g : check_rollout_group strategy i seen g = Ok tt ->
  valid_group strategy (i =? 0) g /\ seen !! g_Name g = None.
Proof.
  unfold check_rollout_group. intros Hc. inv_ok. bool_to_prop.
  destruct (seen !! g_Name g); [done|]. split; [|done].
  repeat match goal with
  | H : _ || _ = false |- _ => apply orb_false_iff in H as [? H]
  | H : (_ <? _) = false |- _ => apply Z.ltb_ge in H
  end.
  split; try done; try lia; eauto.
  - intros Hs. subst strategy. rewrite bool_decide_true in * by done. simpl in *. bool_to_prop. lia.
  - intros Hs Hi. subst strategy. rewrite Hi in *. rewrite bool_decide_true in * by done. simpl in *. bool_to_prop. lia.
Qed.

Lemma check_groups_ok strategy i seen groups : 0 <= i -> check_rollout_groups strategy i seen groups = Ok tt ->
  NoDup (g_Name <$> groups) /\ (forall g, g ∈ groups -> seen !! g_Name g = None) /\
  (forall k g, groups !! k = Some g -> valid_group strategy (i + Z.of_nat k =? 0) g).
Proof.
  revert i seen. induction groups as [|g groups IH]; intros i seen Hi Hc; simpl in Hc.
  { split; [constructor|]. split; [set_solver|done]. }
  inv_ok. match goal with u : unit |- _ => destruct u end.
  apply check_group_ok in H as [Hv Hs]. apply IH in Hc as (Hnd & Hseen & Hall); [|lia]. split_and!.
  - apply NoDup_cons. split; [|done]. intros (h & En & Hh)%list_elem_of_fmap. specialize (Hseen h Hh).
    rewrite <- En, lookup_insert_eq in Hseen. done.
  - intros h [->|Hh]%elem_of_cons; [done|]. specialize (Hseen h Hh).
    rewrite lookup_insert_ne in Hseen; [done|]. intros E. rewrite <- E, lookup_insert_eq in Hseen. done.
  - intros [|k] h Hk; simpl in Hk; [injection Hk as <-; by rewrite Z.add_0_r|].
    replace (i + Z.of_nat (S k)) with (i + 1 + Z.of_nat k) by lia. by apply Hall.
Qed.

Lemma valid_groups_unique r : valid_groups r -> unique_names (GetGroups r).
Proof. intros Hv. by apply check_groups_ok in Hv as [? _]. Qed.

(** ** A pass keeps the groups *)

(** What every pass and every transition keeps of a group. *)
Definition kept_group (g g' : RolloutGroup) : Prop := same_config g g' /\ (canaries_ok g -> canaries_ok g').

#[local] Instance kept_group_preorder : PreOrder kept_group.
Proof. split; [by intros g|]. intros a b c [? ?] [? ?]. split; [by transitivity b|auto]. Qed.

Lemma kept_groups_refl groups : Forall2 kept_group groups groups.
Proof. apply Forall_Forall2_diag, Forall_forall. by intros g _. Qed.

Lemma progress_window_kept startTime d now g g' err r :
  progress_window startTime d now g = (g', err, r) -> kept_group g g'.
Proof. unfold progress_window. by repeat case_match; intros [= <- <- <-]. Qed.

Lemma progress_windows_kept startTime d now all counts i errs groups :
  Forall2 kept_group groups (progress_windows startTime d now all counts i errs groups).1.
Proof.
  revert i errs. induction groups as [|g groups IH]; intros i errs; simpl; [constructor|].
  destruct (progress_window _ _ _ _) as [[g' err] r] eqn:E. apply progress_window_kept in E.
  assert (Hg : kept_group g g').
  { etransitivity; [|exact E]. split; [apply refresh_config|apply refresh_canaries]. }
  destruct r as [[]|e]; simpl; [|constructor; [done|apply kept_groups_refl]].
  destruct (progress_windows _ _ _ _ _ _ _ groups) as [rest r] eqn:Er. simpl. constructor; [done|].
  replace rest with (rest, r).1 by done. rewrite <- Er. apply IH.
Qed.

Lemma progressRollout_kept fuel spec startTime groups now :
  Forall2 kept_group groups (progressRollout fuel spec startTime groups now).1.
Proof.
  unfold progressRollout, progress_timeBased, progress_haltOnError. case_bool_decide; [|case_bool_decide].
  - destruct (reports_or_none fuel now); [apply progress_windows_kept|apply kept_groups_refl].
  - destruct (reports_or_none fuel now); [|apply kept_groups_refl].
    destruct (progress_groups _ _ _ _ _ _ _ _ _ groups) as [groups' r] eqn:E. simpl.
    apply progress_groups_pass, pass_moves in E. eapply Forall2_impl; [exact E|].
    intros g g' (? & Hm & _). split; [done|]. intros Hg. by apply Hm.
  - apply kept_groups_refl.
Qed.

(** ** The status *)

Section Computed.
Context {W : Type} {RS : RolloutStore W}.

(** The groups a status starts with: the ones it has, or one for each group
    that is configured. *)
Definition first_groups (old : option RolloutStatus) (reset : bool) (schedules : option (list AgentAutoUpdateGroup))
    (now : gotime) (groups : list RolloutGroup) : Prop :=
  match old, reset with
  | Some status, false => if bool_decide (st_Groups status = [])
      then exists configured, configured <> [] /\ groups = make_group now <$> configured /\
             (default [] schedules <> [] -> configured = default [] schedules)
      else groups = st_Groups status
  | _, _ => exists configured, configured <> [] /\ groups = make_group now <$> configured /\
             (default [] schedules <> [] -> configured = default [] schedules)
  end.

(** Everything [computeStatus] says. *)
Record status_of (fuel : nat) (existing : option AutoUpdateAgentRollout) (spec : RolloutSpec)
    (schedules : option (list AgentAutoUpdateGroup)) (status : RolloutStatus) : Prop := {
  so_schedule : sp_Schedule spec = AgentsScheduleImmediate \/ sp_Schedule spec = AgentsScheduleRegular;
  so_start : let old := r ← existing; ro_Status r in
    let reset := shouldResetRollout (match existing with Some r => GetSpec r | None => no_spec end) spec in
    match old, reset with
    | Some o, false => st_StartTime status = st_StartTime o /\ st_TimeOverride status = st_TimeOverride o
    | _, _ => (exists t, st_StartTime status = Some t) /\ st_TimeOverride status = None
    end;
  so_immediate : sp_Schedule spec = AgentsScheduleImmediate -> st_Groups status = [];
  so_regular : sp_Schedule spec = AgentsScheduleRegular -> exists groups clock,
    let now := status_now status clock in
    first_groups (r ← existing; ro_Status r)
      (shouldResetRollout (match existing with Some r => GetSpec r | None => no_spec end) spec) schedules now groups /\
    st_Groups status = (progressRollout fuel spec (st_StartTime status) groups now).1 /\
    st_State status = computeRolloutState (st_Groups status);
}.

Lemma makeGroupsStatus_ok schedules now w w' groups : makeGroupsStatus schedules now w = (w', Ok groups) ->
  exists configured, configured <> [] /\ groups = make_group now <$> configured /\
    (default [] schedules <> [] -> configured = default [] schedules).
Proof.
  unfold makeGroupsStatus. intros Hm. inv_mok. case_bool_decide as Hd; inv_mok; subst.
  - eexists [_]. split_and!; [done|done|]. by rewrite Hd.
  - exists (default [] schedules). done.
Qed.

Lemma computeStatus_ok fuel existing spec schedules w w' status :
  computeStatus fuel existing spec schedules w = (w', Ok status) -> status_of fuel existing spec schedules status.
Proof.
  unfold computeStatus. set (old := existing ≫= fun r => ro_Status r).
  set (reset := shouldResetRollout _ spec). intros Hm. inv_mok.
  match type of Hm with context [base_status reset old (t_Unix ?t)] => set (start := t) in * end.
  assert (Hstart : match old, reset with
    | Some o, false => st_StartTime (base_status reset old (t_Unix start)) = st_StartTime o /\
        st_TimeOverride (base_status reset old (t_Unix start)) = st_TimeOverride o
    | _, _ => (exists t, st_StartTime (base_status reset old (t_Unix start)) = Some t) /\
        st_TimeOverride (base_status reset old (t_Unix start)) = None
    end) by (destruct old, reset; simpl; eauto).
  case_bool_decide as Hi; [inv_mok; split; [by left|done|done|rewrite Hi; done]|].
  case_bool_decide as Hr; [|inv_mok]. inv_mok. subst.
  match goal with H : ClockNow _ = (_, Ok ?t) |- _ => rename t into clock end.
  split; [by right|exact Hstart|done|]. intros _.
  set (base := base_status reset old (t_Unix start)) in *.
  match goal with H : status_groups base schedules ?n _ = (_, Ok ?gs) |- _ => exists gs, clock; rename H into Hg end.
  split; [|done]. change (status_now (progress_status _ _ base _ _) clock) with (status_now base clock).
  unfold status_groups in Hg. unfold first_groups. fold old reset.
  destruct old as [o|], reset; simpl in *; try by eapply makeGroupsStatus_ok.
  subst base. simpl in *. case_bool_decide; [by eapply makeGroupsStatus_ok|]. by inv_mok.
Qed.

(** ** The invariant *)

Definition rollout_ok (r : AutoUpdateAgentRollout) : Prop :=
  unique_names (GetGroups r) /\ Forall canaries_ok (GetGroups r).

Lemma make_group_ok now group : canaries_ok (make_group now group).
Proof. split; simpl; [unfold canaries_len; simpl; lia|constructor]. Qed.

Lemma first_groups_ok old reset schedules now groups : first_groups old reset schedules now groups ->
  (forall status, old = Some status -> Forall canaries_ok (st_Groups status)) -> Forall canaries_ok groups.
Proof.
  intros Hf Hold.
  assert (Hnew : (exists configured, configured <> [] /\ groups = make_group now <$> configured /\
    (default [] schedules <> [] -> configured = default [] schedules)) -> Forall canaries_ok groups).
  { intros (configured & _ & -> & _). apply Forall_fmap, Forall_forall. intros g _. apply make_group_ok. }
  unfold first_groups in Hf. destruct old as [status|], reset; auto.
  case_bool_decide; [auto|]. subst groups. by apply Hold.
Qed.

Lemma Forall_kept groups groups' : Forall2 kept_group groups groups' -> Forall canaries_ok groups -> Forall canaries_ok groups'.
Proof. induction 1 as [|g g' groups groups' [_ Hg] _ IH]; [done|]. rewrite !Forall_cons. naive_solver. Qed.

Lemma status_canaries fuel existing spec schedules status : status_of fuel existing spec schedules status ->
  (forall r, existing = Some r -> rollout_ok r) -> Forall canaries_ok (st_Groups status).
Proof.
  intros [[Hs|Hs] _ Hi Hr] Hold; [by rewrite Hi|]. destruct (Hr Hs) as (groups & clock & Hf & -> & _).
  eapply Forall_kept; [apply progressRollout_kept|]. eapply first_groups_ok; [exact Hf|].
  intros st Hst. destruct existing as [r|]; [|done]. simpl in Hst. destruct (Hold r eq_refl) as [_ Hc].
  unfold GetGroups in Hc. by rewrite Hst in Hc.
Qed.

Lemma manual_canaries {MO : MapOrder unit} {ML : MapOrderLaws unit} r0 r : manual_change r0 r -> rollout_ok r0 -> rollout_ok r.
Proof.
  intros Hm [Hu Hc].
  assert (Hch : forall (R : RolloutGroup -> RolloutGroup -> Prop) set, (forall g g', R g g' -> kept_group g g') ->
    changes R set r0 r -> rollout_ok r).
  { intros R set HR (groups' & -> & H2).
    assert (Hk : Forall2 kept_group (GetGroups r0) groups').
    { eapply Forall2_impl; [exact H2|]. intros g g'. cbv beta. destruct (decide _); [apply HR|by intros ->]. }
    assert (Hg : GetGroups (set_groups groups' r0) = groups' \/ GetGroups (set_groups groups' r0) = []).
    { unfold GetGroups, set_groups. simpl. destruct (ro_Status r0); auto. }
    unfold rollout_ok. destruct Hg as [-> | ->]; [|split; [constructor|done]]. split; [|by eapply Forall_kept].
    unfold unique_names in *. replace (g_Name <$> groups') with (g_Name <$> GetGroups r0); [done|].
    clear -Hk. induction Hk as [|g g' l l' [(En & _) _] _ IH]; [done|]. rewrite !fmap_cons. by rewrite En, IH. }
  destruct Hm as [reports set desiredState now Ht|set now Hf|set now Hr].
  - apply trigger_spec in Ht as (_ & _ & Ht); [|done]. eapply Hch; [|exact Ht]. intros g g' [_ _ _ Hcfg Hcan _].
    split; [done|]. unfold canaries_ok, canaries_len, canary_count. rewrite Hcan. by destruct Hcfg as (_ & _ & _ & _ & ->).
  - apply force_spec in Hf as (_ & _ & Hf); [|done]. eapply Hch; [|exact Hf]. by intros g g' [_ ->].
  - apply rollback_spec in Hr as (_ & _ & Hr); [|done]. eapply Hch; [|exact Hr]. by intros g g' [_ ->].
Qed.

Lemma desired_ok fuel o r : desired fuel o r -> (forall r0, o = Some r0 -> rollout_ok r0) -> valid_groups r -> rollout_ok r.
Proof.
  intros (spec & status & config & version & [_ (wa & wb & Hc)] & _ & Hst) Hold Hv.
  split; [by apply valid_groups_unique|]. apply computeStatus_ok in Hc.
  unfold GetGroups. rewrite Hst. by eapply status_canaries.
Qed.

Lemma rollout_change_ok {MO : MapOrder unit} {ML : MapOrderLaws unit} o o' : rollout_change o o' ->
  (forall r, o = Some r -> rollout_ok r) -> forall r, o' = Some r -> rollout_ok r.
Proof.
  intros [r0|fuel r Hd Hv|fuel r0 r Hd Hv|r0 n r Hm Es Est Hv] Hold r1 E; simplify_eq.
  - by eapply desired_ok.
  - by eapply desired_ok.
  - apply manual_canaries in Hm as [_ Hc]; [|auto]. split; [by apply valid_groups_unique|].
    unfold GetGroups in *. by rewrite Est.
Qed.
End Computed.
End Status.
