(* ===== verification/AccessRequest.v ===== *)
(** * Access requests: [api/types/access_request.go]

    The access request and its reviews, with the checks on them, and the
    validation of [lib/services/access_request.go].  A request starts out
    pending and ends up approved, denied or promoted; a state is a number on
    the wire and may have no name.

    A time is an instant, a count of nanoseconds, so that [UTC] is the
    identity; the zero time is the first of January of the year 1.  A method
    with a pointer receiver returns the request it leaves. *)

From stdpp Require Import pretty.
From S2P Require Import Prelude GoStrings Utf8 Types Regexp Roles RoleLimits RoleAccess CheckAccess RoleRules Checker.
From S2P Require Import Autoupdate.

(** ** Time *)

Definition zero_time : time := -62135596800 * Second.
Definition time_IsZero (t : time) : bool := t =? zero_time.

(** [Time.Sub], which saturates *)
Definition Sub (t u : time) : duration := Z.max (- 2 ^ 63) (Z.min (2 ^ 63 - 1) (t - u)).

(** ** States *)

Definition RequestState := Z.
Definition RequestState_NONE : RequestState := 0.
Definition RequestState_PENDING : RequestState := 1.
Definition RequestState_APPROVED : RequestState := 2.
Definition RequestState_DENIED : RequestState := 3.
Definition RequestState_PROMOTED : RequestState := 4.

Definition RequestState_name : list (RequestState * string) :=
  [(RequestState_NONE, "NONE"); (RequestState_PENDING, "PENDING"); (RequestState_APPROVED, "APPROVED");
   (RequestState_DENIED, "DENIED"); (RequestState_PROMOTED, "PROMOTED")].

(** [String]: the name, or else the number *)
Definition state_String (s : RequestState) : string :=
  default (pretty s) (snd <$> find (fun x => x.1 =? s) RequestState_name).

Definition stateVariants : list RequestState :=
  [RequestState_NONE; RequestState_PENDING; RequestState_APPROVED; RequestState_DENIED; RequestState_PROMOTED].

Definition state_Parse (val : string) : result RequestState :=
  match find (fun state => bool_decide (state_String state = val)) stateVariants with
  | Some state => Ok state
  | None => Err (BadParameter "unknown request state: %q" [val])
  end.

Definition IsNone (s : RequestState) : bool := s =? RequestState_NONE.
Definition IsPending (s : RequestState) : bool := s =? RequestState_PENDING.
Definition IsApproved (s : RequestState) : bool := s =? RequestState_APPROVED.
Definition IsDenied (s : RequestState) : bool := s =? RequestState_DENIED.
Definition IsPromoted (s : RequestState) : bool := s =? RequestState_PROMOTED.
Definition IsResolved (s : RequestState) : bool := IsApproved s || IsDenied s || IsPromoted s.

(** ** Data *)

Record PromotedAccessList := {
  pal_Name : string;
  pal_Title : string;
}.

(** [ThresholdIndexSets]: a set of indexes is satisfied by one of them, and all
    the sets have to be. *)
Definition ThresholdIndexSet := list Z.   (* uint32 *)
Definition ThresholdIndexSets := list ThresholdIndexSet.

Record AccessReview := {
  rev_Author : string;
  rev_Roles : list string;
  rev_ProposedState : RequestState;
  rev_Reason : string;
  rev_Created : time;
  rev_Annotations : traits;
  rev_ThresholdIndexes : list Z;   (* uint32 *)
  rev_AccessList : option PromotedAccessList;
  rev_AssumeStartTime : option time;
  rev_SubmittedBy : string;
}.

Record AccessReviewSubmission := {
  sub_RequestID : string;
  sub_Review : AccessReview;
}.

Record DryRunEnrichment := {
  dre_ReasonMode : string;
  dre_ReasonPrompts : list string;
}.

Record Metadata := {
  md_Name : string;
  md_Namespace : string;
  md_Description : string;
  md_Labels : gmap string string;
  md_Expires : option time;
  md_Revision : string;
}.

Record AccessRequestSpecV3 := {
  ars_User : string;
  ars_Roles : list string;
  ars_State : RequestState;
  ars_Created : time;
  ars_Expires : time;   (* the expiry of the access *)
  ars_RequestReason : string;
  ars_ResolveReason : string;
  ars_ResolveAnnotations : traits;
  ars_SystemAnnotations : traits;
  ars_Thresholds : list AccessReviewThreshold;
  ars_RoleThresholdMapping : gmap string ThresholdIndexSets;
  ars_Reviews : list AccessReview;
  ars_SuggestedReviewers : list string;
  ars_RequestedResourceIDs : list ResourceID;
  ars_LoginHint : string;
  ars_DryRun : bool;
  ars_MaxDuration : time;
  ars_SessionTTL : time;
  ars_AccessList : option PromotedAccessList;
  ars_AssumeStartTime : option time;
  ars_ResourceExpiry : option time;   (* the expiry of the resource *)
  ars_DryRunEnrichment : option DryRunEnrichment;
  ars_RequestKind : Z;
  ars_LongTermGrouping : bool;   (* whether the grouping is set *)
  ars_RequestedResourceAccessIDs : list ResourceAccessID;
}.

Record AccessRequestV3 := {
  ar_Kind : string;
  ar_SubKind : string;
  ar_Version : string;
  ar_Metadata : Metadata;
  ar_Spec : AccessRequestSpecV3;
}.

Definition on_spec (f : AccessRequestSpecV3 -> AccessRequestSpecV3) (r : AccessRequestV3) : AccessRequestV3 :=
  {| ar_Kind := ar_Kind r; ar_SubKind := ar_SubKind r; ar_Version := ar_Version r; ar_Metadata := ar_Metadata r;
     ar_Spec := f (ar_Spec r) |}.

Definition on_metadata (f : Metadata -> Metadata) (r : AccessRequestV3) : AccessRequestV3 :=
  {| ar_Kind := ar_Kind r; ar_SubKind := ar_SubKind r; ar_Version := ar_Version r; ar_Metadata := f (ar_Metadata r);
     ar_Spec := ar_Spec r |}.

(** *** The assignments to a field of the specification *)

Definition spec_Roles (v : list string) (s : AccessRequestSpecV3) : AccessRequestSpecV3 := {|
  ars_User := ars_User s; ars_Roles := v; ars_State := ars_State s; ars_Created := ars_Created s;
  ars_Expires := ars_Expires s; ars_RequestReason := ars_RequestReason s;
  ars_ResolveReason := ars_ResolveReason s; ars_ResolveAnnotations := ars_ResolveAnnotations s;
  ars_SystemAnnotations := ars_SystemAnnotations s; ars_Thresholds := ars_Thresholds s;
  ars_RoleThresholdMapping := ars_RoleThresholdMapping s; ars_Reviews := ars_Reviews s;
  ars_SuggestedReviewers := ars_SuggestedReviewers s; ars_RequestedResourceIDs := ars_RequestedResourceIDs s;
  ars_LoginHint := ars_LoginHint s; ars_DryRun := ars_DryRun s; ars_MaxDuration := ars_MaxDuration s;
  ars_SessionTTL := ars_SessionTTL s; ars_AccessList := ars_AccessList s;
  ars_AssumeStartTime := ars_AssumeStartTime s; ars_ResourceExpiry := ars_ResourceExpiry s;
  ars_DryRunEnrichment := ars_DryRunEnrichment s; ars_RequestKind := ars_RequestKind s;
  ars_LongTermGrouping := ars_LongTermGrouping s;
  ars_RequestedResourceAccessIDs := ars_RequestedResourceAccessIDs s |}.

Definition spec_State (v : RequestState) (s : AccessRequestSpecV3) : AccessRequestSpecV3 := {|
  ars_User := ars_User s; ars_Roles := ars_Roles s; ars_State := v; ars_Created := ars_Created s;
  ars_Expires := ars_Expires s; ars_RequestReason := ars_RequestReason s;
  ars_ResolveReason := ars_ResolveReason s; ars_ResolveAnnotations := ars_ResolveAnnotations s;
  ars_SystemAnnotations := ars_SystemAnnotations s; ars_Thresholds := ars_Thresholds s;
  ars_RoleThresholdMapping := ars_RoleThresholdMapping s; ars_Reviews := ars_Reviews s;
  ars_SuggestedReviewers := ars_SuggestedReviewers s; ars_RequestedResourceIDs := ars_RequestedResourceIDs s;
  ars_LoginHint := ars_LoginHint s; ars_DryRun := ars_DryRun s; ars_MaxDuration := ars_MaxDuration s;
  ars_SessionTTL := ars_SessionTTL s; ars_AccessList := ars_AccessList s;
  ars_AssumeStartTime := ars_AssumeStartTime s; ars_ResourceExpiry := ars_ResourceExpiry s;
  ars_DryRunEnrichment := ars_DryRunEnrichment s; ars_RequestKind := ars_RequestKind s;
  ars_LongTermGrouping := ars_LongTermGrouping s;
  ars_RequestedResourceAccessIDs := ars_RequestedResourceAccessIDs s |}.

Definition spec_Created (v : time) (s : AccessRequestSpecV3) : AccessRequestSpecV3 := {|
  ars_User := ars_User s; ars_Roles := ars_Roles s; ars_State := ars_State s; ars_Created := v;
  ars_Expires := ars_Expires s; ars_RequestReason := ars_RequestReason s;
  ars_ResolveReason := ars_ResolveReason s; ars_ResolveAnnotations := ars_ResolveAnnotations s;
  ars_SystemAnnotations := ars_SystemAnnotations s; ars_Thresholds := ars_Thresholds s;
  ars_RoleThresholdMapping := ars_RoleThresholdMapping s; ars_Reviews := ars_Reviews s;
  ars_SuggestedReviewers := ars_SuggestedReviewers s; ars_RequestedResourceIDs := ars_RequestedResourceIDs s;
  ars_LoginHint := ars_LoginHint s; ars_DryRun := ars_DryRun s; ars_MaxDuration := ars_MaxDuration s;
  ars_SessionTTL := ars_SessionTTL s; ars_AccessList := ars_AccessList s;
  ars_AssumeStartTime := ars_AssumeStartTime s; ars_ResourceExpiry := ars_ResourceExpiry s;
  ars_DryRunEnrichment := ars_DryRunEnrichment s; ars_RequestKind := ars_RequestKind s;
  ars_LongTermGrouping := ars_LongTermGrouping s;
  ars_RequestedResourceAccessIDs := ars_RequestedResourceAccessIDs s |}.

Definition spec_Expires (v : time) (s : AccessRequestSpecV3) : AccessRequestSpecV3 := {|
  ars_User := ars_User s; ars_Roles := ars_Roles s; ars_State := ars_State s; ars_Created := ars_Created s;
  ars_Expires := v; ars_RequestReason := ars_RequestReason s; ars_ResolveReason := ars_ResolveReason s;
  ars_ResolveAnnotations := ars_ResolveAnnotations s; ars_SystemAnnotations := ars_SystemAnnotations s;
  ars_Thresholds := ars_Thresholds s; ars_RoleThresholdMapping := ars_RoleThresholdMapping s;
  ars_Reviews := ars_Reviews s; ars_SuggestedReviewers := ars_SuggestedReviewers s;
  ars_RequestedResourceIDs := ars_RequestedResourceIDs s; ars_LoginHint := ars_LoginHint s;
  ars_DryRun := ars_DryRun s; ars_MaxDuration := ars_MaxDuration s; ars_SessionTTL := ars_SessionTTL s;
  ars_AccessList := ars_AccessList s; ars_AssumeStartTime := ars_AssumeStartTime s;
  ars_ResourceExpiry := ars_ResourceExpiry s; ars_DryRunEnrichment := ars_DryRunEnrichment s;
  ars_RequestKind := ars_RequestKind s; ars_LongTermGrouping := ars_LongTermGrouping s;
  ars_RequestedResourceAccessIDs := ars_RequestedResourceAccessIDs s |}.

Definition spec_ResolveReason (v : string) (s : AccessRequestSpecV3) : AccessRequestSpecV3 := {|
  ars_User := ars_User s; ars_Roles := ars_Roles s; ars_State := ars_State s; ars_Created := ars_Created s;
  ars_Expires := ars_Expires s; ars_RequestReason := ars_RequestReason s; ars_ResolveReason := v;
  ars_ResolveAnnotations := ars_ResolveAnnotations s; ars_SystemAnnotations := ars_SystemAnnotations s;
  ars_Thresholds := ars_Thresholds s; ars_RoleThresholdMapping := ars_RoleThresholdMapping s;
  ars_Reviews := ars_Reviews s; ars_SuggestedReviewers := ars_SuggestedReviewers s;
  ars_RequestedResourceIDs := ars_RequestedResourceIDs s; ars_LoginHint := ars_LoginHint s;
  ars_DryRun := ars_DryRun s; ars_MaxDuration := ars_MaxDuration s; ars_SessionTTL := ars_SessionTTL s;
  ars_AccessList := ars_AccessList s; ars_AssumeStartTime := ars_AssumeStartTime s;
  ars_ResourceExpiry := ars_ResourceExpiry s; ars_DryRunEnrichment := ars_DryRunEnrichment s;
  ars_RequestKind := ars_RequestKind s; ars_LongTermGrouping := ars_LongTermGrouping s;
  ars_RequestedResourceAccessIDs := ars_RequestedResourceAccessIDs s |}.

Definition spec_ResolveAnnotations (v : traits) (s : AccessRequestSpecV3) : AccessRequestSpecV3 := {|
  ars_User := ars_User s; ars_Roles := ars_Roles s; ars_State := ars_State s; ars_Created := ars_Created s;
  ars_Expires := ars_Expires s; ars_RequestReason := ars_RequestReason s;
  ars_ResolveReason := ars_ResolveReason s; ars_ResolveAnnotations := v;
  ars_SystemAnnotations := ars_SystemAnnotations s; ars_Thresholds := ars_Thresholds s;
  ars_RoleThresholdMapping := ars_RoleThresholdMapping s; ars_Reviews := ars_Reviews s;
  ars_SuggestedReviewers := ars_SuggestedReviewers s; ars_RequestedResourceIDs := ars_RequestedResourceIDs s;
  ars_LoginHint := ars_LoginHint s; ars_DryRun := ars_DryRun s; ars_MaxDuration := ars_MaxDuration s;
  ars_SessionTTL := ars_SessionTTL s; ars_AccessList := ars_AccessList s;
  ars_AssumeStartTime := ars_AssumeStartTime s; ars_ResourceExpiry := ars_ResourceExpiry s;
  ars_DryRunEnrichment := ars_DryRunEnrichment s; ars_RequestKind := ars_RequestKind s;
  ars_LongTermGrouping := ars_LongTermGrouping s;
  ars_RequestedResourceAccessIDs := ars_RequestedResourceAccessIDs s |}.

Definition spec_SystemAnnotations (v : traits) (s : AccessRequestSpecV3) : AccessRequestSpecV3 := {|
  ars_User := ars_User s; ars_Roles := ars_Roles s; ars_State := ars_State s; ars_Created := ars_Created s;
  ars_Expires := ars_Expires s; ars_RequestReason := ars_RequestReason s;
  ars_ResolveReason := ars_ResolveReason s; ars_ResolveAnnotations := ars_ResolveAnnotations s;
  ars_SystemAnnotations := v; ars_Thresholds := ars_Thresholds s;
  ars_RoleThresholdMapping := ars_RoleThresholdMapping s; ars_Reviews := ars_Reviews s;
  ars_SuggestedReviewers := ars_SuggestedReviewers s; ars_RequestedResourceIDs := ars_RequestedResourceIDs s;
  ars_LoginHint := ars_LoginHint s; ars_DryRun := ars_DryRun s; ars_MaxDuration := ars_MaxDuration s;
  ars_SessionTTL := ars_SessionTTL s; ars_AccessList := ars_AccessList s;
  ars_AssumeStartTime := ars_AssumeStartTime s; ars_ResourceExpiry := ars_ResourceExpiry s;
  ars_DryRunEnrichment := ars_DryRunEnrichment s; ars_RequestKind := ars_RequestKind s;
  ars_LongTermGrouping := ars_LongTermGrouping s;
  ars_RequestedResourceAccessIDs := ars_RequestedResourceAccessIDs s |}.

Definition spec_Thresholds (v : list AccessReviewThreshold) (s : AccessRequestSpecV3) : AccessRequestSpecV3 := {|
  ars_User := ars_User s; ars_Roles := ars_Roles s; ars_State := ars_State s; ars_Created := ars_Created s;
  ars_Expires := ars_Expires s; ars_RequestReason := ars_RequestReason s;
  ars_ResolveReason := ars_ResolveReason s; ars_ResolveAnnotations := ars_ResolveAnnotations s;
  ars_SystemAnnotations := ars_SystemAnnotations s; ars_Thresholds := v;
  ars_RoleThresholdMapping := ars_RoleThresholdMapping s; ars_Reviews := ars_Reviews s;
  ars_SuggestedReviewers := ars_SuggestedReviewers s; ars_RequestedResourceIDs := ars_RequestedResourceIDs s;
  ars_LoginHint := ars_LoginHint s; ars_DryRun := ars_DryRun s; ars_MaxDuration := ars_MaxDuration s;
  ars_SessionTTL := ars_SessionTTL s; ars_AccessList := ars_AccessList s;
  ars_AssumeStartTime := ars_AssumeStartTime s; ars_ResourceExpiry := ars_ResourceExpiry s;
  ars_DryRunEnrichment := ars_DryRunEnrichment s; ars_RequestKind := ars_RequestKind s;
  ars_LongTermGrouping := ars_LongTermGrouping s;
  ars_RequestedResourceAccessIDs := ars_RequestedResourceAccessIDs s |}.

Definition spec_RoleThresholdMapping (v : gmap string ThresholdIndexSets) (s : AccessRequestSpecV3) : AccessRequestSpecV3 := {|
  ars_User := ars_User s; ars_Roles := ars_Roles s; ars_State := ars_State s; ars_Created := ars_Created s;
  ars_Expires := ars_Expires s; ars_RequestReason := ars_RequestReason s;
  ars_ResolveReason := ars_ResolveReason s; ars_ResolveAnnotations := ars_ResolveAnnotations s;
  ars_SystemAnnotations := ars_SystemAnnotations s; ars_Thresholds := ars_Thresholds s;
  ars_RoleThresholdMapping := v; ars_Reviews := ars_Reviews s;
  ars_SuggestedReviewers := ars_SuggestedReviewers s; ars_RequestedResourceIDs := ars_RequestedResourceIDs s;
  ars_LoginHint := ars_LoginHint s; ars_DryRun := ars_DryRun s; ars_MaxDuration := ars_MaxDuration s;
  ars_SessionTTL := ars_SessionTTL s; ars_AccessList := ars_AccessList s;
  ars_AssumeStartTime := ars_AssumeStartTime s; ars_ResourceExpiry := ars_ResourceExpiry s;
  ars_DryRunEnrichment := ars_DryRunEnrichment s; ars_RequestKind := ars_RequestKind s;
  ars_LongTermGrouping := ars_LongTermGrouping s;
  ars_RequestedResourceAccessIDs := ars_RequestedResourceAccessIDs s |}.

Definition spec_Reviews (v : list AccessReview) (s : AccessRequestSpecV3) : AccessRequestSpecV3 := {|
  ars_User := ars_User s; ars_Roles := ars_Roles s; ars_State := ars_State s; ars_Created := ars_Created s;
  ars_Expires := ars_Expires s; ars_RequestReason := ars_RequestReason s;
  ars_ResolveReason := ars_ResolveReason s; ars_ResolveAnnotations := ars_ResolveAnnotations s;
  ars_SystemAnnotations := ars_SystemAnnotations s; ars_Thresholds := ars_Thresholds s;
  ars_RoleThresholdMapping := ars_RoleThresholdMapping s; ars_Reviews := v;
  ars_SuggestedReviewers := ars_SuggestedReviewers s; ars_RequestedResourceIDs := ars_RequestedResourceIDs s;
  ars_LoginHint := ars_LoginHint s; ars_DryRun := ars_DryRun s; ars_MaxDuration := ars_MaxDuration s;
  ars_SessionTTL := ars_SessionTTL s; ars_AccessList := ars_AccessList s;
  ars_AssumeStartTime := ars_AssumeStartTime s; ars_ResourceExpiry := ars_ResourceExpiry s;
  ars_DryRunEnrichment := ars_DryRunEnrichment s; ars_RequestKind := ars_RequestKind s;
  ars_LongTermGrouping := ars_LongTermGrouping s;
  ars_RequestedResourceAccessIDs := ars_RequestedResourceAccessIDs s |}.

Definition spec_SuggestedReviewers (v : list string) (s : AccessRequestSpecV3) : AccessRequestSpecV3 := {|
  ars_User := ars_User s; ars_Roles := ars_Roles s; ars_State := ars_State s; ars_Created := ars_Created s;
  ars_Expires := ars_Expires s; ars_RequestReason := ars_RequestReason s;
  ars_ResolveReason := ars_ResolveReason s; ars_ResolveAnnotations := ars_ResolveAnnotations s;
  ars_SystemAnnotations := ars_SystemAnnotations s; ars_Thresholds := ars_Thresholds s;
  ars_RoleThresholdMapping := ars_RoleThresholdMapping s; ars_Reviews := ars_Reviews s;
  ars_SuggestedReviewers := v; ars_RequestedResourceIDs := ars_RequestedResourceIDs s;
  ars_LoginHint := ars_LoginHint s; ars_DryRun := ars_DryRun s; ars_MaxDuration := ars_MaxDuration s;
  ars_SessionTTL := ars_SessionTTL s; ars_AccessList := ars_AccessList s;
  ars_AssumeStartTime := ars_AssumeStartTime s; ars_ResourceExpiry := ars_ResourceExpiry s;
  ars_DryRunEnrichment := ars_DryRunEnrichment s; ars_RequestKind := ars_RequestKind s;
  ars_LongTermGrouping := ars_LongTermGrouping s;
  ars_RequestedResourceAccessIDs := ars_RequestedResourceAccessIDs s |}.

Definition spec_RequestedResourceIDs (v : list ResourceID) (s : AccessRequestSpecV3) : AccessRequestSpecV3 := {|
  ars_User := ars_User s; ars_Roles := ars_Roles s; ars_State := ars_State s; ars_Created := ars_Created s;
  ars_Expires := ars_Expires s; ars_RequestReason := ars_RequestReason s;
  ars_ResolveReason := ars_ResolveReason s; ars_ResolveAnnotations := ars_ResolveAnnotations s;
  ars_SystemAnnotations := ars_SystemAnnotations s; ars_Thresholds := ars_Thresholds s;
  ars_RoleThresholdMapping := ars_RoleThresholdMapping s; ars_Reviews := ars_Reviews s;
  ars_SuggestedReviewers := ars_SuggestedReviewers s; ars_RequestedResourceIDs := v;
  ars_LoginHint := ars_LoginHint s; ars_DryRun := ars_DryRun s; ars_MaxDuration := ars_MaxDuration s;
  ars_SessionTTL := ars_SessionTTL s; ars_AccessList := ars_AccessList s;
  ars_AssumeStartTime := ars_AssumeStartTime s; ars_ResourceExpiry := ars_ResourceExpiry s;
  ars_DryRunEnrichment := ars_DryRunEnrichment s; ars_RequestKind := ars_RequestKind s;
  ars_LongTermGrouping := ars_LongTermGrouping s;
  ars_RequestedResourceAccessIDs := ars_RequestedResourceAccessIDs s |}.

Definition spec_MaxDuration (v : time) (s : AccessRequestSpecV3) : AccessRequestSpecV3 := {|
  ars_User := ars_User s; ars_Roles := ars_Roles s; ars_State := ars_State s; ars_Created := ars_Created s;
  ars_Expires := ars_Expires s; ars_RequestReason := ars_RequestReason s;
  ars_ResolveReason := ars_ResolveReason s; ars_ResolveAnnotations := ars_ResolveAnnotations s;
  ars_SystemAnnotations := ars_SystemAnnotations s; ars_Thresholds := ars_Thresholds s;
  ars_RoleThresholdMapping := ars_RoleThresholdMapping s; ars_Reviews := ars_Reviews s;
  ars_SuggestedReviewers := ars_SuggestedReviewers s; ars_RequestedResourceIDs := ars_RequestedResourceIDs s;
  ars_LoginHint := ars_LoginHint s; ars_DryRun := ars_DryRun s; ars_MaxDuration := v;
  ars_SessionTTL := ars_SessionTTL s; ars_AccessList := ars_AccessList s;
  ars_AssumeStartTime := ars_AssumeStartTime s; ars_ResourceExpiry := ars_ResourceExpiry s;
  ars_DryRunEnrichment := ars_DryRunEnrichment s; ars_RequestKind := ars_RequestKind s;
  ars_LongTermGrouping := ars_LongTermGrouping s;
  ars_RequestedResourceAccessIDs := ars_RequestedResourceAccessIDs s |}.

Definition spec_SessionTTL (v : time) (s : AccessRequestSpecV3) : AccessRequestSpecV3 := {|
  ars_User := ars_User s; ars_Roles := ars_Roles s; ars_State := ars_State s; ars_Created := ars_Created s;
  ars_Expires := ars_Expires s; ars_RequestReason := ars_RequestReason s;
  ars_ResolveReason := ars_ResolveReason s; ars_ResolveAnnotations := ars_ResolveAnnotations s;
  ars_SystemAnnotations := ars_SystemAnnotations s; ars_Thresholds := ars_Thresholds s;
  ars_RoleThresholdMapping := ars_RoleThresholdMapping s; ars_Reviews := ars_Reviews s;
  ars_SuggestedReviewers := ars_SuggestedReviewers s; ars_RequestedResourceIDs := ars_RequestedResourceIDs s;
  ars_LoginHint := ars_LoginHint s; ars_DryRun := ars_DryRun s; ars_MaxDuration := ars_MaxDuration s;
  ars_SessionTTL := v; ars_AccessList := ars_AccessList s; ars_AssumeStartTime := ars_AssumeStartTime s;
  ars_ResourceExpiry := ars_ResourceExpiry s; ars_DryRunEnrichment := ars_DryRunEnrichment s;
  ars_RequestKind := ars_RequestKind s; ars_LongTermGrouping := ars_LongTermGrouping s;
  ars_RequestedResourceAccessIDs := ars_RequestedResourceAccessIDs s |}.

Definition spec_AccessList (v : option PromotedAccessList) (s : AccessRequestSpecV3) : AccessRequestSpecV3 := {|
  ars_User := ars_User s; ars_Roles := ars_Roles s; ars_State := ars_State s; ars_Created := ars_Created s;
  ars_Expires := ars_Expires s; ars_RequestReason := ars_RequestReason s;
  ars_ResolveReason := ars_ResolveReason s; ars_ResolveAnnotations := ars_ResolveAnnotations s;
  ars_SystemAnnotations := ars_SystemAnnotations s; ars_Thresholds := ars_Thresholds s;
  ars_RoleThresholdMapping := ars_RoleThresholdMapping s; ars_Reviews := ars_Reviews s;
  ars_SuggestedReviewers := ars_SuggestedReviewers s; ars_RequestedResourceIDs := ars_RequestedResourceIDs s;
  ars_LoginHint := ars_LoginHint s; ars_DryRun := ars_DryRun s; ars_MaxDuration := ars_MaxDuration s;
  ars_SessionTTL := ars_SessionTTL s; ars_AccessList := v; ars_AssumeStartTime := ars_AssumeStartTime s;
  ars_ResourceExpiry := ars_ResourceExpiry s; ars_DryRunEnrichment := ars_DryRunEnrichment s;
  ars_RequestKind := ars_RequestKind s; ars_LongTermGrouping := ars_LongTermGrouping s;
  ars_RequestedResourceAccessIDs := ars_RequestedResourceAccessIDs s |}.

Definition spec_AssumeStartTime (v : option time) (s : AccessRequestSpecV3) : AccessRequestSpecV3 := {|
  ars_User := ars_User s; ars_Roles := ars_Roles s; ars_State := ars_State s; ars_Created := ars_Created s;
  ars_Expires := ars_Expires s; ars_RequestReason := ars_RequestReason s;
  ars_ResolveReason := ars_ResolveReason s; ars_ResolveAnnotations := ars_ResolveAnnotations s;
  ars_SystemAnnotations := ars_SystemAnnotations s; ars_Thresholds := ars_Thresholds s;
  ars_RoleThresholdMapping := ars_RoleThresholdMapping s; ars_Reviews := ars_Reviews s;
  ars_SuggestedReviewers := ars_SuggestedReviewers s; ars_RequestedResourceIDs := ars_RequestedResourceIDs s;
  ars_LoginHint := ars_LoginHint s; ars_DryRun := ars_DryRun s; ars_MaxDuration := ars_MaxDuration s;
  ars_SessionTTL := ars_SessionTTL s; ars_AccessList := ars_AccessList s; ars_AssumeStartTime := v;
  ars_ResourceExpiry := ars_ResourceExpiry s; ars_DryRunEnrichment := ars_DryRunEnrichment s;
  ars_RequestKind := ars_RequestKind s; ars_LongTermGrouping := ars_LongTermGrouping s;
  ars_RequestedResourceAccessIDs := ars_RequestedResourceAccessIDs s |}.

Definition spec_ResourceExpiry (v : option time) (s : AccessRequestSpecV3) : AccessRequestSpecV3 := {|
  ars_User := ars_User s; ars_Roles := ars_Roles s; ars_State := ars_State s; ars_Created := ars_Created s;
  ars_Expires := ars_Expires s; ars_RequestReason := ars_RequestReason s;
  ars_ResolveReason := ars_ResolveReason s; ars_ResolveAnnotations := ars_ResolveAnnotations s;
  ars_SystemAnnotations := ars_SystemAnnotations s; ars_Thresholds := ars_Thresholds s;
  ars_RoleThresholdMapping := ars_RoleThresholdMapping s; ars_Reviews := ars_Reviews s;
  ars_SuggestedReviewers := ars_SuggestedReviewers s; ars_RequestedResourceIDs := ars_RequestedResourceIDs s;
  ars_LoginHint := ars_LoginHint s; ars_DryRun := ars_DryRun s; ars_MaxDuration := ars_MaxDuration s;
  ars_SessionTTL := ars_SessionTTL s; ars_AccessList := ars_AccessList s;
  ars_AssumeStartTime := ars_AssumeStartTime s; ars_ResourceExpiry := v;
  ars_DryRunEnrichment := ars_DryRunEnrichment s; ars_RequestKind := ars_RequestKind s;
  ars_LongTermGrouping := ars_LongTermGrouping s;
  ars_RequestedResourceAccessIDs := ars_RequestedResourceAccessIDs s |}.

Definition spec_DryRunEnrichment (v : option DryRunEnrichment) (s : AccessRequestSpecV3) : AccessRequestSpecV3 := {|
  ars_User := ars_User s; ars_Roles := ars_Roles s; ars_State := ars_State s; ars_Created := ars_Created s;
  ars_Expires := ars_Expires s; ars_RequestReason := ars_RequestReason s;
  ars_ResolveReason := ars_ResolveReason s; ars_ResolveAnnotations := ars_ResolveAnnotations s;
  ars_SystemAnnotations := ars_SystemAnnotations s; ars_Thresholds := ars_Thresholds s;
  ars_RoleThresholdMapping := ars_RoleThresholdMapping s; ars_Reviews := ars_Reviews s;
  ars_SuggestedReviewers := ars_SuggestedReviewers s; ars_RequestedResourceIDs := ars_RequestedResourceIDs s;
  ars_LoginHint := ars_LoginHint s; ars_DryRun := ars_DryRun s; ars_MaxDuration := ars_MaxDuration s;
  ars_SessionTTL := ars_SessionTTL s; ars_AccessList := ars_AccessList s;
  ars_AssumeStartTime := ars_AssumeStartTime s; ars_ResourceExpiry := ars_ResourceExpiry s;
  ars_DryRunEnrichment := v; ars_RequestKind := ars_RequestKind s;
  ars_LongTermGrouping := ars_LongTermGrouping s;
  ars_RequestedResourceAccessIDs := ars_RequestedResourceAccessIDs s |}.

Definition spec_RequestedResourceAccessIDs (v : list ResourceAccessID) (s : AccessRequestSpecV3) : AccessRequestSpecV3 := {|
  ars_User := ars_User s; ars_Roles := ars_Roles s; ars_State := ars_State s; ars_Created := ars_Created s;
  ars_Expires := ars_Expires s; ars_RequestReason := ars_RequestReason s;
  ars_ResolveReason := ars_ResolveReason s; ars_ResolveAnnotations := ars_ResolveAnnotations s;
  ars_SystemAnnotations := ars_SystemAnnotations s; ars_Thresholds := ars_Thresholds s;
  ars_RoleThresholdMapping := ars_RoleThresholdMapping s; ars_Reviews := ars_Reviews s;
  ars_SuggestedReviewers := ars_SuggestedReviewers s; ars_RequestedResourceIDs := ars_RequestedResourceIDs s;
  ars_LoginHint := ars_LoginHint s; ars_DryRun := ars_DryRun s; ars_MaxDuration := ars_MaxDuration s;
  ars_SessionTTL := ars_SessionTTL s; ars_AccessList := ars_AccessList s;
  ars_AssumeStartTime := ars_AssumeStartTime s; ars_ResourceExpiry := ars_ResourceExpiry s;
  ars_DryRunEnrichment := ars_DryRunEnrichment s; ars_RequestKind := ars_RequestKind s;
  ars_LongTermGrouping := ars_LongTermGrouping s; ars_RequestedResourceAccessIDs := v |}.

(** ** The methods of a request *)

Definition GetUser (r : AccessRequestV3) : string := ars_User (ar_Spec r).
Definition GetRoles (r : AccessRequestV3) : list string := ars_Roles (ar_Spec r).
Definition GetState (r : AccessRequestV3) : RequestState := ars_State (ar_Spec r).
Definition GetCreationTime (r : AccessRequestV3) : time := ars_Created (ar_Spec r).
Definition GetAccessExpiry (r : AccessRequestV3) : time := ars_Expires (ar_Spec r).
Definition GetThresholds (r : AccessRequestV3) : list AccessReviewThreshold := ars_Thresholds (ar_Spec r).
Definition GetRoleThresholdMapping (r : AccessRequestV3) : gmap string ThresholdIndexSets :=
  ars_RoleThresholdMapping (ar_Spec r).
Definition GetReviews (r : AccessRequestV3) : list AccessReview := ars_Reviews (ar_Spec r).
Definition request_GetName (r : AccessRequestV3) : string := md_Name (ar_Metadata r).
Definition GetRevision (r : AccessRequestV3) : string := md_Revision (ar_Metadata r).

Definition SetRoles (roles : list string) := on_spec (spec_Roles roles).
Definition SetCreationTime (t : time) := on_spec (spec_Created t).
Definition SetAccessExpiry (t : time) := on_spec (spec_Expires t).
Definition SetResolveReason (reason : string) := on_spec (spec_ResolveReason reason).
Definition SetResolveAnnotations (annotations : traits) := on_spec (spec_ResolveAnnotations annotations).
Definition SetSystemAnnotations (annotations : traits) := on_spec (spec_SystemAnnotations annotations).
Definition SetThresholds (thresholds : list AccessReviewThreshold) := on_spec (spec_Thresholds thresholds).
Definition SetRoleThresholdMapping (rtm : gmap string ThresholdIndexSets) := on_spec (spec_RoleThresholdMapping rtm).
Definition SetReviews (revs : list AccessReview) := on_spec (spec_Reviews revs).
Definition SetSuggestedReviewers (reviewers : list string) := on_spec (spec_SuggestedReviewers reviewers).
Definition SetMaxDuration (t : time) := on_spec (spec_MaxDuration t).
Definition SetSessionTLL (t : time) := on_spec (spec_SessionTTL t).
Definition SetAssumeStartTime (t : time) := on_spec (spec_AssumeStartTime (Some t)).
Definition SetExpiry (t : time) := on_spec (spec_ResourceExpiry (Some t)).
Definition SetDryRunEnrichment (e : DryRunEnrichment) := on_spec (spec_DryRunEnrichment (Some e)).
Definition SetRequestedResourceIDs (ids : list ResourceID) := on_spec (spec_RequestedResourceIDs ids).
Definition SetRequestedResourceAccessIDs (ids : list ResourceAccessID) := on_spec (spec_RequestedResourceAccessIDs ids).

Definition SetRevision (rev : string) : AccessRequestV3 -> AccessRequestV3 := on_metadata (fun m =>
  {| md_Name := md_Name m; md_Namespace := md_Namespace m; md_Description := md_Description m; md_Labels := md_Labels m; md_Expires := md_Expires m;
     md_Revision := rev |}).

(** A resolved request keeps its state. *)
Definition SetState (state : RequestState) (r : AccessRequestV3) : result AccessRequestV3 :=
  fail_if negb (GetState r =? state) && IsResolved (GetState r)
    with BadParameter "cannot set request-state %q (already %s)" [state_String state; state_String (GetState r)];
  Ok (on_spec (spec_State state) r).

(** The roles the request was made for, also after a selection of them. *)
Definition GetOriginalRoles (r : AccessRequestV3) : list string :=
  let l := size (GetRoleThresholdMapping r) in
  if (l =? 0)%nat || (l =? length (GetRoles r))%nat then GetRoles r
  else merge_sort at_most (map_to_list (GetRoleThresholdMapping r)).*1.

Definition Expiry (r : AccessRequestV3) : time :=
  match ars_ResourceExpiry (ar_Spec r) with
  | Some t => t
  | None => default zero_time (md_Expires (ar_Metadata r))
  end.

Definition GetPromotedAccessListName (r : AccessRequestV3) : string :=
  match ars_AccessList (ar_Spec r) with None => "" | Some l => pal_Name l end.
Definition GetPromotedAccessListTitle (r : AccessRequestV3) : string :=
  match ars_AccessList (ar_Spec r) with None => "" | Some l => pal_Title l end.

Definition SetPromotedAccessListName (name : string) (r : AccessRequestV3) : AccessRequestV3 :=
  on_spec (spec_AccessList (Some {| pal_Name := name; pal_Title := GetPromotedAccessListTitle r |})) r.
Definition SetPromotedAccessListTitle (title : string) (r : AccessRequestV3) : AccessRequestV3 :=
  on_spec (spec_AccessList (Some {| pal_Name := GetPromotedAccessListName r; pal_Title := title |})) r.

(** [GetAccessListName] and [GetAccessListTitle] of a review *)
Definition GetAccessListName (rev : AccessReview) : string :=
  match rev_AccessList rev with None => "" | Some l => pal_Name l end.
Definition GetAccessListTitle (rev : AccessReview) : string :=
  match rev_AccessList rev with None => "" | Some l => pal_Title l end.

Definition GetReferencedUsers (r : AccessRequestV3) : list string :=
  ([GetUser r] ++ (rev_Author <$> GetReviews r) ++ ars_SuggestedReviewers (ar_Spec r))%list.

(** [AccessRequestKind]: long term, or else short term *)
Definition AccessRequestKind_LONG_TERM : Z := 2.
Definition IsLongTerm (kind : Z) : bool := kind =? AccessRequestKind_LONG_TERM.

(** *** The resources it asks for *)

Definition ResourceIDSentinelValue := "__SENTINEL__".

Definition CreateSentinelResourceID : ResourceID :=
  {| rid_ClusterName := ResourceIDSentinelValue; rid_Kind := KindNode; rid_Name := ResourceIDSentinelValue;
     rid_SubResourceName := "" |}.

Definition IsSentinelResourceID (id : ResourceID) : bool :=
  bool_decide (rid_ClusterName id = ResourceIDSentinelValue) && bool_decide (rid_Kind id = KindNode) &&
  bool_decide (rid_Name id = ResourceIDSentinelValue).

Definition GetRequestedResourceIDs (r : AccessRequestV3) : list ResourceID :=
  List.filter (fun id => negb (IsSentinelResourceID id)) (ars_RequestedResourceIDs (ar_Spec r)).

Definition GetRequestedResourceAccessIDs (r : AccessRequestV3) : list ResourceAccessID :=
  ars_RequestedResourceAccessIDs (ar_Spec r).

Definition GetAllRequestedResourceIDs (r : AccessRequestV3) : list ResourceAccessID :=
  (((fun rid => {| GetResourceID := rid; GetConstraints := None |}) <$>
      List.filter (fun rid => negb (IsSentinelResourceID rid)) (ars_RequestedResourceIDs (ar_Spec r))) ++
   ars_RequestedResourceAccessIDs (ar_Spec r))%list.

(** ** Checks *)

Definition isValidLabelKeyByte (b : byte) : bool :=
  let c := code b in
  ((48 <=? c) && (c <=? 57)) || ((97 <=? c) && (c <=? 122)) || ((65 <=? c) && (c <=? 90)) ||
  ContainsByte "/._:*-" b.

Definition IsValidLabelKey (s : string) : bool :=
  negb (len s =? 0) && forallb isValidLabelKeyByte (bytes_of s).

Definition ValidateNamespaceDefault (ns : string) : result unit :=
  fail_if negb (bool_decide (ns = DefaultNamespace))
    with BadParameter "namespace %q invalid, custom namespaces are deprecated; the namespace field should be omitted or set to %q"
           [ns; DefaultNamespace];
  Ok tt.

Definition OriginLabel := "teleport.dev/origin".
Definition OriginValues : list string :=
  ["defaults"; "config-file"; "dynamic"; "cloud"; "kubernetes"; "okta"; "scim"; "discovery-kubernetes"; "entra-id";
   "aws-identity-center"; "integration_awsrolesanywhere"].

Definition Origin (m : Metadata) : string := map_get (md_Labels m) OriginLabel.

Definition Metadata_CheckAndSetDefaults `{MapOrder string} (m : Metadata) : result Metadata :=
  fail_if bool_decide (md_Name m = "") with BadParameter "missing parameter Name" [];
  let namespace := if bool_decide (md_Namespace m = "") then DefaultNamespace else md_Namespace m in
  check ValidateNamespaceDefault namespace;
  match find (fun l => negb (IsValidLabelKey l.1)) (range (md_Labels m)) with
  | Some l => Err (BadParameter "invalid label key: %q" [l.1])
  | None =>
      fail_if negb (bool_decide (Origin m = "")) && negb (slices_Contains OriginValues (Origin m))
        with BadParameter "invalid origin value %q, must be one of %v" (Origin m :: OriginValues);
      Ok {| md_Name := md_Name m; md_Namespace := namespace; md_Description := md_Description m; md_Labels := md_Labels m; md_Expires := md_Expires m;
            md_Revision := md_Revision m |}
  end.

Definition KindAccessRequest := "access_request".

Definition setStaticFields (r : AccessRequestV3) : AccessRequestV3 :=
  {| ar_Kind := KindAccessRequest; ar_SubKind := ar_SubKind r; ar_Version := V3; ar_Metadata := ar_Metadata r;
     ar_Spec := ar_Spec r |}.

Section Check.
Context `{MapOrder string}.

Definition request_CheckAndSetDefaults (r : AccessRequestV3) : result AccessRequestV3 :=
  let r := setStaticFields r in
  let? m := Metadata_CheckAndSetDefaults (ar_Metadata r) in
  let r := on_metadata (fun _ => m) r in
  let r := if IsNone (GetState r) then on_spec (spec_State RequestState_PENDING) r else r in
  fail_if IsPending (GetState r) && negb (bool_decide (ars_ResolveReason (ar_Spec r) = ""))
    with BadParameter "pending requests cannot include resolve reason" [];
  fail_if IsPending (GetState r) && negb (bool_decide (size (ars_ResolveAnnotations (ar_Spec r)) = 0%nat))
    with BadParameter "pending requests cannot include resolve annotations" [];
  fail_if bool_decide (GetUser r = "") with BadParameter "access request user name not set" [];
  fail_if bool_decide (GetRoles r = []) && bool_decide (length (GetAllRequestedResourceIDs r) = 0%nat)
    with BadParameter "access request does not specify any roles or resources" [];
  let r := SetRoles (merge_sort at_most (Deduplicate (GetRoles r))) r in
  Ok (if bool_decide (length (ars_RequestedResourceIDs (ar_Spec r)) = 0%nat) &&
         bool_decide (0 < length (ars_RequestedResourceAccessIDs (ar_Spec r)))%nat
      then on_spec (spec_RequestedResourceIDs [CreateSentinelResourceID]) r else r).
End Check.

(** [AccessReview.Check] and [AccessReviewSubmission.Check] *)
Definition review_Check (s : AccessReview) : result unit :=
  fail_if bool_decide (rev_Author s = "") with BadParameter "missing review author" [];
  Ok tt.

Definition submission_Check (s : AccessReviewSubmission) : result unit :=
  fail_if bool_decide (sub_RequestID s = "") with BadParameter "missing request ID" [];
  review_Check (sub_Review s).

Record AccessRequestUpdate := {
  upd_RequestID : string;
  upd_State : RequestState;
  upd_Reason : string;
  upd_Annotations : traits;
  upd_Roles : list string;
  upd_AssumeStartTime : option time;
}.

Definition update_Check (u : AccessRequestUpdate) : result unit :=
  fail_if bool_decide (upd_RequestID u = "") with BadParameter "missing request id" [];
  fail_if IsNone (upd_State u) with BadParameter "missing request state" [];
  fail_if negb (bool_decide (upd_Roles u = [])) && negb (IsApproved (upd_State u))
    with BadParameter "cannot override roles when setting state: %s" [state_String (upd_State u)];
  Ok tt.

(** [constants.MaxAssumeStartDuration] *)
Definition MaxAssumeStartDuration : duration := Hour * 24 * 7.

(** The times are written into the message in the layout of RFC 3339, which
    stays out of the model. *)
Definition ValidateAssumeStartTime (assumeStartTime accessExpiry creationTime : time) : result unit :=
  fail_if assumeStartTime <? creationTime with BadParameter "assume start time has to be after %v" [];
  fail_if (accessExpiry <? assumeStartTime) || (assumeStartTime =? accessExpiry)
    with BadParameter "assume start time must be prior to access expiry time at %v" [];
  let maxAssumableStartTime := creationTime + MaxAssumeStartDuration in
  fail_if (maxAssumableStartTime <? accessExpiry) && (maxAssumableStartTime <? assumeStartTime)
    with BadParameter "assume start time is too far in the future, latest time allowed is %v" [];
  Ok tt.

(** ** What the options of a role say *)

Definition RequestReasonModeRequired := "required".
Definition RequestReasonModeOptional := "optional".
Definition mode_Required (m : string) : bool := bool_decide (m = RequestReasonModeRequired).
Definition mode_Check (m : string) : result unit :=
  fail_if negb (slices_Contains [RequestReasonModeRequired; RequestReasonModeOptional] m)
    with BadParameter "unrecognized request reason mode %q, must be one of: %v"
           [m; RequestReasonModeRequired; RequestReasonModeOptional];
  Ok tt.

Definition RequestStrategyReason := "reason".
Definition RequestStrategyAlways := "always".
Definition ShouldAutoRequest (s : string) : bool :=
  bool_decide (s = RequestStrategyReason) || bool_decide (s = RequestStrategyAlways).
Definition RequireReason (s : string) : bool := bool_decide (s = RequestStrategyReason).

(** ** Filters *)

Definition AccessRequestScope_MY_REQUESTS : Z := 1.
Definition AccessRequestScope_NEEDS_REVIEW : Z := 2.
Definition AccessRequestScope_REVIEWED : Z := 3.

Record AccessRequestFilter := {
  f_ID : string;
  f_User : string;
  f_State : RequestState;
  f_SearchKeywords : list string;
  f_Scope : Z;
  f_Requester : string;
}.

Definition IntoMap (f : AccessRequestFilter) : gmap string string :=
  let m := if bool_decide (f_ID f = "") then ∅ else {[ "id" := f_ID f ]} in
  let m := if bool_decide (f_User f = "") then m else <["user" := f_User f]> m in
  if IsNone (f_State f) then m else <["state" := state_String (f_State f)]> m.

(** One entry of the map. *)
Definition from_entry (f : AccessRequestFilter) (e : string * string) : result AccessRequestFilter :=
  let '(key, val) := e in
  if bool_decide (key = "id") then
    Ok {| f_ID := val; f_User := f_User f; f_State := f_State f; f_SearchKeywords := f_SearchKeywords f;
          f_Scope := f_Scope f; f_Requester := f_Requester f |}
  else if bool_decide (key = "user") then
    Ok {| f_ID := f_ID f; f_User := val; f_State := f_State f; f_SearchKeywords := f_SearchKeywords f;
          f_Scope := f_Scope f; f_Requester := f_Requester f |}
  else if bool_decide (key = "state") then
    let? state := state_Parse val in
    Ok {| f_ID := f_ID f; f_User := f_User f; f_State := state; f_SearchKeywords := f_SearchKeywords f;
          f_Scope := f_Scope f; f_Requester := f_Requester f |}
  else Err (BadParameter "unknown filter key %s" [key]).

Fixpoint from_entries (f : AccessRequestFilter) (l : list (string * string)) : result AccessRequestFilter :=
  match l with
  | [] => Ok f
  | e :: l' => let? f := from_entry f e in from_entries f l'
  end.

Definition FromMap `{MapOrder string} (m : gmap string string) (f : AccessRequestFilter) : result AccessRequestFilter :=
  from_entries f (range m).

(** [strcase.Contains], of a third-party library: containment without regard
    to case *)
Class StrCase := strcase_Contains : string -> string -> bool.

Definition MatchSearch `{StrCase} (fieldVals searchVals : list string) : bool :=
  forallb (fun searchV => existsb (fun fieldV => strcase_Contains fieldV searchV) fieldVals) searchVals.

Definition SearchableFields `{MapOrder string} (r : AccessRequestV3) : list string :=
  ((range (md_Labels (ar_Metadata r)) ≫= fun l => [l.1; l.2]) ++ [request_GetName r; GetUser r] ++ GetRoles r ++
   (rid_Name <$> GetRequestedResourceIDs r))%list.

Definition hasReviewed (r : AccessRequestV3) (author : string) : bool :=
  slices_Contains (rev_Author <$> GetReviews r) author.

Definition filter_Match `{StrCase} `{MapOrder string} (f : AccessRequestFilter) (r : AccessRequestV3) : bool :=
  let own := bool_decide (GetUser r = f_Requester f) in
  if (f_Scope f =? AccessRequestScope_MY_REQUESTS) && negb own then false
  else if (f_Scope f =? AccessRequestScope_NEEDS_REVIEW) &&
          (own || negb (GetState r =? RequestState_PENDING) || hasReviewed r (f_Requester f)) then false
  else if (f_Scope f =? AccessRequestScope_REVIEWED) && (own || negb (hasReviewed r (f_Requester f))) then false
  else if negb (MatchSearch (SearchableFields r) (f_SearchKeywords f)) then false
  else if negb (bool_decide (f_ID f = "")) && negb (bool_decide (request_GetName r = f_ID f)) then false
  else if negb (bool_decide (f_User f = "")) && negb (bool_decide (GetUser r = f_User f)) then false
  else if negb (IsNone (f_State f)) && negb (GetState r =? f_State f) then false
  else true.

(** ** Validation: [ValidateAccessRequest] *)

Definition maxAccessRequestReasonSize : Z := 4096.
Definition maxResourcesPerRequest : Z := 300.

(** [uuid.Parse], of a third-party library: whether a name is an identifier *)
Class UUIDs := uuid_Parse : string -> bool.

(** The constraints of one resource: what the checks leave of them. *)
Definition validate_constraints (allowUnenforceable : bool) (r : ResourceAccessID) : result ResourceAccessID :=
  match GetConstraints r with
  | None => Ok r
  | Some rc =>
      if allowUnenforceable && Unenforceable (Some rc) then Ok r
      else
        let? rc := constraints_CheckAndSetDefaults rc in
        let kind := rid_Kind (GetResourceID r) in
        check
          match con_Details rc with
          | Some (AwsConsole _) =>
              fail_if negb (bool_decide (kind = KindApp))
                with BadParameter "aws_console constraints are not valid for resource kind %q" [kind]; Ok tt
          | Some (Ssh _) =>
              fail_if negb (bool_decide (kind = KindNode))
                with BadParameter "ssh constraints are not valid for resource kind %q" [kind]; Ok tt
          | None => Err (BadParameter "unsupported constraint type %T for resource kind %q" [kind])
          end;
        Ok {| GetResourceID := GetResourceID r; GetConstraints := Some rc |}
  end.

Fixpoint validate_all_constraints (allowUnenforceable : bool) (l : list ResourceAccessID) : result (list ResourceAccessID) :=
  match l with
  | [] => Ok []
  | r :: l' =>
      let? r := validate_constraints allowUnenforceable r in
      let? l' := validate_all_constraints allowUnenforceable l' in
      Ok (r :: l')
  end.

Section Validate.
Context `{MapOrder string} `{UUIDs}.

Definition validateAccessRequest (allowUnenforceable : bool) (ar : AccessRequestV3) : result AccessRequestV3 :=
  let? ar := request_CheckAndSetDefaults ar in
  fail_if negb (uuid_Parse (request_GetName ar)) with BadParameter "invalid access request ID %q" [request_GetName ar];
  fail_if maxAccessRequestReasonSize <? len (ars_RequestReason (ar_Spec ar))
    with BadParameter "access request reason is too long, max %v bytes" [pretty maxAccessRequestReasonSize];
  fail_if maxAccessRequestReasonSize <? len (ars_ResolveReason (ar_Spec ar))
    with BadParameter "access request resolve reason is too long, max %v bytes" [pretty maxAccessRequestReasonSize];
  let l := Z.of_nat (length (GetAllRequestedResourceIDs ar)) in
  fail_if maxResourcesPerRequest <? l
    with BadParameter "access request contains too many resources (%v), max %v" [pretty l; pretty maxResourcesPerRequest];
  let? ids := validate_all_constraints allowUnenforceable (GetRequestedResourceAccessIDs ar) in
  Ok (SetRequestedResourceAccessIDs ids ar).

Definition ValidateAccessRequest : AccessRequestV3 -> result AccessRequestV3 := validateAccessRequest false.
End Validate.

(** ** Validation is idempotent *)

(** A list of roles that has been sorted and cleared of repetitions stays. *)
Lemma Deduplicate_NoDup l : NoDup l -> Deduplicate l = l.
Proof.
  intros Hn. unfold Deduplicate. assert (Hd : forall seen, (forall x, x ∈ l -> x ∉ seen) -> dedup_loop seen l = l).
  { induction Hn as [|x l Hx Hn IH]; intros seen Hs; [done|]. simpl.
    rewrite (proj2 (slices_Contains_false seen x)) by set_solver. f_equal. apply IH. set_solver. }
  destruct l as [|x [|y l]]; [done..|]. apply Hd. set_solver.
Qed.

Definition sorted_roles (l : list string) : list string := merge_sort at_most (Deduplicate l).

Lemma sorted_roles_idempotent l : sorted_roles (sorted_roles l) = sorted_roles l.
Proof.
  unfold sorted_roles. rewrite (Deduplicate_NoDup (merge_sort _ _)).
  - apply (StronglySorted_unique at_most); [apply (StronglySorted_merge_sort at_most)..|apply merge_sort_Permutation].
  - rewrite merge_sort_Permutation. apply NoDup_Deduplicate.
Qed.

Lemma sorted_roles_nil l : sorted_roles l = [] <-> l = [].
Proof.
  split; [|by intros ->]. intros E. destruct l as [|x l]; [done|].
  assert (Hx : x ∈ sorted_roles (x :: l)).
  { unfold sorted_roles. rewrite merge_sort_Permutation, elem_of_Deduplicate. by left. }
  rewrite E in Hx. by apply elem_of_nil in Hx.
Qed.

Section Idempotent.
Context `{MapOrder string} `{UUIDs}.

Lemma Metadata_check_ok m m' : Metadata_CheckAndSetDefaults m = Ok m' ->
  (forall v, Metadata_CheckAndSetDefaults
     {| md_Name := md_Name m'; md_Namespace := md_Namespace m'; md_Description := md_Description m'; md_Labels := md_Labels m'; md_Expires := md_Expires m';
        md_Revision := v |} =
   Ok {| md_Name := md_Name m'; md_Namespace := md_Namespace m'; md_Description := md_Description m'; md_Labels := md_Labels m'; md_Expires := md_Expires m';
        md_Revision := v |}) /\ md_Name m' = md_Name m /\ md_Revision m' = md_Revision m.
Proof.
  unfold Metadata_CheckAndSetDefaults. intros E. apply fail_if_ok in E as [Hn E]. apply rbind_ok in E as ([] & Hns & E).
  destruct (find _ _) eqn:Hf in E; [done|]. apply fail_if_ok in E as [Ho [= <-]]. simpl. split; [|done]. intros v.
  rewrite Hn. set (ns := if bool_decide (md_Namespace m = "") then _ else _) in *.
  assert (bool_decide (ns = "") = false) as -> by (unfold ns; by repeat case_bool_decide).
  rewrite Hns. simpl. rewrite Hf. unfold Origin in *. simpl. by rewrite Ho.
Qed.

Lemma constraints_ok allow l l' : validate_all_constraints allow l = Ok l' ->
  allow = false -> (forall b, validate_all_constraints b l' = Ok l') /\ length l' = length l.
Proof.
  intros E ->. revert l' E. induction l as [|r l IH]; intros l' E; simpl in E; [by injection E as <-|].
  apply rbind_ok in E as (r' & Hr & E). apply rbind_ok in E as (l1 & Hl & [= <-]).
  destruct (IH l1 Hl) as [Hv Hlen]. split; [|by simpl; rewrite Hlen]. intros b. simpl. rewrite Hv.
  assert (validate_constraints b r' = Ok r') as ->; [|done]. clear -Hr. unfold validate_constraints in *.
  destruct (GetConstraints r) as [rc|] eqn:Ec; [|injection Hr as <-; by rewrite Ec]. simpl in Hr.
  apply rbind_ok in Hr as (rc' & Hrc & Hr). apply rbind_ok in Hr as ([] & Hk & [= <-]). simpl.
  unfold constraints_CheckAndSetDefaults in Hrc. apply fail_if_ok in Hrc as [_ Hrc].
  destruct (con_Details rc) as [d|]; [|done]. apply rbind_ok in Hrc as ([] & Hd & [= <-]). simpl in *.
  rewrite andb_false_r. unfold constraints_CheckAndSetDefaults. simpl. rewrite Hd. simpl. by rewrite Hk.
Qed.

(** What the check leaves as it is, whatever its revision. *)
Record settled_request (r : AccessRequestV3) : Prop := {
  se_kind : ar_Kind r = KindAccessRequest;
  se_version : ar_Version r = V3;
  se_metadata v : let m := ar_Metadata (SetRevision v r) in Metadata_CheckAndSetDefaults m = Ok m;
  se_state : IsNone (GetState r) = false;
  se_reason : IsPending (GetState r) && negb (bool_decide (ars_ResolveReason (ar_Spec r) = "")) = false;
  se_annotations :
    IsPending (GetState r) && negb (bool_decide (size (ars_ResolveAnnotations (ar_Spec r)) = 0%nat)) = false;
  se_user : bool_decide (GetUser r = "") = false;
  se_roles : bool_decide (GetRoles r = []) && bool_decide (length (GetAllRequestedResourceIDs r) = 0%nat) = false;
  se_sorted : sorted_roles (GetRoles r) = GetRoles r;
  se_ids : bool_decide (length (ars_RequestedResourceIDs (ar_Spec r)) = 0%nat) &&
    bool_decide (0 < length (ars_RequestedResourceAccessIDs (ar_Spec r)))%nat = false;
}.

Lemma check_settled r v : settled_request r -> request_CheckAndSetDefaults (SetRevision v r) = Ok (SetRevision v r).
Proof.
  destruct r as [kind sub version md spec]. intros [Hk Hv Hm Hs H1 H2 H3 H4 Hr Hi].
  cbn [ar_Kind ar_Version ar_Spec] in *. subst. specialize (Hm v). set (r := {| ar_Kind := _ |}) in *.
  unfold request_CheckAndSetDefaults. change (setStaticFields (SetRevision v r)) with (SetRevision v r). cbv zeta in Hm |- *.
  rewrite Hm. cbn [rbind]. change (on_metadata (fun _ => ar_Metadata (SetRevision v r)) (SetRevision v r)) with (SetRevision v r).
  change (GetState (SetRevision v r)) with (GetState r). rewrite Hs.
  change (ar_Spec (SetRevision v r)) with spec. change (GetState (SetRevision v r)) with (GetState r).
  change (GetUser (SetRevision v r)) with (GetUser r). change (GetRoles (SetRevision v r)) with (GetRoles r).
  change (GetAllRequestedResourceIDs (SetRevision v r)) with (GetAllRequestedResourceIDs r).
  rewrite H1, H2, H3, H4. fold (sorted_roles (GetRoles r)). rewrite Hr.
  assert (Hsame : SetRoles (GetRoles r) (SetRevision v r) = SetRevision v r) by (unfold r; destruct spec; done).
  rewrite Hsame. change (ar_Spec (SetRevision v r)) with spec. by rewrite Hi.
Qed.

Lemma GetAll_sentinel r : GetAllRequestedResourceIDs (on_spec (spec_RequestedResourceIDs [CreateSentinelResourceID]) r) =
  ars_RequestedResourceAccessIDs (ar_Spec r).
Proof. done. Qed.

Lemma request_check_ok r r' : request_CheckAndSetDefaults r = Ok r' ->
  settled_request r' /\ request_GetName r' = request_GetName r /\ GetRevision r' = GetRevision r.
Proof.
  unfold request_CheckAndSetDefaults. intros E. apply rbind_ok in E as (m & Hm & E).
  apply Metadata_check_ok in Hm as (Hm & Hname & Hrev).
  set (r1 := if IsNone _ then _ else _) in E. apply fail_if_ok in E as [H1 E]. apply fail_if_ok in E as [H2 E].
  apply fail_if_ok in E as [H3 E]. apply fail_if_ok in E as [H4 E].
  assert (Hr1 : ar_Kind r1 = KindAccessRequest /\ ar_Version r1 = V3 /\ ar_Metadata r1 = m /\ IsNone (GetState r1) = false).
  { unfold r1. destruct (IsNone (GetState (on_metadata _ _))) eqn:En; [done|by rewrite En]. }
  clearbody r1. destruct Hr1 as (Ek & Ev & Em & Hs). fold (sorted_roles (GetRoles r1)) in E.
  assert (Hfix : sorted_roles (GetRoles r') = GetRoles r' /\
    ar_Kind r' = KindAccessRequest /\ ar_Version r' = V3 /\ ar_Metadata r' = m /\ GetState r' = GetState r1 /\
    ars_ResolveReason (ar_Spec r') = ars_ResolveReason (ar_Spec r1) /\
    ars_ResolveAnnotations (ar_Spec r') = ars_ResolveAnnotations (ar_Spec r1) /\ GetUser r' = GetUser r1 /\
    GetRoles r' = sorted_roles (GetRoles r1) /\ length (GetAllRequestedResourceIDs r') = length (GetAllRequestedResourceIDs r1) /\
    bool_decide (length (ars_RequestedResourceIDs (ar_Spec r')) = 0%nat) &&
      bool_decide (0 < length (ars_RequestedResourceAccessIDs (ar_Spec r')))%nat = false).
  { injection E as <-. simpl ars_RequestedResourceIDs. simpl ars_RequestedResourceAccessIDs.
    destruct (bool_decide (length (ars_RequestedResourceIDs (ar_Spec r1)) = 0%nat) &&
              bool_decide (0 < length (ars_RequestedResourceAccessIDs (ar_Spec r1)))%nat) eqn:Ei.
    - split_and!; try done; [apply sorted_roles_idempotent|]. rewrite GetAll_sentinel.
      unfold GetAllRequestedResourceIDs. apply andb_true_iff in Ei as [Ei _]. apply bool_decide_eq_true in Ei.
      by destruct (ars_RequestedResourceIDs (ar_Spec r1)).
    - split_and!; try done. apply sorted_roles_idempotent. }
  destruct Hfix as (F1 & F2 & F3 & F4 & F5 & F6 & F7 & F8 & F9 & F10 & F11). split.
  - split; rewrite ?F5, ?F6, ?F7, ?F8, ?F10; try done.
    + intros v m'. unfold m', SetRevision. simpl. rewrite F4. apply Hm.
    + by rewrite F9, (bool_decide_ext _ _ (sorted_roles_nil _)).
  - unfold request_GetName, GetRevision. by rewrite F4.
Qed.

(** Other constraints on the same resources change nothing. *)
Lemma ids_settled r ids : settled_request r -> length ids = length (GetRequestedResourceAccessIDs r) ->
  settled_request (SetRequestedResourceAccessIDs ids r).
Proof.
  intros [? ? ? ? ? ? ? Hr ? Hi] Hlen. unfold GetRequestedResourceAccessIDs in Hlen. split; try done.
  - unfold GetAllRequestedResourceIDs in *. simpl in *. rewrite length_app in *. by rewrite Hlen.
  - simpl. by rewrite Hlen.
Qed.

(** What [ValidateAccessRequest] lets through it lets through again, unchanged,
    under any revision. *)
Lemma validate_idempotent r r' : ValidateAccessRequest r = Ok r' ->
  (forall b v, validateAccessRequest b (SetRevision v r') = Ok (SetRevision v r')) /\
  request_GetName r' = request_GetName r /\ GetRevision r' = GetRevision r.
Proof.
  unfold ValidateAccessRequest, validateAccessRequest. intros E. apply rbind_ok in E as (r1 & Hr1 & E).
  apply request_check_ok in Hr1 as (Hset & Hname & Hrev). apply fail_if_ok in E as [H1 E]. apply fail_if_ok in E as [H2 E].
  apply fail_if_ok in E as [H3 E]. apply fail_if_ok in E as [H4 E]. apply rbind_ok in E as (ids & Hids & [= <-]).
  apply constraints_ok in Hids as [Hids Hlen]; [|done]. split; [|done]. intros b v.
  set (r2 := SetRequestedResourceAccessIDs ids r1).
  assert (Hall : length (GetAllRequestedResourceIDs r2) = length (GetAllRequestedResourceIDs r1)).
  { unfold GetAllRequestedResourceIDs. simpl. rewrite !length_app. unfold GetRequestedResourceAccessIDs in Hlen. lia. }
  assert (Hc : request_CheckAndSetDefaults (SetRevision v r2) = Ok (SetRevision v r2))
    by (apply check_settled; by apply ids_settled).
  rewrite Hc. cbn [rbind]. change (request_GetName (SetRevision v r2)) with (request_GetName r1). rewrite H1.
  change (ars_RequestReason (ar_Spec (SetRevision v r2))) with (ars_RequestReason (ar_Spec r1)). rewrite H2.
  change (ars_ResolveReason (ar_Spec (SetRevision v r2))) with (ars_ResolveReason (ar_Spec r1)). rewrite H3.
  change (GetAllRequestedResourceIDs (SetRevision v r2)) with (GetAllRequestedResourceIDs r2). rewrite Hall, H4.
  change (GetRequestedResourceAccessIDs (SetRevision v r2)) with ids. rewrite Hids. simpl.
  unfold r2. destruct r1 as [? ? ? ? []]. done.
Qed.
End Idempotent.
