(* ===== verification/AccessReview.v ===== *)
(** * Access reviews: [lib/services/access_request.go]

    Who may review a request, and what a review does to it.  The roles a user
    may request or review are given by matchers ([lib/utils/parse]), globs and
    regular expressions or calls of the two matcher functions.  A review is
    checked, gets the indexes of the thresholds whose filter it passes, is
    appended to the request, and all the reviews are then counted against the
    thresholds of each role.

    The predicates of review permissions and threshold filters are parsed by a
    third-party library, as are the calls of matcher functions: they are the
    classes [ReviewPredicates] and [MatcherCalls]. *)

From S2P Require Import Prelude GoStrings Utf8 Types Regexp Traits Service Roles Checker Autoupdate AccessRequest.

Definition NotImplemented (fmt : string) (args : list string) : error := Error KNotImplemented fmt args [].
Definition Errorf (fmt : string) (args : list string) : error := Error KOther fmt args [].

Definition uint32 (z : Z) : Z := z mod 2 ^ 32.

(** ** Matchers: [lib/utils/parse/parse.go] *)

(** The longest start without a brace, and the rest. *)
Fixpoint span_plain (s : string) : string * string :=
  match s with
  | EmptyString => ("", "")
  | String a s' =>
      if ContainsByte "{}" a then ("", s)
      else let '(p, r) := span_plain s' in (String a p, r)
  end.

(** The submatches of [reVariable]: the prefix, the expression between double
    braces, and the suffix *)
Definition reVariable (value : string) : option (string * string * string) :=
  let '(prefix, r) := span_plain value in
  r ← CutPrefix r "{{";
  let '(expression, r) := span_plain r in
  suffix ← CutPrefix r "}}";
  if bool_decide ((span_plain suffix).2 = "") then Some (prefix, expression, suffix) else None.

(** The calls the matcher parser accepts: the environment has no variables and
    two functions of a string. *)
Inductive MatcherCall :=
| call_match (expression : string)
| call_not_match (expression : string).

Class MatcherCalls := matcherParser_Parse : string -> result MatcherCall.

Section Matchers.
Context `{RegexpEngine} `{MatcherCalls}.

Inductive regexp_matcher :=
| matcher (re : regexp)
| notMatcher (re : regexp).

Inductive Matcher :=
| MatchExpression (prefix suffix : string) (m : regexp_matcher)
| literalMatcher (value : string).

(** [newRegexp] *)
Definition newRegexp (raw : string) (escape : bool) : result regexp :=
  let raw := if escape then expressionToRegexp raw else raw in
  rmap_err (fun e => BadParameter "failed to parse regexp %q: %v" [raw; e_fmt e]) (re_Compile raw).

Definition parseMatcherExpression (raw : string) : result regexp_matcher :=
  let? c := matcherParser_Parse raw in
  match c with
  | call_match expression => let? re := newRegexp expression false in Ok (matcher re)
  | call_not_match expression => let? re := newRegexp expression false in Ok (notMatcher re)
  end.

Definition NewMatcher (value : string) : result Matcher :=
  match reVariable value with
  | None =>
      fail_if Contains value "{{" || Contains value "}}"
        with BadParameter "%q is using template brackets '{{' or '}}', however expression does not parse, make sure the format is {{expression}}" [value];
      let? re := newRegexp value true in
      Ok (MatchExpression "" "" (matcher re))
  | Some (prefix, expression, suffix) =>
      let? m := parseMatcherExpression expression in
      Ok (MatchExpression prefix suffix m)
  end.

Definition regexp_Match (m : regexp_matcher) (in_ : string) : bool :=
  match m with
  | matcher re => re_Find re in_
  | notMatcher re => negb (re_Find re in_)
  end.

(** [Match] of the kinds of matchers *)
Definition matcher_Match (m : Matcher) (in_ : string) : bool :=
  match m with
  | literalMatcher value => bool_decide (value = in_)
  | MatchExpression prefix suffix m =>
      if negb (HasPrefix in_ prefix) || negb (HasSuffix in_ suffix) then false
      else regexp_Match m (TrimSuffix (TrimPrefix in_ prefix) suffix)
  end.

Fixpoint NewMatchers (values : list string) : result (list Matcher) :=
  match values with
  | [] => Ok []
  | v :: values' =>
      let? m := NewMatcher v in
      let? ms := NewMatchers values' in
      Ok (m :: ms)
  end.

(** [NewAnyMatcher] *)
Definition any_matcher (in_ : list string) : result (string -> bool) :=
  let? ms := NewMatchers in_ in
  Ok (fun s => existsb (fun m => matcher_Match m s) ms).

Definition literalMatchers (literals : list string) : list Matcher := literalMatcher <$> literals.
End Matchers.

Arguments Matcher {_}.

(** ** Matchers of a role's conditions *)

(** [GetTraitMappings] of the claim mappings of a condition *)
Definition claim_mappings (cms : list ClaimMapping) : list TraitMapping :=
  (fun m => {| tm_Trait := cm_Claim m; tm_Value := cm_Value m; tm_Roles := cm_Roles m |}) <$> cms.

Section RoleMatchers.
Context `{RegexpCache} `{MatcherCalls} `{MapOrder (list string)}.

(** What the collector of [TraitsToRoleMatchers] does with the roles, in the
    order they are collected: the first failure is kept, the walk goes on. *)
Fixpoint collect_matchers (roles : list (string * bool)) : list Matcher * option error :=
  match roles with
  | [] => ([], None)
  | (role, expanded) :: roles' =>
      let '(ms, err) := collect_matchers roles' in
      if expanded || ContainsExpansion role then (literalMatcher role :: ms, err)
      else match NewMatcher role with
           | Ok m => (m :: ms, err)
           | Err e => (ms, Some e)
           end
  end.

Definition TraitsToRoleMatchers (ms : list TraitMapping) (ts : traits) : result (list Matcher) :=
  let '(matchers, firstErr) := collect_matchers (col_roles (traitsToRoles ms (range ts) empty_collector)) in
  match firstErr with
  | Some e => Err e
  | None => Ok matchers
  end.

Definition AppendRoleMatchers (matchers : list Matcher) (roles : list string) (cms : list ClaimMapping) (ts : traits)
  : result (list Matcher) :=
  let? rs := NewMatchers roles in
  let? ms := TraitsToRoleMatchers (claim_mappings cms) ts in
  Ok (matchers ++ rs ++ ms)%list.
End RoleMatchers.

(** ** Who may review *)

Record reviewAuthorContext := {
  rac_roles : list string;
  rac_traits : traits;
}.

Record reviewRequestContext := {
  rrc_roles : list string;
  rrc_reason : string;
  rrc_systemAnnotations : traits;
}.

Record reviewParamsContext := {
  rpc_reason : string;
  rpc_annotations : traits;
}.

Record reviewPermissionContext := {
  rp_reviewer : reviewAuthorContext;
  rp_request : reviewRequestContext;
}.

Record thresholdFilterContext := {
  tf_reviewer : reviewAuthorContext;
  tf_review : reviewParamsContext;
  tf_request : reviewRequestContext;
}.

Class ReviewPredicates := {
  parseReviewPermissionExpression : string -> result (reviewPermissionContext -> result bool);
  parseThresholdFilterExpression : string -> result (thresholdFilterContext -> result bool);
}.

Definition author_context (u : UserState) : reviewAuthorContext :=
  {| rac_roles := us_Roles u; rac_traits := us_Traits u |}.

Definition request_context (r : AccessRequestV3) : reviewRequestContext :=
  {| rrc_roles := GetOriginalRoles r; rrc_reason := ars_RequestReason (ar_Spec r);
     rrc_systemAnnotations := ars_SystemAnnotations (ar_Spec r) |}.

Section Permission.
Context `{RegexpCache} `{MatcherCalls} `{ReviewPredicates} `{MapOrder (list string)} `{MapOrder (list Matcher)}.

Record ReviewPermissionChecker := {
  rpc_UserState : UserState;
  AllowReview : gmap string (list Matcher);
  DenyReview : gmap string (list Matcher);
}.

Definition HasAllowDirectives (c : ReviewPermissionChecker) : bool :=
  existsb (fun e => bool_decide (0 < length e.2)%nat) (range (AllowReview c)).

(** Whether the predicate of a group of matchers, when there is one, holds. *)
Definition predicate_holds (rpc : reviewPermissionContext) (expr : string) : result bool :=
  if bool_decide (expr = "") then Ok true
  else let? parsed := parseReviewPermissionExpression expr in parsed rpc.

Definition any_match (ms : list Matcher) (role : string) : bool := existsb (fun m => matcher_Match m role) ms.

(** Whether one of the roles is denied. *)
Fixpoint deny_loop (rpc : reviewPermissionContext) (requestedRoles : list string) (l : list (string * list Matcher))
  : result bool :=
  match l with
  | [] => Ok false
  | (expr, denyMatchers) :: l' =>
      let? match_ := predicate_holds rpc expr in
      if match_ && existsb (any_match denyMatchers) requestedRoles then Ok true
      else deny_loop rpc requestedRoles l'
  end.

(** The roles that still need an allow directive in the end. *)
Fixpoint allow_loop (rpc : reviewPermissionContext) (needsAllow : list string) (l : list (string * list Matcher))
  : result (list string) :=
  match l with
  | [] => Ok needsAllow
  | (expr, allowMatchers) :: l' =>
      let? match_ := predicate_holds rpc expr in
      if negb match_ then allow_loop rpc needsAllow l'
      else
        let needsAllow := List.filter (fun role => negb (any_match allowMatchers role)) needsAllow in
        if bool_decide (needsAllow = []) then Ok needsAllow else allow_loop rpc needsAllow l'
  end.

Definition permission_context (c : ReviewPermissionChecker) (r : AccessRequestV3) : reviewPermissionContext :=
  {| rp_reviewer := author_context (rpc_UserState c); rp_request := request_context r |}.

Definition CanReviewRequest (c : ReviewPermissionChecker) (r : AccessRequestV3) : result bool :=
  if bool_decide (us_Name (rpc_UserState c) = GetUser r) then Ok false
  else
    let requestedRoles := GetOriginalRoles r in
    let rpc := permission_context c r in
    let? denied := deny_loop rpc requestedRoles (range (DenyReview c)) in
    if denied then Ok false
    else
      let? needsAllow := allow_loop rpc requestedRoles (range (AllowReview c)) in
      Ok (bool_decide (needsAllow = [])).

(** *** The checker of a user *)

(** What the checker reads of the certificate. *)
Record ReviewIdentity := {
  id_Username : string;
  id_ActiveRequests : list string;
  id_Groups : list string;
}.

Definition push_review (c : ReviewPermissionChecker) (role : RoleV6) : result ReviewPermissionChecker :=
  let allow := GetAccessReviewConditions Allow role in
  let deny := GetAccessReviewConditions Deny role in
  let ts := us_Traits (rpc_UserState c) in
  let? denied := AppendRoleMatchers (default [] (DenyReview c !! avc_Where deny)) (avc_Roles deny) (avc_ClaimsToRoles deny) ts in
  let? allowed := AppendRoleMatchers (default [] (AllowReview c !! avc_Where allow)) (avc_Roles allow) (avc_ClaimsToRoles allow) ts in
  Ok {| rpc_UserState := rpc_UserState c;
        AllowReview := <[avc_Where allow := allowed]> (AllowReview c);
        DenyReview := <[avc_Where deny := denied]> (DenyReview c) |}.

Fixpoint push_reviews (getRole : string -> result RoleV6) (c : ReviewPermissionChecker) (roles : list string)
  : result ReviewPermissionChecker :=
  match roles with
  | [] => Ok c
  | roleName :: roles' =>
      let? role := getRole roleName in
      let? c := push_review c role in
      push_reviews getRole c roles'
  end.

(** The user state the checker starts from: a bot has the roles of its
    certificate. *)
Definition review_user (uls : UserState * bool) (username : string) (ident : option ReviewIdentity) : result UserState :=
  let '(uls, isBot) := uls in
  if negb isBot then Ok uls
  else match ident with
  | None => Err (BadParameter "bot user provided but identity parameter is nil" [])
  | Some ident =>
      fail_if negb (bool_decide (id_Username ident = username))
        with BadParameter "bot identity username and review author mismatch" [];
      fail_if bool_decide (0 < length (id_ActiveRequests ident))%nat
        with BadParameter "bot should not have active requests" [];
      Ok {| us_Name := us_Name uls; us_Roles := id_Groups ident; us_Traits := us_Traits uls |}
  end.

Definition NewReviewPermissionChecker (getUserOrLoginState : string -> result (UserState * bool))
    (getRole : string -> result RoleV6) (username : string) (ident : option ReviewIdentity)
  : result ReviewPermissionChecker :=
  let? uls := getUserOrLoginState username in
  let? uls := review_user uls username ident in
  push_reviews getRole {| rpc_UserState := uls; AllowReview := ∅; DenyReview := ∅ |} (us_Roles uls).
End Permission.

(** ** What a review does *)

(** *** Checks *)

Definition checkReviewCompat (r : AccessRequestV3) (rev : AccessReview) : result unit :=
  fail_if negb (IsResolved (rev_ProposedState rev))
    with BadParameter "invalid state proposal: %s (expected approval/denial)" [state_String (rev_ProposedState rev)];
  fail_if bool_decide (GetThresholds r = []) with BadParameter "request is uninitialized or does not support reviews" [];
  fail_if bool_decide (rev_SubmittedBy rev = GetUser r)
    with AccessDenied "review submitter %q cannot apply a review on their own request" [rev_SubmittedBy rev];
  fail_if existsb (fun existingReview => bool_decide (rev_Author existingReview = rev_Author rev)) (GetReviews r)
    with AlreadyExists "user %q has already reviewed this request" [rev_Author rev];
  let rtm := GetRoleThresholdMapping r in
  fail_if negb (bool_decide (length (rev_Roles rev) = 0%nat)) && negb (bool_decide (length (rev_Roles rev) = size rtm))
    with NotImplemented "role subselection is not yet supported in reviews, try omitting role list" [];
  fail_if negb (bool_decide (size (rev_Annotations rev) = 0%nat))
    with NotImplemented "annotations are not yet supported in reviews, try omitting annotations field" [];
  match find (fun role => negb (bool_decide (is_Some (rtm !! role)))) (rev_Roles rev) with
  | Some role => Err (BadParameter "role %q is not a member of this request" [role])
  | None => Ok tt
  end.

Definition newThresholdFilterContext (r : AccessRequestV3) (rev : AccessReview) (author : UserState)
  : thresholdFilterContext :=
  {| tf_reviewer := author_context author;
     tf_review := {| rpc_reason := rev_Reason rev; rpc_annotations := rev_Annotations rev |};
     tf_request := request_context r |}.

(** *** Counting *)

Record requestResolution := {
  res_state : RequestState;
  res_reason : string;
}.

(** [struct{ approval, denial uint32 }] *)
#[global] Abbreviation tally := (Z * Z)%type.

Inductive next := Break | Go.

(** The thresholds a review counts for.  A promotion stops the loop over the
    reviews. *)
Fixpoint count_review (rev : AccessReview) (tids : list Z) (counts : list tally) : result (list tally * next) :=
  match tids with
  | [] => Ok (counts, Go)
  | tid :: tids' =>
      let idx := Z.to_nat tid in
      match counts !! idx with
      | None => Err (Errorf "threshold index '%d' out of range (this is a bug)" [])
      | Some (approval, denial) =>
          if IsApproved (rev_ProposedState rev) then count_review rev tids' (<[idx := (uint32 (approval + 1), denial)]> counts)
          else if IsDenied (rev_ProposedState rev) then count_review rev tids' (<[idx := (approval, uint32 (denial + 1))]> counts)
          else if IsPromoted (rev_ProposedState rev) then Ok (counts, Break)
          else Err (BadParameter "cannot calculate state-transition, unexpected proposal: %s" [state_String (rev_ProposedState rev)])
      end
  end.

Definition denial_hit (c : AccessReviewThreshold * tally) : bool := (th_Deny c.1 <=? c.2.2) && negb (th_Deny c.1 =? 0).
Definition approval_hit (c : AccessReviewThreshold * tally) : bool :=
  (th_Approve c.1 <=? c.2.1) && negb (th_Approve c.1 =? 0).

(** Whether one threshold of the set has hit its approval count. *)
Fixpoint set_loop (counted : list (AccessReviewThreshold * tally)) (indexes : list Z) : result bool :=
  match indexes with
  | [] => Ok false
  | tid :: indexes' =>
      match counted !! Z.to_nat tid with
      | None => Err (Errorf "threshold index out of range %s/%d (this is a bug)" [])
      | Some c => if approval_hit c then Ok true else set_loop counted indexes'
      end
  end.

Fixpoint sets_loop (counted : list (AccessReviewThreshold * tally)) (sets : list ThresholdIndexSet) : result bool :=
  match sets with
  | [] => Ok true
  | tset :: sets' =>
      let? met := set_loop counted tset in
      if met then sets_loop counted sets' else Ok false
  end.

(** The roles approved after this review; whether all of them are. *)
Fixpoint roles_approval (counted : list (AccessReviewThreshold * tally)) (l : list (string * ThresholdIndexSets))
    (approved : gset string) : result (gset string * bool) :=
  match l with
  | [] => Ok (approved, true)
  | (role, thresholdSets) :: l' =>
      if bool_decide (role ∈ approved) then roles_approval counted l' approved
      else
        let? met := sets_loop counted thresholdSets in
        if met then roles_approval counted l' ({[role]} ∪ approved) else Ok (approved, false)
  end.

(** What the loop over the reviews leaves. *)
Record progress := {
  pg_approved : gset string;
  pg_denied : bool;
  pg_lastReview : AccessReview;
}.

Definition no_review : AccessReview :=
  {| rev_Author := ""; rev_Roles := []; rev_ProposedState := RequestState_NONE; rev_Reason := "";
     rev_Created := zero_time; rev_Annotations := ∅; rev_ThresholdIndexes := []; rev_AccessList := None;
     rev_AssumeStartTime := None; rev_SubmittedBy := "" |}.

Section Resolution.
Context `{MapOrder ThresholdIndexSets}.

Fixpoint process_reviews (thresholds : list AccessReviewThreshold) (rtm : gmap string ThresholdIndexSets)
    (reviews : list AccessReview) (approved : gset string) (counts : list tally) (lastReview : AccessReview)
  : result progress :=
  match reviews with
  | [] => Ok {| pg_approved := approved; pg_denied := false; pg_lastReview := lastReview |}
  | rev :: reviews' =>
      let? (counts, n) := count_review rev (rev_ThresholdIndexes rev) counts in
      match n with
      | Break => Ok {| pg_approved := approved; pg_denied := false; pg_lastReview := rev |}
      | Go =>
          let counted := zip thresholds counts in
          if existsb denial_hit counted then Ok {| pg_approved := approved; pg_denied := true; pg_lastReview := rev |}
          else
            let? (approved, all) := roles_approval counted (range rtm) approved in
            if all : bool then Ok {| pg_approved := approved; pg_denied := false; pg_lastReview := rev |}
            else process_reviews thresholds rtm reviews' approved counts rev
      end
  end.

Definition calculateReviewBasedResolution (r : AccessRequestV3) : result (option requestResolution) :=
  let thresholds := GetThresholds r in
  let reviews := GetReviews r in
  let rtm := GetRoleThresholdMapping r in
  if bool_decide (thresholds = []) || bool_decide (length reviews = 0%nat) then Ok None
  else
    let? p := process_reviews thresholds rtm reviews ∅ (replicate (length thresholds) (0, 0)) no_review in
    let lastReview := pg_lastReview p in
    let resolved := Ok (Some {| res_state := rev_ProposedState lastReview; res_reason := rev_Reason lastReview |}) in
    if IsApproved (rev_ProposedState lastReview) then
      if negb (bool_decide (size (pg_approved p) = size rtm)) then Ok None else resolved
    else if IsDenied (rev_ProposedState lastReview) then
      if negb (pg_denied p) then Ok None else resolved
    else if IsPromoted (rev_ProposedState lastReview) then resolved
    else Err (BadParameter "cannot calculate state-transition, unexpected proposal: %s" [state_String (rev_ProposedState lastReview)]).
End Resolution.

(** *** Application *)

Section Apply.
Context `{ReviewPredicates} `{MapOrder ThresholdIndexSets}.

Definition accessReviewThresholdMatchesFilter (t : AccessReviewThreshold) (ctx : thresholdFilterContext) : result bool :=
  if bool_decide (th_Filter t = "") then Ok true
  else let? expr := parseThresholdFilterExpression (th_Filter t) in expr ctx.

Fixpoint collect_indexes (ctx : thresholdFilterContext) (i : Z) (thresholds : list AccessReviewThreshold) : result (list Z) :=
  match thresholds with
  | [] => Ok []
  | t :: thresholds' =>
      let? match_ := accessReviewThresholdMatchesFilter t ctx in
      if negb match_ then collect_indexes ctx (i + 1) thresholds'
      else
        let tid := uint32 i in
        fail_if negb (tid =? i) with Errorf "threshold index %d out of supported range (this is a bug)" [];
        let? tids := collect_indexes ctx (i + 1) thresholds' in
        Ok (tid :: tids)
  end.

Definition collectReviewThresholdIndexes (r : AccessRequestV3) (rev : AccessReview) (author : UserState) : result (list Z) :=
  collect_indexes (newThresholdFilterContext r rev author) 0 (GetThresholds r).

(** The review as it is stored. *)
Definition with_roles (roles : list string) (rev : AccessReview) : AccessReview :=
  {| rev_Author := rev_Author rev; rev_Roles := roles; rev_ProposedState := rev_ProposedState rev;
     rev_Reason := rev_Reason rev; rev_Created := rev_Created rev; rev_Annotations := rev_Annotations rev;
     rev_ThresholdIndexes := rev_ThresholdIndexes rev; rev_AccessList := rev_AccessList rev;
     rev_AssumeStartTime := rev_AssumeStartTime rev; rev_SubmittedBy := rev_SubmittedBy rev |}.

Definition with_indexes (tids : list Z) (created : time) (rev : AccessReview) : AccessReview :=
  {| rev_Author := rev_Author rev; rev_Roles := rev_Roles rev; rev_ProposedState := rev_ProposedState rev;
     rev_Reason := rev_Reason rev; rev_Created := created; rev_Annotations := rev_Annotations rev;
     rev_ThresholdIndexes := tids; rev_AccessList := rev_AccessList rev;
     rev_AssumeStartTime := rev_AssumeStartTime rev; rev_SubmittedBy := rev_SubmittedBy rev |}.

(** A resolved request is not updated. *)
Definition still_open (r : AccessRequestV3) : result unit :=
  fail_if IsApproved (GetState r) with AccessDenied "the access request has been already approved" [];
  fail_if IsDenied (GetState r) with AccessDenied "the access request has been already denied" [];
  fail_if IsPromoted (GetState r) with AccessDenied "the access request has been already promoted" [];
  Ok tt.

(** The fields a resolution sets. *)
Definition resolve (rev : AccessReview) (res : requestResolution) (r : AccessRequestV3) : AccessRequestV3 :=
  let r := SetResolveReason (res_reason res) r in
  let r := if bool_decide (GetPromotedAccessListName r = "")
           then SetPromotedAccessListTitle (GetAccessListTitle rev) (SetPromotedAccessListName (GetAccessListName rev) r)
           else r in
  SetExpiry (GetAccessExpiry r) r.

(** The state is the request, which a failure leaves as far as it got. *)
Definition ApplyAccessReview (now : time) (rev : AccessReview) (author : UserState) : M AccessRequestV3 unit :=
  deny_if negb (bool_decide (rev_Author rev = us_Name author))
    with BadParameter "mismatched review author (expected %q, got %q)" [rev_Author rev; us_Name author];
  let rev := with_roles (merge_sort at_most (Deduplicate (rev_Roles rev))) rev in
  let* req := mget id in
  do* mlift (checkReviewCompat req rev);
  let* tids := mlift (collectReviewThresholdIndexes req rev author) in
  let rev := with_indexes tids (if time_IsZero (rev_Created rev) then now else rev_Created rev) rev in
  do* mlift (still_open req);
  do* mmodify (SetReviews (GetReviews req ++ [rev])%list);
  do* match rev_AssumeStartTime rev with
      | None => mret tt
      | Some t =>
          do* mlift (ValidateAssumeStartTime t (GetAccessExpiry req) (GetCreationTime req));
          mmodify (SetAssumeStartTime t)
      end;
  let* req := mget id in
  let* res := mlift (calculateReviewBasedResolution req) in
  match res with
  | None => mret tt
  | Some res =>
      let* req := mlift (SetState (res_state res) req) in
      mmodify (fun _ => resolve rev res req)
  end.
End Apply.
