(* ===== verification/ReviewFacts.v ===== *)
(** * Facts about access reviews

    The reference for the counting of reviews, and the loops of
    [AccessReview.v] against it. *)

From Stdlib Require Import FunctionalExtensionality.
From S2P Require Import Prelude GoStrings Utf8 Types Regexp Service Roles AccessRequest AccessReview.

(** ** The reference

    How many reviews of a list, with a proposal that passes [f], count for the
    threshold [i]. *)

Definition counts_for (f : RequestState -> bool) (i : nat) (rev : AccessReview) : bool :=
  f (rev_ProposedState rev) && bool_decide (Z.of_nat i ∈ rev_ThresholdIndexes rev).

Definition votes (f : RequestState -> bool) (p : list AccessReview) (i : nat) : Z :=
  Z.of_nat (length (List.filter (counts_for f i) p)).

Section Reference.
Variable thresholds : list AccessReviewThreshold.
Variable rtm : gmap string ThresholdIndexSets.

(** Some threshold has its denials. *)
Definition denied_at (p : list AccessReview) : bool :=
  existsb (fun i => match thresholds !! i with
                    | Some t => negb (th_Deny t =? 0) && (th_Deny t <=? votes IsDenied p i)
                    | None => false
                    end) (seq 0 (length thresholds)).

(** Some threshold of the set has its approvals. *)
Definition set_satisfied (p : list AccessReview) (tset : ThresholdIndexSet) : bool :=
  existsb (fun tid => match thresholds !! Z.to_nat tid with
                      | Some t => negb (th_Approve t =? 0) && (th_Approve t <=? votes IsApproved p (Z.to_nat tid))
                      | None => false
                      end) tset.

Definition role_approved (p : list AccessReview) (sets : ThresholdIndexSets) : bool := forallb (set_satisfied p) sets.

Definition approved_at (p : list AccessReview) : bool :=
  forallb (fun e => role_approved p e.2) (map_to_list rtm).

(** A promotion that counts for a threshold. *)
Definition promoted_at (p : list AccessReview) : bool :=
  match last p with
  | Some rev => IsPromoted (rev_ProposedState rev) && bool_decide (0 < length (rev_ThresholdIndexes rev))%nat
  | None => false
  end.

Definition decides (p : list AccessReview) : bool := denied_at p || approved_at p || promoted_at p.

(** The reviews up to the first that decides. *)
Fixpoint first_decision (seen rest : list AccessReview) : list AccessReview :=
  match rest with
  | [] => seen
  | rev :: rest' => let seen := (seen ++ [rev])%list in if decides seen then seen else first_decision seen rest'
  end.

(** What the last of them proposes, if the count bears it out. *)
Definition borne_out (p : list AccessReview) (rev : AccessReview) : bool :=
  if IsApproved (rev_ProposedState rev) then approved_at p
  else if IsDenied (rev_ProposedState rev) then denied_at p
  else IsPromoted (rev_ProposedState rev).

Definition reference_resolution (reviews : list AccessReview) : option requestResolution :=
  let p := first_decision [] reviews in
  rev ← last p;
  if borne_out p rev then Some {| res_state := rev_ProposedState rev; res_reason := rev_Reason rev |} else None.
End Reference.

(** ** What the counting relies on *)

Definition in_range (n : nat) (tid : Z) : Prop := 0 <= tid < Z.of_nat n.

Definition countable (n : nat) (rev : AccessReview) : Prop :=
  IsResolved (rev_ProposedState rev) = true /\ NoDup (rev_ThresholdIndexes rev) /\
  Forall (in_range n) (rev_ThresholdIndexes rev).

Definition sets_in_range (n : nat) (rtm : gmap string ThresholdIndexSets) : Prop :=
  forall role sets, rtm !! role = Some sets -> Forall (Forall (in_range n)) sets.

Definition threshold_ok (t : AccessReviewThreshold) : Prop := 0 <= th_Approve t /\ 0 <= th_Deny t.

Record resolvable (r : AccessRequestV3) : Prop := {
  rs_thresholds : Forall threshold_ok (GetThresholds r);
  rs_sets : sets_in_range (length (GetThresholds r)) (GetRoleThresholdMapping r);
  rs_reviews : Forall (countable (length (GetThresholds r))) (GetReviews r);
  rs_length : Z.of_nat (length (GetReviews r)) < 2 ^ 32;
}.

(** ** Counting *)

Lemma votes_snoc f p rev i : votes f (p ++ [rev]) i = votes f p i + (if counts_for f i rev then 1 else 0).
Proof.
  unfold votes. rewrite List.filter_app, length_app. simpl. destruct (counts_for f i rev); simpl; lia.
Qed.

Lemma votes_bound f p i : 0 <= votes f p i <= Z.of_nat (length p).
Proof. unfold votes. pose proof (List.filter_length_le (counts_for f i) p). lia. Qed.

Lemma votes_mono f p rev i : votes f p i <= votes f (p ++ [rev]) i.
Proof. rewrite votes_snoc. destruct (counts_for f i rev); lia. Qed.

Lemma votes_nil f i : votes f [] i = 0.
Proof. done. Qed.

Definition tallies (n : nat) (p : list AccessReview) : list tally :=
  (fun i => (votes IsApproved p i, votes IsDenied p i)) <$> seq 0 n.

Lemma tallies_lookup n p i : (i < n)%nat -> tallies n p !! i = Some (votes IsApproved p i, votes IsDenied p i).
Proof. intros Hi. unfold tallies. by rewrite list_lookup_fmap, lookup_seq_lt. Qed.

Lemma length_tallies n p : length (tallies n p) = n.
Proof. unfold tallies. by rewrite length_fmap, length_seq. Qed.

Lemma tallies_nil n : tallies n [] = replicate n (0, 0).
Proof.
  apply list_eq_same_length with n; [by rewrite length_replicate|by rewrite length_tallies|].
  intros i x y Hi. rewrite tallies_lookup by done. rewrite lookup_replicate. naive_solver.
Qed.

(** What counting a review makes of the tally at [i]. *)
Definition bump (state : RequestState) (tids : list Z) (i : nat) (t : tally) : tally :=
  if bool_decide (Z.of_nat i ∈ tids) then
    if IsApproved state then (t.1 + 1, t.2) else (t.1, t.2 + 1)
  else t.

Lemma count_review_spec rev tids (counts : list tally) :
  IsApproved (rev_ProposedState rev) || IsDenied (rev_ProposedState rev) = true ->
  NoDup tids -> Forall (in_range (length counts)) tids ->
  (forall i t, Z.of_nat i ∈ tids -> counts !! i = Some t -> 0 <= t.1 < 2 ^ 32 - 1 /\ 0 <= t.2 < 2 ^ 32 - 1) ->
  exists counts', count_review rev tids counts = Ok (counts', Go) /\
    forall i, counts' !! i = bump (rev_ProposedState rev) tids i <$> counts !! i.
Proof.
  intros Hs. revert counts. induction tids as [|tid tids IH]; intros counts Hn Hr Hb.
  { exists counts. split; [done|]. intros i. destruct (counts !! i); [|done]. simpl. unfold bump.
    by rewrite bool_decide_false by set_solver. }
  apply NoDup_cons in Hn as [Hn1 Hn]. apply Forall_cons in Hr as [Hr1 Hr]. unfold in_range in Hr1.
  destruct (lookup_lt_is_Some_2 counts (Z.to_nat tid)) as [[a d] Hl]; [lia|].
  destruct (Hb (Z.to_nat tid) (a, d)) as [Ha Hd]; [rewrite Z2Nat.id by lia; set_solver|done|]. simpl in Ha, Hd.
  set (t' := if IsApproved (rev_ProposedState rev) then (a + 1, d) else (a, d + 1)).
  destruct (IH (<[Z.to_nat tid := t']> counts)) as (counts' & E & Hc); [done|by rewrite length_insert| |].
  { intros i t Hi. rewrite list_lookup_insert_ne; [apply Hb; set_solver|]. intros <-. apply Hn1.
    by rewrite Z2Nat.id in Hi by lia. }
  exists counts'. split.
  - cbn [count_review]. rewrite Hl, <- E. unfold uint32. rewrite !Z.mod_small by lia. unfold t'.
    destruct (IsApproved (rev_ProposedState rev)); [done|]. simpl in Hs. by rewrite Hs.
  - intros i. rewrite Hc. destruct (decide (i = Z.to_nat tid)) as [->|Hi].
    + rewrite list_lookup_insert_eq, Hl by lia. simpl. unfold bump. rewrite Z2Nat.id by lia.
      rewrite (bool_decide_false (tid ∈ tids)), (bool_decide_true (tid ∈ tid :: tids)) by set_solver. done.
    + rewrite list_lookup_insert_ne by done. destruct (counts !! i); [|done]. simpl. f_equal. unfold bump.
      rewrite (bool_decide_ext (Z.of_nat i ∈ tid :: tids) (Z.of_nat i ∈ tids)); [done|].
      rewrite elem_of_cons. split; [intros [?|?]; [lia|done]|auto].
Qed.

(** The tallies after one more review. *)
Lemma count_tallies n p rev :
  countable n rev -> IsPromoted (rev_ProposedState rev) = false -> Z.of_nat (length p) < 2 ^ 32 - 1 ->
  count_review rev (rev_ThresholdIndexes rev) (tallies n p) = Ok (tallies n (p ++ [rev]), Go).
Proof.
  intros (Hs & Hn & Hr) Hp Hl. unfold IsResolved in Hs. rewrite Hp, orb_false_r in Hs.
  destruct (count_review_spec rev (rev_ThresholdIndexes rev) (tallies n p)) as (counts' & E & Hc); [done..| | |].
  { by rewrite length_tallies. }
  { intros i t _ Ht. assert (i < n)%nat by (apply lookup_lt_Some in Ht; by rewrite length_tallies in Ht).
    rewrite tallies_lookup in Ht by done. injection Ht as <-. simpl.
    pose proof (votes_bound IsApproved p i). pose proof (votes_bound IsDenied p i). lia. }
  rewrite E. do 2 f_equal. apply list_eq. intros i. rewrite Hc.
  destruct (decide (i < n)%nat) as [Hi|Hi].
  - rewrite !tallies_lookup by done. simpl. f_equal. unfold bump, counts_for. rewrite !votes_snoc. unfold counts_for.
    destruct (bool_decide _); rewrite ?andb_true_r, ?andb_false_r; simpl; [|f_equal; lia].
    unfold IsApproved, IsDenied, RequestState_APPROVED, RequestState_DENIED in *.
    destruct (Z.eqb_spec (rev_ProposedState rev) 2); simpl in *.
    + rewrite (proj2 (Z.eqb_neq _ 3)) by lia. simpl. f_equal. lia.
    + rewrite Hs. f_equal. lia.
  - assert (tallies n p !! i = None) as -> by (apply lookup_ge_None_2; rewrite length_tallies; lia).
    symmetry. apply lookup_ge_None_2. rewrite length_tallies. lia.
Qed.

Lemma count_promoted n p rev :
  IsPromoted (rev_ProposedState rev) = true -> Forall (in_range n) (rev_ThresholdIndexes rev) ->
  count_review rev (rev_ThresholdIndexes rev) (tallies n p) =
  Ok (tallies n p, if bool_decide (0 < length (rev_ThresholdIndexes rev))%nat then Break else Go).
Proof.
  intros Hp Hr. destruct (rev_ThresholdIndexes rev) as [|tid tids]; [done|]. rewrite bool_decide_true by (simpl; lia).
  simpl. apply Forall_cons in Hr as [Hr _]. unfold in_range in Hr. rewrite tallies_lookup by lia.
  unfold IsPromoted, IsApproved, IsDenied, RequestState_APPROVED, RequestState_DENIED, RequestState_PROMOTED in *.
  apply Z.eqb_eq in Hp. by rewrite Hp.
Qed.

(** ** The loops over thresholds and roles *)

Section Counted.
Variable thresholds : list AccessReviewThreshold.
Variable rtm : gmap string ThresholdIndexSets.
#[local] Abbreviation n := (length thresholds).
#[local] Abbreviation counted p := (zip thresholds (tallies n p)).

Lemma counted_lookup p i t : thresholds !! i = Some t ->
  counted p !! i = Some (t, (votes IsApproved p i, votes IsDenied p i)).
Proof.
  intros Ht. apply lookup_zip_Some. split; [done|]. apply tallies_lookup. by eapply lookup_lt_Some.
Qed.

Lemma denial_loop p : existsb denial_hit (counted p) = denied_at thresholds p.
Proof.
  apply eq_true_iff_eq. unfold denied_at. rewrite !existsb_elem. split.
  - intros ([t v] & (i & Hi)%list_elem_of_lookup & Hc). apply lookup_zip_Some in Hi as [Ht Hv].
    pose proof (lookup_lt_Some _ _ _ Ht). exists i. split; [by apply elem_of_seq; lia|]. rewrite Ht.
    rewrite tallies_lookup in Hv by done. injection Hv as <-. unfold denial_hit in Hc. simpl in Hc.
    by rewrite andb_comm.
  - intros (i & _ & Hi). destruct (thresholds !! i) as [t|] eqn:Ht; [|done].
    exists (t, (votes IsApproved p i, votes IsDenied p i)). split; [by eapply list_elem_of_lookup_2, counted_lookup|].
    unfold denial_hit. by rewrite andb_comm.
Qed.

Lemma set_loop_spec p tset : Forall (in_range n) tset -> set_loop (counted p) tset = Ok (set_satisfied thresholds p tset).
Proof.
  induction 1 as [|tid tset Hr _ IH]; [done|]. unfold in_range in Hr. cbn [set_loop].
  destruct (lookup_lt_is_Some_2 thresholds (Z.to_nat tid)) as [t Ht]; [lia|].
  rewrite (counted_lookup _ _ _ Ht), IH. unfold set_satisfied. simpl. rewrite Ht. unfold approval_hit. simpl.
  rewrite andb_comm. by destruct (_ && _).
Qed.

Lemma sets_loop_spec p sets : Forall (Forall (in_range n)) sets ->
  sets_loop (counted p) sets = Ok (role_approved thresholds p sets).
Proof.
  induction 1 as [|tset sets Hr _ IH]; [done|]. simpl. rewrite set_loop_spec by done. simpl.
  unfold role_approved. simpl. destruct (set_satisfied _ _ _); [exact IH|done].
Qed.

(** More reviews never take an approval back. *)
Lemma set_satisfied_mono p rev tset :
  set_satisfied thresholds p tset = true -> set_satisfied thresholds (p ++ [rev]) tset = true.
Proof.
  unfold set_satisfied. rewrite !existsb_elem. intros (tid & Ht & H). exists tid. split; [done|].
  destruct (thresholds !! Z.to_nat tid) as [t|]; [|done]. bool_to_prop. apply andb_true_iff.
  split; [by apply negb_true_iff, Z.eqb_neq|]. apply Z.leb_le. pose proof (votes_mono IsApproved p rev (Z.to_nat tid)). lia.
Qed.

Lemma role_approved_mono p rev sets :
  role_approved thresholds p sets = true -> role_approved thresholds (p ++ [rev]) sets = true.
Proof.
  unfold role_approved. rewrite !forallb_forall. intros H tset Ht. by apply set_satisfied_mono, H.
Qed.

(** The roles marked as approved are roles of the request that are. *)
Definition approved_roles (p : list AccessReview) (approved : gset string) : Prop :=
  forall role, role ∈ approved -> exists sets, rtm !! role = Some sets /\ role_approved thresholds p sets = true.

Lemma roles_approval_spec p l approved :
  (forall role sets, (role, sets) ∈ l -> rtm !! role = Some sets) -> sets_in_range n rtm -> approved_roles p approved ->
  exists approved', roles_approval (counted p) l approved =
      Ok (approved', forallb (fun e => role_approved thresholds p e.2) l) /\
    approved_roles p approved' /\ approved ⊆ approved' /\
    (forallb (fun e => role_approved thresholds p e.2) l = true -> forall role sets, (role, sets) ∈ l -> role ∈ approved').
Proof.
  intros Hl Hr. revert approved. induction l as [|[role sets] l IH]; intros approved Ha.
  { exists approved. split_and!; [done|done|done|]. intros _ ? ?. set_solver. }
  assert (Hs : rtm !! role = Some sets) by (apply Hl; by left). cbn [roles_approval forallb].
  destruct (decide (role ∈ approved)) as [Hin|Hin].
  - rewrite bool_decide_true by done. destruct (IH ltac:(intros; apply Hl; by right) approved Ha) as (a' & E & Ha' & Hsub & Hall).
    destruct (Ha role Hin) as (sets' & Hs' & Hok). rewrite Hs in Hs'. injection Hs' as <-. simpl. rewrite Hok. simpl.
    exists a'. split_and!; [done..|]. intros Hf r s [E'|Hrs]%elem_of_cons; [simplify_eq; set_solver|by eapply Hall].
  - rewrite bool_decide_false by done. rewrite sets_loop_spec by by eapply Hr. simpl.
    destruct (role_approved thresholds p sets) eqn:Hok; simpl; [|by exists approved].
    destruct (IH ltac:(intros; apply Hl; by right) ({[role]} ∪ approved)) as (a' & E & Ha' & Hsub & Hall).
    { intros r [->%elem_of_singleton|Hr']%elem_of_union; [by exists sets|by apply Ha]. }
    exists a'. split_and!; [done..|set_solver|]. intros Hf r s [E'|Hrs]%elem_of_cons; [simplify_eq; set_solver|by eapply Hall].
Qed.

(** All the roles of the request, or fewer. *)
Lemma approved_size p approved : approved_roles p approved ->
  (approved_at thresholds rtm p = true -> forall role, is_Some (rtm !! role) -> role ∈ approved) ->
  bool_decide (size approved = size rtm) = approved_at thresholds rtm p.
Proof.
  intros Ha Hall. assert (Hsub : approved ⊆ dom rtm).
  { intros role (sets & Hs & _)%Ha. apply elem_of_dom. eauto. }
  rewrite <- (size_dom rtm). destruct (approved_at thresholds rtm p) eqn:E.
  - apply bool_decide_eq_true. f_equal. apply set_eq. intros role. split; [set_solver|].
    rewrite elem_of_dom. by apply Hall.
  - apply bool_decide_eq_false. intros Hsz. apply not_true_iff_false in E. apply E. unfold approved_at.
    apply forallb_forall. intros [role sets] Hin%list_elem_of_In. apply elem_of_map_to_list in Hin. simpl.
    assert (Hd : role ∈ dom rtm) by (apply elem_of_dom; eauto).
    rewrite <- (set_subseteq_size_eq approved (dom rtm)) in Hd by (done || lia).
    destruct (Ha _ Hd) as (sets' & Hs' & Hok). congruence.
Qed.
End Counted.

(** ** The loop over the reviews *)

Section Process.
Context `{MapOrderLaws ThresholdIndexSets}.
Variable thresholds : list AccessReviewThreshold.
Variable rtm : gmap string ThresholdIndexSets.
#[local] Abbreviation n := (length thresholds).
Hypothesis thresholds_ok : Forall threshold_ok thresholds.
Hypothesis sets_ok : sets_in_range n rtm.

Lemma approved_at_range p :
  forallb (fun e => role_approved thresholds p e.2) (range rtm) = approved_at thresholds rtm p.
Proof.
  apply eq_true_iff_eq. unfold approved_at. rewrite !forallb_forall. setoid_rewrite <- list_elem_of_In.
  by setoid_rewrite (range_permutation rtm).
Qed.

(** Only a denial hits a denial threshold. *)
Lemma denied_at_snoc seen rev : IsDenied (rev_ProposedState rev) = false ->
  denied_at thresholds (seen ++ [rev]) = denied_at thresholds seen.
Proof.
  intros Hd. unfold denied_at. f_equal. apply functional_extensionality. intros i. destruct (thresholds !! i); [|done].
  rewrite votes_snoc. unfold counts_for. rewrite Hd. simpl. by rewrite Z.add_0_r.
Qed.

Lemma denied_at_nil : denied_at thresholds [] = false.
Proof.
  unfold denied_at. apply existsb_elem_false. intros i _. destruct (thresholds !! i) as [t|] eqn:E; [|done].
  rewrite votes_nil. rewrite Forall_lookup in thresholds_ok. destruct (thresholds_ok i t E) as [_ Hd].
  destruct (Z.eqb_spec (th_Deny t) 0); [done|]. simpl. apply Z.leb_gt. lia.
Qed.

Lemma promoted_at_snoc seen rev : promoted_at (seen ++ [rev]) =
  IsPromoted (rev_ProposedState rev) && bool_decide (0 < length (rev_ThresholdIndexes rev))%nat.
Proof. unfold promoted_at. by rewrite last_snoc. Qed.

(** What is left of the loop, and the reviews it has looked at. *)
Definition outcome (p : list AccessReview) (pg : progress) : Prop :=
  exists rev, last p = Some rev /\ pg_lastReview pg = rev /\
    (IsDenied (rev_ProposedState rev) = true -> pg_denied pg = denied_at thresholds p) /\
    (IsApproved (rev_ProposedState rev) = true ->
     bool_decide (size (pg_approved pg) = size rtm) = approved_at thresholds rtm p).

Lemma exclusive state : IsPromoted state = true -> IsDenied state = false /\ IsApproved state = false.
Proof.
  unfold IsPromoted, IsDenied, IsApproved, RequestState_PROMOTED. intros ->%Z.eqb_eq. done.
Qed.

Lemma exclusive_denied state : IsApproved state = true -> IsDenied state = false.
Proof. unfold IsDenied, IsApproved, RequestState_APPROVED. intros ->%Z.eqb_eq. done. Qed.

(** The counting of one review. *)
Lemma count_one seen rev : countable n rev -> Z.of_nat (length seen) < 2 ^ 32 - 1 ->
  count_review rev (rev_ThresholdIndexes rev) (tallies n seen) =
  Ok (if promoted_at (seen ++ [rev]) then (tallies n seen, Break) else (tallies n (seen ++ [rev]), Go)).
Proof.
  intros Hc Hl. rewrite promoted_at_snoc. destruct (IsPromoted (rev_ProposedState rev)) eqn:Hp; simpl.
  - rewrite count_promoted by (done || apply Hc). destruct (rev_ThresholdIndexes rev) eqn:Et; [|done]. simpl.
    do 2 f_equal. unfold tallies. apply list_fmap_ext. intros _ i _. rewrite !votes_snoc. unfold counts_for. rewrite Et.
    rewrite bool_decide_false by set_solver. rewrite !andb_false_r. f_equal; lia.
  - by apply count_tallies.
Qed.

Lemma process_spec reviews : forall seen approved last0,
  Forall (countable n) reviews -> Z.of_nat (length seen + length reviews) < 2 ^ 32 -> reviews <> [] ->
  denied_at thresholds seen = false -> approved_roles thresholds rtm seen approved ->
  exists pg, process_reviews thresholds rtm reviews approved (tallies n seen) last0 = Ok pg /\
    outcome (first_decision thresholds rtm seen reviews) pg.
Proof.
  induction reviews as [|rev reviews IH]; intros seen approved last0 Hc Hl Hne Hd Ha; [done|].
  apply Forall_cons in Hc as [Hc1 Hc]. simpl in Hl. cbn [process_reviews first_decision].
  rewrite count_one by (done || lia). simpl. unfold decides. set (p := (seen ++ [rev])%list).
  assert (Hlast : last p = Some rev) by apply last_snoc.
  destruct (promoted_at p) eqn:Hp.
  { rewrite orb_true_r. eexists. split; [reflexivity|]. exists rev. unfold p in Hp. rewrite promoted_at_snoc in Hp.
    apply andb_true_iff in Hp as [[Hpd Hpa]%exclusive _]. split_and!; [done..| |]; congruence. }
  rewrite orb_false_r, denial_loop. destruct (denied_at thresholds p) eqn:Hdp; simpl.
  { eexists. split; [reflexivity|]. exists rev. split_and!; [done..|]. intros Hpa%exclusive_denied.
    unfold p in Hdp. rewrite denied_at_snoc in Hdp by done. congruence. }
  assert (Hap : approved_roles thresholds rtm p approved).
  { intros role Hrole. destruct (Ha role Hrole) as (sets & Hs & Hok). exists sets. split; [done|]. by apply role_approved_mono. }
  destruct (roles_approval_spec thresholds rtm p (range rtm) approved) as (approved' & E & Ha' & _ & Hall); [|done..|].
  { intros role sets. apply elem_of_range. }
  rewrite E. simpl. rewrite approved_at_range in Hall |- *.
  assert (Hsz : bool_decide (size approved' = size rtm) = approved_at thresholds rtm p).
  { apply approved_size; [done|]. intros Hall' role [sets Hs]. apply (Hall Hall' role sets). by apply elem_of_range. }
  destruct (approved_at thresholds rtm p) eqn:Hat.
  - eexists. split; [reflexivity|]. exists rev. split_and!; [done..|]. intros _. by transitivity true.
  - destruct reviews as [|rev' reviews].
    + eexists. split; [reflexivity|]. exists rev. split_and!; [done..|]. intros _. by transitivity false.
    + apply IH; [done| |done..]. unfold p. rewrite length_app. simpl in *. lia.
Qed.
End Process.

(** The counting of the reviews is the reference. *)
Lemma resolution_is_reference `{MapOrderLaws ThresholdIndexSets} r : resolvable r -> GetThresholds r <> [] ->
  calculateReviewBasedResolution r =
  Ok (reference_resolution (GetThresholds r) (GetRoleThresholdMapping r) (GetReviews r)).
Proof.
  intros [Ht Hs Hr Hl] Hne. unfold calculateReviewBasedResolution, reference_resolution.
  rewrite (bool_decide_false (GetThresholds r = [])) by done. simpl.
  destruct (decide (GetReviews r = [])) as [->|Hre]; [done|].
  rewrite bool_decide_false by (by destruct (GetReviews r)).
  destruct (process_spec (GetThresholds r) (GetRoleThresholdMapping r) Ht Hs (GetReviews r) [] ∅ no_review)
    as (pg & E & rev & Hlast & Elast & Hden & Happ); [done|simpl; lia|done|by apply denied_at_nil|set_solver|].
  rewrite <- tallies_nil, E. simpl. rewrite Hlast. simpl. rewrite Elast. unfold borne_out.
  assert (Hres : IsResolved (rev_ProposedState rev) = true).
  { rewrite Forall_forall in Hr. apply Hr. apply last_Some_elem_of in Hlast.
    assert (Hin : forall seen rest x, x ∈ first_decision (GetThresholds r) (GetRoleThresholdMapping r) seen rest -> x ∈ seen \/ x ∈ rest).
    { clear. intros seen rest. revert seen. induction rest as [|y rest IH]; intros seen x; simpl; [auto|].
      case_match; [set_solver|]. intros ?%IH. set_solver. }
    apply Hin in Hlast. set_solver. }
  unfold IsResolved in Hres. destruct (IsApproved (rev_ProposedState rev)) eqn:Ea.
  { rewrite Happ by done. by destruct (approved_at _ _ _). }
  destruct (IsDenied (rev_ProposedState rev)) eqn:Ed.
  { rewrite Hden by done. by destruct (denied_at _ _). }
  simpl in Hres. by rewrite Hres.
Qed.

(** ** The indexes of a review *)

Section Indexes.
Context `{ReviewPredicates}.

Lemma collect_indexes_spec ctx thresholds : forall i tids,
  collect_indexes ctx i thresholds = Ok tids ->
  NoDup tids /\ forall tid, tid ∈ tids <->
    exists (k : nat) t, thresholds !! k = Some t /\ tid = i + Z.of_nat k /\
      accessReviewThresholdMatchesFilter t ctx = Ok true.
Proof.
  induction thresholds as [|t thresholds IH]; intros i tids E; simpl in E.
  { inv_ok. split; [constructor|]. intros tid. split; [set_solver|]. by intros (k & ? & ? & _). }
  assert (Hshift : forall tid (P : Prop), (tid = i /\ P) \/
      (exists (k : nat) t', thresholds !! k = Some t' /\ tid = i + 1 + Z.of_nat k /\ accessReviewThresholdMatchesFilter t' ctx = Ok true) ->
      (P -> accessReviewThresholdMatchesFilter t ctx = Ok true) ->
      exists (k : nat) t', (t :: thresholds) !! k = Some t' /\ tid = i + Z.of_nat k /\ accessReviewThresholdMatchesFilter t' ctx = Ok true).
  { intros tid P [[-> HP]|(k & t' & Hk & -> & Hf)] HPf; [exists 0%nat, t; rewrite Z.add_0_r; auto|].
    exists (S k), t'. split_and!; [done|lia|done]. }
  apply rbind_ok in E as (m & Em & E). destruct m; simpl in E.
  - apply fail_if_ok in E as [Hi E]. apply negb_false_iff, Z.eqb_eq in Hi. rewrite Hi in E.
    apply rbind_ok in E as (tids' & E' & [= <-]). destruct (IH _ _ E') as [Hn Hin]. split.
    + constructor; [|done]. rewrite Hin. intros (k & ? & _ & ? & _). lia.
    + intros tid. rewrite elem_of_cons, Hin. split.
      * intros [->|Hk]; apply (Hshift _ True); auto.
      * intros ([|k] & t' & Hk & -> & Hf); [left; lia|]. right. exists k, t'. split_and!; [done|lia|done].
  - destruct (IH _ _ E) as [Hn Hin]. split; [done|]. intros tid. rewrite Hin. split.
    + intros Hk. apply (Hshift _ False); auto. done.
    + intros ([|k] & t' & Hk & -> & Hf); [simpl in Hk; congruence|]. exists k, t'. split_and!; [done|lia|done].
Qed.

(** The indexes a review gets name the thresholds whose filter it passes. *)
Lemma review_indexes r rev author tids : collectReviewThresholdIndexes r rev author = Ok tids ->
  NoDup tids /\ Forall (in_range (length (GetThresholds r))) tids /\
  forall (k : nat), Z.of_nat k ∈ tids -> exists t, GetThresholds r !! k = Some t /\
    accessReviewThresholdMatchesFilter t (newThresholdFilterContext r rev author) = Ok true.
Proof.
  intros E. apply collect_indexes_spec in E as [Hn Hin]. split; [done|]. split.
  - apply Forall_forall. intros tid (k & t & Hk & -> & _)%Hin. apply lookup_lt_Some in Hk. unfold in_range. lia.
  - intros k (k' & t & Hk & Ek & Hf)%Hin. assert (k' = k) as -> by lia. eauto.
Qed.
End Indexes.

(** ** The application of a review *)

Section Application.
Context `{ReviewPredicates} `{MapOrderLaws ThresholdIndexSets}.

(** The review as it is kept, and the request with it. *)
Definition kept_review (now : time) (tids : list Z) (rev : AccessReview) : AccessReview :=
  with_indexes tids (if time_IsZero (rev_Created rev) then now else rev_Created rev)
    (with_roles (merge_sort at_most (Deduplicate (rev_Roles rev))) rev).

Definition with_review (rev : AccessReview) (r : AccessRequestV3) : AccessRequestV3 :=
  let r' := SetReviews (GetReviews r ++ [rev])%list r in
  match rev_AssumeStartTime rev with Some t => SetAssumeStartTime t r' | None => r' end.

Definition settle (rev : AccessReview) (res : option requestResolution) (r : AccessRequestV3) : AccessRequestV3 :=
  match res with
  | None => r
  | Some res => resolve rev res (on_spec (spec_State (res_state res)) r)
  end.

Definition assume_ok (rev : AccessReview) (r : AccessRequestV3) : Prop :=
  forall t, rev_AssumeStartTime rev = Some t ->
    ValidateAssumeStartTime t (GetAccessExpiry r) (GetCreationTime r) = Ok tt.

Lemma apply_ok now rev author r r' :
  ApplyAccessReview now rev author r = (r', Ok tt) ->
  exists tids res, let rev' := kept_review now tids rev in
    rev_Author rev = us_Name author /\
    checkReviewCompat r (with_roles (merge_sort at_most (Deduplicate (rev_Roles rev))) rev) = Ok tt /\
    collectReviewThresholdIndexes r rev' author = Ok tids /\ still_open r = Ok tt /\ assume_ok rev r /\
    calculateReviewBasedResolution (with_review rev' r) = Ok res /\ r' = settle rev' res (with_review rev' r).
Proof.
  unfold ApplyAccessReview. intros [Ha E]%deny_if_ok. apply negb_false_iff, bool_decide_eq_true in Ha.
  set (rev1 := with_roles _ rev) in E. apply mthen_ok in E as (s1 & req & [= <- <-] & E).
  apply mthen_ok in E as (s1 & [] & [-> Hc]%mlift_ok & E). apply mthen_ok in E as (s1 & tids & [-> Ht]%mlift_ok & E).
  apply mthen_ok in E as (s1 & [] & [-> Ho]%mlift_ok & E). apply mthen_ok in E as (s1 & [] & [= <-] & E).
  set (rev' := with_indexes _ _ rev1) in E. apply mthen_ok in E as (s1 & [] & Es & E).
  assert (s1 = with_review rev' r /\ assume_ok rev r) as [-> Hv].
  { unfold with_review, assume_ok. change (rev_AssumeStartTime rev') with (rev_AssumeStartTime rev) in *.
    destruct (rev_AssumeStartTime rev) as [t|].
    - apply mthen_ok in Es as (s2 & [] & [-> Hv]%mlift_ok & [= <-]). split; [done|]. by intros ? [= <-].
    - injection Es as <-. by split. }
  apply mthen_ok in E as (s1 & req & [= <- <-] & E). apply mthen_ok in E as (s1 & res & [-> Hr]%mlift_ok & E).
  exists tids, res. split_and!; try done. unfold settle. destruct res as [res|]; [|by injection E].
  apply mthen_ok in E as (s1 & req & [-> Hset]%mlift_ok & [= <-]). unfold SetState in Hset.
  apply fail_if_ok in Hset as [_ [= <-]]. done.
Qed.

(** The fields no review changes. *)
Lemma review_keeps rev res r : let r' := settle rev res (with_review rev r) in
  GetUser r' = GetUser r /\ GetRoles r' = GetRoles r /\ GetThresholds r' = GetThresholds r /\
  GetRoleThresholdMapping r' = GetRoleThresholdMapping r /\ GetReviews r' = (GetReviews r ++ [rev])%list /\
  request_context r' = request_context r /\ GetAccessExpiry r' = GetAccessExpiry r /\
  GetCreationTime r' = GetCreationTime r /\ ar_Metadata r' = ar_Metadata r.
Proof.
  unfold with_review, settle, resolve. cbv zeta.
  destruct (rev_AssumeStartTime rev), res; try done; destruct (bool_decide _); done.
Qed.

Lemma review_state rev res r : GetState (settle rev res (with_review rev r)) =
  match res with Some res => res_state res | None => GetState r end.
Proof.
  unfold with_review, settle, resolve. cbv zeta.
  destruct (rev_AssumeStartTime rev), res; try done; destruct (bool_decide _); done.
Qed.
End Application.

(** ** The history of a request *)

(** What the thresholds of a request are before it is reviewed. *)
Record reviewable (r : AccessRequestV3) : Prop := {
  rv_thresholds : Forall threshold_ok (GetThresholds r);
  rv_sets : sets_in_range (length (GetThresholds r)) (GetRoleThresholdMapping r);
  rv_pending : GetState r = RequestState_PENDING;
  rv_reviews : GetReviews r = [];
}.

Section History.
Context `{RegexpCache} `{MatcherCalls} `{ReviewPredicates} `{MapOrder (list string)} `{MapOrder (list Matcher)}.
Context `{MapOrderLaws ThresholdIndexSets}.

(** The requests that come of [r0] by reviews their authors may submit. *)
Inductive reviewed (r0 : AccessRequestV3) : AccessRequestV3 -> Prop :=
| reviewed_none : reviewed r0 r0
| reviewed_more r r' c now rev : reviewed r0 r -> CanReviewRequest c r = Ok true ->
    ApplyAccessReview now rev (rpc_UserState c) r = (r', Ok tt) -> reviewed r0 r'.

(** One of the reviews of a request: who it is by, and that its indexes are
    those of the filters it passes. *)
Definition fair_review (r : AccessRequestV3) (rev : AccessReview) : Prop :=
  rev_Author rev <> GetUser r /\ rev_SubmittedBy rev <> GetUser r /\
  IsResolved (rev_ProposedState rev) = true /\
  exists author, us_Name author = rev_Author rev /\
    collectReviewThresholdIndexes r rev author = Ok (rev_ThresholdIndexes rev).

#[local] Abbreviation decision r :=
  (reference_resolution (GetThresholds r) (GetRoleThresholdMapping r) (GetReviews r)).

Record sound (r : AccessRequestV3) : Prop := {
  so_thresholds : Forall threshold_ok (GetThresholds r);
  so_sets : sets_in_range (length (GetThresholds r)) (GetRoleThresholdMapping r);
  so_authors : NoDup (rev_Author <$> GetReviews r);
  so_reviews : Forall (fair_review r) (GetReviews r);
  so_state : GetState r = match decision r with Some res => res_state res | None => RequestState_PENDING end;
}.

Lemma reviewable_sound r : reviewable r -> sound r.
Proof. intros [Ht Hs Hp Hr]. split; [done..| | |]; rewrite Hr; [constructor|constructor|done]. Qed.

Lemma CanReview_not_own c r : CanReviewRequest c r = Ok true -> us_Name (rpc_UserState c) <> GetUser r.
Proof. unfold CanReviewRequest. by case_bool_decide. Qed.

Lemma fair_countable r rev : fair_review r rev -> countable (length (GetThresholds r)) rev.
Proof. intros (_ & _ & Hs & author & _ & Ht). apply review_indexes in Ht as (Hn & Hr & _). by split. Qed.

Lemma first_decision_in thresholds rtm rest : forall seen x,
  x ∈ first_decision thresholds rtm seen rest -> x ∈ seen \/ x ∈ rest.
Proof.
  induction rest as [|y rest IH]; intros seen x; simpl; [auto|]. case_match; [set_solver|]. intros ?%IH. set_solver.
Qed.

Lemma reference_state thresholds rtm reviews res : reference_resolution thresholds rtm reviews = Some res ->
  exists rev, rev ∈ reviews /\ res_state res = rev_ProposedState rev.
Proof.
  unfold reference_resolution. intros E. apply bind_Some in E as (rev & Hl & E). destruct (borne_out _ _ _ _); [|done].
  injection E as <-. exists rev. split; [|done]. apply last_Some_elem_of, first_decision_in in Hl. set_solver.
Qed.

Lemma compat_facts r rev : checkReviewCompat r rev = Ok tt ->
  IsResolved (rev_ProposedState rev) = true /\ GetThresholds r <> [] /\ rev_SubmittedBy rev <> GetUser r /\
  rev_Author rev ∉ (rev_Author <$> GetReviews r).
Proof.
  unfold checkReviewCompat. intros E. apply fail_if_ok in E as [Hs E]. apply fail_if_ok in E as [Ht E].
  apply fail_if_ok in E as [Hu E]. apply fail_if_ok in E as [Ha _].
  rewrite negb_false_iff in Hs. apply bool_decide_eq_false in Ht, Hu. split_and!; [done..|].
  intros (x & Ex & Hx)%list_elem_of_fmap. rewrite existsb_elem_false in Ha. specialize (Ha x Hx).
  apply bool_decide_eq_false in Ha. congruence.
Qed.

(** The review that was applied is fair, and the state follows the count. *)
Lemma sound_step r r' c now rev : sound r -> Z.of_nat (length (GetReviews r')) < 2 ^ 32 ->
  CanReviewRequest c r = Ok true -> ApplyAccessReview now rev (rpc_UserState c) r = (r', Ok tt) -> sound r'.
Proof.
  intros [Ht Hs Ha Hf Hst] Hlen Hcan E. apply CanReview_not_own in Hcan.
  apply apply_ok in E as (tids & res & Eau & Hc & Htids & Ho & _ & Hres & ->). set (rev' := kept_review now tids rev) in *.
  apply compat_facts in Hc as (Hprop & Hne & Hsub & Hnew).
  destruct (review_keeps rev' res r) as (Ku & _ & Kt & Km & Kr & Kc & _).
  destruct (review_keeps rev' None r) as (Lu & _ & Lt & Lm & Lr & Lc & _). simpl in Lu, Lt, Lm, Lr, Lc.
  assert (Hfair : forall r1, GetUser r1 = GetUser r -> GetThresholds r1 = GetThresholds r -> request_context r1 = request_context r ->
    Forall (fair_review r1) (GetReviews r ++ [rev'])).
  { intros r1 E1 E2 E3. apply Forall_app. split.
    - eapply Forall_impl; [exact Hf|]. intros x. unfold fair_review, collectReviewThresholdIndexes, newThresholdFilterContext.
      by rewrite E1, E2, E3.
    - apply Forall_singleton. unfold fair_review, collectReviewThresholdIndexes, newThresholdFilterContext.
      rewrite E1, E2, E3. split_and!; [by simpl; congruence|done|done|]. exists (rpc_UserState c). split; [done|exact Htids]. }
  assert (Hsome : resolvable (with_review rev' r)).
  { split; rewrite ?Lt, ?Lm, ?Lr; [done..| |by rewrite <- Kr].
    eapply Forall_impl; [by apply (Hfair (with_review rev' r))|]. intros x Hx%fair_countable. by rewrite Lt in Hx. }
  rewrite resolution_is_reference in Hres by (done || by rewrite Lt). injection Hres as Hres. rewrite Lt, Lm, Lr in Hres.
  split; rewrite ?Kt, ?Km, ?Kr; [done..| | |].
  - rewrite fmap_app. apply NoDup_app. split_and!; [done| |by apply NoDup_singleton]. intros x Hx ->%list_elem_of_singleton. done.
  - by apply Hfair.
  - rewrite Hres, review_state. destruct res; [done|]. rewrite Hst. destruct (decision r) as [res|] eqn:Ed; [|done].
    exfalso. apply reference_state in Ed as (x & Hx & Ex). rewrite Ex in Hst. rewrite Forall_forall in Hf.
    destruct (Hf x Hx) as (_ & _ & Hrx & _). unfold still_open in Ho. rewrite Hst in Ho. unfold IsResolved in Hrx.
    destruct (IsApproved _); [done|]. destruct (IsDenied _); [done|]. by destruct (IsPromoted _).
Qed.

Lemma reviewed_sound r0 r : reviewable r0 -> reviewed r0 r -> Z.of_nat (length (GetReviews r)) < 2 ^ 32 -> sound r.
Proof.
  intros Hfresh. induction 1 as [|r r' c now rev Hr IH Hcan E]; intros Hlen; [by apply reviewable_sound|].
  eapply sound_step; [apply IH|done..]. apply apply_ok in E as (tids & res & E). destruct E as (_ & _ & _ & _ & _ & _ & ->).
  match goal with H : context [settle ?v ?s _] |- _ => destruct (review_keeps v s r) as (_ & _ & _ & _ & Kr & _); rewrite Kr in H end.
  rewrite length_app in Hlen. lia.
Qed.

(** *** Who voted *)

(** The reviews of a verdict that pass the filter of a threshold, by so many
    users other than the requester. *)
Definition vouched (r : AccessRequestV3) (verdict : RequestState -> bool) (t : AccessReviewThreshold) (need : Z) : Prop :=
  exists voters : list AccessReview, need <= Z.of_nat (length voters) /\ NoDup (rev_Author <$> voters) /\
    forall rev, rev ∈ voters -> rev ∈ GetReviews r /\ verdict (rev_ProposedState rev) = true /\
      rev_Author rev <> GetUser r /\ rev_SubmittedBy rev <> GetUser r /\
      exists author, us_Name author = rev_Author rev /\
        accessReviewThresholdMatchesFilter t (newThresholdFilterContext r rev author) = Ok true.

Lemma first_decision_prefix thresholds rtm rest : forall seen,
  exists more, (seen ++ rest)%list = (first_decision thresholds rtm seen rest ++ more)%list.
Proof.
  induction rest as [|rev rest IH]; intros seen; simpl; [by exists []|].
  case_match; [exists rest; by rewrite <- app_assoc|]. destruct (IH (seen ++ [rev])%list) as [more E].
  exists more. by rewrite <- E, <- app_assoc.
Qed.

Lemma votes_vouched r verdict (i : nat) t p more need : sound r -> GetReviews r = (p ++ more)%list ->
  GetThresholds r !! i = Some t -> need <= votes verdict p i -> vouched r verdict t need.
Proof.
  intros [_ _ Ha Hf _] E Ht Hn. exists (List.filter (counts_for verdict i) p). split; [done|].
  assert (Hin : forall rev, rev ∈ List.filter (counts_for verdict i) p -> rev ∈ p /\ counts_for verdict i rev = true).
  { intros rev. by rewrite !list_elem_of_In, List.filter_In. }
  split.
  - rewrite E, fmap_app in Ha. apply NoDup_app in Ha as (Ha & _). clear -Ha.
    induction p as [|rev p IH]; [constructor|]. apply NoDup_cons in Ha as [Hn Ha]. simpl. destruct (counts_for verdict i rev); [|auto].
    constructor; [|auto]. intros (x & Ex & Hx)%list_elem_of_fmap. apply Hn. rewrite Ex. apply list_elem_of_fmap_2.
    apply list_elem_of_In, List.filter_In in Hx as [Hx _]. by apply list_elem_of_In.
  - intros rev [Hp Hc]%Hin. unfold counts_for in Hc. apply andb_true_iff in Hc as [Hv Hi]. apply bool_decide_eq_true in Hi.
    assert (Hrev : rev ∈ GetReviews r) by (rewrite E, elem_of_app; by left).
    rewrite Forall_forall in Hf. destruct (Hf rev Hrev) as (Hu & Hs & _ & author & Hn' & Htids).
    split_and!; [done..|]. exists author. split; [done|]. apply review_indexes in Htids as (_ & _ & Hk).
    destruct (Hk i Hi) as (t' & Ht' & Hm). rewrite Ht in Ht'. by injection Ht' as <-.
Qed.

Lemma set_vouched r p more tset : sound r -> GetReviews r = (p ++ more)%list -> set_satisfied (GetThresholds r) p tset = true ->
  exists tid t, tid ∈ tset /\ GetThresholds r !! Z.to_nat tid = Some t /\ 1 <= th_Approve t /\ vouched r IsApproved t (th_Approve t).
Proof.
  intros Hs E Hset. unfold set_satisfied in Hset. apply existsb_elem in Hset as (tid & Hin & Ht).
  destruct (GetThresholds r !! Z.to_nat tid) as [t|] eqn:Et; [|done]. apply andb_true_iff in Ht as [Hz Hv].
  apply negb_true_iff, Z.eqb_neq in Hz. apply Z.leb_le in Hv. pose proof (so_thresholds _ Hs) as Hok. rewrite Forall_lookup in Hok.
  destruct (Hok _ _ Et) as [Ha _]. exists tid, t. split_and!; [done..|lia|]. by eapply votes_vouched.
Qed.

Lemma denial_vouched r p more : sound r -> GetReviews r = (p ++ more)%list -> denied_at (GetThresholds r) p = true ->
  exists (i : nat) t, GetThresholds r !! i = Some t /\ 1 <= th_Deny t /\ vouched r IsDenied t (th_Deny t).
Proof.
  intros Hs E Hd. unfold denied_at in Hd. apply existsb_elem in Hd as (i & _ & Ht).
  destruct (GetThresholds r !! i) as [t|] eqn:Et; [|done]. apply andb_true_iff in Ht as [Hz Hv].
  apply negb_true_iff, Z.eqb_neq in Hz. apply Z.leb_le in Hv. pose proof (so_thresholds _ Hs) as Hok. rewrite Forall_lookup in Hok.
  destruct (Hok _ _ Et) as [_ Ha]. exists i, t. split_and!; [done|lia|]. by eapply votes_vouched.
Qed.

(** What the count bears out when a request is resolved. *)
Lemma decided_prefix r : sound r -> GetState r <> RequestState_PENDING ->
  exists p more rev, GetReviews r = (p ++ more)%list /\ last p = Some rev /\ GetState r = rev_ProposedState rev /\
    borne_out (GetThresholds r) (GetRoleThresholdMapping r) p rev = true.
Proof.
  intros Hs Hp. pose proof (so_state _ Hs) as Hst. destruct (decision r) as [res|] eqn:Ed; [|done].
  unfold reference_resolution in Ed. apply bind_Some in Ed as (rev & Hl & Ed).
  destruct (first_decision_prefix (GetThresholds r) (GetRoleThresholdMapping r) (GetReviews r) []) as [more Em].
  destruct (borne_out _ _ _ _) eqn:Eb; [|done]. injection Ed as <-. by exists (first_decision (GetThresholds r) (GetRoleThresholdMapping r) [] (GetReviews r)), more, rev.
Qed.

(** What no review changes. *)
(** The approvals of an approved request. *)
Lemma approved_vouched r role sets tset : sound r -> GetState r = RequestState_APPROVED ->
  GetRoleThresholdMapping r !! role = Some sets -> tset ∈ sets ->
  exists tid t, tid ∈ tset /\ GetThresholds r !! Z.to_nat tid = Some t /\ 1 <= th_Approve t /\ vouched r IsApproved t (th_Approve t).
Proof.
  intros Hs Hst Hrole Hin. destruct (decided_prefix r Hs) as (p & more & rev & E & _ & Ep & Hb); [by rewrite Hst|].
  unfold borne_out in Hb. rewrite <- Ep, Hst in Hb. unfold approved_at in Hb. simpl in Hb. rewrite forallb_forall in Hb.
  specialize (Hb (role, sets)). rewrite <- list_elem_of_In, elem_of_map_to_list in Hb. specialize (Hb Hrole).
  unfold role_approved in Hb. rewrite forallb_forall in Hb. apply (set_vouched r p more); [done..|]. by apply Hb, list_elem_of_In.
Qed.

Lemma reviewed_keeps r0 r : reviewed r0 r ->
  GetUser r = GetUser r0 /\ GetRoles r = GetRoles r0 /\ GetThresholds r = GetThresholds r0 /\
  GetRoleThresholdMapping r = GetRoleThresholdMapping r0 /\ GetAccessExpiry r = GetAccessExpiry r0 /\
  exists more, GetReviews r = (GetReviews r0 ++ more)%list.
Proof.
  induction 1 as [|r r' c now rev Hr IH Hcan E]; [split_and!; try done; exists []; by rewrite app_nil_r|].
  apply apply_ok in E as (tids & res & E). destruct E as (_ & _ & _ & _ & _ & _ & ->).
  match goal with |- context [settle ?v ?s _] =>
    destruct (review_keeps v s r) as (-> & -> & -> & -> & -> & _ & -> & _) end.
  destruct IH as (-> & -> & -> & -> & -> & more & ->). split_and!; try done. eexists. by rewrite <- app_assoc.
Qed.

(** *** When a request is settled *)

(** The reviews settle the request: a denial or approval count is full, or the
    last of them is a promotion, which needs no count. *)
Definition settles (thresholds : list AccessReviewThreshold) (rtm : gmap string ThresholdIndexSets) (p : list AccessReview) : bool :=
  denied_at thresholds p || approved_at thresholds rtm p ||
  match last p with Some rev => IsPromoted (rev_ProposedState rev) | None => false end.

Lemma decides_settles thresholds rtm p : settles thresholds rtm p = false -> decides thresholds rtm p = false.
Proof.
  unfold settles, decides, promoted_at. destruct (denied_at _ _), (approved_at _ _ _); try done. simpl.
  destruct (last p); [|done]. by intros ->.
Qed.

Lemma approved_at_snoc thresholds rtm seen rev : IsApproved (rev_ProposedState rev) = false ->
  approved_at thresholds rtm (seen ++ [rev]) = approved_at thresholds rtm seen.
Proof.
  intros Ha. assert (Hv : forall i, votes IsApproved (seen ++ [rev]) i = votes IsApproved seen i).
  { intros i. rewrite votes_snoc. unfold counts_for. rewrite Ha. simpl. lia. }
  unfold approved_at, role_approved, set_satisfied. f_equal. apply functional_extensionality. intros e.
  f_equal. apply functional_extensionality. intros tset. f_equal. apply functional_extensionality. intros tid.
  destruct (thresholds !! Z.to_nat tid); [|done]. by rewrite Hv.
Qed.

(** The review that settles a request proposes what the count bears out. *)
Lemma settling_review thresholds rtm seen rev : settles thresholds rtm seen = false -> IsResolved (rev_ProposedState rev) = true ->
  borne_out thresholds rtm (seen ++ [rev]) rev = settles thresholds rtm (seen ++ [rev]).
Proof.
  unfold settles, borne_out. intros Hn Hr. rewrite last_snoc. apply orb_false_iff in Hn as [Hn _]. apply orb_false_iff in Hn as [Hd Ha].
  destruct (IsApproved (rev_ProposedState rev)) eqn:Ea.
  - rewrite denied_at_snoc by by apply exclusive_denied. rewrite Hd.
    destruct (IsPromoted (rev_ProposedState rev)) eqn:Ep; [apply exclusive in Ep as [_ ?]; congruence|]. by rewrite orb_false_r.
  - rewrite approved_at_snoc, Ha, orb_false_r by done.
    destruct (IsDenied (rev_ProposedState rev)) eqn:Ed.
    + destruct (IsPromoted (rev_ProposedState rev)) eqn:Ep; [apply exclusive in Ep as [? _]; congruence|]. by rewrite orb_false_r.
    + by rewrite denied_at_snoc, Hd.
Qed.

Lemma first_decision_all thresholds rtm rest : forall seen,
  (forall q more, rest = (q ++ more)%list -> q <> [] -> more <> [] -> decides thresholds rtm (seen ++ q) = false) ->
  first_decision thresholds rtm seen rest = (seen ++ rest)%list.
Proof.
  induction rest as [|rev rest IH]; intros seen Hn; simpl; [by rewrite app_nil_r|].
  destruct rest as [|rev' rest]; [simpl; by case_match|]. rewrite (Hn [rev] (rev' :: rest)) by done.
  rewrite IH; [by rewrite <- app_assoc|]. intros q more E Hq Hm. rewrite <- app_assoc. apply (Hn (rev :: q) more); [|done..].
  by rewrite E.
Qed.

(** No review comes after the one that settles the request. *)
Lemma reviewed_settled r0 r : reviewable r0 -> approved_at (GetThresholds r0) (GetRoleThresholdMapping r0) [] = false ->
  reviewed r0 r -> Z.of_nat (length (GetReviews r)) < 2 ^ 32 ->
  (forall q more, GetReviews r = (q ++ more)%list -> more <> [] -> settles (GetThresholds r0) (GetRoleThresholdMapping r0) q = false) /\
  settles (GetThresholds r0) (GetRoleThresholdMapping r0) (GetReviews r) = IsResolved (GetState r).
Proof.
  intros Hfresh Hempty Hr. assert (Hnil : settles (GetThresholds r0) (GetRoleThresholdMapping r0) [] = false).
  { unfold settles. rewrite denied_at_nil by apply Hfresh. by rewrite Hempty. }
  induction Hr as [|r r' c now rev Hr IH Hcan E]; intros Hlen.
  { rewrite (rv_reviews _ Hfresh), (rv_pending _ Hfresh). split; [|done]. intros q more Eq Hm.
    symmetry in Eq. apply app_eq_nil in Eq as [_ ?]. done. }
  assert (Hs' : sound r') by (eapply reviewed_sound; [done|by eapply reviewed_more|done]).
  pose proof (reviewed_keeps _ _ (reviewed_more _ _ _ _ _ _ Hr Hcan E)) as (_ & _ & Kt & Km & _).
  apply apply_ok in E as (tids & res & E). destruct E as (_ & Hc & _ & Ho & _ & _ & E).
  set (rev' := kept_review now tids rev) in *. apply compat_facts in Hc as (Hprop & _).
  assert (Krev : GetReviews r' = (GetReviews r ++ [rev'])%list)
    by (rewrite E; by destruct (review_keeps rev' res r) as (_ & _ & _ & _ & ? & _)).
  destruct IH as [IHp IHs]; [rewrite Krev, length_app in Hlen; simpl in Hlen; lia|].
  assert (Hopen : settles (GetThresholds r0) (GetRoleThresholdMapping r0) (GetReviews r) = false).
  { rewrite IHs. unfold still_open in Ho. apply fail_if_ok in Ho as [Ha Ho]. apply fail_if_ok in Ho as [Hd Ho].
    apply fail_if_ok in Ho as [Hp _]. unfold IsResolved. by rewrite Ha, Hd, Hp. }
  assert (Hproper : forall q more, GetReviews r' = (q ++ more)%list -> more <> [] ->
    settles (GetThresholds r0) (GetRoleThresholdMapping r0) q = false).
  { intros q more Eq Hm. destruct (exists_last Hm) as (more' & x & ->). rewrite Krev, app_assoc in Eq. apply app_inj_tail in Eq as [Eq _].
    destruct more' as [|y more']; [rewrite app_nil_r in Eq; by rewrite <- Eq|]. by eapply IHp. }
  split; [done|]. pose proof (so_state _ Hs') as Hst. rewrite Kt, Km in Hst. unfold reference_resolution in Hst.
  rewrite first_decision_all in Hst; [|intros q more Eq _ Hm; by eapply decides_settles, Hproper]. rewrite app_nil_l, Krev, last_snoc in Hst.
  cbn [mbind option_bind] in Hst. rewrite settling_review in Hst by done. rewrite Krev, Hst.
  destruct (settles _ _ (_ ++ [_])); [by rewrite <- Hprop|done].
Qed.
End History.

(** ** Who may review *)

Section Permission.
Context `{RegexpCache} `{MatcherCalls} `{ReviewPredicates} `{MapOrder (list string)} `{MapOrderLaws (list Matcher)}.

(** One of the directives under a predicate that holds matches the role. *)
Definition directed (rpc : reviewPermissionContext) (l : list (string * list Matcher)) (role : string) : Prop :=
  exists expr ms, (expr, ms) ∈ l /\ predicate_holds rpc expr = Ok true /\ any_match ms role = true.

Definition evaluable (rpc : reviewPermissionContext) (l : list (string * list Matcher)) : Prop :=
  forall expr ms, (expr, ms) ∈ l -> is_ok (predicate_holds rpc expr) = true.

Lemma directed_cons rpc expr ms l role : directed rpc ((expr, ms) :: l) role <->
  (predicate_holds rpc expr = Ok true /\ any_match ms role = true) \/ directed rpc l role.
Proof. unfold directed. setoid_rewrite elem_of_cons. naive_solver. Qed.

Lemma deny_loop_ok rpc roles l b : deny_loop rpc roles l = Ok b ->
  (b = true <-> exists role, role ∈ roles /\ directed rpc l role).
Proof.
  induction l as [|[expr ms] l IH]; simpl; intros E.
  { injection E as <-. split; [done|]. intros (? & _ & ? & ? & ? & _). set_solver. }
  apply rbind_ok in E as (m & Em & E). setoid_rewrite directed_cons. rewrite Em.
  destruct m; simpl in E.
  - destruct (existsb (any_match ms) roles) eqn:Ex; simpl in E.
    + injection E as <-. apply existsb_elem in Ex as (role & ? & ?). naive_solver.
    + rewrite existsb_elem_false in Ex. rewrite (IH E). split; [naive_solver|].
      intros (role & Hr & [[_ Hm]|Hd]); [by rewrite Ex in Hm|eauto].
  - rewrite (IH E). naive_solver.
Qed.

Lemma deny_loop_total rpc roles l : evaluable rpc l -> exists b, deny_loop rpc roles l = Ok b.
Proof.
  induction l as [|[expr ms] l IH]; intros He; [by exists false|]. simpl.
  destruct (proj1 (is_ok_true _) (He expr ms ltac:(by left))) as [m ->]. simpl.
  destruct (_ && _); [by exists true|]. apply IH. intros e ms' Hin. apply (He e ms'). by right.
Qed.

Lemma allow_loop_ok rpc l : forall needs rest, allow_loop rpc needs l = Ok rest ->
  (forall role, role ∈ rest -> role ∈ needs) /\
  (rest = [] <-> forall role, role ∈ needs -> directed rpc l role).
Proof.
  induction l as [|[expr ms] l IH]; intros needs rest E; simpl in E.
  { injection E as <-. split; [done|]. split; [intros ->; set_solver|]. intros Hd. destruct needs as [|r needs]; [done|].
    destruct (Hd r) as (? & ? & ? & _); set_solver. }
  apply rbind_ok in E as (m & Em & E). setoid_rewrite directed_cons. rewrite Em. destruct m; simpl in E; cycle 1.
  { apply IH in E as [Hin He]. split; [done|]. rewrite He. naive_solver. }
  set (left := List.filter _ _) in E.
  assert (Hleft : forall role, role ∈ left <-> role ∈ needs /\ any_match ms role = false).
  { intros role. unfold left. rewrite list_elem_of_In, List.filter_In, <- list_elem_of_In, negb_true_iff. done. }
  assert (Hall : (forall role, role ∈ left -> directed rpc l role) <->
      forall role, role ∈ needs -> (Ok true = Ok true /\ any_match ms role = true) \/ directed rpc l role).
  { split; intros Hd role Hr.
    - destruct (any_match ms role) eqn:Ea; [by left|]. right. apply Hd, Hleft. done.
    - apply Hleft in Hr as [Hr Ha]. destruct (Hd role Hr) as [[_ ?]|?]; [congruence|done]. }
  case_bool_decide as Hn.
  - injection E as <-. split; [intros role ?%Hleft; tauto|]. rewrite <- Hall, Hn. split; [set_solver|done].
  - apply IH in E as [Hin He]. split; [intros role ?%Hin%Hleft; tauto|]. by rewrite He, Hall.
Qed.

Lemma allow_loop_total rpc l : evaluable rpc l -> forall needs, exists rest, allow_loop rpc needs l = Ok rest.
Proof.
  induction l as [|[expr ms] l IH]; intros He needs; [by exists needs|]. simpl.
  destruct (proj1 (is_ok_true _) (He expr ms ltac:(by left))) as [m ->]. simpl.
  assert (He' : evaluable rpc l) by (intros e ms' Hin; apply (He e ms'); by right).
  destruct m; simpl; [|by apply IH]. case_bool_decide; [eauto|by apply IH].
Qed.

Definition may_review (c : ReviewPermissionChecker) (r : AccessRequestV3) : Prop :=
  let rpc := permission_context c r in
  us_Name (rpc_UserState c) <> GetUser r /\
  (forall role, role ∈ GetOriginalRoles r -> ~ directed rpc (map_to_list (DenyReview c)) role) /\
  (forall role, role ∈ GetOriginalRoles r -> directed rpc (map_to_list (AllowReview c)) role).

Lemma directed_range rpc (m : gmap string (list Matcher)) role :
  directed rpc (range m) role <-> directed rpc (map_to_list m) role.
Proof. unfold directed. by setoid_rewrite (range_permutation m). Qed.

Lemma CanReview_ok c r b : CanReviewRequest c r = Ok b -> (b = true <-> may_review c r).
Proof.
  unfold CanReviewRequest, may_review. case_bool_decide as Hu; [intros [= <-]; by split; [|intros [? _]]|]. intros E.
  apply rbind_ok in E as (d & Hd & E). apply deny_loop_ok in Hd. setoid_rewrite directed_range in Hd.
  destruct d.
  - injection E as <-. split; [done|]. intros (_ & Hn & _). destruct (proj1 Hd eq_refl) as (role & Hr & Hx).
    by destruct (Hn role Hr).
  - apply rbind_ok in E as (rest & Hrest & [= <-]). apply allow_loop_ok in Hrest as [_ Hrest].
    setoid_rewrite directed_range in Hrest. rewrite bool_decide_eq_true, Hrest. split; [|tauto].
    intros Ha. split_and!; [done| |done]. intros role Hr Hx. assert (false = true) by (apply Hd; eauto). done.
Qed.

Lemma CanReview_total c r : evaluable (permission_context c r) (map_to_list (DenyReview c)) ->
  evaluable (permission_context c r) (map_to_list (AllowReview c)) -> exists b, CanReviewRequest c r = Ok b.
Proof.
  intros Hd Ha. unfold CanReviewRequest. case_bool_decide; [eauto|].
  assert (Hrange : forall (m : gmap string (list Matcher)), evaluable (permission_context c r) (map_to_list m) ->
    evaluable (permission_context c r) (range m)).
  { intros m Hm expr ms Hin. apply (Hm expr ms). by rewrite <- (range_permutation m). }
  destruct (deny_loop_total (permission_context c r) (GetOriginalRoles r) _ (Hrange _ Hd)) as [[] ->]; simpl; [eauto|].
  destruct (allow_loop_total (permission_context c r) _ (Hrange _ Ha) (GetOriginalRoles r)) as [rest ->]. simpl. eauto.
Qed.

(** *** The directives of a user's roles *)

(** The matchers of the review conditions of one role. *)
Definition role_directives (cond : RoleConditionType) (ts : traits) (role : RoleV6) : result (list Matcher) :=
  let c := GetAccessReviewConditions cond role in AppendRoleMatchers [] (avc_Roles c) (avc_ClaimsToRoles c) ts.

Lemma AppendRoleMatchers_onto ms roles cms ts : AppendRoleMatchers ms roles cms ts =
  let? more := AppendRoleMatchers [] roles cms ts in Ok (ms ++ more)%list.
Proof. unfold AppendRoleMatchers. destruct (NewMatchers roles); [|done]. simpl. by destruct (TraitsToRoleMatchers _ _). Qed.

(** One of the roles has a directive under the predicate that matches. *)
Definition role_directed (cond : RoleConditionType) (getRole : string -> result RoleV6) (ts : traits) (roles : list string)
    (expr role : string) : Prop :=
  exists name r ms, name ∈ roles /\ getRole name = Ok r /\ avc_Where (GetAccessReviewConditions cond r) = expr /\
    role_directives cond ts r = Ok ms /\ any_match ms role = true.

Definition entry_matches (m : gmap string (list Matcher)) (expr role : string) : Prop :=
  exists ms, m !! expr = Some ms /\ any_match ms role = true.

Lemma entry_insert m w more expr role :
  entry_matches (<[w := default [] (m !! w) ++ more]> m) expr role <->
  entry_matches m expr role \/ (w = expr /\ any_match more role = true).
Proof.
  unfold entry_matches. destruct (decide (w = expr)) as [->|Hne].
  - setoid_rewrite lookup_insert_eq. unfold any_match. split.
    + intros (ms & [= <-] & Hm). rewrite existsb_app in Hm. destruct (m !! expr) as [ms|]; simpl in Hm; [|auto].
      apply orb_true_iff in Hm. naive_solver.
    + intros Hor. eexists. split; [done|]. rewrite existsb_app. destruct Hor as [(ms & -> & Hm)|[_ Hm]]; [simpl; by rewrite Hm|].
      by rewrite Hm, orb_true_r.
  - setoid_rewrite (lookup_insert_ne m w expr) ; [|done]. naive_solver.
Qed.

Lemma role_directed_cons cond getRole ts name r roles expr role : getRole name = Ok r ->
  role_directed cond getRole ts (name :: roles) expr role <->
  (avc_Where (GetAccessReviewConditions cond r) = expr /\
   exists ms, role_directives cond ts r = Ok ms /\ any_match ms role = true) \/ role_directed cond getRole ts roles expr role.
Proof.
  intros Hr. unfold role_directed. split.
  - intros (nm & r' & ms & [->|Hin]%elem_of_cons & Hg & Hw & Hm & Ha).
    + left. rewrite Hr in Hg. injection Hg as <-. eauto.
    + right. exists nm, r', ms. done.
  - intros [(Hw & ms & Hm & Ha)|(nm & r' & ms & Hin & Hx)].
    + exists name, r, ms. split; [by left|done].
    + exists nm, r', ms. split; [by right|done].
Qed.

Lemma push_reviews_spec getRole roles : forall c c', push_reviews getRole c roles = Ok c' ->
  rpc_UserState c' = rpc_UserState c /\
  (forall expr role, entry_matches (AllowReview c') expr role <->
     entry_matches (AllowReview c) expr role \/ role_directed Allow getRole (us_Traits (rpc_UserState c)) roles expr role) /\
  (forall expr role, entry_matches (DenyReview c') expr role <->
     entry_matches (DenyReview c) expr role \/ role_directed Deny getRole (us_Traits (rpc_UserState c)) roles expr role).
Proof.
  induction roles as [|name roles IH]; intros c c' E; simpl in E.
  { injection E as <-. split; [done|]. unfold role_directed. split; intros; split; [by left| |by left|];
      (intros [?|(? & ? & ? & ? & _)]; [done|set_solver]). }
  apply rbind_ok in E as (r & Hr & E). apply rbind_ok in E as (c1 & Hc & E). unfold push_review in Hc.
  rewrite !(AppendRoleMatchers_onto (default _ _)) in Hc. fold (role_directives Deny (us_Traits (rpc_UserState c)) r) in Hc.
  fold (role_directives Allow (us_Traits (rpc_UserState c)) r) in Hc.
  apply rbind_ok in Hc as (? & (dm & Hdm & [= <-])%rbind_ok & Hc).
  apply rbind_ok in Hc as (? & (am & Ham & [= <-])%rbind_ok & [= <-]).
  apply IH in E as (-> & Ha & Hd). simpl in Ha, Hd |- *.
  assert (Hone : forall (m : result (list Matcher)) x role, m = Ok x ->
    (exists ms, m = Ok ms /\ any_match ms role = true) <-> any_match x role = true).
  { intros m x role ->. split; [by intros (? & [= <-] & ?)|eauto]. }
  split; [done|]. split; intros expr role; rewrite (role_directed_cons _ _ _ _ _ _ _ _ Hr).
  - rewrite Ha, entry_insert, (Hone _ _ _ Ham). tauto.
  - rewrite Hd, entry_insert, (Hone _ _ _ Hdm). tauto.
Qed.

(** What the checker of a user lets through, in terms of the user's roles. *)
Definition user_may_review (getRole : string -> result RoleV6) (u : UserState) (r : AccessRequestV3) : Prop :=
  let rpc := {| rp_reviewer := author_context u; rp_request := request_context r |} in
  let directs cond role := exists expr, role_directed cond getRole (us_Traits u) (us_Roles u) expr role /\
    predicate_holds rpc expr = Ok true in
  us_Name u <> GetUser r /\
  forall role, role ∈ GetOriginalRoles r -> directs Allow role /\ ~ directs Deny role.

Lemma directed_entry rpc (m : gmap string (list Matcher)) role : directed rpc (map_to_list m) role <->
  exists expr, entry_matches m expr role /\ predicate_holds rpc expr = Ok true.
Proof. unfold directed, entry_matches. setoid_rewrite elem_of_map_to_list. naive_solver. Qed.

Lemma new_checker_may_review getUser getRole username ident c r :
  NewReviewPermissionChecker getUser getRole username ident = Ok c ->
  (may_review c r <-> user_may_review getRole (rpc_UserState c) r).
Proof.
  unfold NewReviewPermissionChecker. intros E. apply rbind_ok in E as (uls & _ & E).
  apply rbind_ok in E as (u & _ & E). apply push_reviews_spec in E as (Eu & Ha & Hd). simpl in Eu, Ha, Hd.
  assert (Hempty : forall expr role, ~ entry_matches ∅ expr role)
    by (intros expr role (ms & Hms & _); by rewrite lookup_empty in Hms).
  unfold may_review, user_may_review. rewrite Eu. setoid_rewrite directed_entry. setoid_rewrite Ha. setoid_rewrite Hd.
  unfold permission_context. rewrite Eu. split.
  - intros (Hn & Hden & Hall). split; [done|]. intros role Hr. specialize (Hden role Hr). specialize (Hall role Hr). naive_solver.
  - intros (Hn & Hall). split_and!; [done| |]; intros role Hr; destruct (Hall role Hr) as [Hx Hy]; naive_solver.
Qed.
End Permission.
