(* ===== verification/DynamicAccess.v ===== *)
(** * The access request service: [lib/services/local/dynamic_access.go]

    Requests are kept in the backend, one item each under
    [/access_requests/<name>/params], as JSON.  A review and a change of state
    are read-modify-write loops over conditional updates: several servers run
    them at the same time, and a conflict starts over, seven times at most.

    [RequestBackend] is the backend over a world [W], [RequestBackendLaws] is
    what its conditional writes promise for any interference of other servers,
    and [RequestRange] is what a read of a range gives when nobody writes.  The
    JSON codec is a third-party library: the class [RequestJSON]. *)

From S2P Require Import Prelude GoStrings Utf8 Types Key Backend Memory Regexp Service Roles AccessRequest AccessReview ReviewFacts.
From S2P Require Import RolloutReconciler.

(** ** The backend *)

(** A call that creates or writes returns the revision of the item.  [Wait] is
    the wait before another attempt, which fails when the context is over. *)
Class RequestBackend (W : Type) := {
  rb_Get : Key -> M W Item;
  rb_Create : Item -> M W string;
  rb_Put : Item -> M W string;
  rb_ConditionalUpdate : Item -> M W string;
  rb_Delete : Key -> M W unit;
  rb_DeleteRange : Key -> Key -> M W unit;
  rb_Items : ItemsParams -> M W (list Item);
  rb_Wait : M W unit;
  rb_Now : W -> time;
}.

Class RequestJSON := {
  FastMarshal : AccessRequestV3 -> result string;
  FastUnmarshal : string -> result AccessRequestV3;
}.

Definition accessRequestsPrefix := "access_requests".
Definition paramsPrefix := "params".
Definition maxCmpAttempts : nat := 7.
Definition DefaultChunkSize : Z := 1000.

Definition accessRequestKey (name : string) : Key := NewKey [accessRequestsPrefix; name; paramsPrefix].

(** ** Marshaling: [lib/services/access_request.go] *)

Section Codec.
Context `{RequestJSON} `{MapOrder string} `{UUIDs}.

(** The request is checked, which sets its defaults, and is written without
    its revision. *)
Definition MarshalAccessRequest (r : AccessRequestV3) : result (AccessRequestV3 * string) :=
  let? r := ValidateAccessRequest r in
  let? value := FastMarshal (SetRevision "" r) in
  Ok (r, value).

Definition UnmarshalAccessRequest (revision data : string) : result AccessRequestV3 :=
  let? r := FastUnmarshal data in
  let? r := validateAccessRequest true r in
  Ok (if bool_decide (revision = "") then r else SetRevision revision r).

Definition itemFromAccessRequest (r : AccessRequestV3) : result (AccessRequestV3 * Item) :=
  let? (r, value) := MarshalAccessRequest r in
  Ok (r, {| i_Key := accessRequestKey (request_GetName r); i_Value := value; i_Expires := None;
            i_Revision := GetRevision r |}).

Definition itemToAccessRequest (i : Item) : result AccessRequestV3 := UnmarshalAccessRequest (i_Revision i) (i_Value i).
End Codec.

(** ** The service *)

(** [if trace.IsNotFound(err)]: another error for a missing item *)
Definition unless_found {W A} (e' : error) (m : M W A) : M W A :=
  mcatch id (fun e => if IsNotFound e then e' else e) m.

Section Service.
Context {W : Type} `{RequestBackend W} `{RequestJSON} `{MapOrder string} `{UUIDs} `{StrCase}.
Context `{RegexpCache} `{MatcherCalls} `{ReviewPredicates} `{MapOrder (list Matcher)} `{MapOrder ThresholdIndexSets}.

Definition CreateAccessRequestV2 (req : AccessRequestV3) : M W AccessRequestV3 :=
  let* now := mget rb_Now in
  let req := if time_IsZero (GetCreationTime req) then SetCreationTime now req else req in
  let* req := mlift (ValidateAccessRequest req) in
  deny_if ars_DryRun (ar_Spec req)
    with BadParameter "dry run access request made it to DynamicAccessService, this is a bug" [];
  deny_if ars_LongTermGrouping (ar_Spec req)
    with BadParameter "long term resource grouping should not be persisted, this is a bug" [];
  let* (req, item) := mlift (itemFromAccessRequest req) in
  do* rb_Create item;
  mret req.

(** The loop of [SetAccessRequestState] and [ApplyAccessReview]: read, change,
    write if nobody else has written, or else wait and start over. *)
Fixpoint cmp_attempts (attempts : nat) (name : string) (missing : error) (change : AccessRequestV3 -> M W AccessRequestV3)
  : M W AccessRequestV3 :=
  match attempts with
  | O => mfail (CompareFailed "too many concurrent writes to access request %s, try again later" [name])
  | S attempts' =>
      let* item := unless_found missing (rb_Get (accessRequestKey name)) in
      let* req := mlift (itemToAccessRequest item) in
      let* req := change req in
      let* (req, newItem) := mlift (itemFromAccessRequest req) in
      let* updated := mtry (rb_ConditionalUpdate newItem) in
      match updated with
      | Ok _ => mret req
      | Err e =>
          if IsCompareFailed e then (do* rb_Wait; cmp_attempts attempts' name missing change)
          else mfail e
      end
  end.

(** The changes of [SetAccessRequestState] to the request it read. *)
Definition update_state (params : AccessRequestUpdate) (req : AccessRequestV3) : result AccessRequestV3 :=
  fail_if (GetState req =? upd_State params) && IsResolved (GetState req)
    with BadParameter "cannot update access request in state %q" [state_String (GetState req)];
  let? req := SetState (upd_State params) req in
  let req := SetResolveAnnotations (upd_Annotations params) (SetResolveReason (upd_Reason params) req) in
  let? req :=
    match find (fun role => negb (slices_Contains (GetRoles req) role)) (upd_Roles params) with
    | Some role =>
        Err (BadParameter "role %q not in original request, overrides must be a subset of original role list" [role])
    | None => Ok (if bool_decide (upd_Roles params = []) then req else SetRoles (upd_Roles params) req)
    end in
  let? req :=
    match upd_AssumeStartTime params with
    | None => Ok req
    | Some t =>
        check ValidateAssumeStartTime t (GetAccessExpiry req) (GetCreationTime req);
        Ok (SetAssumeStartTime t req)
    end in
  Ok (if IsApproved (upd_State params) then SetExpiry (GetAccessExpiry req) req else req).

Definition SetAccessRequestState (params : AccessRequestUpdate) : M W AccessRequestV3 :=
  do* mlift (update_Check params);
  cmp_attempts maxCmpAttempts (upd_RequestID params)
    (NotFound "cannot set state of access request %q (not found)" [upd_RequestID params])
    (fun req => mlift (update_state params req)).

(** The permission, and then the review. *)
Definition review_request (now : time) (checker : ReviewPermissionChecker) (name : string) (rev : AccessReview)
    (req : AccessRequestV3) : result AccessRequestV3 :=
  let? ok := CanReviewRequest checker req in
  fail_if negb ok with AccessDenied "user %q cannot review request %q" [rev_Author rev; name];
  let '(req, applied) := ApplyAccessReview now rev (rpc_UserState checker) req in
  check applied;
  Ok req.

Definition DynamicAccess_ApplyAccessReview (params : AccessReviewSubmission) (checker : ReviewPermissionChecker)
  : M W AccessRequestV3 :=
  do* mlift (submission_Check params);
  cmp_attempts maxCmpAttempts (sub_RequestID params)
    (NotFound "cannot apply review to access request %q (not found)" [sub_RequestID params])
    (fun req =>
       let* now := mget rb_Now in
       mlift (review_request now checker (sub_RequestID params) (sub_Review params) req)).

Definition getAccessRequest (name : string) : M W AccessRequestV3 :=
  let* item := unless_found (NotFound "access request %q not found" [name]) (rb_Get (accessRequestKey name)) in
  mlift (itemToAccessRequest item).

Definition DeleteAccessRequest (name : string) : M W unit :=
  unless_found (NotFound "cannot delete access request %q (not found)" [name]) (rb_Delete (accessRequestKey name)).

Definition requests_start : Key := ExactKey [accessRequestsPrefix].

Definition DeleteAllAccessRequests : M W unit := rb_DeleteRange requests_start (RangeEnd requests_start).

Definition UpsertAccessRequest (req : AccessRequestV3) : M W unit :=
  let* req := mlift (ValidateAccessRequest req) in
  let* (_, item) := mlift (itemFromAccessRequest req) in
  do* rb_Put item;
  mret tt.

(** *** Lists *)

(** A filter that names an identifier: no request or one. *)
Definition lookup_request (filter : AccessRequestFilter) : M W (list AccessRequestV3) :=
  let* found := mtry (getAccessRequest (f_ID filter)) in
  match found with
  | Ok req => mret (if filter_Match filter req then [req] else [])
  | Err e => if IsNotFound e then mret [] else mfail e
  end.

Definition is_params (i : Item) : bool := KeyHasSuffix (i_Key i) (NewKey [paramsPrefix]).

Fixpoint decode_matching (filter : AccessRequestFilter) (items : list Item) : result (list AccessRequestV3) :=
  match items with
  | [] => Ok []
  | item :: items' =>
      if negb (is_params item) then decode_matching filter items'
      else
        let? req := itemToAccessRequest item in
        let? rest := decode_matching filter items' in
        Ok (if filter_Match filter req then req :: rest else rest)
  end.

Definition GetAccessRequests (filter : AccessRequestFilter) : M W (list AccessRequestV3) :=
  if negb (bool_decide (f_ID filter = "")) then lookup_request filter
  else
    let* items := rb_Items {| ip_StartKey := requests_start; ip_EndKey := RangeEnd requests_start;
                              ip_Descending := false; ip_Limit := NoLimit |} in
    mlift (decode_matching filter items).

(** One page: an item that does not decode is passed over. *)
Fixpoint page_requests (filter : AccessRequestV3 -> bool) (limit : Z) (res : list AccessRequestV3) (items : list Item)
  : list AccessRequestV3 * string :=
  match items with
  | [] => (res, "")
  | item :: items' =>
      if negb (is_params item) then page_requests filter limit res items'
      else match itemToAccessRequest item with
      | Err _ => page_requests filter limit res items'
      | Ok req =>
          if negb (filter req) then page_requests filter limit res items'
          else if limit <=? Z.of_nat (length res) then (res, request_GetName req)
          else page_requests filter limit (res ++ [req])%list items'
      end
  end.

Definition collectPage (limit : Z) (start : string) (filter : AccessRequestV3 -> bool)
  : M W (list AccessRequestV3 * string) :=
  let limit := if limit <? 1 then DefaultChunkSize else limit in
  deny_if 16000 <? limit with BadParameter "page size of %d is too large" [];
  let startKey := if bool_decide (start = "") then requests_start else NewKey [accessRequestsPrefix; start] in
  let* items := rb_Items {| ip_StartKey := startKey; ip_EndKey := RangeEnd requests_start;
                            ip_Descending := false; ip_Limit := NoLimit |} in
  mret (page_requests filter limit [] items).

Record ListAccessRequestsRequest := {
  lar_Filter : option AccessRequestFilter;
  lar_Limit : Z;       (* int32 *)
  lar_StartKey : string;
  lar_Sort : Z;
  lar_Descending : bool;
}.

Definition AccessRequestSort_DEFAULT : Z := 0.

Definition no_filter : AccessRequestFilter :=
  {| f_ID := ""; f_User := ""; f_State := RequestState_NONE; f_SearchKeywords := []; f_Scope := 0; f_Requester := "" |}.

(** The requests of the page and the key of the next. *)
Definition ListAccessRequests (req : ListAccessRequestsRequest) : M W (list AccessRequestV3 * string) :=
  let filter := default no_filter (lar_Filter req) in
  if negb (bool_decide (f_ID filter = "")) then
    let* found := lookup_request filter in mret (found, "")
  else
    deny_if negb (lar_Sort req =? AccessRequestSort_DEFAULT)
      with BadParameter "access request sort indexes other than DEFAULT cannot be used to load directly from the backend (expected %v, got %v)" [];
    deny_if lar_Descending req
      with BadParameter "access requests cannot be loaded directly from the backend with descending sort order" [];
    collectPage (lar_Limit req) (lar_StartKey req) (filter_Match filter).

Definition ListExpiredAccessRequests (limit : Z) (pageToken : string) : M W (list AccessRequestV3 * string) :=
  let* now := mget rb_Now in
  collectPage limit pageToken (fun r => Expiry r <? now).
End Service.

(** ** What the writes promise *)

(** [stored] is the item at a key, [others] what other servers may do between
    two calls: a revision they leave stands for the same item. *)
Class RequestBackendLaws (W : Type) `{RequestBackend W} (stored : W -> string -> option Item) (others : W -> W -> Prop) : Prop := {
  rb_others_preorder :: PreOrder others;
  rb_revision w w' k i i' : others w w' -> stored w k = Some i -> stored w' k = Some i' ->
    i_Revision i = i_Revision i' -> i = i';
  rb_revised w k i : stored w k = Some i -> i_Revision i <> "";
  rb_wait_others : step_in others rb_Wait;
  rb_get_others k : step_in others (rb_Get k);
  rb_get_ok k w w' i : rb_Get k w = (w', Ok i) -> stored w' (k_s k) = Some i;
  rb_get_missing k w w' e : rb_Get k w = (w', Err e) -> IsNotFound e = true -> stored w' (k_s k) = None;
  rb_create_ok i w w' rev : rb_Create i w = (w', Ok rev) ->
    exists w1, others w w1 /\ stored w1 (k_s (i_Key i)) = None /\
      forall k, stored w' k = if bool_decide (k = k_s (i_Key i)) then Some (with_rev rev i) else stored w1 k;
  rb_create_err i w w' e : rb_Create i w = (w', Err e) -> others w w';
  rb_update_ok i w w' rev : rb_ConditionalUpdate i w = (w', Ok rev) ->
    exists w1 i0, others w w1 /\ stored w1 (k_s (i_Key i)) = Some i0 /\ i_Revision i0 = i_Revision i /\
      forall k, stored w' k = if bool_decide (k = k_s (i_Key i)) then Some (with_rev rev i) else stored w1 k;
  rb_update_err i w w' e : rb_ConditionalUpdate i w = (w', Err e) -> others w w';
}.

(** The codec reads back what it wrote. *)
Class RequestJSONLaws `{RequestJSON} : Prop :=
  json_roundtrip r value : FastMarshal r = Ok value -> FastUnmarshal value = Ok r.

Lemma accessRequestKey_inj n m : plain n -> plain m -> k_s (accessRequestKey n) = k_s (accessRequestKey m) -> n = m.
Proof.
  intros Hn Hm E. unfold accessRequestKey in E. apply NewKey_inj in E; [by injection E| | |done|done].
  - repeat constructor; [compute; set_solver|done|compute; set_solver].
  - repeat constructor; [compute; set_solver|done|compute; set_solver].
Qed.

Section Atomic.
Context {W : Type} `{Laws : RequestBackendLaws W stored others} `{Json : RequestJSONLaws} `{MapOrder string} `{UUIDs}.

(** What an item is written for reads back under the revision it got. *)
Lemma item_roundtrip r r' item rev : itemFromAccessRequest r = Ok (r', item) -> rev <> "" ->
  itemToAccessRequest (with_rev rev item) = Ok (SetRevision rev r') /\ ValidateAccessRequest r = Ok r' /\
  i_Key item = accessRequestKey (request_GetName r') /\ i_Revision item = GetRevision r' /\
  request_GetName r' = request_GetName r /\ GetRevision r' = GetRevision r.
Proof.
  unfold itemFromAccessRequest, MarshalAccessRequest. intros E Hrev.
  apply rbind_ok in E as ([r1 value] & E1 & [= <- <-]). apply rbind_ok in E1 as (r2 & Hv & E1).
  apply rbind_ok in E1 as (value' & Hm & [= <- <-]). destruct (validate_idempotent _ _ Hv) as (Hi & Hn & Hr).
  split_and!; [|done..]. unfold itemToAccessRequest, UnmarshalAccessRequest. simpl.
  rewrite (json_roundtrip _ _ Hm). simpl. rewrite Hi. simpl. rewrite bool_decide_false by done. by destruct r2 as [? ? ? [] ?].
Qed.

Lemma item_revision w k i r : stored w k = Some i -> itemToAccessRequest i = Ok r -> GetRevision r = i_Revision i.
Proof.
  intros Hs. apply rb_revised in Hs. unfold itemToAccessRequest, UnmarshalAccessRequest. intros E.
  apply rbind_ok in E as (r1 & _ & E). apply rbind_ok in E as (r2 & _ & [= <-]).
  by rewrite bool_decide_false by done.
Qed.

(** A change that reads the world and keeps the metadata of the request. *)
Definition plain_change (change : AccessRequestV3 -> M W AccessRequestV3) : Prop :=
  forall req w w' r, change req w = (w', r) -> w' = w /\ forall req', r = Ok req' -> ar_Metadata req' = ar_Metadata req.

(** The write of a loop: at one moment the request that was read is the one in
    the store, and what the change made of it takes its place.  A request is
    written under its own name, so this is said of a request that was read
    under its name. *)
Definition written (name : string) (change : AccessRequestV3 -> M W AccessRequestV3) (w w' : W) (req' : AccessRequestV3) : Prop :=
  exists w0 w1 item item' req req1,
    others w w0 /\ others w0 w1 /\
    stored w0 (k_s (accessRequestKey name)) = Some item /\ itemToAccessRequest item = Ok req /\
    change req w0 = (w0, Ok req1) /\ ValidateAccessRequest req1 = Ok req' /\
    (request_GetName req = name ->
     stored w1 (k_s (accessRequestKey name)) = Some item /\
     stored w' (k_s (accessRequestKey name)) = Some item' /\
     itemToAccessRequest item' = Ok (SetRevision (i_Revision item') req') /\
     forall k, k <> k_s (accessRequestKey name) -> stored w' k = stored w1 k).

Lemma written_later name change w w0 w' req' : others w w0 -> written name change w0 w' req' -> written name change w w' req'.
Proof.
  intros Ho (w1 & w2 & item & item' & req & req1 & Ha & Hrest). exists w1, w2, item, item', req, req1.
  split; [by transitivity w0|exact Hrest].
Qed.

(** An attempt that gets to its write. *)
Lemma attempt_written name change w w0 w1 item req req1 req' newItem rev :
  plain_change change -> others w w0 -> stored w0 (k_s (accessRequestKey name)) = Some item ->
  itemToAccessRequest item = Ok req -> change req w0 = (w0, Ok req1) -> itemFromAccessRequest req1 = Ok (req', newItem) ->
  rb_ConditionalUpdate newItem w0 = (w1, Ok rev) -> written name change w w1 req'.
Proof.
  intros Hch Ho Hst Hdec Hc Hnew Hup. apply Hch in Hc as Hm. destruct Hm as [_ Hm]. specialize (Hm req1 eq_refl).
  pose proof (item_revision _ _ _ _ Hst Hdec) as Hrev.
  apply rb_update_ok in Hup as (w2 & i0 & Ho2 & Hst2 & Hr2 & Hall).
  destruct (item_roundtrip _ _ _ "x" Hnew ltac:(done)) as (_ & Hval & Hkey & Hri & Hn' & Hrr).
  exists w0, w2, item, (with_rev rev newItem), req, req1. split_and!; try done. intros Hname.
  assert (Hk : k_s (i_Key newItem) = k_s (accessRequestKey name)).
  { rewrite Hkey, Hn'. unfold request_GetName in *. by rewrite Hm, Hname. }
  rewrite Hk in *.
  assert (Hnow : stored w1 (k_s (accessRequestKey name)) = Some (with_rev rev newItem))
    by (by rewrite Hall, bool_decide_true by done).
  pose proof (rb_revised _ _ _ Hnow) as Hne. simpl in Hne.
  destruct (item_roundtrip _ _ _ rev Hnew Hne) as (Hrt & _).
  assert (i0 = item) as ->.
  { symmetry. eapply (rb_revision w0 w2); [exact Ho2|exact Hst|exact Hst2|]. rewrite Hr2, Hri, Hrr. unfold GetRevision in *. by rewrite Hm. }
  split_and!; [done..|]. intros k Hkk. by rewrite Hall, bool_decide_false.
Qed.

Lemma unless_found_get e' k : step_in others (unless_found e' (rb_Get k)).
Proof. apply step_in_mcatch; [apply _|apply rb_get_others|done]. Qed.

Lemma cmp_attempts_spec name missing change attempts : plain_change change ->
  forall w w' r, cmp_attempts attempts name missing change w = (w', r) ->
  match r with
  | Ok req' => written name change w w' req'
  | Err _ => others w w'
  end.
Proof.
  intros Hch. induction attempts as [|attempts IH]; intros w w' r E; [injection E as <- <-; done|].
  cbn [cmp_attempts] in E. unfold mthen at 1 in E.
  destruct (unless_found missing (rb_Get (accessRequestKey name)) w) as [w0 got] eqn:Eg.
  pose proof (unless_found_get _ _ _ _ _ Eg) as Ho. destruct got as [item|e]; [|injection E as <- <-; done].
  apply mcatch_ok, rb_get_ok in Eg. unfold mthen at 1, mlift at 1 in E.
  destruct (itemToAccessRequest item) as [req|e] eqn:Ed; [|injection E as <- <-; done].
  unfold mthen at 1 in E. destruct (change req w0) as [w0' [req1|e]] eqn:Ec; destruct (Hch _ _ _ _ Ec) as [-> _];
    [|injection E as <- <-; done].
  unfold mthen at 1, mlift at 1 in E. destruct (itemFromAccessRequest req1) as [[req' newItem]|e] eqn:En; [|injection E as <- <-; done].
  unfold mthen at 1, mtry at 1 in E. destruct (rb_ConditionalUpdate newItem w0) as [w1 [rev|e]] eqn:Eu.
  - injection E as <- <-. by eapply attempt_written.
  - pose proof (rb_update_err _ _ _ _ Eu) as Ho1. assert (Hw1 : others w w1) by (by transitivity w0).
    destruct (IsCompareFailed e); [|injection E as <- <-; done].
    unfold mthen at 1 in E. destruct (rb_Wait w1) as [w2 [[]|e2]] eqn:Ew; pose proof (rb_wait_others _ _ _ Ew) as Ho2.
    + apply IH in E. destruct r; [|by transitivity w1; [|transitivity w2]].
      eapply written_later; [|exact E]. by transitivity w1.
    + injection E as <- <-. by transitivity w1.
Qed.
End Atomic.

(** *** Creation *)

Section Create.
Context {W : Type} `{Laws : RequestBackendLaws W stored others} `{Json : RequestJSONLaws} `{MapOrder string} `{UUIDs}.

(** [if req.GetCreationTime().IsZero()] *)
Definition stamped (now : time) (req : AccessRequestV3) : AccessRequestV3 :=
  if time_IsZero (GetCreationTime req) then SetCreationTime now req else req.

Lemma validate_again r r' : ValidateAccessRequest r = Ok r' -> ValidateAccessRequest r' = Ok r'.
Proof.
  intros Hv. destruct (validate_idempotent _ _ Hv) as [Hi _]. specialize (Hi false (GetRevision r')).
  assert (SetRevision (GetRevision r') r' = r') as Es by by destruct r' as [? ? ? [] ?]. rewrite Es in Hi. exact Hi.
Qed.

Lemma create_spec req w w' r : CreateAccessRequestV2 req w = (w', r) ->
  match r with
  | Ok req' => ValidateAccessRequest (stamped (rb_Now w) req) = Ok req' /\
      ars_DryRun (ar_Spec req') = false /\ ars_LongTermGrouping (ar_Spec req') = false /\
      exists w1 item, others w w1 /\ stored w1 (k_s (accessRequestKey (request_GetName req'))) = None /\
        stored w' (k_s (accessRequestKey (request_GetName req'))) = Some item /\
        itemToAccessRequest item = Ok (SetRevision (i_Revision item) req') /\
        forall k, k <> k_s (accessRequestKey (request_GetName req')) -> stored w' k = stored w1 k
  | Err _ => others w w'
  end.
Proof.
  unfold CreateAccessRequestV2. fold (stamped (rb_Now w) req). intros E. unfold mthen at 1, mget at 1 in E. fold (stamped (rb_Now w) req) in E.
  unfold mthen at 1, mlift at 1 in E. destruct (ValidateAccessRequest _) as [req1|e] eqn:Ev; [|by injection E as <- <-].
  destruct (ars_DryRun (ar_Spec req1)) eqn:Ed; [by injection E as <- <-|].
  destruct (ars_LongTermGrouping (ar_Spec req1)) eqn:Eg; [by injection E as <- <-|].
  unfold mthen at 1, mlift at 1 in E. destruct (itemFromAccessRequest req1) as [[req2 item]|e] eqn:Ei; [|by injection E as <- <-].
  unfold mthen at 1 in E. destruct (rb_Create item w) as [w1 [rev|e]] eqn:Ec; [|injection E as <- <-; by eapply rb_create_err].
  injection E as <- <-. destruct (item_roundtrip _ _ _ "x" Ei ltac:(done)) as (_ & Hval & Hkey & _).
  rewrite (validate_again _ _ Ev) in Hval. injection Hval as <-. split_and!; [done..|].
  apply rb_create_ok in Ec as (w2 & Ho & Hnone & Hall). rewrite Hkey in Hnone, Hall.
  assert (Hnow : stored w1 (k_s (accessRequestKey (request_GetName req1))) = Some (with_rev rev item))
    by (by rewrite Hall, bool_decide_true by done).
  pose proof (rb_revised _ _ _ Hnow) as Hne. simpl in Hne.
  destruct (item_roundtrip _ _ _ rev Ei Hne) as (Hrt & _).
  exists w2, (with_rev rev item). split_and!; [done..|]. intros k Hk. by rewrite Hall, bool_decide_false.
Qed.
End Create.

(** *** The changes *)

Section Changes.
Context {W : Type} `{RequestBackend W}.

(** What an update leaves: a resolved request keeps its state. *)
Lemma update_state_ok params req req' : update_state params req = Ok req' ->
  IsResolved (GetState req) = false /\ GetState req' = upd_State params /\ ar_Metadata req' = ar_Metadata req /\
  GetUser req' = GetUser req /\ GetReviews req' = GetReviews req /\ GetAccessExpiry req' = GetAccessExpiry req /\
  (upd_Roles params = [] -> GetRoles req' = GetRoles req) /\ (upd_Roles params <> [] -> GetRoles req' = upd_Roles params) /\
  (forall role, role ∈ GetRoles req' -> role ∈ GetRoles req) /\
  (IsApproved (upd_State params) = true -> Expiry req' = GetAccessExpiry req).
Proof.
  unfold update_state. intros E. apply fail_if_ok in E as [Hs E]. apply rbind_ok in E as (r1 & E1 & E).
  unfold SetState in E1. apply fail_if_ok in E1 as [Hr [= <-]].
  assert (Hopen : IsResolved (GetState req) = false).
  { destruct (IsResolved _); [|done]. rewrite andb_true_r in Hs, Hr. by rewrite Hs in Hr. }
  set (r2 := SetResolveAnnotations _ _) in E. apply rbind_ok in E as (r3 & E3 & E).
  destruct (find _ _) eqn:Ef in E3; [done|]. injection E3 as <-. apply rbind_ok in E as (r4 & E4 & [= <-]).
  set (r3 := if bool_decide _ then r2 else _) in E4.
  assert (exists t, r4 = on_spec (spec_AssumeStartTime t) r3) as [t ->].
  { destruct (upd_AssumeStartTime params) as [t|].
    - apply rbind_ok in E4 as (? & _ & [= <-]). by exists (Some t).
    - injection E4 as <-. exists (ars_AssumeStartTime (ar_Spec r3)). by destruct r3 as [? ? ? ? []]. }
  assert (Hsub : upd_Roles params <> [] -> forall role, role ∈ upd_Roles params -> role ∈ GetRoles req).
  { intros _ role Hin. apply list_elem_of_In in Hin. pose proof (find_none _ _ Ef role Hin) as Hc. simpl in Hc.
    apply negb_false_iff in Hc. by apply slices_Contains_true in Hc. }
  unfold r3. case_bool_decide as Hro; destruct (IsApproved (upd_State params)) eqn:Ha; split_and!; try done; auto.
Qed.

Lemma update_plain params : plain_change (W:=W) (fun req => mlift (update_state params req)).
Proof. intros req w w' r [= <- <-]. split; [done|]. intros req' E. by apply update_state_ok in E as (_ & _ & ? & _). Qed.

Context `{RegexpCache} `{MatcherCalls} `{ReviewPredicates} `{MapOrder (list string)} `{MapOrder (list Matcher)}.
Context `{MapOrderLaws ThresholdIndexSets}.

Lemma review_request_ok now c name rev req req' : review_request now c name rev req = Ok req' ->
  CanReviewRequest c req = Ok true /\ ApplyAccessReview now rev (rpc_UserState c) req = (req', Ok tt).
Proof.
  unfold review_request. intros (ok & Hok & E)%rbind_ok. apply fail_if_ok in E as [Hn E]. apply negb_false_iff in Hn as ->.
  destruct (ApplyAccessReview _ _ _ _) as [r' res]. apply rbind_ok in E as ([] & -> & [= ->]). done.
Qed.

Lemma review_plain c name rev : plain_change (W:=W) (fun req => let* now := mget rb_Now in mlift (review_request now c name rev req)).
Proof.
  intros req w w' r E. unfold mthen, mget, mlift in E. injection E as <- <-. split; [done|]. intros req' [_ E]%review_request_ok.
  apply apply_ok in E as (tids & res & E). destruct E as (_ & _ & _ & _ & _ & _ & ->). by destruct (review_keeps (kept_review (rb_Now w) tids rev) res req) as (_ & _ & _ & _ & _ & _ & _ & _ & ->).
Qed.
End Changes.

(** ** Pages *)

(** Neither name starts with the other. *)
Definition apart (m n : string) : Prop := HasPrefix m n = false /\ HasPrefix n m = false.

Lemma compare_apart m n a b : apart m n -> str_compare (m +:+ a) (n +:+ b) = str_compare m n.
Proof.
  unfold apart. rewrite <- !not_true_iff_false, !HasPrefix_true. revert n.
  induction m as [|x m IH]; intros n [Hm Hn]; [destruct Hn; by exists n|].
  destruct n as [|y n]; [destruct Hm; by exists (String x m)|]. rewrite !str_app_cons. simpl.
  destruct (Z.compare_spec (code x) (code y)) as [E|E|E]; [|done|done]. apply code_inj in E as ->. apply IH.
  split; intros [r Hr]; [apply Hm|apply Hn]; exists r; rewrite str_app_cons; by f_equal.
Qed.

Definition request_prefix := "/access_requests/".

Lemma accessRequestKey_text name : k_s (accessRequestKey name) = request_prefix +:+ name +:+ "/params".
Proof. done. Qed.

Lemma page_start_text name : k_s (NewKey [accessRequestsPrefix; name]) = request_prefix +:+ name.
Proof. done. Qed.

Lemma page_start_before_item name : at_most (k_s (NewKey [accessRequestsPrefix; name])) (k_s (accessRequestKey name)).
Proof.
  rewrite accessRequestKey_text, page_start_text. unfold at_most. rewrite str_compare_same.
  rewrite <- (str_app_nil_r name) at 1. by rewrite str_compare_same.
Qed.

(** The items before the one a page starts at are before the start of the page. *)
Lemma item_before_page_start m n : apart m n -> before (k_s (accessRequestKey m)) (k_s (accessRequestKey n)) ->
  ~ at_most (k_s (NewKey [accessRequestsPrefix; n])) (k_s (accessRequestKey m)).
Proof.
  intros Ha. rewrite !accessRequestKey_text, page_start_text. unfold before, at_most. rewrite !str_compare_same.
  rewrite compare_apart by done. intros Hb Hc. apply Hc. rewrite <- (str_app_nil_r n) at 1.
  rewrite compare_apart by (destruct Ha; by split). by rewrite str_compare_opp, Hb.
Qed.

Lemma omap_split {A B} (f : A -> option B) (l : list A) : forall pre x post, omap f l = (pre ++ x :: post)%list ->
  exists l1 y l2, l = (l1 ++ y :: l2)%list /\ omap f l1 = pre /\ f y = Some x /\ omap f l2 = post.
Proof.
  induction l as [|y l IH]; intros pre x post E; [by destruct pre|]. simpl in E. destruct (f y) as [z|] eqn:Ey.
  - destruct pre as [|z' pre]; simpl in E; injection E as -> E; [by exists [], y, l|].
    destruct (IH _ _ _ E) as (l1 & y' & l2 & -> & <- & Hy & <-). exists (y :: l1), y', l2. simpl. by rewrite Ey.
  - destruct (IH _ _ _ E) as (l1 & y' & l2 & -> & <- & Hy & <-). exists (y :: l1), y', l2. simpl. by rewrite Ey.
Qed.

Section Page.
Context `{RequestJSON} `{MapOrder string} `{UUIDs}.
Variable filter : AccessRequestV3 -> bool.

(** The request of an item, if the filter lets it through. *)
Definition matching (item : Item) : option AccessRequestV3 :=
  if negb (is_params item) then None
  else match itemToAccessRequest item with
  | Ok req => if filter req then Some req else None
  | Err _ => None
  end.

Definition next_of (l : list AccessRequestV3) : string := match l with [] => "" | req :: _ => request_GetName req end.

Lemma omap_matching_cons item items :
  omap matching (item :: items) = match matching item with Some req => req :: omap matching items | None => omap matching items end.
Proof. done. Qed.

Lemma page_requests_spec limit items : forall res, (length res <= limit)%nat ->
  page_requests filter (Z.of_nat limit) res items =
  ((res ++ take (limit - length res) (omap matching items))%list, next_of (drop (limit - length res) (omap matching items))).
Proof.
  induction items as [|item items IH]; intros res Hl; [simpl; by rewrite take_nil, drop_nil, app_nil_r|].
  rewrite omap_matching_cons. cbn [page_requests]. set (m := matching item). unfold matching in m. unfold m. clear m. destruct (negb (is_params item)); [by apply IH|].
  destruct (itemToAccessRequest item) as [req|e]; [|by apply IH]. destruct (filter req); cbn [negb]; [|by apply IH].
  destruct (Z.leb_spec (Z.of_nat limit) (Z.of_nat (length res))) as [Hle|Hlt].
  - assert (limit - length res = 0)%nat as -> by lia. simpl. by rewrite app_nil_r.
  - rewrite IH by (rewrite length_app; simpl; lia). rewrite length_app. simpl.
    assert (limit - length res = S (limit - (length res + 1)))%nat as -> by lia. simpl. by rewrite <- app_assoc.
Qed.
End Page.

(** What a read of a range gives when nobody writes: the items of the range in
    the order of their keys.  [calm] are the worlds it is good for. *)
Class RequestRange (W : Type) `{RequestBackend W} (stored : W -> string -> option Item) (calm : W -> Prop) : Prop :=
  range_exact params w : calm w -> IsZero (ip_StartKey params) = false -> IsZero (ip_EndKey params) = false ->
    ip_Descending params = false -> ip_Limit params = NoLimit ->
    exists w' l, rb_Items params w = (w', Ok l) /\ calm w' /\ (forall k, stored w' k = stored w k) /\
      StronglySorted (fun i j => before (k_s (i_Key i)) (k_s (i_Key j))) l /\
      forall i, i ∈ l <-> stored w (k_s (i_Key i)) = Some i /\
        at_most (k_s (ip_StartKey params)) (k_s (i_Key i)) /\ at_most (k_s (i_Key i)) (k_s (ip_EndKey params)).

Section Pages.
Context {W : Type} `{Range : RequestRange W stored calm} `{RequestJSON} `{MapOrder string} `{UUIDs}.
Variable filter : AccessRequestV3 -> bool.
Variable limit : Z.

(** A client that asks for page after page. *)
Fixpoint all_pages (fuel : nat) (start : string) : M W (list AccessRequestV3) :=
  match fuel with
  | O => mret []
  | S fuel' =>
      let* (page, next) := collectPage limit start filter in
      if bool_decide (next = "") then mret page
      else let* rest := all_pages fuel' next in mret (page ++ rest)%list
  end.

(** Every request is kept under its name, and no name starts with another. *)
Record well_kept (w : W) : Prop := {
  wk_placed item req : stored w (k_s (i_Key item)) = Some item -> is_params item = true ->
    itemToAccessRequest item = Ok req -> k_s (i_Key item) = k_s (accessRequestKey (request_GetName req)) /\ request_GetName req <> "";
  wk_apart i j r s : stored w (k_s (i_Key i)) = Some i -> stored w (k_s (i_Key j)) = Some j ->
    is_params i = true -> is_params j = true -> itemToAccessRequest i = Ok r -> itemToAccessRequest j = Ok s ->
    request_GetName r <> request_GetName s -> apart (request_GetName r) (request_GetName s);
}.

Lemma well_kept_same w w' : (forall k, stored w' k = stored w k) -> well_kept w -> well_kept w'.
Proof.
  intros Hs [Hp Ha]. split.
  - intros item req Hi. rewrite Hs in Hi. by apply Hp.
  - intros i j r s Hi Hj. rewrite Hs in Hi, Hj. by apply Ha.
Qed.

(** Where a page starts: at the first request, or at the name of one. *)
Definition page_start (start : string) : Key :=
  if bool_decide (start = "") then requests_start else NewKey [accessRequestsPrefix; start].

(** The items from the start of a page on. *)
Definition from_start (start : string) (l : list Item) : list Item :=
  base.filter (fun i => at_most (k_s (page_start start)) (k_s (i_Key i))) l.

(** The items of the range. *)
Definition kept_items (w : W) (l : list Item) : Prop :=
  StronglySorted (fun i j => before (k_s (i_Key i)) (k_s (i_Key j))) l /\
  forall i, i ∈ l <-> stored w (k_s (i_Key i)) = Some i /\
    at_most (k_s requests_start) (k_s (i_Key i)) /\ at_most (k_s (i_Key i)) (k_s (RangeEnd requests_start)).

Lemma sorted_same (l l' : list Item) :
  StronglySorted (fun i j => before (k_s (i_Key i)) (k_s (i_Key j))) l ->
  StronglySorted (fun i j => before (k_s (i_Key i)) (k_s (i_Key j))) l' ->
  (forall i, i ∈ l <-> i ∈ l') -> l = l'.
Proof.
  intros Hl. revert l'. induction Hl as [|i l Hl IH Hi]; intros l' Hl' He.
  { destruct l' as [|j l']; [done|]. exfalso. apply (not_elem_of_nil j), He. by left. }
  destruct Hl' as [|j l' Hl' Hj]; [exfalso; apply (not_elem_of_nil i), He; by left|].
  rewrite Forall_forall in Hi, Hj.
  assert (i = j) as ->.
  { assert (Hij : i ∈ j :: l') by (apply He; by left). assert (Hji : j ∈ i :: l) by (apply He; by left).
    apply elem_of_cons in Hij as [?|Hij]; [done|]. apply elem_of_cons in Hji as [?|Hji]; [done|].
    destruct (before_irrefl (k_s (i_Key i))). etrans; [by apply Hi|by apply Hj]. }
  f_equal. apply IH; [done|]. intros k. specialize (He k). rewrite !elem_of_cons in He. split; intros Hk.
  - destruct (proj1 He) as [->|?]; [by right| |done]. by destruct (before_irrefl (k_s (i_Key j)) (Hi _ Hk)).
  - destruct (proj2 He) as [->|?]; [by right| |done]. by destruct (before_irrefl (k_s (i_Key j)) (Hj _ Hk)).
Qed.
Lemma page_start_at_most start : at_most (k_s requests_start) (k_s (page_start start)).
Proof.
  unfold page_start. case_bool_decide; [done|]. rewrite page_start_text.
  change (k_s requests_start) with request_prefix. unfold at_most. rewrite <- (str_app_nil_r request_prefix) at 1.
  rewrite str_compare_same. by destruct start.
Qed.

Lemma filter_id {A} (P : A -> Prop) `{!forall x, Decision (P x)} (l : list A) : Forall P l -> base.filter P l = l.
Proof. induction 1 as [|x l Hx _ IH]; [done|]. rewrite filter_cons_True by done. by rewrite IH. Qed.

Lemma omap_filter_nil {A B} (f : A -> option B) (P : A -> Prop) `{!forall x, Decision (P x)} (l : list A) :
  (forall x, x ∈ l -> P x -> f x = None) -> omap f (base.filter P l) = [].
Proof.
  induction l as [|x l IH]; intros Hn; [done|]. rewrite filter_cons. case_decide as Hx.
  - change (omap f (x :: base.filter P l)) with
      (match f x with Some y => y :: omap f (base.filter P l) | None => omap f (base.filter P l) end).
    rewrite (Hn x) by first [by left | done]. apply IH. intros y Hy. apply Hn. by right.
  - apply IH. intros y Hy. apply Hn. by right.
Qed.

Lemma from_start_first w l : kept_items w l -> from_start "" l = l.
Proof. intros [_ Hl]. apply filter_id, Forall_forall. intros i Hi. apply Hl in Hi. tauto. Qed.

Lemma matching_ok i r : matching filter i = Some r -> is_params i = true /\ itemToAccessRequest i = Ok r /\ filter r = true.
Proof.
  unfold matching. destruct (is_params i); [|done]. destruct (itemToAccessRequest i) as [r'|]; [|done]. simpl.
  destruct (filter r') eqn:Hf; [|done]. by intros [= <-].
Qed.

(** A page starts at the first request the one before left out. *)
Lemma from_start_next w l pre x post : well_kept w -> kept_items w l ->
  omap (matching filter) l = (pre ++ x :: post)%list ->
  omap (matching filter) (from_start (request_GetName x) l) = x :: post /\ request_GetName x <> "".
Proof.
  intros Hw [Hs Hl] E. apply omap_split in E as (l1 & y & l2 & -> & _ & Hy & Hpost).
  apply matching_ok in Hy as (Hpy & Hdy & Hfy).
  destruct (proj1 (Hl y) ltac:(rewrite elem_of_app; right; left)) as (Hsy & _).
  destruct (wk_placed _ Hw _ _ Hsy Hpy Hdy) as [Hky Hnx]. split; [|done].
  assert (Hstart : page_start (request_GetName x) = NewKey [accessRequestsPrefix; request_GetName x])
    by (unfold page_start; by rewrite bool_decide_false).
  unfold from_start. rewrite Hstart, filter_app, omap_app. rewrite omap_filter_nil; [|].
  - assert (Hyl : at_most (k_s (NewKey [accessRequestsPrefix; request_GetName x])) (k_s (i_Key y)))
      by (rewrite Hky; apply page_start_before_item).
    rewrite filter_id; [rewrite app_nil_l, omap_matching_cons, Hpost; unfold matching; by rewrite Hpy, Hdy, Hfy|].
    constructor; [done|]. apply StronglySorted_app_1_r, StronglySorted_cons in Hs as [Hs _].
    eapply Forall_impl; [exact Hs|]. intros i Hi. etrans; [exact Hyl|]. apply at_most_cases. by right.
  - intros i Hi Hat. destruct (matching filter i) as [r|] eqn:Hm; [|done]. exfalso. apply matching_ok in Hm as (Hpi & Hdi & _).
    destruct (proj1 (Hl i) ltac:(rewrite elem_of_app; by left)) as (Hsi & _).
    destruct (wk_placed _ Hw _ _ Hsi Hpi Hdi) as [Hki _].
    pose proof (StronglySorted_app_1_elem_of _ _ _ i y Hs Hi ltac:(left)) as Hb. simpl in Hb. rewrite Hki, Hky in Hb.
    destruct (decide (request_GetName r = request_GetName x)) as [He|Hne].
    + rewrite He in Hb. by apply before_irrefl in Hb.
    + apply (item_before_page_start _ _ (wk_apart _ Hw _ _ _ _ Hsi Hsy Hpi Hpy Hdi Hdy Hne) Hb). by rewrite <- Hki.
Qed.

(** A page read in a calm world. *)
Lemma collectPage_calm w l start : calm w -> kept_items w l -> (1 <= limit <= 16000)%Z ->
  exists w', collectPage limit start filter w = (w', Ok (page_requests filter limit [] (from_start start l))) /\
    calm w' /\ forall k, stored w' k = stored w k.
Proof.
  intros Hc [Hs Hl] Hlim. unfold collectPage.
  assert ((limit <? 1) = false) as -> by (apply Z.ltb_ge; lia). assert ((16000 <? limit) = false) as -> by (apply Z.ltb_ge; lia).
  set (params := {| ip_StartKey := _; ip_EndKey := _; ip_Descending := _; ip_Limit := _ |}).
  assert (Hz : IsZero (page_start start) = false) by (unfold page_start; case_bool_decide; [done|by apply NewKey_not_zero]).
  destruct (range_exact params w Hc Hz eq_refl eq_refl eq_refl) as (w' & l' & E & Hc' & Hst & Hs' & Hl').
  exists w'. split_and!; [|done..]. unfold mthen. rewrite E. unfold mret. do 3 f_equal. apply sorted_same; [done|by apply StronglySorted_filter|].
  intros i. unfold from_start. rewrite list_elem_of_filter, Hl', Hl.
  change (ip_StartKey params) with (page_start start). change (ip_EndKey params) with (RangeEnd requests_start).
  pose proof (page_start_at_most start). split; [|tauto]. intros (Hi & Ha & Hb). split_and!; [done..| |done].
  by etrans.
Qed.

Lemma all_pages_from n : forall w l start pre, calm w -> well_kept w -> kept_items w l -> (1 <= limit <= 16000)%Z ->
  omap (matching filter) l = (pre ++ omap (matching filter) (from_start start l))%list ->
  (length (omap (matching filter) (from_start start l)) < n)%nat ->
  exists w', all_pages n start w = (w', Ok (omap (matching filter) (from_start start l))) /\ calm w' /\
    forall k, stored w' k = stored w k.
Proof.
  induction n as [|n IH]; intros w l start pre Hc Hw Hk Hlim Hpre Hlen; [lia|]. cbn [all_pages]. unfold mthen at 1.
  destruct (collectPage_calm w l start Hc Hk Hlim) as (w1 & -> & Hc1 & Hst1).
  pose proof (page_requests_spec filter (Z.to_nat limit) (from_start start l) [] ltac:(simpl; lia)) as Hp.
  rewrite Z2Nat.id in Hp by lia. rewrite Hp. clear Hp.
  set (s := omap (matching filter) (from_start start l)) in *. set (k := (Z.to_nat limit - length _)%nat).
  assert (Hkl : (1 <= k)%nat) by (unfold k; simpl; lia). rewrite app_nil_l.
  assert (Hsplit : s = (take k s ++ drop k s)%list) by (by rewrite take_drop). destruct (drop k s) as [|x post] eqn:Ed.
  - simpl. rewrite app_nil_r in Hsplit. rewrite <- Hsplit. by exists w1.
  - assert (Hpre' : omap (matching filter) l = ((pre ++ take k s) ++ x :: post)%list) by (by rewrite <- app_assoc, <- Hsplit).
    destruct (from_start_next w l _ _ _ Hw Hk Hpre') as [Hnext Hx]. unfold next_of. rewrite bool_decide_false by done.
    destruct (IH w1 l (request_GetName x) (pre ++ take k s)%list) as (w2 & E2 & Hc2 & Hst2).
    + done.
    + by apply (well_kept_same w).
    + destruct Hk as [Hk1 Hk2]. split; [done|]. intros i. by rewrite Hk2, Hst1.
    + done.
    + by rewrite Hnext.
    + rewrite Hnext. apply (f_equal length) in Ed. rewrite length_drop in Ed. cbn [length] in Ed |- *. lia.
    + exists w2. rewrite Hnext in E2. unfold mthen. rewrite E2. unfold mret. rewrite <- Hsplit. split_and!; [done..|]. intros k'. by rewrite Hst2.
Qed.

(** Page after page, every request the filter lets through comes once, in the order of the names. *)
Lemma all_pages_complete w l : calm w -> well_kept w -> kept_items w l -> (1 <= limit <= 16000)%Z ->
  exists w', all_pages (S (length (omap (matching filter) l))) "" w = (w', Ok (omap (matching filter) l)) /\ calm w' /\
    forall k, stored w' k = stored w k.
Proof.
  intros Hc Hw Hk Hlim. pose proof (from_start_first w l Hk) as Hf.
  destruct (all_pages_from (S (length (omap (matching filter) l))) w l "" [] Hc Hw Hk Hlim) as (w' & E & ?); rewrite ?Hf; [done|lia|].
  exists w'. by rewrite Hf in E.
Qed.

Lemma kept_items_exist w : calm w -> exists l w', calm w' /\ (forall k, stored w' k = stored w k) /\ kept_items w l.
Proof.
  intros Hc. destruct (range_exact {| ip_StartKey := requests_start; ip_EndKey := RangeEnd requests_start;
    ip_Descending := false; ip_Limit := NoLimit |} w Hc) as (w' & l & _ & Hc' & Hst & Hs & Hl); [done..|].
  by exists l, w'.
Qed.

Lemma in_requests name : at_most (k_s requests_start) (k_s (accessRequestKey name)) /\
  at_most (k_s (accessRequestKey name)) (k_s (RangeEnd requests_start)).
Proof.
  rewrite accessRequestKey_text. change (k_s requests_start) with request_prefix. split.
  - unfold at_most. rewrite <- (str_app_nil_r request_prefix) at 1. rewrite str_compare_same. by destruct name.
  - apply at_most_cases. right. apply (RangeEnd_prefix requests_start); [done|done|]. apply HasPrefix_true. by eexists.
Qed.

Lemma matching_item w l i r : well_kept w -> kept_items w l -> i ∈ l -> matching filter i = Some r ->
  stored w (k_s (i_Key i)) = Some i /\ k_s (i_Key i) = k_s (accessRequestKey (request_GetName r)).
Proof.
  intros Hw [_ Hl] Hi (Hp & Hd & _)%matching_ok. apply Hl in Hi as (Hs & _). split; [done|]. by apply (wk_placed _ Hw).
Qed.

Lemma matching_sorted w l : well_kept w -> kept_items w l ->
  StronglySorted (fun r s => before (k_s (accessRequestKey (request_GetName r))) (k_s (accessRequestKey (request_GetName s))))
    (omap (matching filter) l).
Proof.
  intros Hw Hk. assert (Hin : forall i r, i ∈ l -> matching filter i = Some r -> k_s (i_Key i) = k_s (accessRequestKey (request_GetName r)))
    by (intros i r Hi Hm; by eapply matching_item).
  destruct Hk as [Hs _]. induction Hs as [|i l Hs IH Hi]; [constructor|]. rewrite omap_matching_cons.
  assert (IH' := IH (fun j r Hj => Hin j r (list_elem_of_further _ _ _ Hj))). destruct (matching filter i) as [r|] eqn:Hm; [|done].
  constructor; [done|]. apply Forall_forall. intros s (j & Hj & Hmj)%list_elem_of_omap. rewrite Forall_forall in Hi. specialize (Hi j Hj).
  rewrite <- (Hin i r) by first [by left | done]. rewrite <- (Hin j s) by first [by right | done]. done.
Qed.

Lemma matching_elem w l req : well_kept w -> kept_items w l -> req ∈ omap (matching filter) l <->
  filter req = true /\ exists item, is_params item = true /\ k_s (i_Key item) = k_s (accessRequestKey (request_GetName req)) /\
    stored w (k_s (accessRequestKey (request_GetName req))) = Some item /\ itemToAccessRequest item = Ok req.
Proof.
  intros Hw Hk. rewrite list_elem_of_omap. split.
  - intros (i & Hi & Hm). destruct (matching_item _ _ _ _ Hw Hk Hi Hm) as [Hs Hkey]. apply matching_ok in Hm as (Hp & Hd & Hf).
    split; [done|]. exists i. rewrite <- Hkey. done.
  - intros (Hf & i & Hp & Hkey & Hs & Hd). exists i. split.
    + apply Hk. rewrite Hkey. split; [done|]. apply in_requests.
    + unfold matching. by rewrite Hp, Hd, Hf.
Qed.
End Pages.
