(* ===== verification/RequestValidator.v ===== *)
(** * The validation of access requests: [lib/services/access_request.go]

    The validator of a user collects what the user's roles say about
    requesting other roles: who may be requested, with what thresholds, for
    how long, with what annotations and reasons.  A new request is checked
    against it and expanded: a wildcard becomes the roles that may be
    requested, a request for resources gets the roles to search as, and the
    request takes the thresholds its approval will need.

    A validator is a value that its methods update.  The parser of trait
    templates, the kinds of the Kubernetes libraries, and the resources a client
    fetches are parameters; a request that fails to validate is dropped by its
    callers, so only a validated one is returned. *)

From S2P Require Import Prelude GoStrings Utf8 Types Regexp Traits Service Roles RoleLimits RoleAccess CheckAccess.
From S2P Require Import RoleRules Checker Autoupdate AccessRequest AccessReview.
From Stdlib Require Import Ascii.

Definition LimitExceeded (fmt : string) (args : list string) : error := Error KOther fmt args [].

(** ** Limits *)

Definition maxResourcesLength : Z := 2048.
Definition day : duration := 24 * Hour.
Definition MaxAccessDuration : duration := 14 * day.
Definition requestTTL : duration := 7 * day.
(** [apidefaults.MaxCertDuration] *)
Definition MaxCertDuration : duration := 30 * Hour.
Definition quoted (s : string) : string := String (chr 34) (s +:+ String (chr 34) "").
Definition InvalidKubernetesKindAccessRequest :=
  "your Teleport role's " +:+ quoted "request.kubernetes_resources" +:+ " field".
Definition CannotRequestRole := "can not request role".

(** ** Kinds of Kubernetes resources *)

Definition KubernetesResourcesV7KindGroups : list (string * string) := [
  ("pod", ""); ("secret", ""); ("configmap", ""); ("namespace", ""); ("service", ""); ("serviceaccount", "");
  ("kube_node", ""); ("persistentvolume", ""); ("persistentvolumeclaim", ""); ("deployment", "apps");
  ("replicaset", "apps"); ("statefulset", "apps"); ("daemonset", "apps"); ("clusterrole", "rbac.authorization.k8s.io");
  ("kube_role", "rbac.authorization.k8s.io"); ("clusterrolebinding", "rbac.authorization.k8s.io");
  ("rolebinding", "rbac.authorization.k8s.io"); ("cronjob", "batch"); ("job", "batch");
  ("certificatesigningrequest", "certificates.k8s.io"); ("ingress", "networking.k8s.io")].

Definition KubernetesResourcesKindsPlurals : list (string * string) := [
  ("pod", "pods"); ("secret", "secrets"); ("configmap", "configmaps"); ("service", "services");
  ("serviceaccount", "serviceaccounts"); ("kube_node", "nodes"); ("persistentvolume", "persistentvolumes");
  ("persistentvolumeclaim", "persistentvolumeclaims"); ("deployment", "deployments"); ("replicaset", "replicasets");
  ("replicationcontroller", "replicationcontrollers"); ("statefulset", "statefulsets"); ("daemonset", "daemonsets");
  ("clusterrole", "clusterroles"); ("kube_role", "roles"); ("clusterrolebinding", "clusterrolebindings");
  ("rolebinding", "rolebindings"); ("cronjob", "cronjobs"); ("job", "jobs");
  ("certificatesigningrequest", "certificatesigningrequests"); ("ingress", "ingresses")].

Definition KindKubeNamespace := "namespace".
Definition AccessRequestPrefixKindKubeClusterWide := "kube:cw:".
Definition AccessRequestPrefixKindKubeNamespaced := "kube:ns:".

(** The entry of a fixed map, if there is one. *)
Definition entry (l : list (string * string)) (key : string) : option string :=
  snd <$> find (fun e => bool_decide (e.1 = key)) l.

(** [gk]: the group and the kind *)
Record gk := {
  gk_group : string;
  gk_kind : string;
}.

#[export] Instance gk_eq_dec : EqDecision gk.
Proof. solve_decision. Defined.

(** The kind of a requested resource without its prefix. *)
Definition trim_kind (in_ : string) : string :=
  if HasPrefix in_ AccessRequestPrefixKindKubeNamespaced then TrimPrefix in_ AccessRequestPrefixKindKubeNamespaced
  else if HasPrefix in_ AccessRequestPrefixKindKubeClusterWide then TrimPrefix in_ AccessRequestPrefixKindKubeClusterWide
  else if HasPrefix in_ AccessRequestPrefixKindKube then TrimPrefix in_ AccessRequestPrefixKindKube
  else "".

Definition normalizeKubernetesKind (in_ : string) : gk :=
  let group := default "" (entry KubernetesResourcesV7KindGroups in_) in
  let plural := default "" (entry KubernetesResourcesKindsPlurals in_) in
  if bool_decide (plural = "") && bool_decide (in_ = KindKubeNamespace) then {| gk_group := group; gk_kind := "namespaces" |}
  else
    let kind := if bool_decide (plural = "") then trim_kind in_ else plural in
    if negb (bool_decide (group = "")) then {| gk_group := group; gk_kind := kind |}
    else match Cut kind "."%char with
         | Some (kind, group) => {| gk_group := group; gk_kind := kind |}
         | None => {| gk_group := group; gk_kind := kind |}
         end.

(** [convertRequestKubernetesResourcesBetweenRoleVersions], and the accessor
    of a role *)
Definition upgrade_kind (r : RequestKubernetesResource) : RequestKubernetesResource :=
  match entry KubernetesResourcesKindsPlurals (rkr_Kind r) with
  | Some k => {| rkr_Kind := k; rkr_APIGroup := default "" (entry KubernetesResourcesV7KindGroups (rkr_Kind r)) |}
  | None =>
      if bool_decide (rkr_Kind r = KindKubeNamespace) then {| rkr_Kind := "namespaces"; rkr_APIGroup := rkr_APIGroup r |}
      else {| rkr_Kind := rkr_Kind r; rkr_APIGroup := Wildcard |}
  end.

Definition convertRequestKubernetesResourcesBetweenRoleVersions (role : RoleV6) (resources : list RequestKubernetesResource)
  : list RequestKubernetesResource :=
  if slices_Contains [V8; V9] (role_Version role) then resources else upgrade_kind <$> resources.

Definition GetRequestKubernetesResources (rct : RoleConditionType) (role : RoleV6) : list RequestKubernetesResource :=
  match rc_Request (GetRoleConditions rct role) with
  | None => []
  | Some request => convertRequestKubernetesResourcesBetweenRoleVersions role (arc_KubernetesResources request)
  end.

Section Kinds.
Context `{RegexpCache}.

Definition matchRequestKubernetesResources (input : gk) (reference : RequestKubernetesResource) (cond : RoleConditionType) : bool :=
  let matches input expr := match MatchString input expr with Ok ok => ok | Err _ => false end in
  if bool_decide (gk_kind input = rkr_Kind reference) && bool_decide (gk_group input = rkr_APIGroup reference) then true
  else if bool_decide (rkr_Kind reference = Wildcard) && bool_decide (gk_kind input = KindKubernetesCluster) then
    bool_decide (cond = Deny)
  else if bool_decide (cond = Allow) then
    if negb (bool_decide (rkr_Kind reference = Wildcard)) && negb (bool_decide (gk_kind input = rkr_Kind reference)) then false
    else if bool_decide (rkr_APIGroup reference = Wildcard) || bool_decide (gk_group input = rkr_APIGroup reference) then true
    else matches (gk_group input) (rkr_APIGroup reference)
  else if negb (bool_decide (rkr_Kind reference = Wildcard)) && negb (bool_decide (gk_kind input = Wildcard)) &&
          negb (bool_decide (gk_kind input = rkr_Kind reference)) then false
  else matches (gk_group input) (rkr_APIGroup reference) || matches (rkr_APIGroup reference) (gk_group input).
End Kinds.

(** ** The validator *)

Section Data.
Context `{RegexpEngine}.

(** The matchers an annotation needs one of, for a request for roles and for a
    request for resources *)
Record annotationMatcher := {
  roleRequestMatchers : list Matcher;
  resourceRequestMatchers : list Matcher;
}.

Record RequestValidator := {
  expandVars : bool;
  userState : UserState;
  autoRequestOnLogin : bool;
  requireReasonForAllRoles : bool;
  requiringReasonRoles : gset string;
  customPromptRoles : gmap string string;
  reasonPrompts : list string;
  kubernetes_allow : gmap string (list RequestKubernetesResource);
  kubernetes_deny : list RequestKubernetesResource;
  allowRequest : list Matcher;
  denyRequest : list Matcher;
  allowSearch : list string;
  denySearch : list string;
  annotations_allow : gmap (string * string) annotationMatcher;
  annotations_deny : gset (string * string);
  thresholdMatchers : list (list Matcher * list AccessReviewThreshold);
  suggestedReviewers : list string;
  maxDurationMatchers : list (list Matcher * duration);
}.

Definition set_reasonPrompts (prompts : list string) (m : RequestValidator) : RequestValidator :=
  {| expandVars := expandVars m; userState := userState m; autoRequestOnLogin := autoRequestOnLogin m;
     requireReasonForAllRoles := requireReasonForAllRoles m; requiringReasonRoles := requiringReasonRoles m;
     customPromptRoles := customPromptRoles m; reasonPrompts := prompts; kubernetes_allow := kubernetes_allow m;
     kubernetes_deny := kubernetes_deny m; allowRequest := allowRequest m; denyRequest := denyRequest m;
     allowSearch := allowSearch m; denySearch := denySearch m; annotations_allow := annotations_allow m;
     annotations_deny := annotations_deny m; thresholdMatchers := thresholdMatchers m;
     suggestedReviewers := suggestedReviewers m; maxDurationMatchers := maxDurationMatchers m |}.

Definition set_kubernetes_allow (allow : gmap string (list RequestKubernetesResource)) (m : RequestValidator)
  : RequestValidator :=
  {| expandVars := expandVars m; userState := userState m; autoRequestOnLogin := autoRequestOnLogin m;
     requireReasonForAllRoles := requireReasonForAllRoles m; requiringReasonRoles := requiringReasonRoles m;
     customPromptRoles := customPromptRoles m; reasonPrompts := reasonPrompts m; kubernetes_allow := allow;
     kubernetes_deny := kubernetes_deny m; allowRequest := allowRequest m; denyRequest := denyRequest m;
     allowSearch := allowSearch m; denySearch := denySearch m; annotations_allow := annotations_allow m;
     annotations_deny := annotations_deny m; thresholdMatchers := thresholdMatchers m;
     suggestedReviewers := suggestedReviewers m; maxDurationMatchers := maxDurationMatchers m |}.

(** The order [range] walks the map of annotations in. *)
Class AnnotationOrder := annotation_range : gmap (string * string) annotationMatcher -> list (string * string * annotationMatcher).
Class AnnotationOrderLaws `{AnnotationOrder} : Prop :=
  annotation_range_permutation m : annotation_range m ≡ₚ map_to_list m.
End Data.

(** *** Annotations *)

(** [parse.NewTraitsTemplateExpression] and [InterpolateWithUser] *)
Class TraitsTemplates :=
  NewTraitsTemplateExpression : string -> result ((string -> string -> result unit) -> string -> traits -> result (list string)).

(** The variables of the namespace [internal] *)
Definition internal_traits : list string := [
  "logins"; "windows_logins"; "linux_desktop_logins"; "kubernetes_groups"; "kubernetes_users"; "db_names"; "db_users";
  "db_roles"; "aws_role_arns"; "azure_identities"; "gcp_service_accounts"; "jwt"; "github_orgs"; "mcp_tools";
  "default_relay_addr"; "id_token"].

Definition varValidation (namespace name : string) : result unit :=
  fail_if bool_decide (namespace = "internal") && negb (slices_Contains internal_traits name)
    with BadParameter "unsupported variable %q" [name];
  Ok tt.

Section Annotations.
Context `{RegexpEngine} `{TraitsTemplates} `{MapOrder (list string)}.

Definition ApplyValueTraitsWithContext (val : string) (username : string) (ts : traits) : result (list string) :=
  let? expr := NewTraitsTemplateExpression val in
  let? interpolated := expr varValidation username ts in
  fail_if bool_decide (interpolated = []) with NotFound "variable interpolation result is empty" [];
  Ok interpolated.

(** What the templates of a condition expand to, in the order of the two loops;
    a template that does not expand is skipped. *)
Definition expanded_annotations (u : UserState) (annotations : traits) : list (string * string) :=
  mjoin ((fun e : string * list string => mjoin ((fun template =>
    match ApplyValueTraitsWithContext template (us_Name u) (us_Traits u) with
    | Ok expandedValues => pair e.1 <$> expandedValues
    | Err _ => []
    end) <$> e.2)) <$> range annotations).

Definition insertAllowedAnnotations (u : UserState) (conditions : AccessRequestConditions)
    (roleMatchers resourceMatchers : list Matcher) (allow : gmap (string * string) annotationMatcher)
  : gmap (string * string) annotationMatcher :=
  foldl (fun allow annotation =>
    let matchers := default {| roleRequestMatchers := []; resourceRequestMatchers := [] |} (allow !! annotation) in
    <[annotation := {| roleRequestMatchers := (roleRequestMatchers matchers ++ roleMatchers)%list;
                       resourceRequestMatchers := (resourceRequestMatchers matchers ++ resourceMatchers)%list |}]> allow)
    allow (expanded_annotations u (arc_Annotations conditions)).

Definition insertDeniedAnnotations (u : UserState) (conditions : AccessRequestConditions) (deny : gset (string * string))
  : gset (string * string) :=
  foldl (fun deny annotation => {[annotation]} ∪ deny) deny (expanded_annotations u (arc_Annotations conditions)).
End Annotations.

(** *** The roles of the user *)

(** [setAllowRequestKubeResourceLookup] *)
Definition setAllowRequestKubeResourceLookup (allowKubernetesResources : list RequestKubernetesResource)
    (searchAsRoles : list string) (lookup_ : gmap string (list RequestKubernetesResource))
  : gmap string (list RequestKubernetesResource) :=
  if bool_decide (allowKubernetesResources = []) then foldl (fun lookup_ role => <[role := []]> lookup_) lookup_ searchAsRoles
  else foldl (fun lookup_ role =>
         if bool_decide (lookup_ !! role = Some []) then lookup_
         else <[role := (default [] (lookup_ !! role) ++ allowKubernetesResources)%list]> lookup_) lookup_ searchAsRoles.

(** A prompt that is not empty and not there yet is added. *)
Definition add_prompt (prompt : string) (prompts : list string) : list string :=
  if bool_decide (0 < len prompt) && negb (slices_Contains prompts prompt) then (prompts ++ [prompt])%list else prompts.

Section Push.
Context `{UnicodeTables} `{RegexpCache} `{MatcherCalls} `{TraitsTemplates} `{MapOrder (list string)}.

(** The roles that ask for a reason, and with which prompt. *)
Definition push_requiring (allow : AccessRequestConditions) (required : gset string) : gset string :=
  match arc_Reason allow with
  | Some reason =>
      if mode_Required (rr_Mode reason) then list_to_set (arc_Roles allow ++ arc_SearchAsRoles allow)%list ∪ required
      else required
  | None => required
  end.

Definition push_prompts (allow : AccessRequestConditions) (prompts : gmap string string) : gmap string string :=
  match arc_Reason allow with
  | Some reason =>
      let customPrompt := TrimSpace (rr_Prompt reason) in
      if bool_decide (0 < len customPrompt)
      then foldl (fun prompts role => <[role := customPrompt]> prompts) prompts (arc_Roles allow ++ arc_SearchAsRoles allow)%list
      else prompts
  | None => prompts
  end.

Definition push (role : RoleV6) (m : RequestValidator) : result RequestValidator :=
  let opts := GetOptions role in
  let allow := GetAccessRequestConditions Allow role in
  let deny := GetAccessRequestConditions Deny role in
  let ts := us_Traits (userState m) in
  let? denied := AppendRoleMatchers (denyRequest m) (arc_Roles deny) (arc_ClaimsToRoles deny) ts in
  let astart := length (allowRequest m) in
  let? allowed := AppendRoleMatchers (allowRequest m) (arc_Roles allow) (arc_ClaimsToRoles allow) ts in
  let newAllowRequestMatchers := drop astart allowed in
  let newAllowSearchMatchers := literalMatchers (arc_SearchAsRoles allow) in
  let allNewAllowMatchers := (newAllowRequestMatchers ++ newAllowSearchMatchers)%list in
  let expand := expandVars m in
  Ok {| expandVars := expand;
        userState := userState m;
        requireReasonForAllRoles := requireReasonForAllRoles m || RequireReason (ro_RequestAccess opts);
        autoRequestOnLogin := autoRequestOnLogin m || ShouldAutoRequest (ro_RequestAccess opts);
        reasonPrompts := add_prompt (TrimSpace (ro_RequestPrompt opts)) (reasonPrompts m);
        requiringReasonRoles := push_requiring allow (requiringReasonRoles m);
        customPromptRoles := push_prompts allow (customPromptRoles m);
        kubernetes_allow :=
          setAllowRequestKubeResourceLookup (GetRequestKubernetesResources Allow role) (arc_SearchAsRoles allow) (kubernetes_allow m);
        kubernetes_deny := (kubernetes_deny m ++ GetRequestKubernetesResources Deny role)%list;
        denyRequest := denied;
        allowRequest := allowed;
        allowSearch := Deduplicate (allowSearch m ++ arc_SearchAsRoles allow)%list;
        denySearch := Deduplicate (denySearch m ++ arc_SearchAsRoles deny)%list;
        thresholdMatchers :=
          if expand && bool_decide (0 < length allNewAllowMatchers)%nat
          then (thresholdMatchers m ++ [(allNewAllowMatchers, arc_Thresholds allow)])%list else thresholdMatchers m;
        maxDurationMatchers :=
          if expand && negb (arc_MaxDuration allow =? 0)
          then (maxDurationMatchers m ++ [(allNewAllowMatchers, arc_MaxDuration allow)])%list else maxDurationMatchers m;
        annotations_allow :=
          if expand then insertAllowedAnnotations (userState m) allow newAllowRequestMatchers newAllowSearchMatchers (annotations_allow m)
          else annotations_allow m;
        annotations_deny :=
          if expand then insertDeniedAnnotations (userState m) deny (annotations_deny m) else annotations_deny m;
        suggestedReviewers :=
          if expand then (suggestedReviewers m ++ arc_SuggestedReviewers allow)%list else suggestedReviewers m |}.

Fixpoint push_roles (getRole : string -> result RoleV6) (roles : list string) (m : RequestValidator) : result RequestValidator :=
  match roles with
  | [] => Ok m
  | roleName :: roles' =>
      let? role := getRole roleName in
      let? m := push role m in
      push_roles getRole roles' m
  end.

Definition no_roles_yet (user : UserState) (expand : bool) : RequestValidator :=
  {| expandVars := expand; userState := user; autoRequestOnLogin := false; requireReasonForAllRoles := false;
     requiringReasonRoles := ∅; customPromptRoles := ∅; reasonPrompts := []; kubernetes_allow := ∅; kubernetes_deny := [];
     allowRequest := []; denyRequest := []; allowSearch := []; denySearch := []; annotations_allow := ∅; annotations_deny := ∅;
     thresholdMatchers := []; suggestedReviewers := []; maxDurationMatchers := [] |}.

(** [NewRequestValidatorForUser], with the option [WithExpandVars] *)
Definition NewRequestValidatorForUser (getRole : string -> result RoleV6) (user : UserState) (expand : bool)
  : result RequestValidator :=
  let? m := push_roles getRole (us_Roles user) (no_roles_yet user expand) in
  Ok (set_reasonPrompts (merge_sort at_most (reasonPrompts m)) m).
End Push.

(** ** What the validator lets through *)

Section Roles.
Context `{RegexpEngine}.

Definition CanRequestRole (m : RequestValidator) (name : string) : bool :=
  if any_match (denyRequest m) name then false else any_match (allowRequest m) name.

Definition canSearchAsRole (m : RequestValidator) (name : string) : bool :=
  if slices_Contains (denySearch m) name then false
  else if any_match (denyRequest m) name then false
  else slices_Contains (allowSearch m) name.

Definition allowedSearchAsRoles (m : RequestValidator) : result (list string) :=
  let rolesToRequest := List.filter (canSearchAsRole m) (allowSearch m) in
  fail_if bool_decide (rolesToRequest = [])
    with AccessDenied "Resource Access Requests require usable search_as_roles, none found for user %q" [us_Name (userState m)];
  Ok rolesToRequest.

(** [getResourceViewingRoles] *)
Definition getResourceViewingRoles (m : RequestValidator) : list string :=
  Deduplicate (us_Roles (userState m) ++ List.filter (canSearchAsRole m) (allowSearch m))%list.
End Roles.

(** ** Thresholds *)

Definition default_threshold : AccessReviewThreshold :=
  {| th_Name := "default"; th_Filter := ""; th_Approve := 1; th_Deny := 1 |}.

Definition maxThresholds : nat := 4096.

(** [pushThreshold], on the thresholds collected so far: the index of an equal
    one, or else a new index. *)
Definition pushThreshold (t : AccessReviewThreshold) (collected : list AccessReviewThreshold)
  : result (list AccessReviewThreshold * Z) :=
  match list_find (eq t) collected with
  | Some (i, _) => Ok (collected, uint32 (Z.of_nat i))
  | None =>
      fail_if bool_decide (maxThresholds <= length collected)%nat
        with LimitExceeded "max review thresholds exceeded (max=%d)" [];
      Ok ((collected ++ [t])%list, uint32 (Z.of_nat (length collected)))
  end.

Fixpoint push_thresholds (s : list AccessReviewThreshold) (collected : list AccessReviewThreshold)
  : result (list AccessReviewThreshold * ThresholdIndexSet) :=
  match s with
  | [] => Ok (collected, [])
  | t :: s' =>
      let? (collected, tid) := pushThreshold t collected in
      let? (collected, indexes) := push_thresholds s' collected in
      Ok (collected, tid :: indexes)
  end.

(** [thresholdCollector.push] *)
Definition collector_push (s : list AccessReviewThreshold) (collected : list AccessReviewThreshold)
  : result (list AccessReviewThreshold * ThresholdIndexSet) :=
  push_thresholds (if bool_decide (s = []) then [default_threshold] else s) collected.

Section Sets.
Context `{RegexpEngine}.

(** The loop over the directives, of which each gives at most one set. *)
Fixpoint sets_for_role (tms : list (list Matcher * list AccessReviewThreshold)) (collected : list AccessReviewThreshold)
    (role : string) : result (list AccessReviewThreshold * ThresholdIndexSets) :=
  match tms with
  | [] => Ok (collected, [])
  | (matchers, thresholds) :: tms' =>
      if any_match matchers role then
        let? (collected, set) := collector_push thresholds collected in
        let? (collected, sets) := sets_for_role tms' collected role in
        Ok (collected, set :: sets)
      else sets_for_role tms' collected role
  end.

Definition collectSetsForRole (m : RequestValidator) (collected : list AccessReviewThreshold) (role : string)
  : result (list AccessReviewThreshold * ThresholdIndexSets) :=
  let? (collected, sets) := sets_for_role (thresholdMatchers m) collected role in
  fail_if bool_decide (sets = []) with BadParameter "role %q matches no threshold sets (this is a bug)" [role];
  Ok (collected, sets).

(** The thresholds and the mapping of a request. *)
Fixpoint collect_mapping (m : RequestValidator) (roles : list string) (collected : list AccessReviewThreshold)
    (rtm : gmap string ThresholdIndexSets) : result (list AccessReviewThreshold * gmap string ThresholdIndexSets) :=
  match roles with
  | [] => Ok (collected, rtm)
  | role :: roles' =>
      let? (collected, sets) := collectSetsForRole m collected role in
      collect_mapping m roles' collected (<[role := sets]> rtm)
  end.
End Sets.

(** ** How long *)

Section Durations.
Context `{RegexpEngine}.

(** The certificate of the user, as far as it is read. *)
Record RequestIdentity := {
  ri_Expires : time;
  ri_AllowedResourceAccessIDs : list ResourceAccessID;
  ri_DelegationSessionID : string;
}.

Definition maxDurationForRole (m : RequestValidator) (roleName : string) : duration :=
  foldl (fun longest (tms : list Matcher * duration) =>
    foldl (fun longest matcher => if matcher_Match matcher roleName && (longest <? tms.2) then tms.2 else longest) longest tms.1)
    0 (maxDurationMatchers m).

(** The loop over the roles of the request. *)
Definition least_duration (m : RequestValidator) (roles : list string) : duration :=
  foldl (fun minAdjDuration roleName =>
    let maxDurationForRole := maxDurationForRole m roleName in
    if (minAdjDuration =? 0) || (maxDurationForRole <? minAdjDuration) then maxDurationForRole else minAdjDuration) 0 roles.

Definition calculateMaxAccessDuration (m : RequestValidator) (req : AccessRequestV3) (sessionTTL : duration) : result duration :=
  let maxDurationTime := ars_MaxDuration (ar_Spec req) in
  let maxDuration := Sub maxDurationTime (GetCreationTime req) in
  let dryRun := ars_DryRun (ar_Spec req) in
  fail_if negb dryRun && negb (time_IsZero maxDurationTime) && (maxDuration <? 0)
    with BadParameter "invalid maxDuration: must be greater than creation time" [];
  let maxDuration := if dryRun then MaxAccessDuration else maxDuration in
  fail_if MaxAccessDuration <? maxDuration with BadParameter "max_duration must be less than or equal to %v" [];
  let minAdjDuration := least_duration m (GetRoles req) in
  let minAdjDuration := if negb (time_IsZero maxDurationTime) && (maxDuration <? minAdjDuration) then maxDuration else minAdjDuration in
  Ok (if (minAdjDuration =? 0) && (maxDuration <? sessionTTL) then maxDuration else minAdjDuration).

Definition calculatePendingRequestTTL (r : AccessRequestV3) (now : time) : result duration :=
  let accessExpiryTTL := Sub (GetAccessExpiry r) now in
  let expiry :=
    if time_IsZero (Expiry r) then (if requestTTL <? accessExpiryTTL then now + requestTTL else now + accessExpiryTTL)
    else Expiry r in
  fail_if expiry <? now with BadParameter "invalid request TTL: Access Request can not be created in the past" [];
  let requestedTTL := Sub expiry now in
  fail_if negb (time_IsZero (Expiry r)) && (requestTTL <? requestedTTL)
    with BadParameter "invalid request TTL: %v greater than maximum allowed (%v)" [];
  fail_if negb (time_IsZero (Expiry r)) && (accessExpiryTTL <? requestedTTL)
    with BadParameter "invalid request TTL: %v greater than maximum allowed (%v)" [];
  Ok requestedTTL.

Variable getRole : string -> result RoleV6.

Fixpoint truncate_roles (roles : list string) (ttl : duration) : result duration :=
  match roles with
  | [] => Ok ttl
  | roleName :: roles' =>
      let? role := getRole roleName in
      let roleTTL := ro_MaxSessionTTL (GetOptions role) in
      truncate_roles roles' (if (0 <? roleTTL) && (roleTTL <? ttl) then roleTTL else ttl)
  end.

Definition truncateTTL (identity : RequestIdentity) (expiry : time) (roles : list string) (now : time) : result duration :=
  let ttl := MaxCertDuration in
  let identityTTL := Sub (ri_Expires identity) now in
  let ttl := if (0 <? identityTTL) && (identityTTL <? ttl) then identityTTL else ttl in
  let expiryTTL := Sub expiry now in
  let ttl := if (0 <? expiryTTL) && (expiryTTL <? ttl) then expiryTTL else ttl in
  truncate_roles roles ttl.

(** [RequestValidator.sessionTTL] *)
Definition request_sessionTTL (identity : RequestIdentity) (r : AccessRequestV3) (now : time) : result duration :=
  let? ttl := rmap_err (fun e => BadParameter "invalid session TTL: %v" (e_fmt e :: e_args e))
                (truncateTTL identity (GetAccessExpiry r) (GetRoles r) now) in
  let requestedTTL := Sub (GetAccessExpiry r) now in
  fail_if negb (time_IsZero (GetAccessExpiry r)) && (ttl <? requestedTTL)
    with BadParameter "invalid session TTL: %v greater than maximum allowed (%v)" [];
  Ok ttl.

(** The times [validate] sets on a request that is expanded. *)
Definition set_times (m : RequestValidator) (identity : RequestIdentity) (now : time) (req : AccessRequestV3)
  : result AccessRequestV3 :=
  let? sessionTTL := request_sessionTTL identity req now in
  let? maxDuration := calculateMaxAccessDuration m req sessionTTL in
  let '(req, maxAccessDuration) :=
    if 0 <? maxDuration then (SetSessionTLL (now + Z.min sessionTTL maxDuration) req, maxDuration)
    else (SetSessionTLL (now + sessionTTL) req, sessionTTL) in
  let accessExpiry := now + maxAccessDuration in
  let req := SetAccessExpiry accessExpiry (SetMaxDuration accessExpiry req) in
  let? requestTTL := calculatePendingRequestTTL req now in
  let req := SetExpiry (now + requestTTL) req in
  match ars_AssumeStartTime (ar_Spec req) with
  | Some assumeStartTime =>
      check ValidateAssumeStartTime assumeStartTime accessExpiry (GetCreationTime req);
      Ok req
  | None => Ok req
  end.
End Durations.

(** ** Annotations of a request *)

(** [slices.Compact] *)
Fixpoint Compact (l : list string) : list string :=
  match l with
  | [] => []
  | x :: l' =>
      match l' with
      | y :: _ => if bool_decide (x = y) then Compact l' else x :: Compact l'
      | [] => [x]
      end
  end.

Section System.
Context `{RegexpEngine} `{!AnnotationOrder}.

Definition matchesRequest (m : annotationMatcher) (req : AccessRequestV3) : bool :=
  let matchers := if bool_decide (0 < length (GetAllRequestedResourceIDs req))%nat then resourceRequestMatchers m
                  else roleRequestMatchers m in
  existsb (fun matcher => existsb (matcher_Match matcher) (GetRoles req)) matchers.

Definition systemAnnotations (m : RequestValidator) (req : AccessRequestV3) : traits :=
  let collected := foldl (fun (annotations : traits) '(annotation, allowMatchers) =>
    if bool_decide (annotation ∈ annotations_deny m) then annotations
    else if negb (matchesRequest allowMatchers req) then annotations
    else <[annotation.1 := (default [] (annotations !! annotation.1) ++ [annotation.2])%list]> annotations)
    ∅ (annotation_range (annotations_allow m)) in
  (fun l => Compact (merge_sort at_most l)) <$> collected.
End System.

(** ** Kubernetes kinds of a request *)

Section Kubernetes.
Context `{RegexpCache} `{MapOrder unit} `{MapOrder (list string)}.

Fixpoint requestResourcesToStrings_ (denied : string) (resources : list RequestKubernetesResource) : list string :=
  match resources with
  | [] => []
  | resource :: resources' =>
      let str := rkr_Kind resource in
      let str := if bool_decide (rkr_APIGroup resource = "") then str else str +:+ "." +:+ rkr_APIGroup resource in
      let str := if bool_decide (rkr_Kind resource = Wildcard) then str +:+ denied else str in
      str :: requestResourcesToStrings_ denied resources'
  end.

Definition requestResourcesToStrings (resources denied : list RequestKubernetesResource) : list string :=
  requestResourcesToStrings_
    (if bool_decide (denied = []) then "" else "(- " +:+ Join (requestResourcesToStrings_ "" denied) ", " +:+ ")") resources.

(** [getInvalidKubeKindAccessRequestsError] *)
Definition getInvalidKubeKindAccessRequestsError (mapped : gmap string (list string)) (requestedRoles : bool) : error :=
  let allowedStr := Join ((fun e : string * list string => e.1 +:+ ": [" +:+ Join e.2 " " +:+ "]") <$> range mapped) ", " in
  BadParameter ("%s did not allow requesting to some or all of the requested " +:+
                "Kubernetes resources. allowed kinds for each %s roles: %v")
    [InvalidKubernetesKindAccessRequest; if requestedRoles then "requested" else "requestable"; allowedStr].

(** The kinds of the requested resources that are of Kubernetes. *)
Definition requested_kinds (ids : list ResourceAccessID) : list gk :=
  remove_dups (omap (fun resource =>
    let kind := rid_Kind (GetResourceID resource) in
    if bool_decide (kind = KindKubernetesCluster) then Some {| gk_group := ""; gk_kind := KindKubernetesCluster |}
    else if slices_Contains KubernetesResourcesKinds kind || HasPrefix kind AccessRequestPrefixKindKube
    then Some (normalizeKubernetesKind kind) else None) ids).

Definition denied_kind (denied : list RequestKubernetesResource) (kind : RequestKubernetesResource) : bool :=
  existsb (fun elem => matchRequestKubernetesResources {| gk_group := rkr_APIGroup kind; gk_kind := rkr_Kind kind |} elem Allow)
    denied.

Definition every_kind : RequestKubernetesResource := {| rkr_Kind := Wildcard; rkr_APIGroup := Wildcard |}.
Definition no_kind : RequestKubernetesResource := {| rkr_Kind := ""; rkr_APIGroup := "" |}.

(** The allowed kinds of a role that are not denied.  [slices.DeleteFunc] works
    in place: the slice of the validator keeps its length, and the places at
    its end are zeroed. *)
Definition undenied_kinds (m : RequestValidator) (role : string) : list RequestKubernetesResource * RequestValidator :=
  let allowed := default [] (kubernetes_allow m !! role) in
  let denied := kubernetes_deny m in
  let keep kinds := List.filter (fun kind => negb (denied_kind denied kind)) kinds in
  if bool_decide (allowed = []) then
    (keep (every_kind :: if bool_decide (denied = []) then [{| rkr_Kind := KindKubernetesCluster; rkr_APIGroup := "" |}] else []), m)
  else
    let kept := keep allowed in
    (kept, set_kubernetes_allow (<[role := kept ++ replicate (length allowed - length kept) no_kind]> (kubernetes_allow m))%list m).

(** The loop over the roles: the roles that are kept, unless a requested kind
    is denied, and the kinds each role allows. *)
Fixpoint prune_kinds (kinds : list gk) (roles : list string) (good : gmap string unit) (mapped : gmap string (list string))
    (m : RequestValidator) : RequestValidator * (list string * gmap string (list string)) :=
  match roles with
  | [] => (m, (fst <$> range good, mapped))
  | role :: roles' =>
      let denied := kubernetes_deny m in
      if bool_decide (default [] (kubernetes_allow m !! role) = []) && bool_decide (denied = []) then
        prune_kinds kinds roles' (<[role := tt]> good) mapped m
      else
        let '(allowed, m) := undenied_kinds m role in
        let mapped := <[role := requestResourcesToStrings allowed denied]> mapped in
        if negb (forallb (fun kind => existsb (fun k => matchRequestKubernetesResources kind k Allow) allowed) kinds) then
          prune_kinds kinds roles' good mapped m
        else if existsb (fun kind => existsb (fun k =>
                  bool_decide (gk_kind kind = KindKubernetesCluster) || bool_decide (gk_kind kind = "namespaces") ||
                  matchRequestKubernetesResources kind k Deny) denied) kinds then (m, ([], mapped))
        else prune_kinds kinds roles' (<[role := tt]> good) mapped m
  end.

Definition pruneRequestedRolesNotMatchingKubernetesResourceKinds (ids : list ResourceAccessID) (requestedRoles : list string)
  : M RequestValidator (list string * gmap string (list string)) := fun m =>
  let kinds := requested_kinds ids in
  if bool_decide (kinds = []) then (m, Ok (requestedRoles, ∅))
  else let '(m, r) := prune_kinds kinds requestedRoles ∅ ∅ m in (m, Ok r).
End Kubernetes.

(** ** Kubernetes resources of a role and of a request *)

Definition KubernetesClusterWideResourceKinds : list string :=
  ["namespace"; "kube_node"; "persistentvolume"; "clusterrole"; "clusterrolebinding"; "certificatesigningrequest"].

Definition KubernetesResourceSelfSubjectAccessReview : KubernetesResource :=
  {| kr_Kind := "selfsubjectaccessreviews"; kr_Namespace := ""; kr_Name := Wildcard; kr_Verbs := ["create"];
     kr_APIGroup := "authorization.k8s.io" |}.

(** A legacy kind becomes the plural of Kubernetes with its group, another one
    keeps its name in every group. *)
Definition upgraded (r : KubernetesResource) : KubernetesResource :=
  match entry KubernetesResourcesKindsPlurals (kr_Kind r) with
  | Some k => {| kr_Kind := k; kr_Namespace := kr_Namespace r; kr_Name := kr_Name r; kr_Verbs := kr_Verbs r;
                 kr_APIGroup := default "" (entry KubernetesResourcesV7KindGroups (kr_Kind r)) |}
  | None => {| kr_Kind := kr_Kind r; kr_Namespace := kr_Namespace r; kr_Name := kr_Name r; kr_Verbs := kr_Verbs r;
               kr_APIGroup := Wildcard |}
  end.

(** A resource of a role before version 8, and what is added for it. *)
Definition upgrade_resource (r : KubernetesResource) : KubernetesResource * list KubernetesResource :=
  if bool_decide (kr_Kind r = KindKubeNamespace) then
    let namespace := if bool_decide (kr_Name r = Wildcard) then "^.+$" else kr_Name r in
    ({| kr_Kind := Wildcard; kr_Namespace := namespace; kr_Name := Wildcard; kr_Verbs := kr_Verbs r; kr_APIGroup := Wildcard |},
     [{| kr_Kind := "namespaces"; kr_Namespace := ""; kr_Name := namespace; kr_Verbs := kr_Verbs r; kr_APIGroup := "" |}])
  else
    let global := slices_Contains KubernetesClusterWideResourceKinds (kr_Kind r) in
    let r := upgraded {| kr_Kind := kr_Kind r; kr_Namespace := if global then "" else kr_Namespace r; kr_Name := kr_Name r;
                         kr_Verbs := kr_Verbs r; kr_APIGroup := kr_APIGroup r |} in
    (r, if bool_decide (kr_Kind r = Wildcard) then
          (fun elem => {| kr_Kind := default "" (entry KubernetesResourcesKindsPlurals elem); kr_Namespace := "";
                          kr_Name := kr_Name r; kr_Verbs := kr_Verbs r; kr_APIGroup := Wildcard |}) <$>
            filter (fun elem => elem <> KindKubeNamespace) KubernetesClusterWideResourceKinds
        else []).

Definition convertKubernetesResourcesBetweenRoleVersions (role : RoleV6) (resources : list KubernetesResource)
  : list KubernetesResource :=
  if slices_Contains [V8; V9] (role_Version role) then resources
  else (((fst ∘ upgrade_resource) <$> resources) ++ mjoin ((snd ∘ upgrade_resource) <$> resources))%list.

Definition HasLabelMatchers (rct : RoleConditionType) (kind : string) (role : RoleV6) : bool :=
  match GetLabelMatchers rct kind role with Ok lm => negb (LabelMatchers_Empty lm) | Err _ => false end.

(** The resources every role before version 7 grants in the clusters it reaches. *)
Definition legacy_grants : list KubernetesResource :=
  omap (fun kind =>
    let resource := default "" (entry KubernetesResourcesKindsPlurals kind) in
    if bool_decide (resource = "pods") || bool_decide (resource = "namespaces") then None
    else Some {| kr_Kind := resource; kr_Namespace := Wildcard; kr_Name := Wildcard; kr_Verbs := [Wildcard];
                 kr_APIGroup := default "" (entry KubernetesResourcesV7KindGroups kind) |}) KubernetesResourcesKinds.

Definition convertAllowKubernetesResourcesBetweenRoleVersions (role : RoleV6) (resources : list KubernetesResource)
  : list KubernetesResource :=
  if slices_Contains [V7; V8; V9] (role_Version role) then convertKubernetesResourcesBetweenRoleVersions role resources
  else if slices_Contains [V6; V5; V4; V3] (role_Version role) then
    if negb (HasLabelMatchers Allow KindKubernetesCluster role) then []
    else if match resources with
            | [r] => bool_decide (kr_Name r = Wildcard) && bool_decide (kr_Namespace r = Wildcard)
            | _ => false
            end
    then [{| kr_Kind := Wildcard; kr_Namespace := Wildcard; kr_Name := Wildcard; kr_Verbs := [Wildcard]; kr_APIGroup := Wildcard |}]
    else ((upgraded <$> resources) ++ legacy_grants)%list
  else [].

Definition GetKubeResources (rct : RoleConditionType) (role : RoleV6) : list KubernetesResource :=
  match rct with
  | Allow => (convertAllowKubernetesResourcesBetweenRoleVersions role (rc_KubernetesResources (role_Allow role)) ++
              [KubernetesResourceSelfSubjectAccessReview])%list
  | Deny => convertKubernetesResourcesBetweenRoleVersions role (rc_KubernetesResources (role_Deny role))
  end.

(** [schema.ParseGroupKind] of the Kubernetes libraries *)
Class GroupKinds := ParseGroupKind : string -> gk.

(** The resources of a request in a cluster. *)
Fixpoint getKubeResourcesFromResourceIDs `{GroupKinds} (resourceIDs : list ResourceID) (clusterName : string)
  : result (list KubernetesResource) :=
  match resourceIDs with
  | [] => Ok []
  | resourceID :: resourceIDs' =>
      let sub := rid_SubResourceName resourceID in
      if negb (bool_decide (rid_Name resourceID = clusterName)) then getKubeResourcesFromResourceIDs resourceIDs' clusterName
      else if bool_decide (rid_Kind resourceID = KindKubeNamespace) then
        let targetNS := if bool_decide (sub = Wildcard) then "^.+$" else sub in
        let? rest := getKubeResourcesFromResourceIDs resourceIDs' clusterName in
        Ok ({| kr_Kind := "namespaces"; kr_Namespace := ""; kr_Name := sub; kr_Verbs := []; kr_APIGroup := "" |} ::
            {| kr_Kind := Wildcard; kr_Namespace := targetNS; kr_Name := Wildcard; kr_Verbs := []; kr_APIGroup := "" |} :: rest)
      else if slices_Contains KubernetesResourcesKinds (rid_Kind resourceID) ||
              HasPrefix (rid_Kind resourceID) AccessRequestPrefixKindKube then
        let kind := default "" (entry KubernetesResourcesKindsPlurals (rid_Kind resourceID)) in
        let kind := if bool_decide (kind = "") then rid_Kind resourceID else kind in
        let isClusterWide := slices_Contains KubernetesClusterWideResourceKinds (rid_Kind resourceID) ||
                             HasPrefix kind AccessRequestPrefixKindKubeClusterWide in
        let kind := if negb isClusterWide then TrimPrefix kind AccessRequestPrefixKindKubeNamespaced
                    else TrimPrefix kind AccessRequestPrefixKindKubeClusterWide in
        let parsed := ParseGroupKind kind in
        let group := if bool_decide (gk_group parsed = "")
                     then default "" (entry KubernetesResourcesV7KindGroups (rid_Kind resourceID)) else gk_group parsed in
        let? resource :=
          if isClusterWide then
            Ok {| kr_Kind := gk_kind parsed; kr_Namespace := ""; kr_Name := sub; kr_Verbs := []; kr_APIGroup := group |}
          else match Split sub "/"%char with
               | [namespace; n] =>
                   Ok {| kr_Kind := gk_kind parsed; kr_Namespace := namespace; kr_Name := n; kr_Verbs := []; kr_APIGroup := group |}
               | _ => Err (BadParameter "subresource name %q does not follow <namespace>/<name> format" [sub])
               end in
        let? rest := getKubeResourcesFromResourceIDs resourceIDs' clusterName in
        Ok (resource :: rest)
      else getKubeResourcesFromResourceIDs resourceIDs' clusterName
  end.

Section KubeMatcher.
Context `{RegexpCache}.

(** The verbs are a set: the code collects them from a map. *)
Fixpoint collect_verbs (input : KubernetesResource) (verbs : gset string) (matchedAny : bool)
    (resources : list KubernetesResource) : result (bool * gset string) :=
  match resources with
  | [] => Ok (matchedAny, verbs)
  | resource :: resources' =>
      if negb (bool_decide (kr_Kind input = kr_Kind resource)) && negb (bool_decide (kr_Kind resource = Wildcard)) then
        collect_verbs input verbs matchedAny resources'
      else
        let? ok := MatchString (kr_APIGroup input) (kr_APIGroup resource) in
        if negb ok then collect_verbs input verbs matchedAny resources' else
        let? ok := MatchString (kr_Name input) (kr_Name resource) in
        if negb ok then collect_verbs input verbs matchedAny resources' else
        let? ok := MatchString (kr_Namespace input) (kr_Namespace resource) in
        if negb ok then collect_verbs input verbs matchedAny resources' else
        if slices_Contains (kr_Verbs resource) Wildcard then Ok (true, {[Wildcard]})
        else collect_verbs input (list_to_set (kr_Verbs resource) ∪ verbs) true resources'
  end.

Definition KubeResourceMatchesRegexWithVerbsCollector (input : KubernetesResource) (resources : list KubernetesResource)
  : result (bool * gset string) := collect_verbs input ∅ false resources.

Definition ClusterResource (r : KubernetesResource) : string := path_Join [kr_Namespace r; kr_Name r].
Definition unmatchedKey (r : KubernetesResource) : string := path_Join [kr_Kind r; ClusterResource r].

(** [KubeResourcesMatcher]: the matcher of the resources of a request, and
    those that no role matched yet *)
Definition NewKubeResourcesMatcher (resources : list KubernetesResource) : gset string :=
  list_to_set (unmatchedKey <$> resources).

Fixpoint KubeResourcesMatcher_Match (resources : list KubernetesResource) (role : RoleV6) (condition : RoleConditionType)
    (finalResult : bool) (unmatchedReqs : gset string) : gset string * result bool :=
  match resources with
  | [] => (unmatchedReqs, Ok finalResult)
  | resource :: resources' =>
      match KubeResourceMatchesRegexWithVerbsCollector resource (GetKubeResources condition role) with
      | Err e => (unmatchedReqs, Err e)
      | Ok (result, _) =>
          KubeResourcesMatcher_Match resources' role condition (finalResult || result)
            (if result : bool then unmatchedReqs ∖ {[unmatchedKey resource]} else unmatchedReqs)
      end
  end.

(** What the matcher answers, whatever is unmatched. *)
Definition kube_matcher (resources : list KubernetesResource) : RoleMatcher :=
  RoleMatcherFunc (fun role condition => snd (KubeResourcesMatcher_Match resources role condition false ∅)).
End KubeMatcher.

(** ** The validation *)

(** What the validator is given: the roles and users of the cluster, its
    resources, and the expansion of the templates of a role. *)
Record RequestValidatorGetter `{RegexpEngine} := {
  g_GetRole : string -> result RoleV6;
  g_GetRoles : result (list RoleV6);
  g_GetClusterName : result string;
  g_GetUserOrLoginState : string -> result UserState;
  g_GetResourcesByResourceIDs : list ResourceID -> result (list AccessCheckable);
  g_ApplyTraits : string -> traits -> RoleV6 -> result RoleV6;
}.

(** [json.Marshal] of resource identifiers *)
Class ResourceDocuments := {
  marshal_ids : list string -> result string;
  marshal_access_ids : list ResourceAccessID -> result string;
}.

Definition ResourceIDToString (id : ResourceID) : string :=
  let s := "/" +:+ rid_ClusterName id +:+ "/" +:+ rid_Kind id +:+ "/" +:+ rid_Name id in
  if bool_decide (rid_SubResourceName id = "") then s else s +:+ "/" +:+ rid_SubResourceName id.

(** The requests that have not been seen, each once. *)
Fixpoint unseen {A} (key : A -> string) (seen : gset string) (l : list A) : list A * gset string :=
  match l with
  | [] => ([], seen)
  | x :: l' =>
      if bool_decide (key x ∈ seen) then unseen key seen l'
      else let '(rest, seen) := unseen key ({[key x]} ∪ seen) l' in (x :: rest, seen)
  end.

Definition deduplicateRequestedResources (req : AccessRequestV3) : AccessRequestV3 :=
  let '(accessIDs, seen) :=
    unseen (fun pair => ResourceIDToString (GetResourceID pair)) ∅ (GetRequestedResourceAccessIDs req) in
  let '(ids, _) := unseen ResourceIDToString seen (GetRequestedResourceIDs req) in
  SetRequestedResourceAccessIDs accessIDs (SetRequestedResourceIDs ids req).

Definition countAllowedLogins (role : RoleV6) : nat :=
  size (list_to_set (C:=gset string) (GetLogins Allow role) ∖ list_to_set (GetLogins Deny role)).

(** [fewestLogins]: the count of the first role is not updated in the loop. *)
Definition fewestLogins (roles : list RoleV6) : list RoleV6 :=
  match roles with
  | [] => []
  | first :: rest =>
      [foldl (fun fewest role => if bool_decide (countAllowedLogins role < countAllowedLogins first)%nat then role else fewest) first rest]
  end.

Section Validation.
Context `{UnicodeTables} `{RegexpCache} `{MatcherCalls} `{TraitsTemplates} `{MapOrder (list string)} `{MapOrder unit}.
Context `{LabelExpressions} `{Environment} `{ResourceDocuments} `{GroupKinds} `{!AnnotationOrder}.
Variable g : RequestValidatorGetter.

Definition ResourceIDsToString (ids : list ResourceID) : result string :=
  if bool_decide (ids = []) then Ok ""
  else rmap_err (fun e => BadParameter "failed to marshal resource IDs to JSON: %v" [e_fmt e]) (marshal_ids (ResourceIDToString <$> ids)).
Definition ResourceAccessIDsToString (ids : list ResourceAccessID) : result string :=
  if bool_decide (length ids = 0%nat) then Ok ""
  else rmap_err (fun e => BadParameter "failed to marshal ResourceAccessIDs to JSON: %v" [e_fmt e]) (marshal_access_ids ids).

Definition validateRequestedResourcesLength (req : AccessRequestV3) : result unit :=
  let? accessIDs := ResourceAccessIDsToString (GetRequestedResourceAccessIDs req) in
  let? ids := ResourceIDsToString (GetRequestedResourceIDs req) in
  fail_if maxResourcesLength <? len accessIDs + len ids
    with BadParameter "access request exceeds maximum length: try reducing the number of resources in the request" [];
  Ok tt.

(** *** The roles of a request for resources *)

Definition IsAccessDenied (e : error) : bool := bool_decide (e_class e = KAccessDenied).

Definition roleAllowsResource (u : UserState) (role : RoleV6) (resource : AccessCheckable) (loginHint : string)
    (extraMatchers : list RoleMatcher) : result bool :=
  let matchers := ((if bool_decide (loginHint = "") then [] else [loginMatcher loginHint]) ++ extraMatchers)%list in
  match checkAccess resource (us_Name u) (us_Traits u) mfa_verified_state matchers [role] with
  | Ok _ => Ok true
  | Err e => if IsAccessDenied e then Ok false else Err e
  end.

(** Whether the decision for a role asks the matcher of Kubernetes resources
    about a condition: [checkAccess] reaches its matchers, and the matcher of
    the login, which comes before it, leaves the question open. *)
Definition asks_kube (u : UserState) (role : RoleV6) (resource : AccessCheckable) (loginHint : string)
    (extraMatchers : list RoleMatcher) (condition : RoleConditionType) : bool :=
  let before := if bool_decide (loginHint = "") then [] else [loginMatcher loginHint] in
  let reached := MatchNamespace (GetNamespaces condition role) (namespace_of resource) in
  let labels := labels_match resource (us_Name u) (us_Traits u) condition role in
  match condition with
  | Deny => reached && match labels with Ok matched => negb matched | Err _ => false end
            && match MatchAny before role Deny with Ok None => true | _ => false end
  | Allow => is_ok (deny_rules resource (us_Name u) (us_Traits u) (before ++ extraMatchers)%list [role])
             && reached && match labels with Ok matched => matched | Err _ => false end
             && match MatchAll before role Allow with Ok true => true | _ => false end
  end.

(** The resources that stay unmatched after the decision for a role. *)
Definition still_unmatched (u : UserState) (role : RoleV6) (resource : AccessCheckable) (loginHint : string)
    (extraMatchers : list RoleMatcher) (kube : list KubernetesResource) (unmatched : gset string) : gset string :=
  foldl (fun unmatched condition =>
    if asks_kube u role resource loginHint extraMatchers condition
    then fst (KubeResourcesMatcher_Match kube role condition false unmatched) else unmatched) unmatched [Deny; Allow].

(** The roles that allow the access, with the resources none of them matches. *)
Fixpoint roles_for_resource (u : UserState) (resource : AccessCheckable) (loginHint : string) (matchers : list RoleMatcher)
    (kube : list KubernetesResource) (unmatched : gset string) (roles : list RoleV6) : result (list RoleV6 * gset string) :=
  match roles with
  | [] => Ok ([], unmatched)
  | role :: roles' =>
      let? roleAllowsAccess := roleAllowsResource u role resource loginHint matchers in
      let unmatched := still_unmatched u role resource loginHint matchers kube unmatched in
      let? (rest, unmatched) := roles_for_resource u resource loginHint matchers kube unmatched roles' in
      Ok (if roleAllowsAccess : bool then role :: rest else rest, unmatched)
  end.

(** [getUnderlyingResourcesByResourceIDs]: of a Kubernetes resource the cluster *)
Definition getUnderlyingResourcesByResourceIDs (ids : list ResourceID) : result (list AccessCheckable) :=
  if bool_decide (length ids = 0%nat) then Ok []
  else g_GetResourcesByResourceIDs g ((fun id =>
    if slices_Contains KubernetesResourcesKinds (rid_Kind id) || HasPrefix (rid_Kind id) AccessRequestPrefixKindKube
    then {| rid_ClusterName := rid_ClusterName id; rid_Kind := KindKubernetesCluster; rid_Name := rid_Name id;
            rid_SubResourceName := rid_SubResourceName id |}
    else id) <$> ids).

(** The constraints of the first requested resource of the kind and the name
    that has some. *)
Fixpoint constraints_of (ids : list ResourceAccessID) (resource : AccessCheckable) : option ResourceConstraints :=
  match ids with
  | [] => None
  | r :: ids' =>
      let rid := GetResourceID r in
      if negb (bool_decide (rid_Kind rid = res_Kind resource)) || negb (bool_decide (rid_Name rid = res_Name resource))
      then constraints_of ids' resource
      else match GetConstraints r with Some c => Some c | None => constraints_of ids' resource end
  end.

(** The matchers of a resource: of its Kubernetes resources and its account,
    within the constraints, and what the constraints themselves ask for. *)
Definition resource_matchers (resource : AccessCheckable) (kube : list KubernetesResource)
    (constraints : option ResourceConstraints) : result (list RoleMatcher) :=
  let matchers := ((if bool_decide (0 < length kube)%nat then [kube_matcher kube] else []) ++ identity_center_matcher resource)%list in
  match constraints with
  | None => Ok matchers
  | Some c =>
      let? constraintMatcher := MatcherFromConstraints (Some c) in
      Ok (map (WithConstraints (Some c)) matchers ++ match constraintMatcher with Some cm => [cm] | None => [] end)%list
  end.

(** The loop over the resources: the names of the roles that are needed. *)
Fixpoint necessary_roles (u : UserState) (ids : list ResourceAccessID) (loginHint : string) (roles : list string)
    (allRoles : list RoleV6) (necessaryRoles : gmap string unit) (resources : list AccessCheckable) : result (gmap string unit) :=
  match resources with
  | [] => Ok necessaryRoles
  | resource :: resources' =>
      let? kube := getKubeResourcesFromResourceIDs (GetResourceID <$> ids) (res_Name resource) in
      let? matchers := resource_matchers resource kube (constraints_of ids resource) in
      let? (rolesForResource, unmatched) :=
        roles_for_resource u resource loginHint matchers kube (NewKubeResourcesMatcher kube) allRoles in
      if bool_decide (0 < length kube)%nat && negb (bool_decide (unmatched = ∅)) then
        let? resourcesStr := ResourceIDsToString (GetResourceID <$> ids) in
        Err (BadParameter ("no roles configured in the " +:+ quoted "search_as_roles" +:+ " for this user allow access to at least one " +:+
                           "requested resources. resources: %s roles: %v unmatched resources: %v")
               (resourcesStr :: roles ++ elements unmatched)%list)
      else
        let rolesForResource := if bool_decide (loginHint = "") then rolesForResource else fewestLogins rolesForResource in
        necessary_roles u ids loginHint roles allRoles
          (foldl (fun necessaryRoles role => <[GetName role := tt]> necessaryRoles) necessaryRoles rolesForResource) resources'
  end.

(** What is left of the roles past the check of Kubernetes kinds. *)
Definition prune_to_necessary (u : UserState) (ids : list ResourceAccessID) (loginHint : string) (roles : list string)
  : result (list string) :=
  let? localClusterName := g_GetClusterName g in
  if existsb (fun id => negb (bool_decide (rid_ClusterName (GetResourceID id) = localClusterName))) ids then Ok roles
  else
    let? allRoles := FetchRolesWithContext (g_GetRole g) (g_ApplyTraits g) roles (us_Name u) (us_Traits u) in
    let? underlyingResources := getUnderlyingResourcesByResourceIDs (GetResourceID <$> ids) in
    let? necessaryRoles := necessary_roles u ids loginHint roles allRoles ∅ underlyingResources in
    if bool_decide (size necessaryRoles = 0%nat) then
      let? resourcesStr := ResourceIDsToString (GetResourceID <$> ids) in
      Err (BadParameter ("no roles configured in the " +:+ quoted "search_as_roles" +:+ " for this user allow access to any " +:+
                         "requested resources. The user may already have access to all requested resources with their existing " +:+
                         "roles. resources: %s roles: %v login: %q") (resourcesStr :: roles ++ [loginHint])%list)
    else Ok (fst <$> range necessaryRoles).

Definition pruneResourceRequestRoles (ids : list ResourceAccessID) (loginHint : string) (roles : list string)
  : M RequestValidator (list string) :=
  if bool_decide (length ids = 0%nat) then mret roles
  else
    let* (roles, mapped) := pruneRequestedRolesNotMatchingKubernetesResourceKinds ids roles in
    deny_if bool_decide (roles = []) with getInvalidKubeKindAccessRequestsError mapped false;
    fun m => (m, prune_to_necessary (userState m) ids loginHint roles).

Definition applicableSearchAsRoles (ids : list ResourceAccessID) (loginHint : string) : M RequestValidator (list string) := fun m =>
  (let* rolesToRequest := mlift (allowedSearchAsRoles m) in
   pruneResourceRequestRoles ids loginHint rolesToRequest) m.

Definition getAllApplicableRoles (requestedRoles : list string) (ids : list ResourceAccessID) : M RequestValidator (list string) :=
  if bool_decide (0 < length ids)%nat then
    let* roles := applicableSearchAsRoles ids "" in
    mret (requestedRoles ++ roles)%list
  else mret requestedRoles.

(** *** Reasons *)

(** Whether a reason is required, and the text that says why. *)
Definition isReasonRequired (requestedRoles : list string) (ids : list ResourceAccessID) : M RequestValidator (option string) := fun m =>
  if requireReasonForAllRoles m
  then (m, Ok (Some "request reason must be specified (required request_access option in one of the roles)"))
  else
    (let* allApplicableRoles := getAllApplicableRoles requestedRoles ids in
     let* required := mget requiringReasonRoles in
     mret ((fun r => "request reason must be specified (required for role " +:+ quoted r +:+ ")") <$>
             find (fun r => bool_decide (r ∈ required)) allApplicableRoles)) m.

Definition populateCustomReasonPrompts (requestedRoles : list string) (ids : list ResourceAccessID) : M RequestValidator unit :=
  let* allApplicableRoles := getAllApplicableRoles requestedRoles ids in
  mmodify (fun m => set_reasonPrompts (foldl (fun prompts r =>
    match customPromptRoles m !! r with
    | Some customPrompt => if slices_Contains prompts customPrompt then prompts else (prompts ++ [customPrompt])%list
    | None => prompts
    end) (reasonPrompts m) allApplicableRoles) m).

(** *** A wildcard request *)

Fixpoint BuildResourceConstraintMatchers (ids : list ResourceAccessID) (resource : AccessCheckable) : result (list RoleMatcher) :=
  match ids with
  | [] => Ok []
  | raid :: ids' =>
      let rid := GetResourceID raid in
      if negb (bool_decide (rid_Name rid = res_Name resource)) || negb (bool_decide (rid_Kind rid = res_Kind resource)) then
        BuildResourceConstraintMatchers ids' resource
      else
        let? rm := MatcherFromConstraints (GetConstraints raid) in
        let? rest := BuildResourceConstraintMatchers ids' resource in
        Ok (match rm with Some rm => rm :: rest | None => rest end)
  end.

(** The resources the user may see, each with the matchers of its constraints. *)
Fixpoint visible_resources (a : accessChecker) (ids : list ResourceAccessID) (resources : list AccessCheckable)
  : result (list (AccessCheckable * list RoleMatcher)) :=
  match resources with
  | [] => Ok []
  | resource :: resources' =>
      match CheckAccess a resource mfa_verified_state [] with
      | Ok _ =>
          let? matchers := BuildResourceConstraintMatchers ids resource in
          let? rest := visible_resources a ids resources' in
          Ok ((resource, matchers) :: rest)
      | Err _ => visible_resources a ids resources'
      end
  end.

Fixpoint allows_all (u : UserState) (role : RoleV6) (loginHint : string) (resources : list (AccessCheckable * list RoleMatcher))
  : result bool :=
  match resources with
  | [] => Ok true
  | (resource, matchers) :: resources' =>
      let? access := roleAllowsResource u role resource loginHint matchers in
      let? rest := allows_all u role loginHint resources' in
      Ok (access && rest)
  end.

Fixpoint requestable_roles (m : RequestValidator) (loginHint : string) (resources : list (AccessCheckable * list RoleMatcher))
    (roles : list RoleV6) : result (list string) :=
  match roles with
  | [] => Ok []
  | role :: roles' =>
      let n := GetName role in
      if slices_Contains (us_Roles (userState m)) n || negb (CanRequestRole m n) then requestable_roles m loginHint resources roles'
      else
        let? roleAllowsAccess := allows_all (userState m) role loginHint resources in
        let? rest := requestable_roles m loginHint resources roles' in
        Ok (if roleAllowsAccess : bool then n :: rest else rest)
  end.

Definition getRequestableRoles (m : RequestValidator) (identity : RequestIdentity) (ids : list ResourceAccessID) (loginHint : string)
  : result (list string) :=
  let? allRoles := g_GetRoles g in
  let? underlyingResources := getUnderlyingResourcesByResourceIDs (GetResourceID <$> ids) in
  let? cluster := g_GetClusterName g in
  let? accessChecker := NewAccessChecker (g_GetRole g) (g_ApplyTraits g)
    {| ai_ScopePin := false; ai_Roles := getResourceViewingRoles m; ai_Traits := us_Traits (userState m);
       ai_AllowedResourceAccessIDs := ri_AllowedResourceAccessIDs identity;
       ai_DelegationSessionID := ri_DelegationSessionID identity; ai_Username := us_Name (userState m) |} cluster in
  let? filteredResources := visible_resources accessChecker ids underlyingResources in
  requestable_roles m loginHint filteredResources allRoles.

(** *** The request *)

Definition setRolesForResourceRequest (req : AccessRequestV3) : M RequestValidator AccessRequestV3 := fun m =>
  if negb (expandVars m) then (m, Ok req)
  else if IsLongTerm (ars_RequestKind (ar_Spec req)) then (m, Ok req)
  else if bool_decide (length (GetAllRequestedResourceIDs req) = 0%nat) then (m, Ok req)
  else if bool_decide (0 < length (GetRoles req))%nat then (m, Ok req)
  else (let* rolesToRequest := applicableSearchAsRoles (GetAllRequestedResourceIDs req) (ars_LoginHint (ar_Spec req)) in
        mret (SetRoles rolesToRequest req)) m.

(** A wildcard is expanded into the roles that may be requested. *)
Definition expand_wildcard (identity : RequestIdentity) (req : AccessRequestV3) (m : RequestValidator) : result AccessRequestV3 :=
  if bool_decide (GetRoles req = [Wildcard]) then
    fail_if negb (IsPending (GetState req))
      with BadParameter "wildcard requests are not permitted in state %s" [state_String (GetState req)];
    fail_if negb (expandVars m) with BadParameter "unexpected wildcard request (this is a bug)" [];
    let? requestable := getRequestableRoles m identity [] "" in
    fail_if bool_decide (requestable = [])
      with BadParameter "no requestable roles, please verify static RBAC configuration" [];
    Ok (SetRoles requestable req)
  else Ok req.

(** The mode a dry run is told, and the refusal of a request without a reason
    that needs one. *)
Definition check_reason (req : AccessRequestV3) (ids : list ResourceAccessID) : M RequestValidator string :=
  if ars_DryRun (ar_Spec req) then
    let* required := isReasonRequired (GetRoles req) ids in
    mret (match required with Some _ => RequestReasonModeRequired | None => RequestReasonModeOptional end)
  else if bool_decide (len (TrimSpace (ars_RequestReason (ar_Spec req))) = 0) then
    let* required := isReasonRequired (GetRoles req) ids in
    let* prompts := mget reasonPrompts in
    match required with
    | Some explanation =>
        let promptString := if bool_decide (prompts = []) then "" else String (chr 10) (Join prompts (String (chr 10) "")) in
        mfail (BadParameter "%s%s" [explanation; promptString])
    | None => mret RequestReasonModeOptional
    end
  else mret RequestReasonModeOptional.

Definition permitted (m : RequestValidator) (resources : bool) (roleName : string) : bool :=
  if resources then canSearchAsRole m roleName else CanRequestRole m roleName.

Definition check_roles (req : AccessRequestV3) (ids : list ResourceAccessID) (m : RequestValidator) : result unit :=
  match find (fun roleName => negb (permitted m (bool_decide (0 < length ids)%nat) roleName)) (GetRoles req) with
  | Some roleName => Err (BadParameter "user %q %s %q" [GetUser req; CannotRequestRole; roleName])
  | None => Ok tt
  end.

Definition check_kinds (req : AccessRequestV3) (ids : list ResourceAccessID) : M RequestValidator unit :=
  if bool_decide (0 < length ids)%nat && bool_decide (0 < length (GetRoles req))%nat then
    let* (prunedRoles, mapped) := pruneRequestedRolesNotMatchingKubernetesResourceKinds ids (GetRoles req) in
    deny_if negb (bool_decide (length prunedRoles = length (GetRoles req)))
      with getInvalidKubeKindAccessRequestsError mapped true;
    mret tt
  else mret tt.

(** What a new request is given: the resources once each, the roles of a
    request for resources, thresholds, annotations, reviewers and times. *)
Definition expand_request (identity : RequestIdentity) (now : time) (req : AccessRequestV3) : M RequestValidator AccessRequestV3 :=
  let req := deduplicateRequestedResources req in
  do* mlift (validateRequestedResourcesLength req);
  let* req := setRolesForResourceRequest req in
  fun m =>
    (m, let? (thresholds, rtm) := collect_mapping m (GetRoles req) [] ∅ in
        let req := SetRoleThresholdMapping rtm (SetThresholds thresholds req) in
        let req := SetSystemAnnotations (systemAnnotations m req) req in
        let req := if bool_decide (ars_SuggestedReviewers (ar_Spec req) = [])
                   then SetSuggestedReviewers (Deduplicate (suggestedReviewers m)) req else req in
        set_times (g_GetRole g) m identity now req).

Definition validate (identity : RequestIdentity) (now : time) (req : AccessRequestV3) : M RequestValidator AccessRequestV3 := fun m =>
  (deny_if negb (bool_decide (us_Name (userState m) = GetUser req))
     with BadParameter "request validator configured for different user (this is a bug)" [];
   deny_if negb (IsPromoted (GetState req)) && negb (bool_decide (GetPromotedAccessListTitle req = ""))
     with BadParameter "only promoted requests can set the promoted access list title" [];
   let* req := mlift (expand_wildcard identity req m) in
   let allRequestedResources := GetAllRequestedResourceIDs req in
   do* populateCustomReasonPrompts (GetRoles req) allRequestedResources;
   do* mmodify (fun m => set_reasonPrompts (merge_sort at_most (reasonPrompts m)) m);
   let* prompts := mget reasonPrompts in
   let* mode := check_reason req allRequestedResources in
   do* mlift (check_roles req allRequestedResources m);
   do* check_kinds req allRequestedResources;
   let* req := if expandVars m then expand_request identity now req else mret req in
   mret (if ars_DryRun (ar_Spec req)
         then SetDryRunEnrichment {| dre_ReasonMode := mode; dre_ReasonPrompts := prompts |} req else req)) m.

Definition ValidateAccessRequestForUser (identity : RequestIdentity) (now : time) (expand : bool) (req : AccessRequestV3)
  : result AccessRequestV3 :=
  let? u := g_GetUserOrLoginState g (GetUser req) in
  let? m := NewRequestValidatorForUser (g_GetRole g) u expand in
  snd (validate identity now req m).

(** ** The request whose roles a user takes on: [Server.getValidatedAccessRequest]
    of [lib/auth/auth.go] *)

Definition getValidatedAccessRequest (getAccessRequests : AccessRequestFilter -> result (list AccessRequestV3))
    (identity : RequestIdentity) (now : time) (user accessRequestID : string) : result AccessRequestV3 :=
  let? reqs := getAccessRequests {| f_ID := accessRequestID; f_User := user; f_State := RequestState_NONE; f_SearchKeywords := [];
                                    f_Scope := 0; f_Requester := "" |} in
  match reqs with
  | [] => Err (NotFound "access request %q not found" [accessRequestID])
  | req :: _ =>
      fail_if negb (IsApproved (GetState req))
        with if IsDenied (GetState req) then AccessDenied "access request %q has been denied" [accessRequestID]
             else if IsPromoted (GetState req)
             then AccessDenied "access request %q has been promoted. Use access list to access resources." [accessRequestID]
             else AccessDenied "access request %q is awaiting approval" [accessRequestID];
      let? req := ValidateAccessRequestForUser identity now false req in
      fail_if GetAccessExpiry req <? now with BadParameter "access request %q has expired" [accessRequestID];
      fail_if (match ars_AssumeStartTime (ar_Spec req) with Some t => now <? t | None => false end)
        with BadParameter "access request %q can not be assumed until %v" [accessRequestID];
      Ok req
  end.
End Validation.
