(* ===== verification/ValidatorFacts.v ===== *)
(** * Facts about the validation of access requests

    What the validator of a user collects from the user's roles; that the
    thresholds of a validated request are those of the directives that let
    each role be requested; that its roles are permitted and its times within
    what the directives state; and what the methods of the validator leave
    alone. *)

From S2P Require Import Prelude GoStrings Utf8 Types Regexp Traits Service Roles RoleLimits RoleAccess CheckAccess.
From S2P Require Import RoleRules Checker Autoupdate AccessRequest AccessReview ReviewFacts DynamicAccess RequestValidator.

(** ** Thresholds *)

(** The thresholds a directive stands for. *)
Definition effective (s : list AccessReviewThreshold) : list AccessReviewThreshold :=
  if bool_decide (s = []) then [default_threshold] else s.

(** The index of a threshold among those collected. *)
Definition index_of (collected : list AccessReviewThreshold) (t : AccessReviewThreshold) (tid : Z) : Prop :=
  in_range (length collected) tid /\ collected !! Z.to_nat tid = Some t.

(** A list of thresholds that has grown by some of [s] within the limit. *)
Record grown (s : AccessReviewThreshold -> Prop) (c c' : list AccessReviewThreshold) : Prop := {
  gr_prefix : c `prefix_of` c';
  gr_limit : (length c <= maxThresholds)%nat -> (length c' <= maxThresholds)%nat;
  gr_new t : t ∈ c' -> t ∈ c \/ s t;
}.

Lemma grown_refl s c : grown s c c.
Proof. split; [done|done|by left]. Qed.

Lemma grown_trans s c1 c2 c3 : grown s c1 c2 -> grown s c2 c3 -> grown s c1 c3.
Proof. intros [P1 L1 N1] [P2 L2 N2]. split; [by etrans|auto|]. intros t [Ht|Ht]%N2; auto. Qed.

Lemma grown_mono (s s' : AccessReviewThreshold -> Prop) c c' : (forall t, s t -> s' t) -> grown s c c' -> grown s' c c'.
Proof. intros Hs [P L N]. split; [done|done|]. intros t [?|?]%N; auto. Qed.

Lemma index_of_grown c c' t tid : c `prefix_of` c' -> index_of c t tid -> index_of c' t tid.
Proof.
  intros Hp [Hr Hl]. split; [|by eapply prefix_lookup_Some]. apply prefix_length in Hp. unfold in_range in *. lia.
Qed.

Lemma pushThreshold_ok t c c' tid : pushThreshold t c = Ok (c', tid) -> (length c <= maxThresholds)%nat ->
  grown (eq t) c c' /\ index_of c' t tid.
Proof.
  unfold pushThreshold, uint32. intros E Hl. unfold maxThresholds in *.
  destruct (list_find (eq t) c) as [[i t']|] eqn:F.
  - injection E as <- <-. apply list_find_Some in F as (Hi & <- & _). pose proof (lookup_lt_Some _ _ _ Hi).
    split; [apply grown_refl|]. rewrite Z.mod_small by lia. split; [unfold in_range; lia|by rewrite Nat2Z.id].
  - apply fail_if_ok in E as [Hm E]. injection E as <- <-. bool_to_prop.
    rewrite Z.mod_small by lia. split; [split|split].
    + by apply prefix_app_r.
    + intros _. rewrite length_app. unfold maxThresholds. simpl. lia.
    + intros x Hx. apply elem_of_app in Hx as [Hx|Hx]; [by left|]. apply list_elem_of_singleton in Hx as ->. by right.
    + unfold in_range. rewrite length_app. simpl. lia.
    + rewrite Nat2Z.id, lookup_app_r, Nat.sub_diag by lia. done.
Qed.

Lemma push_thresholds_ok s : forall c c' idx, push_thresholds s c = Ok (c', idx) -> (length c <= maxThresholds)%nat ->
  grown (fun t => t ∈ s) c c' /\ Forall2 (index_of c') s idx.
Proof.
  induction s as [|t s IH]; intros c c' idx E Hl; simpl in E; [injection E as <- <-; split; [apply grown_refl|constructor]|].
  apply rbind_ok in E as ([c1 tid] & Hp & E). apply rbind_ok in E as ([c2 idx'] & Hs & E). injection E as <- <-.
  apply pushThreshold_ok in Hp as [G1 I1]; [|done]. pose proof (gr_limit _ _ _ G1 Hl) as Hl1.
  apply IH in Hs as [G2 I2]; [|done]. split.
  - eapply grown_trans; eapply grown_mono; [|exact G1| |exact G2]; intros x; rewrite elem_of_cons; [by intros ->; left|by right].
  - constructor; [|done]. by eapply index_of_grown, I1; apply G2.
Qed.

(** The sets of indexes that say what the directives [tms] that match a role
    ask for. *)
Definition sets_of `{RegexpEngine} (tms : list (list Matcher * list AccessReviewThreshold)) (role : string)
    (c : list AccessReviewThreshold) (sets : ThresholdIndexSets) : Prop :=
  Forall2 (fun tm set => Forall2 (index_of c) (effective tm.2) set) (List.filter (fun tm => any_match tm.1 role) tms) sets.

Section Sets.
Context `{RegexpEngine}.

Lemma sets_of_grown tms role c c' sets : c `prefix_of` c' -> sets_of tms role c sets -> sets_of tms role c' sets.
Proof.
  intros Hp Hs. eapply Forall2_impl; [exact Hs|]. intros tm set Hi. eapply Forall2_impl; [exact Hi|].
  intros t tid. by apply index_of_grown.
Qed.

Definition asked_by (tms : list (list Matcher * list AccessReviewThreshold)) (t : AccessReviewThreshold) : Prop :=
  exists tm, tm ∈ tms /\ t ∈ effective tm.2.

Lemma sets_for_role_ok tms role : forall c c' sets, sets_for_role tms c role = Ok (c', sets) -> (length c <= maxThresholds)%nat ->
  grown (asked_by tms) c c' /\ sets_of tms role c' sets.
Proof.
  unfold sets_of, asked_by.
  induction tms as [|[ms s] tms IH]; intros c c' sets E Hl; simpl in E; [injection E as <- <-; split; [apply grown_refl|constructor]|].
  assert (Hmono : forall c c', grown (asked_by tms) c c' -> grown (asked_by ((ms, s) :: tms)) c c').
  { intros d d'. apply grown_mono. intros t (tm & Hin & Ht). exists tm. split; [by right|done]. }
  simpl. destruct (any_match ms role); simpl.
  - apply rbind_ok in E as ([c1 set] & Hp & E). apply rbind_ok in E as ([c2 sets'] & Hs & E). injection E as <- <-.
    apply push_thresholds_ok in Hp as [G1 I1]; [|done]. pose proof (gr_limit _ _ _ G1 Hl) as Hl1.
    apply IH in Hs as [G2 I2]; [|done]. split.
    + eapply grown_trans; [|by apply Hmono]. eapply grown_mono, G1. intros t Ht. exists (ms, s). split; [by left|done].
    + constructor; [|done]. eapply Forall2_impl; [exact I1|]. intros t tid. apply index_of_grown, G2.
  - apply IH in E as [G I]; [|done]. split; [by apply Hmono|done].
Qed.

(** A mapping from roles to the sets their directives ask for. *)
Definition mapping_of (m : RequestValidator) (c : list AccessReviewThreshold) (rtm : gmap string ThresholdIndexSets) : Prop :=
  forall role sets, rtm !! role = Some sets -> sets <> [] /\ sets_of (thresholdMatchers m) role c sets.

Lemma collect_mapping_ok m roles : forall c rtm c' rtm', collect_mapping m roles c rtm = Ok (c', rtm') ->
  (length c <= maxThresholds)%nat -> mapping_of m c rtm ->
  grown (asked_by (thresholdMatchers m)) c c' /\ mapping_of m c' rtm' /\ dom rtm' = list_to_set roles ∪ dom rtm.
Proof.
  induction roles as [|role roles IH]; intros c rtm c' rtm' E Hl Hm; simpl in E.
  { injection E as <- <-. split; [apply grown_refl|]. split; [done|]. set_solver. }
  apply rbind_ok in E as ([c1 sets] & Hs & E). unfold collectSetsForRole in Hs.
  apply rbind_ok in Hs as ([c2 sets'] & Hs & Hn). apply fail_if_ok in Hn as [Hn Hx]. injection Hx as <- <-. bool_to_prop.
  apply sets_for_role_ok in Hs as [G1 S1]; [|done]. pose proof (gr_limit _ _ _ G1 Hl) as Hl1.
  apply IH in E as (G2 & M2 & D2); [|done|].
  - split; [by eapply grown_trans|]. split; [done|]. rewrite D2, dom_insert_L. set_solver.
  - intros role' sets''. destruct (decide (role = role')) as [<-|Hne].
    + rewrite lookup_insert_eq. intros [= <-]. done.
    + rewrite lookup_insert_ne by done. intros Hx. apply Hm in Hx as [? Hx]. split; [done|]. eapply sets_of_grown, Hx. apply G1.
Qed.
End Sets.

(** ** What the roles of a user say *)

Section Directives.
Context `{UnicodeTables} `{RegexpCache} `{MatcherCalls} `{TraitsTemplates} `{MapOrder (list string)}.

Definition request_directives (cond : RoleConditionType) (ts : traits) (role : RoleV6) : result (list Matcher) :=
  let c := GetAccessRequestConditions cond role in AppendRoleMatchers [] (arc_Roles c) (arc_ClaimsToRoles c) ts.

(** A role with the matchers of its directives: the roles it lets be requested,
    those it denies, and those it lets be searched as. *)
Record directive := {
  d_role : RoleV6;
  d_allow : list Matcher;
  d_deny : list Matcher;
}.

Definition allow_of (d : directive) : AccessRequestConditions := GetAccessRequestConditions Allow (d_role d).
Definition deny_of (d : directive) : AccessRequestConditions := GetAccessRequestConditions Deny (d_role d).
Definition d_matchers (d : directive) : list Matcher := (d_allow d ++ literalMatchers (arc_SearchAsRoles (allow_of d)))%list.

Definition directive_of (getRole : string -> result RoleV6) (ts : traits) (name : string) (d : directive) : Prop :=
  getRole name = Ok (d_role d) /\ request_directives Allow ts (d_role d) = Ok (d_allow d) /\
  request_directives Deny ts (d_role d) = Ok (d_deny d).

(** What a directive adds to the thresholds and the durations. *)
Definition d_thresholds (d : directive) : option (list Matcher * list AccessReviewThreshold) :=
  if bool_decide (0 < length (d_matchers d))%nat then Some (d_matchers d, arc_Thresholds (allow_of d)) else None.
Definition d_duration (d : directive) : option (list Matcher * duration) :=
  if negb (arc_MaxDuration (allow_of d) =? 0) then Some (d_matchers d, arc_MaxDuration (allow_of d)) else None.

(** The annotations the directives allow, with the matchers that go with each,
    and those they deny. *)
Definition d_annotations (u : UserState) (allow : gmap (string * string) annotationMatcher) (d : directive)
  : gmap (string * string) annotationMatcher :=
  insertAllowedAnnotations u (allow_of d) (d_allow d) (literalMatchers (arc_SearchAsRoles (allow_of d))) allow.
Definition d_denied_annotations (u : UserState) (deny : gset (string * string)) (d : directive) : gset (string * string) :=
  insertDeniedAnnotations u (deny_of d) deny.

Record pushed (ds : list directive) (m m' : RequestValidator) : Prop := {
  pu_expand : expandVars m' = expandVars m;
  pu_user : userState m' = userState m;
  pu_allow : allowRequest m' = (allowRequest m ++ mjoin (d_allow <$> ds))%list;
  pu_deny : denyRequest m' = (denyRequest m ++ mjoin (d_deny <$> ds))%list;
  pu_allow_search x : x ∈ allowSearch m' <-> x ∈ allowSearch m \/ exists d, d ∈ ds /\ x ∈ arc_SearchAsRoles (allow_of d);
  pu_deny_search x : x ∈ denySearch m' <-> x ∈ denySearch m \/ exists d, d ∈ ds /\ x ∈ arc_SearchAsRoles (deny_of d);
  pu_thresholds : thresholdMatchers m' = (thresholdMatchers m ++ if expandVars m then omap d_thresholds ds else [])%list;
  pu_durations : maxDurationMatchers m' = (maxDurationMatchers m ++ if expandVars m then omap d_duration ds else [])%list;
  pu_annotations : annotations_allow m' =
    if expandVars m then foldl (d_annotations (userState m)) (annotations_allow m) ds else annotations_allow m;
  pu_denied : annotations_deny m' =
    if expandVars m then foldl (d_denied_annotations (userState m)) (annotations_deny m) ds else annotations_deny m;
}.

Lemma pushed_nil m : pushed [] m m.
Proof. split; rewrite ?app_nil_r; try done; try set_solver; destruct (expandVars m); by rewrite ?app_nil_r. Qed.

Lemma pushed_trans ds ds' m1 m2 m3 : pushed ds m1 m2 -> pushed ds' m2 m3 -> pushed (ds ++ ds') m1 m3.
Proof.
  intros [E1 U1 A1 D1 S1 T1 Th1 Du1 An1 De1] [E2 U2 A2 D2 S2 T2 Th2 Du2 An2 De2].
  split; rewrite ?E1, ?U1, ?Th1, ?Du1, ?An1, ?De1, ?A1, ?D1 in *; try congruence.
  - by rewrite A2, fmap_app, join_app, app_assoc.
  - by rewrite D2, fmap_app, join_app, app_assoc.
  - intros x. rewrite S2, S1. setoid_rewrite elem_of_app. naive_solver.
  - intros x. rewrite T2, T1. setoid_rewrite elem_of_app. naive_solver.
  - rewrite Th2. destruct (expandVars m1); rewrite <- app_assoc; [by rewrite omap_app|done].
  - rewrite Du2. destruct (expandVars m1); rewrite <- app_assoc; [by rewrite omap_app|done].
  - rewrite An2. destruct (expandVars m1); [by rewrite foldl_app|done].
  - rewrite De2. destruct (expandVars m1); [by rewrite foldl_app|done].
Qed.

Lemma push_ok role m m' : push role m = Ok m' ->
  exists d, d_role d = role /\ request_directives Allow (us_Traits (userState m)) role = Ok (d_allow d) /\
    request_directives Deny (us_Traits (userState m)) role = Ok (d_deny d) /\ pushed [d] m m'.
Proof.
  unfold push. rewrite !(AppendRoleMatchers_onto (denyRequest m)), !(AppendRoleMatchers_onto (allowRequest m)).
  fold (request_directives Deny (us_Traits (userState m)) role). fold (request_directives Allow (us_Traits (userState m)) role).
  intros E. apply rbind_ok in E as (dm' & (dm & Hdm & [= <-])%rbind_ok & E). apply rbind_ok in E as (am' & (am & Ham & [= <-])%rbind_ok & E).
  rewrite drop_app_length in E. injection E as <-. exists {| d_role := role; d_allow := am; d_deny := dm |}. split_and!; try done.
  split; simpl; rewrite ?app_nil_r; try done.
  - intros x. rewrite elem_of_Deduplicate, elem_of_app. setoid_rewrite list_elem_of_singleton. naive_solver.
  - intros x. rewrite elem_of_Deduplicate, elem_of_app. setoid_rewrite list_elem_of_singleton. naive_solver.
  - unfold d_thresholds, d_matchers, allow_of. simpl. destruct (expandVars m); simpl; [|by rewrite app_nil_r]. case_bool_decide; simpl; by rewrite ?app_nil_r.
  - unfold d_duration, d_matchers, allow_of. simpl. destruct (expandVars m); simpl; [|by rewrite app_nil_r]. case_match; simpl; by rewrite ?app_nil_r.
Qed.

Lemma push_roles_ok getRole roles : forall m m', push_roles getRole roles m = Ok m' ->
  exists ds, Forall2 (directive_of getRole (us_Traits (userState m))) roles ds /\ pushed ds m m'.
Proof.
  induction roles as [|name roles IH]; intros m m' E; simpl in E; [injection E as <-; exists []; split; [constructor|apply pushed_nil]|].
  apply rbind_ok in E as (role & Hg & E). apply rbind_ok in E as (m1 & Hp & E). apply push_ok in Hp as (d & <- & Ha & Hd & P1).
  apply IH in E as (ds & Hds & P2). rewrite (pu_user _ _ _ P1) in Hds. exists (d :: ds). split; [by constructor|].
  by apply (pushed_trans [d] ds _ m1).
Qed.
End Directives.

(** ** The validator of a user *)

Section User.
Context `{UnicodeTables} `{RegexpCache} `{MatcherCalls} `{TraitsTemplates} `{MapOrder (list string)}.

Lemma new_validator_ok getRole u expand m : NewRequestValidatorForUser getRole u expand = Ok m ->
  exists ds, Forall2 (directive_of getRole (us_Traits u)) (us_Roles u) ds /\ pushed ds (no_roles_yet u expand) m.
Proof.
  unfold NewRequestValidatorForUser. intros E. apply rbind_ok in E as (m1 & E & [= <-]).
  apply push_roles_ok in E as (ds & Hds & P). exists ds. split; [done|]. by destruct P; split.
Qed.

(** One of the user's roles has a directive for requests that matches. *)
Definition role_requests (cond : RoleConditionType) (getRole : string -> result RoleV6) (u : UserState) (role : string) : Prop :=
  exists name r ms, name ∈ us_Roles u /\ getRole name = Ok r /\
    request_directives cond (us_Traits u) r = Ok ms /\ any_match ms role = true.

(** One of the user's roles lists the role among those to search as. *)
Definition role_searches (cond : RoleConditionType) (getRole : string -> result RoleV6) (u : UserState) (role : string) : Prop :=
  exists name r, name ∈ us_Roles u /\ getRole name = Ok r /\ role ∈ arc_SearchAsRoles (GetAccessRequestConditions cond r).

Definition may_request (getRole : string -> result RoleV6) (u : UserState) (role : string) : Prop :=
  role_requests Allow getRole u role /\ ~ role_requests Deny getRole u role.
Definition may_search_as (getRole : string -> result RoleV6) (u : UserState) (role : string) : Prop :=
  role_searches Allow getRole u role /\ ~ role_searches Deny getRole u role /\ ~ role_requests Deny getRole u role.

Lemma any_match_join (f : directive -> list Matcher) ds role :
  any_match (mjoin (f <$> ds)) role = true <-> exists d, d ∈ ds /\ any_match (f d) role = true.
Proof.
  unfold any_match. induction ds as [|d ds IH]; simpl.
  - split; [done|]. by intros (d & ?%not_elem_of_nil & _).
  - rewrite existsb_app, orb_true_iff, IH. setoid_rewrite elem_of_cons. naive_solver.
Qed.

Section Collected.
Variables (getRole : string -> result RoleV6) (u : UserState) (ds : list directive).
Hypothesis Hds : Forall2 (directive_of getRole (us_Traits u)) (us_Roles u) ds.

Lemma role_of_directive d : d ∈ ds -> exists name, name ∈ us_Roles u /\ directive_of getRole (us_Traits u) name d.
Proof.
  intros [i Hi]%list_elem_of_lookup. destruct (Forall2_lookup_r _ _ _ _ _ Hds Hi) as (name & Hn & Hd).
  exists name. split; [by eapply list_elem_of_lookup_2|done].
Qed.

Lemma directive_of_role name r : name ∈ us_Roles u -> getRole name = Ok r ->
  exists d, d ∈ ds /\ d_role d = r /\ request_directives Allow (us_Traits u) r = Ok (d_allow d) /\
    request_directives Deny (us_Traits u) r = Ok (d_deny d).
Proof.
  intros [i Hi]%list_elem_of_lookup Hg. destruct (Forall2_lookup_l _ _ _ _ _ Hds Hi) as (d & Hd & Hg' & Ha & Hdn).
  rewrite Hg in Hg'. injection Hg' as ->. exists d. split; [by eapply list_elem_of_lookup_2|done].
Qed.

(** What holds of a directive holds of a role of the user. *)
Lemma roles_collected (P : RoleV6 -> Prop) :
  (exists d, d ∈ ds /\ P (d_role d)) <-> exists name r, name ∈ us_Roles u /\ getRole name = Ok r /\ P r.
Proof.
  split.
  - intros (d & (name & Hn & Hg & _)%role_of_directive & HP). eauto.
  - intros (name & r & Hn & Hg & HP). destruct (directive_of_role _ _ Hn Hg) as (d & Hin & <- & _). eauto.
Qed.

Lemma directives_collected cond (P : RoleV6 -> list Matcher -> Prop) :
  (exists d, d ∈ ds /\ P (d_role d) (match cond with Allow => d_allow d | Deny => d_deny d end)) <->
  exists name r ms, name ∈ us_Roles u /\ getRole name = Ok r /\ request_directives cond (us_Traits u) r = Ok ms /\ P r ms.
Proof.
  split.
  - intros (d & (name & Hn & Hg & Ha & Hd)%role_of_directive & HP). exists name, (d_role d). destruct cond; eauto.
  - intros (name & r & ms & Hn & Hg & Hm & HP). destruct (directive_of_role _ _ Hn Hg) as (d & Hin & <- & Ha & Hd).
    exists d. split; [done|]. destruct cond; congruence.
Qed.

Lemma searches_collected cond role :
  (exists d, d ∈ ds /\ role ∈ arc_SearchAsRoles (GetAccessRequestConditions cond (d_role d))) <-> role_searches cond getRole u role.
Proof. apply (roles_collected (fun r => role ∈ arc_SearchAsRoles (GetAccessRequestConditions cond r))). Qed.

Lemma requests_collected cond role :
  (exists d, d ∈ ds /\ any_match (match cond with Allow => d_allow d | Deny => d_deny d end) role = true) <->
  role_requests cond getRole u role.
Proof. apply (directives_collected cond (fun _ ms => any_match ms role = true)). Qed.

Variables (expand : bool) (m : RequestValidator).
Hypothesis Hm : pushed ds (no_roles_yet u expand) m.

Lemma denied_collected role : any_match (denyRequest m) role = true <-> role_requests Deny getRole u role.
Proof. rewrite (pu_deny _ _ _ Hm). simpl. rewrite any_match_join. apply (requests_collected Deny). Qed.

Lemma CanRequestRole_spec role : CanRequestRole m role = true <-> may_request getRole u role.
Proof.
  unfold CanRequestRole, may_request. rewrite <- denied_collected. rewrite <- (requests_collected Allow).
  rewrite (pu_allow _ _ _ Hm). cbn [allowRequest no_roles_yet app]. rewrite <- (any_match_join d_allow).
  destruct (any_match (denyRequest m) role); [split; [done|by intros [_ []]]|]. naive_solver.
Qed.

Lemma canSearchAsRole_spec role : canSearchAsRole m role = true <-> may_search_as getRole u role.
Proof.
  unfold canSearchAsRole, may_search_as. rewrite <- denied_collected, <- !searches_collected.
  fold (deny_of). assert (Ha : role ∈ allowSearch m <-> exists d, d ∈ ds /\ role ∈ arc_SearchAsRoles (allow_of d)).
  { rewrite (pu_allow_search _ _ _ Hm). simpl. set_solver. }
  assert (Hd : role ∈ denySearch m <-> exists d, d ∈ ds /\ role ∈ arc_SearchAsRoles (deny_of d)).
  { rewrite (pu_deny_search _ _ _ Hm). simpl. set_solver. }
  unfold allow_of, deny_of in Ha, Hd. rewrite <- Ha, <- Hd.
  destruct (slices_Contains (denySearch m) role) eqn:E1; [apply slices_Contains_true in E1; naive_solver|].
  apply slices_Contains_false in E1. destruct (any_match (denyRequest m) role); [naive_solver|].
  rewrite slices_Contains_true. naive_solver.
Qed.
End Collected.

(** A role is permitted to the user by a directive, for a request for roles or
    for one for resources. *)
Definition permits (getRole : string -> result RoleV6) (u : UserState) (resources : bool) (role : string) : Prop :=
  if resources then may_search_as getRole u role else may_request getRole u role.

Lemma permitted_spec getRole u expand m resources role : NewRequestValidatorForUser getRole u expand = Ok m ->
  permitted m resources role = true <-> permits getRole u resources role.
Proof.
  intros (ds & Hds & Hm)%new_validator_ok. unfold permitted, permits.
  destruct resources; [by eapply canSearchAsRole_spec|by eapply CanRequestRole_spec].
Qed.
End User.

(** *** The matcher of Kubernetes resources *)

Section Asked.
Context `{UnicodeTables} `{RegexpCache} `{MapOrder (list string)} `{LabelExpressions} `{Environment}.
Variables (u : UserState) (role : RoleV6) (resource : AccessCheckable) (loginHint : string) (others : list RoleMatcher).
#[local] Abbreviation before := (if bool_decide (loginHint = "") then [] else [loginMatcher loginHint]).

Lemma MatchAny_app ms ms' c : MatchAny (ms ++ ms') role c =
  let? first := MatchAny ms role c in match first with Some m => Ok (Some m) | None => MatchAny ms' role c end.
Proof. induction ms as [|m ms IH]; simpl; [done|]. by destruct (Match m role c) as [[]|]. Qed.

Lemma MatchAll_app ms ms' c : MatchAll (ms ++ ms') role c =
  let? all := MatchAll ms role c in if all : bool then MatchAll ms' role c else Ok false.
Proof. induction ms as [|m ms IH]; simpl; [done|]. by destruct (Match m role c) as [[]|]. Qed.

(** The decision for a role depends on the matcher by its answers to the
    conditions it is asked about, and on nothing else. *)
Lemma decision_asks f f' :
  (forall c, asks_kube u role resource loginHint (RoleMatcherFunc f :: others) c = true -> f role c = f' role c) ->
  roleAllowsResource u role resource loginHint (RoleMatcherFunc f :: others) =
  roleAllowsResource u role resource loginHint (RoleMatcherFunc f' :: others).
Proof.
  intros Hasked. unfold roleAllowsResource.
  assert (checkAccess resource (us_Name u) (us_Traits u) mfa_verified_state (before ++ RoleMatcherFunc f :: others) [role] =
          checkAccess resource (us_Name u) (us_Traits u) mfa_verified_state (before ++ RoleMatcherFunc f' :: others) [role]) as ->; [|done].
  assert (Hdeny : deny_rules resource (us_Name u) (us_Traits u) (before ++ RoleMatcherFunc f :: others) [role] =
                  deny_rules resource (us_Name u) (us_Traits u) (before ++ RoleMatcherFunc f' :: others) [role]).
  { pose proof (Hasked Deny) as Hd. unfold asks_kube in Hd. cbn [deny_rules]. destruct (MatchNamespace _ _); [|done].
    cbn [negb andb] in Hd |- *. destruct (labels_match _ _ _ _ _) as [[]|]; [done| |done]. cbn [rbind negb andb] in Hd |- *.
    rewrite !MatchAny_app. destruct (MatchAny before role Deny) as [[]|]; [done| |done]. cbn [rbind MatchAny Match].
    rewrite (Hd eq_refl). by destruct (f' role Deny) as [[]|]. }
  unfold checkAccess. cbn -[deny_rules allow_rules]. rewrite Hdeny.
  destruct (deny_rules _ _ _ (before ++ RoleMatcherFunc f' :: others) [role]) as [[]|] eqn:Ed; [|done].
  pose proof (Hasked Allow) as Ha. unfold asks_kube in Ha. cbv zeta in Ha. rewrite Hdeny in Ha. cbn [is_ok andb allow_rules rbind] in Ha |- *.
  destruct (MatchNamespace _ _); [|done]. cbn [negb andb] in Ha |- *. destruct (labels_match _ _ _ _ _) as [[]|]; [|done..].
  cbn [negb andb rbind] in Ha |- *. rewrite !MatchAll_app. destruct (MatchAll before role Allow) as [[]|]; [|done..].
  cbn [rbind MatchAll Match]. by rewrite (Ha eq_refl).
Qed.
End Asked.

(** ** The validation *)

(** Two states of a validator that differ in the prompts and in the kinds at
    most. *)
Definition same_policy `{RegexpEngine} (m m' : RequestValidator) : Prop :=
  set_reasonPrompts [] (set_kubernetes_allow ∅ m') = set_reasonPrompts [] (set_kubernetes_allow ∅ m).

#[export] Instance same_policy_preorder `{RegexpEngine} : PreOrder same_policy.
Proof. split; [done|]. unfold same_policy. intros m1 m2 m3 H1 H2. congruence. Qed.

Record policy_kept `{RegexpEngine} (m m' : RequestValidator) : Prop := {
  pk_expand : expandVars m' = expandVars m;
  pk_user : userState m' = userState m;
  pk_allow : allowRequest m' = allowRequest m;
  pk_deny : denyRequest m' = denyRequest m;
  pk_allow_search : allowSearch m' = allowSearch m;
  pk_deny_search : denySearch m' = denySearch m;
  pk_thresholds : thresholdMatchers m' = thresholdMatchers m;
  pk_durations : maxDurationMatchers m' = maxDurationMatchers m;
  pk_annotations : annotations_allow m' = annotations_allow m;
  pk_denied : annotations_deny m' = annotations_deny m;
}.

Lemma same_policy_kept `{RegexpEngine} m m' : same_policy m m' -> policy_kept m m'.
Proof. destruct m, m'. unfold same_policy, set_reasonPrompts, set_kubernetes_allow. simpl. intros [=]. split; simpl; congruence. Qed.

Lemma same_policy_prompts `{RegexpEngine} p m : same_policy m (set_reasonPrompts p m).
Proof. done. Qed.
Lemma same_policy_kinds `{RegexpEngine} k m : same_policy m (set_kubernetes_allow k m).
Proof. done. Qed.

Section Validate.
Context `{UnicodeTables} `{RegexpCache} `{MatcherCalls} `{TraitsTemplates} `{MapOrder (list string)} `{MapOrder unit}.
Context `{LabelExpressions} `{Environment} `{ResourceDocuments} `{GroupKinds} `{!AnnotationOrder}.
Variable g : RequestValidatorGetter.

Lemma prune_kinds_keeps kinds roles : forall good mapped m, same_policy m (fst (prune_kinds kinds roles good mapped m)).
Proof.
  induction roles as [|role roles IH]; intros good mapped m; simpl; [done|].
  destruct (_ && _); [apply IH|]. destruct (undenied_kinds m role) as [allowed m1] eqn:E.
  assert (same_policy m m1) as Hm by (unfold undenied_kinds in E; case_bool_decide; injection E as <- <-; done).
  destruct (negb _); [by etrans; [|apply IH]|]. destruct (existsb _ _); [done|by etrans; [|apply IH]].
Qed.

Lemma prune_keeps ids roles : step_in same_policy (pruneRequestedRolesNotMatchingKubernetesResourceKinds ids roles).
Proof.
  intros m m' r. unfold pruneRequestedRolesNotMatchingKubernetesResourceKinds. case_bool_decide; [by intros [= <- _]|].
  pose proof (prune_kinds_keeps (requested_kinds ids) roles ∅ ∅ m) as Hk. destruct (prune_kinds _ _ _ _ m) as [m1 x]. by intros [= <- _].
Qed.

#[local] Hint Resolve prune_keeps : go.

Lemma pruneResource_keeps ids hint roles : step_in same_policy (pruneResourceRequestRoles g ids hint roles).
Proof. unfold pruneResourceRequestRoles. step_in_auto. by intros m m' r [= <- _]. Qed.
#[local] Hint Resolve pruneResource_keeps : go.

Lemma applicable_keeps ids hint : step_in same_policy (applicableSearchAsRoles g ids hint).
Proof.
  intros m m' r. unfold applicableSearchAsRoles, mthen, mlift. destruct (allowedSearchAsRoles m); [apply pruneResource_keeps|by intros [= <- _]].
Qed.
#[local] Hint Resolve applicable_keeps : go.

Lemma all_applicable_keeps roles ids : step_in same_policy (getAllApplicableRoles g roles ids).
Proof. unfold getAllApplicableRoles. step_in_auto. Qed.
#[local] Hint Resolve all_applicable_keeps : go.

Lemma reason_keeps roles ids : step_in same_policy (isReasonRequired g roles ids).
Proof.
  intros m m' r. unfold isReasonRequired. destruct (requireReasonForAllRoles m); [by intros [= <- _]|].
  revert m m' r. change (fun m => ?f m) with f. apply step_in_mthen; [apply _|apply all_applicable_keeps|]. step_in_auto.
Qed.
#[local] Hint Resolve reason_keeps : go.

Lemma populate_keeps roles ids : step_in same_policy (populateCustomReasonPrompts g roles ids).
Proof. unfold populateCustomReasonPrompts. step_in_auto. by intros m m' r [= <- _]. Qed.

Lemma check_reason_keeps req ids : step_in same_policy (check_reason g req ids).
Proof. unfold check_reason. step_in_auto. Qed.

Lemma check_kinds_keeps req ids : step_in same_policy (check_kinds req ids).
Proof. unfold check_kinds. step_in_auto. Qed.

Lemma setRoles_keeps req : step_in same_policy (setRolesForResourceRequest g req).
Proof.
  intros m m' r. unfold setRolesForResourceRequest. repeat (case_match; [by intros [= <- _]|]).
  apply step_in_mthen; [apply _|apply applicable_keeps|]. step_in_auto.
Qed.
End Validate.

(** *** The times of a validated request *)

Section Times.
Context `{RegexpEngine}.
Variables (getRole : string -> result RoleV6) (m : RequestValidator).

(** The longest duration a directive that matches the role states, if any does. *)
Definition durations_of (role : string) : list duration :=
  omap (fun tms : list Matcher * duration => if any_match tms.1 role then Some tms.2 else None) (maxDurationMatchers m).

Lemma longest_of_matchers (d : duration) role ms : forall longest,
  foldl (fun longest matcher => if matcher_Match matcher role && (longest <? d) then d else longest) longest ms =
  if any_match ms role && (longest <? d) then d else longest.
Proof.
  unfold any_match. induction ms as [|matcher ms IH]; intros longest; simpl; [done|]. rewrite IH.
  destruct (matcher_Match matcher role); simpl; [|done]. destruct (longest <? d) eqn:E; simpl.
  - rewrite Z.ltb_irrefl, andb_false_r. done.
  - by rewrite E, andb_false_r.
Qed.

Lemma maxDurationForRole_spec role :
  0 <= maxDurationForRole m role /\ (maxDurationForRole m role = 0 \/ maxDurationForRole m role ∈ durations_of role) /\
  forall d, d ∈ durations_of role -> d <= maxDurationForRole m role.
Proof.
  unfold maxDurationForRole, durations_of. generalize (maxDurationMatchers m). intros l.
  assert (Hgen : forall (acc : Z) seen, 0 <= acc -> (acc = 0 \/ acc ∈ seen) -> (forall d, d ∈ seen -> d <= acc) ->
    let r := foldl (fun longest (tms : list Matcher * duration) =>
      foldl (fun longest matcher => if matcher_Match matcher role && (longest <? tms.2) then tms.2 else longest) longest tms.1) acc l in
    0 <= r /\ (r = 0 \/ r ∈ (seen ++ omap (fun tms : list Matcher * duration => if any_match tms.1 role then Some tms.2 else None) l)%list) /\
    forall d, d ∈ (seen ++ omap (fun tms : list Matcher * duration => if any_match tms.1 role then Some tms.2 else None) l)%list -> d <= r).
  { induction l as [|[ms d] l IH]; intros acc seen H0 Hin Hle; [simpl; by rewrite app_nil_r|].
    cbn [foldl omap list_omap fst snd]. rewrite longest_of_matchers. destruct (any_match ms role); simpl.
    - rewrite (cons_middle d seen), app_assoc. apply IH.
      + destruct (Z.ltb_spec acc d); lia.
      + destruct (Z.ltb_spec acc d); rewrite elem_of_app, list_elem_of_singleton; naive_solver.
      + intros x [Hx| ->%list_elem_of_singleton]%elem_of_app; [apply Hle in Hx|]; destruct (Z.ltb_spec acc d); lia.
    - by apply IH. }
  specialize (Hgen 0 []). simpl in Hgen. apply Hgen; [lia|by left|]. by intros d ?%not_elem_of_nil.
Qed.

Lemma least_duration_step roles role : least_duration m (roles ++ [role]) =
  if (least_duration m roles =? 0) || (maxDurationForRole m role <? least_duration m roles)
  then maxDurationForRole m role else least_duration m roles.
Proof. unfold least_duration. by rewrite foldl_app. Qed.

Lemma least_duration_stated roles :
  least_duration m roles = 0 \/ exists role, role ∈ roles /\ least_duration m roles = maxDurationForRole m role.
Proof.
  induction roles as [|role roles IH] using rev_ind; [by left|]. rewrite least_duration_step. setoid_rewrite elem_of_app.
  destruct (_ || _); [right; exists role; split; [right; by apply list_elem_of_singleton|done]|].
  destruct IH as [?|(r & Hr & E)]; [by left|right; exists r; split; [by left|done]].
Qed.

(** The least of the durations, when every role has one. *)
Lemma least_duration_least roles : (forall role, role ∈ roles -> 0 < maxDurationForRole m role) ->
  forall role, role ∈ roles -> 0 < least_duration m roles <= maxDurationForRole m role.
Proof.
  induction roles as [|role roles IH] using rev_ind; [by intros _ role ?%not_elem_of_nil|]. rewrite least_duration_step.
  setoid_rewrite elem_of_app. setoid_rewrite list_elem_of_singleton. intros Hpos.
  pose proof (Hpos role (or_intror eq_refl)) as Hrole. specialize (IH (fun r Hr => Hpos r (or_introl Hr))).
  destruct roles as [|r0 roles]; [simpl; intros x [?%not_elem_of_nil| ->]; [done|lia]|].
  pose proof (IH r0 ltac:(by left)) as H0. intros x [Hx| ->]; [specialize (IH x Hx)|];
    destruct (Z.eqb_spec (least_duration m (r0 :: roles)) 0); simpl; try lia; case_match; lia.
Qed.

(** What a request may be granted: its requested duration, or what the
    directives of its roles state. *)
Lemma max_duration_ok req ttl d : calculateMaxAccessDuration m req ttl = Ok d ->
  let requested := Sub (ars_MaxDuration (ar_Spec req)) (GetCreationTime req) in
  (ars_DryRun (ar_Spec req) = false -> time_IsZero (ars_MaxDuration (ar_Spec req)) = false ->
     0 <= requested <= MaxAccessDuration /\ d <= requested) /\
  (0 < d -> d < ttl \/
     exists role, role ∈ GetRoles req /\ d <= maxDurationForRole m role /\
       ((forall r, r ∈ GetRoles req -> 0 < maxDurationForRole m r) -> forall r, r ∈ GetRoles req -> d <= maxDurationForRole m r)).
Proof.
  unfold calculateMaxAccessDuration. set (req_max := ars_MaxDuration _). set (dry := ars_DryRun _). intros E. cbv zeta.
  apply fail_if_ok in E as [H1 E]. apply fail_if_ok in E as [H2 E]. injection E as E.
  set (maxd := if dry then _ else _) in *. set (least := least_duration m (GetRoles req)) in *.
  set (adj := if negb (time_IsZero req_max) && (maxd <? least) then maxd else least) in *. split.
  - intros Hd Hz. assert (Hmax : maxd = Sub req_max (GetCreationTime req)) by (unfold maxd; by rewrite Hd).
    assert (adj <= maxd) by (unfold adj; rewrite Hz; simpl; destruct (Z.ltb_spec maxd least); lia).
    rewrite Hd, Hz in H1. simpl in H1. apply Z.ltb_ge in H1, H2. rewrite <- Hmax in H1 |- *. clearbody adj maxd.
    split; [lia|]. subst d. destruct ((adj =? 0) && (maxd <? ttl)); lia.
  - intros Hpos. destruct ((adj =? 0) && (maxd <? ttl)) eqn:C; [bool_to_prop; left; lia|right].
    assert (d <= least) as Hle by (subst d; unfold adj; destruct (Z.ltb_spec maxd least), (time_IsZero req_max); simpl; lia).
    destruct (least_duration_stated (GetRoles req)) as [Hz|(role & Hr & Hl)]; [fold least in Hz; lia|].
    exists role. split; [done|]. split; [rewrite <- Hl; done|]. intros Hall r Hin.
    pose proof (least_duration_least (GetRoles req) Hall r Hin) as Hx. fold least in Hx. lia.
Qed.

Lemma truncate_roles_ok roles : forall ttl ttl', truncate_roles getRole roles ttl = Ok ttl' -> 0 < ttl ->
  0 < ttl' <= ttl /\ forall name role, name ∈ roles -> getRole name = Ok role -> 0 < ro_MaxSessionTTL (GetOptions role) ->
    ttl' <= ro_MaxSessionTTL (GetOptions role).
Proof.
  induction roles as [|name roles IH]; intros ttl ttl' E Hp; simpl in E.
  { injection E as <-. split; [lia|]. by intros name role ?%not_elem_of_nil. }
  apply rbind_ok in E as (role & Hg & E). set (r := ro_MaxSessionTTL (GetOptions role)) in *.
  set (t1 := if (0 <? r) && (r <? ttl) then r else ttl) in E.
  assert (0 < t1 <= ttl /\ (0 < r -> t1 <= r)) as [Hx Hy] by (unfold t1; destruct (Z.ltb_spec 0 r), (Z.ltb_spec r ttl); simpl; lia).
  clearbody t1. apply IH in E as [Hb Hr]; [|lia].
  split; [lia|]. intros nm ro [-> |Hin]%elem_of_cons Hg' Hpos; [|by eapply Hr].
  rewrite Hg in Hg'. injection Hg' as <-. fold r in Hpos |- *. specialize (Hy Hpos). lia.
Qed.

(** The lifetime of the certificate a request would be granted. *)
Definition within_session (identity : RequestIdentity) (roles : list string) (now : time) (ttl : duration) : Prop :=
  0 < ttl <= MaxCertDuration /\
  (0 < Sub (ri_Expires identity) now -> ttl <= Sub (ri_Expires identity) now) /\
  forall name role, name ∈ roles -> getRole name = Ok role -> 0 < ro_MaxSessionTTL (GetOptions role) ->
    ttl <= ro_MaxSessionTTL (GetOptions role).

Lemma request_sessionTTL_ok identity req now ttl : request_sessionTTL getRole identity req now = Ok ttl ->
  within_session identity (GetRoles req) now ttl.
Proof.
  unfold request_sessionTTL. intros E. apply rbind_ok in E as (ttl' & E & Hx). apply fail_if_ok in Hx as [_ [= ->]].
  apply rmap_err_ok in E. unfold truncateTTL in E. set (t1 := if _ && _ then Sub (ri_Expires identity) now else _) in E.
  set (t2 := if _ && _ then _ else t1) in E.
  assert (H1 : 0 < t1 <= MaxCertDuration /\ (0 < Sub (ri_Expires identity) now -> t1 <= Sub (ri_Expires identity) now)).
  { subst t1. destruct (Z.ltb_spec 0 (Sub (ri_Expires identity) now)), (Z.ltb_spec (Sub (ri_Expires identity) now) MaxCertDuration);
      simpl; try lia; unfold MaxCertDuration, Hour, Minute, Second in *; lia. }
  assert (H2 : 0 < t2 <= t1) by (subst t2; case_match; bool_to_prop; lia).
  apply truncate_roles_ok in E as [Hb Hr]; [|lia]. destruct H1 as [H1 H1']. split; [lia|]. split; [|done].
  intros Hp. specialize (H1' Hp). lia.
Qed.

Lemma pending_ttl_ok r now d : calculatePendingRequestTTL r now = Ok d -> now <= GetAccessExpiry r ->
  0 <= d <= requestTTL /\ now + d <= GetAccessExpiry r.
Proof.
  unfold calculatePendingRequestTTL, Sub. intros E Ha. apply fail_if_ok in E as [H1 E]. apply fail_if_ok in E as [H2 E].
  apply fail_if_ok in E as [H3 E]. injection E as <-. apply Z.ltb_ge in H1.
  assert (0 < requestTTL < 2 ^ 62) by (unfold requestTTL, day, Hour, Minute, Second; lia).
  destruct (time_IsZero (Expiry r)); simpl in *.
  - destruct (Z.ltb_spec requestTTL (Z.max (- 2 ^ 63) (Z.min (2 ^ 63 - 1) (GetAccessExpiry r - now)))); lia.
  - apply Z.ltb_ge in H2, H3. lia.
Qed.

End Times.

(** *** What a validated request is *)

(** The times a validated request has: its access within the certificate or
    within what its roles state, its wait for reviews within both a week and
    its access. *)
Record timed `{RegexpEngine} (getRole : string -> result RoleV6) (m : RequestValidator) (identity : RequestIdentity) (now : time)
    (asked r : AccessRequestV3) : Prop := {
  ti_access : exists ttl granted, within_session getRole identity (GetRoles r) now ttl /\ 0 < granted /\
    GetAccessExpiry r = now + granted /\ ars_MaxDuration (ar_Spec r) = now + granted /\
    ars_SessionTTL (ar_Spec r) = now + Z.min ttl granted /\
    (granted <= ttl \/ exists role, role ∈ GetRoles r /\ granted <= maxDurationForRole m role) /\
    (granted <= ttl \/ ((forall role, role ∈ GetRoles r -> 0 < maxDurationForRole m role) ->
       forall role, role ∈ GetRoles r -> granted <= maxDurationForRole m role)) /\
    let requested := Sub (ars_MaxDuration (ar_Spec asked)) (GetCreationTime asked) in
    (ars_DryRun (ar_Spec asked) = false -> time_IsZero (ars_MaxDuration (ar_Spec asked)) = false ->
     granted <= requested \/ granted <= ttl);
  ti_pending : now <= Expiry r <= GetAccessExpiry r /\ Expiry r <= now + requestTTL;
  ti_start start : ars_AssumeStartTime (ar_Spec r) = Some start -> GetCreationTime r <= start < GetAccessExpiry r;
}.

(** The fields the times leave alone. *)
Definition untimed (r r' : AccessRequestV3) : Prop :=
  GetUser r' = GetUser r /\ GetRoles r' = GetRoles r /\ GetState r' = GetState r /\ GetReviews r' = GetReviews r /\
  GetThresholds r' = GetThresholds r /\ GetRoleThresholdMapping r' = GetRoleThresholdMapping r /\
  ars_SystemAnnotations (ar_Spec r') = ars_SystemAnnotations (ar_Spec r) /\
  GetAllRequestedResourceIDs r' = GetAllRequestedResourceIDs r /\ ars_DryRun (ar_Spec r') = ars_DryRun (ar_Spec r) /\
  GetCreationTime r' = GetCreationTime r.

Lemma set_times_ok `{RegexpEngine} getRole m identity now req r : set_times getRole m identity now req = Ok r ->
  timed getRole m identity now req r /\ untimed req r.
Proof.
  unfold set_times. intros E. apply rbind_ok in E as (ttl & Httl & E). apply rbind_ok in E as (d & Hd & E).
  apply request_sessionTTL_ok in Httl. apply max_duration_ok in Hd as [Hreq Hd].
  set (granted := if 0 <? d then d else ttl) in *.
  assert (Hpair : (if 0 <? d then (SetSessionTLL (now + Z.min ttl d) req, d) else (SetSessionTLL (now + ttl) req, ttl)) =
                  (SetSessionTLL (now + Z.min ttl granted) req, granted)).
  { unfold granted. destruct (0 <? d); [done|]. by rewrite Z.min_id. }
  rewrite Hpair in E. clear Hpair. set (req1 := SetSessionTLL _ req) in E. cbv zeta in E.
  apply rbind_ok in E as (pend & Hp & E). set (req2 := SetAccessExpiry _ _) in Hp, E.
  assert (Hg : 0 < granted) by (destruct Httl as [? _]; unfold granted; destruct (Z.ltb_spec 0 d); lia).
  apply pending_ttl_ok in Hp as [Hp1 Hp2]; [|change (GetAccessExpiry req2) with (now + granted); lia]. change (GetAccessExpiry req2) with (now + granted) in Hp2.
  assert (Hr : r = SetExpiry (now + pend) req2 /\
    forall start, ars_AssumeStartTime (ar_Spec req) = Some start -> GetCreationTime req <= start < now + granted).
  { change (ars_AssumeStartTime (ar_Spec (SetExpiry (now + pend) req2))) with (ars_AssumeStartTime (ar_Spec req)) in E.
    destruct (ars_AssumeStartTime (ar_Spec req)) as [start|]; [|by injection E as <-].
    apply rbind_ok in E as ([] & Hs & [= <-]). split; [done|]. intros start' [= <-]. unfold ValidateAssumeStartTime in Hs.
    apply fail_if_ok in Hs as [H1 Hs]. apply fail_if_ok in Hs as [H2 _]. apply orb_false_iff in H2 as [H2 H3].
    change (GetCreationTime (SetExpiry (now + pend) req2)) with (GetCreationTime req) in H1. lia. }
  destruct Hr as [-> Hstart]. split; [|by repeat split]. split.
  - exists ttl, granted. split; [done|]. split; [done|]. split_and!; try done.
    + unfold granted. destruct (Z.ltb_spec 0 d) as [Hpos|]; [|by left]. destruct (Hd Hpos) as [?|(role & Hr & Hle & _)]; [left; lia|].
      right. by exists role.
    + unfold granted. destruct (Z.ltb_spec 0 d) as [Hpos|]; [|by left]. destruct (Hd Hpos) as [?|(role & Hr & Hle & Hall)]; [left; lia|].
      right. exact Hall.
    + intros requested Hdry Hz. unfold granted. destruct (Hreq Hdry Hz) as [_ Hle]. destruct (0 <? d); [by left|by right].
  - change (Expiry (SetExpiry (now + pend) req2)) with (now + pend).
    change (GetAccessExpiry (SetExpiry (now + pend) req2)) with (now + granted). lia.
  - intros start Hs. by apply Hstart.
Qed.

Section Validated.
Context `{UnicodeTables} `{RegexpCache} `{MatcherCalls} `{TraitsTemplates} `{MapOrder (list string)} `{MapOrder unit}.
Context `{LabelExpressions} `{Environment} `{ResourceDocuments} `{GroupKinds} `{!AnnotationOrder}.
Variable g : RequestValidatorGetter.

(** What depends on the policy of a validator alone. *)
Lemma collect_mapping_policy m m' : thresholdMatchers m' = thresholdMatchers m -> forall roles c rtm,
  collect_mapping m' roles c rtm = collect_mapping m roles c rtm.
Proof.
  intros Ht. induction roles as [|role roles IH]; intros c rtm; simpl; [done|]. unfold collectSetsForRole. rewrite Ht.
  destruct (sets_for_role _ _ _) as [[c1 sets]|]; simpl; [|done]. case_bool_decide; simpl; [done|apply IH].
Qed.

Lemma set_times_policy m m' getRole identity now req : maxDurationMatchers m' = maxDurationMatchers m ->
  set_times getRole m' identity now req = set_times getRole m identity now req.
Proof. intros Hd. unfold set_times, calculateMaxAccessDuration, least_duration, maxDurationForRole. by rewrite Hd. Qed.

Lemma systemAnnotations_policy m m' req : annotations_allow m' = annotations_allow m -> annotations_deny m' = annotations_deny m ->
  systemAnnotations m' req = systemAnnotations m req.
Proof. intros Ha Hd. unfold systemAnnotations. by rewrite Ha, Hd. Qed.

(** A request that was expanded: its thresholds and mapping are what the
    directives ask for its roles, its annotations and times are set, and the
    rest of it is as before. *)
Record expanded_from (m : RequestValidator) (identity : RequestIdentity) (now : time) (req r : AccessRequestV3) : Prop := {
  ex_mapping : collect_mapping m (GetRoles r) [] ∅ = Ok (GetThresholds r, GetRoleThresholdMapping r);
  ex_annotations : ars_SystemAnnotations (ar_Spec r) = systemAnnotations m r;
  ex_times : timed (g_GetRole g) m identity now req r;
  ex_user : GetUser r = GetUser req;
  ex_state : GetState r = GetState req;
  ex_reviews : GetReviews r = GetReviews req;
}.

Lemma deduplicate_keeps req : let req' := deduplicateRequestedResources req in
  GetUser req' = GetUser req /\ GetRoles req' = GetRoles req /\ GetState req' = GetState req /\ GetReviews req' = GetReviews req /\
  ars_MaxDuration (ar_Spec req') = ars_MaxDuration (ar_Spec req) /\ GetCreationTime req' = GetCreationTime req /\
  ars_DryRun (ar_Spec req') = ars_DryRun (ar_Spec req).
Proof. unfold deduplicateRequestedResources. destruct (unseen _ _ _) as [ids seen]. by destruct (unseen _ _ _). Qed.

Lemma deduplicate_none req : GetAllRequestedResourceIDs req = [] -> GetAllRequestedResourceIDs (deduplicateRequestedResources req) = [].
Proof.
  unfold GetAllRequestedResourceIDs at 1. intros [Hids%fmap_nil_inv Haccess]%app_eq_nil.
  unfold deduplicateRequestedResources, GetRequestedResourceAccessIDs, GetRequestedResourceIDs. by rewrite Haccess, Hids.
Qed.

Lemma setRoles_ok req m m' r : setRolesForResourceRequest g req m = (m', Ok r) ->
  r = SetRoles (GetRoles r) req /\ (GetRoles r = GetRoles req \/
    (GetRoles req = [] /\ GetAllRequestedResourceIDs req <> [] /\
     applicableSearchAsRoles g (GetAllRequestedResourceIDs req) (ars_LoginHint (ar_Spec req)) m = (m', Ok (GetRoles r)))).
Proof.
  unfold setRolesForResourceRequest. intros E.
  assert (Hsame : req = SetRoles (GetRoles req) req) by by destruct req as [? ? ? ? []].
  destruct (negb _); [injection E as <- <-; auto|]. destruct (IsLongTerm _); [injection E as <- <-; auto|].
  case_bool_decide as Hlen; [injection E as <- <-; auto|]. case_bool_decide as Hroles; [injection E as <- <-; auto|].
  apply mthen_ok in E as (m1 & roles & Ha & [= <- <-]). split; [done|right]. split; [|split].
  - by destruct (GetRoles req); [|simpl in Hroles; lia].
  - intros Hnil. by rewrite Hnil in Hlen.
  - done.
Qed.

Lemma expand_request_ok identity now req m m' r : expand_request g identity now req m = (m', Ok r) ->
  exists roles, (roles = GetRoles req \/
    (GetRoles req = [] /\ GetAllRequestedResourceIDs req <> [] /\
     exists m1 ids hint, applicableSearchAsRoles g ids hint m = (m1, Ok roles))) /\
    GetRoles r = roles /\ expanded_from m identity now req r /\ same_policy m m' /\ ars_DryRun (ar_Spec r) = ars_DryRun (ar_Spec req).
Proof.
  unfold expand_request. intros E. destruct (deduplicate_keeps req) as (Ku & Kr & Ks & Kv & Km & Kc & Kd).
  set (req0 := deduplicateRequestedResources req) in *. inv_mok.
  match goal with H : setRolesForResourceRequest g req0 m = (?m1, Ok ?x) |- _ => rename H into Hset, m1 into m1, x into req1 end.
  pose proof (setRoles_keeps g req0 _ _ _ Hset) as Hpol. apply setRoles_ok in Hset as [E1 Hroles].
  destruct (same_policy_kept _ _ Hpol) as [_ _ _ _ _ _ Pt Pd Pa Pde]. injection E as <- E.
  apply rbind_ok in E as ([c rtm] & Hmap & E). rewrite (collect_mapping_policy _ _ Pt) in Hmap. rewrite (set_times_policy _ _ _ _ _ _ Pd) in E.
  rewrite (systemAnnotations_policy _ _ _ Pa Pde) in E.
  set (req2 := SetRoleThresholdMapping rtm (SetThresholds c req1)) in E. cbv zeta in E.
  set (req3 := SetSystemAnnotations (systemAnnotations m req2) req2) in E.
  set (req4 := if bool_decide _ then _ else req3) in E.
  assert (Kreq : untimed req3 req4 /\ ars_MaxDuration (ar_Spec req4) = ars_MaxDuration (ar_Spec req3)).
  { unfold req4. case_bool_decide; by repeat split. }
  destruct Kreq as [(K1 & K2 & K3 & K4 & K5 & K6 & K7 & K8 & K9 & K10) K11].
  apply set_times_ok in E as [Ht (U1 & U2 & U3 & U4 & U5 & U6 & U7 & U8 & U9 & U10)].
  assert (F : GetUser req1 = GetUser req0 /\ GetState req1 = GetState req0 /\ GetReviews req1 = GetReviews req0 /\
    ars_MaxDuration (ar_Spec req1) = ars_MaxDuration (ar_Spec req0) /\ GetCreationTime req1 = GetCreationTime req0 /\
    ars_DryRun (ar_Spec req1) = ars_DryRun (ar_Spec req0)) by (rewrite E1; by repeat split).
  destruct F as (F1 & F2 & F3 & F4 & F5 & F6).
  exists (GetRoles req1). split_and!.
  - rewrite <- Kr. destruct Hroles as [|(? & Hids & ?)]; [by left|right]. split; [done|]. split; [|eauto].
    intros Hnil. by apply Hids, deduplicate_none.
  - rewrite U2, K2. done.
  - split.
    + rewrite U2, K2, U5, K5, U6, K6. exact Hmap.
    + rewrite U7, K7. unfold req3. cbn. unfold systemAnnotations, matchesRequest. rewrite U8, K8, U2, K2. done.
    + destruct Ht as [Ta Tp Ts]. split; [|done|done]. rewrite K11, K10, K9 in Ta. rewrite <- Km, <- Kc, <- Kd, <- F4, <- F5, <- F6. exact Ta.
    + rewrite U1, K1, <- Ku. exact F1.
    + rewrite U3, K3, <- Ks. exact F2.
    + rewrite U4, K4, <- Kv. exact F3.
  - done.
  - rewrite U9, K9, <- Kd. exact F6.
Qed.

Lemma expanded_policy m m' identity now req r : same_policy m m' -> expanded_from m' identity now req r ->
  expanded_from m identity now req r.
Proof.
  intros [_ _ _ _ _ _ Pt Pd Pa Pde]%same_policy_kept [Hm Ha [Ht Hp Hs] Hu Hst Hr].
  split; try done; [by rewrite <- (collect_mapping_policy _ _ Pt)|by rewrite <- (systemAnnotations_policy _ _ _ Pa Pde)|].
  split; [|done|done]. unfold maxDurationForRole in *. by rewrite Pd in Ht.
Qed.

Lemma expand_wildcard_ok identity req m r : expand_wildcard g identity req m = Ok r ->
  r = SetRoles (GetRoles r) req /\ ((GetRoles r = GetRoles req /\ GetRoles req <> [Wildcard]) \/
    (GetRoles req = [Wildcard] /\ expandVars m = true /\ IsPending (GetState req) = true /\
     GetRoles r <> [] /\ getRequestableRoles g m identity [] "" = Ok (GetRoles r))).
Proof.
  unfold expand_wildcard. intros E. case_bool_decide as Hw.
  - apply fail_if_ok in E as [Hs1 E]. apply fail_if_ok in E as [Hs2 E]. apply rbind_ok in E as (roles & Hr & E).
    apply fail_if_ok in E as [Hs3 [= <-]]. apply negb_false_iff in Hs1, Hs2. bool_to_prop. split; [done|by right].
  - injection E as <-. split; [by destruct req as [? ? ? ? []]|by left].
Qed.

Lemma check_roles_ok req ids m : check_roles req ids m = Ok tt ->
  forall role, role ∈ GetRoles req -> permitted m (bool_decide (0 < length ids)%nat) role = true.
Proof.
  unfold check_roles. destruct (find _ _) as [x|] eqn:F; [done|]. intros _ role Hr.
  pose proof (find_none _ _ F role (proj1 (list_elem_of_In _ _) Hr)) as Hn. by apply negb_false_iff in Hn.
Qed.

(** What a validation that succeeds has checked, and what it returns. *)
Lemma validate_ok identity now req m m' r : validate g identity now req m = (m', Ok r) ->
  us_Name (userState m) = GetUser req /\
  exists req1, expand_wildcard g identity req m = Ok req1 /\
    (forall role, role ∈ GetRoles req1 ->
       permitted m (bool_decide (0 < length (GetAllRequestedResourceIDs req1))%nat) role = true) /\
    if expandVars m then
      (GetRoles r = GetRoles req1 \/ (GetRoles req1 = [] /\ GetAllRequestedResourceIDs req1 <> [] /\ exists m1 m2 ids hint,
         same_policy m m1 /\ applicableSearchAsRoles g ids hint m1 = (m2, Ok (GetRoles r)))) /\
      expanded_from m identity now req1 r
    else untimed req1 r /\ GetAccessExpiry r = GetAccessExpiry req1 /\
         ars_AssumeStartTime (ar_Spec r) = ars_AssumeStartTime (ar_Spec req1).
Proof.
  unfold validate. intros E. apply deny_if_ok in E as [Hu E]. apply deny_if_ok in E as [_ E]. bool_to_prop. split; [done|].
  apply mthen_ok in E as (m0 & req1 & Hw & E). apply mlift_ok in Hw as [-> Hw]. exists req1. split; [done|].
  apply mthen_ok in E as (m1 & [] & Hs1 & E). apply mthen_ok in E as (m2 & [] & Hs2 & E). injection Hs2 as <-.
  apply mthen_ok in E as (m3 & prompts & Hs3 & E). injection Hs3 as <- _. apply mthen_ok in E as (m3 & mode & Hs4 & E).
  apply mthen_ok in E as (m4 & [] & Hs5 & E). apply mlift_ok in Hs5 as [-> Hs5]. apply mthen_ok in E as (m5 & [] & Hs6 & E).
  apply mthen_ok in E as (m6 & req2 & Hs7 & E). injection E as <- E. split; [by apply check_roles_ok|].
  assert (Hpol : same_policy m m5).
  { apply populate_keeps in Hs1. apply check_reason_keeps in Hs4. apply check_kinds_keeps in Hs6.
    etrans; [exact Hs1|]. etrans; [|exact Hs6]. etrans; [|exact Hs4]. apply same_policy_prompts. }
  destruct (expandVars m).
  - apply expand_request_ok in Hs7 as (roles & Hroles & Hr & He & _ & _). apply (expanded_policy _ _ _ _ _ _ Hpol) in He.
    assert (Hfin : GetRoles r = GetRoles req2 /\ expanded_from m identity now req1 r).
    { rewrite <- E. destruct (ars_DryRun _); [|done]. split; [done|]. destruct He as [Em Ea [Ta Tp Ts] Eu Es Er].
      split; [exact Em|exact Ea|by split|exact Eu|exact Es|exact Er]. }
    destruct Hfin as [Hf1 Hf2]. split; [|done]. rewrite Hf1, Hr. destruct Hroles as [|(Hn & Hids & m7 & ids & hint & Ha)]; [by left|].
    right. split; [done|]. split; [done|]. by exists m5, m7, ids, hint.
  - injection Hs7 as _ <-. rewrite <- E. destruct (ars_DryRun _); by repeat split.
Qed.
End Validated.

(** *** The roles of a validated request *)

(** A role is found under its name, and its templates leave the name alone. *)
Class NamedRoles `{RegexpEngine} (g : RequestValidatorGetter) : Prop := {
  found_under_name name r : g_GetRole g name = Ok r -> GetName r = name;
  expansion_keeps_name username ts r r' : g_ApplyTraits g username ts r = Ok r' -> GetName r' = GetName r;
}.

Section Permits.
Context `{UnicodeTables} `{RegexpCache} `{MatcherCalls} `{TraitsTemplates} `{MapOrder (list string)} `{MapOrderLaws unit}.
Context `{LabelExpressions} `{Environment} `{ResourceDocuments} `{GroupKinds} `{!AnnotationOrder}.
Variable g : RequestValidatorGetter.

Lemma prune_kinds_among kinds roles role : forall good mapped m m' l mapped',
  prune_kinds kinds roles good mapped m = (m', (l, mapped')) -> role ∈ l -> role ∈ roles \/ is_Some (good !! role).
Proof.
  assert (Hinsert : forall (good : gmap string unit) x rest, role ∈ rest \/ is_Some (<[x := tt]> good !! role) ->
    role ∈ x :: rest \/ is_Some (good !! role)).
  { intros good x rest [Hr|Hr]; [left; by right|]. destruct (decide (x = role)) as [->|]; [left; by left|].
    rewrite lookup_insert_ne in Hr by done. by right. }
  induction roles as [|x roles IH]; intros good mapped m m' l mapped' E Hin; cbn [prune_kinds] in E.
  - injection E as _ <- _. right. apply list_elem_of_fmap in Hin as ([k []] & -> & Hk).
    rewrite range_permutation, elem_of_map_to_list in Hk. by eexists.
  - destruct (_ && _); [by eapply Hinsert, IH|]. destruct (undenied_kinds m x) as [allowed m1].
    destruct (negb _); [eapply IH in E as [?|?]; [left; by right|by right|done]|].
    destruct (existsb _ _); [|by eapply Hinsert, IH]. injection E as _ <- _. by apply not_elem_of_nil in Hin.
Qed.

Lemma prune_among ids roles m m' l mapped role :
  pruneRequestedRolesNotMatchingKubernetesResourceKinds ids roles m = (m', Ok (l, mapped)) -> role ∈ l -> role ∈ roles.
Proof.
  unfold pruneRequestedRolesNotMatchingKubernetesResourceKinds. case_bool_decide; [by intros [= _ <- _]|].
  destruct (prune_kinds _ _ _ _ m) as [m1 [l1 mapped1]] eqn:E. intros [= _ <- _] Hin.
  eapply prune_kinds_among in E as [?|Hr]; [done| |done]. rewrite lookup_empty in Hr. by destruct Hr.
Qed.

(** The choice among the roles that grant the resources gives some of them, or
    the implicit role, which every set of roles ends with. *)
Lemma fetched_among `{!NamedRoles g} roles username ts : forall l, FetchRoleListWithContext (g_GetRole g) (g_ApplyTraits g) roles username ts = Ok l ->
  forall role, role ∈ l -> GetName role ∈ roles.
Proof.
  induction roles as [|n roles IH]; intros l E role Hin; simpl in E; [by injection E as <-; apply not_elem_of_nil in Hin|].
  apply rbind_ok in E as (r0 & Hg & E). apply rbind_ok in E as (r1 & Ha & E). apply rbind_ok in E as (rest & Hr & [= <-]).
  apply elem_of_cons in Hin as [->|Hin]; [|right; by eapply IH].
  apply elem_of_cons. left. by rewrite (expansion_keeps_name _ _ _ _ Ha), (found_under_name _ _ Hg).
Qed.

Lemma role_set_among roles role : role ∈ NewRoleSet roles -> role ∈ roles \/ role = NewImplicitRole.
Proof.
  unfold NewRoleSet. intros Hin. assert (role ∈ roles ++ [NewImplicitRole] \/ role ∈ roles) as [[?| ->%list_elem_of_singleton]%elem_of_app|?];
    [|by left|by right|by left]. destruct roles as [|r [|r' roles]]; [by left| |by left]. case_bool_decide; [by right|by left].
Qed.

Lemma for_resource_among u resource hint matchers kube roles : forall unmatched l unmatched',
  roles_for_resource u resource hint matchers kube unmatched roles = Ok (l, unmatched') -> forall role, role ∈ l -> role ∈ roles.
Proof.
  induction roles as [|r roles IH]; intros unmatched l unmatched' E role Hin; simpl in E; [by injection E as <- <-|].
  apply rbind_ok in E as (allows & _ & E). apply rbind_ok in E as ([rest un] & Hr & E). injection E as <- <-.
  destruct allows; [apply elem_of_cons in Hin as [->|Hin]; [by left|]|]; right; by eapply IH.
Qed.

Lemma fewestLogins_among roles role : role ∈ fewestLogins roles -> role ∈ roles.
Proof.
  unfold fewestLogins. destruct roles as [|first rest]; [done|]. intros ->%list_elem_of_singleton.
  assert (forall acc, acc ∈ first :: rest -> forall l, (forall x, x ∈ l -> x ∈ first :: rest) ->
    foldl (fun fewest role => if bool_decide (countAllowedLogins role < countAllowedLogins first)%nat then role else fewest) acc l
      ∈ first :: rest) as Hf.
  { intros acc Hacc l. revert acc Hacc. induction l as [|x l IH]; intros acc Hacc Hl; simpl; [done|].
    apply IH; [case_match; [apply Hl; by left|done]|]. intros y Hy. apply Hl. by right. }
  apply Hf; [by left|]. intros x Hx. by right.
Qed.

Lemma necessary_among u ids hint roles all resources : forall acc l, necessary_roles u ids hint roles all acc resources = Ok l ->
  forall n, is_Some (l !! n) -> is_Some (acc !! n) \/ exists role, role ∈ all /\ GetName role = n.
Proof.
  induction resources as [|resource resources IH]; intros acc l E n Hn; simpl in E; [injection E as <-; by left|].
  apply rbind_ok in E as (kube & _ & E). apply rbind_ok in E as (matchers & _ & E). apply rbind_ok in E as ([rs un] & Hrs & E).
  destruct (_ && _); [by destruct (ResourceIDsToString _)|]. set (chosen := if bool_decide (hint = "") then rs else fewestLogins rs) in E.
  assert (Hch : forall role, role ∈ chosen -> role ∈ all).
  { intros role Hr. eapply for_resource_among; [exact Hrs|]. unfold chosen in Hr. case_match; [done|by apply fewestLogins_among]. }
  clearbody chosen. apply (IH _ _ E) in Hn as [Hn|?]; [|by right]. clear IH E Hrs. revert acc Hn Hch.
  induction chosen as [|role chosen IH]; intros acc Hn Hch; simpl in Hn; [by left|]. apply IH in Hn as [Hn|?]; [|by right|].
  - destruct (decide (GetName role = n)) as [<-|Hne]; [right; exists role; split; [apply Hch; by left|done]|].
    rewrite lookup_insert_ne in Hn by done. by left.
  - intros x Hx. apply Hch. by right.
Qed.

Lemma prune_to_necessary_among `{!NamedRoles g} u ids hint roles l role : prune_to_necessary g u ids hint roles = Ok l -> role ∈ l ->
  role ∈ roles \/ role = DefaultImplicitRole.
Proof.
  unfold prune_to_necessary. intros E Hin. apply rbind_ok in E as (local & _ & E). destruct (existsb _ _); [injection E as <-; by left|].
  apply rbind_ok in E as (all & Hall & E). apply rbind_ok in E as (resources & _ & E). apply rbind_ok in E as (necessary & Hn & E).
  case_bool_decide; [by destruct (ResourceIDsToString _)|]. injection E as <-. apply list_elem_of_fmap in Hin as ([n []] & -> & Hk).
  rewrite range_permutation, elem_of_map_to_list in Hk. apply mk_is_Some, (necessary_among _ _ _ _ _ _ _ _ Hn) in Hk as [Hk|(r & Hr & <-)]; [|].
  { rewrite lookup_empty in Hk. by destruct Hk. }
  unfold FetchRolesWithContext in Hall. apply rbind_ok in Hall as (fetched & Hf & [= <-]).
  apply role_set_among in Hr as [Hr| ->]; [left|by right]. by eapply fetched_among.
Qed.

Lemma applicable_among `{!NamedRoles g} ids hint m m' l role :
  applicableSearchAsRoles g ids hint m = (m', Ok l) -> role ∈ l -> canSearchAsRole m role = true \/ role = DefaultImplicitRole.
Proof.
  unfold applicableSearchAsRoles, allowedSearchAsRoles. intros E Hin. apply mthen_ok in E as (m1 & roles & Ha & E).
  apply mlift_ok in Ha as [-> Ha]. apply fail_if_ok in Ha as [_ [= <-]].
  assert (role ∈ List.filter (canSearchAsRole m) (allowSearch m) \/ role = DefaultImplicitRole) as [Hf|]; [|left|by right].
  { unfold pruneResourceRequestRoles in E. case_bool_decide; [injection E as _ <-; by left|].
    apply mthen_ok in E as (m1 & [roles mapped] & Hp & E). apply deny_if_ok in E as [_ E]. injection E as _ E.
    eapply prune_to_necessary_among in E as [Hr|?]; [|by right|done]. left. by eapply prune_among. }
  by apply list_elem_of_In, filter_In in Hf as [_ Hf].
Qed.

Lemma requestable_nil m hint roles l : requestable_roles m hint [] roles = Ok l ->
  forall n, n ∈ l <-> CanRequestRole m n = true /\ (n ∉ us_Roles (userState m)) /\ (exists role, role ∈ roles /\ GetName role = n).
Proof.
  revert l. induction roles as [|role roles IH]; intros l E n; simpl in E.
  { injection E as <-. split; [by intros ?%not_elem_of_nil|by intros (_ & _ & role & ?%not_elem_of_nil & _)]. }
  rewrite exists_cons. destruct (slices_Contains _ _) eqn:Hheld; simpl in E.
  { apply slices_Contains_true in Hheld. rewrite (IH _ E). split; [by intros (? & ? & ?); split_and!; [..|right]|].
    intros (Hc & Hn & [<-|Hx]); [done|by split_and!]. }
  apply slices_Contains_false in Hheld. destruct (CanRequestRole m (GetName role)) eqn:Hc; simpl in E.
  - apply rbind_ok in E as (rest & E & [= <-]). rewrite elem_of_cons, (IH _ E). split.
    + intros [->|(? & ? & ?)]; split_and!; try done; [by left|by right].
    + intros (? & ? & [<-|Hx]); [by left|right; by split_and!].
  - rewrite (IH _ E). split; [by intros (? & ? & ?); split_and!; [..|right]|].
    intros (Hn & Hh & [<-|Hx]); [congruence|by split_and!].
Qed.

Lemma requestable_ok m identity l : getRequestableRoles g m identity [] "" = Ok l ->
  exists roles, g_GetRoles g = Ok roles /\
    forall n, n ∈ l <-> CanRequestRole m n = true /\ (n ∉ us_Roles (userState m)) /\ (exists role, role ∈ roles /\ GetName role = n).
Proof.
  unfold getRequestableRoles. intros E. apply rbind_ok in E as (roles & Hr & E). apply rbind_ok in E as (res & Hu & E).
  injection Hu as <-. apply rbind_ok in E as (cluster & _ & E). apply rbind_ok in E as (a & _ & E). apply rbind_ok in E as (vis & Hv & E).
  injection Hv as <-. exists roles. split; [done|]. exact (requestable_nil _ _ _ _ E).
Qed.

Lemma new_validator_user getRole u expand m : NewRequestValidatorForUser getRole u expand = Ok m ->
  userState m = u /\ expandVars m = expand.
Proof. intros (ds & _ & Hp)%new_validator_ok. by rewrite (pu_user _ _ _ Hp), (pu_expand _ _ _ Hp). Qed.

(** Every role of a validated request is one the directives of the user's roles
    permit, and a wildcard stands for all the roles that are.  What was chosen
    for resources may be the implicit role. *)
Lemma validated_permits `{!NamedRoles g} identity now expand req r u :
  ValidateAccessRequestForUser g identity now expand req = Ok r -> g_GetUserOrLoginState g (GetUser req) = Ok u ->
  (forall role, role ∈ GetRoles r ->
     permits (g_GetRole g) u (bool_decide (0 < length (GetAllRequestedResourceIDs req))%nat) role \/
     role = DefaultImplicitRole /\ expand = true /\ GetRoles req = [] /\ GetAllRequestedResourceIDs req <> []) /\
  (GetRoles req = [Wildcard] -> expand = true /\ exists roles, g_GetRoles g = Ok roles /\
     forall n, n ∈ GetRoles r <-> may_request (g_GetRole g) u n /\ (n ∉ us_Roles u) /\ (exists role, role ∈ roles /\ GetName role = n)).
Proof.
  unfold ValidateAccessRequestForUser. intros E Hu. rewrite Hu in E. simpl in E. apply rbind_ok in E as (m & Hm & E).
  destruct (validate g identity now req m) as [m' out] eqn:Ev. simpl in E. subst out.
  destruct (new_validator_user _ _ _ _ Hm) as [Eu Ee].
  apply validate_ok in Ev as (_ & req1 & Hw & Hperm & Hr). apply expand_wildcard_ok in Hw as [E1 Hw].
  assert (Hids : GetAllRequestedResourceIDs req1 = GetAllRequestedResourceIDs req) by (rewrite E1; done). rewrite Hids in Hperm, Hr.
  assert (Hcase : GetRoles r = GetRoles req1 \/ (GetRoles req1 = [] /\ GetAllRequestedResourceIDs req <> [] /\ exists m1 m2 ids hint,
    same_policy m m1 /\ applicableSearchAsRoles g ids hint m1 = (m2, Ok (GetRoles r)))).
  { destruct (expandVars m); [by destruct Hr|]. left. by destruct Hr as [(_ & ? & _) _]. }
  split.
  - intros role Hin. rewrite <- (permitted_spec _ _ _ _ _ _ Hm). destruct Hcase as [Hsame|(Hnil & Hne & m1 & m2 & ids & hint & Hpol & Ha)].
    + left. apply Hperm. by rewrite <- Hsame.
    + destruct (applicable_among _ _ _ _ _ _ Ha Hin) as [Hc| ->].
      2:{ right. split; [done|]. destruct Hw as [[Hsame _]|(_ & _ & _ & Hsome & _)]; [|done]. rewrite Hnil in Hsame. split_and!; try done.
          destruct (expandVars m) eqn:Ex; [congruence|]. destruct Hr as [(_ & Hroles & _) _]. rewrite Hroles, Hnil in Hin. by apply not_elem_of_nil in Hin. }
      left. rewrite bool_decide_true; [|destruct (GetAllRequestedResourceIDs req); [done|simpl; lia]].
      unfold permitted, canSearchAsRole in *. apply same_policy_kept in Hpol as [_ _ _ Pd Ps Pds _ _ _ _]. by rewrite Pd, Ps, Pds in Hc.
  - intros Hwild. destruct Hw as [[_ Hnone]|(_ & Hexp & _ & Hsome & Hreq)]; [done|]. split; [congruence|].
    apply requestable_ok in Hreq as (roles & Hg & Hl). exists roles. split; [done|].
    assert (Hsame : GetRoles r = GetRoles req1) by by destruct Hcase as [|(Hnil & _)].
    intros n. rewrite Hsame, Hl, Eu. destruct (new_validator_ok _ _ _ _ Hm) as (ds & Hds & Hp).
    by rewrite (CanRequestRole_spec _ _ _ Hds _ _ Hp).
Qed.
End Permits.

(** *** The thresholds of a validated request *)

(** What creation changes of a request. *)
Lemma creation_keeps `{MapOrder string} `{UUIDs} r r' : ValidateAccessRequest r = Ok r' ->
  GetThresholds r' = GetThresholds r /\ GetRoleThresholdMapping r' = GetRoleThresholdMapping r /\
  GetReviews r' = GetReviews r /\ GetUser r' = GetUser r /\
  (GetState r = RequestState_NONE \/ GetState r = RequestState_PENDING -> GetState r' = RequestState_PENDING).
Proof.
  unfold ValidateAccessRequest, validateAccessRequest, request_CheckAndSetDefaults. intros E.
  apply rbind_ok in E as (r1 & E1 & E). apply fail_if_ok in E as [_ E]. apply fail_if_ok in E as [_ E].
  apply fail_if_ok in E as [_ E]. apply fail_if_ok in E as [_ E]. apply rbind_ok in E as (ids & _ & [= <-]).
  apply rbind_ok in E1 as (md & _ & E1). set (r2 := if IsNone _ then _ else _) in E1.
  apply fail_if_ok in E1 as [_ E1]. apply fail_if_ok in E1 as [_ E1]. apply fail_if_ok in E1 as [_ E1].
  apply fail_if_ok in E1 as [_ E1]. injection E1 as <-.
  assert (K : GetThresholds r2 = GetThresholds r /\ GetRoleThresholdMapping r2 = GetRoleThresholdMapping r /\
    GetReviews r2 = GetReviews r /\ GetUser r2 = GetUser r /\
    (GetState r = RequestState_NONE \/ GetState r = RequestState_PENDING -> GetState r2 = RequestState_PENDING)).
  { unfold r2, IsNone. change (GetState (on_metadata _ (setStaticFields r))) with (GetState r).
    destruct (Z.eqb_spec (GetState r) RequestState_NONE) as [Hn|Hn]; repeat split; try done. by intros [?|?]. }
  clearbody r2. destruct K as (<- & <- & <- & <- & K). by destruct (bool_decide _ && bool_decide _).
Qed.

Section Approval.
Context `{UnicodeTables} `{RegexpCache} `{MatcherCalls} `{TraitsTemplates} `{MapOrder (list string)} `{MapOrder unit}.
Context `{LabelExpressions} `{Environment} `{ResourceDocuments} `{GroupKinds} `{!AnnotationOrder}.
Context `{MapOrder string} `{UUIDs} `{ReviewPredicates} `{MapOrder (list Matcher)} `{MapOrderLaws ThresholdIndexSets}.
Variable g : RequestValidatorGetter.

(** A directive of one of the user's roles that lets the role be requested or
    searched as, and the thresholds it asks for. *)
Definition directs_request (u : UserState) (role : string) (thresholds : list AccessReviewThreshold) : Prop :=
  exists name r ms, name ∈ us_Roles u /\ g_GetRole g name = Ok r /\ request_directives Allow (us_Traits u) r = Ok ms /\
    any_match (ms ++ literalMatchers (arc_SearchAsRoles (GetAccessRequestConditions Allow r))) role = true /\
    thresholds = effective (arc_Thresholds (GetAccessRequestConditions Allow r)).

(** The thresholds of the user's roles are unsigned numbers. *)
Definition unsigned_thresholds (u : UserState) : Prop :=
  forall name r, name ∈ us_Roles u -> g_GetRole g name = Ok r ->
    Forall threshold_ok (arc_Thresholds (GetAccessRequestConditions Allow r)).

Lemma validator_directs u m role s : NewRequestValidatorForUser (g_GetRole g) u true = Ok m ->
  (exists tm, tm ∈ List.filter (fun tm => any_match tm.1 role) (thresholdMatchers m) /\ s = effective tm.2) <->
  directs_request u role s.
Proof.
  intros (ds & Hds & Hp)%new_validator_ok. rewrite (pu_thresholds _ _ _ Hp). cbn [thresholdMatchers no_roles_yet expandVars app].
  setoid_rewrite list_elem_of_In. setoid_rewrite filter_In. setoid_rewrite <- list_elem_of_In. setoid_rewrite list_elem_of_omap. split.
  - intros (tm & [(d & Hin & Hd) Hm] & ->). unfold d_thresholds in Hd. case_bool_decide; [|done]. injection Hd as <-.
    destruct (role_of_directive _ _ _ Hds d Hin) as (name & Hn & Hg & Ha & _). by exists name, (d_role d), (d_allow d).
  - intros (name & r & ms & Hin & Hg & Ha & Hm & ->). destruct (directive_of_role _ _ _ Hds _ _ Hin Hg) as (d & Hd & <- & Ha' & _).
    rewrite Ha in Ha'. injection Ha' as ->. exists (d_matchers d, arc_Thresholds (allow_of d)). split; [|done]. split; [|done].
    exists d. split; [done|]. unfold d_thresholds. rewrite bool_decide_true; [done|].
    unfold d_matchers, allow_of in *. destruct (_ ++ _)%list; [done|simpl; lia].
Qed.

(** The thresholds of a validated request and its mapping are those of the
    directives for its roles. *)
Record thresholds_of_directives (u : UserState) (r : AccessRequestV3) : Prop := {
  td_thresholds t : t ∈ GetThresholds r -> exists name role, name ∈ us_Roles u /\ g_GetRole g name = Ok role /\
    t ∈ effective (arc_Thresholds (GetAccessRequestConditions Allow role));
  td_roles role : role ∈ GetRoles r -> is_Some (GetRoleThresholdMapping r !! role);
  td_mapping role sets : GetRoleThresholdMapping r !! role = Some sets -> sets <> [] /\
    (forall set, set ∈ sets -> exists s, directs_request u role s /\ Forall2 (index_of (GetThresholds r)) s set) /\
    (forall s, directs_request u role s -> exists set, set ∈ sets /\ Forall2 (index_of (GetThresholds r)) s set);
}.

Lemma mapping_of_directives u m roles r : NewRequestValidatorForUser (g_GetRole g) u true = Ok m ->
  collect_mapping m roles [] ∅ = Ok (GetThresholds r, GetRoleThresholdMapping r) -> GetRoles r = roles ->
  thresholds_of_directives u r.
Proof.
  intros Hm Hc Hroles. apply collect_mapping_ok in Hc as (Hg & Hmap & Hdom); [|unfold maxThresholds; simpl; lia|].
  2:{ intros role sets. by rewrite lookup_empty. }
  split.
  - intros t Ht. apply Hg in Ht as [Ht|(tm & Htm & Ht)]; [by apply not_elem_of_nil in Ht|].
    destruct (new_validator_ok _ _ _ _ Hm) as (ds & Hds & Hp). rewrite (pu_thresholds _ _ _ Hp) in Htm.
    cbn [thresholdMatchers no_roles_yet expandVars app] in Htm. apply list_elem_of_omap in Htm as (d & Hin & Hd).
    unfold d_thresholds in Hd. case_bool_decide; [|done]. injection Hd as <-.
    destruct (role_of_directive _ _ _ Hds d Hin) as (name & Hn & Hg' & _). by exists name, (d_role d).
  - intros role Hin. apply elem_of_dom. rewrite Hdom, <- Hroles. set_solver.
  - intros role sets Hs. destruct (Hmap _ _ Hs) as [Hne Hsets]. split; [done|]. unfold sets_of in Hsets. split.
    + intros set Hin. apply list_elem_of_lookup in Hin as [i Hi].
      destruct (Forall2_lookup_r _ _ _ _ _ Hsets Hi) as (tm & Ht & Hidx). exists (effective tm.2). split; [|done].
      apply (validator_directs _ _ _ _ Hm). exists tm. split; [by eapply list_elem_of_lookup_2|done].
    + intros s (tm & Ht & ->)%(validator_directs _ _ _ _ Hm). apply list_elem_of_lookup in Ht as [i Hi].
      destruct (Forall2_lookup_l _ _ _ _ _ Hsets Hi) as (set & Ht & Hidx). exists set. split; [by eapply list_elem_of_lookup_2|done].
Qed.

(** The thresholds of a request that is stored after its validation make it one
    that reviews settle soundly. *)
Lemma validated_reviewable u now r r1 : thresholds_of_directives u r -> unsigned_thresholds u ->
  GetReviews r = [] -> GetState r = RequestState_NONE \/ GetState r = RequestState_PENDING ->
  ValidateAccessRequest (stamped now r) = Ok r1 -> reviewable r1 /\
    GetThresholds r1 = GetThresholds r /\ GetRoleThresholdMapping r1 = GetRoleThresholdMapping r.
Proof.
  intros [Ht _ Hm] Hu Hr Hs Hv. apply creation_keeps in Hv as (Kt & Km & Kr & _ & Ks).
  assert (Hst : GetThresholds (stamped now r) = GetThresholds r /\ GetRoleThresholdMapping (stamped now r) = GetRoleThresholdMapping r /\
    GetReviews (stamped now r) = GetReviews r /\ GetState (stamped now r) = GetState r) by (unfold stamped; by case_match).
  destruct Hst as (S1 & S2 & S3 & S4). rewrite S1 in Kt. rewrite S2 in Km. rewrite S3, Hr in Kr. rewrite S4 in Ks.
  split; [|done]. split; rewrite ?Kt, ?Km; [|..|by apply Ks|done].
  - apply Forall_forall. intros t (name & role & Hin & Hg & Hx)%Ht. unfold effective in Hx. case_bool_decide.
    + apply list_elem_of_singleton in Hx as ->. split; simpl; lia.
    + pose proof (Hu _ _ Hin Hg) as Hok. rewrite Forall_forall in Hok. by apply Hok.
  - intros role sets Hsets. apply Forall_forall. intros set Hset. destruct (Hm _ _ Hsets) as (_ & Hx & _).
    destruct (Hx _ Hset) as (s & _ & Hidx). apply Forall_forall. intros tid Htid. apply list_elem_of_lookup in Htid as [i Hi].
    by destruct (Forall2_lookup_r _ _ _ _ _ Hidx Hi) as (t & _ & [Hin _]).
Qed.

(** The approval of a validated request has, for every directive that lets one
    of its roles be requested, the votes that a threshold of it asks for. *)
Lemma approval_of_directives u now r0 r1 r : thresholds_of_directives u r0 -> unsigned_thresholds u ->
  GetReviews r0 = [] -> GetState r0 = RequestState_NONE \/ GetState r0 = RequestState_PENDING ->
  ValidateAccessRequest (stamped now r0) = Ok r1 -> reviewed r1 r -> Z.of_nat (length (GetReviews r)) < 2 ^ 32 ->
  GetState r = RequestState_APPROVED -> forall role, role ∈ GetRoles r0 ->
  (exists s, directs_request u role s) /\
  forall s, directs_request u role s -> exists t, t ∈ s /\ 1 <= th_Approve t /\ vouched r IsApproved t (th_Approve t).
Proof.
  intros Hd Hu Hr Hs Hv Hrev Hlen Hst role Hrole. destruct (validated_reviewable _ _ _ _ Hd Hu Hr Hs Hv) as (Hok & Kt & Km).
  pose proof (reviewed_sound _ _ Hok Hrev Hlen) as Hsound. destruct (reviewed_keeps _ _ Hrev) as (_ & _ & Rt & Rm & _).
  destruct (td_roles _ _ Hd role Hrole) as [sets Hsets]. destruct (td_mapping _ _ Hd _ _ Hsets) as (Hne & Hof & Hall). split.
  - destruct sets as [|set sets]; [done|]. destruct (Hof set) as (s & Hs' & _); [by left|by exists s].
  - intros s (set & Hset & Hidx)%Hall. rewrite <- Km, <- Rm in Hsets.
    destruct (approved_vouched r role sets set Hsound Hst Hsets Hset) as (tid & t & Htid & Ht & Ha & Hvote).
    apply list_elem_of_lookup in Htid as [i Hi]. destruct (Forall2_lookup_r _ _ _ _ _ Hidx Hi) as (t' & Ht' & _ & Hl).
    rewrite Rt, Kt, Hl in Ht. injection Ht as ->. exists t. split; [by eapply list_elem_of_lookup_2|done].
Qed.

Lemma validated_thresholds u identity now req r : g_GetUserOrLoginState g (GetUser req) = Ok u ->
  ValidateAccessRequestForUser g identity now true req = Ok r ->
  thresholds_of_directives u r /\ GetReviews r = GetReviews req /\ GetState r = GetState req.
Proof.
  unfold ValidateAccessRequestForUser. intros Hu E. rewrite Hu in E. simpl in E. apply rbind_ok in E as (m & Hm & E).
  destruct (validate g identity now req m) as [m' out] eqn:Ev. simpl in E. subst out.
  apply validate_ok in Ev as (_ & req1 & Hw & _ & Hr). apply expand_wildcard_ok in Hw as [E1 _].
  assert (Hexp : expandVars m = true) by (destruct (new_validator_ok _ _ _ _ Hm) as (ds & _ & Hp); by rewrite (pu_expand _ _ _ Hp)).
  rewrite Hexp in Hr. destruct Hr as [_ [Hmap _ _ _ Hst Hrev]]. split; [by eapply mapping_of_directives|].
  rewrite Hst, Hrev, E1. done.
Qed.
End Approval.

(** *** The annotations of a validated request *)

Lemma elem_of_Compact l x : x ∈ Compact l <-> x ∈ l.
Proof.
  induction l as [|y l IH]; [done|]. cbn [Compact]. destruct l as [|z l]; [done|]. case_bool_decide as Hy.
  - subst. rewrite IH, (elem_of_cons (z :: l)). split; [by right|]. intros [->|?]; [by left|done].
  - by rewrite !(elem_of_cons _ x y), IH.
Qed.

Lemma Compact_sorted l : StronglySorted at_most l -> StronglySorted before (Compact l).
Proof.
  induction l as [|y l IH]; intros Hl; [constructor|]. apply StronglySorted_inv in Hl as [Hl Hy].
  cbn [Compact]. destruct l as [|z l]; [repeat constructor|]. case_bool_decide as Hne; [by apply IH|].
  constructor; [by apply IH|]. apply Forall_forall. intros x Hx. rewrite elem_of_Compact in Hx.
  rewrite Forall_forall in Hy. pose proof (Hy x Hx) as Hyx. apply at_most_cases in Hyx as [->|]; [|done].
  exfalso. apply Hne, (anti_symm at_most); [apply Hy; by left|].
  apply StronglySorted_inv in Hl as [_ Hz]. rewrite Forall_forall in Hz. apply elem_of_cons in Hx as [->|Hx]; [by apply at_most_cases; left|by apply Hz].
Qed.

Section Annotated.
Context `{RegexpEngine} `{TraitsTemplates} `{MapOrder (list string)} `{!AnnotationOrder} `{!AnnotationOrderLaws}.

(** A request gets an annotation from the matchers collected for it. *)
Definition annotated (allow : gmap (string * string) annotationMatcher) (annotation : string * string) (req : AccessRequestV3) : bool :=
  match allow !! annotation with Some matchers => matchesRequest matchers req | None => false end.

Lemma matchesRequest_app rm rm' sm sm' req :
  matchesRequest {| roleRequestMatchers := rm ++ rm'; resourceRequestMatchers := sm ++ sm' |} req =
  matchesRequest {| roleRequestMatchers := rm; resourceRequestMatchers := sm |} req ||
  matchesRequest {| roleRequestMatchers := rm'; resourceRequestMatchers := sm' |} req.
Proof. unfold matchesRequest. simpl. case_bool_decide; apply existsb_app. Qed.

Lemma annotated_insert u conditions rm sm allow annotation req :
  annotated (insertAllowedAnnotations u conditions rm sm allow) annotation req = true <->
  annotated allow annotation req = true \/
  (annotation ∈ expanded_annotations u (arc_Annotations conditions) /\
   matchesRequest {| roleRequestMatchers := rm; resourceRequestMatchers := sm |} req = true).
Proof.
  unfold insertAllowedAnnotations. generalize (expanded_annotations u (arc_Annotations conditions)). intros l. revert allow.
  induction l as [|a l IH]; intros allow; simpl.
  { split; [by left|]. by intros [?|[?%not_elem_of_nil _]]. }
  rewrite IH. clear IH. unfold annotated. rewrite elem_of_cons. destruct (decide (a = annotation)) as [->|Hne].
  - rewrite lookup_insert_eq, matchesRequest_app, orb_true_iff. destruct (allow !! annotation) as [[rm0 sm0]|]; simpl; [tauto|].
    assert (matchesRequest {| roleRequestMatchers := []; resourceRequestMatchers := [] |} req = false) as ->
      by (unfold matchesRequest; by case_bool_decide). naive_solver.
  - rewrite lookup_insert_ne by done. naive_solver.
Qed.

(** The annotation is among the collected ones that the request matches and no
    role denies. *)
Lemma systemAnnotations_elem m req key value :
  value ∈ default [] (systemAnnotations m req !! key) <->
  annotated (annotations_allow m) (key, value) req = true /\ (key, value) ∉ annotations_deny m.
Proof.
  set (gets matchers := matchesRequest matchers req = true /\ (key, value) ∉ annotations_deny m).
  unfold systemAnnotations, traits. set (step := fun _ _ => _). rewrite lookup_fmap.
  assert (Hgen : forall (l : list (string * string * annotationMatcher)) (acc : traits),
    value ∈ default [] (foldl step acc l !! key) <->
    value ∈ default [] (acc !! key) \/ exists matchers, ((key, value), matchers) ∈ l /\ gets matchers).
  { induction l as [|[a matchers] l IH]; intros acc; cbn [foldl].
    { split; [by left|]. by intros [?|(? & ?%not_elem_of_nil & _)]. }
    rewrite IH. clear IH.
    assert (Hstep : value ∈ default [] (step acc (a, matchers) !! key) <->
      value ∈ default [] (acc !! key) \/ (a = (key, value) /\ gets matchers)).
    { unfold step, gets. case_bool_decide as Hd; [naive_solver|]. destruct (matchesRequest matchers req); simpl; [|naive_solver].
      destruct a as [k v]. simpl. destruct (decide (k = key)) as [->|Hne].
      - rewrite lookup_insert_eq. simpl. rewrite elem_of_app, list_elem_of_singleton. naive_solver.
      - rewrite lookup_insert_ne by done. naive_solver. }
    rewrite Hstep. setoid_rewrite elem_of_cons. naive_solver. }
  assert (Hmap : value ∈ default [] ((fun l => Compact (merge_sort at_most l)) <$> foldl step ∅ (annotation_range (annotations_allow m)) !! key) <->
    value ∈ default [] (foldl step ∅ (annotation_range (annotations_allow m)) !! key)).
  { destruct (foldl step ∅ _ !! key) as [l|]; simpl; [|done]. by rewrite elem_of_Compact, merge_sort_Permutation. }
  rewrite Hmap, Hgen. change (default [] _) with ([] : list string). unfold annotated, gets. setoid_rewrite annotation_range_permutation.
  setoid_rewrite elem_of_map_to_list. split.
  - intros [?%not_elem_of_nil|(matchers & -> & ? & ?)]; done.
  - intros [Ha Hd]. right. destruct (annotations_allow m !! (key, value)) as [matchers|]; [by exists matchers|done].
Qed.

Lemma systemAnnotations_sorted m req key values : systemAnnotations m req !! key = Some values -> StronglySorted before values.
Proof.
  unfold systemAnnotations, traits. rewrite lookup_fmap. intros (l & _ & ->)%fmap_Some. apply Compact_sorted.
  apply (StronglySorted_merge_sort at_most).
Qed.
End Annotated.

Section UserAnnotations.
Context `{UnicodeTables} `{RegexpCache} `{MatcherCalls} `{TraitsTemplates} `{MapOrder (list string)} `{!AnnotationOrder} `{!AnnotationOrderLaws}.

(** A directive of one of the user's roles gives the request the annotation,
    or denies it. *)
Definition allows_annotation (getRole : string -> result RoleV6) (u : UserState) (req : AccessRequestV3) (a : string * string) : Prop :=
  exists name r ms, name ∈ us_Roles u /\ getRole name = Ok r /\ request_directives Allow (us_Traits u) r = Ok ms /\
    let conditions := GetAccessRequestConditions Allow r in
    a ∈ expanded_annotations u (arc_Annotations conditions) /\
    matchesRequest {| roleRequestMatchers := ms; resourceRequestMatchers := literalMatchers (arc_SearchAsRoles conditions) |} req = true.
Definition denies_annotation (getRole : string -> result RoleV6) (u : UserState) (a : string * string) : Prop :=
  exists name r, name ∈ us_Roles u /\ getRole name = Ok r /\
    a ∈ expanded_annotations u (arc_Annotations (GetAccessRequestConditions Deny r)).

Lemma annotated_directives u ds req a : forall allow,
  annotated (foldl (d_annotations u) allow ds) a req = true <->
  annotated allow a req = true \/ exists d, d ∈ ds /\ a ∈ expanded_annotations u (arc_Annotations (allow_of d)) /\
    matchesRequest {| roleRequestMatchers := d_allow d; resourceRequestMatchers := literalMatchers (arc_SearchAsRoles (allow_of d)) |} req = true.
Proof.
  induction ds as [|d ds IH]; intros allow; cbn [foldl].
  { split; [by left|]. by intros [?|(? & ?%not_elem_of_nil & _)]. }
  rewrite IH. unfold d_annotations at 1. rewrite annotated_insert, exists_cons. tauto.
Qed.

Lemma denied_directives u ds a : forall deny, a ∈ foldl (d_denied_annotations u) deny ds <->
  a ∈ deny \/ exists d, d ∈ ds /\ a ∈ expanded_annotations u (arc_Annotations (deny_of d)).
Proof.
  induction ds as [|d ds IH]; intros deny; cbn [foldl].
  { split; [by left|]. by intros [?|(? & ?%not_elem_of_nil & _)]. }
  rewrite IH, exists_cons. unfold d_denied_annotations, insertDeniedAnnotations.
  assert (Hset : forall (l : list (string * string)) (deny : gset (string * string)), a ∈ foldl (fun deny annotation => {[annotation]} ∪ deny) deny l <-> a ∈ deny \/ a ∈ l).
  { clear. induction l as [|x l IH]; intros deny; cbn [foldl]; [split; [by left|by intros [?|?%not_elem_of_nil]]|].
    rewrite IH, elem_of_cons. set_solver. }
  rewrite Hset. tauto.
Qed.

(** The annotations of a request that the validator of a user expands. *)
Lemma user_annotations getRole u m req key value : NewRequestValidatorForUser getRole u true = Ok m ->
  value ∈ default [] (systemAnnotations m req !! key) <->
  allows_annotation getRole u req (key, value) /\ ~ denies_annotation getRole u (key, value).
Proof.
  intros (ds & Hds & Hp)%new_validator_ok. rewrite systemAnnotations_elem, (pu_annotations _ _ _ Hp), (pu_denied _ _ _ Hp).
  cbn [expandVars userState no_roles_yet annotations_allow annotations_deny].
  rewrite annotated_directives, denied_directives. unfold annotated at 1. rewrite lookup_empty.
  rewrite (directives_collected getRole u ds Hds Allow (fun r am =>
    (key, value) ∈ expanded_annotations u (arc_Annotations (GetAccessRequestConditions Allow r)) /\
    matchesRequest {| roleRequestMatchers := am; resourceRequestMatchers := literalMatchers (arc_SearchAsRoles (GetAccessRequestConditions Allow r)) |} req = true)).
  rewrite (roles_collected getRole u ds Hds (fun r =>
    (key, value) ∈ expanded_annotations u (arc_Annotations (GetAccessRequestConditions Deny r)))).
  fold (allows_annotation getRole u req (key, value)). fold (denies_annotation getRole u (key, value)).
  assert ((key, value) ∉ (∅ : gset (string * string))) by set_solver. naive_solver.
Qed.
End UserAnnotations.

(** *** The durations of a user's directives, and what a validation keeps *)

Section Durations.
Context `{UnicodeTables} `{RegexpCache} `{MatcherCalls} `{TraitsTemplates} `{MapOrder (list string)}.

Lemma durations_of_user getRole u m role d : NewRequestValidatorForUser getRole u true = Ok m ->
  d ∈ durations_of m role <-> d <> 0 /\ exists name R ms, name ∈ us_Roles u /\ getRole name = Ok R /\
    request_directives Allow (us_Traits u) R = Ok ms /\ let conditions := GetAccessRequestConditions Allow R in
    any_match (ms ++ literalMatchers (arc_SearchAsRoles conditions)) role = true /\ d = arc_MaxDuration conditions.
Proof.
  intros (ds & Hds & Hp)%new_validator_ok. unfold durations_of. rewrite (pu_durations _ _ _ Hp).
  cbn [maxDurationMatchers no_roles_yet expandVars app]. cbv zeta.
  rewrite <- (directives_collected getRole u ds Hds Allow (fun R ms =>
    any_match (ms ++ literalMatchers (arc_SearchAsRoles (GetAccessRequestConditions Allow R))) role = true /\
    d = arc_MaxDuration (GetAccessRequestConditions Allow R))).
  rewrite list_elem_of_omap. setoid_rewrite list_elem_of_omap. unfold d_duration, allow_of. split.
  - intros (tms & (dir & Hin & Hd) & Hm). destruct (Z.eqb_spec (arc_MaxDuration (GetAccessRequestConditions Allow (d_role dir))) 0); [done|].
    injection Hd as <-. simpl in Hm. destruct (any_match _ _) eqn:Ha in Hm; [|done]. injection Hm as <-. split; [done|]. by exists dir.
  - intros (Hne & dir & Hin & Hm & ->). exists (d_matchers dir, arc_MaxDuration (allow_of dir)). split.
    + exists dir. split; [done|]. by apply Z.eqb_neq in Hne as ->.
    + simpl. unfold d_matchers, allow_of. by rewrite Hm.
Qed.
End Durations.

Section Outcome.
Context `{UnicodeTables} `{RegexpCache} `{MatcherCalls} `{TraitsTemplates} `{MapOrder (list string)} `{MapOrder unit}.
Context `{LabelExpressions} `{Environment} `{ResourceDocuments} `{GroupKinds} `{!AnnotationOrder}.
Variable g : RequestValidatorGetter.

(** A new request that validates has the times and the annotations that the
    validator of its user gives it. *)
Lemma validated_expanded identity now req r u :
  ValidateAccessRequestForUser g identity now true req = Ok r -> g_GetUserOrLoginState g (GetUser req) = Ok u ->
  exists m req1, NewRequestValidatorForUser (g_GetRole g) u true = Ok m /\ req1 = SetRoles (GetRoles req1) req /\
    timed (g_GetRole g) m identity now req1 r /\ ars_SystemAnnotations (ar_Spec r) = systemAnnotations m r.
Proof.
  unfold ValidateAccessRequestForUser. intros E Hu. rewrite Hu in E. simpl in E. apply rbind_ok in E as (m & Hm & E).
  destruct (validate g identity now req m) as [m' out] eqn:Ev. simpl in E. subst out.
  destruct (new_validator_user _ _ _ _ Hm) as [_ Ee]. apply validate_ok in Ev as (_ & req1 & Hw & _ & Hr).
  apply expand_wildcard_ok in Hw as [E1 _]. rewrite Ee in Hr. destruct Hr as [_ [_ Ha Ht _ _ _]]. by exists m, req1.
Qed.

(** One that is only checked stays as it is. *)
Lemma validated_checked identity now req r u :
  ValidateAccessRequestForUser g identity now false req = Ok r -> g_GetUserOrLoginState g (GetUser req) = Ok u ->
  us_Name u = GetUser req /\ GetRoles r = GetRoles req /\ GetAccessExpiry r = GetAccessExpiry req /\
  ars_AssumeStartTime (ar_Spec r) = ars_AssumeStartTime (ar_Spec req).
Proof.
  unfold ValidateAccessRequestForUser. intros E Hu. rewrite Hu in E. simpl in E. apply rbind_ok in E as (m & Hm & E).
  destruct (validate g identity now req m) as [m' out] eqn:Ev. simpl in E. subst out.
  destruct (new_validator_user _ _ _ _ Hm) as [Eu Ee]. apply validate_ok in Ev as (Hn & req1 & Hw & _ & Hr).
  apply expand_wildcard_ok in Hw as [E1 [[Hroles _]|(_ & Hx & _)]]; [|congruence]. rewrite Ee in Hr.
  destruct Hr as ((_ & U & _) & Ha & Hs). rewrite Eu in Hn. split; [done|]. rewrite U, Ha, Hs, Hroles. rewrite E1. done.
Qed.
End Outcome.
