(* ===== verification/RequestStore.v ===== *)
(** * The memory backend under the access request service

    Several servers share one memory backend: between two calls of the service
    the others may run any operations of the backend.  The conditional writes
    keep [RequestBackendLaws] because a revision is made up once, and a read of
    a range is exact when nobody writes. *)

From S2P Require Import Prelude GoStrings Types Key Backend BTree MinHeap Memory MemoryFacts MemoryRefinement MemoryRange.
From S2P Require Import MemoryBackend DynamicAccess.
#[local] Open Scope Z_scope.

Section Revisions.
Context {T : Type} `{BTreeSpec ptr T} `{Revisions}.
#[local] Abbreviation Mem := (Memory T).

(** ** Revisions are made up in order *)

Definition later (m m' : Mem) : Prop := m_Mirror m' = m_Mirror m /\ (m_revisions m <= m_revisions m')%nat.

#[export] Instance later_preorder : PreOrder later.
Proof. split; [by intros m; split|]. intros m1 m2 m3 [] []. split; [congruence|lia]. Qed.

Lemma onHeap_later {A} (f : M minHeap A) : step_in later (onHeap (T:=T) f).
Proof. intros m m' r. unfold onHeap. destruct (f (m_heap m)). by intros [= <- <-]. Qed.
Lemma alloc_later x : step_in later (alloc (T:=T) x).
Proof. by intros m m' r [= <- <-]. Qed.
Lemma mmodify_later f : (forall m, later m (f m)) -> step_in later (mmodify f).
Proof. by intros Hf m m' r [= <- <-]. Qed.
Lemma emit_later e : step_in later (emit (T:=T) e).
Proof. apply mmodify_later. intros m. by destruct (m_EventsOff m) eqn:E; split; simpl; rewrite ?E. Qed.
Lemma set_tree_later f : step_in later (mmodify (set_tree (T:=T) f)).
Proof. by apply mmodify_later. Qed.
Lemma createRevision_later : step_in later (createRevision (T:=T)).
Proof. intros m m' r [= <- <-]. split; simpl; [done|lia]. Qed.
#[local] Hint Resolve onHeap_later alloc_later emit_later set_tree_later createRevision_later : go.

Ltac laters :=
  repeat first [step_in_one | match goal with |- step_in _ (match ?x with _ => _ end) => destruct x end]; try done; eauto with go.

Lemma removeExpired_later : step_in later (removeExpired (T:=T)).
Proof.
  unfold removeExpired. laters. match goal with |- step_in _ (removeExpired_loop ?n ?t ?r) => generalize r; revert n end.
  intros n. induction n as [|n IH]; intros r; cbn [removeExpired_loop]; laters.
Qed.

Lemma processPut_later i : step_in later (processPut (T:=T) i).
Proof. unfold processPut, tree_Get. laters. Qed.
Lemma processDelete_later i : step_in later (processDelete (T:=T) i).
Proof. unfold processDelete, tree_Get. laters. Qed.
#[local] Hint Resolve removeExpired_later processPut_later processDelete_later : go.

Lemma publish_later e : step_in later (publish (T:=T) e).
Proof. unfold publish, processEvent. destruct (ev_Type e); laters. Qed.
#[local] Hint Resolve publish_later : go.

Lemma publish_all_later l : step_in later (publish_all (T:=T) l).
Proof. induction l; cbn [publish_all]; laters. Qed.
Lemma deref_all_later l : step_in later (deref_all (T:=T) l).
Proof. induction l as [|[] l IH]; cbn [deref_all]; laters. Qed.
Lemma freshRevision_later i : step_in later (freshRevision (T:=T) i).
Proof. unfold freshRevision. laters. Qed.
Lemma revision_matches_later key rev : step_in later (revision_matches (T:=T) key rev).
Proof. unfold revision_matches, tree_Get. laters. Qed.
#[local] Hint Resolve publish_all_later deref_all_later freshRevision_later revision_matches_later : go.

Lemma collect_events_later rev l : step_in later (collect_events (T:=T) rev l).
Proof.
  induction l as [|ca l IH]; cbn [collect_events]; [laters|].
  unfold condition_holds, action_events, tree_Has. laters.
Qed.
#[local] Hint Resolve collect_events_later : go.

Lemma run_later o : step_in later (run (T:=T) o).
Proof.
  destruct o; unfold run, returning, Create, Get, Update, Put, Delete, DeleteRange, KeepAlive, CompareAndSwap,
    ConditionalDelete, ConditionalUpdate, AtomicWrite, tree_Get, tree_Has; laters.
Qed.

(** A success takes a revision. *)
Definition draws {A} (c : M Mem A) : Prop :=
  forall m m' a, c m = (m', Ok a) -> m_Mirror m = false -> (m_revisions m < m_revisions m')%nat.

Lemma draws_first {A B} (c : M Mem A) (k : A -> M Mem B) : draws c -> (forall a, step_in later (k a)) -> draws (mthen c k).
Proof.
  intros Hc Hk m m' b (m1 & a & E1 & E2)%mthen_ok Hm. pose proof (Hc _ _ _ E1 Hm). apply Hk in E2 as [_ ?]. lia.
Qed.
Lemma draws_next {A B} (c : M Mem A) (k : A -> M Mem B) : step_in later c -> (forall a, draws (k a)) -> draws (mthen c k).
Proof.
  intros Hc Hk m m' b (m1 & a & E1 & E2)%mthen_ok Hm. apply Hc in E1 as [Hm1 ?].
  assert (m_revisions m1 < m_revisions m')%nat by (eapply Hk; [exact E2|congruence]). lia.
Qed.
Lemma draws_mfail {A} e : draws (mfail (A:=A) e).
Proof. done. Qed.
Lemma draws_createRevision : draws (createRevision (T:=T)).
Proof. intros m m' a [= <- <-] _. simpl. lia. Qed.
Lemma draws_freshRevision i : draws (freshRevision (T:=T) i).
Proof.
  intros m m' a E Hm. unfold freshRevision, mthen, mget in E. rewrite Hm in E. injection E as <- <-. simpl. lia.
Qed.

Ltac draw :=
  lazymatch goal with
  | |- draws (mfail _) => apply draws_mfail
  | |- draws (mthen createRevision _) => apply draws_first; [apply draws_createRevision|intros; laters]
  | |- draws (mthen (freshRevision _) _) => apply draws_first; [apply draws_freshRevision|intros; laters]
  | |- draws (mthen _ _) => apply draws_next; [laters|intros]
  | |- draws (match ?x with _ => _ end) => destruct x
  end.

Definition is_write (o : op) : bool :=
  match o with
  | DoCreate _ | DoUpdate _ | DoPut _ | DoKeepAlive _ _ | DoCompareAndSwap _ _ | DoConditionalUpdate _ | DoAtomicWrite _ => true
  | DoGet _ | DoDelete _ | DoDeleteRange _ _ | DoConditionalDelete _ _ => false
  end.

Lemma draws_returning {A} (f : A -> output) c : draws c -> draws (returning f c).
Proof. intros Hc. apply draws_first; [done|]. intros a. laters. Qed.

Lemma write_draws o : is_write o = true -> draws (run (T:=T) o).
Proof.
  destruct o; try done; intros _; unfold run; apply draws_returning;
    unfold Create, Update, Put, KeepAlive, CompareAndSwap, ConditionalUpdate, AtomicWrite, tree_Get, tree_Has; repeat draw.
Qed.

(** ** Where an item comes from *)

Lemma replay_origin es : forall (kv : KV) k i, replay es kv !! k = Some i -> kv !! k = Some i \/ putEvent i ∈ es.
Proof.
  induction es as [|e es IH]; intros kv k i E; [by left|]. apply IH in E as [E|E]; [|right; by right].
  destruct e as [t j]. unfold apply_event in E. simpl in E. destruct t.
  - apply lookup_insert_Some in E as [[_ ->]|[_ E]]; [right; by left|by left].
  - apply lookup_delete_Some in E as [_ E]. by left.
Qed.

Lemma action_origin rev kv ca i : putEvent i ∈ action_effect rev kv ca -> i_Revision i = rev.
Proof.
  unfold action_effect. intros Hi. repeat case_match; try (by apply not_elem_of_nil in Hi);
    apply list_elem_of_singleton in Hi; [by injection Hi as ->|done].
Qed.

Lemma effects_origin rev (kv : KV) condacts k i (P : Prop) : replay (condacts ≫= action_effect rev kv) kv !! k = Some i ->
  P -> kv !! k = Some i \/ (i_Revision i = rev /\ P).
Proof.
  intros [Hi|Hi]%replay_origin HP; [by left|right; split; [|done]].
  apply list_elem_of_bind in Hi as (ca & Hi & _). by eapply action_origin.
Qed.

(** An item after a call was there before, or has the revision the call made up. *)
Lemma exec_origin rev o (kv kv' : KV) r k i : exec false rev o kv = (kv', r) -> kv' !! k = Some i ->
  kv !! k = Some i \/ (i_Revision i = rev /\ is_write o = true /\ exists out, r = Ok out).
Proof.
  intros E Hi. assert (Hput : forall j, (put_item (with_rev rev j) kv) !! k = Some i -> kv !! k = Some i \/ i_Revision i = rev).
  { intros j. unfold put_item. rewrite lookup_insert_Some. intros [[_ <-]|[_ ?]]; auto. }
  destruct o; simpl in E; unfold revised in E.
  all: repeat match type of E with context [match ?x with _ => _ end] => destruct x eqn:? end; injection E as <- <-; auto.
  all: try (apply Hput in Hi as [Hi|Hi]; eauto 6).
  - apply lookup_delete_Some in Hi as [_ Hi]. by left.
  - apply map_lookup_filter_Some in Hi as [Hi _]. by left.
  - apply lookup_delete_Some in Hi as [_ Hi]. by left.
  - eapply effects_origin; [exact Hi|eauto].
  - eapply effects_origin; [exact Hi|eauto].
Qed.

(** ** The world of the service *)

(** Every item has one of the revisions made up so far. *)
Definition revised_by (m : Mem) : Prop :=
  forall k i, contents m !! k = Some i -> exists j, (j < m_revisions m)%nat /\ i_Revision i = CreateRevision j.

#[local] Abbreviation Store := (MemoryStore (T := T)).
#[local] Abbreviation mem s := (proj1_sig (s : Store)).

Lemma sweep_subset (s : Store) : after_expiry (mem s) ⊆ contents (mem s).
Proof. apply (sw_old _ _ _ (store_swept s)). Qed.

Lemma call_later o (s s' : Store) r : call o s = (s', r) -> later (mem s) (mem s').
Proof. intros [= <- _]. simpl. apply (run_later o) with (r := snd (run o (mem s))). by destruct (run o (mem s)). Qed.

(** What one call may do to the items of a store. *)
Definition renewed (s s' : Store) : Prop :=
  (m_revisions (mem s) <= m_revisions (mem s'))%nat /\
  forall k i, contents (mem s') !! k = Some i -> contents (mem s) !! k = Some i \/
    exists j, (m_revisions (mem s) <= j < m_revisions (mem s'))%nat /\ i_Revision i = CreateRevision j.

#[export] Instance renewed_preorder : PreOrder renewed.
Proof.
  split; [intros s; split; auto|]. intros s1 s2 s3 [H12 Ha] [H23 Hb]. split; [lia|]. intros k i Hi.
  apply Hb in Hi as [Hi|(j & ? & ?)]; [|right; exists j; split; [lia|done]].
  apply Ha in Hi as [Hi|(j & ? & ?)]; [by left|right; exists j; split; [lia|done]].
Qed.

Lemma call_renewed o : step_in renewed (call (T:=T) o).
Proof.
  intros s s' r E. pose proof (call_later _ _ _ _ E) as [_ Hle]. split; [done|]. intros k i Hi.
  apply call_spec in E as E'. destruct E' as [_ E']. destruct (guard false o); [left; destruct E' as [<- _]; done|].
  destruct (exec_origin _ _ _ _ _ _ _ E' Hi) as [Hk|(Hrev & Hw & out & ->)].
  - left. eapply lookup_weaken; [exact Hk|apply sweep_subset].
  - right. exists (m_revisions (mem s)). split; [|done]. split; [lia|].
    unfold call in E. injection E as <- E. simpl. apply (write_draws o Hw) with (a := out); [|apply (proj2_sig s)].
    rewrite <- E. apply surjective_pairing.
Qed.

Lemma renewed_revised (s s' : Store) : renewed s s' -> revised_by (mem s) -> revised_by (mem s').
Proof.
  intros [Hle Hr] Hs k i Hi. destruct (Hr _ _ Hi) as [Hk|(j & ? & ?)]; [|exists j; split; [lia|done]].
  destruct (Hs _ _ Hk) as (j & ? & ?). exists j. split; [lia|done].
Qed.

Definition RequestStore : Type := { s : Store | revised_by (mem s) }.

(** The store, and what the other servers do between the next calls. *)
Record RequestWorld := {
  rw_store : RequestStore;
  rw_others : list (list op);
}.

#[local] Abbreviation store w := (proj1_sig (rw_store w)).

Definition stored_request (w : RequestWorld) (k : string) : option Item := contents (mem (store w)) !! k.

(** A call that is one operation of the backend. *)
Definition store_step (o : op) (s : RequestStore) : RequestStore :=
  exist _ (fst (call o (proj1_sig s)))
    (renewed_revised _ _ (call_renewed o (proj1_sig s) _ _ (surjective_pairing _)) (proj2_sig s)).

Definition run_ops (ops : list op) (s : RequestStore) : RequestStore := foldl (fun s o => store_step o s) s ops.

(** The others get their turn. *)
Definition interfere (w : RequestWorld) : RequestWorld :=
  match rw_others w with
  | [] => w
  | batch :: rest => {| rw_store := run_ops batch (rw_store w); rw_others := rest |}
  end.

Definition server_call (o : op) : M RequestWorld output := fun w =>
  let w := interfere w in
  ({| rw_store := store_step o (rw_store w); rw_others := rw_others w |}, snd (call o (store w))).

(** The lease of a call. *)
Definition of_lease (out : output) : M RequestWorld string :=
  match out with OutLease l => mret (ls_Revision l) | _ => mfail missingKey end.
Definition of_item (out : output) : M RequestWorld Item :=
  match out with OutItem i => mret i | _ => mfail missingKey end.
Definition of_unit (_ : output) : M RequestWorld unit := mret tt.

Definition interleaved (w w' : RequestWorld) : Prop := renewed (store w) (store w').

#[export] Instance others_preorder : PreOrder interleaved.
Proof. unfold interleaved. split; [by intros w|]. intros w1 w2 w3. apply transitivity. Qed.

Lemma run_ops_renewed ops : forall s, renewed (proj1_sig s) (proj1_sig (run_ops ops s)).
Proof.
  induction ops as [|o ops IH]; intros s; [done|]. transitivity (proj1_sig (store_step o s)); [|apply (IH (store_step o s))].
  apply (call_renewed o _ _ _ (surjective_pairing _)).
Qed.

Lemma interfere_others w : interleaved w (interfere w).
Proof. unfold interfere. destruct (rw_others w); [done|]. apply run_ops_renewed. Qed.

Lemma server_call_others o : step_in interleaved (server_call o).
Proof.
  intros w w' r [= <- <-]. transitivity (interfere w); [apply interfere_others|].
  apply (call_renewed o _ _ _ (surjective_pairing _)).
Qed.

(** A range is read with nothing in between its pages. *)
Definition range_fuel (m : Mem) : nat := S (size (contents m)).

Lemma Items_renewed (s : Store) params : let m' := fst (Items (range_fuel (mem s)) id params (mem s)) in
  cluster_state m' /\ (m_revisions (mem s) <= m_revisions m')%nat /\ contents m' ⊆ contents (mem s).
Proof.
  destruct s as [m [Hwf Hm]]. simpl. destruct (IsZero (ip_StartKey params)) eqn:Hs; [unfold Items; by rewrite Hs|].
  destruct (IsZero (ip_EndKey params)) eqn:He; [unfold Items; by rewrite Hs, He|].
  destruct (Items_spec (range_fuel m) m params Hwf Hs He) as (m1 & (n & es & E & Hst) & Hsw & ->); [unfold range_fuel; lia|].
  simpl. apply removeExpired_later in E as [Hm1 Hr]. split; [split; [apply Hst|congruence]|]. split; [done|by apply swept_by_subset].
Qed.

Lemma subset_revised (m m' : Mem) : (m_revisions m <= m_revisions m')%nat -> contents m' ⊆ contents m -> revised_by m -> revised_by m'.
Proof.
  intros Hle Hsub Hr k i Hi. destruct (Hr k i) as (j & ? & ?); [by eapply lookup_weaken|]. exists j. split; [lia|done].
Qed.

Definition after_read (params : ItemsParams) (s : RequestStore) : RequestStore :=
  let s0 := proj1_sig s in
  exist _ (exist _ (fst (Items (range_fuel (mem s0)) id params (mem s0))) (proj1 (Items_renewed s0 params)))
    (subset_revised _ _ (proj1 (proj2 (Items_renewed s0 params))) (proj2 (proj2 (Items_renewed s0 params))) (proj2_sig s)).

Definition read_range (params : ItemsParams) : M RequestWorld (list Item) := fun w =>
  let w := interfere w in
  ({| rw_store := after_read params (rw_store w); rw_others := rw_others w |},
   snd (Items (range_fuel (mem (store w))) id params (mem (store w)))).

#[export] Instance memory_requests : RequestBackend RequestWorld := {|
  rb_Get := fun k => let* out := server_call (DoGet k) in of_item out;
  rb_Create := fun i => let* out := server_call (DoCreate i) in of_lease out;
  rb_Put := fun i => let* out := server_call (DoPut i) in of_lease out;
  rb_ConditionalUpdate := fun i => let* out := server_call (DoConditionalUpdate i) in of_lease out;
  rb_Delete := fun k => let* out := server_call (DoDelete k) in of_unit out;
  rb_DeleteRange := fun a b => let* out := server_call (DoDeleteRange a b) in of_unit out;
  rb_Items := read_range;
  rb_Wait := fun w => (interfere w, Ok tt);
  rb_Now := fun w => m_now (mem (store w));
|}.

(** ** The laws *)

(** The store after a sweep. *)
Definition swept_world (w : RequestWorld) : RequestWorld :=
  {| rw_store := store_step (DoGet requests_start) (rw_store w); rw_others := rw_others w |}.

Lemma swept_stored w k : stored_request (swept_world w) k = after_expiry (mem (store w)) !! k.
Proof.
  destruct (call (DoGet requests_start) (store w)) as [s' r] eqn:E. apply call_spec in E as E'. destruct E' as [_ E'].
  simpl in E'. injection E' as Hc _. rewrite Hc. unfold stored_request, swept_world, store_step. cbn [rw_store proj1_sig]. by rewrite E.
Qed.

Lemma swept_others w : interleaved w (swept_world w).
Proof. apply (call_renewed _ _ _ _ (surjective_pairing _)). Qed.

Lemma server_call_spec o w w' r : server_call o w = (w', r) -> exists w1, interleaved w w1 /\
  match guard false o with
  | Some e => (forall k, stored_request w' k = stored_request w1 k) /\ r = Err e
  | None => exec false (CreateRevision (m_revisions (mem (store w1)))) o (after_expiry (mem (store w1))) =
            (contents (mem (store w')), r)
  end.
Proof.
  intros E. exists (interfere w). split; [apply interfere_others|]. unfold server_call in E. injection E as <- <-.
  set (w1 := interfere w). destruct (call o (store w1)) as [s' r] eqn:E. apply call_spec in E as E'. destruct E' as [_ E'].
  assert (snd (run o (mem (store w1))) = r) as -> by (by injection E).
  unfold stored_request. cbn [rw_store store_step proj1_sig]. rewrite E. cbn [fst]. destruct (guard false o); [|done]. by destruct E' as [-> ->].
Qed.

Class UniqueRevisions : Prop := {
  revision_inj :: Inj (=) (=) CreateRevision;
  revision_text n : CreateRevision n <> "";
}.

(** A call that writes one item, or fails and leaves what the sweep left. *)
Lemma write_law o w w' rev (i : Item) : (let* out := server_call o in of_lease out) w = (w', Ok rev) ->
  (forall rev kv, exec false rev o kv = (put_item (with_rev rev i) kv, Ok (OutLease (NewLease (with_rev rev i)))) \/
     exists e, (exec false rev o kv).2 = Err e) ->
  exists w1, interleaved w w1 /\
    exec false rev o (after_expiry (mem (store w1))) =
      (put_item (with_rev rev i) (after_expiry (mem (store w1))), Ok (OutLease (NewLease (with_rev rev i)))) /\
    forall k, stored_request w' k = if bool_decide (k = k_s (i_Key i)) then Some (with_rev rev i) else after_expiry (mem (store w1)) !! k.
Proof.
  intros (w2 & out & E & Eout)%mthen_ok Hx. apply server_call_spec in E as (w1 & Ho & E).
  destruct (guard false o); [by destruct E as [_ ?]|]. exists w1. split; [done|].
  destruct (Hx (CreateRevision (m_revisions (mem (store w1)))) (after_expiry (mem (store w1)))) as [Hw|[e He]];
    [|rewrite E in He; simpl in He; congruence].
  rewrite Hw in E. injection E as Hc <-. injection Eout as <- <-. split; [done|]. intros k. unfold stored_request. rewrite <- Hc.
  unfold put_item. case_bool_decide as Hk; [subst; apply lookup_insert_eq|]. by rewrite lookup_insert_ne.
Qed.

Lemma lease_others o w w' r : (let* out := server_call o in of_lease out) w = (w', r) -> interleaved w w'.
Proof. apply step_in_mthen; [apply _|apply server_call_others|]. intros [] ? ? ? [= <- <-]; done. Qed.

#[export] Instance memory_requests_laws `{!UniqueRevisions} : RequestBackendLaws RequestWorld stored_request interleaved.
Proof.
  split.
  - apply _.
  - intros w w' k i i' [_ Hr] Hi Hi' E. apply Hr in Hi' as [Hi'|(j & [Hj _] & Erev)]; [unfold stored_request in Hi; congruence|].
    destruct (proj2_sig (rw_store w) _ _ Hi) as (j' & Hj' & Erev'). rewrite <- E, Erev' in Erev.
    apply (inj CreateRevision) in Erev. lia.
  - intros w k i Hi. destruct (proj2_sig (rw_store w) _ _ Hi) as (j & _ & ->). apply revision_text.
  - intros w w' r [= <- <-]. apply interfere_others.
  - intros k. apply step_in_mthen; [apply _|apply server_call_others|]. intros [] w w' r [= <- <-]; done.
  - intros k w w' i (w1 & out & E & Eout)%mthen_ok. apply server_call_spec in E as (w2 & _ & E). simpl in E.
    destruct (IsZero k); [by destruct E|]. injection E as Hc Ho. destruct (_ !! k_s k) as [j|] eqn:Ej in Ho; [|done].
    injection Ho as <-. injection Eout as <- <-. unfold stored_request. by rewrite <- Hc.
  - intros k w w' e. cbn [rb_Get memory_requests]. unfold mthen. destruct (server_call (DoGet k) w) as [w1 out] eqn:E.
    apply server_call_spec in E as (w2 & _ & E). simpl in E. destruct (IsZero k); [by destruct E as [_ ->]; intros [= <- <-]|].
    injection E as Hc Ho. unfold stored_request. destruct (_ !! k_s k) as [j|] eqn:Ej in Ho; subst out; [by intros|].
    intros [= <- _] _. by rewrite <- Hc.
  - intros i w w' rev E. apply (write_law _ _ _ _ i) in E as (w1 & Ho & Hx & Hall).
    + exists (swept_world w1). split; [by transitivity w1; [|apply swept_others]|]. setoid_rewrite swept_stored. split; [|done].
      simpl in Hx. by destruct (_ !! _) in Hx |- *.
    + intros rev' kv. simpl. destruct (kv !! _); [right; eauto|by left].
  - intros i w w' e. apply lease_others.
  - intros i w w' rev E. apply (write_law _ _ _ _ i) in E as (w1 & Ho & Hx & Hall).
    + exists (swept_world w1). simpl in Hx. destruct (_ !! _) as [i0|] eqn:Ei in Hx; [|done]. exists i0.
      split; [by transitivity w1; [|apply swept_others]|]. setoid_rewrite swept_stored. split_and!; [done| |done].
      by case_bool_decide.
    + intros rev' kv. simpl. destruct (kv !! _); [|right; eauto]. case_bool_decide; [by left|right; eauto].
  - intros i w w' e. apply lease_others.
Qed.

(** The worlds in which nobody else writes and nothing expires. *)
Record calm_world (w : RequestWorld) : Prop := {
  calm_others : rw_others w = [];
  calm_forever k i : stored_request w k = Some i -> i_Expires i = None;
  calm_size : Z.of_nat (size (contents (mem (store w)))) <= DefaultRangeLimit;
}.

Lemma calm_sweep w : calm_world w -> after_expiry (mem (store w)) = contents (mem (store w)).
Proof.
  intros [_ Hf _]. apply map_eq. intros k. pose proof (store_swept (store w)) as Hsw.
  destruct (contents (mem (store w)) !! k) as [i|] eqn:Ei.
  - apply (sw_kept _ _ _ Hsw); [done|]. intros (e & He & _). rewrite (Hf k i Ei) in He. done.
  - eapply lookup_weaken_None; [exact Ei|apply sweep_subset].
Qed.

(** Keys in order are no more than the keys there are. *)
Lemma sorted_size (kv : KV) (l : list Item) : StronglySorted (fun i j => before (k_s (i_Key i)) (k_s (i_Key j))) l ->
  (forall i, i ∈ l -> kv !! k_s (i_Key i) = Some i) -> (length l <= size kv)%nat.
Proof.
  intros Hs Hin. rewrite <- size_dom, <- (length_map (fun i => k_s (i_Key i)) l).
  assert (Hnd : NoDup ((fun i => k_s (i_Key i)) <$> l)).
  { clear Hin. induction Hs as [|i l Hs IH Hi]; simpl; constructor; [|done].
    intros (j & Ej & Hj)%list_elem_of_fmap. rewrite Forall_forall in Hi. specialize (Hi j Hj). rewrite Ej in Hi. by apply before_irrefl in Hi. }
  change (map (fun i => k_s (i_Key i)) l) with ((fun i => k_s (i_Key i)) <$> l).
  rewrite <- (size_list_to_set (C := gset string) _ Hnd). apply subseteq_size. intros k.
  rewrite elem_of_list_to_set. intros (i & -> & Hi)%list_elem_of_fmap. apply elem_of_dom. rewrite Hin by done. eauto.
Qed.

#[export] Instance memory_range : RequestRange RequestWorld stored_request calm_world.
Proof.
  intros params w Hc Hs He Hd Hl. destruct (Items_spec (range_fuel (mem (store w))) (mem (store w)) params) as (m1 & (n & es & E & Hst) & _ & Hi).
  { apply (proj2_sig (store w)). } { done. } { done. } { unfold range_fuel. lia. }
  assert (Hm1 : contents m1 = contents (mem (store w))) by (rewrite <- (calm_sweep _ Hc); unfold after_expiry; by rewrite E).
  destruct (reference_range_values m1 params) as (l & Hr & Hsorted & Hin); [apply Hst|].
  rewrite Hd in Hsorted. rewrite Hl, Hm1 in *. simpl in Hr.
  assert (Hw : interfere w = w) by (unfold interfere; by rewrite (calm_others _ Hc)).
  assert (Hlen : reference_range m1 params = l).
  { rewrite Hr. apply take_ge. pose proof (sorted_size _ l Hsorted (fun i Hil => proj1 (proj1 (Hin i) Hil))).
    pose proof (calm_size _ Hc). unfold DefaultRangeLimit in *. lia. }
  set (w' := {| rw_store := after_read params (rw_store w); rw_others := rw_others w |}).
  assert (Hst' : forall k, stored_request w' k = stored_request w k).
  { intros k. unfold stored_request, w', after_read. cbn [rw_store proj1_sig]. by rewrite Hi, <- Hm1. }
  exists w', l. split_and!; [cbn [rb_Items memory_requests]; unfold read_range; by rewrite Hw, Hi, Hlen| |done|done|done].
  split; [apply Hc|intros k i; rewrite Hst'; apply Hc|].
  unfold w', after_read. cbn [rw_store proj1_sig]. rewrite Hi. simpl. rewrite Hm1. apply Hc.
Qed.
End Revisions.
