(* ===== verification/AccessScenario.v ===== *)
(** * A concrete cluster for the access theorems

    Three roles, a server and an identity that a granted request restricts to
    it.  Label expressions are read as the two literals, no environment
    variable is set. *)

From S2P Require Import Prelude GoStrings Utf8 Types Regexp Scenario Roles RoleLimits RoleAccess.
From S2P Require Import CheckAccess RoleRules RoleGrants Checker HostUsers RoleMap.

#[export] Instance literal_expressions : LabelExpressions :=
  fun expression _ _ _ =>
    if bool_decide (expression = "true") then Ok true
    else if bool_decide (expression = "false") then Ok false
    else Err (BadParameter "parsing expression" []).
#[export] Instance empty_environment : Environment := fun _ => "".
#[export] Instance literal_matchers : AnyMatchers := fun l => Ok (fun x => slices_Contains l x).

(** Conditions on servers and databases, rules and host groups. *)
Definition conditions (namespaces logins : list string) (labels : Labels) (rules : list Rule)
    (databases kube groups : list string) : RoleConditions := {|
  rc_Logins := logins; rc_Namespaces := namespaces; rc_NodeLabels := labels; rc_Rules := rules;
  rc_KubeGroups := kube; rc_KubeUsers := []; rc_AppLabels := ∅; rc_ClusterLabels := ∅;
  rc_KubernetesLabels := ∅; rc_DatabaseLabels := ∅; rc_DatabaseNames := databases; rc_DatabaseUsers := [];
  rc_Impersonate := None; rc_AWSRoleARNs := []; rc_WindowsDesktopLogins := [];
  rc_WindowsDesktopLabels := ∅; rc_RequireSessionJoin := []; rc_JoinSessions := []; rc_HostGroups := groups; rc_HostSudoers := groups;
  rc_AzureIdentities := []; rc_GCPServiceAccounts := []; rc_DatabaseServiceLabels := ∅; rc_GroupLabels := ∅;
  rc_DesktopGroups := []; rc_DatabaseRoles := []; rc_NodeLabelsExpression := "";
  rc_AppLabelsExpression := ""; rc_ClusterLabelsExpression := ""; rc_KubernetesLabelsExpression := "";
  rc_DatabaseLabelsExpression := ""; rc_DatabaseServiceLabelsExpression := "";
  rc_WindowsDesktopLabelsExpression := ""; rc_GroupLabelsExpression := ""; rc_SPIFFE := [];
  rc_AccountAssignments := []; rc_GitHubPermissions := []; rc_WorkloadIdentityLabels := ∅;
  rc_WorkloadIdentityLabelsExpression := ""; rc_MCP := None; rc_LinuxDesktopLogins := [];
  rc_LinuxDesktopLabels := ∅; rc_LinuxDesktopLabelsExpression := ""; rc_BeamLabels := ∅;
  rc_BeamLabelsExpression := ""; rc_KubernetesResources := []; rc_Request := None; rc_ReviewRequests := None |}.

(** Options that ask for multi-factor authentication, or not. *)
Definition options (mfa : RequireMFAType) (ttl : duration) (host : CreateHostUserMode) : RoleOptions := {|
  ro_ForwardAgent := false; ro_MaxSessionTTL := ttl; ro_PortForwarding := None;
  ro_CertificateFormat := ""; ro_ClientIdleTimeout := 0; ro_DisconnectExpiredCert := false; ro_BPF := [];
  ro_PermitX11Forwarding := false; ro_MaxConnections := 0; ro_MaxSessions := 0; ro_Lock := "";
  ro_RecordSession := None; ro_DesktopClipboard := None; ro_MaxKubernetesConnections := 0;
  ro_DesktopDirectorySharing := None; ro_CreateHostUser := None; ro_PinSourceIP := false;
  ro_SSHFileCopy := None; ro_RequireMFAType := mfa; ro_DeviceTrustMode := ""; ro_IDP := None;
  ro_CreateDesktopUser := None; ro_CreateDatabaseUser := None; ro_CreateHostUserMode := host;
  ro_CreateDatabaseUserMode := DB_USER_MODE_UNSPECIFIED; ro_MFAVerificationInterval := 0;
  ro_CreateHostUserDefaultShell := ""; ro_SSHPortForwarding := None;
  ro_WebTerminalClipboardMode := CLIPBOARD_MODE_UNSPECIFIED;
  ro_RequestAccess := ""; ro_RequestPrompt := "" |}.

Definition role (name : string) (opts : RoleOptions) (allow deny : RoleConditions) : RoleV6 :=
  {| role_Kind := KindRole; role_Version := V8; role_Name := name; role_Options := opts;
     role_Allow := allow; role_Deny := deny |}.

Definition everywhere : list string := [DefaultNamespace].
Definition no_denials : RoleConditions := conditions [] [] ∅ [] [] [] [].

(** Servers of production as [dev], with a second factor. *)
Definition developer : RoleV6 :=
  role "developer" (options RequireMFAType_SESSION (8 * 3600) HOST_USER_MODE_KEEP)
    (conditions everywhere ["dev"; "root"] {["env" := ["prod"]]} [NewRule KindNode [VerbList; VerbRead]]
       ["orders"; "audit"] ["viewers"] ["wheel"; "docker"]) no_denials.

(** Never as [root], nor to the audit database. *)
Definition guarded_role : RoleV6 :=
  role "guarded" (options RequireMFAType_OFF 3600 HOST_USER_MODE_KEEP)
    (conditions everywhere [] ∅ [] [] [] [])
    (conditions everywhere ["root"] ∅ [NewRule "token" [Wildcard]] ["audit"] [] ["docker"]).

Definition roles : RoleSet := NewRoleSet [developer; guarded_role].

Definition server : AccessCheckable :=
  {| res_Kind := KindNode; res_SubKind := ""; res_Name := "web-1"; res_Namespace := "";
     res_Labels := MapLabelGetter {["env" := "prod"]}; res_IdentityCenter := None; res_IsAWSConsole := None |}.

(** The state of an attempt after, or before, the second factor. *)
Definition attempt (verified : bool) : AccessState :=
  {| as_MFARequired := MFARequiredPerRole; as_MFAVerified := verified; as_EnableDeviceVerification := true;
     as_DeviceVerified := false; as_IsBot := false; as_ReturnPreconditions := false |}.

(** One server, as [dev]. *)
Definition granted_server : ResourceAccessID :=
  {| GetResourceID := {| rid_ClusterName := "main"; rid_Kind := KindNode; rid_Name := "web-1";
                         rid_SubResourceName := "" |};
     GetConstraints := Some {| con_Version := V1; con_Details := Some (Ssh ["dev"]) |} |}.

Definition identity (ids : list ResourceAccessID) (session : string) : accessChecker :=
  newAccessChecker
    {| ai_ScopePin := false; ai_Roles := ["developer"; "guarded"]; ai_Traits := ∅;
       ai_AllowedResourceAccessIDs := ids; ai_DelegationSessionID := session; ai_Username := "ann" |}
    "main" roles.

Definition ann : accessChecker := identity [] "".
Definition restricted : accessChecker := identity [granted_server] "".
Definition delegated : accessChecker := identity [granted_server] "session-1".

Example dev_after_mfa : CheckAccess restricted server (attempt true) [loginMatcher "dev"] = Ok tt.
Proof. vm_compute. reflexivity. Qed.
Example dev_before_mfa :
  CheckConditionalAccess restricted server (attempt false) [loginMatcher "dev"]
  = Ok [PRECONDITION_KIND_IN_BAND_MFA].
Proof. vm_compute. reflexivity. Qed.
Example root_is_denied : is_ok (CheckAccess ann server (attempt true) [loginMatcher "root"]) = false.
Proof. vm_compute. reflexivity. Qed.

(** ** The second role that denies *)

Definition denies_one (name sudoer : string) : RoleV6 :=
  role name (options RequireMFAType_OFF 0 HOST_USER_MODE_KEEP) no_denials
    (conditions everywhere [] {["env" := ["prod"]]} [] [] [] [sudoer]).

(** Two roles that deny one sudoer each: the second denial has no effect. *)
Example second_denial_has_no_effect :
  HostSudoers (newAccessChecker (ac_info ann) "main"
    (NewRoleSet [developer; denies_one "x" "wheel"; denies_one "y" "docker"])) server = Ok ["docker"].
Proof. vm_compute. reflexivity. Qed.
