(* ===== verification/RolloutScenario.v ===== *)
(** * An update rollout

    A cluster with a development and a production group that updates on
    Mondays, its reports and canaries, and the cases in which the code does
    not do what it says. *)

From stdpp Require Import pretty.
From Stdlib Require Import Ascii.
From S2P Require Import Prelude GoStrings Utf8 Types Memory Autoupdate Rollout RolloutTransitions.
From S2P Require Import RolloutReconciler Scenario RolloutFacts RolloutManual RolloutSteps.

(** ** A store that keeps the laws of the reconciler's client

    The resources of a cluster, with the conditional writes of
    [lib/services/local] and other servers that act between the calls: each
    call first lets the next batch of [cl_others] happen.  The revision of the
    rollout is the number of writes. *)

(** What another server may do. *)
Inductive other_action :=
| OtherConfig (config : option AutoUpdateConfig)
| OtherVersion (version : option AutoUpdateVersion)
| OtherWrite (r : AutoUpdateAgentRollout)
| OtherDelete
| OtherClock (now : gotime).

Record cluster := {
  cl_config : option AutoUpdateConfig;
  cl_version : option AutoUpdateVersion;
  cl_maintenance : option (option AgentUpgradeWindow);
  cl_writes : list AutoUpdateAgentRollout;       (* newest first *)
  cl_deleted : bool;
  cl_now : gotime;
  cl_others : list (list other_action);
  cl_events : list rollout_event;
}.

Definition with_revision (rev : string) (r : AutoUpdateAgentRollout) : AutoUpdateAgentRollout :=
  {| ro_Metadata := ro_Metadata r; ro_Revision := rev; ro_Spec := ro_Spec r; ro_Status := ro_Status r |}.

Definition cl_stored (c : cluster) : option AutoUpdateAgentRollout :=
  if cl_deleted c then None else with_revision (pretty (length (cl_writes c))) <$> head (cl_writes c).

Definition cl_write (r : AutoUpdateAgentRollout) (c : cluster) : cluster :=
  {| cl_config := cl_config c; cl_version := cl_version c; cl_maintenance := cl_maintenance c;
     cl_writes := r :: cl_writes c; cl_deleted := false; cl_now := cl_now c; cl_others := cl_others c;
     cl_events := cl_events c |}.

Definition cl_delete (c : cluster) : cluster :=
  {| cl_config := cl_config c; cl_version := cl_version c; cl_maintenance := cl_maintenance c;
     cl_writes := cl_writes c; cl_deleted := true; cl_now := cl_now c; cl_others := cl_others c;
     cl_events := cl_events c |}.

Definition other_step (c : cluster) (a : other_action) : cluster :=
  match a with
  | OtherConfig config => {| cl_config := config; cl_version := cl_version c; cl_maintenance := cl_maintenance c;
      cl_writes := cl_writes c; cl_deleted := cl_deleted c; cl_now := cl_now c; cl_others := cl_others c; cl_events := cl_events c |}
  | OtherVersion version => {| cl_config := cl_config c; cl_version := version; cl_maintenance := cl_maintenance c;
      cl_writes := cl_writes c; cl_deleted := cl_deleted c; cl_now := cl_now c; cl_others := cl_others c; cl_events := cl_events c |}
  | OtherWrite r => cl_write r c
  | OtherDelete => cl_delete c
  | OtherClock now => {| cl_config := cl_config c; cl_version := cl_version c; cl_maintenance := cl_maintenance c;
      cl_writes := cl_writes c; cl_deleted := cl_deleted c; cl_now := now; cl_others := cl_others c; cl_events := cl_events c |}
  end.

(** The next batch. *)
Definition interfere (c : cluster) : cluster :=
  match cl_others c with
  | [] => c
  | batch :: rest =>
      foldl other_step {| cl_config := cl_config c; cl_version := cl_version c; cl_maintenance := cl_maintenance c;
        cl_writes := cl_writes c; cl_deleted := cl_deleted c; cl_now := cl_now c; cl_others := rest;
        cl_events := cl_events c |} batch
  end.

(** The others only add writes. *)
Definition cl_other (c c' : cluster) : Prop := cl_writes c `suffix_of` cl_writes c'.

#[export] Instance cl_other_preorder : PreOrder cl_other.
Proof. split; [intros c; unfold cl_other; done|]. intros a b c. unfold cl_other. by etrans. Qed.

Lemma other_step_other c a : cl_other c (other_step c a).
Proof. destruct a; unfold cl_other; simpl; [done|done|by apply suffix_cons_r|done|done]. Qed.

Lemma interfere_other c : cl_other c (interfere c).
Proof.
  unfold interfere. destruct (cl_others c) as [|batch rest]; [done|].
  set (c0 := {| cl_others := rest |}). transitivity c0; [by unfold cl_other|]. clearbody c0. clear. revert c0.
  induction batch as [|a batch IH]; intros c0; [done|]. simpl. transitivity (other_step c0 a); [apply other_step_other|apply IH].
Qed.

Definition missing : error := NotFound "%s %q doesn't exist" [].

Definition cl_read {A} (f : cluster -> option A) : M cluster A := fun c =>
  let c := interfere c in (c, match f c with Some a => Ok a | None => Err missing end).

Section Store.
Context `{UnicodeTables} `{SemVer}.

Definition cl_create (r : AutoUpdateAgentRollout) : M cluster AutoUpdateAgentRollout := fun c =>
  match ValidateAutoUpdateAgentRollout (Some r) with
  | Err e => (c, Err e)
  | Ok _ =>
      let c := interfere c in
      match cl_stored c with
      | Some _ => (c, Err (AlreadyExists "%s %q already exists" []))
      | None => let c := cl_write r c in (c, Ok (with_revision (pretty (length (cl_writes c))) r))
      end
  end.

Definition cl_update (r : AutoUpdateAgentRollout) : M cluster AutoUpdateAgentRollout := fun c =>
  match ValidateAutoUpdateAgentRollout (Some r) with
  | Err e => (c, Err e)
  | Ok _ =>
      let c := interfere c in
      match cl_stored c with
      | Some r0 =>
          if bool_decide (ro_Revision r0 = ro_Revision r)
          then let c := cl_write r c in (c, Ok (with_revision (pretty (length (cl_writes c))) r))
          else (c, Err ErrIncorrectRevision)
      | None => (c, Err ErrIncorrectRevision)
      end
  end.

Definition cl_remove : M cluster unit := fun c =>
  let c := interfere c in
  match cl_stored c with
  | Some _ => (cl_delete c, Ok tt)
  | None => (c, Err missing)
  end.

#[export] Instance cluster_store : RolloutStore cluster := {|
  GetAutoUpdateConfig := cl_read cl_config;
  GetAutoUpdateVersion := cl_read cl_version;
  GetAutoUpdateAgentRollout := cl_read cl_stored;
  CreateAutoUpdateAgentRollout := cl_create;
  UpdateAutoUpdateAgentRollout := cl_update;
  DeleteAutoUpdateAgentRollout := cl_remove;
  GetClusterMaintenance := cl_read cl_maintenance;
  ClockNow := fun c => let c := interfere c in (c, Ok (cl_now c));
  ContextErr := fun _ => None;
  EmitAuditEvent := fun ev c =>
    {| cl_config := cl_config c; cl_version := cl_version c; cl_maintenance := cl_maintenance c;
       cl_writes := cl_writes c; cl_deleted := cl_deleted c; cl_now := cl_now c; cl_others := cl_others c;
         cl_events := (cl_events c ++ [ev])%list |}
|}.

Lemma cl_read_other {A} (f : cluster -> option A) : step_in cl_other (cl_read f).
Proof. intros c c' r. unfold cl_read. intros [= <- _]. apply interfere_other. Qed.

Lemma stored_inv c r : cl_stored c = Some r ->
  cl_deleted c = false /\ exists w ws, cl_writes c = w :: ws /\ r = with_revision (pretty (S (length ws))) w.
Proof.
  unfold cl_stored. destruct (cl_deleted c); [done|]. destruct (cl_writes c) as [|w ws]; [done|]. intros [= <-]. eauto.
Qed.

#[export] Instance cluster_laws : RolloutStoreLaws cluster cl_stored cl_other.
Proof.
  split; try apply _; try apply cl_read_other.
  - intros c c' r r' [more Hm] [_ (w & ws & Ew & ->)]%stored_inv [_ (w' & ws' & Ew' & ->)]%stored_inv Hrev.
    simpl in Hrev. apply (inj pretty) in Hrev. injection Hrev as Hl. rewrite Ew, Ew' in Hm.
    destruct more as [|x more]; [by injection Hm as -> ->|]. apply (f_equal length) in Hm. rewrite length_app in Hm. simpl in Hm. lia.
  - intros c c' r [= <- _]. apply interfere_other.
  - intros ev c. unfold cl_other. done.
  - done.
  - intros c c' r. simpl. unfold cl_read. destruct (cl_stored (interfere c)) eqn:E; intros [= <- <-]. done.
  - intros c c' e. simpl. unfold cl_read. destruct (cl_stored (interfere c)) eqn:E; intros [= <- <-]. done.
  - intros c c' r r'. change (CreateAutoUpdateAgentRollout r c) with (cl_create r c). unfold cl_create. destruct (ValidateAutoUpdateAgentRollout (Some r)) as [[]|] eqn:Ev; [|done].
    destruct (cl_stored (interfere c)) eqn:E; [done|]. intros [= <- <-]. exists (interfere c).
    split_and!; [apply interfere_other|done..].
  - intros c c' r e. change (CreateAutoUpdateAgentRollout r c) with (cl_create r c). unfold cl_create. destruct (ValidateAutoUpdateAgentRollout (Some r)); [|intros [= <- _]; by unfold cl_other].
    destruct (cl_stored (interfere c)); [|done]. intros [= <- _]. apply interfere_other.
  - intros c c' r r'. change (UpdateAutoUpdateAgentRollout r c) with (cl_update r c). unfold cl_update. destruct (ValidateAutoUpdateAgentRollout (Some r)) as [[]|] eqn:Ev; [|done].
    destruct (cl_stored (interfere c)) as [r0|] eqn:E; [|done]. case_bool_decide as Hr; [|done]. intros [= <- <-].
    exists (interfere c), r0. split_and!; [apply interfere_other|done..].
  - intros c c' r e. change (UpdateAutoUpdateAgentRollout r c) with (cl_update r c). unfold cl_update. destruct (ValidateAutoUpdateAgentRollout (Some r)); [|intros [= <- _]; by unfold cl_other].
    destruct (cl_stored (interfere c)) as [r0|]; [|intros [= <- _]; apply interfere_other].
    case_bool_decide; [done|]. intros [= <- _]. apply interfere_other.
  - intros c c' u. simpl. unfold cl_remove. destruct (cl_stored (interfere c)) as [r0|] eqn:E; [|done]. intros [= <- _].
    exists (interfere c), r0. split; [apply interfere_other|done].
  - intros c c' e. simpl. unfold cl_remove. destruct (cl_stored (interfere c)); [done|]. intros [= <- _]. apply interfere_other.
Qed.

(** ** Without other servers *)

Definition stays_quiet (c c' : cluster) : Prop := cl_others c = [] -> c' = c.

#[export] Instance stays_quiet_preorder : PreOrder stays_quiet.
Proof. split; [by intros c|]. intros a b c Hab Hbc Hq. rewrite Hbc; [by apply Hab|]. by rewrite Hab. Qed.

Lemma interfere_quiet c : stays_quiet c (interfere c).
Proof. intros Hq. unfold interfere. by rewrite Hq. Qed.

Lemma cl_read_quiet {A} (f : cluster -> option A) : step_in stays_quiet (cl_read f).
Proof. intros c c' r [= <- _]. apply interfere_quiet. Qed.

Lemma clock_quiet : step_in stays_quiet ClockNow.
Proof. intros c c' r [= <- _]. apply interfere_quiet. Qed.

Lemma unless_missing_read {A} (f : cluster -> option A) c : cl_others c = [] ->
  unless_missing (cl_read f) c = (c, Ok (f c)).
Proof.
  intros Hq. unfold unless_missing, mthen, mtry, cl_read. rewrite interfere_quiet by done. by destruct (f c).
Qed.

Context `{RolloutClient}.

Lemma computeStatus_quiet fuel existing spec schedules :
  step_in stays_quiet (computeStatus fuel existing spec schedules).
Proof.
  unfold computeStatus, status_groups, makeGroupsStatus, defaultConfigGroup, unless_missing.
  step_in_auto; try apply clock_quiet. apply cl_read_quiet.
Qed.

(** The reads of a try. *)
Lemma quiet_reads fuel c : cl_others c = [] ->
  tryReconcile fuel c =
  match version_agents (cl_version c) with
  | None => match cl_stored c with None => (c, Ok tt) | Some _ => cl_remove c end
  | Some v =>
      (let* spec := mlift (buildRolloutSpec (config_agents (cl_config c)) v) in
       let* status := computeStatus fuel (cl_stored c) spec (ca_Schedules (config_agents (cl_config c))) in
       if bool_decide ((r ← cl_stored c; ro_Spec r) = Some spec /\ (r ← cl_stored c; ro_Status r) = Some status)
       then mret tt
       else match cl_stored c with
       | None => let* r := mlift (new_rollout spec status) in do* cl_create r; mret tt
       | Some r => let r := changed_rollout r spec status in
           do* mlift (ValidateAutoUpdateAgentRollout (Some r)); do* cl_update r; mret tt
       end) c
  end.
Proof.
  intros Hq. unfold tryReconcile.
  change GetAutoUpdateConfig with (cl_read cl_config). change GetAutoUpdateVersion with (cl_read cl_version).
  change GetAutoUpdateAgentRollout with (cl_read cl_stored).
  unfold mthen at 1. rewrite unless_missing_read by done. unfold mthen at 1. rewrite unless_missing_read by done.
  unfold mthen at 1. rewrite unless_missing_read by done.
  destruct (version_agents (cl_version c)); [done|]. by destruct (cl_stored c).
Qed.

Lemma quiet_try_absent fuel c : cl_others c = [] -> version_agents (cl_version c) = None ->
  exists c', tryReconcile fuel c = (c', Ok tt) /\ cl_stored c' = None.
Proof.
  intros Hq Hv. rewrite quiet_reads, Hv by done. destruct (cl_stored c) as [r|] eqn:E; [|by exists c].
  unfold cl_remove. rewrite interfere_quiet by done. rewrite E. by exists (cl_delete c).
Qed.

Lemma quiet_try_present fuel c v spec status c1 : cl_others c = [] -> version_agents (cl_version c) = Some v ->
  buildRolloutSpec (config_agents (cl_config c)) v = Ok spec ->
  computeStatus fuel (cl_stored c) spec (ca_Schedules (config_agents (cl_config c))) c = (c1, Ok status) ->
  (forall r, cl_stored c = Some r -> ValidateAutoUpdateAgentRollout (Some (changed_rollout r spec status)) = Ok tt) ->
  (cl_stored c = None -> exists r, new_rollout spec status = Ok r /\ ValidateAutoUpdateAgentRollout (Some r) = Ok tt) ->
  exists c' r, tryReconcile fuel c = (c', Ok tt) /\ cl_stored c' = Some r /\ ro_Spec r = Some spec /\ ro_Status r = Some status.
Proof.
  intros Hq Hv Hb Hc Hvu Hvc. rewrite quiet_reads, Hv by done. unfold mthen at 1, mlift at 1. rewrite Hb.
  unfold mthen at 1. rewrite Hc. rewrite (computeStatus_quiet _ _ _ _ _ _ _ Hc Hq) in *. clear Hc.
  destruct (cl_stored c) as [r0|] eqn:Es.
  - specialize (Hvu r0 eq_refl). case_bool_decide as Hsame; [exists c, r0; destruct Hsame; by split_and!|].
    set (n := changed_rollout r0 spec status) in *. unfold mthen, mlift. rewrite Hvu.
    unfold cl_update. rewrite Hvu, interfere_quiet, Es by done. rewrite bool_decide_true by done.
    by exists (cl_write n c), (with_revision (pretty (length (cl_writes (cl_write n c)))) n).
  - destruct (Hvc eq_refl) as (n & Hn & Hvn). case_bool_decide as Hsame; [by destruct Hsame|].
    unfold mthen, mlift. rewrite Hn. unfold cl_create. rewrite Hvn, interfere_quiet, Es by done.
    exists (cl_write n c), (with_revision (pretty (length (cl_writes (cl_write n c)))) n).
    split; [done|]. split; [done|]. unfold new_rollout in Hn. destruct (NewAutoUpdateAgentRollout _) as [m|] eqn:Em; [|done].
    injection Hn as <-. unfold NewAutoUpdateAgentRollout in Em. inv_ok. by split.
Qed.
End Store.

(** ** Versions and agents *)

(** A version is three numbers with dots, as text. *)
#[export] Instance text_versions : SemVer :=
  {| semver := string;
     semver_NewVersion := fun s => if bool_decide (length (Split s "."%char) = 3%nat) then Ok s else Err (BadParameter "invalid version" []);
     semver_Equal := fun a b => bool_decide (a = b) |}.

Definition monday : time := 1736121600 * Second.    (* 2025-01-06, midnight UTC *)
Definition at_hour (h m : Z) : gotime := UTC (monday + h * Hour + m * Minute).

Definition agents_report (updated total : Z) : AutoUpdateAgentReport :=
  {| rep_Name := "auth"; rep_Spec := Some {| rs_Timestamp := Some (monday + 48 * Hour);
     rs_Groups := <["dev" := list_to_map [("2.0.0", updated); ("1.0.0", total - updated)]]> ∅ |} |}.

Definition canary (id host : string) : Canary :=
  {| cn_UpdaterId := id; cn_HostId := host; cn_Hostname := host; cn_Success := false |}.

(** Ten of ten development agents run the new version; two canaries. *)
#[export] Instance demo_agents : RolloutClient :=
  {| ListReports := fun token => Ok ([agents_report 10 10], "");
     SampleAgents := fun group n others => Ok [canary "u1" "h1"; canary "u2" "h2"];
     LookupAgent := fun host => if bool_decide (host = "h1") then Ok ["v2.0.0"] else Ok ["2.0.0"; "1.0.0"] |}.

(** ** Resources *)

Definition dev_group : AgentAutoUpdateGroup :=
  {| ag_Name := "dev"; ag_Days := ["Mon"]; ag_StartHour := 9; ag_WaitHours := 0; ag_CanaryCount := 0 |}.
Definition prod_group : AgentAutoUpdateGroup :=
  {| ag_Name := "prod"; ag_Days := ["Mon"; "Tue"]; ag_StartHour := 11; ag_WaitHours := 1; ag_CanaryCount := 2 |}.

Definition demo_agents_config : AutoUpdateConfigSpecAgents :=
  {| ca_Mode := "enabled"; ca_Strategy := "halt-on-error"; ca_MaintenanceWindowDuration := None;
     ca_Schedules := Some [dev_group; prod_group] |}.
Definition demo_config : AutoUpdateConfig :=
  {| cfg_Metadata := Some "autoupdate-config"; cfg_Spec := Some {| cs_Tools := None; cs_Agents := Some demo_agents_config |} |}.
Definition demo_version_agents (target : string) : AutoUpdateVersionSpecAgents :=
  {| va_StartVersion := "1.0.0"; va_TargetVersion := target; va_Schedule := "regular"; va_Mode := "enabled" |}.
Definition demo_version (target : string) : AutoUpdateVersion :=
  {| ver_Metadata := Some "autoupdate-version";
     ver_Spec := Some {| vs_Tools := None; vs_Agents := Some (demo_version_agents target) |} |}.

Definition demo_cluster (now : gotime) (others : list (list other_action)) : cluster :=
  {| cl_config := Some demo_config; cl_version := Some (demo_version "2.0.0"); cl_maintenance := None;
     cl_writes := []; cl_deleted := false; cl_now := now; cl_others := others; cl_events := [] |}.

Definition demo_rollout_spec : RolloutSpec :=
  {| sp_StartVersion := "1.0.0"; sp_TargetVersion := "2.0.0"; sp_Schedule := "regular"; sp_AutoupdateMode := "enabled";
     sp_Strategy := "halt-on-error"; sp_MaintenanceWindowDuration := None |}.

Definition group_states (c : cluster) : list AutoUpdateAgentGroupState :=
  match cl_stored c with Some r => g_State <$> GetGroups r | None => [] end.

Definition at_time (now : gotime) (c : cluster) : cluster := other_step c (OtherClock now).

(** ** A Monday *)

Definition run_at (now : gotime) (c : cluster) : cluster := (reconcile 5 (at_time now c)).1.

Definition demo_created : cluster := run_at (at_hour 8 0) (demo_cluster (at_hour 8 0) []).
Definition demo_dev : cluster := run_at (at_hour 9 30) demo_created.
Definition demo_done : cluster := run_at (at_hour 9 40) demo_dev.
Definition demo_canary : cluster := run_at (at_hour 11 10) demo_done.
Definition demo_prod : cluster := run_at (at_hour 11 20) demo_canary.

Example a_monday :
  group_states demo_created = [GROUP_UNSTARTED; GROUP_UNSTARTED] /\ group_states demo_dev = [GROUP_ACTIVE; GROUP_UNSTARTED] /\
  group_states demo_done = [GROUP_DONE; GROUP_UNSTARTED] /\ group_states demo_canary = [GROUP_DONE; GROUP_CANARY] /\
  group_states demo_prod = [GROUP_DONE; GROUP_ACTIVE].
Proof. vm_compute. done. Qed.

(** ** Cases for the findings *)

Definition demo_group (name : string) (state : AutoUpdateAgentGroupState) (start : option time) (wait canaries : Z)
  : RolloutGroup :=
  {| g_Name := name; g_StartTime := start; g_State := state; g_LastUpdateTime := None; g_LastUpdateReason := "";
     g_ConfigDays := ["Mon"]; g_ConfigStartHour := 9; g_ConfigWaitHours := wait; g_InitialCount := 0;
     g_PresentCount := 0; g_UpToDateCount := 0; g_CanaryCount := canaries; g_Canaries := [] |}.

(** A group that was forced done has no start time.  The group that waits for
    it fails, and the pass ends there: the group behind, which is over, stays
    active. *)
Example wait_without_start_ends_the_pass :
  let groups := [demo_group "a" GROUP_DONE None 0 0; demo_group "b" GROUP_UNSTARTED None 1 0;
                 demo_group "c" GROUP_ACTIVE (Some monday) 0 0] in
  let '(groups', r) := progress_haltOnError 5 demo_rollout_spec (Some monday) groups (at_hour 9 30) in
  is_ok r = false /\ g_State <$> groups' = [GROUP_DONE; GROUP_UNSTARTED; GROUP_ACTIVE] /\
  isDoneHaltOnError (demo_group "c" GROUP_ACTIVE (Some monday) 0 0) (at_hour 9 30) = (true, updateReasonUpdateComplete).
Proof. vm_compute. done. Qed.

(** Tuesday 01:30 UTC is a Monday on a server eight hours behind: a group for
    Tuesdays at one o'clock is not in its window there. *)
Example window_mixes_zones :
  let group := make_group (at_hour 0 0)
    {| ag_Name := "a"; ag_Days := ["Tue"]; ag_StartHour := 1; ag_WaitHours := 0; ag_CanaryCount := 0 |} in
  let now := monday + 25 * Hour + 30 * Minute in
  inWindow group (UTC now) Hour = Ok true /\
  inWindow group {| t_Unix := now; t_Offset := -8 * Hour |} Hour = Ok false.
Proof. vm_compute. done. Qed.

(** Two groups triggered in one call with no state asked for: the second one
    gets the state of the first, and its canaries are passed over. *)
Definition demo_rollout (groups : list RolloutGroup) : AutoUpdateAgentRollout :=
  {| ro_Metadata := Some "autoupdate-agent-rollout"; ro_Revision := "1"; ro_Spec := Some demo_rollout_spec;
     ro_Status := Some {| st_Groups := groups; st_State := ROLLOUT_UNSTARTED; st_StartTime := Some monday;
                          st_TimeOverride := None |} |}.

Definition triggered_states (names : list string) : list AutoUpdateAgentGroupState :=
  match TriggerGroups (Some (demo_rollout [demo_group "dev" GROUP_UNSTARTED None 0 0; demo_group "prod" GROUP_UNSTARTED None 0 2]))
          [] (GroupListToGroupSet names) GROUP_UNSPECIFIED (at_hour 9 30) with
  | Ok r => g_State <$> GetGroups r
  | Err _ => []
  end.

Example trigger_skips_canaries :
  triggered_states ["prod"] = [GROUP_UNSTARTED; GROUP_CANARY] /\
  triggered_states ["dev"; "prod"] = [GROUP_ACTIVE; GROUP_ACTIVE].
Proof. vm_compute. done. Qed.

(** The rollout of a version that is not valid. *)
Example invalid_version_is_a_nil_pointer :
  let c := demo_cluster (at_hour 8 0) [] in
  (reconcile 5 (other_step c (OtherVersion (Some (demo_version "2"))))).2 = Err nil_pointer.
Proof. vm_compute. done. Qed.

(** Another server creates the rollout first: the reconciliation fails, and is
    not tried again. *)
Example lost_create_is_not_retried :
  (reconcile 5 (demo_cluster (at_hour 8 0) [[]; []; []; []; [OtherWrite (demo_rollout [])]])).2 =
  Err (AlreadyExists "%s %q already exists" []).
Proof. vm_compute. done. Qed.

(** An update that was overtaken is. *)
Example lost_update_is_retried :
  let c := at_time (at_hour 9 30) demo_created in
  let c := {| cl_config := cl_config c; cl_version := cl_version c; cl_maintenance := None; cl_writes := cl_writes c;
              cl_deleted := false; cl_now := cl_now c; cl_events := [];
              cl_others := [[]; []; []; []; [OtherWrite (demo_rollout (make_group (at_hour 8 0) <$> [dev_group]))]] |} in
  let '(c', r) := reconcile 5 c in r = Ok tt /\ length (cl_writes c') = 3%nat /\ group_states c' = [GROUP_ACTIVE].
Proof. vm_compute. done. Qed.

(** One group after another at the same hour, with an hour to wait: the next
    day is early enough, the estimate has one day more.  And a wait that is
    too long for 32 bits passes every limit. *)
Definition hour_group (hour wait : Z) : AgentAutoUpdateGroup :=
  {| ag_Name := "g"; ag_Days := ["*"]; ag_StartHour := hour; ag_WaitHours := wait; ag_CanaryCount := 0 |}.

Example estimate_a_day_too_long :
  computeMinRolloutTime [hour_group 9 0; hour_group 9 1] = 49 /\ earliest_schedule (hour_group 9 0) [hour_group 9 1] + 1 - 9 = 25.
Proof. vm_compute. done. Qed.

Example estimate_overflows :
  computeMinRolloutTime [hour_group 9 0; hour_group 10 (2 ^ 31 - 1)] < maxRolloutDurationCloudHours.
Proof. vm_compute. done. Qed.

(** ** Where the theorems are applied *)

Definition monday_groups : list RolloutGroup :=
  [demo_group "dev" GROUP_DONE (Some monday) 0 0; demo_group "prod" GROUP_UNSTARTED None 0 2].

Definition monday_pass : list RolloutGroup * result unit :=
  progress_haltOnError 5 demo_rollout_spec (Some monday) monday_groups (at_hour 9 30).

Lemma monday_groups_ok : Forall canaries_ok monday_groups.
Proof.
  repeat constructor; apply Z.leb_le; vm_compute; done.
Qed.

Lemma monday_names : unique_names monday_groups.
Proof. unfold unique_names. simpl. apply (bool_decide_unpack _). vm_compute. done. Qed.

(** The cluster on the Monday at half past nine, and one that is overtaken
    while it reconciles. *)
Definition quiet_cluster : cluster := at_time (at_hour 9 30) demo_created.
Definition busy_cluster : cluster :=
  {| cl_config := cl_config quiet_cluster; cl_version := cl_version quiet_cluster; cl_maintenance := None;
     cl_writes := cl_writes quiet_cluster; cl_deleted := false; cl_now := cl_now quiet_cluster; cl_events := [];
     cl_others := [[]; []; []; [OtherWrite (demo_rollout monday_groups)]] |}.

Definition rolled_back : AutoUpdateAgentRollout :=
  match RollbackGroups (Some (demo_rollout monday_groups)) (GroupListToGroupSet ["dev"]) (at_hour 9 0) with
  | Ok r => r
  | Err _ => demo_rollout []
  end.
