(* ===== verification/PolicyClaims.v ===== *)
(** * What the connector policy promises

    The theorems about [Policy], [Regexp] and [Traits], each with a login or a
    connector it applies to. *)

From S2P Require Import Prelude GoStrings Utf8 Types Policy Regexp Traits Identity Backend State.
From S2P Require Import Groups LoginAudit Transport Service Users Callback Scenario.
From Stdlib Require Import Ascii.

(** C18: The policy accepts a connector exactly when it has the canonical issuer,
    PKCE, no delegation, provider, request-object, MFA or max-age setting,
    requires verified addresses, has one well-formed redirect URL, a domain
    allow-list, supported scopes with [email], consistent group settings, and
    claim mappings of the two accepted shapes. *)
Theorem validateConnector_accepts_policy `{UnicodeTables} `{UrlParser} (conn : OIDCConnector) :
  ValidateConnector (Some conn) = Ok tt <-> connector_policy conn.
Proof. apply ValidateConnector_ok. Qed.

(** Reading the allow-list label succeeds exactly when it names at least one
    domain and every name in it is a plain domain; what it returns are the
    trimmed lower-case names, each once, and nothing else. *)
Theorem workspace_domains_correct `{UnicodeTables} `{UrlParser} (conn : OIDCConnector) :
  ((exists ds, WorkspaceDomains conn = Ok ds) <->
   (exists p, p ∈ domainParts conn /\ normalDomain p <> "") /\
   (forall p, p ∈ domainParts conn -> normalDomain p <> "" -> invalidDomain (normalDomain p) = false)) /\
  (forall ds, WorkspaceDomains conn = Ok ds ->
     ds <> [] /\ NoDup ds /\ (forall d, d ∈ ds -> invalidDomain d = false) /\
     forall d, d ∈ ds <-> exists p, p ∈ domainParts conn /\ d = normalDomain p /\ d <> "").
Proof.
  split; [apply WorkspaceDomains_total|].
  intros ds Hd. apply WorkspaceDomains_ok in Hd as (? & ? & ? & ?). done.
Qed.

Lemma workspace_domains_correct_witness :
  WorkspaceDomains demo_connector = Ok ["example.com"; "example.org"] /\
  NoDup ["example.com"; "example.org"].
Proof.
  pose proof (proj2 (workspace_domains_correct demo_connector) ["example.com"; "example.org"]
    ltac:(vm_compute; reflexivity)) as (_ & Hn & _).
  split; [vm_compute; reflexivity|exact Hn].
Defined.

(** A claim mapping value passes the grammar exactly when it is an address
    with a literal local part, or a single star, in one of the connector's
    domains. *)
Theorem claim_value_grammar `{UnicodeTables} (value shapes : string) (domains : list string) :
  validateAddressClaimValue value domains shapes = Ok tt <-> claim_value_shape value domains.
Proof. apply validateAddressClaimValue_shape. Qed.

(** The group settings of a connector are off when scope, mapping and labels
    are all absent, direct when all are there, and any other combination is
    refused. *)
Theorem group_lookup_settings_consistent `{UnicodeTables} (conn : OIDCConnector) (s : GroupSettings) :
  GroupLookupSettings (Some conn) = Ok s <-> group_settings_of conn s.
Proof. apply GroupLookupSettings_ok. Qed.

(** An address passes the email check exactly when, trimmed and in lower case,
    it is a non-empty local part and an allowed domain around its last at
    sign. *)
Theorem email_domain_checked `{UnicodeTables} (email : string) (allowed : list string) :
  CheckEmailDomain email allowed = Ok tt <->
  exists local domain, ToLower (TrimSpace email) = local +:+ String "@" domain /\
    local <> "" /\ domain <> "" /\ "@"%char ∉ bytes_of domain /\ domain ∈ allowed.
Proof. apply CheckEmailDomain_ok. Qed.

(** A login gets the connector's one redirect URL, and only when the host of
    that URL and the proxy the browser asked are the same up to letter case
    and an explicit default port, which means: a plain host with port 443
    stands for the host itself. *)
Theorem redirect_url_for_proxy `{UnicodeTables} `{UrlParser} (conn : OIDCConnector) (proxy cb : string) :
  (RedirectURLForProxy conn proxy = Ok cb <->
   exists u, RedirectURL conn = Ok u /\ s_RedirectURLs (c_Spec conn) = [cb] /\ proxy <> "" /\
     EqualFold (withoutHTTPSPort (url_Host u)) (withoutHTTPSPort proxy) = true) /\
  (forall h, plain_host h -> withoutHTTPSPort (h +:+ ":443") = h /\ withoutHTTPSPort h = h).
Proof.
  split; [apply RedirectURLForProxy_ok|].
  intros h Hh. split; [by apply withoutHTTPSPort_443|by apply withoutHTTPSPort_plain].
Qed.

Lemma redirect_url_for_proxy_witness :
  RedirectURLForProxy demo_connector "access.example.com:443" = Ok demo_callback_url /\
  withoutHTTPSPort "access.example.com:443" = "access.example.com".
Proof.
  split; [vm_compute; reflexivity|].
  apply (proj2 (redirect_url_for_proxy demo_connector "access.example.com:443" demo_callback_url) "access.example.com").
  unfold plain_host. split; [done|]. repeat split; apply (bool_decide_unpack _); vm_compute; exact I.
Defined.

(** ** Mappings *)

Lemma glob_spec_lit_app g h s :
  "*"%char ∉ g -> glob_spec (g ++ h)%list s -> exists t, s = (g ++ t)%list /\ glob_spec h t.
Proof.
  revert s. induction g as [|a g IH]; intros s Hn Hs; [by exists s|].
  inversion Hs as [|a' g' s' Ha Hs'|]; subst; [|set_solver].
  destruct (IH s') as (t & -> & Ht); [set_solver|done|]. by exists t.
Qed.

Lemma glob_spec_lit g s : "*"%char ∉ g -> glob_spec g s -> s = g.
Proof.
  intros Hn Hs. rewrite <- (app_nil_r g) in Hs.
  destruct (glob_spec_lit_app g [] s Hn Hs) as (t & -> & Ht). inversion Ht. by rewrite app_nil_r.
Qed.

(** A trait value that matches an accepted mapping value is an address in the
    domain of that mapping value, one of the connector's; when the local part
    is not the star it is the mapping value itself. *)
Theorem accepted_mapping_stays_in_domain `{UnicodeTables} (value shapes : string) (domains : list string) (addr : string) :
  validateAddressClaimValue value domains shapes = Ok tt -> Count value "*"%char <= 1 ->
  globMatch value addr = true ->
  exists local domain allowed,
    allowed ∈ domains /\ EqualFold allowed domain = true /\
    ((exists who, value = "*" +:+ String "@" domain /\ addr = who +:+ String "@" domain /\
        newline ∉ bytes_of who) \/
     (value = local +:+ String "@" domain /\ isLiteralLocalPart local = true /\
        ("*"%char ∉ bytes_of domain -> addr = value))).
Proof.
  intros Hv Hc Hg.
  apply validateAddressClaimValue_shape in Hv as (local & domain & allowed & -> & Hl & Hd & Ha & He).
  exists local, domain, allowed. split; [done|]. split; [done|].
  unfold globMatch in Hg. apply glob_match_spec in Hg. rewrite bytes_of_app in Hg.
  change (bytes_of (String "@" domain)) with ("@"%char :: bytes_of domain) in Hg.
  destruct Hl as [->|[Hne Hl]].
  - left. rewrite Count_app, !Count_cons in Hc.
    assert (Hs : "*"%char ∉ bytes_of domain).
    { apply Count_0. rewrite decide_True, decide_False in Hc by done. unfold Count in *. simpl in *. lia. }
    simpl in Hg. inversion Hg as [| |g w s Hw Hs']; subst; [congruence|].
    apply (glob_spec_lit ("@"%char :: bytes_of domain)) in Hs'; [|set_solver]. subst s.
    exists (of_bytes w). split; [done|]. split.
    + apply bytes_of_inj. by rewrite bytes_of_app, bytes_of_of.
    + by rewrite bytes_of_of.
  - right. split; [done|]. split; [done|]. intros Hs.
    apply glob_spec_lit in Hg; [|].
    + apply bytes_of_inj. rewrite bytes_of_app. done.
    + intros Hin. rewrite elem_of_app, elem_of_cons in Hin. destruct Hin as [Hin|[?|?]]; [|done|done].
      by apply (isLiteralLocalPart_not local "*"%char Hl eq_refl).
Qed.

Lemma accepted_mapping_stays_in_domain_witness :
  exists local domain allowed,
    allowed ∈ ["example.com"; "example.org"] /\ EqualFold allowed domain = true /\
    ((exists who, "*@example.org" = "*" +:+ String "@" domain /\ "bob@example.org" = who +:+ String "@" domain /\
        newline ∉ bytes_of who) \/
     ("*@example.org" = local +:+ String "@" domain /\ isLiteralLocalPart local = true /\
        ("*"%char ∉ bytes_of domain -> "bob@example.org" = "*@example.org"))).
Proof.
  apply (accepted_mapping_stays_in_domain "*@example.org" "" ["example.com"; "example.org"] "bob@example.org").
  - vm_compute. reflexivity.
  - vm_compute. discriminate.
  - vm_compute. reflexivity.
Defined.

(** The roles and warnings of a login do not depend on the order in which the
    trait map is walked. *)
Theorem traits_to_roles_order_independent `{RegexpCache} (ms : list TraitMapping) (ts : traits)
    (walk : list (string * list string)) :
  walk ≡ₚ map_to_list ts -> TraitsToRoles ms walk = TraitsToRoles ms (map_to_list ts).
Proof. apply mapTraits_order. Qed.

Lemma traits_to_roles_order_independent_witness :
  let ts : traits := list_to_map [("email", ["ann@example.com"]); ("name", ["Ann"])] in
  TraitsToRoles (GetTraitMappings demo_connector) (rev (map_to_list ts)) =
  TraitsToRoles (GetTraitMappings demo_connector) (map_to_list ts).
Proof.
  intros ts. apply (traits_to_roles_order_independent (GetTraitMappings demo_connector) ts).
  symmetry. apply Permutation_rev.
Defined.

(** For mappings written as globs, with role names that hold no template, the
    roles are those of the mappings one of whose values matches, each once and
    in mapping order. *)
Theorem traits_to_roles_exact `{RegexpCache} `{!RegexpCacheSound, !GlobLaws}
    (ms : list TraitMapping) (ts : traits) :
  (forall m, m ∈ ms -> plain_mapping m) ->
  snd (TraitsToRoles ms (map_to_list ts)) = Deduplicate (granted_roles ms ts) /\
  forall r, r ∈ snd (TraitsToRoles ms (map_to_list ts)) <->
    exists m v vs, m ∈ ms /\ ts !! tm_Trait m = Some vs /\ v ∈ vs /\
      globMatch (tm_Value m) v = true /\ r ∈ tm_Roles m.
Proof.
  intros Hms. rewrite TraitsToRoles_globs by (done || apply NoDup_fst_map_to_list).
  rewrite (list_to_map_to_list (M:=gmap string) ts). split; [done|]. intros r.
  by rewrite elem_of_Deduplicate, elem_of_granted_roles.
Qed.

Lemma traits_to_roles_exact_witness :
  let ts : traits := list_to_map [("email", ["ann@example.com"]); ("groups", ["admins@example.com"])] in
  snd (TraitsToRoles (GetTraitMappings demo_connector) (map_to_list ts)) =
  Deduplicate (granted_roles (GetTraitMappings demo_connector) ts).
Proof.
  intros ts. apply (traits_to_roles_exact (GetTraitMappings demo_connector) ts).
  intros m Hm. unfold plain_mapping, plain_role.
  repeat (apply elem_of_cons in Hm as [->|Hm];
    [split; [vm_compute; reflexivity|]; intros r Hr;
     repeat (apply elem_of_cons in Hr as [->|Hr]; [split; [discriminate|vm_compute; reflexivity]|]);
     by apply elem_of_nil in Hr|]).
  by apply elem_of_nil in Hm.
Defined.

(** Whatever the expressions and templates are, every role a login gets comes
    from a mapping, a value of that mapping's trait that the mapping's
    expression finds with and without letter case, and one of the mapping's
    roles with the match substituted. *)
Theorem traits_to_roles_sound `{RegexpCache} (ms : list TraitMapping) (ts : traits) (r : string) :
  r ∈ snd (TraitsToRoles ms (map_to_list ts)) ->
  exists m vs v rei re role, m ∈ ms /\ ts !! tm_Trait m = Some vs /\ v ∈ vs /\ role ∈ tm_Roles m /\
    RegexpWithConfig (tm_Value m) true = Ok rei /\ RegexpWithConfig (tm_Value m) false = Ok re /\
    re_Find rei v = true /\ re_Find re v = true /\ r = re_ReplaceAll rei v role /\ r <> "".
Proof.
  unfold TraitsToRoles. cbn [snd]. rewrite elem_of_Deduplicate, list_elem_of_fmap.
  intros ([r' b] & -> & Hr). apply traitsToRoles_sound in Hr as [Hr|(m & vs & v & Hm & Hvs & Hv & Hg)].
  { by apply elem_of_nil in Hr. }
  apply elem_of_map_to_list in Hvs. destruct Hg as (role & rei & re & ? & ? & ? & ? & ? & E & Hne).
  simplify_eq/=. exists m, vs, v, rei, re, role. by split_and!.
Qed.

Lemma traits_to_roles_sound_witness :
  exists m vs v rei re role, m ∈ GetTraitMappings demo_connector /\
    (list_to_map [("email", ["ann@example.com"])] : traits) !! tm_Trait m = Some vs /\ v ∈ vs /\
    role ∈ tm_Roles m /\
    RegexpWithConfig (tm_Value m) true = Ok rei /\ RegexpWithConfig (tm_Value m) false = Ok re /\
    re_Find rei v = true /\ re_Find re v = true /\ "access" = re_ReplaceAll rei v role /\ "access" <> "".
Proof.
  apply (traits_to_roles_sound (GetTraitMappings demo_connector) (list_to_map [("email", ["ann@example.com"])]) "access").
  apply (bool_decide_unpack _). vm_compute. exact I.
Defined.

(** A connector the policy accepts never has a login with roles whose source
    is reported as none: the source says exactly which of the two claim
    families granted a role. *)
Theorem role_source_reported `{UnicodeTables} `{UrlParser} `{RegexpCache} (conn : OIDCConnector) (ts : traits) :
  connector_policy conn ->
  let ms := GetTraitMappings conn in
  roleSourceForMappings ms ts =
    match family_roles "email" ms ts, family_roles GroupsClaim ms ts with
    | [], [] => roleSourceNone
    | _ :: _, [] => roleSourceEmail
    | [], _ :: _ => roleSourceGroups
    | _ :: _, _ :: _ => roleSourceBoth
    end /\
  (snd (mapTraits ms ts) <> [] -> roleSourceForMappings ms ts <> roleSourceNone).
Proof.
  intros Hp ms. split; [apply roleSourceForMappings_spec|].
  apply roleSourceForMappings_some. intros m Hm.
  unfold ms, GetTraitMappings in Hm. apply list_elem_of_fmap in Hm as (cm & -> & Hcm). simpl.
  destruct (cp_mappings _ Hp) as (ds & Hds & Hms). exact (proj1 (Hms cm Hcm)).
Qed.

Lemma role_source_reported_witness :
  let ts : traits := list_to_map [("email", ["ann@example.com"])] in
  roleSourceForMappings (GetTraitMappings demo_connector) ts <> roleSourceNone.
Proof.
  intros ts. apply (role_source_reported demo_connector ts).
  - apply ValidateConnector_ok. vm_compute. reflexivity.
  - vm_compute. discriminate.
Defined.
