(* ===== verification/GroupsClaims.v ===== *)
(** * What the group lookup promises

    The theorems about [Groups]: the gates every relation passes, the query
    and its literal, the pinned and budgeted transport, the page loop, and
    what a failed lookup can leave behind. *)

From S2P Require Import Prelude GoStrings Utf8 Types Policy Identity Groups GroupsFacts Scenario.
From Stdlib Require Import Ascii.

(** ** Gates *)

Section Outcomes.
Context `{UnicodeTables}.





End Outcomes.


(** A group address is valid exactly when it is a dot-atom local part of at
    most 64 bytes, one at sign and a host name of at least two labels; it is
    then ASCII, and nothing a log line or a trait could misread. *)
Theorem group_address_is_dot_atom (id : string) :
  (validGroupAddress id = true <->
   exists local domain, id = local +:+ String "@" domain /\ dot_atom local /\ host_name domain) /\
  (validGroupAddress id = true -> forall a, a ∈ bytes_of id -> code a < RuneSelf).
Proof.
  split; [apply validGroupAddress_spec|].
  intros Hv a Ha. apply (validGroupAddress_bytes id a Hv) in Ha as [Ha|[-> | ->]];
    [by apply isAtext_ascii|by vm_compute..].
Qed.

Lemma group_address_is_dot_atom_witness :
  validGroupAddress "dev.team+1@eng.example.com" = true /\ code "d"%char < RuneSelf.
Proof.
  split; [reflexivity|].
  apply (proj2 (group_address_is_dot_atom "dev.team+1@eng.example.com") eq_refl).
  apply (bool_decide_unpack _). vm_compute. exact I.
Defined.

(** ** The query *)

(** C38: The literal the query is built from denotes the address and ends where the
    literal ends, whatever the address holds: no address can add a term to the
    query. *)
Theorem cel_string_denotes_its_value (email rest : string) :
  cel_literal (celString email +:+ rest) = Some (to_valid email, rest) /\
  (ValidString email = true -> cel_literal (celString email +:+ rest) = Some (email, rest)).
Proof.
  pose proof (cel_literal_celString email rest) as E. split; [done|].
  intros Hv. by rewrite E, to_valid_id.
Qed.

Lemma cel_string_denotes_its_value_witness :
  let email := "o'neil\@example.com' || true || '" in
  cel_literal (celString email +:+ " tail") = Some (email, " tail").
Proof.
  intros email. apply (proj2 (cel_string_denotes_its_value email " tail")). vm_compute. reflexivity.
Defined.

(** ** Transport *)

(** A round trip that yields a body made exactly the one pinned request, over
    TLS to the fixed host and path; a request that differs in any part never
    reaches the network, and a body past the budget is refused whatever its
    length, with nothing left to spend. *)
Theorem round_trip_is_pinned (base : option (Request -> gresult (option Body))) (path : string) (b : Z)
    (req : option Request) :
  (forall b' body, RoundTrip base path b req = (b', GOk body) ->
     exists r, req = Some r /\ pinned path r /\ len body <= b /\ b' = b - len body) /\
  (forall r hop, base = Some hop -> req = Some r -> ~ pinned path r ->
     RoundTrip base path b req = (b, GErr [errCloudIdentityRequest])) /\
  (forall r hop bd, base = Some hop -> req = Some r -> pinned path r -> 0 <= b ->
     hop r = GOk (Some bd) -> body_close_fails bd = false -> b < len (body_data bd) ->
     RoundTrip base path b req = (0, GErr [errCloudIdentityBudget])).
Proof.
  split; [|split].
  - intros b' body Ht. apply RoundTrip_ok in Ht as ((r & -> & Hp) & ? & ?). eauto.
  - intros r hop -> -> Hn. unfold RoundTrip. destruct (requestRejected path r) eqn:E; [done|].
    by apply requestRejected_false in E.
  - intros r hop bd -> -> Hp Hb Hh Hc Hl. by apply (RoundTrip_over_budget hop path b r bd).
Qed.

Definition demo_search : Request := {|
  req_URLnil := false; req_Method := "GET"; req_Scheme := "https"; req_URLHost := cloudIdentityHost;
  req_EscapedPath := directGroupsPath; req_HasUser := false; req_Opaque := ""; req_Host := "";
|}.

Definition answering (text : string) (r : Request) : gresult (option Body) :=
  GOk (Some {| body_data := text; body_read_fails := false; body_close_fails := false |}).

Lemma round_trip_is_pinned_witness :
  RoundTrip (Some (answering "0123456789")) directGroupsPath 9 (Some demo_search) =
    (0, GErr [errCloudIdentityBudget]) /\
  pinned directGroupsPath demo_search.
Proof.
  assert (Hp : pinned directGroupsPath demo_search) by (apply requestRejected_false; vm_compute; reflexivity).
  split; [|exact Hp].
  apply (proj2 (proj2 (round_trip_is_pinned (Some (answering "0123456789")) directGroupsPath 9 (Some demo_search)))
    demo_search (answering "0123456789") {| body_data := "0123456789"; body_read_fails := false; body_close_fails := false |});
    try reflexivity; done.
Defined.

(** Whatever requests one lookup makes and however the network answers each
    of them, the bodies it is given together stay within the byte budget. *)
Theorem lookup_reads_within_budget (path : string) (b : Z)
    (trips : list (option (Request -> gresult (option Body)) * option Request)) (b' : Z) (l : list (gresult string)) :
  0 <= b -> run_trips path b trips = (b', l) -> 0 <= b' /\ delivered l + b' <= b.
Proof. apply run_trips_budget. Qed.

Lemma lookup_reads_within_budget_witness :
  0 <= 3 /\ delivered [GOk "0123456"; GErr [errCloudIdentityRequest]] + 3 <= 10.
Proof.
  apply (lookup_reads_within_budget directGroupsPath 10
    [(Some (answering "0123456"), Some demo_search); (None, Some demo_search)] 3); [lia|].
  vm_compute. reflexivity.
Defined.

(** ** The page loop *)

(** A search succeeds exactly when its pages form a chain from the first page
    to one without a next token, of at most ten pages and ten thousand
    relations, with no page missing a relation or a key; what it returns are
    the relations of all pages, in order. *)
Theorem search_reads_every_page `{CloudIdentity} (token email : string) (b b' : Z) (rels : list groupRelation) :
  searchGroups token email b = (b', GOk rels) <->
  ci_NewService token directGroupsPath = GOk tt /\
  exists pages, linked token ("member_key_id == " +:+ celString email) "" b pages b' /\
    (length pages <= groupLookupMaxPages)%nat /\ page_relations (all_memberships pages) = GOk rels /\
    Z.of_nat (length rels) <= groupLookupMaxRelations.
Proof.
  unfold searchGroups. destruct (ci_NewService token directGroupsPath) as [[]|e].
  - rewrite search_loop_ok. split; [|naive_solver].
    intros (pages & rs & ? & ? & ? & -> & ?). split; [done|]. by exists pages.
  - split; [done|]. by intros [? _].
Qed.

Definition paged (tokens : string -> string) : CloudIdentity := {|
  ci_NewService := fun _ _ => GOk tt;
  ci_Do := fun _ _ call budget =>
    (budget - 10, GOk (Some {|
      sr_Memberships := [Some {| rl_GroupKey := Some {| gk_Id := "g" +:+ sc_PageToken call +:+ "@example.com"; gk_Namespace := "" |};
                                 rl_Labels := {[ discussionForumLabel := "" ]} |}];
      sr_NextPageToken := tokens (sc_PageToken call) |}));
|}.

Definition two_pages : CloudIdentity := paged (fun t => if bool_decide (t = "") then "2" else "").

Lemma search_reads_every_page_witness :
  exists pages, linked (H := two_pages) "token" ("member_key_id == " +:+ celString "ann@example.com") ""
      groupLookupMaxBytes pages (groupLookupMaxBytes - 20) /\
    (length pages <= groupLookupMaxPages)%nat /\
    exists rels, page_relations (all_memberships pages) = GOk rels /\
      g_id <$> rels = ["g@example.com"; "g2@example.com"].
Proof.
  destruct (searchGroups (H := two_pages) "token" "ann@example.com" groupLookupMaxBytes) as [b [rels|e]] eqn:E;
    [|vm_compute in E; discriminate].
  pose proof (proj1 (search_reads_every_page (H := two_pages) _ _ _ _ _) E) as (_ & pages & Hl & Hn & Hr & _).
  vm_compute in E. injection E as Eb Er. subst b rels.
  exists pages. split; [exact Hl|]. split; [exact Hn|]. eexists. split; [exact Hr|]. reflexivity.
Defined.

(** ** Failures *)

(** What a failed lookup says about the provider's answer is a class from a
    fixed set, and only for a plain denial at most five distinct reason tokens,
    each one of the provider's own, trimmed, short, and free of any character
    that could forge a log line. *)
Theorem failure_reasons_are_clean `{UnicodeTables} (err : gerror) (class : groupFailure) (reasons : list string) :
  classifyGroupFailure err = (class, reasons) ->
  (class <> groupFailurePermissionDenied -> reasons = []) /\
  NoDup reasons /\ (length reasons <= maxReasonTokens)%nat /\
  forall r, r ∈ reasons -> clean_reason r.
Proof.
  intros E. destruct (classifyGroupFailure_spec _ _ _ E) as [Hc [raw Hr]]. split; [done|].
  destruct (sanitizeReasons_spec raw) as (Hn & Hl & Ho).
  destruct Hr as [->| ->]; [split; [constructor|split; [simpl; lia|set_solver]]|].
  split; [done|]. split; [done|]. intros r Hr. by apply Ho in Hr as [? _].
Qed.

Definition denied_with (reasons : list string) : gerror :=
  [errApi {| ae_Code := 403; ae_Errors := reasons; ae_Details := [] |}].

Lemma failure_reasons_are_clean_witness :
  classifyGroupFailure (denied_with [" policyBlock "; "two words"; "policyBlock"]) =
    (groupFailurePermissionDenied, ["policyBlock"]) /\ NoDup ["policyBlock"].
Proof.
  assert (E : classifyGroupFailure (denied_with [" policyBlock "; "two words"; "policyBlock"]) =
    (groupFailurePermissionDenied, ["policyBlock"])) by (vm_compute; reflexivity).
  split; [exact E|]. exact (proj1 (proj2 (failure_reasons_are_clean _ _ _ E))).
Defined.

(** A lookup that fails in any way grants no group; one that grants a group
    read it from a complete search for that address, in a relation all gates
    accept. *)
Theorem lookup_grants_only_found_groups `{UnicodeTables} `{CloudIdentity} (settings : GroupSettings)
    (token email : string) :
  (lookup_failed (lookupGroups settings token email) = true -> gl_Groups (lookupGroups settings token email) = []) /\
  forall g, g ∈ gl_Groups (lookupGroups settings token email) ->
    gs_Enabled settings = true /\
    exists b rels rel, searchGroups token email groupLookupMaxBytes = (b, GOk rels) /\ rel ∈ rels /\
      accepted (gs_WorkspaceDomains settings) rel = Some g.
Proof.
  split; [apply lookupGroups_failed|]. intros g Hg. split; [|by apply lookupGroups_ok].
  destruct (gs_Enabled settings) eqn:E; [done|]. unfold lookupGroups in Hg. rewrite E in Hg.
  by apply elem_of_nil in Hg.
Qed.

Definition demo_settings : GroupSettings :=
  {| gs_Enabled := true; gs_Mode := "direct"; gs_WorkspaceDomains := ["example.com"; "example.org"] |}.

Lemma lookup_grants_only_found_groups_witness :
  gl_Groups (lookupGroups demo_settings "access" "ann@example.com") = ["admins@example.com"] /\
  exists b rels rel, searchGroups "access" "ann@example.com" groupLookupMaxBytes = (b, GOk rels) /\ rel ∈ rels /\
    accepted ["example.com"; "example.org"] rel = Some "admins@example.com".
Proof.
  split; [vm_compute; reflexivity|].
  apply (proj2 (lookup_grants_only_found_groups demo_settings "access" "ann@example.com")).
  apply (bool_decide_unpack _). vm_compute. exact I.
Defined.
