(* ===== verification/LoginClaims.v ===== *)
(** * What a login promises

    The theorems about [Callback], [Service] and [Users]: what a callback that
    answers with credentials has checked, that it is the one callback of one
    started login, and what a refused callback lets out; then whom a login may
    write, and what the roles, the groups trait and the session lifetime of
    that user are made of. *)

From S2P Require Import Prelude GoStrings Utf8 Types Key Backend State Policy Identity Regexp.
From S2P Require Import Traits Groups GroupsFacts LoginAudit Transport Service Users Callback CallbackFacts.
From S2P Require Import Scenario.
From Stdlib Require Import Ascii.

(** The handler answers what [validateCallback] answers. *)
Lemma handler_result {W} `{UnicodeTables} `{UrlParser} `{SSHKeyParser} `{RequestCodec} `{RegexpCache}
    `{CloudIdentity} `{Clock W} `{Backend W} `{AuthServer W} `{Provider W} s q (w w' : W) r :
  ValidateOIDCAuthCallback s q w = (w', r) ->
  exists w1 audit, validateCallback s q (w, newCallbackAudit) = ((w1, audit), r) /\
    w' = if a_emit audit then fst (as_EmitAuditEvent
           (loginEvent audit (match r with Ok resp => Some (resp_Username resp) | Err _ => None end)) w1)
         else w1.
Proof.
  unfold ValidateOIDCAuthCallback.
  destruct (validateCallback s q (w, newCallbackAudit)) as [[w1 audit] r1]. intros [= <- <-]. eauto.
Qed.

Lemma handler_quiet {W} `{UnicodeTables} `{UrlParser} `{SSHKeyParser} `{RequestCodec} `{RegexpCache}
    `{CloudIdentity} `{BackendSpec W} `{AuthServer W} `{Provider W} `{!QuietUpstream W} s q (w w' : W) r :
  ValidateOIDCAuthCallback s q w = (w', r) ->
  exists w1 audit, validateCallback s q (w, newCallbackAudit) = ((w1, audit), r) /\ kept owned w1 w'.
Proof.
  intros (w1 & audit & E & ->)%handler_result. exists w1, audit. split; [done|].
  destruct (a_emit audit); [|reflexivity].
  destruct (as_EmitAuditEvent _ w1) as [w2 r2] eqn:E2. by apply quiet_EmitAuditEvent in E2.
Qed.

(** A callback that answers with credentials is one run of the stages, ends
    with its audit event, and leaves the world that event leaves. *)
Definition answered_by {W} `{UnicodeTables} `{UrlParser} `{SSHKeyParser} `{RequestCodec} `{RegexpCache}
    `{CloudIdentity} `{Clock W} `{Backend W} `{AuthServer W} `{Provider W}
    (s : Service) (q : Values) (w : W) (run : CallbackRun) (w' : W) (resp : OIDCAuthResponse) : Prop :=
  exists w1 audit, validateCallback s q (w, newCallbackAudit) = ((w1, audit), Ok resp) /\
    callback_run s q w run w1 resp /\
    w' = fst (as_EmitAuditEvent (loginEvent audit (Some (resp_Username resp))) w1).

Lemma callback_answered {W} `{UnicodeTables} `{UrlParser} `{SSHKeyParser} `{RequestCodec} `{RegexpCache}
    `{CloudIdentity} `{Clock W} `{Backend W} `{AuthServer W} `{Provider W} s q (w w' : W) resp :
  ValidateOIDCAuthCallback s q w = (w', Ok resp) ->
  exists run, answered_by s q w run w' resp /\ callback_checked q run.
Proof.
  intros (w1 & audit & E & ->)%handler_result.
  destruct (validateCallback_ok _ _ _ _ _ E) as (run & Hrun & Hc). exists run. split; [|done].
  exists w1, audit. split; [done|]. split; [done|].
  apply validateCallback_classified in E as [He _]. simpl in He. by rewrite (He resp eq_refl).
Qed.

Lemma finished_is_ok : match snd finished with Ok _ => true | Err _ => false end = true.
Proof. vm_compute. reflexivity. Qed.

Lemma finished_ok : exists resp, finished = (fst finished, Ok resp).
Proof.
  pose proof finished_is_ok as H. revert H. destruct finished as [w [resp|e]]; [|done].
  intros _. by exists resp.
Qed.

(** ** The identity behind a login *)

(** C1: A callback that answers with credentials is one run in which the stored
    request was read and its state spent, the request's connector is one the
    policy accepts, the code was redeemed with the login's PKCE verifier at
    the Google token endpoint for the connector's own redirect URL, and the ID
    token of that very exchange was validated with the login's nonce. The
    claims so obtained, and no others, name Google as issuer, this client in
    the audience and that nonce, are not from the future when they are
    checked, and are those of a subject whose verified address and hosted
    domain both are among the connector's; the user that is written, the
    credentials and the answer are for that subject. *)
Theorem callback_grants_only_verified_identities {W} `{UnicodeTables} `{UrlParser} `{SSHKeyParser}
    `{RequestCodec} `{RegexpCache} `{CloudIdentity} `{BackendSpec W} `{AuthServer W} `{Provider W}
    `{!ValidatorSpec W} (s : Service) (q : Values) (w w' : W) (resp : OIDCAuthResponse) :
  ValidateOIDCAuthCallback s q w = (w', Ok resp) ->
  exists run, answered_by s q w run w' resp /\
    let req := run_request run in
    let conn := lg_connector (run_login run) in
    let config := run_config run in
    let claims := run_claims run in
    exists domains,
    (* the request and the connector *)
    callbackError q = None /\ r_SSOTestFlow req = false /\
    connector_policy conn /\ WorkspaceDomains conn = Ok domains /\
    (* the code *)
    oc_TokenURL config = googleTokenEndpoint /\ s_RedirectURLs (c_Spec conn) = [oc_RedirectURL config] /\
    r_PkceVerifier req <> "" /\
    (* the ID token *)
    id_Issuer claims = GoogleIssuer /\ s_ClientID (c_Spec conn) ∈ id_Audience claims /\
    id_Nonce claims = lg_nonce (run_login run) /\
    id_IssuedAt claims <= run_now run + Second /\ id_NotBefore claims <= run_now run + Second /\
    (s_ACR (c_Spec conn) <> "" -> id_ACR claims = s_ACR (c_Spec conn)) /\
    (* the identity *)
    id_Subject claims <> "" /\ id_EmailVerified claims = true /\
    normalDomain (hostedDomain (Some claims)) ∈ domains /\
    (exists local domain, ToLower (TrimSpace (id_Email claims)) = local +:+ String "@" domain /\
       local <> "" /\ "@"%char ∉ bytes_of domain /\ domain ∈ domains) /\
    (* the user and the answer *)
    u_OIDCIdentities (run_user run) =
      [externalIdentity (c_Name conn) (u_Name (run_user run)) (id_Subject claims)] /\
    usernameFromClaims conn (run_rawClaims run) = Ok (u_Name (run_user run)) /\
    resp_Username resp = us_Name (run_userState run) /\
    resp_Identity resp = externalIdentity (r_ConnectorID req) (us_Name (run_userState run)) (id_Subject claims).
Proof.
  intros (run & Ha & Hc)%callback_answered. exists run. split; [done|].
  destruct Ha as (w1 & audit & _ & Hrun & _).
  destruct (callback_run_response _ _ _ _ _ _ Hrun) as [Hname Hid].
  destruct (callback_run_user _ _ _ _ _ _ Hrun) as (Huser & Hids & _).
  destruct Hc as [Hq [_ Hflow Hp Hd _ Hpk Hcb] Ht Hr [(c & [= <-] & Hsub & _ & Hver & Hiat & Hnbf & Hhd & Hmail & Hacr & _) _]].
  destruct Hrun. match goal with Hv : p_ValidateToken _ _ _ _ = _ |- _ =>
    apply ValidateToken_ok in Hv as (Hnonce & Hiss & Haud) end.
  apply CheckHostedDomain_ok in Hhd as [_ Hhd].
  apply CheckEmailDomain_ok in Hmail as (lc & dm & ? & ? & _ & ? & ?).
  apply RedirectURLForProxy_ok in Hcb as (u & _ & Hurls & _).
  simpl in Hiss, Haud. subst conn. rewrite (cp_issuer _ Hp) in Hiss.
  exists (lg_domains (run_login run)). rewrite Hr. split_and!; eauto 10.
Qed.

Lemma callback_grants_only_verified_identities_witness :
  exists run resp, answered_by demo_service (callback_query "r00" "ok") (fst started) run (fst finished) resp /\
    id_EmailVerified (run_claims run) = true /\ id_Issuer (run_claims run) = GoogleIssuer.
Proof.
  destruct finished_ok as [resp E].
  destruct (callback_grants_only_verified_identities demo_service (callback_query "r00" "ok") (fst started) (fst finished) resp E)
    as (run & Ha & ds & H). destruct_and! H. exists run, resp. auto.
Defined.

(** ** One login, one callback *)

(** C8: A second callback for the same login is refused, whatever the first one
    ended in once it had spent the state (it may have failed at any later
    stage), provided the second callback takes, from its arrival to its answer,
    no longer than the time that had passed between the start of the login and
    the first callback, less the time by which the backend may be late to drop
    an expired item, and nothing but the runtime writes the keys of the login.
    A second callback may arrive at any time; one that stalls
    longer than that between reading the request and claiming the state is not
    covered, since the mark of the spent state can expire in between. *)
Theorem second_callback_is_denied {W} `{UnicodeTables} `{UrlParser} `{SSHKeyParser} `{RequestCodec}
    `{RegexpCache} `{CloudIdentity} `{BackendSpec W} `{AuthServer W} `{Provider W} `{!QuietUpstream W}
    cfg s req0 (wa wb : W) req q1 q2 w1 x1 req1 w2 r1 w3 w4 r2 :
  NewService cfg = Ok s -> createAuthRequest s req0 wa = (wb, Ok req) ->
  values_Get q1 "state" = r_StateToken req -> values_Get q2 "state" = r_StateToken req ->
  (* the first callback spends the state *)
  kept (login_keys (r_StateToken req)) wb w1 -> spendState s q1 (w1, newCallbackAudit) = (x1, Ok req1) ->
  ValidateOIDCAuthCallback s q1 w1 = (w2, r1) ->
  (* the second comes any time later, and does not stall *)
  kept (login_keys (r_StateToken req)) w2 w3 -> ValidateOIDCAuthCallback s q2 w3 = (w4, r2) ->
  Now w4 - Now w3 + grace W <= Now w1 - Now wb ->
  exists e, r2 = Err e.
Proof.
  intros Hs Hstart Hq1 Hq2 Hk1 Hsp Hv1 Hk3 Hv2 Htime.
  apply handler_quiet in Hv1 as (wm & a1 & Hv1 & Hkm). apply handler_quiet in Hv2 as (wn & a2 & Hv2 & [Ht _]).
  destruct r2 as [resp|e]; [|eauto]. exfalso.
  eapply (second_callback_denied cfg s req0 wa wb req q1 q2 w1 newCallbackAudit x1 req1 (wm, a1) r1 w3
    newCallbackAudit (wn, a2) (Ok resp)); try done; simpl; [|lia].
  transitivity w2; [|done]. eapply kept_weaken; [|exact Hkm]. apply login_keys_owned.
Qed.

Definition demo_config : ServiceConfig := {| cfg_AuthServer := true; cfg_Backend := true;
  cfg_HTTPClient := Ok tt; cfg_validators := Ok tt; cfg_transport := Ok tt |}.

(** A login that is finished two seconds after it was started. *)
Definition returned : World := wait (2 * Second) (fst started).
Definition first_answer : World * result OIDCAuthResponse :=
  ValidateOIDCAuthCallback demo_service (callback_query "r00" "ok") returned.
Definition again : World * result OIDCAuthResponse :=
  ValidateOIDCAuthCallback demo_service (callback_query "r00" "other") (fst first_answer).
Definition first_spend : (World * callbackAudit) * result OIDCAuthRequest :=
  spendState demo_service (callback_query "r00" "ok") (returned, newCallbackAudit).

Lemma first_spend_ok : first_spend = (fst first_spend, Ok started_request).
Proof.
  assert (E : snd first_spend = Ok started_request) by (vm_compute; reflexivity).
  rewrite <- E. by destruct first_spend.
Qed.

Lemma second_callback_is_denied_witness : exists e, snd again = Err e.
Proof.
  eapply (second_callback_is_denied demo_config demo_service (demo_request "" "" "") world0 (fst started)
    started_request (callback_query "r00" "ok") (callback_query "r00" "other") returned
    (fst first_spend) started_request (fst first_answer) (snd first_answer) (fst first_answer) (fst again) (snd again)).
  - vm_compute. reflexivity.
  - exact started_ok.
  - vm_compute. reflexivity.
  - vm_compute. reflexivity.
  - apply wait_kept.
  - exact first_spend_ok.
  - unfold first_answer. by destruct (ValidateOIDCAuthCallback _ _ _).
  - reflexivity.
  - unfold again. by destruct (ValidateOIDCAuthCallback _ _ _).
  - vm_compute. discriminate.
Defined.




(** A login starts only for a connector the policy accepts, never as a test
    flow, and sends the browser to Google's authorization endpoint with the
    nonce, the PKCE challenge and the allowed domains; the nonce is written
    before the request that makes it usable, and both are there for ten
    minutes. *)
Theorem start_stores_what_it_publishes {W} `{UnicodeTables} `{UrlParser} `{SSHKeyParser} `{RequestCodec}
    `{BackendSpec W} `{AuthServer W} `{Provider W} (s : Service) (req0 : OIDCAuthRequest) (w w' : W) req :
  createAuthRequest s req0 w = (w', Ok req) ->
  r_SSOTestFlow req0 = false /\
  exists conn domains config nonce w1 w2 text,
    connector_policy conn /\ WorkspaceDomains conn = Ok domains /\
    oc_AuthURL config = googleAuthorizationEndpoint /\ s_RedirectURLs (c_Spec conn) = [oc_RedirectURL config] /\
    r_RedirectURL req = p_AuthCodeURL config (r_StateToken req) (authCodeOptions conn req nonce domains) /\
    PutNonce (sv_state s) (r_StateToken req) nonce w1 = (w2, Ok tt) /\
    CreateOIDCAuthRequest req OIDCAuthRequestTTL w2 = (w', Ok tt) /\ rc_Marshal req = Ok text /\
    live w2 (request_key (r_StateToken req)) = None /\
    (Now w' < Now w2 + OIDCAuthRequestTTL -> exists i, live w' (request_key (r_StateToken req)) = Some i /\
       i_Value i = text /\ i_Expires i = Some (Now w2 + OIDCAuthRequestTTL)).
Proof.
  intros E. pose proof E as Ef. apply createAuthRequest_ok in Ef as (? & ? & ? & ? & ? & _ & _ & Hf & _).
  split; [done|]. apply createAuthRequest_published in E as
    (conn & ds & config & nonce & w1 & w2 & Hp & Hd & Ha & _ & Hr & Hu & Hput & Hc).
  pose proof Hc as Hc'. apply CreateOIDCAuthRequest_ok in Hc' as (text & Hm & _ & Hnone & Hl); [|done].
  exists conn, ds, config, nonce, w1, w2, text. by split_and!.
Qed.

Lemma start_stores_what_it_publishes_witness :
  exists (config : OAuth2Config) rest, oc_AuthURL config = googleAuthorizationEndpoint /\
    r_RedirectURL started_request = p_AuthCodeURL (W := World) config "r00" rest.
Proof.
  destruct (start_stores_what_it_publishes demo_service (demo_request "" "" "") world0 (fst started) started_request
    started_ok) as (_ & conn & ds & config & nonce & w1 & w2 & text & _ & _ & Ha & _ & Hu & _).
  exists config, (authCodeOptions conn started_request nonce ds). split; [exact Ha|exact Hu].
Defined.

(** ** Refused callbacks *)

(** A state that names no stored request and a state that was spent get the
    same error, so an answer never tells whether a guessed state existed; an
    unknown state writes nothing. Only the audit class tells them apart. *)
Theorem unknown_and_spent_states_look_alike {W} `{UnicodeTables} `{UrlParser} `{SSHKeyParser} `{RequestCodec}
    `{RegexpCache} `{CloudIdentity} `{BackendSpec W} `{AuthServer W} `{Provider W} (s : Service) (q : Values) (w w0 : W) :
  values_Get q "state" <> "" -> callbackError q = None ->
  (forall e, GetOIDCAuthRequest (values_Get q "state") w = (w0, Err e) ->
     ValidateOIDCAuthCallback s q w = (w0, Err errStateNotUsable) /\ kept (fun _ => True) w w0) /\
  (forall req w1 e, GetOIDCAuthRequest (values_Get q "state") w = (w0, Ok req) ->
     Claim (sv_state s) (values_Get q "state") w0 = (w1, Err e) -> isStateAlreadyUsed e = true ->
     snd (ValidateOIDCAuthCallback s q w) = Err errStateNotUsable).
Proof.
  intros Hs Hq. split.
  - intros e Hg. split; [|by eapply GetOIDCAuthRequest_step].
    unfold ValidateOIDCAuthCallback. by rewrite (unknown_state s q w newCallbackAudit w0 e Hs Hq Hg).
  - intros req w1 e Hg Hc Hu. unfold ValidateOIDCAuthCallback.
    by rewrite (replayed_state s q w newCallbackAudit w0 req w1 e Hs Hq Hg Hc Hu).
Qed.

Definition guessed : World * result OIDCAuthRequest := GetOIDCAuthRequest "guess" world0.

Lemma unknown_and_spent_states_look_alike_witness :
  ValidateOIDCAuthCallback demo_service (callback_query "guess" "ok") world0 = (fst guessed, Err errStateNotUsable).
Proof.
  refine (proj1 (proj1 (unknown_and_spent_states_look_alike demo_service (callback_query "guess" "ok") world0
    (fst guessed) _ _) (NotFound "key %q is not found" [request_key "guess"]) _));
    [vm_compute; discriminate|vm_compute; reflexivity|].
  assert (E : snd guessed = Err (NotFound "key %q is not found" [request_key "guess"])) by (vm_compute; reflexivity).
  rewrite <- E. unfold guessed. by destruct (GetOIDCAuthRequest _ _).
Defined.

(** Whatever Google answers, the discovery, exchange and validation stages
    fail with one of four fixed errors: no text of the provider reaches the
    browser. *)
Theorem provider_text_never_leaves {W} `{UnicodeTables} `{UrlParser} `{SSHKeyParser} `{RequestCodec}
    `{RegexpCache} `{CloudIdentity} `{Clock W} `{Backend W} `{AuthServer W} `{Provider W}
    (s : Service) (q : Values) (w w' : W) (r : result OIDCAuthResponse)
    x1 req x2 login x3 e :
  spendState s q (w, newCallbackAudit) = (x1, Ok req) ->
  loadLogin s (values_Get q "state") req x1 = (x2, Ok login) ->
  redeemCode login (values_Get q "code") (r_PkceVerifier req) x2 = (x3, Err e) ->
  ValidateOIDCAuthCallback s q w = (w', r) ->
  r = Err e /\ e ∈ provider_stage_errors.
Proof.
  intros E1 E2 E3 (w1 & a & E & _)%handler_result. split; [|by eapply redeemCode_errors].
  unfold validateCallback, mthen in E. rewrite E1, E2, E3 in E. by injection E.
Qed.

Definition bad_login : World * result OIDCAuthResponse :=
  ValidateOIDCAuthCallback demo_service (callback_query "r00" "bad") (fst started).


Lemma bad_code_is_the_providers :
  match spendState demo_service (callback_query "r00" "bad") (fst started, newCallbackAudit) with
  | (x1, Ok req) => match loadLogin demo_service "r00" req x1 with
    | (x2, Ok login) => match redeemCode login "bad" (r_PkceVerifier req) x2 with
      | (_, Err _) => true | _ => false end | _ => false end | _ => false end = true.
Proof. vm_compute. reflexivity. Qed.

Lemma provider_text_never_leaves_witness : exists e, snd bad_login = Err e /\ e ∈ provider_stage_errors.
Proof.
  pose proof bad_code_is_the_providers as H.
  destruct (spendState _ _ _) as [x1 [req|]] eqn:E1; [|discriminate H].
  destruct (loadLogin _ _ _ _) as [x2 [login|]] eqn:E2; [|discriminate H].
  destruct (redeemCode _ _ _ _) as [x3 [|e]] eqn:E3; [discriminate H|].
  exists e. apply (provider_text_never_leaves demo_service (callback_query "r00" "bad") (fst started) (fst bad_login)
    (snd bad_login) x1 req x2 login x3 e E1 E2 E3).
  unfold bad_login. by destruct (ValidateOIDCAuthCallback _ _ _).
Defined.

(** ** The audit log *)

(** Every callback with credentials is audited as a success under the name it
    answers with. A refused callback of a known login is audited as a failure
    that names one class of a fixed set and the user-facing text only, and
    every refusal of a callback that carries a state has a class. The user
    agent in the log is valid text of at most 512 bytes. *)
Theorem callback_is_audited {W} `{UnicodeTables} `{UrlParser} `{SSHKeyParser} `{RequestCodec}
    `{RegexpCache} `{CloudIdentity} `{Clock W} `{Backend W} `{AuthServer W} `{Provider W}
    (s : Service) (q : Values) (w w' : W) (r : result OIDCAuthResponse) :
  ValidateOIDCAuthCallback s q w = (w', r) ->
  exists w1 audit, validateCallback s q (w, newCallbackAudit) = ((w1, audit), r) /\
  match r with
  | Ok resp =>
      let event := loginEvent audit (Some (resp_Username resp)) in
      w' = fst (as_EmitAuditEvent event w1) /\ ev_Success event = true /\ ev_Error event = "" /\
      ev_User event = resp_Username resp
  | Err e =>
      let event := loginEvent audit None in
      (w' = fst (as_EmitAuditEvent event w1) \/ w' = w1 /\ a_emit audit = false) /\
      ev_Success event = false /\ ev_UserMessage event = auditFailureUserMessage /\
      (values_Get q "state" <> "" ->
       exists class, a_failureClass audit = Some class /\ ev_Error event = failureClass_string class)
  end /\
  len (ev_UserAgent (loginEvent audit None)) <= maxAuditUserAgentBytes /\
  ValidString (ev_UserAgent (loginEvent audit None)) = true.
Proof.
  intros (w1 & audit & E & ->)%handler_result. exists w1, audit. split; [done|].
  split; [|apply loginEvent_user_agent].
  apply validateCallback_classified in E as [Hok Herr]. simpl in Hok, Herr. destruct r as [resp|e].
  - by rewrite (Hok resp eq_refl).
  - split; [destruct (a_emit audit); auto|]. split; [done|]. split; [done|]. intros Hs.
    specialize (Herr e eq_refl Hs). simpl. destruct (a_failureClass audit) as [class|]; [|done]. by exists class.
Qed.

Lemma bad_login_fails : is_ok (snd bad_login) = false.
Proof. vm_compute. reflexivity. Qed.

Lemma callback_is_audited_witness :
  exists w1 audit class, validateCallback demo_service (callback_query "r00" "bad") (fst started, newCallbackAudit) =
    ((w1, audit), snd bad_login) /\ a_failureClass audit = Some class.
Proof.
  destruct (callback_is_audited demo_service (callback_query "r00" "bad") (fst started) (fst bad_login) (snd bad_login))
    as (w1 & audit & E & H & _).
  { unfold bad_login. by destruct (ValidateOIDCAuthCallback _ _ _). }
  pose proof bad_login_fails as Hb. destruct (snd bad_login) as [resp|e]; [discriminate Hb|].
  destruct H as (_ & _ & _ & Hc). destruct Hc as (class & Hc & _); [vm_compute; discriminate|].
  exists w1, audit, class. split; [exact E|exact Hc].
Defined.

(** ** The user of a login *)

(** C16: Writing the user of a login never takes an account over: no other user of
    this connector has the subject, and a user of that name is replaced only
    when it came from this connector and every identity it has there is this
    subject's. The update is conditional on the revision that was read, and a
    dry run writes nothing. *)
Theorem create_user_never_takes_over {W} `{RegexpCache} `{Clock W} `{AuthServer W}
    (p : createUserParams) (dry : bool) (w w' : W) (user : User) :
  createUser p dry w = (w', Ok user) ->
  exists w1 w2 users existing,
    as_GetUsers w = (w1, Ok users) /\
    (forall u i, u ∈ users -> u_Name u <> cup_Username p -> i ∈ u_OIDCIdentities u ->
       ei_ConnectorID i = cup_ConnectorName p -> ei_UserID i = cup_UserID p -> cup_UserID p = "") /\
    lookupUser (cup_Username p) w1 = (w2, Ok existing) /\
    match existing with
    | Some e =>
        (exists ref, u_Connector e = Some ref /\ cr_Type ref = OIDC /\ cr_ID ref = cup_ConnectorName p) /\
        (forall i, i ∈ u_OIDCIdentities e -> ei_ConnectorID i = cup_ConnectorName p -> ei_UserID i = cup_UserID p) /\
        (exists i, i ∈ u_OIDCIdentities e /\ ei_ConnectorID i = cup_ConnectorName p /\ ei_UserID i <> "") /\
        if dry then w' = w2 /\ user = newUser p (Now w)
        else user = with_Revision (u_Revision e) (newUser p (Now w)) /\ as_UpdateUser user w2 = (w', Ok tt)
    | None =>
        (exists e, as_GetUser (cup_Username p) w1 = (w2, Err e) /\ IsNotFound e = true) /\
        user = newUser p (Now w) /\ if dry then w' = w2 else as_CreateUser user w2 = (w', Ok tt)
    end.
Proof.
  intros (w1 & w2 & users & existing & Hu & Hf & Hl & He)%createUser_ok.
  exists w1, w2, users, existing. split; [done|]. split; [exact Hf|]. split; [done|].
  pose proof (lookupUser_ok _ _ _ _ Hl) as Hg. destruct existing as [e|]; [|by split].
  destruct He as [[Hc [(i & Hi & Hci) Hb]] Hw]. split; [done|].
  split; [intros; by apply Hb|]. split; [|done]. exists i. split; [done|]. split; [done|]. by apply Hb.
Qed.

Definition demo_params (subject : string) : createUserParams := {|
  cup_ConnectorName := "google"; cup_Username := "ann@example.com"; cup_UserID := subject;
  cup_Roles := ["access"]; cup_Traits := ∅; cup_SessionTTL := 3600 * Second |}.

Definition updated (subject : string) : World * result User := createUser (demo_params subject) false (fst finished).

Lemma updated_is_ok : is_ok (snd (updated "subject-1")) = true.
Proof. vm_compute. reflexivity. Qed.

(** The same address with another subject is refused. *)
Example other_subject_refused : is_ok (snd (updated "subject-2")) = false.
Proof. vm_compute. reflexivity. Qed.

Lemma create_user_never_takes_over_witness :
  exists users w1, as_GetUsers (fst finished) = (w1, Ok users) /\
    forall u i, u ∈ users -> u_Name u <> "ann@example.com" -> i ∈ u_OIDCIdentities u ->
       ei_ConnectorID i = "google" -> ei_UserID i = "subject-1" -> "subject-1" = "".
Proof.
  pose proof updated_is_ok as H. destruct (updated "subject-1") as [w' [user|e]] eqn:E; [|discriminate H].
  destruct (create_user_never_takes_over (demo_params "subject-1") false (fst finished) w' user E)
    as (w1 & w2 & users & existing & Hu & Hf & _).
  exists users, w1. split; [exact Hu|exact Hf].
Defined.

(** ** Roles, groups and lifetime *)

(** C36: In the run of a callback that answers with credentials, the groups
    are those of one lookup, made with the access token that run's exchange
    returned and for the address in the claims of its own ID token, when the
    connector asks for groups; each comes from a relation all gates accepted.
    The user that run writes carries a groups trait exactly when the lookup
    accepted groups, and then exactly those, whatever the ID token claimed and
    whatever a login rule made of it, and its roles are mapped from the claims
    with the same groups in place of the claimed ones. *)
Theorem login_groups_are_the_verified_ones {W} `{UnicodeTables} `{UrlParser} `{SSHKeyParser}
    `{RequestCodec} `{RegexpCache} `{CloudIdentity} `{BackendSpec W} `{AuthServer W} `{Provider W}
    (s : Service) (q : Values) (w w' : W) (resp : OIDCAuthResponse) :
  ValidateOIDCAuthCallback s q w = (w', Ok resp) ->
  exists run, answered_by s q w run w' resp /\
    let conn := lg_connector (run_login run) in
    let settings := lg_groups (run_login run) in
    let accessToken := tk_AccessToken (run_token run) in
    let email := id_Email (run_claims run) in
    let groups := run_groups run in
    let raw := run_rawClaims run in
    let user := run_user run in
    connector_policy conn /\ group_settings_of conn settings /\
    (* the lookup of this run *)
    id_EmailVerified (run_claims run) = true /\
    groups = (if gs_Enabled settings then gl_Groups (lookupGroups settings accessToken email) else []) /\
    (forall g, g ∈ groups -> exists b rels rel,
       searchGroups accessToken email groupLookupMaxBytes = (b, GOk rels) /\ rel ∈ rels /\
       accepted (gs_WorkspaceDomains settings) rel = Some g) /\
    (* the claims of this run, with these groups *)
    (exists claimed, p_claimsToMap (Some (run_claims run)) = Ok claimed /\
       forall k, k <> GroupsClaim -> raw !! k = claimed !! k) /\
    raw !! GroupsClaim = match groups with [] => None | _ => Some (CStrings groups) end /\
    (* the user this run writes *)
    u_Traits user !! GroupsClaim = match groups with [] => None | _ => Some groups end /\
    u_Roles user = snd (mapTraits (GetTraitMappings conn) (claimsToTraits raw)) /\ u_Roles user <> [] /\
    user_written (run_params run) false (run_calculated run) (run_written run) user.
Proof.
  intros (run & Ha & Hc)%callback_answered. exists run. split; [done|]. cbv zeta.
  destruct Ha as (w1 & audit & _ & Hrun & _).
  destruct (callback_run_user _ _ _ _ _ _ Hrun) as (_ & _ & -> & ->).
  destruct Hc as [_ [_ _ Hp _ Hgs _ _] _ _ [(c & [= <-] & _ & _ & Hver & _ & _ & _ & _ & _ & Hg) (raw0 & Hm & Hraw)]].
  destruct Hrun. match goal with Hu : calculateUser _ _ _ _ _ _ = _ |- _ =>
    apply calculateUser_ok in Hu as (_ & _ & _ & _ & Hr & Hne & Ht & _ & _) end.
  match goal with Hu : createUser _ _ _ = _ |- _ => apply createUser_ok in Hu as Huw end.
  split_and!; try done.
  - intros g Hin. rewrite Hg in Hin. destruct (gs_Enabled _); [by apply lookupGroups_ok|by apply elem_of_nil in Hin].
  - exists raw0. split; [done|]. intros k Hk. rewrite Hraw.
    destruct (run_groups run); [by apply lookup_delete_ne|].
    etransitivity; [by apply lookup_insert_ne|by apply lookup_delete_ne].
  - rewrite Hraw. destruct (run_groups run); [apply lookup_delete_eq|apply lookup_insert_eq].
  - by rewrite Hr.
Qed.

Lemma login_groups_are_the_verified_ones_witness :
  exists run resp, answered_by demo_service (callback_query "r00" "ok") (fst started) run (fst finished) resp /\
    u_Traits (run_user run) !! GroupsClaim =
      match run_groups run with [] => None | _ => Some (run_groups run) end /\
    u_Roles (run_user run) <> [].
Proof.
  destruct finished_ok as [resp E].
  destruct (login_groups_are_the_verified_ones demo_service (callback_query "r00" "ok") (fst started) (fst finished) resp E)
    as (run & Ha & H). destruct_and! H. exists run, resp. auto.
Defined.

Lemma AdjustSessionTTL_pos limits ttl :
  0 < ttl -> (forall l, l ∈ limits -> 0 <= l) -> 0 < AdjustSessionTTL limits ttl.
Proof.
  unfold AdjustSessionTTL. revert ttl. induction limits as [|x limits IH]; intros ttl Ht Hl; cbn [foldl]; [done|].
  apply IH; [|set_solver]. specialize (Hl x (list_elem_of_here _ _)).
  destruct (Z.eqb_spec x 0), (Z.ltb_spec x ttl); simpl; lia.
Qed.

(** The session of a login lasts no longer than the cluster's maximum, than
    any limit of a role it holds, and than the client asked for; it is never
    empty. *)
Theorem session_lifetime_is_bounded {W} `{RegexpCache} `{AuthServer W}
    (conn : OIDCConnector) (claims : OIDCClaims) (subject : string) (req : OIDCAuthRequest)
    (groups : list string) (w w' : W) ra p :
  calculateUser conn claims subject req groups w = (w', ra, Ok p) -> 0 <= r_CertTTL req ->
  exists w1 limits, as_FetchRoles (cup_Roles p) (cup_Traits p) w1 = (w', Ok limits) /\
    ((forall l, l ∈ limits -> 0 <= l) ->
     0 < cup_SessionTTL p <= MaxSessionDuration /\
     (forall l, l ∈ limits -> l <> 0 -> cup_SessionTTL p <= l) /\
     (r_CertTTL req <> 0 -> cup_SessionTTL p <= r_CertTTL req)).
Proof.
  intros (_ & _ & _ & _ & Hr & _ & _ & (w1 & limits & Hf & ->) & _)%calculateUser_ok Hc.
  exists w1, limits. split; [by rewrite Hr|]. intros Hl.
  pose proof (AdjustSessionTTL_pos limits MaxSessionDuration ltac:(done) Hl) as Hpos.
  destruct (AdjustSessionTTL_le limits MaxSessionDuration) as [Hm Hle].
  destruct (MinTTL_le _ (r_CertTTL req) Hpos) as [Ha Hb].
  split_and!; [|lia| |].
  - unfold MinTTL in *. destruct (Z.eqb_spec (AdjustSessionTTL limits MaxSessionDuration) 0), (Z.eqb_spec (r_CertTTL req) 0);
      repeat case_match; lia.
  - intros l Hin Hne. specialize (Hle l Hin Hne). lia.
  - intros Hne. apply Hb. lia.
Qed.

Definition demo_calculated :=
  calculateUser (W := World) demo_connector (list_to_map [("email", CString "ann@example.com")]) "subject-1"
    (demo_request "" "" "") [] (fst started).

Lemma session_lifetime_is_bounded_witness :
  exists (p : createUserParams) (limits : list duration), (forall l, l ∈ limits -> l = 8 * 3600 * Second) /\
    0 < cup_SessionTTL p <= MaxSessionDuration /\ (forall l, l ∈ limits -> l <> 0 -> cup_SessionTTL p <= l).
Proof.
  assert (H : is_ok (snd demo_calculated) = true) by (vm_compute; reflexivity).
  assert (E0 : demo_calculated = calculateUser (W := World) demo_connector
    (list_to_map [("email", CString "ann@example.com")]) "subject-1" (demo_request "" "" "") [] (fst started)) by reflexivity.
  destruct demo_calculated as [[w' ra] [p|e]]; [|discriminate H].
  destruct (session_lifetime_is_bounded _ _ _ _ _ _ _ _ _ (eq_sym E0)) as (w1 & limits & Hf & Hb); [discriminate|].
  assert (Hl : forall l, l ∈ limits -> l = 8 * 3600 * Second).
  { injection Hf as _ <-. intros l Hl. apply list_elem_of_fmap in Hl as (r & -> & _). reflexivity. }
  destruct Hb as (Ht & Hle & _); [intros l Hin; rewrite (Hl l Hin); discriminate|].
  exists p, limits. split; [exact Hl|]. split; [exact Ht|exact Hle].
Defined.
