(* ===== verification/RuntimeClaims.v ===== *)
(** * What the runtime around a login promises

    The theorems about [Transport], [Modules] and [Web]: what reaches the
    network, what the process advertises, and what a browser is given. *)

From S2P Require Import Prelude GoStrings Utf8 Types Key Backend State Policy Identity Groups.
From S2P Require Import LoginAudit Transport Service Users Modules Web Callback Scenario.

(** ** Network *)

(** C37: A client restricted to Google asks the network for the three pinned
    endpoints only, whatever it is asked for, whatever the responses are and
    wherever they redirect to, and it adds nothing to what was asked before. *)
Theorem restricted_client_stays_on_allow_list (fuel : nat) (c c' : HTTPClient) (via : list (option string))
    (url : option string) (next : RoundTripper) (w w' : Wire) (r : result (option string)) :
  hc_Transport c = Some next -> asks_only next -> RestrictClientToGoogle (Some c) = Ok c' ->
  client_Do fuel c' via url w = (w', r) ->
  exists urls, w' = (w ++ urls)%list /\
    forall u, u ∈ urls -> exists t, u = Some t /\
      t ∈ [googleDiscoveryEndpoint; googleTokenEndpoint; googleJWKSEndpoint].
Proof.
  intros Hn Ha Hr Hd. destruct (client_Do_wire fuel c c' via url next Hn Ha Hr w w' r Hd) as (urls & -> & Hall).
  exists urls. split; [done|]. intros u Hu. rewrite Forall_forall in Hall.
  by apply isAllowedEndpoint_true, (Hall u).
Qed.

(** A network that redirects the discovery document elsewhere. *)
Definition hostile : RoundTripper := fun url w =>
  ((w ++ [url])%list, Ok (Redirect (Some "https://evil.example/"))).
Definition plain_client : HTTPClient := {| hc_Transport := Some hostile; hc_CheckRedirect := None |}.
Definition pinned_client : HTTPClient :=
  {| hc_Transport := Some (allowListRoundTripper hostile); hc_CheckRedirect := Some (restrictedRedirect None) |}.

Lemma restricted_client_stays_on_allow_list_witness :
  client_Do 12 pinned_client [] (Some googleDiscoveryEndpoint) [] =
    ([Some googleDiscoveryEndpoint], Err (AccessDenied "OIDC provider redirect is not allowed" [])) /\
  exists urls, [Some googleDiscoveryEndpoint] = ([] ++ urls)%list /\
    forall u, u ∈ urls -> exists t, u = Some t /\
      t ∈ [googleDiscoveryEndpoint; googleTokenEndpoint; googleJWKSEndpoint].
Proof.
  assert (E : client_Do 12 pinned_client [] (Some googleDiscoveryEndpoint) [] =
    ([Some googleDiscoveryEndpoint], Err (AccessDenied "OIDC provider redirect is not allowed" []))) by reflexivity.
  split; [exact E|].
  apply (restricted_client_stays_on_allow_list 12 plain_client pinned_client [] (Some googleDiscoveryEndpoint) hostile
    [] _ (Err (AccessDenied "OIDC provider redirect is not allowed" [])) eq_refl); [|reflexivity|exact E].
  intros url w w' r [= <- _]. right. reflexivity.
Defined.

(** A restricted client with no redirect policy of its own comes to an end: a
    request that has followed eleven hops is refused, so twelve steps are
    always enough for an answer. *)
Theorem restricted_client_terminates (c c' : HTTPClient) (url : option string) (next : RoundTripper)
    (fuel : nat) (w w' : Wire) (r : result (option string)) :
  hc_Transport c = Some next -> hc_CheckRedirect c = None -> RestrictClientToGoogle (Some c) = Ok c' ->
  (12 <= fuel)%nat -> client_Do fuel c' [] url w = (w', r) ->
  (exists body, r = Ok (Some body)) \/ exists e, r = Err e.
Proof.
  intros Hn Hc Hr Hf Hd. pose proof (client_Do_ends fuel c c' [] url w w' r next Hn Hc Hr) as H.
  destruct r as [[body|]|e]; [by left; exists body| |by right; exists e].
  exfalso. apply H; [simpl; unfold maxRedirects; lia|lia|done|done].
Qed.

(** A network that redirects in a circle. *)
Definition circular : RoundTripper := fun url w => ((w ++ [url])%list, Ok (Redirect (Some googleJWKSEndpoint))).
Definition circular_client : HTTPClient :=
  {| hc_Transport := Some (allowListRoundTripper circular); hc_CheckRedirect := Some (restrictedRedirect None) |}.

Lemma restricted_client_terminates_witness :
  let r := snd (client_Do 12 circular_client [] (Some googleJWKSEndpoint) []) in
  (exists body, r = Ok (Some body)) \/ exists e, r = Err e.
Proof.
  apply (restricted_client_terminates {| hc_Transport := Some circular; hc_CheckRedirect := None |} circular_client
    (Some googleJWKSEndpoint) circular 12 [] (fst (client_Do 12 circular_client [] (Some googleJWKSEndpoint) []))).
  - reflexivity.
  - reflexivity.
  - reflexivity.
  - lia.
  - vm_compute. reflexivity.
Defined.

(** ** What the process advertises *)

(** The wrapped modules report the theme and the OIDC entitlement, and
    everything else as the modules they wrap do; every call hands out a map of
    its own and writes no map handed out before. *)
Theorem features_add_one_entitlement (inner : Modules) (h h1 h2 : Heap) (f1 f2 : Features) :
  features inner h = (h1, f1) -> features (WithOIDC inner) h = (h2, f2) ->
  (forall l m, h !! l = Some m -> h2 !! l = Some m) /\
  (forall l, f_Entitlements f2 = Some l -> h !! l = None) /\
  f_CustomTheme f2 = PsiphonThemeName /\ f_rest f2 = f_rest f1 /\
  GetEntitlement h2 f2 entitlements_OIDC = {| ent_Enabled := true; ent_Limit := 0 |} /\
  forall kind, kind <> entitlements_OIDC -> GetEntitlement h2 f2 kind = GetEntitlement h1 f1 kind.
Proof.
  intros E1 E2. pose proof (features_heap _ _ _ _ E1) as Hs.
  destruct (features_WithOIDC _ _ _ _ _ _ E1 E2) as (Hs2 & Ht & Hr & Hfresh & Ho & Hk).
  split; [intros l m Hl; eapply lookup_weaken; [eapply lookup_weaken; [exact Hl|exact Hs]|exact Hs2]|].
  split; [|done]. intros l Hl. apply Hfresh in Hl. eapply lookup_weaken_None; [exact Hl|exact Hs].
Qed.

Definition base_modules : Modules :=
  OtherModules {| f_CustomTheme := ""; f_Entitlements := Some 1%positive; f_rest := "" |}.
Definition base_heap : Heap := {[ 1%positive := {[ "SAML" := {| ent_Enabled := true; ent_Limit := 5 |} ]} ]}.

Lemma features_add_one_entitlement_witness :
  let '(h2, f2) := features (WithOIDC base_modules) base_heap in
  f_CustomTheme f2 = PsiphonThemeName /\
  GetEntitlement h2 f2 "SAML" = GetEntitlement base_heap {| f_CustomTheme := ""; f_Entitlements := Some 1%positive; f_rest := "" |} "SAML".
Proof.
  destruct (features (WithOIDC base_modules) base_heap) as [h2 f2] eqn:E.
  destruct (features_add_one_entitlement base_modules base_heap base_heap h2
    {| f_CustomTheme := ""; f_Entitlements := Some 1%positive; f_rest := "" |} f2 eq_refl E)
    as (_ & _ & Ht & _ & _ & Hk).
  split; [exact Ht|]. apply Hk. discriminate.
Defined.

(** Activation is all or nothing: unless the variable asks for it the modules
    stay as they are and no registry is made; when it does, the modules are
    wrapped and the registry holds the plugin with its process hook, both. *)
Theorem activation_is_all_or_nothing (env : option string) (m m' : Modules) (r : result (option Registry)) :
  Activate env m = (m', r) ->
  ((forall raw, env = Some raw -> ParseBool raw <> Ok true) /\ m' = m /\ (r = Ok None \/ is_ok r = false)) \/
  ((exists raw, env = Some raw /\ ParseBool raw = Ok true) /\ m' = WithOIDC m /\
   exists reg, r = Ok (Some reg) /\ IsRegistered reg PluginName = true /\ rg_hook reg = true).
Proof.
  intros E. pose proof E as Hs. apply Activate_spec in Hs. unfold Activate in E.
  destruct env as [raw|]; [|injection E as <- <-; left; naive_solver].
  unfold mthen, mlift in E. destruct (ParseBool raw) as [[]|e] eqn:Ep; simpl in E.
  - right. split; [by exists raw|]. vm_compute in E. injection E as <- <-. split; [done|]. eexists. by split_and!.
  - injection E as <- <-. left. split; [naive_solver congruence|]. auto.
  - injection E as <- <-. left. split; [naive_solver congruence|]. auto.
Qed.

Lemma activation_is_all_or_nothing_witness :
  snd (Activate (Some "yes") base_modules) <> Ok None /\ fst (Activate (Some "yes") base_modules) = base_modules.
Proof.
  split; [discriminate|].
  destruct (activation_is_all_or_nothing (Some "yes") base_modules (fst (Activate (Some "yes") base_modules))
    (snd (Activate (Some "yes") base_modules))) as [(_ & H & _)|((raw & H & Hp) & _)].
  - vm_compute. reflexivity.
  - exact H.
  - injection H as <-. discriminate Hp.
Defined.


(** ** The browser *)

(** The browser's callback route answers one of two fixed failure pages, or
    it got a validated login: for a web login the session cookie was set after
    the CSRF token of that login was verified and the redirect is local to the
    proxy; for a console login the keys are there and the answer carries them.
    A web login whose CSRF token does not verify sets nothing. *)
Theorem web_callback_verifies_csrf {W} `{AuthServer W} `{!ProxyWeb (W := W)} (clt : bool) (r : HTTPRequest)
    (query : gmap string (list string)) (w w' : W) (page : string) :
  callback clt r query w = (w', page) ->
  (page = LoginFailedBadCallbackRedirectURL \/ page = LoginFailedRedirectURL \/
   clt = true /\ exists w1 response, px_ValidateOIDCAuthCallback query w = (w1, Ok response) /\
     if ar_CreateWebSession (resp_Req response) then
       exists session url, resp_Session response = Some session /\
         px_VerifyCSRFToken (ar_CSRFToken (resp_Req response)) r = Ok tt /\
         px_SetCookie (resp_Username response) session w1 = (w', Ok tt) /\
         px_OriginLocalRedirectURI (ar_ClientRedirectURL (resp_Req response)) = Ok url /\
         page = match px_GetDeviceWebToken session with
                | Some token => BuildDeviceWebRedirectPath token url | None => url end
     else len (ar_SSHPubKey (resp_Req response)) + len (ar_TLSPubKey (resp_Req response)) <> 0 /\
       px_ConstructSSHResponse response = Ok page /\ w' = w1) /\
  (forall w1 response e, clt = true -> px_ValidateOIDCAuthCallback query w = (w1, Ok response) ->
     ar_CreateWebSession (resp_Req response) = true ->
     px_VerifyCSRFToken (ar_CSRFToken (resp_Req response)) r = Err e ->
     w' = w1 /\ page = LoginFailedRedirectURL).
Proof.
  intros E. unfold callback in E. destruct clt; simpl in E; [|injection E as <- <-; split; [auto|done]].
  destruct (px_ValidateOIDCAuthCallback query w) as [w1 [response|e]];
    [|injection E as <- <-; split; [auto|naive_solver]].
  split.
  - unfold or_page in E. destruct (finishCallback r response w1) as [w2 [url|e]] eqn:Ef; injection E as <- <-; [|auto].
    right. right. split; [done|]. exists w1, response. split; [done|]. unfold finishCallback in Ef.
    destruct (ar_CreateWebSession (resp_Req response)).
    + destruct (resp_Session response) as [session|]; [|done]. unfold setWebSession in Ef. inv_mok.
      match goal with u : unit |- _ => destruct u | _ => idtac end.
      destruct (px_GetDeviceWebToken session) eqn:Ed; inv_mok; eexists _, _; split_and!; eauto; by rewrite Ed.
    + apply deny_if_ok in Ef as [Hl Ef]. inv_mok. bool_to_prop. by split_and!.
  - intros w2 response' e _ [= <- <-] Hw Hv. rewrite (finishCallback_csrf r response w1 e Hw Hv) in E.
    by injection E.
Qed.

(** A proxy whose callback gives one web session, and whose CSRF check looks
    at the user agent. *)
Definition demo_response : OIDCAuthResponse (W := World) := {|
  resp_Username := "ann@example.com";
  resp_Identity := externalIdentity "google" "ann@example.com" "subject-1";
  resp_Session := Some "session of ann@example.com"; resp_Cert := None; resp_TLSCert := None;
  resp_Req := authRequestFromProto (demo_request "r00" "v02" "");
  resp_HostSigners := []; resp_ClientOptions := None |}.
#[local] Instance demo_proxy : ProxyWeb (W := World) := {|
  px_CreateOIDCAuthRequest := fun r => mret r;
  px_ValidateOIDCAuthCallback := fun _ => mret demo_response;
  px_ParseSSORequestParams := fun _ => Err (BadParameter "missing parameters" []);
  px_VerifyCSRFToken := fun token r =>
    if bool_decide (hr_UserAgent r = token) then Ok tt else Err (AccessDenied "CSRF token mismatch" []);
  px_SetCookie := fun _ _ => mret tt;
  px_OriginLocalRedirectURI := fun url => Ok url;
  px_GetDeviceWebToken := fun _ => None;
  px_ConstructSSHResponse := fun _ => Err (BadParameter "no keys" []);
|}.
Definition browser (token : string) : HTTPRequest :=
  {| hr_Host := "access.example.com:443"; hr_RemoteAddr := "192.0.2.7:4000"; hr_UserAgent := token |}.

Lemma web_callback_verifies_csrf_witness :
  snd (callback true (browser "csrf") ∅ world0) = "/web" /\
  snd (callback true (browser "forged") ∅ world0) = LoginFailedRedirectURL.
Proof.
  split; [reflexivity|].
  refine (proj2 (proj2 (web_callback_verifies_csrf true (browser "forged") ∅ world0
    (fst (callback true (browser "forged") ∅ world0)) (snd (callback true (browser "forged") ∅ world0)) _)
    world0 demo_response (AccessDenied "CSRF token mismatch" []) _ _ _ _)).
  - by destruct (callback true (browser "forged") ∅ world0).
  - reflexivity.
  - reflexivity.
  - reflexivity.
  - reflexivity.
Defined.
