(* ===== verification/ScopeClaims.v ===== *)
(** * What keys and scopes promise

    The theorems about [Key], [Backend] and [Scopes]: key ranges hold a path's
    children and nothing else, and scopes form a tree whose comparison, order,
    globs and enforcement points agree with it. *)

From S2P Require Import Prelude GoStrings Utf8 Types Key Backend Scopes Scenario.
From Stdlib Require Import Ascii.

(** ** Keys *)

Lemma RangeEnd_ExactKey ps :
  ps <> [] -> exists x, k_s (ExactKey ps) = x +:+ "/" /\ RangeEnd (ExactKey ps) = KeyFromString (x +:+ "0").
Proof.
  intros Hp. exists (SeparatorString +:+ Join ps SeparatorString).
  assert (E : k_s (ExactKey ps) = (SeparatorString +:+ Join ps SeparatorString) +:+ "/").
  { unfold ExactKey. simpl k_s. rewrite Join_app by done. simpl Join. rewrite str_app_nil_r.
    by rewrite str_app_assoc. }
  split; [done|]. unfold RangeEnd. rewrite E, bytes_of_app, rev_app_distr.
  generalize (SeparatorString +:+ Join ps SeparatorString). intros x. simpl.
  by rewrite of_bytes_app, rev_involutive, of_bytes_of.
Qed.

(** The range from the exact key of a path to its range end holds the keys
    strictly below that path and no others: no sibling whose name only begins
    with the path's last component is in it. *)
Theorem exact_key_range_is_the_children (ps cs : list string) :
  ps <> [] -> cs <> [] -> Forall plain ps -> Forall plain cs ->
  let start := k_s (ExactKey ps) in
  let stop := k_s (RangeEnd (ExactKey ps)) in
  let key := k_s (NewKey cs) in
  at_most start key /\ before key stop <-> exists rest, rest <> [] /\ cs = (ps ++ rest)%list.
Proof.
  intros Hp Hc Hpp Hpc start stop key. rewrite <- ExactKey_children by done.
  unfold KeyHasPrefix. apply RangeEnd_prefix.
  - destruct (RangeEnd_ExactKey ps Hp) as (x & _ & ->). simpl. apply bool_decide_eq_false.
    intros E. apply (f_equal bytes_of) in E. rewrite bytes_of_app in E.
    by destruct (app_inj_tail _ [] _ _ E).
  - destruct (RangeEnd_ExactKey ps Hp) as (x & _ & ->). simpl.
    intros E. apply (f_equal bytes_of) in E. rewrite bytes_of_app in E.
    by destruct (app_inj_tail _ [] _ _ E).
Qed.

Lemma exact_key_range_is_the_children_witness :
  at_most (k_s (ExactKey ["roles"; "a"])) (k_s (NewKey ["roles"; "a"; "x"])) /\
  ~ (at_most (k_s (ExactKey ["roles"; "a"])) (k_s (NewKey ["roles"; "ab"])) /\
     before (k_s (NewKey ["roles"; "ab"])) (k_s (RangeEnd (ExactKey ["roles"; "a"])))).
Proof.
  assert (Hp : Forall plain ["roles"; "a"; "x"; "ab"]).
  { apply (bool_decide_unpack _). vm_compute. exact I. }
  rewrite !Forall_cons in Hp. destruct Hp as (H1 & H2 & H3 & H4 & _).
  split.
  - apply (exact_key_range_is_the_children ["roles"; "a"] ["roles"; "a"; "x"]);
      [discriminate|discriminate|auto|auto|]. exists ["x"]. split; [discriminate|reflexivity].
  - intros H. apply (exact_key_range_is_the_children ["roles"; "a"] ["roles"; "ab"]) in H as (rest & _ & E);
      [discriminate E|discriminate|discriminate|auto|auto].
Defined.

(** ** The tree of scopes *)

(** Splitting and joining scopes are inverse on segments without a separator,
    a normal form has the same segments, is its own normal form, and two
    scopes have the same normal form exactly when they have the same segments;
    a scope that passes strong validation is its own normal form. *)
Theorem scope_normal_form `{UnicodeTables} (scope other : string) (segments : list string) :
  (Forall plain segments -> DescendingSegments (JoinScope segments) = segments) /\
  (scope <> "" -> DescendingSegments (NormalizeForEquality scope) = DescendingSegments scope /\
     NormalizeForEquality (NormalizeForEquality scope) = NormalizeForEquality scope) /\
  (scope <> "" -> other <> "" ->
     NormalizeForEquality scope = NormalizeForEquality other <-> DescendingSegments scope = DescendingSegments other) /\
  (StrongValidate scope = Ok tt -> NormalizeForEquality scope = scope).
Proof.
  assert (Hne : forall s, s <> "" -> NormalizeForEquality s = JoinScope (DescendingSegments s)).
  { intros s Hs. unfold NormalizeForEquality. by rewrite bool_decide_false. }
  split_and!.
  - apply DescendingSegments_JoinScope.
  - intros Hs. split; [by apply segments_Normalize|].
    rewrite (Hne (NormalizeForEquality scope)); [by rewrite segments_Normalize, Hne|].
    rewrite Hne by done. apply JoinScope_nonempty.
  - intros Hs Ho. rewrite !Hne by done. split; [|by intros ->]. intros E.
    apply (f_equal DescendingSegments) in E. by rewrite !DescendingSegments_JoinScope in E by apply DescendingSegments_ok.
  - intros Hv. by apply StrongValidate_canonical.
Qed.

Lemma scope_normal_form_witness :
  NormalizeForEquality "/staging/west" = "/staging/west" /\
  NormalizeForEquality "staging/west/" = NormalizeForEquality "/staging/west".
Proof.
  split.
  - apply (proj2 (proj2 (proj2 (scope_normal_form "/staging/west" "" [])))). vm_compute. reflexivity.
  - apply (proj1 (proj2 (proj2 (scope_normal_form "staging/west/" "/staging/west" []))));
      [discriminate|discriminate|vm_compute; reflexivity].
Defined.

(** Comparing two scopes says how their segments relate: equal, one a proper
    prefix of the other, or neither; swapping the scopes swaps the answer, and
    an empty scope is related to nothing. *)
Theorem compare_is_the_tree_relation (lhs rhs : string) :
  (lhs = "" \/ rhs = "" -> Compare lhs rhs = Orthogonal) /\
  (lhs <> "" -> rhs <> "" ->
   match Compare lhs rhs with
   | Equivalent => DescendingSegments lhs = DescendingSegments rhs
   | Descendant => exists k, k <> [] /\ DescendingSegments rhs = (DescendingSegments lhs ++ k)%list
   | Ancestor => exists k, k <> [] /\ DescendingSegments lhs = (DescendingSegments rhs ++ k)%list
   | Orthogonal => ~ (exists k, DescendingSegments rhs = (DescendingSegments lhs ++ k)%list) /\
                   ~ (exists k, DescendingSegments lhs = (DescendingSegments rhs ++ k)%list)
   end) /\
  Compare rhs lhs = flip_rel (Compare lhs rhs).
Proof.
  unfold Compare. split_and!.
  - intros [->| ->]; [done|]. by rewrite orb_true_r.
  - intros Hl Hr. rewrite !bool_decide_false by done. simpl. apply compare_loop_spec.
  - rewrite (orb_comm (bool_decide (rhs = ""))). destruct (_ || _); [done|]. apply compare_loop_flip.
Qed.

Lemma compare_is_the_tree_relation_witness :
  Compare "/staging" "staging/west/" = Descendant /\
  exists k, k <> [] /\ DescendingSegments "staging/west/" = (DescendingSegments "/staging" ++ k)%list.
Proof.
  split; [vm_compute; reflexivity|].
  assert (Hn : "/staging" <> "" /\ "staging/west/" <> "") by (split; discriminate).
  exact (proj1 (proj2 (compare_is_the_tree_relation "/staging" "staging/west/")) (proj1 Hn) (proj2 Hn)).
Defined.

(** The sort order of scopes is total, agrees with equality of segments, is
    transitive, and puts every ancestor before its descendants. *)
Theorem sort_is_an_order_of_the_tree (x y z : string) :
  Sort y x = CompOpp (Sort x y) /\
  (Sort x y = Eq <-> DescendingSegments x = DescendingSegments y) /\
  (Sort x y = Lt -> Sort y z = Lt -> Sort x z = Lt) /\
  (Compare x y = Descendant -> Sort x y = Lt).
Proof.
  rewrite !Sort_segments. split_and!.
  - apply sort_loop_opp.
  - apply sort_loop_eq.
  - apply sort_loop_trans.
  - unfold Compare. destruct (_ || _); [done|]. intros E.
    pose proof (compare_loop_spec (DescendingSegments x) (DescendingSegments y)) as H. rewrite E in H.
    destruct H as (k & Hk & ->). by apply sort_loop_prefix.
Qed.

Lemma sort_is_an_order_of_the_tree_witness : Sort "/a" "/a/b" = Lt /\ Sort "/a" "/b" = Lt.
Proof.
  split.
  - apply (sort_is_an_order_of_the_tree "/a" "/a/b" ""). vm_compute. reflexivity.
  - apply (sort_is_an_order_of_the_tree "/a" "/a/b" "/b"); vm_compute; reflexivity.
Defined.

(** A glob matches exactly the scopes that begin with its segments, the
    wildcard standing for any one segment. The test that a glob only matches
    what is subject to a scope without wildcards is sound, and exact: when it
    fails, some list of segments the glob matches lies outside the scope. *)
Theorem scope_globs_are_exact (glob scope target : string) :
  glob <> "" -> scope <> "" -> target <> "" ->
  (matchGlob glob target = true <->
   exists s1 s2, DescendingSegments target = (s1 ++ s2)%list /\
     Forall2 (fun g s => g = s \/ g = exclusiveChildGlobSegment) (DescendingSegments glob) s1) /\
  (exclusiveChildGlobSegment ∉ DescendingSegments scope ->
   globOnlyMatchesSubjectsOfScope glob scope = true -> matchGlob glob target = true ->
   is_rel (Compare scope target) [Equivalent; Descendant] = true) /\
  (globOnlyMatchesSubjectsOfScope glob scope = false ->
   exists t, match_loop (DescendingSegments glob) t = true /\
     ~ exists k, t = (DescendingSegments scope ++ k)%list).
Proof.
  intros Hg Hs Ht. unfold matchGlob, globOnlyMatchesSubjectsOfScope, Compare.
  rewrite !(bool_decide_false (_ = "")) by done. simpl orb. cbv iota. split_and!.
  - apply match_loop_spec.
  - intros Hw Ho Hm. apply compare_loop_below. by eapply subjects_loop_sound.
  - apply subjects_loop_complete.
Qed.

Lemma scope_globs_are_exact_witness :
  is_rel (Compare "/staging" "/staging/west/lab") [Equivalent; Descendant] = true.
Proof.
  apply (proj1 (proj2 (scope_globs_are_exact "/staging/**" "/staging" "/staging/west/lab"
    ltac:(discriminate) ltac:(discriminate) ltac:(discriminate)))).
  - apply (bool_decide_unpack _). vm_compute. exact I.
  - vm_compute. reflexivity.
  - vm_compute. reflexivity.
Defined.

(** The enforcement points of a resource are the pairs of an origin and an
    effect among the resource's own ancestors with the origin at or above the
    effect: origins from the root down, and for each the effects
    from the resource up to the origin. *)
Theorem enforcement_points_cover_the_path (scope : string) :
  scope <> "" ->
  let l := DescendingSegments scope in
  let n := length l in
  EnforcementPointsForResourceScope scope =
    mbind (fun i => (fun j => {| ep_ScopeOfOrigin := prefix_scope l i; ep_ScopeOfEffect := prefix_scope l j |})
                      <$> rev (seq i (S n - i))) (seq 0 (S n)) /\
  forall o e, {| ep_ScopeOfOrigin := o; ep_ScopeOfEffect := e |} ∈ EnforcementPointsForResourceScope scope <->
    exists i j, (i <= j <= n)%nat /\ o = prefix_scope l i /\ e = prefix_scope l j.
Proof.
  intros Hs l n. pose proof (EnforcementPoints_spec scope Hs) as E. cbv zeta in E. fold l n in E.
  rewrite E. split; [done|]. intros o e. rewrite list_elem_of_bind. split.
  - intros (i & Hj & Hi). apply list_elem_of_fmap in Hj as (j & [= -> ->] & Hj).
    rewrite list_elem_of_In, <- in_rev, in_seq in Hj. apply elem_of_seq in Hi.
    exists i, j. split; [lia|done].
  - intros (i & j & Hij & -> & ->). exists i. split; [|apply elem_of_seq; lia].
    apply list_elem_of_fmap. exists j. split; [done|]. rewrite list_elem_of_In, <- in_rev, in_seq. lia.
Qed.

Lemma enforcement_points_cover_the_path_witness :
  ep_ScopeOfEffect <$> EnforcementPointsForResourceScope "/a/b" =
    ["/a/b"; "/a"; "/"; "/a/b"; "/a"; "/a/b"] /\
  {| ep_ScopeOfOrigin := "/a"; ep_ScopeOfEffect := "/a/b" |} ∈ EnforcementPointsForResourceScope "/a/b".
Proof.
  split; [vm_compute; reflexivity|].
  apply (proj2 (enforcement_points_cover_the_path "/a/b" ltac:(discriminate))).
  exists 1%nat, 2%nat. split; [vm_compute; lia|]. split; vm_compute; reflexivity.
Defined.
