(* ===== verification/MemoryClaims.v ===== *)
(** * What the memory backend promises

    Every state the backend can reach is well formed, each of its operations
    is the specification over a plain map, its events replay to what it holds,
    its paged reads are the range, and an atomic write happens whole or not at
    all. *)

From stdpp Require Import pretty.
From S2P Require Import Prelude GoStrings Types Key Backend BTree MinHeap Memory MemoryFacts.
From S2P Require Import MemoryRefinement MemoryRange MemoryBackend.
#[local] Open Scope Z_scope.

(** ** The states the backend can reach *)

Section Reach.
Context {T : Type} `{BTreeSpec ptr T} `{Revisions}.
#[local] Abbreviation Mem := (Memory T).

(** From an empty backend, by calls, by sweeps (a page of a read that stops
    there) and by the clock. *)
Inductive reach (mirror off : bool) : Mem -> Prop :=
| reach_new now : reach mirror off (New now mirror off)
| reach_run m o m' r : reach mirror off m -> run o m = (m', r) -> reach mirror off m'
| reach_sweep m : reach mirror off m -> reach mirror off (fst (removeExpired m))
| reach_time m t : reach mirror off m -> m_now m <= t -> reach mirror off (set_now t m).

(** Well formed, set up as it was, and with the events of its contents. *)
Record sound (mirror off : bool) (m : Mem) : Prop := {
  sd_wf : wf m;
  sd_mirror : m_Mirror m = mirror;
  sd_off : m_EventsOff m = off;
  sd_events : off = false -> replay (m_buf m) ∅ = contents m;
}.

Lemma stepped_sound mirror off es (m m' : Mem) : sound mirror off m -> stepped es m m' -> sound mirror off m'.
Proof.
  intros [Hwf Hm Ho He] [Hwf' [_ Hm' Ho'] Hc Hb]. split; [done|congruence..|]. intros E.
  rewrite Hb, Hc, Ho, E, replay_app, He by done. done.
Qed.

Lemma reach_sound mirror off m : reach mirror off m -> sound mirror off m.
Proof.
  induction 1 as [now|m o m' r _ IH E|m _ IH|m t _ IH Ht].
  - destruct (New_wf (T := T) now mirror off) as [Hwf Hc]. by split.
  - destruct (run_refines m o (sd_wf _ _ _ IH)) as (m1 & r1 & E1 & (es & Hs) & _).
    rewrite E1 in E. simplify_eq. by eapply stepped_sound.
  - destruct (removeExpired_spec m (sd_wf _ _ _ IH)) as (m1 & n & es & -> & Hs & _). by eapply stepped_sound.
  - destruct IH as [Hwf Hm Ho He]. split; [by eapply buf_wf|done..].
Qed.
End Reach.

(** ** The claims *)

Section Claims.
Context {T : Type} `{BTreeSpec ptr T} `{Revisions}.
#[local] Abbreviation Mem := (Memory T).

(** C20: In every state the backend can reach, each call ends without a panic:
    a call with missing parameters is refused and changes nothing, and any
    other call does to the contents, and returns, what the specification says
    over a plain map. The map it starts from is the contents less what a sweep
    drops: nothing in mirror mode; otherwise only items that have expired, and
    every item that expired before the current second. *)
Theorem memory_refines_specification mirror off (m : Mem) (o : op) :
  reach mirror off m ->
  exists m' r, run o m = (m', r) /\
    match guard mirror o with
    | Some e => m' = m /\ r = Err e
    | None => exists kv, swept_by m kv /\ exec mirror (CreateRevision (m_revisions m)) o kv = (contents m', r)
    end.
Proof.
  intros [Hwf Hm _ _]%reach_sound. destruct (run_refines m o Hwf) as (m' & r & E & _ & Hr).
  exists m', r. split; [done|]. unfold refines in Hr. rewrite Hm in Hr. destruct (guard mirror o); [done|].
  exists (after_expiry m). split; [by apply after_expiry_swept|done].
Qed.

(** In every state the backend can reach, the tree, the heap and the cells
    agree: a key of the tree leads to a cell whose item has that key; the heap
    holds exactly the cells whose items expire, each cell knows its place in
    the heap and no cell that is not in the heap claims one; and the root is
    one that expires first. *)
Theorem memory_is_well_formed mirror off (m : Mem) :
  reach mirror off m ->
  (forall k p, bt_Get (m_tree m) k = Some p -> exists x, mh_mem (m_heap m) !! p = Some x /\
     k_s (i_Key (bi_Item x)) = k /\
     (is_Some (i_Expires (bi_Item x)) <-> exists n : nat, mh_arr (m_heap m) !! n = Some p /\ bi_index x = Z.of_nat n)) /\
  (forall n p, mh_arr (m_heap m) !! n = Some p -> exists x, mh_mem (m_heap m) !! p = Some x /\
     bt_Get (m_tree m) (k_s (i_Key (bi_Item x))) = Some p) /\
  (forall n p q x y, mh_arr (m_heap m) !! 0%nat = Some p -> mh_arr (m_heap m) !! n = Some q ->
     mh_mem (m_heap m) !! p = Some x -> mh_mem (m_heap m) !! q = Some y ->
     Unix (i_Expires (bi_Item x)) <= Unix (i_Expires (bi_Item y))).
Proof.
  intros [Hwf _ _ _]%reach_sound. destruct (wf_heap _ Hwf) as [Hl Ho].
  assert (Hcell : forall p x, mh_mem (m_heap m) !! p = Some x -> items (m_heap m) !! p = Some (bi_Item x)).
  { intros p x Hx. unfold items. by rewrite lookup_fmap, Hx. }
  split_and!.
  - intros k p Hg. destruct (wf_tree _ Hwf _ _ Hg) as (i & Hi & Hk & Hin). apply items_deref in Hi as (x & Hx & <-).
    exists x. split; [done|]. split; [done|]. rewrite <- Hin. split.
    + intros [n Hn]%list_elem_of_lookup. exists n. split; [done|].
      destruct (linked_mem _ Hl _ _ Hn) as (y & Hy & Iy). congruence.
    + intros (n & Hn & _). by eapply list_elem_of_lookup_2.
  - intros n p Hp. destruct (wf_arr _ Hwf p) as (i & Hi & Hg); [by eapply list_elem_of_lookup_2|].
    apply items_deref in Hi as (x & Hx & <-). eauto.
  - intros n p q x y Hp Hq Hx Hy. apply (root_min (m_heap m) (wf_heap _ Hwf) n); unfold prio.
    + rewrite Hp. simpl. by rewrite (Hcell _ _ Hx).
    + rewrite Hq. simpl. by rewrite (Hcell _ _ Hy).
Qed.

(** A [Get] of a backend that is no mirror returns an item it holds whose
    expiry is at or after the start of the current second, and every item it
    holds that has not expired is returned: an item is dropped at its expiry
    at the earliest and within a second of it at the latest. *)
Theorem get_is_exact_to_the_second off (m : Mem) (key : Key) :
  reach false off m -> IsZero key = false ->
  exists m' r, Get key m = (m', r) /\
    (forall i, r = Ok i -> contents m !! k_s key = Some i /\
       forall e, i_Expires i = Some e -> m_now m / Second <= e / Second) /\
    (forall i, contents m !! k_s key = Some i -> unexpired (m_now m) i -> r = Ok i) /\
    (contents m !! k_s key = None -> r = Err (notFound key)).
Proof.
  intros [Hwf Hm _ _]%reach_sound Hk. destruct (run_refines m (DoGet key) Hwf) as (m' & r & E & _ & Hr).
  unfold refines in Hr. simpl in Hr. rewrite Hk in Hr. injection Hr as Hc Hr.
  pose proof (after_expiry_swept m Hwf) as Hsw. unfold swept_by in Hsw. rewrite Hm in Hsw.
  simpl in E. unfold returning, mthen, mret in E. destruct (Get key m) as [m1 [i|e]]; simplify_eq; exists m'.
  - destruct (after_expiry m !! k_s key) as [j|] eqn:Ej; simplify_eq. eexists. split; [reflexivity|]. split_and!.
    + intros ? [= <-]. split; [eapply lookup_weaken; [exact Ej|apply (sw_old _ _ _ Hsw)]|]. exact (sw_graced _ _ _ Hsw _ _ Ej).
    + intros i Hi Hu. apply (sw_kept _ _ _ Hsw) in Hi; [congruence|by apply not_expired].
    + intros Hn. eapply lookup_weaken in Ej; [|apply (sw_old _ _ _ Hsw)]. congruence.
  - destruct (after_expiry m !! k_s key) as [j|] eqn:Ej; simplify_eq. eexists. split; [reflexivity|]. split_and!; [done| |done].
    intros i Hi Hu. apply (sw_kept _ _ _ Hsw) in Hi; [congruence|by apply not_expired].
Qed.

(** A watcher that applies the events in the order they were emitted holds
    what the backend holds, in every state the backend can reach, expired items
    included. *)
Theorem events_replay_to_contents mirror (m : Mem) : reach mirror false m -> replay (m_buf m) ∅ = contents m.
Proof. intros Hr. by apply (sd_events _ _ _ (reach_sound _ _ _ Hr)). Qed.

(** A range that is read with nothing in between its pages, of up to 1,000
    items each, is what one look at the contents after a sweep gives: each item
    whose key lies between the start and the end key inclusive, once, in key
    order or the reverse, cut at the limit. *)
Theorem pages_are_the_range mirror off (m : Mem) (params : ItemsParams) (fuel : nat) :
  reach mirror off m -> IsZero (ip_StartKey params) = false -> IsZero (ip_EndKey params) = false ->
  (size (contents m) < fuel)%nat ->
  exists m1 l, swept_by m (contents m1) /\
    Items fuel id params m =
      (m1, Ok (take (Z.to_nat (if ip_Limit params <=? 0 then DefaultRangeLimit else ip_Limit params)) l)) /\
    StronglySorted (fun i j => precedes (ip_Descending params) (k_s (i_Key i)) (k_s (i_Key j))) l /\
    forall i, i ∈ l <-> contents m1 !! k_s (i_Key i) = Some i /\
      at_most (k_s (ip_StartKey params)) (k_s (i_Key i)) /\ at_most (k_s (i_Key i)) (k_s (ip_EndKey params)).
Proof.
  intros [Hwf _ _ _]%reach_sound Hs He Hf.
  destruct (Items_spec fuel m params Hwf Hs He Hf) as (m1 & (n & es & _ & Hst) & Hsw & E).
  destruct (reference_range_values m1 params (sp_wf _ _ _ Hst)) as (l & El & Hl & Hv).
  exists m1, l. by rewrite E, El.
Qed.

(** What an atomic write leaves at the key of one of its actions. *)
Definition written (rev : string) (ca : ConditionalAction) (old : option Item) : option Item :=
  let kind := act_Kind (ca_Action ca) in
  if kind =? KindPut then Some (with_rev rev (with_key (ca_Key ca) (act_Item (ca_Action ca))))
  else if kind =? KindDelete then None else old.

Lemma validate_loop_keys condacts : forall keys w w', validate_loop keys w condacts = Ok w' ->
  NoDup (map (fun ca => KeyString (ca_Key ca)) condacts) /\
  forall ca, ca ∈ condacts -> KeyString (ca_Key ca) ∉ keys.
Proof.
  induction condacts as [|ca condacts IH]; intros keys w w' E; simpl in E; [split; [constructor|set_solver]|]. inv_ok.
  match goal with E : validate_loop _ _ condacts = _ |- _ => apply IH in E as [Hn Hk] end. bool_to_prop.
  split.
  - simpl. constructor; [|done]. intros (c & Ec & Hc)%list_elem_of_fmap. apply (Hk c Hc). set_solver.
  - intros c [->|Hc]%elem_of_cons; [done|]. specialize (Hk c Hc). set_solver.
Qed.

Lemma action_effect_elsewhere rev kv0 ca kv k : k_s (ca_Key ca) <> k -> replay (action_effect rev kv0 ca) kv !! k = kv !! k.
Proof.
  intros Hk. unfold action_effect. repeat case_match; simpl; [done| | |done]; unfold apply_event; simpl.
  - by rewrite lookup_insert_ne.
  - by rewrite lookup_delete_ne.
Qed.

Lemma action_effect_here rev kv0 ca kv : kinds_ok ca -> kv !! k_s (ca_Key ca) = kv0 !! k_s (ca_Key ca) ->
  replay (action_effect rev kv0 ca) kv !! k_s (ca_Key ca) = written rev ca (kv0 !! k_s (ca_Key ca)).
Proof.
  intros [_ Hk] Hs. unfold action_effect, written, KindNop, KindPut, KindDelete in *.
  destruct (Z.eqb_spec (act_Kind (ca_Action ca)) 1), (Z.eqb_spec (act_Kind (ca_Action ca)) 2),
    (Z.eqb_spec (act_Kind (ca_Action ca)) 3); try lia; simpl; [done| |].
  - unfold apply_event. simpl. apply lookup_insert_eq.
  - case_bool_decide as Hb; simpl; [apply lookup_delete_eq|]. rewrite Hs. by apply eq_None_not_Some.
Qed.

Lemma replay_effects rev kv0 condacts : Forall kinds_ok condacts -> NoDup (map (fun ca => k_s (ca_Key ca)) condacts) ->
  forall kv, (forall ca, ca ∈ condacts -> kv !! k_s (ca_Key ca) = kv0 !! k_s (ca_Key ca)) ->
  let kv' := replay (condacts ≫= action_effect rev kv0) kv in
  (forall ca, ca ∈ condacts -> kv' !! k_s (ca_Key ca) = written rev ca (kv0 !! k_s (ca_Key ca))) /\
  (forall k, (forall ca, ca ∈ condacts -> k_s (ca_Key ca) <> k) -> kv' !! k = kv !! k).
Proof.
  induction 1 as [|c condacts Hc _ IH]; intros Hn kv Hs; [split; [set_solver|done]|].
  apply NoDup_cons in Hn as [Hnc Hn].
  assert (Hne : forall ca, ca ∈ condacts -> k_s (ca_Key c) <> k_s (ca_Key ca)).
  { intros ca Hca Ek. apply Hnc. rewrite Ek. apply list_elem_of_fmap. eauto. }
  change ((c :: condacts) ≫= action_effect rev kv0) with (action_effect rev kv0 c ++ (condacts ≫= action_effect rev kv0))%list.
  rewrite replay_app. set (kv1 := replay (action_effect rev kv0 c) kv).
  destruct (IH Hn kv1) as [Ha Hb].
  { intros ca Hca. unfold kv1. rewrite action_effect_elsewhere by auto. apply Hs. by right. }
  split.
  - intros ca [->|Hca]%elem_of_cons; [|by apply Ha]. rewrite Hb by (intros ? ?; by apply not_eq_sym, Hne).
    apply action_effect_here; [done|]. apply Hs. by left.
  - intros k Hk. rewrite Hb by (intros; apply Hk; by right). apply action_effect_elsewhere, Hk. by left.
Qed.

(** An atomic write of conditional actions fails and writes nothing, or
    every one of its conditions held on the contents after the sweep and every
    one of its actions is done, its puts all under one new revision, and
    nothing else is changed. *)
Theorem atomic_write_is_all_or_nothing off (m m' : Mem) condacts r :
  reach false off m -> (forall ca, ca ∈ condacts -> k_noEnd (ca_Key ca) = false) ->
  AtomicWrite condacts m = (m', r) ->
  exists kv, swept_by m kv /\ let rev := CreateRevision (m_revisions m) in
  match r with
  | Err e => m' = m \/ (e = ErrConditionFailed /\ contents m' = kv /\ exists ca, ca ∈ condacts /\ holds kv ca = false)
  | Ok rev' =>
      rev' = (if existsb is_put condacts then rev else "") /\
      (forall ca, ca ∈ condacts -> holds kv ca = true /\
         contents m' !! k_s (ca_Key ca) = written rev ca (kv !! k_s (ca_Key ca))) /\
      (forall k, (forall ca, ca ∈ condacts -> k_s (ca_Key ca) <> k) -> contents m' !! k = kv !! k)
  end.
Proof.
  intros [Hwf Hm _ _]%reach_sound Hend E. exists (after_expiry m). split; [by apply after_expiry_swept|]. cbv zeta.
  destruct (run_refines m (DoAtomicWrite condacts) Hwf) as (m1 & r1 & E1 & _ & Hr).
  assert (Er : m1 = m' /\ r1 = match r with Ok x => Ok (OutRevision x) | Err e => Err e end).
  { simpl in E1. unfold returning, mthen, mret in E1. rewrite E in E1. destruct r; by simplify_eq. }
  destruct Er as [-> ->]. unfold refines in Hr. simpl in Hr.
  destruct (ValidateAtomicWrite condacts) as [[]|e] eqn:Ev; [|destruct Hr as [-> Hr]; destruct r; [done|by left]].
  destruct (forallb (holds (after_expiry m)) condacts) eqn:Eh; injection Hr as Hc Hr; destruct r; simplify_eq.
  - split; [done|]. rewrite forallb_forall in Eh. pose proof (ValidateAtomicWrite_kinds _ Ev) as Hk.
    assert (Hn : NoDup (map (fun ca => k_s (ca_Key ca)) condacts)).
    { unfold ValidateAtomicWrite in Ev. inv_ok.
      match goal with E : validate_loop _ _ _ = _ |- _ => apply validate_loop_keys in E as [Hn _] end.
      replace (map (fun ca => k_s (ca_Key ca)) condacts) with (map (fun ca => KeyString (ca_Key ca)) condacts); [done|].
      apply map_ext_in. intros ca Hca%list_elem_of_In. unfold KeyString. by rewrite Hend. }
    destruct (replay_effects (CreateRevision (m_revisions m)) (after_expiry m) condacts Hk Hn (after_expiry m)) as [Ha Hb]; [done|].
    rewrite Hc in Ha, Hb. split; [|done]. intros ca Hca. split; [by apply Eh, list_elem_of_In|by apply Ha].
  - right. split; [done|]. split; [done|]. destruct (decide (Exists (fun ca => holds (after_expiry m) ca = false) condacts)) as [Hx|Hx];
      [by apply Exists_exists in Hx|]. apply not_true_iff_false in Eh. destruct Eh. apply forallb_forall.
    intros ca Hca%list_elem_of_In. apply not_false_iff_true. intros Hf. apply Hx, Exists_exists. eauto.
Qed.
End Claims.

(** ** A concrete backend *)

#[local] Instance numbered : Revisions := fun n => "revision-" +:+ pretty (Z.of_nat n).
#[local] Abbreviation Demo := (Memory (tree ptr)).

Definition Millisecond : duration := 1000000.
Definition demo_item (name value : string) (expires : option time) : Item :=
  {| i_Key := NewKey [name]; i_Value := value; i_Expires := expires; i_Revision := "" |}.

Definition empty_demo : Demo := New (1000 * Second) false false.
Definition after_run (o : op) (m : Demo) : Demo := fst (run o m).

Lemma reach_after mirror off (m : Demo) o : reach mirror off m -> reach mirror off (after_run o m).
Proof. intros Hm. apply (reach_run mirror off m o _ (snd (run o m)) Hm). unfold after_run. by destruct (run o m). Qed.

(** Two items of the same second, and one that does not expire. *)
Definition filled : Demo :=
  after_run (DoPut (demo_item "early" "2" (Some (1001 * Second + 200 * Millisecond))))
    (after_run (DoPut (demo_item "late" "1" (Some (1001 * Second + 900 * Millisecond))))
      (after_run (DoPut (demo_item "kept" "3" None)) empty_demo)).
Definition half_past : Demo := set_now (1001 * Second + 500 * Millisecond) filled.

Lemma filled_reached : reach false false filled.
Proof. repeat apply reach_after. constructor. Qed.
Lemma half_past_reached : reach false false half_past.
Proof. apply reach_time; [apply filled_reached|]. vm_compute. discriminate. Qed.

Lemma memory_refines_specification_witness :
  exists m' r, run (DoCreate (demo_item "kept" "4" None)) filled = (m', r) /\ exists e, r = Err e.
Proof.
  destruct (memory_refines_specification false false filled (DoCreate (demo_item "kept" "4" None)) filled_reached)
    as (m' & r & E & _).
  exists m', r. split; [exact E|]. assert (Hr : exists e, snd (run (DoCreate (demo_item "kept" "4" None)) filled) = Err e)
    by (vm_compute; eauto). rewrite E in Hr. exact Hr.
Defined.

Lemma memory_is_well_formed_witness : exists p x, bt_Get (m_tree filled) "/late" = Some p /\
  mh_mem (m_heap filled) !! p = Some x /\ exists n : nat, mh_arr (m_heap filled) !! n = Some p /\ bi_index x = Z.of_nat n.
Proof.
  destruct (memory_is_well_formed false false filled filled_reached) as [Ht _].
  destruct (Ht "/late" 2%positive) as (x & Hx & _ & Hn); [vm_compute; reflexivity|].
  exists 2%positive, x. split; [vm_compute; reflexivity|]. split; [exact Hx|]. apply Hn.
  assert (E : (i_Expires <$> (bi_Item <$> mh_mem (m_heap filled) !! 2%positive)) = Some (Some (1001 * Second + 900 * Millisecond)))
    by (vm_compute; reflexivity).
  rewrite Hx in E. injection E as E. rewrite E. eauto.
Defined.

(** An item that expired in the current second is still returned when the heap
    has one of the same second before it. *)
Definition late_get : Demo * result Item := Get (NewKey ["early"]) half_past.

Lemma get_is_exact_to_the_second_witness : exists i, snd late_get = Ok i /\
  i_Expires i = Some (1001 * Second + 200 * Millisecond) /\ ~ unexpired (m_now half_past) i /\
  (forall e, i_Expires i = Some e -> m_now half_past / Second <= e / Second).
Proof.
  destruct (get_is_exact_to_the_second false half_past (NewKey ["early"]) half_past_reached) as (m' & r & E & Hr & _);
    [vm_compute; reflexivity|].
  assert (Hi : exists i, snd late_get = Ok i /\ i_Expires i = Some (1001 * Second + 200 * Millisecond) /\
    ~ unexpired (m_now half_past) i) by (eexists; split; [vm_compute; reflexivity|]; split; [reflexivity|]; vm_compute; by intros [=]).
  destruct Hi as (i & Hi & He & Hu). exists i. split; [exact Hi|]. split; [exact He|]. split; [exact Hu|].
  unfold late_get in Hi. rewrite E in Hi. exact (proj2 (Hr i Hi)).
Defined.

Lemma events_replay_to_contents_witness : replay (m_buf half_past) ∅ = contents half_past.
Proof. apply (events_replay_to_contents false half_past). apply half_past_reached. Defined.

Definition all_keys : ItemsParams :=
  {| ip_StartKey := NewKey ["a"]; ip_EndKey := NewKey ["z"]; ip_Descending := true; ip_Limit := 2 |}.

Lemma pages_are_the_range_witness : exists m1 l, Items 4 id all_keys filled = (m1, Ok (take 2 l)) /\
  (i_Value <$> take 2 l) = ["1"; "3"].
Proof.
  destruct (pages_are_the_range false false filled all_keys 4 filled_reached) as (m1 & l & _ & E & _);
    [vm_compute; reflexivity..|vm_compute; lia|].
  exists m1, l. split; [exact E|].
  assert (Hr : match snd (Items 4 id all_keys filled) with Ok l => i_Value <$> l | Err _ => [] end = ["1"; "3"])
    by (vm_compute; reflexivity).
  rewrite E in Hr. exact Hr.
Defined.

(** A put and a delete under one condition. *)
Definition swap_items : list ConditionalAction := [
  {| ca_Key := NewKey ["kept"]; ca_Condition := {| cond_Kind := KindExists; cond_Revision := "" |};
     ca_Action := {| act_Kind := KindDelete; act_Item := keyItem (NewKey []) |} |};
  {| ca_Key := NewKey ["moved"]; ca_Condition := {| cond_Kind := KindNotExists; cond_Revision := "" |};
     ca_Action := {| act_Kind := KindPut; act_Item := demo_item "" "3" None |} |}].
Definition swapped : Demo * result string := AtomicWrite swap_items filled.

Lemma atomic_write_is_all_or_nothing_witness : (exists rev, snd swapped = Ok rev) /\
  contents (fst swapped) !! "/kept" = None.
Proof.
  assert (Hok : exists rev, snd swapped = Ok rev) by (eexists; vm_compute; reflexivity).
  split; [exact Hok|]. destruct Hok as [rev Hok].
  destruct (atomic_write_is_all_or_nothing false filled (fst swapped) swap_items (Ok rev) filled_reached)
    as (kv & _ & _ & Hw & _).
  - intros ca [->|[->|[]%elem_of_nil]%elem_of_cons]%elem_of_cons; reflexivity.
  - rewrite <- Hok. unfold swapped. by destruct (AtomicWrite _ _).
  - destruct (Hw (default {| ca_Key := NewKey []; ca_Condition := {| cond_Kind := 0; cond_Revision := "" |};
      ca_Action := {| act_Kind := 0; act_Item := keyItem (NewKey []) |} |} (head swap_items))) as [_ Hk]; [by left|].
    exact Hk.
Defined.

(** ** A page that ends at an item deleted before the next page

    Read downwards, the next page starts at the item below the deleted one,
    and passes over it as if it were the one the last page ended at. *)

Definition named (name : string) : Item := demo_item name name None.
Definition four : Demo :=
  after_run (DoPut (named "k1")) (after_run (DoPut (named "k2")) (after_run (DoPut (named "k3")) (after_run (DoPut (named "k4")) empty_demo))).

(** A page of two items, and the page after it, with [between] in between. *)
Definition two_pages (between : Demo -> Demo) : list (list string) :=
  match read_page true (k_s (NewKey ["l"])) (k_s (NewKey ["k"])) false 2 four with
  | (m1, Ok (first, Some cursor)) =>
      match snd (read_page true cursor (k_s (NewKey ["k"])) true 2 (between m1)) with
      | Ok (second, _) => [i_Value <$> first; i_Value <$> second]
      | Err _ => []
      end
  | _ => []
  end.

Lemma deleted_cursor_skips_an_item :
  two_pages id = [["k4"; "k3"]; ["k2"; "k1"]] /\
  two_pages (after_run (DoDelete (NewKey ["k3"]))) = [["k4"; "k3"]; ["k1"]].
Proof. split; vm_compute; reflexivity. Qed.
