(* ===== verification/ResumptionClaims.v ===== *)
(** * Connection resumption: what it promises

    The claims about [lib/resumption]: the buffers, the deadlines and the
    protocol that carries a connection over one transport after the other. *)

From stdpp Require Import list.
From S2P Require Import Prelude GoStrings Types Ring ManagedConn Resumable ResumableFacts.
From S2P Require Import ResumableSafety.

(** ** Runs of the resumption protocol

    The steps of [Resumable] as a function of what is done next, so that a run
    is a list that can be evaluated, and two runs: one that resumes a
    connection, and one in which a late transport ends a live connection. *)

#[local] Open Scope Z_scope.

Inductive action :=
| DoWrite (s : side) (b : list byte)
| DoRead (s : side) (size : nat)
| DoClose (s : side)
| AttachFirst (s : side)
| Attach (s : side) (id : nat)
| Detach (s : side)
| Receive (s : side)
| ReadFails (s : side) (k : nat)
| Send (s : side)
| Transmit (s : side)
| WriteFails (s : side).

Definition perform (x : action) (t : net) : option net :=
  match x with
  | DoWrite s b =>
      match Write b (conn_of t s) with
      | Ok (c, p) =>
          if Z.of_nat (length (n_sent t s)) + len64 b <? 2 ^ 62
          then Some (sends s (accepted b p 0) (set_end s (with_conn (fun _ => c) (n_end t s)) t)) else None
      | Err _ => None
      end
  | DoRead s size =>
      match Read size (conn_of t s) with
      | Ok (c, p) => Some (gets s (match p with Return b _ => b | Wait _ => [] end)
                             (set_end s (with_conn (fun _ => c) (n_end t s)) t))
      | Err _ => None
      end
  | DoClose s => Some (set_end s (with_conn (fun c => fst (Close c)) (n_end t s)) t)
  | AttachFirst s =>
      if decide (0%nat ∈ n_used t s) then None
      else option_map (fun r => use s 0 (set_end s r t)) (attach_first 0 (n_end t s))
  | Attach s id =>
      match attach_next id (n_end t s) with
      | AttachClosed => None
      | AttachWait r => Some (set_end s r t)
      | AttachDone r =>
          if (id =? 0)%nat then None
          else if decide (id ∈ n_used t s) then None
          else if decide (0%nat ∈ n_used t s) then Some (use s id (set_end s r t)) else None
      end
  | Detach s => option_map (fun r => set_end s r t) (detach (n_end t s))
  | Receive s =>
      match cn_attached (n_end t s) with
      | Some a =>
          match read_step (n_end t s) a (n_wire t (at_id a) (other s)) with
          | Ok (Some (r, wire)) => Some (refuse_if (refuses a (cn_attached r)) (set_wire (at_id a) (other s) wire (set_end s r t)))
          | _ => None
          end
      | None => None
      end
  | ReadFails s k =>
      match cn_attached (n_end t s) with
      | Some a =>
          match at_reader a with
          | RdDone => None
          | _ =>
              match read_error k (n_end t s) a (n_wire t (at_id a) (other s)) with
              | Ok (r, wire) => Some (set_wire (at_id a) (other s) wire (set_end s r t))
              | Err _ => None
              end
          end
      | None => None
      end
  | Send s =>
      match cn_attached (n_end t s) with
      | Some a =>
          match write_step (conn_of t s) a with
          | Ok (Some p) => Some (set_end s (with_attachment (set_writer p a) (n_end t s)) t)
          | _ => None
          end
      | None => None
      end
  | Transmit s =>
      match cn_attached (n_end t s) with
      | Some a =>
          if (0 <? length (outgoing a))%nat then
            let '(a', b) := transmit (length (outgoing a)) a in
            Some (set_wire (at_id a) s (n_wire t (at_id a) s ++ b)%list (set_end s (with_attachment a' (n_end t s)) t))
          else None
      | None => None
      end
  | WriteFails s =>
      match cn_attached (n_end t s) with
      | Some a =>
          if (0 <? length (outgoing a))%nat
          then Some (set_end s (with_attachment (set_writer WrDone a) (n_end t s)) t) else None
      | None => None
      end
  end.

Fixpoint perform_all (l : list action) (t : net) : option net :=
  match l with
  | [] => Some t
  | x :: l => match perform x t with Some t' => perform_all l t' | None => None end
  end.

Lemma perform_step x t t' : perform x t = Some t' -> step t t'.
Proof.
  destruct x as [s b|s size|s|s|s id|s|s|s k|s|s|s]; simpl.
  - destruct (Write b (conn_of t s)) as [[c p]|] eqn:E; [|done].
    destruct (Z.ltb_spec (Z.of_nat (length (n_sent t s)) + len64 b) (2 ^ 62)); [|done]. intros [= <-].
    apply step_write; [done|done|by left].
  - destruct (Read size (conn_of t s)) as [[c p]|] eqn:E; [|done]. intros [= <-]. eapply step_read. by left.
  - intros [= <-]. apply step_close.
  - destruct (decide (0%nat ∈ n_used t s)); [done|]. destruct (attach_first 0 (n_end t s)) eqn:E; [|done].
    intros [= <-]. by apply step_attach_first.
  - destruct (attach_next id (n_end t s)) eqn:E; [done| |].
    + intros [= <-]. by eapply step_attach_wait.
    + destruct (Nat.eqb_spec id 0); [done|]. destruct (decide (id ∈ n_used t s)); [done|].
      destruct (decide (0%nat ∈ n_used t s)); [|done]. intros [= <-]. by apply step_attach_next.
  - destruct (detach (n_end t s)) eqn:E; [|done]. intros [= <-]. by apply step_detach.
  - destruct (cn_attached (n_end t s)) as [a|] eqn:Ha; [|done]. destruct (read_step _ _ _) as [[[r w]|]|] eqn:E; [|done..].
    intros [= <-]. by apply step_receive.
  - destruct (cn_attached (n_end t s)) as [a|] eqn:Ha; [|done].
    assert (Hd : at_reader a <> RdDone -> forall r w, read_error k (n_end t s) a (n_wire t (at_id a) (other s)) = Ok (r, w) ->
      step t (set_wire (at_id a) (other s) w (set_end s r t))) by (intros; by eapply step_read_error).
    destruct (at_reader a) eqn:Er; try done; destruct (read_error _ _ _ _) as [[r w]|] eqn:E; try done; intros [= <-]; by apply Hd.
  - destruct (cn_attached (n_end t s)) as [a|] eqn:Ha; [|done]. destruct (write_step _ _) as [[p|]|] eqn:E; [|done..].
    intros [= <-]. by apply step_send.
  - destruct (cn_attached (n_end t s)) as [a|] eqn:Ha; [|done]. destruct (Nat.ltb_spec 0 (length (outgoing a))); [|done].
    pose proof (step_transmit t s a (length (outgoing a)) Ha ltac:(lia)) as Hs. intros [= <-]. exact Hs.
  - destruct (cn_attached (n_end t s)) as [a|] eqn:Ha; [|done]. destruct (Nat.ltb_spec 0 (length (outgoing a))) as [Hl|]; [|done].
    intros [= <-]. apply step_write_error; [done|]. intros E. rewrite E in Hl. simpl in Hl. lia.
Qed.

(** A list of actions leads to a reachable state. *)
Lemma perform_reachable l t t' : reachable t -> perform_all l t = Some t' -> reachable t'.
Proof.
  revert t. induction l as [|x l IH]; simpl; intros t Ht; [by intros [= <-]|].
  destruct (perform x t) as [t1|] eqn:E; [|done]. apply IH. eapply reach_step; [exact Ht|]. by eapply perform_step.
Qed.

(** ** Two runs *)

(** A loop of each side ends, and the side lets go of its transport. *)
Definition lose (s : side) : list action := [ReadFails s 0; Send s; Detach s].
(** A frame with data goes over and is read. *)
Definition frame_over (s : side) : list action := [Send s; Transmit s] ++ repeat (Receive (other s)) 5.
(** A frame that only acknowledges. *)
Definition ack_over (s : side) : list action := [Send s; Transmit s] ++ repeat (Receive (other s)) 3.
(** A handshake over the transport [id]. *)
Definition shake (id : nat) : list action :=
  [Attach Client id; Transmit Client; Send Client; Attach Server id; Transmit Server; Send Server; Receive Client; Receive Server].

(** The first transport is lost when the server has two bytes of five: the
    second brings the others. *)
Definition resumed_run : list action :=
  [AttachFirst Client; AttachFirst Server; DoWrite Client (bytes_of "hello"); Send Client; Transmit Client;
   Receive Server; Receive Server; Receive Server; ReadFails Server 2; Send Server; WriteFails Server; Detach Server] ++
  lose Client ++ shake 1 ++ frame_over Client ++ [DoRead Server 10].

(** A transport that was dialed and given up on gets to the server late: the
    server takes it for the connection that the client goes on with. *)
Definition late_run : list action :=
  [AttachFirst Client; AttachFirst Server] ++ lose Client ++ lose Server ++
  [Attach Client 1; Transmit Client; Send Client; ReadFails Client 0; Send Client; Detach Client] ++
  shake 2 ++ [DoWrite Server (bytes_of "x")] ++ frame_over Server ++ ack_over Client ++
  [Attach Server 1; ReadFails Server 0; Send Server; Detach Server;
   Attach Server 1; Transmit Server; Send Server; Receive Server].

(** Both programs write, the client closes its end, and the server hears of
    it after it has all the client wrote. *)
Definition closed_run : list action :=
  [AttachFirst Client; AttachFirst Server; DoWrite Client (bytes_of "bye"); DoClose Client] ++ frame_over Client ++
  [DoRead Server 10; Send Client; Transmit Client; Receive Server].

#[local] Open Scope Z_scope.

(** ** The protocol *)

(** What a witness runs on. *)
Definition after (l : list action) : net := default net0 (perform_all l net0).

Lemma after_reachable l : (match perform_all l net0 with Some _ => true | None => false end) = true -> reachable (after l).
Proof.
  unfold after. destruct (perform_all l net0) as [t|] eqn:E; [|done]. intros _.
  apply (perform_reachable l net0); [apply reach_start|done].
Qed.

(** C19: Whatever transports fail and however they are replaced, what a program
    has read from its end is a prefix of what the other program wrote to its
    own, and what the end has received and not handed over is what follows:
    no byte is lost, doubled or out of order. *)
Theorem resumption_delivers_a_prefix t s : reachable t ->
  n_got t s `prefix_of` n_sent t (other s) /\
  (c_localClosed (conn_of t s) = false ->
   (n_got t s ++ content (c_receiveBuffer (conn_of t s)))%list =
   take (Z.to_nat (b_end (c_receiveBuffer (conn_of t s)))) (n_sent t (other s))).
Proof. intros Hr. destruct (gd_buffers t (reachable_good t Hr) s). by split. Qed.

Lemma resumption_delivers_a_prefix_witness :
  let t := after resumed_run in
  (n_got t Server = bytes_of "hello" /\ n_sent t Client = bytes_of "hello") /\ n_got t Server `prefix_of` n_sent t Client.
Proof.
  split; [split; vm_compute; reflexivity|].
  apply (resumption_delivers_a_prefix (after resumed_run) Server). apply after_reachable. vm_compute. reflexivity.
Defined.

(** An endpoint keeps every byte it was given until the other end has it:
    its send buffer holds all that was written since the last acknowledged
    position, which is one the other end has received up to. *)
Theorem unreceived_bytes_are_kept t s : reachable t ->
  content (c_sendBuffer (conn_of t s)) = drop (Z.to_nat (b_start (c_sendBuffer (conn_of t s)))) (n_sent t s) /\
  b_start (c_sendBuffer (conn_of t s)) <= b_end (c_receiveBuffer (conn_of t (other s))) <= len64 (n_sent t s).
Proof.
  intros Hr. pose proof (reachable_good t Hr) as Hg. destruct (gd_buffers t Hg s) as [_ _ _ _ Hu _ _ _ Ha _ _ _].
  pose proof (bo_received t _ (gd_buffers t Hg (other s))) as Hrec. rewrite other_other in Hrec. by split.
Qed.

Lemma unreceived_bytes_are_kept_witness :
  let t := after resumed_run in content (c_sendBuffer (conn_of t Client)) = drop 2 (n_sent t Client).
Proof.
  assert (E : b_start (c_sendBuffer (conn_of (after resumed_run) Client)) = 2) by (vm_compute; reflexivity).
  destruct (unreceived_bytes_are_kept (after resumed_run) Client) as [H _]; [apply after_reachable; vm_compute; reflexivity|].
  rewrite E in H. exact H.
Defined.

(** A program reads the end of the stream only after it has read all that
    the other one wrote before it closed its end, unless a handshake was
    refused. *)
Theorem end_of_stream_is_complete t s size c : reachable t -> n_refused t = false ->
  Read size (conn_of t s) = Ok (c, Return [] (Some EOF)) \/
  (0 < size)%nat /\ Read_wake size (conn_of t s) = Ok (c, Return [] (Some EOF)) ->
  n_got t s = n_sent t (other s) /\ c_localClosed (conn_of t (other s)) = true.
Proof.
  intros Hr Href HR. pose proof (gd_buffers t (reachable_good t Hr) s) as Hb.
  destruct (Read_end size c _ (bo_receive _ _ Hb) HR) as (Hl & Hrc & Hempty).
  destruct (bo_closed _ _ Hb Hrc Href) as [Ho He]. split; [|done].
  pose proof (bo_stream _ _ Hb Hl) as Hs. rewrite Hempty, app_nil_r, He in Hs. rewrite Hs.
  unfold len64. rewrite Nat2Z.id. apply take_ge. lia.
Qed.

Lemma end_of_stream_is_complete_witness :
  let t := after closed_run in
  n_got t Server = n_sent t Client /\ c_localClosed (conn_of t Client) = true.
Proof.
  assert (E : exists c, Read 10 (conn_of (after closed_run) Server) = Ok (c, Return [] (Some EOF))).
  { eexists. vm_compute. reflexivity. }
  destruct E as [c E].
  apply (end_of_stream_is_complete (after closed_run) Server 10 c).
  - apply after_reachable. vm_compute. reflexivity.
  - vm_compute. reflexivity.
  - by left.
Defined.

(** C40: Nothing the loops or the programs do panics, in any state that can be
    reached: no slice is out of range, no division is by zero, and no growing
    of a buffer goes on forever. *)
Theorem resumption_never_panics t s : reachable t ->
  (forall a, cn_attached (n_end t s) = Some a ->
     (exists x, read_step (n_end t s) a (n_wire t (at_id a) (other s)) = Ok x) /\
     (forall k, exists x, read_error k (n_end t s) a (n_wire t (at_id a) (other s)) = Ok x) /\
     exists x, write_step (conn_of t s) a = Ok x) /\
  (forall size, (exists x, Read size (conn_of t s) = Ok x) /\ exists x, Read_wake size (conn_of t s) = Ok x) /\
  (forall b n, len64 (n_sent t s) + len64 b < 2 ^ 62 ->
     (exists x, Write b (conn_of t s) = Ok x) /\ (b <> [] -> exists x, Write_wake n b (conn_of t s) = Ok x)).
Proof.
  intros Hr. pose proof (reachable_good t Hr) as Hg. pose proof (gd_buffers t Hg s) as Hb. split_and!.
  - intros a Ha. split_and!; [by apply read_step_ok| |by apply write_step_ok]. intros k. by apply read_error_ok.
  - intros size. apply Read_ok, Hb.
  - intros b n Hn. assert (2 ^ 62 < 2 ^ 64) by done. apply Write_ok; [apply Hb|]. rewrite (bo_sent _ _ Hb). lia.
Qed.

Lemma resumption_never_panics_witness :
  exists x, Read 10 (conn_of (after resumed_run) Server) = Ok x.
Proof.
  destruct (resumption_never_panics (after resumed_run) Server) as (_ & H & _); [apply after_reachable; vm_compute; reflexivity|].
  exact (proj1 (H 10%nat)).
Defined.

(** An endpoint holds at most 128 KiB of what it received and 2 MiB of
    what it was given to send, whatever the other end sends it. *)
Theorem resumption_memory_is_bounded t s : reachable t ->
  len64 (b_data (c_receiveBuffer (conn_of t s))) <= receiveBufferSize /\
  len64 (b_data (c_sendBuffer (conn_of t s))) <= sendBufferSize.
Proof. intros Hr. by destruct (gd_buffers t (reachable_good t Hr) s). Qed.

Lemma resumption_memory_is_bounded_witness :
  len64 (b_data (c_receiveBuffer (conn_of (after resumed_run) Server))) = 4096 /\ 4096 <= receiveBufferSize.
Proof.
  assert (E : len64 (b_data (c_receiveBuffer (conn_of (after resumed_run) Server))) = 4096) by (vm_compute; reflexivity).
  split; [exact E|]. rewrite <- E. apply (resumption_memory_is_bounded (after resumed_run) Server).
  apply after_reachable. vm_compute. reflexivity.
Defined.

(** A transport that gets to the server after the client gave up on it makes
    the server end a connection that neither end closed. *)
Lemma late_transport_ends_the_connection : exists t, reachable t /\ n_refused t = true /\
  c_remoteClosed (conn_of t Server) = true /\
  c_localClosed (conn_of t Client) = false /\ c_localClosed (conn_of t Server) = false.
Proof. exists (after late_run). split; [apply after_reachable; vm_compute; reflexivity|]. by vm_compute. Qed.

(** ** The integers of the protocol *)

(** An integer of 64 bits is read back from what it was appended as, and
    the bytes after it are left for the next read. *)
Theorem uvarint_round_trip buf x rest : 0 <= x < 2 ^ 64 ->
  exists l, AppendUvarint buf x = (buf ++ l)%list /\ (1 <= length l <= 10)%nat /\ ReadUvarint (l ++ rest) = UvValue x rest.
Proof.
  intros Hx. exists (uv x). split; [apply AppendUvarint_uv|]. split; [apply uv_length|by apply ReadUvarint_uv].
Qed.

Lemma uvarint_round_trip_witness : 0 <= 300 < 2 ^ 64 /\
  exists l, AppendUvarint [] 300 = ([] ++ l)%list /\ (1 <= length l <= 10)%nat /\ ReadUvarint (l ++ []) = UvValue 300 [].
Proof. split; [lia|]. apply (uvarint_round_trip [] 300 []). lia. Defined.

(** ** Progress *)

(** Two endpoints on the same transport do not wait for each other: while
    the loops of both run, a byte that was written and not received leaves
    one of the loops a step to make, unless the receiver's buffer is full. *)
Theorem transfer_is_never_stuck t s a b : reachable t ->
  cn_attached (n_end t s) = Some a -> cn_attached (n_end t (other s)) = Some b -> at_id b = at_id a ->
  alive a -> alive b ->
  b_end (c_receiveBuffer (conn_of t s)) < len64 (n_sent t (other s)) ->
  blen (c_receiveBuffer (conn_of t s)) < receiveBufferSize -> exists t', moves t t'.
Proof. intros. by apply (data_moves t s a b). Qed.

Lemma transfer_is_never_stuck_witness :
  let t := after [AttachFirst Client; AttachFirst Server; DoWrite Client (bytes_of "hello"); Send Client] in
  b_end (c_receiveBuffer (conn_of t Server)) < len64 (n_sent t Client) /\ exists t', moves t t'.
Proof.
  set (l := [AttachFirst Client; AttachFirst Server; DoWrite Client (bytes_of "hello"); Send Client]).
  split; [vm_compute; reflexivity|].
  assert (E : exists a b, cn_attached (n_end (after l) Server) = Some a /\ cn_attached (n_end (after l) Client) = Some b /\
    at_id b = at_id a /\ alive a /\ alive b).
  { eexists _, _. split; [vm_compute; reflexivity|]. split; [vm_compute; reflexivity|]. by repeat split. }
  destruct E as (a & b & Ha & Hb & Ei & Hla & Hlb).
  apply (transfer_is_never_stuck (after l) Server a b); try assumption; try (vm_compute; reflexivity).
  apply after_reachable. vm_compute. reflexivity.
Defined.

(** ** The buffers *)

(** The ring buffer is a bounded queue: on operations that leave its
    positions below 2^62, from any state it can be in, it hands back what a
    list of bytes would, and its content is that list; it grows as it has to
    and wraps around its array without a trace. *)
Theorem buffer_refines_queue l w : valid w -> Forall allowed l -> b_end w + demands l < 2 ^ 62 ->
  exists w' xs, exec_ops l w = Ok (w', xs) /\ queue_ops l (content w) = (content w', xs) /\ valid w'.
Proof. apply exec_ops_spec. Qed.

Definition a_few_operations : list operation :=
  [OpWrite (bytes_of "abcdef") 4; OpRead 3; OpReserve 10; OpAppend (bytes_of "xyz"); OpRead 100].

Lemma buffer_refines_queue_witness :
  queue_ops a_few_operations [] = ([], [Wrote 4; Took (bytes_of "abc"); Done; Done; Took (bytes_of "dxyz")]) /\
  exists w' xs, exec_ops a_few_operations emptyBuffer = Ok (w', xs) /\
    queue_ops a_few_operations [] = (content w', xs) /\ valid w'.
Proof.
  split; [vm_compute; reflexivity|].
  apply (buffer_refines_queue a_few_operations emptyBuffer); [apply empty_valid| |vm_compute; reflexivity].
  repeat constructor; by vm_compute.
Defined.

(** Adding nothing to a buffer that was never used divides by zero. *)
Lemma append_nothing_panics : append emptyBuffer [] = Err divide_panic.
Proof. by vm_compute. Qed.

(** ** Deadlines *)

(** Whatever the order of calls, of time and of the timer's own function, a
    call fails on its deadline only when the deadline that was last set has
    passed, it does so once the timer's function has run, and a call that sets
    the deadline waits for that function at most. *)
Theorem deadlines_are_exact l now : let w := happen_all l (unwatched now) in
  (dl_timeout (w_state w) = true -> exists t, w_deadline w = Some t /\ t <= w_now w) /\
  (forall t, w_deadline w = Some t -> t <= w_now w -> dl_timeout (runTimer (fire (w_now w) (w_state w))) = true) /\
  (forall t d, setDeadlineLocked (w_now w) t (w_state w) = (d, None) ->
     exists d', setDeadlineLocked (w_now w) t (runTimer (w_state w)) = (d', Some tt)).
Proof.
  intros w. assert (Hs : sound w) by apply happen_all_sound, unwatched_sound. split_and!.
  - by apply sound_timeout.
  - intros t Et Hle. apply sound_due; [done|]. by exists t.
  - intros t d E. by destruct (sound_set w t d Hs E).
Qed.

(** [SetDeadline] never returns when the connection is closed while it waits
    for the function of the read deadline's timer: [Close] stops the write
    deadline's timer without saying so, and the call waits to stop it. *)
Definition closing_conn : managedConn :=
  with_deadlines (mkDeadline Fired false false) (mkDeadline (Pending 9) false false) newManagedConn.

Lemma SetDeadline_hangs :
  let c1 := fst (SetDeadline 5 (Some 9) closing_conn) in
  let c2 := fst (Close c1) in
  let c3 := with_deadlines (runTimer (c_readDeadline c2)) (c_writeDeadline c2) c2 in
  let '(c4, r) := SetDeadline_wake ForRead 5 (Some 9) c3 in
  snd (SetDeadline 5 (Some 9) closing_conn) = Wait ForRead /\ r = Wait ForWrite /\
  forall now t, runTimer (fire now (c_writeDeadline c4)) = c_writeDeadline c4 /\
    SetDeadline_wake ForWrite now t c4 = (c4, Wait ForWrite).
Proof. by vm_compute. Qed.
