(* ===== verification/AccessClaims.v ===== *)
(** * Claims about the access checker

    Who gets access to a resource and to a verb on a kind of resource: what
    the loops over the roles compute, what a granted access tells, and what a
    restricted identity or a delegation session takes away.  Then what roles
    limit and grant: the limits and the key policy of a set of roles, the
    principals of a certificate, the logins of a resource, the host user of a
    login and the roles of a user of another cluster. *)

From S2P Require Import Prelude GoStrings Utf8 Types Regexp Scenario Roles RoleLimits RoleAccess.
From S2P Require Import CheckAccess DecisionFacts RoleRules RuleFacts RoleGrants Checker.
From S2P Require Import CheckerFacts HostUsers RoleMap AccessScenario.

Section Access.
Context `{UnicodeTables} `{RegexpCache} `{MapOrderLaws (list string)} `{LabelExpressions} `{Environment}.

(** C7: [checkAccess] computes the decision: when no selector fails to evaluate,
    it grants exactly when no role denies, some role grants, and every role
    that grants has its requirements met, unless they need not be looked at;
    so the order of the roles does not matter. *)
Theorem access_decision r username userTraits state matchers set set' :
  (forall role, role ∈ set -> evaluates r username userTraits matchers role) -> set ≡ₚ set' ->
  is_ok (checkAccess r username userTraits state matchers set) =
    decision r username userTraits state matchers set /\
  is_ok (checkAccess r username userTraits state matchers set') =
    is_ok (checkAccess r username userTraits state matchers set).
Proof.
  intros He Hp. split; [by apply checkAccess_decision|].
  rewrite !checkAccess_decision; [|done|intros role; rewrite <- Hp; apply He].
  by apply decision_order.
Qed.

(** C2: Access that the checker gave is access that the roles of the identity
    grant and none denies, with their requirements met; a restricted identity
    has it only to a resource one of its allowed identifiers names, with every
    principal in the list of that identifier's constraints. *)
Theorem checked_access_is_granted a r state matchers :
  CheckAccess a r state matchers = Ok tt ->
  let username := ai_Username (ac_info a) in
  let userTraits := ai_Traits (ac_info a) in
  let asked := set_ReturnPreconditions false state in
  let all := (matchers ++ identity_center_matcher r)%list in
  (forall role, role ∈ ac_RoleSet a -> denies r username userTraits all role = false) /\
  (exists role, role ∈ ac_RoleSet a /\ grants r username userTraits all role = true) /\
  (bypassMFAChecks asked && deviceTrusted asked = false -> forall role, role ∈ ac_RoleSet a ->
     grants r username userTraits all role = true -> requirements_met asked role = true) /\
  (ai_AllowedResourceAccessIDs (ac_info a) = [] \/
   exists id, id ∈ ai_AllowedResourceAccessIDs (ac_info a) /\
     identifies (ac_localCluster a) r id = true /\ Unenforceable (GetConstraints id) = false /\
     forall m, m ∈ matchers -> principal_allowed (GetConstraints id) m).
Proof.
  intros [Hr Hids]%CheckAccess_sound username userTraits asked all. apply is_ok_true in Hr as [pc Hr].
  apply checkAccess_sound in Hr as (Hd & Hg & Hm). split_and!; done.
Qed.

(** What a conditional access answers is what is missing: at most the second
    factor, nothing exactly when the plain check passes, and the check passes
    once the second factor is there. *)
Theorem preconditions_are_exact a r state matchers pc :
  forceInBandMFA = false -> CheckConditionalAccess a r state matchers = Ok pc ->
  (pc = [] \/ pc = [PRECONDITION_KIND_IN_BAND_MFA]) /\
  CheckAccess a r state matchers = (if decide (pc = []) then Ok tt else Err ErrSessionMFARequired) /\
  CheckAccess a r (set_MFAVerified true state) matchers = Ok tt.
Proof.
  unfold CheckConditionalAccess, CheckAccess, validateAccessConditions. intros Hf E.
  apply rbind_ok in E as (m & Em & E). rewrite Em. simpl.
  apply (checkAccess_conditional _ _ _ _ _ Hf) in E as (Hpc & Hplain & Hver). split; [done|].
  simpl in Hplain. rewrite Hplain. split; [by destruct (decide (pc = []))|].
  change (set_ReturnPreconditions false (set_MFAVerified true state)) with
    (set_ReturnPreconditions false (set_MFAVerified true state)) in Hver. by rewrite Hver.
Qed.

(** The implicit role every set of roles carries changes no decision about a
    resource that is matched by labels. *)
Theorem implicit_role_grants_no_resource r username userTraits state matchers roles :
  resourceRequiresLabelMatching r = true ->
  is_ok (GetLabelMatchers Allow (res_Kind r) NewImplicitRole) = true ->
  checkAccess r username userTraits state matchers (NewRoleSet roles) =
  checkAccess r username userTraits state matchers roles.
Proof.
  intros Hr Hk. unfold NewRoleSet. destruct roles as [|role1 [|role2 roles]].
  - by rewrite (checkAccess_implicit _ _ _ _ _ []).
  - case_bool_decide; [done|]. by apply checkAccess_implicit.
  - by apply checkAccess_implicit.
Qed.
End Access.

Section Rules.
Context `{SortSliceLaws Rule}.

(** C9: A verb is allowed exactly when no deny rule applies and an allow rule
    does, wherever the rules stand; in a delegation session over named
    resources only reading verbs on the kinds of those resources are. *)
Theorem rules_decide a ctx namespace resource verb whereParser actionsParser :
  NewWhereParser ctx (bool_decide (resource = KindSession)) = Ok whereParser ->
  NewActionsParser ctx = Ok actionsParser -> set_parses whereParser actionsParser (ac_RoleSet a) ->
  checker_CheckAccessToRule a ctx namespace resource verb = None <->
  (ai_DelegationSessionID (ac_info a) = "" \/ ai_AllowedResourceAccessIDs (ac_info a) = [] \/
   (resource ∈ session_kinds a /\ verb ∈ [VerbList; VerbRead; VerbReadNoSecrets])) /\
  rule_decision whereParser namespace resource verb (ac_RoleSet a) = true.
Proof.
  intros Ew Ea Hp. rewrite <- blockedInDelegationSession_spec. unfold checker_CheckAccessToRule, CheckAccessToRule.
  rewrite Ew, (checkAccessToRuleImpl_spec ctx actionsParser) by done.
  destruct (blockedInDelegationSession a resource verb), (rule_decision _ _ _ _ _); naive_solver.
Qed.

(** The guess that is made before a resource is read never refuses what the
    check with the resource would allow. *)
Theorem guess_refuses_no_grant a ctx namespace resource verb actionsParser :
  NewActionsParser ctx = Ok actionsParser ->
  (forall c role rule, role ∈ ac_RoleSet a -> rule ∈ GetRules c role ->
     is_ok (processActions rule actionsParser) = true) ->
  checker_CheckAccessToRule a ctx namespace resource verb = None ->
  checker_GuessIfAccessIsPossible a ctx namespace resource verb = None.
Proof.
  unfold checker_CheckAccessToRule, checker_GuessIfAccessIsPossible. intros Ea Hp.
  destruct (blockedInDelegationSession a resource verb); [done|]. by apply (Guess_of_granted ctx actionsParser).
Qed.

(** C34: The condition a list query is filtered with admits exactly the events
    that no deny rule for the resource holds of and an allow rule does; and
    when nothing fails to parse the query is refused only when there are
    none. *)
Theorem list_condition_is_exact parser namespace resource verb set :
  (forall w e, parser w = Ok (Some e) -> complete e = true) ->
  (forall c rule, rule ∈ rules_for namespace resource verb c set -> is_ok (parseWhere parser rule) = true) ->
  forall events,
  match ExtractCondition parser namespace resource verb set with
  | Ok cond => admits events cond
  | Err _ => false
  end =
  negb (existsb (holds parser events) (rules_for namespace resource verb Deny set)) &&
  existsb (holds parser events) (rules_for namespace resource verb Allow set).
Proof.
  intros Hc Hp events. destruct (ExtractCondition parser namespace resource verb set) as [cond|e] eqn:E.
  - by eapply ExtractCondition_admits.
  - by apply (ExtractCondition_refuses parser namespace resource verb Hc events) in E as [_ ->].
Qed.
End Rules.

(** ** Witnesses *)

Lemma evaluates_demo r' : r' ∈ roles -> evaluates server "ann" ∅ [loginMatcher "dev"] r'.
Proof.
  unfold roles, NewRoleSet. simpl app. intros Hr.
  repeat (apply elem_of_cons in Hr as [->|Hr];
    [intros c; split; [destruct c; vm_compute; reflexivity
                      |intros m ->%list_elem_of_singleton; destruct c; reflexivity]|]).
  by apply elem_of_nil in Hr.
Qed.

Lemma access_decision_witness :
  is_ok (checkAccess server "ann" ∅ (attempt true) [loginMatcher "dev"] roles) =
    decision server "ann" ∅ (attempt true) [loginMatcher "dev"] roles /\
  is_ok (checkAccess server "ann" ∅ (attempt true) [loginMatcher "dev"] (rev roles)) =
    is_ok (checkAccess server "ann" ∅ (attempt true) [loginMatcher "dev"] roles).
Proof.
  apply (access_decision server "ann" ∅ (attempt true) [loginMatcher "dev"] roles (rev roles)).
  - exact evaluates_demo.
  - apply Permutation_rev.
Defined.

Lemma checked_access_is_granted_witness :
  exists id, id ∈ ai_AllowedResourceAccessIDs (ac_info restricted) /\
    principal_allowed (GetConstraints id) (loginMatcher "dev").
Proof.
  destruct (checked_access_is_granted restricted server (attempt true) [loginMatcher "dev"])
    as (_ & _ & _ & [Hn|(id & Hid & _ & _ & Hp)]).
  - vm_compute. reflexivity.
  - discriminate Hn.
  - exists id. split; [exact Hid|]. apply Hp. left.
Defined.

Lemma preconditions_are_exact_witness :
  CheckAccess restricted server (attempt false) [loginMatcher "dev"] = Err ErrSessionMFARequired /\
  CheckAccess restricted server (attempt true) [loginMatcher "dev"] = Ok tt.
Proof.
  destruct (preconditions_are_exact restricted server (attempt false) [loginMatcher "dev"]
    [PRECONDITION_KIND_IN_BAND_MFA]) as (_ & Hplain & Hver).
  - reflexivity.
  - vm_compute. reflexivity.
  - split; [exact Hplain|exact Hver].
Defined.

Lemma implicit_role_grants_no_resource_witness :
  checkAccess server "ann" ∅ (attempt true) [loginMatcher "dev"] (NewRoleSet [developer]) =
  checkAccess server "ann" ∅ (attempt true) [loginMatcher "dev"] [developer].
Proof.
  apply (implicit_role_grants_no_resource server "ann" ∅ (attempt true) [loginMatcher "dev"] [developer]);
    reflexivity.
Defined.

(** No where clause of this cluster is used, so every text is a predicate. *)
Definition demo_context : RuleContext :=
  {| NewWhereParser := fun _ => Ok (fun _ => Ok (Some true)); NewActionsParser := Ok (fun _ => Ok (Some true)) |}.

Lemma demo_parses set : set_parses (fun _ => Ok (Some true)) (fun _ => Ok (Some true)) set.
Proof.
  intros c r' _ rule _. unfold parses, matchesWhere, processActions. split; [by case_bool_decide|].
  by induction (rule_Actions rule).
Qed.

Lemma rules_decide_witness :
  checker_CheckAccessToRule delegated demo_context "" KindNode VerbRead = None /\
  checker_CheckAccessToRule delegated demo_context "" "token" VerbRead <> None.
Proof.
  split.
  - apply (rules_decide delegated demo_context "" KindNode VerbRead
      (fun _ => Ok (Some true)) (fun _ => Ok (Some true))); [reflexivity|reflexivity|apply demo_parses|].
    split; [|vm_compute; reflexivity]. right. right. split; [|set_solver].
    apply slices_Contains_true. vm_compute. reflexivity.
  - intros E. apply (rules_decide delegated demo_context "" "token" VerbRead
      (fun _ => Ok (Some true)) (fun _ => Ok (Some true))) in E as [_ E];
      [|reflexivity|reflexivity|apply demo_parses]. vm_compute in E. discriminate E.
Defined.

Lemma guess_refuses_no_grant_witness :
  checker_GuessIfAccessIsPossible ann demo_context "" KindNode VerbRead = None.
Proof.
  apply (guess_refuses_no_grant ann demo_context "" KindNode VerbRead (fun _ => Ok (Some true))).
  - reflexivity.
  - intros c r' rule Hr Hin. apply (demo_parses roles c r' Hr rule Hin).
  - vm_compute. reflexivity.
Defined.

(** Two rules on sessions: those one joined may be listed, secret ones not. *)
Definition where_rule (text : string) : Rule :=
  {| rule_Resources := [KindSession]; rule_Verbs := [VerbList]; rule_Where := text; rule_Actions := [] |}.
Definition auditor : RoleV6 :=
  role "auditor" no_options (conditions everywhere [] ∅ [where_rule "joined"] [] [] [])
    (conditions everywhere [] ∅ [where_rule "secret"] [] [] []).

Lemma list_condition_is_exact_witness :
  admits (fun text => bool_decide (text = "joined")) (Some (And (Not (Other "secret")) (Other "joined"))) = true.
Proof.
  assert (E : ExtractCondition (fun w => Ok (Some (Other w))) "" KindSession VerbList [auditor] =
    Ok (Some (And (Not (Other "secret")) (Other "joined")))) by (vm_compute; reflexivity).
  pose proof (list_condition_is_exact (fun w => Ok (Some (Other w))) "" KindSession VerbList [auditor]) as Hc.
  rewrite E in Hc. specialize (Hc (fun w e Ew => ltac:(by injection Ew as <-))). rewrite Hc.
  - vm_compute. reflexivity.
  - intros c rule _. unfold parseWhere. by case_bool_decide.
Defined.

(** ** What roles limit and grant *)

(** A limit of a set of roles is the least that a role states, and none when
    no role states one: the session lifetime and the interval of the second
    factor under what was asked for, the connections and sessions, and the
    idle timeout among those above zero.  Which ports are forwarded is a
    formula over the set that does not look at the order of the roles. *)
Theorem limits_are_least ttl interval enforce timeout set :
  (AdjustSessionTTL ttl set <= ttl /\
   least_of ttl (stated (fun role => ro_MaxSessionTTL (GetOptions role)) set) (AdjustSessionTTL ttl set)) /\
  (AdjustMFAVerificationInterval interval enforce set <= interval /\
   least_of interval
     (stated (fun role => ro_MFAVerificationInterval (GetOptions role))
        (filter (fun role => asks_mfa enforce role = true) set))
     (AdjustMFAVerificationInterval interval enforce set)) /\
  limit_of (stated (fun role => ro_MaxConnections (GetOptions role)) set) (MaxConnections set) /\
  limit_of (stated (fun role => ro_MaxSessions (GetOptions role)) set) (MaxSessions set) /\
  limit_of (stated (fun role => ro_MaxKubernetesConnections (GetOptions role)) set)
    (MaxKubernetesConnections set) /\
  limit_of (positive (Z.max 0 timeout :: ((fun role => ro_ClientIdleTimeout (GetOptions role)) <$> set)))
    (AdjustClientIdleTimeout timeout set) /\
  GetSSHPortForwardMode set = port_forward_mode set.
Proof.
  split; [apply AdjustSessionTTL_least|]. split; [apply AdjustMFAVerificationInterval_least|].
  split; [apply lowest_limit_spec|]. split; [apply lowest_limit_spec|]. split; [apply lowest_limit_spec|].
  split; [|apply GetSSHPortForwardMode_spec].
  replace (AdjustClientIdleTimeout timeout set) with (AdjustClientIdleTimeout (Z.max 0 timeout) set).
  - apply AdjustClientIdleTimeout_acc. lia.
  - unfold AdjustClientIdleTimeout. f_equal. destruct (timeout <? 0) eqn:E; bool_to_prop.
    + by rewrite Z.max_l by lia.
    + by rewrite Z.max_r, (proj2 (Z.ltb_ge _ _)) by lia.
Qed.

(** The key policy of a set of roles is satisfied by exactly the keys that
    satisfy the policy of the cluster and of every role, so the policies a
    role can ask for are never incompatible. *)
Theorem key_policy_is_conjunction authPreferencePolicy set :
  authPreferencePolicy ∈ RequirementPolicies ->
  exists policy, PrivateKeyPolicy authPreferencePolicy set = Ok policy /\ forall keyPolicy,
    IsSatisfiedBy policy keyPolicy =
    IsSatisfiedBy authPreferencePolicy keyPolicy &&
    forallb (fun role => IsSatisfiedBy (GetPrivateKeyPolicy role) keyPolicy) set.
Proof.
  intros (policy & E & _ & Hk)%(PrivateKeyPolicy_spec _ set). by exists policy.
Qed.

(** C27: The principals of a certificate. Its logins are those a role within the
    lifetime allows, each once; the logins a role denies are not taken off
    here. Its database names and users are those such a role allows and no
    role denies, and there is an error exactly when no role is within the
    lifetime or nothing is left. Its Kubernetes groups and users are those
    allowed by a role within the lifetime whose matchers all match, less those
    denied by a role some matcher of which matches its deny condition: without
    matchers every role within the lifetime allows, and none denies. That
    check ends with the error of a matcher that fails; otherwise it is denied
    exactly when no role both matches and is within the lifetime, and not
    found exactly when one does and nothing is left. *)
Theorem certificate_principals_are_exact `{UnicodeTables} `{RegexpCache} `{MapOrder (list string)}
    `{LabelExpressions} ttl overrideTTL matchers set :
  (NoDup (fst (GetLoginsForTTL ttl set)) /\
   (forall x, x ∈ fst (GetLoginsForTTL ttl set) <->
     exists role, role ∈ set /\ within_ttl ttl false role = true /\ x ∈ GetLogins Allow role) /\
   snd (GetLoginsForTTL ttl set) = existsb (within_ttl ttl false) set) /\
  match CheckDatabaseNamesAndUsers ttl overrideTTL set with
  | Ok (names, users) =>
      existsb (within_ttl ttl overrideTTL) set = true /\
      (forall x, x ∈ names <-> granted GetDatabaseNames ttl overrideTTL set x) /\
      (forall x, x ∈ users <-> granted GetDatabaseUsers ttl overrideTTL set x) /\
      (names <> ∅ \/ users <> ∅)
  | Err e =>
      if existsb (within_ttl ttl overrideTTL) set
      then IsNotFound e = true /\ forall x,
        ~ granted GetDatabaseNames ttl overrideTTL set x /\ ~ granted GetDatabaseUsers ttl overrideTTL set x
      else e_class e = KAccessDenied
  end /\
  match CheckKubeGroupsAndUsers ttl overrideTTL matchers set with
  | Ok (groups, users) =>
      kube_decided matchers set /\ existsb (kube_allows matchers ttl overrideTTL) set = true /\
      (forall x, x ∈ groups <-> kube_granted matchers GetKubeGroups ttl overrideTTL set x) /\
      (forall x, x ∈ users <-> kube_granted matchers GetKubeUsers ttl overrideTTL set x) /\
      (groups <> ∅ \/ users <> ∅)
  | Err e =>
      kube_matcher_error matchers set e \/
      kube_decided matchers set /\
        if existsb (kube_allows matchers ttl overrideTTL) set
        then IsNotFound e = true /\ forall x,
          ~ kube_granted matchers GetKubeGroups ttl overrideTTL set x /\
          ~ kube_granted matchers GetKubeUsers ttl overrideTTL set x
        else e_class e = KAccessDenied
  end /\
  (forall role, kube_allows [] ttl overrideTTL role = within_ttl ttl overrideTTL role /\ kube_denies [] role = false).
Proof.
  split; [apply GetLoginsForTTL_spec|].
  split; [apply CheckDatabaseNamesAndUsers_spec|].
  split; [apply CheckKubeGroupsAndUsers_spec|]. intros role. split; [done|apply kube_denies_no_matchers].
Qed.

(** The logins offered for a resource are exactly those some role lists, no
    role denies, and an access with them would be granted. *)
Theorem allowed_logins_are_exact `{UnicodeTables} `{RegexpCache} `{MapOrder (list string)} `{LabelExpressions}
    `{Environment} `{MapOrderLaws bool} a resource get newLoginMatcher :
  login_kind resource = Ok (Some (get, newLoginMatcher)) ->
  exists logins, GetAllowedLoginsForResource a resource = Ok logins /\ forall x, x ∈ logins <->
    (exists role, role ∈ ac_RoleSet a /\ x ∈ get Allow role) /\
    (forall role, role ∈ ac_RoleSet a -> x ∉ get Deny role) /\
    is_ok (CheckAccess a resource mfa_verified_state [newLoginMatcher x]) = true.
Proof. apply GetAllowedLoginsForResource_spec. Qed.

(** A host user is created exactly when no role whose labels match the host
    has it off, and gets exactly the groups that a matching role allows and no
    matching role denies. *)
Theorem host_users_need_every_role `{RegexpCache} `{MapOrder (list string)} `{LabelExpressions} a s d :
  HostUsers a s = Ok d ->
  (is_Some (Info d) <->
     forall role, role ∈ ac_RoleSet a -> matches a Allow s role -> createHostUserMode role <> HOST_USER_MODE_OFF) /\
  (forall i, Info d = Some i -> forall x, x ∈ hu_Groups i <->
     (exists role, role ∈ ac_RoleSet a /\ matches a Allow s role /\ x ∈ GetHostGroups Allow role) /\
     (forall role, role ∈ ac_RoleSet a -> matches a Deny s role -> x ∉ GetHostGroups Deny role)).
Proof. apply HostUsers_spec. Qed.

(** Mapping the roles of another cluster and unmapping them gives roles the
    user had there, and those map to the same local roles again. *)
Theorem unmapped_roles_map_back `{RegexpCache} r remoteRoles localRoles :
  remoteRoles <> [] -> localRoles <> ∅ -> MapRoles r remoteRoles = Ok localRoles ->
  exists unmapped, UnmapRoles r remoteRoles (elements localRoles) = Ok unmapped /\
    (forall remoteRole, remoteRole ∈ unmapped -> remoteRole ∈ remoteRoles) /\
    MapRoles r (elements unmapped) = Ok localRoles.
Proof. apply MapRoles_UnmapRoles. Qed.

(** A user of another cluster has here only roles the map rewrites one of
    their own to, and at least one; cannot set a trait the cluster writes; and
    keeps the restrictions of the certificate. *)
Theorem remote_user_is_mapped `{RegexpCache} identity roleMap info :
  AccessInfoFromRemoteTLSIdentity identity roleMap = Ok info ->
  (forall role, role ∈ ai_Roles info <->
     exists remoteRole, remoteRole ∈ (if bool_decide (id_Roles identity = []) then [""] else id_Roles identity) /\
       exists mapping, mapping ∈ roleMap /\ rewrites mapping remoteRole role) /\
  ai_Roles info <> [] /\ ai_ScopePin info = false /\
  (forall name, ai_Traits info !! name =
     if bool_decide (name = TraitLogins) then Some (id_Principals identity)
     else if bool_decide (name = TraitKubeGroups) then Some (id_KubernetesGroups identity)
     else if bool_decide (name = TraitKubeUsers) then Some (id_KubernetesUsers identity)
     else if bool_decide (name = TraitDBNames) then Some (id_DatabaseNames identity)
     else if bool_decide (name = TraitDBUsers) then Some (id_DatabaseUsers identity)
     else if bool_decide (name = TraitAWSRoleARNs) then Some (id_AWSRoleARNs identity)
     else id_Traits identity !! name) /\
  ai_AllowedResourceAccessIDs info = id_AllowedResourceAccessIDs identity /\
  ai_DelegationSessionID info = id_DelegationSessionID identity /\ ai_Username info = id_Username identity.
Proof.
  unfold AccessInfoFromRemoteTLSIdentity. intros E. apply fail_if_ok in E as [_ E].
  destruct (MapRoles roleMap (id_Roles identity)) as [locals|e] eqn:Em; [|done].
  apply fail_if_ok in E as [Hn E]. injection E as <-. bool_to_prop. simpl.
  split; [intros role; rewrite elem_of_elements; by apply MapRoles_spec|].
  split; [by intros ?%elements_empty_iff%leibniz_equiv|]. split; [done|]. split; [|done].
  intros name. apply remote_traits_lookup.
Qed.

(** ** Witnesses *)

Lemma key_policy_is_conjunction_witness :
  exists policy, PrivateKeyPolicy PrivateKeyPolicyNone roles = Ok policy /\ forall keyPolicy,
    IsSatisfiedBy policy keyPolicy =
    IsSatisfiedBy PrivateKeyPolicyNone keyPolicy &&
    forallb (fun role => IsSatisfiedBy (GetPrivateKeyPolicy role) keyPolicy) roles.
Proof. apply (key_policy_is_conjunction PrivateKeyPolicyNone roles). left. Defined.

Lemma allowed_logins_are_exact_witness :
  exists logins, GetAllowedLoginsForResource restricted server = Ok logins /\ "root" ∉ logins.
Proof.
  destruct (allowed_logins_are_exact restricted server GetLogins loginMatcher) as (logins & E & Hl).
  - reflexivity.
  - exists logins. split; [exact E|]. rewrite Hl. intros (_ & Hd & _).
    apply (Hd guarded_role); [right; left|left].
Defined.

Lemma host_users_need_every_role_witness :
  exists d i, HostUsers ann server = Ok d /\ Info d = Some i /\ "wheel" ∈ hu_Groups i.
Proof.
  eexists _, _. split; [vm_compute; reflexivity|]. split; [reflexivity|].
  match goal with |- _ ∈ hu_Groups ?i => set (info := i) end.
  destruct (host_users_need_every_role ann server
    {| Info := Some info; AllowedBy := [(KindRole, "developer")]; DeniedBy := [] |}) as [_ Hg].
  - vm_compute. reflexivity.
  - apply (Hg info eq_refl). split.
    + exists developer. split; [left|]. split; [reflexivity|left].
    + intros role Hr Hm. revert Hm. unfold matches, roles, NewRoleSet in *. simpl app in Hr.
      repeat (apply elem_of_cons in Hr as [->|Hr]; [vm_compute; discriminate|]).
      by apply elem_of_nil in Hr.
Defined.

Definition demo_map : RoleMap := [ {| rm_Remote := "ops-*"; rm_Local := ["developer"] |} ].

Lemma unmapped_roles_map_back_witness :
  exists unmapped, UnmapRoles demo_map ["ops-eu"; "hr"] ["developer"] = Ok unmapped /\
    MapRoles demo_map (elements unmapped) = Ok {["developer"]}.
Proof.
  destruct (unmapped_roles_map_back demo_map ["ops-eu"; "hr"] {["developer"]}) as (unmapped & E & _ & Em).
  - discriminate.
  - discriminate.
  - vm_compute. reflexivity.
  - exists unmapped. split; [|exact Em]. rewrite <- E. by rewrite elements_singleton.
Defined.

Definition remote_ann : RemoteIdentity := {|
  id_Username := "ann"; id_ScopePin := false; id_Roles := ["ops-eu"; "hr"]; id_Principals := ["dev"];
  id_KubernetesGroups := []; id_KubernetesUsers := []; id_DatabaseNames := []; id_DatabaseUsers := [];
  id_AWSRoleARNs := []; id_Traits := {[TraitLogins := ["root"]]}; id_AllowedResourceAccessIDs := [];
  id_DelegationSessionID := ""; id_TeleportCluster := "leaf" |}.

Lemma remote_user_is_mapped_witness :
  exists info, AccessInfoFromRemoteTLSIdentity remote_ann demo_map = Ok info /\
    ai_Traits info !! TraitLogins = Some ["dev"].
Proof.
  eexists. split; [vm_compute; reflexivity|].
  match goal with |- ai_Traits ?i !! _ = _ => set (info := i) end.
  destruct (remote_user_is_mapped remote_ann demo_map info) as (_ & _ & _ & Ht & _).
  - vm_compute. reflexivity.
  - rewrite Ht. reflexivity.
Defined.
