(* ===== verification/ModerationClaims.v ===== *)
(** * Claims about moderated sessions

    When a session may run and who may join it; that a session runs only while
    the participants its policies ask for are there, and is silent otherwise;
    who can be in it, and what a file transfer needs. *)

From S2P Require Import Prelude GoStrings Types Regexp Scenario Roles RoleLimits RoleRules.
From S2P Require Import Moderation TermManager SessionTracker Session SessionSafety CheckAccess.
From S2P Require Import AccessScenario.

(** ** A moderated session

    A host whose role asks for one moderator, and a moderator who leaves.  A
    filter of the scenario is the name of a role the participant has. *)

#[export] Instance role_filters : FilterParser :=
  fun ctx => Ok (fun filter => Ok (Some (slices_Contains (GetName <$> sc_Roles ctx) filter))).

Definition session_conditions (require : list SessionRequirePolicy) (joins : list SessionJoinPolicy) : RoleConditions := {|
  rc_Logins := []; rc_Namespaces := []; rc_NodeLabels := ∅; rc_Rules := []; rc_KubeGroups := [];
  rc_KubeUsers := []; rc_AppLabels := ∅; rc_ClusterLabels := ∅; rc_KubernetesLabels := ∅;
  rc_DatabaseLabels := ∅; rc_DatabaseNames := []; rc_DatabaseUsers := []; rc_Impersonate := None;
  rc_AWSRoleARNs := []; rc_WindowsDesktopLogins := []; rc_WindowsDesktopLabels := ∅;
  rc_RequireSessionJoin := require; rc_JoinSessions := joins; rc_HostGroups := []; rc_HostSudoers := [];
  rc_AzureIdentities := []; rc_GCPServiceAccounts := []; rc_DatabaseServiceLabels := ∅;
  rc_GroupLabels := ∅; rc_DesktopGroups := []; rc_DatabaseRoles := []; rc_NodeLabelsExpression := "";
  rc_AppLabelsExpression := ""; rc_ClusterLabelsExpression := ""; rc_KubernetesLabelsExpression := "";
  rc_DatabaseLabelsExpression := ""; rc_DatabaseServiceLabelsExpression := "";
  rc_WindowsDesktopLabelsExpression := ""; rc_GroupLabelsExpression := ""; rc_SPIFFE := [];
  rc_AccountAssignments := []; rc_GitHubPermissions := []; rc_WorkloadIdentityLabels := ∅;
  rc_WorkloadIdentityLabelsExpression := ""; rc_MCP := None; rc_LinuxDesktopLogins := [];
  rc_LinuxDesktopLabels := ∅; rc_LinuxDesktopLabelsExpression := ""; rc_BeamLabels := ∅;
  rc_BeamLabelsExpression := ""; rc_KubernetesResources := []; rc_Request := None; rc_ReviewRequests := None |}.

Definition one_moderator : SessionRequirePolicy :=
  {| rp_Name := "auditor"; rp_Filter := "moderator"; rp_Kinds := ["ssh"]; rp_Count := 1;
     rp_Modes := ["moderator"]; rp_OnLeave := "pause" |}.
Definition joins_prod : SessionJoinPolicy :=
  {| jp_Name := "join"; jp_Roles := ["prod-*"]; jp_Kinds := ["*"]; jp_Modes := ["moderator"; "observer"] |}.

Definition host_role : RoleV6 :=
  role "prod-admin" (options RequireMFAType_OFF 3600 HOST_USER_MODE_OFF)
    (session_conditions [one_moderator] []) (session_conditions [] []).
Definition moderator_role : RoleV6 :=
  role "moderator" (options RequireMFAType_OFF 3600 HOST_USER_MODE_OFF)
    (session_conditions [] [joins_prod]) (session_conditions [] []).

Definition host_access : SessionAccessEvaluator :=
  NewSessionAccessEvaluator (SessionPolicySets [host_role]) SSHSessionKind "host".

Definition config : SessionConfig :=
  {| sess_id := "s1"; sess_login := "root"; sess_access := host_access; sess_initiator := ("host", "main");
     sess_displayParticipantRequirements := false; sess_presenceEnabled := false; sess_recordAtProxy := false;
     sess_bestEffort := false; sess_hostname := "web-1" |}.

Definition connection (id user login : string) (roles : list RoleV6) : ServerContext :=
  {| ctx_ID := id; ctx_TeleportUser := user; ctx_OriginClusterName := "main"; ctx_Login := login;
     ctx_Roles := Some roles; ctx_RecordAtProxy := false |}.

Definition host_ctx := connection "c1" "host" "root" [host_role].
Definition mod_ctx := connection "c2" "mo" SSHSessionJoinPrincipal [moderator_role].
Definition host_party := newParty "p1" SessionPeerMode host_ctx.
Definition mod_party := newParty "p2" SessionModeratorMode mod_ctx.

Definition tracker0 : SessionTrackerV1 :=
  {| t_SessionID := "s1"; t_Kind := SSHSessionKind; t_State := SessionStatePending;
     t_Participants := [{| pt_ID := "p1"; pt_User := "host"; pt_Mode := "peer"; pt_LastActive := 0; pt_Cluster := "main" |}];
     t_DesktopName := ""; t_Expiry := 3600 |}.

Definition fine : answers := {| a_presence := None; a_written := None; a_state := None; a_participant := None |}.

(** The host opens, the moderator joins and is tracked; then the moderator
    leaves, and the service answers or not. *)
Definition opened := (OpenSession config None None None host_party (new_session tracker0)).1.
Definition joined := (join_party config fine "p2" mod_ctx SessionModeratorMode opened).1.
Definition tracked := (track_participant None 0 mod_party joined).1.
Definition paused := (closeUnderSessionLock config None None mod_party tracked).1.
Definition unavailable : error := Error KOther "connection error" [] [].
Definition unsupervised := (closeUnderSessionLock config (Some unavailable) None mod_party tracked).1.

Example waits_for_moderator : flowing opened = false.
Proof. vm_compute. reflexivity. Qed.
Example runs_with_moderator : flowing joined = true.
Proof. vm_compute. reflexivity. Qed.
Example pauses_without : flowing paused = false /\ s_pending paused = [].
Proof. vm_compute. done. Qed.

(** The host asks to download a file, the moderator approves. *)
Definition wanted : FileTransferRequestParams :=
  {| fp_Download := true; fp_Requester := "host"; fp_Location := "/etc/hosts"; fp_Filename := "" |}.
Definition asked := (addFileTransferRequest config "f1" wanted host_ctx tracked).1.
Definition approved := (approveFileTransferRequest config "f1" mod_ctx asked).1.
Definition transfer_ctx := connection "c3" "host" "root" [host_role].

(** ** The runs *)

Definition any_event (ev : event) : Prop := True.

Lemma reached_tracked P : (forall ev, removals_succeed ev -> P ev) -> reached config P (new_session tracker0) tracked.
Proof.
  intros HP.
  eapply (reached_step config P _ joined (Tracked "p2")); [|by apply HP|].
  2:{ apply (step_track config joined None 0 mod_party tracked (Ok tt)). vm_compute. reflexivity. }
  eapply (reached_step config P _ opened (Joins "p2")); [|by apply HP|].
  2:{ eapply (step_join config opened fine "p2" mod_ctx SessionModeratorMode);
        [by vm_compute|by apply (bool_decide_eq_false_1 _); vm_compute|by vm_compute|].
      apply surjective_pairing. }
  eapply (reached_step config P _ (new_session tracker0) (Joins "p1")); [constructor|by apply HP|].
  eapply (step_open config (new_session tracker0) None None None "p1" host_ctx);
    [by vm_compute|set_solver|by vm_compute..|].
  apply surjective_pairing.
Qed.

Lemma reached_paused : reached config removals_succeed (new_session tracker0) paused.
Proof.
  eapply (reached_step config _ _ tracked (Leaves "p2" (Ok tt))); [by apply reached_tracked|done|].
  eapply (step_leave config tracked None None "p2" mod_party); vm_compute; reflexivity.
Qed.

Lemma reached_approved : reached config any_event (new_session tracker0) approved.
Proof.
  eapply (reached_step config _ _ asked Transfer); [|done|].
  2:{ eapply step_transfer_approve. apply surjective_pairing. }
  eapply (reached_step config _ _ tracked Transfer); [by apply reached_tracked|done|].
  eapply step_transfer_add. apply surjective_pairing.
Qed.

(** A removal that the service does not answer leaves the session running
    without its moderator: nothing pauses it and nothing will end it. *)
Theorem failed_removal_is_unsupervised :
  reached config any_event (new_session tracker0) unsupervised /\
  flowing unsupervised = true /\ s_pending unsupervised = [] /\ s_stopped unsupervised = false /\
  fulfilled (sess_access config) (present config unsupervised) = false.
Proof.
  split; [|vm_compute; done].
  eapply (reached_step config _ _ tracked (Leaves "p2" (Err unavailable))); [by apply reached_tracked|done|].
  eapply (step_leave config tracked (Some unavailable) None "p2" mod_party); vm_compute; reflexivity.
Qed.

(** Output of a pause is shown again after the next pause. *)
Definition quiet_terminal : TermManager :=
  On (tm_Write (bytes_of "b") (Off (On (tm_Write (bytes_of "a")
    (Off (AddWriter "w" {| w_data := []; w_broken := false |} NewTermManager))).1))).1.

Example paused_output_is_repeated : shown "w" quiet_terminal = Some (bytes_of "aab").
Proof. vm_compute. reflexivity. Qed.

(** ** The evaluator *)

Section Evaluator.
Context `{RegexpEngine} `{FilterParser}.

(** C21: The evaluator lets a session run exactly when every policy set with
    policies for its kind has a policy that enough distinct participants in its
    modes match; more participants never stop it. *)
Theorem session_start_decision e `{!CountsInRange e} ps ps' o o' b b' :
  FulfilledFor e ps = (o, Ok b) -> FulfilledFor e ps' = (o', Ok b') -> ps ⊆+ ps' ->
  (b = true <->
   forall set, set ∈ sa_policySets e -> extractApplicablePolicies (sa_kind e) set <> [] ->
   exists require, require ∈ extractApplicablePolicies (sa_kind e) set /\
     (exists p, p ∈ ps /\ sc_Mode p ∈ rp_Modes require) /\
     rp_Count require <= Z.of_nat (length (counted e require ps))) /\
  (b = true -> b' = true).
Proof.
  intros ->%(FulfilledFor_fulfilled e) ->%(FulfilledFor_fulfilled e) Hs. split; [|by apply fulfilled_mono].
  unfold fulfilled. rewrite forallb_elem. split.
  - intros Hf set Hset Ha. specialize (Hf set Hset). rewrite bool_decide_false in Hf by done.
    apply existsb_elem in Hf as (require & Hr & (Hm & Hc)%andb_true_iff).
    apply existsb_elem in Hm as (p & Hp & Hm). unfold in_mode in Hm. autorewrite with go_simpl in Hm.
    bool_to_prop. eauto 6.
  - intros Hf set Hset. apply orb_true_iff. rewrite bool_decide_eq_true, existsb_elem.
    destruct (decide (extractApplicablePolicies (sa_kind e) set = [])) as [|Ha]; [by left|right].
    destruct (Hf set Hset Ha) as (require & Hr & (p & Hp & Hm) & Hc). exists require. split; [done|].
    unfold enough. rewrite andb_true_iff, existsb_elem, Z.leb_le. split; [|done].
    exists p. split; [done|]. unfold in_mode. by autorewrite with go_simpl.
Qed.

(** A session that no policy asks participants for runs with anyone and
    pauses for nobody; a moderated session never starts unattended. *)
Theorem unattended_session policySets kind owner ps :
  let e := NewSessionAccessEvaluator policySets kind owner in
  (IsModerated e = false -> FulfilledFor e ps = ("", Ok true)) /\
  (IsModerated e = true -> snd (FulfilledFor e []) = Ok false).
Proof.
  intros e. unfold FulfilledFor. split; intros Hm.
  - by apply sets_fulfilled_unmoderated.
  - rewrite sets_fulfilled_nobody, not_moderated. f_equal. by apply negb_false_iff.
Qed.
End Evaluator.

(** A user with roles that know moderated sessions may join a session of
    another in exactly the modes of its join policies that are for the kind of
    session and name, by a glob, a role of the host. *)
Theorem join_modes_exact `{GlobLaws} `{FilterParser} e user modes m :
  CanJoin e user = Ok modes ->
  RoleSupportsModeratedSessions (sc_Roles user) = true -> sc_Username user <> sa_owner e ->
  (forall allow role, allow ∈ getAllowPolicies user -> role ∈ jp_Roles allow -> plain_glob role = true) ->
  NoDup modes /\
  (m ∈ modes <->
   exists role allow glob set, role ∈ sc_Roles user /\ allow ∈ GetSessionJoinPolicies role /\
     (sa_kind e ∈ jp_Kinds allow \/ "*" ∈ jp_Kinds allow) /\
     glob ∈ jp_Roles allow /\ set ∈ sa_policySets e /\ globMatch glob (ps_Name set) = true /\
     m ∈ jp_Modes allow).
Proof.
  unfold CanJoin. intros E Hv Hu Hg. rewrite Hv, bool_decide_false in E by done. simpl in E.
  split; [eapply join_modes_NoDup; [|exact E]; constructor|].
  rewrite (join_modes_spec e _ [] modes m E). split.
  - intros [?%not_elem_of_nil|(allow & Ha & Hj & Hm)]; [done|].
    rewrite matchesJoin_spec in Hj by eauto. injection Hj as Hj. apply andb_true_iff in Hj as [Hk Hj].
    apply existsb_elem in Hj as (glob & Hgl & Hj). apply existsb_elem in Hj as (set & Hs & Hj).
    apply elem_of_getAllowPolicies in Ha as (role & Hr & Ha). apply matchesKind_true in Hk. eauto 12.
  - intros (role & allow & glob & set & Hr & Ha & Hk & Hgl & Hs & Hj & Hm). right. exists allow.
    assert (Hin : allow ∈ getAllowPolicies user) by (apply elem_of_getAllowPolicies; eauto).
    split; [done|]. split; [|done]. rewrite matchesJoin_spec by eauto. f_equal.
    apply andb_true_iff. rewrite matchesKind_true, existsb_elem. split; [done|].
    exists glob. split; [done|]. apply existsb_elem. eauto.
Qed.

(** ** The session *)

Section Session.
Context `{RegexpEngine} `{FilterParser} `{MapOrderLaws party}.
Variable cfg : SessionConfig.
Context `{!CountsInRange (sess_access cfg)}.

(** C3: Whatever parties, goroutines and terminals do, a session whose removals
    succeeded passes data only while the participants that are there, the
    initiator aside, fulfil its policies, or while a goroutine is about to end
    it; after the end it is stopped. *)
Theorem running_session_is_supervised tracker s :
  reached cfg removals_succeed (new_session tracker) s ->
  flowing s = true ->
  fulfilled (sess_access cfg) (present cfg s) = true \/
  s_stopped s = true \/
  exists g, g ∈ s_pending s /\ forall svc s', s_stopped (run cfg svc g s') = true.
Proof.
  intros Hr Hf. destruct (reached_supervised cfg (new_session tracker) s eq_refl Hr Hf) as [[?|Hp]|?]; [auto| |auto].
  right. right. destruct (s_pending s) as [|g l]; [done|]. exists g. split; [by left|].
  intros svc s'. apply run_stopped.
Qed.

(** C31: In a session that is not stopped, of which the tracker service has
    accepted every removal of a participant so far and in which no goroutine is
    left that has still to take the lock: while participants that the policies
    ask for are missing, what the program prints is kept back, no participant
    is shown any of it, what is typed is dropped and the program reads nothing.
    A refused removal is no part of this: [failed_removal_is_unsupervised] has
    a run in which it leaves output flowing. *)
Theorem unfulfilled_session_is_silent tracker s name buf n :
  reached cfg removals_succeed (new_session tracker) s ->
  s_stopped s = false -> s_pending s = [] -> fulfilled (sess_access cfg) (present cfg s) = false ->
  (forall p, shown name (s_io (session_print cfg p s)) = shown name (s_io s) /\
             tm_history (s_io (session_print cfg p s)) = tm_history (s_io s)) /\
  (let typed := reader_accept name buf (reader_interrupt buf (s_io s)) in
   tm_incoming typed = tm_incoming (s_io s) /\ tm_sending typed = tm_sending (s_io s)) /\
  (forall g data, Read_take n (s_io s) <> Some (g, Ok data)).
Proof.
  intros Hr Hs Hp Hf.
  assert (Hoff : tm_state (s_io s) = dataFlowOff).
  { destruct (tm_state (s_io s)) eqn:E; [done|].
    destruct (reached_supervised cfg (new_session tracker) s eq_refl Hr) as [[?|?]|?]; [|congruence..].
    by apply flowing_true. }
  split_and!.
  - intros p. unfold session_print. rewrite Hoff, andb_false_r. unfold tm_Write. rewrite Hoff.
    by destruct (tm_closed (s_io s)).
  - unfold reader_accept, reader_interrupt. destruct (_ && _); simpl; by rewrite Hoff.
  - intros g data. unfold Read_take. rewrite Hoff. by destruct (tm_closed (s_io s)).
Qed.

(** C15: Everybody in a session is the initiator, or a user whose roles allow
    joining the session in the mode, and has the session's login or the
    principal for joining. *)
Theorem members_are_admitted tracker s id p :
  reached cfg (fun _ => True) (new_session tracker) s -> s_parties s !! id = Some p ->
  ((ctx_TeleportUser (p_ctx p), ctx_OriginClusterName (p_ctx p)) = sess_initiator cfg \/
   exists modes, CanJoin (sess_access cfg)
     {| sc_Username := ctx_TeleportUser (p_ctx p); sc_Roles := default [] (ctx_Roles (p_ctx p)); sc_Mode := "" |}
     = Ok modes /\ p_mode p ∈ modes) /\
  (p_login p = sess_login cfg \/ p_login p = SSHSessionJoinPrincipal).
Proof.
  intros Hm%reached_members Hp. apply (parties_joined _ _ Hm) in Hp.
  destruct (joined_admitted _ _ Hm _ _ Hp) as [_ [[Hi|Hi] Hl]]; (split; [|exact Hl]); [left|by right].
  apply andb_true_iff in Hi as [Hu Hc]. bool_to_prop. destruct (sess_initiator cfg); simpl in *; congruence.
Qed.

(** C29: A file transfer runs for the user that asked for it, once, and only
    when users who were in the session and let in by its rules, the initiator
    aside, approved it in numbers that fulfil the policies. *)
Theorem transfer_is_approved tracker s scx s' req scx' :
  reached cfg (fun _ => True) (new_session tracker) s ->
  isApprovedFileTransfer cfg scx s = (s', Ok (Some req)) ->
  ft_Requester req = ctx_TeleportUser scx /\
  fulfilled (sess_access cfg) (participants_of cfg (snd <$> range (ft_approvers req))) = true /\
  (forall u p, ft_approvers req !! u = Some p ->
     p_user p = u /\ s_participants s !! p_id p = Some p /\ admitted cfg p) /\
  (isApprovedFileTransfer cfg scx' s').2 = Err (NotFound "Session does not have a pending file transfer request" []).
Proof.
  intros Hm%reached_members. unfold isApprovedFileTransfer.
  destruct (s_fileTransferReq s) as [req'|] eqn:Er; [|done].
  destruct (negb _) eqn:Eu; [done|]. apply negb_false_iff, bool_decide_eq_true in Eu.
  destruct (checkIfFileTransferApproved cfg req') as [[]|] eqn:Ec; [|done..]. intros [= <- <-].
  split; [done|]. split_and!; [..|done].
  - unfold checkIfFileTransferApproved in Ec. destruct (FulfilledFor _ _) as [o r] eqn:Ef. simpl in Ec. subst r.
    symmetry. by apply (FulfilledFor_fulfilled (sess_access cfg)) in Ef.
  - intros u p Hp. destruct (approver_joined _ _ Hm _ _ _ Er Hp) as [? Hj].
    split; [done|]. split; [done|]. by destruct (joined_admitted _ _ Hm _ _ Hj).
Qed.
End Session.

(** ** Witnesses *)

Definition auditor (mode : SessionParticipantMode) : SessionAccessContext :=
  {| sc_Username := "mo"; sc_Roles := [moderator_role]; sc_Mode := mode |}.

#[local] Instance host_counts : CountsInRange host_access.
Proof. split. apply (bool_decide_unpack _). vm_compute. exact I. Defined.

Lemma session_start_decision_witness :
  snd (FulfilledFor host_access [auditor "peer"; auditor "moderator"]) = Ok true /\
  exists require, require ∈ extractApplicablePolicies SSHSessionKind (GetSessionPolicySet host_role) /\
    rp_Count require <= Z.of_nat (length (counted host_access require [auditor "moderator"])).
Proof.
  destruct (session_start_decision host_access [auditor "moderator"] [auditor "peer"; auditor "moderator"]
    "pause" "pause" true true) as [[H _] _];
    [vm_compute; reflexivity|vm_compute; reflexivity|apply submseteq_cons; reflexivity|].
  split; [vm_compute; reflexivity|].
  destruct (H eq_refl (GetSessionPolicySet host_role)) as (require & Hr & _ & Hc);
    [vm_compute; left|vm_compute; discriminate|].
  exists require. exact (conj Hr Hc).
Defined.

Lemma unattended_session_witness : snd (FulfilledFor host_access []) = Ok false.
Proof. apply (unattended_session (SessionPolicySets [host_role]) SSHSessionKind "host" []). vm_compute. reflexivity. Defined.

Lemma join_modes_exact_witness : NoDup ["moderator"; "observer"].
Proof.
  apply (join_modes_exact host_access (auditor "") ["moderator"; "observer"] "peer"); [by vm_compute..|done|].
  intros allow glob Ha Hg. vm_compute in Ha. apply list_elem_of_singleton in Ha as ->.
  vm_compute in Hg. apply list_elem_of_singleton in Hg as ->. by vm_compute.
Defined.

Lemma running_session_is_supervised_witness :
  fulfilled (sess_access config) (present config tracked) = true \/ s_stopped tracked = true \/
  exists g, g ∈ s_pending tracked /\ forall svc s', s_stopped (run config svc g s') = true.
Proof.
  apply (running_session_is_supervised config tracker0 tracked); [by apply reached_tracked|by vm_compute].
Defined.

Lemma unfulfilled_session_is_silent_witness :
  shown "p1" (s_io (session_print config (bytes_of "secret") paused)) = shown "p1" (s_io paused).
Proof.
  apply (unfulfilled_session_is_silent config tracker0 paused "p1" [] 1); [apply reached_paused|by vm_compute..].
Defined.

Lemma members_are_admitted_witness :
  p_login mod_party = sess_login config \/ p_login mod_party = SSHSessionJoinPrincipal.
Proof.
  apply (members_are_admitted config tracker0 tracked "p2" mod_party); [by apply reached_tracked|by vm_compute].
Defined.

Lemma transfer_is_approved_witness : exists req, ft_Requester req = "host" /\ ft_Location req = "/etc/hosts".
Proof.
  eexists. split; [|shelve].
  eapply (transfer_is_approved config tracker0 approved transfer_ctx _ _ transfer_ctx reached_approved).
  vm_compute. reflexivity.
  Unshelve. vm_compute. reflexivity.
Defined.
