(* ===== verification/RolloutClaims.v ===== *)
(** * Claims about update rollouts

    When a group of agents is updated and what an administrator can change;
    what the reconciler makes of the configuration and the version; that many
    servers can reconcile at once; and what the schedule estimate means. *)

From S2P Require Import Prelude GoStrings Utf8 Types Scenario Autoupdate Rollout RolloutFacts.
From S2P Require Import RolloutTransitions RolloutManual RolloutReconciler RolloutSteps.
From S2P Require Import RolloutScenario.

(** Two states of one group. *)
Ltac clash :=
  match goal with H : g_State ?g = _, H' : g_State ?g = _ |- _ => rewrite H in H'; discriminate H' end.

(** ** A pass *)

Section Passes.
Context `{UnicodeTables} `{SemVer} `{RolloutClient}.

(** C5: In a pass of the halt-on-error strategy a group starts only in its
    window, after its wait, with a rollout that is older than the window, and
    only when all groups before it are done; so at most one group starts. *)
Theorem groups_start_in_order fuel spec startTime groups now groups' r i g g' :
  progress_haltOnError fuel spec startTime groups now = (groups', r) -> Forall canaries_ok groups ->
  groups !! i = Some g -> groups' !! i = Some g' -> g_State g = GROUP_UNSTARTED -> g_State g' <> GROUP_UNSTARTED ->
  inWindow g now haltOnErrorWindowDuration = Ok true /\
  rolloutChangedInWindow g now (AsTime startTime) haltOnErrorWindowDuration = Ok false /\
  (g_ConfigWaitHours g = 0 \/ exists j p t, i = S j /\ groups' !! j = Some p /\ g_StartTime p = Some t /\
     t + hours (g_ConfigWaitHours g) <= t_Unix now) /\
  (forall j h, (j < i)%nat -> groups' !! j = Some h -> g_State h = GROUP_DONE) /\
  g_State g' = (if shouldUseCanaries g then GROUP_CANARY else GROUP_ACTIVE) /\ g_StartTime g' = Some (t_Unix now) /\
  (forall j h h', j <> i -> groups !! j = Some h -> groups' !! j = Some h' ->
     g_State h = GROUP_UNSTARTED -> g_State h' = GROUP_UNSTARTED).
Proof.
  unfold progress_haltOnError. intros Hp Hok Hi Hi' Hu Hn.
  destruct (reports_or_none fuel now) as [reports|e]; [|injection Hp as <- <-; congruence].
  apply progress_groups_pass in Hp. pose proof (pass_moves _ _ _ _ _ _ _ Hp) as Hm.
  assert (Hstarted : forall j h h', groups !! j = Some h -> groups' !! j = Some h' -> g_State h = GROUP_UNSTARTED ->
    g_State h' <> GROUP_UNSTARTED -> g_State h' = if shouldUseCanaries h then GROUP_CANARY else GROUP_ACTIVE).
  { intros j h h' Hj Hj' Hhu Hhn. destruct (Forall2_lookup_lr _ _ _ _ _ _ Hm Hj Hj') as (_ & Hmoves & _).
    destruct Hmoves as [[Hs _|t _ _ Hs|Hs _ _ _ _|Hs _ _] _]; [by eapply Forall_lookup|congruence|done|clash..]. }
  destruct (pass_start _ _ _ _ _ _ _ _ _ _ Hp Hi Hi' Hu Hn) as (_ & Hd & Ht & p & [Hw Hwait Hch] & Hprev).
  assert (Hnot : forall k x y, groups !! k = Some y -> groups' !! k = Some x -> g_State y = GROUP_UNSTARTED ->
    g_State x = GROUP_DONE -> False).
  { intros k x y Hy Hx Hyu Hxd. assert (Hxn : g_State x <> GROUP_UNSTARTED) by (by rewrite Hxd).
    specialize (Hstarted k y x Hy Hx Hyu Hxn). rewrite Hxd in Hstarted. by destruct (shouldUseCanaries y). }
  split; [done|]. split; [done|]. split; [|split; [done|]; split; [by eapply Hstarted|]; split; [done|]].
  - destruct Hwait as [?|(p0 & t & -> & Hpt & Hle)]; [by left|right].
    destruct i as [|j]; [done|]. by exists j, p0, t.
  - intros j h h' Hij Hj Hj' Hhu. destruct (decide (g_State h' = GROUP_UNSTARTED)) as [|Hhn]; [done|exfalso].
    destruct (decide (j < i)%nat) as [Hlt|Hge]; [eapply (Hnot j h' h); eauto|].
    destruct (pass_start _ _ _ _ _ _ _ _ _ _ Hp Hj Hj' Hhu Hhn) as (_ & Hd' & _).
    eapply (Hnot i g' g); [done..|]. apply (Hd' i); [lia|done].
Qed.

(** A pass keeps the configuration of every group and moves it only along
    unstarted, canary, active, done; a group leaves canary only when it has all
    the canaries it asked for and each of them runs the version, and one that
    is done or rolled back stays so. *)
Theorem groups_move_forward fuel spec startTime groups now :
  Forall canaries_ok groups ->
  Forall2 (fun g g' => same_config g g' /\ moves g g' /\ canaries_ok g' /\
    (g_State g = GROUP_DONE \/ g_State g = GROUP_ROLLEDBACK -> g_State g' = g_State g) /\
    (g_State g = GROUP_CANARY -> g_State g' = GROUP_ACTIVE ->
       (forall c, c ∈ g_Canaries g' -> cn_Success c = true) /\ Z.max 0 (canary_count g) = canaries_len g'))
    groups (progress_haltOnError fuel spec startTime groups now).1.
Proof.
  intros Hok. unfold progress_haltOnError. destruct (reports_or_none fuel now) as [reports|e]; simpl.
  - destruct (progress_groups _ _ _ _ _ _ _ _ _ groups) as [groups' r] eqn:E. simpl.
    apply progress_groups_pass, pass_moves in E. apply Forall2_same_length_lookup in E as [Hl E].
    apply Forall2_same_length_lookup. split; [done|]. intros i g g' Hg Hg'. destruct (E i g g' Hg Hg') as (Hc & Hm & Hf).
    destruct (Hm (Forall_lookup_1 _ _ _ _ Hok Hg)) as [Hmv Hc'].
    split_and!; try done; destruct Hmv as [Hs _|t Hs _ _|Hs _ _ ? ?|Hs _ _]; try done; intros;
      try congruence; try clash; try (rewrite Hs in *; clash).
  - apply Forall_Forall2_diag. eapply Forall_impl; [exact Hok|]. intros g Hg. split_and!; try done; [by apply stays|].
    intros Hs Hs'. clash.
Qed.
End Passes.

(** In a pass of the time-based strategy every group is looked at on its
    own: it is active exactly in its maintenance window, unless the rollout is
    younger than the window, done after it, and a rolled back group stays. *)
Theorem windows_are_independent `{UnicodeTables} `{SemVer} `{RolloutClient} fuel spec startTime groups now reports :
  reports_or_none fuel now = Ok reports -> Forall timed_known groups ->
  Forall2 (fun g g' => same_config g g' /\ g_State g' = timed_state (AsTime startTime) (window_duration spec) now g)
    groups (progress_timeBased fuel spec startTime groups now).1.
Proof. intros Hr Hk. unfold progress_timeBased. rewrite Hr. by apply progress_windows_timed. Qed.

(** ** The specification *)

(** The modes, the strictest first. *)
Definition agent_modes : list string := [AgentsUpdateModeDisabled; AgentsUpdateModeSuspended; AgentsUpdateModeEnabled].

Lemma mode_code m :
  (exists i, (i < 3)%nat /\ agent_modes !! i = Some m /\ agentModeCode !! m = Some (Z.of_nat i + 1)) \/
  (agentModeCode !! m = None /\ forall i, agent_modes !! i <> Some m).
Proof.
  destruct (decide (m = AgentsUpdateModeDisabled)) as [->|H1]; [left; exists 0%nat; split; [lia|done]|].
  destruct (decide (m = AgentsUpdateModeSuspended)) as [->|H2]; [left; exists 1%nat; split; [lia|done]|].
  destruct (decide (m = AgentsUpdateModeEnabled)) as [->|H3]; [left; exists 2%nat; split; [lia|done]|].
  right. split; [|intros [|[|[|i]]] [= E]; [by apply H1; rewrite <- E|by apply H2; rewrite <- E|by apply H3; rewrite <- E]].
  unfold agentModeCode. rewrite !list_to_map_cons, !lookup_insert_ne by congruence. apply lookup_empty.
Qed.

Lemma mode_index i j m : agent_modes !! i = Some m -> agent_modes !! j = Some m -> i = j.
Proof. apply NoDup_lookup. unfold agent_modes. repeat (constructor; [set_solver|]). constructor. Qed.

Lemma stricter_code i j : (i < 3)%nat -> (j < 3)%nat -> exists mode, agent_modes !! (i `min` j)%nat = Some mode /\
  (if Z.of_nat i + 1 <=? Z.of_nat j + 1 then Ok (default "" (codeToAgentMode !! (Z.of_nat i + 1)))
   else Ok (default "" (codeToAgentMode !! (Z.of_nat j + 1)))) = Ok mode.
Proof. intros Hi Hj. destruct i as [|[|[|i]]], j as [|[|[|j]]]; try lia; by eexists. Qed.

(** The mode of a rollout is the strictest of the configured one, enabled
    if there is none, and the one of the version; the rest of the specification
    is copied, and there is none without a known mode of both. *)
Theorem rollout_mode_is_strictest config version spec :
  buildRolloutSpec config version = Ok spec <->
  exists i j mode,
    agent_modes !! i = Some (if decide (ca_Mode config = "") then AgentsUpdateModeEnabled else ca_Mode config) /\
    agent_modes !! j = Some (va_Mode version) /\ agent_modes !! (i `min` j)%nat = Some mode /\
    spec = {| sp_StartVersion := va_StartVersion version; sp_TargetVersion := va_TargetVersion version;
              sp_Schedule := va_Schedule version; sp_AutoupdateMode := mode;
              sp_Strategy := if decide (ca_Strategy config = "") then AgentsStrategyHaltOnError else ca_Strategy config;
              sp_MaintenanceWindowDuration := ca_MaintenanceWindowDuration config |}.
Proof.
  unfold buildRolloutSpec, getMode. set (strategy := if bool_decide (ca_Strategy config = "") then _ else _).
  replace (if decide (ca_Strategy config = "") then AgentsStrategyHaltOnError else ca_Strategy config) with strategy
    by (unfold strategy; by case_bool_decide; case_decide).
  set (cm := if bool_decide (ca_Mode config = "") then _ else _).
  replace (if decide (ca_Mode config = "") then AgentsUpdateModeEnabled else ca_Mode config) with cm
    by (unfold cm; by case_bool_decide; case_decide).
  case_bool_decide as Hv.
  { split; [done|]. intros (i & j & mode & _ & Hj & _). rewrite Hv in Hj. by destruct j as [|[|[|j]]]. }
  destruct (mode_code cm) as [(i & Hi & Ei & ->)|[-> Hno]].
  2:{ split; [done|]. intros (i & j & mode & Hi & _). by apply Hno in Hi. }
  destruct (mode_code (va_Mode version)) as [(j & Hj & Ej & ->)|[-> Hno]].
  2:{ split; [done|]. intros (i' & j & mode & _ & Hj & _). by apply Hno in Hj. }
  destruct (stricter_code i j Hi Hj) as (mode & Em & ->). simpl. split.
  - intros [= <-]. by exists i, j, mode.
  - intros (i' & j' & mode' & Hi' & Hj' & Hm & ->).
    rewrite (mode_index _ _ _ Hi' Ei), (mode_index _ _ _ Hj' Ej) in Hm. congruence.
Qed.

(** ** Many servers *)

(** C6: Whatever other servers write meanwhile, a reconciliation or a manual
    transition that succeeds is one change of the rollout it replaces, made of
    that very rollout, and one that fails has written nothing. *)
Theorem changes_are_atomic {W : Type} `{RolloutStore W} `{UnicodeTables} `{SemVer} `{RolloutClient} `{MapOrder unit}
    stored others `{!RolloutStoreLaws W stored others} fuel authorized groups allStarted desiredState w w' :
  (forall r, reconcile fuel w = (w', r) ->
     match r with Ok _ => reconciled stored others fuel w w' | Err _ => others w w' end) /\
  (forall r, TriggerAutoUpdateAgentGroup authorized fuel groups desiredState w = (w', r) ->
     match r with
     | Ok r => authorized = Ok tt /\ changed stored others (fun r0 n => exists now reports, getAllReports fuel = Ok reports /\
         TriggerGroups (Some r0) reports (GroupListToGroupSet groups) desiredState now = Ok n) w w' r
     | Err _ => others w w'
     end) /\
  (forall r, ForceAutoUpdateAgentGroup authorized groups w = (w', r) ->
     match r with
     | Ok r => authorized = Ok tt /\ changed stored others (fun r0 n => exists now,
         ForceGroupsDone (Some r0) (GroupListToGroupSet groups) now = Ok n) w w' r
     | Err _ => others w w'
     end) /\
  (forall r, RollbackAutoUpdateAgentGroup authorized groups allStarted w = (w', r) ->
     match r with
     | Ok r => authorized = Ok tt /\ changed stored others (fun r0 n => exists now set,
         RollbackGroups (Some r0) set now = Ok n /\
         set = (if allStarted then GetStartedGroups r0 else ∅) ∪ GroupListToGroupSet groups /\ set <> ∅) w w' r
     | Err _ => others w w'
     end).
Proof.
  split_and!; intros r.
  - apply reconcile_tries_step, _.
  - apply trigger_step, _.
  - apply force_step, _.
  - apply rollback_step, _.
Qed.

(** C25: In every rollout that reconciliations and manual transitions can have
    left, by any number of servers in any order, the names of the groups are
    unique, and no group has more canaries than it asked for or one twice. *)
Theorem stored_rollouts_are_consistent {W : Type} `{RolloutStore W} `{UnicodeTables} `{SemVer} `{RolloutClient}
    `{MapOrderLaws unit} r :
  rtc rollout_change None (Some r) -> rollout_ok r.
Proof.
  intros Hr. cut (forall o, rtc rollout_change None o -> forall r, o = Some r -> rollout_ok r); [eauto|].
  apply (rtc_ind_r (fun o => forall r, o = Some r -> rollout_ok r)); [done|].
  intros o o' _ Hc IH. by eapply rollout_change_ok.
Qed.

(** C33: With no other server, a reconciliation that computes a specification
    and a status leaves exactly them, and without a version for agents it leaves
    no rollout. *)
Theorem quiet_reconciliation_converges `{UnicodeTables} `{SemVer} `{RolloutClient} fuel c :
  cl_others c = [] ->
  (version_agents (cl_version c) = None -> exists c', reconcile fuel c = (c', Ok tt) /\ cl_stored c' = None) /\
  (forall v spec status c1, version_agents (cl_version c) = Some v ->
     buildRolloutSpec (config_agents (cl_config c)) v = Ok spec ->
     computeStatus fuel (cl_stored c) spec (ca_Schedules (config_agents (cl_config c))) c = (c1, Ok status) ->
     (forall r, cl_stored c = Some r -> ValidateAutoUpdateAgentRollout (Some (changed_rollout r spec status)) = Ok tt) ->
     (cl_stored c = None -> exists r, new_rollout spec status = Ok r /\ ValidateAutoUpdateAgentRollout (Some r) = Ok tt) ->
     exists c' r, reconcile fuel c = (c', Ok tt) /\ cl_stored c' = Some r /\ ro_Spec r = Some spec /\ ro_Status r = Some status /\
       status_of fuel (cl_stored c) spec (ca_Schedules (config_agents (cl_config c))) status).
Proof.
  intros Hq. unfold reconcile, maxConflictRetry. cbn [reconcile_tries]. split.
  - intros Hv. destruct (quiet_try_absent fuel c Hq Hv) as (c' & E & Hs). exists c'. split; [|done].
    change (ContextErr c) with (@None error). by rewrite E.
  - intros v spec status c1 Hv Hb Hc Hvu Hvc.
    destruct (quiet_try_present fuel c v spec status c1 Hq Hv Hb Hc Hvu Hvc) as (c' & r & E & Hs & Hsp & Hst).
    exists c', r. change (ContextErr c) with (@None error). rewrite E.
    split_and!; try done. by eapply computeStatus_ok.
Qed.

(** ** Manual transitions *)

(** C24: A rollback changes exactly the named groups, if all of them are there
    and none is rolled back yet; after it, whatever passes of the halt-on-error
    strategy follow, they stay rolled back and no group behind one starts. *)
Theorem rolled_back_groups_hold `{UnicodeTables} `{SemVer} `{RolloutClient} `{MapOrderLaws unit} r r' set now :
  unique_names (GetGroups r) ->
  (RollbackGroups (Some r) set now = Ok r' <-> manual r /\ all_named set r /\ changes (rolls_back now) set r r') /\
  (RollbackGroups (Some r) set now = Ok r' -> forall groups i b, rtc halting_pass (GetGroups r') groups ->
     GetGroups r' !! i = Some b -> g_Name b ∈ dom set ->
     (exists b', groups !! i = Some b' /\ g_State b' = GROUP_ROLLEDBACK) /\
     (forall j g g', (i < j)%nat -> GetGroups r' !! j = Some g -> groups !! j = Some g' ->
        g_State g = GROUP_UNSTARTED -> g_State g' = GROUP_UNSTARTED)).
Proof.
  intros Hu. split; [by apply rollback_spec|]. intros Hr groups i b Hp Hb Hn.
  apply rollback_spec in Hr as ([_ _ Hg] & _ & (groups' & -> & Hch)); [|done].
  assert (Hgr : GetGroups (set_groups groups' r) = groups').
  { unfold GetGroups, set_groups in *. simpl. by destruct (ro_Status r). }
  rewrite Hgr in *. assert (Hbs : g_State b = GROUP_ROLLEDBACK).
  { destruct (Forall2_lookup_r _ _ _ _ _ Hch Hb) as (g & Hgi & Hx). case_decide as Hd; [by destruct Hx as [_ ->]|].
    subst b. done. }
  apply held_passes in Hp as (Hl & Hk & Hh). split; [|by eauto].
  destruct (lookup_lt_is_Some_2 groups i) as [b' Hb']; [rewrite <- Hl; by eapply lookup_lt_Some|].
  exists b'. split; [done|]. by apply (Hk i b b').
Qed.

(** ** The schedule estimate *)

(** C32: The estimate for a schedule is the duration of the shortest one: some
    schedule takes that long and none takes less.  This holds for schedules
    where no group waits less than a day for one at its own hour, and the hours
    of which, with the wait of any group on top, stay within 32 bits; beyond
    that, which the validation of a configuration does not exclude, the sums
    of the code overflow ([estimate_overflows]). *)
Theorem estimate_is_the_shortest_schedule first groups :
  hours_ok first -> Forall hours_ok groups -> no_same_hour_wait (ag_StartHour first) groups = true ->
  (forall group, group ∈ groups -> earliest_schedule first groups + ag_WaitHours group + 100 < 2 ^ 31) ->
  (exists e, schedule (ag_StartHour first) groups e /\ computeMinRolloutTime (first :: groups) = e + 1 - ag_StartHour first) /\
  (forall e, schedule (ag_StartHour first) groups e -> computeMinRolloutTime (first :: groups) <= e + 1 - ag_StartHour first).
Proof.
  intros [Hf _] Hok Hn Hbig.
  assert (E : computeMinRolloutTime (first :: groups) = earliest_schedule first groups + 1 - ag_StartHour first).
  { unfold computeMinRolloutTime. rewrite (int32_small (_ + 1)) by lia.
    rewrite add_group_times; [|lia|done|by rewrite Z.mod_small by lia|done].
    pose proof (earliest_fold_grows groups (ag_StartHour first)) as Hg.
    apply int32_small. fold (earliest_schedule first groups) in *.
    destruct groups as [|g groups]; [unfold earliest_schedule; simpl; lia|].
    specialize (Hbig g ltac:(set_solver)). apply Forall_cons in Hok as [[_ Hw] _]. lia. }
  rewrite E. split.
  - exists (earliest_schedule first groups). split; [apply earliest_is_schedule|done].
  - intros e He. pose proof (earliest_is_least _ (ag_StartHour first) _ _ He ltac:(lia)). unfold earliest_schedule. lia.
Qed.

(** ** Witnesses *)

Lemma groups_start_in_order_witness : exists g', monday_pass.1 !! 1%nat = Some g' /\ g_State g' = GROUP_CANARY /\
  forall j h, (j < 1)%nat -> monday_pass.1 !! j = Some h -> g_State h = GROUP_DONE.
Proof.
  assert (E : monday_pass = (monday_pass.1, monday_pass.2)) by apply surjective_pairing.
  eexists. split; [vm_compute; reflexivity|]. split; [reflexivity|].
  eapply (groups_start_in_order 5 demo_rollout_spec (Some monday) monday_groups (at_hour 9 30) _ _ 1 _ _ E monday_groups_ok);
    [reflexivity|vm_compute; reflexivity|reflexivity|done].
Defined.

Lemma groups_move_forward_witness : exists g', monday_pass.1 !! 1%nat = Some g' /\
  moves (demo_group "prod" GROUP_UNSTARTED None 0 2) g' /\ canaries_ok g'.
Proof.
  destruct (monday_pass.1 !! 1%nat) as [g'|] eqn:E; [|vm_compute in E; discriminate E].
  exists g'. split; [reflexivity|].
  pose proof (groups_move_forward 5 demo_rollout_spec (Some monday) monday_groups (at_hour 9 30) monday_groups_ok) as H.
  destruct (Forall2_lookup_lr _ _ _ 1 (demo_group "prod" GROUP_UNSTARTED None 0 2) g' H eq_refl E) as (_ & Hm & Hc & _).
  exact (conj Hm Hc).
Defined.

Lemma windows_are_independent_witness :
  (progress_timeBased 5 demo_rollout_spec (Some monday) monday_groups (at_hour 9 30)).1 !! 0%nat <> None /\
  Forall2 (fun g g' => same_config g g' /\ g_State g' = timed_state monday Hour (at_hour 9 30) g) monday_groups
    (progress_timeBased 5 demo_rollout_spec (Some monday) monday_groups (at_hour 9 30)).1.
Proof.
  split; [vm_compute; discriminate|].
  apply (windows_are_independent 5 demo_rollout_spec (Some monday) monday_groups (at_hour 9 30) [agents_report 10 10]);
    [vm_compute; reflexivity|]. repeat constructor; unfold timed_known; apply (bool_decide_unpack _); vm_compute; exact I.
Defined.

Lemma changes_are_atomic_witness :
  (reconcile 5 busy_cluster).2 = Ok tt /\ reconciled cl_stored cl_other 5 busy_cluster (reconcile 5 busy_cluster).1.
Proof.
  assert (E : reconcile 5 busy_cluster = ((reconcile 5 busy_cluster).1, Ok tt)) by (vm_compute; reflexivity).
  split; [vm_compute; reflexivity|].
  exact (proj1 (changes_are_atomic cl_stored cl_other 5 (Ok tt) [] false 0 busy_cluster _) _ E).
Defined.

Lemma created_change : exists r, cl_stored demo_created = Some r /\ rollout_change None (Some r).
Proof.
  eexists. split; [vm_compute; reflexivity|]. eapply (change_create 5); [|vm_compute; reflexivity].
  do 2 eexists. exists demo_agents_config, (demo_version_agents "2.0.0").
  split; [|split; reflexivity]. split; [vm_compute; reflexivity|].
  exists (demo_cluster (at_hour 8 0) []), (demo_cluster (at_hour 8 0) []). vm_compute. reflexivity.
Qed.

Lemma stored_rollouts_are_consistent_witness : exists r, cl_stored demo_created = Some r /\ rollout_ok r.
Proof.
  destruct created_change as (r & Hs & Hc). exists r. split; [exact Hs|].
  apply stored_rollouts_are_consistent. apply rtc_once. exact Hc.
Defined.

Lemma quiet_reconciliation_converges_witness : exists c' r, reconcile 5 quiet_cluster = (c', Ok tt) /\
  cl_stored c' = Some r /\ ro_Spec r = Some demo_rollout_spec.
Proof.
  destruct (quiet_reconciliation_converges 5 quiet_cluster eq_refl) as [_ H].
  edestruct (H (demo_version_agents "2.0.0") demo_rollout_spec) as (c' & r & Hr & Hs & Hsp & _);
    [reflexivity|vm_compute; reflexivity|vm_compute; reflexivity| | |].
  - intros r Hr. vm_compute in Hr. injection Hr as <-. vm_compute. reflexivity.
  - intros Hr. vm_compute in Hr. discriminate Hr.
  - exists c', r. split; [exact Hr|]. split; [exact Hs|exact Hsp].
Defined.

Lemma rolled_back_groups_hold_witness :
  RollbackGroups (Some (demo_rollout monday_groups)) (GroupListToGroupSet ["dev"]) (at_hour 9 0) = Ok rolled_back /\
  forall groups, rtc halting_pass (GetGroups rolled_back) groups ->
    exists b', groups !! 0%nat = Some b' /\ g_State b' = GROUP_ROLLEDBACK.
Proof.
  assert (E : RollbackGroups (Some (demo_rollout monday_groups)) (GroupListToGroupSet ["dev"]) (at_hour 9 0) = Ok rolled_back)
    by (vm_compute; reflexivity).
  split; [exact E|]. intros groups Hp.
  destruct (GetGroups rolled_back !! 0%nat) as [b|] eqn:Hb; [|vm_compute in Hb; discriminate Hb].
  destruct (rolled_back_groups_hold (demo_rollout monday_groups) rolled_back (GroupListToGroupSet ["dev"]) (at_hour 9 0) monday_names) as [_ H].
  apply (H E groups 0%nat b Hp Hb). vm_compute in Hb. injection Hb as <-. apply elem_of_dom. eexists. vm_compute. reflexivity.
Defined.

Lemma estimate_is_the_shortest_schedule_witness :
  computeMinRolloutTime [hour_group 9 0; hour_group 8 2] = 24 /\
  forall e, schedule 9 [hour_group 8 2] e -> 24 <= e + 1 - 9.
Proof.
  split; [vm_compute; reflexivity|].
  apply (estimate_is_the_shortest_schedule (hour_group 9 0) [hour_group 8 2]).
  - split; simpl; lia.
  - constructor; [split; simpl; lia|constructor].
  - reflexivity.
  - intros group ->%list_elem_of_singleton. vm_compute. reflexivity.
Defined.
