(* ===== verification/AccessRequestClaims.v ===== *)
(** * Access requests: the properties

    What a review counts for, who may write one, when a request is settled,
    and what the service promises of its writes and lists; with a cluster of
    three reviewers on the memory backend. *)

From stdpp Require Import pretty.
From S2P Require Import Prelude GoStrings Types Key Backend BTree MinHeap Memory MemoryFacts MemoryRefinement MemoryBackend.
From S2P Require Import Regexp Scenario Service Roles AccessScenario Checker AccessRequest AccessReview ReviewFacts DynamicAccess.
From S2P Require Import RequestStore CheckAccess RoleAccess Autoupdate RequestValidator ValidatorFacts.
#[local] Open Scope Z_scope.

(** ** A cluster with three reviewers

    Two of them review everything but the database of the third; the filter of
    a threshold is the name of a role the reviewer has.  The codec knows the
    requests of the scenario, a revision is the number of a write. *)

#[export] Instance PromotedAccessList_eq_dec : EqDecision PromotedAccessList.
Proof. solve_decision. Defined.
#[export] Instance AccessReview_eq_dec : EqDecision AccessReview.
Proof. solve_decision. Defined.
#[export] Instance DryRunEnrichment_eq_dec : EqDecision DryRunEnrichment.
Proof. solve_decision. Defined.
#[export] Instance Metadata_eq_dec : EqDecision Metadata.
Proof. solve_decision. Defined.
#[export] Instance ConstraintDetails_eq_dec : EqDecision ConstraintDetails.
Proof. solve_decision. Defined.
#[export] Instance ResourceConstraints_eq_dec : EqDecision ResourceConstraints.
Proof. solve_decision. Defined.
#[export] Instance ResourceID_eq_dec' : EqDecision ResourceID.
Proof. solve_decision. Defined.
#[export] Instance ResourceAccessID_eq_dec : EqDecision ResourceAccessID.
Proof. solve_decision. Defined.
#[export] Instance AccessRequestSpecV3_eq_dec : EqDecision AccessRequestSpecV3.
Proof. solve_decision. Defined.
#[export] Instance AccessRequestV3_eq_dec : EqDecision AccessRequestV3.
Proof. solve_decision. Defined.

#[export] Instance demo_uuids : UUIDs := fun s => len s =? 36.
#[export] Instance no_calls : MatcherCalls := fun _ => Err (BadParameter "failed to parse" []).
#[export] Instance role_predicates : ReviewPredicates := {|
  parseReviewPermissionExpression := fun expr => Ok (fun ctx => Ok (slices_Contains (rac_roles (rp_reviewer ctx)) expr));
  parseThresholdFilterExpression := fun expr => Ok (fun ctx => Ok (slices_Contains (rac_roles (tf_reviewer ctx)) expr)) |}.
#[export] Instance numbered_revisions : Revisions := fun n => "revision-" +:+ pretty n.

#[export] Instance numbered_unique : UniqueRevisions.
Proof. split; [|done]. intros n m E. by apply (inj (String.append _)), (inj pretty) in E. Qed.

(** *** Users and roles *)

Definition reviews_of (roles : list string) (where_ : string) : AccessReviewConditions :=
  {| avc_Roles := roles; avc_ClaimsToRoles := []; avc_Where := where_; avc_PreviewAsRoles := []; avc_SubmitForUsers := [] |}.

Definition reviewing (conds : AccessReviewConditions) : RoleConditions := {|
  rc_Logins := []; rc_Namespaces := []; rc_NodeLabels := ∅; rc_Rules := []; rc_KubeGroups := [];
  rc_KubeUsers := []; rc_AppLabels := ∅; rc_ClusterLabels := ∅; rc_KubernetesLabels := ∅;
  rc_DatabaseLabels := ∅; rc_DatabaseNames := []; rc_DatabaseUsers := []; rc_Impersonate := None;
  rc_AWSRoleARNs := []; rc_WindowsDesktopLogins := []; rc_WindowsDesktopLabels := ∅;
  rc_RequireSessionJoin := []; rc_JoinSessions := []; rc_HostGroups := []; rc_HostSudoers := [];
  rc_AzureIdentities := []; rc_GCPServiceAccounts := []; rc_DatabaseServiceLabels := ∅;
  rc_GroupLabels := ∅; rc_DesktopGroups := []; rc_DatabaseRoles := []; rc_NodeLabelsExpression := "";
  rc_AppLabelsExpression := ""; rc_ClusterLabelsExpression := ""; rc_KubernetesLabelsExpression := "";
  rc_DatabaseLabelsExpression := ""; rc_DatabaseServiceLabelsExpression := "";
  rc_WindowsDesktopLabelsExpression := ""; rc_GroupLabelsExpression := ""; rc_SPIFFE := [];
  rc_AccountAssignments := []; rc_GitHubPermissions := []; rc_WorkloadIdentityLabels := ∅;
  rc_WorkloadIdentityLabelsExpression := ""; rc_MCP := None; rc_LinuxDesktopLogins := [];
  rc_LinuxDesktopLabels := ∅; rc_LinuxDesktopLabelsExpression := ""; rc_BeamLabels := ∅;
  rc_BeamLabelsExpression := ""; rc_KubernetesResources := []; rc_Request := None; rc_ReviewRequests := Some conds |}.

Definition review_role (name : string) (allow deny : AccessReviewConditions) : RoleV6 :=
  role name (options RequireMFAType_OFF 3600 HOST_USER_MODE_OFF) (reviewing allow) (reviewing deny).

Definition get_role (name : string) : result RoleV6 :=
  if bool_decide (name = "reviewer") then Ok (review_role name (reviews_of ["prod-*"; "db"] "") (reviews_of [] ""))
  else if bool_decide (name = "security") then Ok (review_role name (reviews_of ["*"] "security") (reviews_of ["root"] ""))
  else Err (NotFound "role %v is not found" [name]).

Definition get_user (name : string) : result (UserState * bool) :=
  if bool_decide (name = "bob") then Ok ({| us_Name := name; us_Roles := ["reviewer"]; us_Traits := ∅ |}, false)
  else if bool_decide (name = "carol") then Ok ({| us_Name := name; us_Roles := ["security"; "reviewer"]; us_Traits := ∅ |}, false)
  else if bool_decide (name = "alice") then Ok ({| us_Name := name; us_Roles := ["reviewer"]; us_Traits := ∅ |}, false)
  else Err (NotFound "user %q not found" [name]).

Definition checker_of (name : string) : ReviewPermissionChecker :=
  match NewReviewPermissionChecker get_user get_role name None with
  | Ok c => c
  | Err _ => {| rpc_UserState := {| us_Name := ""; us_Roles := []; us_Traits := ∅ |}; AllowReview := ∅; DenyReview := ∅ |}
  end.

(** *** A request *)

Definition threshold (name filter : string) (approve deny : Z) : AccessReviewThreshold :=
  {| th_Name := name; th_Filter := filter; th_Approve := approve; th_Deny := deny |}.

(** Production needs two reviewers and one of security, the database either. *)
Definition request_thresholds : list AccessReviewThreshold := [threshold "two" "" 2 1; threshold "security" "security" 1 1].
Definition request_mapping : gmap string ThresholdIndexSets := {["prod-web" := [[0]; [1]]; "db" := [[0; 1]]]}.

Definition name_of (n : string) : string := "5a1f0f6e-7d7b-4b9e-9f0e-00000000000" +:+ n.

Definition request (n user : string) (roles : list string) (state : RequestState) : AccessRequestV3 := {|
  ar_Kind := ""; ar_SubKind := ""; ar_Version := "";
  ar_Metadata := {| md_Name := name_of n; md_Namespace := ""; md_Description := ""; md_Labels := ∅; md_Expires := None; md_Revision := "" |};
  ar_Spec := {|
    ars_User := user; ars_Roles := roles; ars_State := state; ars_Created := zero_time; ars_Expires := 7200 * Second;
    ars_RequestReason := "deploy"; ars_ResolveReason := ""; ars_ResolveAnnotations := ∅; ars_SystemAnnotations := ∅;
    ars_Thresholds := request_thresholds; ars_RoleThresholdMapping := request_mapping; ars_Reviews := [];
    ars_SuggestedReviewers := []; ars_RequestedResourceIDs := []; ars_LoginHint := ""; ars_DryRun := false;
    ars_MaxDuration := zero_time; ars_SessionTTL := zero_time; ars_AccessList := None; ars_AssumeStartTime := None;
    ars_ResourceExpiry := None; ars_DryRunEnrichment := None; ars_RequestKind := 1; ars_LongTermGrouping := false;
    ars_RequestedResourceAccessIDs := [] |} |}.

Definition review_by (author : string) (state : RequestState) : AccessReview :=
  {| rev_Author := author; rev_Roles := []; rev_ProposedState := state; rev_Reason := "looks right"; rev_Created := zero_time;
     rev_Annotations := ∅; rev_ThresholdIndexes := []; rev_AccessList := None; rev_AssumeStartTime := None; rev_SubmittedBy := author |}.

Definition valid (r : AccessRequestV3) : AccessRequestV3 := match ValidateAccessRequest r with Ok r => r | Err _ => r end.

(** As it is created, and after the reviews of some users. *)
Definition start_time : time := 3600 * Second.
Definition asked : AccessRequestV3 := request "1" "alice" ["prod-web"; "db"] RequestState_NONE.
Definition pending : AccessRequestV3 := valid (stamped start_time asked).

Definition after_review (author : string) (state : RequestState) (r : AccessRequestV3) : AccessRequestV3 :=
  fst (ApplyAccessReview start_time (review_by author state) (rpc_UserState (checker_of author)) r).

Definition by_bob : AccessRequestV3 := after_review "bob" RequestState_APPROVED pending.
Definition by_carol : AccessRequestV3 := after_review "carol" RequestState_APPROVED pending.
Definition by_both : AccessRequestV3 := after_review "carol" RequestState_APPROVED by_bob.

Example bob_is_not_enough : GetState by_bob = RequestState_PENDING.
Proof. vm_compute. reflexivity. Qed.
Example both_are : GetState by_both = RequestState_APPROVED.
Proof. vm_compute. reflexivity. Qed.

(** *** The store *)

Definition refused_request : AccessRequestV3 := valid (stamped start_time (request "2" "bob" ["db"] RequestState_DENIED)).
Definition second_pending : AccessRequestV3 := valid (stamped start_time (request "3" "bob" ["db"] RequestState_NONE)).

Definition approval : AccessRequestUpdate :=
  {| upd_RequestID := name_of "1"; upd_State := RequestState_APPROVED; upd_Reason := "break glass"; upd_Annotations := ∅;
     upd_Roles := ["db"]; upd_AssumeStartTime := None |}.
Definition approved_outright : AccessRequestV3 := match update_state approval pending with Ok r => valid r | Err _ => pending end.

(** The documents and what they say. *)
Definition documents : list (string * AccessRequestV3) := [
  ("pending", pending); ("by bob", by_bob); ("by carol", by_carol); ("by both", by_both); ("refused", refused_request);
  ("second", second_pending); ("outright", approved_outright)].

Definition read_document (value : string) : result AccessRequestV3 :=
  match find (fun d => bool_decide (d.1 = value)) documents with
  | Some d => Ok d.2
  | None => Err (BadParameter "unmarshal" [])
  end.

#[export] Instance known_documents : RequestJSON := {|
  FastMarshal := fun r =>
    match find (fun d => match read_document d.1 with Ok r' => bool_decide (r' = r) | Err _ => false end) documents with
    | Some d => Ok d.1
    | None => Err (BadParameter "marshal" [])
    end;
  FastUnmarshal := read_document |}.

#[export] Instance known_documents_laws : RequestJSONLaws.
Proof.
  intros r value. cbn [FastMarshal FastUnmarshal known_documents]. destruct (find _ documents) as [d|] eqn:E; [|done].
  intros [= <-]. apply find_some in E as [_ E]. destruct (read_document d.1); [|done]. by apply bool_decide_eq_true in E as ->.
Qed.

Definition item_of (r : AccessRequestV3) : Item :=
  match itemFromAccessRequest r with Ok (_, i) => i | Err _ => keyItem (accessRequestKey "") end.

Lemma empty_cluster : cluster_state (New start_time false false : Memory (tree ptr)).
Proof. split; [apply New_wf|done]. Qed.

Definition Requests : Type := RequestWorld (T := tree ptr).

Lemma empty_revised : revised_by (New start_time false false : Memory (tree ptr)).
Proof. intros k i. rewrite (proj2 (New_wf start_time false false)). by rewrite lookup_empty. Qed.

Definition empty_requests : RequestStore (T := tree ptr) := exist _ (exist _ _ empty_cluster) empty_revised.

(** A world with some requests, and others that act. *)
Definition world_with (ops : list op) (rw_others : list (list op)) : Requests :=
  {| rw_store := run_ops ops empty_requests; rw_others := rw_others |}.

(** Carol reviews while another server writes Bob's review. *)
Definition carol_review : AccessReviewSubmission :=
  {| sub_RequestID := name_of "1"; sub_Review := review_by "carol" RequestState_APPROVED |}.
Definition contended : Requests := world_with [DoPut (item_of pending)] [[]; [DoPut (item_of by_bob)]].
Definition carol_out : Requests * result AccessRequestV3 :=
  DynamicAccess_ApplyAccessReview carol_review (checker_of "carol") contended.

Example carol_starts_over : rev_Author <$> (match snd carol_out with Ok r => GetReviews r | Err _ => [] end) = ["bob"; "carol"].
Proof. vm_compute. reflexivity. Qed.

(** *** A user who requests roles

    The user may request production by two approvals for two weeks, and the
    database by one; the templates are literal, the kinds of Kubernetes split at
    the first dot, and the validator finds these roles. *)

#[export] Instance literal_templates : TraitsTemplates := fun val => Ok (fun _ _ _ => Ok [val]).
#[export] Instance joined_documents : ResourceDocuments := {|
  marshal_ids := fun ids => Ok (Join ids ","); marshal_access_ids := fun _ => Ok "" |}.
#[export] Instance dotted_kinds : GroupKinds := fun s =>
  let '(kind, group) := cut_pair s (Ascii.ascii_of_nat 46) in {| gk_group := group; gk_kind := kind |}.
#[export] Instance annotations_in_order : AnnotationOrder := map_to_list.
#[export] Instance annotations_in_order_laws : AnnotationOrderLaws.
Proof. by intros m. Qed.

Definition requests_of (roles search : list string) (thresholds : list AccessReviewThreshold) (annotations : traits)
    (longest : duration) : AccessRequestConditions := {|
  arc_Roles := roles; arc_ClaimsToRoles := []; arc_Annotations := annotations; arc_Thresholds := thresholds;
  arc_SuggestedReviewers := []; arc_SearchAsRoles := search; arc_MaxDuration := longest; arc_KubernetesResources := [];
  arc_Reason := None |}.

Definition requesting (labels : Labels) (resources : list KubernetesResource) (conds : AccessRequestConditions) : RoleConditions := {|
  rc_Logins := []; rc_Namespaces := everywhere; rc_NodeLabels := ∅; rc_Rules := []; rc_KubeGroups := [];
  rc_KubeUsers := []; rc_AppLabels := ∅; rc_ClusterLabels := ∅; rc_KubernetesLabels := labels;
  rc_DatabaseLabels := ∅; rc_DatabaseNames := []; rc_DatabaseUsers := []; rc_Impersonate := None;
  rc_AWSRoleARNs := []; rc_WindowsDesktopLogins := []; rc_WindowsDesktopLabels := ∅;
  rc_RequireSessionJoin := []; rc_JoinSessions := []; rc_HostGroups := []; rc_HostSudoers := [];
  rc_AzureIdentities := []; rc_GCPServiceAccounts := []; rc_DatabaseServiceLabels := ∅;
  rc_GroupLabels := ∅; rc_DesktopGroups := []; rc_DatabaseRoles := []; rc_NodeLabelsExpression := "";
  rc_AppLabelsExpression := ""; rc_ClusterLabelsExpression := ""; rc_KubernetesLabelsExpression := "";
  rc_DatabaseLabelsExpression := ""; rc_DatabaseServiceLabelsExpression := "";
  rc_WindowsDesktopLabelsExpression := ""; rc_GroupLabelsExpression := ""; rc_SPIFFE := [];
  rc_AccountAssignments := []; rc_GitHubPermissions := []; rc_WorkloadIdentityLabels := ∅;
  rc_WorkloadIdentityLabelsExpression := ""; rc_MCP := None; rc_LinuxDesktopLogins := [];
  rc_LinuxDesktopLabels := ∅; rc_LinuxDesktopLabelsExpression := ""; rc_BeamLabels := ∅;
  rc_BeamLabelsExpression := ""; rc_KubernetesResources := resources; rc_Request := Some conds; rc_ReviewRequests := None |}.

Definition cluster_role (name : string) (allow deny : RoleConditions) : RoleV6 :=
  role name (options RequireMFAType_OFF (8 * Hour) HOST_USER_MODE_OFF) allow deny.
Definition requester_role (name : string) (allow deny : AccessRequestConditions) : RoleV6 :=
  cluster_role name (requesting ∅ [] allow) (requesting ∅ [] deny).

Definition pod_named (name : string) : KubernetesResource :=
  {| kr_Kind := "pods"; kr_Namespace := "default"; kr_Name := name; kr_Verbs := [Wildcard]; kr_APIGroup := "" |}.

Definition cluster_roles : list RoleV6 := [
  requester_role "developer"
    (requests_of ["prod-*"] ["kube-web"; "no-kube-db"] [threshold "two" "" 2 1] {["team" := ["payments"; "oncall"; "payments"]]} (14 * day))
    (requests_of ["prod-root"] [] [] {["team" := ["oncall"]]} 0);
  requester_role "analyst" (requests_of ["db"] [] [] ∅ 0) no_request_conditions;
  requester_role "prod-web" no_request_conditions no_request_conditions;
  requester_role "prod-root" no_request_conditions no_request_conditions;
  requester_role "db" no_request_conditions no_request_conditions;
  (* one pod of a cluster allowed, the other denied *)
  cluster_role "kube-web" (requesting {[Wildcard := [Wildcard]]} [pod_named "web"] no_request_conditions)
    (requesting ∅ [] no_request_conditions);
  cluster_role "no-kube-db" (requesting {[Wildcard := [Wildcard]]} [] no_request_conditions)
    (requesting ∅ [pod_named "db"] no_request_conditions)].

Definition cluster_get (name : string) : result RoleV6 :=
  match find (fun r => bool_decide (GetName r = name)) cluster_roles with
  | Some r => Ok r
  | None => Err (NotFound "role %v is not found" [name])
  end.

Definition dave : UserState := {| us_Name := "dave"; us_Roles := ["developer"; "analyst"]; us_Traits := ∅ |}.

Definition kube_cluster : AccessCheckable :=
  {| res_Kind := KindKubernetesCluster; res_SubKind := ""; res_Name := "k1"; res_Namespace := "";
     res_Labels := MapLabelGetter ∅; res_IdentityCenter := None; res_IsAWSConsole := None |}.

Definition request_getter : RequestValidatorGetter := {|
  g_GetRole := cluster_get;
  g_GetRoles := Ok cluster_roles;
  g_GetClusterName := Ok "root";
  g_GetUserOrLoginState := fun name => if bool_decide (name = "dave") then Ok dave else Err (NotFound "user %q not found" [name]);
  g_GetResourcesByResourceIDs := fun _ => Ok [kube_cluster];
  g_ApplyTraits := fun _ _ r => Ok r |}.

#[export] Instance cluster_named : NamedRoles request_getter.
Proof.
  split; [|by intros ? ? ? ? [= <-]]. intros name r. unfold g_GetRole, request_getter, cluster_get.
  destruct (find _ cluster_roles) as [r'|] eqn:E; [|done]. intros [= <-]. apply find_some in E as [_ E]. by apply bool_decide_eq_true in E.
Qed.

Definition certificate : RequestIdentity :=
  {| ri_Expires := start_time + 12 * Hour; ri_AllowedResourceAccessIDs := []; ri_DelegationSessionID := "" |}.

Definition by_dave (roles : list string) (state : RequestState) : AccessRequestV3 := request "4" "dave" roles state.
Definition validated (req : AccessRequestV3) : result AccessRequestV3 :=
  ValidateAccessRequestForUser request_getter certificate start_time true req.
Definition dave_request : AccessRequestV3 := match validated (by_dave ["prod-web"] RequestState_NONE) with Ok r => r | Err _ => asked end.
Definition dave_stored : AccessRequestV3 := valid (stamped start_time dave_request).
Definition dave_approved : AccessRequestV3 :=
  after_review "carol" RequestState_APPROVED (after_review "bob" RequestState_APPROVED dave_stored).

(** What a wildcard stands for, and what is refused. *)
Example dave_asks_for_everything : (match validated (by_dave [Wildcard] RequestState_PENDING) with Ok r => GetRoles r | Err _ => [] end) =
  ["prod-web"; "db"].
Proof. vm_compute. reflexivity. Qed.
Example prod_root_is_refused : is_ok (validated (by_dave ["prod-root"] RequestState_NONE)) = false.
Proof. vm_compute. reflexivity. Qed.
Example dave_team : ars_SystemAnnotations (ar_Spec dave_request) !! "team" = Some ["payments"].
Proof. vm_compute. reflexivity. Qed.

(** The database has no duration of its own.  Named last it leaves production
    with the time of a session, named first it gets the two weeks of production. *)
Definition granted_for (roles : list string) : duration :=
  match validated (by_dave roles RequestState_NONE) with Ok r => GetAccessExpiry r - start_time | Err _ => 0 end.

Example the_order_of_roles_counts : granted_for ["prod-web"; "db"] = Hour /\ granted_for ["db"; "prod-web"] = 14 * day.
Proof. vm_compute. done. Qed.

(** *** A request for two pods *)

Definition pod_id (name : string) : ResourceAccessID := {|
  GetResourceID := {| rid_ClusterName := "root"; rid_Kind := "pod"; rid_Name := "k1"; rid_SubResourceName := "default/" +:+ name |};
  GetConstraints := None |}.

(** No role grants the second pod: alone, the role of the first is refused with
    it.  Beside a role that denies the second pod it is not, because a resource
    counts as matched when a role denies it. *)
Example denied_counts_as_matched :
  is_ok (prune_to_necessary request_getter dave [pod_id "web"; pod_id "db"] "" ["kube-web"]) = false /\
  prune_to_necessary request_getter dave [pod_id "web"; pod_id "db"] "" ["kube-web"; "no-kube-db"] = Ok ["kube-web"].
Proof. vm_compute. done. Qed.

(** A resource that needs no label and brings no matcher is granted by the
    implicit role too, which is then requested by name. *)
Definition account_app : AccessCheckable :=
  {| res_Kind := KindApp; res_SubKind := KindIdentityCenterAccount; res_Name := "account"; res_Namespace := "";
     res_Labels := MapLabelGetter ∅; res_IdentityCenter := None; res_IsAWSConsole := Some false |}.
Definition app_id : ResourceAccessID := {|
  GetResourceID := {| rid_ClusterName := "root"; rid_Kind := KindApp; rid_Name := "account"; rid_SubResourceName := "" |};
  GetConstraints := None |}.

Example implicit_role_is_requested :
  match necessary_roles dave [app_id] "" ["prod-web"]
          (NewRoleSet [requester_role "prod-web" no_request_conditions no_request_conditions]) ∅ [account_app] with
  | Ok necessary => (map_to_list necessary).*1
  | Err _ => []
  end = [DefaultImplicitRole; "prod-web"].
Proof. vm_compute. reflexivity. Qed.

(** The role with the fewest logins is the last one that has fewer than the
    first: its count is not kept. *)
Definition with_logins (name : string) (logins : list string) : RoleV6 :=
  cluster_role name (conditions everywhere logins ∅ [] [] [] []) no_denials.
Example not_the_fewest : GetName <$> fewestLogins
  [with_logins "three" ["ann"; "bob"; "root"]; with_logins "one" ["root"]; with_logins "two" ["bob"; "root"]] = ["two"].
Proof. vm_compute. reflexivity. Qed.

(** What an old role grants holds a resource of no kind, for the namespaces. *)
Example legacy_grants_no_kind : (fun r => kr_Kind r) <$> List.filter (fun r => bool_decide (kr_Kind r = "")) legacy_grants = [""].
Proof. vm_compute. reflexivity. Qed.

(** ** The properties *)

Section Reviews.
Context `{RegexpCache} `{MatcherCalls} `{ReviewPredicates} `{MapOrderLaws (list string)} `{MapOrderLaws (list Matcher)}.
Context `{MapOrderLaws ThresholdIndexSets}.

(** C23: Counting the reviews of a request, in whatever order Go walks the map
    of roles, finds the first review after which a denial count is full, every
    role has its approvals or a promotion stands, and resolves to what that
    review proposes if the count bears it out. *)
Theorem reviews_count_as_the_reference (r : AccessRequestV3) : resolvable r -> GetThresholds r <> [] ->
  calculateReviewBasedResolution r =
  Ok (reference_resolution (GetThresholds r) (GetRoleThresholdMapping r) (GetReviews r)).
Proof. apply resolution_is_reference. Qed.

(** C10: A request that reviews approved has, for every role and every set of
    thresholds of it, a threshold with as many approvals as it asks for, by
    that many users who are not the requester and pass its filter; and one
    that reviews denied has a threshold with as many denials. *)
Theorem verdicts_are_vouched_for (r0 r : AccessRequestV3) : reviewable r0 -> reviewed r0 r ->
  Z.of_nat (length (GetReviews r)) < 2 ^ 32 ->
  (GetState r = RequestState_APPROVED -> forall role sets tset, GetRoleThresholdMapping r0 !! role = Some sets -> tset ∈ sets ->
     exists tid t, tid ∈ tset /\ GetThresholds r0 !! Z.to_nat tid = Some t /\ 1 <= th_Approve t /\
       vouched r IsApproved t (th_Approve t)) /\
  (GetState r = RequestState_DENIED ->
     exists (i : nat) t, GetThresholds r0 !! i = Some t /\ 1 <= th_Deny t /\ vouched r IsDenied t (th_Deny t)).
Proof.
  intros Hf Hr Hl. pose proof (reviewed_sound _ _ Hf Hr Hl) as Hs.
  destruct (reviewed_keeps _ _ Hr) as (_ & _ & <- & <- & _). split; intros Hst.
  - intros role sets tset Hrole Hin. by eapply approved_vouched.
  - destruct (decided_prefix r Hs) as (p & more & rev & E & _ & Ep & Hb); [by rewrite Hst|].
    unfold borne_out in Hb. rewrite <- Ep, Hst in Hb. by eapply denial_vouched.
Qed.

(** C22: A request whose roles have thresholds is settled by the first review
    that fills a count or promotes it, and takes no review after that; until
    then it stays pending. *)
Theorem requests_settle_at_once (r0 r : AccessRequestV3) : reviewable r0 ->
  approved_at (GetThresholds r0) (GetRoleThresholdMapping r0) [] = false -> reviewed r0 r ->
  Z.of_nat (length (GetReviews r)) < 2 ^ 32 ->
  (forall before after, GetReviews r = (before ++ after)%list -> after <> [] ->
     settles (GetThresholds r0) (GetRoleThresholdMapping r0) before = false) /\
  (GetState r = RequestState_PENDING <-> settles (GetThresholds r0) (GetRoleThresholdMapping r0) (GetReviews r) = false) /\
  (settles (GetThresholds r0) (GetRoleThresholdMapping r0) (GetReviews r) = true <-> IsResolved (GetState r) = true).
Proof.
  intros Hf H0' Hr Hl. destruct (reviewed_settled _ _ Hf H0' Hr Hl) as [Hp Hs]. rewrite Hs. split; [done|]. split; [|done].
  pose proof (reviewed_sound _ _ Hf Hr Hl) as Hso. split; [by intros ->|]. intros Hn.
  destruct (decide (GetState r = RequestState_PENDING)) as [|Hd]; [done|].
  destruct (decided_prefix r Hso Hd) as (p & more & rev & E & Hlast & Ep & _). exfalso.
  pose proof (so_reviews _ Hso) as Hfr. rewrite Forall_forall in Hfr.
  destruct (Hfr rev) as (_ & _ & Hres & _); [|congruence]. rewrite E, elem_of_app. left. by apply last_Some_elem_of.
Qed.

(** C17: The checker that is made for a user lets through exactly the requests
    of others in which every role is matched by a review directive of one of
    the user's roles, under a predicate that holds, and none by a denial; and
    it has an answer whenever the predicates do. *)
Theorem review_permission_is_exact getUser getRole username ident c (r : AccessRequestV3) :
  NewReviewPermissionChecker getUser getRole username ident = Ok c ->
  (forall b, CanReviewRequest c r = Ok b -> (b = true <-> user_may_review getRole (rpc_UserState c) r)) /\
  (evaluable (permission_context c r) (map_to_list (DenyReview c)) ->
   evaluable (permission_context c r) (map_to_list (AllowReview c)) -> exists b, CanReviewRequest c r = Ok b).
Proof.
  intros Hc. split; [|apply CanReview_total]. intros b Hb. rewrite (CanReview_ok _ _ _ Hb). by eapply new_checker_may_review.
Qed.
End Reviews.

Section Service.
Context {W : Type} `{Laws : RequestBackendLaws W stored others} `{Json : RequestJSONLaws} `{UUIDs}.
Context `{RegexpCache} `{MatcherCalls} `{ReviewPredicates} `{MapOrder (list string)} `{MapOrder (list Matcher)} `{MapOrder string}.
Context `{MapOrderLaws ThresholdIndexSets}.

(** C11: A review that succeeds was applied in one step, whatever other servers
    write meanwhile: to the request that is in the store at that moment, which
    the checker let through and which took the review, and what is stored then
    reads back as the request that is returned; a review that fails writes
    nothing. *)
Theorem review_is_atomic (params : AccessReviewSubmission) checker (w w' : W) r :
  DynamicAccess_ApplyAccessReview params checker w = (w', r) ->
  match r with
  | Err _ => others w w'
  | Ok req' => exists w0 w1 item req req1,
      others w w0 /\ others w0 w1 /\
      stored w0 (k_s (accessRequestKey (sub_RequestID params))) = Some item /\ itemToAccessRequest item = Ok req /\
      CanReviewRequest checker req = Ok true /\
      ApplyAccessReview (rb_Now w0) (sub_Review params) (rpc_UserState checker) req = (req1, Ok tt) /\
      ValidateAccessRequest req1 = Ok req' /\
      (request_GetName req = sub_RequestID params ->
       stored w1 (k_s (accessRequestKey (sub_RequestID params))) = Some item /\
       (exists item', stored w' (k_s (accessRequestKey (sub_RequestID params))) = Some item' /\
          itemToAccessRequest item' = Ok (SetRevision (i_Revision item') req')) /\
       forall k, k <> k_s (accessRequestKey (sub_RequestID params)) -> stored w' k = stored w1 k)
  end.
Proof.
  unfold DynamicAccess_ApplyAccessReview, mthen at 1, mlift at 1. destruct (submission_Check params); [|by intros [= <- <-]].
  intros E. apply cmp_attempts_spec in E; [|apply review_plain]. destruct r as [req'|e]; [|done].
  destruct E as (w0 & w1 & item & item' & req & req1 & Ho & Ho' & Hst & Hd & Hc & Hv & Hw).
  unfold mthen, mget, mlift in Hc. injection Hc as [Hcan Happ]%review_request_ok.
  exists w0, w1, item, req, req1. split_and!; try done. intros Hn. destruct (Hw Hn) as (? & ? & ? & ?). eauto.
Qed.

(** C28: An update of the state that succeeds is as atomic, and only a request
    that is not resolved takes one: it gets the state, and at most the roles it
    asked for, and keeps its user, its reviews and the expiry of its access. *)
Theorem state_update_is_atomic_and_final (params : AccessRequestUpdate) (w w' : W) r :
  SetAccessRequestState params w = (w', r) ->
  match r with
  | Err _ => others w w'
  | Ok req' => exists w0 w1 item req,
      others w w0 /\ others w0 w1 /\
      stored w0 (k_s (accessRequestKey (upd_RequestID params))) = Some item /\ itemToAccessRequest item = Ok req /\
      IsResolved (GetState req) = false /\ IsNone (upd_State params) = false /\
      (exists req1, update_state params req = Ok req1 /\ ValidateAccessRequest req1 = Ok req' /\ GetState req1 = upd_State params /\
         GetUser req1 = GetUser req /\ GetReviews req1 = GetReviews req /\ GetAccessExpiry req1 = GetAccessExpiry req /\
         (forall role, role ∈ GetRoles req1 -> role ∈ GetRoles req) /\
         (IsApproved (upd_State params) = true -> Expiry req1 = GetAccessExpiry req)) /\
      (request_GetName req = upd_RequestID params ->
       stored w1 (k_s (accessRequestKey (upd_RequestID params))) = Some item /\
       (exists item', stored w' (k_s (accessRequestKey (upd_RequestID params))) = Some item' /\
          itemToAccessRequest item' = Ok (SetRevision (i_Revision item') req')) /\
       forall k, k <> k_s (accessRequestKey (upd_RequestID params)) -> stored w' k = stored w1 k)
  end.
Proof.
  unfold SetAccessRequestState, mthen at 1, mlift at 1. destruct (update_Check params) as [[]|] eqn:Hck; [|by intros [= <- <-]].
  apply fail_if_ok in Hck as [_ Hck]. apply fail_if_ok in Hck as [Hnone _].
  intros E. apply cmp_attempts_spec in E; [|apply update_plain]. destruct r as [req'|e]; [|done].
  destruct E as (w0 & w1 & item & item' & req & req1 & Ho & Ho' & Hst & Hd & Hc & Hv & Hw). injection Hc as Hc.
  destruct (update_state_ok _ _ _ Hc) as (Hopen & Hs & _ & Hu & Hr & He & _ & _ & Hroles & Hx).
  exists w0, w1, item, req. split_and!; try done; [by exists req1|]. intros Hn. destruct (Hw Hn) as (? & ? & ? & ?). eauto.
Qed.

(** C30: A request that is created was valid and is stored under a name that
    was free, reads back as the one that is returned, and is valid again; a
    creation that fails writes nothing. *)
Theorem created_request_reads_back (req : AccessRequestV3) (w w' : W) r :
  CreateAccessRequestV2 req w = (w', r) ->
  match r with
  | Err _ => others w w'
  | Ok req' =>
      ValidateAccessRequest (stamped (rb_Now w) req) = Ok req' /\ ValidateAccessRequest req' = Ok req' /\
      ars_DryRun (ar_Spec req') = false /\
      exists w1 item, others w w1 /\ stored w1 (k_s (accessRequestKey (request_GetName req'))) = None /\
        stored w' (k_s (accessRequestKey (request_GetName req'))) = Some item /\
        itemToAccessRequest item = Ok (SetRevision (i_Revision item) req') /\
        forall k, k <> k_s (accessRequestKey (request_GetName req')) -> stored w' k = stored w1 k
  end.
Proof.
  intros E. apply create_spec in E. destruct r as [req'|e]; [|done]. destruct E as (Hv & Hd & _ & Hw).
  split; [done|]. split; [by eapply validate_again|done].
Qed.
End Service.

Section Lists.
Context {W : Type} `{Range : RequestRange W stored calm} `{RequestJSON} `{MapOrder string} `{UUIDs}.

(** C39: When nobody writes, asking for page after page ends and gives every
    stored request the filter lets through once, in the order of the keys,
    provided that requests are stored under their names and no name starts
    with another. *)
Theorem pages_list_every_request_once (filter : AccessRequestV3 -> bool) (limit : Z) (w : W) :
  calm w -> well_kept (stored := stored) w -> 1 <= limit <= 16000 ->
  exists l w', all_pages filter limit (S (length l)) "" w = (w', Ok l) /\ (forall k, stored w' k = stored w k) /\
    StronglySorted (fun r s => before (k_s (accessRequestKey (request_GetName r))) (k_s (accessRequestKey (request_GetName s)))) l /\
    forall req, req ∈ l <-> filter req = true /\ exists item, is_params item = true /\
      k_s (i_Key item) = k_s (accessRequestKey (request_GetName req)) /\
      stored w (k_s (accessRequestKey (request_GetName req))) = Some item /\ itemToAccessRequest item = Ok req.
Proof.
  intros Hc Hw Hlim. destruct (kept_items_exist w Hc) as (items & w0 & Hc0 & Hst0 & Hk).
  destruct (all_pages_complete filter limit w items Hc Hw Hk Hlim) as (w' & E & _ & Hst).
  exists (omap (matching filter) items), w'. split_and!; [done..| |].
  - by eapply (matching_sorted filter w items).
  - intros req. by eapply (matching_elem filter w items).
Qed.
End Lists.

Section Validation.
Context `{UnicodeTables} `{RegexpCache} `{MatcherCalls} `{TraitsTemplates} `{MapOrder (list string)} `{MapOrderLaws unit}.
Context `{LabelExpressions} `{Environment} `{ResourceDocuments} `{GroupKinds} `{!AnnotationOrder} `{!AnnotationOrderLaws}.
Context `{MapOrder string} `{UUIDs} `{ReviewPredicates} `{MapOrder (list Matcher)} `{MapOrderLaws ThresholdIndexSets}.
Variable g : RequestValidatorGetter.

(** C4: For every role of a request that was validated, stored and then approved
    by reviews some directive of the requester's roles lets it be requested,
    and for every directive that does a threshold of it has as many approvals
    as it asks for, by that many users other than the requester. *)
Theorem approvals_meet_the_directives identity now req u r0 later r1 r :
  g_GetUserOrLoginState g (GetUser req) = Ok u -> unsigned_thresholds g u ->
  GetReviews req = [] -> GetState req = RequestState_NONE \/ GetState req = RequestState_PENDING ->
  ValidateAccessRequestForUser g identity now true req = Ok r0 ->
  ValidateAccessRequest (stamped later r0) = Ok r1 -> reviewed r1 r -> Z.of_nat (length (GetReviews r)) < 2 ^ 32 ->
  GetState r = RequestState_APPROVED -> forall role, role ∈ GetRoles r0 ->
  (exists thresholds, directs_request g u role thresholds) /\
  forall thresholds, directs_request g u role thresholds ->
    exists t, t ∈ thresholds /\ 1 <= th_Approve t /\ vouched r IsApproved t (th_Approve t).
Proof.
  intros Hu Hok Hr Hs Hv Hc Hrev Hlen Hst role Hrole. destruct (validated_thresholds _ _ _ _ _ _ Hu Hv) as (Ht & Er & Es).
  by eapply (approval_of_directives g u later r0 r1 r); try done; rewrite ?Er, ?Es.
Qed.

(** C13: Every role of a validated request is one that a directive of the user's
    roles permits and none denies, to be searched as when the request is for
    resources and to be requested otherwise (among the roles that were chosen
    for resources the implicit role may be one more); a wildcard becomes exactly
    the roles of the cluster that the user may request and does not hold. *)
Theorem requested_roles_are_permitted `{!NamedRoles g} identity now expand req r u :
  ValidateAccessRequestForUser g identity now expand req = Ok r -> g_GetUserOrLoginState g (GetUser req) = Ok u ->
  (forall role, role ∈ GetRoles r ->
     permits (g_GetRole g) u (bool_decide (0 < length (GetAllRequestedResourceIDs req))%nat) role \/
     role = DefaultImplicitRole /\ expand = true /\ GetRoles req = [] /\ GetAllRequestedResourceIDs req <> []) /\
  (GetRoles req = [Wildcard] -> expand = true /\ exists roles, g_GetRoles g = Ok roles /\
     forall n, n ∈ GetRoles r <->
       may_request (g_GetRole g) u n /\ (n ∉ us_Roles u) /\ (exists role, role ∈ roles /\ GetName role = n)).
Proof. intros E Hu. by apply (validated_permits g identity now expand req r u). Qed.

(** C26: A new request that validates is granted access for a while that ends: at
    most for the lifetime of a session, which the certificate and the roles
    bound, or for a duration that a directive for one of its roles states, and
    then at most for the one that was asked for; it awaits reviews for at most
    a week, and never longer than its access would last. *)
Theorem granted_time_is_bounded identity now req r u :
  ValidateAccessRequestForUser g identity now true req = Ok r -> g_GetUserOrLoginState g (GetUser req) = Ok u ->
  exists m req1, NewRequestValidatorForUser (g_GetRole g) u true = Ok m /\ timed (g_GetRole g) m identity now req1 r /\
    ars_MaxDuration (ar_Spec req1) = ars_MaxDuration (ar_Spec req) /\ GetCreationTime req1 = GetCreationTime req /\
    ars_DryRun (ar_Spec req1) = ars_DryRun (ar_Spec req) /\
    forall role d, d ∈ durations_of m role <-> d <> 0 /\ exists name R ms, name ∈ us_Roles u /\ g_GetRole g name = Ok R /\
      request_directives Allow (us_Traits u) R = Ok ms /\ let conditions := GetAccessRequestConditions Allow R in
      any_match (ms ++ literalMatchers (arc_SearchAsRoles conditions)) role = true /\ d = arc_MaxDuration conditions.
Proof.
  intros E Hu. destruct (validated_expanded _ _ _ _ _ _ E Hu) as (m & req1 & Hm & E1 & Ht & _). exists m, req1.
  split; [done|]. split; [done|]. rewrite E1. split; [done|]. split; [done|]. split; [done|]. intros role d.
  by apply (durations_of_user (g_GetRole g)).
Qed.

(** The system annotations of a new request are those that a directive which
    matches the request allows and no role of the user denies, each once, in
    order. *)
Theorem system_annotations_are_exact identity now req r u :
  ValidateAccessRequestForUser g identity now true req = Ok r -> g_GetUserOrLoginState g (GetUser req) = Ok u ->
  (forall key value, value ∈ default [] (ars_SystemAnnotations (ar_Spec r) !! key) <->
     allows_annotation (g_GetRole g) u r (key, value) /\ ~ denies_annotation (g_GetRole g) u (key, value)) /\
  forall key values, ars_SystemAnnotations (ar_Spec r) !! key = Some values -> StronglySorted before values.
Proof.
  intros E Hu. destruct (validated_expanded _ _ _ _ _ _ E Hu) as (m & req1 & Hm & _ & _ & Ha). rewrite Ha. split.
  - intros key value. by apply user_annotations.
  - apply systemAnnotations_sorted.
Qed.

(** C12: A request whose roles a user takes on was found under its name for that
    user, is approved, has begun and not expired, and every role of it is still
    one that the user's roles permit. *)
Theorem assumed_request_is_approved_and_permitted `{!NamedRoles g} getAccessRequests identity now user accessRequestID r :
  getValidatedAccessRequest g getAccessRequests identity now user accessRequestID = Ok r ->
  exists req reqs u, getAccessRequests {| f_ID := accessRequestID; f_User := user; f_State := RequestState_NONE;
      f_SearchKeywords := []; f_Scope := 0; f_Requester := "" |} = Ok (req :: reqs) /\
    g_GetUserOrLoginState g (GetUser req) = Ok u /\ us_Name u = GetUser req /\
    GetState req = RequestState_APPROVED /\ GetRoles r = GetRoles req /\ GetRoles req <> [Wildcard] /\
    now <= GetAccessExpiry req /\
    (forall start, ars_AssumeStartTime (ar_Spec req) = Some start -> start <= now) /\
    forall role, role ∈ GetRoles r ->
      permits (g_GetRole g) u (bool_decide (0 < length (GetAllRequestedResourceIDs req))%nat) role.
Proof.
  unfold getValidatedAccessRequest. intros E. apply rbind_ok in E as ([|req reqs] & Hreqs & E); [done|].
  apply fail_if_ok in E as [Hst E]. apply rbind_ok in E as (r' & Hv & E). apply fail_if_ok in E as [Hexp E].
  apply fail_if_ok in E as [Hstart E]. injection E as ->.
  assert (exists u, g_GetUserOrLoginState g (GetUser req) = Ok u) as [u Hu].
  { unfold ValidateAccessRequestForUser in Hv. apply rbind_ok in Hv as (u & Hu & _). by exists u. }
  destruct (validated_permits g identity now false req r u Hv Hu) as [Hp Hw].
  destruct (validated_checked g _ _ _ _ _ Hv Hu) as (Hn & Hr & Ha & Hs). exists req, reqs, u.
  rewrite Ha in Hexp. rewrite Hs in Hstart. split_and!; try done.
  - apply negb_false_iff in Hst. unfold IsApproved in Hst. by apply Z.eqb_eq in Hst.
  - intros Hwild. by destruct (Hw Hwild).
  - lia.
  - intros start Hs'. rewrite Hs' in Hstart. lia.
  - intros role Hin. by destruct (Hp role Hin) as [?|(_ & ? & _)].
Qed.
End Validation.

(** ** The properties at the cluster *)

#[local] Instance in_range_dec n tid : Decision (in_range n tid).
Proof. unfold in_range. apply _. Defined.
#[local] Instance countable_dec n rev : Decision (countable n rev).
Proof. unfold countable. apply _. Defined.
#[local] Instance threshold_ok_dec t : Decision (threshold_ok t).
Proof. unfold threshold_ok. apply _. Defined.

Ltac by_computation := apply (bool_decide_unpack _); vm_compute; exact I.

Lemma mapping_in_range : sets_in_range 2 request_mapping.
Proof.
  assert (Hall : map_Forall (fun _ sets => Forall (Forall (in_range 2)) sets) request_mapping) by by_computation. exact Hall.
Qed.

Lemma pending_reviewable : reviewable pending.
Proof. split; [by_computation|exact mapping_in_range|vm_compute; reflexivity|vm_compute; reflexivity]. Qed.

(** *** Dave's request *)

Lemma ok_inj {A} (x y : A) : Ok x = Ok y -> x = y.
Proof. by intros [= ->]. Qed.

Lemma ok_head {A} (x y : A) l l' : Ok (x :: l) = Ok (y :: l') -> x = y.
Proof. by intros [= -> _]. Qed.

Lemma is_ok_value {A} (x : result A) (d : A) : is_ok x = true -> x = Ok (match x with Ok a => a | Err _ => d end).
Proof. by destruct x. Qed.

Lemma dave_validates : ValidateAccessRequestForUser request_getter certificate start_time true (by_dave ["prod-web"] RequestState_NONE) =
  Ok dave_request.
Proof. unfold dave_request, validated. apply is_ok_value. vm_compute. reflexivity. Qed.

Lemma dave_roles : GetRoles dave_request = ["prod-web"].
Proof. vm_compute. reflexivity. Qed.

Lemma dave_stores : ValidateAccessRequest (stamped start_time dave_request) = Ok dave_stored.
Proof. unfold dave_stored, valid. apply is_ok_value. vm_compute. reflexivity. Qed.

Lemma dave_reviewed : reviewed dave_stored dave_approved.
Proof.
  apply (reviewed_more dave_stored (after_review "bob" RequestState_APPROVED dave_stored) dave_approved (checker_of "carol") start_time
    (review_by "carol" RequestState_APPROVED)); [|vm_compute; reflexivity|unfold dave_approved; vm_compute; reflexivity].
  apply (reviewed_more dave_stored dave_stored (after_review "bob" RequestState_APPROVED dave_stored) (checker_of "bob") start_time
    (review_by "bob" RequestState_APPROVED)); [constructor|vm_compute; reflexivity|vm_compute; reflexivity].
Qed.

Definition developer_role : RoleV6 := nth 0 cluster_roles NewImplicitRole.
Definition developer_allows : list Matcher :=
  match request_directives Allow (us_Traits dave) developer_role with Ok ms => ms | Err _ => [] end.

Lemma developer_collected : request_directives Allow (us_Traits dave) developer_role = Ok developer_allows.
Proof. unfold developer_allows. apply is_ok_value. vm_compute. reflexivity. Qed.

Lemma dave_unsigned : unsigned_thresholds request_getter dave.
Proof.
  intros name r Hin Hg. assert (Hr : r = developer_role \/ r = (nth 1 cluster_roles NewImplicitRole)).
  { apply elem_of_cons in Hin as [->|Hin]; [left|apply list_elem_of_singleton in Hin as ->; right];
      vm_compute in Hg; injection Hg as <-; vm_compute; reflexivity. }
  destruct Hr as [-> | ->]; by_computation.
Qed.

Lemma developer_directs : directs_request request_getter dave "prod-web" [threshold "two" "" 2 1].
Proof.
  exists "developer", developer_role, developer_allows. split; [by left|]. split; [vm_compute; reflexivity|].
  split; [exact developer_collected|]. split; vm_compute; reflexivity.
Qed.

Lemma approvals_meet_the_directives_witness : GetState dave_approved = RequestState_APPROVED /\
  exists t, t ∈ [threshold "two" "" 2 1] /\ 1 <= th_Approve t /\ vouched dave_approved IsApproved t (th_Approve t).
Proof.
  assert (Hst : GetState dave_approved = RequestState_APPROVED) by (vm_compute; reflexivity). split; [exact Hst|].
  assert (Hu : g_GetUserOrLoginState request_getter (GetUser (by_dave ["prod-web"] RequestState_NONE)) = Ok dave) by (vm_compute; reflexivity).
  assert (Hlen : Z.of_nat (length (GetReviews dave_approved)) < 2 ^ 32) by (vm_compute; reflexivity).
  assert (Hin : "prod-web" ∈ GetRoles dave_request) by (rewrite dave_roles; left).
  destruct (approvals_meet_the_directives request_getter certificate start_time (by_dave ["prod-web"] RequestState_NONE) dave
    dave_request start_time dave_stored dave_approved Hu dave_unsigned eq_refl (or_introl eq_refl) dave_validates dave_stores dave_reviewed
    Hlen Hst "prod-web" Hin) as [_ Hall]. exact (Hall _ developer_directs).
Defined.

Definition wild_request : AccessRequestV3 := match validated (by_dave [Wildcard] RequestState_PENDING) with Ok r => r | Err _ => asked end.

Lemma wild_validates : ValidateAccessRequestForUser request_getter certificate start_time true (by_dave [Wildcard] RequestState_PENDING) =
  Ok wild_request.
Proof. unfold wild_request, validated. apply is_ok_value. vm_compute. reflexivity. Qed.

Lemma wild_roles : GetRoles wild_request = ["prod-web"; "db"].
Proof. vm_compute. reflexivity. Qed.

Lemma requested_roles_are_permitted_witness : GetRoles wild_request = ["prod-web"; "db"] /\
  may_request cluster_get dave "prod-web" /\ ~ may_request cluster_get dave "prod-root".
Proof.
  assert (Hu : g_GetUserOrLoginState request_getter (GetUser (by_dave [Wildcard] RequestState_PENDING)) = Ok dave) by (vm_compute; reflexivity).
  destruct (requested_roles_are_permitted request_getter certificate start_time true (by_dave [Wildcard] RequestState_PENDING) wild_request dave
    wild_validates Hu) as [_ Hw]. destruct (Hw eq_refl) as (_ & roles & Hg & Hn). injection Hg as <-. split; [exact wild_roles|].
  split; [apply (Hn "prod-web"); rewrite wild_roles; left|].
  intros Hroot. assert (Hin : "prod-root" ∈ GetRoles wild_request).
  { apply Hn. split; [exact Hroot|]. split; [by_computation|]. exists (nth 3 cluster_roles NewImplicitRole). split; [|vm_compute; reflexivity].
    do 3 right. left. }
  rewrite wild_roles in Hin. revert Hin. by_computation.
Defined.

Lemma granted_time_is_bounded_witness : exists m, NewRequestValidatorForUser cluster_get dave true = Ok m /\
  exists req1, timed cluster_get m certificate start_time req1 dave_request /\ GetAccessExpiry dave_request = start_time + 14 * day /\
  14 * day ∈ durations_of m "prod-web".
Proof.
  assert (Hu : g_GetUserOrLoginState request_getter (GetUser (by_dave ["prod-web"] RequestState_NONE)) = Ok dave) by (vm_compute; reflexivity).
  destruct (granted_time_is_bounded request_getter certificate start_time (by_dave ["prod-web"] RequestState_NONE) dave_request dave
    dave_validates Hu) as (m & req1 & Hm & Ht & _ & _ & _ & Hd). exists m. split; [exact Hm|]. exists req1. split; [exact Ht|].
  split; [vm_compute; reflexivity|]. apply Hd. split; [vm_compute; discriminate|].
  exists "developer", developer_role, developer_allows. split; [left|]. split; [vm_compute; reflexivity|].
  split; [exact developer_collected|]. split; vm_compute; reflexivity.
Defined.

Lemma system_annotations_are_exact_witness :
  ars_SystemAnnotations (ar_Spec dave_request) !! "team" = Some ["payments"] /\
  allows_annotation cluster_get dave dave_request ("team", "payments") /\
  ~ (allows_annotation cluster_get dave dave_request ("team", "oncall") /\ ~ denies_annotation cluster_get dave ("team", "oncall")).
Proof.
  assert (Hu : g_GetUserOrLoginState request_getter (GetUser (by_dave ["prod-web"] RequestState_NONE)) = Ok dave) by (vm_compute; reflexivity).
  destruct (system_annotations_are_exact request_getter certificate start_time (by_dave ["prod-web"] RequestState_NONE) dave_request dave
    dave_validates Hu) as [Hx _]. split; [exact dave_team|]. split.
  - apply (proj1 (Hx "team" "payments")). rewrite dave_team. left.
  - intros Hno. pose proof (proj2 (Hx "team" "oncall") Hno) as Hin. rewrite dave_team in Hin. revert Hin. by_computation.
Defined.

(** The request as it is approved, when Dave takes on its role. *)
Definition approved_requests (f : AccessRequestFilter) : result (list AccessRequestV3) :=
  if bool_decide (f_ID f = name_of "4") && bool_decide (f_User f = "dave") then Ok [dave_approved] else Ok [].
Definition assumed : result AccessRequestV3 :=
  getValidatedAccessRequest request_getter approved_requests certificate (start_time + Hour) "dave" (name_of "4").
Definition assumed_request : AccessRequestV3 := match assumed with Ok r => r | Err _ => asked end.

Lemma dave_assumes : getValidatedAccessRequest request_getter approved_requests certificate (start_time + Hour) "dave" (name_of "4") =
  Ok assumed_request.
Proof. unfold assumed_request, assumed. apply is_ok_value. vm_compute. reflexivity. Qed.

Example too_late : is_ok (getValidatedAccessRequest request_getter approved_requests certificate (start_time + 15 * day) "dave" (name_of "4")) = false.
Proof. vm_compute. reflexivity. Qed.

Lemma assumed_request_is_approved_and_permitted_witness : GetRoles assumed_request = ["prod-web"] /\
  may_request cluster_get dave "prod-web" /\ start_time + Hour <= GetAccessExpiry dave_approved.
Proof.
  destruct (assumed_request_is_approved_and_permitted request_getter approved_requests certificate (start_time + Hour) "dave" (name_of "4")
    assumed_request dave_assumes) as (req & reqs & u & Hreqs & Hu & _ & _ & Er & _ & Hexp & _ & Hp).
  assert (Hfound : approved_requests {| f_ID := name_of "4"; f_User := "dave"; f_State := RequestState_NONE; f_SearchKeywords := [];
    f_Scope := 0; f_Requester := "" |} = Ok [dave_approved]) by (vm_compute; reflexivity).
  rewrite Hfound in Hreqs. apply ok_head in Hreqs as <-.
  assert (Hroles : GetRoles assumed_request = ["prod-web"]) by (vm_compute; reflexivity). split; [exact Hroles|].
  assert (Hname : g_GetUserOrLoginState request_getter (GetUser dave_approved) = Ok dave) by (vm_compute; reflexivity).
  rewrite Hname in Hu. apply ok_inj in Hu as <-.
  assert (Hnone : bool_decide (0 < length (GetAllRequestedResourceIDs dave_approved))%nat = false) by (vm_compute; reflexivity).
  rewrite Hnone in Hp. split; [|exact Hexp]. apply (Hp "prod-web"). rewrite Hroles. left.
Defined.
Lemma both_reviewed : reviewed pending by_both.
Proof.
  apply (reviewed_more pending by_bob by_both (checker_of "carol") start_time (review_by "carol" RequestState_APPROVED));
    [|vm_compute; reflexivity|unfold by_both; vm_compute; reflexivity].
  apply (reviewed_more pending pending by_bob (checker_of "bob") start_time (review_by "bob" RequestState_APPROVED));
    [constructor|vm_compute; reflexivity|vm_compute; reflexivity].
Qed.

Lemma reviews_count_as_the_reference_witness :
  resolvable by_both /\ calculateReviewBasedResolution by_both =
    Ok (reference_resolution (GetThresholds by_both) (GetRoleThresholdMapping by_both) (GetReviews by_both)).
Proof.
  assert (Hr : resolvable by_both) by (split; [by_computation|exact mapping_in_range|by_computation|vm_compute; reflexivity]).
  split; [exact Hr|]. apply (reviews_count_as_the_reference by_both Hr). vm_compute. discriminate.
Defined.

Lemma verdicts_are_vouched_for_witness : GetState by_both = RequestState_APPROVED /\
  exists tid t, tid ∈ [1] /\ request_thresholds !! Z.to_nat tid = Some t /\ 1 <= th_Approve t /\ vouched by_both IsApproved t (th_Approve t).
Proof.
  split; [vm_compute; reflexivity|].
  apply (proj1 (verdicts_are_vouched_for pending by_both pending_reviewable both_reviewed ltac:(vm_compute; reflexivity))
    ltac:(vm_compute; reflexivity) "prod-web" [[0]; [1]] [1]); [vm_compute; reflexivity|right; left].
Defined.

Lemma requests_settle_at_once_witness :
  settles request_thresholds request_mapping (GetReviews by_both) = true /\ IsResolved (GetState by_both) = true /\
  settles request_thresholds request_mapping (GetReviews by_bob) = false.
Proof.
  destruct (requests_settle_at_once pending by_both pending_reviewable ltac:(vm_compute; reflexivity) both_reviewed
    ltac:(vm_compute; reflexivity)) as (Hp & _ & Hs).
  assert (Hset : settles request_thresholds request_mapping (GetReviews by_both) = true) by (vm_compute; reflexivity).
  split; [exact Hset|]. split; [exact (proj1 Hs Hset)|].
  apply (Hp _ (drop 1 (GetReviews by_both))); [vm_compute; reflexivity|vm_compute; discriminate].
Defined.

Lemma checker_made name : is_ok (NewReviewPermissionChecker get_user get_role name None) = true ->
  NewReviewPermissionChecker get_user get_role name None = Ok (checker_of name).
Proof. unfold checker_of. by destruct (NewReviewPermissionChecker _ _ _ _). Qed.

Lemma review_permission_is_exact_witness :
  user_may_review get_role (rpc_UserState (checker_of "carol")) pending /\
  ~ user_may_review get_role (rpc_UserState (checker_of "alice")) pending.
Proof.
  pose proof (review_permission_is_exact get_user get_role "carol" None (checker_of "carol") pending (checker_made "carol" eq_refl)) as [Hc _].
  pose proof (review_permission_is_exact get_user get_role "alice" None (checker_of "alice") pending (checker_made "alice" eq_refl)) as [Ha _].
  split; [apply (Hc true); [vm_compute; reflexivity|reflexivity]|].
  intros Hm. apply (Ha false) in Hm; [discriminate Hm|vm_compute; reflexivity].
Defined.

(** Carol's review, and what it found in the store. *)
Lemma carol_run : DynamicAccess_ApplyAccessReview carol_review (checker_of "carol") contended = (fst carol_out, snd carol_out).
Proof. unfold carol_out. apply surjective_pairing. Qed.

Lemma carol_approves : match snd carol_out with Ok r => bool_decide (GetState r = RequestState_APPROVED) | Err _ => false end = true.
Proof. vm_compute. reflexivity. Qed.

Lemma review_is_atomic_witness : exists req', snd carol_out = Ok req' /\ GetState req' = RequestState_APPROVED /\
  exists w0 w1 item req req1,
    interleaved contended w0 /\ interleaved w0 w1 /\
    stored_request w0 (k_s (accessRequestKey (sub_RequestID carol_review))) = Some item /\ itemToAccessRequest item = Ok req /\
    CanReviewRequest (checker_of "carol") req = Ok true /\
    ApplyAccessReview (rb_Now w0) (sub_Review carol_review) (rpc_UserState (checker_of "carol")) req = (req1, Ok tt) /\
    ValidateAccessRequest req1 = Ok req'.
Proof.
  pose proof (review_is_atomic carol_review (checker_of "carol") contended (fst carol_out) (snd carol_out)
    carol_run) as Hx.
  pose proof carol_approves as Hok.
  destruct (snd carol_out) as [req'|e]; [|discriminate Hok]. exists req'. split; [reflexivity|].
  split; [exact (bool_decide_eq_true_1 _ Hok)|]. destruct Hx as (w0 & w1 & item & req & req1 & Hx).
  exists w0, w1, item, req, req1. tauto.
Defined.

(** An approval of one of the two roles, and one of a request that is denied. *)
Definition one_request : Requests := world_with [DoPut (item_of pending); DoPut (item_of refused_request)] [].
Definition approval_out : Requests * result AccessRequestV3 := SetAccessRequestState approval one_request.

Example denied_stays_denied : is_ok (snd (SetAccessRequestState
  {| upd_RequestID := name_of "2"; upd_State := RequestState_APPROVED; upd_Reason := ""; upd_Annotations := ∅;
     upd_Roles := []; upd_AssumeStartTime := None |} one_request)) = false.
Proof. vm_compute. reflexivity. Qed.

Lemma approval_run : SetAccessRequestState approval one_request = (fst approval_out, snd approval_out).
Proof. unfold approval_out. apply surjective_pairing. Qed.

Lemma approval_succeeds : match snd approval_out with Ok r => bool_decide (GetRoles r = ["db"]) | Err _ => false end = true.
Proof. vm_compute. reflexivity. Qed.

Lemma state_update_is_atomic_and_final_witness : exists req', snd approval_out = Ok req' /\ GetRoles req' = ["db"] /\
  exists w0 item req, interleaved one_request w0 /\
    stored_request w0 (k_s (accessRequestKey (upd_RequestID approval))) = Some item /\ itemToAccessRequest item = Ok req /\
    IsResolved (GetState req) = false.
Proof.
  pose proof (state_update_is_atomic_and_final approval one_request (fst approval_out) (snd approval_out)
    approval_run) as Hx.
  pose proof approval_succeeds as Hok.
  destruct (snd approval_out) as [req'|e]; [|discriminate Hok]. exists req'. split; [reflexivity|].
  split; [exact (bool_decide_eq_true_1 _ Hok)|]. destruct Hx as (w0 & w1 & item & req & Hx). exists w0, item, req. tauto.
Defined.

Definition empty_world : Requests := world_with [] [].
Definition created_out : Requests * result AccessRequestV3 := CreateAccessRequestV2 asked empty_world.

Example a_name_is_used_once : is_ok (snd (CreateAccessRequestV2 asked (fst created_out))) = false.
Proof. vm_compute. reflexivity. Qed.

Lemma creation_run : CreateAccessRequestV2 asked empty_world = (fst created_out, snd created_out).
Proof. unfold created_out. apply surjective_pairing. Qed.

Lemma creation_succeeds : is_ok (snd created_out) = true.
Proof. vm_compute. reflexivity. Qed.

Lemma created_request_reads_back_witness : exists req', snd created_out = Ok req' /\ ValidateAccessRequest req' = Ok req' /\
  exists item, stored_request (fst created_out) (k_s (accessRequestKey (request_GetName req'))) = Some item /\
    itemToAccessRequest item = Ok (SetRevision (i_Revision item) req').
Proof.
  pose proof (created_request_reads_back asked empty_world (fst created_out) (snd created_out) creation_run) as Hx.
  pose proof creation_succeeds as Hok.
  destruct (snd created_out) as [req'|e]; [|discriminate Hok]. exists req'. split; [reflexivity|].
  destruct Hx as (_ & Hv & _ & w1 & item & _ & _ & Hs & Hd & _). split; [exact Hv|]. exists item. tauto.
Defined.

(** Three requests, in pages of two. *)
Definition three_requests : Requests := world_with [DoPut (item_of pending); DoPut (item_of second_pending); DoPut (item_of refused_request)] [].
#[local] Abbreviation three_items := (contents (proj1_sig (proj1_sig (rw_store three_requests)))).

Definition name_of_item (i : Item) : option string :=
  if is_params i then match itemToAccessRequest i with Ok r => Some (request_GetName r) | Err _ => None end else None.

Lemma name_of_item_ok i r : is_params i = true -> itemToAccessRequest i = Ok r -> name_of_item i = Some (request_GetName r).
Proof. unfold name_of_item. by intros -> ->. Qed.

#[local] Instance apart_dec m n : Decision (apart m n).
Proof. unfold apart. apply _. Defined.

Definition item_placed (i : Item) : bool :=
  match name_of_item i with
  | Some n => bool_decide (k_s (i_Key i) = k_s (accessRequestKey n) /\ n <> "")
  | None => true
  end.
Definition items_apart (i j : Item) : bool :=
  match name_of_item i, name_of_item j with Some m, Some n => bool_decide (m = n \/ apart m n) | _, _ => true end.

Lemma stored_all (P : Item -> Prop) (w : Requests) k i :
  map_Forall (fun _ i => P i) (contents (proj1_sig (proj1_sig (rw_store w)))) -> stored_request w k = Some i -> P i.
Proof. intros Hm Hs. exact (Hm k i Hs). Qed.

Lemma three_well_kept : well_kept (stored := stored_request) three_requests.
Proof.
  assert (Hp : map_Forall (fun _ i => item_placed i = true) three_items) by by_computation.
  assert (Ha : map_Forall (fun _ i => map_Forall (fun _ j => items_apart i j = true) three_items) three_items) by by_computation.
  split.
  - intros item req Hs Hpar Hd. apply (stored_all _ _ _ _ Hp) in Hs as Hi. unfold item_placed in Hi. rewrite (name_of_item_ok _ _ Hpar Hd) in Hi.
    by apply bool_decide_eq_true in Hi.
  - intros i j r s Hi Hj Hpi Hpj Hdi Hdj Hne. apply (stored_all _ _ _ _ Ha) in Hi. apply (stored_all _ _ _ _ Hi) in Hj.
    unfold items_apart in Hj. rewrite (name_of_item_ok _ _ Hpi Hdi), (name_of_item_ok _ _ Hpj Hdj) in Hj.
    apply bool_decide_eq_true in Hj as [?|?]; done.
Qed.

Lemma three_calm : calm_world three_requests.
Proof.
  split; [vm_compute; reflexivity| |by_computation].
  assert (Hf : map_Forall (fun _ i => i_Expires i = None) three_items) by by_computation.
  intros k i. apply (stored_all (fun i => i_Expires i = None)). exact Hf.
Qed.

Example pages_of_two : request_GetName <$>
    (match snd (all_pages (fun r => IsPending (GetState r)) 1 3 "" three_requests) with Ok l => l | Err _ => [] end) = [name_of "1"; name_of "3"].
Proof. vm_compute. reflexivity. Qed.

Lemma pages_list_every_request_once_witness : exists l w', all_pages (fun _ => true) 2 (S (length l)) "" three_requests = (w', Ok l) /\
  forall req, req ∈ l <-> true = true /\ exists item, is_params item = true /\
    k_s (i_Key item) = k_s (accessRequestKey (request_GetName req)) /\
    stored_request three_requests (k_s (accessRequestKey (request_GetName req))) = Some item /\ itemToAccessRequest item = Ok req.
Proof.
  destruct (pages_list_every_request_once (fun _ => true) 2 three_requests three_calm three_well_kept ltac:(lia)) as (l & w' & E & _ & _ & Hl).
  exists l, w'. split; [exact E|exact Hl].
Defined.
